(* ===== verification/_CoqProject ===== *)
-Q . S2P
Prelude.v
Pmm.v
PmmProofs.v
PmmInit.v
PmmRefine.v
ObjectStorage.v
Kernel.v
Objects.v
Capability.v
CapabilityProofs.v
CapabilityRefine.v
Endpoint.v
ObjectLife.v
CapabilityTheorems.v
Thread.v
ThreadWaits.v
Ring.v
Scheduler.v
SchedulerProofs.v
SchedulerWf.v
SchedulerOps.v
SchedulerTheorems.v
Ipc.v
IpcWf.v
IpcOps.v
IpcReserve.v
IpcCalls.v
IpcClose.v
IpcEvents.v
IpcTheorems.v
ExitQueue.v
ExitRing.v
ExitData.v
ExitClose.v
ExitWaits.v
ExitBlocking.v
ExitEvents.v
ExitTheorems.v
Process.v
ProcessThreads.v
ProcessTheorems.v
Joint.v
Task.v
TaskProofs.v
TaskFault.v
TaskTheorems.v
Frames.v
Vmm.v
VmmWf.v
VmmEdit.v
VmmOps.v
VmmMap.v
VmmCalls.v
VmmUnmap.v
VmmLife.v
VmmShare.v
VmmMachine.v
VmmTheorems.v
Space.v
SpaceWf.v
SpaceOps.v
SpaceLife.v
SpaceCreate.v
SpaceMachine.v
SpaceTheorems.v
Vfs.v
VfsTree.v
Tar.v
FileTheorems.v
UserMemory.v
UserElf.v
ElfClaims.v
ElfRelease.v
ElfMap.v
ElfLoad.v
ElfTheorems.v
Stacks.v
StackTheorems.v
ThreadLife.v
ThreadLifeTheorems.v
