(* ===== verification/Prelude.v ===== *)
(** * A verification development for the JCOS microkernel

    JCOS (src/) is a capability microkernel for x86-64 written in C. A physical
    frame allocator owns memory. Kernel objects (threads, processes, address
    spaces, endpoints, device resources, exit queues) live in caller-provided
    storage and are recognised through fixed registries of live addresses.
    Processes hold authority in capability tables. A scheduler keeps the
    runnable threads of one processor in a circular list; message passing and
    exit queues block and wake threads through one wait protocol; a timer
    interrupt ends timed waits. Address spaces are page tables in physical frames;
    programs come from an archive mounted in a virtual file system, are loaded
    into address spaces, and run on guarded kernel stacks.

    ** Files and what they model

    - [Prelude]: fixed-width arithmetic, C-like notation (scope [jcos_scope]),
      struct update, tactics, hints and lemmas on lists shared by all files.
    - [Pmm], [PmmProofs], [PmmInit], [PmmRefine]: kernel/pmm.c and
      kernel/physmap.c. The module globals are the record [Pmm]; the bitmap is
      the byte array of the code.
    - [ObjectStorage]: kernel/object_storage.h, the registries.
    - [Kernel]: the record [Kernel], storage of every object type as a finite
      map from addresses, and the static data of the object modules, from
      thread.h, process.h, endpoint.h, capability.h, address_space.h,
      device_resource.h, process_exit_queue.h and the matching .c files.
    - [Objects]: liveness queries and all of kernel/device_resource.c.
    - [Capability], [CapabilityProofs], [CapabilityRefine],
      [CapabilityTheorems]: kernel/capability.c.
    - [Endpoint], [ObjectLife]: kernel/endpoint.c, and the lifetime of objects
      under capabilities.
    - [Thread], [ThreadWaits]: the wait protocol, contexts and activation of
      kernel/thread.c.
    - [Ring], [Scheduler], [SchedulerProofs], [SchedulerWf], [SchedulerOps],
      [SchedulerTheorems]: kernel/scheduler.c. What the scheduler asks of
      kernel/kernel_stack.c is the class [KernelStack].
    - [Ipc], [IpcWf], [IpcOps], [IpcReserve], [IpcCalls], [IpcClose],
      [IpcEvents], [IpcTheorems]: kernel/ipc.c and the tick path of
      kernel/timer.c.
    - [ExitQueue], [ExitRing], [ExitData], [ExitClose], [ExitWaits],
      [ExitBlocking], [ExitEvents], [ExitTheorems]:
      kernel/process_exit_queue.c.
    - [Process], [ProcessThreads], [ProcessTheorems]: kernel/process.c.
    - [Joint]: what the steps of message passing leave of the exit queues and the
      reverse, so that both invariants hold at once.
    - [Task], [TaskProofs], [TaskFault], [TaskTheorems]:
      kernel/task.c, the components composed.
    - [Frames], [Vmm], [VmmWf], [VmmEdit], [VmmOps], [VmmMap], [VmmCalls],
      [VmmUnmap], [VmmLife], [VmmShare], [VmmMachine], [VmmTheorems]:
      kernel/vmm.c on top of the frame allocator. Page tables are words in
      physical frames; the record [Cpu] holds the control registers and the
      translations the processor has cached.
    - [Space], [SpaceWf], [SpaceOps], [SpaceLife], [SpaceCreate],
      [SpaceMachine], [SpaceTheorems]: kernel/address_space.c, over the kernel
      objects and the page tables joined in the record [System].
    - [Vfs], [VfsTree], [Tar], [FileTheorems]: kernel/vfs.c and kernel/tar.c.
      Nodes keep the links of the source; [VfsTree] is the abstract tree, a finite
      map from paths to entries, that they represent.
    - [UserMemory]: kernel/user_memory.c and kernel/user_stack.c.
    - [UserElf], [ElfClaims], [ElfRelease], [ElfMap], [ElfLoad], [ElfTheorems]:
      kernel/user_elf.c, over the record [Loader]: the system, the ledgers of the
      images and the one-shot diagnostics.
    - [Stacks], [StackTheorems]: kernel/kernel_stack.c, over the record [Arena]:
      the system and the two globals of the module. [arena_stacks] is its
      instance of [KernelStack].
    - [ThreadLife], [ThreadLifeTheorems]: the rest of kernel/thread.c (boot,
      construction, user contexts, destruction), over the record [Threads]: the
      arena and the statics that construction uses.

    Within a component, the first file holds the definitions with the names of
    the source, the files after it the invariant and the lemmas, and the last
    one the theorems with concrete witnesses.

    ** How the code is modelled

    A pointer is a [Z] and null is [0]. A [uN] is a [Z] whose wrap-around is
    written out. A function that changes state takes and returns the state;
    false results are kept as [bool], missing results as [option].
    [cpu_halt_forever] is [None], so a theorem that an operation returns
    [Some _] says that its internal consistency checks do not fire. The kernel
    runs on one processor and brackets its critical sections with interrupt
    save and restore: each bracket is one atomic step, and interleavings are
    sequences of such steps. A call that blocks is split where it calls
    [scheduler_wait_current]; what its kernel stack keeps is a continuation
    ([Waiting], [ExitWaiting]), and the maps [C] and [W] of the invariants hold
    the continuations of all blocked threads. The model also lets other steps
    run between entering a wait and the first turn of its loop, which the code
    excludes.

    Loops over arrays are folds over their indices. Walks over linked lists
    recurse on the counter the code itself compares with ([sm_run_count],
    [p_thread_count]) or on the capacity of the registry they follow; the
    theorems show that this is enough: a walk that follows the represented list
    ends at its end before the fuel does. Walks along a path have a turn for
    every character, walks over an archive one for every block of it, and walks
    over the links of file-system nodes one for each of the 256 nodes. The loop
    that closes the endpoints of a process has one test more than the registry
    has entries; a loop that runs out has no result, so the theorems about it
    include its termination.

    ** What the theorems show

    - C1, C4, C6: on a firmware map with disjoint usable spans [pmm_init] builds
      a consistent bitmap of the conventional frames, and it succeeds when one
      span has room for the bitmap of the whole range; allocation
      returns free frames and only them, release accepts exactly owned spans
      unless the one-shot release fault is armed, and the module, the fault
      included, refines a finite set of free frames.
    - C7, C9: capability operations refine an abstract store of authority; a
      handle is never reissued; no capability outlives its object.
    - C10: the first terminal outcome of a wait is the only one.
    - C11: the scheduler refines an abstract machine (run list, owner of the
      processor, blocked set) and never halts. [SchedulerTheorems] also shows
      that yields go round-robin.
    - C13-C17, C19, C20: any interleaving of IPC calls, wait-loop turns, timer interrupts
      and scheduling keeps the invariant without halting; a thread is blocked
      only while what it waits for has not happened; messages are neither lost,
      duplicated nor reordered, and while the diagnostic hook is unarmed blocked
      sends report success exactly for the messages that were accepted; timeouts
      are exact across the wrap-around of the tick counter; closing settles
      every waiter, and closing the endpoints of a process ends.
    - C21, C23: the same for exit queues: they refine lists of events, and the exit
      of a watched process reaches the thread that waits for it. [ExitTheorems]
      also shows that no wake-up is lost, that the reservation of a slot
      guarantees the publication, that the run-time validity check is exactly
      liveness, and that closing keeps published events.
    - C27, C29: the thread list of a process refines a list, and the first
      terminal outcome of a process wins and reaches the queue that watches it.
    - C31-C34: under both invariants a thread can be ended wherever it waits, a
      faulting process ends as a whole, a thread that exits ends its process
      exactly when it is the last, and the composed machine (message passing,
      exit queues, timer, scheduling, termination in any order) never halts.
    - C35-C39: mapping, unmapping and protecting a page change the translation
      of that page alone, with rollback on every failure; destroying an inactive
      map gives every table back; any sequence of operations keeps the tables typed,
      disjoint and allocated, conserves the frames and leaves no stale
      translation in the processor.
    - C30, C40: the creation of an address space, with the roll-back of each of
      its failures; any sequence of operations on address spaces refines an
      abstract store of page maps, in which user pages are never writable and
      executable, and leaves every space outside its user range with kernel
      pages only.
    - C2, C5, C8: reads of user memory store exactly the bytes a program sees; a
      load puts exactly the segments of a valid file in the space, with the bytes
      and the permissions that the file's own program headers give them, and
      otherwise changes nothing; an unload of a process without threads, resumed
      as often as it takes, restores the state before the load.
    - C22, C24: mapping a guarded kernel stack and releasing one are
      transactions; the consistency checks of the module never fire, because
      the initialisation of the arena leaves every page table it needs and the
      tables of the running map are never pruned.
    - C12, C18: constructing and destroying a thread are transactions over
      frames, the kernel map, the registry and the list of the process: no frame
      is lost whichever step or roll-back fails, and the checks that halt the
      kernel never fire. Destruction is granted exactly to a thread nothing
      refers to. Boot establishes the invariant ([system_init_call]).
    - C3, C25: the file system refines a finite map from paths to entries, on
      every branch of its operations; the path of a node leads back to it.
    - C26, C28: mounting terminates on every archive and adds only files that lie
      inside it; on the archive a reference writer makes of a list of entries it
      adds exactly these.

    ** Not modelled

    Device and processor programming (interrupt controllers, descriptor tables,
    assembly entry points, ACPI, PCI, USB, AHCI, serial, audio, graphics) is I/O
    on hardware the sources do not describe. The shell, the consoles, the
    services and the programs under user/ and loader/ are clients of the kernel.
    Process creation and destruction, [task_quiesce_process], program launch,
    the system-call layer and the disk formats (gpt.c, fat32.c) are left out. [vmm_query_page] has no
    interrupt bracket of its own in the source; it is one step here, as its
    callers run it. *)

From Stdlib Require Export ZArith Lia.
From stdpp Require Export prelude gmap list numbers.

#[export] Set Default Goal Selector "!".
Open Scope Z_scope.

(** * Fixed-width unsigned integers

    A [uN] of the source is a [Z]; the wrap-around of an arithmetic result is
    written out with [u8], [u32] or [u64]. *)

Definition U64_MAX : Z := 2 ^ 64 - 1.

Definition u64 (x : Z) : Z := x mod 2 ^ 64.

Definition u32 (x : Z) : Z := x mod 2 ^ 32.

Definition u8 (x : Z) : Z := x mod 2 ^ 8.

#[global] Arguments u64 : simpl never.
#[global] Arguments u32 : simpl never.
#[global] Arguments u8 : simpl never.

(** The C truth value of an integer or of a pointer. *)
Definition nz (x : Z) : bool := negb (x =? 0).

#[global] Arguments nz : simpl never.

(** The value range of a [u64] object. *)
Definition is_u64 (x : Z) : Prop := 0 <= x < 2 ^ 64.

Declare Scope jcos_scope.
Delimit Scope jcos_scope with jcos.
Notation "! x" := (negb x) (at level 35, right associativity) : jcos_scope.
Notation "x != y" := (negb (Z.eqb x y)) (at level 70, no associativity) : jcos_scope.
Notation "x >? y" := (Z.ltb y x) (at level 70, no associativity) : jcos_scope.
Notation "x >=? y" := (Z.leb y x) (at level 70, no associativity) : jcos_scope.

(** * Field update of a C struct

    [r <| f := v |>] is [r] with the field [f] assigned. The setter of a field
    is derived from the record's [Rebuild] instance. *)

Class Rebuild (R : Type) := rebuild : R -> R.

Class Setter {R T : Type} (proj : R -> T) := setter : (T -> T) -> R -> R.

Definition upd {R T} (proj : R -> T) `{s : Setter R T proj} (f : T -> T) (r : R) : R := s f r.

Ltac derive_setter :=
  lazymatch goal with
  | |- @Setter ?R ?T ?proj =>
    let inst := constr:(ltac:(typeclasses eauto) : Rebuild R) in
    let e := eval hnf in inst in
    let e := eval cbv beta delta [rebuild] in e in
    let p := eval pattern proj in e in
    lazymatch p with
    | ?g _ =>
      let t := eval cbv beta in (fun f : T -> T => g (fun r => f (proj r))) in exact t
    end
  end.

#[export] Hint Extern 1 (Setter _) => derive_setter : typeclass_instances.

Notation "r <| f := v |>" := (upd f (fun _ => v) r)
  (at level 1, left associativity, f constr at level 0).

(** * Tactics of the development *)

(** Read a field through a chain of updates. *)
Ltac upd_simpl :=
  repeat match goal with
  | |- context [ ?p (@upd ?R ?T ?q ?s ?f ?r) ] =>
    first [ progress change (p (@upd R T q s f r)) with (f (q r))
          | progress change (p (@upd R T q s f r)) with (p r) ]; cbv beta
  end.

Ltac upd_simpl_in H :=
  repeat match type of H with
  | context [ ?p (@upd ?R ?T ?q ?s ?f ?r) ] =>
    first [ progress change (p (@upd R T q s f r)) with (f (q r)) in H
          | progress change (p (@upd R T q s f r)) with (p r) in H ]; cbv beta in H
  end.

(** Turn the C conditions in the context into propositions. *)
Ltac bool_prop :=
  repeat match goal with
  | H : negb _ = true |- _ => apply negb_true_iff in H
  | H : negb _ = false |- _ => apply negb_false_iff in H
  | H : (_ && _)%bool = true |- _ => apply andb_true_iff in H; destruct H
  | H : (_ || _)%bool = false |- _ => apply orb_false_iff in H; destruct H
  | H : (_ =? _)%Z = true |- _ => apply Z.eqb_eq in H
  | H : (_ =? _)%Z = false |- _ => apply Z.eqb_neq in H
  | H : (_ <? _)%Z = true |- _ => apply Z.ltb_lt in H
  | H : (_ <? _)%Z = false |- _ => apply Z.ltb_ge in H
  | H : (_ <=? _)%Z = true |- _ => apply Z.leb_le in H
  | H : (_ <=? _)%Z = false |- _ => apply Z.leb_gt in H
  | H : nz _ = true |- _ => apply negb_true_iff, Z.eqb_neq in H
  | H : nz _ = false |- _ => apply negb_false_iff, Z.eqb_eq in H
  end.

(** Case analysis on the next C condition of the goal. *)
Ltac if_case :=
  match goal with
  | |- context [ if ?b then _ else _ ] => let E := fresh "E" in destruct b eqn:E
  end.

Ltac if_case_in H :=
  match type of H with
  | context [ if ?b then _ else _ ] => let E := fresh "E" in destruct b eqn:E
  end.

(** * Machine-integer lemmas *)

Lemma u64_id x : is_u64 x -> u64 x = x.
Proof. intros H. unfold u64. by rewrite Z.mod_small. Qed.

Lemma u64_range x : is_u64 (u64 x).
Proof. unfold is_u64, u64. apply Z.mod_pos_bound. lia. Qed.

Lemma u32_id x : 0 <= x < 2 ^ 32 -> u32 x = x.
Proof. intros H. unfold u32. by rewrite Z.mod_small. Qed.

Lemma u8_range x : 0 <= u8 x < 256.
Proof. unfold u8. apply (Z.mod_pos_bound x 256). lia. Qed.

(** A masked test of one bit, as the source writes it. *)
Lemma land_bit_testbit x b :
  0 <= b -> negb (Z.land x (Z.shiftl 1 b) =? 0) = Z.testbit x b.
Proof.
  intros Hb. rewrite Z.shiftl_1_l.
  destruct (Z.testbit x b) eqn:E.
  - apply negb_true_iff, Z.eqb_neq. intros H0.
    assert (Z.testbit (Z.land x (2 ^ b)) b = false) as H1 by (rewrite H0; apply Z.bits_0).
    rewrite Z.land_spec, E, Z.pow2_bits_true in H1 by lia. done.
  - apply negb_false_iff, Z.eqb_eq. apply Z.bits_inj'. intros k Hk.
    rewrite Z.land_spec, Z.bits_0, Z.pow2_bits_eqb by lia.
    destruct (Z.eqb_spec b k) as [->|]; [by rewrite E | by rewrite andb_false_r].
Qed.

Lemma u8_shiftl_1 b : 0 <= b < 8 -> u8 (Z.shiftl 1 b) = Z.shiftl 1 b.
Proof.
  intros Hb. unfold u8. rewrite Z.shiftl_1_l, Z.mod_small; [done|].
  split; [apply Z.pow_nonneg; lia | apply Z.pow_lt_mono_r; lia].
Qed.

(** A byte stays a byte under [|] with a byte and under [&]. *)
Lemma byte_lor x y : 0 <= x < 256 -> 0 <= y < 256 -> 0 <= Z.lor x y < 256.
Proof.
  intros Hx Hy. split; [apply Z.lor_nonneg; lia|].
  destruct (decide (Z.lor x y = 0)) as [->|Hn]; [lia|].
  assert (0 < Z.lor x y) by (pose proof (Z.lor_nonneg x y); lia).
  change 256 with (2 ^ 8). apply Z.log2_lt_pow2; [done|].
  rewrite Z.log2_lor by lia.
  apply Z.max_lub_lt.
  - destruct (decide (x = 0)) as [->|]; [done | apply Z.log2_lt_pow2; lia].
  - destruct (decide (y = 0)) as [->|]; [done | apply Z.log2_lt_pow2; lia].
Qed.

Lemma byte_land x y : 0 <= x < 256 -> 0 <= y -> 0 <= Z.land x y < 256.
Proof.
  intros Hx Hy.
  assert (Z.land x y = Z.land x y mod 2 ^ 8) as ->.
  { rewrite <- Z.land_ones by lia. rewrite <- Z.land_assoc, (Z.land_comm y), Z.land_assoc.
    rewrite Z.land_ones, (Z.mod_small x) by lia. done. }
  apply Z.mod_pos_bound. lia.
Qed.

Lemma land_7_mod i : Z.land i 7 = i mod 8.
Proof. change 7 with (Z.ones 3). by rewrite Z.land_ones. Qed.

Lemma shiftr_3_div i : Z.shiftr i 3 = i / 8.
Proof. by rewrite Z.shiftr_div_pow2. Qed.

(** * Counting the indices of an initial interval that satisfy a test *)

Definition count_if (f : Z -> bool) (n : Z) : Z :=
  Z.of_nat (length (List.filter f (seqZ 0 n))).

Lemma seqZ_snoc n : 0 <= n -> seqZ 0 (n + 1) = seqZ 0 n ++ [n].
Proof. intros Hn. by rewrite seqZ_app by lia. Qed.

Lemma count_if_0 f : count_if f 0 = 0.
Proof. done. Qed.

Lemma count_if_succ f n :
  0 <= n -> count_if f (n + 1) = count_if f n + (if f n then 1 else 0).
Proof.
  intros Hn. unfold count_if. rewrite seqZ_snoc by done.
  rewrite List.filter_app, length_app. simpl. destruct (f n); simpl; lia.
Qed.

Lemma count_if_ext f g n :
  (forall i, 0 <= i < n -> f i = g i) -> count_if f n = count_if g n.
Proof.
  destruct (decide (0 <= n)) as [Hn|Hn].
  - revert n Hn. refine (natlike_ind _ _ _); [done|].
    intros n Hn IH H. unfold Z.succ. rewrite !count_if_succ by done.
    rewrite IH by (intros; apply H; lia). by rewrite H by lia.
  - intros _. unfold count_if. by rewrite seqZ_nil by lia.
Qed.

Lemma count_if_bounds f n : 0 <= n -> 0 <= count_if f n <= n.
Proof.
  revert n. refine (natlike_ind _ _ _); [done|].
  intros n Hn IH. unfold Z.succ. rewrite count_if_succ by done. destruct (f n); lia.
Qed.

Lemma count_if_le f g n :
  0 <= n -> (forall i, 0 <= i < n -> f i = true -> g i = true) ->
  count_if f n <= count_if g n.
Proof.
  revert n. refine (natlike_ind _ _ _); [done|].
  intros n Hn IH H. unfold Z.succ. rewrite !count_if_succ by done.
  assert (count_if f n <= count_if g n) by (apply IH; intros; apply H; [lia|by auto]).
  specialize (H n ltac:(lia)). destruct (f n), (g n); lia.
Qed.

(** Turning one hit into a miss removes exactly one from the count. *)
Lemma count_if_flip f g n i :
  0 <= i < n -> f i = true -> g i = false ->
  (forall j, 0 <= j < n -> j <> i -> g j = f j) ->
  count_if g n = count_if f n - 1.
Proof.
  intros Hi Hf Hg Hj. assert (0 <= n) as Hn by lia. revert n Hn Hi Hj.
  refine (natlike_ind _ _ _); [lia|].
  intros n Hn IH Hi Hj. unfold Z.succ in *. rewrite !count_if_succ by done.
  destruct (decide (i = n)) as [->|Hne].
  - rewrite Hf, Hg. rewrite (count_if_ext g f); [lia|]. intros; apply Hj; lia.
  - rewrite IH; [|lia|intros; apply Hj; lia]. rewrite (Hj n) by lia. lia.
Qed.

Lemma count_if_pos f n : 0 < count_if f n <-> exists i, 0 <= i < n /\ f i = true.
Proof.
  split.
  - intros H. destruct (decide (0 <= n)) as [Hn|Hn].
    + revert n Hn H. refine (natlike_ind _ _ _); [by rewrite count_if_0|].
      intros n Hn IH H. unfold Z.succ in *. rewrite count_if_succ in H by done.
      destruct (f n) eqn:E; [exists n; split; [lia|done]|].
      destruct IH as (i & ? & ?); [lia|]. exists i. split; [lia|done].
    + unfold count_if in H. rewrite seqZ_nil in H by lia. done.
  - intros (i & Hi & Hf).
    pose proof (count_if_flip f (fun j => if decide (j = i) then false else f j) n i Hi Hf) as H.
    assert (0 <= count_if (fun j => if decide (j = i) then false else f j) n)
      by (apply count_if_bounds; lia).
    rewrite H in * by (intros; case_decide; done). lia.
Qed.

(** The members of a duplicate-free list of indices are counted once each. *)
Lemma count_if_elem_of n (l : list Z) :
  0 <= n -> NoDup l -> (forall x, x ∈ l -> 0 <= x < n) ->
  count_if (fun i => bool_decide (i ∈ l)) n = Z.of_nat (length l).
Proof.
  intros Hn Hnd. induction Hnd as [|x l Hx Hnd IH]; intros Hb.
  - assert (count_if (fun i => bool_decide (i ∈ @nil Z)) n = count_if (fun _ => false) n) as ->
      by (apply count_if_ext; intros; apply bool_decide_eq_false; set_solver).
    destruct (decide (0 < count_if (fun _ => false) n)) as [Hp|Hp].
    + apply count_if_pos in Hp as (? & ? & ?); done.
    + pose proof (count_if_bounds (fun _ => false) n Hn). simpl. lia.
  - rewrite <- (Z.sub_add 1 (count_if _ n)).
    rewrite <- (count_if_flip (fun i => bool_decide (i ∈ x :: l))
                 (fun i => bool_decide (i ∈ l)) n x).
    + rewrite IH by (intros; apply Hb; set_solver). simpl. lia.
    + apply Hb. set_solver.
    + apply bool_decide_eq_true. set_solver.
    + by apply bool_decide_eq_false.
    + intros j _ Hne. apply bool_decide_ext. set_solver.
Qed.

(** Turning an interval of hits into misses removes its length. *)
Lemma count_if_interval f g n a k :
  0 <= k -> 0 <= a -> a + k <= n ->
  (forall i, a <= i < a + k -> f i = true) ->
  (forall j, 0 <= j < n -> g j = negb ((a <=? j) && (j <? a + k)) && f j) ->
  count_if g n = count_if f n - k.
Proof.
  intros Hk. revert g. pattern k. revert k Hk. refine (natlike_ind _ _ _).
  - intros g Ha Hn _ Hg. rewrite Z.sub_0_r. apply count_if_ext. intros j Hj.
    rewrite Hg by done.
    destruct (Z.leb_spec a j), (Z.ltb_spec j (a + 0)); simpl; try done; lia.
  - intros k Hk IH g Ha Hn Hf Hg. unfold Z.succ in *.
    rewrite (count_if_flip (fun j => negb ((a <=? j) && (j <? a + k)) && f j) g n (a + k)).
    + rewrite IH; [lia|lia|lia| |done]. intros; apply Hf; lia.
    + lia.
    + rewrite Hf by lia. destruct (Z.ltb_spec (a + k) (a + k)); [lia|].
      by rewrite andb_false_r.
    + rewrite Hg by lia.
      destruct (Z.leb_spec a (a + k)), (Z.ltb_spec (a + k) (a + (k + 1))); lia || done.
    + intros j Hj Hne. rewrite Hg by done.
      destruct (Z.ltb_spec j (a + (k + 1))), (Z.ltb_spec j (a + k)); lia || done.
Qed.

(** * Counting the elements of a list that satisfy a test *)

Definition countb {A} (f : A -> bool) (l : list A) : Z := Z.of_nat (length (List.filter f l)).

Lemma countb_cons {A} (f : A -> bool) x l : countb f (x :: l) = Z.b2z (f x) + countb f l.
Proof. unfold countb. simpl. destruct (f x); simpl; lia. Qed.

Lemma countb_nonneg {A} (f : A -> bool) l : 0 <= countb f l.
Proof. unfold countb. lia. Qed.

Lemma countb_le_length {A} (f : A -> bool) l : countb f l <= Z.of_nat (length l).
Proof.
  induction l as [|x l IH]; [done|]. rewrite countb_cons. simpl. destruct (f x); simpl; lia.
Qed.

Lemma countb_insert {A} (f : A -> bool) l i x y :
  l !! i = Some x -> countb f (<[i := y]> l) = countb f l - Z.b2z (f x) + Z.b2z (f y).
Proof.
  revert i. induction l as [|z l IH]; intros [|i] H; simplify_eq/=.
  - rewrite !countb_cons. lia.
  - rewrite !countb_cons, (IH _ H). lia.
Qed.

Lemma countb_pos {A} (f : A -> bool) l : 0 < countb f l <-> exists x, x ∈ l /\ f x = true.
Proof.
  induction l as [|z l IH].
  - split; [done|]. intros (x & Hx & _). by apply not_elem_of_nil in Hx.
  - rewrite countb_cons. pose proof (countb_nonneg f l). destruct (f z) eqn:E; simpl.
    + split; [|lia]. intros _. exists z. split; [apply elem_of_cons; auto|done].
    + rewrite Z.add_0_l, IH. split; intros (x & Hx & Hf); exists x; (split; [|done]).
      * apply elem_of_cons. auto.
      * apply elem_of_cons in Hx as [->|?]; [congruence|done].
Qed.

Lemma countb_ext {A} (f g : A -> bool) l :
  (forall x, x ∈ l -> f x = g x) -> countb f l = countb g l.
Proof.
  intros H. unfold countb. f_equal. f_equal. apply List.filter_ext_in.
  intros x Hx. apply H. by apply list_elem_of_In.
Qed.

Lemma countb_all {A} (f : A -> bool) l :
  countb f l = Z.of_nat (length l) <-> forall x, x ∈ l -> f x = true.
Proof.
  induction l as [|z l IH].
  - split; [|done]. intros _ x Hx. by apply not_elem_of_nil in Hx.
  - rewrite countb_cons. pose proof (countb_le_length f l). destruct (f z) eqn:E; cbn [Z.b2z length].
    + rewrite Nat2Z.inj_succ. split.
      * intros Hc x Hx. apply elem_of_cons in Hx as [->|Hx]; [done|]. apply IH; [lia|done].
      * intros Hx. cut (countb f l = Z.of_nat (length l)); [lia|].
        apply IH. intros x Hx'. apply Hx, elem_of_cons. auto.
    + split; [lia|]. intros Hx. rewrite Hx in E; [done|]. apply elem_of_cons. auto.
Qed.

Lemma countb_replicate_false {A} (f : A -> bool) n x : f x = false -> countb f (replicate n x) = 0.
Proof. intros H. induction n as [|n IH]; [done|]. simpl. by rewrite countb_cons, H, IH. Qed.

(** Totals over a duplicate-free index list. *)
Definition sumZ {A} (f : A -> Z) (l : list A) : Z := foldr (fun x s => f x + s) 0 l.

Lemma sumZ_perm {A} (f : A -> Z) l l' : l ≡ₚ l' -> sumZ f l = sumZ f l'.
Proof. induction 1; simpl; lia. Qed.

Lemma sumZ_ext {A} (f g : A -> Z) l : (forall x, x ∈ l -> f x = g x) -> sumZ f l = sumZ g l.
Proof.
  induction l as [|x l IH]; intros H; simpl; [done|].
  rewrite H, IH; [done| |apply elem_of_cons; auto]. intros; apply H, elem_of_cons; auto.
Qed.

Lemma sumZ_nonneg {A} (f : A -> Z) l : (forall x, x ∈ l -> 0 <= f x) -> 0 <= sumZ f l.
Proof.
  induction l as [|x l IH]; intros H; simpl; [done|].
  assert (0 <= f x) by (apply H, elem_of_cons; auto).
  assert (0 <= sumZ f l) by (apply IH; intros; apply H, elem_of_cons; auto). lia.
Qed.

Lemma sumZ_elem_le {A} (f : A -> Z) l x :
  (forall y, y ∈ l -> 0 <= f y) -> x ∈ l -> f x <= sumZ f l.
Proof.
  induction l as [|y l IH]; intros H Hx; [by apply not_elem_of_nil in Hx|]. simpl.
  assert (0 <= f y) by (apply H, elem_of_cons; auto).
  assert (0 <= sumZ f l) by (apply sumZ_nonneg; intros; apply H, elem_of_cons; auto).
  apply elem_of_cons in Hx as [->|Hx]; [lia|].
  assert (f x <= sumZ f l) by (apply IH; [intros; apply H, elem_of_cons; auto|done]). lia.
Qed.

(** Changing the summand at one index changes the total by the difference. *)
Lemma sumZ_change {A} `{EqDecision A} (f g : A -> Z) l x :
  NoDup l -> x ∈ l -> (forall y, y ∈ l -> y <> x -> g y = f y) ->
  sumZ g l = sumZ f l - f x + g x.
Proof.
  induction 1 as [|y l Hy Hd IH]; intros Hx H; [by apply not_elem_of_nil in Hx|]. simpl.
  destruct (decide (y = x)) as [->|Hne].
  - rewrite (sumZ_ext g f); [lia|]. intros z Hz. apply H; [apply elem_of_cons; auto|congruence].
  - apply elem_of_cons in Hx as [->|Hx]; [done|].
    rewrite IH; [|done|intros; apply H; [apply elem_of_cons; auto|done]].
    rewrite (H y); [lia|apply elem_of_cons; auto|done].
Qed.
