(* ===== verification/Pmm.v ===== *)
(** The physical frame allocator: [kernel/pmm.c], with [kernel/physmap.c].

    The module globals of pmm.c are the record [Pmm]; every function that
    changes them takes and returns it. The bitmap is kept as the byte array the
    code addresses through [g_bitmap]. Every exported function of pmm.c runs
    between [pmm_irq_save] and [pmm_irq_restore] on a single processor, so one
    function application is one atomic step. *)

From S2P Require Import Prelude.

Open Scope jcos_scope.

(** * Data *)

Definition FRAME_SIZE : Z := 4096.

Definition FRAME_INVALID : Z := U64_MAX.

Definition EFI_CONVENTIONAL_MEMORY : Z := 7.

Definition PMM_MAX_RANGES : Z := 128.

Definition MIN_USABLE_ADDRESS : Z := 0x100000.

Definition PHYS_MAP_BASE : Z := 0xFFFF800000000000.

Definition PHYS_MAP_SIZE : Z := 0x0000800000000000.

(** Firmware memory descriptor; its size in bytes is [SIZEOF_DESCRIPTOR]. *)
Record BootMemoryDescriptor := mkBootMemoryDescriptor {
  bmd_type : Z;
  physical_start : Z;
  number_of_pages : Z }.

Definition SIZEOF_DESCRIPTOR : Z := 40.

(** The fields of [BootInfo] the allocator reads; [descriptor_at] is the
    content of the firmware memory map by address. *)
Record BootInfo := mkBootInfo {
  memory_map : Z;
  memory_map_size : Z;
  memory_map_descriptor_size : Z;
  descriptor_at : Z -> BootMemoryDescriptor }.

(** [r_end] is exclusive. *)
Record PmmRange := mkPmmRange { r_first : Z; r_end : Z }.

Record PmmStats := mkPmmStats {
  total_pages : Z;
  free_pages : Z;
  bitmap_physical : Z;
  bitmap_pages : Z;
  range_count : Z;
  discarded_ranges : Z }.

Record Pmm := mkPmm {
  g_ranges : list PmmRange;
  g_stats : PmmStats;
  g_bitmap : Z;
  g_bitmap_bytes : list Z;
  g_base_frame : Z;
  g_bitmap_bits : Z;
  g_bitmap_first_frame : Z;
  g_bitmap_page_count : Z;
  g_next_hint : Z;
  g_initialized : bool;
  g_use_phys_map : bool;
  g_free_fault_armed : bool;
  g_free_fault_first : Z;
  g_free_fault_count : Z }.

#[export] Instance rebuild_PmmRange : Rebuild PmmRange :=
  fun r => mkPmmRange (r_first r) (r_end r).

#[export] Instance rebuild_PmmStats : Rebuild PmmStats :=
  fun r => mkPmmStats (total_pages r) (free_pages r) (bitmap_physical r) (bitmap_pages r)
             (range_count r) (discarded_ranges r).

#[export] Instance rebuild_Pmm : Rebuild Pmm :=
  fun r => mkPmm (g_ranges r) (g_stats r) (g_bitmap r) (g_bitmap_bytes r) (g_base_frame r)
             (g_bitmap_bits r) (g_bitmap_first_frame r) (g_bitmap_page_count r) (g_next_hint r)
             (g_initialized r) (g_use_phys_map r) (g_free_fault_armed r) (g_free_fault_first r)
             (g_free_fault_count r).

#[export] Instance PmmRange_inhabited : Inhabited PmmRange := populate (mkPmmRange 0 0).

(** Fields of [g_stats] are read and assigned through the module state. *)
Definition set_stats (f : PmmStats -> PmmStats) (s : Pmm) : Pmm :=
  s <| g_stats := f (g_stats s) |>.

(** * The physical direct map *)

Definition physmap_virtual_address (physical : Z) : option Z :=
  if physical >=? PHYS_MAP_SIZE then None else Some (u64 (PHYS_MAP_BASE + physical)).

Definition phys_to_virt (physical : Z) : Z :=
  match physmap_virtual_address physical with
  | None => 0
  | Some virtual_address => virtual_address
  end.

Definition virt_to_phys (virtual_address : Z) : option Z :=
  if !nz virtual_address then None else
  if virtual_address <? PHYS_MAP_BASE then None else
  let offset := virtual_address - PHYS_MAP_BASE in
  if offset >=? PHYS_MAP_SIZE then None else Some offset.

(** * Alignment and frame numbers *)

Definition align_up_page (value : Z) : option Z :=
  if value >? U64_MAX - (FRAME_SIZE - 1) then None
  else Some (Z.land (u64 (value + FRAME_SIZE - 1)) (u64 (Z.lnot (FRAME_SIZE - 1)))).

Definition align_down_page (value : Z) : Z :=
  Z.land value (u64 (Z.lnot (FRAME_SIZE - 1))).

Definition frame_to_phys (frame : Z) : Z :=
  if frame =? FRAME_INVALID then 0 else
  if frame >? U64_MAX / FRAME_SIZE then 0 else
  u64 (frame * FRAME_SIZE).

Definition phys_to_frame (physical : Z) : Z :=
  if nz (Z.land physical (FRAME_SIZE - 1)) then FRAME_INVALID else physical / FRAME_SIZE.

(** * Ranges and bitmap *)

Definition range_at (s : Pmm) (i : Z) : PmmRange := g_ranges s !!! Z.to_nat i.

(** The entries of [g_ranges] below [range_count]. *)
Definition ranges (s : Pmm) : list PmmRange :=
  take (Z.to_nat (range_count (g_stats s))) (g_ranges s).

Definition frame_managed (s : Pmm) (frame : Z) : bool :=
  existsb (fun r => (frame >=? r_first r) && (frame <? r_end r)) (ranges s).

Definition frame_is_bitmap (s : Pmm) (frame : Z) : bool :=
  if g_bitmap_first_frame s =? FRAME_INVALID then false else
  if frame <? g_bitmap_first_frame s then false else
  frame - g_bitmap_first_frame s <? g_bitmap_page_count s.

Definition byte_at (bytes : list Z) (i : Z) : Z := default 0 (bytes !! Z.to_nat i).

Definition bitmap_used (s : Pmm) (index : Z) : bool :=
  let byte := Z.shiftr index 3 in
  let bit := Z.land index 7 in
  nz (Z.land (byte_at (g_bitmap_bytes s) byte) (u8 (Z.shiftl 1 bit))).

Definition bitmap_set (index : Z) (s : Pmm) : Pmm :=
  let byte := Z.shiftr index 3 in
  let bit := Z.land index 7 in
  s <| g_bitmap_bytes :=
    <[Z.to_nat byte := Z.lor (byte_at (g_bitmap_bytes s) byte) (u8 (Z.shiftl 1 bit))]>
      (g_bitmap_bytes s) |>.

Definition bitmap_clear (index : Z) (s : Pmm) : Pmm :=
  let byte := Z.shiftr index 3 in
  let bit := Z.land index 7 in
  let mask := u8 (Z.shiftl 1 bit) in
  s <| g_bitmap_bytes :=
    <[Z.to_nat byte := Z.land (byte_at (g_bitmap_bytes s) byte) (u8 (Z.lnot mask))]>
      (g_bitmap_bytes s) |>.

Definition frame_bitmap_index (s : Pmm) (frame : Z) : Z := u64 (frame - g_base_frame s).

(** [for (i = 0; i < count; ++i) op(base + i)] *)
Definition for_indices (op : Z -> Pmm -> Pmm) (base count : Z) (s : Pmm) : Pmm :=
  foldl (fun s i => op (base + i) s) s (seqZ 0 count).

(** * Initialisation *)

(** The state [pmm_init] starts from after its assignments. *)
Definition pmm_reset (s : Pmm) : Pmm :=
  mkPmm (replicate (Z.to_nat PMM_MAX_RANGES) (mkPmmRange 0 0)) (mkPmmStats 0 0 0 0 0 0)
    0 (g_bitmap_bytes s) FRAME_INVALID 0 FRAME_INVALID 0 0 false false false
    (g_free_fault_first s) (g_free_fault_count s).

(** The page-aligned frame span of a descriptor the allocator accepts. *)
Definition descriptor_span (d : BootMemoryDescriptor) : option (Z * Z) :=
  if bmd_type d != EFI_CONVENTIONAL_MEMORY then None else
  if !nz (number_of_pages d) then None else
  if number_of_pages d >? U64_MAX / FRAME_SIZE then None else
  let bytes := u64 (number_of_pages d * FRAME_SIZE) in
  if physical_start d >? U64_MAX - bytes then None else
  let raw_end := u64 (physical_start d + bytes) in
  match align_up_page (physical_start d) with
  | None => None
  | Some start =>
    let end_ := align_down_page raw_end in
    let start := if start <? MIN_USABLE_ADDRESS then MIN_USABLE_ADDRESS else start in
    if end_ <=? start then None else
    let first := phys_to_frame start in
    let last := phys_to_frame end_ in
    if (first =? FRAME_INVALID) || (last =? FRAME_INVALID) || (last <=? first) then None
    else Some (first, last)
  end.

(** Merge with the previous range, append a new one, or count a discard. *)
Definition add_range (first last : Z) (s : Pmm) : Pmm :=
  let n := range_count (g_stats s) in
  if nz n && (r_end (range_at s (n - 1)) =? first) then
    s <| g_ranges :=
      <[Z.to_nat (n - 1) := (range_at s (n - 1)) <| r_end := last |>]> (g_ranges s) |>
  else if n >=? PMM_MAX_RANGES then
    set_stats (fun t => t <| discarded_ranges := u32 (discarded_ranges t + 1) |>) s
  else
    set_stats (fun t => t <| range_count := n + 1 |>)
      (s <| g_ranges := <[Z.to_nat n := mkPmmRange first last]> (g_ranges s) |>).

Definition collect_descriptor (d : BootMemoryDescriptor) (s : Pmm) : Pmm :=
  match descriptor_span d with
  | None => s
  | Some (first, last) => add_range first last s
  end.

(** First pass of [pmm_init]. The loop of the source advances a 64-bit offset;
    [None] is an exhausted fuel. *)
Fixpoint collect_ranges (fuel : nat) (boot : BootInfo) (offset : Z) (s : Pmm) : option Pmm :=
  match fuel with
  | O => None
  | S fuel =>
    if u64 (offset + SIZEOF_DESCRIPTOR) <=? memory_map_size boot then
      collect_ranges fuel boot (u64 (offset + memory_map_descriptor_size boot))
        (collect_descriptor (descriptor_at boot (u64 (memory_map boot + offset))) s)
    else Some s
  end.

Definition collect_fuel (boot : BootInfo) : nat :=
  Z.to_nat (memory_map_size boot / memory_map_descriptor_size boot + 2).

(** One iteration of the span loop: lowest frame, highest frame, page total. *)
Definition span_acc (p : Z * Z * Z) (r : PmmRange) : Z * Z * Z :=
  let '(lowest, highest, total) := p in
  (if r_first r <? lowest then r_first r else lowest,
   if r_end r >? highest then r_end r else highest,
   u64 (total + u64 (r_end r - r_first r))).

Definition range_span (s : Pmm) : Z * Z * Z :=
  foldl span_acc (r_first (range_at s 0), r_end (range_at s 0), total_pages (g_stats s)) (ranges s).

(** The first range that can hold [count] pages. *)
Definition find_bitmap_range (s : Pmm) (count : Z) : Z :=
  match List.find (fun r => u64 (r_end r - r_first r) >=? count) (ranges s) with
  | Some r => r_first r
  | None => FRAME_INVALID
  end.

Definition clear_range (s : Pmm) (r : PmmRange) : Pmm :=
  foldl (fun s frame => bitmap_clear (frame_bitmap_index s frame) s) s
    (seqZ (r_first r) (r_end r - r_first r)).

(** Second half of [pmm_init]: place the bitmap, mark the managed frames free
    and reserve the bitmap's own frames. *)
Definition pmm_build_bitmap (s : Pmm) : bool * Pmm :=
  let first := find_bitmap_range s (g_bitmap_page_count s) in
  let s := s <| g_bitmap_first_frame := first |> in
  if first =? FRAME_INVALID then (false, s) else
  let physical := frame_to_phys first in
  if !nz physical then (false, s) else
  if g_bitmap_page_count s >? U64_MAX / FRAME_SIZE then (false, s) else
  let storage := u64 (g_bitmap_page_count s * FRAME_SIZE) in
  let s := s <| g_bitmap := physical |>
             <| g_bitmap_bytes := replicate (Z.to_nat storage) 0xFF |> in
  let s := foldl clear_range s (ranges s) in
  let s := foldl (fun s i => bitmap_set (frame_bitmap_index s (u64 (g_bitmap_first_frame s + i))) s) s
             (seqZ 0 (g_bitmap_page_count s)) in
  if g_bitmap_page_count s >? total_pages (g_stats s) then (false, s) else
  let s := set_stats (fun t => t <| free_pages := total_pages t - g_bitmap_page_count s |>
                                 <| bitmap_physical := physical |>
                                 <| bitmap_pages := g_bitmap_page_count s |>) s in
  (true, s <| g_next_hint := 0 |> <| g_initialized := true |>).

Definition pmm_init (boot : option BootInfo) (s : Pmm) : option (bool * Pmm) :=
  let s := pmm_reset s in
  match boot with
  | None => Some (false, s)
  | Some boot =>
    if !nz (memory_map boot) || !nz (memory_map_size boot)
       || (memory_map_descriptor_size boot <? SIZEOF_DESCRIPTOR) then Some (false, s) else
    match collect_ranges (collect_fuel boot) boot 0 s with
    | None => None
    | Some s =>
      if !nz (range_count (g_stats s)) then Some (false, s) else
      let '(lowest, highest, total) := range_span s in
      let s := set_stats (fun t => t <| total_pages := total |>) s in
      if highest <=? lowest then Some (false, s) else
      let s := s <| g_base_frame := lowest |> <| g_bitmap_bits := highest - lowest |> in
      if g_bitmap_bits s >? U64_MAX - 7 then Some (false, s) else
      let bitmap_bytes := (g_bitmap_bits s + 7) / 8 in
      if !nz bitmap_bytes then Some (false, s) else
      if bitmap_bytes >? U64_MAX - (FRAME_SIZE - 1) then Some (false, s) else
      let s := s <| g_bitmap_page_count := (bitmap_bytes + FRAME_SIZE - 1) / FRAME_SIZE |> in
      if !nz (g_bitmap_page_count s) then Some (false, s) else
      Some (pmm_build_bitmap s)
    end
  end.

Definition pmm_enable_phys_map_access (s : Pmm) : bool * Pmm :=
  if !g_initialized s || !nz (g_bitmap s) || !nz (bitmap_physical (g_stats s))
     || !nz (bitmap_pages (g_stats s)) then (false, s) else
  let direct := phys_to_virt (bitmap_physical (g_stats s)) in
  if !nz direct then (false, s) else
  (true, s <| g_bitmap := direct |> <| g_use_phys_map := true |>).

Definition pmm_phys_map_access_enabled (s : Pmm) : bool := g_use_phys_map s.

(** * Allocation *)

Definition wrap_index (s : Pmm) (index : Z) : Z :=
  if index >=? g_bitmap_bits s then 0 else index.

(** The scan of [frame_alloc_locked]; [n] is the number of bits left to scan. *)
Fixpoint frame_alloc_scan (n : nat) (index : Z) (s : Pmm) : Z * Pmm :=
  match n with
  | O => (FRAME_INVALID, s)
  | S n =>
    if !bitmap_used s index then
      let s := bitmap_set index s in
      let s := set_stats (fun t => t <| free_pages := u64 (free_pages t - 1) |>) s in
      let frame := u64 (g_base_frame s + index) in
      (frame, s <| g_next_hint := wrap_index s (u64 (index + 1)) |>)
    else frame_alloc_scan n (wrap_index s (u64 (index + 1))) s
  end.

Definition frame_alloc (s : Pmm) : Z * Pmm :=
  if !g_initialized s || !nz (g_bitmap s) || !nz (g_bitmap_bits s)
     || !nz (free_pages (g_stats s)) then (FRAME_INVALID, s)
  else frame_alloc_scan (Z.to_nat (g_bitmap_bits s)) (g_next_hint s) s.

(** The search of [pmm_alloc_pages_locked] for [count] consecutive free bits. *)
Fixpoint alloc_run_scan (n : nat) (count index run_start run_length : Z) (s : Pmm) : Z * Pmm :=
  match n with
  | O => (0, s)
  | S n =>
    if bitmap_used s index then alloc_run_scan n count (index + 1) run_start 0 s else
    let run_start := if !nz run_length then index else run_start in
    let run_length := run_length + 1 in
    if run_length <? count then alloc_run_scan n count (index + 1) run_start run_length s else
    let s := for_indices bitmap_set run_start count s in
    let s := set_stats (fun t => t <| free_pages := u64 (free_pages t - count) |>) s in
    let s := s <| g_next_hint := wrap_index s (u64 (run_start + count)) |> in
    (frame_to_phys (u64 (g_base_frame s + run_start)), s)
  end.

Definition pmm_alloc_pages (count : Z) (s : Pmm) : Z * Pmm :=
  if !g_initialized s || !nz count || (count >? free_pages (g_stats s))
     || (count >? g_bitmap_bits s) then (0, s)
  else alloc_run_scan (Z.to_nat (g_bitmap_bits s)) count 0 0 0 s.

Definition pmm_alloc_page (s : Pmm) : Z * Pmm :=
  let '(frame, s) := frame_alloc s in
  if frame =? FRAME_INVALID then (0, s) else (frame_to_phys frame, s).

Definition pmm_stats (s : Pmm) : PmmStats := g_stats s.

(** * Release *)

Definition free_range_valid (s : Pmm) (first count : Z) : bool :=
  if !g_initialized s || !nz (g_bitmap s) || !nz count || (first =? FRAME_INVALID) then false else
  if (first <? g_base_frame s) || (first >? U64_MAX / FRAME_SIZE) then false else
  if count - 1 >? U64_MAX / FRAME_SIZE - first then false else
  let index := frame_bitmap_index s first in
  if (index >=? g_bitmap_bits s) || (count >? g_bitmap_bits s - index) then false else
  if free_pages (g_stats s) >? total_pages (g_stats s) then false else
  if count >? total_pages (g_stats s) - free_pages (g_stats s) then false else
  forallb (fun i =>
    let frame := first + i in
    frame_managed s frame && !frame_is_bitmap s frame && bitmap_used s (index + i))
    (seqZ 0 count).

Definition frame_free_range (first count : Z) (s : Pmm) : bool * Pmm :=
  if !free_range_valid s first count then (false, s) else
  if g_free_fault_armed s && (first =? g_free_fault_first s) && (count =? g_free_fault_count s)
  then (false, s <| g_free_fault_armed := false |>) else
  let index := frame_bitmap_index s first in
  let s := for_indices bitmap_clear index count s in
  let s := set_stats (fun t => t <| free_pages := u64 (free_pages t + count) |>) s in
  (true, s <| g_next_hint := index |>).

Definition frame_free (frame : Z) (s : Pmm) : bool * Pmm := frame_free_range frame 1 s.

(** One-shot release faults the diagnostics arm. *)
Definition pmm_test_fail_free_range_once (first count : Z) (s : Pmm) : bool * Pmm :=
  if !g_free_fault_armed s && free_range_valid s first count then
    (true, s <| g_free_fault_first := first |> <| g_free_fault_count := count |>
             <| g_free_fault_armed := true |>)
  else (false, s).

Definition pmm_test_free_failure_armed (s : Pmm) : bool := g_free_fault_armed s.

Definition pmm_test_clear_free_failure (s : Pmm) : Pmm := s <| g_free_fault_armed := false |>.

Definition pmm_test_frame_releasable (frame : Z) (s : Pmm) : bool := free_range_valid s frame 1.
