(* ===== verification/PmmProofs.v ===== *)
(** Correctness of the physical frame allocator of [Pmm]. *)

From S2P Require Import Prelude.
From S2P Require Import Pmm.

Open Scope jcos_scope.

(** * The bitmap as a set of indices *)

Definition used_in (bytes : list Z) (index : Z) : bool :=
  nz (Z.land (byte_at bytes (Z.shiftr index 3)) (u8 (Z.shiftl 1 (Z.land index 7)))).

Definition is_bytes (bytes : list Z) : Prop := Forall (fun b => 0 <= b < 256) bytes.

(** The number of bits a byte array holds. *)
Definition bit_capacity (bytes : list Z) : Z := 8 * Z.of_nat (length bytes).

Lemma bitmap_used_in s i : bitmap_used s i = used_in (g_bitmap_bytes s) i.
Proof. done. Qed.

Lemma used_in_testbit bytes i :
  0 <= i -> used_in bytes i = Z.testbit (byte_at bytes (i / 8)) (i mod 8).
Proof.
  intros Hi. pose proof (Z.mod_pos_bound i 8 ltac:(lia)).
  unfold used_in, nz. rewrite shiftr_3_div, land_7_mod, u8_shiftl_1 by lia.
  apply land_bit_testbit. lia.
Qed.

Lemma byte_at_range bytes i : is_bytes bytes -> 0 <= byte_at bytes i < 256.
Proof.
  intros H. unfold byte_at. destruct (bytes !! Z.to_nat i) eqn:E; simpl; [|lia].
  by eapply (Forall_lookup_1 _ _ _ _ H).
Qed.

Lemma byte_at_insert bytes i j v :
  0 <= i < Z.of_nat (length bytes) -> 0 <= j ->
  byte_at (<[Z.to_nat i := v]> bytes) j = if i =? j then v else byte_at bytes j.
Proof.
  intros Hi Hj. unfold byte_at. destruct (Z.eqb_spec i j) as [->|Hne].
  - rewrite list_lookup_insert_eq by lia. done.
  - rewrite list_lookup_insert_ne by lia. done.
Qed.

(** Two indices of the same byte differ in their bit. *)
Lemma same_byte_eqb i j :
  i / 8 = j / 8 -> (i mod 8 =? j mod 8) = (i =? j).
Proof.
  intros H. pose proof (Z.div_mod i 8). pose proof (Z.div_mod j 8).
  destruct (Z.eqb_spec (i mod 8) (j mod 8)), (Z.eqb_spec i j); lia || done.
Qed.

(** Replacing byte [i / 8] by a byte whose only changed bit is [i mod 8]. *)
Lemma used_in_update bytes i j v b :
  0 <= i < bit_capacity bytes -> 0 <= j ->
  (forall k, 0 <= k < 8 ->
     Z.testbit v k = if i mod 8 =? k then b else Z.testbit (byte_at bytes (i / 8)) k) ->
  used_in (<[Z.to_nat (i / 8) := v]> bytes) j = if i =? j then b else used_in bytes j.
Proof.
  intros Hi Hj Hv. unfold bit_capacity in Hi.
  rewrite !used_in_testbit by done.
  assert (0 <= j / 8) by (apply Z.div_pos; lia).
  assert (0 <= i / 8 < Z.of_nat (length bytes))
    by (split; [apply Z.div_pos; lia | apply Z.div_lt_upper_bound; lia]).
  rewrite byte_at_insert by done.
  pose proof (Z.mod_pos_bound j 8 ltac:(lia)).
  destruct (Z.eqb_spec (i / 8) (j / 8)) as [E|E].
  - rewrite Hv by lia. rewrite (same_byte_eqb i j E), E. done.
  - destruct (Z.eqb_spec i j) as [->|]; done.
Qed.

Lemma used_in_set s i j :
  0 <= i < bit_capacity (g_bitmap_bytes s) -> 0 <= j ->
  used_in (g_bitmap_bytes (bitmap_set i s)) j = (i =? j) || used_in (g_bitmap_bytes s) j.
Proof.
  intros Hi Hj. unfold bitmap_set. upd_simpl. rewrite shiftr_3_div, land_7_mod.
  pose proof (Z.mod_pos_bound i 8 ltac:(lia)).
  rewrite (used_in_update _ _ _ _ true); [by destruct (i =? j)|done..|].
  intros k Hk. rewrite Z.lor_spec, u8_shiftl_1, Z.shiftl_1_l, Z.pow2_bits_eqb by lia.
  destruct (i mod 8 =? k); [apply orb_true_r | apply orb_false_r].
Qed.

Lemma used_in_clear s i j :
  0 <= i < bit_capacity (g_bitmap_bytes s) -> 0 <= j ->
  used_in (g_bitmap_bytes (bitmap_clear i s)) j = negb (i =? j) && used_in (g_bitmap_bytes s) j.
Proof.
  intros Hi Hj. unfold bitmap_clear. upd_simpl. rewrite shiftr_3_div, land_7_mod.
  pose proof (Z.mod_pos_bound i 8 ltac:(lia)).
  rewrite (used_in_update _ _ _ _ false); [by destruct (i =? j)|done..|].
  intros k Hk. rewrite Z.land_spec, u8_shiftl_1, Z.shiftl_1_l by lia.
  unfold u8. rewrite Z.mod_pow2_bits_low, Z.lnot_spec, Z.pow2_bits_eqb by lia.
  destruct (i mod 8 =? k); simpl; [apply andb_false_r | apply andb_true_r].
Qed.

Lemma is_bytes_set s i : is_bytes (g_bitmap_bytes s) -> is_bytes (g_bitmap_bytes (bitmap_set i s)).
Proof.
  intros H. unfold bitmap_set. upd_simpl. apply Forall_insert; [done|].
  apply byte_lor; [by apply byte_at_range | apply u8_range].
Qed.

Lemma is_bytes_clear s i : is_bytes (g_bitmap_bytes s) -> is_bytes (g_bitmap_bytes (bitmap_clear i s)).
Proof.
  intros H. unfold bitmap_clear. upd_simpl. apply Forall_insert; [done|].
  apply byte_land; [by apply byte_at_range | apply u8_range].
Qed.

(** What a bitmap operation may change: the bytes, not their number. *)
Definition bits_step (s s' : Pmm) : Prop :=
  s' = s <| g_bitmap_bytes := g_bitmap_bytes s' |> /\
  length (g_bitmap_bytes s') = length (g_bitmap_bytes s) /\
  (is_bytes (g_bitmap_bytes s) -> is_bytes (g_bitmap_bytes s')).

Lemma bits_step_refl s : bits_step s s.
Proof. split_and!; [by destruct s|done|done]. Qed.

Lemma bits_step_trans s1 s2 s3 : bits_step s1 s2 -> bits_step s2 s3 -> bits_step s1 s3.
Proof.
  intros (E1 & L1 & B1) (E2 & L2 & B2). split_and!; [|congruence|auto].
  rewrite E2, E1. by destruct s1, s3.
Qed.

Lemma bits_step_set i s : bits_step s (bitmap_set i s).
Proof.
  split_and!; [done| |apply is_bytes_set].
  unfold bitmap_set. upd_simpl. apply length_insert.
Qed.

Lemma bits_step_clear i s : bits_step s (bitmap_clear i s).
Proof.
  split_and!; [done| |apply is_bytes_clear].
  unfold bitmap_clear. upd_simpl. apply length_insert.
Qed.

Create HintDb pmm discriminated.
#[export] Hint Resolve bits_step_refl bits_step_trans bits_step_set bits_step_clear : pmm.

(** A loop over consecutive indices whose body sets ([v = true]) or clears its
    bit leaves exactly those bits at [v]. *)
Lemma for_indices_bits (op : Z -> Pmm -> Pmm) (v : bool) base count s :
  (forall i s, bits_step s (op i s)) ->
  (forall i j s, 0 <= i < bit_capacity (g_bitmap_bytes s) -> 0 <= j ->
     used_in (g_bitmap_bytes (op i s)) j = if i =? j then v else used_in (g_bitmap_bytes s) j) ->
  0 <= base -> 0 <= count -> base + count <= bit_capacity (g_bitmap_bytes s) ->
  bits_step s (for_indices op base count s) /\
  (forall j, 0 <= j ->
     used_in (g_bitmap_bytes (for_indices op base count s)) j =
     if (base <=? j) && (j <? base + count) then v else used_in (g_bitmap_bytes s) j).
Proof.
  intros Hstep Hop Hb Hc. pattern count. revert count Hc. refine (natlike_ind _ _ _).
  - intros _. unfold for_indices. simpl. split; [apply bits_step_refl|]. intros j Hj.
    destruct (Z.leb_spec base j), (Z.ltb_spec j (base + 0)); simpl; lia || done.
  - intros n Hn IH Hcap. unfold Z.succ in *. destruct IH as [IH1 IH2]; [lia|].
    unfold for_indices in *. rewrite seqZ_snoc, foldl_app by done. simpl.
    set (t := foldl _ s (seqZ 0 n)) in *.
    split; [eauto using bits_step_trans|]. intros j Hj.
    assert (length (g_bitmap_bytes t) = length (g_bitmap_bytes s)) as El by apply IH1.
    rewrite Hop by (unfold bit_capacity in *; rewrite ?El; lia). rewrite IH2 by done.
    destruct (Z.eqb_spec (base + n) j), (Z.leb_spec base j), (Z.ltb_spec j (base + n)),
      (Z.ltb_spec j (base + (n + 1))); simpl; lia || done.
Qed.

Lemma for_indices_set base count s :
  0 <= base -> 0 <= count -> base + count <= bit_capacity (g_bitmap_bytes s) ->
  bits_step s (for_indices bitmap_set base count s) /\
  (forall j, 0 <= j ->
     used_in (g_bitmap_bytes (for_indices bitmap_set base count s)) j =
     if (base <=? j) && (j <? base + count) then true else used_in (g_bitmap_bytes s) j).
Proof.
  apply for_indices_bits; [auto with pmm|]. intros i j t Hi Hj.
  rewrite used_in_set by done. by destruct (i =? j).
Qed.

Lemma for_indices_clear base count s :
  0 <= base -> 0 <= count -> base + count <= bit_capacity (g_bitmap_bytes s) ->
  bits_step s (for_indices bitmap_clear base count s) /\
  (forall j, 0 <= j ->
     used_in (g_bitmap_bytes (for_indices bitmap_clear base count s)) j =
     if (base <=? j) && (j <? base + count) then false else used_in (g_bitmap_bytes s) j).
Proof.
  apply for_indices_bits; [auto with pmm|]. intros i j t Hi Hj.
  rewrite used_in_clear by done. by destruct (i =? j).
Qed.

(** * The allocator invariant *)

Definition bit_free (s : Pmm) (i : Z) : bool := !bitmap_used s i.

(** [base + i] is conventional memory the allocator owns. *)
Definition bit_managed (s : Pmm) (i : Z) : bool := frame_managed s (g_base_frame s + i).

(** Managed frames lie inside the bitmap. *)
Definition ranges_in_span (s : Pmm) : Prop :=
  forall f, frame_managed s f = true -> g_base_frame s <= f < g_base_frame s + g_bitmap_bits s.

Record pmm_wf (s : Pmm) : Prop := {
  wf_init : g_initialized s = true;
  wf_bitmap : g_bitmap s <> 0;
  wf_bits : 0 < g_bitmap_bits s;
  wf_base : 256 <= g_base_frame s;
  wf_top : g_base_frame s + g_bitmap_bits s <= 2 ^ 52;
  wf_bytes : is_bytes (g_bitmap_bytes s);
  wf_capacity : g_bitmap_bits s <= bit_capacity (g_bitmap_bytes s);
  wf_ranges : ranges_in_span s;
  wf_hint : 0 <= g_next_hint s < g_bitmap_bits s;
  wf_free : free_pages (g_stats s) = count_if (bit_free s) (g_bitmap_bits s);
  wf_total : total_pages (g_stats s) = count_if (bit_managed s) (g_bitmap_bits s);
  wf_owned : forall i, 0 <= i < g_bitmap_bits s -> bit_free s i = true ->
    bit_managed s i = true /\ frame_is_bitmap s (g_base_frame s + i) = false }.

Lemma wf_free_range s : pmm_wf s -> 0 <= free_pages (g_stats s) <= g_bitmap_bits s.
Proof. intros W. rewrite (wf_free s W). apply count_if_bounds. pose proof (wf_bits s W). lia. Qed.

Lemma wf_free_le_total s : pmm_wf s -> free_pages (g_stats s) <= total_pages (g_stats s).
Proof.
  intros W. rewrite (wf_free s W), (wf_total s W). pose proof (wf_bits s W).
  apply count_if_le; [lia|]. intros i Hi Hf. by apply (wf_owned s W).
Qed.

(** A state that differs in its bits, free count and hint only. *)
Definition realloc (s : Pmm) (bytes : list Z) (free hint : Z) : Pmm :=
  set_stats (fun t => t <| free_pages := free |>) (s <| g_bitmap_bytes := bytes |>)
    <| g_next_hint := hint |>.

(** The invariant is re-established by any bitmap change that only frees owned
    frames and keeps the free count. *)
Lemma realloc_wf s bytes free hint :
  pmm_wf s -> is_bytes bytes -> length bytes = length (g_bitmap_bytes s) ->
  0 <= hint < g_bitmap_bits s ->
  free = count_if (fun i => !used_in bytes i) (g_bitmap_bits s) ->
  (forall i, 0 <= i < g_bitmap_bits s -> used_in bytes i = false ->
     bit_managed s i = true /\ frame_is_bitmap s (g_base_frame s + i) = false) ->
  pmm_wf (realloc s bytes free hint).
Proof.
  intros W Hb Hl Hh Hf Ho. destruct W.
  constructor; unfold realloc, set_stats; upd_simpl; try done.
  - unfold bit_capacity in *. by rewrite Hl.
  - intros i Hi Hfree. apply Ho; [done|]. by apply negb_true_iff in Hfree.
Qed.

(** The part of the state allocation and release never change. *)
Definition erase (s : Pmm) : Pmm := realloc s [] 0 0.

Lemma erase_realloc s bytes free hint : erase (realloc s bytes free hint) = erase s.
Proof. by destruct s as [? []]. Qed.

Lemma erase_bits_step s s' : bits_step s s' -> erase s' = erase s.
Proof. intros (-> & _). by destruct s as [? []]. Qed.

Lemma erase_for_indices op base count s :
  (forall i s, bits_step s (op i s)) -> erase (for_indices op base count s) = erase s.
Proof.
  intros Hop. apply erase_bits_step. unfold for_indices. generalize (seqZ 0 count). intros l.
  revert s. induction l as [|i l IH]; intros s; simpl; [apply bits_step_refl|].
  eauto using bits_step_trans.
Qed.

Lemma erase_managed s s' f : erase s' = erase s -> frame_managed s' f = frame_managed s f.
Proof.
  intros E. change (frame_managed s' f) with (frame_managed (erase s') f). by rewrite E.
Qed.

Lemma erase_is_bitmap s s' f : erase s' = erase s -> frame_is_bitmap s' f = frame_is_bitmap s f.
Proof.
  intros E. change (frame_is_bitmap s' f) with (frame_is_bitmap (erase s') f). by rewrite E.
Qed.

Lemma erase_alloc_run_scan n count index run_start r s :
  erase (alloc_run_scan n count index run_start r s).2 = erase s.
Proof.
  revert index run_start r. induction n as [|n IH]; intros index run_start r; [done|].
  cbn [alloc_run_scan]. if_case; [apply IH|]. if_case; [apply IH|].
  rewrite <- (erase_for_indices bitmap_set (if !nz r then index else run_start) count s)
    by auto with pmm.
  simpl. by destruct (for_indices bitmap_set _ count s) as [? []].
Qed.

Lemma erase_alloc_pages count s : erase (pmm_alloc_pages count s).2 = erase s.
Proof. unfold pmm_alloc_pages. if_case; [done|]. apply erase_alloc_run_scan. Qed.

Section Alloc.
Context (s : Pmm) (W : pmm_wf s).

(** The effect of handing out the frame of bit [i]. *)
Definition taken (i : Z) : Z * Pmm :=
  (g_base_frame s + i,
   realloc s (g_bitmap_bytes (bitmap_set i s)) (free_pages (g_stats s) - 1)
     ((i + 1) mod g_bitmap_bits s)).

Lemma wrap_index_mod i :
  0 <= i < g_bitmap_bits s -> wrap_index s (u64 (i + 1)) = (i + 1) mod g_bitmap_bits s.
Proof.
  intros Hi. pose proof (wf_top s W). pose proof (wf_base s W).
  unfold wrap_index. rewrite u64_id by (unfold is_u64; lia).
  destruct (Z.leb_spec (g_bitmap_bits s) (i + 1)).
  - replace (i + 1) with (g_bitmap_bits s) by lia. rewrite Z.mod_same by lia. done.
  - by rewrite Z.mod_small by lia.
Qed.

(** The scan takes the first free bit in circular order from its start. *)
Lemma frame_alloc_scan_spec n index :
  0 <= index < g_bitmap_bits s -> 0 < free_pages (g_stats s) ->
  let at_ k := (index + k) mod g_bitmap_bits s in
  (exists k, 0 <= k < Z.of_nat n /\ bit_free s (at_ k) = true /\
     (forall m, 0 <= m < k -> bit_free s (at_ m) = false) /\
     frame_alloc_scan n index s = taken (at_ k)) \/
  ((forall k, 0 <= k < Z.of_nat n -> bit_free s (at_ k) = false) /\
   frame_alloc_scan n index s = (FRAME_INVALID, s)).
Proof.
  intros Hi Hfree. revert index Hi. induction n as [|n IH]; intros index Hi at_.
  - right. split; [lia|done].
  - assert (at_ 0 = index) as E0 by (unfold at_; rewrite Z.add_0_r, Z.mod_small by lia; done).
    pose proof (wf_top s W). pose proof (wf_base s W). pose proof (wf_free_range s W).
    destruct (bit_free s index) eqn:Ef; unfold bit_free in Ef.
    + left. exists 0. rewrite E0. split_and!; [lia|lia|done|lia|]. simpl. rewrite Ef.
      unfold taken, realloc, set_stats. f_equal.
      * unfold bitmap_set. upd_simpl. apply u64_id. unfold is_u64. lia.
      * rewrite <- wrap_index_mod by done. unfold wrap_index, bitmap_set. upd_simpl.
        rewrite (u64_id (free_pages (g_stats s) - 1)) by (unfold is_u64; lia). done.
    + simpl. rewrite Ef. rewrite wrap_index_mod by done.
      assert (forall k, ((index + 1) mod g_bitmap_bits s + k) mod g_bitmap_bits s = at_ (k + 1)) as Es
        by (intros k; unfold at_; rewrite Z.add_mod_idemp_l by lia; f_equal; lia).
      assert (bit_free s index = false) as Ef' by done.
      destruct (IH ((index + 1) mod g_bitmap_bits s)) as [(k & Hk & Hf & Hmin & Heq)|[Hall Heq]];
        [apply Z.mod_pos_bound; lia| |].
      * left. exists (k + 1). rewrite <- Es. split_and!; [lia|lia|done| |done].
        intros m Hm. destruct (decide (m = 0)) as [->|]; [by rewrite E0|].
        replace m with (m - 1 + 1) by lia. rewrite <- Es. apply Hmin. lia.
      * right. split; [|done]. intros k Hk. destruct (decide (k = 0)) as [->|]; [by rewrite E0|].
        replace k with (k - 1 + 1) by lia. rewrite <- Es. apply Hall. lia.
Qed.

(** Taking a free bit keeps the invariant and changes that bit only. *)
Lemma taken_spec i :
  0 <= i < g_bitmap_bits s -> bit_free s i = true ->
  pmm_wf (taken i).2 /\
  (forall j, 0 <= j -> bitmap_used (taken i).2 j = (i =? j) || bitmap_used s j).
Proof.
  intros Hi Hf. pose proof (wf_capacity s W). pose proof (wf_bits s W).
  assert (forall j, 0 <= j -> used_in (g_bitmap_bytes (bitmap_set i s)) j =
                     (i =? j) || used_in (g_bitmap_bytes s) j) as Hu
    by (intros; apply used_in_set; lia).
  split; [|done]. apply realloc_wf; [done|apply is_bytes_set, W|apply bits_step_set| | |].
  - apply Z.mod_pos_bound. lia.
  - rewrite (wf_free s W). symmetry. apply (count_if_flip _ _ _ i); [done..| |].
    + rewrite Hu, Z.eqb_refl by lia. done.
    + intros j Hj Hne. rewrite Hu by lia. destruct (Z.eqb_spec i j); [lia|done].
  - intros j Hj Hj'. rewrite Hu in Hj' by lia. bool_prop. apply (wf_owned s W); [done|].
    apply negb_true_iff. by rewrite bitmap_used_in.
Qed.

End Alloc.

(** [frame_alloc] on a well-formed allocator: with no free page it returns
    [FRAME_INVALID] and changes nothing; otherwise it always succeeds, with the
    first free frame in circular order from the hint. The frame is managed
    conventional memory outside the allocator's own bitmap, its bit is the only
    one that changes, and the invariant (free count included) is kept. *)
Lemma frame_alloc_spec (s : Pmm) (W : pmm_wf s) :
  (free_pages (g_stats s) = 0 -> frame_alloc s = (FRAME_INVALID, s)) /\
  (0 < free_pages (g_stats s) ->
   exists k, let i := (g_next_hint s + k) mod g_bitmap_bits s in
     0 <= k < g_bitmap_bits s /\
     (frame_alloc s).1 = g_base_frame s + i /\
     bitmap_used s i = false /\
     (forall m, 0 <= m < k -> bitmap_used s ((g_next_hint s + m) mod g_bitmap_bits s) = true) /\
     frame_managed s (g_base_frame s + i) = true /\
     frame_is_bitmap s (g_base_frame s + i) = false /\
     (forall j, 0 <= j -> bitmap_used (frame_alloc s).2 j = (i =? j) || bitmap_used s j) /\
     free_pages (g_stats (frame_alloc s).2) = free_pages (g_stats s) - 1 /\
     pmm_wf (frame_alloc s).2).
Proof.
  unfold frame_alloc. pose proof (wf_bits s W) as Hb. rewrite (wf_init s W). simpl.
  assert (nz (g_bitmap s) = true) as -> by (apply negb_true_iff, Z.eqb_neq, W).
  assert (nz (g_bitmap_bits s) = true) as -> by (apply negb_true_iff, Z.eqb_neq; lia).
  split; [by intros ->|]. intros Hp.
  assert (nz (free_pages (g_stats s)) = true) as -> by (apply negb_true_iff, Z.eqb_neq; lia).
  simpl. destruct (frame_alloc_scan_spec s W (Z.to_nat (g_bitmap_bits s)) (g_next_hint s)
                     (wf_hint s W) Hp) as [(k & Hk & Hf & Hmin & Heq)|[Hall _]].
  - exists k. set (i := (g_next_hint s + k) mod g_bitmap_bits s) in *. rewrite Heq.
    assert (0 <= i < g_bitmap_bits s) as Hi by (apply Z.mod_pos_bound; lia).
    destruct (taken_spec s W i Hi Hf) as [Hw Hu].
    destruct (wf_owned s W i Hi Hf). unfold bit_free in *.
    split_and!; [lia|lia|done|by apply negb_true_iff|..]; try done.
    intros m Hm. apply negb_false_iff. by apply Hmin.
  - exfalso. rewrite (wf_free s W) in Hp. apply count_if_pos in Hp as (i & Hi & Hf).
    specialize (Hall ((i - g_next_hint s) mod g_bitmap_bits s)).
    rewrite Z.add_mod_idemp_r, Zplus_minus, (Z.mod_small i) in Hall by lia.
    rewrite Hall in Hf; [done|]. rewrite Z2Nat.id by lia. apply Z.mod_pos_bound. lia.
Qed.

(** * Contiguous runs *)

(** The bits [a, a + count) are all free. *)
Definition span_free (s : Pmm) (a count : Z) : Prop :=
  forall i, a <= i < a + count -> bit_free s i = true.

Section Runs.
Context (s : Pmm) (W : pmm_wf s).

(** The effect of handing out the run that starts at bit [a]. *)
Definition run_taken (a count : Z) : Z * Pmm :=
  ((g_base_frame s + a) * FRAME_SIZE,
   realloc s (g_bitmap_bytes (for_indices bitmap_set a count s)) (free_pages (g_stats s) - count)
     (wrap_index s (a + count))).

Lemma run_taken_eq a count :
  0 <= a -> 0 < count -> a + count <= g_bitmap_bits s -> count <= free_pages (g_stats s) ->
  (let s' := for_indices bitmap_set a count s in
   let s' := set_stats (fun t => t <| free_pages := u64 (free_pages t - count) |>) s' in
   let s' := s' <| g_next_hint := wrap_index s' (u64 (a + count)) |> in
   (frame_to_phys (u64 (g_base_frame s' + a)), s')) = run_taken a count.
Proof.
  intros Ha Hc Hle Hfp. pose proof (wf_top s W). pose proof (wf_base s W).
  pose proof (wf_free_range s W). pose proof (wf_capacity s W).
  destruct (for_indices_set a count s) as [(E & _ & _) _]; [lia|lia|lia|].
  unfold run_taken. set (t := for_indices bitmap_set a count s) in *. clearbody t.
  assert (exists b, t = s <| g_bitmap_bytes := b |>) as [b ->] by eauto. clear E.
  unfold set_stats. upd_simpl. f_equal.
  - rewrite u64_id by (unfold is_u64; lia). unfold frame_to_phys, FRAME_INVALID, U64_MAX.
    destruct (Z.eqb_spec (g_base_frame s + a) (2 ^ 64 - 1)); [lia|].
    unfold FRAME_SIZE in *.
    destruct (Z.ltb_spec ((2 ^ 64 - 1) / 4096) (g_base_frame s + a)) as [Hl|Hl];
      [change ((2 ^ 64 - 1) / 4096) with (2 ^ 52 - 1) in Hl; lia|].
    apply u64_id. unfold is_u64. lia.
  - unfold realloc, set_stats, wrap_index. upd_simpl.
    rewrite (u64_id (free_pages (g_stats s) - count)) by (unfold is_u64; lia).
    rewrite (u64_id (a + count)) by (unfold is_u64; lia). done.
Qed.

(** Taking a free run keeps the invariant and changes the run's bits only. *)
Lemma run_taken_spec a count :
  0 <= a -> 0 < count -> a + count <= g_bitmap_bits s -> span_free s a count ->
  pmm_wf (run_taken a count).2 /\
  (forall j, 0 <= j -> bitmap_used (run_taken a count).2 j =
     ((a <=? j) && (j <? a + count)) || bitmap_used s j).
Proof.
  intros Ha Hc Hle Hsp. pose proof (wf_capacity s W). pose proof (wf_bits s W).
  destruct (for_indices_set a count s) as [(_ & Hl & Hby) Hu]; [lia|lia|lia|].
  assert (forall j, 0 <= j -> used_in (g_bitmap_bytes (for_indices bitmap_set a count s)) j =
            ((a <=? j) && (j <? a + count)) || used_in (g_bitmap_bytes s) j) as Hu'
    by (intros j Hj; rewrite Hu by done; by destruct (_ && _)).
  split; [|done]. apply realloc_wf; [done|apply Hby, W|done| | |].
  - unfold wrap_index. destruct (Z.leb_spec (g_bitmap_bits s) (a + count)); lia.
  - rewrite (wf_free s W). symmetry. apply (count_if_interval _ _ _ a); [lia|lia|lia|done|].
    intros j Hj. rewrite Hu' by lia. unfold bit_free. rewrite bitmap_used_in. apply negb_orb.
  - intros j Hj Hj'. rewrite Hu' in Hj' by lia. bool_prop. apply (wf_owned s W); [done|].
    apply negb_true_iff. by rewrite bitmap_used_in.
Qed.

(** First fit: the search takes the lowest free run, and fails only when there
    is none. [r] is the length of the free run that ends at [index]. *)
Lemma alloc_run_scan_spec n count index run_start r :
  0 < count -> count <= free_pages (g_stats s) -> 0 <= r < count -> r <= index ->
  index + Z.of_nat n = g_bitmap_bits s ->
  (r <> 0 -> run_start = index - r) ->
  span_free s (index - r) r ->
  (index - r = 0 \/ bit_free s (index - r - 1) = false) ->
  (forall a, 0 <= a -> a + count <= index -> ~ span_free s a count) ->
  (exists a, 0 <= a /\ a + count <= g_bitmap_bits s /\ span_free s a count /\
     (forall a', 0 <= a' < a -> ~ span_free s a' count) /\
     alloc_run_scan n count index run_start r s = run_taken a count) \/
  ((forall a, 0 <= a -> a + count <= g_bitmap_bits s -> ~ span_free s a count) /\
   alloc_run_scan n count index run_start r s = (0, s)).
Proof.
  intros Hc Hfp. revert index run_start r.
  induction n as [|n IH]; intros index run_start r Hr Hri Hn Hrs Hspan Hleft Hnone.
  { right. split; [|done]. intros a Ha Hle. apply Hnone; lia. }
  cbn [alloc_run_scan]. destruct (bitmap_used s index) eqn:Eu.
  - assert (bit_free s index = false) as Ef by (unfold bit_free; by rewrite Eu).
    apply IH; try lia.
    + intros i Hi. lia.
    + right. by replace (index + 1 - 0 - 1) with index by lia.
    + intros a Ha Hle Hsp. destruct (decide (a + count <= index)) as [|Hgt].
      * by apply (Hnone a).
      * specialize (Hsp index). rewrite Ef in Hsp. by discriminate Hsp; lia.
  - assert (bit_free s index = true) as Ef by (unfold bit_free; by rewrite Eu).
    assert ((if !nz r then index else run_start) = index - r) as ->.
    { destruct (nz r) eqn:Er; bool_prop; simpl; [auto|lia]. }
    assert (span_free s (index - r) (r + 1)) as Hspan'.
    { intros i Hi. destruct (decide (i = index)) as [->|]; [done|apply Hspan; lia]. }
    destruct (Z.ltb_spec (r + 1) count) as [Hlt|Hge].
    + apply IH; try lia; replace (index + 1 - (r + 1)) with (index - r) by lia; try done.
      intros a Ha Hle Hsp. destruct (decide (a + count <= index)) as [|Hgt].
      * by apply (Hnone a).
      * destruct Hleft as [|Hl]; [lia|].
        specialize (Hsp (index - r - 1)). rewrite Hl in Hsp. by discriminate Hsp; lia.
    + left. assert (r + 1 = count) as Erc by lia. rewrite Erc in *.
      exists (index - r). split_and!; [lia|lia|done| |].
      * intros a' Ha' Hsp. apply (Hnone a'); [lia|lia|done].
      * apply run_taken_eq; lia.
Qed.

End Runs.

(** [pmm_alloc_pages count] is a first-fit allocation of [count] physically
    contiguous frames: a non-zero result is the physical address of the lowest
    run of [count] free frames, exactly the run's bits become used, the free
    count drops by [count] and the invariant is kept; a zero result means that
    [count] is zero or that no such run exists, and changes nothing. *)
Lemma pmm_alloc_pages_spec (s : Pmm) (count : Z) (W : pmm_wf s) (Hcount : 0 <= count) :
  (exists a, 0 < count /\ 0 <= a /\ a + count <= g_bitmap_bits s /\
     span_free s a count /\
     (forall a', 0 <= a' < a -> ~ span_free s a' count) /\
     (pmm_alloc_pages count s).1 = (g_base_frame s + a) * FRAME_SIZE /\
     (forall j, 0 <= j -> bitmap_used (pmm_alloc_pages count s).2 j =
        ((a <=? j) && (j <? a + count)) || bitmap_used s j) /\
     free_pages (g_stats (pmm_alloc_pages count s).2) = free_pages (g_stats s) - count /\
     pmm_wf (pmm_alloc_pages count s).2) \/
  ((count = 0 \/ forall a, 0 <= a -> a + count <= g_bitmap_bits s -> ~ span_free s a count) /\
   pmm_alloc_pages count s = (0, s)).
Proof.
  unfold pmm_alloc_pages. rewrite (wf_init s W). simpl.
  destruct (nz count) eqn:Ec; bool_prop; simpl; [|right; auto].
  destruct (Z.ltb_spec (free_pages (g_stats s)) count) as [Hf|Hf]; simpl.
  { right. split; [|done]. right. intros a Ha Hle Hsp.
    destruct (run_taken_spec s W a count) as [W' _]; [lia|lia|lia|done|].
    pose proof (wf_free_range _ W') as Hr. unfold run_taken, realloc, set_stats in Hr. simpl in Hr.
    upd_simpl_in Hr. lia. }
  destruct (Z.ltb_spec (g_bitmap_bits s) count) as [Hb|Hb]; simpl.
  { right. split; [|done]. right. intros a Ha Hle. lia. }
  pose proof (wf_bits s W).
  destruct (alloc_run_scan_spec s W (Z.to_nat (g_bitmap_bits s)) count 0 0 0)
    as [(a & Ha & Hle & Hsp & Hmin & ->)|[Hnone ->]]; try lia; try (intros i Hi; lia).
  - left. exists a. destruct (run_taken_spec s W a count Ha ltac:(lia) Hle Hsp) as [Hw Hu].
    split_and!; try done. lia.
  - right. auto.
Qed.

(** * Release *)

(** Every frame of the span is owned by the allocator, is not bitmap storage
    and is currently allocated. *)
Definition span_allocated (s : Pmm) (first count : Z) : Prop :=
  forall f, first <= f < first + count ->
    frame_managed s f = true /\ frame_is_bitmap s f = false /\
    bitmap_used s (f - g_base_frame s) = true.

(** An allocated span leaves room in the accounting for its own release. *)
Lemma span_allocated_count s first count :
  pmm_wf s -> 0 <= count -> g_base_frame s <= first ->
  first + count <= g_base_frame s + g_bitmap_bits s ->
  span_allocated s first count ->
  count <= total_pages (g_stats s) - free_pages (g_stats s).
Proof.
  intros W Hc Hf Hle Hsp. pose proof (wf_bits s W).
  rewrite (wf_total s W), (wf_free s W).
  set (a := first - g_base_frame s).
  set (g := fun j => negb ((a <=? j) && (j <? a + count)) && bit_managed s j).
  assert (count_if g (g_bitmap_bits s) = count_if (bit_managed s) (g_bitmap_bits s) - count) as Hg.
  { apply (count_if_interval _ _ _ a); [lia|lia|lia| |done].
    intros i Hi. apply Hsp. lia. }
  assert (count_if (bit_free s) (g_bitmap_bits s) <= count_if g (g_bitmap_bits s)); [|lia].
  apply count_if_le; [lia|]. intros i Hi Hfree. unfold g.
  destruct (wf_owned s W i Hi Hfree) as [-> _]. rewrite andb_true_r.
  destruct (Z.leb_spec a i), (Z.ltb_spec i (a + count)); try done. exfalso.
  destruct (Hsp (g_base_frame s + i)) as (_ & _ & Hu); [lia|].
  replace (g_base_frame s + i - g_base_frame s) with i in Hu by lia.
  unfold bit_free in Hfree. by rewrite Hu in Hfree.
Qed.

Lemma free_range_valid_spec s first count :
  pmm_wf s -> is_u64 first -> is_u64 count ->
  free_range_valid s first count = true <-> 0 < count /\ span_allocated s first count.
Proof.
  intros W Hf Hc. pose proof (wf_ranges s W) as Hin. pose proof (wf_top s W). pose proof (wf_base s W). pose proof (wf_bits s W).
  unfold is_u64 in *. unfold free_range_valid. rewrite (wf_init s W).
  assert (nz (g_bitmap s) = true) as -> by (apply negb_true_iff, Z.eqb_neq, W). simpl.
  assert (forall i, 0 <= i < count -> g_base_frame s <= first -> first < 2 ^ 52 ->
     frame_bitmap_index s first + i = first + i - g_base_frame s) as Hidx.
  { intros i Hi Hlo Hhi. unfold frame_bitmap_index. rewrite u64_id by (unfold is_u64; lia). lia. }
  change (U64_MAX / FRAME_SIZE) with (2 ^ 52 - 1). unfold FRAME_INVALID, U64_MAX.
  split.
  - intros H'. repeat (if_case_in H'; [done|]). bool_prop.
    split; [lia|]. intros f Hf'. rewrite forallb_forall in H'.
    specialize (H' (f - first)). rewrite <- list_elem_of_In, elem_of_seqZ in H'.
    specialize (H' ltac:(lia)). bool_prop.
    replace (first + (f - first)) with f in * by lia.
    rewrite Hidx in * by lia. by replace (first + (f - first)) with f in * by lia.
  - intros [Hpos Hsp].
    assert (forall f, first <= f < first + count ->
              g_base_frame s <= f < g_base_frame s + g_bitmap_bits s) as Hb
      by (intros f Hf'; apply Hin, Hsp; lia).
    pose proof (Hb first ltac:(lia)). pose proof (Hb (first + count - 1) ltac:(lia)).
    pose proof (span_allocated_count s first count W ltac:(lia) ltac:(lia) ltac:(lia) Hsp).
    pose proof (wf_free_le_total s W).
    assert (frame_bitmap_index s first = first - g_base_frame s) as Hi0
      by (pose proof (Hidx 0 ltac:(lia) ltac:(lia) ltac:(lia)); lia).
    repeat (if_case; [exfalso; rewrite ?orb_true_iff in *;
                      repeat match goal with H : _ \/ _ |- _ => destruct H end;
                      bool_prop; lia|]).
    apply forallb_forall. intros i Hi. rewrite <- list_elem_of_In, elem_of_seqZ in Hi.
    destruct (Hsp (first + i)) as (-> & -> & Hu); [lia|]. simpl. rewrite Hidx by lia. done.
Qed.

(** Clearing the bits of an allocated span keeps the invariant. *)
Lemma release_wf s first count :
  pmm_wf s -> 0 < count -> span_allocated s first count ->
  let a := first - g_base_frame s in
  let bytes := g_bitmap_bytes (for_indices bitmap_clear a count s) in
  pmm_wf (realloc s bytes (free_pages (g_stats s) + count) a) /\
  for_indices bitmap_clear a count s = s <| g_bitmap_bytes := bytes |> /\
  (forall j, 0 <= j -> used_in bytes j =
     negb ((a <=? j) && (j <? a + count)) && used_in (g_bitmap_bytes s) j) /\
  0 <= a /\ a + count <= g_bitmap_bits s.
Proof.
  intros W Hc Hsp a bytes.
  pose proof (wf_ranges s W first (proj1 (Hsp first ltac:(lia)))) as Hlo.
  pose proof (wf_ranges s W (first + count - 1) (proj1 (Hsp (first + count - 1) ltac:(lia)))) as Hhi.
  pose proof (wf_capacity s W).
  destruct (for_indices_clear a count s) as [(E & Hl & Hby) Hu]; [lia|lia|lia|].
  assert (forall j, 0 <= j -> used_in bytes j =
     negb ((a <=? j) && (j <? a + count)) && used_in (g_bitmap_bytes s) j) as Hu'
    by (intros j Hj; unfold bytes; rewrite Hu by done; by destruct (_ && _)).
  split_and!; [|done|done|lia|lia].
  apply realloc_wf; [done|apply Hby, W|done|lia| |].
  - enough (count_if (bit_free s) (g_bitmap_bits s) =
            count_if (fun i => !used_in bytes i) (g_bitmap_bits s) - count)
      by (rewrite (wf_free s W); lia).
    apply (count_if_interval _ _ _ a); [lia|lia|lia| |].
    + intros i Hi. rewrite Hu' by lia.
      destruct (Z.leb_spec a i), (Z.ltb_spec i (a + count)); simpl; lia || done.
    + intros j Hj. rewrite Hu' by lia. unfold bit_free. rewrite bitmap_used_in.
      destruct (Z.leb_spec a j), (Z.ltb_spec j (a + count)); simpl; try done.
      destruct (Hsp (g_base_frame s + j)) as (_ & _ & Hused); [lia|].
      replace (g_base_frame s + j - g_base_frame s) with j in Hused by lia.
      rewrite bitmap_used_in in Hused. by rewrite Hused.
  - intros i Hi Hfree. rewrite Hu' in Hfree by lia.
    destruct (Z.leb_spec a i), (Z.ltb_spec i (a + count)); simpl in Hfree.
    1: { destruct (Hsp (g_base_frame s + i)) as (Hm & Hb & _); [lia|done]. }
    all: apply (wf_owned s W); [done|]; unfold bit_free; by rewrite bitmap_used_in, Hfree.
Qed.

(** No armed diagnostic fault matches this release. *)
Definition no_fault (s : Pmm) (first count : Z) : Prop :=
  g_free_fault_armed s && (first =? g_free_fault_first s) && (count =? g_free_fault_count s) = false.

Lemma frame_free_range_eq s first count :
  pmm_wf s -> is_u64 first -> is_u64 count -> 0 < count -> span_allocated s first count ->
  no_fault s first count ->
  let a := first - g_base_frame s in
  frame_free_range first count s =
    (true, realloc s (g_bitmap_bytes (for_indices bitmap_clear a count s))
             (free_pages (g_stats s) + count) a).
Proof.
  intros W Hf Hcu Hc Hsp Hnf a. destruct (release_wf s first count W Hc Hsp) as (W' & E & _ & Ha & Hle).
  pose proof (wf_top s W). pose proof (wf_base s W). pose proof (wf_free_range _ W') as Hfr.
  unfold realloc, set_stats in Hfr. upd_simpl_in Hfr.
  unfold frame_free_range. unfold no_fault in Hnf.
  rewrite (proj2 (free_range_valid_spec s first count W Hf Hcu) (conj Hc Hsp)), Hnf. simpl.
  unfold frame_bitmap_index. rewrite u64_id by (unfold is_u64 in *; lia). fold a. fold a in E, Hfr.
  rewrite E. unfold realloc, set_stats. upd_simpl.
  rewrite u64_id by (unfold is_u64; lia). done.
Qed.

(** [frame_free_range] is all-or-nothing. Unless a diagnostic fault is
    armed for exactly this span, it succeeds exactly when the span is non-empty
    and every frame of it is managed, allocated and not bitmap storage; then
    exactly the span's bits become free, the free count grows by [count] and
    the invariant is kept. When it fails, no allocation state changes. *)
Lemma frame_free_range_spec (s : Pmm) (first count : Z)
  (W : pmm_wf s) (Hf : is_u64 first) (Hc : is_u64 count) (Hnf : no_fault s first count) :
  ((frame_free_range first count s).1 = true <-> 0 < count /\ span_allocated s first count) /\
  ((frame_free_range first count s).1 = true ->
   let s' := (frame_free_range first count s).2 in
   let a := first - g_base_frame s in
   pmm_wf s' /\ free_pages (g_stats s') = free_pages (g_stats s) + count /\
   (forall j, 0 <= j -> bitmap_used s' j =
      negb ((a <=? j) && (j <? a + count)) && bitmap_used s j)) /\
  ((frame_free_range first count s).1 = false -> (frame_free_range first count s).2 = s).
Proof.
  pose proof (free_range_valid_spec s first count W Hf Hc) as Hv.
  destruct (free_range_valid s first count) eqn:Ev.
  - destruct (proj1 Hv eq_refl) as [Hpos Hsp].
    destruct (release_wf s first count W Hpos Hsp) as (W' & _ & Hu & _).
    rewrite (frame_free_range_eq s first count W Hf Hc Hpos Hsp Hnf). simpl.
    split_and!; done.
  - unfold frame_free_range. rewrite Ev. simpl. split_and!; [|done|done].
    split; [done|]. intros H. by apply Hv in H.
Qed.
