(* ===== verification/PmmInit.v ===== *)
(** [pmm_init] establishes the allocator invariant of [PmmProofs]: the first
    pass terminates, the ranges it collects are the firmware's conventional
    frames, and the bitmap built from them is consistent with the counters. *)

From S2P Require Import Prelude.
From S2P Require Import Pmm.
From S2P Require Import PmmProofs.

Open Scope jcos_scope.

(** * The firmware memory map as a list *)

(** The number of descriptors the loop of [pmm_init] visits. *)
Definition descriptor_count (boot : BootInfo) : Z :=
  if memory_map_size boot <? SIZEOF_DESCRIPTOR then 0
  else (memory_map_size boot - SIZEOF_DESCRIPTOR) / memory_map_descriptor_size boot + 1.

Definition boot_descriptors_from (boot : BootInfo) (k : Z) : list BootMemoryDescriptor :=
  map (fun i => descriptor_at boot (u64 (memory_map boot + i * memory_map_descriptor_size boot)))
    (seqZ k (descriptor_count boot - k)).

Definition boot_descriptors (boot : BootInfo) : list BootMemoryDescriptor :=
  boot_descriptors_from boot 0.

(** The frames of a descriptor the allocator accepts. *)
Definition descriptor_frames (d : BootMemoryDescriptor) : list Z :=
  match descriptor_span d with
  | None => []
  | Some (first, last) => seqZ first (last - first)
  end.

Definition boot_frames (boot : BootInfo) : list Z :=
  concat (map descriptor_frames (boot_descriptors boot)).

(** A memory map of 64-bit fields whose end does not wrap. *)
Record boot_wf (boot : BootInfo) : Prop := {
  bw_map : memory_map boot <> 0;
  bw_size : 0 < memory_map_size boot;
  bw_dsize : SIZEOF_DESCRIPTOR <= memory_map_descriptor_size boot;
  bw_nowrap : memory_map_size boot + memory_map_descriptor_size boot < 2 ^ 64;
  bw_fields : forall a, is_u64 (physical_start (descriptor_at boot a)) /\
                        is_u64 (number_of_pages (descriptor_at boot a)) }.

Lemma descriptor_count_spec boot k :
  boot_wf boot -> 0 <= k ->
  (k * memory_map_descriptor_size boot + SIZEOF_DESCRIPTOR <= memory_map_size boot <->
   k < descriptor_count boot).
Proof.
  intros B Hk. pose proof (bw_dsize _ B). unfold SIZEOF_DESCRIPTOR in *. unfold descriptor_count.
  unfold SIZEOF_DESCRIPTOR.
  destruct (Z.ltb_spec (memory_map_size boot) 40); [nia|].
  split; intros H'.
  - enough (k <= (memory_map_size boot - 40) / memory_map_descriptor_size boot) by lia.
    apply Z.div_le_lower_bound; lia.
  - assert (memory_map_descriptor_size boot *
            ((memory_map_size boot - 40) / memory_map_descriptor_size boot)
            <= memory_map_size boot - 40) by (apply Z.mul_div_le; lia). nia.
Qed.

(** The first pass terminates and visits the descriptors in order. *)
Lemma collect_ranges_from fuel boot k s :
  boot_wf boot -> 0 <= k <= descriptor_count boot ->
  descriptor_count boot - k < Z.of_nat fuel ->
  collect_ranges fuel boot (k * memory_map_descriptor_size boot) s =
  Some (foldl (fun s d => collect_descriptor d s) s (boot_descriptors_from boot k)).
Proof.
  intros B. revert k s. induction fuel as [|fuel IH]; intros k s Hk Hf; [lia|].
  pose proof (bw_dsize _ B). pose proof (bw_nowrap _ B). pose proof (bw_size _ B).
  pose proof (descriptor_count_spec boot k B ltac:(lia)) as Hc.
  unfold SIZEOF_DESCRIPTOR in *. cbn [collect_ranges].
  assert (k <= descriptor_count boot -> k * memory_map_descriptor_size boot <=
          memory_map_size boot - 40 + memory_map_descriptor_size boot) as Hb.
  { intros _. destruct (decide (k = 0)) as [->|]; [lia|].
    pose proof (descriptor_count_spec boot (k - 1) B ltac:(lia)) as Hc1.
    unfold SIZEOF_DESCRIPTOR in Hc1. lia. }
  unfold SIZEOF_DESCRIPTOR. rewrite u64_id by (unfold is_u64; nia).
  destruct (Z.leb_spec (k * memory_map_descriptor_size boot + 40) (memory_map_size boot)) as [Hle|Hgt].
  - rewrite u64_id by (unfold is_u64; nia).
    replace (k * memory_map_descriptor_size boot + memory_map_descriptor_size boot)
      with ((k + 1) * memory_map_descriptor_size boot) by lia.
    rewrite IH by lia. unfold boot_descriptors_from.
    rewrite (seqZ_cons k) by lia. simpl. unfold Z.succ, Z.pred.
    by replace (descriptor_count boot - (k + 1)) with (descriptor_count boot - k + -1) by lia.
  - unfold boot_descriptors_from. rewrite seqZ_nil by lia. done.
Qed.

Lemma collect_ranges_total boot s :
  boot_wf boot ->
  collect_ranges (collect_fuel boot) boot 0 s =
  Some (foldl (fun s d => collect_descriptor d s) s (boot_descriptors boot)).
Proof.
  intros B. pose proof (bw_dsize _ B). pose proof (bw_size _ B).
  change 0 with (0 * memory_map_descriptor_size boot) at 1.
  unfold SIZEOF_DESCRIPTOR in *.
  assert (0 <= memory_map_size boot / memory_map_descriptor_size boot) by (apply Z.div_pos; lia).
  assert (0 <= descriptor_count boot <=
          memory_map_size boot / memory_map_descriptor_size boot + 1).
  { unfold descriptor_count, SIZEOF_DESCRIPTOR. destruct (Z.ltb_spec (memory_map_size boot) 40); [lia|].
    split; [pose proof (Z.div_pos (memory_map_size boot - 40) (memory_map_descriptor_size boot)); lia|].
    assert ((memory_map_size boot - 40) / memory_map_descriptor_size boot <=
            memory_map_size boot / memory_map_descriptor_size boot) by (apply Z.div_le_mono; lia). lia. }
  apply collect_ranges_from; [done|lia|]. unfold collect_fuel. lia.
Qed.

(** * Accepted spans *)

Lemma land_le_l a b : 0 <= a -> 0 <= b -> Z.land a b <= a.
Proof.
  intros Ha Hb. apply Z.ldiff_le; [done|]. apply Z.bits_inj'. intros n Hn.
  rewrite Z.ldiff_spec, Z.land_spec, Z.bits_0. by destruct (Z.testbit a n), (Z.testbit b n).
Qed.

Lemma descriptor_span_bounds d first last :
  is_u64 (physical_start d) -> is_u64 (number_of_pages d) ->
  descriptor_span d = Some (first, last) -> 256 <= first < last /\ last < 2 ^ 52.
Proof.
  intros Hs Hn. unfold descriptor_span.
  repeat (if_case; [done|]). destruct (align_up_page _) as [start|]; [|done].
  set (st := if start <? MIN_USABLE_ADDRESS then MIN_USABLE_ADDRESS else start). repeat (if_case; [done|]). intros [= <- <-]. bool_prop.
  assert (MIN_USABLE_ADDRESS <= st) as Hst.
  { unfold st. destruct (Z.ltb_spec start MIN_USABLE_ADDRESS); lia. }
  set (e := align_down_page _) in *.
  assert (0 <= e < 2 ^ 64) as He.
  { split; [lia || (unfold MIN_USABLE_ADDRESS in Hst; lia)|]. unfold e, align_down_page.
    pose proof (u64_range (physical_start d + u64 (number_of_pages d * FRAME_SIZE))) as Hr.
    pose proof (u64_range (Z.lnot (FRAME_SIZE - 1))) as Hm. unfold is_u64 in *.
    pose proof (land_le_l _ _ (proj1 Hr) (proj1 Hm)). lia. }
  unfold phys_to_frame in *.
  destruct (nz (Z.land st _)); [done|]. destruct (nz (Z.land e _)); [done|].
  unfold FRAME_SIZE, MIN_USABLE_ADDRESS in *.
  assert (256 <= st / 4096) by (apply Z.div_le_lower_bound; lia).
  assert (e / 4096 < 2 ^ 52) by (apply Z.div_lt_upper_bound; lia). lia.
Qed.

(** * The collected ranges *)

Definition frames_of (r : PmmRange) : list Z := seqZ (r_first r) (r_end r - r_first r).

Definition range_frames (l : list PmmRange) : list Z := concat (map frames_of l).

(** [g_ranges] during the first pass: non-empty ranges of real frames, whose
    frames are a sublist of the frames [acc] accepted so far, and all of them
    while the range table is not full. *)
Record ranges_ok (acc : list Z) (s : Pmm) : Prop := {
  ro_length : length (g_ranges s) = Z.to_nat PMM_MAX_RANGES;
  ro_count : 0 <= range_count (g_stats s) <= PMM_MAX_RANGES;
  ro_bounds : Forall (fun r => 256 <= r_first r < r_end r /\ r_end r < 2 ^ 52) (ranges s);
  ro_frames : range_frames (ranges s) `sublist_of` acc;
  ro_total : total_pages (g_stats s) = 0;
  ro_full : range_count (g_stats s) < PMM_MAX_RANGES -> range_frames (ranges s) = acc }.

Lemma range_frames_app l1 l2 : range_frames (l1 ++ l2) = range_frames l1 ++ range_frames l2.
Proof. unfold range_frames. by rewrite map_app, concat_app. Qed.

Lemma range_frames_one r : range_frames [r] = frames_of r.
Proof. unfold range_frames. simpl. apply app_nil_r. Qed.

(** The last entry of a non-empty prefix. *)
Lemma take_last_insert {A} `{Inhabited A} (l : list A) (n : nat) (x : A) :
  (0 < n <= length l)%nat ->
  take n l = take (n - 1) l ++ [l !!! (n - 1)%nat] /\
  take n (<[(n - 1)%nat := x]> l) = take (n - 1) l ++ [x].
Proof.
  intros Hn. destruct n as [|n]; [lia|]. replace (S n - 1)%nat with n by lia. split.
  - rewrite (take_S_r _ _ (l !!! n)); [done|]. apply list_lookup_lookup_total_lt. lia.
  - rewrite (take_S_r _ _ x) by (apply list_lookup_insert_eq; lia).
    by rewrite take_insert_ge by lia.
Qed.

Lemma frames_of_split a b c :
  a <= b <= c -> frames_of (mkPmmRange a c) = frames_of (mkPmmRange a b) ++ seqZ b (c - b).
Proof.
  intros H. unfold frames_of. simpl. rewrite <- (Z.sub_add a b) at 2.
  replace (b - a + a) with (a + (b - a)) by lia. rewrite <- seqZ_app by lia. f_equal. lia.
Qed.

Lemma add_range_ok acc first last s :
  ranges_ok acc s -> 256 <= first < last -> last < 2 ^ 52 ->
  ranges_ok (acc ++ seqZ first (last - first)) (add_range first last s).
Proof.
  intros [Hl Hc Hb Hf Ht Hfull] H1 H2. unfold add_range.
  set (n := range_count (g_stats s)) in *. unfold PMM_MAX_RANGES in *.
  assert (ranges s = take (Z.to_nat n) (g_ranges s)) as Er by done.
  destruct (nz n && _) eqn:Em.
  - bool_prop. unfold range_at in *.
    replace (Z.to_nat (n - 1)) with (Z.to_nat n - 1)%nat in * by lia.
    set (r := g_ranges s !!! (Z.to_nat n - 1)%nat) in *.
    destruct (take_last_insert (g_ranges s) (Z.to_nat n) (r <| r_end := last |>)) as [E1 E2]; [rewrite Hl; lia|].
    fold r in E1. rewrite Er, E1 in Hb, Hf, Hfull. apply Forall_app in Hb as [Hb1 Hb2].
    rewrite Forall_singleton in Hb2.
    assert (frames_of (r <| r_end := last |>) = frames_of r ++ seqZ first (last - first)) as Ef.
    { clearbody r. destruct r as [ra rb]. simpl in *. subst rb. apply frames_of_split. lia. }
    constructor; upd_simpl; [by rewrite length_insert|done| | |done|];
      unfold ranges; upd_simpl; fold n; rewrite E2.
    + apply Forall_app. split; [done|]. apply Forall_singleton. upd_simpl. lia.
    + rewrite range_frames_app, range_frames_one, Ef, app_assoc.
      rewrite range_frames_app, range_frames_one in Hf. by apply sublist_app.
    + intros Hn. rewrite range_frames_app, range_frames_one, Ef, app_assoc.
      rewrite range_frames_app, range_frames_one in Hfull. by rewrite Hfull.
  - clear Em. destruct (Z.leb_spec 128 n).
    + constructor; try done; [by apply sublist_inserts_r|].
      unfold set_stats, PMM_MAX_RANGES. upd_simpl. fold n. lia.
    + assert (take (Z.to_nat (n + 1)) (<[Z.to_nat n:=mkPmmRange first last]> (g_ranges s)) =
              ranges s ++ [mkPmmRange first last]) as E.
      { replace (Z.to_nat n) with (Z.to_nat (n + 1) - 1)%nat by lia.
        destruct (take_last_insert (g_ranges s) (Z.to_nat (n + 1)) (mkPmmRange first last)) as [_ ->]; [rewrite Hl; lia|].
        rewrite Er. do 2 f_equal. lia. }
      constructor; unfold set_stats; upd_simpl; [by rewrite length_insert|unfold PMM_MAX_RANGES; lia| | |done|];
        unfold ranges; upd_simpl; rewrite E.
      * apply Forall_app. split; [done|]. apply Forall_singleton. simpl. lia.
      * rewrite range_frames_app, range_frames_one. by apply sublist_app.
      * intros _. rewrite range_frames_app, range_frames_one, Hfull; [done|lia].
Qed.

Lemma collect_ok acc l s :
  ranges_ok acc s ->
  Forall (fun d => is_u64 (physical_start d) /\ is_u64 (number_of_pages d)) l ->
  ranges_ok (acc ++ concat (map descriptor_frames l))
    (foldl (fun s d => collect_descriptor d s) s l).
Proof.
  intros H Hl. revert acc s H. induction Hl as [|d l [Hd1 Hd2] _ IH]; intros acc s H; simpl.
  - by rewrite app_nil_r.
  - rewrite app_assoc. apply IH. unfold collect_descriptor, descriptor_frames.
    destruct (descriptor_span d) as [[a b]|] eqn:E; [|by rewrite app_nil_r].
    destruct (descriptor_span_bounds d a b) as [? ?]; [done..|]. by apply add_range_ok.
Qed.

Lemma pmm_reset_ok s : ranges_ok [] (pmm_reset s).
Proof. constructor; done. Qed.

(** Membership in the ranges, as the code tests it and as a list. *)
Lemma frame_managed_iff s f : frame_managed s f = true <-> f ∈ range_frames (ranges s).
Proof.
  unfold frame_managed, range_frames. rewrite existsb_exists. setoid_rewrite <- list_elem_of_In.
  rewrite list_elem_of_In, in_concat. setoid_rewrite in_map_iff. split.
  - intros (r & Hr & Hf). exists (frames_of r). split; [exists r; by rewrite <- list_elem_of_In|].
    bool_prop. apply list_elem_of_In, elem_of_seqZ. lia.
  - intros (l & (r & <- & Hr) & Hf). apply list_elem_of_In in Hf. apply elem_of_seqZ in Hf.
    exists r. split; [by apply list_elem_of_In|]. apply andb_true_iff.
    rewrite Z.leb_le, Z.ltb_lt. lia.
Qed.

(** * Span and total *)

Lemma range_span_fold rs lo hi t :
  Forall (fun r => 256 <= r_first r < r_end r /\ r_end r < 2 ^ 52) rs ->
  0 <= t -> t + Z.of_nat (length (range_frames rs)) < 2 ^ 64 ->
  256 <= lo -> hi < 2 ^ 52 ->
  exists lo' hi', foldl span_acc (lo, hi, t) rs =
    (lo', hi', t + Z.of_nat (length (range_frames rs))) /\
  256 <= lo' <= lo /\ hi <= hi' < 2 ^ 52 /\
  Forall (fun r => lo' <= r_first r /\ r_end r <= hi') rs.
Proof.
  intros H. revert lo hi t. induction H as [|r rs Hr _ IH]; intros lo hi t Ht Hlt Hlo Hhi.
  - exists lo, hi. simpl. rewrite Z.add_0_r. split_and!; done || lia.
  - change (range_frames (r :: rs)) with (frames_of r ++ range_frames rs) in *.
    rewrite length_app in *. unfold frames_of in *. rewrite length_seqZ in *.
    simpl. rewrite (u64_id (r_end r - r_first r)) by (unfold is_u64; lia).
    rewrite u64_id by (unfold is_u64; lia).
    set (lo1 := if r_first r <? lo then _ else lo). set (hi1 := if r_end r >? hi then _ else hi).
    assert (256 <= lo1 <= lo /\ lo1 <= r_first r) as Hlo1
      by (unfold lo1; destruct (Z.ltb_spec (r_first r) lo); lia).
    assert (hi <= hi1 < 2 ^ 52 /\ r_end r <= hi1) as Hhi1
      by (unfold hi1; destruct (Z.ltb_spec hi (r_end r)); lia).
    destruct (IH lo1 hi1 (t + (r_end r - r_first r))) as (lo' & hi' & E & Hl & Hh & Hall); [lia..|].
    exists lo', hi'. rewrite E. split_and!; try lia.
    + f_equal. lia.
    + constructor; [lia|done].
Qed.

(** * Building the bitmap *)

(** A loop over a list whose body sets or clears the bit of each element. *)
Lemma fold_bits (op : Z -> Pmm -> Pmm) (v : bool) (idx : Pmm -> Z -> Z) l s :
  (forall i s, bits_step s (op i s)) ->
  (forall i j s, 0 <= i < bit_capacity (g_bitmap_bytes s) -> 0 <= j ->
     used_in (g_bitmap_bytes (op i s)) j = if i =? j then v else used_in (g_bitmap_bytes s) j) ->
  (forall s s' x, bits_step s s' -> idx s' x = idx s x) ->
  (forall x, x ∈ l -> 0 <= idx s x < bit_capacity (g_bitmap_bytes s)) ->
  bits_step s (foldl (fun s x => op (idx s x) s) s l) /\
  (forall j, 0 <= j -> used_in (g_bitmap_bytes (foldl (fun s x => op (idx s x) s) s l)) j =
     if bool_decide (j ∈ idx s <$> l) then v else used_in (g_bitmap_bytes s) j).
Proof.
  intros Hstep Hop Hidx. revert s. induction l as [|x l IH]; intros s Hl; simpl.
  - split; [apply bits_step_refl|]. done.
  - set (t := op (idx s x) s).
    assert (bits_step s t) as Ht by apply Hstep.
    assert (bit_capacity (g_bitmap_bytes t) = bit_capacity (g_bitmap_bytes s)) as Ec
      by (unfold bit_capacity; by rewrite (proj1 (proj2 Ht))).
    assert (idx t <$> l = idx s <$> l) as Em by (apply list_fmap_ext; intros; by apply Hidx).
    destruct (IH t) as [IH1 IH2].
    { intros y Hy. rewrite Ec, (Hidx s t) by done. apply Hl. set_solver. }
    split; [eauto using bits_step_trans|]. intros j Hj. rewrite IH2, Em by done.
    unfold t. rewrite Hop by (done || (apply Hl; set_solver)).
    destruct (Z.eqb_spec (idx s x) j) as [Hx|Hx]; repeat case_bool_decide; set_solver.
Qed.

Definition clear_frame (s : Pmm) (frame : Z) : Pmm := bitmap_clear (frame_bitmap_index s frame) s.

Lemma clear_ranges_flat rs s :
  foldl clear_range s rs = foldl clear_frame s (range_frames rs).
Proof.
  revert s. induction rs as [|r rs IH]; intros s; [done|].
  change (range_frames (r :: rs)) with (frames_of r ++ range_frames rs).
  rewrite foldl_app. simpl. apply IH.
Qed.

(** The state between the two halves of [pmm_init]. *)
Record build_pre (t : Pmm) : Prop := {
  bp_base : 256 <= g_base_frame t;
  bp_bits : 0 < g_bitmap_bits t;
  bp_top : g_base_frame t + g_bitmap_bits t < 2 ^ 52;
  bp_bounds : Forall (fun r => 256 <= r_first r < r_end r /\ r_end r < 2 ^ 52) (ranges t);
  bp_nodup : NoDup (range_frames (ranges t));
  bp_span : ranges_in_span t;
  bp_total : total_pages (g_stats t) = Z.of_nat (length (range_frames (ranges t)));
  bp_pages : g_bitmap_page_count t = ((g_bitmap_bits t + 7) / 8 + FRAME_SIZE - 1) / FRAME_SIZE }.

Section Build.
Context (t : Pmm) (B : build_pre t).

Let base := g_base_frame t.
Let bits := g_bitmap_bits t.
Let pc := g_bitmap_page_count t.
Let frames := range_frames (ranges t).

Lemma page_count_covers : 0 < pc /\ bits <= 8 * (pc * FRAME_SIZE) /\ pc < 2 ^ 40.
Proof.
  pose proof (bp_bits t B). pose proof (bp_top t B). pose proof (bp_base t B).
  unfold pc, bits. rewrite (bp_pages t B). unfold FRAME_SIZE.
  pose proof (Z.div_mod (g_bitmap_bits t + 7) 8). pose proof (Z.mod_pos_bound (g_bitmap_bits t + 7) 8).
  set (q := (g_bitmap_bits t + 7) / 8) in *.
  pose proof (Z.div_mod (q + 4096 - 1) 4096). pose proof (Z.mod_pos_bound (q + 4096 - 1) 4096).
  set (p := (q + 4096 - 1) / 4096) in *. lia.
Qed.

(** The total is the number of managed indices. *)
Lemma managed_count : count_if (bit_managed t) bits = total_pages (g_stats t).
Proof.
  pose proof (bp_bits t B). rewrite (bp_total t B).
  rewrite <- (length_fmap (fun f => f - base)).
  rewrite <- (count_if_elem_of bits ((fun f => f - base) <$> frames)).
  - apply count_if_ext. intros i Hi. unfold bit_managed. fold base.
    apply eq_true_iff_eq. rewrite frame_managed_iff, bool_decide_eq_true, list_elem_of_fmap. split.
    + intros Hm. exists (base + i). split; [lia|done].
    + intros (f & -> & Hf). by replace (base + (f - base)) with f by lia.
  - unfold bits. lia.
  - apply NoDup_fmap_2; [|apply B]. intros x y. lia.
  - intros x. rewrite list_elem_of_fmap. intros (f & -> & Hf).
    apply frame_managed_iff in Hf. apply (bp_span t B) in Hf. unfold base, bits. lia.
Qed.

Lemma find_bitmap_range_spec first :
  find_bitmap_range t pc = first -> first <> FRAME_INVALID ->
  256 <= first < 2 ^ 52 /\
  (forall i, 0 <= i < pc -> frame_managed t (first + i) = true).
Proof.
  unfold find_bitmap_range. destruct (List.find _ _) as [r|] eqn:E; [|by intros <-]. intros <- _.
  apply List.find_some in E as [Hr Hsz].
  pose proof (bp_bounds t B) as Hb. rewrite Forall_forall in Hb. specialize (Hb r Hr).
  rewrite u64_id in Hsz by (unfold is_u64; lia). bool_prop. split; [lia|].
  intros i Hi. unfold frame_managed. apply existsb_exists. exists r.
  split; [done|]. apply andb_true_iff. rewrite Z.leb_le, Z.ltb_lt. lia.
Qed.

(** The module state once the bitmap storage is placed and filled with ones. *)
Context (s1 : Pmm) (first : Z).
Context (Es1 : s1 = t <| g_bitmap_first_frame := first |> <| g_bitmap := g_bitmap s1 |>
                      <| g_bitmap_bytes := replicate (Z.to_nat (pc * FRAME_SIZE)) 0xFF |>).
Context (Hfirst : 256 <= first < 2 ^ 52).
Context (Hman : forall i, 0 <= i < pc -> frame_managed t (first + i) = true).

Lemma s1_fields :
  ranges s1 = ranges t /\ g_base_frame s1 = base /\ g_bitmap_first_frame s1 = first /\
  g_bitmap_bytes s1 = replicate (Z.to_nat (pc * FRAME_SIZE)) 0xFF /\
  bit_capacity (g_bitmap_bytes s1) = 8 * (pc * FRAME_SIZE).
Proof.
  pose proof page_count_covers as (Hpc & _). split_and!; [by rewrite Es1..|].
  rewrite Es1. upd_simpl. unfold bit_capacity.
  rewrite length_replicate, Z2Nat.id; [done|]. unfold FRAME_SIZE. lia.
Qed.

Lemma frame_index s f :
  g_base_frame s = base -> base <= f < 2 ^ 52 -> frame_bitmap_index s f = f - base.
Proof.
  intros E Hf. pose proof (bp_base t B). unfold frame_bitmap_index.
  rewrite E. apply u64_id. unfold is_u64, base in *. lia.
Qed.

Lemma all_ones_used j : 0 <= j < bits -> used_in (g_bitmap_bytes s1) j = true.
Proof.
  destruct s1_fields as (_ & _ & _ & -> & _). intros Hj.
  pose proof page_count_covers as (_ & Hcov & _).
  rewrite used_in_testbit by lia. unfold byte_at. rewrite lookup_replicate_2; simpl.
  - change 255 with (Z.ones 8). apply Z.ones_spec_low. apply Z.mod_pos_bound. lia.
  - assert (j / 8 < pc * FRAME_SIZE) by (apply Z.div_lt_upper_bound; lia).
    pose proof (Z.div_pos j 8). lia.
Qed.

(** After the first loop exactly the managed frames are free. *)
Lemma build_clear :
  let s2 := foldl clear_range s1 (ranges s1) in
  bits_step s1 s2 /\
  (forall j, 0 <= j < bits -> used_in (g_bitmap_bytes s2) j = negb (bit_managed t j)).
Proof.
  destruct s1_fields as (Er & Eb & _ & _ & Ecap). pose proof page_count_covers as (_ & Hcov & _).
  pose proof (bp_top t B). intros s2. unfold s2. rewrite clear_ranges_flat, Er. fold frames.
  assert (forall f, f ∈ frames -> base <= f < base + bits) as Hfr.
  { intros f Hf. apply frame_managed_iff in Hf. by apply (bp_span t B) in Hf. }
  destruct (fold_bits bitmap_clear false frame_bitmap_index frames s1) as [St2 U2].
  { auto with pmm. }
  { intros i j s Hi Hj. rewrite used_in_clear by done. by destruct (i =? j). }
  { by intros s s' x (-> & _). }
  { intros f Hf. specialize (Hfr f Hf). rewrite Ecap, frame_index; unfold base, bits in *; done || lia. }
  split; [done|]. intros j Hj. unfold clear_frame. rewrite U2, all_ones_used by lia.
  enough (bool_decide (j ∈ frame_bitmap_index s1 <$> frames) = bit_managed t j) as ->
    by (by destruct (bit_managed t j)).
  apply eq_true_iff_eq. unfold bit_managed. fold base.
  rewrite bool_decide_eq_true, frame_managed_iff, list_elem_of_fmap. fold frames. split.
  - intros (f & -> & Hf). pose proof (Hfr f Hf).
    rewrite frame_index by (unfold base, bits in *; done || lia).
    by replace (base + (f - base)) with f by lia.
  - intros Hf. pose proof (Hfr _ Hf). exists (base + j). split; [|done].
    rewrite frame_index; unfold base, bits in *; done || lia.
Qed.

(** After the second loop they are free except the bitmap's own frames. *)
Lemma build_bits :
  let s2 := foldl clear_range s1 (ranges s1) in
  let s3 := foldl (fun s i => bitmap_set (frame_bitmap_index s (u64 (g_bitmap_first_frame s + i))) s)
              s2 (seqZ 0 pc) in
  bits_step s1 s3 /\
  (forall j, 0 <= j < bits -> used_in (g_bitmap_bytes s3) j =
     negb (bit_managed t j) || ((first - base <=? j) && (j <? first - base + pc))).
Proof.
  destruct s1_fields as (_ & Eb & Efi & _ & Ecap). pose proof page_count_covers as (_ & Hcov & _).
  pose proof (bp_top t B). intros s2 s3. destruct build_clear as [St2 U2]. fold s2 in St2, U2.
  assert (forall i, 0 <= i < pc -> frame_bitmap_index s2 (u64 (g_bitmap_first_frame s2 + i)) =
            first - base + i /\ 0 <= first - base + i < bits) as Hidx.
  { intros i Hi. pose proof (bp_span t B _ (Hman i Hi)) as Hs. pose proof (bp_base t B).
    assert (g_base_frame s2 = base /\ g_bitmap_first_frame s2 = first) as [Eb2 ->]
      by (by rewrite (proj1 St2)).
    rewrite (u64_id (first + i)) by (unfold is_u64; lia).
    rewrite frame_index by (unfold base in *; done || lia). unfold base, bits in *. lia. }
  destruct (fold_bits bitmap_set true
              (fun s i => frame_bitmap_index s (u64 (g_bitmap_first_frame s + i))) (seqZ 0 pc) s2)
    as [St3 U3].
  { auto with pmm. }
  { intros i j s Hi Hj. rewrite used_in_set by done. by destruct (i =? j). }
  { by intros s s' x (-> & _). }
  { intros i Hi. apply elem_of_seqZ in Hi. destruct (Hidx i ltac:(lia)) as [-> Hr].
    unfold bit_capacity. rewrite (proj1 (proj2 St2)). fold (bit_capacity (g_bitmap_bytes s1)).
    rewrite Ecap. lia. }
  split; [eauto using bits_step_trans|]. intros j Hj. unfold s3. rewrite U3, U2 by lia.
  enough (bool_decide (j ∈ (fun i => frame_bitmap_index s2 (u64 (g_bitmap_first_frame s2 + i)))
                           <$> seqZ 0 pc) = (first - base <=? j) && (j <? first - base + pc)) as ->
    by (destruct (bit_managed t j), ((first - base <=? j) && (j <? first - base + pc)); done).
  apply eq_true_iff_eq. rewrite bool_decide_eq_true, list_elem_of_fmap, andb_true_iff, Z.leb_le, Z.ltb_lt.
  split.
  - intros (i & -> & Hi). apply elem_of_seqZ in Hi. destruct (Hidx i ltac:(lia)) as [-> _]. lia.
  - intros Hr. exists (j - (first - base)). rewrite elem_of_seqZ.
    destruct (Hidx (j - (first - base)) ltac:(lia)) as [-> _]. lia.
Qed.

End Build.

(** The second half establishes the invariant. *)
Lemma pmm_build_bitmap_wf t t' :
  build_pre t -> pmm_build_bitmap t = (true, t') ->
  pmm_wf t' /\ (forall f, frame_managed t' f = frame_managed t f) /\
  free_pages (g_stats t') = total_pages (g_stats t) - g_bitmap_page_count t /\
  bitmap_pages (g_stats t') = g_bitmap_page_count t /\
  total_pages (g_stats t') = total_pages (g_stats t) /\
  range_count (g_stats t') = range_count (g_stats t) /\
  (forall i, 0 <= i < g_bitmap_bits t' -> bit_managed t' i = true ->
     frame_is_bitmap t' (g_base_frame t' + i) = false -> bitmap_used t' i = false).
Proof.
  intros B. unfold pmm_build_bitmap. set (pc := g_bitmap_page_count t).
  destruct (find_bitmap_range t pc =? FRAME_INVALID) eqn:Ef; [done|]. bool_prop.
  set (first := find_bitmap_range t pc) in *.
  destruct (find_bitmap_range_spec t B first eq_refl Ef) as [Hfirst Hman].
  if_case; [done|]. bool_prop. upd_simpl. fold pc. if_case; [done|]. bool_prop.
  pose proof (page_count_covers t B) as (Hpc & Hcov & Hlt). fold pc in Hpc, Hcov, Hlt.
  unfold FRAME_SIZE in *. rewrite (u64_id (pc * 4096)) by (unfold is_u64; lia).
  match goal with |- context [foldl clear_range ?x _] => set (s1 := x) end.
  change (ranges t) with (ranges s1).
  destruct (build_clear t B s1 first eq_refl) as [(E2 & _) _].
  destruct (build_bits t B s1 first eq_refl Hman) as [(E3 & Hl & Hby) Hu]. fold pc in E3, Hl, Hby, Hu.
  replace (g_bitmap_page_count (foldl clear_range s1 (ranges s1))) with pc by (by rewrite E2).
  match type of E3 with ?x = _ => set (s3 := x) in * end. clearbody s3. clear E2.
  set (bytes := g_bitmap_bytes s3) in *. clearbody bytes. subst s3. unfold set_stats. upd_simpl. fold pc.
  if_case; [done|]. intros [= <-]. bool_prop. pose proof (managed_count t B) as Hmc.
  assert (is_bytes bytes) as Hbytes.
  { apply Hby. unfold s1. upd_simpl. apply Forall_replicate. lia. }
  assert (length bytes = Z.to_nat (pc * 4096)) as Hlen by (rewrite Hl; apply length_replicate).
  pose proof (bp_base t B). pose proof (bp_top t B). pose proof (bp_bits t B).
  assert (forall i, 0 <= i < pc -> 0 <= first - g_base_frame t + i < g_bitmap_bits t) as Hin
    by (intros i Hi; pose proof (bp_span t B _ (Hman i Hi)); lia).
  pose proof (Hin 0 ltac:(lia)). pose proof (Hin (pc - 1) ltac:(lia)).
  split_and!; [|reflexivity..|].
  2: { unfold s1. upd_simpl. intros i Hi Hm Hb. rewrite bitmap_used_in. upd_simpl.
       change (bit_managed t i = true) in Hm. rewrite Hu, Hm by done. simpl.
       unfold frame_is_bitmap in Hb. upd_simpl_in Hb. fold pc in Hb.
       rewrite (proj2 (Z.eqb_neq _ _) Ef) in Hb. apply andb_false_iff. rewrite Z.leb_gt, Z.ltb_ge.
       if_case_in Hb; bool_prop; lia. }
  constructor; unfold s1; upd_simpl; try done; try lia.
  - unfold bit_capacity. rewrite Hlen. lia.
  - apply B.
  - rewrite <- Hmc. symmetry. apply (count_if_interval _ _ _ (first - g_base_frame t)); [lia|lia|lia| |].
    + intros i Hi. specialize (Hman (i - (first - g_base_frame t)) ltac:(lia)).
      unfold bit_managed. rewrite <- Hman. f_equal. lia.
    + intros j Hj. unfold bit_free. rewrite bitmap_used_in. upd_simpl. rewrite Hu by lia.
      rewrite negb_orb, negb_involutive. apply andb_comm.
  - intros i Hi. unfold bit_free. rewrite bitmap_used_in. upd_simpl. rewrite Hu by lia.
    intros Hf. rewrite negb_orb, negb_involutive in Hf. bool_prop. split; [done|].
    unfold frame_is_bitmap. upd_simpl. fold first pc.
    if_case; [done|]. if_case; [done|]. bool_prop. apply Z.ltb_ge.
    apply andb_false_iff in H5 as [?|?]; bool_prop; lia.
Qed.

(** The state after the first pass. *)
Lemma collected boot s :
  boot_wf boot -> NoDup (boot_frames boot) ->
  exists s1, collect_ranges (collect_fuel boot) boot 0 (pmm_reset s) = Some s1 /\
    ranges_ok (boot_frames boot) s1.
Proof.
  intros B Hnd. eexists. split; [by apply collect_ranges_total|].
  change (boot_frames boot) with ([] ++ boot_frames boot).
  apply collect_ok; [apply pmm_reset_ok|]. apply Forall_forall. intros d Hd.
  apply in_map_iff in Hd as (i & <- & _). apply (bw_fields _ B).
Qed.

(** The span the bitmap covers encloses every collected range. *)
Lemma span_of_collected boot s1 :
  NoDup (boot_frames boot) -> ranges_ok (boot_frames boot) s1 -> range_count (g_stats s1) <> 0 ->
  exists lo hi, range_span s1 = (lo, hi, Z.of_nat (length (range_frames (ranges s1)))) /\
    256 <= lo /\ hi < 2 ^ 52 /\
    (forall f, frame_managed s1 f = true -> lo <= f < hi).
Proof.
  intros Hnd [Hl Hc Hb Hf Ht _] Hn. unfold PMM_MAX_RANGES in *.
  assert (ranges s1 !! 0%nat = Some (range_at s1 0)) as H0.
  { unfold ranges, range_at. rewrite lookup_take_lt by lia. apply list_lookup_lookup_total_lt. lia. }
  pose proof (Forall_lookup_1 _ _ _ _ Hb H0) as Hr0. simpl in Hr0.
  assert (Z.of_nat (length (range_frames (ranges s1))) <= 2 ^ 52) as Hlen.
  { assert (NoDup (range_frames (ranges s1))) as Hnd' by (eapply sublist_NoDup; done).
    rewrite <- (count_if_elem_of (2 ^ 52) (range_frames (ranges s1))); [|lia|done|].
    - apply count_if_bounds. lia.
    - intros x Hx. apply frame_managed_iff, existsb_exists in Hx as (r & Hr & Hx).
      rewrite Forall_forall in Hb. specialize (Hb r Hr). bool_prop. lia. }
  destruct (range_span_fold (ranges s1) (r_first (range_at s1 0)) (r_end (range_at s1 0)) 0 Hb)
    as (lo & hi & E & Hlo & Hhi & Hall); [lia..|].
  rewrite Z.add_0_l in E. exists lo, hi. unfold range_span. rewrite Ht.
  split_and!; [exact E|lia|lia|].
  intros f Hm. apply existsb_exists in Hm as (r & Hr & Hm).
  rewrite Forall_forall in Hall. specialize (Hall r Hr). bool_prop. lia.
Qed.

(** [pmm_init] terminates on a memory map whose end does not wrap. When the
    firmware's conventional-memory descriptors are disjoint and it returns
    true, the allocator invariant holds, every managed frame is one of the
    firmware's conventional frames above the first MiB (all of them when the
    range table did not fill up), and the free count is the managed total less
    the bitmap's own pages. *)
Lemma pmm_init_spec (boot : BootInfo) (s : Pmm)
  (B : boot_wf boot) (Hnd : NoDup (boot_frames boot)) :
  exists ok s', pmm_init (Some boot) s = Some (ok, s') /\
  (ok = true ->
   pmm_wf s' /\
   (forall f, frame_managed s' f = true -> f ∈ boot_frames boot /\ 256 <= f) /\
   (range_count (g_stats s') < PMM_MAX_RANGES ->
    forall f, f ∈ boot_frames boot -> frame_managed s' f = true) /\
   free_pages (g_stats s') = total_pages (g_stats s') - bitmap_pages (g_stats s') /\
   (forall i, 0 <= i < g_bitmap_bits s' -> bit_managed s' i = true ->
      frame_is_bitmap s' (g_base_frame s' + i) = false -> bitmap_used s' i = false)).
Proof.
  pose proof (bw_map _ B). pose proof (bw_size _ B). pose proof (bw_dsize _ B).
  destruct (collected boot s B Hnd) as (s1 & Ec & Ok).
  unfold pmm_init. rewrite Ec.
  destruct (_ || _) eqn:Eg; [by eexists _, _|]. clear Eg.
  if_case; [by eexists _, _|]. bool_prop.
  destruct (span_of_collected boot s1 Hnd Ok E) as (lo & hi & Es & Hlo & Hhi & Hin). rewrite Es.
  if_case; [by eexists _, _|]. bool_prop. upd_simpl. if_case; [by eexists _, _|].
  if_case; [by eexists _, _|]. if_case; [by eexists _, _|]. if_case; [by eexists _, _|].
  match goal with |- context [pmm_build_bitmap ?x] => set (t := x) end.
  destruct (pmm_build_bitmap t) as [ok t'] eqn:Eb. exists ok, t'. split; [done|]. intros ->.
  assert (build_pre t) as P.
  { constructor; unfold t, set_stats; upd_simpl; try done; try lia;
      [apply Ok|by eapply sublist_NoDup, Ok|].
    intros f Hfm. upd_simpl. specialize (Hin f Hfm). lia. }
  destruct (pmm_build_bitmap_wf t t' P Eb) as (W & Hm & Hf & Hbp & Htp & Hrc & Hall).
  split_and!; [done| | |by rewrite Hf, Htp, Hbp|done].
  - intros f Hf'. rewrite Hm in Hf'. pose proof (bp_span t P f Hf'). pose proof (bp_base t P).
    split; [|lia]. apply frame_managed_iff in Hf'. eapply elem_of_sublist; [done|apply Ok].
  - intros Hn f Hf'. rewrite Hm. apply frame_managed_iff.
    change (f ∈ range_frames (ranges s1)). rewrite (ro_full _ _ Ok); [done|].
    by rewrite Hrc in Hn.
Qed.

(** * The memory map as the firmware means it *)

(** Frame [f] lies wholly in the conventional memory (type 7) that [d] describes,
    and not in the first MiB; a descriptor that wraps describes nothing. *)
Definition usable (d : BootMemoryDescriptor) (f : Z) : Prop :=
  bmd_type d = 7 /\ 256 <= f /\ physical_start d + number_of_pages d * 4096 < 2 ^ 64 /\
  physical_start d <= f * 4096 /\ (f + 1) * 4096 <= physical_start d + number_of_pages d * 4096.

(** [d] is the descriptor with index [i], wholly inside the map. *)
Definition described (boot : BootInfo) (i : Z) (d : BootMemoryDescriptor) : Prop :=
  0 <= i /\ i * memory_map_descriptor_size boot + 40 <= memory_map_size boot /\
  d = descriptor_at boot (u64 (memory_map boot + i * memory_map_descriptor_size boot)).

(** The conventional frames of the firmware. *)
Definition conventional (boot : BootInfo) (f : Z) : Prop := exists i d, described boot i d /\ usable d f.

Definition disjoint_memory (boot : BootInfo) : Prop :=
  forall i j d e f, described boot i d -> described boot j e -> usable d f -> usable e f -> i = j.

Lemma land_page x : 0 <= x < 2 ^ 64 -> Z.land x (u64 (Z.lnot (FRAME_SIZE - 1))) = x / 4096 * 4096.
Proof.
  intros Hx. change (u64 (Z.lnot (FRAME_SIZE - 1))) with (Z.shiftl (Z.ones 52) 12).
  assert (Z.land x (Z.shiftl (Z.ones 52) 12) = Z.shiftl (Z.land (Z.shiftr x 12) (Z.ones 52)) 12) as ->.
  { apply Z.bits_inj'. intros n Hn. rewrite Z.land_spec, !Z.shiftl_spec by lia. destruct (Z.ltb_spec n 12).
    - rewrite !(Z.testbit_neg_r _ (n - 12)) by lia. by rewrite andb_false_r.
    - rewrite Z.land_spec, Z.shiftr_spec by lia. by rewrite Z.sub_add. }
  rewrite Z.land_ones, Z.shiftl_mul_pow2, Z.shiftr_div_pow2 by lia. change (2 ^ 12) with 4096. rewrite Z.mod_small; [done|].
  change (2 ^ 52) with 4503599627370496. Z.to_euclidean_division_equations; lia.
Qed.

Lemma phys_to_frame_page n : phys_to_frame (n * 4096) = n.
Proof.
  unfold phys_to_frame. change (FRAME_SIZE - 1) with (Z.ones 12). rewrite Z.land_ones by lia. change (2 ^ 12) with 4096. unfold FRAME_SIZE.
  by rewrite Z.mod_mul, Z.div_mul by lia.
Qed.

(** The span of a descriptor holds exactly its usable frames. *)
Lemma descriptor_frames_usable d f :
  is_u64 (physical_start d) -> is_u64 (number_of_pages d) -> f ∈ descriptor_frames d <-> usable d f.
Proof.
  unfold is_u64. intros Hs Hn. unfold descriptor_frames, usable, descriptor_span, align_up_page, align_down_page, MIN_USABLE_ADDRESS.
  change (U64_MAX / FRAME_SIZE) with 4503599627370495. change U64_MAX with 18446744073709551615. change (2 ^ 64) with 18446744073709551616 in *.
  change EFI_CONVENTIONAL_MEMORY with 7. set (p := physical_start d) in *. set (n := number_of_pages d) in *.
  assert (forall P, f ∈ @nil Z <-> P <-> ~ P) as Hnil by (intros P; split; [intros H HP; by apply H, not_elem_of_nil in HP|intros H; split; [by intros ?%not_elem_of_nil|done]]).
  if_case; bool_prop; [apply Hnil; lia|]. if_case; bool_prop; [apply Hnil; lia|]. if_case; bool_prop; [apply Hnil; lia|].
  assert (u64 (n * FRAME_SIZE) = n * 4096) as -> by (unfold FRAME_SIZE; apply u64_id; unfold is_u64; lia).
  if_case; bool_prop; [apply Hnil; lia|]. rewrite (u64_id (p + n * 4096)) by (unfold is_u64; lia).
  change (18446744073709551615 - (FRAME_SIZE - 1)) with 18446744073709547520.
  destruct (p >? 18446744073709547520) eqn:Hup; bool_prop; [apply Hnil; lia|]. change (p + FRAME_SIZE - 1) with (p + 4096 - 1).
  rewrite (u64_id (p + 4096 - 1)) by (unfold is_u64; lia). rewrite !land_page by lia.
  assert (exists st, (if (p + 4096 - 1) / 4096 * 4096 <? 1048576 then 1048576 else (p + 4096 - 1) / 4096 * 4096) = st * 4096 /\
    (forall f, st <= f <-> 256 <= f /\ p <= f * 4096)) as (st & -> & Hst).
  { destruct (Z.ltb_spec ((p + 4096 - 1) / 4096 * 4096) 1048576); [exists 256|exists ((p + 4096 - 1) / 4096)]; (split; [done|]); intros g; Z.to_euclidean_division_equations; lia. }
  assert (forall g, g < (p + n * 4096) / 4096 <-> (g + 1) * 4096 <= p + n * 4096) as He by (intros g; Z.to_euclidean_division_equations; lia).
  set (e := (p + n * 4096) / 4096) in *. rewrite !phys_to_frame_page. specialize (Hst f) as Hstf. specialize (He f) as Hef.
  if_case; bool_prop; [apply Hnil; lia|]. unfold FRAME_INVALID, U64_MAX.
  assert (256 <= st) by (apply Hst; lia). assert (e < 2 ^ 52) by (unfold e; change (2 ^ 52) with 4503599627370496; Z.to_euclidean_division_equations; lia).
  if_case; [exfalso; rewrite !orb_true_iff in *; destruct_or?; bool_prop; lia|]. rewrite elem_of_seqZ. lia.
Qed.

Lemma described_index boot i d :
  boot_wf boot -> described boot i d <->
  0 <= i < descriptor_count boot /\ d = descriptor_at boot (u64 (memory_map boot + i * memory_map_descriptor_size boot)).
Proof.
  intros B. unfold described. split.
  - intros (H1 & H2 & ->). split; [|done]. split; [done|]. by apply (descriptor_count_spec boot i B).
  - intros ([H1 H2] & ->). split_and!; [done| |done]. by apply (descriptor_count_spec boot i B) in H2.
Qed.

Lemma boot_frames_conventional boot f : boot_wf boot -> f ∈ boot_frames boot <-> conventional boot f.
Proof.
  intros B. unfold boot_frames, conventional, boot_descriptors, boot_descriptors_from. rewrite list_elem_of_In, in_concat. split.
  - intros (l & Hl & Hf). apply in_map_iff in Hl as (d & <- & Hd). apply in_map_iff in Hd as (i & <- & Hi). apply list_elem_of_In, elem_of_seqZ in Hi.
    eexists i, _. split; [apply described_index; [done|split; [lia|done]]|]. apply descriptor_frames_usable; [apply (bw_fields _ B)..|]. by apply list_elem_of_In.
  - intros (i & d & [Hi ->]%described_index & Hu); [|done]. eexists. split; [apply in_map_iff; eexists; split; [reflexivity|]; apply in_map_iff; exists i; split; [reflexivity|]|].
    + apply list_elem_of_In, elem_of_seqZ. lia.
    + apply list_elem_of_In, descriptor_frames_usable; [apply (bw_fields _ B)..|done].
Qed.

Lemma disjoint_frames boot : boot_wf boot -> disjoint_memory boot -> NoDup (boot_frames boot).
Proof.
  intros B D. unfold boot_frames, boot_descriptors, boot_descriptors_from. rewrite map_map.
  assert (forall i, i ∈ seqZ 0 (descriptor_count boot - 0) -> 0 <= i < descriptor_count boot) as Hr by (intros i Hi; apply elem_of_seqZ in Hi; lia).
  pose proof (NoDup_seqZ 0 (descriptor_count boot - 0)) as Hn. induction Hn as [|i l Hi Hn IH]; [constructor|]. cbn [map concat]. apply list.NoDup_app. split_and!.
  - unfold descriptor_frames. destruct (descriptor_span _) as [[a b]|]; [apply NoDup_seqZ|constructor].
  - intros f Hf Hl. apply list_elem_of_In, in_concat in Hl as (fs & Hfs & Hin). apply in_map_iff in Hfs as (j & <- & Hj). apply list_elem_of_In in Hin, Hj.
    apply descriptor_frames_usable in Hf, Hin; [|apply (bw_fields _ B)..]. apply Hi. enough (i = j) as -> by done.
    eapply (D i j); [apply described_index; [done|]; split; [apply Hr; set_solver|reflexivity]|apply described_index; [done|]; split; [apply Hr; set_solver|reflexivity]|done|done].
  - apply IH. intros j Hj. apply Hr. set_solver.
Qed.

(** * Acceptance *)

(** While the table has room, the span of every descriptor lies in one range. *)
Lemma add_range_covers first last s a b :
  ranges_ok (range_frames (ranges s)) s -> range_count (g_stats s) < PMM_MAX_RANGES -> first < last ->
  (a = first /\ b = last) \/ (exists r, r ∈ ranges s /\ r_first r <= a /\ b <= r_end r) ->
  (exists r, r ∈ ranges (add_range first last s) /\ r_first r <= a /\ b <= r_end r) /\ range_count (g_stats (add_range first last s)) <= range_count (g_stats s) + 1.
Proof.
  intros [Hl Hc Hb _ _ _] Hroom Hlt Hor. unfold add_range. set (n := range_count (g_stats s)) in *. unfold PMM_MAX_RANGES in *.
  assert (ranges s = take (Z.to_nat n) (g_ranges s)) as Er by done. destruct (nz n && _) eqn:Em.
  - bool_prop. unfold range_at in *. replace (Z.to_nat (n - 1)) with (Z.to_nat n - 1)%nat in * by lia. set (r := g_ranges s !!! (Z.to_nat n - 1)%nat) in *.
    destruct (take_last_insert (g_ranges s) (Z.to_nat n) (r <| r_end := last |>)) as [E1 E2]; [rewrite Hl; lia|]. fold r in E1.
    split; [|upd_simpl; fold n; lia]. unfold ranges. upd_simpl. fold n. rewrite E2. rewrite Er, E1 in Hb, Hor. apply Forall_app in Hb as [_ Hb]. rewrite Forall_singleton in Hb.
    destruct Hor as [[-> ->]|(q & Hq & H1 & H2)].
    + exists (r <| r_end := last |>). upd_simpl. split_and!; [set_solver|lia|lia].
    + apply elem_of_app in Hq as [Hq|Hq%list_elem_of_singleton]; [exists q; set_solver|]. subst q. exists (r <| r_end := last |>). upd_simpl. split_and!; [set_solver|lia|lia].
  - clear Em. destruct (Z.leb_spec 128 n); [lia|].
    assert (take (Z.to_nat (n + 1)) (<[Z.to_nat n:=mkPmmRange first last]> (g_ranges s)) = ranges s ++ [mkPmmRange first last]) as E.
    { replace (Z.to_nat n) with (Z.to_nat (n + 1) - 1)%nat by lia.
      destruct (take_last_insert (g_ranges s) (Z.to_nat (n + 1)) (mkPmmRange first last)) as [_ ->]; [rewrite Hl; lia|]. rewrite Er. do 2 f_equal. lia. }
    unfold set_stats. upd_simpl. split; [|lia]. unfold ranges. upd_simpl. rewrite E.
    destruct Hor as [[-> ->]|(q & Hq & H1 & H2)]; [exists (mkPmmRange first last); cbn; split_and!; [set_solver|lia|lia]|exists q; set_solver].
Qed.

Lemma ranges_ok_self acc s : ranges_ok acc s -> ranges_ok (range_frames (ranges s)) s.
Proof. intros [H1 H2 H3 H4 H5 H6]. by split. Qed.

Lemma collect_covers l acc s a b :
  ranges_ok acc s -> Forall (fun d => is_u64 (physical_start d) /\ is_u64 (number_of_pages d)) l ->
  range_count (g_stats s) + Z.of_nat (length l) <= PMM_MAX_RANGES ->
  (exists r, r ∈ ranges s /\ r_first r <= a /\ b <= r_end r) \/ (exists d, d ∈ l /\ descriptor_span d = Some (a, b)) ->
  exists r, r ∈ ranges (foldl (fun s d => collect_descriptor d s) s l) /\ r_first r <= a /\ b <= r_end r.
Proof.
  intros Hs Hl. revert acc s Hs. induction Hl as [|d l [Hd1 Hd2] _ IH]; intros acc s Hs Hroom Hor; cbn [foldl].
  - destruct Hor as [?|(d & Hd & _)]; [done|by apply not_elem_of_nil in Hd].
  - cbn [length] in Hroom. unfold collect_descriptor at 2. destruct (descriptor_span d) as [[x y]|] eqn:E.
    + destruct (descriptor_span_bounds d x y) as [? ?]; [done..|].
      assert (range_count (g_stats (add_range x y s)) <= range_count (g_stats s) + 1) as Hc.
      { apply (add_range_covers x y s x y (ranges_ok_self _ _ Hs)); [lia|lia|by left]. }
      apply (IH _ _ (add_range_ok acc x y s Hs ltac:(lia) ltac:(lia))); [lia|]. destruct Hor as [Hor|(e & He & Eq)].
      * left. apply (add_range_covers x y s a b (ranges_ok_self _ _ Hs)); [lia|lia|by right].
      * apply elem_of_cons in He as [->|He]; [left|right; by exists e]. rewrite E in Eq. injection Eq as -> ->.
        apply (add_range_covers a b s a b (ranges_ok_self _ _ Hs)); [lia|lia|by left].
    + apply (IH acc); [done|lia|]. destruct Hor as [?|(e & He & Eq)]; [by left|]. apply elem_of_cons in He as [->|He]; [congruence|right; by exists e].
Qed.

(** The ends of the span are ends of ranges. *)
Lemma span_fold_ends rs lo hi t lo' hi' t' :
  foldl span_acc (lo, hi, t) rs = (lo', hi', t') ->
  (lo' = lo \/ exists r, r ∈ rs /\ lo' = r_first r) /\ (hi' = hi \/ exists r, r ∈ rs /\ hi' = r_end r).
Proof.
  revert lo hi t. induction rs as [|r rs IH]; intros lo hi t H; [injection H as <- <- <-; split; by left|]. cbn [foldl] in H. unfold span_acc at 2 in H.
  destruct (IH _ _ _ H) as [[->|(q & Hq & ->)] [->|(q' & Hq' & ->)]].
  all: split; [first [right; exists q; split; [set_solver|done]|destruct (r_first r <? lo); [right; exists r; set_solver|by left]]|].
  all: first [right; exists q'; split; [set_solver|done]|destruct (r_end r >? hi); [right; exists r; set_solver|by left]].
Qed.

Lemma range_frames_elem r rs f : r ∈ rs -> r_first r <= f < r_end r -> f ∈ range_frames rs.
Proof.
  intros Hr Hf. unfold range_frames. apply list_elem_of_In, in_concat. exists (frames_of r). split; [apply in_map_iff; exists r; split; [done|by apply list_elem_of_In]|].
  apply list_elem_of_In. unfold frames_of. apply elem_of_seqZ. lia.
Qed.

(** The second half succeeds when a range has room for the bitmap. *)
Lemma pmm_build_bitmap_succeeds t r :
  build_pre t -> r ∈ ranges t -> g_bitmap_page_count t <= r_end r - r_first r -> (pmm_build_bitmap t).1 = true.
Proof.
  intros B Hr Hpc. pose proof (bp_bounds t B) as Hb. rewrite Forall_forall in Hb. unfold pmm_build_bitmap. set (pc := g_bitmap_page_count t) in *.
  pose proof (page_count_covers t B) as (Hpos & _ & Hlt). fold pc in Hpos, Hlt.
  assert (find_bitmap_range t pc <> FRAME_INVALID /\ nz (frame_to_phys (find_bitmap_range t pc)) = true) as [Hf Hp].
  { unfold find_bitmap_range. destruct (List.find _ _) as [q|] eqn:E.
    - apply List.find_some in E as [Hq _]. specialize (Hb q Hq). unfold FRAME_INVALID, U64_MAX. split; [lia|]. unfold frame_to_phys, FRAME_INVALID, U64_MAX, FRAME_SIZE.
      change ((2 ^ 64 - 1) / 4096) with 4503599627370495. destruct (Z.eqb_spec (r_first q) (2 ^ 64 - 1)); [lia|]. destruct (Z.ltb_spec 4503599627370495 (r_first q)); [lia|].
      rewrite u64_id by (unfold is_u64; lia). unfold nz. apply negb_true_iff, Z.eqb_neq. lia.
    - apply list_elem_of_In in Hr. pose proof (List.find_none _ _ E r Hr) as Hno. cbn in Hno. specialize (Hb r Hr). rewrite u64_id in Hno by (unfold is_u64; lia). bool_prop. lia. }
  rewrite (proj2 (Z.eqb_neq _ _) Hf). upd_simpl. rewrite Hp. cbn [negb]. fold pc.
  assert ((pc >? U64_MAX / FRAME_SIZE) = false) as -> by (change (U64_MAX / FRAME_SIZE) with 4503599627370495; apply Z.ltb_ge; lia).
  assert (pc <= total_pages (g_stats t)) as Htot.
  { rewrite (bp_total t B). transitivity (Z.of_nat (length (frames_of r))); [unfold frames_of; rewrite length_seqZ; lia|]. apply inj_le.
    apply sublist_length. unfold range_frames. apply list_elem_of_In, in_split in Hr as (l1 & l2 & ->). rewrite map_app, concat_app. cbn [map concat].
    apply sublist_inserts_l, sublist_inserts_r. done. }
  destruct (find_bitmap_range_spec t B (find_bitmap_range t pc) eq_refl Hf) as [Hfirst Hman].
  set (first := find_bitmap_range t pc) in *. unfold FRAME_SIZE. rewrite (u64_id (pc * 4096)) by (unfold is_u64; lia).
  match goal with |- context [foldl clear_range ?x _] => set (s1 := x) end. change (ranges t) with (ranges s1).
  destruct (build_clear t B s1 first eq_refl) as [(E2 & _) _]. destruct (build_bits t B s1 first eq_refl Hman) as [(E3 & _) _]. fold pc in E3.
  replace (g_bitmap_page_count (foldl clear_range s1 (ranges s1))) with pc by (by rewrite E2). rewrite E3. unfold set_stats. upd_simpl. fold pc.
  change (total_pages (g_stats s1)) with (total_pages (g_stats t)). change (g_bitmap_page_count s1) with pc.
  destruct (Z.ltb_spec (total_pages (g_stats t)) pc); [lia|done].
Qed.

(** The state after the first pass. *)
Definition collected_state (boot : BootInfo) (s : Pmm) : Pmm := foldl (fun s d => collect_descriptor d s) (pmm_reset s) (boot_descriptors boot).

Lemma collected_ok boot s : boot_wf boot -> ranges_ok (boot_frames boot) (collected_state boot s).
Proof.
  intros B. apply (collect_ok [] (boot_descriptors boot)); [apply pmm_reset_ok|]. apply Forall_forall. intros e He.
  apply in_map_iff in He as (j & <- & _). apply (bw_fields _ B).
Qed.

(** With at most 128 descriptors the usable frames of each lie in one range. *)
Lemma collected_room boot s i d first n :
  boot_wf boot -> (forall j e, described boot j e -> j < 128) -> described boot i d -> 0 < n -> (forall j, 0 <= j < n -> usable d (first + j)) ->
  exists r, r ∈ ranges (collected_state boot s) /\ r_first r <= first /\ first + n <= r_end r.
Proof.
  intros B Hcount Hd Hpos Hus.
  assert (is_u64 (physical_start d) /\ is_u64 (number_of_pages d)) as [Hd1 Hd2] by (destruct Hd as (_ & _ & ->); apply (bw_fields _ B)).
  destruct (descriptor_span d) as [[a b]|] eqn:Es.
  2:{ pose proof (Hus 0 ltac:(lia)) as Hu. apply descriptor_frames_usable in Hu; [|done..]. unfold descriptor_frames in Hu. rewrite Es in Hu. by apply not_elem_of_nil in Hu. }
  assert (forall f, usable d f <-> a <= f < b) as Hab.
  { intros f. rewrite <- descriptor_frames_usable by done. unfold descriptor_frames. rewrite Es, elem_of_seqZ. lia. }
  pose proof (Hus 0 ltac:(lia)) as U0. pose proof (Hus (n - 1) ltac:(lia)) as U1. apply Hab in U0, U1.
  enough (exists r, r ∈ ranges (collected_state boot s) /\ r_first r <= a /\ b <= r_end r) as (r & Hr & Hra & Hrb) by (exists r; split_and!; [done|lia|lia]).
  apply (collect_covers (boot_descriptors boot) [] (pmm_reset s)); [apply pmm_reset_ok| | |].
  - apply Forall_forall. intros e He. apply in_map_iff in He as (j & <- & _). apply (bw_fields _ B).
  - change (range_count (g_stats (pmm_reset s))) with 0. unfold boot_descriptors, boot_descriptors_from. rewrite length_map, length_seqZ. unfold PMM_MAX_RANGES.
    destruct (decide (descriptor_count boot <= 0)); [lia|]. enough (descriptor_count boot - 1 < 128) by lia. eapply Hcount. apply described_index; [done|]. split; [lia|reflexivity].
  - right. exists d. split; [|done]. apply described_index in Hd as [Hi ->]; [|done]. apply list_elem_of_In, in_map_iff. exists i. split; [done|].
    apply list_elem_of_In, elem_of_seqZ. lia.
Qed.

(** The bitmap spans no more than the collected frames. *)
Lemma span_width boot s1 lo hi t width :
  ranges_ok (boot_frames boot) s1 -> range_count (g_stats s1) <> 0 -> range_span s1 = (lo, hi, t) ->
  (forall f g, f ∈ boot_frames boot -> g ∈ boot_frames boot -> f - g < width) -> hi - lo <= width.
Proof.
  intros [Hl Hc Hb Hf _ _] Hn E Hw. unfold PMM_MAX_RANGES in *.
  assert (ranges s1 !! 0%nat = Some (range_at s1 0)) as H0.
  { unfold ranges, range_at. rewrite lookup_take_lt by lia. apply list_lookup_lookup_total_lt. lia. }
  apply list_elem_of_lookup_2 in H0. destruct (span_fold_ends _ _ _ _ _ _ _ E) as [Hlo Hhi].
  assert (exists r, r ∈ ranges s1 /\ lo = r_first r) as (r & Hr & ->) by (destruct Hlo as [->|?]; [by exists (range_at s1 0)|done]).
  assert (exists q, q ∈ ranges s1 /\ hi = r_end q) as (q & Hq & ->) by (destruct Hhi as [->|?]; [by exists (range_at s1 0)|done]).
  rewrite Forall_forall in Hb. pose proof (Hb r (proj1 (list_elem_of_In _ _) Hr)). pose proof (Hb q (proj1 (list_elem_of_In _ _) Hq)).
  enough (r_end q - 1 - r_first r < width) by lia. apply Hw; (eapply elem_of_sublist; [|exact Hf]); [apply (range_frames_elem q)|apply (range_frames_elem r)]; done || lia.
Qed.

(** A map of at most 128 descriptors is accepted when the conventional memory of
    one of them holds the bitmap of all: [n] frames for a span of [n * 32768]. *)
Lemma pmm_init_accepts boot s i d first n :
  boot_wf boot -> disjoint_memory boot -> (forall j e, described boot j e -> j < 128) -> described boot i d ->
  0 < n -> (forall j, 0 <= j < n -> usable d (first + j)) -> (forall f g, conventional boot f -> conventional boot g -> f - g < n * 32768) ->
  exists s', pmm_init (Some boot) s = Some (true, s').
Proof.
  intros B D Hcount Hd Hpos Hus Hspan. pose proof (disjoint_frames boot B D) as Hnd. pose proof (bw_map _ B). pose proof (bw_size _ B). pose proof (bw_dsize _ B).
  pose proof (collected_ok boot s B) as Ok. destruct (collected_room boot s i d first n B Hcount Hd Hpos Hus) as (r & Hr & Hra & Hrb).
  unfold pmm_init. rewrite (collect_ranges_total boot (pmm_reset s) B). fold (collected_state boot s). set (s1 := collected_state boot s) in *.
  assert (!nz (memory_map boot) || !nz (memory_map_size boot) || (memory_map_descriptor_size boot <? SIZEOF_DESCRIPTOR) = false) as ->.
  { unfold nz. rewrite (proj2 (Z.eqb_neq _ _)), (proj2 (Z.eqb_neq _ _)) by lia. cbn [negb orb]. apply Z.ltb_ge. lia. }
  assert (range_count (g_stats s1) <> 0) as Hrc. { intros E. unfold ranges in Hr. rewrite E in Hr. by apply not_elem_of_nil in Hr. }
  unfold nz at 1. rewrite (proj2 (Z.eqb_neq _ _) Hrc). cbn [negb].
  destruct (span_of_collected boot s1 Hnd Ok Hrc) as (lo & hi & Ers & Hlo & Hhi & Hin). rewrite Ers.
  assert (hi - lo <= n * 32768) as Hw.
  { eapply (span_width boot); [done|done|done|]. intros f g Hf Hg. apply boot_frames_conventional in Hf, Hg; [|done..]. by apply Hspan. }
  assert (lo < hi) as Hlh. { destruct (Hin first) as [? ?]; [|lia]. apply frame_managed_iff, (range_frames_elem r); [done|lia]. }
  rewrite (proj2 (Z.leb_gt _ _) Hlh). upd_simpl. unfold U64_MAX.
  match goal with |- context [if ?c then Some (false, ?x) else _] => replace c with false by (symmetry; apply Z.ltb_ge; lia) end.
  set (q := (hi - lo + 7) / 8). assert (0 < q /\ 8 * q <= hi - lo + 7) as [Hq1 Hq2] by (unfold q; Z.to_euclidean_division_equations; lia).
  unfold nz at 1. rewrite (proj2 (Z.eqb_neq q 0)) by lia. cbn [negb]. unfold FRAME_SIZE.
  match goal with |- context [if ?c then Some (false, ?x) else _] => replace c with false by (symmetry; apply Z.ltb_ge; lia) end.
  set (pc := (q + 4096 - 1) / 4096). assert (0 < pc <= n) as Hpc by (unfold pc; Z.to_euclidean_division_equations; lia).
  unfold nz at 1. rewrite (proj2 (Z.eqb_neq pc 0)) by lia. cbn [negb].
  match goal with |- context [pmm_build_bitmap ?x] => set (t := x) end.
  assert (build_pre t) as P.
  { constructor; unfold t, set_stats; upd_simpl; try done; try lia; [apply Ok|by eapply sublist_NoDup, Ok|]. intros f Hfm. upd_simpl. specialize (Hin f Hfm). lia. }
  pose proof (pmm_build_bitmap_succeeds t r P Hr ltac:(change (g_bitmap_page_count t) with pc; lia)) as Hok.
  destruct (pmm_build_bitmap t) as [ok s']. cbn [fst] in Hok. subst ok. by exists s'.
Qed.

(** * Refusal *)

Lemma foldl_keeps {A B} (P : A -> Prop) (f : A -> B -> A) l a : P a -> (forall a b, P a -> P (f a b)) -> P (foldl f a l).
Proof. intros Ha Hf. revert a Ha. induction l as [|b l IH]; intros a Ha; [done|]. cbn. by apply IH, Hf. Qed.

(** The module is initialised exactly when [pmm_init] returns true. *)
Lemma pmm_init_flag boot s ok s' : pmm_init boot s = Some (ok, s') -> g_initialized s' = ok.
Proof.
  unfold pmm_init. destruct boot as [boot|]; [|by intros [= <- <-]]. if_case; [by intros [= <- <-]|].
  assert (forall n off t t', g_initialized t = false -> collect_ranges n boot off t = Some t' -> g_initialized t' = false) as Hc.
  { induction n as [|n IH]; intros off t t' Ht H; [done|]. cbn [collect_ranges] in H. if_case_in H; [|by injection H as <-]. eapply IH; [|exact H].
    unfold collect_descriptor. destruct (descriptor_span _) as [[a b]|]; [|done]. unfold add_range. if_case; [done|]. by if_case. }
  destruct (collect_ranges _ boot 0 (pmm_reset s)) as [t|] eqn:Ec; [|done]. apply Hc in Ec; [|done]. if_case; [by intros [= <- <-]|].
  destruct (range_span t) as [[lo hi] total]. do 5 (if_case; [by intros [= <- <-]|]).
  match goal with |- context [pmm_build_bitmap ?x] => set (t1 := x) end. assert (g_initialized t1 = false) as H1 by exact Ec. clearbody t1.
  intros H'. injection H' as H'. revert H'. unfold pmm_build_bitmap. do 3 (if_case; [by intros [= <- <-]|]).
  match goal with |- context [foldl ?f (foldl clear_range ?x ?y) ?l] => set (t3 := foldl f (foldl clear_range x y) l) end.
  assert (g_initialized t3 = false) as H3.
  { unfold t3. apply (foldl_keeps (fun s => g_initialized s = false)); [|done]. apply (foldl_keeps (fun s => g_initialized s = false)); [done|].
    intros a r Ha. unfold clear_range. by apply (foldl_keeps (fun s => g_initialized s = false)). }
  if_case; by intros [= <- <-].
Qed.
