(* ===== verification/PmmRefine.v ===== *)
(** Abstract specification of the frame allocator, the refinement theorem, and
    concrete runs that instantiate the hypotheses of the allocator's theorems.

    The abstract allocator is a finite set of free frames. Allocation may return
    any free frame (or any free contiguous run), release may add any span of
    owned frames none of which is free. *)

From S2P Require Import Prelude.
From S2P Require Import Pmm.
From S2P Require Import PmmProofs.
From S2P Require Import PmmInit.

Open Scope jcos_scope.

(** * Specification *)

Inductive Call :=
  | CallAlloc
  | CallAllocPages (count : Z)
  | CallFreeRange (first count : Z).

Definition span (first count : Z) : gset Z := list_to_set (seqZ first count).

(** [abs_step owned c r F F']: call [c] answers [r] and turns the free set [F]
    into [F']. *)
Inductive abs_step (owned : Z -> Prop) : Call -> Z -> gset Z -> gset Z -> Prop :=
  | abs_alloc F f : f ∈ F -> abs_step owned CallAlloc f F (F ∖ {[f]})
  | abs_alloc_none : abs_step owned CallAlloc FRAME_INVALID ∅ ∅
  | abs_run F first count : 0 < count -> span first count ⊆ F ->
      abs_step owned (CallAllocPages count) (first * FRAME_SIZE) F (F ∖ span first count)
  | abs_run_none F count : (count = 0 \/ forall first, ~ span first count ⊆ F) ->
      abs_step owned (CallAllocPages count) 0 F F
  | abs_free F first count : 0 < count -> (forall f, f ∈ span first count -> owned f /\ f ∉ F) ->
      abs_step owned (CallFreeRange first count) 1 F (F ∪ span first count)
  | abs_free_refused F first count :
      ~ (0 < count /\ forall f, f ∈ span first count -> owned f /\ f ∉ F) ->
      abs_step owned (CallFreeRange first count) 0 F F.

(** A span the abstract allocator lets a client release. *)
Definition may_free (owned : Z -> Prop) (F : gset Z) (first count : Z) : Prop :=
  0 < count /\ forall f, f ∈ span first count -> owned f /\ f ∉ F.

(** Calls and diagnostics: [OpFail] arms a one-shot fault for the release of a
    span, [OpClear] clears it. *)
Inductive Op :=
  | OpCall (c : Call)
  | OpFail (first count : Z)
  | OpClear.

(** [abs_op owned o r (F, fault) (F', fault')]: besides the free set there is the
    span whose release fails once. *)
Inductive abs_op (owned : Z -> Prop) : Op -> Z -> gset Z * option (Z * Z) -> gset Z * option (Z * Z) -> Prop :=
  | abs_op_call c r F F' fault : abs_step owned c r F F' ->
      ~ (exists first count, c = CallFreeRange first count /\ fault = Some (first, count) /\ may_free owned F first count) ->
      abs_op owned (OpCall c) r (F, fault) (F', fault)
  | abs_op_fault first count F : may_free owned F first count ->
      abs_op owned (OpCall (CallFreeRange first count)) 0 (F, Some (first, count)) (F, None)
  | abs_op_arm first count F : may_free owned F first count ->
      abs_op owned (OpFail first count) 1 (F, None) (F, Some (first, count))
  | abs_op_arm_refused first count F fault : fault <> None \/ ~ may_free owned F first count ->
      abs_op owned (OpFail first count) 0 (F, fault) (F, fault)
  | abs_op_clear F fault : abs_op owned OpClear 0 (F, fault) (F, None).

Inductive abs_ops (owned : Z -> Prop) : list Op -> list Z -> gset Z * option (Z * Z) -> gset Z * option (Z * Z) -> Prop :=
  | abs_nil a : abs_ops owned [] [] a a
  | abs_cons o r a1 a2 os rs a3 :
      abs_op owned o r a1 a2 -> abs_ops owned os rs a2 a3 ->
      abs_ops owned (o :: os) (r :: rs) a1 a3.

(** * Implementation *)

Definition run_call (c : Call) (s : Pmm) : Z * Pmm :=
  match c with
  | CallAlloc => frame_alloc s
  | CallAllocPages count => pmm_alloc_pages count s
  | CallFreeRange first count =>
    let '(ok, s) := frame_free_range first count s in (if ok then 1 else 0, s)
  end.

Definition run_op (o : Op) (s : Pmm) : Z * Pmm :=
  match o with
  | OpCall c => run_call c s
  | OpFail first count => let '(ok, s) := pmm_test_fail_free_range_once first count s in (if ok then 1 else 0, s)
  | OpClear => (0, pmm_test_clear_free_failure s)
  end.

Fixpoint run_ops (os : list Op) (s : Pmm) : list Z * Pmm :=
  match os with
  | [] => ([], s)
  | o :: os => let '(r, s) := run_op o s in
               let '(rs, s) := run_ops os s in (r :: rs, s)
  end.

Definition call_ok (c : Call) : Prop :=
  match c with
  | CallAlloc => True
  | CallAllocPages count => is_u64 count
  | CallFreeRange first count => is_u64 first /\ is_u64 count
  end.

Definition op_ok (o : Op) : Prop :=
  match o with
  | OpCall c => call_ok c
  | OpFail first count => is_u64 first /\ is_u64 count
  | OpClear => True
  end.

(** * Abstraction *)

Definition free_set (s : Pmm) : gset Z :=
  list_to_set (List.filter (fun f => !bitmap_used s (f - g_base_frame s))
                 (seqZ (g_base_frame s) (g_bitmap_bits s))).

Definition frame_owned (s : Pmm) (f : Z) : Prop :=
  frame_managed s f = true /\ frame_is_bitmap s f = false.

Lemma elem_of_span f first count : f ∈ span first count <-> first <= f < first + count.
Proof. unfold span. rewrite elem_of_list_to_set, elem_of_seqZ. lia. Qed.

Lemma elem_of_free_set s f :
  f ∈ free_set s <-> g_base_frame s <= f < g_base_frame s + g_bitmap_bits s /\
                     bitmap_used s (f - g_base_frame s) = false.
Proof.
  unfold free_set. rewrite elem_of_list_to_set, list_elem_of_In, filter_In, <- list_elem_of_In,
    elem_of_seqZ, negb_true_iff. lia || (split; intros []; split; lia || done).
Qed.

(** Same geometry: equal up to bits, free count and hint. *)
Lemma erase_geometry s s' :
  erase s' = erase s ->
  g_base_frame s' = g_base_frame s /\ g_bitmap_bits s' = g_bitmap_bits s /\
  g_free_fault_armed s' = g_free_fault_armed s /\
  (forall f, frame_owned s' f <-> frame_owned s f).
Proof.
  intros E. split_and!.
  - by apply (f_equal g_base_frame) in E.
  - by apply (f_equal g_bitmap_bits) in E.
  - by apply (f_equal g_free_fault_armed) in E.
  - intros f. unfold frame_owned. by rewrite (erase_managed _ _ _ E), (erase_is_bitmap _ _ _ E).
Qed.

(** The free set after a bitmap change described by indices. *)
Lemma free_set_minus s s' a count :
  erase s' = erase s ->
  (forall j, 0 <= j -> bitmap_used s' j = ((a <=? j) && (j <? a + count)) || bitmap_used s j) ->
  free_set s' = free_set s ∖ span (g_base_frame s + a) count.
Proof.
  intros (Eb & Ebi & _)%erase_geometry Hu. apply set_eq. intros f.
  rewrite elem_of_difference, !elem_of_free_set, elem_of_span, Eb, Ebi. split.
  - intros [Hr Hf]. rewrite Hu in Hf by lia. bool_prop. split; [done|].
    apply andb_false_iff in H as [?|?]; bool_prop; lia.
  - intros [[Hr Hf] Hn]. split; [done|]. rewrite Hu, Hf, orb_false_r by lia.
    apply andb_false_iff. rewrite Z.leb_gt, Z.ltb_ge. lia.
Qed.

Lemma free_set_plus s s' a count :
  erase s' = erase s -> 0 <= a -> a + count <= g_bitmap_bits s ->
  (forall j, 0 <= j -> bitmap_used s' j = negb ((a <=? j) && (j <? a + count)) && bitmap_used s j) ->
  free_set s' = free_set s ∪ span (g_base_frame s + a) count.
Proof.
  intros (Eb & Ebi & _)%erase_geometry Ha Hle Hu. apply set_eq. intros f.
  rewrite elem_of_union, !elem_of_free_set, elem_of_span, Eb, Ebi. split.
  - intros [Hr Hf]. rewrite Hu in Hf by lia. apply andb_false_iff in Hf as [Hf|Hf]; bool_prop; lia || auto.
  - intros [[Hr Hf]|Hs].
    + split; [done|]. by rewrite Hu, Hf, andb_false_r by lia.
    + split; [lia|]. rewrite Hu by lia.
      destruct (Z.leb_spec a (f - g_base_frame s)), (Z.ltb_spec (f - g_base_frame s) (a + count));
        simpl; lia || done.
Qed.

Lemma free_set_empty s : pmm_wf s -> free_pages (g_stats s) = 0 -> free_set s = ∅.
Proof.
  intros W H0. apply set_eq. intros f. rewrite elem_of_free_set. split; [|set_solver].
  intros [Hr Hf]. exfalso. rewrite (wf_free s W) in H0.
  assert (0 < count_if (bit_free s) (g_bitmap_bits s)); [|lia].
  apply count_if_pos. exists (f - g_base_frame s). split; [lia|]. unfold bit_free. by rewrite Hf.
Qed.

Lemma span_subset_free s first count :
  0 < count -> span first count ⊆ free_set s ->
  0 <= first - g_base_frame s /\ first - g_base_frame s + count <= g_bitmap_bits s /\
  span_free s (first - g_base_frame s) count.
Proof.
  intros Hc Hs.
  assert (forall f, first <= f < first + count -> f ∈ free_set s) as H
    by (intros f Hf; apply Hs, elem_of_span; done).
  pose proof (H first ltac:(lia)) as H1. pose proof (H (first + count - 1) ltac:(lia)) as H2.
  rewrite elem_of_free_set in H1, H2. split_and!; [lia|lia|]. intros i Hi.
  specialize (H (g_base_frame s + i) ltac:(lia)). apply elem_of_free_set in H as [_ H].
  replace (g_base_frame s + i - g_base_frame s) with i in H by lia. unfold bit_free. by rewrite H.
Qed.

Lemma erase_frame_alloc s : erase (frame_alloc s).2 = erase s.
Proof.
  unfold frame_alloc. if_case; [done|]. generalize (Z.to_nat (g_bitmap_bits s)), (g_next_hint s).
  clear E. intros n. induction n as [|n IH]; intros i; [done|]. simpl.
  if_case; [|apply IH]. simpl. by destruct s as [? []].
Qed.

(** * Refinement *)

Lemma alloc_refines s :
  pmm_wf s ->
  abs_step (frame_owned s) CallAlloc (frame_alloc s).1 (free_set s) (free_set (frame_alloc s).2).
Proof.
  intros W. destruct (frame_alloc_spec s W) as [H0 H1]. pose proof (wf_free_range s W).
  destruct (decide (free_pages (g_stats s) = 0)) as [E|E].
  - rewrite H0 by done. simpl. rewrite (free_set_empty s W E). apply abs_alloc_none.
  - destruct H1 as (k & Hk & Hr & Hf & _ & _ & _ & Hu & _); [lia|].
    set (i := (g_next_hint s + k) mod g_bitmap_bits s) in *.
    assert (0 <= i < g_bitmap_bits s) by (apply Z.mod_pos_bound; lia).
    rewrite Hr, (free_set_minus s (frame_alloc s).2 i 1); [|apply erase_frame_alloc|].
    + replace (span (g_base_frame s + i) 1) with ({[g_base_frame s + i]} : gset Z).
      * apply abs_alloc, elem_of_free_set. split; [lia|].
        by replace (g_base_frame s + i - g_base_frame s) with i by lia.
      * apply set_eq. intros f. rewrite elem_of_span, elem_of_singleton. lia.
    + intros j Hj. rewrite Hu by done. f_equal.
      destruct (Z.eqb_spec i j), (Z.leb_spec i j), (Z.ltb_spec j (i + 1)); lia || done.
Qed.

Lemma alloc_pages_refines s count :
  pmm_wf s -> is_u64 count ->
  abs_step (frame_owned s) (CallAllocPages count) (pmm_alloc_pages count s).1 (free_set s)
    (free_set (pmm_alloc_pages count s).2) /\ pmm_wf (pmm_alloc_pages count s).2.
Proof.
  intros W Hc. destruct (pmm_alloc_pages_spec s count W ltac:(unfold is_u64 in Hc; lia))
    as [(a & Hpos & Ha & Hle & Hsp & _ & -> & Hu & _ & W')|[Hn ->]].
  - split; [|done]. rewrite (free_set_minus s _ a count (erase_alloc_pages _ _) Hu).
    apply abs_run; [done|]. intros f Hf. apply elem_of_span in Hf. apply elem_of_free_set.
    split; [lia|]. specialize (Hsp (f - g_base_frame s) ltac:(lia)). by apply negb_true_iff in Hsp.
  - split; [|done]. apply abs_run_none. destruct Hn as [?|Hn]; [by left|].
    destruct (decide (0 < count)) as [Hpos|]; [|left; unfold is_u64 in Hc; lia].
    right. intros first Hs. apply span_subset_free in Hs as (? & ? & Hs); [|done].
    by apply (Hn (first - g_base_frame s)).
Qed.

Lemma allocated_may_free s first count :
  pmm_wf s -> 0 < count /\ span_allocated s first count <-> may_free (frame_owned s) (free_set s) first count.
Proof.
  intros W. apply and_iff_compat_l. split.
  - intros H f Hfs. apply elem_of_span in Hfs. destruct (H f Hfs) as (Hm & Hb & Hu). split; [by split|]. rewrite elem_of_free_set, Hu. by intros [_ ?].
  - intros H f Hfs. destruct (H f) as [[Hm Hb] Hn]; [by apply elem_of_span|]. split_and!; [done|done|]. apply not_false_iff_true. intros Hu.
    apply Hn, elem_of_free_set. split; [by apply (wf_ranges s W)|done].
Qed.

Lemma may_free_dec s first count :
  pmm_wf s -> is_u64 first -> is_u64 count -> may_free (frame_owned s) (free_set s) first count \/ ~ may_free (frame_owned s) (free_set s) first count.
Proof.
  intros W Hf Hc. rewrite <- (allocated_may_free s first count W), <- free_range_valid_spec by done. destruct (free_range_valid s first count); [by left|by right].
Qed.

Lemma decide_fault s first count :
  let fault := g_free_fault_armed s = true /\ first = g_free_fault_first s /\ count = g_free_fault_count s in fault \/ ~ fault.
Proof. intros fault. destruct (decide fault); [by left|by right]. Qed.

Lemma no_fault_iff s first count :
  no_fault s first count <-> ~ (g_free_fault_armed s = true /\ first = g_free_fault_first s /\ count = g_free_fault_count s).
Proof.
  unfold no_fault. rewrite <- not_true_iff_false, !andb_true_iff, !Z.eqb_eq. tauto.
Qed.

(** A release that no fault meets. *)
Lemma free_range_refines s first count :
  pmm_wf s -> no_fault s first count -> is_u64 first -> is_u64 count ->
  let r := frame_free_range first count s in
  (r.1 = true <-> may_free (frame_owned s) (free_set s) first count) /\
  (r.1 = true -> pmm_wf r.2 /\ free_set r.2 = free_set s ∪ span first count /\ free_pages (g_stats r.2) = free_pages (g_stats s) + count /\ erase r.2 = erase s) /\
  (r.1 = false -> r.2 = s).
Proof.
  intros W Hnf Hf Hc r. destruct (frame_free_range_spec s first count W Hf Hc Hnf) as (Hiff & Hok & Hko). fold r in Hiff, Hok, Hko.
  split_and!; [by rewrite <- (allocated_may_free s first count W)| |done]. intros Hr. destruct (proj1 Hiff Hr) as [Hpos Hsp]. destruct (Hok Hr) as (W' & Hfp & Hu).
  destruct (release_wf s first count W Hpos Hsp) as (_ & _ & _ & Ha & Hle). assert (erase r.2 = erase s) as Ee.
  { unfold r. rewrite frame_free_range_eq; try done. }
  split_and!; [done| |done|done]. rewrite (free_set_plus s _ (first - g_base_frame s) count Ee Ha Hle Hu).
  by replace (g_base_frame s + (first - g_base_frame s)) with first by lia.
Qed.

Lemma frame_alloc_wf s : pmm_wf s -> pmm_wf (frame_alloc s).2.
Proof.
  intros W. destruct (frame_alloc_spec s W) as [H0 H1]. pose proof (wf_free_range s W).
  destruct (decide (free_pages (g_stats s) = 0)) as [E|E]; [by rewrite H0|]. destruct H1 as (k & H1); [lia|]. apply H1.
Qed.

Lemma abs_step_owned owned owned' c r F F' :
  (forall f, owned f <-> owned' f) -> abs_step owned c r F F' -> abs_step owned' c r F F'.
Proof.
  intros H. destruct 1.
  - by apply abs_alloc.
  - apply abs_alloc_none.
  - by apply abs_run.
  - by apply abs_run_none.
  - apply abs_free; [done|]. intros f Hf. rewrite <- H. auto.
  - apply abs_free_refused. setoid_rewrite <- H. done.
Qed.

(** A release with its diagnostic fault. *)
Lemma free_range_outcomes s first count :
  pmm_wf s -> is_u64 first -> is_u64 count ->
  let r := frame_free_range first count s in
  let allowed := may_free (frame_owned s) (free_set s) first count in
  let fault := g_free_fault_armed s = true /\ first = g_free_fault_first s /\ count = g_free_fault_count s in
  pmm_wf r.2 /\ (r.1 = true <-> allowed /\ ~ fault) /\
  (r.1 = true -> free_set r.2 = free_set s ∪ span first count /\ free_pages (g_stats r.2) = free_pages (g_stats s) + count /\
    g_free_fault_armed r.2 = g_free_fault_armed s) /\
  (allowed -> fault -> r = (false, s <| g_free_fault_armed := false |>)) /\ (~ allowed -> r = (false, s)).
Proof.
  intros W Hf Hc r allowed fault.
  assert (free_range_valid s first count = true <-> allowed) as Hv by (rewrite free_range_valid_spec by done; by apply allocated_may_free).
  destruct (g_free_fault_armed s && (first =? g_free_fault_first s) && (count =? g_free_fault_count s)) eqn:Hx.
  - assert (fault) as HF by (unfold fault; bool_prop; done). unfold r, frame_free_range. rewrite Hx. destruct (free_range_valid s first count); cbn [negb fst snd].
    + pose proof (proj1 Hv eq_refl) as Ha. split_and!; [by destruct W; split|by split; [|intros [_ ?]]|done|done|by intros ?].
    + assert (~ allowed) by (intros H; by apply Hv in H). split_and!; [done|by split; [|intros [? _]]|done|done|done].
  - assert (~ fault) as HF by (by apply no_fault_iff).
    destruct (free_range_refines s first count W Hx Hf Hc) as (Hiff & Hok & Hko). fold r in Hiff, Hok, Hko. fold allowed in Hiff.
    destruct r as [b s']. cbn [fst snd] in *. destruct b.
    + destruct (Hok eq_refl) as (W' & H1 & H2 & Ee). destruct (erase_geometry _ _ Ee) as (_ & _ & Ea & _). split_and!; [done|tauto|done|tauto|].
      intros Hn. destruct Hn. by apply Hiff.
    + rewrite (Hko eq_refl). split_and!; [done|tauto|done|tauto|done].
Qed.

(** * Refinement with diagnostics *)

Definition fault_of (s : Pmm) : option (Z * Z) := if g_free_fault_armed s then Some (g_free_fault_first s, g_free_fault_count s) else None.

Lemma erase_fault s s' : erase s' = erase s -> fault_of s' = fault_of s.
Proof.
  intros E. unfold fault_of. assert (g_free_fault_armed s' = g_free_fault_armed s) as -> by (by apply (f_equal g_free_fault_armed) in E).
  assert (g_free_fault_first s' = g_free_fault_first s) as -> by (by apply (f_equal g_free_fault_first) in E).
  by assert (g_free_fault_count s' = g_free_fault_count s) as -> by (by apply (f_equal g_free_fault_count) in E).
Qed.

Lemma fault_of_some s first count : fault_of s = Some (first, count) <-> g_free_fault_armed s = true /\ first = g_free_fault_first s /\ count = g_free_fault_count s.
Proof. unfold fault_of. destruct (g_free_fault_armed s); naive_solver. Qed.

Lemma op_refines o s :
  pmm_wf s -> op_ok o ->
  abs_op (frame_owned s) o (run_op o s).1 (free_set s, fault_of s) (free_set (run_op o s).2, fault_of (run_op o s).2) /\
  pmm_wf (run_op o s).2 /\ forall f, frame_owned (run_op o s).2 f <-> frame_owned s f.
Proof.
  intros W Ho. destruct o as [[|count|first count]|first count|]; cbn [run_op run_call].
  - pose proof (erase_frame_alloc s) as Ee. rewrite (erase_fault _ _ Ee). split_and!; [|by apply frame_alloc_wf|by apply erase_geometry].
    apply abs_op_call; [by apply alloc_refines|by intros (? & ? & ? & _)].
  - pose proof (erase_alloc_pages count s) as Ee. rewrite (erase_fault _ _ Ee). destruct (alloc_pages_refines s count W Ho). split_and!; [|done|by apply erase_geometry].
    apply abs_op_call; [done|by intros (? & ? & ? & _)].
  - destruct Ho as [Hf Hc]. pose proof (free_range_outcomes s first count W Hf Hc) as (W' & Hiff & Hok & Hfa & Hko).
    destruct (frame_free_range first count s) as [b s'] eqn:Er. cbn [fst snd] in *. destruct b.
    + destruct (proj1 Hiff eq_refl) as [Ha Hnf]. destruct (Hok eq_refl) as (Hset & _ & _).
      destruct (free_range_refines s first count W (proj2 (no_fault_iff s first count) Hnf) Hf Hc) as (_ & Hr & _). rewrite Er in Hr.
      destruct (Hr eq_refl) as (_ & _ & _ & Ee). cbn [snd] in Ee. rewrite (erase_fault _ _ Ee), Hset.
      split_and!; [|done|by apply erase_geometry]. apply abs_op_call; [by apply abs_free; apply Ha|]. intros (f & c & [= <- <-] & Hx & _). by apply fault_of_some in Hx.
    + destruct (decide_fault s first count) as [HF|HF]; [destruct (may_free_dec s first count W Hf Hc) as [Ha|Ha]|].
      * specialize (Hfa Ha HF). injection Hfa as ->. split_and!; [|done|done]. rewrite (proj2 (fault_of_some s first count) HF). by apply abs_op_fault.
      * specialize (Hko Ha). injection Hko as ->. split_and!; [|done|done]. apply abs_op_call; [by apply abs_free_refused|]. by intros (f & c & [= <- <-] & _ & Hx).
      * assert (~ may_free (frame_owned s) (free_set s) first count) as Ha by (intros Ha; by assert (false = true) by (apply Hiff; done)).
        specialize (Hko Ha). injection Hko as ->. split_and!; [|done|done]. apply abs_op_call; [by apply abs_free_refused|]. by intros (f & c & [= <- <-] & _ & Hx).
  - destruct Ho as [Hf Hc]. pose proof (free_range_valid_spec s first count W Hf Hc) as Hv. rewrite (allocated_may_free s first count W) in Hv.
    unfold pmm_test_fail_free_range_once, fault_of. destruct (g_free_fault_armed s) eqn:Ha; cbn [negb andb fst snd].
    + rewrite Ha. split_and!; [|done|done]. apply abs_op_arm_refused. by left.
    + destruct (free_range_valid s first count); cbn [fst snd g_free_fault_armed]; [|rewrite Ha]; (split_and!; [|by destruct W; split|done]).
      * apply abs_op_arm. by apply Hv.
      * apply abs_op_arm_refused. right. intros H. by apply Hv in H.
  - split_and!; [|by destruct W; split|done]. apply abs_op_clear.
Qed.

Lemma abs_op_owned owned owned' o r a a' : (forall f, owned f <-> owned' f) -> abs_op owned o r a a' -> abs_op owned' o r a a'.
Proof.
  intros H. assert (forall F first count, may_free owned F first count <-> may_free owned' F first count) as Hm.
  { intros F first count. unfold may_free. by setoid_rewrite H. }
  destruct 1 as [c r F F' x Hs Hn|first count F Hx|first count F Hx|first count F x Hx|F x].
  - apply abs_op_call; [by eapply abs_step_owned|]. by setoid_rewrite <- Hm.
  - apply abs_op_fault. by apply Hm.
  - apply abs_op_arm. by apply Hm.
  - apply abs_op_arm_refused. by rewrite <- Hm.
  - apply abs_op_clear.
Qed.

(** C6. Refinement: starting from a well-formed allocator, every sequence of
    [frame_alloc], [pmm_alloc_pages] and [frame_free_range] calls, of arming the
    release fault and of clearing it, answers as the abstract allocator on the
    set of free frames and the armed span does, and ends in a well-formed state
    whose free set and fault are the abstract ones. In particular no frame is
    handed out twice without a release, only owned frames ever become free, and
    a release is refused for owned frames only by the fault armed for it. *)
Theorem pmm_refines (os : list Op) (s : Pmm) (W : pmm_wf s) (Hos : Forall op_ok os) :
  abs_ops (frame_owned s) os (run_ops os s).1 (free_set s, fault_of s) (free_set (run_ops os s).2, fault_of (run_ops os s).2) /\
  pmm_wf (run_ops os s).2.
Proof.
  revert s W. induction Hos as [|o os Ho _ IH]; intros s W; simpl.
  - split; [constructor|done].
  - destruct (op_refines o s W Ho) as (Hstep & W1 & Eo). destruct (run_op o s) as [r s1] eqn:E1. simpl in *. destruct (IH s1 W1) as [Ht W2].
    destruct (run_ops os s1) as [rs s2] eqn:E2. simpl in *. split; [|done]. econstructor; [done|]. clear -Ht Eo.
    induction Ht; [constructor|econstructor; [|done]]. by eapply abs_op_owned.
Qed.

(** * The allocator's contract, call by call *)

(** All owned frames are free when every managed bit outside the bitmap is. *)
Lemma all_free s :
  pmm_wf s -> (forall i, 0 <= i < g_bitmap_bits s -> bit_managed s i = true -> frame_is_bitmap s (g_base_frame s + i) = false -> bitmap_used s i = false) ->
  forall f, f ∈ free_set s <-> frame_owned s f.
Proof.
  intros W Hall f. rewrite elem_of_free_set. split.
  - intros [Hr Hu]. destruct (wf_owned s W (f - g_base_frame s)) as [Hm Hb]; [lia|unfold bit_free; by rewrite Hu|].
    unfold bit_managed in Hm. rewrite Zplus_minus in Hm, Hb. by split.
  - intros [Hm Hb]. pose proof (wf_ranges s W f Hm). split; [done|].
    apply Hall; [lia|unfold bit_managed; by rewrite Zplus_minus|by rewrite Zplus_minus].
Qed.

(** C1. [pmm_init] terminates on a memory map whose end does not wrap and whose
    conventional memory is disjoint, and initialises the module exactly when it
    returns true. Then the allocator invariant holds and the free set is exactly
    the set of owned frames; an owned frame is a conventional frame of the
    firmware above the first MiB that does not hold the bitmap, and every such
    frame is owned unless the range table filled up. A map of at most 128
    descriptors is accepted when one of them has [n] usable frames and all
    usable frames lie in a span of [n * 32768], whose bitmap fits. *)
Theorem pmm_init_correct (boot : BootInfo) (s : Pmm)
  (B : boot_wf boot) (Hd : disjoint_memory boot) :
  exists ok s', pmm_init (Some boot) s = Some (ok, s') /\ g_initialized s' = ok /\
  (ok = true ->
   pmm_wf s' /\
   (forall f, f ∈ free_set s' <-> frame_owned s' f) /\
   (forall f, frame_owned s' f -> conventional boot f /\ frame_is_bitmap s' f = false) /\
   (range_count (g_stats s') < PMM_MAX_RANGES ->
    forall f, conventional boot f -> frame_is_bitmap s' f = false -> frame_owned s' f) /\
   free_pages (g_stats s') = total_pages (g_stats s') - bitmap_pages (g_stats s')) /\
  (forall i d first n, (forall j e, described boot j e -> j < 128) -> described boot i d -> 0 < n ->
   (forall j, 0 <= j < n -> usable d (first + j)) ->
   (forall f g, conventional boot f -> conventional boot g -> f - g < n * 32768) -> ok = true).
Proof.
  pose proof (disjoint_frames boot B Hd) as Hnd. destruct (pmm_init_spec boot s B Hnd) as (ok & s' & E & H). exists ok, s'. split; [done|].
  split; [by eapply pmm_init_flag|]. split.
  - intros Hok. destruct (H Hok) as (W & Hin & Hfull & Hfree & Hall). split_and!; [done|by apply all_free| | |done].
    + intros f [Hm Hb]. destruct (Hin f Hm). split; [by apply boot_frames_conventional|done].
    + intros Hn f Hf Hb. split; [by apply Hfull, boot_frames_conventional|done].
  - intros i d first n H1 H2 H3 H4 H5. destruct (pmm_init_accepts boot s i d first n B Hd H1 H2 H3 H4 H5) as (s2 & E2). rewrite E in E2. by injection E2.
Qed.

(** [frame_alloc] on a well-formed allocator: with an empty free set it
    returns [FRAME_INVALID] and changes nothing; otherwise it always succeeds,
    with the first free frame in circular order from the hint. The frame was
    free and owned, it is the only one to leave the free set, the free count
    drops by one and the invariant is kept. *)
Theorem frame_alloc_correct (s : Pmm) (W : pmm_wf s) :
  (free_set s = ∅ -> frame_alloc s = (FRAME_INVALID, s)) /\
  (free_set s <> ∅ ->
   let f := (frame_alloc s).1 in
   let s' := (frame_alloc s).2 in
   f ∈ free_set s /\ frame_owned s f /\
   free_set s' = free_set s ∖ {[f]} /\
   free_pages (g_stats s') = free_pages (g_stats s) - 1 /\
   (exists k, 0 <= k < g_bitmap_bits s /\
      f = g_base_frame s + (g_next_hint s + k) mod g_bitmap_bits s /\
      forall m, 0 <= m < k ->
        g_base_frame s + (g_next_hint s + m) mod g_bitmap_bits s ∉ free_set s) /\
   pmm_wf s').
Proof.
  destruct (frame_alloc_spec s W) as [H0 H1]. pose proof (wf_free_range s W) as Hr.
  pose proof (wf_bits s W). split.
  - intros Hemp. apply H0. destruct (decide (0 < free_pages (g_stats s))) as [Hp|]; [exfalso|lia].
    rewrite (wf_free s W) in Hp. apply count_if_pos in Hp as (i & Hi & Hf).
    apply negb_true_iff in Hf.
    assert (g_base_frame s + i ∈ free_set s) as Hin; [|by rewrite Hemp in Hin].
    apply elem_of_free_set. split; [lia|]. by rewrite Z.add_simpl_l.
  - intros Hne f s'. destruct (decide (free_pages (g_stats s) = 0)) as [E|E];
      [by rewrite (free_set_empty s W E) in Hne|].
    pose proof (alloc_refines s W) as Hstep. fold f s' in Hstep.
    destruct H1 as (k & Hk & Hf & Hu & Hmin & Hm & Hb & _ & Hfp & W'); [lia|]. fold f s' in Hf, Hfp, W'.
    inversion Hstep as [F f' Hin E1 E2 E3|E1 E2 E3| | | |]; [|exfalso; apply Hne; congruence].
    rewrite Hf. split_and!; try done; try (by rewrite <- Hf).
    exists k. split_and!; [lia|lia|done|]. intros m Hm'. rewrite elem_of_free_set.
    rewrite Z.add_simpl_l, Hmin by done. by intros [_ ?].
Qed.

(** [pmm_alloc_pages count] is a first-fit allocation of [count] physically
    contiguous frames: either it returns the physical address of the lowest run
    of [count] free frames, which is what leaves the free set, or it returns
    zero and changes nothing, and then [count] is zero or no such run exists. *)
Theorem pmm_alloc_pages_correct (s : Pmm) (count : Z) (W : pmm_wf s) (Hcount : is_u64 count) :
  let s' := (pmm_alloc_pages count s).2 in
  pmm_wf s' /\
  ((exists first, 0 < count /\ (pmm_alloc_pages count s).1 = first * FRAME_SIZE /\ 0 < first /\
      span first count ⊆ free_set s /\
      (forall first', first' < first -> ~ span first' count ⊆ free_set s) /\
      free_set s' = free_set s ∖ span first count /\
      free_pages (g_stats s') = free_pages (g_stats s) - count) \/
   (pmm_alloc_pages count s = (0, s) /\
    (count = 0 \/ forall first, ~ span first count ⊆ free_set s))).
Proof.
  intros s'. pose proof (wf_base s W). destruct (alloc_pages_refines s count W Hcount) as [_ W'].
  split; [done|].
  destruct (pmm_alloc_pages_spec s count W ltac:(unfold is_u64 in *; lia))
    as [(a & Hpos & Ha & Hle & Hsp & Hmin & Hr & Hu & Hfp & _)|[Hn Hr]].
  - left. exists (g_base_frame s + a). fold s' in Hu, Hfp. split_and!; try done; [lia| | |].
    + intros f Hf. apply elem_of_span in Hf. apply elem_of_free_set. split; [lia|].
      specialize (Hsp (f - g_base_frame s) ltac:(lia)). by apply negb_true_iff in Hsp.
    + intros first' Hlt Hs. apply span_subset_free in Hs as (? & ? & Hs); [|done].
      apply (Hmin (first' - g_base_frame s)); [lia|done].
    + apply free_set_minus; [apply erase_alloc_pages|done].
  - right. split; [done|]. destruct Hn as [?|Hn]; [by left|].
    destruct (decide (0 < count)) as [Hpos|]; [|left; unfold is_u64 in *; lia].
    right. intros first Hs. apply span_subset_free in Hs as (? & ? & Hs); [|done].
    by apply (Hn (first - g_base_frame s)).
Qed.

(** C4. [frame_free_range] is all-or-nothing. It succeeds exactly when the span
    is non-empty, every frame of it is owned by the allocator, none of them is
    already free and no diagnostic fault is armed for exactly this span; then
    exactly the span joins the free set, the free count grows by [count] and an
    armed fault stays armed. A release that only the fault refuses consumes the
    fault and changes nothing else; any other refused release changes nothing.
    The invariant is kept. *)
Theorem frame_free_range_correct (s : Pmm) (first count : Z)
  (W : pmm_wf s) (Hf : is_u64 first) (Hc : is_u64 count) :
  let r := frame_free_range first count s in
  let allowed := 0 < count /\ forall f, f ∈ span first count -> frame_owned s f /\ f ∉ free_set s in
  let fault := g_free_fault_armed s = true /\ first = g_free_fault_first s /\ count = g_free_fault_count s in
  pmm_wf r.2 /\
  (r.1 = true <-> allowed /\ ~ fault) /\
  (r.1 = true -> free_set r.2 = free_set s ∪ span first count /\
                 free_pages (g_stats r.2) = free_pages (g_stats s) + count /\
                 g_free_fault_armed r.2 = g_free_fault_armed s) /\
  (allowed -> fault -> r = (false, s <| g_free_fault_armed := false |>)) /\
  (~ allowed -> r = (false, s)).
Proof. exact (free_range_outcomes s first count W Hf Hc). Qed.

(** Allocation and release round trip: the span a successful
    [pmm_alloc_pages] returned can be released, the release restores every bit
    and the free count, and releasing it a second time fails. *)
Theorem alloc_free_round_trip (s : Pmm) (count : Z)
  (W : pmm_wf s) (Hc : is_u64 count) (Hok : (pmm_alloc_pages count s).1 <> 0)
  (Hnf : g_free_fault_armed s = false) :
  let p := phys_to_frame (pmm_alloc_pages count s).1 in
  let s1 := (pmm_alloc_pages count s).2 in
  let s2 := (frame_free_range p count s1).2 in
  (frame_free_range p count s1).1 = true /\
  (forall j, 0 <= j -> bitmap_used s2 j = bitmap_used s j) /\
  free_pages (g_stats s2) = free_pages (g_stats s) /\
  (frame_free_range p count s2).1 = false.
Proof.
  destruct (pmm_alloc_pages_spec s count W ltac:(unfold is_u64 in Hc; lia))
    as [(a & Hpos & Ha & Hle & Hsp & _ & Hp & Hu & Hfr & W1)|[_ E]]; [|by rewrite E in Hok].
  intros p s1. fold s1 in Hu, Hfr, W1.
  assert (erase s1 = erase s) as Er by apply erase_alloc_pages.
  pose proof (wf_top s W). pose proof (wf_base s W). pose proof (wf_bits s W).
  assert (g_base_frame s1 = g_base_frame s) as Eb by (by apply (f_equal g_base_frame) in Er).
  assert (p = g_base_frame s + a) as Ep.
  { unfold p. rewrite Hp. unfold phys_to_frame, nz. change (FRAME_SIZE - 1) with (Z.ones 12).
    rewrite Z.land_ones by lia. unfold FRAME_SIZE. rewrite Z.mod_mul, Z.div_mul by lia. done. }
  assert (span_allocated s1 p count) as Hsp1.
  { intros f Hf'. rewrite Ep in Hf'.
    destruct (wf_owned s W (f - g_base_frame s)) as [Hm Hb]; [lia|apply Hsp; lia|].
    unfold bit_managed in Hm. rewrite Zplus_minus in Hm, Hb.
    rewrite (erase_managed _ _ _ Er), (erase_is_bitmap _ _ _ Er), Eb. split_and!; [done|done|].
    rewrite Hu by lia.
    destruct (Z.leb_spec a (f - g_base_frame s)), (Z.ltb_spec (f - g_base_frame s) (a + count)); lia || done. }
  assert (is_u64 p) as Hp64 by (unfold is_u64; lia).
  assert (forall t, erase t = erase s -> no_fault t p count) as Hnf'.
  { intros t Et. unfold no_fault. apply (f_equal g_free_fault_armed) in Et.
    change (g_free_fault_armed t = g_free_fault_armed s) in Et. by rewrite Et, Hnf. }
  destruct (frame_free_range_spec s1 p count W1 Hp64 Hc (Hnf' _ Er)) as (Hiff & Hsucc & _).
  pose proof (proj2 Hiff (conj Hpos Hsp1)) as Hok1.
  destruct (Hsucc Hok1) as (W2 & Hfr2 & Hu2).
  set (s2 := (frame_free_range p count s1).2) in *. rewrite Eb in Hu2.
  assert (forall j, 0 <= j -> bitmap_used s2 j = bitmap_used s j) as Hback.
  { intros j Hj. rewrite Hu2, Hu by done. replace (p - g_base_frame s) with a by lia.
    destruct (Z.leb_spec a j), (Z.ltb_spec j (a + count)); simpl; try done.
    specialize (Hsp j ltac:(lia)). symmetry. by apply negb_true_iff in Hsp. }
  split_and!; [done|done|lia|].
  assert (erase s2 = erase s) as Er2.
  { unfold s2. rewrite (frame_free_range_eq s1 p count W1 Hp64 Hc Hpos Hsp1 (Hnf' _ Er)). simpl.
    by rewrite erase_realloc. }
  destruct (frame_free_range_spec s2 p count W2 Hp64 Hc (Hnf' _ Er2)) as (Hiff2 & _).
  apply not_true_iff_false. rewrite Hiff2. intros [_ Hsp2].
  destruct (Hsp2 p ltac:(lia)) as (_ & _ & Hbad).
  assert (g_base_frame s2 = g_base_frame s) as Eb2 by (by apply (f_equal g_base_frame) in Er2).
  rewrite Eb2, Hback in Hbad by lia. specialize (Hsp a ltac:(lia)).
  replace (p - g_base_frame s) with a in Hbad by lia.
  apply negb_true_iff in Hsp. congruence.
Qed.

(** * A concrete machine

    Three conventional descriptors: two adjacent ones, which merge, and one
    after a hole; the other slots of the map are reserved memory. *)

Definition demo_boot : BootInfo :=
  mkBootInfo 0x1000 192 48 (fun a =>
    if a =? 0x1000 then mkBootMemoryDescriptor 7 0x100000 4 else
    if a =? 0x1030 then mkBootMemoryDescriptor 7 0x104000 2 else
    if a =? 0x1060 then mkBootMemoryDescriptor 7 0x10a000 3 else
    mkBootMemoryDescriptor 0 0 1).

Definition pmm_zero : Pmm :=
  mkPmm [] (mkPmmStats 0 0 0 0 0 0) 0 [] 0 0 0 0 0 false false false 0 0.

Definition demo_pmm : Pmm :=
  match pmm_init (Some demo_boot) pmm_zero with Some (_, s) => s | None => pmm_zero end.

#[local] Opaque demo_pmm frame_alloc pmm_alloc_pages frame_free_range.

Lemma demo_boot_wf : boot_wf demo_boot.
Proof.
  constructor; try done. intros a. unfold demo_boot, descriptor_at.
  repeat if_case; split; simpl; unfold is_u64; lia.
Qed.

Lemma demo_boot_nodup : NoDup (boot_frames demo_boot).
Proof. apply (bool_decide_unpack _). by vm_compute. Qed.

Lemma some_pair_inj {A B} (a a' : A) (b b' : B) :
  Some (a, b) = Some (a', b') -> a = a' /\ b = b'.
Proof. by intros [= -> ->]. Qed.

Lemma demo_init : pmm_init (Some demo_boot) pmm_zero = Some (true, demo_pmm).
Proof. by vm_compute. Qed.

Lemma demo_wf : pmm_wf demo_pmm.
Proof.
  destruct (pmm_init_spec demo_boot pmm_zero demo_boot_wf demo_boot_nodup) as (ok & s' & E & H).
  rewrite demo_init in E. apply some_pair_inj in E as [<- <-]. by apply H.
Qed.

Lemma demo_257_free : 257 ∈ free_set demo_pmm.
Proof. apply elem_of_free_set. by vm_compute. Qed.

Lemma demo_described i d :
  described demo_boot i d -> (i = 0 /\ d = mkBootMemoryDescriptor 7 0x100000 4) \/ (i = 1 /\ d = mkBootMemoryDescriptor 7 0x104000 2) \/
    (i = 2 /\ d = mkBootMemoryDescriptor 7 0x10a000 3) \/ (i = 3 /\ d = mkBootMemoryDescriptor 0 0 1).
Proof.
  intros (H1 & H2 & ->). change (memory_map_descriptor_size demo_boot) with 48 in *. change (memory_map_size demo_boot) with 192 in H2.
  assert (i = 0 \/ i = 1 \/ i = 2 \/ i = 3) as [->|[->|[->| ->]]] by lia; [left|right; left|do 2 right; left|do 3 right]; by vm_compute.
Qed.

Lemma demo_disjoint : disjoint_memory demo_boot.
Proof.
  intros i j d e f Hd He (T1 & _ & _ & L1 & U1) (T2 & _ & _ & L2 & U2).
  apply demo_described in Hd as [[-> ->]|[[-> ->]|[[-> ->]|[-> ->]]]], He as [[-> ->]|[[-> ->]|[[-> ->]|[-> ->]]]]; cbn in *; lia.
Qed.

Lemma pmm_init_correct_witness :
  exists s', pmm_init (Some demo_boot) pmm_zero = Some (true, s') /\ pmm_wf s' /\ (forall f, f ∈ free_set s' <-> frame_owned s' f).
Proof.
  destruct (pmm_init_correct demo_boot pmm_zero demo_boot_wf demo_disjoint) as (ok & s' & E & _ & H & Hacc).
  assert (ok = true) as ->.
  { apply (Hacc 0 (mkBootMemoryDescriptor 7 0x100000 4) 256 1).
    - intros j e [[-> _]|[[-> _]|[[-> _]|[-> _]]]]%demo_described; lia.
    - split_and!; [lia|by vm_compute|by vm_compute].
    - lia.
    - intros j Hj. unfold usable. cbn. lia.
    - intros f g (i & d & Hd & _ & _ & _ & L1 & U1) (j & e & He & _ & _ & _ & L2 & U2).
      apply demo_described in Hd as [[-> ->]|[[-> ->]|[[-> ->]|[-> ->]]]], He as [[-> ->]|[[-> ->]|[[-> ->]|[-> ->]]]]; cbn in *; lia. }
  destruct (H eq_refl) as (W & Hf & _). exists s'. auto.
Defined.

Lemma frame_alloc_correct_witness :
  (frame_alloc demo_pmm).1 = 257 /\ frame_owned demo_pmm (frame_alloc demo_pmm).1 /\
  free_set (frame_alloc demo_pmm).2 = free_set demo_pmm ∖ {[257]}.
Proof.
  destruct (frame_alloc_correct demo_pmm demo_wf) as [_ H].
  assert ((frame_alloc demo_pmm).1 = 257) as E by (by vm_compute).
  destruct H as (_ & Ho & Hs & _); [apply (non_empty_inhabited_L 257), demo_257_free|].
  rewrite E in Hs, Ho. rewrite E. auto.
Defined.

Lemma pmm_alloc_pages_correct_witness :
  (pmm_alloc_pages 3 demo_pmm).1 = 257 * FRAME_SIZE /\ pmm_wf (pmm_alloc_pages 3 demo_pmm).2.
Proof.
  split; [by vm_compute|].
  destruct (pmm_alloc_pages_correct demo_pmm 3 demo_wf) as [W _]; [unfold is_u64; lia|done].
Defined.

Lemma frame_free_range_correct_witness :
  (frame_free_range 257 1 (frame_alloc demo_pmm).2).1 = true /\
  257 ∉ free_set (frame_alloc demo_pmm).2.
Proof.
  assert (pmm_wf (frame_alloc demo_pmm).2) as W.
  { destruct (frame_alloc_spec demo_pmm demo_wf) as [_ H]. destruct H as (k & H); [by vm_compute|]. apply H. }
  assert ((frame_free_range 257 1 (frame_alloc demo_pmm).2).1 = true) as E by (by vm_compute).
  split; [done|].
  destruct (frame_free_range_correct (frame_alloc demo_pmm).2 257 1 W) as (_ & Hiff & _); [unfold is_u64; lia|unfold is_u64; lia|].
  apply Hiff in E as [[_ H] _]. apply H. apply elem_of_span. lia.
Defined.

Lemma alloc_free_round_trip_witness :
  (frame_free_range 257 3 (pmm_alloc_pages 3 demo_pmm).2).1 = true /\
  (frame_free_range 257 3 (frame_free_range 257 3 (pmm_alloc_pages 3 demo_pmm).2).2).1 = false.
Proof.
  destruct (alloc_free_round_trip demo_pmm 3 demo_wf) as (H1 & _ & _ & H2);
    [unfold is_u64; lia|by vm_compute|by vm_compute|].
  assert (phys_to_frame (pmm_alloc_pages 3 demo_pmm).1 = 257) as E by (by vm_compute).
  rewrite E in H1, H2. auto.
Defined.

Definition demo_ops : list Op :=
  [OpCall CallAlloc; OpCall (CallAllocPages 3); OpFail 257 4; OpCall (CallFreeRange 257 4); OpCall (CallFreeRange 257 4); OpCall CallAlloc].

Lemma pmm_refines_witness :
  (run_ops demo_ops demo_pmm).1 = [257; 258 * FRAME_SIZE; 1; 0; 1; 257] /\ pmm_wf (run_ops demo_ops demo_pmm).2.
Proof.
  split; [by vm_compute|]. apply (pmm_refines demo_ops demo_pmm demo_wf). repeat constructor; unfold is_u64; lia.
Defined.
