(* ===== verification/ObjectStorage.v ===== *)
(** The live-object registries: [kernel/object_storage.h].

    Every object module keeps a fixed array of the addresses of its live
    objects; an address is compared against the array before the object is
    read. A registry is a list of addresses, null marking a free entry. *)

From S2P Require Import Prelude.

Open Scope jcos_scope.

Definition PROCESS_STORAGE_CAPACITY : Z := 128.

Definition THREAD_STORAGE_CAPACITY : Z := 512.

Definition ADDRESS_SPACE_STORAGE_CAPACITY : Z := 256.

(** Index of the first entry that satisfies [p], counted from [i]. *)
Fixpoint index_from (p : Z -> bool) (slots : list Z) (i : Z) : Z :=
  match slots with
  | [] => i
  | s :: slots => if p s then i else index_from p slots (i + 1)
  end.

Definition object_storage_find (slots : list Z) (count object : Z) : Z :=
  if nz object then index_from (fun s => s =? object) (take (Z.to_nat count) slots) 0 else count.

Definition object_storage_empty (slots : list Z) (count : Z) : Z :=
  index_from (fun s => !nz s) (take (Z.to_nat count) slots) 0.

Definition object_storage_count (slots : list Z) (count : Z) : Z :=
  countb nz (take (Z.to_nat count) slots).

(** [slots[i] = object] *)
Definition storage_set (i object : Z) (slots : list Z) : list Z := <[Z.to_nat i := object]> slots.

#[global] Arguments object_storage_find : simpl never.
#[global] Arguments object_storage_empty : simpl never.
#[global] Arguments object_storage_count : simpl never.
#[global] Arguments storage_set : simpl never.

(** * Registries in use

    A registry of [count] entries names no object twice. *)

Definition live (slots : list Z) : list Z := List.filter nz slots.

Record registry (count : Z) (slots : list Z) : Prop := {
  reg_length : Z.of_nat (length slots) = count;
  reg_nodup : NoDup (live slots) }.

Lemma elem_of_live x slots : x ∈ live slots <-> x <> 0 /\ x ∈ slots.
Proof.
  unfold live. rewrite !list_elem_of_In, filter_In. unfold nz.
  rewrite negb_true_iff, Z.eqb_neq. tauto.
Qed.

Lemma index_from_shift p l i : index_from p l i = i + index_from p l 0.
Proof.
  revert i. induction l as [|x l IH]; intros i; simpl; [lia|].
  destruct (p x); [lia|]. rewrite (IH (i + 1)), (IH (0 + 1)). lia.
Qed.

Lemma index_from_spec p l :
  (exists n x, index_from p l 0 = Z.of_nat n /\ l !! n = Some x /\ p x = true) \/
  (index_from p l 0 = Z.of_nat (length l) /\ forall x, x ∈ l -> p x = false).
Proof.
  induction l as [|x l IH]; simpl.
  - right. split; [done|]. intros y Hy. by apply not_elem_of_nil in Hy.
  - destruct (p x) eqn:Hp.
    + left. exists 0%nat, x. done.
    + rewrite index_from_shift. destruct IH as [(n & y & -> & Hy & Hpy)|[-> Hn]].
      * left. exists (S n), y. split; [lia|done].
      * right. split; [lia|]. intros y Hy.
        apply elem_of_cons in Hy as [->|Hy]; [done|by apply Hn].
Qed.

(** Membership in the registry is what a successful search means. *)
Lemma object_storage_find_live count slots o :
  registry count slots ->
  (object_storage_find slots count o <? count) = bool_decide (o ∈ live slots).
Proof.
  intros [Hl _]. unfold object_storage_find.
  destruct (nz o) eqn:Ho; bool_prop.
  - rewrite take_ge by lia.
    destruct (index_from_spec (fun s => s =? o) slots) as [(n & x & -> & Hx & Hp)|[-> Hn]].
    + bool_prop. subst x. rewrite bool_decide_eq_true_2; [|by rewrite elem_of_live; eauto using list_elem_of_lookup_2].
      apply Z.ltb_lt. apply lookup_lt_Some in Hx. lia.
    + rewrite bool_decide_eq_false_2; [apply Z.ltb_ge; lia|].
      rewrite elem_of_live. intros [_ Hx]. apply Hn in Hx. bool_prop. done.
  - rewrite Z.ltb_irrefl, bool_decide_eq_false_2; [done|]. rewrite elem_of_live. lia.
Qed.

Lemma object_storage_find_ge count slots o :
  registry count slots -> o ∉ live slots -> object_storage_find slots count o = count.
Proof.
  intros [Hl _] Ho. unfold object_storage_find.
  destruct (nz o) eqn:Hz; bool_prop; [|done].
  rewrite take_ge by lia.
  destruct (index_from_spec (fun s => s =? o) slots) as [(n & x & _ & Hx & Hp)|[-> Hn]]; [|lia].
  bool_prop. subst x. exfalso. apply Ho, elem_of_live. split; [done|].
  by eapply list_elem_of_lookup_2.
Qed.

Lemma object_storage_find_lookup count slots o :
  registry count slots -> o ∈ live slots ->
  exists n, object_storage_find slots count o = Z.of_nat n /\ slots !! n = Some o.
Proof.
  intros [Hl _] Ho. unfold object_storage_find.
  apply elem_of_live in Ho as [Hz Ho].
  destruct (nz o) eqn:E; bool_prop; [|done]. rewrite take_ge by lia.
  destruct (index_from_spec (fun s => s =? o) slots) as [(n & x & -> & Hx & Hp)|[_ Hn]].
  - bool_prop. subst x. eauto.
  - apply Hn in Ho. bool_prop. done.
Qed.

Lemma object_storage_empty_lookup count slots :
  registry count slots -> object_storage_empty slots count <> count ->
  exists n, object_storage_empty slots count = Z.of_nat n /\ slots !! n = Some 0.
Proof.
  intros [Hl _]. unfold object_storage_empty. rewrite take_ge by lia.
  destruct (index_from_spec (fun s => !nz s) slots) as [(n & x & -> & Hx & Hp)|[-> _]]; [|lia].
  bool_prop. subst x. eauto.
Qed.

Lemma object_storage_empty_le count slots :
  registry count slots -> object_storage_empty slots count <= count.
Proof.
  intros [Hl _]. unfold object_storage_empty. rewrite take_ge by lia.
  destruct (index_from_spec (fun s => !nz s) slots) as [(n & x & -> & Hx & _)|[-> _]]; [|lia].
  apply lookup_lt_Some in Hx. lia.
Qed.

(** * Registering and releasing an address *)

Lemma live_insert_free slots n o :
  slots !! n = Some 0 -> o <> 0 -> live (<[n := o]> slots) ≡ₚ o :: live slots.
Proof.
  intros Hn Ho. pose proof (lookup_lt_Some _ _ _ Hn) as Hlt.
  rewrite insert_take_drop by done. rewrite <- (take_drop_middle slots n 0 Hn) at 3.
  unfold live. rewrite !List.filter_app. simpl. destruct (nz o) eqn:E; bool_prop; [|done].
  by rewrite Permutation_middle.
Qed.

Lemma live_insert_null slots n o :
  slots !! n = Some o -> o <> 0 -> live slots ≡ₚ o :: live (<[n := 0]> slots).
Proof.
  intros Hn Ho. pose proof (lookup_lt_Some _ _ _ Hn) as Hlt.
  rewrite insert_take_drop by done. rewrite <- (take_drop_middle slots n o Hn) at 1.
  unfold live. rewrite !List.filter_app. simpl. destruct (nz o) eqn:E; bool_prop; [|done].
  by rewrite Permutation_middle.
Qed.

(** What registering a fresh object in the first free entry gives. *)
Lemma storage_register count slots o :
  registry count slots -> object_storage_empty slots count <> count -> o <> 0 -> o ∉ live slots ->
  registry count (storage_set (object_storage_empty slots count) o slots) /\
  live (storage_set (object_storage_empty slots count) o slots) ≡ₚ o :: live slots.
Proof.
  intros Hr He Ho Hf. destruct (object_storage_empty_lookup _ _ Hr He) as (n & -> & Hn).
  unfold storage_set. rewrite Nat2Z.id.
  pose proof (live_insert_free _ _ _ Hn Ho) as Hp. split; [split|done].
  - rewrite length_insert. apply Hr.
  - rewrite Hp. by apply list.NoDup_cons; split; [|apply Hr].
Qed.

(** What releasing a live object's entry gives. *)
Lemma storage_release count slots o :
  registry count slots -> o ∈ live slots ->
  let slots' := storage_set (object_storage_find slots count o) 0 slots in
  registry count slots' /\ live slots ≡ₚ o :: live slots' /\ o ∉ live slots'.
Proof.
  intros Hr Ho. destruct (object_storage_find_lookup _ _ _ Hr Ho) as (n & -> & Hn).
  apply elem_of_live in Ho as [Hz _].
  unfold storage_set. rewrite Nat2Z.id.
  pose proof (live_insert_null _ _ _ Hn Hz) as Hp.
  pose proof (reg_nodup _ _ Hr) as Hd. rewrite Hp in Hd. apply list.NoDup_cons in Hd as [Hx Hd].
  split; [split; [rewrite length_insert; apply Hr|done]|]. done.
Qed.

Lemma object_storage_count_live count slots :
  registry count slots -> object_storage_count slots count = Z.of_nat (length (live slots)).
Proof. intros [Hl _]. unfold object_storage_count, countb, live. by rewrite take_ge by lia. Qed.

Lemma registry_empty count : 0 <= count -> registry count (replicate (Z.to_nat count) 0).
Proof.
  intros Hc. split; [rewrite length_replicate; lia|].
  assert (live (replicate (Z.to_nat count) 0) = []) as ->; [|constructor].
  induction (Z.to_nat count); done.
Qed.

Lemma object_storage_full count slots :
  registry count slots -> object_storage_empty slots count = count ->
  object_storage_count slots count = count.
Proof.
  intros [Hl _]. unfold object_storage_empty, object_storage_count. rewrite take_ge by lia.
  destruct (index_from_spec (fun s => !nz s) slots) as [(n & x & -> & Hx & _)|[_ Hn]].
  - apply lookup_lt_Some in Hx. lia.
  - intros _. rewrite <- Hl. apply countb_all. intros x Hx. apply Hn in Hx. by apply negb_false_iff in Hx.
Qed.
