(* ===== verification/Kernel.v ===== *)
(** The kernel objects and the module globals shared by the object layer:
    [kernel/thread.h], [kernel/process.h], [kernel/endpoint.h],
    [kernel/capability.h], [kernel/address_space.h], [kernel/device_resource.h],
    [kernel/process_exit_queue.h] and the [static] data of the matching .c files.

    A pointer is a [Z], null is [0]. Storage of each object type is a finite map
    from address to contents; memory no object was written to reads as zero.
    A [Kernel] is all object storage plus one record of globals per module.
    The processor halting on a violated invariant ([cpu_halt_forever]) is the
    result [None] of the functions that may halt. *)

From S2P Require Import Prelude.

(** * Threads *)

Inductive ThreadState :=
  | THREAD_STATE_INVALID
  | THREAD_STATE_READY
  | THREAD_STATE_RUNNING
  | THREAD_STATE_BLOCKED
  | THREAD_STATE_DEAD.

Inductive ThreadWaitKind :=
  | THREAD_WAIT_NONE
  | THREAD_WAIT_IPC_RECEIVE
  | THREAD_WAIT_IPC_SEND
  | THREAD_WAIT_PROCESS_EXIT.

Inductive ThreadWaitResult :=
  | THREAD_WAIT_RESULT_NONE
  | THREAD_WAIT_RESULT_PENDING
  | THREAD_WAIT_RESULT_CANCELLED
  | THREAD_WAIT_RESULT_COMPLETED
  | THREAD_WAIT_RESULT_PEER_CLOSED
  | THREAD_WAIT_RESULT_TIMED_OUT.

#[export] Instance ThreadState_eq_dec : EqDecision ThreadState.
Proof. solve_decision. Defined.
#[export] Instance ThreadWaitKind_eq_dec : EqDecision ThreadWaitKind.
Proof. solve_decision. Defined.
#[export] Instance ThreadWaitResult_eq_dec : EqDecision ThreadWaitResult.
Proof. solve_decision. Defined.

Record Thread := mkThread {
  t_id : Z;
  t_process : Z;
  t_process_prev : Z;
  t_process_next : Z;
  t_state : ThreadState;
  t_interrupt_rsp : Z;
  t_entry : Z;
  t_argument : Z;
  t_kernel_stack_physical : Z;
  t_kernel_stack_base : Z;
  t_kernel_stack_top : Z;
  t_kernel_stack_size : Z;
  t_owns_kernel_stack : bool;
  t_interrupt_context_ready : bool;
  t_wait_kind : ThreadWaitKind;
  t_wait_result : ThreadWaitResult;
  t_wait_object : Z;
  t_wait_id : Z;
  t_run_next : Z;
  t_on_run_queue : bool;
  t_capability_refs : Z }.

#[export] Instance rebuild_Thread : Rebuild Thread :=
  fun r => mkThread (t_id r) (t_process r) (t_process_prev r) (t_process_next r) (t_state r)
    (t_interrupt_rsp r) (t_entry r) (t_argument r) (t_kernel_stack_physical r)
    (t_kernel_stack_base r) (t_kernel_stack_top r) (t_kernel_stack_size r)
    (t_owns_kernel_stack r) (t_interrupt_context_ready r) (t_wait_kind r) (t_wait_result r)
    (t_wait_object r) (t_wait_id r) (t_run_next r) (t_on_run_queue r) (t_capability_refs r).

Definition thread_zero : Thread :=
  mkThread 0 0 0 0 THREAD_STATE_INVALID 0 0 0 0 0 0 0 false false THREAD_WAIT_NONE
    THREAD_WAIT_RESULT_NONE 0 0 0 false 0.

(** * IPC endpoints *)

Definition IPC_MESSAGE_MAX_WORDS : Z := 4.

Record IpcMessage := mkIpcMessage { m_words : list Z; m_word_count : Z }.

Definition message_zero : IpcMessage := mkIpcMessage [0; 0; 0; 0] 0.

Record Endpoint := mkEndpoint {
  e_id : Z;
  e_owner_process_id : Z;
  e_message : IpcMessage;
  e_message_ready : bool;
  e_waiting_receiver : Z;
  e_waiting_receiver_id : Z;
  e_waiting_sender : Z;
  e_waiting_sender_id : Z;
  e_waiting_sender_message : IpcMessage;
  e_waiting_sender_message_ready : bool;
  e_closed : bool;
  e_initialized : bool;
  e_capability_refs : Z }.

#[export] Instance rebuild_Endpoint : Rebuild Endpoint :=
  fun r => mkEndpoint (e_id r) (e_owner_process_id r) (e_message r) (e_message_ready r)
    (e_waiting_receiver r) (e_waiting_receiver_id r) (e_waiting_sender r) (e_waiting_sender_id r)
    (e_waiting_sender_message r) (e_waiting_sender_message_ready r) (e_closed r)
    (e_initialized r) (e_capability_refs r).

Definition endpoint_zero : Endpoint :=
  mkEndpoint 0 0 message_zero false 0 0 0 0 message_zero false false false 0.

(** * Capabilities *)

Inductive CapabilityType :=
  | CAPABILITY_TYPE_NONE
  | CAPABILITY_TYPE_THREAD
  | CAPABILITY_TYPE_ADDRESS_SPACE
  | CAPABILITY_TYPE_ENDPOINT
  | CAPABILITY_TYPE_DEVICE_RESOURCE.

#[export] Instance CapabilityType_eq_dec : EqDecision CapabilityType.
Proof. solve_decision. Defined.

Record CapabilitySlot := mkCapabilitySlot {
  s_object : Z;
  s_object_id : Z;
  s_rights : Z;
  s_generation : Z;
  s_type : CapabilityType;
  s_occupied : bool }.

#[export] Instance rebuild_CapabilitySlot : Rebuild CapabilitySlot :=
  fun r => mkCapabilitySlot (s_object r) (s_object_id r) (s_rights r) (s_generation r)
    (s_type r) (s_occupied r).

Definition slot_zero : CapabilitySlot := mkCapabilitySlot 0 0 0 0 CAPABILITY_TYPE_NONE false.

#[export] Instance CapabilitySlot_inhabited : Inhabited CapabilitySlot := populate slot_zero.

Definition CAPABILITY_TABLE_CAPACITY : Z := 64.

Record CapabilityTable := mkCapabilityTable {
  c_slots : list CapabilitySlot;
  c_count : Z;
  c_initialized : bool }.

#[export] Instance rebuild_CapabilityTable : Rebuild CapabilityTable :=
  fun r => mkCapabilityTable (c_slots r) (c_count r) (c_initialized r).

Definition table_zero : CapabilityTable :=
  mkCapabilityTable (replicate (Z.to_nat CAPABILITY_TABLE_CAPACITY) slot_zero) 0 false.

(** * Address spaces and device resources *)

Record AddressSpace := mkAddressSpace {
  a_id : Z;
  a_root_frame : Z;
  a_destroy_pending : bool;
  a_kernel : bool;
  a_capability_refs : Z }.

#[export] Instance rebuild_AddressSpace : Rebuild AddressSpace :=
  fun r => mkAddressSpace (a_id r) (a_root_frame r) (a_destroy_pending r) (a_kernel r)
    (a_capability_refs r).

Definition space_zero : AddressSpace := mkAddressSpace 0 0 false false 0.

Inductive DeviceResourceKind :=
  | DEVICE_RESOURCE_NONE
  | DEVICE_RESOURCE_DISPLAY
  | DEVICE_RESOURCE_AUDIO
  | DEVICE_RESOURCE_PCI_FUNCTION
  | DEVICE_RESOURCE_PCI_MMIO_BAR
  | DEVICE_RESOURCE_PCI_IO_BAR
  | DEVICE_RESOURCE_PCI_IRQ
  | DEVICE_RESOURCE_PCI_DMA_BUFFER
  | DEVICE_RESOURCE_REGISTER_READER.

#[export] Instance DeviceResourceKind_eq_dec : EqDecision DeviceResourceKind.
Proof. solve_decision. Defined.

Record DeviceResource := mkDeviceResource {
  d_id : Z;
  d_capability_refs : Z;
  d_kind : DeviceResourceKind;
  d_initialized : bool }.

#[export] Instance rebuild_DeviceResource : Rebuild DeviceResource :=
  fun r => mkDeviceResource (d_id r) (d_capability_refs r) (d_kind r) (d_initialized r).

Definition resource_zero : DeviceResource := mkDeviceResource 0 0 DEVICE_RESOURCE_NONE false.

(** * Processes and exit queues *)

Inductive ProcessExitReason :=
  | PROCESS_EXIT_NONE
  | PROCESS_EXIT_NORMAL
  | PROCESS_EXIT_FAULT
  | PROCESS_EXIT_TERMINATED.

#[export] Instance ProcessExitReason_eq_dec : EqDecision ProcessExitReason.
Proof. solve_decision. Defined.

Record ProcessExitInfo := mkProcessExitInfo {
  x_reason : ProcessExitReason;
  x_process_id : Z;
  x_thread_id : Z;
  x_vector : Z;
  x_error_code : Z;
  x_rip : Z;
  x_cr2 : Z }.

Definition exit_info_zero : ProcessExitInfo := mkProcessExitInfo PROCESS_EXIT_NONE 0 0 0 0 0 0.

(** The capability table and the owned address space are inline members of the
    C struct; they live in the tables' and spaces' storage at [caps_of p] and
    [space_of p]. *)
Record Process := mkProcess {
  p_id : Z;
  p_address_space : Z;
  p_thread_head : Z;
  p_thread_tail : Z;
  p_thread_count : Z;
  p_elf_image : Z;
  p_exit_info : ProcessExitInfo;
  p_exit_queue : Z;
  p_exit_queue_id : Z;
  p_kernel : bool;
  p_owns_address_space : bool;
  p_initialized : bool }.

#[export] Instance rebuild_Process : Rebuild Process :=
  fun r => mkProcess (p_id r) (p_address_space r) (p_thread_head r) (p_thread_tail r)
    (p_thread_count r) (p_elf_image r) (p_exit_info r) (p_exit_queue r) (p_exit_queue_id r)
    (p_kernel r) (p_owns_address_space r) (p_initialized r).

Definition process_zero : Process :=
  mkProcess 0 0 0 0 0 0 exit_info_zero 0 0 false false false.

(** [&process->capabilities] and [&process->owned_address_space]. *)
Definition caps_of (process : Z) : Z := process + 16.

Definition space_of (process : Z) : Z := process + 2584.

Definition PROCESS_EXIT_QUEUE_CAPACITY : Z := 16.

Record ProcessExitQueueSlot := mkExitQueueSlot {
  q_process : Z;
  q_process_id : Z;
  q_event : ProcessExitInfo;
  q_watching : bool;
  q_pending : bool }.

#[export] Instance rebuild_ExitQueueSlot : Rebuild ProcessExitQueueSlot :=
  fun r => mkExitQueueSlot (q_process r) (q_process_id r) (q_event r) (q_watching r) (q_pending r).

Definition qslot_zero : ProcessExitQueueSlot := mkExitQueueSlot 0 0 exit_info_zero false false.

#[export] Instance ExitQueueSlot_inhabited : Inhabited ProcessExitQueueSlot := populate qslot_zero.

Record ProcessExitQueue := mkExitQueue {
  q_id : Z;
  q_slots : list ProcessExitQueueSlot;
  q_waiting_receiver : Z;
  q_waiting_receiver_id : Z;
  q_pending_order : list Z;
  q_pending_head : Z;
  q_pending_tail : Z;
  q_watch_count : Z;
  q_pending_count : Z;
  q_closed : bool;
  q_initialized : bool }.

#[export] Instance rebuild_ExitQueue : Rebuild ProcessExitQueue :=
  fun r => mkExitQueue (q_id r) (q_slots r) (q_waiting_receiver r) (q_waiting_receiver_id r)
    (q_pending_order r) (q_pending_head r) (q_pending_tail r) (q_watch_count r)
    (q_pending_count r) (q_closed r) (q_initialized r).

Definition queue_zero : ProcessExitQueue :=
  mkExitQueue 0 (replicate (Z.to_nat PROCESS_EXIT_QUEUE_CAPACITY) qslot_zero) 0 0
    (replicate (Z.to_nat PROCESS_EXIT_QUEUE_CAPACITY) 0) 0 0 0 0 false false.

(** * Interrupt frames

    The fields of a saved frame the modelled code reads or writes. *)

Record InterruptFrame := mkInterruptFrame {
  f_rax : Z;
  f_vector : Z;
  f_error_code : Z;
  f_rip : Z;
  f_cs : Z;
  f_rflags : Z;
  f_rsp : Z;
  f_ss : Z }.

#[export] Instance rebuild_InterruptFrame : Rebuild InterruptFrame :=
  fun r => mkInterruptFrame (f_rax r) (f_vector r) (f_error_code r) (f_rip r) (f_cs r)
    (f_rflags r) (f_rsp r) (f_ss r).

Definition frame_zero : InterruptFrame := mkInterruptFrame 0 0 0 0 0 0 0 0.

Definition SIZEOF_InterruptFrame : Z := 160.

Definition SIZEOF_InterruptStackFrame : Z := 16.

(** * Module globals *)

Record ThreadMod := mkThreadMod {
  tm_current : Z;
  tm_next_thread_id : Z;
  tm_next_wait_id : Z;
  tm_initialized : bool;
  tm_storage : list Z;
  (** processor state [thread_activate] switches: RSP0 and CR3 *)
  tm_rsp0 : Z;
  tm_cr3 : Z }.

#[export] Instance rebuild_ThreadMod : Rebuild ThreadMod :=
  fun r => mkThreadMod (tm_current r) (tm_next_thread_id r) (tm_next_wait_id r)
    (tm_initialized r) (tm_storage r) (tm_rsp0 r) (tm_cr3 r).

Record ObjectMod := mkObjectMod {
  om_next_id : Z;
  om_initialized : bool;
  om_storage : list Z }.

#[export] Instance rebuild_ObjectMod : Rebuild ObjectMod :=
  fun r => mkObjectMod (om_next_id r) (om_initialized r) (om_storage r).

Record CapMod := mkCapMod {
  cm_tables : list Z;
  cm_next_generation : list Z;
  cm_issuers_initialized : bool }.

#[export] Instance rebuild_CapMod : Rebuild CapMod :=
  fun r => mkCapMod (cm_tables r) (cm_next_generation r) (cm_issuers_initialized r).

Record SchedMod := mkSchedMod {
  sm_run_head : Z;
  sm_run_tail : Z;
  sm_run_count : Z;
  sm_initialized : bool;
  sm_reschedule_count : Z;
  sm_preemption_enabled : bool;
  sm_preemption_count : Z;
  sm_idle_wait_count : Z;
  sm_idle_stack_physical : Z;
  sm_idle_stack_base : Z;
  sm_idle_stack_top : Z;
  sm_idle_context_ready : bool;
  sm_idle_active : bool;
  sm_idle_entry_count : Z;
  sm_idle_resume_count : Z }.

#[export] Instance rebuild_SchedMod : Rebuild SchedMod :=
  fun r => mkSchedMod (sm_run_head r) (sm_run_tail r) (sm_run_count r) (sm_initialized r)
    (sm_reschedule_count r) (sm_preemption_enabled r) (sm_preemption_count r)
    (sm_idle_wait_count r) (sm_idle_stack_physical r) (sm_idle_stack_base r)
    (sm_idle_stack_top r) (sm_idle_context_ready r) (sm_idle_active r)
    (sm_idle_entry_count r) (sm_idle_resume_count r).

Record IpcTimedWait := mkIpcTimedWait {
  w_thread : Z;
  w_endpoint : Z;
  w_thread_id : Z;
  w_endpoint_id : Z;
  w_wait_id : Z;
  w_deadline : Z;
  w_kind : ThreadWaitKind;
  w_occupied : bool }.

Definition timed_wait_zero : IpcTimedWait := mkIpcTimedWait 0 0 0 0 0 0 THREAD_WAIT_NONE false.

#[export] Instance IpcTimedWait_inhabited : Inhabited IpcTimedWait := populate timed_wait_zero.

(** The one-shot diagnostic hook of ipc.c, [g_before_park]. *)
Inductive IpcWaitTestAction :=
  | IPC_WAIT_TEST_NONE
  | IPC_WAIT_TEST_SEND
  | IPC_WAIT_TEST_RECEIVE
  | IPC_WAIT_TEST_CLOSE.

#[export] Instance IpcWaitTestAction_eq_dec : EqDecision IpcWaitTestAction.
Proof. solve_decision. Defined.

Record IpcWaitTestObservation := mkIpcWaitTestObservation {
  ob_armed : bool;
  ob_fired : bool;
  ob_succeeded : bool;
  ob_wait_id : Z;
  ob_result : ThreadWaitResult;
  ob_state : ThreadState }.

#[export] Instance rebuild_IpcWaitTestObservation : Rebuild IpcWaitTestObservation :=
  fun r => mkIpcWaitTestObservation (ob_armed r) (ob_fired r) (ob_succeeded r) (ob_wait_id r)
    (ob_result r) (ob_state r).

Record BeforePark := mkBeforePark {
  bp_thread : Z;
  bp_thread_id : Z;
  bp_endpoint : Z;
  bp_endpoint_id : Z;
  bp_peer : Z;
  bp_handle : Z;
  bp_action : IpcWaitTestAction;
  bp_message : IpcMessage;
  bp_observation : IpcWaitTestObservation }.

#[export] Instance rebuild_BeforePark : Rebuild BeforePark :=
  fun r => mkBeforePark (bp_thread r) (bp_thread_id r) (bp_endpoint r) (bp_endpoint_id r) (bp_peer r)
    (bp_handle r) (bp_action r) (bp_message r) (bp_observation r).

Definition observation_zero : IpcWaitTestObservation :=
  mkIpcWaitTestObservation false false false 0 THREAD_WAIT_RESULT_NONE THREAD_STATE_INVALID.

Definition before_park_zero : BeforePark :=
  mkBeforePark 0 0 0 0 0 0 IPC_WAIT_TEST_NONE message_zero observation_zero.

Record IpcMod := mkIpcMod {
  im_timed_waits : list IpcTimedWait;
  im_before_park : BeforePark;
  im_park_attempts : Z }.

#[export] Instance rebuild_IpcMod : Rebuild IpcMod :=
  fun r => mkIpcMod (im_timed_waits r) (im_before_park r) (im_park_attempts r).

Record TimerMod := mkTimerMod { tk_ticks : Z; tk_initialized : bool }.

#[export] Instance rebuild_TimerMod : Rebuild TimerMod :=
  fun r => mkTimerMod (tk_ticks r) (tk_initialized r).

(** * The kernel state *)

Record Kernel := mkKernel {
  k_threads : gmap Z Thread;
  k_endpoints : gmap Z Endpoint;
  k_tables : gmap Z CapabilityTable;
  k_spaces : gmap Z AddressSpace;
  k_resources : gmap Z DeviceResource;
  k_processes : gmap Z Process;
  k_queues : gmap Z ProcessExitQueue;
  k_frames : gmap Z InterruptFrame;
  k_thr : ThreadMod;
  k_ept : ObjectMod;
  k_res : ObjectMod;
  k_prc : ObjectMod;
  k_spc : ObjectMod;
  k_exq : ObjectMod;
  k_cap : CapMod;
  k_sch : SchedMod;
  k_ipc : IpcMod;
  k_tim : TimerMod }.

#[export] Instance rebuild_Kernel : Rebuild Kernel :=
  fun r => mkKernel (k_threads r) (k_endpoints r) (k_tables r) (k_spaces r) (k_resources r)
    (k_processes r) (k_queues r) (k_frames r) (k_thr r) (k_ept r) (k_res r) (k_prc r) (k_spc r)
    (k_exq r) (k_cap r) (k_sch r) (k_ipc r) (k_tim r).

(** Reads and writes through a pointer. *)
Definition thr (k : Kernel) (p : Z) : Thread := default thread_zero (k_threads k !! p).

Definition ept (k : Kernel) (p : Z) : Endpoint := default endpoint_zero (k_endpoints k !! p).

Definition tbl (k : Kernel) (p : Z) : CapabilityTable := default table_zero (k_tables k !! p).

Definition spc (k : Kernel) (p : Z) : AddressSpace := default space_zero (k_spaces k !! p).

Definition rsc (k : Kernel) (p : Z) : DeviceResource := default resource_zero (k_resources k !! p).

Definition prc (k : Kernel) (p : Z) : Process := default process_zero (k_processes k !! p).

Definition exq (k : Kernel) (p : Z) : ProcessExitQueue := default queue_zero (k_queues k !! p).

Definition frm (k : Kernel) (p : Z) : InterruptFrame := default frame_zero (k_frames k !! p).

Definition set_thr (p : Z) (f : Thread -> Thread) (k : Kernel) : Kernel :=
  k <| k_threads := <[p := f (thr k p)]> (k_threads k) |>.

Definition set_ept (p : Z) (f : Endpoint -> Endpoint) (k : Kernel) : Kernel :=
  k <| k_endpoints := <[p := f (ept k p)]> (k_endpoints k) |>.

Definition set_tbl (p : Z) (f : CapabilityTable -> CapabilityTable) (k : Kernel) : Kernel :=
  k <| k_tables := <[p := f (tbl k p)]> (k_tables k) |>.

Definition set_spc (p : Z) (f : AddressSpace -> AddressSpace) (k : Kernel) : Kernel :=
  k <| k_spaces := <[p := f (spc k p)]> (k_spaces k) |>.

Definition set_rsc (p : Z) (f : DeviceResource -> DeviceResource) (k : Kernel) : Kernel :=
  k <| k_resources := <[p := f (rsc k p)]> (k_resources k) |>.

Definition set_prc (p : Z) (f : Process -> Process) (k : Kernel) : Kernel :=
  k <| k_processes := <[p := f (prc k p)]> (k_processes k) |>.

Definition set_exq (p : Z) (f : ProcessExitQueue -> ProcessExitQueue) (k : Kernel) : Kernel :=
  k <| k_queues := <[p := f (exq k p)]> (k_queues k) |>.

Definition set_frm (p : Z) (f : InterruptFrame -> InterruptFrame) (k : Kernel) : Kernel :=
  k <| k_frames := <[p := f (frm k p)]> (k_frames k) |>.

(** Assignments to module globals. *)
Definition set_tm (f : ThreadMod -> ThreadMod) (k : Kernel) : Kernel := k <| k_thr := f (k_thr k) |>.

Definition set_sm (f : SchedMod -> SchedMod) (k : Kernel) : Kernel := k <| k_sch := f (k_sch k) |>.

Definition set_cm (f : CapMod -> CapMod) (k : Kernel) : Kernel := k <| k_cap := f (k_cap k) |>.

Definition set_em (f : ObjectMod -> ObjectMod) (k : Kernel) : Kernel := k <| k_ept := f (k_ept k) |>.

Definition set_rm (f : ObjectMod -> ObjectMod) (k : Kernel) : Kernel := k <| k_res := f (k_res k) |>.

Definition set_qm (f : ObjectMod -> ObjectMod) (k : Kernel) : Kernel := k <| k_exq := f (k_exq k) |>.

Definition set_im (f : IpcMod -> IpcMod) (k : Kernel) : Kernel := k <| k_ipc := f (k_ipc k) |>.

(** * Reading back a write *)

Lemma thr_set k p q f : thr (set_thr p f k) q = if decide (p = q) then f (thr k p) else thr k q.
Proof.
  unfold thr at 1, set_thr. upd_simpl. rewrite lookup_insert. by case_decide.
Qed.

Lemma ept_set k p q f : ept (set_ept p f k) q = if decide (p = q) then f (ept k p) else ept k q.
Proof.
  unfold ept at 1, set_ept. upd_simpl. rewrite lookup_insert. by case_decide.
Qed.

Lemma tbl_set k p q f : tbl (set_tbl p f k) q = if decide (p = q) then f (tbl k p) else tbl k q.
Proof.
  unfold tbl at 1, set_tbl. upd_simpl. rewrite lookup_insert. by case_decide.
Qed.

Lemma spc_set k p q f : spc (set_spc p f k) q = if decide (p = q) then f (spc k p) else spc k q.
Proof.
  unfold spc at 1, set_spc. upd_simpl. rewrite lookup_insert. by case_decide.
Qed.

Lemma rsc_set k p q f : rsc (set_rsc p f k) q = if decide (p = q) then f (rsc k p) else rsc k q.
Proof.
  unfold rsc at 1, set_rsc. upd_simpl. rewrite lookup_insert. by case_decide.
Qed.

Lemma prc_set k p q f : prc (set_prc p f k) q = if decide (p = q) then f (prc k p) else prc k q.
Proof.
  unfold prc at 1, set_prc. upd_simpl. rewrite lookup_insert. by case_decide.
Qed.

Lemma exq_set k p q f : exq (set_exq p f k) q = if decide (p = q) then f (exq k p) else exq k q.
Proof.
  unfold exq at 1, set_exq. upd_simpl. rewrite lookup_insert. by case_decide.
Qed.

(** * The static storage at boot

    Zeroed storage and the initialised globals ([g_next_wait_id] of thread.c,
    [g_next_id] of device_resource.c); [idle_physical] and the like stay zero
    until their module is initialised. *)

Definition kernel_boot : Kernel :=
  mkKernel ∅ ∅ ∅ ∅ ∅ ∅ ∅ ∅
    (mkThreadMod 0 0 1 false (replicate 512 0) 0 0)
    (mkObjectMod 0 false (replicate 256 0))
    (mkObjectMod 1 false (replicate 64 0))
    (mkObjectMod 0 false (replicate 128 0))
    (mkObjectMod 0 false (replicate 256 0))
    (mkObjectMod 1 false (replicate 16 0))
    (mkCapMod (replicate 256 0) (replicate 64 0) false)
    (mkSchedMod 0 0 0 false 0 false 0 0 0 0 0 false false 0 0)
    (mkIpcMod (replicate 512 timed_wait_zero) before_park_zero 0)
    (mkTimerMod 0 false).

(** Writes to module globals do not touch objects. *)
Lemma ept_set_em f k p : ept (set_em f k) p = ept k p.
Proof. done. Qed.
