(* ===== verification/Objects.v ===== *)
(** Liveness of kernel objects, and the device resource module.

    The registry tests of [kernel/thread.c], [kernel/address_space.c],
    [kernel/endpoint.c] and [kernel/capability.c], the page-map root of an
    address space, and all of [kernel/device_resource.c]. *)

From S2P Require Import Prelude Pmm ObjectStorage Kernel.

Open Scope jcos_scope.

(** * Registry membership *)

Definition thread_storage_live (k : Kernel) (thread : Z) : bool :=
  object_storage_find (tm_storage (k_thr k)) THREAD_STORAGE_CAPACITY thread
    <? THREAD_STORAGE_CAPACITY.

Definition thread_storage_in_use (k : Kernel) (thread : Z) : bool := thread_storage_live k thread.

Definition thread_object_count (k : Kernel) : Z :=
  object_storage_count (tm_storage (k_thr k)) THREAD_STORAGE_CAPACITY.

Definition space_storage_live (k : Kernel) (space : Z) : bool :=
  object_storage_find (om_storage (k_spc k)) ADDRESS_SPACE_STORAGE_CAPACITY space
    <? ADDRESS_SPACE_STORAGE_CAPACITY.

Definition address_space_storage_in_use (k : Kernel) (space : Z) : bool :=
  space_storage_live k space.

Definition address_space_object_count (k : Kernel) : Z :=
  object_storage_count (om_storage (k_spc k)) ADDRESS_SPACE_STORAGE_CAPACITY.

Definition address_space_cr3 (k : Kernel) (space : Z) : Z :=
  if !space_storage_live k space || (a_root_frame (spc k space) =? FRAME_INVALID)
     || a_destroy_pending (spc k space) then 0
  else frame_to_phys (a_root_frame (spc k space)).

Definition ENDPOINT_STORAGE_CAPACITY : Z := 256.

Definition endpoint_live (k : Kernel) (endpoint : Z) : bool :=
  object_storage_find (om_storage (k_ept k)) ENDPOINT_STORAGE_CAPACITY endpoint
    <? ENDPOINT_STORAGE_CAPACITY.

Definition endpoint_storage_in_use (k : Kernel) (endpoint : Z) : bool := endpoint_live k endpoint.

Definition endpoint_object_count (k : Kernel) : Z :=
  object_storage_count (om_storage (k_ept k)) ENDPOINT_STORAGE_CAPACITY.

(** * Device resources *)

Definition DEVICE_RESOURCE_STORAGE_CAPACITY : Z := 64.

Definition resource_slot (k : Kernel) (resource : Z) : Z :=
  object_storage_find (om_storage (k_res k)) DEVICE_RESOURCE_STORAGE_CAPACITY resource.

Definition device_resource_valid (k : Kernel) (resource : Z) : bool :=
  nz resource && d_initialized (rsc k resource) && nz (d_id (rsc k resource))
  && !bool_decide (d_kind (rsc k resource) = DEVICE_RESOURCE_NONE)
  && (resource_slot k resource <? DEVICE_RESOURCE_STORAGE_CAPACITY).

Definition device_resource_object_count (k : Kernel) : Z :=
  object_storage_count (om_storage (k_res k)) DEVICE_RESOURCE_STORAGE_CAPACITY.

Definition device_resource_create (resource : Z) (kind : DeviceResourceKind) (k : Kernel)
    : bool * Kernel :=
  if !nz resource || bool_decide (kind = DEVICE_RESOURCE_NONE) then (false, k) else
  let slot := object_storage_empty (om_storage (k_res k)) DEVICE_RESOURCE_STORAGE_CAPACITY in
  if (slot <? DEVICE_RESOURCE_STORAGE_CAPACITY)
     && (resource_slot k resource =? DEVICE_RESOURCE_STORAGE_CAPACITY)
     && nz (om_next_id (k_res k)) then
    let id := om_next_id (k_res k) in
    let k := set_rsc resource (fun _ => mkDeviceResource id 0 kind true) k in
    (true, set_rm (fun m => m <| om_next_id := u64 (id + 1) |>
                              <| om_storage := storage_set slot resource (om_storage m) |>) k)
  else (false, k).

Definition device_resource_destroy (resource : Z) (k : Kernel) : bool * Kernel :=
  if !nz resource then (false, k) else
  let slot := resource_slot k resource in
  if (slot <? DEVICE_RESOURCE_STORAGE_CAPACITY) && d_initialized (rsc k resource)
     && nz (d_id (rsc k resource)) && !nz (d_capability_refs (rsc k resource)) then
    let k := set_rm (fun m => m <| om_storage := storage_set slot 0 (om_storage m) |>) k in
    (true, set_rsc resource (fun _ => resource_zero) k)
  else (false, k).

(** * Processes: liveness and inline members ([kernel/process.c]) *)

Definition process_storage_live (k : Kernel) (process : Z) : bool :=
  object_storage_find (om_storage (k_prc k)) PROCESS_STORAGE_CAPACITY process
    <? PROCESS_STORAGE_CAPACITY.

Definition process_object_count (k : Kernel) : Z :=
  object_storage_count (om_storage (k_prc k)) PROCESS_STORAGE_CAPACITY.

Definition process_storage_in_use (k : Kernel) (process : Z) : bool := process_storage_live k process.

(** The guard of every process query. *)
Definition process_usable (k : Kernel) (process : Z) : bool :=
  om_initialized (k_prc k) && process_storage_live k process && p_initialized (prc k process).

Definition process_address_space (k : Kernel) (process : Z) : Z :=
  if !process_usable k process then 0 else p_address_space (prc k process).

Definition process_capabilities (k : Kernel) (process : Z) : Z :=
  if !process_usable k process then 0 else caps_of process.

Definition process_thread_count (k : Kernel) (process : Z) : Z :=
  if !process_usable k process then 0 else p_thread_count (prc k process).
