(* ===== verification/Capability.v ===== *)
(** Capability tables: [kernel/capability.c].

    A handle packs a 32-bit generation over a 32-bit slot index. The generation
    of a slot index is issued from a boot-global counter, so no handle is
    issued twice. Every occupied slot pins the object it names through the
    object's [capability_refs]. *)

From S2P Require Import Prelude Pmm ObjectStorage Kernel Objects.

Open Scope jcos_scope.

(** * Data *)

Definition CAPABILITY_INVALID_HANDLE : Z := 0.

Definition CAPABILITY_TABLE_STORAGE_CAPACITY : Z := 256.

Definition CAPABILITY_GENERATION_MAX : Z := 0xFFFFFFFF.

Definition CAPABILITY_RIGHT_ALL : Z := 0x7F.

(** [rights & ~CAPABILITY_RIGHT_ALL] *)
Definition foreign_rights (rights : Z) : Z := Z.land rights (u64 (Z.lnot CAPABILITY_RIGHT_ALL)).

(** A pointer to an object's [capability_refs] field. *)
Definition RefCell : Type := CapabilityType * Z.

Definition ref_get (k : Kernel) (refs : RefCell) : Z :=
  match refs.1 with
  | CAPABILITY_TYPE_NONE => 0
  | CAPABILITY_TYPE_THREAD => t_capability_refs (thr k refs.2)
  | CAPABILITY_TYPE_ADDRESS_SPACE => a_capability_refs (spc k refs.2)
  | CAPABILITY_TYPE_ENDPOINT => e_capability_refs (ept k refs.2)
  | CAPABILITY_TYPE_DEVICE_RESOURCE => d_capability_refs (rsc k refs.2)
  end.

Definition ref_set (refs : RefCell) (v : Z) (k : Kernel) : Kernel :=
  match refs.1 with
  | CAPABILITY_TYPE_NONE => k
  | CAPABILITY_TYPE_THREAD => set_thr refs.2 (fun t => t <| t_capability_refs := v |>) k
  | CAPABILITY_TYPE_ADDRESS_SPACE => set_spc refs.2 (fun a => a <| a_capability_refs := v |>) k
  | CAPABILITY_TYPE_ENDPOINT => set_ept refs.2 (fun e => e <| e_capability_refs := v |>) k
  | CAPABILITY_TYPE_DEVICE_RESOURCE => set_rsc refs.2 (fun d => d <| d_capability_refs := v |>) k
  end.

Definition slot_at (tb : CapabilityTable) (i : Z) : CapabilitySlot := c_slots tb !!! Z.to_nat i.

Definition set_slot (i : Z) (slot : CapabilitySlot) (tb : CapabilityTable) : CapabilityTable :=
  tb <| c_slots := <[Z.to_nat i := slot]> (c_slots tb) |>.

#[global] Arguments slot_at : simpl never.
#[global] Arguments foreign_rights : simpl never.

(** * Validation *)

Definition table_slot (k : Kernel) (table : Z) : Z :=
  object_storage_find (cm_tables (k_cap k)) CAPABILITY_TABLE_STORAGE_CAPACITY table.

Definition table_live (k : Kernel) (table : Z) : bool :=
  table_slot k table <? CAPABILITY_TABLE_STORAGE_CAPACITY.

Definition capability_table_storage_in_use (k : Kernel) (table : Z) : bool := table_live k table.

Definition capability_table_object_count (k : Kernel) : Z :=
  object_storage_count (cm_tables (k_cap k)) CAPABILITY_TABLE_STORAGE_CAPACITY.

Definition type_valid (type : CapabilityType) : bool :=
  bool_decide (type = CAPABILITY_TYPE_THREAD) || bool_decide (type = CAPABILITY_TYPE_ADDRESS_SPACE)
  || bool_decide (type = CAPABILITY_TYPE_ENDPOINT)
  || bool_decide (type = CAPABILITY_TYPE_DEVICE_RESOURCE).

(** The reference counter of a live object and the object's identity. *)
Definition object_refs (k : Kernel) (object : Z) (type : CapabilityType) (inserting : bool)
    : option (RefCell * Z) :=
  if !nz object then None else
  match type with
  | CAPABILITY_TYPE_THREAD =>
    if !thread_storage_in_use k object || !nz (t_id (thr k object)) || !nz (t_process (thr k object))
       || bool_decide (t_state (thr k object) = THREAD_STATE_INVALID) then None else
    if inserting && bool_decide (t_state (thr k object) = THREAD_STATE_DEAD) then None else
    Some ((type, object), t_id (thr k object))
  | CAPABILITY_TYPE_ADDRESS_SPACE =>
    if !address_space_storage_in_use k object then None else
    if inserting && (!nz (address_space_cr3 k object) || a_destroy_pending (spc k object)) then None else
    Some ((type, object), a_id (spc k object))
  | CAPABILITY_TYPE_ENDPOINT =>
    if !endpoint_storage_in_use k object || !e_initialized (ept k object) || !nz (e_id (ept k object))
    then None else
    if inserting && e_closed (ept k object) then None else
    Some ((type, object), e_id (ept k object))
  | CAPABILITY_TYPE_DEVICE_RESOURCE =>
    if !device_resource_valid k object then None else
    Some ((type, object), d_id (rsc k object))
  | CAPABILITY_TYPE_NONE => None
  end.

Definition slot_refs (k : Kernel) (slot : CapabilitySlot) : option RefCell :=
  if !s_occupied slot || !nz (s_generation slot) || !nz (s_rights slot)
     || nz (foreign_rights (s_rights slot)) then None else
  match object_refs k (s_object slot) (s_type slot) false with
  | None => None
  | Some (refs, identity) =>
    if nz (ref_get k refs) && (identity =? s_object_id slot) then Some refs else None
  end.

(** An unoccupied slot keeps only its last generation. *)
Definition slot_blank (slot : CapabilitySlot) : bool :=
  !nz (s_object slot) && !nz (s_object_id slot) && !nz (s_rights slot)
  && bool_decide (s_type slot = CAPABILITY_TYPE_NONE).

Definition table_valid (k : Kernel) (table : Z) : bool :=
  let tb := tbl k table in
  if !table_live k table || !c_initialized tb || (c_count tb >? CAPABILITY_TABLE_CAPACITY) then false else
  forallb (fun slot => if s_occupied slot then bool_decide (is_Some (slot_refs k slot))
                       else slot_blank slot) (c_slots tb)
  && (countb s_occupied (c_slots tb) =? c_count tb).

(** [Some (generation, next)]: the issued generation and the advanced counter. *)
Definition take_generation (next : Z) : option (Z * Z) :=
  if !nz next || (next >? CAPABILITY_GENERATION_MAX) then None
  else Some (u32 next, u64 (next + 1)).

Definition capability_test_generation_boundary : bool :=
  match take_generation CAPABILITY_GENERATION_MAX with
  | None => false
  | Some (last, next) =>
    (last =? u32 CAPABILITY_GENERATION_MAX) && (next =? u64 (CAPABILITY_GENERATION_MAX + 1))
    && bool_decide (take_generation next = None)
  end.

(** * Tables *)

Definition capability_table_init (table : Z) (k : Kernel) : bool * Kernel :=
  if !nz table then (false, k) else
  let slot := object_storage_empty (cm_tables (k_cap k)) CAPABILITY_TABLE_STORAGE_CAPACITY in
  if !table_live k table && (slot <? CAPABILITY_TABLE_STORAGE_CAPACITY) then
    let k := if cm_issuers_initialized (k_cap k) then k else
      set_cm (fun m => m <| cm_next_generation := replicate (Z.to_nat CAPABILITY_TABLE_CAPACITY) 1 |>
                         <| cm_issuers_initialized := true |>) k in
    let k := set_tbl table (fun _ => table_zero <| c_initialized := true |>) k in
    (true, set_cm (fun m => m <| cm_tables := storage_set slot table (cm_tables m) |>) k)
  else (false, k).

Definition capability_table_destroy (table : Z) (k : Kernel) : bool * Kernel :=
  if table_valid k table && (c_count (tbl k table) =? 0) then
    let slot := table_slot k table in
    let k := set_cm (fun m => m <| cm_tables := storage_set slot 0 (cm_tables m) |>) k in
    (true, set_tbl table (fun _ => table_zero) k)
  else (false, k).

Definition capability_table_count (k : Kernel) (table : Z) : Z :=
  if table_live k table && c_initialized (tbl k table) then c_count (tbl k table) else 0.

Definition capability_table_empty (k : Kernel) (table : Z) : bool :=
  table_valid k table && (c_count (tbl k table) =? 0).

(** * Slots *)

Definition next_generation (k : Kernel) (i : Z) : Z := cm_next_generation (k_cap k) !!! Z.to_nat i.

Definition make_handle (generation index : Z) : Z := Z.lor (Z.shiftl generation 32) index.

(** The loop of [capability_insert] over the [n] slots from index [i]. *)
Fixpoint insert_scan (n : nat) (i table object : Z) (type : CapabilityType) (rights : Z)
    (refs : RefCell) (identity : Z) (k : Kernel) : option Z * Kernel :=
  match n with
  | O => (None, k)
  | S n =>
    if s_occupied (slot_at (tbl k table) i) then
      insert_scan n (i + 1) table object type rights refs identity k
    else match take_generation (next_generation k i) with
    | None => insert_scan n (i + 1) table object type rights refs identity k
    | Some (generation, next) =>
      let k := set_cm (fun m => m <| cm_next_generation :=
                 <[Z.to_nat i := next]> (cm_next_generation m) |>) k in
      let k := set_tbl table (set_slot i
                 (mkCapabilitySlot object identity rights generation type true)) k in
      let k := ref_set refs (u64 (ref_get k refs + 1)) k in
      let k := set_tbl table (fun t => t <| c_count := u32 (c_count t + 1) |>) k in
      (Some (make_handle generation i), k)
    end
  end.

(** [None]: the insertion failed and the handle is [CAPABILITY_INVALID_HANDLE]. *)
Definition capability_insert (table object : Z) (type : CapabilityType) (rights : Z) (k : Kernel)
    : option Z * Kernel :=
  if !table_valid k table || !type_valid type || !nz rights || nz (foreign_rights rights)
     || (c_count (tbl k table) =? CAPABILITY_TABLE_CAPACITY) then (None, k) else
  match object_refs k object type true with
  | None => (None, k)
  | Some (refs, identity) =>
    if ref_get k refs =? U64_MAX then (None, k) else
    insert_scan (Z.to_nat CAPABILITY_TABLE_CAPACITY) 0 table object type rights refs identity k
  end.

(** The index of the slot a handle names. *)
Definition resolve_slot (k : Kernel) (table handle : Z) : option Z :=
  if !table_live k table || !c_initialized (tbl k table) || !nz handle then None else
  let index := u32 handle in
  let generation := u32 (Z.shiftr handle 32) in
  if (index >=? CAPABILITY_TABLE_CAPACITY) || !nz generation then None else
  let slot := slot_at (tbl k table) index in
  if s_generation slot != generation then None else
  match slot_refs k slot with
  | None => None
  | Some _ => Some index
  end.

Definition capability_lookup_rights (k : Kernel) (table handle : Z) (expected_type : CapabilityType)
    (required_rights : Z) : option Z :=
  match resolve_slot k table handle with
  | None => None
  | Some i =>
    let slot := slot_at (tbl k table) i in
    if type_valid expected_type && !nz (foreign_rights required_rights)
       && bool_decide (s_type slot = expected_type)
       && (Z.land (s_rights slot) required_rights =? required_rights)
    then Some (s_object slot) else None
  end.

Definition capability_lookup (k : Kernel) (table handle : Z) (expected_type : CapabilityType)
    : option Z := capability_lookup_rights k table handle expected_type 0.

(** The callers have validated the slot, so [slot_refs] is not null here. *)
Definition delete_slot (table i : Z) (k : Kernel) : Kernel :=
  let slot := slot_at (tbl k table) i in
  match slot_refs k slot with
  | None => k
  | Some refs =>
    let k := ref_set refs (u64 (ref_get k refs - 1)) k in
    let k := set_tbl table (set_slot i
               (mkCapabilitySlot 0 0 0 (s_generation slot) CAPABILITY_TYPE_NONE false)) k in
    set_tbl table (fun t => t <| c_count := u32 (c_count t - 1) |>) k
  end.

Definition capability_revoke (table handle : Z) (k : Kernel) : bool * Kernel :=
  match resolve_slot k table handle with
  | None => (false, k)
  | Some i => if table_valid k table then (true, delete_slot table i k) else (false, k)
  end.

Definition slot_selected (object : Z) (type : CapabilityType) (all : bool) (slot : CapabilitySlot)
    : bool :=
  s_occupied slot && (all || ((s_object slot =? object) && bool_decide (s_type slot = type))).

Definition same_object (slot other : CapabilitySlot) : bool :=
  s_occupied other && (s_object other =? s_object slot) && bool_decide (s_type other = s_type slot).

Definition delete_selected (table object : Z) (type : CapabilityType) (all : bool) (k : Kernel)
    : bool * Kernel :=
  if !table_valid k table then (false, k) else
  if negb (forallb (fun slot =>
       if negb (slot_selected object type all slot) then true else
       let matching := countb (same_object slot) (c_slots (tbl k table)) in
       match slot_refs k slot with
       | None => false
       | Some refs => negb (ref_get k refs <? matching)
       end) (c_slots (tbl k table))) then (false, k) else
  (true, foldl (fun k i =>
           if slot_selected object type all (slot_at (tbl k table) i) then delete_slot table i k else k)
         k (seqZ 0 CAPABILITY_TABLE_CAPACITY)).

Definition capability_revoke_all (table : Z) (k : Kernel) : bool * Kernel :=
  delete_selected table 0 CAPABILITY_TYPE_NONE true k.

Definition capability_revoke_object (table object : Z) (type : CapabilityType) (k : Kernel)
    : bool * Kernel :=
  if !nz object || !type_valid type then (false, k) else delete_selected table object type false k.
