(* ===== verification/CapabilityProofs.v ===== *)
(** Reference accounting and well-formedness of the capability layer.

    [cap_wf] is the invariant every operation of capability.c keeps: slots are
    either blank or name a live object with its current identity, the reference
    counter of an object is the number of slots that name it, and every
    generation in use lies below its issuer. *)

From S2P Require Import Prelude Pmm ObjectStorage Kernel Objects Capability.

Open Scope jcos_scope.

Definition live_tables (k : Kernel) : list Z := live (cm_tables (k_cap k)).

Definition slot_cell (s : CapabilitySlot) : RefCell := (s_type s, s_object s).

Definition slot_pins (c : RefCell) (s : CapabilitySlot) : bool :=
  s_occupied s && bool_decide (slot_cell s = c).

Definition table_pins (k : Kernel) (c : RefCell) (t : Z) : Z :=
  countb (slot_pins c) (c_slots (tbl k t)).

(** The number of occupied slots, over all live tables, that name an object. *)
Definition pins (k : Kernel) (c : RefCell) : Z := sumZ (table_pins k c) (live_tables k).

(** Registry membership by object type. *)
Definition object_live (k : Kernel) (c : RefCell) : bool :=
  match c.1 with
  | CAPABILITY_TYPE_NONE => false
  | CAPABILITY_TYPE_THREAD => thread_storage_live k c.2
  | CAPABILITY_TYPE_ADDRESS_SPACE => space_storage_live k c.2
  | CAPABILITY_TYPE_ENDPOINT => endpoint_live k c.2
  | CAPABILITY_TYPE_DEVICE_RESOURCE => resource_slot k c.2 <? DEVICE_RESOURCE_STORAGE_CAPACITY
  end.

Record slot_ok (k : Kernel) (next : Z) (s : CapabilitySlot) : Prop := {
  so_generation : 0 <= s_generation s < next;
  so_occupied : s_occupied s = true ->
    0 < s_generation s /\ s_rights s <> 0 /\ foreign_rights (s_rights s) = 0 /\
    object_refs k (s_object s) (s_type s) false = Some (slot_cell s, s_object_id s);
  so_blank : s_occupied s = false -> slot_blank s = true }.

Record table_ok (k : Kernel) (tb : CapabilityTable) : Prop := {
  to_init : c_initialized tb = true;
  to_length : length (c_slots tb) = Z.to_nat CAPABILITY_TABLE_CAPACITY;
  to_count : c_count tb = countb s_occupied (c_slots tb);
  to_slots : forall i, 0 <= i < CAPABILITY_TABLE_CAPACITY ->
    slot_ok k (next_generation k i) (slot_at tb i) }.

Record cap_wf (k : Kernel) : Prop := {
  cw_tables : registry CAPABILITY_TABLE_STORAGE_CAPACITY (cm_tables (k_cap k));
  cw_issuers : length (cm_next_generation (k_cap k)) = Z.to_nat CAPABILITY_TABLE_CAPACITY;
  cw_cold : cm_issuers_initialized (k_cap k) = false -> live_tables k = [];
  cw_cold_next : cm_issuers_initialized (k_cap k) = false ->
    forall i, 0 <= i < CAPABILITY_TABLE_CAPACITY -> next_generation k i = 0;
  cw_next : cm_issuers_initialized (k_cap k) = true ->
    forall i, 0 <= i < CAPABILITY_TABLE_CAPACITY ->
      1 <= next_generation k i <= CAPABILITY_GENERATION_MAX + 1;
  cw_table : forall t, t ∈ live_tables k -> table_ok k (tbl k t);
  cw_unique : forall t t' i, t ∈ live_tables k -> t' ∈ live_tables k -> t <> t' ->
    0 <= i < CAPABILITY_TABLE_CAPACITY ->
    s_generation (slot_at (tbl k t) i) = s_generation (slot_at (tbl k t') i) ->
    s_generation (slot_at (tbl k t) i) = 0;
  cw_refs : forall c, object_live k c = true -> ref_get k c = pins k c }.

(** * Slots of a table *)

Lemma slot_at_lookup tb i :
  length (c_slots tb) = Z.to_nat CAPABILITY_TABLE_CAPACITY -> 0 <= i < CAPABILITY_TABLE_CAPACITY ->
  c_slots tb !! Z.to_nat i = Some (slot_at tb i).
Proof.
  intros Hl Hi. unfold slot_at. destruct (lookup_lt_is_Some_2 (c_slots tb) (Z.to_nat i)) as [x Hx].
  - rewrite Hl. lia.
  - by rewrite Hx, (list_lookup_total_correct _ _ _ Hx).
Qed.

Lemma slot_at_set tb i j s :
  length (c_slots tb) = Z.to_nat CAPABILITY_TABLE_CAPACITY ->
  0 <= i < CAPABILITY_TABLE_CAPACITY -> 0 <= j ->
  slot_at (set_slot i s tb) j = if decide (i = j) then s else slot_at tb j.
Proof.
  intros Hl Hi Hj. unfold slot_at, set_slot. upd_simpl. case_decide as E.
  - subst j. apply list_lookup_total_insert_eq. rewrite Hl. lia.
  - apply list_lookup_total_insert_ne. lia.
Qed.

Lemma elem_of_slots tb s :
  length (c_slots tb) = Z.to_nat CAPABILITY_TABLE_CAPACITY ->
  s ∈ c_slots tb <-> exists i, 0 <= i < CAPABILITY_TABLE_CAPACITY /\ s = slot_at tb i.
Proof.
  intros Hl. rewrite list_elem_of_lookup. split.
  - intros [n Hn]. exists (Z.of_nat n). pose proof (lookup_lt_Some _ _ _ Hn).
    split; [lia|]. unfold slot_at. by rewrite Nat2Z.id, (list_lookup_total_correct _ _ _ Hn).
  - intros (i & Hi & ->). exists (Z.to_nat i). by apply slot_at_lookup.
Qed.

Lemma pins_nonneg k c : 0 <= pins k c.
Proof. apply sumZ_nonneg. intros. apply countb_nonneg. Qed.

Lemma table_pins_le k c t : t ∈ live_tables k -> table_pins k c t <= pins k c.
Proof. intros Ht. apply (sumZ_elem_le (table_pins k c)); [|done]. intros. apply countb_nonneg. Qed.

Lemma sumZ_bound {A} (f : A -> Z) l b :
  (forall x, x ∈ l -> f x <= b) -> sumZ f l <= b * Z.of_nat (length l).
Proof.
  induction l as [|x l IH]; intros H; cbn [sumZ foldr length]; [lia|].
  assert (f x <= b) by (apply H, elem_of_cons; auto).
  assert (sumZ f l <= b * Z.of_nat (length l)) by (apply IH; intros; apply H, elem_of_cons; auto).
  unfold sumZ in *. lia.
Qed.

(** A counter never nears its 64-bit limit. *)
Lemma pins_bound k c : cap_wf k -> 0 <= pins k c <= 16384.
Proof.
  intros Hw. split; [apply pins_nonneg|].
  etransitivity; [apply (sumZ_bound _ _ 64)|].
  - intros t Ht. etransitivity; [apply countb_le_length|].
    rewrite (to_length _ _ (cw_table _ Hw t Ht)). done.
  - assert (length (live_tables k) <= 256)%nat; [|lia].
    unfold live_tables, live. etransitivity; [apply List.filter_length_le|].
    pose proof (reg_length _ _ (cw_tables _ Hw)). unfold CAPABILITY_TABLE_STORAGE_CAPACITY in *. lia.
Qed.

Lemma table_live_wf k t : cap_wf k -> table_live k t = bool_decide (t ∈ live_tables k).
Proof. intros Hw. apply object_storage_find_live, Hw. Qed.

Lemma object_refs_live k o ty ins c id :
  object_refs k o ty ins = Some (c, id) -> c = (ty, o) /\ object_live k c = true.
Proof.
  unfold object_refs. destruct (nz o); [|done].
  destruct ty; cbn [negb]; intros H; try done;
    repeat (if_case_in H; try done); simplify_eq; bool_prop; (split; [done|]); cbn; try done.
  unfold device_resource_valid in *. bool_prop. by apply Z.ltb_lt.
Qed.

Lemma occupied_pinned k t i :
  cap_wf k -> t ∈ live_tables k -> 0 <= i < CAPABILITY_TABLE_CAPACITY ->
  s_occupied (slot_at (tbl k t) i) = true ->
  0 < table_pins k (slot_cell (slot_at (tbl k t) i)) t.
Proof.
  intros Hw Ht Hi Ho. apply countb_pos. exists (slot_at (tbl k t) i). split.
  - apply elem_of_slots; [apply (cw_table _ Hw t Ht)|eauto].
  - unfold slot_pins. rewrite Ho. by apply bool_decide_eq_true.
Qed.

(** Every occupied slot resolves to its object's counter. *)
Lemma slot_refs_wf k t i :
  cap_wf k -> t ∈ live_tables k -> 0 <= i < CAPABILITY_TABLE_CAPACITY ->
  s_occupied (slot_at (tbl k t) i) = true ->
  slot_refs k (slot_at (tbl k t) i) = Some (slot_cell (slot_at (tbl k t) i)).
Proof.
  intros Hw Ht Hi Ho.
  destruct (so_occupied _ _ _ (to_slots _ _ (cw_table _ Hw t Ht) i Hi) Ho) as (Hg & Hr & Hf & Hor).
  pose proof (occupied_pinned _ _ _ Hw Ht Hi Ho) as Hp.
  pose proof (table_pins_le k (slot_cell (slot_at (tbl k t) i)) t Ht) as Hle.
  destruct (object_refs_live _ _ _ _ _ _ Hor) as [_ Hlive].
  unfold slot_refs, nz. rewrite Ho, Hf, Hor, (cw_refs _ Hw _ Hlive), !Z.eqb_refl. simpl.
  destruct (Z.eqb_spec (s_generation (slot_at (tbl k t) i)) 0); [lia|].
  destruct (Z.eqb_spec (s_rights (slot_at (tbl k t) i)) 0); [done|].
  destruct (Z.eqb_spec (pins k (slot_cell (slot_at (tbl k t) i))) 0); [lia|done].
Qed.

Lemma slot_refs_occupied k s c : slot_refs k s = Some c -> s_occupied s = true.
Proof. unfold slot_refs. destruct (s_occupied s); done. Qed.

Lemma table_valid_wf k t : cap_wf k -> table_valid k t = bool_decide (t ∈ live_tables k).
Proof.
  intros Hw. unfold table_valid. rewrite table_live_wf by done.
  destruct (decide (t ∈ live_tables k)) as [Ht|Ht]; [|by rewrite bool_decide_eq_false_2].
  rewrite bool_decide_eq_true_2 by done.
  destruct (cw_table _ Hw t Ht) as [Hi Hl Hc Hs]. rewrite Hi. simpl.
  assert (c_count (tbl k t) <= CAPABILITY_TABLE_CAPACITY) as Hcap.
  { rewrite Hc. etransitivity; [apply countb_le_length|]. rewrite Hl. done. }
  destruct (Z.ltb_spec CAPABILITY_TABLE_CAPACITY (c_count (tbl k t))); [lia|].
  rewrite <- Hc, Z.eqb_refl, andb_true_r. apply forallb_forall. intros s Hin.
  apply list_elem_of_In, (elem_of_slots _ _ Hl) in Hin as (i & Hir & ->).
  destruct (s_occupied (slot_at (tbl k t) i)) eqn:Ho; [|by apply (Hs i Hir)].
  apply bool_decide_eq_true. rewrite (slot_refs_wf k t i) by done. eauto.
Qed.

(** What a handle resolves to. *)
Lemma resolve_slot_wf k t h i :
  cap_wf k ->
  resolve_slot k t h = Some i <->
  t ∈ live_tables k /\ i = u32 h /\ i < CAPABILITY_TABLE_CAPACITY /\
  s_generation (slot_at (tbl k t) i) = u32 (Z.shiftr h 32) /\
  s_occupied (slot_at (tbl k t) i) = true.
Proof.
  intros Hw. unfold resolve_slot. rewrite table_live_wf by done.
  assert (0 <= u32 h) as Hu by (unfold u32; apply Z.mod_pos_bound; lia).
  destruct (decide (t ∈ live_tables k)) as [Ht|Ht];
    [|by rewrite bool_decide_eq_false_2 by done; split; [|intros (? & _)]].
  rewrite bool_decide_eq_true_2, (to_init _ _ (cw_table _ Hw t Ht)) by done. cbn [negb orb andb].
  destruct (nz h) eqn:Hh; cbn [negb orb andb].
  2: { bool_prop. subst h. split; [done|]. intros (_ & -> & ? & Hg & Ho).
       destruct (so_occupied _ _ _ (to_slots _ _ (cw_table _ Hw t Ht) (u32 0) ltac:(lia)) Ho)
         as (Hp & _). rewrite Hg in Hp. by vm_compute in Hp. }
  destruct (Z.leb_spec CAPABILITY_TABLE_CAPACITY (u32 h)) as [Hc|Hc]; cbn [negb orb andb].
  { split; [done|]. intros (_ & -> & ? & _). lia. }
  destruct (nz (u32 (Z.shiftr h 32))) eqn:Hgen; bool_prop; cbn [negb orb andb].
  2: { split; [done|]. intros (_ & -> & ? & Hg & Ho).
       destruct (so_occupied _ _ _ (to_slots _ _ (cw_table _ Hw t Ht) (u32 h) ltac:(lia)) Ho). lia. }
  destruct (Z.eqb_spec (s_generation (slot_at (tbl k t) (u32 h))) (u32 (Z.shiftr h 32))) as [Hg|Hg].
  2: { cbn [negb orb andb]. split; [done|]. intros (_ & -> & ? & ? & _). done. }
  cbn [negb orb andb]. split.
  - destruct (slot_refs k _) eqn:Hs; [|done]. intros [= <-].
    repeat split; try done. by eapply slot_refs_occupied.
  - intros (_ & -> & _ & _ & Ho). by rewrite slot_refs_wf.
Qed.

(** * One slot changes

    Insertion and deletion both replace one slot of one live table and move the
    counters of the objects involved. *)

Record slot_change (k k' : Kernel) (t i : Z) (s' : CapabilitySlot) (next' : Z) : Prop := {
  sc_tables : cm_tables (k_cap k') = cm_tables (k_cap k);
  sc_issuers : cm_issuers_initialized (k_cap k') = cm_issuers_initialized (k_cap k);
  sc_next : cm_next_generation (k_cap k') = <[Z.to_nat i := next']> (cm_next_generation (k_cap k));
  sc_init : c_initialized (tbl k' t) = c_initialized (tbl k t);
  sc_slots : c_slots (tbl k' t) = <[Z.to_nat i := s']> (c_slots (tbl k t));
  sc_count : c_count (tbl k' t) =
    c_count (tbl k t) - Z.b2z (s_occupied (slot_at (tbl k t) i)) + Z.b2z (s_occupied s');
  sc_other : forall u, u <> t -> tbl k' u = tbl k u;
  sc_objects : forall o ty ins, object_refs k' o ty ins = object_refs k o ty ins;
  sc_live : forall c, object_live k' c = object_live k c;
  sc_refs : forall c, object_live k c = true ->
    ref_get k' c = ref_get k c - Z.b2z (slot_pins c (slot_at (tbl k t) i)) + Z.b2z (slot_pins c s') }.

Section Change.
  Context {k k' : Kernel} {t i : Z} {s' : CapabilitySlot} {next' : Z}.
  Hypothesis Hw : cap_wf k.
  Hypothesis Ht : t ∈ live_tables k.
  Hypothesis Hi : 0 <= i < CAPABILITY_TABLE_CAPACITY.
  Hypothesis Hsc : slot_change k k' t i s' next'.

Lemma sc_live_tables : live_tables k' = live_tables k.
Proof using Hsc. unfold live_tables. by rewrite (sc_tables _ _ _ _ _ _ Hsc). Qed.

Lemma sc_slot_at u j :
  0 <= j -> slot_at (tbl k' u) j = if decide (u = t /\ j = i) then s' else slot_at (tbl k u) j.
Proof using Hw Ht Hi Hsc.
  intros Hj. pose proof (to_length _ _ (cw_table _ Hw t Ht)) as Hl.
  case_decide as E.
  - destruct E as [-> ->]. unfold slot_at. rewrite (sc_slots _ _ _ _ _ _ Hsc).
    apply list_lookup_total_insert_eq. rewrite Hl. lia.
  - destruct (decide (u = t)) as [->|Hu]; [|by rewrite (sc_other _ _ _ _ _ _ Hsc)].
    unfold slot_at. rewrite (sc_slots _ _ _ _ _ _ Hsc).
    apply list_lookup_total_insert_ne. assert (j <> i) by tauto. lia.
Qed.

Lemma sc_next_generation j :
  0 <= j -> next_generation k' j = if decide (j = i) then next' else next_generation k j.
Proof using Hw Hi Hsc.
  intros Hj. unfold next_generation. rewrite (sc_next _ _ _ _ _ _ Hsc).
  pose proof (cw_issuers _ Hw). case_decide as E.
  - subst j. apply list_lookup_total_insert_eq. lia.
  - apply list_lookup_total_insert_ne. lia.
Qed.

Lemma sc_pins c :
  pins k' c = pins k c - Z.b2z (slot_pins c (slot_at (tbl k t) i)) + Z.b2z (slot_pins c s').
Proof using Hw Ht Hi Hsc.
  unfold pins. rewrite sc_live_tables.
  rewrite (sumZ_change (table_pins k c) (table_pins k' c) (live_tables k) t);
    [|apply (reg_nodup _ _ (cw_tables _ Hw))|done|].
  - unfold table_pins. rewrite (sc_slots _ _ _ _ _ _ Hsc).
    rewrite (countb_insert _ _ _ (slot_at (tbl k t) i)); [lia|].
    apply slot_at_lookup; [apply (cw_table _ Hw t Ht)|done].
  - intros u _ Hu. unfold table_pins. by rewrite (sc_other _ _ _ _ _ _ Hsc).
Qed.

Hypothesis Hnext : next_generation k i <= next' <= CAPABILITY_GENERATION_MAX + 1.
Hypothesis Hok : slot_ok k next' s'.
Hypothesis Hgen : s_generation s' = s_generation (slot_at (tbl k t) i) \/
                  s_generation s' = next_generation k i.

Lemma slot_ok_frame next s : slot_ok k next s -> slot_ok k' next s.
Proof using Hsc.
  intros [Hg Ho Hb]. split; [done| |done].
  rewrite (sc_objects _ _ _ _ _ _ Hsc). done.
Qed.

Lemma slot_ok_mono next next2 s : next <= next2 -> slot_ok k next s -> slot_ok k next2 s.
Proof using Type. intros Hn [Hg Ho Hb]. split; [lia|done|done]. Qed.

Lemma sc_warm : cm_issuers_initialized (k_cap k) = true.
Proof using Hw Ht.
  destruct (cm_issuers_initialized (k_cap k)) eqn:E; [done|].
  rewrite (cw_cold _ Hw E) in Ht. by apply not_elem_of_nil in Ht.
Qed.

Lemma sc_table_ok u : u ∈ live_tables k -> table_ok k' (tbl k' u).
Proof using Hw Ht Hi Hsc Hnext Hok.
  intros Hu. pose proof (cw_table _ Hw u Hu) as [Hin Hl Hc Hs].
  split.
  - destruct (decide (u = t)) as [->|]; [by rewrite (sc_init _ _ _ _ _ _ Hsc)|].
    by rewrite (sc_other _ _ _ _ _ _ Hsc).
  - destruct (decide (u = t)) as [->|]; [|by rewrite (sc_other _ _ _ _ _ _ Hsc)].
    by rewrite (sc_slots _ _ _ _ _ _ Hsc), length_insert.
  - destruct (decide (u = t)) as [->|]; [|by rewrite (sc_other _ _ _ _ _ _ Hsc)].
    rewrite (sc_count _ _ _ _ _ _ Hsc), (sc_slots _ _ _ _ _ _ Hsc), Hc.
    rewrite (countb_insert _ _ _ (slot_at (tbl k t) i)); [lia|by apply slot_at_lookup].
  - intros j Hj. rewrite sc_slot_at, sc_next_generation by lia. apply slot_ok_frame.
    case_decide as E; case_decide as E2; [done| |by destruct E2|].
    + subst j. eapply slot_ok_mono; [apply Hnext|by apply Hs].
    + by apply Hs.
Qed.

Lemma sc_unique_at u : u ∈ live_tables k -> u <> t ->
  s_generation s' = s_generation (slot_at (tbl k u) i) -> s_generation s' = 0.
Proof using Hw Ht Hi Hgen.
  intros Hu Hne Heq.
  pose proof (so_generation _ _ _ (to_slots _ _ (cw_table _ Hw u Hu) i Hi)).
  destruct Hgen as [Hg|Hg]; [|lia].
  rewrite Hg. apply (cw_unique _ Hw t u i); try done. congruence.
Qed.

Lemma slot_change_wf : cap_wf k'.
Proof using Hw Ht Hi Hsc Hnext Hok Hgen.
  split.
  - rewrite (sc_tables _ _ _ _ _ _ Hsc). apply Hw.
  - rewrite (sc_next _ _ _ _ _ _ Hsc), length_insert. apply Hw.
  - rewrite (sc_issuers _ _ _ _ _ _ Hsc), sc_warm. done.
  - rewrite (sc_issuers _ _ _ _ _ _ Hsc), sc_warm. done.
  - intros _ j Hj. rewrite sc_next_generation by lia.
    pose proof (cw_next _ Hw sc_warm j Hj). case_decide; subst; lia.
  - intros u Hu. rewrite sc_live_tables in Hu. by apply sc_table_ok.
  - intros u v j Hu Hv Hne Hj. rewrite sc_live_tables in Hu, Hv.
    rewrite !sc_slot_at by lia. case_decide as E; case_decide as E2.
    + destruct E, E2. congruence.
    + destruct E as [-> ->]. intros Heq. by apply (sc_unique_at v); [|congruence|].
    + destruct E2 as [-> ->]. intros Heq. rewrite Heq. by apply (sc_unique_at u).
    + by apply (cw_unique _ Hw).
  - intros c Hc. rewrite (sc_live _ _ _ _ _ _ Hsc) in Hc.
    rewrite (sc_refs _ _ _ _ _ _ Hsc), sc_pins by done. by rewrite (cw_refs _ Hw c Hc).
Qed.

End Change.

(** * Frame properties of the writes *)

Lemma ref_set_cap c v k : k_cap (ref_set c v k) = k_cap k.
Proof. by destruct c as [[] o]. Qed.

Lemma ref_set_tbl c v k u : tbl (ref_set c v k) u = tbl k u.
Proof. by destruct c as [[] o]. Qed.

Lemma ref_set_live c v k d : object_live (ref_set c v k) d = object_live k d.
Proof. by destruct c as [[] o], d as [[] p]. Qed.

Lemma ref_set_objects c v k o ty ins : object_refs (ref_set c v k) o ty ins = object_refs k o ty ins.
Proof.
  destruct c as [[] p]; [done| | | |]; destruct ty; try done;
    unfold object_refs, address_space_cr3, device_resource_valid, ref_set; cbn [fst snd].
  - rewrite !thr_set. case_decide; [subst p|done]. upd_simpl. done.
  - rewrite !spc_set. case_decide; [subst p|done]. upd_simpl. done.
  - rewrite !ept_set. case_decide; [subst p|done]. upd_simpl. done.
  - rewrite !rsc_set. case_decide; [subst p|done]. upd_simpl. done.
Qed.

Lemma ref_get_set c v k d :
  ref_get (ref_set c v k) d =
    if decide (c = d /\ c.1 <> CAPABILITY_TYPE_NONE) then v else ref_get k d.
Proof.
  destruct c as [cty p], d as [dty q].
  destruct cty, dty; unfold ref_get, ref_set; cbn [fst snd];
    rewrite ?thr_set, ?spc_set, ?ept_set, ?rsc_set; repeat case_decide; subst; try done;
    upd_simpl; try done; naive_solver.
Qed.

Lemma set_tbl_objects t f k o ty ins : object_refs (set_tbl t f k) o ty ins = object_refs k o ty ins.
Proof. done. Qed.

Lemma set_cm_objects f k o ty ins : object_refs (set_cm f k) o ty ins = object_refs k o ty ins.
Proof. done. Qed.

Lemma tbl_set_cm f k u : tbl (set_cm f k) u = tbl k u.
Proof. done. Qed.

Lemma set_tbl_live t f k c : object_live (set_tbl t f k) c = object_live k c.
Proof. done. Qed.

Lemma set_cm_live f k c : object_live (set_cm f k) c = object_live k c.
Proof. done. Qed.

Lemma ref_get_set_tbl t f k c : ref_get (set_tbl t f k) c = ref_get k c.
Proof. done. Qed.

Lemma ref_get_set_cm f k c : ref_get (set_cm f k) c = ref_get k c.
Proof. done. Qed.

Lemma slot_pins_cell s c : s_occupied s = true -> slot_pins c s = bool_decide (slot_cell s = c).
Proof. intros H. unfold slot_pins. by rewrite H. Qed.

Lemma object_live_typed k c : object_live k c = true -> c.1 <> CAPABILITY_TYPE_NONE.
Proof. by destruct c as [[] o]. Qed.

(** The counter of a live object moves with the slot that names it. *)
Lemma ref_get_moved c k v d :
  object_live k d = true ->
  ref_get (ref_set c v k) d = ref_get k d + Z.b2z (bool_decide (c = d)) * (v - ref_get k c).
Proof.
  intros Hd. apply object_live_typed in Hd. rewrite ref_get_set.
  case_decide as E; case_bool_decide as E2; cbn [Z.b2z]; [|naive_solver|naive_solver|lia].
  subst d. lia.
Qed.

(** * Deletion *)

Definition blank_slot (s : CapabilitySlot) : CapabilitySlot :=
  mkCapabilitySlot 0 0 0 (s_generation s) CAPABILITY_TYPE_NONE false.

Lemma next_generation_id k i :
  cap_wf k -> 0 <= i < CAPABILITY_TABLE_CAPACITY ->
  cm_next_generation (k_cap k) =
    <[Z.to_nat i := next_generation k i]> (cm_next_generation (k_cap k)).
Proof.
  intros Hw Hi. symmetry. apply list_insert_id. unfold next_generation.
  destruct (lookup_lt_is_Some_2 (cm_next_generation (k_cap k)) (Z.to_nat i)) as [x Hx].
  - rewrite (cw_issuers _ Hw). lia.
  - by rewrite Hx, (list_lookup_total_correct _ _ _ Hx).
Qed.

Lemma delete_slot_change k t i :
  cap_wf k -> t ∈ live_tables k -> 0 <= i < CAPABILITY_TABLE_CAPACITY ->
  s_occupied (slot_at (tbl k t) i) = true ->
  slot_change k (delete_slot t i k) t i (blank_slot (slot_at (tbl k t) i)) (next_generation k i).
Proof.
  intros Hw Ht Hi Ho. unfold delete_slot. rewrite slot_refs_wf by done.
  set (s := slot_at (tbl k t) i) in *. set (c := slot_cell s).
  pose proof (occupied_pinned _ _ _ Hw Ht Hi Ho) as Hp.
  destruct (so_occupied _ _ _ (to_slots _ _ (cw_table _ Hw t Ht) i Hi) Ho) as (_ & _ & _ & Hor).
  destruct (object_refs_live _ _ _ _ _ _ Hor) as [_ Hlive]. fold s in Hlive, Hp. fold c in Hlive, Hp.
  pose proof (table_pins_le k c t Ht) as Hle. pose proof (pins_bound k c Hw) as Hb.
  pose proof (cw_table _ Hw t Ht) as [_ Hl Hc _].
  assert (0 < c_count (tbl k t) <= 64) as Hcnt.
  { rewrite Hc. split.
    - apply countb_pos. exists s. split; [apply elem_of_slots; eauto|done].
    - etransitivity; [apply countb_le_length|]. rewrite Hl. done. }
  split; try done.
  - cbn. by rewrite ref_set_cap.
  - cbn. by rewrite ref_set_cap.
  - cbn. rewrite ref_set_cap. by apply next_generation_id.
  - rewrite !tbl_set, !decide_True, ref_set_tbl by done. done.
  - rewrite !tbl_set, !decide_True, ref_set_tbl by done. done.
  - rewrite !tbl_set, !decide_True, ref_set_tbl by done. unfold set_slot. upd_simpl.
    fold s. rewrite Ho. cbn [Z.b2z s_occupied blank_slot]. rewrite u32_id by lia. lia.
  - intros u Hu. by rewrite !tbl_set, !decide_False, ref_set_tbl by done.
  - intros. by rewrite !set_tbl_objects, ref_set_objects.
  - intros d. apply ref_set_live.
  - intros d Hd. fold s. rewrite (slot_pins_cell s) by done. fold c.
    rewrite !ref_get_set_tbl, ref_get_moved by done. rewrite (cw_refs _ Hw c Hlive).
    rewrite u64_id by (unfold is_u64; lia). cbn [slot_pins s_occupied blank_slot andb Z.b2z]. lia.
Qed.

Lemma blank_slot_ok k next s : slot_ok k next s -> slot_ok k next (blank_slot s).
Proof. intros [Hg _ _]. split; done. Qed.

Lemma delete_slot_wf k t i :
  cap_wf k -> t ∈ live_tables k -> 0 <= i < CAPABILITY_TABLE_CAPACITY ->
  s_occupied (slot_at (tbl k t) i) = true -> cap_wf (delete_slot t i k).
Proof.
  intros Hw Ht Hi Ho. pose proof (delete_slot_change _ _ _ Hw Ht Hi Ho) as Hsc.
  apply (slot_change_wf Hw Ht Hi Hsc).
  - assert (cm_issuers_initialized (k_cap k) = true) as Hwarm by (by apply (sc_warm (t := t))).
    pose proof (cw_next _ Hw Hwarm i Hi). lia.
  - by apply blank_slot_ok, (cw_table _ Hw t Ht).
  - by left.
Qed.

(** * Insertion *)

(** A slot index that can take a new capability. *)
Definition slot_available (k : Kernel) (t i : Z) : bool :=
  !s_occupied (slot_at (tbl k t) i) && nz (next_generation k i)
  && (next_generation k i <=? CAPABILITY_GENERATION_MAX).

Definition new_slot (k : Kernel) (i o : Z) (ty : CapabilityType) (rights id : Z) : CapabilitySlot :=
  mkCapabilitySlot o id rights (u32 (next_generation k i)) ty true.

Definition insert_commit (t i o : Z) (ty : CapabilityType) (rights : Z) (refs : RefCell) (id : Z)
    (k : Kernel) : Kernel :=
  let s := new_slot k i o ty rights id in
  let next := u64 (next_generation k i + 1) in
  let k := set_cm (fun m => m <| cm_next_generation :=
             <[Z.to_nat i := next]> (cm_next_generation m) |>) k in
  let k := set_tbl t (set_slot i s) k in
  let k := ref_set refs (u64 (ref_get k refs + 1)) k in
  set_tbl t (fun tb => tb <| c_count := u32 (c_count tb + 1) |>) k.

(** The scan takes the first available slot. *)
Lemma insert_scan_spec n i t o ty rights refs id k :
  0 <= i ->
  (exists j, i <= j < i + Z.of_nat n /\ slot_available k t j = true /\
    insert_scan n i t o ty rights refs id k =
      (Some (make_handle (u32 (next_generation k j)) j), insert_commit t j o ty rights refs id k)) \/
  ((forall j, i <= j < i + Z.of_nat n -> slot_available k t j = false) /\
    insert_scan n i t o ty rights refs id k = (None, k)).
Proof.
  revert i. induction n as [|n IH]; intros i Hi.
  - right. split; [intros; lia|done].
  - cbn [insert_scan]. destruct (slot_available k t i) eqn:Ha.
    + left. exists i. split; [lia|]. split; [done|]. unfold slot_available in Ha. bool_prop.
      rewrite H. unfold take_generation, nz.
      destruct (Z.eqb_spec (next_generation k i) 0); [done|]. cbn [negb orb].
      destruct (Z.ltb_spec CAPABILITY_GENERATION_MAX (next_generation k i)); [lia|done].
    + assert (insert_scan (S n) i t o ty rights refs id k =
              insert_scan n (i + 1) t o ty rights refs id k) as Hskip.
      { cbn [insert_scan]. unfold slot_available, take_generation in *.
        destruct (s_occupied _); [done|]. cbn [negb andb] in Ha.
        destruct (nz _); [|done]. cbn [andb] in Ha. cbn [negb orb].
        rewrite Z.leb_antisym in Ha. apply negb_false_iff in Ha. by rewrite Ha. }
      cbn [insert_scan] in Hskip. rewrite Hskip.
      destruct (IH (i + 1) ltac:(lia)) as [(j & Hj & Hav & Heq)|[Hno Heq]].
      * left. exists j. split; [lia|done].
      * right. split; [|done].
        intros j Hj. destruct (decide (j = i)) as [->|]; [done|apply Hno; lia].
Qed.

Section Insert.
  Context (k : Kernel) (t i o : Z) (ty : CapabilityType) (rights : Z) (id : Z).
  Hypothesis Hw : cap_wf k.
  Hypothesis Ht : t ∈ live_tables k.
  Hypothesis Hi : 0 <= i < CAPABILITY_TABLE_CAPACITY.
  Hypothesis Hav : slot_available k t i = true.
  Hypothesis Hor : object_refs k o ty false = Some ((ty, o), id).
  Hypothesis Hr : rights <> 0 /\ foreign_rights rights = 0.

Lemma insert_generation :
  1 <= next_generation k i <= CAPABILITY_GENERATION_MAX /\
  u32 (next_generation k i) = next_generation k i.
Proof using Hw Ht Hi Hav.
  unfold slot_available in Hav. bool_prop.
  assert (cm_issuers_initialized (k_cap k) = true) as Hwarm by (by apply (sc_warm (t := t))).
  pose proof (cw_next _ Hw Hwarm i Hi). unfold CAPABILITY_GENERATION_MAX in *.
  split; [lia|]. apply u32_id. lia.
Qed.

Lemma insert_commit_change :
  slot_change k (insert_commit t i o ty rights (ty, o) id k) t i (new_slot k i o ty rights id)
    (next_generation k i + 1).
Proof using Hw Ht Hi Hav Hor.
  pose proof insert_generation as [Hg _].
  assert (s_occupied (slot_at (tbl k t) i) = false) as Hfree
    by (unfold slot_available in Hav; by bool_prop).
  destruct (object_refs_live _ _ _ _ _ _ Hor) as [_ Hlive].
  pose proof (pins_bound k (ty, o) Hw) as Hb.
  pose proof (cw_table _ Hw t Ht) as [_ Hl Hc _].
  assert (0 <= c_count (tbl k t) <= 64) as Hcnt.
  { rewrite Hc. split; [apply countb_nonneg|].
    etransitivity; [apply countb_le_length|]. rewrite Hl. done. }
  unfold CAPABILITY_GENERATION_MAX in *.
  unfold insert_commit. split; try done.
  - cbn. by rewrite ref_set_cap.
  - cbn. by rewrite ref_set_cap.
  - cbn. rewrite ref_set_cap. cbn. by rewrite u64_id by (unfold is_u64; lia).
  - rewrite !tbl_set, !decide_True, ref_set_tbl, tbl_set, decide_True by done. done.
  - rewrite !tbl_set, !decide_True, ref_set_tbl, tbl_set, decide_True by done. done.
  - rewrite !tbl_set, !decide_True, ref_set_tbl, tbl_set, decide_True by done.
    unfold set_slot, set_cm. rewrite Hfree. upd_simpl.
    change (tbl (upd k_cap _ k) t) with (tbl k t). cbn [Z.b2z s_occupied new_slot].
    rewrite u32_id by lia. lia.
  - intros u Hu. by rewrite !tbl_set, !decide_False, ref_set_tbl, tbl_set, decide_False by done.
  - intros. by rewrite !set_tbl_objects, ref_set_objects.
  - intros d. by rewrite set_tbl_live, ref_set_live.
  - intros d Hd. rewrite ref_get_set_tbl, ref_get_moved by done.
    rewrite !ref_get_set_tbl, !ref_get_set_cm, (cw_refs _ Hw (ty, o) Hlive).
    unfold slot_pins at 1. rewrite Hfree. rewrite (slot_pins_cell (new_slot _ _ _ _ _ _)) by done.
    rewrite u64_id by (unfold is_u64; lia). cbn [andb Z.b2z].
    change (slot_cell (new_slot k i o ty rights id)) with (ty, o). lia.
Qed.

Lemma insert_commit_wf : cap_wf (insert_commit t i o ty rights (ty, o) id k).
Proof using Hw Ht Hi Hav Hor Hr.
  pose proof insert_generation as [Hg Hu]. destruct Hr as [Hr1 Hr2].
  apply (slot_change_wf Hw Ht Hi insert_commit_change); [lia| |].
  - unfold new_slot. split; cbn; rewrite ?Hu; [lia| |done]. intros _. repeat split; [lia|done..].
  - right. cbn. done.
Qed.

End Insert.

Lemma object_refs_inserting k o ty c id :
  object_refs k o ty true = Some (c, id) -> object_refs k o ty false = Some (c, id).
Proof.
  unfold object_refs. destruct (nz o); [|done]. cbn [negb].
  destruct ty; try done; cbn [andb]; intros H; repeat (if_case_in H; try done); done.
Qed.

(** What [capability_insert] returns on every branch. *)
Lemma capability_insert_spec k t o ty rights :
  cap_wf k ->
  (exists i id, t ∈ live_tables k /\ 0 <= i < CAPABILITY_TABLE_CAPACITY /\
     slot_available k t i = true /\ object_refs k o ty true = Some ((ty, o), id) /\
     rights <> 0 /\ foreign_rights rights = 0 /\
     capability_insert t o ty rights k =
       (Some (make_handle (next_generation k i) i), insert_commit t i o ty rights (ty, o) id k)) \/
  (capability_insert t o ty rights k = (None, k) /\
   (t ∉ live_tables k \/ rights = 0 \/ foreign_rights rights <> 0 \/ object_refs k o ty true = None \/
    forall i, 0 <= i < CAPABILITY_TABLE_CAPACITY -> slot_available k t i = false)).
Proof.
  intros Hw. unfold capability_insert. rewrite table_valid_wf by done.
  destruct (decide (t ∈ live_tables k)) as [Ht|Ht];
    [|right; rewrite bool_decide_eq_false_2 by done; by auto].
  rewrite bool_decide_eq_true_2 by done. cbn [negb orb].
  destruct (object_refs k o ty true) as [[c id]|] eqn:Hor.
  2: { right. split; [by if_case|auto]. }
  destruct (object_refs_live _ _ _ _ _ _ Hor) as [-> Hlive].
  pose proof (object_live_typed _ _ Hlive) as Hty. cbn in Hty.
  assert (type_valid ty = true) as -> by (by destruct ty). cbn [negb orb].
  destruct (nz rights) eqn:Hr; bool_prop; [|right; auto]. cbn [negb orb].
  destruct (nz (foreign_rights rights)) eqn:Hf; bool_prop; [right; auto|]. cbn [orb].
  destruct (cw_table _ Hw t Ht) as [_ Hl Hc _].
  destruct (Z.eqb_spec (c_count (tbl k t)) CAPABILITY_TABLE_CAPACITY) as [Hfull|Hfull].
  { right. split; [done|]. do 4 right. intros i Hi. unfold slot_available.
    assert (s_occupied (slot_at (tbl k t) i) = true) as ->; [|done].
    apply (countb_all s_occupied (c_slots (tbl k t))); [rewrite Hl, <- Hc, Hfull; done|].
    apply elem_of_slots; eauto. }
  rewrite (cw_refs _ Hw _ Hlive). pose proof (pins_bound k (ty, o) Hw).
  destruct (Z.eqb_spec (pins k (ty, o)) U64_MAX); [unfold U64_MAX in *; lia|].
  destruct (insert_scan_spec (Z.to_nat CAPABILITY_TABLE_CAPACITY) 0 t o ty rights (ty, o) id k)
    as [(j & Hj & Hav & ->)|[Hno ->]]; [lia| |].
  - left. exists j, id. assert (0 <= j < CAPABILITY_TABLE_CAPACITY) by lia.
    rewrite (proj2 (insert_generation k t j Hw Ht ltac:(done) Hav)).
    split_and!; try done; lia.
  - right. split; [done|]. do 4 right. intros i Hi. apply Hno. lia.
Qed.

(** * Deleting many slots *)

(** [k'] is [k] with the slots of table [t] chosen by [p] cleared. *)
Record slots_cleared (k k' : Kernel) (t : Z) (p : Z -> bool) : Prop := {
  cl_wf : cap_wf k';
  cl_cap : k_cap k' = k_cap k;
  cl_slots : forall u j, 0 <= j < CAPABILITY_TABLE_CAPACITY ->
    slot_at (tbl k' u) j =
      if decide (u = t /\ p j = true) then blank_slot (slot_at (tbl k u) j) else slot_at (tbl k u) j;
  cl_objects : forall o ty ins, object_refs k' o ty ins = object_refs k o ty ins;
  cl_live : forall c, object_live k' c = object_live k c }.

Lemma delete_slot_cap t i k : k_cap (delete_slot t i k) = k_cap k.
Proof.
  unfold delete_slot. destruct (slot_refs _ _); [|done].
  cbn. by rewrite ref_set_cap.
Qed.

Lemma delete_slot_cleared k t i :
  cap_wf k -> t ∈ live_tables k -> 0 <= i < CAPABILITY_TABLE_CAPACITY ->
  s_occupied (slot_at (tbl k t) i) = true ->
  slots_cleared k (delete_slot t i k) t (fun j => j =? i).
Proof.
  intros Hw Ht Hi Ho. pose proof (delete_slot_change _ _ _ Hw Ht Hi Ho) as Hsc. split.
  - by apply delete_slot_wf.
  - apply delete_slot_cap.
  - intros u j Hj. rewrite (sc_slot_at Hw Ht Hi Hsc) by lia.
    destruct (decide (u = t /\ j = i)) as [[-> ->]|Hne].
    + rewrite decide_True; [done|]. by rewrite Z.eqb_refl.
    + rewrite decide_False; [done|]. intros [-> He]. apply Z.eqb_eq in He. naive_solver.
  - apply (sc_objects _ _ _ _ _ _ Hsc).
  - apply (sc_live _ _ _ _ _ _ Hsc).
Qed.

Lemma slots_cleared_refl k t : cap_wf k -> slots_cleared k k t (fun _ => false).
Proof. intros Hw. split; try done. intros. by rewrite decide_False by naive_solver. Qed.

Lemma slots_cleared_trans k k1 k2 t p q r :
  slots_cleared k k1 t p -> slots_cleared k1 k2 t q ->
  (forall j, 0 <= j < CAPABILITY_TABLE_CAPACITY -> r j = p j || q j) ->
  slots_cleared k k2 t r.
Proof.
  intros [_ Hc1 Hs1 Ho1 Hl1] [Hw Hc2 Hs2 Ho2 Hl2] Hr. split; [done|congruence| | |].
  - intros u j Hj. rewrite (Hs2 u j Hj), (Hs1 u j Hj), (Hr j Hj).
    destruct (p j), (q j); cbn [orb]; repeat case_decide; done || naive_solver.
  - intros. by rewrite Ho2, Ho1.
  - intros. by rewrite Hl2, Hl1.
Qed.

Lemma slot_selected_occupied o ty all s : slot_selected o ty all s = true -> s_occupied s = true.
Proof. unfold slot_selected. by destruct (s_occupied s). Qed.

Lemma slot_selected_blank o ty all s : slot_selected o ty all (blank_slot s) = false.
Proof. done. Qed.

Lemma delete_loop_cleared n k t o ty all :
  cap_wf k -> t ∈ live_tables k -> 0 <= n <= CAPABILITY_TABLE_CAPACITY ->
  slots_cleared k
    (foldl (fun k i => if slot_selected o ty all (slot_at (tbl k t) i) then delete_slot t i k else k)
       k (seqZ 0 n)) t
    (fun j => (j <? n) && slot_selected o ty all (slot_at (tbl k t) j)).
Proof.
  intros Hw Ht [Hn0 Hn]. revert n Hn0 Hn. refine (natlike_ind _ _ _).
  - intros _. eapply slots_cleared_trans; [by apply slots_cleared_refl|by apply slots_cleared_refl|].
    intros j Hj. by destruct (Z.ltb_spec j 0); [lia|].
  - intros n Hn IH Hs. unfold Z.succ in *. specialize (IH ltac:(lia)).
    rewrite seqZ_snoc, foldl_app by done. cbn [foldl].
    set (k1 := foldl _ k (seqZ 0 n)) in *.
    assert (slot_at (tbl k1 t) n = slot_at (tbl k t) n) as Heq.
    { rewrite (cl_slots _ _ _ _ IH) by lia. rewrite decide_False; [done|].
      rewrite Z.ltb_irrefl. naive_solver. }
    rewrite Heq. destruct (slot_selected o ty all (slot_at (tbl k t) n)) eqn:Hsel.
    + assert (t ∈ live_tables k1) by (unfold live_tables; by rewrite (cl_cap _ _ _ _ IH)).
      eapply slots_cleared_trans; [exact IH|apply delete_slot_cleared; try done|].
      * apply (cl_wf _ _ _ _ IH).
      * lia.
      * rewrite Heq. by eapply slot_selected_occupied.
      * intros j Hj. destruct (Z.ltb_spec j (n + 1)), (Z.ltb_spec j n), (Z.eqb_spec j n);
          try lia; cbn [andb orb]; subst; rewrite ?orb_false_r; try done.
    + eapply slots_cleared_trans; [exact IH|apply slots_cleared_refl, (cl_wf _ _ _ _ IH)|].
      intros j Hj. destruct (Z.ltb_spec j (n + 1)), (Z.ltb_spec j n); try lia;
        cbn [andb orb]; rewrite ?orb_false_r; try done.
      by assert (j = n) as -> by lia.
Qed.

(** The multiplicity check of [delete_selected] never fails. *)
Lemma delete_selected_spec k t o ty all :
  cap_wf k ->
  (t ∈ live_tables k /\ exists k', delete_selected t o ty all k = (true, k') /\
     slots_cleared k k' t (fun j => slot_selected o ty all (slot_at (tbl k t) j))) \/
  (t ∉ live_tables k /\ delete_selected t o ty all k = (false, k)).
Proof.
  intros Hw. unfold delete_selected. rewrite table_valid_wf by done.
  destruct (decide (t ∈ live_tables k)) as [Ht|Ht];
    [|right; by rewrite bool_decide_eq_false_2 by done].
  left. split; [done|]. rewrite bool_decide_eq_true_2 by done. cbn [negb].
  assert (forall b (k1 k2 : Kernel), b = true -> (if negb b then (false, k1) else (true, k2)) = (true, k2)) as Hif
    by (by intros [] ?).
  rewrite Hif.
  - eexists. split; [done|].
    pose proof (delete_loop_cleared CAPABILITY_TABLE_CAPACITY k t o ty all Hw Ht ltac:(done)) as Hcl.
    refine (slots_cleared_trans _ _ _ _ _ _ _ Hcl (slots_cleared_refl _ _ (cl_wf _ _ _ _ Hcl)) _).
    intros j Hj. destruct (Z.ltb_spec j CAPABILITY_TABLE_CAPACITY); [|lia].
    by rewrite orb_false_r.
  - apply forallb_forall. intros s Hs.
    apply list_elem_of_In, (elem_of_slots _ _ (to_length _ _ (cw_table _ Hw t Ht))) in Hs
      as (i & Hi & ->).
    destruct (slot_selected _ _ _ _) eqn:Hsel; [|done]. cbn [negb].
    apply slot_selected_occupied in Hsel as Hocc. rewrite slot_refs_wf by done.
    destruct (so_occupied _ _ _ (to_slots _ _ (cw_table _ Hw t Ht) i Hi) Hocc) as (_ & _ & _ & Hor).
    destruct (object_refs_live _ _ _ _ _ _ Hor) as [_ Hlive].
    rewrite (cw_refs _ Hw _ Hlive). apply negb_true_iff, Z.ltb_ge.
    etransitivity; [|apply (table_pins_le k _ t Ht)]. unfold table_pins.
    rewrite (countb_ext _ (slot_pins (slot_cell (slot_at (tbl k t) i)))); [done|].
    intros x _. unfold same_object, slot_pins, slot_cell.
    destruct (s_occupied x); [|done]. cbn [andb].
    destruct (Z.eqb_spec (s_object x) (s_object (slot_at (tbl k t) i))) as [He|He]; cbn [andb].
    + apply bool_decide_ext. rewrite He. split; congruence.
    + symmetry. apply bool_decide_eq_false. congruence.
Qed.

(** * Creating and destroying tables *)

Definition fresh_table : CapabilityTable := table_zero <| c_initialized := true |>.

Lemma slot_at_fresh i : slot_at fresh_table i = slot_zero.
Proof.
  unfold slot_at, fresh_table. upd_simpl. cbn [c_slots table_zero].
  destruct (decide (Z.to_nat i < Z.to_nat CAPABILITY_TABLE_CAPACITY)%nat) as [H|H].
  - by apply lookup_total_replicate_2.
  - rewrite list_lookup_total_alt, (proj1 (lookup_replicate_None _ _ _)) by lia. done.
Qed.

Lemma table_pins_fresh k c t : tbl k t = fresh_table -> table_pins k c t = 0.
Proof. intros H. unfold table_pins. rewrite H. by apply countb_replicate_false. Qed.

Lemma pins_perm k k' c t :
  live_tables k' ≡ₚ t :: live_tables k -> t ∉ live_tables k ->
  (forall u, u <> t -> tbl k' u = tbl k u) -> pins k' c = table_pins k' c t + pins k c.
Proof.
  intros Hp Ht Hu. unfold pins. rewrite (sumZ_perm _ _ _ Hp). cbn. f_equal.
  apply sumZ_ext. intros u Hin. unfold table_pins. rewrite Hu; [done|]. by intros ->.
Qed.

(** [k'] is [k] with the empty table [t] registered. *)
Record table_added (k k' : Kernel) (t : Z) : Prop := {
  ta_wf : cap_wf k';
  ta_tables : live_tables k' ≡ₚ t :: live_tables k;
  ta_fresh : tbl k' t = fresh_table;
  ta_other : forall u, u <> t -> tbl k' u = tbl k u;
  ta_next : forall i, 0 <= i < CAPABILITY_TABLE_CAPACITY ->
    next_generation k' i = Z.max 1 (next_generation k i);
  ta_objects : forall o ty ins, object_refs k' o ty ins = object_refs k o ty ins;
  ta_live : forall c, object_live k' c = object_live k c }.

Lemma next_warm k i :
  cap_wf k -> 0 <= i < CAPABILITY_TABLE_CAPACITY ->
  0 <= next_generation k i <= CAPABILITY_GENERATION_MAX + 1.
Proof.
  intros Hw Hi. destruct (cm_issuers_initialized (k_cap k)) eqn:E.
  - pose proof (cw_next _ Hw E i Hi). lia.
  - rewrite (cw_cold_next _ Hw E i Hi). unfold CAPABILITY_GENERATION_MAX. lia.
Qed.

Lemma table_added_wf k k' t :
  cap_wf k -> t ∉ live_tables k ->
  registry CAPABILITY_TABLE_STORAGE_CAPACITY (cm_tables (k_cap k')) ->
  length (cm_next_generation (k_cap k')) = Z.to_nat CAPABILITY_TABLE_CAPACITY ->
  cm_issuers_initialized (k_cap k') = true ->
  live_tables k' ≡ₚ t :: live_tables k -> tbl k' t = fresh_table ->
  (forall u, u <> t -> tbl k' u = tbl k u) ->
  (forall i, 0 <= i < CAPABILITY_TABLE_CAPACITY ->
    next_generation k' i = Z.max 1 (next_generation k i)) ->
  (forall o ty ins, object_refs k' o ty ins = object_refs k o ty ins) ->
  (forall c, object_live k' c = object_live k c) ->
  (forall c, ref_get k' c = ref_get k c) -> table_added k k' t.
Proof.
  intros Hw Ht Hreg Hlen Hwarm Hp Hf Ho Hn Hobj Hlive Href. split; try done. split; try done.
  - by rewrite Hwarm.
  - by rewrite Hwarm.
  - intros _ i Hi. rewrite Hn by done. pose proof (next_warm k i Hw Hi).
    unfold CAPABILITY_GENERATION_MAX in *. lia.
  - intros u Hu. rewrite Hp in Hu. apply elem_of_cons in Hu as [->|Hu].
    + rewrite Hf. split; [done|done|done|]. intros i Hi. rewrite slot_at_fresh, Hn by done.
      split; cbn; [lia|done|done].
    + assert (u <> t) by congruence. rewrite Ho by done.
      destruct (cw_table _ Hw u Hu) as [Hi Hl Hc Hs]. split; [done|done|done|].
      intros i Hir. destruct (Hs i Hir) as [Hg Hocc Hb]. rewrite Hn by done.
      split; [lia| |done]. by rewrite Hobj.
  - intros u v i Hu Hv Hne Hi Heq. rewrite Hp in Hu, Hv.
    apply elem_of_cons in Hu as [->|Hu]; [by rewrite Hf, slot_at_fresh|].
    apply elem_of_cons in Hv as [->|Hv].
    + rewrite Heq. by rewrite Hf, slot_at_fresh.
    + assert (u <> t) by congruence. assert (v <> t) by congruence. rewrite !Ho in * by done.
      by apply (cw_unique _ Hw u v).
  - intros c Hc. rewrite Hlive in Hc.
    rewrite Href, (cw_refs _ Hw c Hc), (pins_perm k k' c t), table_pins_fresh by done. lia.
Qed.

Lemma capability_table_init_spec k t :
  cap_wf k ->
  (t <> 0 /\ t ∉ live_tables k /\
   exists k', capability_table_init t k = (true, k') /\ table_added k k' t) \/
  (capability_table_init t k = (false, k) /\
   (t = 0 \/ t ∈ live_tables k \/
    capability_table_object_count k = CAPABILITY_TABLE_STORAGE_CAPACITY)).
Proof.
  intros Hw. unfold capability_table_init. rewrite table_live_wf by done.
  destruct (nz t) eqn:Hz; bool_prop; cbn [negb]; [|right; auto].
  destruct (decide (t ∈ live_tables k)) as [Ht|Ht];
    [right; rewrite bool_decide_eq_true_2 by done; auto|].
  rewrite bool_decide_eq_false_2 by done. cbn [negb andb].
  pose proof (cw_tables _ Hw) as Hreg. pose proof (object_storage_empty_le _ _ Hreg) as Hle.
  destruct (Z.ltb_spec (object_storage_empty (cm_tables (k_cap k)) CAPABILITY_TABLE_STORAGE_CAPACITY)
    CAPABILITY_TABLE_STORAGE_CAPACITY) as [Hs|Hs].
  2: { right. split; [done|]. right; right. by apply object_storage_full; [|lia]. }
  left. split; [done|]. split; [done|]. eexists. split; [done|].
  destruct (storage_register _ _ t Hreg ltac:(lia) Hz Ht) as [Hreg' Hp].
  destruct (cm_issuers_initialized (k_cap k)) eqn:Hwarm; apply table_added_wf; try done.
  - apply Hw.
  - by rewrite tbl_set_cm, tbl_set, decide_True.
  - intros u Hu. by rewrite tbl_set_cm, tbl_set, decide_False.
  - intros i Hi. pose proof (cw_next _ Hw Hwarm i Hi).
    change (next_generation k i = Z.max 1 (next_generation k i)). lia.
  - by rewrite tbl_set_cm, tbl_set, decide_True.
  - intros u Hu. by rewrite tbl_set_cm, tbl_set, decide_False.
  - intros i Hi. rewrite (cw_cold_next _ Hw Hwarm i Hi). unfold next_generation. cbn.
    apply (lookup_total_replicate_2 (Z.to_nat CAPABILITY_TABLE_CAPACITY) 1 (Z.to_nat i)). lia.
Qed.

(** [k'] is [k] with the empty table [t] released. *)
Record table_removed (k k' : Kernel) (t : Z) : Prop := {
  tr_wf : cap_wf k';
  tr_tables : live_tables k ≡ₚ t :: live_tables k';
  tr_gone : t ∉ live_tables k';
  tr_empty : c_count (tbl k t) = 0;
  tr_other : forall u, u <> t -> tbl k' u = tbl k u;
  tr_next : cm_next_generation (k_cap k') = cm_next_generation (k_cap k);
  tr_objects : forall o ty ins, object_refs k' o ty ins = object_refs k o ty ins;
  tr_live : forall c, object_live k' c = object_live k c }.

Lemma count_zero_free k t i :
  cap_wf k -> t ∈ live_tables k -> c_count (tbl k t) = 0 -> 0 <= i < CAPABILITY_TABLE_CAPACITY ->
  s_occupied (slot_at (tbl k t) i) = false.
Proof.
  intros Hw Ht Hc Hi. destruct (s_occupied (slot_at (tbl k t) i)) eqn:Ho; [|done].
  destruct (cw_table _ Hw t Ht) as [_ Hl Hcnt _].
  assert (0 < countb s_occupied (c_slots (tbl k t))); [|lia].
  apply countb_pos. exists (slot_at (tbl k t) i). split; [apply elem_of_slots; eauto|done].
Qed.

Lemma capability_table_destroy_spec k t :
  cap_wf k ->
  (t ∈ live_tables k /\ exists k', capability_table_destroy t k = (true, k') /\ table_removed k k' t) \/
  (capability_table_destroy t k = (false, k) /\ (t ∉ live_tables k \/ c_count (tbl k t) <> 0)).
Proof.
  intros Hw. unfold capability_table_destroy. rewrite table_valid_wf by done.
  destruct (decide (t ∈ live_tables k)) as [Ht|Ht];
    [|right; rewrite bool_decide_eq_false_2 by done; by auto].
  rewrite bool_decide_eq_true_2 by done. cbn [andb].
  destruct (Z.eqb_spec (c_count (tbl k t)) 0) as [Hc|Hc]; [|by right; auto].
  left. split; [done|]. eexists. split; [done|]. set (k' := set_tbl t _ _).
  destruct (storage_release _ _ t (cw_tables _ Hw) Ht) as (Hreg & Hp & Hn).
  assert (forall u, u <> t -> tbl k' u = tbl k u) as Ho.
  { intros u Hu. unfold k'. by rewrite tbl_set, decide_False. }
  assert (live_tables k ≡ₚ t :: live_tables k') as Hlt by done.
  assert (cm_issuers_initialized (k_cap k) = true) as Hwarm by (by apply (sc_warm (t := t))).
  assert (forall u, u ∈ live_tables k' -> u ∈ live_tables k /\ u <> t) as Hin.
  { intros u Hu. split; [rewrite Hlt; apply elem_of_cons; auto|]. intros ->. done. }
  split; try done. split; try done.
  - apply Hw.
  - change (cm_issuers_initialized (k_cap k) = false -> live_tables k' = []). by rewrite Hwarm.
  - apply Hw.
  - apply Hw.
  - intros u Hu. apply Hin in Hu as [Hu Hne]. rewrite Ho by done.
    destruct (cw_table _ Hw u Hu) as [? ? ? Hs]. split; try done.
    intros i Hi. destruct (Hs i Hi). by split.
  - intros u v i Hu Hv Hne Hi. apply Hin in Hu as [Hu ?]. apply Hin in Hv as [Hv ?].
    rewrite !Ho by done. by apply (cw_unique _ Hw).
  - intros c Hcl. change (ref_get k c = pins k' c). rewrite (cw_refs _ Hw c Hcl).
    rewrite (pins_perm k' k c t) by (done || (intros u Hu; symmetry; by apply Ho)).
    cut (table_pins k c t = 0); [lia|]. unfold table_pins.
    destruct (decide (0 < countb (slot_pins c) (c_slots (tbl k t)))) as [Hpos|Hpos].
    + apply countb_pos in Hpos as (s & Hs & Hps). unfold slot_pins in Hps.
      apply (elem_of_slots _ _ (to_length _ _ (cw_table _ Hw t Ht))) in Hs as (i & Hi & ->).
      rewrite (count_zero_free k t i) in Hps by done. done.
    + pose proof (countb_nonneg (slot_pins c) (c_slots (tbl k t))). lia.
Qed.
