(* ===== verification/CapabilityRefine.v ===== *)
(** What the capability layer promises its clients, and that it keeps it.

    The promise is an abstract store of authority: a set of tables, a partial
    map from (table, handle) to the granted object and rights, and the set of
    handles ever issued. *)

From S2P Require Import Prelude Pmm ObjectStorage Kernel Objects Capability CapabilityProofs.

Open Scope jcos_scope.

(** * Handles *)

Definition handle_index (h : Z) : Z := u32 h.

Definition handle_generation (h : Z) : Z := u32 (Z.shiftr h 32).

Lemma make_handle_arith g i :
  0 <= g < 2 ^ 32 -> 0 <= i < 2 ^ 32 -> make_handle g i = g * 2 ^ 32 + i.
Proof.
  intros Hg Hi. unfold make_handle. rewrite Z.shiftl_mul_pow2 by lia.
  symmetry. rewrite <- Z.add_lor_land.
  assert (Z.land (g * 2 ^ 32) i = 0) as ->; [|lia].
  apply Z.bits_inj'. intros n Hn. rewrite Z.land_spec, Z.bits_0.
  destruct (Z.ltb_spec n 32) as [Hlt|Hge].
  - by rewrite Z.mul_pow2_bits_low by lia.
  - rewrite andb_comm. rewrite <- (Z.mod_small i (2 ^ 32)) by lia.
    by rewrite Z.mod_pow2_bits_high by lia.
Qed.

Lemma handle_index_make g i :
  0 <= g < 2 ^ 32 -> 0 <= i < 2 ^ 32 -> handle_index (make_handle g i) = i.
Proof.
  intros Hg Hi. rewrite make_handle_arith by done. unfold handle_index, u32.
  rewrite Z.add_comm, Z_mod_plus_full. by apply Z.mod_small.
Qed.

Lemma handle_generation_make g i :
  0 <= g < 2 ^ 32 -> 0 <= i < 2 ^ 32 -> handle_generation (make_handle g i) = g.
Proof.
  intros Hg Hi. rewrite make_handle_arith by done. unfold handle_generation, u32.
  rewrite Z.shiftr_div_pow2, Z.div_add_l, (Z.div_small i), Z.add_0_r by lia. by apply Z.mod_small.
Qed.

Lemma make_handle_u64 g i : 0 <= g < 2 ^ 32 -> 0 <= i < 2 ^ 32 -> is_u64 (make_handle g i).
Proof. intros Hg Hi. rewrite make_handle_arith by done. unfold is_u64. nia. Qed.

Lemma handle_inj h h' :
  is_u64 h -> is_u64 h' -> handle_index h = handle_index h' ->
  handle_generation h = handle_generation h' -> h = h'.
Proof.
  unfold is_u64, handle_index, handle_generation, u32. intros Hh Hh' Hi Hg.
  rewrite !Z.shiftr_div_pow2 in Hg by lia.
  rewrite !(Z.mod_small (_ / _)) in Hg by (split; [apply Z.div_pos|apply Z.div_lt_upper_bound]; lia).
  rewrite (Z.div_mod h (2 ^ 32)), (Z.div_mod h' (2 ^ 32)) by lia. congruence.
Qed.

Lemma handle_index_range h : 0 <= handle_index h < 2 ^ 32.
Proof. unfold handle_index, u32. apply Z.mod_pos_bound. lia. Qed.

Lemma handle_generation_range h : 0 <= handle_generation h < 2 ^ 32.
Proof. unfold handle_generation, u32. apply Z.mod_pos_bound. lia. Qed.

(** * The abstract store *)

Record Grant := mkGrant { g_object : Z; g_type : CapabilityType; g_id : Z; g_rights : Z }.

Record Authority := mkAuthority {
  au_table : Z -> Prop;
  au_grant : Z -> Z -> option Grant;
  au_issued : Z -> Prop }.

(** The object a grant yields to a request for a type and rights. *)
Definition grant_serves (ty : CapabilityType) (rights : Z) (g : Grant) : option Z :=
  if type_valid ty && !nz (foreign_rights rights) && bool_decide (g_type g = ty)
     && (Z.land (g_rights g) rights =? rights) then Some (g_object g) else None.

Inductive CapCall :=
  | CInit (t : Z)
  | CDestroy (t : Z)
  | CInsert (t o : Z) (ty : CapabilityType) (rights : Z)
  | CLookup (t h : Z) (ty : CapabilityType) (rights : Z)
  | CRevoke (t h : Z)
  | CRevokeAll (t : Z)
  | CRevokeObject (t o : Z) (ty : CapabilityType).

Inductive CapResult :=
  | RBool (b : bool)
  | RHandle (h : option Z)
  | RObject (o : option Z).

(** Arguments of type [CapabilityHandle] are 64-bit. *)
Definition call_typed (c : CapCall) : Prop :=
  match c with
  | CLookup _ h _ _ | CRevoke _ h => is_u64 h
  | _ => True
  end.

(** Table [t] has no index left: each is in use or has issued every generation. *)
Definition table_exhausted (A : Authority) (t : Z) : Prop :=
  forall i, 0 <= i < CAPABILITY_TABLE_CAPACITY ->
    (exists h g, handle_index h = i /\ au_grant A t h = Some g) \/
    (forall gen, 1 <= gen <= CAPABILITY_GENERATION_MAX -> au_issued A (make_handle gen i)).

Definition same_authority (A B : Authority) : Prop :=
  (forall t, au_table B t <-> au_table A t) /\
  (forall t h, au_grant B t h = au_grant A t h) /\
  (forall h, au_issued B h <-> au_issued A h).

(** Only the grants [p] selects disappear. *)
Definition grants_removed (p : Z -> Z -> Grant -> bool) (A B : Authority) : Prop :=
  (forall t, au_table B t <-> au_table A t) /\
  (forall t h, au_grant B t h =
    match au_grant A t h with Some g => if p t h g then None else Some g | None => None end) /\
  (forall h, au_issued B h <-> au_issued A h).

Section Spec.
  (** The identity of an object a new capability may name. *)
  Context (nameable : Z -> CapabilityType -> option Z).

Inductive auth_step : CapCall -> CapResult -> Authority -> Authority -> Prop :=
  | auth_insert_ok t o ty rights h id A B :
      au_table A t -> rights <> 0 -> foreign_rights rights = 0 -> nameable o ty = Some id ->
      is_u64 h -> h <> CAPABILITY_INVALID_HANDLE -> ~ au_issued A h ->
      (forall u, au_table B u <-> au_table A u) ->
      (forall u x, au_grant B u x =
        if decide (u = t /\ x = h) then Some (mkGrant o ty id rights) else au_grant A u x) ->
      (forall x, au_issued B x <-> x = h \/ au_issued A x) ->
      auth_step (CInsert t o ty rights) (RHandle (Some h)) A B
  | auth_insert_fail t o ty rights A B :
      ~ au_table A t \/ rights = 0 \/ foreign_rights rights <> 0 \/ nameable o ty = None \/
        table_exhausted A t ->
      same_authority A B -> auth_step (CInsert t o ty rights) (RHandle None) A B
  | auth_lookup t h ty rights A B :
      same_authority A B ->
      auth_step (CLookup t h ty rights) (RObject (au_grant A t h ≫= grant_serves ty rights)) A B
  | auth_revoke t h A B :
      grants_removed (fun u x _ => bool_decide (u = t /\ x = h)) A B ->
      auth_step (CRevoke t h) (RBool (bool_decide (is_Some (au_grant A t h)))) A B
  | auth_revoke_all t A B :
      au_table A t -> grants_removed (fun u _ _ => bool_decide (u = t)) A B ->
      auth_step (CRevokeAll t) (RBool true) A B
  | auth_revoke_all_fail t A B :
      ~ au_table A t -> same_authority A B -> auth_step (CRevokeAll t) (RBool false) A B
  | auth_revoke_object t o ty A B :
      au_table A t ->
      grants_removed (fun u _ g => bool_decide (u = t /\ g_object g = o /\ g_type g = ty)) A B ->
      auth_step (CRevokeObject t o ty) (RBool true) A B
  | auth_revoke_object_fail t o ty A B :
      ~ au_table A t \/ o = 0 \/ ty = CAPABILITY_TYPE_NONE ->
      same_authority A B -> auth_step (CRevokeObject t o ty) (RBool false) A B
  | auth_init t A B :
      t <> 0 -> ~ au_table A t ->
      (forall u, au_table B u <-> u = t \/ au_table A u) ->
      (forall u h, au_grant B u h = au_grant A u h) -> (forall h, au_issued B h <-> au_issued A h) ->
      auth_step (CInit t) (RBool true) A B
  | auth_init_fail t A B :
      t = 0 \/ au_table A t \/
        (exists l, NoDup l /\ Z.of_nat (length l) = CAPABILITY_TABLE_STORAGE_CAPACITY /\
                   forall u, u ∈ l -> au_table A u) ->
      same_authority A B -> auth_step (CInit t) (RBool false) A B
  | auth_destroy t A B :
      au_table A t -> (forall h, au_grant A t h = None) ->
      (forall u, au_table B u <-> u <> t /\ au_table A u) ->
      (forall u h, au_grant B u h = au_grant A u h) -> (forall h, au_issued B h <-> au_issued A h) ->
      auth_step (CDestroy t) (RBool true) A B
  | auth_destroy_fail t A B :
      ~ au_table A t \/ (exists h g, au_grant A t h = Some g) ->
      same_authority A B -> auth_step (CDestroy t) (RBool false) A B.

Inductive auth_trace : list CapCall -> list CapResult -> Authority -> Authority -> Prop :=
  | auth_trace_nil A : auth_trace [] [] A A
  | auth_trace_cons c r cs rs A B C :
      auth_step c r A B -> auth_trace cs rs B C -> auth_trace (c :: cs) (r :: rs) A C.

End Spec.

(** * The concrete calls *)

Definition run_cap (c : CapCall) (k : Kernel) : CapResult * Kernel :=
  match c with
  | CInit t => let '(b, k) := capability_table_init t k in (RBool b, k)
  | CDestroy t => let '(b, k) := capability_table_destroy t k in (RBool b, k)
  | CInsert t o ty r => let '(h, k) := capability_insert t o ty r k in (RHandle h, k)
  | CLookup t h ty r => (RObject (capability_lookup_rights k t h ty r), k)
  | CRevoke t h => let '(b, k) := capability_revoke t h k in (RBool b, k)
  | CRevokeAll t => let '(b, k) := capability_revoke_all t k in (RBool b, k)
  | CRevokeObject t o ty => let '(b, k) := capability_revoke_object t o ty k in (RBool b, k)
  end.

Fixpoint run_caps (cs : list CapCall) (k : Kernel) : list CapResult * Kernel :=
  match cs with
  | [] => ([], k)
  | c :: cs => let '(r, k) := run_cap c k in let '(rs, k) := run_caps cs k in (r :: rs, k)
  end.

Definition grant_of (s : CapabilitySlot) : Grant :=
  mkGrant (s_object s) (s_type s) (s_object_id s) (s_rights s).

Definition grant (k : Kernel) (t h : Z) : option Grant :=
  if (0 <=? h) && (h <? 2 ^ 64) then
    match resolve_slot k t h with
    | Some i => Some (grant_of (slot_at (tbl k t) i))
    | None => None
    end
  else None.

Definition issued (k : Kernel) (h : Z) : Prop :=
  is_u64 h /\ handle_index h < CAPABILITY_TABLE_CAPACITY /\
  1 <= handle_generation h < next_generation k (handle_index h).

Definition authority (k : Kernel) : Authority :=
  mkAuthority (fun t => t ∈ live_tables k) (grant k) (issued k).

Definition nameable_in (k : Kernel) (o : Z) (ty : CapabilityType) : option Z :=
  match object_refs k o ty true with Some (_, id) => Some id | None => None end.

(** * Grants through the slots *)

Definition names (h : Z) (s : CapabilitySlot) : Prop :=
  is_u64 h /\ handle_index h < CAPABILITY_TABLE_CAPACITY /\
  s_generation s = handle_generation h /\ s_occupied s = true.

#[export] Instance names_dec h s : Decision (names h s).
Proof. unfold names, is_u64. apply _. Defined.

Lemma grant_alt k t h :
  cap_wf k ->
  grant k t h =
    if decide (t ∈ live_tables k /\ names h (slot_at (tbl k t) (handle_index h)))
    then Some (grant_of (slot_at (tbl k t) (handle_index h))) else None.
Proof.
  intros Hw. unfold grant.
  destruct ((0 <=? h) && (h <? 2 ^ 64)) eqn:Hr.
  - bool_prop. destruct (resolve_slot k t h) as [i|] eqn:E.
    + apply resolve_slot_wf in E as (Ht & -> & Hi & Hg & Ho); [|done].
      rewrite decide_True; [done|]. unfold names, is_u64. done.
    + rewrite decide_False; [done|]. intros (Ht & _ & Hi & Hg & Ho).
      assert (resolve_slot k t h = Some (handle_index h)); [|congruence].
      by apply resolve_slot_wf.
  - rewrite decide_False; [done|]. intros (_ & [? ?] & _).
    destruct (Z.leb_spec 0 h), (Z.ltb_spec h (2 ^ 64)); done || lia.
Qed.

Lemma grant_resolve k t h :
  cap_wf k -> is_u64 h ->
  grant k t h = match resolve_slot k t h with
                | Some i => Some (grant_of (slot_at (tbl k t) i)) | None => None end.
Proof.
  intros Hw [Hlo Hhi]. unfold grant.
  destruct (Z.leb_spec 0 h), (Z.ltb_spec h (2 ^ 64)); done || lia.
Qed.

Lemma grant_slot k t i :
  cap_wf k -> t ∈ live_tables k -> 0 <= i < CAPABILITY_TABLE_CAPACITY ->
  s_occupied (slot_at (tbl k t) i) = true ->
  grant k t (make_handle (s_generation (slot_at (tbl k t) i)) i) = Some (grant_of (slot_at (tbl k t) i)).
Proof.
  intros Hw Ht Hi Ho. set (s := slot_at (tbl k t) i) in *.
  pose proof (so_generation _ _ _ (to_slots _ _ (cw_table _ Hw t Ht) i Hi)) as Hg. fold s in Hg.
  pose proof (next_warm k i Hw Hi) as Hn. unfold CAPABILITY_GENERATION_MAX, CAPABILITY_TABLE_CAPACITY in *.
  rewrite grant_alt by done. rewrite handle_index_make by lia. fold s.
  rewrite decide_True; [done|]. split; [done|]. unfold names, CAPABILITY_TABLE_CAPACITY.
  rewrite handle_index_make, handle_generation_make by lia.
  split_and!; [apply make_handle_u64; lia|lia|done|done].
Qed.

Lemma same_authority_refl A : same_authority A A.
Proof. done. Qed.

(** ** Insertion *)

Lemma issued_fresh k i :
  0 <= i < CAPABILITY_TABLE_CAPACITY -> 1 <= next_generation k i <= CAPABILITY_GENERATION_MAX ->
  ~ issued k (make_handle (next_generation k i) i).
Proof.
  unfold CAPABILITY_TABLE_CAPACITY, CAPABILITY_GENERATION_MAX. intros Hi Hn (_ & _ & Hg).
  rewrite handle_index_make, handle_generation_make in Hg by lia. lia.
Qed.

Lemma insert_grant k t i o ty rights id u h :
  cap_wf k -> t ∈ live_tables k -> 0 <= i < CAPABILITY_TABLE_CAPACITY ->
  slot_available k t i = true -> object_refs k o ty false = Some ((ty, o), id) ->
  rights <> 0 /\ foreign_rights rights = 0 ->
  let k' := insert_commit t i o ty rights (ty, o) id k in
  grant k' u h = if decide (u = t /\ h = make_handle (next_generation k i) i)
                 then Some (mkGrant o ty id rights) else grant k u h.
Proof.
  intros Hw Ht Hi Hav Hor Hr k'. subst k'.
  pose proof (insert_commit_change k t i o ty rights id Hw Ht Hi Hav Hor) as Hsc.
  pose proof (insert_commit_wf k t i o ty rights id Hw Ht Hi Hav Hor Hr) as Hw'.
  destruct (insert_generation k t i Hw Ht Hi Hav) as [Hg Hgu].
  assert (s_occupied (slot_at (tbl k t) i) = false) as Hfree
    by (unfold slot_available in Hav; by bool_prop).
  pose proof (handle_index_range h) as Hir.
  rewrite !grant_alt by done. rewrite (sc_live_tables Hsc), (sc_slot_at Hw Ht Hi Hsc) by lia.
  unfold CAPABILITY_GENERATION_MAX, CAPABILITY_TABLE_CAPACITY in *.
  destruct (decide (u = t /\ handle_index h = i)) as [[-> He]|Hne].
  - rewrite He. rewrite (decide_False (P := t ∈ live_tables k /\ names h (slot_at (tbl k t) i)))
      by (intros (_ & _ & _ & _ & Ho); congruence).
    destruct (decide (h = make_handle (next_generation k i) i)) as [Hh|Hh].
    + rewrite (decide_True (P := t = t /\ _)) by done. rewrite decide_True; [done|].
      split; [done|]. unfold names, CAPABILITY_TABLE_CAPACITY. rewrite Hh.
      rewrite handle_index_make, handle_generation_make by lia. cbn [s_generation s_occupied new_slot].
      split_and!; [apply make_handle_u64; lia|lia|lia|done].
    + rewrite (decide_False (P := t = t /\ _)) by naive_solver. rewrite decide_False; [done|].
      intros (_ & Hu & _ & Hgen & _). cbn in Hgen. apply Hh.
      apply handle_inj; [done|apply make_handle_u64; lia| |].
      * by rewrite handle_index_make by lia.
      * rewrite handle_generation_make by lia. lia.
  - rewrite (decide_False (P := u = t /\ h = _)); [done|]. intros [-> ->]. apply Hne.
    by rewrite handle_index_make by lia.
Qed.

Lemma insert_issued k t i o ty rights id h :
  cap_wf k -> t ∈ live_tables k -> 0 <= i < CAPABILITY_TABLE_CAPACITY ->
  slot_available k t i = true -> object_refs k o ty false = Some ((ty, o), id) ->
  issued (insert_commit t i o ty rights (ty, o) id k) h <->
  h = make_handle (next_generation k i) i \/ issued k h.
Proof.
  intros Hw Ht Hi Hav Hor.
  pose proof (insert_commit_change k t i o ty rights id Hw Ht Hi Hav Hor) as Hsc.
  destruct (insert_generation k t i Hw Ht Hi Hav) as [Hg Hgu].
  pose proof (handle_index_range h) as Hir.
  unfold issued. rewrite (sc_next_generation Hw Hi Hsc) by lia.
  unfold CAPABILITY_GENERATION_MAX, CAPABILITY_TABLE_CAPACITY in *. case_decide as E.
  - rewrite E. split.
    + intros (Hu & Hlt & Hgen).
      destruct (decide (handle_generation h = next_generation k i)) as [He|He].
      * left. apply handle_inj; [done|apply make_handle_u64; lia| |].
        -- by rewrite handle_index_make by lia.
        -- by rewrite handle_generation_make by lia.
      * right. split_and!; try done; lia.
    + intros [->|(Hu & Hlt & Hgen)]; [|split_and!; try done; lia].
      rewrite handle_generation_make by lia.
      split_and!; [apply make_handle_u64; lia|lia|lia|lia].
  - split; [by right|]. intros [->|H]; [|done]. by rewrite handle_index_make in E by lia.
Qed.

Lemma exhausted_of_unavailable k t :
  cap_wf k -> t ∈ live_tables k ->
  (forall i, 0 <= i < CAPABILITY_TABLE_CAPACITY -> slot_available k t i = false) ->
  table_exhausted (authority k) t.
Proof.
  intros Hw Ht Hno i Hi. specialize (Hno i Hi). unfold slot_available in Hno.
  assert (cm_issuers_initialized (k_cap k) = true) as Hwarm by (by apply (sc_warm (t := t))).
  pose proof (cw_next _ Hw Hwarm i Hi) as Hn.
  pose proof (so_generation _ _ _ (to_slots _ _ (cw_table _ Hw t Ht) i Hi)) as Hg.
  unfold CAPABILITY_GENERATION_MAX, CAPABILITY_TABLE_CAPACITY in *.
  destruct (s_occupied (slot_at (tbl k t) i)) eqn:Ho.
  - left. exists (make_handle (s_generation (slot_at (tbl k t) i)) i). eexists. split.
    + apply handle_index_make; lia.
    + cbn. by apply grant_slot.
  - right. intros gen Hgen. cbn. unfold issued.
    rewrite handle_index_make, handle_generation_make by lia.
    unfold nz in Hno. destruct (Z.eqb_spec (next_generation k i) 0); [lia|]. cbn in Hno.
    apply Z.leb_gt in Hno. split; [apply make_handle_u64; lia|]. unfold CAPABILITY_TABLE_CAPACITY. lia.
Qed.

Lemma insert_simulates k t o ty rights :
  cap_wf k ->
  let '(r, k') := run_cap (CInsert t o ty rights) k in
  cap_wf k' /\ (forall o ty ins, object_refs k' o ty ins = object_refs k o ty ins) /\
  auth_step (nameable_in k) (CInsert t o ty rights) r (authority k) (authority k').
Proof.
  intros Hw. cbn [run_cap].
  destruct (capability_insert_spec k t o ty rights Hw) as
    [(i & id & Ht & Hi & Hav & Hor & Hr & Hf & ->)|[-> Hwhy]].
  - pose proof (object_refs_inserting _ _ _ _ _ Hor) as Hor'.
    pose proof (insert_commit_change k t i o ty rights id Hw Ht Hi Hav Hor') as Hsc.
    destruct (insert_generation k t i Hw Ht Hi Hav) as [Hg _].
    split; [by apply insert_commit_wf|]. split; [apply (sc_objects _ _ _ _ _ _ Hsc)|].
    apply auth_insert_ok with id; cbn; try done.
    + unfold nameable_in. by rewrite Hor.
    + apply make_handle_u64; unfold CAPABILITY_GENERATION_MAX, CAPABILITY_TABLE_CAPACITY in *; lia.
    + rewrite make_handle_arith
        by (unfold CAPABILITY_GENERATION_MAX, CAPABILITY_TABLE_CAPACITY in *; lia).
      unfold CAPABILITY_INVALID_HANDLE. lia.
    + by apply issued_fresh.
    + intros u. by rewrite (sc_live_tables Hsc).
    + intros u x. by apply insert_grant.
    + intros x. by apply insert_issued.
  - split; [done|]. split; [done|]. apply auth_insert_fail; [|apply same_authority_refl]. cbn.
    destruct (decide (t ∈ live_tables k)) as [Ht|]; [|by left].
    destruct Hwhy as [?|[?|[?|[Hn|?]]]]; [done|auto|auto| |].
    + right; right; right; left. unfold nameable_in. by rewrite Hn.
    + do 4 right. by apply exhausted_of_unavailable.
Qed.

(** ** Lookup *)

Lemma lookup_simulates k t h ty rights :
  cap_wf k -> is_u64 h ->
  let '(r, k') := run_cap (CLookup t h ty rights) k in
  cap_wf k' /\ (forall o ty ins, object_refs k' o ty ins = object_refs k o ty ins) /\
  auth_step (nameable_in k) (CLookup t h ty rights) r (authority k) (authority k').
Proof.
  intros Hw Hh. cbn [run_cap]. split; [done|]. split; [done|].
  assert (capability_lookup_rights k t h ty rights =
          au_grant (authority k) t h ≫= grant_serves ty rights) as ->.
  { cbn. rewrite grant_resolve by done. unfold capability_lookup_rights.
    by destruct (resolve_slot k t h). }
  apply auth_lookup, same_authority_refl.
Qed.

(** ** Deletion *)

Lemma cleared_grant k k' t p u h :
  cap_wf k -> slots_cleared k k' t p ->
  grant k' u h = match grant k u h with
                 | Some g => if bool_decide (u = t) && p (handle_index h) then None else Some g
                 | None => None end.
Proof.
  intros Hw [Hw' Hc Hs _ _]. rewrite !grant_alt by done.
  assert (live_tables k' = live_tables k) as -> by (unfold live_tables; by rewrite Hc).
  destruct (decide (handle_index h < CAPABILITY_TABLE_CAPACITY)) as [Hi|Hi].
  2: { rewrite !decide_False; [done| |]; intros (_ & _ & ? & _); done. }
  rewrite Hs by (pose proof (handle_index_range h); lia).
  destruct (decide (u = t /\ p (handle_index h) = true)) as [[-> ->]|Hne].
  - rewrite decide_False by (intros (_ & _ & _ & _ & ?); done).
    rewrite bool_decide_eq_true_2 by done. by case_decide.
  - assert (bool_decide (u = t) && p (handle_index h) = false) as ->; [|by case_decide].
    destruct (p (handle_index h)); [|by rewrite andb_false_r].
    rewrite bool_decide_eq_false_2; [done|]. intros ->. by apply Hne.
Qed.

Lemma cleared_removes k k' t p q :
  cap_wf k -> slots_cleared k k' t p ->
  (forall u x g, grant k u x = Some g -> q u x g = bool_decide (u = t) && p (handle_index x)) ->
  grants_removed q (authority k) (authority k').
Proof.
  intros Hw Hcl Hq. unfold grants_removed. cbn. split_and!.
  - intros u. unfold live_tables. by rewrite (cl_cap _ _ _ _ Hcl).
  - intros u x. rewrite (cleared_grant k k' t p) by done.
    destruct (grant k u x) as [g|] eqn:Hg; [|done]. by rewrite (Hq u x g).
  - intros x. unfold issued, next_generation. by rewrite (cl_cap _ _ _ _ Hcl).
Qed.

Lemma grant_some k t h g :
  cap_wf k -> grant k t h = Some g ->
  t ∈ live_tables k /\ names h (slot_at (tbl k t) (handle_index h)) /\
  g = grant_of (slot_at (tbl k t) (handle_index h)).
Proof.
  intros Hw. rewrite grant_alt by done. case_decide as E; [|done]. intros [= <-].
  destruct E. done.
Qed.

Lemma revoke_simulates k t h :
  cap_wf k -> is_u64 h ->
  let '(r, k') := run_cap (CRevoke t h) k in
  cap_wf k' /\ (forall o ty ins, object_refs k' o ty ins = object_refs k o ty ins) /\
  auth_step (nameable_in k) (CRevoke t h) r (authority k) (authority k').
Proof.
  intros Hw Hh. cbn [run_cap]. unfold capability_revoke.
  pose proof (grant_resolve k t h Hw Hh) as Hg.
  destruct (resolve_slot k t h) as [i|] eqn:Hres.
  - apply resolve_slot_wf in Hres as (Ht & Hi & Hlt & Hgen & Ho); [|done].
    pose proof (handle_index_range h) as Hr. fold (handle_index h) in Hi.
    rewrite table_valid_wf, bool_decide_eq_true_2 by done.
    assert (0 <= i < CAPABILITY_TABLE_CAPACITY) as Hir by lia.
    pose proof (delete_slot_cleared k t i Hw Ht Hir Ho) as Hcl.
    split; [apply Hcl|]. split; [apply (cl_objects _ _ _ _ Hcl)|].
    replace true with (bool_decide (is_Some (au_grant (authority k) t h))).
    2: { cbn. rewrite Hg. by apply bool_decide_eq_true. }
    apply auth_revoke. eapply cleared_removes; [done|exact Hcl|].
    intros u x g Hux. apply grant_some in Hux as (Hu & (Hx & Hxi & Hxg & _) & _); [|done].
    destruct (decide (u = t)) as [->|]; [|by rewrite !bool_decide_eq_false_2 by naive_solver].
    rewrite (bool_decide_eq_true_2 (t = t)) by done. cbn [andb].
    destruct (Z.eqb_spec (handle_index x) i) as [He|He].
    + apply bool_decide_eq_true. split; [done|]. apply handle_inj; [done|done|congruence|].
      rewrite <- Hxg, He. by rewrite Hgen.
    + apply bool_decide_eq_false. intros [_ ->]. done.
  - split; [done|]. split; [done|].
    replace false with (bool_decide (is_Some (au_grant (authority k) t h))).
    2: { cbn. rewrite Hg. by apply bool_decide_eq_false, is_Some_None. }
    apply auth_revoke. unfold grants_removed. cbn. split_and!; try done.
    intros u x. destruct (grant k u x) as [g|] eqn:Hux; [|done].
    rewrite bool_decide_eq_false_2; [done|]. intros [-> ->]. congruence.
Qed.

Lemma delete_simulates k t o ty all :
  cap_wf k ->
  let '(r, k') := delete_selected t o ty all k in
  cap_wf k' /\ (forall o ty ins, object_refs k' o ty ins = object_refs k o ty ins) /\
  (r = true /\ t ∈ live_tables k /\
   grants_removed (fun u _ g => bool_decide (u = t) &&
     (all || (g_object g =? o) && bool_decide (g_type g = ty))) (authority k) (authority k') \/
   r = false /\ t ∉ live_tables k /\ k' = k).
Proof.
  intros Hw. destruct (delete_selected_spec k t o ty all Hw) as [(Ht & k' & -> & Hcl)|[Ht ->]].
  - split; [apply Hcl|]. split; [apply (cl_objects _ _ _ _ Hcl)|]. left. split_and!; [done|done|].
    eapply cleared_removes; [done|exact Hcl|]. intros u x g Hux.
    apply grant_some in Hux as (Hu & (_ & _ & _ & Ho) & ->); [|done].
    case_bool_decide; [subst u|done]. unfold slot_selected. by rewrite Ho.
  - split; [done|]. split; [done|]. by right.
Qed.

Lemma revoke_all_simulates k t :
  cap_wf k ->
  let '(r, k') := run_cap (CRevokeAll t) k in
  cap_wf k' /\ (forall o ty ins, object_refs k' o ty ins = object_refs k o ty ins) /\
  auth_step (nameable_in k) (CRevokeAll t) r (authority k) (authority k').
Proof.
  intros Hw. pose proof (delete_simulates k t 0 CAPABILITY_TYPE_NONE true Hw) as H.
  cbn [run_cap]. unfold capability_revoke_all.
  destruct (delete_selected _ _ _ _ _) as [r k'].
  destruct H as (Hw' & Hobj & [(-> & Ht & Hrem)|(-> & Ht & ->)]); split; try done; split; try done.
  - apply auth_revoke_all; [done|]. destruct Hrem as (H1 & H2 & H3). split_and!; try done.
    intros u x. rewrite H2. destruct (au_grant (authority k) u x); [|done].
    cbn [orb]. by rewrite andb_true_r.
  - by apply auth_revoke_all_fail.
Qed.

Lemma revoke_object_simulates k t o ty :
  cap_wf k ->
  let '(r, k') := run_cap (CRevokeObject t o ty) k in
  cap_wf k' /\ (forall o ty ins, object_refs k' o ty ins = object_refs k o ty ins) /\
  auth_step (nameable_in k) (CRevokeObject t o ty) r (authority k) (authority k').
Proof.
  intros Hw. pose proof (delete_simulates k t o ty false Hw) as H.
  cbn [run_cap]. unfold capability_revoke_object.
  destruct (nz o) eqn:Hz; bool_prop; cbn [negb orb].
  2: { split; [done|]. split; [done|]. apply auth_revoke_object_fail; [auto|done]. }
  destruct (type_valid ty) eqn:Hty; cbn [negb].
  2: { split; [done|]. split; [done|].
       apply auth_revoke_object_fail; [by destruct ty; auto|done]. }
  destruct (delete_selected _ _ _ _ _) as [r k'].
  destruct H as (Hw' & Hobj & [(-> & Ht & Hrem)|(-> & Ht & ->)]); split; try done; split; try done.
  - apply auth_revoke_object; [done|]. destruct Hrem as (H1 & H2 & H3). split_and!; try done.
    intros u x. rewrite H2. destruct (au_grant (authority k) u x) as [g|]; [|done]. cbn [orb].
    rewrite !bool_decide_and.
    assert ((g_object g =? o) = bool_decide (g_object g = o)) as ->; [|done].
    destruct (Z.eqb_spec (g_object g) o); symmetry;
      [by apply bool_decide_eq_true|by apply bool_decide_eq_false].
  - apply auth_revoke_object_fail; [by left|done].
Qed.

(** ** Tables *)

Lemma added_grant k k' t u h :
  cap_wf k -> t ∉ live_tables k -> table_added k k' t -> grant k' u h = grant k u h.
Proof.
  intros Hw Ht [Hw' Hp Hf Ho _ _ _]. rewrite !grant_alt by done.
  destruct (decide (u = t)) as [->|Hu].
  - rewrite Hf, slot_at_fresh, !decide_False; [done| |].
    + intros (? & _). done.
    + intros (_ & _ & _ & _ & ?). done.
  - rewrite Ho by done. apply decide_ext. rewrite Hp, elem_of_cons. naive_solver.
Qed.

Lemma init_simulates k t :
  cap_wf k ->
  let '(r, k') := run_cap (CInit t) k in
  cap_wf k' /\ (forall o ty ins, object_refs k' o ty ins = object_refs k o ty ins) /\
  auth_step (nameable_in k) (CInit t) r (authority k) (authority k').
Proof.
  intros Hw. cbn [run_cap].
  destruct (capability_table_init_spec k t Hw) as [(Hz & Ht & k' & -> & Hadd)|[-> Hwhy]].
  - split; [apply Hadd|]. split; [apply Hadd|]. apply auth_init; cbn; try done.
    + intros u. by rewrite (ta_tables _ _ _ Hadd), elem_of_cons.
    + intros u h. by apply (added_grant k k' t).
    + intros h. unfold issued. pose proof (handle_index_range h).
      destruct (decide (handle_index h < CAPABILITY_TABLE_CAPACITY)) as [Hi|]; [|tauto].
      rewrite (ta_next _ _ _ Hadd) by lia.
      split; intros (? & ? & ?); split_and!; done || lia.
  - split; [done|]. split; [done|]. apply auth_init_fail; [|done]. cbn.
    destruct Hwhy as [?|[?|Hfull]]; [by left|by right; left|]. right; right.
    exists (live_tables k). split_and!; [apply (reg_nodup _ _ (cw_tables _ Hw))| |done].
    unfold capability_table_object_count in Hfull.
    by rewrite (object_storage_count_live _ _ (cw_tables _ Hw)) in Hfull.
Qed.

Lemma destroy_simulates k t :
  cap_wf k ->
  let '(r, k') := run_cap (CDestroy t) k in
  cap_wf k' /\ (forall o ty ins, object_refs k' o ty ins = object_refs k o ty ins) /\
  auth_step (nameable_in k) (CDestroy t) r (authority k) (authority k').
Proof.
  intros Hw. cbn [run_cap].
  destruct (capability_table_destroy_spec k t Hw) as [(Ht & k' & -> & Hrm)|[-> Hwhy]].
  - assert (forall h, grant k t h = None) as Hnone.
    { intros h. rewrite grant_alt by done. rewrite decide_False; [done|].
      intros (_ & _ & Hi & _ & Ho). pose proof (handle_index_range h).
      rewrite (count_zero_free k t _ Hw Ht (tr_empty _ _ _ Hrm)) in Ho by lia. done. }
    assert (forall u, u ∈ live_tables k' <-> u <> t /\ u ∈ live_tables k) as Hlive.
    { intros u. rewrite (tr_tables _ _ _ Hrm), elem_of_cons. pose proof (tr_gone _ _ _ Hrm).
      split; [|tauto]. intros Hu. split; [|by right]. by intros ->. }
    split; [apply Hrm|]. split; [apply Hrm|]. apply auth_destroy; cbn; try done.
    + intros u h. destruct (decide (u = t)) as [->|Hu].
      * rewrite Hnone, grant_alt by apply Hrm. rewrite decide_False; [done|].
        intros (Hin & _). by apply (tr_gone _ _ _ Hrm).
      * rewrite !grant_alt by (done || apply Hrm). rewrite (tr_other _ _ _ Hrm) by done.
        apply decide_ext. rewrite Hlive. tauto.
    + intros h. unfold issued, next_generation. by rewrite (tr_next _ _ _ Hrm).
  - split; [done|]. split; [done|]. apply auth_destroy_fail; [|done]. cbn.
    destruct (decide (t ∈ live_tables k)) as [Ht|]; [|by left].
    destruct Hwhy as [?|Hc]; [done|]. right.
    destruct (cw_table _ Hw t Ht) as [_ Hl Hcnt _].
    assert (0 < countb s_occupied (c_slots (tbl k t))) as Hpos
      by (pose proof (countb_nonneg s_occupied (c_slots (tbl k t))); lia).
    apply countb_pos in Hpos as (s & Hs & Ho).
    apply (elem_of_slots _ _ Hl) in Hs as (i & Hi & ->).
    eexists _, _. by apply grant_slot.
Qed.

(** ** Sequences of calls *)

Lemma cap_call_simulates k c :
  cap_wf k -> call_typed c ->
  let '(r, k') := run_cap c k in
  cap_wf k' /\ (forall o ty ins, object_refs k' o ty ins = object_refs k o ty ins) /\
  auth_step (nameable_in k) c r (authority k) (authority k').
Proof.
  intros Hw Hc. destruct c; cbn in Hc.
  - by apply init_simulates.
  - by apply destroy_simulates.
  - by apply insert_simulates.
  - by apply lookup_simulates.
  - by apply revoke_simulates.
  - by apply revoke_all_simulates.
  - by apply revoke_object_simulates.
Qed.

Lemma auth_step_nameable n n' c r A B :
  (forall o ty, n o ty = n' o ty) -> auth_step n c r A B -> auth_step n' c r A B.
Proof.
  intros Hn H. destruct H; try by econstructor.
  - eapply auth_insert_ok; try done. by rewrite <- Hn.
  - apply auth_insert_fail; [|done]. by rewrite <- Hn.
Qed.

Lemma run_caps_simulates k cs :
  cap_wf k -> Forall call_typed cs ->
  let '(rs, k') := run_caps cs k in
  cap_wf k' /\ auth_trace (nameable_in k) cs rs (authority k) (authority k').
Proof.
  intros Hw Hcs. revert k Hw. induction Hcs as [|c cs Hc Hcs IH]; intros k Hw; cbn [run_caps].
  { split; [done|constructor]. }
  pose proof (cap_call_simulates k c Hw Hc) as H1. destruct (run_cap c k) as [r k1].
  destruct H1 as (Hw1 & Ho1 & Hstep). specialize (IH k1 Hw1). destruct (run_caps cs k1) as [rs k2].
  destruct IH as [Hw2 Htr]. split; [done|]. econstructor; [done|].
  clear -Htr Ho1. assert (forall o ty, nameable_in k1 o ty = nameable_in k o ty) as Hn
    by (intros; unfold nameable_in; by rewrite Ho1).
  induction Htr; econstructor; [|done]. by eapply auth_step_nameable.
Qed.

Lemma cap_wf_boot : cap_wf kernel_boot.
Proof.
  split; try done.
  - by apply (registry_empty 256).
  - intros _ i Hi. apply (lookup_total_replicate_2 64 0 (Z.to_nat i)).
    unfold CAPABILITY_TABLE_CAPACITY in Hi. lia.
  - intros t Ht. by apply not_elem_of_nil in Ht.
  - intros t t' i Ht. by apply not_elem_of_nil in Ht.
  - intros [[] o] H; done.
Qed.
