(* ===== verification/Endpoint.v ===== *)
(** Endpoints: [kernel/endpoint.c].

    An endpoint is a one-message mailbox with one registered receiver and one
    registered sender. This file models the registry, the mailbox and the
    owner index; blocking is in the IPC component. *)

From S2P Require Import Prelude Pmm ObjectStorage Kernel Objects.

Open Scope jcos_scope.

(** * Creation and destruction *)

Definition endpoint_system_init (k : Kernel) : bool * Kernel :=
  if om_initialized (k_ept k) then (false, k) else
  (true, set_em (fun m => m <| om_next_id := 1 |> <| om_initialized := true |>) k).

Definition endpoint_create_locked (endpoint owner_process_id : Z) (k : Kernel) : bool * Kernel :=
  if !om_initialized (k_ept k) || !nz endpoint || !nz (om_next_id (k_ept k)) || endpoint_live k endpoint
  then (false, k) else
  let slot := object_storage_empty (om_storage (k_ept k)) ENDPOINT_STORAGE_CAPACITY in
  if slot =? ENDPOINT_STORAGE_CAPACITY then (false, k) else
  let id := om_next_id (k_ept k) in
  let k := set_ept endpoint (fun _ => endpoint_zero <| e_id := id |>
             <| e_owner_process_id := owner_process_id |> <| e_initialized := true |>) k in
  (true, set_em (fun m => m <| om_next_id := u64 (id + 1) |>
                            <| om_storage := storage_set slot endpoint (om_storage m) |>) k).

Definition endpoint_create (endpoint : Z) (k : Kernel) : bool * Kernel :=
  endpoint_create_locked endpoint 0 k.

Definition endpoint_create_owned (endpoint owner : Z) (k : Kernel) : bool * Kernel :=
  if nz (process_capabilities k owner) && nz (p_id (prc k owner))
  then endpoint_create_locked endpoint (p_id (prc k owner)) k else (false, k).

(** [g_initialized && endpoint_live(e) && e->initialized && e->id] *)
Definition endpoint_ready (k : Kernel) (endpoint : Z) : bool :=
  om_initialized (k_ept k) && endpoint_live k endpoint && e_initialized (ept k endpoint)
  && nz (e_id (ept k endpoint)).

Definition endpoint_destroy (endpoint : Z) (k : Kernel) : bool * Kernel :=
  let e := ept k endpoint in
  if !endpoint_ready k endpoint then (false, k) else
  if nz (e_capability_refs e) then (false, k) else
  if e_message_ready e then (false, k) else
  if nz (e_waiting_receiver e) || nz (e_waiting_receiver_id e) then (false, k) else
  if nz (e_waiting_sender e) || nz (e_waiting_sender_id e) then (false, k) else
  if e_waiting_sender_message_ready e then (false, k) else
  let slot := object_storage_find (om_storage (k_ept k)) ENDPOINT_STORAGE_CAPACITY endpoint in
  let k := set_em (fun m => m <| om_storage := storage_set slot 0 (om_storage m) |>) k in
  (true, set_ept endpoint (fun _ => endpoint_zero) k).

(** * The mailbox *)

(** [for (i = 0; i < count; ++i) dst[i] = src[i]] over a zeroed array. *)
Definition copy_words (count : Z) (src : list Z) : list Z :=
  foldl (fun dst i => <[Z.to_nat i := default 0 (src !! Z.to_nat i)]> dst) (m_words message_zero)
    (seqZ 0 count).

Definition endpoint_try_send (endpoint : Z) (message : IpcMessage) (k : Kernel) : bool * Kernel :=
  let e := ept k endpoint in
  if !om_initialized (k_ept k) || !nz endpoint then (false, k) else
  if !endpoint_live k endpoint || !e_initialized e || !nz (e_id e) || e_closed e then (false, k) else
  if !nz (m_word_count message) || (m_word_count message >? IPC_MESSAGE_MAX_WORDS) then (false, k) else
  if e_message_ready e then (false, k) else
  (true, set_ept endpoint (fun e => e
     <| e_message := mkIpcMessage (copy_words (m_word_count message) (m_words message))
                       (m_word_count message) |>
     <| e_message_ready := true |>) k).

(** [None]: nothing received, the output message is zero. *)
Definition endpoint_try_receive (endpoint : Z) (k : Kernel) : option IpcMessage * Kernel :=
  let e := ept k endpoint in
  if !om_initialized (k_ept k) || !nz endpoint then (None, k) else
  if !endpoint_live k endpoint || !e_initialized e || !nz (e_id e) || e_closed e then (None, k) else
  if !e_message_ready e then (None, k) else
  (Some (e_message e), set_ept endpoint (fun e => e <| e_message := message_zero |>
                                                    <| e_message_ready := false |>) k).

Definition endpoint_message_ready (k : Kernel) (endpoint : Z) : bool :=
  endpoint_ready k endpoint && e_message_ready (ept k endpoint).

Definition endpoint_receiver_waiting (k : Kernel) (endpoint : Z) : bool :=
  endpoint_ready k endpoint && nz (e_waiting_receiver (ept k endpoint)).

Definition endpoint_sender_waiting (k : Kernel) (endpoint : Z) : bool :=
  endpoint_ready k endpoint && nz (e_waiting_sender (ept k endpoint)).

Definition endpoint_closed (k : Kernel) (endpoint : Z) : bool :=
  endpoint_ready k endpoint && e_closed (ept k endpoint).

(** * Ownership *)

Definition endpoint_owner_process_id (k : Kernel) (endpoint : Z) : Z :=
  if endpoint_live k endpoint && e_initialized (ept k endpoint) && nz (e_id (ept k endpoint))
  then e_owner_process_id (ept k endpoint) else 0.

Definition owned_by (k : Kernel) (owner_process_id endpoint : Z) : bool :=
  nz endpoint && e_initialized (ept k endpoint) && nz (e_id (ept k endpoint))
  && (e_owner_process_id (ept k endpoint) =? owner_process_id).

(** The first registered endpoint of the owner at or after entry [start]. *)
Definition endpoint_owned_from (k : Kernel) (owner_process_id start : Z) : Z :=
  if !nz owner_process_id then 0 else
  default 0 (List.find (owned_by k owner_process_id)
    (drop (Z.to_nat start) (take (Z.to_nat ENDPOINT_STORAGE_CAPACITY) (om_storage (k_ept k))))).

Definition endpoint_owned_first (k : Kernel) (owner_process_id : Z) : Z :=
  endpoint_owned_from k owner_process_id 0.

Definition endpoint_owned_next (k : Kernel) (owner_process_id endpoint : Z) : Z :=
  let slot := object_storage_find (om_storage (k_ept k)) ENDPOINT_STORAGE_CAPACITY endpoint in
  if (slot <? ENDPOINT_STORAGE_CAPACITY)
     && (e_owner_process_id (ept k endpoint) =? owner_process_id)
     && (slot + 1 <? ENDPOINT_STORAGE_CAPACITY)
  then endpoint_owned_from k owner_process_id (slot + 1) else 0.

Definition endpoint_process_has_open_owned (k : Kernel) (owner_process_id : Z) : bool :=
  nz owner_process_id &&
  existsb (fun endpoint => owned_by k owner_process_id endpoint && !e_closed (ept k endpoint))
    (take (Z.to_nat ENDPOINT_STORAGE_CAPACITY) (om_storage (k_ept k))).
