(* ===== verification/ObjectLife.v ===== *)
(** Capabilities and the lifetime of the objects they name.

    The reference counter an object exposes is what protects its storage:
    [device_resource_destroy] and [endpoint_destroy] refuse while it is not
    zero. This file shows that the counters, the tables and the registries stay
    consistent under any mix of object creation, object destruction and
    capability calls, so that no capability outlives its object. *)

From S2P Require Import Prelude Pmm ObjectStorage Kernel Objects Capability.
From S2P Require Import CapabilityProofs CapabilityRefine Endpoint.

Open Scope jcos_scope.

(** * Objects no slot names *)

Lemma pins_pos k c :
  cap_wf k -> 0 < pins k c ->
  exists t i, t ∈ live_tables k /\ 0 <= i < CAPABILITY_TABLE_CAPACITY /\
    s_occupied (slot_at (tbl k t) i) = true /\ slot_cell (slot_at (tbl k t) i) = c.
Proof.
  intros Hw Hp.
  assert (exists t, t ∈ live_tables k /\ 0 < table_pins k c t) as (t & Ht & Hpos).
  { unfold pins in Hp. revert Hp. generalize (live_tables k) as l.
    induction l as [|u l IH]; cbn [sumZ foldr]; [lia|]. intros Hp.
    destruct (decide (0 < table_pins k c u)) as [H|H].
    - exists u. split; [apply elem_of_cons; auto|done].
    - destruct IH as (v & Hv & ?); [unfold sumZ; lia|]. exists v. split; [apply elem_of_cons; auto|done]. }
  apply countb_pos in Hpos as (s & Hs & Hps).
  apply (elem_of_slots _ _ (to_length _ _ (cw_table _ Hw t Ht))) in Hs as (i & Hi & ->).
  unfold slot_pins in Hps. apply andb_true_iff in Hps as [Ho Hc]. apply bool_decide_eq_true in Hc.
  by exists t, i.
Qed.

Lemma occupied_pins k t i :
  cap_wf k -> t ∈ live_tables k -> 0 <= i < CAPABILITY_TABLE_CAPACITY ->
  s_occupied (slot_at (tbl k t) i) = true -> 0 < pins k (slot_cell (slot_at (tbl k t) i)).
Proof.
  intros Hw Ht Hi Ho. pose proof (occupied_pinned k t i Hw Ht Hi Ho).
  pose proof (table_pins_le k (slot_cell (slot_at (tbl k t) i)) t Ht). lia.
Qed.

Lemma pins_dead k c : cap_wf k -> object_live k c = false -> pins k c = 0.
Proof.
  intros Hw Hd. pose proof (pins_nonneg k c). destruct (decide (0 < pins k c)) as [Hp|]; [|lia].
  destruct (pins_pos k c Hw Hp) as (t & i & Ht & Hi & Ho & <-).
  destruct (so_occupied _ _ _ (to_slots _ _ (cw_table _ Hw t Ht) i Hi) Ho) as (_ & _ & _ & Hor).
  destruct (object_refs_live _ _ _ _ _ _ Hor) as [_ Hl]. congruence.
Qed.

(** Changing an object no slot names keeps the capability layer well-formed. *)
Lemma cap_wf_object_change k k' c0 :
  cap_wf k -> k_cap k' = k_cap k -> (forall t, tbl k' t = tbl k t) -> pins k c0 = 0 ->
  (forall c, c <> c0 -> object_refs k' c.2 c.1 false = object_refs k c.2 c.1 false) ->
  (forall c, c <> c0 -> object_live k' c = object_live k c) ->
  (forall c, c <> c0 -> ref_get k' c = ref_get k c) ->
  (object_live k' c0 = true -> ref_get k' c0 = 0) -> cap_wf k'.
Proof.
  intros Hw Hc Ht Hp0 Hobj Hlive Href H0.
  assert (live_tables k' = live_tables k) as Hlt by (unfold live_tables; by rewrite Hc).
  assert (forall c, pins k' c = pins k c) as Hpins.
  { intros c. unfold pins. rewrite Hlt. apply sumZ_ext. intros t _. unfold table_pins. by rewrite Ht. }
  assert (forall i, next_generation k' i = next_generation k i) as Hnext
    by (intros; unfold next_generation; by rewrite Hc).
  split; rewrite ?Hc, ?Hlt; try apply Hw.
  - intros E i Hi. rewrite Hnext. by apply Hw.
  - intros E i Hi. rewrite Hnext. by apply Hw.
  - intros t Hin. rewrite Ht. destruct (cw_table _ Hw t Hin) as [Hi Hl Hcnt Hs].
    split; [done|done|done|]. intros i Hir. rewrite Hnext. destruct (Hs i Hir) as [Hg Ho Hb].
    split; [done| |done]. intros Hocc. destruct (Ho Hocc) as (? & ? & ? & Hor). split_and!; try done.
    assert (slot_cell (slot_at (tbl k t) i) <> c0) as Hne.
    { intros He. pose proof (occupied_pins k t i Hw Hin Hir Hocc) as Hpos. rewrite He in Hpos. lia. }
    specialize (Hobj _ Hne). cbn in Hobj. by rewrite Hobj.
  - intros t t' i Hin Hin'. rewrite !Ht. by apply Hw.
  - intros c Hl. rewrite Hpins. destruct (decide (c = c0)) as [->|Hne]; [rewrite H0; done|].
    rewrite Href by done. apply Hw. by rewrite <- Hlive.
Qed.

(** * Creation and destruction *)

Record object_registries (k : Kernel) : Prop := {
  or_resources : registry DEVICE_RESOURCE_STORAGE_CAPACITY (om_storage (k_res k));
  or_endpoints : registry ENDPOINT_STORAGE_CAPACITY (om_storage (k_ept k)) }.

Lemma resource_live_reg k o :
  object_registries k ->
  (resource_slot k o <? DEVICE_RESOURCE_STORAGE_CAPACITY) = bool_decide (o ∈ live (om_storage (k_res k))).
Proof. intros Hr. apply object_storage_find_live, Hr. Qed.

Lemma endpoint_live_reg k o :
  object_registries k -> endpoint_live k o = bool_decide (o ∈ live (om_storage (k_ept k))).
Proof. intros Hr. apply object_storage_find_live, Hr. Qed.

(** Membership after an address is added to or removed from a registry. *)
Lemma perm_elem_add {l l' : list Z} {x y} : l' ≡ₚ x :: l -> y <> x -> y ∈ l' <-> y ∈ l.
Proof. intros -> Hne. rewrite elem_of_cons. tauto. Qed.

Lemma device_resource_create_wf o kind k b k' :
  cap_wf k -> object_registries k -> device_resource_create o kind k = (b, k') ->
  cap_wf k' /\ object_registries k'.
Proof.
  intros Hw Hr. unfold device_resource_create.
  destruct (!nz o || _) eqn:E0; [by intros [= <- <-]|].
  destruct (_ && _ && _) eqn:E; [|by intros [= <- <-]]. intros [= <- <-]. bool_prop.
  set (k' := set_rm _ _). pose proof (or_resources _ Hr) as Hreg.
  assert (o ∉ live (om_storage (k_res k))) as Hfresh.
  { intros Hin. pose proof (resource_live_reg k o Hr) as Hl. rewrite bool_decide_eq_true_2 in Hl by done.
    bool_prop. unfold resource_slot in *. lia. }
  destruct (storage_register _ _ o Hreg ltac:(lia) ltac:(done) Hfresh) as [Hreg' Hp].
  assert (object_registries k') as Hr' by (split; [exact Hreg'|apply Hr]).
  split; [|done].
  assert (forall p, p <> o -> rsc k' p = rsc k p) as Hother.
  { intros p Hp'. change (rsc (set_rsc o (fun _ => mkDeviceResource (om_next_id (k_res k)) 0 kind true) k) p
      = rsc k p). by rewrite rsc_set, decide_False. }
  assert (forall p, p <> o -> (resource_slot k' p <? DEVICE_RESOURCE_STORAGE_CAPACITY) =
                              (resource_slot k p <? DEVICE_RESOURCE_STORAGE_CAPACITY)) as Hslot.
  { intros p Hp'. rewrite !resource_live_reg by done. apply bool_decide_ext. by apply (perm_elem_add Hp). }
  apply (cap_wf_object_change k k' (CAPABILITY_TYPE_DEVICE_RESOURCE, o)); try done.
  - apply pins_dead; [done|]. cbn. rewrite resource_live_reg by done. by apply bool_decide_eq_false.
  - intros [ty p] Hne. destruct ty; try done. cbn. assert (p <> o) by congruence.
    unfold object_refs, device_resource_valid. by rewrite Hslot, !Hother.
  - intros [ty p] Hne. destruct ty; try done. cbn. apply Hslot. congruence.
  - intros [ty p] Hne. destruct ty; try done. cbn. rewrite Hother; [done|congruence].
  - intros _. cbn. change (rsc k' o) with
      (rsc (set_rsc o (fun _ => mkDeviceResource (om_next_id (k_res k)) 0 kind true) k) o).
    by rewrite rsc_set, decide_True.
Qed.

Lemma device_resource_destroy_wf o k b k' :
  cap_wf k -> object_registries k -> device_resource_destroy o k = (b, k') ->
  cap_wf k' /\ object_registries k'.
Proof.
  intros Hw Hr. unfold device_resource_destroy.
  destruct (!nz o); [by intros [= <- <-]|].
  destruct (_ && _ && _ && _) eqn:E; [|by intros [= <- <-]]. intros [= <- <-].
  apply andb_true_iff in E as [E Href]. apply andb_true_iff in E as [E _].
  apply andb_true_iff in E as [Hlive _]. bool_prop.
  set (k' := set_rsc _ _ _).
  assert (o ∈ live (om_storage (k_res k))) as Hin.
  { pose proof (resource_live_reg k o Hr) as Hl. rewrite (proj2 (Z.ltb_lt _ _) Hlive) in Hl.
    symmetry in Hl. by apply bool_decide_eq_true in Hl. }
  destruct (storage_release _ _ o (or_resources _ Hr) Hin) as (Hreg' & Hp & Hgone).
  assert (object_registries k') as Hr' by (split; [exact Hreg'|apply Hr]).
  split; [|done].
  assert (forall p, p <> o -> rsc k' p = rsc k p) as Hother
    by (intros p Hp'; unfold k'; by rewrite rsc_set, decide_False).
  assert (forall p, p <> o -> (resource_slot k' p <? DEVICE_RESOURCE_STORAGE_CAPACITY) =
                              (resource_slot k p <? DEVICE_RESOURCE_STORAGE_CAPACITY)) as Hslot.
  { intros p Hp'. rewrite !resource_live_reg by done. apply bool_decide_ext.
    symmetry. by apply (perm_elem_add Hp). }
  apply (cap_wf_object_change k k' (CAPABILITY_TYPE_DEVICE_RESOURCE, o)); try done.
  - rewrite <- (cw_refs _ Hw); [done|]. cbn. by apply Z.ltb_lt.
  - intros [ty p] Hne. destruct ty; try done. cbn. assert (p <> o) by congruence.
    unfold object_refs, device_resource_valid. by rewrite Hslot, !Hother.
  - intros [ty p] Hne. destruct ty; try done. cbn. apply Hslot. congruence.
  - intros [ty p] Hne. destruct ty; try done. cbn. rewrite Hother; [done|congruence].
  - cbn. rewrite resource_live_reg by done. intros Hl. by apply bool_decide_eq_true in Hl.
Qed.

Lemma endpoint_create_wf o owner k b k' :
  cap_wf k -> object_registries k -> endpoint_create_locked o owner k = (b, k') ->
  cap_wf k' /\ object_registries k'.
Proof.
  intros Hw Hr. unfold endpoint_create_locked.
  destruct (_ || _ || _ || _) eqn:E0; [by intros [= <- <-]|].
  destruct (_ =? ENDPOINT_STORAGE_CAPACITY) eqn:E; [by intros [= <- <-]|]. intros [= <- <-]. bool_prop.
  set (k' := set_em _ _). pose proof (or_endpoints _ Hr) as Hreg.
  assert (o ∉ live (om_storage (k_ept k))) as Hfresh.
  { intros Hin. pose proof (endpoint_live_reg k o Hr) as Hl.
    rewrite bool_decide_eq_true_2 in Hl by done. congruence. }
  destruct (storage_register _ _ o Hreg ltac:(lia) ltac:(done) Hfresh) as [Hreg' Hp].
  assert (object_registries k') as Hr' by (split; [apply Hr|exact Hreg']).
  split; [|done].
  assert (forall p, p <> o -> ept k' p = ept k p) as Hother.
  { intros p Hp'. unfold k'. rewrite ept_set_em, ept_set. by rewrite decide_False. }
  assert (forall p, p <> o -> endpoint_live k' p = endpoint_live k p) as Hslot.
  { intros p Hp'. rewrite !endpoint_live_reg by done. apply bool_decide_ext. by apply (perm_elem_add Hp). }
  apply (cap_wf_object_change k k' (CAPABILITY_TYPE_ENDPOINT, o)); try done.
  - by apply pins_dead.
  - intros [ty p] Hne. destruct ty; try done. cbn. assert (p <> o) by congruence.
    unfold object_refs, endpoint_storage_in_use. by rewrite Hslot, !Hother.
  - intros [ty p] Hne. destruct ty; try done. cbn. apply Hslot. congruence.
  - intros [ty p] Hne. destruct ty; try done. cbn. rewrite Hother; [done|congruence].
  - intros _. cbn. unfold k'. by rewrite ept_set_em, ept_set, decide_True.
Qed.

Lemma endpoint_destroy_wf o k b k' :
  cap_wf k -> object_registries k -> endpoint_destroy o k = (b, k') ->
  cap_wf k' /\ object_registries k'.
Proof.
  intros Hw Hr. unfold endpoint_destroy.
  destruct (!endpoint_ready k o) eqn:Hready; [by intros [= <- <-]|].
  destruct (nz (e_capability_refs (ept k o))) eqn:Href; [by intros [= <- <-]|].
  destruct (e_message_ready _); [by intros [= <- <-]|].
  destruct (_ || _); [by intros [= <- <-]|].
  destruct (_ || _); [by intros [= <- <-]|].
  destruct (e_waiting_sender_message_ready _); [by intros [= <- <-]|].
  intros [= <- <-]. unfold endpoint_ready in Hready. bool_prop.
  set (k' := set_ept _ _ _).
  assert (o ∈ live (om_storage (k_ept k))) as Hin.
  { pose proof (endpoint_live_reg k o Hr) as Hl. symmetry in Hl.
    apply (bool_decide_eq_true (o ∈ live (om_storage (k_ept k)))). congruence. }
  destruct (storage_release _ _ o (or_endpoints _ Hr) Hin) as (Hreg' & Hp & Hgone).
  assert (object_registries k') as Hr' by (split; [apply Hr|exact Hreg']).
  split; [|done].
  assert (forall p, p <> o -> ept k' p = ept k p) as Hother
    by (intros p Hp'; unfold k'; by rewrite ept_set, decide_False).
  assert (forall p, p <> o -> endpoint_live k' p = endpoint_live k p) as Hslot.
  { intros p Hp'. rewrite !endpoint_live_reg by done. apply bool_decide_ext.
    symmetry. by apply (perm_elem_add Hp). }
  apply (cap_wf_object_change k k' (CAPABILITY_TYPE_ENDPOINT, o)); try done.
  - by rewrite <- (cw_refs _ Hw).
  - intros [ty p] Hne. destruct ty; try done. cbn. assert (p <> o) by congruence.
    unfold object_refs, endpoint_storage_in_use. by rewrite Hslot, !Hother.
  - intros [ty p] Hne. destruct ty; try done. cbn. apply Hslot. congruence.
  - intros [ty p] Hne. destruct ty; try done. cbn. rewrite Hother; [done|congruence].
  - cbn. rewrite endpoint_live_reg by done. intros Hl. by apply bool_decide_eq_true in Hl.
Qed.

Lemma object_registries_boot : object_registries kernel_boot.
Proof. split; [by apply (registry_empty 64)|by apply (registry_empty 256)]. Qed.

(** Capability calls do not touch the object registries. *)
Lemma ref_set_registries c v k :
  k_res (ref_set c v k) = k_res k /\ k_ept (ref_set c v k) = k_ept k.
Proof. by destruct c as [[] o]. Qed.

Lemma delete_slot_registries t i k :
  k_res (delete_slot t i k) = k_res k /\ k_ept (delete_slot t i k) = k_ept k.
Proof.
  unfold delete_slot. destruct (slot_refs _ _) as [c|]; [|done].
  destruct (ref_set_registries c (u64 (ref_get k c - 1)) k). done.
Qed.

Lemma insert_scan_registries n i t o ty rights c id k :
  k_res (insert_scan n i t o ty rights c id k).2 = k_res k /\
  k_ept (insert_scan n i t o ty rights c id k).2 = k_ept k.
Proof.
  revert i. induction n as [|n IH]; intros i; cbn [insert_scan]; [done|].
  destruct (s_occupied _); [apply IH|]. destruct (take_generation _) as [[g next]|]; [|apply IH].
  cbn [snd]. by destruct c as [[] p].
Qed.

Lemma delete_selected_registries t o ty all k :
  k_res (delete_selected t o ty all k).2 = k_res k /\ k_ept (delete_selected t o ty all k).2 = k_ept k.
Proof.
  unfold delete_selected. destruct (negb _); [done|]. destruct (negb _); [done|]. cbn [snd].
  generalize (seqZ 0 CAPABILITY_TABLE_CAPACITY) as l. intros l. revert k.
  induction l as [|i l IH]; intros k; cbn [foldl]; [done|].
  destruct (slot_selected _ _ _ _); [|apply IH].
  destruct (IH (delete_slot t i k)) as [-> ->]. apply delete_slot_registries.
Qed.

Lemma run_cap_registries c k : object_registries k -> object_registries (run_cap c k).2.
Proof.
  intros Hr.
  assert (k_res (run_cap c k).2 = k_res k /\ k_ept (run_cap c k).2 = k_ept k) as [H1 H2].
  { destruct c as [t|t|t o ty r|t h ty r|t h|t|t o ty]; cbn [run_cap].
    - unfold capability_table_init. destruct (!nz t); [done|]. destruct (_ && _); [|done].
      by destruct (cm_issuers_initialized _).
    - unfold capability_table_destroy. by destruct (_ && _).
    - pose proof (insert_scan_registries (Z.to_nat CAPABILITY_TABLE_CAPACITY) 0 t o ty r) as H.
      unfold capability_insert. destruct (_ || _); [done|].
      destruct (object_refs _ _ _ _) as [[cell id]|]; [|done]. destruct (_ =? U64_MAX); [done|].
      specialize (H cell id k). by destruct (insert_scan _ _ _ _ _ _ _ _ _).
    - done.
    - unfold capability_revoke. destruct (resolve_slot _ _ _) as [i|]; [|done].
      destruct (table_valid _ _); [|done]. apply delete_slot_registries.
    - pose proof (delete_selected_registries t 0 CAPABILITY_TYPE_NONE true k) as H.
      unfold capability_revoke_all. by destruct (delete_selected _ _ _ _ _).
    - pose proof (delete_selected_registries t o ty false k) as H.
      unfold capability_revoke_object. destruct (_ || _); [done|].
      by destruct (delete_selected _ _ _ _ _). }
  split; [rewrite H1; apply Hr|rewrite H2; apply Hr].
Qed.
