(* ===== verification/CapabilityTheorems.v ===== *)
(** The theorems of the capability layer: the refinement of the abstract store
    of authority, what an insertion grants, and that no capability outlives the
    object it names. *)

From S2P Require Import Prelude Pmm ObjectStorage Kernel Objects Capability.
From S2P Require Import CapabilityProofs CapabilityRefine Endpoint ObjectLife.

Open Scope jcos_scope.

(** C7. Every sequence of capability calls from a well-formed state behaves as
    the abstract store of authority: an insertion returns a handle never issued
    before (in any table, since boot) and grants exactly the requested object
    and rights through it; a lookup succeeds iff the handle currently grants
    the type and all requested rights; a revocation removes exactly the grants
    it names; insertion fails only for a dead table, bad rights, an object that
    may not be named, or a table with no index left. *)
Theorem cap_refines (k : Kernel) (cs : list CapCall) :
  cap_wf k -> Forall call_typed cs ->
  cap_wf (run_caps cs k).2 /\
  auth_trace (nameable_in k) cs (run_caps cs k).1 (authority k) (authority (run_caps cs k).2).
Proof.
  intros Hw Hcs. pose proof (run_caps_simulates k cs Hw Hcs) as H.
  by destruct (run_caps cs k) as [rs k'].
Qed.

(** A boot with one device resource, and a session on one table. *)
Definition demo_table : Z := 0x1000.

Definition demo_resource : Z := 0x5000.

Definition demo_kernel : Kernel :=
  (device_resource_create demo_resource DEVICE_RESOURCE_DISPLAY kernel_boot).2.

Definition demo_calls : list CapCall :=
  [CInit demo_table;
   CInsert demo_table demo_resource CAPABILITY_TYPE_DEVICE_RESOURCE 3;
   CLookup demo_table (make_handle 1 0) CAPABILITY_TYPE_DEVICE_RESOURCE 1;
   CLookup demo_table (make_handle 1 0) CAPABILITY_TYPE_DEVICE_RESOURCE 4;
   CRevoke demo_table (make_handle 1 0);
   CInsert demo_table demo_resource CAPABILITY_TYPE_DEVICE_RESOURCE 1;
   CLookup demo_table (make_handle 1 0) CAPABILITY_TYPE_DEVICE_RESOURCE 1;
   CRevokeAll demo_table;
   CDestroy demo_table].

Lemma cap_wf_demo : cap_wf demo_kernel.
Proof.
  by eapply (device_resource_create_wf demo_resource DEVICE_RESOURCE_DISPLAY kernel_boot true),
    surjective_pairing; [apply cap_wf_boot|apply object_registries_boot].
Qed.

Lemma cap_wf_demo_table : cap_wf (run_cap (CInit demo_table) demo_kernel).2.
Proof.
  pose proof (init_simulates demo_kernel demo_table cap_wf_demo) as H.
  destruct (run_cap (CInit demo_table) demo_kernel) as [r k]. apply H.
Qed.

Lemma cap_refines_witness :
  (run_caps demo_calls demo_kernel).1 =
    [RBool true; RHandle (Some (make_handle 1 0)); RObject (Some demo_resource); RObject None;
     RBool true; RHandle (Some (make_handle 2 0)); RObject None; RBool true; RBool true] /\
  auth_trace (nameable_in demo_kernel) demo_calls (run_caps demo_calls demo_kernel).1
    (authority demo_kernel) (authority (run_caps demo_calls demo_kernel).2).
Proof.
  split; [by vm_compute|].
  apply (cap_refines demo_kernel demo_calls cap_wf_demo).
  unfold demo_calls. repeat constructor; by vm_compute.
Defined.

(** A capability gives its holder exactly what was inserted: the returned
    handle was never issued before, it resolves for the inserted type with
    precisely the subsets of the inserted rights, for no other type, and every
    other handle of every table resolves as before. *)
Theorem capability_insert_lookup (k k' : Kernel) (t o h : Z) (ty : CapabilityType) (rights : Z) :
  cap_wf k -> capability_insert t o ty rights k = (Some h, k') ->
  ~ issued k h /\
  (forall ty' req, capability_lookup_rights k' t h ty' req =
     if bool_decide (ty' = ty) && (foreign_rights req =? 0) && (Z.land rights req =? req)
     then Some o else None) /\
  (forall u x ty' req, is_u64 x -> (u, x) <> (t, h) ->
     capability_lookup_rights k' u x ty' req = capability_lookup_rights k u x ty' req).
Proof.
  intros Hw Hins. destruct (capability_insert_spec k t o ty rights Hw) as
    [(i & id & Ht & Hi & Hav & Hor & Hr & Hf & Heq)|[Heq _]]; rewrite Heq in Hins; [|done].
  apply pair_equal_spec in Hins as [Hh <-]. apply (inj Some) in Hh as <-.
  pose proof (object_refs_inserting _ _ _ _ _ Hor) as Hor'.
  destruct (object_refs_live _ _ _ _ _ _ Hor') as [_ Hlive]. apply object_live_typed in Hlive.
  destruct (insert_generation k t i Hw Ht Hi Hav) as [Hg _].
  pose proof (insert_commit_wf k t i o ty rights id Hw Ht Hi Hav Hor' (conj Hr Hf)) as Hw'.
  split; [by apply issued_fresh|].
  assert (forall k0 u x ty' req, cap_wf k0 -> is_u64 x ->
    capability_lookup_rights k0 u x ty' req = grant k0 u x ≫= grant_serves ty' req) as Hlook.
  { intros k0 u x ty' req Hk0 Hx. rewrite grant_resolve by done. unfold capability_lookup_rights.
    by destruct (resolve_slot k0 u x). }
  assert (is_u64 (make_handle (next_generation k i) i)) as Hu
    by (apply make_handle_u64; unfold CAPABILITY_GENERATION_MAX, CAPABILITY_TABLE_CAPACITY in *; lia).
  split.
  - intros ty' req. rewrite Hlook, insert_grant, decide_True by done. cbn [mbind option_bind].
    unfold grant_serves. cbn [g_type g_rights g_object].
    destruct (decide (ty' = ty)) as [->|Hne].
    + rewrite !bool_decide_eq_true_2 by done. unfold nz. rewrite negb_involutive.
      assert (type_valid ty = true) as -> by (by destruct ty).
      by destruct (foreign_rights req =? 0).
    + rewrite !bool_decide_eq_false_2 by congruence. by rewrite andb_false_r.
  - intros u x ty' req Hx Hne. rewrite !Hlook, insert_grant by done.
    by rewrite decide_False by (intros [-> ->]; done).
Qed.

Lemma capability_insert_lookup_witness :
  let k := (run_cap (CInit demo_table) demo_kernel).2 in
  let k' := (capability_insert demo_table demo_resource CAPABILITY_TYPE_DEVICE_RESOURCE 3 k).2 in
  capability_lookup_rights k' demo_table (make_handle 1 0) CAPABILITY_TYPE_DEVICE_RESOURCE 2 =
    Some demo_resource.
Proof.
  intros k k'.
  destruct (capability_insert_lookup k k' demo_table demo_resource (make_handle 1 0)
    CAPABILITY_TYPE_DEVICE_RESOURCE 3) as (_ & H & _).
  - exact cap_wf_demo_table.
  - rewrite (surjective_pairing (capability_insert _ _ _ _ _)).
    apply pair_equal_spec. split; [by vm_compute|reflexivity].
  - rewrite H. by vm_compute.
Defined.

(** * Object lifetime *)

Inductive LifeOp :=
  | LCap (c : CapCall)
  | LResourceCreate (o : Z) (kind : DeviceResourceKind)
  | LResourceDestroy (o : Z)
  | LEndpointCreate (o : Z)
  | LEndpointCreateOwned (o owner : Z)
  | LEndpointDestroy (o : Z).

Definition run_life (op : LifeOp) (k : Kernel) : Kernel :=
  match op with
  | LCap c => (run_cap c k).2
  | LResourceCreate o kind => (device_resource_create o kind k).2
  | LResourceDestroy o => (device_resource_destroy o k).2
  | LEndpointCreate o => (endpoint_create o k).2
  | LEndpointCreateOwned o owner => (endpoint_create_owned o owner k).2
  | LEndpointDestroy o => (endpoint_destroy o k).2
  end.

Definition life_typed (op : LifeOp) : Prop :=
  match op with LCap c => call_typed c | _ => True end.

Lemma run_life_wf op k :
  cap_wf k -> object_registries k -> life_typed op ->
  cap_wf (run_life op k) /\ object_registries (run_life op k).
Proof.
  intros Hw Hr Hty. destruct op as [c|o kind|o|o|o owner|o]; cbn [run_life].
  - pose proof (cap_call_simulates k c Hw Hty) as H.
    pose proof (run_cap_registries c k Hr) as Hr'.
    destruct (run_cap c k) as [r k']. by destruct H as [? _].
  - eapply device_resource_create_wf; [done|done|apply surjective_pairing].
  - eapply device_resource_destroy_wf; [done|done|apply surjective_pairing].
  - eapply endpoint_create_wf; [done|done|apply surjective_pairing].
  - unfold endpoint_create_owned. destruct (_ && _); [|done].
    eapply endpoint_create_wf; [done|done|apply surjective_pairing].
  - eapply endpoint_destroy_wf; [done|done|apply surjective_pairing].
Qed.

Lemma run_lives_wf ops k :
  cap_wf k -> object_registries k -> Forall life_typed ops ->
  cap_wf (foldl (fun k op => run_life op k) k ops) /\
  object_registries (foldl (fun k op => run_life op k) k ops).
Proof.
  intros Hw Hr Hops. revert k Hw Hr. induction Hops as [|op ops Hop Hops IH]; intros k Hw Hr; [done|].
  cbn [foldl]. destruct (run_life_wf op k Hw Hr Hop). by apply IH.
Qed.

(** C9. No capability outlives its object. After any mix of capability calls
    and of creations and destructions of device resources and endpoints, every
    handle that still grants something names a live object with the identity it
    had when it was granted, the object's reference counter is the number of
    slots naming it, and destroying it is refused. *)
Theorem no_dangling_capability (k : Kernel) (ops : list LifeOp) (t h : Z) (g : Grant) :
  cap_wf k -> object_registries k -> Forall life_typed ops ->
  let k' := foldl (fun k op => run_life op k) k ops in
  grant k' t h = Some g ->
  object_refs k' (g_object g) (g_type g) false = Some ((g_type g, g_object g), g_id g) /\
  ref_get k' (g_type g, g_object g) = pins k' (g_type g, g_object g) /\
  0 < pins k' (g_type g, g_object g) /\
  (g_type g = CAPABILITY_TYPE_DEVICE_RESOURCE -> device_resource_destroy (g_object g) k' = (false, k')) /\
  (g_type g = CAPABILITY_TYPE_ENDPOINT -> endpoint_destroy (g_object g) k' = (false, k')).
Proof.
  intros Hw Hr Hops k' Hg. destruct (run_lives_wf ops k Hw Hr Hops) as [Hw' Hr']. fold k' in Hw', Hr'.
  apply grant_some in Hg as (Ht & (_ & Hi & _ & Ho) & ->); [|done].
  assert (0 <= handle_index h < CAPABILITY_TABLE_CAPACITY) as Hir
    by (pose proof (handle_index_range h); lia).
  pose proof (occupied_pins k' t _ Hw' Ht Hir Ho) as Hpos. unfold slot_cell in Hpos.
  destruct (so_occupied _ _ _ (to_slots _ _ (cw_table _ Hw' t Ht) _ Hir) Ho) as (_ & _ & _ & Hor).
  destruct (object_refs_live _ _ _ _ _ _ Hor) as [_ Hlive].
  pose proof (cw_refs _ Hw' _ Hlive) as Href. unfold slot_cell in Href. cbn [g_type g_object g_id grant_of].
  set (s := slot_at _ _) in *. split; [done|]. split; [done|]. split; [done|].
  split; intros Hty; rewrite Hty in Href, Hpos; cbn in Href.
  - unfold device_resource_destroy, nz. rewrite Href.
    destruct (Z.eqb_spec (pins k' (CAPABILITY_TYPE_DEVICE_RESOURCE, s_object s)) 0); [lia|].
    rewrite andb_false_r. by if_case.
  - unfold endpoint_destroy. rewrite Href. unfold nz at 1.
    destruct (Z.eqb_spec (pins k' (CAPABILITY_TYPE_ENDPOINT, s_object s)) 0); [lia|]. by if_case.
Qed.

Definition demo_ops : list LifeOp :=
  [LCap (CInit demo_table);
   LCap (CInsert demo_table demo_resource CAPABILITY_TYPE_DEVICE_RESOURCE 3);
   LResourceDestroy demo_resource].

Lemma no_dangling_capability_witness :
  let k' := foldl (fun k op => run_life op k) demo_kernel demo_ops in
  device_resource_destroy demo_resource k' = (false, k').
Proof.
  intros k'.
  destruct (no_dangling_capability demo_kernel demo_ops demo_table (make_handle 1 0)
    (mkGrant demo_resource CAPABILITY_TYPE_DEVICE_RESOURCE 1 3)) as (_ & _ & _ & H & _).
  - apply cap_wf_demo.
  - eapply (device_resource_create_wf demo_resource DEVICE_RESOURCE_DISPLAY kernel_boot true);
      [apply cap_wf_boot|apply object_registries_boot|by vm_compute].
  - unfold demo_ops. repeat constructor.
  - by vm_compute.
  - exact (H eq_refl).
Defined.
