(* ===== verification/Thread.v ===== *)
(** Threads: the wait protocol, activation and idle hand-over of
    [kernel/thread.c].

    A blocked operation is a wait reservation in the thread: a kind, the object
    waited for, a fresh identity and a result that goes from pending to exactly
    one terminal value. *)

From S2P Require Import Prelude Pmm ObjectStorage Kernel Objects.

Open Scope jcos_scope.

(** The address of the static [g_kernel_process] of process.c. *)
Definition g_kernel_process : Z := 0x40.

Definition process_kernel (k : Kernel) : Z :=
  if !om_initialized (k_prc k) || !p_initialized (prc k g_kernel_process) then 0
  else g_kernel_process.

Definition thread_current (k : Kernel) : Z :=
  if !tm_initialized (k_thr k) then 0 else tm_current (k_thr k).

(** * Waits *)

Definition wait_kind_valid (kind : ThreadWaitKind) : bool :=
  match kind with
  | THREAD_WAIT_IPC_RECEIVE | THREAD_WAIT_IPC_SEND | THREAD_WAIT_PROCESS_EXIT => true
  | THREAD_WAIT_NONE => false
  end.

Definition wait_terminal (result : ThreadWaitResult) : bool :=
  match result with
  | THREAD_WAIT_RESULT_COMPLETED | THREAD_WAIT_RESULT_CANCELLED
  | THREAD_WAIT_RESULT_PEER_CLOSED | THREAD_WAIT_RESULT_TIMED_OUT => true
  | THREAD_WAIT_RESULT_NONE | THREAD_WAIT_RESULT_PENDING => false
  end.

Definition wait_cleared (t : Thread) : Thread :=
  t <| t_wait_kind := THREAD_WAIT_NONE |> <| t_wait_result := THREAD_WAIT_RESULT_NONE |>
    <| t_wait_object := 0 |> <| t_wait_id := 0 |>.

Definition wait_clear (thread : Z) (k : Kernel) : Kernel := set_thr thread wait_cleared k.

(** [g_initialized && thread_storage_live(t) && t->id] *)
Definition thread_known (k : Kernel) (thread : Z) : bool :=
  tm_initialized (k_thr k) && thread_storage_live k thread && nz (t_id (thr k thread)).

Definition thread_wait_active (k : Kernel) (thread : Z) : bool :=
  if !thread_known k thread then false else
  negb (bool_decide (t_wait_kind (thr k thread) = THREAD_WAIT_NONE))
  || negb (bool_decide (t_wait_result (thr k thread) = THREAD_WAIT_RESULT_NONE))
  || nz (t_wait_object (thr k thread)) || nz (t_wait_id (thr k thread)).

Definition state_is (k : Kernel) (thread : Z) (s : ThreadState) : bool :=
  bool_decide (t_state (thr k thread) = s).

Definition thread_wait_begin (thread : Z) (kind : ThreadWaitKind) (object : Z) (k : Kernel)
    : bool * Kernel :=
  if !tm_initialized (k_thr k) || !thread_storage_live k thread || (thread != tm_current (k_thr k))
     || !nz (t_id (thr k thread)) || !nz object || !wait_kind_valid kind
     || !nz (tm_next_wait_id (k_thr k)) then (false, k) else
  if !state_is k thread THREAD_STATE_RUNNING || !t_on_run_queue (thr k thread) then (false, k) else
  if thread_wait_active k thread then (false, k) else
  let id := tm_next_wait_id (k_thr k) in
  let k := set_thr thread (fun t => t <| t_wait_kind := kind |>
             <| t_wait_result := THREAD_WAIT_RESULT_PENDING |>
             <| t_wait_object := object |> <| t_wait_id := id |>) k in
  (true, set_tm (fun m => m <| tm_next_wait_id := u64 (id + 1) |>) k).

Definition thread_wait_matches (k : Kernel) (thread : Z) (kind : ThreadWaitKind) (object : Z) : bool :=
  if !thread_known k thread || !nz object || !wait_kind_valid kind || !nz (t_wait_id (thr k thread))
  then false else
  bool_decide (t_wait_kind (thr k thread) = kind) && (t_wait_object (thr k thread) =? object).

Definition thread_wait_matches_id (k : Kernel) (thread : Z) (kind : ThreadWaitKind)
    (object wait_id : Z) : bool :=
  nz wait_id && thread_wait_matches k thread kind object && (t_wait_id (thr k thread) =? wait_id).

Definition thread_wait_try_complete (thread : Z) (kind : ThreadWaitKind) (object wait_id : Z)
    (result : ThreadWaitResult) (k : Kernel) : bool * Kernel :=
  if !wait_terminal result || !thread_wait_matches_id k thread kind object wait_id
     || !bool_decide (t_wait_result (thr k thread) = THREAD_WAIT_RESULT_PENDING) then (false, k) else
  if !state_is k thread THREAD_STATE_BLOCKED && !state_is k thread THREAD_STATE_READY
     && !((thread =? tm_current (k_thr k)) && state_is k thread THREAD_STATE_RUNNING) then (false, k) else
  (true, set_thr thread (fun t => t <| t_wait_result := result |>) k).

Definition thread_wait_cancel (thread : Z) (kind : ThreadWaitKind) (object : Z) (k : Kernel)
    : bool * Kernel :=
  if !thread_wait_matches k thread kind object then (false, k) else
  thread_wait_try_complete thread kind object (t_wait_id (thr k thread))
    THREAD_WAIT_RESULT_CANCELLED k.

Definition thread_wait_cancelled (k : Kernel) (thread : Z) (kind : ThreadWaitKind) (object : Z) : bool :=
  if !thread_wait_matches k thread kind object then false else
  bool_decide (t_wait_result (thr k thread) = THREAD_WAIT_RESULT_CANCELLED)
  || bool_decide (t_wait_result (thr k thread) = THREAD_WAIT_RESULT_PEER_CLOSED).

Definition thread_wait_end (thread : Z) (kind : ThreadWaitKind) (object : Z) (k : Kernel)
    : bool * Kernel :=
  if (thread != tm_current (k_thr k)) || !thread_wait_matches k thread kind object
     || !state_is k thread THREAD_STATE_RUNNING || !wait_terminal (t_wait_result (thr k thread))
  then (false, k) else (true, wait_clear thread k).

Definition thread_wait_abort (thread : Z) (kind : ThreadWaitKind) (object : Z) (k : Kernel)
    : bool * Kernel :=
  if (thread =? tm_current (k_thr k)) || !thread_wait_matches k thread kind object then (false, k) else
  if !state_is k thread THREAD_STATE_BLOCKED && !state_is k thread THREAD_STATE_READY
  then (false, k) else
  let k := if bool_decide (t_wait_result (thr k thread) = THREAD_WAIT_RESULT_PENDING)
           then set_thr thread (fun t => t <| t_wait_result := THREAD_WAIT_RESULT_CANCELLED |>) k
           else k in
  if !wait_terminal (t_wait_result (thr k thread)) then (false, k) else
  (true, wait_clear thread k).

(** * Contexts *)

Definition GDT_KERNEL_CODE_SELECTOR : Z := 0x08.

Definition GDT_KERNEL_DATA_SELECTOR : Z := 0x10.

(** [sizeof(InterruptFrame) + sizeof(InterruptStackFrame)] *)
Definition FRAME_BYTES : Z := SIZEOF_InterruptFrame + SIZEOF_InterruptStackFrame.

Definition thread_build_interrupt_context (thread rip cs rflags return_rsp return_ss : Z) (k : Kernel)
    : bool * Kernel :=
  let t := thr k thread in
  if !nz thread || !nz rip || !nz cs || !nz return_rsp || !nz return_ss
     || !nz (t_kernel_stack_base t) || !nz (t_kernel_stack_top t) then (false, k) else
  let anchor := u64 (t_kernel_stack_top t - 8) in
  if anchor <? u64 (t_kernel_stack_base t + FRAME_BYTES) then (false, k) else
  let frame := u64 (anchor - FRAME_BYTES) in
  let k := set_frm frame (fun _ => frame_zero <| f_rip := rip |> <| f_cs := cs |>
             <| f_rflags := rflags |> <| f_rsp := return_rsp |> <| f_ss := return_ss |>) k in
  (true, set_thr thread (fun t => t <| t_interrupt_rsp := frame |>
                                    <| t_interrupt_context_ready := true |>) k).

(** [trampoline] is the address of [thread_kernel_trampoline]. *)
Definition thread_prepare_kernel (trampoline thread entry argument : Z) (k : Kernel) : bool * Kernel :=
  let t := thr k thread in
  if !tm_initialized (k_thr k) || !thread_storage_live k thread || (thread =? tm_current (k_thr k))
     || !nz (t_id t) || !nz entry || !state_is k thread THREAD_STATE_READY
     || !t_owns_kernel_stack t then (false, k) else
  if !nz (t_kernel_stack_base t) || !nz (t_kernel_stack_top t)
     || (t_kernel_stack_top t <=? t_kernel_stack_base t) then (false, k) else
  if nz (Z.land (t_kernel_stack_top t) 0xF) then (false, k) else
  if t_kernel_stack_top t - t_kernel_stack_base t <? 8 then (false, k) else
  if t_interrupt_context_ready t || nz (t_interrupt_rsp t) then (false, k) else
  let initial_rsp := t_kernel_stack_top t - 8 in
  let k := set_thr thread (fun t => t <| t_entry := entry |> <| t_argument := argument |>) k in
  let '(built, k) := thread_build_interrupt_context thread trampoline GDT_KERNEL_CODE_SELECTOR 0x202
                       initial_rsp GDT_KERNEL_DATA_SELECTOR k in
  if !built then (false, set_thr thread (fun t => t <| t_entry := 0 |> <| t_argument := 0 |>) k)
  else (true, k).

(** * Activation *)

(** [gdt_set_rsp0(top)], then load CR3 unless it already names the page map. *)
Definition load_context (top target_cr3 : Z) (k : Kernel) : Kernel :=
  set_tm (fun m => m <| tm_rsp0 := top |>
    <| tm_cr3 := if Z.land (tm_cr3 m) (u64 (Z.lnot 0xFFF)) != target_cr3 then target_cr3 else tm_cr3 m |>) k.

Definition set_state (thread : Z) (s : ThreadState) (k : Kernel) : Kernel :=
  set_thr thread (fun t => t <| t_state := s |>) k.

Definition set_current (thread : Z) (k : Kernel) : Kernel :=
  set_tm (fun m => m <| tm_current := thread |>) k.

Definition thread_activate (thread : Z) (k : Kernel) : bool * Kernel :=
  let t := thr k thread in
  if !tm_initialized (k_thr k) || !nz (tm_current (k_thr k)) || !thread_storage_live k thread
     || !nz (t_id t) || !nz (t_process t) || !nz (t_kernel_stack_top t) then (false, k) else
  if nz (Z.land (t_kernel_stack_top t) 0xF) then (false, k) else
  let space := process_address_space k (t_process t) in
  if !nz space then (false, k) else
  let target_cr3 := address_space_cr3 k space in
  if !nz target_cr3 then (false, k) else
  if thread =? tm_current (k_thr k) then
    if !state_is k thread THREAD_STATE_RUNNING then (false, k)
    else (true, load_context (t_kernel_stack_top t) target_cr3 k)
  else
  if !state_is k thread THREAD_STATE_READY then (false, k) else
  if !state_is k (tm_current (k_thr k)) THREAD_STATE_RUNNING then (false, k) else
  let previous := tm_current (k_thr k) in
  let k := load_context (t_kernel_stack_top t) target_cr3 k in
  let k := set_state previous THREAD_STATE_READY k in
  let k := set_state thread THREAD_STATE_RUNNING k in
  (true, set_current thread k).

Definition thread_scheduler_enter_idle (idle_stack_top : Z) (k : Kernel) : bool * Kernel :=
  if !tm_initialized (k_thr k) || !nz (tm_current (k_thr k)) || !nz idle_stack_top
     || nz (Z.land idle_stack_top 0xF) then (false, k) else
  let previous := tm_current (k_thr k) in
  let t := thr k previous in
  if !thread_storage_live k previous || !nz (t_id t) || !state_is k previous THREAD_STATE_DEAD
     || t_on_run_queue t || nz (t_run_next t) || t_interrupt_context_ready t
     || nz (t_interrupt_rsp t) || thread_wait_active k previous then (false, k) else
  let kernel := process_kernel k in
  let space := if nz kernel then process_address_space k kernel else 0 in
  let target_cr3 := if nz space then address_space_cr3 k space else 0 in
  if !nz kernel || !p_kernel (prc k kernel) || !nz space || !a_kernel (spc k space) || !nz target_cr3
  then (false, k) else
  (true, set_current 0 (load_context idle_stack_top target_cr3 k)).

Definition thread_scheduler_activate_from_idle (thread : Z) (k : Kernel) : bool * Kernel :=
  let t := thr k thread in
  if !tm_initialized (k_thr k) || nz (tm_current (k_thr k)) || !thread_storage_live k thread
     || !nz (t_id t) || !nz (t_process t) || !state_is k thread THREAD_STATE_READY
     || !t_on_run_queue t || !nz (t_run_next t) || !t_interrupt_context_ready t
     || !nz (t_interrupt_rsp t) || !nz (t_kernel_stack_top t)
     || nz (Z.land (t_kernel_stack_top t) 0xF) then (false, k) else
  let space := process_address_space k (t_process t) in
  let target_cr3 := if nz space then address_space_cr3 k space else 0 in
  if !nz space || !nz target_cr3 then (false, k) else
  let k := load_context (t_kernel_stack_top t) target_cr3 k in
  (true, set_current thread (set_state thread THREAD_STATE_RUNNING k)).
