(* ===== verification/ThreadWaits.v ===== *)
(** The wait protocol of thread.c: identities are never reissued and the first
    terminal outcome of a wait is the only one. *)

From S2P Require Import Prelude Pmm ObjectStorage Kernel Objects Thread.

Open Scope jcos_scope.

Inductive WaitOp :=
  | WBegin (thread : Z) (kind : ThreadWaitKind) (object : Z)
  | WComplete (thread : Z) (kind : ThreadWaitKind) (object id : Z) (result : ThreadWaitResult)
  | WCancel (thread : Z) (kind : ThreadWaitKind) (object : Z)
  | WEnd (thread : Z) (kind : ThreadWaitKind) (object : Z)
  | WAbort (thread : Z) (kind : ThreadWaitKind) (object : Z).

(** The calls that report a completed wait, with the identity they completed. *)
Definition run_wait (op : WaitOp) (k : Kernel) : list Z * Kernel :=
  match op with
  | WBegin t kind o => ([], (thread_wait_begin t kind o k).2)
  | WComplete t kind o id r =>
    let '(b, k) := thread_wait_try_complete t kind o id r k in (if b then [id] else [], k)
  | WCancel t kind o =>
    let id := t_wait_id (thr k t) in
    let '(b, k) := thread_wait_cancel t kind o k in (if b then [id] else [], k)
  | WEnd t kind o => ([], (thread_wait_end t kind o k).2)
  | WAbort t kind o => ([], (thread_wait_abort t kind o k).2)
  end.

Fixpoint run_waits (ops : list WaitOp) (k : Kernel) : list Z * Kernel :=
  match ops with
  | [] => ([], k)
  | op :: ops => let '(c, k) := run_wait op k in let '(cs, k) := run_waits ops k in (c ++ cs, k)
  end.

(** The next identity; a wrapped counter stands past every identity. *)
Definition wait_limit (k : Kernel) : Z :=
  if tm_next_wait_id (k_thr k) =? 0 then 2 ^ 64 else tm_next_wait_id (k_thr k).

Record waits_wf (k : Kernel) : Prop := {
  ww_next : is_u64 (tm_next_wait_id (k_thr k));
  ww_below : forall t, 0 <= t_wait_id (thr k t) < wait_limit k;
  ww_unique : forall t u, t_wait_id (thr k t) <> 0 -> t_wait_id (thr k t) = t_wait_id (thr k u) -> t = u }.

(** * What one call does to the reservations *)

Definition wait_of (k : Kernel) (t : Z) : Z * ThreadWaitResult :=
  (t_wait_id (thr k t), t_wait_result (thr k t)).

(** Every call either leaves every reservation and the counter alone or makes
    one of three moves on one thread. *)
Inductive wait_move (k k' : Kernel) : list Z -> Prop :=
  | move_none :
      (forall u, wait_of k' u = wait_of k u) -> tm_next_wait_id (k_thr k') = tm_next_wait_id (k_thr k) ->
      wait_move k k' []
  | move_begin t :
      t_wait_id (thr k t) = 0 -> tm_next_wait_id (k_thr k) <> 0 ->
      wait_of k' t = (tm_next_wait_id (k_thr k), THREAD_WAIT_RESULT_PENDING) ->
      (forall u, u <> t -> wait_of k' u = wait_of k u) ->
      tm_next_wait_id (k_thr k') = u64 (tm_next_wait_id (k_thr k) + 1) -> wait_move k k' []
  | move_finish t r :
      t_wait_id (thr k t) <> 0 -> t_wait_result (thr k t) = THREAD_WAIT_RESULT_PENDING ->
      wait_terminal r = true -> wait_of k' t = (t_wait_id (thr k t), r) ->
      (forall u, u <> t -> wait_of k' u = wait_of k u) ->
      tm_next_wait_id (k_thr k') = tm_next_wait_id (k_thr k) ->
      wait_move k k' [t_wait_id (thr k t)]
  | move_clear t :
      wait_of k' t = (0, THREAD_WAIT_RESULT_NONE) ->
      (forall u, u <> t -> wait_of k' u = wait_of k u) ->
      tm_next_wait_id (k_thr k') = tm_next_wait_id (k_thr k) -> wait_move k k' [].

Lemma wait_of_set k t f u :
  wait_of (set_thr t f k) u =
    if decide (t = u) then (t_wait_id (f (thr k t)), t_wait_result (f (thr k t))) else wait_of k u.
Proof. unfold wait_of. rewrite thr_set. by case_decide. Qed.

Lemma wait_matches_nonzero k t kind o : thread_wait_matches k t kind o = true -> t_wait_id (thr k t) <> 0.
Proof.
  unfold thread_wait_matches. destruct (_ || _) eqn:E; [done|]. intros _. bool_prop. done.
Qed.

Lemma known_inactive k t :
  thread_known k t = true -> thread_wait_active k t = false -> t_wait_id (thr k t) = 0.
Proof. intros Hk. unfold thread_wait_active. rewrite Hk. cbn [negb]. intros H. by bool_prop. Qed.

Lemma thread_wait_begin_move t kind o k : wait_move k (thread_wait_begin t kind o k).2 [].
Proof.
  unfold thread_wait_begin. if_case; [by apply move_none|]. if_case; [by apply move_none|].
  if_case; [by apply move_none|]. cbn [snd]. apply move_begin with t; try done.
  - apply known_inactive; [|done]. unfold thread_known.
    repeat (apply orb_false_iff in E as [E ?]). bool_prop.
    repeat match goal with H : _ = true |- _ => rewrite H end. cbn. by apply negb_true_iff, Z.eqb_neq.
  - repeat (apply orb_false_iff in E as [E ?]). by bool_prop.
  - change (wait_of (set_thr t (fun t => t <| t_wait_kind := kind |>
      <| t_wait_result := THREAD_WAIT_RESULT_PENDING |> <| t_wait_object := o |>
      <| t_wait_id := tm_next_wait_id (k_thr k) |>) k) t = 
      (tm_next_wait_id (k_thr k), THREAD_WAIT_RESULT_PENDING)). by rewrite wait_of_set, decide_True.
  - intros u Hu. change (wait_of (set_thr t (fun t => t <| t_wait_kind := kind |>
      <| t_wait_result := THREAD_WAIT_RESULT_PENDING |> <| t_wait_object := o |>
      <| t_wait_id := tm_next_wait_id (k_thr k) |>) k) u = wait_of k u).
    by rewrite wait_of_set, decide_False.
Qed.

Lemma thread_wait_try_complete_move t kind o id r k :
  let '(b, k') := thread_wait_try_complete t kind o id r k in
  wait_move k k' (if b then [id] else []).
Proof.
  unfold thread_wait_try_complete. if_case; [by apply move_none|]. if_case; [by apply move_none|].
  bool_prop. unfold thread_wait_matches_id in *. bool_prop. subst id.
  apply move_finish with r; try done; [by apply bool_decide_eq_true in H0| |].
  - by rewrite wait_of_set, decide_True.
  - intros u Hu. by rewrite wait_of_set, decide_False.
Qed.

Lemma wait_clear_move t k : wait_move k (wait_clear t k) [].
Proof.
  apply move_clear with t; try done.
  - unfold wait_clear. by rewrite wait_of_set, decide_True.
  - intros u Hu. unfold wait_clear. by rewrite wait_of_set, decide_False.
Qed.

Lemma run_wait_move op k : let '(c, k') := run_wait op k in wait_move k k' c.
Proof.
  destruct op as [t kind o|t kind o id r|t kind o|t kind o|t kind o]; cbn [run_wait].
  - apply thread_wait_begin_move.
  - pose proof (thread_wait_try_complete_move t kind o id r k) as H.
    by destruct (thread_wait_try_complete _ _ _ _ _ _).
  - unfold thread_wait_cancel. if_case; [by apply move_none|].
    pose proof (thread_wait_try_complete_move t kind o (t_wait_id (thr k t))
      THREAD_WAIT_RESULT_CANCELLED k) as H.
    by destruct (thread_wait_try_complete _ _ _ _ _ _).
  - unfold thread_wait_end. if_case; [by apply move_none|]. apply wait_clear_move.
  - unfold thread_wait_abort. if_case; [by apply move_none|]. if_case; [by apply move_none|].
    destruct (bool_decide (t_wait_result (thr k t) = _)) eqn:Hp.
    + rewrite thr_set, decide_True by done. cbn [snd]. upd_simpl. cbn [wait_terminal negb snd].
      apply move_clear with t; try done.
      * unfold wait_clear. by rewrite wait_of_set, decide_True.
      * intros u Hu. unfold wait_clear. by rewrite !wait_of_set, !decide_False.
    + if_case; [by apply move_none|]. apply wait_clear_move.
Qed.

(** * Moves keep identities fresh and outcomes final *)

(** [w] has been issued and no thread has it pending. *)
Definition settled (k : Kernel) (w : Z) : Prop :=
  0 < w < wait_limit k /\
  forall t, t_wait_id (thr k t) = w -> t_wait_result (thr k t) <> THREAD_WAIT_RESULT_PENDING.

Lemma wait_limit_begin k k' :
  is_u64 (tm_next_wait_id (k_thr k)) -> tm_next_wait_id (k_thr k) <> 0 ->
  tm_next_wait_id (k_thr k') = u64 (tm_next_wait_id (k_thr k) + 1) ->
  wait_limit k = tm_next_wait_id (k_thr k) /\ wait_limit k' = tm_next_wait_id (k_thr k) + 1.
Proof.
  unfold wait_limit, is_u64. intros Hr Hn Heq. rewrite (proj2 (Z.eqb_neq _ _) Hn), Heq. split; [done|].
  unfold u64. destruct (decide (tm_next_wait_id (k_thr k) = 2 ^ 64 - 1)) as [->|Hne]; [done|].
  rewrite Z.mod_small by lia. by destruct (Z.eqb_spec (tm_next_wait_id (k_thr k) + 1) 0); [lia|].
Qed.

Lemma wait_limit_same k k' :
  tm_next_wait_id (k_thr k') = tm_next_wait_id (k_thr k) -> wait_limit k' = wait_limit k.
Proof. intros H. unfold wait_limit. by rewrite H. Qed.

Lemma waits_wf_update k k' t i :
  waits_wf k -> is_u64 (tm_next_wait_id (k_thr k')) -> wait_limit k <= wait_limit k' ->
  0 <= i < wait_limit k' -> i = 0 \/ i = t_wait_id (thr k t) \/ wait_limit k <= i ->
  (forall u, t_wait_id (thr k' u) = if decide (u = t) then i else t_wait_id (thr k u)) -> waits_wf k'.
Proof.
  intros [Hn Hb Hu] Hn' Hle Hi Hwhich Hid. split; [done| |].
  - intros u. rewrite Hid. pose proof (Hb u). case_decide; lia.
  - intros u v. rewrite !Hid. pose proof (Hb u). pose proof (Hb v).
    repeat case_decide; subst; try done.
    + intros Hnz Heq. destruct Hwhich as [?|[?|?]]; [lia| |lia]. apply Hu; congruence.
    + intros Hnz Heq. destruct Hwhich as [?|[?|?]]; [lia| |lia]. apply Hu; congruence.
    + apply Hu.
Qed.

Lemma moved_id {k k' t p} :
  wait_of k' t = p -> (forall u, u <> t -> wait_of k' u = wait_of k u) ->
  forall u, t_wait_id (thr k' u) = if decide (u = t) then p.1 else t_wait_id (thr k u).
Proof.
  intros Ht Hu u. case_decide as E; [subst u; by rewrite <- Ht|].
  specialize (Hu u E). unfold wait_of in Hu. congruence.
Qed.

Lemma moved_result {k k' t p} :
  wait_of k' t = p -> (forall u, u <> t -> wait_of k' u = wait_of k u) ->
  forall u, t_wait_result (thr k' u) = if decide (u = t) then p.2 else t_wait_result (thr k u).
Proof.
  intros Ht Hu u. case_decide as E; [subst u; by rewrite <- Ht|].
  specialize (Hu u E). unfold wait_of in Hu. congruence.
Qed.

Lemma wait_limit_pos k : waits_wf k -> 0 < wait_limit k.
Proof. intros Hw. pose proof (ww_below _ Hw 0). lia. Qed.

Lemma wait_move_wf k k' c : waits_wf k -> wait_move k k' c -> waits_wf k' /\ wait_limit k <= wait_limit k'.
Proof.
  intros Hw Hm. pose proof (wait_limit_pos k Hw) as Hpos. pose proof (ww_next _ Hw) as Hn.
  destruct Hm as [H Hnx|t H0 Hnz Ht H Hnx|t r H0 Hp Hr Ht H Hnx|t Ht H Hnx].
  - pose proof (wait_limit_same k k' Hnx) as Hl. split; [|lia].
    apply (waits_wf_update k k' 0 (t_wait_id (thr k 0))); try done; rewrite ?Hnx, ?Hl; try done.
    + apply Hw.
    + by right; left.
    + intros u. specialize (H u). unfold wait_of in H. case_decide; subst; congruence.
  - destruct (wait_limit_begin k k' Hn Hnz Hnx) as [Hl Hl']. split; [|lia].
    apply (waits_wf_update k k' t (tm_next_wait_id (k_thr k))); try done; try lia.
    + rewrite Hnx. apply u64_range.
    + by apply (moved_id Ht).
  - pose proof (wait_limit_same k k' Hnx) as Hl. split; [|lia].
    apply (waits_wf_update k k' t (t_wait_id (thr k t))); try done; rewrite ?Hnx, ?Hl; try done.
    + apply Hw.
    + by right; left.
    + by apply (moved_id Ht).
  - pose proof (wait_limit_same k k' Hnx) as Hl. split; [|lia].
    apply (waits_wf_update k k' t 0); try done; rewrite ?Hnx, ?Hl; try done; [by left|].
    by apply (moved_id Ht).
Qed.

(** A settled wait stays settled, and its outcome does not change. *)
Lemma wait_move_settled k k' c w :
  waits_wf k -> wait_move k k' c -> settled k w ->
  settled k' w /\ w ∉ c /\
  forall t, t_wait_id (thr k' t) = w ->
    t_wait_id (thr k t) = w /\ t_wait_result (thr k' t) = t_wait_result (thr k t).
Proof.
  intros Hw Hm [Hlim Hset]. destruct (wait_move_wf k k' c Hw Hm) as [_ Hle].
  assert (forall t, t_wait_id (thr k' t) = w ->
    t_wait_id (thr k t) = w /\ t_wait_result (thr k' t) = t_wait_result (thr k t)) as Hkeep.
  { intros u Hu. destruct Hm as [H Hnx|t H0 Hnz Ht H Hnx|t r H0 Hp Hr Ht H Hnx|t Ht H Hnx].
    - specialize (H u). unfold wait_of in H. split; congruence.
    - pose proof (wait_limit_begin k k' (ww_next _ Hw) Hnz Hnx) as [Hl _].
      rewrite (moved_id Ht H u) in Hu. rewrite (moved_result Ht H u).
      case_decide; cbn in Hu; [lia|done].
    - rewrite (moved_id Ht H u) in Hu. rewrite (moved_result Ht H u).
      case_decide; cbn in Hu; [|done]. subst u. exfalso. by apply (Hset t).
    - rewrite (moved_id Ht H u) in Hu. rewrite (moved_result Ht H u).
      case_decide; cbn in Hu; [lia|done]. }
  split_and!; [split; [lia|]| |done].
  - intros t Ht. destruct (Hkeep t Ht) as [Ht0 ->]. by apply Hset.
  - intros Hin. destruct Hm; try by apply not_elem_of_nil in Hin.
    apply list_elem_of_singleton in Hin. by apply (Hset t).
Qed.

(** The identities a move completes were pending and are settled after it. *)
Lemma wait_move_completes k k' c w :
  waits_wf k -> wait_move k k' c -> w ∈ c -> c = [w] /\ settled k' w.
Proof.
  intros Hw Hm Hin. pose proof (wait_limit_pos k Hw).
  destruct Hm as [H' Hnx|t H0 Hnz Ht H' Hnx|t r H0 Hp Hr Ht H' Hnx|t Ht H' Hnx];
    try by apply not_elem_of_nil in Hin.
  apply list_elem_of_singleton in Hin as ->. split; [done|].
  pose proof (ww_below _ Hw t).
  split; [rewrite (wait_limit_same k k' Hnx); lia|].
  intros u Hu. rewrite (moved_result Ht H' u). rewrite (moved_id Ht H' u) in Hu.
  case_decide as E; cbn in *; [by destruct r|].
  exfalso. apply E. apply (ww_unique _ Hw u t); congruence.
Qed.

Lemma run_waits_settled ops k :
  waits_wf k ->
  let '(cs, k') := run_waits ops k in
  waits_wf k' /\ NoDup cs /\ (forall w, w ∈ cs -> settled k' w) /\
  (forall w, settled k w -> settled k' w /\ w ∉ cs /\
     forall t, t_wait_id (thr k' t) = w ->
       t_wait_id (thr k t) = w /\ t_wait_result (thr k' t) = t_wait_result (thr k t)).
Proof.
  revert k. induction ops as [|op ops IH]; intros k Hw; cbn [run_waits].
  - split_and!; [done|constructor|set_solver|]. intros w Hs. split_and!; [done|set_solver|done].
  - pose proof (run_wait_move op k) as Hm. destruct (run_wait op k) as [c k1].
    destruct (wait_move_wf k k1 c Hw Hm) as [Hw1 _]. specialize (IH k1 Hw1).
    destruct (run_waits ops k1) as [cs k2]. destruct IH as (Hw2 & Hnd & Hcs & Hset).
    split_and!; [done| | |].
    + apply list.NoDup_app. split_and!; [|intros w Hin|done].
      * destruct Hm; apply NoDup_nil_2 || apply NoDup_singleton.
      * apply Hset. by apply (wait_move_completes k k1 c).
    + intros w Hin. apply elem_of_app in Hin as [Hin|Hin]; [|by apply Hcs].
      apply Hset. by apply (wait_move_completes k k1 c).
    + intros w Hs. destruct (wait_move_settled k k1 c w Hw Hm Hs) as (Hs1 & Hn1 & Hk1).
      destruct (Hset w Hs1) as (Hs2 & Hn2 & Hk2). split_and!; [done|set_solver|].
      intros t Ht. destruct (Hk2 t Ht) as [Ht1 ->]. by apply Hk1.
Qed.

(** C10. The first terminal outcome of a wait wins, and identities are never
    reissued: over any sequence of wait calls on any threads, no identity is
    reported complete twice, and once an outcome is recorded under an identity
    no thread ever holds that identity with another outcome. *)
Theorem wait_first_outcome_wins (k : Kernel) (ops : list WaitOp) :
  waits_wf k ->
  NoDup (run_waits ops k).1 /\ waits_wf (run_waits ops k).2 /\
  forall t w, t_wait_id (thr k t) = w -> w <> 0 -> wait_terminal (t_wait_result (thr k t)) = true ->
    forall u, t_wait_id (thr (run_waits ops k).2 u) = w ->
      u = t /\ t_wait_result (thr (run_waits ops k).2 u) = t_wait_result (thr k t).
Proof.
  intros Hw. pose proof (run_waits_settled ops k Hw) as H. destruct (run_waits ops k) as [cs k'].
  destruct H as (Hw' & Hnd & _ & Hset). cbn [fst snd]. split_and!; [done|done|].
  intros t w Ht Hnz Hterm u Hu. pose proof (ww_below _ Hw t).
  destruct (Hset w) as (_ & _ & Hkeep).
  { split; [lia|]. intros v Hv Hp. assert (v = t) as -> by (apply (ww_unique _ Hw); congruence).
    by rewrite Hp in Hterm. }
  destruct (Hkeep u Hu) as [Hu0 ->]. assert (u = t) as -> by (apply (ww_unique _ Hw); congruence). done.
Qed.

(** A running thread that waits on an endpoint. *)
Definition demo_thread : Z := 0x2000.

Definition demo_waiter : Kernel :=
  (set_thr demo_thread (fun t => t <| t_id := 7 |> <| t_state := THREAD_STATE_RUNNING |>
     <| t_on_run_queue := true |>) kernel_boot)
  <| k_thr := mkThreadMod demo_thread 8 1 true (<[0%nat := demo_thread]> (replicate 512 0)) 0 0 |>.

Definition demo_waits : list WaitOp :=
  [WBegin demo_thread THREAD_WAIT_IPC_RECEIVE 0x3000;
   WComplete demo_thread THREAD_WAIT_IPC_RECEIVE 0x3000 1 THREAD_WAIT_RESULT_COMPLETED;
   WComplete demo_thread THREAD_WAIT_IPC_RECEIVE 0x3000 1 THREAD_WAIT_RESULT_TIMED_OUT;
   WCancel demo_thread THREAD_WAIT_IPC_RECEIVE 0x3000;
   WEnd demo_thread THREAD_WAIT_IPC_RECEIVE 0x3000;
   WBegin demo_thread THREAD_WAIT_IPC_RECEIVE 0x3000;
   WCancel demo_thread THREAD_WAIT_IPC_RECEIVE 0x3000].

Lemma thr_demo_waiter t : wait_of demo_waiter t = (0, THREAD_WAIT_RESULT_NONE).
Proof.
  change (wait_of (set_thr demo_thread (fun t => t <| t_id := 7 |> <| t_state := THREAD_STATE_RUNNING |>
     <| t_on_run_queue := true |>) kernel_boot) t = (0, THREAD_WAIT_RESULT_NONE)).
  rewrite wait_of_set. by case_decide.
Qed.

Lemma wait_first_outcome_wins_witness :
  (run_waits demo_waits demo_waiter).1 = [1; 2] /\ NoDup (run_waits demo_waits demo_waiter).1.
Proof.
  split; [by vm_compute|]. apply (wait_first_outcome_wins demo_waiter demo_waits).
  assert (forall t, t_wait_id (thr demo_waiter t) = 0) as H0.
  { intros t. pose proof (thr_demo_waiter t) as H. unfold wait_of in H. congruence. }
  split.
  - unfold is_u64. cbn. lia.
  - intros t. rewrite H0. done.
  - intros t u Hnz. by rewrite H0 in Hnz.
Defined.
