(* ===== verification/Ring.v ===== *)
(** Intrusive circular lists: a successor function read along a list of
    addresses. Shared by the scheduler's run list. *)

From S2P Require Import Prelude.

Definition first_or (z : Z) (l : list Z) : Z := match l with [] => z | x :: _ => x end.

Definition final (l : list Z) : Z := default 0 (list.last l).

(** [next] links the elements of [l] in order and the last of them to [z]. *)
Fixpoint chain (next : Z -> Z) (l : list Z) (z : Z) : Prop :=
  match l with
  | [] => True
  | x :: l => next x = first_or z l /\ chain next l z
  end.

(** [next] closes [l] into a ring. *)
Definition ring (next : Z -> Z) (l : list Z) : Prop := chain next l (first_or 0 l).

Lemma first_or_app z l l' : first_or z (l ++ l') = first_or (first_or z l') l.
Proof. by destruct l. Qed.

Lemma final_snoc l x : final (l ++ [x]) = x.
Proof. unfold final. by rewrite last_snoc. Qed.

Lemma chain_app next l l' z : chain next (l ++ l') z <-> chain next l (first_or z l') /\ chain next l' z.
Proof.
  induction l as [|x l IH]; cbn; [tauto|]. rewrite IH, first_or_app. tauto.
Qed.

Lemma chain_ext f g l z : (forall x, x ∈ l -> f x = g x) -> chain f l z -> chain g l z.
Proof.
  induction l as [|x l IH]; cbn; [done|]. intros H [Hx Hl]. split.
  - rewrite <- H; [done|]. apply elem_of_cons. auto.
  - apply IH; [|done]. intros y Hy. apply H, elem_of_cons. auto.
Qed.

(** A ring can be entered at any of its elements. *)
Lemma ring_rotate next l l' : ring next (l ++ l') -> ring next (l' ++ l).
Proof.
  unfold ring. rewrite !chain_app. destruct l as [|x l], l' as [|y l']; cbn [app first_or]; tauto.
Qed.

Lemma ring_next next l x l' : ring next (l ++ x :: l') -> next x = first_or x (l' ++ l).
Proof.
  intros H%ring_rotate. unfold ring in H. cbn [app first_or chain] in H. apply H.
Qed.

(** The elements after [x], in ring order, chained back to [x]. *)
Lemma ring_after next l x l' : ring next (l ++ x :: l') -> chain next (l' ++ l) x.
Proof. intros H%ring_rotate. unfold ring in H. cbn [app first_or chain] in H. apply H. Qed.

Lemma ring_of_after next x l : next x = first_or x l -> chain next l x -> ring next (x :: l).
Proof. by split. Qed.

(** * Appending at the tail *)

Lemma ring_append next next' l q x :
  ring next (l ++ [q]) -> x ∉ l ++ [q] ->
  next' x = first_or 0 (l ++ [q]) -> next' q = x ->
  (forall y, y ∈ l -> next' y = next y) -> ring next' (l ++ [q; x]).
Proof.
  unfold ring. rewrite !chain_app, !first_or_app. cbn. intros [Hl _] Hx Hnx Hnq Hk.
  split_and!; try done. apply (chain_ext next); [|done]. intros y Hy. symmetry. by apply Hk.
Qed.

(** * Removing an element *)

Lemma ring_remove_only next x : ring next [x] -> next x = x.
Proof. unfold ring. cbn. tauto. Qed.

(** Redirecting the predecessor of [x] to its successor closes the rest. *)
Lemma ring_remove next next' l x l' p :
  NoDup (l ++ x :: l') -> ring next (l ++ x :: l') -> list.last (l' ++ l) = Some p ->
  next' p = next x -> (forall y, y ∈ l' ++ l -> y <> p -> next' y = next y) ->
  ring next' (l ++ l').
Proof.
  intros Hnd Hr Hlast Hp Hk. apply ring_rotate.
  destruct (last_Some (l' ++ l) p) as [Hsome _]. destruct (Hsome Hlast) as [m Hm].
  pose proof (ring_next _ _ _ _ Hr) as Hx. pose proof (ring_after _ _ _ _ Hr) as Hc.
  assert (NoDup (m ++ [p])) as Hnd'.
  { rewrite <- Hm. apply (NoDup_Permutation_proper _ _ (Permutation_app_comm l l')).
    apply list.NoDup_app in Hnd as (H1 & H2 & H3). apply list.NoDup_app. cbn in *.
    apply list.NoDup_cons in H3 as [_ H3]. split_and!; try done. set_solver. }
  rewrite Hm in *. unfold ring. rewrite chain_app, first_or_app in *. cbn in *.
  destruct Hc as [Hc _]. split_and!; [|by rewrite Hp, Hx|done].
  apply (chain_ext next); [|done]. intros y Hy. symmetry. apply Hk; [set_solver|].
  intros ->. apply list.NoDup_app in Hnd' as (_ & H & _). by apply (H p Hy), list_elem_of_singleton.
Qed.

(** Successors stay inside the chain. *)
Lemma chain_next_in next l z y : chain next l z -> y ∈ l -> next y ∈ tail l \/ next y = z.
Proof.
  induction l as [|x l IH]; cbn; intros Hc Hy; [by apply not_elem_of_nil in Hy|].
  destruct Hc as [Hx Hc]. apply elem_of_cons in Hy as [->|Hy].
  - rewrite Hx. destruct l as [|w l]; cbn; [by right|left]. apply elem_of_cons. auto.
  - destruct (IH Hc Hy) as [H|H]; [left|by right]. destruct l; [done|]. apply elem_of_cons. auto.
Qed.

Lemma ring_next_in next l y : ring next l -> y ∈ l -> next y ∈ l.
Proof.
  intros Hr Hy. destruct (chain_next_in _ _ _ _ Hr Hy) as [H| ->].
  - destruct l; [done|]. apply elem_of_cons. auto.
  - destruct l; [by apply not_elem_of_nil in Hy|]. apply elem_of_cons. auto.
Qed.

(** The predecessor of an element, and the elements walked to reach it. *)
Lemma ring_predecessor next l x l' p :
  NoDup (l ++ x :: l') -> ring next (l ++ x :: l') -> list.last (l' ++ l) = Some p ->
  exists a b, l ++ x :: l' = a ++ p :: b /\ next p = x /\ forall y, y ∈ a -> next y <> x.
Proof.
  intros Hnd Hr Hlast. destruct (decide (l = [])) as [->|Hne].
  - rewrite app_nil_r in Hlast. apply last_Some in Hlast as [m ->]. exists (x :: m), [].
    unfold ring in Hr. cbn [app first_or] in Hr. change (x :: m ++ [p]) with ((x :: m) ++ [p]) in *.
    apply chain_app in Hr as [Hc [Hp _]]. cbn in Hp, Hc. split_and!; [done|done|].
    intros y Hy Heq. apply list.NoDup_cons in Hnd as [Hx _].
    destruct (chain_next_in next (x :: m) p y Hc Hy) as [Hin|Hin]; cbn in Hin; rewrite Heq in Hin;
      apply Hx, elem_of_app; [by left|right; by apply list_elem_of_singleton].
  - assert (list.last l = Some p) as Hl.
    { rewrite last_app in Hlast. destruct (list.last l) eqn:E; [done|]. by apply last_None in E. }
    apply last_Some in Hl as [m ->]. exists m, (x :: l').
    unfold ring in Hr. rewrite <- app_assoc in *. cbn [app] in *.
    apply chain_app in Hr as [Hc [Hp _]]. cbn in Hp, Hc. split_and!; [done|done|].
    intros y Hy Heq. destruct (chain_next_in next m p y Hc Hy) as [Hin|Hin].
    + apply list.NoDup_app in Hnd as (_ & H & _). apply (H x); [|set_solver].
      rewrite <- Heq. destruct m; [done|]. apply elem_of_cons. auto.
    + apply list.NoDup_app in Hnd as (_ & _ & H). apply list.NoDup_cons in H as [H _].
      apply H. rewrite <- Heq, Hin. apply elem_of_cons. auto.
Qed.

(** Members of a list of object addresses are not null. *)
Lemma nz_in (l : list Z) x : 0 ∉ l -> x ∈ l -> nz x = true.
Proof. intros H0 Hx. apply negb_true_iff, Z.eqb_neq. by intros ->. Qed.

Lemma ring_last next l : ring next l -> l <> [] -> next (final l) = first_or 0 l.
Proof.
  intros Hr Hne. destruct (list.last l) as [p|] eqn:E; [|by apply last_None in E].
  apply last_Some in E as [m ->]. rewrite final_snoc. unfold ring in Hr.
  apply chain_app in Hr as [_ [H _]]. exact H.
Qed.

Lemma final_in l : l <> [] -> final l ∈ l.
Proof.
  intros Hne. unfold final. destruct (list.last l) eqn:E; [by apply last_Some_elem_of|].
  by apply last_None in E.
Qed.

Lemma first_in z l : l <> [] -> first_or z l ∈ l.
Proof. destruct l; [done|]. intros _. apply elem_of_cons. auto. Qed.

Lemma final_app l l' : l' <> [] -> final (l ++ l') = final l'.
Proof.
  intros Hne. unfold final. rewrite last_app. destruct (list.last l') eqn:E; [done|].
  by apply last_None in E.
Qed.
