(* ===== verification/Scheduler.v ===== *)
(** The scheduler: [kernel/scheduler.c].

    Runnable threads form a circular list through [run_next], entered at
    [g_run_head] and closed at [g_run_tail]. Interrupt entry points take the
    address of the saved frame and return the address of the frame to resume;
    [None] is [cpu_halt_forever]. A call that traps into the scheduler
    ([arch_reschedule_interrupt]) is split at the trap: [Trap op] is the request
    and [scheduler_reschedule] on the saved frame is its handling. *)

From S2P Require Import Prelude Pmm ObjectStorage Kernel Objects Thread.

Open Scope jcos_scope.

Definition SCHEDULER_TRAP_YIELD : Z := 1.

Definition SCHEDULER_TRAP_BLOCK : Z := 2.

Definition SCHEDULER_TRAP_EXIT : Z := 3.

Definition SCHEDULER_RFLAGS_FIXED : Z := 2.

Definition THREAD_KERNEL_STACK_SIZE : Z := 4 * FRAME_SIZE.

(** What the scheduler asks of [kernel/kernel_stack.c]: whether a stack is
    mapped between its guards at [base] over the frames from [physical]. *)
Class KernelStack := {
  kernel_stack_mapping_valid : Kernel -> Z -> Z -> bool }.

(** The outcome of a call that may trap into the scheduler. *)
Inductive SchedCall :=
  | Return (result : bool)
  | Trap (operation : Z)
  | Halt_once.

(** * Frames *)

Definition scheduler_interrupt_frame_valid (k : Kernel) (thread frame : Z) : bool :=
  let t := thr k thread in
  if !nz thread || !nz frame || !nz (t_kernel_stack_base t) || !nz (t_kernel_stack_top t)
     || (t_kernel_stack_top t <=? t_kernel_stack_base t) then false else
  if t_kernel_stack_size t <? FRAME_BYTES then false else
  if frame <? t_kernel_stack_base t then false else
  if frame >? u64 (t_kernel_stack_top t - FRAME_BYTES) then false else true.

Definition scheduler_idle_runtime_frame_valid (k : Kernel) (frame : Z) : bool :=
  let m := k_sch k in
  if !nz frame || !sm_idle_context_ready m || !nz (sm_idle_stack_base m) || !nz (sm_idle_stack_top m)
     || (sm_idle_stack_top m <=? sm_idle_stack_base m) then false else
  (frame >=? sm_idle_stack_base m) && (frame <=? u64 (sm_idle_stack_top m - SIZEOF_InterruptFrame)).

(** [idle_loop] is the address of [scheduler_idle_loop]. *)
Definition scheduler_idle_frame_build (idle_loop stack_base stack_top : Z) (k : Kernel)
    : option Z * Kernel :=
  if !nz stack_base || (stack_top <=? stack_base) || nz (Z.land stack_top 0xF) then (None, k) else
  if stack_top - stack_base <? FRAME_BYTES + 8 then (None, k) else
  let anchor := stack_top - 8 in
  let frame := anchor - FRAME_BYTES in
  if frame <? stack_base then (None, k) else
  (Some frame, set_frm frame (fun _ => frame_zero <| f_rip := idle_loop |>
     <| f_cs := GDT_KERNEL_CODE_SELECTOR |> <| f_rflags := SCHEDULER_RFLAGS_FIXED |>
     <| f_rsp := anchor |> <| f_ss := GDT_KERNEL_DATA_SELECTOR |>) k).

(** * The run list *)

Definition set_run_next (thread next : Z) (k : Kernel) : Kernel :=
  set_thr thread (fun t => t <| t_run_next := next |>) k.

Definition set_on_run_queue (thread : Z) (b : bool) (k : Kernel) : Kernel :=
  set_thr thread (fun t => t <| t_on_run_queue := b |>) k.

(** [idle] is what [scheduler_idle_stack_init] obtained: the physical address
    and the mapped base of the idle stack. *)
Definition scheduler_init (idle : option (Z * Z)) (k : Kernel) : bool * Kernel :=
  if sm_initialized (k_sch k) then (false, k) else
  let current := thread_current k in
  if !nz current || !nz (t_id (thr k current)) || !state_is k current THREAD_STATE_RUNNING
     || t_on_run_queue (thr k current) then (false, k) else
  match idle with
  | None => (false, k)
  | Some (physical, base) =>
    let k := set_on_run_queue current true (set_run_next current current k) in
    (true, set_sm (fun m => mkSchedMod current current 1 true 0 false 0 0 physical base
                             (base + THREAD_KERNEL_STACK_SIZE) true false 0 0) k)
  end.

Definition scheduler_add (thread : Z) (k : Kernel) : bool * Kernel :=
  let t := thr k thread in
  if !sm_initialized (k_sch k) || !nz thread || !nz (t_id t) || t_on_run_queue t
     || !state_is k thread THREAD_STATE_READY || !t_interrupt_context_ready t
     || !nz (t_interrupt_rsp t) then (false, k) else
  if !scheduler_interrupt_frame_valid k thread (t_interrupt_rsp t) then (false, k) else
  if !nz (sm_run_count (k_sch k)) then
    if !sm_idle_active (k_sch k) || nz (sm_run_head (k_sch k)) || nz (sm_run_tail (k_sch k))
    then (false, k) else
    let k := set_on_run_queue thread true (set_run_next thread thread k) in
    (true, set_sm (fun m => m <| sm_run_head := thread |> <| sm_run_tail := thread |>
                              <| sm_run_count := 1 |>) k)
  else
  if !nz (sm_run_head (k_sch k)) || !nz (sm_run_tail (k_sch k)) then (false, k) else
  let k := set_run_next thread (sm_run_head (k_sch k)) k in
  let k := set_run_next (sm_run_tail (k_sch k)) thread k in
  let k := set_sm (fun m => m <| sm_run_tail := thread |>) k in
  let k := set_on_run_queue thread true k in
  (true, set_sm (fun m => m <| sm_run_count := u64 (sm_run_count m + 1) |>) k).

(** The search loop of [scheduler_unlink]. *)
Fixpoint find_previous (n : nat) (k : Kernel) (previous thread : Z) : option Z :=
  match n with
  | O => None
  | S n =>
    let next := t_run_next (thr k previous) in
    if !nz previous || !nz next then None else
    if next =? thread then Some previous else find_previous n k next thread
  end.

Definition scheduler_unlink (thread : Z) (k : Kernel) : bool * Kernel :=
  if !nz thread || !t_on_run_queue (thr k thread) || !nz (sm_run_head (k_sch k))
     || !nz (sm_run_tail (k_sch k)) || !nz (sm_run_count (k_sch k)) then (false, k) else
  match find_previous (Z.to_nat (sm_run_count (k_sch k))) k (sm_run_head (k_sch k)) thread with
  | None => (false, k)
  | Some previous =>
    if (sm_run_count (k_sch k) =? 1)
       && ((sm_run_head (k_sch k) != thread) || (sm_run_tail (k_sch k) != thread)) then (false, k) else
    let k :=
      if sm_run_count (k_sch k) =? 1 then
        set_sm (fun m => m <| sm_run_head := 0 |> <| sm_run_tail := 0 |>) k
      else
        let k := set_run_next previous (t_run_next (thr k thread)) k in
        let k := if sm_run_head (k_sch k) =? thread
                 then set_sm (fun m => m <| sm_run_head := t_run_next (thr k thread) |>) k else k in
        let k := if sm_run_tail (k_sch k) =? thread
                 then set_sm (fun m => m <| sm_run_tail := previous |>) k else k in
        set_run_next (sm_run_tail (k_sch k)) (sm_run_head (k_sch k)) k in
    let k := set_run_next thread 0 k in
    let k := set_on_run_queue thread false k in
    (true, set_sm (fun m => m <| sm_run_count := u64 (sm_run_count m - 1) |>) k)
  end.

(** A thread that can be resumed from its saved frame. *)
Definition resumable (k : Kernel) (thread : Z) : bool :=
  let t := thr k thread in
  t_on_run_queue t && state_is k thread THREAD_STATE_READY && t_interrupt_context_ready t
  && nz (t_interrupt_rsp t) && scheduler_interrupt_frame_valid k thread (t_interrupt_rsp t).

Fixpoint find_next_loop (n : nat) (k : Kernel) (current candidate : Z) : option Z :=
  match n with
  | O => None
  | S n =>
    if !nz candidate then None else
    if (candidate != current) && resumable k candidate then Some candidate
    else find_next_loop n k current (t_run_next (thr k candidate))
  end.

(** The chosen thread; the chosen frame is its [interrupt_rsp]. *)
Definition scheduler_find_next_interrupt_thread (k : Kernel) (current : Z) : option Z :=
  if !nz current || !nz (t_run_next (thr k current)) || (sm_run_count (k_sch k) <? 2) then None else
  find_next_loop (Z.to_nat (sm_run_count (k_sch k) - 1)) k current (t_run_next (thr k current)).

Fixpoint find_idle_loop (n : nat) (k : Kernel) (candidate : Z) : option Z :=
  match n with
  | O => None
  | S n =>
    if !nz candidate || !nz (t_run_next (thr k candidate)) then None else
    if resumable k candidate then Some candidate
    else find_idle_loop n k (t_run_next (thr k candidate))
  end.

Definition scheduler_find_idle_ready (k : Kernel) : option Z :=
  let m := k_sch k in
  if !sm_idle_active m || !nz (sm_run_head m) || !nz (sm_run_tail m) || !nz (sm_run_count m) then None else
  find_idle_loop (Z.to_nat (sm_run_count m)) k (sm_run_head m).

Definition scheduler_remove (thread : Z) (k : Kernel) : bool * Kernel :=
  if !sm_initialized (k_sch k) || !nz thread || !t_on_run_queue (thr k thread) then (false, k) else
  if thread =? thread_current k then (false, k) else scheduler_unlink thread k.

(** * Voluntary switches *)

Definition current_runs (k : Kernel) (current : Z) : bool :=
  nz current && nz (t_id (thr k current)) && t_on_run_queue (thr k current)
  && state_is k current THREAD_STATE_RUNNING && nz (t_run_next (thr k current)).

Definition scheduler_yield (k : Kernel) : SchedCall :=
  let m := k_sch k in
  if !sm_initialized m || !nz (sm_run_head m) || !nz (sm_run_tail m) || !nz (sm_run_count m)
  then Return false else
  if !current_runs k (thread_current k) then Return false else
  if sm_run_count m =? 1 then Return true else Trap SCHEDULER_TRAP_YIELD.

Definition scheduler_block_current (k : Kernel) : SchedCall :=
  let m := k_sch k in
  if !sm_initialized m || !nz (sm_run_head m) || !nz (sm_run_tail m) || (sm_run_count m <? 2)
  then Return false else
  if !current_runs k (thread_current k) then Return false else Trap SCHEDULER_TRAP_BLOCK.

(** [Halt_once]: the processor idles for one interrupt and the call returns true. *)
Definition scheduler_wait_current (k : Kernel) : SchedCall * Kernel :=
  let m := k_sch k in
  if !sm_initialized m || !nz (sm_run_head m) || !nz (sm_run_tail m) || !nz (sm_run_count m)
  then (Return false, k) else
  let current := thread_current k in
  let valid := current_runs k current in
  if valid && (sm_run_count m >? 1) then (scheduler_block_current k, k) else
  if valid && (sm_run_count m =? 1) && (sm_run_head m =? current) && (sm_run_tail m =? current)
     && (t_run_next (thr k current) =? current) then
    (Halt_once, set_sm (fun m => m <| sm_idle_wait_count := u64 (sm_idle_wait_count m + 1) |>) k)
  else (Return false, k).

Definition scheduler_wake (thread : Z) (k : Kernel) : bool * Kernel :=
  let t := thr k thread in
  if !sm_initialized (k_sch k) || !nz thread || !nz (t_id t) || (thread =? thread_current k)
     || t_on_run_queue t || nz (t_run_next t) || !t_interrupt_context_ready t
     || !nz (t_interrupt_rsp t) || !state_is k thread THREAD_STATE_BLOCKED then (false, k) else
  if !scheduler_interrupt_frame_valid k thread (t_interrupt_rsp t) then (false, k) else
  let k := set_state thread THREAD_STATE_READY k in
  let '(added, k) := scheduler_add thread k in
  if !added then (false, set_state thread THREAD_STATE_BLOCKED k) else (true, k).

(** * Counters and queries *)

Definition when_initialized (k : Kernel) (v : Z) : Z := if sm_initialized (k_sch k) then v else 0.

Definition scheduler_idle_wait_count (k : Kernel) : Z :=
  when_initialized k (sm_idle_wait_count (k_sch k)).

Definition scheduler_idle_entry_count (k : Kernel) : Z :=
  when_initialized k (sm_idle_entry_count (k_sch k)).

Definition scheduler_idle_resume_count (k : Kernel) : Z :=
  when_initialized k (sm_idle_resume_count (k_sch k)).

Definition scheduler_thread_count (k : Kernel) : Z := when_initialized k (sm_run_count (k_sch k)).

Definition scheduler_preemption_count (k : Kernel) : Z :=
  when_initialized k (sm_preemption_count (k_sch k)).

Definition scheduler_reschedule_count (k : Kernel) : Z :=
  when_initialized k (sm_reschedule_count (k_sch k)).

Definition scheduler_idle_context_ready (k : Kernel) : bool :=
  let m := k_sch k in
  sm_initialized m && sm_idle_context_ready m && nz (sm_idle_stack_physical m)
  && nz (sm_idle_stack_base m)
  && (sm_idle_stack_top m =? u64 (sm_idle_stack_base m + THREAD_KERNEL_STACK_SIZE)).

Definition scheduler_idle_active (k : Kernel) : bool :=
  sm_initialized (k_sch k) && sm_idle_active (k_sch k).

Definition scheduler_idle_stack_guarded `{KernelStack} (k : Kernel) : bool :=
  scheduler_idle_context_ready k
  && kernel_stack_mapping_valid k (sm_idle_stack_physical (k_sch k)) (sm_idle_stack_base (k_sch k)).

Definition scheduler_can_terminate_current `{KernelStack} (k : Kernel) : bool :=
  let m := k_sch k in
  if !sm_initialized m || sm_idle_active m || !nz (sm_run_count m) || !nz (sm_run_head m)
     || !nz (sm_run_tail m) then false else
  let current := thread_current k in
  if !current_runs k current then false else
  if sm_run_count m =? 1 then
    scheduler_idle_context_ready k && scheduler_idle_stack_guarded k
    && (sm_run_head m =? current) && (sm_run_tail m =? current)
    && (t_run_next (thr k current) =? current)
  else match scheduler_find_next_interrupt_thread k current with Some _ => true | None => false end.

(** * Preemption *)

(** The walk of [scheduler_preemption_enable]; the result is [saw_current]. *)
Fixpoint preemption_scan (n : nat) (k : Kernel) (current thread : Z) (saw_current : bool) : option bool :=
  match n with
  | O => Some saw_current
  | S n =>
    let t := thr k thread in
    if !nz thread || !nz (t_id t) || !t_on_run_queue t || !nz (t_run_next t) then None else
    if thread =? current then
      if saw_current || !state_is k thread THREAD_STATE_RUNNING then None
      else preemption_scan n k current (t_run_next t) true
    else
      if !state_is k thread THREAD_STATE_READY || !t_interrupt_context_ready t
         || !nz (t_interrupt_rsp t) then None else
      if !scheduler_interrupt_frame_valid k thread (t_interrupt_rsp t) then None
      else preemption_scan n k current (t_run_next t) saw_current
  end.

Definition scheduler_preemption_enable (k : Kernel) : bool * Kernel :=
  let m := k_sch k in
  if !sm_initialized m || sm_preemption_enabled m || sm_idle_active m || !nz (sm_run_head m)
     || !nz (sm_run_tail m) || !nz (sm_run_count m) then (false, k) else
  let current := thread_current k in
  if !nz current || !nz (t_id (thr k current)) || !t_on_run_queue (thr k current)
     || !state_is k current THREAD_STATE_RUNNING then (false, k) else
  match preemption_scan (Z.to_nat (sm_run_count m)) k current (sm_run_head m) false with
  | Some true => (true, set_sm (fun m => m <| sm_preemption_enabled := true |>) k)
  | _ => (false, k)
  end.

Definition scheduler_preemption_disable (k : Kernel) : bool * Kernel :=
  if !sm_initialized (k_sch k) || !sm_preemption_enabled (k_sch k) then (false, k) else
  (true, set_sm (fun m => m <| sm_preemption_enabled := false |>) k).

Definition scheduler_preemption_enabled (k : Kernel) : bool :=
  sm_initialized (k_sch k) && sm_preemption_enabled (k_sch k).

(** * Switches from interrupt context *)

Definition set_rax (frame v : Z) (k : Kernel) : Kernel := set_frm frame (fun f => f <| f_rax := v |>) k.

Definition save_context (thread frame : Z) (k : Kernel) : Kernel :=
  set_thr thread (fun t => t <| t_interrupt_rsp := frame |> <| t_interrupt_context_ready := true |>) k.

Definition drop_context (thread : Z) (k : Kernel) : Kernel :=
  set_thr thread (fun t => t <| t_interrupt_rsp := 0 |> <| t_interrupt_context_ready := false |>) k.

Definition count_reschedule (k : Kernel) : Kernel :=
  set_sm (fun m => m <| sm_reschedule_count := u64 (sm_reschedule_count m + 1) |>) k.

Definition scheduler_switch_ready_from_interrupt (frame : Z) (timer_preemption : bool) (k : Kernel)
    : Z * Kernel :=
  let m := k_sch k in
  if !nz frame || !sm_initialized m || !nz (sm_run_head m) || !nz (sm_run_tail m)
     || (sm_run_count m <? 2) then (frame, k) else
  let current := thread_current k in
  if !current_runs k current then (frame, k) else
  if !scheduler_interrupt_frame_valid k current frame then (frame, k) else
  match scheduler_find_next_interrupt_thread k current with
  | None => (frame, if timer_preemption then k else set_rax frame 1 k)
  | Some chosen =>
    let chosen_frame := t_interrupt_rsp (thr k chosen) in
    let k := if timer_preemption then k else set_rax frame 1 k in
    let k := save_context current frame k in
    let '(activated, k) := thread_activate chosen k in
    if !activated then
      let k := drop_context current k in
      (frame, if timer_preemption then k else set_rax frame 0 k)
    else
      let k := drop_context chosen k in
      (chosen_frame,
       if timer_preemption
       then set_sm (fun m => m <| sm_preemption_count := u64 (sm_preemption_count m + 1) |>) k
       else count_reschedule k)
  end.

Definition scheduler_block_from_interrupt (frame : Z) (k : Kernel) : option (Z * Kernel) :=
  if !nz frame then Some (frame, k) else
  let k := set_rax frame 0 k in
  let m := k_sch k in
  if !sm_initialized m || !nz (sm_run_head m) || !nz (sm_run_tail m) || (sm_run_count m <? 2)
  then Some (frame, k) else
  let blocked := thread_current k in
  if !current_runs k blocked || !scheduler_interrupt_frame_valid k blocked frame then Some (frame, k) else
  match scheduler_find_next_interrupt_thread k blocked with
  | None => Some (frame, k)
  | Some chosen =>
    let chosen_frame := t_interrupt_rsp (thr k chosen) in
    let k := save_context blocked frame (set_rax frame 1 k) in
    let '(activated, k) := thread_activate chosen k in
    if !activated then Some (frame, set_rax frame 0 (drop_context blocked k)) else
    let '(unlinked, k) := scheduler_unlink blocked k in
    if !unlinked then None else
    let k := set_state blocked THREAD_STATE_BLOCKED k in
    Some (chosen_frame, count_reschedule (drop_context chosen k))
  end.

Definition scheduler_resume_from_idle (frame : Z) (k : Kernel) : option (Z * Kernel) :=
  if !nz frame || !sm_idle_active (k_sch k) then Some (frame, k) else
  if !scheduler_idle_runtime_frame_valid k frame then None else
  if !nz (sm_run_count (k_sch k)) then Some (frame, k) else
  match scheduler_find_idle_ready k with
  | None => None
  | Some chosen =>
    let chosen_frame := t_interrupt_rsp (thr k chosen) in
    let '(activated, k) := thread_scheduler_activate_from_idle chosen k in
    if !activated then None else
    let k := drop_context chosen k in
    let k := set_sm (fun m => m <| sm_idle_active := false |>
               <| sm_idle_resume_count := u64 (sm_idle_resume_count m + 1) |>) k in
    Some (chosen_frame, count_reschedule k)
  end.

Section Exit.
  Context `{KernelStack} (idle_loop : Z).

Definition scheduler_exit_from_interrupt (frame : Z) (counted : bool) (k : Kernel)
    : option (Z * Kernel) :=
  let m := k_sch k in
  if !nz frame || !sm_initialized m || !nz (sm_run_head m) || !nz (sm_run_tail m)
     || !nz (sm_run_count m) then None else
  let dying := thread_current k in
  if !current_runs k dying || !scheduler_interrupt_frame_valid k dying frame then None else
  if sm_run_count m =? 1 then
    if !scheduler_can_terminate_current k then None else
    let '(idle_frame, k) := scheduler_idle_frame_build idle_loop (sm_idle_stack_base m)
                              (sm_idle_stack_top m) k in
    match idle_frame with
    | None => None
    | Some idle_frame =>
      if !nz idle_frame then None else
      let '(unlinked, k) := scheduler_unlink dying k in
      if !unlinked then None else
      let k := drop_context dying (set_state dying THREAD_STATE_DEAD k) in
      let '(entered, k) := thread_scheduler_enter_idle (sm_idle_stack_top (k_sch k)) k in
      if !entered then None else
      let k := set_sm (fun m => m <| sm_idle_active := true |>
                 <| sm_idle_entry_count := u64 (sm_idle_entry_count m + 1) |>) k in
      Some (idle_frame, if counted then count_reschedule k else k)
    end
  else
  match scheduler_find_next_interrupt_thread k dying with
  | None => None
  | Some chosen =>
    let chosen_frame := t_interrupt_rsp (thr k chosen) in
    let '(activated, k) := thread_activate chosen k in
    if !activated then None else
    let '(unlinked, k) := scheduler_unlink dying k in
    if !unlinked then None else
    let k := drop_context dying (set_state dying THREAD_STATE_DEAD k) in
    let k := drop_context chosen k in
    Some (chosen_frame, if counted then count_reschedule k else k)
  end.

(** The operation is the low 32 bits of RAX: the C enumeration is 32-bit wide. *)
Definition scheduler_reschedule (frame : Z) (k : Kernel) : option (Z * Kernel) :=
  if !nz frame then Some (0, k) else
  let operation := u32 (f_rax (frm k frame)) in
  if operation =? SCHEDULER_TRAP_YIELD then Some (scheduler_switch_ready_from_interrupt frame false k) else
  if operation =? SCHEDULER_TRAP_BLOCK then scheduler_block_from_interrupt frame k else
  if operation =? SCHEDULER_TRAP_EXIT then scheduler_exit_from_interrupt frame true k else
  Some (frame, set_rax frame 0 k).

Definition scheduler_terminate_current_from_interrupt (frame : Z) (k : Kernel) : option (Z * Kernel) :=
  scheduler_exit_from_interrupt frame false k.

(** Up to the trap; past it the call never returns. *)
Definition scheduler_exit_current (k : Kernel) : option SchedCall :=
  if !scheduler_can_terminate_current k then None else
  let current := thread_current k in
  if !nz current || !nz (t_id (thr k current)) || !t_on_run_queue (thr k current)
     || !state_is k current THREAD_STATE_RUNNING then None else
  Some (Trap SCHEDULER_TRAP_EXIT).

End Exit.

Definition scheduler_preempt (frame : Z) (k : Kernel) : option (Z * Kernel) :=
  if sm_idle_active (k_sch k) then scheduler_resume_from_idle frame k else
  if !nz frame || !sm_preemption_enabled (k_sch k) then Some (frame, k) else
  Some (scheduler_switch_ready_from_interrupt frame true k).

(** * Terminating another thread *)

Definition scheduler_can_terminate_thread (k : Kernel) (thread : Z) : bool :=
  let t := thr k thread in
  if !sm_initialized (k_sch k) || !nz thread || (thread =? thread_current k) || !nz (t_id t)
  then false else
  match t_state t with
  | THREAD_STATE_READY =>
    if t_on_run_queue t then
      if !nz (t_run_next t) || !t_interrupt_context_ready t || !nz (t_interrupt_rsp t) then false
      else true
    else t_run_next t =? 0
  | THREAD_STATE_BLOCKED =>
    !t_on_run_queue t && !nz (t_run_next t) && t_interrupt_context_ready t && nz (t_interrupt_rsp t)
  | _ => false
  end.

Definition scheduler_terminate_thread (thread : Z) (k : Kernel) : bool * Kernel :=
  if !scheduler_can_terminate_thread k thread then (false, k) else
  if thread_wait_active k thread then (false, k) else
  let '(unlinked, k) :=
    if state_is k thread THREAD_STATE_READY && t_on_run_queue (thr k thread)
    then scheduler_unlink thread k else (true, k) in
  if !unlinked then (false, k) else
  (true, set_thr thread (fun t => t <| t_state := THREAD_STATE_DEAD |> <| t_interrupt_rsp := 0 |>
     <| t_interrupt_context_ready := false |> <| t_run_next := 0 |> <| t_on_run_queue := false |>) k).
