(* ===== verification/SchedulerProofs.v ===== *)
(** The run list of the scheduler as an ordered list of threads.

    [run_list k l] says that the links, the flags and the counters of the
    scheduler describe the list [l]. Insertion, removal and the two searches
    are then list operations. *)

From S2P Require Import Prelude Pmm ObjectStorage Kernel Objects Thread Ring Scheduler.

Open Scope jcos_scope.

Definition next_of (k : Kernel) (t : Z) : Z := t_run_next (thr k t).

Record run_list (k : Kernel) (l : list Z) : Prop := {
  rl_ring : ring (next_of k) l;
  rl_nodup : NoDup l;
  rl_nonnull : 0 ∉ l;
  rl_head : sm_run_head (k_sch k) = first_or 0 l;
  rl_tail : sm_run_tail (k_sch k) = final l;
  rl_count : sm_run_count (k_sch k) = Z.of_nat (length l);
  rl_bound : Z.of_nat (length l) < 2 ^ 32;
  rl_queued : forall t, t_on_run_queue (thr k t) = bool_decide (t ∈ l);
  rl_off : forall t, t ∉ l -> next_of k t = 0 }.

(** A thread without its scheduler links. *)
Definition unlinked (t : Thread) : Thread := t <| t_run_next := 0 |> <| t_on_run_queue := false |>.

(** A scheduler state without the run list. *)
Definition listless (m : SchedMod) : SchedMod :=
  m <| sm_run_head := 0 |> <| sm_run_tail := 0 |> <| sm_run_count := 0 |>.

(** [k'] differs from [k] only in scheduler links. *)
Record relinked (k k' : Kernel) : Prop := {
  re_thread : forall t, unlinked (thr k' t) = unlinked (thr k t);
  re_sched : listless (k_sch k') = listless (k_sch k);
  re_rest : k' = k <| k_threads := k_threads k' |> <| k_sch := k_sch k' |> }.

(** * Reading links after writes *)

Lemma next_of_set k t n u :
  next_of (set_run_next t n k) u = if decide (t = u) then n else next_of k u.
Proof. unfold next_of, set_run_next. rewrite thr_set. by case_decide; subst. Qed.

Lemma next_of_flag k t b u : next_of (set_on_run_queue t b k) u = next_of k u.
Proof. unfold next_of, set_on_run_queue. rewrite thr_set. by case_decide; subst. Qed.

Lemma queued_set k t n u : t_on_run_queue (thr (set_run_next t n k) u) = t_on_run_queue (thr k u).
Proof. unfold set_run_next. rewrite thr_set. by case_decide; subst. Qed.

Lemma queued_flag k t b u :
  t_on_run_queue (thr (set_on_run_queue t b k) u) = if decide (t = u) then b else t_on_run_queue (thr k u).
Proof. unfold set_on_run_queue. rewrite thr_set. by case_decide; subst. Qed.

Lemma thr_set_sm f k t : thr (set_sm f k) t = thr k t.
Proof. done. Qed.

Lemma next_of_set_sm f k t : next_of (set_sm f k) t = next_of k t.
Proof. done. Qed.

Lemma sch_set_thr f t k : k_sch (set_thr t f k) = k_sch k.
Proof. done. Qed.

Lemma relinked_refl k : relinked k k.
Proof. split; try done. by destruct k. Qed.

Lemma relinked_trans k k1 k2 : relinked k k1 -> relinked k1 k2 -> relinked k k2.
Proof.
  intros [Ht1 Hs1 Hr1] [Ht2 Hs2 Hr2]. split; [by intros; rewrite Ht2|by rewrite Hs2|].
  rewrite Hr2 at 1. rewrite Hr1 at 1. done.
Qed.

Lemma relinked_next k t n : relinked k (set_run_next t n k).
Proof.
  split; [|done|by destruct k]. intros u. unfold set_run_next. rewrite thr_set.
  by case_decide; subst.
Qed.

Lemma relinked_flag k t b : relinked k (set_on_run_queue t b k).
Proof.
  split; [|done|by destruct k]. intros u. unfold set_on_run_queue. rewrite thr_set.
  by case_decide; subst.
Qed.

Lemma relinked_sm k f : (forall m, listless (f m) = listless m) -> relinked k (set_sm f k).
Proof. intros H. split; [done|apply H|by destruct k]. Qed.

Create HintDb sched.

(** Chain the single writes of an update of the run list. *)
Ltac relink :=
  repeat first
    [ assumption
    | apply relinked_refl
    | eapply relinked_trans;
      [|first [apply relinked_next | apply relinked_flag | apply relinked_sm; done]] ].

(** * Walking the ring *)

Lemma find_previous_chain k a p b z t :
  chain (next_of k) (a ++ p :: b) z -> 0 ∉ a ++ p :: b -> z <> 0 ->
  next_of k p = t -> (forall y, y ∈ a -> next_of k y <> t) ->
  find_previous (length (a ++ p :: b)) k (first_or 0 (a ++ p :: b)) t = Some p.
Proof.
  intros Hc H0 Hz Hp. revert Hc H0. induction a as [|x a IH]; intros Hc H0 Hy; cbn [app length find_previous first_or].
  - change (t_run_next (thr k p)) with (next_of k p). rewrite Hp, Z.eqb_refl.
    rewrite (nz_in _ p H0) by set_solver.
    assert (nz t = true) as ->; [|done]. apply negb_true_iff, Z.eqb_neq. intros ->.
    cbn in Hc. destruct Hc as [Hc _]. rewrite Hp in Hc. destruct b; cbn in *; [done|set_solver].
  - change (t_run_next (thr k x)) with (next_of k x). cbn [app chain] in Hc. destruct Hc as [Hx Hc].
    assert (next_of k x = first_or 0 (a ++ p :: b)) as Hnx by (rewrite Hx; by destruct a).
    assert (first_or 0 (a ++ p :: b) ∈ a ++ p :: b) as Hin by (destruct a; cbn; set_solver).
    rewrite (nz_in _ x H0) by set_solver.
    rewrite Hnx in *. rewrite (nz_in _ (first_or 0 (a ++ p :: b)) H0) by set_solver.
    cbn [negb orb]. rewrite (proj2 (Z.eqb_neq _ _)) by (rewrite <- Hnx; apply Hy; set_solver).
    apply IH; [done|set_solver|]. intros y ?. apply Hy. set_solver.
Qed.

Lemma find_next_chain k cur m z :
  chain (next_of k) m z -> 0 ∉ m -> cur ∉ m ->
  find_next_loop (length m) k cur (first_or z m) = List.find (resumable k) m.
Proof.
  induction m as [|x m IH]; intros Hc H0 Hcur; cbn [length find_next_loop first_or List.find]; [done|].
  destruct Hc as [Hx Hc].
  rewrite (nz_in _ x H0) by set_solver. cbn [negb].
  rewrite (proj2 (Z.eqb_neq x cur)) by set_solver. cbn [negb andb].
  destruct (resumable k x); [done|].
  change (t_run_next (thr k x)) with (next_of k x). rewrite Hx. apply IH; [done|set_solver|set_solver].
Qed.

Lemma find_idle_chain k m z :
  chain (next_of k) m z -> 0 ∉ m -> z <> 0 ->
  find_idle_loop (length m) k (first_or z m) = List.find (resumable k) m.
Proof.
  induction m as [|x m IH]; intros Hc H0 Hz; cbn [length find_idle_loop first_or List.find]; [done|].
  destruct Hc as [Hx Hc].
  rewrite (nz_in _ x H0) by set_solver.
  change (t_run_next (thr k x)) with (next_of k x).
  assert (nz (next_of k x) = true) as ->.
  { apply negb_true_iff, Z.eqb_neq. rewrite Hx. destruct m; cbn; set_solver. }
  cbn [negb orb]. destruct (resumable k x); [done|]. rewrite Hx. apply IH; [done|set_solver|done].
Qed.

(** The next thread is the first resumable one after the current in ring order. *)
Lemma find_next_spec k l cur l' :
  run_list k (l ++ cur :: l') ->
  scheduler_find_next_interrupt_thread k cur = List.find (resumable k) (l' ++ l).
Proof.
  intros [Hr Hnd H0 _ _ Hc _ _ _]. unfold scheduler_find_next_interrupt_thread.
  change (t_run_next (thr k cur)) with (next_of k cur).
  pose proof (ring_next _ _ _ _ Hr) as Hn. pose proof (ring_after _ _ _ _ Hr) as Ha.
  rewrite (nz_in _ cur H0) by set_solver.
  rewrite Hc, length_app. cbn [length negb orb].
  destruct (decide (l' ++ l = [])) as [He|He].
  { rewrite He. apply app_eq_nil in He as [-> ->]. cbn. by destruct (negb _). }
  assert (first_or cur (l' ++ l) ∈ l' ++ l) as Hin by (destruct (l' ++ l); [done|cbn; set_solver]).
  assert (0 < length (l' ++ l))%nat as Hlen by (destruct (l' ++ l); [done|cbn; lia]).
  rewrite length_app in Hlen. rewrite Hn.
  rewrite (nz_in _ (first_or cur (l' ++ l)) H0) by set_solver.
  rewrite (proj2 (Z.ltb_ge _ _)) by lia. cbn [negb orb].
  replace (Z.to_nat (Z.of_nat (length l + S (length l')) - 1)) with (length (l' ++ l))
    by (rewrite length_app; lia).
  apply find_next_chain; [done|set_solver|].
  apply list.NoDup_app in Hnd as (_ & H1 & H2). apply list.NoDup_cons in H2 as [H2 _]. set_solver.
Qed.

Lemma find_idle_spec k l :
  run_list k l -> l <> [] -> sm_idle_active (k_sch k) = true ->
  scheduler_find_idle_ready k = List.find (resumable k) l.
Proof.
  intros [Hr Hnd H0 Hh Ht Hc _ _ _] Hne Hact. unfold scheduler_find_idle_ready.
  rewrite Hact, Hh, Ht, Hc. destruct l as [|x l]; [done|].
  assert (final (x :: l) ∈ x :: l) as Hf.
  { unfold final. destruct (list.last (x :: l)) eqn:E; [by apply last_Some_elem_of|].
    by apply last_None in E. }
  cbn [first_or]. rewrite (nz_in _ x H0) by set_solver.
  rewrite (nz_in _ (final (x :: l)) H0) by done.
  assert (nz (Z.of_nat (length (x :: l))) = true) as -> by (apply negb_true_iff, Z.eqb_neq; cbn; lia).
  cbn [negb orb]. rewrite Nat2Z.id. apply (find_idle_chain k (x :: l) x); [done|done|]. set_solver.
Qed.

(** * Removal and insertion *)

(** Reading the run list after any sequence of link writes. *)
Ltac link_simpl :=
  repeat (rewrite ?next_of_set_sm, ?next_of_flag, ?next_of_set, ?thr_set_sm, ?queued_flag, ?queued_set).

Lemma run_list_member k l t : run_list k l -> t ∈ l -> t_on_run_queue (thr k t) = true /\ nz t = true.
Proof.
  intros Hrl Ht. split; [|by apply (nz_in l), Ht; apply Hrl].
  rewrite (rl_queued _ _ Hrl). by apply bool_decide_eq_true.
Qed.

Lemma unlink_guard k l t :
  run_list k l -> t ∈ l ->
  !nz t || !t_on_run_queue (thr k t) || !nz (sm_run_head (k_sch k))
  || !nz (sm_run_tail (k_sch k)) || !nz (sm_run_count (k_sch k)) = false.
Proof.
  intros Hrl Ht. destruct (run_list_member _ _ _ Hrl Ht) as [-> ->].
  assert (l <> []) as Hne by (by intros ->; apply not_elem_of_nil in Ht).
  rewrite (rl_head _ _ Hrl), (rl_tail _ _ Hrl), (rl_count _ _ Hrl).
  rewrite (nz_in l (first_or 0 l)), (nz_in l (final l))
    by (apply Hrl || by apply first_in || by apply final_in).
  assert (nz (Z.of_nat (length l)) = true) as ->; [|done].
  apply negb_true_iff, Z.eqb_neq. destruct l; cbn; [done|lia].
Qed.

(** Removing the only thread leaves an empty list. *)
Lemma unlink_last k t :
  run_list k [t] ->
  exists k', scheduler_unlink t k = (true, k') /\ run_list k' [] /\ relinked k k'.
Proof.
  intros Hrl. pose proof (unlink_guard k [t] t Hrl ltac:(set_solver)) as Hg.
  destruct Hrl as [Hr Hnd H0 Hh Ht Hc Hb Hq Ho]. unfold scheduler_unlink. rewrite Hg, Hc, Hh.
  assert (t <> 0) as Htz by (intros ->; set_solver).
  assert (next_of k t = t) as Hnt by (unfold ring in Hr; cbn in Hr; tauto).
  assert (find_previous (Z.to_nat (Z.of_nat (length [t]))) k (first_or 0 [t]) t = Some t) as ->.
  { apply (find_previous_chain k [] t [] t t); try done. set_solver. }
  change (Z.of_nat (length [t]) =? 1) with true. cbn [first_or andb]. rewrite Ht.
  change (final [t]) with t. rewrite Z.eqb_refl. cbn [negb orb].
  eexists. split; [done|]. split; [|relink].
  split; cbn [length]; try done.
  - constructor.
  - set_solver.
  - cbn. by rewrite Hc.
  - intros u. link_simpl. rewrite Hq. case_decide; [done|].
    apply bool_decide_ext. set_solver.
  - intros u _. link_simpl. case_decide; [done|]. apply Ho. set_solver.
Qed.

Lemma unlink_many k l t l' :
  run_list k (l ++ t :: l') -> l' ++ l <> [] ->
  exists k', scheduler_unlink t k = (true, k') /\ run_list k' (l ++ l') /\ relinked k k'.
Proof.
  intros Hrl Hne. pose proof (unlink_guard k _ t Hrl ltac:(set_solver)) as Hg.
  destruct Hrl as [Hr Hnd H0 Hh Ht Hc Hb Hq Ho].
  destruct (list.last (l' ++ l)) as [p|] eqn:Hlast; [|by apply last_None in Hlast].
  destruct (ring_predecessor _ _ _ _ _ Hnd Hr Hlast) as (a & b & Heq & Hpt & Hbefore).
  assert (t ∉ l ++ l') as Htn.
  { apply list.NoDup_app in Hnd as (_ & H1 & H2). apply list.NoDup_cons in H2 as [H2 _]. set_solver. }
  assert (NoDup (l ++ l')) as Hnd'.
  { apply list.NoDup_app in Hnd as (H1 & H2 & H3). apply list.NoDup_cons in H3 as [_ H3].
    apply list.NoDup_app. split_and!; [done|set_solver|done]. }
  assert (p ∈ l ++ l') as Hpin by (apply last_Some_elem_of in Hlast; set_solver).
  assert (p <> t) as Hpt' by (by intros ->).
  assert (l ++ l' <> []) as Hne' by (by intros He; rewrite He in Hpin; apply not_elem_of_nil in Hpin).
  assert (2 <= Z.of_nat (length (l ++ t :: l'))) as Hlen.
  { rewrite length_app. cbn. assert (length (l' ++ l) <> 0%nat) by (by destruct (l' ++ l)).
    rewrite length_app in *. lia. }
  assert (first_or 0 (l ++ t :: l') <> 0) as Hfz.
  { intros He. apply H0. rewrite <- He. apply first_in. by destruct l. }
  unfold scheduler_unlink. rewrite Hg, Hc, Hh, Nat2Z.id, Heq.
  unfold ring in Hr. rewrite Heq in Hr.
  rewrite (find_previous_chain k a p b (first_or 0 (a ++ p :: b)) t) by (done || congruence).
  rewrite <- Heq in *. rewrite (proj2 (Z.eqb_neq (Z.of_nat _) 1)) by lia. cbn [andb].
  eexists. split; [done|].
  set (k1 := set_run_next p (t_run_next (thr k t)) k).
  assert (ring (next_of k1) (l ++ l')) as Hr1.
  { apply (ring_remove (next_of k) _ l t l' p); try done.
    - unfold k1. by rewrite next_of_set, decide_True.
    - intros y _ Hy. unfold k1. by rewrite next_of_set, decide_False. }
  assert (t_run_next (thr k1 t) = first_or t (l' ++ l)) as Hnt.
  { rewrite <- (ring_next _ _ _ _ (Hr : ring (next_of k) _)).
    change (next_of k1 t = next_of k t). unfold k1. by rewrite next_of_set, decide_False. }
  set (k2 := if sm_run_head (k_sch k1) =? t then _ else k1).
  assert (sm_run_head (k_sch k2) = first_or 0 (l ++ l') /\ sm_run_tail (k_sch k2) = final (l ++ t :: l') /\
          sm_run_count (k_sch k2) = Z.of_nat (length (l ++ t :: l')) /\
          relinked k k2 /\ forall u, thr k2 u = thr k1 u) as (Hh2 & Ht2 & Hc2 & Hre2 & Hthr2).
  { unfold k2. change (sm_run_head (k_sch k1)) with (sm_run_head (k_sch k)). rewrite Hh.
    destruct l as [|x l]; cbn [app first_or] in *.
    - rewrite Z.eqb_refl. split_and!; try done; [|by unfold k1; relink].
      cbn. rewrite Hnt, app_nil_r. by destruct l'.
    - rewrite (proj2 (Z.eqb_neq x t)) by set_solver.
      split_and!; try done. unfold k1. relink. }
  set (k3 := if sm_run_tail (k_sch k2) =? t then _ else k2).
  assert (sm_run_head (k_sch k3) = first_or 0 (l ++ l') /\ sm_run_tail (k_sch k3) = final (l ++ l') /\
          sm_run_count (k_sch k3) = Z.of_nat (length (l ++ t :: l')) /\
          relinked k k3 /\ forall u, thr k3 u = thr k1 u) as (Hh3 & Ht3 & Hc3 & Hre3 & Hthr3).
  { unfold k3. rewrite Ht2. destruct (decide (l' = [])) as [->|Hl'].
    - rewrite final_snoc, Z.eqb_refl, app_nil_r. cbn [app] in Hlast.
      split_and!; try done; [by rewrite <- (app_nil_r l)| |].
      + cbn. unfold final. by rewrite Hlast.
      + eapply relinked_trans; [done|]. relink.
    - assert (final (l ++ t :: l') = final l') as Hf
        by (change (t :: l') with ([t] ++ l'); by rewrite app_assoc, final_app).
      rewrite Hf. rewrite (proj2 (Z.eqb_neq (final l') t)).
      + split_and!; try done. by rewrite Ht2, Hf, final_app by done.
      + intros He. apply Htn, elem_of_app. right. rewrite <- He. by apply final_in. }
  rewrite Ht3, Hh3. clearbody k3. clear Hh2 Ht2 Hc2 Hre2 Hthr2 k2.
  assert (forall u, next_of k3 u = next_of k1 u) as Hn3 by (intros; unfold next_of; by rewrite Hthr3).
  pose proof (ring_last _ _ Hr1 Hne') as Hclose.
  assert (forall u, u <> t -> next_of (set_sm (fun m => m <| sm_run_count := u64 (sm_run_count m - 1) |>)
    (set_on_run_queue t false (set_run_next t 0 (set_run_next (final (l ++ l')) (first_or 0 (l ++ l')) k3)))) u
    = next_of k1 u) as Hfin.
  { intros u Hu. link_simpl. rewrite decide_False by done. case_decide; [congruence|]. apply Hn3. }
  split; [split; try done|].
  - apply (chain_ext (next_of k1)); [|done]. intros y Hy. symmetry. apply Hfin. by intros ->.
  - set_solver.
  - cbn. rewrite Hc3, u64_id by (unfold is_u64; lia). rewrite !length_app. cbn. lia.
  - rewrite length_app in *. cbn in *. lia.
  - intros u. link_simpl. case_decide as E; [subst u; by rewrite bool_decide_eq_false_2|].
    rewrite Hthr3. unfold k1. rewrite queued_set, Hq. apply bool_decide_ext. set_solver.
  - intros u Hu. destruct (decide (u = t)) as [->|Hut]; [link_simpl; by rewrite decide_True|].
    rewrite Hfin by done. unfold k1. rewrite next_of_set, decide_False by (intros ->; done).
    apply Ho. set_solver.
  - eapply relinked_trans; [apply Hre3|]. relink.
Qed.

(** Unlinking a queued thread always succeeds and keeps the order of the rest. *)
Lemma scheduler_unlink_spec k l t l' :
  run_list k (l ++ t :: l') ->
  exists k', scheduler_unlink t k = (true, k') /\ run_list k' (l ++ l') /\ relinked k k'.
Proof.
  intros Hrl. destruct (decide (l' ++ l = [])) as [He|He]; [|by apply unlink_many].
  apply app_eq_nil in He as [-> ->]. by apply unlink_last.
Qed.

Lemma scheduler_unlink_absent k l t : run_list k l -> t ∉ l -> scheduler_unlink t k = (false, k).
Proof.
  intros Hrl Ht. unfold scheduler_unlink.
  rewrite (rl_queued _ _ Hrl), bool_decide_eq_false_2 by done. cbn [negb]. by rewrite orb_true_r.
Qed.

Lemma scheduler_add_spec k l t :
  run_list k l -> t ∉ l -> nz t = true -> sm_initialized (k_sch k) = true ->
  nz (t_id (thr k t)) = true -> state_is k t THREAD_STATE_READY = true ->
  t_interrupt_context_ready (thr k t) = true -> nz (t_interrupt_rsp (thr k t)) = true ->
  scheduler_interrupt_frame_valid k t (t_interrupt_rsp (thr k t)) = true ->
  l <> [] \/ sm_idle_active (k_sch k) = true -> Z.of_nat (length l) + 1 < 2 ^ 32 ->
  exists k', scheduler_add t k = (true, k') /\ run_list k' (l ++ [t]) /\ relinked k k'.
Proof.
  intros [Hr Hnd H0 Hh Ht Hc Hb Hq Ho] Htl Hz Hin Hid Hst Hctx Hrsp Hfv Hact Hlen.
  assert (t <> 0) as Hz' by (by bool_prop).
  unfold scheduler_add. rewrite Hin, Hz, Hid, Hq, bool_decide_eq_false_2, Hst, Hctx, Hrsp, Hfv by done.
  cbn [negb orb]. rewrite Hc.
  destruct (decide (l = [])) as [->|Hne].
  - destruct Hact as [?|Hact]; [done|]. cbn [length Z.of_nat]. rewrite Hact, Hh, Ht. cbn.
    eexists. split; [done|]. split; [|relink].
    split; cbn [length]; try done.
    + unfold ring. cbn. link_simpl. by rewrite decide_True.
    + apply NoDup_singleton.
    + set_solver.
    + intros u. link_simpl. rewrite Hq. case_decide as E.
      * subst u. symmetry. apply bool_decide_eq_true. set_solver.
      * apply bool_decide_ext. set_solver.
    + intros u Hu. link_simpl. rewrite decide_False by set_solver. apply Ho. set_solver.
  - destruct (list.last l) as [q|] eqn:Hlast; [|by apply last_None in Hlast].
    apply last_Some in Hlast as [m ->].
    assert (nz (Z.of_nat (length (m ++ [q]))) = true) as ->.
    { apply negb_true_iff, Z.eqb_neq. rewrite length_app. cbn. lia. }
    cbn [negb]. rewrite Hh, Ht, final_snoc.
    rewrite (nz_in _ (first_or 0 (m ++ [q])) H0) by (by apply first_in).
    rewrite (nz_in _ q H0) by set_solver. cbn [negb orb].
    change (sm_run_tail (k_sch (set_run_next t ?x k))) with (sm_run_tail (k_sch k)).
    rewrite Ht, final_snoc. eexists. split; [done|].
    assert (t <> q) as Htq by set_solver.
    apply list.NoDup_app in Hnd as (Hm & Hmq & _).
    assert (q ∉ m) as Hqm by (intros Hin'; by apply (Hmq q Hin'), list_elem_of_singleton).
    split; [|relink]. split; try done.
    + rewrite <- app_assoc. apply (ring_append (next_of k) _ m q t); try done; link_simpl.
      * by rewrite decide_False, decide_True by congruence.
      * by rewrite decide_True.
      * intros y Hy. link_simpl. by rewrite !decide_False by (intros ->; set_solver).
    + rewrite <- app_assoc. apply list.NoDup_app. split_and!; [done|set_solver|].
      apply list.NoDup_cons. split; [set_solver|apply NoDup_singleton].
    + set_solver.
    + rewrite first_or_app. cbn. rewrite Hh. by destruct m.
    + by rewrite final_snoc.
    + cbn. rewrite Hc, u64_id by (unfold is_u64; lia). rewrite !length_app. cbn. lia.
    + rewrite length_app. cbn. lia.
    + intros u. link_simpl. rewrite Hq. case_decide as E.
      * subst u. symmetry. apply bool_decide_eq_true. set_solver.
      * apply bool_decide_ext. set_solver.
    + intros u Hu. link_simpl. rewrite !decide_False by set_solver. apply Ho. set_solver.
Qed.

(** * What a thread needs to be resumed *)

(** The fields of a thread no scheduling operation writes. *)
Definition fixed_fields (t : Thread) : Z * Z * Z * Z * Z :=
  (t_id t, t_process t, t_kernel_stack_base t, t_kernel_stack_top t, t_kernel_stack_size t).

(** [k'] has the registries, processes and address spaces of [k]. *)
(** The fields of a process the scheduler reads. *)
Definition process_fields (p : Process) : Z * bool * bool := (p_address_space p, p_kernel p, p_initialized p).

Lemma process_fields_eq a b :
  process_fields a = process_fields b ->
  p_address_space a = p_address_space b /\ p_kernel a = p_kernel b /\ p_initialized a = p_initialized b.
Proof. unfold process_fields. intros H. by simplify_eq. Qed.

Record same_world (k k' : Kernel) : Prop := {
  sw_spaces : k_spaces k' = k_spaces k;
  sw_spc : k_spc k' = k_spc k;
  sw_process : forall p, process_fields (prc k' p) = process_fields (prc k p);
  sw_prc : k_prc k' = k_prc k;
  sw_storage : tm_storage (k_thr k') = tm_storage (k_thr k);
  sw_tinit : tm_initialized (k_thr k') = tm_initialized (k_thr k);
  sw_fixed : forall t, fixed_fields (thr k' t) = fixed_fields (thr k t) }.

(** The page map a process runs on. *)
Definition process_cr3 (k : Kernel) (p : Z) : Z := address_space_cr3 k (process_address_space k p).

(** The thread can be given the processor. *)
Definition activatable (k : Kernel) (t : Z) : bool :=
  thread_storage_live k t && nz (t_id (thr k t)) && nz (t_process (thr k t))
  && nz (t_kernel_stack_top (thr k t)) && !nz (Z.land (t_kernel_stack_top (thr k t)) 0xF)
  && nz (process_address_space k (t_process (thr k t))) && nz (process_cr3 k (t_process (thr k t))).

(** The thread has a saved frame on its own kernel stack. *)
Definition has_frame (k : Kernel) (t : Z) : bool :=
  t_interrupt_context_ready (thr k t) && nz (t_interrupt_rsp (thr k t))
  && scheduler_interrupt_frame_valid k t (t_interrupt_rsp (thr k t)).

Lemma same_world_refl k : same_world k k.
Proof. done. Qed.

Lemma same_world_trans k k1 k2 : same_world k k1 -> same_world k1 k2 -> same_world k k2.
Proof. intros [? ? P1 ? ? ? H1] [? ? P2 ? ? ? H2]. split; try congruence; intros; by rewrite ?P2, ?H2. Qed.

Lemma same_world_process k k' p : same_world k k' -> process_address_space k' p = process_address_space k p.
Proof.
  intros [_ _ Hp Hr _ _ _]. unfold process_address_space, process_usable, process_storage_live.
  destruct (process_fields_eq _ _ (Hp p)) as (-> & _ & ->). by rewrite Hr.
Qed.

Lemma same_world_cr3 k k' p : same_world k k' -> process_cr3 k' p = process_cr3 k p.
Proof.
  intros Hw. unfold process_cr3. rewrite (same_world_process k k') by done.
  destruct Hw as [Hs Hc _ _ _ _ _]. unfold address_space_cr3, space_storage_live, spc. by rewrite Hs, Hc.
Qed.

Lemma same_world_live k k' t : same_world k k' -> thread_storage_live k' t = thread_storage_live k t.
Proof. intros Hw. unfold thread_storage_live. by rewrite (sw_storage _ _ Hw). Qed.

Lemma fixed_fields_eq a b :
  fixed_fields a = fixed_fields b ->
  t_id a = t_id b /\ t_process a = t_process b /\ t_kernel_stack_base a = t_kernel_stack_base b /\
  t_kernel_stack_top a = t_kernel_stack_top b /\ t_kernel_stack_size a = t_kernel_stack_size b.
Proof. unfold fixed_fields. intros H. by simplify_eq. Qed.

Lemma same_world_activatable k k' t : same_world k k' -> activatable k' t = activatable k t.
Proof.
  intros Hw. unfold activatable. rewrite (same_world_live k k') by done.
  destruct (fixed_fields_eq _ _ (sw_fixed _ _ Hw t)) as (-> & -> & _ & -> & _). by rewrite (same_world_process k k'), (same_world_cr3 k k').
Qed.

Lemma same_world_frame k k' t f :
  same_world k k' -> scheduler_interrupt_frame_valid k' t f = scheduler_interrupt_frame_valid k t f.
Proof.
  intros Hw. unfold scheduler_interrupt_frame_valid.
  by destruct (fixed_fields_eq _ _ (sw_fixed _ _ Hw t)) as (_ & _ & -> & -> & ->).
Qed.

Lemma relinked_world k k' : relinked k k' -> same_world k k'.
Proof.
  intros [Ht _ Hr]. rewrite Hr. split; try done. intros t.
  change (fixed_fields (thr k' t) = fixed_fields (thr k t)).
  assert (fixed_fields (unlinked (thr k' t)) = fixed_fields (unlinked (thr k t))) as H by (by rewrite Ht).
  exact H.
Qed.

Lemma relinked_field {A} (f : Thread -> A) k k' t :
  (forall x, f (unlinked x) = f x) -> relinked k k' -> f (thr k' t) = f (thr k t).
Proof. intros Hf [Ht _ _]. by rewrite <- Hf, Ht, Hf. Qed.

Lemma relinked_has_frame k k' t : relinked k k' -> has_frame k' t = has_frame k t.
Proof.
  intros Hr. unfold has_frame.
  rewrite (same_world_frame k k') by (by apply relinked_world).
  by rewrite (relinked_field t_interrupt_context_ready k k'), (relinked_field t_interrupt_rsp k k').
Qed.
