(* ===== verification/SchedulerWf.v ===== *)
(** The scheduler invariant and what each operation does to it.

    [sched_wf k l]: the run list is [l], its members can be given the processor,
    exactly the current thread is RUNNING (none while the processor idles), and
    every other queued or blocked thread has a saved frame on its own stack. *)

From S2P Require Import Prelude Pmm ObjectStorage Kernel Objects Thread Ring Scheduler SchedulerProofs.

Open Scope jcos_scope.

Definition current_of (k : Kernel) : Z := tm_current (k_thr k).

Definition idle (k : Kernel) : bool := sm_idle_active (k_sch k).

(** The idle continuation's stack. *)
Record idle_stack_ok (k : Kernel) : Prop := {
  is_ready : scheduler_idle_context_ready k = true;
  is_base : 0 < sm_idle_stack_base (k_sch k);
  is_top : sm_idle_stack_top (k_sch k) = sm_idle_stack_base (k_sch k) + THREAD_KERNEL_STACK_SIZE;
  is_aligned : Z.land (sm_idle_stack_top (k_sch k)) 0xF = 0;
  is_range : sm_idle_stack_top (k_sch k) < 2 ^ 64 }.

(** The kernel process runs on a kernel page map. *)
Record kernel_process_ok (k : Kernel) : Prop := {
  kp_live : nz (process_kernel k) = true;
  kp_kernel : p_kernel (prc k (process_kernel k)) = true;
  kp_space : nz (process_address_space k (process_kernel k)) = true;
  kp_kspace : a_kernel (spc k (process_address_space k (process_kernel k))) = true;
  kp_cr3 : nz (process_cr3 k (process_kernel k)) = true }.

Record sched_wf (k : Kernel) (l : list Z) : Prop := {
  wf_init : sm_initialized (k_sch k) = true;
  wf_tinit : tm_initialized (k_thr k) = true;
  wf_reg : registry THREAD_STORAGE_CAPACITY (tm_storage (k_thr k));
  wf_list : run_list k l;
  wf_member : forall t, t ∈ l -> activatable k t = true;
  wf_current : idle k = false ->
    current_of k ∈ l /\ t_state (thr k (current_of k)) = THREAD_STATE_RUNNING;
  wf_idle : idle k = true -> current_of k = 0;
  wf_ready : forall t, t ∈ l -> t <> current_of k ->
    t_state (thr k t) = THREAD_STATE_READY /\ has_frame k t = true;
  wf_running : forall t, t_state (thr k t) = THREAD_STATE_RUNNING -> idle k = false /\ t = current_of k;
  wf_blocked : forall t, t_state (thr k t) = THREAD_STATE_BLOCKED ->
    t <> 0 /\ has_frame k t = true /\ activatable k t = true;
  wf_idle_stack : idle_stack_ok k;
  wf_kernel : kernel_process_ok k }.

(** * Frame lemmas *)

(** The parts of the scheduler state no switch writes. *)
Definition sched_fixed (m : SchedMod) : bool * Z * Z * Z * bool :=
  (sm_initialized m, sm_idle_stack_physical m, sm_idle_stack_base m, sm_idle_stack_top m,
   sm_idle_context_ready m).

Lemma sched_fixed_eq m m' :
  sched_fixed m = sched_fixed m' ->
  sm_initialized m = sm_initialized m' /\ sm_idle_stack_physical m = sm_idle_stack_physical m' /\
  sm_idle_stack_base m = sm_idle_stack_base m' /\ sm_idle_stack_top m = sm_idle_stack_top m' /\
  sm_idle_context_ready m = sm_idle_context_ready m'.
Proof. unfold sched_fixed. intros H. by simplify_eq. Qed.

Lemma idle_stack_frame k k' :
  sched_fixed (k_sch k') = sched_fixed (k_sch k) -> idle_stack_ok k -> idle_stack_ok k'.
Proof.
  intros (Hi & Hp & Hb & Ht & Hc)%sched_fixed_eq [H1 H2 H3 H4 H5].
  split; unfold scheduler_idle_context_ready in *; rewrite ?Hi, ?Hp, ?Hb, ?Ht, ?Hc; done.
Qed.

Lemma kernel_process_frame k k' : same_world k k' -> kernel_process_ok k -> kernel_process_ok k'.
Proof.
  intros Hw [H1 H2 H3 H4 H5].
  assert (process_kernel k' = process_kernel k) as Hk.
  { unfold process_kernel. destruct (process_fields_eq _ _ (sw_process _ _ Hw g_kernel_process)) as (_ & _ & ->).
    by rewrite (sw_prc _ _ Hw). }
  split; rewrite ?Hk, ?(same_world_process k k' _ Hw), ?(same_world_cr3 k k' _ Hw); try done.
  - by destruct (process_fields_eq _ _ (sw_process _ _ Hw (process_kernel k))) as (_ & -> & _).
  - unfold spc. by rewrite (sw_spaces _ _ Hw).
Qed.

(** Rebuilding the invariant: only the scheduling facts need an argument. *)
Lemma sched_wf_rebuild k k' l l' :
  sched_wf k l -> same_world k k' -> sched_fixed (k_sch k') = sched_fixed (k_sch k) -> run_list k' l' ->
  (forall t, t ∈ l' -> activatable k t = true) ->
  (idle k' = false -> current_of k' ∈ l' /\ t_state (thr k' (current_of k')) = THREAD_STATE_RUNNING) ->
  (idle k' = true -> current_of k' = 0) ->
  (forall t, t ∈ l' -> t <> current_of k' ->
     t_state (thr k' t) = THREAD_STATE_READY /\ has_frame k' t = true) ->
  (forall t, t_state (thr k' t) = THREAD_STATE_RUNNING -> idle k' = false /\ t = current_of k') ->
  (forall t, t_state (thr k' t) = THREAD_STATE_BLOCKED ->
     t <> 0 /\ has_frame k' t = true /\ activatable k t = true) ->
  sched_wf k' l'.
Proof.
  intros Hwf Hw Hf Hl Hm Hc Hi Hr Hrun Hb.
  split; try done.
  - destruct (sched_fixed_eq _ _ Hf) as (-> & _). apply Hwf.
  - rewrite (sw_tinit _ _ Hw). apply Hwf.
  - rewrite (sw_storage _ _ Hw). apply Hwf.
  - intros t Ht. rewrite (same_world_activatable k k') by done. by apply Hm.
  - intros t Ht. destruct (Hb t Ht) as (? & ? & ?).
    rewrite (same_world_activatable k k') by done. done.
  - by apply (idle_stack_frame k), Hwf.
  - by apply (kernel_process_frame k), Hwf.
Qed.

(** * Writes to threads, frames and globals *)

Lemma thr_load top cr3 k t : thr (load_context top cr3 k) t = thr k t.
Proof. done. Qed.

Lemma thr_set_current c k t : thr (set_current c k) t = thr k t.
Proof. done. Qed.

Lemma thr_set_rax f v k t : thr (set_rax f v k) t = thr k t.
Proof. done. Qed.

Lemma thr_count k t : thr (count_reschedule k) t = thr k t.
Proof. done. Qed.

(** A write to one thread that keeps its links and fixed fields. *)
Definition keeps_links (f : Thread -> Thread) : Prop :=
  forall t, t_run_next (f t) = t_run_next t /\ t_on_run_queue (f t) = t_on_run_queue t /\
            fixed_fields (f t) = fixed_fields t.

Lemma same_world_set_thr t f k : keeps_links f -> same_world k (set_thr t f k).
Proof.
  intros Hf. split; try done. intros u. rewrite thr_set. case_decide; [subst|done]. apply Hf.
Qed.

Lemma run_list_frame k k' l :
  (sm_run_head (k_sch k'), sm_run_tail (k_sch k'), sm_run_count (k_sch k')) =
    (sm_run_head (k_sch k), sm_run_tail (k_sch k), sm_run_count (k_sch k)) ->
  (forall t, t_run_next (thr k' t) = t_run_next (thr k t) /\
             t_on_run_queue (thr k' t) = t_on_run_queue (thr k t)) ->
  run_list k l -> run_list k' l.
Proof.
  intros Hs Ht [Hr Hnd H0 Hh Htl Hc Hb Hq Ho]. simplify_eq/=.
  assert (forall t, next_of k' t = next_of k t) as Hn by (intros; apply Ht).
  split; try done; try congruence.
  - apply (chain_ext (next_of k)); [|done]. intros. by rewrite Hn.
  - intros t. destruct (Ht t) as [_ ->]. apply Hq.
  - intros t Hin. rewrite Hn. by apply Ho.
Qed.

Lemma run_list_set_thr t f k l : keeps_links f -> run_list k l -> run_list (set_thr t f k) l.
Proof.
  intros Hf. apply run_list_frame; [done|]. intros u. rewrite thr_set.
  case_decide; [subst|done]. destruct (Hf (thr k u)) as (? & ? & ?). done.
Qed.

Lemma keeps_state s : keeps_links (fun t => t <| t_state := s |>).
Proof. done. Qed.

Lemma keeps_save f : keeps_links (fun t => t <| t_interrupt_rsp := f |> <| t_interrupt_context_ready := true |>).
Proof. done. Qed.

Lemma keeps_drop : keeps_links (fun t => t <| t_interrupt_rsp := 0 |> <| t_interrupt_context_ready := false |>).
Proof. done. Qed.

#[export] Hint Resolve keeps_state keeps_save keeps_drop : sched.

Lemma same_world_sm k f : same_world k (set_sm f k).
Proof. done. Qed.

Lemma same_world_current k c : same_world k (set_current c k).
Proof. done. Qed.

Lemma same_world_load k top cr3 : same_world k (load_context top cr3 k).
Proof. done. Qed.

Lemma same_world_rax k f v : same_world k (set_rax f v k).
Proof. done. Qed.

(** The world after a sequence of scheduler writes. *)
Ltac world :=
  unfold save_context, drop_context, set_state, count_reschedule;
  repeat first
    [ assumption | apply same_world_refl
    | apply relinked_world; assumption
    | eapply same_world_trans;
      [|first [ apply same_world_set_thr; solve [eauto with sched] | apply same_world_sm
              | apply same_world_current | apply same_world_load | apply same_world_rax ]] ].

(** A thread's contents after a sequence of scheduler writes. *)
Ltac thread_simpl :=
  unfold save_context, drop_context, set_state, count_reschedule, set_rax;
  repeat (rewrite ?thr_set_sm, ?thr_set_current, ?thr_load, ?thr_set).

(** * Activation *)

Lemma thread_activate_spec k t :
  tm_initialized (k_thr k) = true -> nz (current_of k) = true -> activatable k t = true ->
  t <> current_of k -> t_state (thr k t) = THREAD_STATE_READY ->
  t_state (thr k (current_of k)) = THREAD_STATE_RUNNING ->
  thread_activate t k =
    (true, set_current t (set_state t THREAD_STATE_RUNNING (set_state (current_of k) THREAD_STATE_READY
       (load_context (t_kernel_stack_top (thr k t)) (process_cr3 k (t_process (thr k t))) k)))).
Proof.
  unfold current_of, activatable, thread_activate, state_is. intros Hi Hc Ha Hne Hs Hsc.
  apply andb_true_iff in Ha as [Ha Hcr]. apply andb_true_iff in Ha as [Ha Hsp].
  apply andb_true_iff in Ha as [Ha Hal]. apply andb_true_iff in Ha as [Ha Htop].
  apply andb_true_iff in Ha as [Ha Hpr]. apply andb_true_iff in Ha as [Hlive Hid].
  unfold process_cr3 in *. apply negb_true_iff in Hal.
  rewrite Hi, Hc, Hlive, Hid, Hpr, Htop, Hal, Hsp, Hcr. cbn [negb orb].
  rewrite (proj2 (Z.eqb_neq _ _) Hne), Hs, Hsc. by rewrite !bool_decide_eq_true_2.
Qed.

Lemma has_frame_set k t f u :
  has_frame (set_thr t f k) u =
    if decide (t = u) then has_frame (set_thr t f k) t else has_frame k u.
Proof.
  case_decide as E; [by subst|]. unfold has_frame, scheduler_interrupt_frame_valid.
  by rewrite thr_set, decide_False.
Qed.

(** [has_frame] only reads the context and the fixed fields. *)
Lemma has_frame_ext k k' t :
  same_world k k' ->
  t_interrupt_context_ready (thr k' t) = t_interrupt_context_ready (thr k t) ->
  t_interrupt_rsp (thr k' t) = t_interrupt_rsp (thr k t) -> has_frame k' t = has_frame k t.
Proof. intros Hw H1 H2. unfold has_frame. by rewrite H1, H2, (same_world_frame k k'). Qed.

Lemma has_frame_saved k k' t f :
  same_world k k' -> t_interrupt_context_ready (thr k' t) = true -> t_interrupt_rsp (thr k' t) = f ->
  nz f = true -> scheduler_interrupt_frame_valid k t f = true -> has_frame k' t = true.
Proof. intros Hw H1 H2 Hf Hv. unfold has_frame. by rewrite H1, H2, Hf, (same_world_frame k k'). Qed.

Lemma frame_valid_nz k t f : scheduler_interrupt_frame_valid k t f = true -> nz f = true.
Proof.
  unfold scheduler_interrupt_frame_valid. destruct (nz f); [done|]. by rewrite !orb_true_r.
Qed.

(** * Scheduling views

    The state and the saved context of a thread. *)

Definition view (k : Kernel) (t : Z) : ThreadState * bool * Z :=
  (t_state (thr k t), t_interrupt_context_ready (thr k t), t_interrupt_rsp (thr k t)).

Lemma view_relinked k k' t : relinked k k' -> view k' t = view k t.
Proof.
  intros Hr. unfold view.
  by rewrite (relinked_field t_state k k'), (relinked_field t_interrupt_context_ready k k'),
    (relinked_field t_interrupt_rsp k k').
Qed.

Lemma view_eq k k' t :
  view k' t = view k t ->
  t_state (thr k' t) = t_state (thr k t) /\
  t_interrupt_context_ready (thr k' t) = t_interrupt_context_ready (thr k t) /\
  t_interrupt_rsp (thr k' t) = t_interrupt_rsp (thr k t).
Proof. unfold view. intros H. by simplify_eq. Qed.

Lemma view_has_frame k k' t : same_world k k' -> view k' t = view k t -> has_frame k' t = has_frame k t.
Proof. intros Hw (_ & H1 & H2)%view_eq. by apply has_frame_ext. Qed.

Lemma view_state k t s c r : view k t = (s, c, r) -> t_state (thr k t) = s.
Proof. unfold view. intros H. by simplify_eq. Qed.

Lemma view_saved k k' t s f :
  same_world k k' -> view k' t = (s, true, f) -> scheduler_interrupt_frame_valid k t f = true ->
  has_frame k' t = true.
Proof.
  intros Hw Hv Hf. unfold view in Hv. simplify_eq/=. eapply has_frame_saved; try done.
  by eapply frame_valid_nz.
Qed.

(** The processor moves from [cur], which leaves with the view [vc], to [c]. *)
Lemma sched_wf_handover k k' l l' cur c vc :
  sched_wf k l -> idle k = false -> current_of k = cur -> c ∈ l -> c <> cur ->
  same_world k k' -> sched_fixed (k_sch k') = sched_fixed (k_sch k) -> run_list k' l' ->
  idle k' = false -> current_of k' = c -> c ∈ l' -> (forall t, t ∈ l' -> t ∈ l) ->
  view k' c = (THREAD_STATE_RUNNING, false, 0) -> view k' cur = vc ->
  (forall t, t <> c -> t <> cur -> view k' t = view k t) ->
  match vc.1.1 with
  | THREAD_STATE_READY | THREAD_STATE_BLOCKED => has_frame k' cur = true
  | THREAD_STATE_DEAD => cur ∉ l'
  | _ => False
  end -> (vc.1.1 = THREAD_STATE_BLOCKED -> cur ∉ l') ->
  sched_wf k' l'.
Proof.
  intros Hwf Hid Hcur Hc Hne Hw Hf Hl Hid' Hcur' Hc' Hsub Hvc Hvcur Hother Hstate Hblk.
  apply (sched_wf_rebuild k k' l l'); try done.
  - intros t Ht. by apply (wf_member _ _ Hwf), Hsub.
  - intros _. rewrite Hcur'. split; [done|]. by apply view_state in Hvc.
  - rewrite Hid'. done.
  - intros t Ht Htc. rewrite Hcur' in Htc. destruct (decide (t = cur)) as [->|Htcur].
    + assert (t_state (thr k' cur) = vc.1.1) as Hs by (rewrite <- Hvcur; done). rewrite Hs in *.
      destruct (vc.1.1) eqn:E; try done. exfalso. by apply Hblk.
    + destruct (view_eq k k' t (Hother t Htc Htcur)) as (-> & _ & _).
      rewrite (view_has_frame k k') by auto. apply (wf_ready _ _ Hwf); [by apply Hsub|congruence].
  - intros t Ht. split; [done|]. rewrite Hcur'. destruct (decide (t = c)) as [->|Htc]; [done|].
    destruct (decide (t = cur)) as [->|Htcur].
    + assert (t_state (thr k' cur) = vc.1.1) as Hs by (rewrite <- Hvcur; done).
      rewrite Hs in Ht. by rewrite Ht in Hstate.
    + destruct (view_eq k k' t (Hother t Htc Htcur)) as (He & _ & _). rewrite He in Ht.
      destruct (wf_running _ _ Hwf t Ht). congruence.
  - intros t Ht. destruct (decide (t = c)) as [->|Htc].
    { apply view_state in Hvc. congruence. }
    destruct (decide (t = cur)) as [->|Htcur].
    + assert (t_state (thr k' cur) = vc.1.1) as Hs by (rewrite <- Hvcur; done).
      rewrite Hs in Ht. rewrite Ht in Hstate. destruct (wf_current _ _ Hwf Hid) as [Hin _].
      rewrite Hcur in Hin. split_and!; [|done|by apply (wf_member _ _ Hwf)].
      intros ->. by apply (rl_nonnull _ _ (wf_list _ _ Hwf)).
    + destruct (view_eq k k' t (Hother t Htc Htcur)) as (He & _ & _). rewrite He in Ht.
      rewrite (view_has_frame k k') by auto. by apply (wf_blocked _ _ Hwf).
Qed.

(** * The current thread and its successor *)

Lemma ready_resumable k l t : sched_wf k l -> t ∈ l -> t <> current_of k -> resumable k t = true.
Proof.
  intros Hwf Ht Hne. destruct (wf_ready _ _ Hwf t Ht Hne) as [Hs Hf].
  unfold resumable, state_is. destruct (run_list_member _ _ _ (wf_list _ _ Hwf) Ht) as [-> _].
  rewrite Hs, bool_decide_eq_true_2 by done. exact Hf.
Qed.

Lemma next_thread k l cur l' :
  sched_wf k (l ++ cur :: l') -> current_of k = cur ->
  scheduler_find_next_interrupt_thread k cur = head (l' ++ l).
Proof.
  intros Hwf Hcur. rewrite (find_next_spec k l cur l') by apply Hwf.
  assert (cur ∉ l' ++ l) as Hnot.
  { pose proof (rl_nodup _ _ (wf_list _ _ Hwf)) as Hnd.
    apply list.NoDup_app in Hnd as (_ & H1 & H2). apply list.NoDup_cons in H2 as [H2 _]. set_solver. }
  destruct (l' ++ l) as [|c m] eqn:E; [done|]. cbn.
  rewrite (ready_resumable k (l ++ cur :: l')); [done|done| |].
  - assert (c ∈ l' ++ l) as Hin by (rewrite E; set_solver). set_solver.
  - rewrite Hcur. set_solver.
Qed.

Lemma current_runs_wf k l :
  sched_wf k l -> idle k = false -> current_runs k (thread_current k) = true /\ thread_current k = current_of k.
Proof.
  intros Hwf Hid. destruct (wf_current _ _ Hwf Hid) as [Hin Hs].
  unfold thread_current. rewrite (wf_tinit _ _ Hwf). cbn [negb]. split; [|done]. fold (current_of k).
  unfold current_runs, state_is. rewrite Hs, bool_decide_eq_true_2 by done.
  destruct (run_list_member _ _ _ (wf_list _ _ Hwf) Hin) as [-> ->].
  pose proof (wf_member _ _ Hwf _ Hin) as Ha. unfold activatable in Ha.
  repeat (apply andb_true_iff in Ha as [Ha ?]). repeat (rewrite ?andb_true_iff). split_and!; try done.
  apply (nz_in l); [apply (wf_list _ _ Hwf)|].
  by apply (ring_next_in (next_of k)), Hin; apply (wf_list _ _ Hwf).
Qed.

Lemma run_list_nonempty k l :
  run_list k l -> l <> [] -> nz (sm_run_head (k_sch k)) = true /\ nz (sm_run_tail (k_sch k)) = true.
Proof.
  intros Hrl Hne. rewrite (rl_head _ _ Hrl), (rl_tail _ _ Hrl).
  split; apply (nz_in l); (apply Hrl || by apply first_in || by apply final_in).
Qed.
