(* ===== verification/SchedulerOps.v ===== *)
(** What every scheduler operation does to a well-formed scheduler. *)

From S2P Require Import Prelude Pmm ObjectStorage Kernel Objects Thread.
From S2P Require Import Ring Scheduler SchedulerProofs SchedulerWf.

Open Scope jcos_scope.

Section Current.
  Context {k : Kernel} {l l' : list Z} {cur : Z}.
  Hypothesis Hwf : sched_wf k (l ++ cur :: l').
  Hypothesis Hcur : current_of k = cur.
  Hypothesis Hid : idle k = false.

Lemma cur_notin : cur ∉ l' ++ l.
Proof using Hwf Hcur Hid.
  pose proof (rl_nodup _ _ (wf_list _ _ Hwf)) as Hnd.
  apply list.NoDup_app in Hnd as (_ & H1 & H2). apply list.NoDup_cons in H2 as [H2 _]. set_solver.
Qed.

Lemma cur_nonnull : nz cur = true.
Proof using Hwf Hcur Hid. apply (nz_in (l ++ cur :: l')); [apply (wf_list _ _ Hwf)|set_solver]. Qed.

Lemma cur_ready : current_runs k (thread_current k) = true /\ thread_current k = cur.
Proof using Hwf Hcur Hid. rewrite <- Hcur. by apply (current_runs_wf k (l ++ cur :: l')). Qed.

Lemma cur_ends : nz (sm_run_head (k_sch k)) = true /\ nz (sm_run_tail (k_sch k)) = true.
Proof using Hwf Hcur Hid. apply (run_list_nonempty k (l ++ cur :: l')); [apply Hwf|]. by destruct l. Qed.

Lemma cur_count : sm_run_count (k_sch k) = Z.of_nat (length (l' ++ l)) + 1.
Proof using Hwf Hcur Hid. rewrite (rl_count _ _ (wf_list _ _ Hwf)), !length_app. cbn. lia. Qed.

Lemma successor c m :
  l' ++ l = c :: m ->
  c ∈ l ++ cur :: l' /\ c ∈ l ++ l' /\ c <> cur /\ nz c = true /\ activatable k c = true /\
  t_state (thr k c) = THREAD_STATE_READY /\ has_frame k c = true.
Proof using Hwf Hcur Hid.
  intros E. assert (c ∈ l' ++ l) as Hin by (rewrite E; set_solver).
  assert (c <> cur) as Hne by (intros ->; by apply cur_notin).
  assert (c ∈ l ++ cur :: l') as Hin' by set_solver.
  destruct (wf_ready _ _ Hwf c Hin' ltac:(congruence)) as [Hs Hf].
  split_and!; try done; [set_solver| |by apply (wf_member _ _ Hwf)].
  apply (nz_in (l ++ cur :: l')); [apply (wf_list _ _ Hwf)|done].
Qed.

(** The state after saving [cur] in [frame] and activating [c]. *)
Definition activated (c : Z) (k0 : Kernel) : Kernel :=
  set_current c (set_state c THREAD_STATE_RUNNING (set_state cur THREAD_STATE_READY
    (load_context (t_kernel_stack_top (thr k0 c)) (process_cr3 k0 (t_process (thr k0 c))) k0))).

Lemma activate_saved c m frame k0 :
  l' ++ l = c :: m -> same_world k k0 -> (forall t, thr k0 t = thr k t) -> k_thr k0 = k_thr k ->
  thread_activate c (save_context cur frame k0) = (true, activated c (save_context cur frame k0)).
Proof using Hwf Hcur Hid.
  intros E Hw Ht Hm. destruct (successor c m E) as (_ & _ & Hne & _ & Ha & Hs & _).
  destruct (wf_current _ _ Hwf Hid) as [_ Hrun].
  assert (same_world k (save_context cur frame k0)) as Hw' by world.
  assert (current_of (save_context cur frame k0) = cur) as Hc
    by (unfold current_of in *; change (tm_current (k_thr k0) = cur); by rewrite Hm).
  rewrite thread_activate_spec; [by unfold activated; rewrite Hc|..].
  - change (tm_initialized (k_thr k0) = true). rewrite Hm. apply Hwf.
  - rewrite Hc. apply cur_nonnull.
  - by rewrite (same_world_activatable k).
  - by rewrite Hc.
  - thread_simpl. rewrite decide_False by congruence. by rewrite Ht.
  - rewrite Hc. thread_simpl. rewrite decide_True by done. rewrite Ht. cbn. congruence.
Qed.

(** * Yield and preemption *)

Lemma switch_spec frame timer :
  scheduler_interrupt_frame_valid k cur frame = true ->
  match l' ++ l with
  | [] => scheduler_switch_ready_from_interrupt frame timer k = (frame, k)
  | c :: _ => exists k', scheduler_switch_ready_from_interrupt frame timer k =
      (t_interrupt_rsp (thr k c), k') /\
      sched_wf k' (l ++ cur :: l') /\ idle k' = false /\ current_of k' = c /\
      view k' cur = (THREAD_STATE_READY, true, frame) /\
      view k' c = (THREAD_STATE_RUNNING, false, 0) /\
      forall t, t <> c -> t <> cur -> view k' t = view k t
  end.
Proof using Hwf Hcur Hid.
  intros Hfv. pose proof (frame_valid_nz _ _ _ Hfv) as Hfz.
  destruct cur_ready as [Hruns Htc]. destruct cur_ends as [Hh Ht]. pose proof cur_count as Hcnt.
  unfold scheduler_switch_ready_from_interrupt.
  rewrite Hfz, (wf_init _ _ Hwf), Hh, Ht, Hcnt. cbn [negb orb].
  destruct (l' ++ l) as [|c m] eqn:E; [done|]. cbn [length].
  rewrite (proj2 (Z.ltb_ge _ _)) by lia. rewrite Hruns, Htc, Hfv. cbn [negb].
  rewrite (next_thread k l cur l' Hwf Hcur), E. cbn [head].
  destruct (successor c m E) as (Hin & _ & Hne & _ & Ha & Hs & Hf).
  set (k0 := if timer then k else set_rax frame 1 k).
  assert (same_world k k0 /\ (forall t, thr k0 t = thr k t) /\ k_thr k0 = k_thr k /\ k_sch k0 = k_sch k)
    as (Hw0 & Ht0 & Hm0 & Hs0) by (by unfold k0; destruct timer).
  rewrite (activate_saved c m frame k0 E Hw0 Ht0 Hm0). cbn [negb].
  set (k1 := activated c (save_context cur frame k0)).
  eexists. split; [done|].
  set (k' := if timer then _ else _).
  assert (forall t, thr k' t = thr (drop_context c k1) t) as Hthr by (by unfold k'; destruct timer).
  assert (same_world k k') as Hw.
  { eapply (same_world_trans _ (drop_context c k1)); [|by unfold k'; destruct timer].
    unfold k1, activated. world. }
  assert (view k' c = (THREAD_STATE_RUNNING, false, 0)) as Hvc.
  { unfold view. rewrite Hthr. unfold k1, activated. thread_simpl. rewrite !decide_True by done. done. }
  assert (view k' cur = (THREAD_STATE_READY, true, frame)) as Hvcur.
  { unfold view. rewrite Hthr. unfold k1, activated. thread_simpl.
    rewrite !(decide_False (P := c = cur)), !decide_True by done. done. }
  assert (idle k' = false) as Hid' by (unfold k'; destruct timer; exact Hid).
  assert (current_of k' = c) as Hcur' by (by unfold k'; destruct timer).
  assert (forall t, t <> c -> t <> cur -> view k' t = view k t) as Hother.
  { intros t H1 H2. unfold view. rewrite Hthr. unfold k1, activated. thread_simpl.
    rewrite !decide_False by congruence. by rewrite Ht0. }
  split_and!; try done.
  apply (sched_wf_handover k k' (l ++ cur :: l') (l ++ cur :: l') cur c
    (THREAD_STATE_READY, true, frame)); try done.
  - by unfold k'; destruct timer.
  - apply (run_list_frame k); [|intros t; rewrite Hthr|apply Hwf].
    + by unfold k'; destruct timer.
    + unfold k1, activated. thread_simpl. repeat case_decide; try subst t; by rewrite ?Ht0.
  - cbn. by eapply view_saved.
Qed.

(** * Blocking *)

(** Unlinking [cur] after the hand-over to [c]. *)
Lemma unlink_current c m frame k0 :
  l' ++ l = c :: m -> same_world k k0 -> (forall t, thr k0 t = thr k t) -> k_sch k0 = k_sch k ->
  exists k2, scheduler_unlink cur (activated c (save_context cur frame k0)) = (true, k2) /\
    run_list k2 (l ++ l') /\ relinked (activated c (save_context cur frame k0)) k2.
Proof using Hwf Hcur Hid.
  intros E Hw Ht Hs. destruct (successor c m E) as (_ & _ & Hne & _). apply scheduler_unlink_spec. apply (run_list_frame k); [by cbn; rewrite Hs| |apply Hwf].
  intros t. unfold activated. thread_simpl. repeat case_decide; try subst t; by rewrite ?Ht.
Qed.

Lemma relinked_idle k1 k2 : relinked k1 k2 -> idle k2 = idle k1.
Proof using Type.
  intros [_ Hs _]. unfold idle.
  assert (sm_idle_active (listless (k_sch k2)) = sm_idle_active (listless (k_sch k1))) as H by (by rewrite Hs).
  exact H.
Qed.

Lemma relinked_fixed k1 k2 : relinked k1 k2 -> sched_fixed (k_sch k2) = sched_fixed (k_sch k1).
Proof using Type.
  intros [_ Hs _].
  assert (sched_fixed (listless (k_sch k2)) = sched_fixed (listless (k_sch k1))) as H by (by rewrite Hs).
  exact H.
Qed.

Lemma relinked_current k1 k2 : relinked k1 k2 -> current_of k2 = current_of k1.
Proof using Type. intros [_ _ ->]. done. Qed.

Lemma block_spec frame :
  scheduler_interrupt_frame_valid k cur frame = true ->
  match l' ++ l with
  | [] => scheduler_block_from_interrupt frame k = Some (frame, set_rax frame 0 k)
  | c :: _ => exists k', scheduler_block_from_interrupt frame k = Some (t_interrupt_rsp (thr k c), k') /\
      sched_wf k' (l ++ l') /\ idle k' = false /\ current_of k' = c /\
      view k' cur = (THREAD_STATE_BLOCKED, true, frame) /\
      view k' c = (THREAD_STATE_RUNNING, false, 0) /\
      forall t, t <> c -> t <> cur -> view k' t = view k t
  end.
Proof using Hwf Hcur Hid.
  intros Hfv. pose proof (frame_valid_nz _ _ _ Hfv) as Hfz.
  destruct cur_ready as [Hruns Htc]. destruct cur_ends as [Hh Ht]. pose proof cur_count as Hcnt.
  unfold scheduler_block_from_interrupt. rewrite Hfz. cbn [negb].
  change (k_sch (set_rax frame 0 k)) with (k_sch k).
  change (thread_current (set_rax frame 0 k)) with (thread_current k).
  change (current_runs (set_rax frame 0 k) ?t) with (current_runs k t).
  change (scheduler_interrupt_frame_valid (set_rax frame 0 k) ?t ?f) with
    (scheduler_interrupt_frame_valid k t f).
  rewrite (wf_init _ _ Hwf), Hh, Ht, Hcnt. cbn [negb orb].
  destruct (l' ++ l) as [|c m] eqn:E; [done|]. cbn [length].
  rewrite (proj2 (Z.ltb_ge _ _)) by lia. rewrite Hruns, Htc, Hfv. cbn [negb orb].
  assert (sched_wf (set_rax frame 0 k) (l ++ cur :: l')) as Hwf0.
  { apply (sched_wf_rebuild k _ (l ++ cur :: l')); try done; try apply Hwf.
    apply (run_list_frame k); [done|done|apply Hwf]. }
  rewrite (next_thread _ l cur l' Hwf0 Hcur), E. cbn [head].
  destruct (successor c m E) as (Hin & Hin' & Hne & _ & Ha & Hs & Hf).
  set (k0 := set_rax frame 1 (set_rax frame 0 k)).
  rewrite (activate_saved c m frame k0 E) by done. cbn [negb].
  destruct (unlink_current c m frame k0 E) as (k2 & -> & Hl2 & Hre); try done. cbn [negb].
  eexists. split; [done|]. set (k1 := activated c (save_context cur frame k0)) in *.
  set (k' := count_reschedule _).
  assert (forall t, view k' t = view (drop_context c (set_state cur THREAD_STATE_BLOCKED k2)) t) as Hview
    by done.
  assert (same_world k k') as Hw.
  { apply (same_world_trans _ k1); [unfold k1, activated, k0; world|].
    apply (same_world_trans _ k2); [by apply relinked_world|]. unfold k'. world. }
  assert (view k' c = (THREAD_STATE_RUNNING, false, 0)) as Hvc.
  { rewrite Hview. unfold view. thread_simpl. rewrite !decide_True, !(decide_False (P := cur = c)) by done.
    pose proof (view_relinked k1 k2 c Hre) as Hv. apply view_eq in Hv as (Hv & _). cbn. rewrite Hv.
    unfold k1, activated. thread_simpl. by rewrite decide_True. }
  assert (view k' cur = (THREAD_STATE_BLOCKED, true, frame)) as Hvcur.
  { rewrite Hview. unfold view. thread_simpl. rewrite !(decide_False (P := c = cur)), !decide_True by done.
    pose proof (view_relinked k1 k2 cur Hre) as Hv. apply view_eq in Hv as (_ & Hv1 & Hv2). cbn.
    rewrite Hv1, Hv2. unfold k1, activated. thread_simpl.
    by rewrite !(decide_False (P := c = cur)), !decide_True. }
  assert (idle k' = false) as Hid'.
  { change (idle k2 = false). rewrite (relinked_idle k1 k2) by done. exact Hid. }
  assert (current_of k' = c) as Hcur'.
  { change (current_of k2 = c). by rewrite (relinked_current k1 k2). }
  assert (cur ∉ l ++ l') as Hgone by (pose proof cur_notin; set_solver).
  assert (forall t, t <> c -> t <> cur -> view k' t = view k t) as Hother.
  { intros t H1 H2. rewrite Hview. unfold view. thread_simpl. rewrite !decide_False by congruence.
    change (view k2 t = view k t). rewrite (view_relinked k1 k2) by done.
    unfold view, k1, activated. thread_simpl. by rewrite !decide_False by congruence. }
  split_and!; try done.
  apply (sched_wf_handover k k' (l ++ cur :: l') (l ++ l') cur c (THREAD_STATE_BLOCKED, true, frame)); try done.
  - change (sched_fixed (k_sch k2) = sched_fixed (k_sch k)). by rewrite (relinked_fixed k1 k2).
  - apply (run_list_frame k2); [done| |done]. intros t. unfold k'. thread_simpl.
    repeat case_decide; by try subst t.
  - set_solver.
  - cbn. by eapply view_saved.
Qed.

(** * Termination of the current thread *)

Lemma activate_plain c m :
  l' ++ l = c :: m -> thread_activate c k = (true, activated c k).
Proof using Hwf Hcur Hid.
  intros E. destruct (successor c m E) as (_ & _ & Hne & _ & Ha & Hs & _).
  destruct (wf_current _ _ Hwf Hid) as [_ Hrun].
  rewrite thread_activate_spec; [by unfold activated; rewrite Hcur|apply Hwf| |done|by rewrite Hcur|done|done].
  rewrite Hcur. apply cur_nonnull.
Qed.

Context `{KernelStack} (idle_loop : Z).

Lemma exit_handover_spec frame counted c m :
  scheduler_interrupt_frame_valid k cur frame = true -> l' ++ l = c :: m ->
  exists k', scheduler_exit_from_interrupt idle_loop frame counted k = Some (t_interrupt_rsp (thr k c), k') /\
    sched_wf k' (l ++ l') /\ idle k' = false /\ current_of k' = c /\
    view k' cur = (THREAD_STATE_DEAD, false, 0) /\
      view k' c = (THREAD_STATE_RUNNING, false, 0) /\
      forall t, t <> c -> t <> cur -> view k' t = view k t.
Proof using Hwf Hcur Hid.
  intros Hfv E. pose proof (frame_valid_nz _ _ _ Hfv) as Hfz.
  destruct cur_ready as [Hruns Htc]. destruct cur_ends as [Hh Ht]. pose proof cur_count as Hcnt.
  unfold scheduler_exit_from_interrupt. rewrite Hfz, (wf_init _ _ Hwf), Hh, Ht, Hcnt, E. cbn [negb orb length].
  rewrite (proj2 (Z.eqb_neq (_ + 1) 1)) by lia. unfold nz at 1.
  rewrite (proj2 (Z.eqb_neq (_ + 1) 0)) by lia. rewrite Htc in *. rewrite Hruns, Hfv. cbn [negb orb].
  rewrite (next_thread k l cur l' Hwf Hcur), E. cbn [head].
  destruct (successor c m E) as (Hin & Hin' & Hne & _ & Ha & Hs & Hf).
  rewrite (activate_plain c m E). cbn [negb]. set (k1 := activated c k).
  destruct (scheduler_unlink_spec k1 l cur l') as (k2 & -> & Hl2 & Hre).
  { apply (run_list_frame k); [done| |apply Hwf]. intros t. unfold k1, activated. thread_simpl.
    repeat case_decide; by try subst t. }
  cbn [negb]. eexists. split; [done|]. set (k' := if counted then _ else _).
  assert (forall t, view k' t = view (drop_context c (drop_context cur (set_state cur THREAD_STATE_DEAD k2))) t)
    as Hview by (by unfold k'; destruct counted).
  assert (same_world k k') as Hw.
  { apply (same_world_trans _ k1); [unfold k1, activated; world|].
    apply (same_world_trans _ k2); [by apply relinked_world|]. unfold k'. destruct counted; world. }
  assert (view k' c = (THREAD_STATE_RUNNING, false, 0)) as Hvc.
  { rewrite Hview. unfold view. thread_simpl. rewrite !decide_True, !(decide_False (P := cur = c)) by done.
    pose proof (view_relinked k1 k2 c Hre) as Hv. apply view_eq in Hv as (Hv & _). cbn. rewrite Hv.
    unfold k1, activated. thread_simpl. by rewrite decide_True. }
  assert (view k' cur = (THREAD_STATE_DEAD, false, 0)) as Hvcur.
  { rewrite Hview. unfold view. thread_simpl.
    by rewrite !(decide_False (P := c = cur)), !decide_True by done. }
  assert (idle k' = false) as Hid'.
  { assert (idle k2 = false) as H2 by (rewrite (relinked_idle k1 k2) by done; exact Hid).
    unfold k'. destruct counted; exact H2. }
  assert (current_of k' = c) as Hcur'.
  { assert (current_of k2 = c) as H2 by (by rewrite (relinked_current k1 k2)).
    unfold k'. destruct counted; exact H2. }
  assert (cur ∉ l ++ l') as Hgone by (pose proof cur_notin; set_solver).
  assert (forall t, t <> c -> t <> cur -> view k' t = view k t) as Hother.
  { intros t H1 H2. rewrite Hview. unfold view. thread_simpl. rewrite !decide_False by congruence.
    change (view k2 t = view k t). rewrite (view_relinked k1 k2) by done.
    unfold view, k1, activated. thread_simpl. by rewrite !decide_False by congruence. }
  split_and!; try done.
  apply (sched_wf_handover k k' (l ++ cur :: l') (l ++ l') cur c (THREAD_STATE_DEAD, false, 0)); try done.
  - assert (sched_fixed (k_sch k2) = sched_fixed (k_sch k)) as H2 by (by rewrite (relinked_fixed k1 k2)).
    unfold k'. destruct counted; exact H2.
  - apply (run_list_frame k2); [by unfold k'; destruct counted| |done]. intros t.
    assert (thr k' t = thr (drop_context c (drop_context cur (set_state cur THREAD_STATE_DEAD k2))) t) as ->
      by (by unfold k'; destruct counted).
    thread_simpl. repeat case_decide; by try subst t.
  - set_solver.
Qed.

End Current.

(** * Entering and leaving the idle continuation *)

(** Where [scheduler_idle_frame_build] puts the idle frame. *)
Definition idle_frame (k : Kernel) : Z := sm_idle_stack_top (k_sch k) - 8 - FRAME_BYTES.

Lemma idle_frame_build k idle_loop :
  idle_stack_ok k ->
  exists k0, scheduler_idle_frame_build idle_loop (sm_idle_stack_base (k_sch k))
    (sm_idle_stack_top (k_sch k)) k = (Some (idle_frame k), k0) /\
    k0 = k <| k_frames := k_frames k0 |> /\ 0 < idle_frame k /\
    f_rip (frm k0 (idle_frame k)) = idle_loop.
Proof.
  intros [Hr Hb Ht Ha Hrange]. unfold scheduler_idle_frame_build, nz.
  assert (FRAME_BYTES = 176) as HF by done. unfold idle_frame.
  assert (THREAD_KERNEL_STACK_SIZE = 16384) as HS by done. rewrite HS in Ht.
  rewrite (proj2 (Z.eqb_neq _ 0)) by lia. rewrite (proj2 (Z.leb_gt _ _)) by lia. rewrite Ha, Z.eqb_refl.
  cbn [negb orb]. rewrite (proj2 (Z.ltb_ge _ _)) by lia. rewrite (proj2 (Z.ltb_ge _ _)) by lia.
  eexists. split; [done|]. split; [by destruct k|]. split; [lia|].
  unfold frm, set_frm. cbn. by rewrite lookup_insert_eq.
Qed.

Lemma enter_idle_spec k cur :
  tm_initialized (k_thr k) = true -> current_of k = cur -> nz cur = true ->
  thread_storage_live k cur = true -> nz (t_id (thr k cur)) = true ->
  view k cur = (THREAD_STATE_DEAD, false, 0) -> t_on_run_queue (thr k cur) = false ->
  next_of k cur = 0 -> thread_wait_active k cur = false -> idle_stack_ok k -> kernel_process_ok k ->
  exists cr3, thread_scheduler_enter_idle (sm_idle_stack_top (k_sch k)) k =
    (true, set_current 0 (load_context (sm_idle_stack_top (k_sch k)) cr3 k)).
Proof.
  intros Hi Hc Hz Hl Hid Hv Hq Hn Hw [_ Hb Ht Ha _] [H1 H2 H3 H4 H5].
  unfold view in Hv. apply pair_equal_spec in Hv as [Hv Hr]. apply pair_equal_spec in Hv as [Hs Hx].
  eexists. unfold thread_scheduler_enter_idle, current_of in *. rewrite Hi, Hc, Hz.
  assert (nz (sm_idle_stack_top (k_sch k)) = true) as ->.
  { apply negb_true_iff, Z.eqb_neq. rewrite Ht. unfold THREAD_KERNEL_STACK_SIZE, FRAME_SIZE. lia. }
  rewrite Ha. change (nz 0) with false. cbn [negb orb]. unfold state_is.
  change (t_run_next (thr k cur)) with (next_of k cur).
  rewrite Hl, Hid, Hs, Hq, Hn, Hx, Hr, Hw. change (nz 0) with false. cbn [negb orb].
  rewrite bool_decide_eq_true_2 by done. cbn [negb orb]. rewrite H1, H3. unfold process_cr3 in H5.
  rewrite H2, H4, H5. cbn [negb orb]. done.
Qed.

Section Idle.
  Context `{KernelStack} (idle_loop : Z).

Lemma can_terminate_last k cur :
  sched_wf k [cur] -> current_of k = cur -> idle k = false ->
  kernel_stack_mapping_valid k (sm_idle_stack_physical (k_sch k)) (sm_idle_stack_base (k_sch k)) = true ->
  scheduler_can_terminate_current k = true.
Proof.
  intros Hwf Hcur Hid Hmap. destruct (cur_ready (l := []) (l' := []) Hwf Hcur Hid) as [Hruns Htc].
  destruct (cur_ends (l := []) (l' := []) Hwf Hcur Hid) as [Hh Ht].
  unfold scheduler_can_terminate_current, scheduler_idle_stack_guarded. unfold idle in Hid.
  rewrite (wf_init _ _ Hwf), Hid, Hh, Ht, Htc in *. rewrite Hruns.
  pose proof (wf_list _ _ Hwf) as Hrl. rewrite (rl_count _ _ Hrl), (rl_head _ _ Hrl), (rl_tail _ _ Hrl).
  cbn [length Z.of_nat Pos.of_succ_nat first_or]. change (final [cur]) with cur.
  rewrite (is_ready _ (wf_idle_stack _ _ Hwf)), Hmap, !Z.eqb_refl. cbn.
  change (t_run_next (thr k cur)) with (next_of k cur).
  rewrite (ring_next _ [] cur [] (rl_ring _ _ Hrl)). cbn. apply Z.eqb_refl.
Qed.

Lemma exit_idle_spec k cur frame counted :
  sched_wf k [cur] -> current_of k = cur -> idle k = false ->
  scheduler_interrupt_frame_valid k cur frame = true -> thread_wait_active k cur = false ->
  kernel_stack_mapping_valid k (sm_idle_stack_physical (k_sch k)) (sm_idle_stack_base (k_sch k)) = true ->
  exists k', scheduler_exit_from_interrupt idle_loop frame counted k = Some (idle_frame k, k') /\
    sched_wf k' [] /\ idle k' = true /\ view k' cur = (THREAD_STATE_DEAD, false, 0) /\
    (forall t, t <> cur -> view k' t = view k t) /\ f_rip (frm k' (idle_frame k)) = idle_loop.
Proof.
  intros Hwf Hcur Hid Hfv Hwait Hmap. pose proof (frame_valid_nz _ _ _ Hfv) as Hfz.
  destruct (cur_ready (l := []) (l' := []) Hwf Hcur Hid) as [Hruns Htc].
  destruct (cur_ends (l := []) (l' := []) Hwf Hcur Hid) as [Hh Ht].
  pose proof (cur_count (l := []) (l' := []) Hwf Hcur Hid) as Hcnt. cbn in Hcnt.
  unfold scheduler_exit_from_interrupt. rewrite Hfz, (wf_init _ _ Hwf), Hh, Ht, Hcnt. cbn [negb orb].
  change (nz 1) with true. rewrite Htc in *. rewrite Hruns, Hfv. cbn [negb orb Z.eqb Pos.eqb].
  rewrite can_terminate_last with (cur := cur) by done. cbn [negb].
  destruct (idle_frame_build k idle_loop (wf_idle_stack _ _ Hwf)) as (k0 & -> & Hk0 & Hpos & Hrip).
  assert (nz (idle_frame k) = true) as -> by (apply negb_true_iff, Z.eqb_neq; lia). cbn [negb].
  assert (same_world k k0 /\ (forall t, thr k0 t = thr k t) /\ k_thr k0 = k_thr k /\ k_sch k0 = k_sch k)
    as (Hw0 & Ht0 & Hm0 & Hs0) by (by rewrite Hk0).
  destruct (unlink_last k0 cur) as (k2 & -> & Hl2 & Hre).
  { apply (run_list_frame k); [by rewrite Hs0|by intros; rewrite Ht0|apply Hwf]. }
  cbn [negb]. set (k3 := drop_context cur (set_state cur THREAD_STATE_DEAD k2)).
  assert (same_world k k3) as Hw3.
  { apply (same_world_trans _ k0); [done|]. apply (same_world_trans _ k2); [by apply relinked_world|].
    unfold k3. world. }
  assert (sched_fixed (k_sch k3) = sched_fixed (k_sch k)) as Hf3.
  { change (sched_fixed (k_sch k2) = sched_fixed (k_sch k)). by rewrite (relinked_fixed k0 k2), Hs0. }
  assert (run_list k3 []) as Hl3.
  { apply (run_list_frame k2); [done| |done]. intros t. unfold k3. thread_simpl.
    repeat case_decide; by try subst t. }
  assert (view k3 cur = (THREAD_STATE_DEAD, false, 0)) as Hv3.
  { unfold view, k3. thread_simpl. by rewrite !decide_True. }
  pose proof (wf_member _ _ Hwf cur ltac:(set_solver)) as Hact.
  destruct (enter_idle_spec k3 cur) as [cr3 ->].
  - rewrite (sw_tinit _ _ Hw3). apply Hwf.
  - change (current_of k2 = cur). rewrite (relinked_current k0 k2) by done. unfold current_of. by rewrite Hm0.
  - by apply (cur_nonnull (l := []) (l' := []) Hwf Hcur Hid).
  - rewrite (same_world_live k) by done. unfold activatable in Hact.
    by repeat (apply andb_true_iff in Hact as [Hact ?]).
  - destruct (fixed_fields_eq _ _ (sw_fixed _ _ Hw3 cur)) as (-> & _). unfold activatable in Hact.
    by repeat (apply andb_true_iff in Hact as [Hact ?]).
  - done.
  - rewrite (rl_queued _ _ Hl3). by apply bool_decide_eq_false, not_elem_of_nil.
  - apply (rl_off _ _ Hl3), not_elem_of_nil.
  - revert Hwait. unfold thread_wait_active, thread_known.
    rewrite (sw_tinit _ _ Hw3), (same_world_live k k3) by done.
    destruct (fixed_fields_eq _ _ (sw_fixed _ _ Hw3 cur)) as (-> & _).
    assert (forall A (f : Thread -> A), (forall x, f (unlinked x) = f x) ->
      (forall x s, f (x <| t_state := s |>) = f x) ->
      (forall x, f (x <| t_interrupt_rsp := 0 |> <| t_interrupt_context_ready := false |>) = f x) ->
      f (thr k3 cur) = f (thr k cur)) as Hfield.
    { intros A f Hu Hs Hd. unfold k3. thread_simpl. rewrite !decide_True by done.
      by rewrite Hd, Hs, (relinked_field f k0 k2), Ht0. }
    by rewrite (Hfield _ t_wait_kind), (Hfield _ t_wait_result), (Hfield _ t_wait_object),
      (Hfield _ t_wait_id).
  - apply (idle_stack_frame k); [done|apply Hwf].
  - apply (kernel_process_frame k); [done|apply Hwf].
  - cbn [negb]. eexists. split; [done|]. set (k' := if counted then _ else _).
    assert (forall t, thr k' t = thr k3 t) as Hthr by (by unfold k'; destruct counted).
    assert (forall t, t <> cur -> view k' t = view k t) as Hother.
    { intros t Hne. unfold view. rewrite Hthr. unfold k3. thread_simpl. rewrite !decide_False by congruence.
      change (view k2 t = view k t). rewrite (view_relinked k0 k2) by done. unfold view. by rewrite Ht0. }
    assert (same_world k k') as Hw' by (eapply same_world_trans; [exact Hw3|by unfold k'; destruct counted]).
    split_and!.
    + apply (sched_wf_rebuild k k' [cur] []); try done.
      * unfold k'. destruct counted; exact Hf3.
      * apply (run_list_frame k3); [by unfold k'; destruct counted|by intros; rewrite Hthr|done].
      * intros t Ht'. by apply not_elem_of_nil in Ht'.
      * by unfold k', idle; destruct counted.
      * by unfold k', current_of; destruct counted.
      * intros t Ht'. by apply not_elem_of_nil in Ht'.
      * intros t Hs. exfalso. destruct (decide (t = cur)) as [->|Hne].
        -- rewrite Hthr in Hs. apply view_state in Hv3. congruence.
        -- destruct (view_eq k k' t (Hother t Hne)) as (He & _). rewrite He in Hs.
           destruct (wf_running _ _ Hwf t Hs). congruence.
      * intros t Hs. destruct (decide (t = cur)) as [->|Hne].
        -- rewrite Hthr in Hs. apply view_state in Hv3. congruence.
        -- destruct (view_eq k k' t (Hother t Hne)) as (He & _). rewrite He in Hs.
           rewrite (view_has_frame k k') by auto. by apply (wf_blocked _ _ Hwf).
    + by unfold k', idle; destruct counted.
    + unfold view. rewrite Hthr. exact Hv3.
    + exact Hother.
    + assert (k_frames k2 = k_frames k0) as Hfr by (rewrite (re_rest _ _ Hre); done).
      assert (frm k' (idle_frame k) = frm k0 (idle_frame k)) as ->; [|done].
      unfold frm, k'. destruct counted; cbn; by rewrite Hfr.
Qed.

End Idle.

Lemma activate_from_idle_spec k c :
  tm_initialized (k_thr k) = true -> current_of k = 0 -> activatable k c = true ->
  t_state (thr k c) = THREAD_STATE_READY -> has_frame k c = true ->
  t_on_run_queue (thr k c) = true -> nz (next_of k c) = true ->
  thread_scheduler_activate_from_idle c k =
    (true, set_current c (set_state c THREAD_STATE_RUNNING
       (load_context (t_kernel_stack_top (thr k c)) (process_cr3 k (t_process (thr k c))) k))).
Proof.
  unfold current_of, activatable, has_frame, thread_scheduler_activate_from_idle, state_is, next_of.
  intros Hi Hc Ha Hs Hf Hq Hn.
  apply andb_true_iff in Ha as [Ha Hcr]. apply andb_true_iff in Ha as [Ha Hsp].
  apply andb_true_iff in Ha as [Ha Hal]. apply andb_true_iff in Ha as [Ha Htop].
  apply andb_true_iff in Ha as [Ha Hpr]. apply andb_true_iff in Ha as [Hlive Hid].
  apply andb_true_iff in Hf as [Hf _]. apply andb_true_iff in Hf as [Hx Hr].
  unfold process_cr3 in *. apply negb_true_iff in Hal.
  rewrite Hi, Hc, Hlive, Hid, Hpr, Hs, Hq, Hn, Hx, Hr, Htop, Hal. change (nz 0) with false.
  rewrite bool_decide_eq_true_2 by done. cbn [negb orb]. rewrite Hsp, Hcr. done.
Qed.

(** An interrupt taken while idle resumes the head of the run list. *)
Lemma resume_spec k l frame :
  sched_wf k l -> idle k = true -> scheduler_idle_runtime_frame_valid k frame = true ->
  match l with
  | [] => scheduler_resume_from_idle frame k = Some (frame, k)
  | c :: _ => exists k', scheduler_resume_from_idle frame k = Some (t_interrupt_rsp (thr k c), k') /\
      sched_wf k' l /\ idle k' = false /\ current_of k' = c /\
      view k' c = (THREAD_STATE_RUNNING, false, 0) /\ forall t, t <> c -> view k' t = view k t
  end.
Proof.
  intros Hwf Hid Hfv. unfold scheduler_resume_from_idle.
  assert (nz frame = true) as ->
    by (unfold scheduler_idle_runtime_frame_valid in Hfv; by destruct (nz frame)).
  unfold idle in Hid. rewrite Hid, Hfv. cbn [negb orb]. pose proof (wf_list _ _ Hwf) as Hrl.
  rewrite (rl_count _ _ Hrl). destruct l as [|c m]; [done|].
  assert (nz (Z.of_nat (length (c :: m))) = true) as -> by (apply negb_true_iff, Z.eqb_neq; cbn; lia).
  cbn [negb]. rewrite (find_idle_spec k (c :: m)) by done. cbn [List.find].
  assert (current_of k = 0) as Hc0 by (by apply Hwf).
  assert (c ∈ c :: m) as Hin by set_solver.
  destruct (run_list_member _ _ _ Hrl Hin) as [Hq Hz].
  assert (c <> current_of k) as Hne by (rewrite Hc0; by bool_prop).
  rewrite (ready_resumable k (c :: m)) by done. destruct (wf_ready _ _ Hwf c Hin Hne) as [Hs Hf].
  rewrite activate_from_idle_spec; try done; [|apply Hwf|by apply (wf_member _ _ Hwf)|].
  2: { apply (nz_in (c :: m)); [apply Hrl|]. by apply (ring_next_in (next_of k)), Hin; apply Hrl. }
  cbn [negb]. eexists. split; [done|]. set (k' := count_reschedule _).
  assert (same_world k k') as Hw by (unfold k'; world).
  assert (view k' c = (THREAD_STATE_RUNNING, false, 0)) as Hvc.
  { unfold view, k'. thread_simpl. by rewrite !decide_True. }
  assert (forall t, t <> c -> view k' t = view k t) as Hother.
  { intros t Ht. unfold view, k'. thread_simpl. by rewrite !decide_False by congruence. }
  split_and!; try done. apply (sched_wf_rebuild k k' (c :: m) (c :: m)); try done.
  - apply (run_list_frame k); [done| |done]. intros t. unfold k'. thread_simpl.
    repeat case_decide; by try subst t.
  - intros t Ht. by apply (wf_member _ _ Hwf).
  - intros _. split; [done|]. by apply view_state in Hvc.
  - intros t Ht Htc. change (t <> c) in Htc.
    destruct (view_eq k k' t (Hother t Htc)) as (-> & _). rewrite (view_has_frame k k') by auto.
    apply (wf_ready _ _ Hwf); [done|]. rewrite Hc0. intros ->.
    by apply (rl_nonnull _ _ Hrl).
  - intros t Ht. destruct (decide (t = c)) as [->|Htc]; [done|].
    destruct (view_eq k k' t (Hother t Htc)) as (He & _). rewrite He in Ht.
    destruct (wf_running _ _ Hwf t Ht) as [Hidle _]. unfold idle in Hidle. congruence.
  - intros t Ht. destruct (decide (t = c)) as [->|Htc]; [apply view_state in Hvc; congruence|].
    destruct (view_eq k k' t (Hother t Htc)) as (He & _). rewrite He in Ht.
    rewrite (view_has_frame k k') by auto. by apply (wf_blocked _ _ Hwf).
Qed.

(** * Waking and terminating other threads *)

Lemma run_list_length k l : sched_wf k l -> Z.of_nat (length l) <= THREAD_STORAGE_CAPACITY.
Proof.
  intros Hwf. pose proof (wf_reg _ _ Hwf) as Hreg.
  assert (length l <= length (live (tm_storage (k_thr k))))%nat as Hle.
  { apply submseteq_length, NoDup_submseteq; [apply (wf_list _ _ Hwf)|]. intros t Ht.
    pose proof (wf_member _ _ Hwf t Ht) as Ha. unfold activatable in Ha.
    repeat (apply andb_true_iff in Ha as [Ha _]). unfold thread_storage_live in Ha.
    rewrite (object_storage_find_live _ _ _ Hreg) in Ha. by apply bool_decide_eq_true in Ha. }
  pose proof (reg_length _ _ Hreg). pose proof (List.filter_length_le nz (tm_storage (k_thr k))).
  unfold live in Hle. lia.
Qed.

Lemma blocked_unqueued k l t :
  sched_wf k l -> t_state (thr k t) = THREAD_STATE_BLOCKED -> t ∉ l /\ t <> current_of k.
Proof.
  intros Hwf Hb. assert (t <> current_of k) as Hne.
  { intros ->. destruct (idle k) eqn:Hid.
    - destruct (wf_blocked _ _ Hwf _ Hb) as [Hz _]. by rewrite (wf_idle _ _ Hwf Hid) in Hz.
    - destruct (wf_current _ _ Hwf Hid). congruence. }
  split; [|done]. intros Hin. destruct (wf_ready _ _ Hwf t Hin Hne). congruence.
Qed.

Lemma wake_spec k l t :
  sched_wf k l -> t_state (thr k t) = THREAD_STATE_BLOCKED ->
  exists k', scheduler_wake t k = (true, k') /\ sched_wf k' (l ++ [t]) /\
    idle k' = idle k /\ current_of k' = current_of k /\ t_state (thr k' t) = THREAD_STATE_READY /\
    forall u, u <> t -> view k' u = view k u.
Proof.
  intros Hwf Hb. pose proof (wf_list _ _ Hwf) as Hrl.
  destruct (wf_blocked _ _ Hwf t Hb) as (Hz & Hf & Ha).
  destruct (blocked_unqueued k l t Hwf Hb) as [Hnot Hne].
  pose proof (run_list_length k l Hwf) as Hlen. unfold THREAD_STORAGE_CAPACITY in Hlen.
  assert (nz t = true) as Hz' by (by apply negb_true_iff, Z.eqb_neq).
  assert (nz (t_id (thr k t)) = true) as Hid
    by (unfold activatable in Ha; by repeat (apply andb_true_iff in Ha as [Ha ?])).
  unfold scheduler_wake, state_is, thread_current. rewrite (wf_init _ _ Hwf), (wf_tinit _ _ Hwf), Hz', Hid.
  change (t_run_next (thr k t)) with (next_of k t). cbn [negb orb]. fold (current_of k).
  rewrite (proj2 (Z.eqb_neq _ _) Hne), (rl_queued _ _ Hrl), bool_decide_eq_false_2, (rl_off _ _ Hrl) by done.
  change (nz 0) with false. unfold has_frame in Hf.
  apply andb_true_iff in Hf as [Hf Hfv]. apply andb_true_iff in Hf as [Hx Hr].
  rewrite Hx, Hr, Hb, bool_decide_eq_true_2, Hfv by done. cbn [negb orb].
  set (k1 := set_state t THREAD_STATE_READY k).
  assert (thr k1 t = (thr k t) <| t_state := THREAD_STATE_READY |>) as Ht1
    by (unfold k1; thread_simpl; by rewrite decide_True).
  destruct (scheduler_add_spec k1 l t) as (k2 & -> & Hl2 & Hre); rewrite ?Ht1; try done.
  - apply run_list_set_thr; [done|apply Hrl].
  - apply (wf_init _ _ Hwf).
  - unfold state_is. rewrite Ht1. by apply bool_decide_eq_true.
  - rewrite (same_world_frame k k1) by (unfold k1; world). exact Hfv.
  - change (l <> [] \/ idle k = true). destruct (idle k) eqn:E; [by right|left].
    destruct (wf_current _ _ Hwf E) as [Hin _]. intros ->. by apply not_elem_of_nil in Hin.
  - lia.
  - cbn [negb]. exists k2.
    assert (same_world k k2) as Hw.
    { apply (same_world_trans _ k1); [unfold k1; world|by apply relinked_world]. }
    assert (forall u, u <> t -> view k2 u = view k u) as Hother.
    { intros u Hu. rewrite (view_relinked k1 k2) by done. unfold view, k1. thread_simpl.
      by rewrite decide_False by congruence. }
    assert (view k2 t = (THREAD_STATE_READY, true, t_interrupt_rsp (thr k t))) as Hvt.
    { rewrite (view_relinked k1 k2) by done. unfold view. rewrite Ht1. cbn. by rewrite Hx. }
    assert (idle k2 = idle k /\ current_of k2 = current_of k) as [Hi2 Hc2].
    { by rewrite (relinked_idle k1 k2), (relinked_current k1 k2). }
    split_and!; try done; [|by apply view_state in Hvt].
    apply (sched_wf_rebuild k k2 l); try done; rewrite ?Hi2, ?Hc2.
    + by rewrite (relinked_fixed k1 k2).
    + intros u Hu. apply elem_of_app in Hu as [Hu|Hu]; [by apply (wf_member _ _ Hwf)|].
      by apply list_elem_of_singleton in Hu as ->.
    + intros E. destruct (wf_current _ _ Hwf E) as [Hin Hs]. split; [set_solver|].
      by destruct (view_eq k k2 _ (Hother _ (not_eq_sym Hne))) as (-> & _).
    + apply Hwf.
    + intros u Hu Huc. destruct (decide (u = t)) as [->|Hut].
      * split; [by apply view_state in Hvt|]. by eapply view_saved.
      * destruct (view_eq k k2 u (Hother u Hut)) as (-> & _). rewrite (view_has_frame k k2) by auto.
        apply (wf_ready _ _ Hwf); [|done]. apply elem_of_app in Hu as [Hu|Hu]; [done|].
        by apply list_elem_of_singleton in Hu.
    + intros u Hu. destruct (decide (u = t)) as [->|Hut]; [apply view_state in Hvt; congruence|].
      destruct (view_eq k k2 u (Hother u Hut)) as (He & _). rewrite He in Hu. by apply (wf_running _ _ Hwf).
    + intros u Hu. destruct (decide (u = t)) as [->|Hut]; [apply view_state in Hvt; congruence|].
      destruct (view_eq k k2 u (Hother u Hut)) as (He & _). rewrite He in Hu.
      rewrite (view_has_frame k k2) by auto. by apply (wf_blocked _ _ Hwf).
Qed.

Definition terminated (t : Thread) : Thread :=
  t <| t_state := THREAD_STATE_DEAD |> <| t_interrupt_rsp := 0 |>
    <| t_interrupt_context_ready := false |> <| t_run_next := 0 |> <| t_on_run_queue := false |>.

Lemma terminated_wf k k1 l l' t :
  sched_wf k l -> relinked k k1 -> run_list k1 l' -> t ∉ l' -> t <> current_of k ->
  (forall u, u ∈ l' -> u ∈ l) -> (forall u, u ∈ l -> u <> t -> u ∈ l') ->
  sched_wf (set_thr t terminated k1) l' /\
  view (set_thr t terminated k1) t = (THREAD_STATE_DEAD, false, 0) /\
  (forall u, u <> t -> view (set_thr t terminated k1) u = view k u) /\
  idle (set_thr t terminated k1) = idle k /\ current_of (set_thr t terminated k1) = current_of k.
Proof.
  intros Hwf Hre Hl Hnot Hne Hsub Hsup. set (k2 := set_thr t terminated k1).
  assert (same_world k k2) as Hw.
  { apply (same_world_trans _ k1); [by apply relinked_world|]. split; try done.
    intros u. unfold k2. rewrite thr_set. by case_decide; [subst|]. }
  assert (view k2 t = (THREAD_STATE_DEAD, false, 0)) as Hvt
    by (unfold view, k2; by rewrite thr_set, decide_True).
  assert (forall u, u <> t -> view k2 u = view k u) as Hother.
  { intros u Hu. rewrite <- (view_relinked k k1 u Hre). unfold view, k2.
    by rewrite thr_set, decide_False by congruence. }
  assert (idle k2 = idle k /\ current_of k2 = current_of k) as [Hi2 Hc2].
  { by rewrite <- (relinked_idle k k1), <- (relinked_current k k1). }
  split_and!; try done. apply (sched_wf_rebuild k k2 l l'); try done; rewrite ?Hi2, ?Hc2.
  - by rewrite <- (relinked_fixed k k1).
  - destruct Hl as [Hr Hnd H0 Hh Ht Hc Hb Hq Ho].
    assert (forall u, u <> t -> thr k2 u = thr k1 u) as Hthr
      by (intros u Hu; unfold k2; by rewrite thr_set, decide_False by congruence).
    split; try done.
    + apply (chain_ext (next_of k1)); [|done]. intros u Hu. unfold next_of. rewrite Hthr; [done|congruence].
    + intros u. destruct (decide (u = t)) as [->|Hu]; [|by rewrite Hthr].
      unfold k2. rewrite thr_set, decide_True by done. symmetry. by apply bool_decide_eq_false.
    + intros u Hu. destruct (decide (u = t)) as [->|Hut].
      * unfold next_of, k2. by rewrite thr_set, decide_True.
      * unfold next_of. rewrite Hthr by done. by apply Ho.
  - intros u Hu. by apply (wf_member _ _ Hwf), Hsub.
  - intros E. destruct (wf_current _ _ Hwf E) as [Hin Hs]. split; [by apply Hsup|].
    by destruct (view_eq k k2 _ (Hother _ (not_eq_sym Hne))) as (-> & _).
  - apply Hwf.
  - intros u Hu Huc. assert (u <> t) as Hut by congruence.
    destruct (view_eq k k2 u (Hother u Hut)) as (-> & _). rewrite (view_has_frame k k2) by auto.
    apply (wf_ready _ _ Hwf); [by apply Hsub|done].
  - intros u Hu. destruct (decide (u = t)) as [->|Hut]; [apply view_state in Hvt; congruence|].
    destruct (view_eq k k2 u (Hother u Hut)) as (He & _). rewrite He in Hu. by apply (wf_running _ _ Hwf).
  - intros u Hu. destruct (decide (u = t)) as [->|Hut]; [apply view_state in Hvt; congruence|].
    destruct (view_eq k k2 u (Hother u Hut)) as (He & _). rewrite He in Hu.
    rewrite (view_has_frame k k2) by auto. by apply (wf_blocked _ _ Hwf).
Qed.

Lemma can_terminate_member k l t :
  sched_wf k l -> t ∈ l -> t <> current_of k -> scheduler_can_terminate_thread k t = true.
Proof.
  intros Hwf Hin Hne. destruct (wf_ready _ _ Hwf t Hin Hne) as [Hs Hf].
  pose proof (wf_list _ _ Hwf) as Hrl. destruct (run_list_member _ _ _ Hrl Hin) as [Hq Hz].
  pose proof (wf_member _ _ Hwf t Hin) as Ha.
  assert (nz (t_id (thr k t)) = true) as Hid
    by (unfold activatable in Ha; by repeat (apply andb_true_iff in Ha as [Ha ?])).
  unfold has_frame in Hf. apply andb_true_iff in Hf as [Hf _]. apply andb_true_iff in Hf as [Hx Hr].
  unfold scheduler_can_terminate_thread, thread_current.
  rewrite (wf_init _ _ Hwf), (wf_tinit _ _ Hwf), Hz, Hid. cbn [negb orb]. fold (current_of k).
  rewrite (proj2 (Z.eqb_neq _ _) Hne), Hs, Hq, Hx, Hr. cbn [negb orb].
  change (t_run_next (thr k t)) with (next_of k t). rewrite (nz_in l); [done|apply Hrl|].
  by apply (ring_next_in (next_of k)), Hin; apply Hrl.
Qed.

Lemma can_terminate_blocked k l t :
  sched_wf k l -> t_state (thr k t) = THREAD_STATE_BLOCKED -> scheduler_can_terminate_thread k t = true.
Proof.
  intros Hwf Hb. pose proof (wf_list _ _ Hwf) as Hrl.
  destruct (wf_blocked _ _ Hwf t Hb) as (Hz & Hf & Ha).
  destruct (blocked_unqueued k l t Hwf Hb) as [Hnot Hne].
  assert (nz t = true) as Hz' by (by apply negb_true_iff, Z.eqb_neq).
  assert (nz (t_id (thr k t)) = true) as Hid
    by (unfold activatable in Ha; by repeat (apply andb_true_iff in Ha as [Ha ?])).
  unfold has_frame in Hf. apply andb_true_iff in Hf as [Hf _]. apply andb_true_iff in Hf as [Hx Hr].
  unfold scheduler_can_terminate_thread, thread_current.
  rewrite (wf_init _ _ Hwf), (wf_tinit _ _ Hwf), Hz', Hid. cbn [negb orb]. fold (current_of k).
  rewrite (proj2 (Z.eqb_neq _ _) Hne), Hb, Hx, Hr. change (t_run_next (thr k t)) with (next_of k t).
  by rewrite (rl_queued _ _ Hrl), bool_decide_eq_false_2, (rl_off _ _ Hrl) by done.
Qed.

(** Terminating another thread takes it out of the run list and leaves the
    others, their order and the current thread alone. *)
Lemma terminate_member_spec k l t l' :
  sched_wf k (l ++ t :: l') -> t <> current_of k -> thread_wait_active k t = false ->
  exists k', scheduler_terminate_thread t k = (true, k') /\ sched_wf k' (l ++ l') /\
    view k' t = (THREAD_STATE_DEAD, false, 0) /\ (forall u, u <> t -> view k' u = view k u) /\
    idle k' = idle k /\ current_of k' = current_of k.
Proof.
  intros Hwf Hne Hwait. assert (t ∈ l ++ t :: l') as Hin by set_solver.
  destruct (wf_ready _ _ Hwf t Hin Hne) as [Hs _]. pose proof (wf_list _ _ Hwf) as Hrl.
  destruct (run_list_member _ _ _ Hrl Hin) as [Hq _].
  unfold scheduler_terminate_thread. rewrite (can_terminate_member k (l ++ t :: l')), Hwait by done.
  cbn [negb]. unfold state_is. rewrite Hs, Hq, bool_decide_eq_true_2 by done. cbn [andb].
  destruct (scheduler_unlink_spec k l t l' Hrl) as (k1 & -> & Hl1 & Hre). cbn [negb].
  exists (set_thr t terminated k1). split; [done|].
  apply (terminated_wf k k1 (l ++ t :: l') (l ++ l') t); try done; try set_solver.
  pose proof (rl_nodup _ _ Hrl) as Hnd. apply list.NoDup_app in Hnd as (_ & H1 & H2).
  apply list.NoDup_cons in H2 as [H2 _]. set_solver.
Qed.

Lemma terminate_blocked_spec k l t :
  sched_wf k l -> t_state (thr k t) = THREAD_STATE_BLOCKED -> thread_wait_active k t = false ->
  exists k', scheduler_terminate_thread t k = (true, k') /\ sched_wf k' l /\
    view k' t = (THREAD_STATE_DEAD, false, 0) /\ (forall u, u <> t -> view k' u = view k u) /\
    idle k' = idle k /\ current_of k' = current_of k.
Proof.
  intros Hwf Hb Hwait. destruct (blocked_unqueued k l t Hwf Hb) as [Hnot Hne].
  unfold scheduler_terminate_thread. rewrite (can_terminate_blocked k l), Hwait by done.
  cbn [negb]. unfold state_is. rewrite Hb, bool_decide_eq_false_2 by done. cbn [andb negb].
  exists (set_thr t terminated k). split; [done|].
  by apply (terminated_wf k k l l t); try done; [apply relinked_refl|apply Hwf].
Qed.
