(* ===== verification/SchedulerTheorems.v ===== *)
(** The scheduler as an abstract machine, and its theorems.

    The abstract machine keeps the run list, the thread that owns the processor
    (none while idle) and the set of blocked threads. Traps, timer interrupts,
    wake-ups and terminations of the concrete scheduler are its transitions,
    and none of them halts. *)

From S2P Require Import Prelude Pmm ObjectStorage Kernel Objects Thread.
From S2P Require Import Ring Scheduler SchedulerProofs SchedulerWf SchedulerOps.

Open Scope jcos_scope.

Inductive SchedEvent :=
  | EYield (frame : Z)
  | EBlock (frame : Z)
  | EExit (frame : Z)
  | ETick (frame : Z)
  | EWake (t : Z)
  | ETerminate (t : Z).

Record RunState := mkRunState {
  rs_list : list Z;
  rs_current : option Z;
  rs_blocked : Z -> Prop }.

(** * The abstract machine *)

Definition hand_over (a b : list Z) : option Z := head (b ++ a).

Inductive run_step : SchedEvent -> RunState -> RunState -> Prop :=
  | run_yield f a cur b B B' :
      (forall t, B' t <-> B t) ->
      run_step (EYield f) (mkRunState (a ++ cur :: b) (Some cur) B)
        (mkRunState (a ++ cur :: b) (Some (first_or cur (b ++ a))) B')
  | run_tick_off f a cur b B B' :
      (forall t, B' t <-> B t) ->
      run_step (ETick f) (mkRunState (a ++ cur :: b) (Some cur) B)
        (mkRunState (a ++ cur :: b) (Some cur) B')
  | run_tick f a cur b B B' :
      (forall t, B' t <-> B t) ->
      run_step (ETick f) (mkRunState (a ++ cur :: b) (Some cur) B)
        (mkRunState (a ++ cur :: b) (Some (first_or cur (b ++ a))) B')
  | run_tick_idle f l B B' :
      (forall t, B' t <-> B t) ->
      run_step (ETick f) (mkRunState l None B) (mkRunState l (head l) B')
  | run_block_alone f cur B B' :
      (forall t, B' t <-> B t) ->
      run_step (EBlock f) (mkRunState [cur] (Some cur) B) (mkRunState [cur] (Some cur) B')
  | run_block f a cur b B B' :
      b ++ a <> [] -> (forall t, B' t <-> t = cur \/ B t) ->
      run_step (EBlock f) (mkRunState (a ++ cur :: b) (Some cur) B)
        (mkRunState (a ++ b) (hand_over a b) B')
  | run_exit f a cur b B B' :
      (forall t, B' t <-> B t) ->
      run_step (EExit f) (mkRunState (a ++ cur :: b) (Some cur) B)
        (mkRunState (a ++ b) (hand_over a b) B')
  | run_wake t l c B B' :
      B t -> (forall u, B' u <-> u <> t /\ B u) ->
      run_step (EWake t) (mkRunState l c B) (mkRunState (l ++ [t]) c B')
  | run_wake_refused t l c B B' :
      ~ B t -> (forall u, B' u <-> B u) ->
      run_step (EWake t) (mkRunState l c B) (mkRunState l c B')
  | run_terminate t a b c B B' :
      c <> Some t -> (forall u, B' u <-> B u) ->
      run_step (ETerminate t) (mkRunState (a ++ t :: b) c B) (mkRunState (a ++ b) c B')
  | run_terminate_other t l c B B' :
      t ∉ l -> (forall u, B' u <-> u <> t /\ B u) ->
      run_step (ETerminate t) (mkRunState l c B) (mkRunState l c B')
  | run_terminate_refused t l c B B' :
      (forall u, B' u <-> B u) ->
      run_step (ETerminate t) (mkRunState l c B) (mkRunState l c B').

Inductive run_trace : list SchedEvent -> RunState -> RunState -> Prop :=
  | run_trace_nil R : run_trace [] R R
  | run_trace_cons e es R R1 R2 : run_step e R R1 -> run_trace es R1 R2 -> run_trace (e :: es) R R2.

(** * The concrete events *)

Section Events.
  Context `{KernelStack} (idle_loop : Z).

(** A trap stores its operation in RAX of the saved frame. *)
Definition trap (op frame : Z) (k : Kernel) : option Kernel :=
  match scheduler_reschedule idle_loop frame (set_rax frame op k) with
  | Some (_, k') => Some k'
  | None => None
  end.

Definition run_event (e : SchedEvent) (k : Kernel) : option Kernel :=
  match e with
  | EYield f => trap SCHEDULER_TRAP_YIELD f k
  | EBlock f => trap SCHEDULER_TRAP_BLOCK f k
  | EExit f => trap SCHEDULER_TRAP_EXIT f k
  | ETick f => match scheduler_preempt f k with Some (_, k') => Some k' | None => None end
  | EWake t => Some (scheduler_wake t k).2
  | ETerminate t => Some (scheduler_terminate_thread t k).2
  end.

Fixpoint run_events (es : list SchedEvent) (k : Kernel) : option Kernel :=
  match es with
  | [] => Some k
  | e :: es => match run_event e k with Some k => run_events es k | None => None end
  end.

(** What the hardware and the callers guarantee of an event: interrupts save
    their frame on the stack they interrupt, and a thread exits with no wait
    pending while the idle stack is mapped. *)
Definition event_ok (k : Kernel) (e : SchedEvent) : Prop :=
  match e with
  | EYield f | EBlock f =>
    idle k = false /\ scheduler_interrupt_frame_valid k (current_of k) f = true
  | EExit f =>
    idle k = false /\ scheduler_interrupt_frame_valid k (current_of k) f = true /\
    thread_wait_active k (current_of k) = false /\
    forall k', kernel_stack_mapping_valid k' (sm_idle_stack_physical (k_sch k))
                 (sm_idle_stack_base (k_sch k)) = true
  | ETick f =>
    if idle k then scheduler_idle_runtime_frame_valid k f = true
    else scheduler_interrupt_frame_valid k (current_of k) f = true
  | EWake _ | ETerminate _ => True
  end.

Fixpoint events_ok (k : Kernel) (es : list SchedEvent) : Prop :=
  match es with
  | [] => True
  | e :: es => event_ok k e /\ forall k', run_event e k = Some k' -> events_ok k' es
  end.

Definition run_state (k : Kernel) (l : list Z) : RunState :=
  mkRunState l (if idle k then None else Some (current_of k))
    (fun t => t_state (thr k t) = THREAD_STATE_BLOCKED).

(** * Simulation *)

Lemma sched_wf_rax k l f v : sched_wf k l -> sched_wf (set_rax f v k) l.
Proof.
  intros Hwf. apply (sched_wf_rebuild k _ l); try done; try apply Hwf.
  apply (run_list_frame k); [done|done|apply Hwf].
Qed.

Lemma trap_rax f op k : frm (set_rax f op k) f = (frm k f) <| f_rax := op |>.
Proof. unfold frm at 1, set_rax, set_frm. cbn. by rewrite lookup_insert_eq. Qed.

(** The current thread splits the run list. *)
Lemma split_current k l :
  sched_wf k l -> idle k = false -> exists a b, l = a ++ current_of k :: b.
Proof. intros Hwf Hid. destruct (wf_current _ _ Hwf Hid) as [Hin _]. by apply list_elem_of_split. Qed.

(** The blocked set when only non-blocked views changed. *)
Lemma blocked_same k k' (changed : Z -> Prop) :
  (forall t, changed t \/ ~ changed t) ->
  (forall t, changed t -> t_state (thr k t) <> THREAD_STATE_BLOCKED /\
                          t_state (thr k' t) <> THREAD_STATE_BLOCKED) ->
  (forall t, ~ changed t -> view k' t = view k t) ->
  forall t, t_state (thr k' t) = THREAD_STATE_BLOCKED <-> t_state (thr k t) = THREAD_STATE_BLOCKED.
Proof.
  intros Hdec Hc Hn t. destruct (Hdec t) as [H1|H1].
  - destruct (Hc t H1). tauto.
  - by destruct (view_eq k k' t (Hn t H1)) as (-> & _).
Qed.

Lemma member_not_blocked k l t : sched_wf k l -> t ∈ l -> t_state (thr k t) <> THREAD_STATE_BLOCKED.
Proof. intros Hwf Hin Hb. by destruct (blocked_unqueued k l t Hwf Hb). Qed.

Section One.
  Context {k : Kernel} {a b : list Z} {cur : Z}.
  Hypothesis Hwf : sched_wf k (a ++ cur :: b).
  Hypothesis Hcur : current_of k = cur.
  Hypothesis Hid : idle k = false.

Lemma state_here : run_state k (a ++ cur :: b) =
  mkRunState (a ++ cur :: b) (Some cur) (fun t => t_state (thr k t) = THREAD_STATE_BLOCKED).
Proof using Hcur Hid. unfold run_state. by rewrite Hid, Hcur. Qed.

(** A voluntary or timed switch. *)
Lemma switch_step f timer :
  scheduler_interrupt_frame_valid k cur f = true ->
  sched_wf (scheduler_switch_ready_from_interrupt f timer k).2 (a ++ cur :: b) /\
  let k' := (scheduler_switch_ready_from_interrupt f timer k).2 in
  idle k' = false /\ current_of k' = first_or cur (b ++ a) /\
  forall t, t_state (thr k' t) = THREAD_STATE_BLOCKED <-> t_state (thr k t) = THREAD_STATE_BLOCKED.
Proof using Hwf Hcur Hid.
  intros Hfv. pose proof (switch_spec Hwf Hcur Hid f timer Hfv) as Hs.
  destruct (b ++ a) as [|c m] eqn:E; [by rewrite Hs|].
  destruct Hs as (k' & -> & Hwf' & Hid' & Hc' & Hvcur & Hvc & Hother). cbn [snd]. split_and!; try done.
  assert (c ∈ b ++ a) as Hin by (rewrite E; set_solver).
  apply (blocked_same k k' (fun t => t = c \/ t = cur)); [intros t; destruct (decide (t = c)), (decide (t = cur)); tauto| |].
  - intros t [-> | ->]; (split; [by apply (member_not_blocked k _ _ Hwf); set_solver|]).
    + apply view_state in Hvc. congruence.
    + apply view_state in Hvcur. congruence.
  - intros t Hn. apply Hother; tauto.
Qed.

End One.

(** Every enabled event keeps the invariant, does not halt and is a transition
    of the abstract machine. *)
Lemma yield_simulates k l f :
  sched_wf k l -> event_ok k (EYield f) ->
  exists k' l', run_event (EYield f) k = Some k' /\ sched_wf k' l' /\
    run_step (EYield f) (run_state k l) (run_state k' l').
Proof.
  intros Hwf [Hid Hfv]. destruct (split_current k l Hwf Hid) as (a & b & ->).
  set (cur := current_of k) in *. set (k0 := set_rax f SCHEDULER_TRAP_YIELD k).
  pose proof (sched_wf_rax k _ f SCHEDULER_TRAP_YIELD Hwf) as Hwf0. fold k0 in Hwf0.
  destruct (switch_step Hwf0 (eq_refl : current_of k0 = cur) Hid f false Hfv) as (Hwf' & Hid' & Hc' & Hb').
  exists (scheduler_switch_ready_from_interrupt f false k0).2, (a ++ cur :: b).
  cbn [run_event]. unfold trap, scheduler_reschedule. rewrite (frame_valid_nz _ _ _ Hfv), trap_rax. cbn [negb].
  upd_simpl. change (u32 SCHEDULER_TRAP_YIELD) with 1. cbn [Z.eqb Pos.eqb SCHEDULER_TRAP_YIELD]. fold k0.
  split; [by destruct (scheduler_switch_ready_from_interrupt f false k0)|]. split; [done|].
  rewrite (state_here (cur := cur)) by done. unfold run_state. rewrite Hid', Hc'. by apply run_yield.
Qed.

Lemma tick_simulates k l f :
  sched_wf k l -> event_ok k (ETick f) ->
  exists k' l', run_event (ETick f) k = Some k' /\ sched_wf k' l' /\
    run_step (ETick f) (run_state k l) (run_state k' l').
Proof.
  intros Hwf Hok. cbn in Hok. cbn [run_event]. unfold scheduler_preempt.
  change (sm_idle_active (k_sch k)) with (idle k). destruct (idle k) eqn:Hid.
  - pose proof (resume_spec k l f Hwf Hid Hok) as Hs. destruct l as [|c m].
    + rewrite Hs. exists k, []. split_and!; try done. unfold run_state. rewrite Hid.
      by apply (run_tick_idle f []).
    + destruct Hs as (k' & -> & Hwf' & Hid' & Hc' & Hvc & Hother). exists k', (c :: m).
      split_and!; try done. unfold run_state. rewrite Hid, Hid', Hc'. apply (run_tick_idle f (c :: m)).
      apply (blocked_same k k' (fun t => t = c)); [intros t; destruct (decide (t = c)); tauto| |done].
      intros t ->. split; [apply (member_not_blocked k _ _ Hwf); set_solver|].
      apply view_state in Hvc. congruence.
  - destruct (split_current k l Hwf Hid) as (a & b & ->). set (cur := current_of k) in *.
    rewrite (frame_valid_nz _ _ _ Hok). cbn [negb orb].
    destruct (sm_preemption_enabled (k_sch k)); cbn [negb].
    + destruct (switch_step Hwf eq_refl Hid f true Hok) as (Hwf' & Hid' & Hc' & Hb').
      exists (scheduler_switch_ready_from_interrupt f true k).2, (a ++ cur :: b).
      split; [by destruct (scheduler_switch_ready_from_interrupt f true k)|]. split; [done|].
      rewrite (state_here (cur := cur)) by done. unfold run_state. rewrite Hid', Hc'. by apply run_tick.
    + exists k, (a ++ cur :: b). split_and!; try done.
      rewrite (state_here (cur := cur)) by done. by apply run_tick_off.
Qed.

Lemma block_simulates k l f :
  sched_wf k l -> event_ok k (EBlock f) ->
  exists k' l', run_event (EBlock f) k = Some k' /\ sched_wf k' l' /\
    run_step (EBlock f) (run_state k l) (run_state k' l').
Proof.
  intros Hwf [Hid Hfv]. destruct (split_current k l Hwf Hid) as (a & b & ->).
  set (cur := current_of k) in *. set (k0 := set_rax f SCHEDULER_TRAP_BLOCK k).
  pose proof (sched_wf_rax k _ f SCHEDULER_TRAP_BLOCK Hwf) as Hwf0. fold k0 in Hwf0.
  pose proof (block_spec Hwf0 (eq_refl : current_of k0 = cur) Hid f Hfv) as Hs.
  cbn [run_event]. unfold trap, scheduler_reschedule. rewrite (frame_valid_nz _ _ _ Hfv), trap_rax. cbn [negb].
  upd_simpl. change (u32 SCHEDULER_TRAP_BLOCK) with 2.
  cbn [Z.eqb Pos.eqb SCHEDULER_TRAP_YIELD SCHEDULER_TRAP_BLOCK]. fold k0.
  rewrite (state_here (cur := cur)) by done. destruct (b ++ a) as [|c m] eqn:E.
  - rewrite Hs. apply app_eq_nil in E as [-> ->]. exists (set_rax f 0 k0), [cur].
    split_and!; [done|by apply sched_wf_rax|].
    unfold run_state. change (idle (set_rax f 0 k0)) with (idle k). rewrite Hid. by apply run_block_alone.
  - destruct Hs as (k' & -> & Hwf' & Hid' & Hc' & Hvcur & Hvc & Hother). exists k', (a ++ b).
    split_and!; try done. unfold run_state. rewrite Hid', Hc'.
    assert (Some c = hand_over a b) as -> by (unfold hand_over; by rewrite E).
    apply run_block; [by rewrite E|]. intros t. destruct (decide (t = cur)) as [->|Hne].
    + apply view_state in Hvcur. tauto.
    + assert (c ∈ b ++ a) as Hin by (rewrite E; set_solver).
      destruct (decide (t = c)) as [->|Hnc].
      * apply view_state in Hvc. rewrite Hvc. split; [done|]. intros [?|Hb]; [done|].
        exfalso. apply (member_not_blocked k _ c Hwf); [set_solver|done].
      * destruct (view_eq k0 k' t (Hother t Hnc Hne)) as (-> & _). change (thr k0 t) with (thr k t). tauto.
Qed.

Lemma exit_simulates k l f :
  sched_wf k l -> event_ok k (EExit f) ->
  exists k' l', run_event (EExit f) k = Some k' /\ sched_wf k' l' /\
    run_step (EExit f) (run_state k l) (run_state k' l').
Proof.
  intros Hwf (Hid & Hfv & Hwait & Hmap). destruct (split_current k l Hwf Hid) as (a & b & ->).
  set (cur := current_of k) in *. set (k0 := set_rax f SCHEDULER_TRAP_EXIT k).
  pose proof (sched_wf_rax k _ f SCHEDULER_TRAP_EXIT Hwf) as Hwf0. fold k0 in Hwf0.
  cbn [run_event]. unfold trap, scheduler_reschedule. rewrite (frame_valid_nz _ _ _ Hfv), trap_rax. cbn [negb].
  upd_simpl. change (u32 SCHEDULER_TRAP_EXIT) with 3.
  cbn [Z.eqb Pos.eqb SCHEDULER_TRAP_YIELD SCHEDULER_TRAP_BLOCK SCHEDULER_TRAP_EXIT]. fold k0.
  rewrite (state_here (cur := cur)) by done. destruct (b ++ a) as [|c m] eqn:E.
  - apply app_eq_nil in E as [-> ->].
    destruct (exit_idle_spec idle_loop k0 cur f true Hwf0 eq_refl Hid Hfv Hwait (Hmap k0))
      as (k' & -> & Hwf' & Hid' & Hv & Hother & _).
    exists k', []. split_and!; try done. unfold run_state. rewrite Hid'. apply (run_exit f [] cur []).
    intros t. destruct (decide (t = cur)) as [->|Hne].
    + apply view_state in Hv. rewrite Hv. split; [done|]. intros Hb. exfalso.
      apply (member_not_blocked k _ cur Hwf); [set_solver|done].
    + by destruct (view_eq k0 k' t (Hother t Hne)) as (-> & _).
  - destruct (exit_handover_spec Hwf0 (eq_refl : current_of k0 = cur) Hid idle_loop f true c m Hfv E)
      as (k' & -> & Hwf' & Hid' & Hc' & Hvcur & Hvc & Hother).
    exists k', (a ++ b). split_and!; try done. unfold run_state. rewrite Hid', Hc'.
    assert (Some c = hand_over a b) as -> by (unfold hand_over; by rewrite E).
    apply run_exit. assert (c ∈ b ++ a) as Hin by (rewrite E; set_solver).
    apply (blocked_same k k' (fun t => t = c \/ t = cur)).
    + intros t. destruct (decide (t = c)), (decide (t = cur)); tauto.
    + intros t [-> | ->]; (split; [by apply (member_not_blocked k _ _ Hwf); set_solver|]).
      * apply view_state in Hvc. congruence.
      * apply view_state in Hvcur. congruence.
    + intros t Hn. apply Hother; tauto.
Qed.

Lemma wake_simulates k l t :
  sched_wf k l ->
  exists k' l', run_event (EWake t) k = Some k' /\ sched_wf k' l' /\
    run_step (EWake t) (run_state k l) (run_state k' l').
Proof.
  intros Hwf. cbn [run_event]. destruct (decide (t_state (thr k t) = THREAD_STATE_BLOCKED)) as [Hb|Hb].
  - destruct (wake_spec k l t Hwf Hb) as (k' & -> & Hwf' & Hi & Hc & Hs & Hother).
    exists k', (l ++ [t]). split_and!; try done. unfold run_state. rewrite Hi, Hc. apply run_wake; [done|].
    intros u. destruct (decide (u = t)) as [->|Hne]; [rewrite Hs; naive_solver|].
    destruct (view_eq k k' u (Hother u Hne)) as (-> & _). tauto.
  - exists k, l. assert (scheduler_wake t k = (false, k)) as ->.
    { unfold scheduler_wake, state_is. rewrite bool_decide_eq_false_2 by done. cbn [negb].
      by rewrite orb_true_r. }
    split_and!; try done. by apply run_wake_refused.
Qed.

Lemma terminate_simulates k l t :
  sched_wf k l ->
  exists k' l', run_event (ETerminate t) k = Some k' /\ sched_wf k' l' /\
    run_step (ETerminate t) (run_state k l) (run_state k' l').
Proof.
  intros Hwf. cbn [run_event].
  destruct (scheduler_can_terminate_thread k t && !thread_wait_active k t) eqn:Hcan.
  2: { exists k, l. assert (scheduler_terminate_thread t k = (false, k)) as ->.
       { unfold scheduler_terminate_thread. destruct (scheduler_can_terminate_thread k t); [|done].
         cbn in *. by destruct (thread_wait_active k t). }
       split_and!; try done. by apply run_terminate_refused. }
  apply andb_true_iff in Hcan as [Hcan Hwait]. apply negb_true_iff in Hwait.
  assert (t <> current_of k) as Hne.
  { intros ->. unfold scheduler_can_terminate_thread, thread_current in Hcan.
    rewrite (wf_tinit _ _ Hwf) in Hcan. cbn in Hcan. unfold current_of in Hcan.
    by rewrite Z.eqb_refl, !orb_true_r in Hcan. }
  assert ((if idle k then None else Some (current_of k)) <> Some t) as Hct
    by (destruct (idle k); [done|congruence]).
  destruct (decide (t ∈ l)) as [Hin|Hnot].
  - apply list_elem_of_split in Hin as (a & b & ->).
    destruct (terminate_member_spec k a t b Hwf Hne Hwait) as (k' & -> & Hwf' & Hv & Hother & Hi & Hc).
    exists k', (a ++ b). split_and!; try done. unfold run_state. rewrite Hi, Hc.
    apply run_terminate; [done|]. intros u. destruct (decide (u = t)) as [->|Hu].
    + apply view_state in Hv. rewrite Hv. split; [done|]. intros Hb. exfalso.
      apply (member_not_blocked k _ t Hwf); [set_solver|done].
    + by destruct (view_eq k k' u (Hother u Hu)) as (-> & _).
  - assert (scheduler_terminate_thread t k = (true, set_thr t terminated k)) as ->.
    { unfold scheduler_terminate_thread. rewrite Hcan, Hwait. cbn [negb].
      rewrite (rl_queued _ _ (wf_list _ _ Hwf)), (bool_decide_eq_false_2 (t ∈ l)), andb_false_r by done.
      done. }
    destruct (terminated_wf k k l l t Hwf (relinked_refl k) (wf_list _ _ Hwf) Hnot Hne)
      as (Hwf' & Hv & Hother & Hi & Hc); try done.
    exists (set_thr t terminated k), l. split_and!; try done. unfold run_state. rewrite Hi, Hc.
    apply run_terminate_other; [done|]. intros u. destruct (decide (u = t)) as [->|Hu].
    + apply view_state in Hv. rewrite Hv. naive_solver.
    + destruct (view_eq k _ u (Hother u Hu)) as (-> & _). tauto.
Qed.

Lemma event_simulates k l e :
  sched_wf k l -> event_ok k e ->
  exists k' l', run_event e k = Some k' /\ sched_wf k' l' /\ run_step e (run_state k l) (run_state k' l').
Proof.
  intros Hwf Hok. destruct e.
  - by apply yield_simulates.
  - by apply block_simulates.
  - by apply exit_simulates.
  - by apply tick_simulates.
  - by apply wake_simulates.
  - by apply terminate_simulates.
Qed.

Lemma events_simulate es k l :
  sched_wf k l -> events_ok k es ->
  exists k' l', run_events es k = Some k' /\ sched_wf k' l' /\
    run_trace es (run_state k l) (run_state k' l').
Proof.
  revert k l. induction es as [|e es IH]; intros k l Hwf Hok.
  - exists k, l. split_and!; try done. constructor.
  - destruct Hok as [Hok Hnext]. destruct (event_simulates k l e Hwf Hok) as (k1 & l1 & H1 & Hwf1 & Hs).
    cbn [run_events]. rewrite H1. destruct (IH k1 l1 Hwf1 (Hnext k1 H1)) as (k2 & l2 & H2 & Hwf2 & Ht).
    exists k2, l2. split_and!; try done. by econstructor.
Qed.

End Events.


(** * Round robin *)

(** The neighbour of position [i] on the ring. *)
Lemma ring_successor (a b : list Z) (cur : Z) :
  (a ++ cur :: b) !! (S (length a) mod length (a ++ cur :: b))%nat = Some (first_or cur (b ++ a)).
Proof.
  rewrite length_app. cbn [length]. destruct b as [|c b].
  - replace (length a + length [cur])%nat with (S (length a)) by (cbn; lia).
    cbn [length]. rewrite Nat.add_1_r, Nat.Div0.mod_same. by destruct a.
  - cbn [length]. rewrite Nat.mod_small by lia.
    replace (S (length a)) with (length a + 1)%nat by lia.
    by rewrite lookup_app_r, Nat.add_comm, Nat.add_sub by lia.
Qed.

Lemma list_split_at (l : list Z) i x : l !! i = Some x -> exists a b, l = a ++ x :: b /\ length a = i.
Proof.
  intros Hi. exists (take i l), (drop (S i) l). split; [by rewrite take_drop_middle|].
  rewrite length_take. apply lookup_lt_Some in Hi. lia.
Qed.

Lemma yield_advances `{KernelStack} idle_loop k l f i :
  sched_wf k l -> event_ok k (EYield f) -> l !! i = Some (current_of k) ->
  exists k', run_event idle_loop (EYield f) k = Some k' /\ sched_wf k' l /\
    l !! (S i mod length l)%nat = Some (current_of k').
Proof.
  intros Hwf [Hid Hfv] Hi.
  destruct (list_split_at l i (current_of k) Hi) as (a & b & -> & <-).
  set (k0 := set_rax f SCHEDULER_TRAP_YIELD k).
  pose proof (sched_wf_rax k _ f SCHEDULER_TRAP_YIELD Hwf) as Hwf0. fold k0 in Hwf0.
  destruct (switch_step Hwf0 (eq_refl : current_of k0 = current_of k) Hid f false Hfv) as (Hwf' & Hid' & Hc' & _).
  exists (scheduler_switch_ready_from_interrupt f false k0).2.
  cbn [run_event]. unfold trap, scheduler_reschedule. rewrite (frame_valid_nz _ _ _ Hfv), trap_rax. cbn [negb].
  upd_simpl. change (u32 SCHEDULER_TRAP_YIELD) with 1. cbn [Z.eqb Pos.eqb SCHEDULER_TRAP_YIELD]. fold k0.
  split; [by destruct (scheduler_switch_ready_from_interrupt f false k0)|]. split; [done|].
  rewrite Hc'. apply ring_successor.
Qed.

Lemma yields_advance `{KernelStack} idle_loop fs k l i :
  sched_wf k l -> events_ok idle_loop k (map EYield fs) -> l !! i = Some (current_of k) ->
  exists k', run_events idle_loop (map EYield fs) k = Some k' /\ sched_wf k' l /\
    l !! ((i + length fs) mod length l)%nat = Some (current_of k').
Proof.
  revert k i. induction fs as [|f fs IH]; intros k i Hwf Hok Hi.
  - exists k. split_and!; try done. cbn [length]. rewrite Nat.add_0_r, Nat.mod_small; [done|].
    by apply lookup_lt_Some in Hi.
  - destruct Hok as [Hok Hnext].
    destruct (yield_advances idle_loop k l f i Hwf Hok Hi) as (k1 & H1 & Hwf1 & Hi1).
    cbn [map run_events]. rewrite H1. destruct (IH k1 _ Hwf1 (Hnext k1 H1) Hi1) as (k2 & H2 & Hwf2 & Hi2).
    exists k2. split_and!; try done. rewrite Nat.Div0.add_mod_idemp_l in Hi2.
    by replace (i + length (f :: fs))%nat with (S i + length fs)%nat by (cbn; lia).
Qed.

(** * Theorems *)

(** C11. The scheduler implements the abstract run-list machine. From a
    well-formed state, any sequence of yields, blocks, exits, timer interrupts,
    wake-ups and terminations whose frames the hardware saved on the interrupted
    stack runs to its end without halting, keeps the invariant, is a trace of
    the abstract machine, and leaves exactly one thread RUNNING, the current
    one, unless the processor idles, when there is none. *)
Theorem sched_refines `{KernelStack} (idle_loop : Z) (es : list SchedEvent) (k : Kernel) (l : list Z) :
  sched_wf k l -> events_ok idle_loop k es ->
  exists k' l', run_events idle_loop es k = Some k' /\ sched_wf k' l' /\
    run_trace es (run_state k l) (run_state k' l') /\
    forall t, t_state (thr k' t) = THREAD_STATE_RUNNING <-> idle k' = false /\ t = current_of k'.
Proof.
  intros Hwf Hok. destruct (events_simulate idle_loop es k l Hwf Hok) as (k' & l' & Hr & Hwf' & Ht).
  exists k', l'. split_and!; try done. intros t. split; [apply Hwf'|]. intros [Hid ->].
  by apply (wf_current _ _ Hwf').
Qed.

(** Yielding is round robin: after [n] yields from the thread at position
    [i] of the run list, the thread at position [(i + n) mod count] runs, and
    the list is as it was; so every runnable thread is reached within one turn. *)
Theorem yield_round_robin `{KernelStack} (idle_loop : Z) (fs : list Z) (k : Kernel) (l : list Z) (i : nat) :
  sched_wf k l -> events_ok idle_loop k (map EYield fs) -> l !! i = Some (current_of k) ->
  exists k', run_events idle_loop (map EYield fs) k = Some k' /\ sched_wf k' l /\
    l !! ((i + length fs) mod length l)%nat = Some (current_of k').
Proof. apply yields_advance. Qed.

(** * A concrete machine

    Thread [0x1000] runs, [0x2000] is queued and [0x3000] is blocked. *)

Definition demo_thread (id stack : Z) (s : ThreadState) (next : Z) (queued : bool) : Thread :=
  thread_zero <| t_id := id |> <| t_process := g_kernel_process |> <| t_state := s |>
    <| t_interrupt_rsp := stack + 0x3000 |> <| t_interrupt_context_ready := true |>
    <| t_kernel_stack_base := stack |> <| t_kernel_stack_top := stack + THREAD_KERNEL_STACK_SIZE |>
    <| t_kernel_stack_size := THREAD_KERNEL_STACK_SIZE |> <| t_run_next := next |>
    <| t_on_run_queue := queued |>.

Definition sched_demo : Kernel :=
  kernel_boot
  <| k_threads := {[ 0x1000 := demo_thread 1 0x100000 THREAD_STATE_RUNNING 0x2000 true;
                     0x2000 := demo_thread 2 0x200000 THREAD_STATE_READY 0x1000 true;
                     0x3000 := demo_thread 3 0x300000 THREAD_STATE_BLOCKED 0 false ]} |>
  <| k_processes := {[ g_kernel_process := process_zero <| p_id := 1 |> <| p_address_space := 0x80 |>
                         <| p_kernel := true |> <| p_initialized := true |> ]} |>
  <| k_spaces := {[ 0x80 := mkAddressSpace 1 7 false true 0 ]} |>
  <| k_thr := mkThreadMod 0x1000 4 1 true ([0x1000; 0x2000; 0x3000] ++ replicate 509 0) 0 0 |>
  <| k_prc := mkObjectMod 2 true (g_kernel_process :: replicate 127 0) |>
  <| k_spc := mkObjectMod 2 true (0x80 :: replicate 255 0) |>
  <| k_sch := mkSchedMod 0x1000 0x2000 2 true 0 true 0 0 0x9000 0x400000 0x404000 true false 0 0 |>.

Lemma sched_demo_thr t :
  (t = 0x1000 \/ t = 0x2000 \/ t = 0x3000) \/
  (t <> 0x1000 /\ t <> 0x2000 /\ t <> 0x3000 /\ thr sched_demo t = thread_zero).
Proof.
  destruct (decide (t = 0x1000)); [tauto|]. destruct (decide (t = 0x2000)); [tauto|].
  destruct (decide (t = 0x3000)); [tauto|]. right. split_and!; try done.
  unfold thr, sched_demo. upd_simpl. by rewrite !lookup_insert_ne, lookup_singleton_ne by done.
Qed.

Ltac demo_cases t :=
  destruct (sched_demo_thr t) as [[->|[->| ->]]|(? & ? & ? & ->)].

Lemma sched_demo_run_list : run_list sched_demo [0x1000; 0x2000].
Proof.
  split.
  - by vm_compute.
  - apply (bool_decide_unpack _). by vm_compute.
  - apply (bool_decide_unpack _). by vm_compute.
  - by vm_compute.
  - by vm_compute.
  - by vm_compute.
  - by vm_compute.
  - intros t. demo_cases t; [by vm_compute..|]. rewrite bool_decide_eq_false_2; [done|]. set_solver.
  - intros t Ht. unfold next_of. demo_cases t; [set_solver..|by vm_compute|done].
Qed.

Lemma sched_demo_wf : sched_wf sched_demo [0x1000; 0x2000].
Proof.
  split.
  - done.
  - done.
  - split; [by vm_compute|]. apply (bool_decide_unpack _). by vm_compute.
  - apply sched_demo_run_list.
  - intros t Ht. assert (t = 0x1000 \/ t = 0x2000) as [->| ->] by set_solver; by vm_compute.
  - intros _. split; [apply (bool_decide_unpack _)|]; by vm_compute.
  - done.
  - intros t Ht Hne. change (current_of sched_demo) with 0x1000 in Hne.
    assert (t = 0x2000) as -> by set_solver. by vm_compute.
  - intros t. demo_cases t; [by vm_compute..|done].
  - intros t. demo_cases t; [by vm_compute..|done].
  - split; by vm_compute.
  - split; by vm_compute.
Qed.

(** Every stack is mapped. *)
#[local] Instance demo_stack : KernelStack := { kernel_stack_mapping_valid := fun _ _ _ => true }.

(** The running thread yields, its peer blocks, the blocked thread is woken,
    and both remaining threads exit one after the other. *)
Definition demo_events : list SchedEvent :=
  [EYield 0x103000; EBlock 0x203000; EWake 0x3000; EExit 0x103100; EExit 0x303100; EWake 0x2000; ETick 0x402000].

Definition event_okb (k : Kernel) (e : SchedEvent) : bool :=
  match e with
  | EYield f | EBlock f => !idle k && scheduler_interrupt_frame_valid k (current_of k) f
  | EExit f => !idle k && scheduler_interrupt_frame_valid k (current_of k) f
               && !thread_wait_active k (current_of k)
  | ETick f => if idle k then scheduler_idle_runtime_frame_valid k f
               else scheduler_interrupt_frame_valid k (current_of k) f
  | EWake _ | ETerminate _ => true
  end.

Fixpoint events_okb (k : Kernel) (es : list SchedEvent) : bool :=
  match es with
  | [] => true
  | e :: es => event_okb k e && match run_event 0x5000 e k with Some k => events_okb k es | None => true end
  end.

Lemma events_okb_sound es k : events_okb k es = true -> events_ok 0x5000 k es.
Proof.
  revert k. induction es as [|e es IH]; intros k H; [done|]. cbn [events_okb] in H.
  apply andb_true_iff in H as [He Hes]. split.
  - clear Hes. destruct e; cbn in He |- *;
      repeat match goal with
             | H : _ && _ = true |- _ => apply andb_true_iff in H as [? ?]
             | H : negb _ = true |- _ => apply negb_true_iff in H
             end; try (destruct (idle k); done); split_and!; done.
  - intros k' Hk. rewrite Hk in Hes. by apply IH.
Qed.

Lemma sched_refines_witness :
  exists k', run_events 0x5000 demo_events sched_demo = Some k' /\ sched_wf k' [0x2000] /\ current_of k' = 0x2000.
Proof.
  destruct (sched_refines 0x5000 demo_events sched_demo [0x1000; 0x2000]) as (k' & l' & Hr & Hwf & _).
  - apply sched_demo_wf.
  - apply events_okb_sound. by vm_compute.
  - assert (match run_events 0x5000 demo_events sched_demo with
            | Some k => (sm_run_head (k_sch k), current_of k, sm_run_count (k_sch k))
            | None => (0, 0, 0)
            end = (0x2000, 0x2000, 1)) as H1 by (by vm_compute).
    rewrite Hr in H1. injection H1 as Hh Hc Hn. exists k'. split; [exact Hr|]. split; [|exact Hc].
    pose proof (rl_head _ _ (wf_list _ _ Hwf)) as H2. pose proof (rl_count _ _ (wf_list _ _ Hwf)) as H3.
    rewrite Hh in H2. rewrite Hn in H3. destruct l' as [|x [|y l']]; cbn in H2, H3; [lia| |lia].
    by rewrite <- H2 in Hwf.
Defined.

Lemma yield_round_robin_witness :
  exists k', run_events 0x5000 (map EYield [0x103000; 0x203000; 0x103000]) sched_demo = Some k' /\
    current_of k' = 0x2000.
Proof.
  destruct (yield_round_robin 0x5000 [0x103000; 0x203000; 0x103000] sched_demo [0x1000; 0x2000] 0)
    as (k' & Hr & _ & Hi).
  - apply sched_demo_wf.
  - apply events_okb_sound. by vm_compute.
  - by vm_compute.
  - exists k'. split; [exact Hr|]. by injection Hi as <-.
Defined.
