(* ===== verification/Ipc.v ===== *)
(** Message passing: [kernel/ipc.c] and the tick path of [kernel/timer.c].

    An endpoint holds one accepted message and one staged message of a blocked
    sender. Every function runs with interrupts excluded; [None] is
    [cpu_halt_forever]. The blocking calls are split where the code calls
    [scheduler_wait_current]: [*_enter] runs from the call to the wait loop,
    [*_iterate] one turn of the loop up to that call or to the return of the
    whole call, [*_cancelled] from a failed [scheduler_wait_current] to the
    return. Between the pieces other threads run; a piece runs when its thread
    is current, so [thread_current] reads the local [current] of the C. Message
    pointers are not null. *)

From S2P Require Import Prelude Pmm ObjectStorage Kernel Objects Capability.
From S2P Require Import Endpoint Thread Scheduler.

Open Scope jcos_scope.

Definition CAPABILITY_RIGHT_SEND : Z := 0x20.

Definition CAPABILITY_RIGHT_RECEIVE : Z := 0x40.

Definition IPC_TIMED_WAIT_CAPACITY : Z := ENDPOINT_STORAGE_CAPACITY * 2.

Definition IPC_TIMEOUT_MAX_TICKS : Z := 0x7FFFFFFFFFFFFFFF.

Definition ipc_message_valid (message : IpcMessage) : bool :=
  nz (m_word_count message) && (m_word_count message <=? IPC_MESSAGE_MAX_WORDS).

Definition ipc_endpoint_valid (k : Kernel) (endpoint : Z) : bool :=
  endpoint_storage_in_use k endpoint && e_initialized (ept k endpoint) && nz (e_id (ept k endpoint)).

Definition ipc_result_valid (result : ThreadWaitResult) : bool :=
  match result with
  | THREAD_WAIT_RESULT_PENDING | THREAD_WAIT_RESULT_COMPLETED | THREAD_WAIT_RESULT_CANCELLED
  | THREAD_WAIT_RESULT_PEER_CLOSED | THREAD_WAIT_RESULT_TIMED_OUT => true
  | THREAD_WAIT_RESULT_NONE => false
  end.

(** [thread->wait_result == THREAD_WAIT_RESULT_PENDING] *)
Definition pending (k : Kernel) (thread : Z) : bool :=
  bool_decide (t_wait_result (thr k thread) = THREAD_WAIT_RESULT_PENDING).

(** * Timeouts *)

Definition timer_initialized (k : Kernel) : bool := tk_initialized (k_tim k).

Definition timer_ticks (k : Kernel) : Z := tk_ticks (k_tim k).

(** The difference wraps and is read as a signed 64-bit number. *)
Definition ipc_deadline_reached (now deadline : Z) : bool := u64 (now - deadline) <? 2 ^ 63.

Definition timed_at (k : Kernel) (i : Z) : IpcTimedWait := im_timed_waits (k_ipc k) !!! Z.to_nat i.

Definition set_timed (i : Z) (w : IpcTimedWait) (k : Kernel) : Kernel :=
  set_im (fun m => m <| im_timed_waits := <[Z.to_nat i := w]> (im_timed_waits m) |>) k.

(** The slots [ipc_timeout_register] looks through: the first free one, unless
    the wait is registered already. *)
Fixpoint timed_scan (thread endpoint : Z) (kind : ThreadWaitKind) (id : Z) (k : Kernel) (l : list Z)
    (empty : Z) : option Z :=
  match l with
  | [] => Some empty
  | i :: l =>
    let slot := timed_at k i in
    if !w_occupied slot then
      timed_scan thread endpoint kind id k l (if empty =? IPC_TIMED_WAIT_CAPACITY then i else empty)
    else if (w_thread slot =? thread)
            || ((w_endpoint slot =? endpoint) && bool_decide (w_kind slot = kind) && (w_wait_id slot =? id))
    then None else timed_scan thread endpoint kind id k l empty
  end.

Definition ipc_timeout_register (thread endpoint : Z) (kind : ThreadWaitKind) (id ticks : Z) (k : Kernel)
    : bool * Kernel :=
  if !timer_initialized k || !nz ticks || (ticks >? IPC_TIMEOUT_MAX_TICKS)
     || !thread_wait_matches_id k thread kind endpoint id then (false, k) else
  match timed_scan thread endpoint kind id k (seqZ 0 IPC_TIMED_WAIT_CAPACITY) IPC_TIMED_WAIT_CAPACITY with
  | None => (false, k)
  | Some empty =>
    if empty =? IPC_TIMED_WAIT_CAPACITY then (false, k) else
    (true, set_timed empty (mkIpcTimedWait thread endpoint (t_id (thr k thread)) (e_id (ept k endpoint)) id
                              (u64 (timer_ticks k + ticks)) kind true) k)
  end.

Definition timed_matches (k : Kernel) (thread endpoint : Z) (kind : ThreadWaitKind) (id i : Z) : bool :=
  let slot := timed_at k i in
  w_occupied slot && (w_thread slot =? thread) && (w_endpoint slot =? endpoint)
  && bool_decide (w_kind slot = kind) && (w_wait_id slot =? id).

Definition ipc_timeout_unregister (thread endpoint : Z) (kind : ThreadWaitKind) (id : Z) (k : Kernel)
    : bool * Kernel :=
  match List.find (timed_matches k thread endpoint kind id) (seqZ 0 IPC_TIMED_WAIT_CAPACITY) with
  | Some i => (true, set_timed i timed_wait_zero k)
  | None => (false, k)
  end.

Definition ipc_timeout_test_active_count (k : Kernel) : Z :=
  countb (fun i => w_occupied (timed_at k i)) (seqZ 0 IPC_TIMED_WAIT_CAPACITY).

(** * Reservations *)

(** The thread and the wait identity registered in an endpoint. *)
Definition waiting_thread (e : Endpoint) (kind : ThreadWaitKind) : Z :=
  if bool_decide (kind = THREAD_WAIT_IPC_RECEIVE) then e_waiting_receiver e else e_waiting_sender e.

Definition waiting_id (e : Endpoint) (kind : ThreadWaitKind) : Z :=
  if bool_decide (kind = THREAD_WAIT_IPC_RECEIVE) then e_waiting_receiver_id e else e_waiting_sender_id e.

Definition ipc_reservation_valid (k : Kernel) (endpoint : Z) (kind : ThreadWaitKind) : bool :=
  let thread := waiting_thread (ept k endpoint) kind in
  let id := waiting_id (ept k endpoint) kind in
  let t := thr k thread in
  if !nz thread then id =? 0 else
  if !thread_wait_matches_id k thread kind endpoint id || !ipc_result_valid (t_wait_result t) then false else
  if (thread =? thread_current k) && state_is k thread THREAD_STATE_RUNNING
  then t_on_run_queue t && nz (t_run_next t) else
  if !t_interrupt_context_ready t || !nz (t_interrupt_rsp t) then false else
  if state_is k thread THREAD_STATE_BLOCKED then !t_on_run_queue t && !nz (t_run_next t) else
  if state_is k thread THREAD_STATE_READY then t_on_run_queue t && nz (t_run_next t) else false.

(** Null when there is no such capability. *)
Definition ipc_resolve_endpoint (k : Kernel) (process handle rights : Z) : Z :=
  let caps := process_capabilities k process in
  if !nz caps then 0 else
  match capability_lookup_rights k caps handle CAPABILITY_TYPE_ENDPOINT rights with
  | None => 0
  | Some object => if ipc_endpoint_valid k object then object else 0
  end.

Definition ipc_make_ready (thread : Z) (k : Kernel) : bool * Kernel :=
  if state_is k thread THREAD_STATE_BLOCKED then scheduler_wake thread k else
  (((thread =? thread_current k) && state_is k thread THREAD_STATE_RUNNING && t_on_run_queue (thr k thread))
   || (state_is k thread THREAD_STATE_READY && t_on_run_queue (thr k thread)), k).

Definition ipc_finish (thread endpoint : Z) (kind : ThreadWaitKind) (id : Z) (result : ThreadWaitResult)
    (k : Kernel) : option Kernel :=
  match thread_wait_try_complete thread kind endpoint id result k with
  | (true, k) => Some k
  | (false, _) => None
  end.

(** Dropping the staged message of a sender. *)
Definition drop_staged (endpoint : Z) (k : Kernel) : Kernel :=
  set_ept endpoint (fun e => e <| e_waiting_sender_message := message_zero |>
                               <| e_waiting_sender_message_ready := false |>) k.

(** [if (!ipc_make_ready(thread)) cpu_halt_forever();] *)
Definition make_ready_or_halt (thread : Z) (k : Kernel) : option Kernel :=
  match ipc_make_ready thread k with
  | (true, k) => Some k
  | (false, _) => None
  end.

(** One slot of [ipc_timeout_poll]. *)
Definition poll_slot (now : Z) (k : Kernel) (i : Z) : option Kernel :=
  let slot := timed_at k i in
  if !w_occupied slot then Some k else
  let thread := w_thread slot in
  let endpoint := w_endpoint slot in
  if !thread_storage_in_use k thread || !ipc_endpoint_valid k endpoint
     || (t_id (thr k thread) != w_thread_id slot) || (e_id (ept k endpoint) != w_endpoint_id slot)
     || !thread_wait_matches_id k thread (w_kind slot) endpoint (w_wait_id slot)
     || !ipc_reservation_valid k endpoint (w_kind slot) then None else
  if !pending k thread then Some k else
  if !ipc_deadline_reached now (w_deadline slot) then Some k else
  match w_kind slot with
  | THREAD_WAIT_IPC_SEND =>
    if !e_waiting_sender_message_ready (ept k endpoint) then None else
    k ← ipc_finish thread endpoint THREAD_WAIT_IPC_SEND (w_wait_id slot) THREAD_WAIT_RESULT_TIMED_OUT k;
    make_ready_or_halt thread (drop_staged endpoint k)
  | THREAD_WAIT_IPC_RECEIVE =>
    k ← ipc_finish thread endpoint THREAD_WAIT_IPC_RECEIVE (w_wait_id slot) THREAD_WAIT_RESULT_TIMED_OUT k;
    make_ready_or_halt thread k
  | _ => None
  end.

Definition ipc_timeout_poll (now_ticks : Z) (k : Kernel) : option Kernel :=
  foldl (fun k i => k ← k; poll_slot now_ticks k i) (Some k) (seqZ 0 IPC_TIMED_WAIT_CAPACITY).

Definition timer_handle_irq (k : Kernel) : option Kernel :=
  if !timer_initialized k then Some k else
  let k := k <| k_tim := (k_tim k) <| tk_ticks := u64 (tk_ticks (k_tim k) + 1) |> |> in
  ipc_timeout_poll (timer_ticks k) k.

(** * The mailbox under reservations *)

Definition ipc_send_locked (endpoint : Z) (message : IpcMessage) (k : Kernel) : option (bool * Kernel) :=
  if !ipc_endpoint_valid k endpoint || !ipc_message_valid message || e_closed (ept k endpoint)
     || endpoint_message_ready k endpoint || !ipc_reservation_valid k endpoint THREAD_WAIT_IPC_RECEIVE
  then Some (false, k) else
  let receiver := e_waiting_receiver (ept k endpoint) in
  if nz receiver && !pending k receiver then Some (false, k) else
  let '(sent, k) := endpoint_try_send endpoint message k in
  if !sent then Some (false, k) else
  if !nz receiver then Some (true, k) else
  let '(ready, k) := ipc_make_ready receiver k in
  if ready then Some (true, k) else
  match endpoint_try_receive endpoint k with
  | (None, _) => None
  | (Some _, k) => Some (false, k)
  end.

(** [Some m] when a message was received. *)
Definition ipc_receive_locked (endpoint current : Z) (k : Kernel) : option (option IpcMessage * Kernel) :=
  let e := ept k endpoint in
  if !ipc_endpoint_valid k endpoint || e_closed e
     || !ipc_reservation_valid k endpoint THREAD_WAIT_IPC_RECEIVE
     || !ipc_reservation_valid k endpoint THREAD_WAIT_IPC_SEND then Some (None, k) else
  let receiver := e_waiting_receiver e in
  if nz receiver && ((receiver != current) || !pending k receiver) then Some (None, k) else
  if !endpoint_message_ready k endpoint then Some (None, k) else
  let sender := e_waiting_sender e in
  let staged := e_waiting_sender_message_ready e in
  if staged && (!nz sender || !pending k sender) then Some (None, k) else
  if nz sender && pending k sender && !staged then Some (None, k) else
  match endpoint_try_receive endpoint k with
  | (None, k) => Some (None, k)
  | (Some received, k) =>
    if !staged then Some (Some received, k) else
    let '(sent, k) := endpoint_try_send endpoint (e_waiting_sender_message (ept k endpoint)) k in
    if !sent then
      let '(restored, k) := endpoint_try_send endpoint received k in
      if !restored then None else Some (None, k)
    else
    let '(ready, k) := ipc_make_ready sender k in
    if !ready then
      match endpoint_try_receive endpoint k with
      | (None, _) => None
      | (Some _, k) =>
        let '(restored, k) := endpoint_try_send endpoint received k in
        if !restored then None else Some (None, k)
      end
    else
    k ← ipc_finish sender endpoint THREAD_WAIT_IPC_SEND (e_waiting_sender_id (ept k endpoint))
          THREAD_WAIT_RESULT_COMPLETED k;
    Some (Some received, drop_staged endpoint k)
  end.

Definition ipc_try_send (process handle : Z) (message : IpcMessage) (k : Kernel) : option (bool * Kernel) :=
  if !nz process || !ipc_message_valid message then Some (false, k) else
  let endpoint := ipc_resolve_endpoint k process handle CAPABILITY_RIGHT_SEND in
  if !nz endpoint then Some (false, k) else ipc_send_locked endpoint message k.

Definition ipc_try_receive (process handle : Z) (k : Kernel) : option (option IpcMessage * Kernel) :=
  let endpoint := ipc_resolve_endpoint k process handle CAPABILITY_RIGHT_RECEIVE in
  if !nz endpoint then Some (None, k) else ipc_receive_locked endpoint (thread_current k) k.

(** * Closing *)

Definition ipc_endpoint_close (endpoint : Z) (k : Kernel) : option (bool * Kernel) :=
  let e := ept k endpoint in
  if !ipc_endpoint_valid k endpoint || e_closed e
     || !ipc_reservation_valid k endpoint THREAD_WAIT_IPC_RECEIVE
     || !ipc_reservation_valid k endpoint THREAD_WAIT_IPC_SEND then Some (false, k) else
  let receiver := e_waiting_receiver e in
  let sender := e_waiting_sender e in
  let staged := e_waiting_sender_message_ready e in
  if staged && (!nz sender || !pending k sender) then Some (false, k) else
  if nz sender && pending k sender && !staged then Some (false, k) else
  let k := set_ept endpoint (fun e => e <| e_closed := true |>) k in
  k ← (if nz receiver && pending k receiver
       then ipc_finish receiver endpoint THREAD_WAIT_IPC_RECEIVE (e_waiting_receiver_id (ept k endpoint))
              THREAD_WAIT_RESULT_PEER_CLOSED k
       else Some k);
  k ← (if nz sender && pending k sender
       then ipc_finish sender endpoint THREAD_WAIT_IPC_SEND (e_waiting_sender_id (ept k endpoint))
              THREAD_WAIT_RESULT_PEER_CLOSED k
       else Some k);
  let k := drop_staged endpoint k in
  let k := set_ept endpoint (fun e => e <| e_message := message_zero |> <| e_message_ready := false |>) k in
  k ← (if nz receiver then make_ready_or_halt receiver k else Some k);
  k ← (if nz sender then make_ready_or_halt sender k else Some k);
  Some (true, k).

(** The walk over the owner's endpoints. [n] bounds the tests of the loop
    condition; a walk that needs more has no result. Each endpoint is at a later
    registry entry than the one before, so one test more than the registry has
    entries is enough. *)
Fixpoint close_owned_loop (n : nat) (owner_process_id endpoint : Z) (k : Kernel) : option (bool * Kernel) :=
  match n with
  | O => None
  | S n =>
    if !nz endpoint then Some (true, k) else
    let next := endpoint_owned_next k owner_process_id endpoint in
    if endpoint_closed k endpoint then close_owned_loop n owner_process_id next k else
    '(closed, k) ← ipc_endpoint_close endpoint k;
    if negb closed then Some (false, k) else close_owned_loop n owner_process_id next k
  end.

Definition ipc_close_owned_endpoints (owner_process_id : Z) (k : Kernel) : option (bool * Kernel) :=
  if !nz owner_process_id then Some (false, k) else
  close_owned_loop (S (Z.to_nat ENDPOINT_STORAGE_CAPACITY)) owner_process_id
    (endpoint_owned_first k owner_process_id) k.

(** * The diagnostic hook *)

Definition set_before_park (f : BeforePark -> BeforePark) (k : Kernel) : Kernel :=
  set_im (fun m => m <| im_before_park := f (im_before_park m) |>) k.

(** [message] is optional in the C. *)
Definition ipc_wait_test_arm_before_park (thread endpoint peer handle : Z) (action : IpcWaitTestAction)
    (message : option IpcMessage) (k : Kernel) : bool * Kernel :=
  if ob_armed (bp_observation (im_before_park (k_ipc k))) || !thread_storage_in_use k thread
     || (thread =? thread_current k) || !state_is k thread THREAD_STATE_READY || thread_wait_active k thread
     || !ipc_endpoint_valid k endpoint || e_closed (ept k endpoint) then (false, k) else
  if bool_decide (action = IPC_WAIT_TEST_NONE) then (false, k) else
  if bool_decide (action = IPC_WAIT_TEST_SEND)
     && !match message with Some m => ipc_message_valid m | None => false end then (false, k) else
  if !bool_decide (action = IPC_WAIT_TEST_CLOSE) && !nz (process_capabilities k peer) then (false, k) else
  (true, set_before_park (fun _ =>
     mkBeforePark thread (t_id (thr k thread)) endpoint (e_id (ept k endpoint)) peer handle action
       (default message_zero message) (observation_zero <| ob_armed := true |>)) k).

Definition ipc_wait_test_reset (k : Kernel) : Kernel := set_before_park (fun _ => before_park_zero) k.

Definition ipc_wait_test_observation (k : Kernel) : IpcWaitTestObservation :=
  bp_observation (im_before_park (k_ipc k)).

Definition ipc_wait_test_park_attempts (k : Kernel) : Z := im_park_attempts (k_ipc k).

Definition hook_action (b : BeforePark) (endpoint : Z) (k : Kernel) : option (bool * Kernel) :=
  match bp_action b with
  | IPC_WAIT_TEST_SEND => ipc_try_send (bp_peer b) (bp_handle b) (bp_message b) k
  | IPC_WAIT_TEST_RECEIVE =>
    '(m, k) ← ipc_try_receive (bp_peer b) (bp_handle b) k;
    Some (match m with Some _ => true | None => false end, k)
  | IPC_WAIT_TEST_CLOSE => ipc_endpoint_close endpoint k
  | IPC_WAIT_TEST_NONE => Some (false, k)
  end.

Definition ipc_before_park (thread endpoint : Z) (k : Kernel) : option Kernel :=
  let b := im_before_park (k_ipc k) in
  if !ob_armed (bp_observation b) || (bp_thread b != thread) || (bp_endpoint b != endpoint) then Some k else
  let k := set_before_park (fun b => b <| bp_observation := (bp_observation b) <| ob_armed := false |>
                                                              <| ob_fired := true |> |>) k in
  if (bp_thread_id b != t_id (thr k thread)) || (bp_endpoint_id b != e_id (ept k endpoint)) then Some k else
  let k := set_before_park (fun b => b <| bp_observation := (bp_observation b)
             <| ob_wait_id := t_wait_id (thr k thread) |> |>) k in
  '(result, k) ← hook_action b endpoint k;
  Some (set_before_park (fun b => b
    <| bp_observation := (bp_observation b) <| ob_succeeded := result |>
         <| ob_result := t_wait_result (thr k thread) |> <| ob_state := t_state (thr k thread) |> |>
    <| bp_thread := 0 |> <| bp_endpoint := 0 |> <| bp_peer := 0 |>) k).

(** * Blocking calls *)

(** What a blocked call keeps on its kernel stack. *)
Record Waiting := mkWaiting {
  wt_endpoint : Z;
  wt_kind : ThreadWaitKind;
  wt_id : Z;
  wt_timed : bool }.

(** How a piece of a blocking call ends: the call returns, it enters its wait
    loop, or it calls [scheduler_wait_current]. *)
Inductive IpcCall :=
  | Returned (result : bool) (message : IpcMessage)
  | Parked (w : Waiting)
  | Waits (w : Waiting) (call : SchedCall).

Definition clear_waiting (endpoint : Z) (kind : ThreadWaitKind) (k : Kernel) : Kernel :=
  if bool_decide (kind = THREAD_WAIT_IPC_RECEIVE)
  then set_ept endpoint (fun e => e <| e_waiting_receiver := 0 |> <| e_waiting_receiver_id := 0 |>) k
  else drop_staged endpoint
         (set_ept endpoint (fun e => e <| e_waiting_sender := 0 |> <| e_waiting_sender_id := 0 |>) k).

Definition ipc_end_reservation (current endpoint : Z) (kind : ThreadWaitKind) (id : Z)
    (timeout_registered : bool) (k : Kernel) : option Kernel :=
  if !thread_wait_matches_id k current kind endpoint id || !ipc_reservation_valid k endpoint kind then None else
  k ← (if timeout_registered then
         match ipc_timeout_unregister current endpoint kind id k with
         | (true, k) => Some k
         | (false, _) => None
         end
       else Some k);
  match thread_wait_end current kind endpoint k with
  | (true, k) => Some (clear_waiting endpoint kind k)
  | (false, _) => None
  end.

Definition count_park (k : Kernel) : Kernel :=
  set_im (fun m => m <| im_park_attempts := u64 (im_park_attempts m + 1) |>) k.

Definition timeout_refused (timed : bool) (ticks : Z) (k : Kernel) : bool :=
  timed && (!nz ticks || (ticks >? IPC_TIMEOUT_MAX_TICKS) || !timer_initialized k).

(** Registration of the timeout and the hook; shared by the two calls. *)
Definition ipc_publish (current : Z) (w : Waiting) (ticks : Z) (k : Kernel) : option (IpcCall * Kernel) :=
  let '(registered, k) :=
    if wt_timed w then ipc_timeout_register current (wt_endpoint w) (wt_kind w) (wt_id w) ticks k else (true, k) in
  if negb registered then
    k ← ipc_finish current (wt_endpoint w) (wt_kind w) (wt_id w) THREAD_WAIT_RESULT_CANCELLED k;
    k ← ipc_end_reservation current (wt_endpoint w) (wt_kind w) (wt_id w) false k;
    Some (Returned false message_zero, k)
  else
  k ← ipc_before_park current (wt_endpoint w) k;
  Some (Parked w, k).

Definition ipc_receive_enter (process handle : Z) (timed : bool) (ticks : Z) (k : Kernel)
    : option (IpcCall * Kernel) :=
  if timeout_refused timed ticks k then Some (Returned false message_zero, k) else
  let current := thread_current k in
  if !nz process || !nz current || !nz (t_id (thr k current)) || (t_process (thr k current) != process)
  then Some (Returned false message_zero, k) else
  let endpoint := ipc_resolve_endpoint k process handle CAPABILITY_RIGHT_RECEIVE in
  if !nz endpoint || e_closed (ept k endpoint) then Some (Returned false message_zero, k) else
  if endpoint_message_ready k endpoint then
    '(m, k) ← ipc_receive_locked endpoint current k;
    Some (match m with Some m => Returned true m | None => Returned false message_zero end, k)
  else
  if nz (e_waiting_receiver (ept k endpoint)) || nz (e_waiting_receiver_id (ept k endpoint))
  then Some (Returned false message_zero, k) else
  let '(begun, k) := thread_wait_begin current THREAD_WAIT_IPC_RECEIVE endpoint k in
  if negb begun then Some (Returned false message_zero, k) else
  let id := t_wait_id (thr k current) in
  let k := set_ept endpoint (fun e => e <| e_waiting_receiver := current |> <| e_waiting_receiver_id := id |>) k in
  ipc_publish current (mkWaiting endpoint THREAD_WAIT_IPC_RECEIVE id timed) ticks k.

(** From the end of the loop to the return of the call. *)
Definition ipc_receive_leave (w : Waiting) (message : IpcMessage) (k : Kernel) : option (IpcCall * Kernel) :=
  let current := thread_current k in
  let received := bool_decide (t_wait_result (thr k current) = THREAD_WAIT_RESULT_COMPLETED) in
  k ← ipc_end_reservation current (wt_endpoint w) THREAD_WAIT_IPC_RECEIVE (wt_id w) (wt_timed w) k;
  Some (Returned received message, k).

Definition ipc_receive_iterate (w : Waiting) (k : Kernel) : option (IpcCall * Kernel) :=
  let current := thread_current k in
  let endpoint := wt_endpoint w in
  if !thread_wait_matches_id k current THREAD_WAIT_IPC_RECEIVE endpoint (wt_id w)
     || !ipc_reservation_valid k endpoint THREAD_WAIT_IPC_RECEIVE then None else
  if !pending k current then ipc_receive_leave w message_zero k else
  if endpoint_message_ready k endpoint then
    '(m, k) ← ipc_receive_locked endpoint current k;
    k ← ipc_finish current endpoint THREAD_WAIT_IPC_RECEIVE (wt_id w)
          (match m with Some _ => THREAD_WAIT_RESULT_COMPLETED | None => THREAD_WAIT_RESULT_CANCELLED end) k;
    ipc_receive_leave w (default message_zero m) k
  else
  let k := count_park k in
  let '(call, k) := scheduler_wait_current k in
  Some (Waits w call, k).

Definition ipc_receive_cancelled (w : Waiting) (k : Kernel) : option (IpcCall * Kernel) :=
  k ← ipc_finish (thread_current k) (wt_endpoint w) THREAD_WAIT_IPC_RECEIVE (wt_id w)
        THREAD_WAIT_RESULT_CANCELLED k;
  ipc_receive_leave w message_zero k.

Definition ipc_send_enter (process handle : Z) (message : IpcMessage) (timed : bool) (ticks : Z) (k : Kernel)
    : option (IpcCall * Kernel) :=
  if !nz process || !ipc_message_valid message || timeout_refused timed ticks k
  then Some (Returned false message_zero, k) else
  let current := thread_current k in
  if !nz current || !nz (t_id (thr k current)) || (t_process (thr k current) != process)
  then Some (Returned false message_zero, k) else
  let endpoint := ipc_resolve_endpoint k process handle CAPABILITY_RIGHT_SEND in
  if !nz endpoint || e_closed (ept k endpoint) then Some (Returned false message_zero, k) else
  if !endpoint_message_ready k endpoint then
    '(sent, k) ← ipc_send_locked endpoint message k;
    Some (Returned sent message_zero, k)
  else
  if nz (e_waiting_sender (ept k endpoint)) || nz (e_waiting_sender_id (ept k endpoint))
     || e_waiting_sender_message_ready (ept k endpoint)
  then Some (Returned false message_zero, k) else
  let '(begun, k) := thread_wait_begin current THREAD_WAIT_IPC_SEND endpoint k in
  if negb begun then Some (Returned false message_zero, k) else
  let id := t_wait_id (thr k current) in
  let k := set_ept endpoint (fun e => e <| e_waiting_sender := current |> <| e_waiting_sender_id := id |>
             <| e_waiting_sender_message := message |> <| e_waiting_sender_message_ready := true |>) k in
  ipc_publish current (mkWaiting endpoint THREAD_WAIT_IPC_SEND id timed) ticks k.

Definition ipc_send_leave (w : Waiting) (k : Kernel) : option (IpcCall * Kernel) :=
  let current := thread_current k in
  let sent := bool_decide (t_wait_result (thr k current) = THREAD_WAIT_RESULT_COMPLETED) in
  if sent && e_waiting_sender_message_ready (ept k (wt_endpoint w)) then None else
  k ← ipc_end_reservation current (wt_endpoint w) THREAD_WAIT_IPC_SEND (wt_id w) (wt_timed w) k;
  Some (Returned sent message_zero, k).

Definition ipc_send_iterate (w : Waiting) (k : Kernel) : option (IpcCall * Kernel) :=
  let current := thread_current k in
  let endpoint := wt_endpoint w in
  if !thread_wait_matches_id k current THREAD_WAIT_IPC_SEND endpoint (wt_id w)
     || !ipc_reservation_valid k endpoint THREAD_WAIT_IPC_SEND then None else
  if !pending k current then ipc_send_leave w k else
  if !e_waiting_sender_message_ready (ept k endpoint) then None else
  let k := count_park k in
  let '(call, k) := scheduler_wait_current k in
  Some (Waits w call, k).

Definition ipc_send_cancelled (w : Waiting) (k : Kernel) : option (IpcCall * Kernel) :=
  k ← ipc_finish (thread_current k) (wt_endpoint w) THREAD_WAIT_IPC_SEND (wt_id w)
        THREAD_WAIT_RESULT_CANCELLED k;
  ipc_send_leave w k.

(** A blocked call after [scheduler_wait_current] returned [waited]. *)
Definition ipc_resume (w : Waiting) (waited : bool) (k : Kernel) : option (IpcCall * Kernel) :=
  if bool_decide (wt_kind w = THREAD_WAIT_IPC_RECEIVE)
  then if waited then ipc_receive_iterate w k else ipc_receive_cancelled w k
  else if waited then ipc_send_iterate w k else ipc_send_cancelled w k.

(** * Aborting a wait *)

Definition ipc_abort_thread_wait (thread : Z) (k : Kernel) : bool * Kernel :=
  if (thread =? thread_current k) || !thread_wait_active k thread then (false, k) else
  if !state_is k thread THREAD_STATE_BLOCKED && !state_is k thread THREAD_STATE_READY then (false, k) else
  let kind := t_wait_kind (thr k thread) in
  let endpoint := t_wait_object (thr k thread) in
  let wait_id := t_wait_id (thr k thread) in
  if !ipc_endpoint_valid k endpoint || !ipc_reservation_valid k endpoint kind then (false, k) else
  match kind with
  | THREAD_WAIT_IPC_RECEIVE | THREAD_WAIT_IPC_SEND =>
    if waiting_thread (ept k endpoint) kind != thread then (false, k) else
    let '(aborted, k) := thread_wait_abort thread kind endpoint k in
    if !aborted then (false, k) else
    let k := (ipc_timeout_unregister thread endpoint kind wait_id k).2 in
    (true, clear_waiting endpoint kind k)
  | _ => (false, k)
  end.
