(* ===== verification/IpcWf.v ===== *)
(** The IPC invariant.

    A thread inside a blocking call is a continuation: the endpoint, kind, wait
    identity and timeout flag its kernel stack holds. [ipc_wf k l C] relates the
    endpoints' reservations, the threads' wait records, the timeout table and
    the scheduler's run list [l] to the continuations [C]. *)

From S2P Require Import Prelude Pmm ObjectStorage Kernel Objects Capability.
From S2P Require Import Endpoint Thread Ring Scheduler SchedulerProofs SchedulerWf.
From S2P Require Import SchedulerOps Ipc.

Open Scope jcos_scope.

(** * Scheduler steps seen from IPC *)

(** The fields of a thread IPC reads and the scheduler does not write. *)
Definition wait_fields (t : Thread) : Z * Z * ThreadWaitKind * ThreadWaitResult * Z * Z :=
  (t_id t, t_process t, t_wait_kind t, t_wait_result t, t_wait_object t, t_wait_id t).

(** [k'] differs from [k] only in scheduling state. *)
Record calm (k k' : Kernel) : Prop := {
  ca_wait : forall t, wait_fields (thr k' t) = wait_fields (thr k t);
  ca_rest : k' = k <| k_threads := k_threads k' |> <| k_sch := k_sch k' |> <| k_frames := k_frames k' |>
                   <| k_thr := k_thr k' |>;
  ca_storage : tm_storage (k_thr k') = tm_storage (k_thr k);
  ca_init : tm_initialized (k_thr k') = tm_initialized (k_thr k);
  ca_next : tm_next_wait_id (k_thr k') = tm_next_wait_id (k_thr k) }.

Lemma calm_refl k : calm k k.
Proof. split; try done. by destruct k. Qed.

Lemma calm_trans k k1 k2 : calm k k1 -> calm k1 k2 -> calm k k2.
Proof.
  intros [W1 R1 S1 I1 N1] [W2 R2 S2 I2 N2]. split.
  - intros t. by rewrite W2.
  - rewrite R2, R1. done.
  - congruence.
  - congruence.
  - congruence.
Qed.

Lemma calm_thr k t f : (forall u, wait_fields (f u) = wait_fields u) -> calm k (set_thr t f k).
Proof.
  intros Hf. split; try done. intros u. rewrite thr_set. case_decide; [subst; apply Hf|done].
Qed.

Lemma calm_sm k f : calm k (set_sm f k).
Proof. done. Qed.

Lemma calm_frm k p f : calm k (set_frm p f k).
Proof. done. Qed.

Lemma calm_current k c : calm k (set_current c k).
Proof. done. Qed.

Lemma calm_load k top cr3 : calm k (load_context top cr3 k).
Proof. done. Qed.

(** Any composition of scheduling writes. *)
Ltac calm :=
  unfold save_context, drop_context, set_state, count_reschedule, set_rax, set_run_next, set_on_run_queue;
  repeat first
    [ assumption | apply calm_refl
    | eapply calm_trans;
      [|first [ apply calm_thr; done | apply calm_sm | apply calm_frm | apply calm_current | apply calm_load ]] ].

Lemma calm_add t k : calm k (scheduler_add t k).2.
Proof. unfold scheduler_add. repeat if_case; cbn [snd]; calm. Qed.

Lemma calm_unlink t k : calm k (scheduler_unlink t k).2.
Proof.
  unfold scheduler_unlink. if_case; [calm|]. destruct (find_previous _ _ _ _); [|calm].
  if_case; [calm|]. repeat if_case; cbn [snd]; calm.
Qed.

Lemma calm_wake t k : calm k (scheduler_wake t k).2.
Proof.
  unfold scheduler_wake. repeat (if_case; [calm|]).
  pose proof (calm_add t (set_state t THREAD_STATE_READY k)) as H.
  destruct (scheduler_add t _) as [b k1]. cbn [snd] in H.
  assert (calm k k1) by (eapply calm_trans; [|exact H]; calm). if_case; cbn [snd]; calm.
Qed.

Lemma calm_activate t k : calm k (thread_activate t k).2.
Proof. unfold thread_activate. repeat if_case; cbn [snd]; calm. Qed.

Lemma calm_activate_from_idle t k : calm k (thread_scheduler_activate_from_idle t k).2.
Proof. unfold thread_scheduler_activate_from_idle. repeat if_case; cbn [snd]; calm. Qed.

Lemma calm_enter_idle top k : calm k (thread_scheduler_enter_idle top k).2.
Proof. unfold thread_scheduler_enter_idle. repeat if_case; cbn [snd]; calm. Qed.

(** * Writes that leave scheduling alone *)

(** The fields of a thread the scheduler's invariant reads. *)
Definition sched_fields (t : Thread) :=
  (fixed_fields t, t_state t, t_interrupt_context_ready t, t_interrupt_rsp t, t_run_next t, t_on_run_queue t).

(** The diagnostic hook is armed. *)
Definition hook_armed (k : Kernel) : bool := ob_armed (bp_observation (im_before_park (k_ipc k))).

Record quiet (k k' : Kernel) : Prop := {
  qu_world : same_world k k';
  qu_sch : k_sch k' = k_sch k;
  qu_current : tm_current (k_thr k') = tm_current (k_thr k);
  qu_thr : forall t, sched_fields (thr k' t) = sched_fields (thr k t);
  qu_hook : hook_armed k = false -> hook_armed k' = false }.

Lemma sched_fields_eq a b :
  sched_fields a = sched_fields b ->
  t_state a = t_state b /\ t_interrupt_context_ready a = t_interrupt_context_ready b /\
  t_interrupt_rsp a = t_interrupt_rsp b /\ t_run_next a = t_run_next b /\ t_on_run_queue a = t_on_run_queue b.
Proof. unfold sched_fields. intros H. by simplify_eq. Qed.

Lemma quiet_thr k t f :
  (forall u, sched_fields (f u) = sched_fields u) -> quiet k (set_thr t f k).
Proof.
  intros Hf. assert (forall u, sched_fields (thr (set_thr t f k) u) = sched_fields (thr k u)) as Hs.
  { intros u. rewrite thr_set. case_decide; [subst; apply Hf|done]. }
  split; try done. split; try done. intros u. specialize (Hs u). unfold sched_fields in Hs. congruence.
Qed.

Lemma quiet_sched k k' l : quiet k k' -> sched_wf k l -> sched_wf k' l.
Proof.
  intros [Hw Hs Hc Ht _] Hwf.
  assert (forall t, t_state (thr k' t) = t_state (thr k t)) as Hst by (intros t; by apply sched_fields_eq).
  assert (forall t, has_frame k' t = has_frame k t) as Hf.
  { intros t. destruct (sched_fields_eq _ _ (Ht t)) as (_ & H1 & H2 & _).
    by apply has_frame_ext. }
  apply (sched_wf_rebuild k k' l l Hwf Hw); unfold idle, current_of in *; rewrite ?Hs, ?Hc.
  - done.
  - apply (run_list_frame k); [by rewrite Hs| |apply Hwf].
    intros t. by destruct (sched_fields_eq _ _ (Ht t)) as (_ & _ & _ & -> & ->).
  - apply Hwf.
  - rewrite Hst. apply Hwf.
  - apply Hwf.
  - intros t. rewrite Hst, Hf. apply Hwf.
  - intros t. rewrite Hst. apply Hwf.
  - intros t. rewrite Hst, Hf. apply Hwf.
Qed.

(** * Continuations *)

Definition ipc_kind (kind : ThreadWaitKind) : bool :=
  match kind with THREAD_WAIT_IPC_RECEIVE | THREAD_WAIT_IPC_SEND => true | _ => false end.

(** The scheduler knows where the thread is. *)
Definition located (k : Kernel) (l : list Z) (t : Z) : Prop :=
  t ∈ l \/ t_state (thr k t) = THREAD_STATE_BLOCKED.

(** Outcomes others may settle: a receiver completes its own receive. *)
Definition result_fits (w : Waiting) (r : ThreadWaitResult) : bool :=
  ipc_result_valid r &&
  !(bool_decide (wt_kind w = THREAD_WAIT_IPC_RECEIVE) && bool_decide (r = THREAD_WAIT_RESULT_COMPLETED)).

Record waiter_ok (k : Kernel) (l : list Z) (t : Z) (w : Waiting) : Prop := {
  wo_kind : ipc_kind (wt_kind w) = true;
  wo_valid : ipc_endpoint_valid k (wt_endpoint w) = true;
  wo_match : thread_wait_matches_id k t (wt_kind w) (wt_endpoint w) (wt_id w) = true;
  wo_result : result_fits w (t_wait_result (thr k t)) = true;
  wo_where : located k l t;
  wo_thread : waiting_thread (ept k (wt_endpoint w)) (wt_kind w) = t;
  wo_id : waiting_id (ept k (wt_endpoint w)) (wt_kind w) = wt_id w }.

(** A slot of the timeout table registers the continuation [w] of [t]. *)
Definition registers (k : Kernel) (s : IpcTimedWait) (w : Waiting) : Prop :=
  wt_timed w = true /\ w_endpoint s = wt_endpoint w /\ w_kind s = wt_kind w /\ w_wait_id s = wt_id w /\
  w_thread_id s = t_id (thr k (w_thread s)) /\ w_endpoint_id s = e_id (ept k (wt_endpoint w)).

Definition timed_index (i : Z) : Prop := 0 <= i < IPC_TIMED_WAIT_CAPACITY.

Record timed_ok (k : Kernel) (C : gmap Z Waiting) : Prop := {
  to_length : Z.of_nat (length (im_timed_waits (k_ipc k))) = IPC_TIMED_WAIT_CAPACITY;
  to_slot : forall i, timed_index i -> w_occupied (timed_at k i) = true ->
    exists w, C !! w_thread (timed_at k i) = Some w /\ registers k (timed_at k i) w;
  to_unique : forall i j, timed_index i -> timed_index j ->
    w_occupied (timed_at k i) = true -> w_occupied (timed_at k j) = true ->
    w_thread (timed_at k i) = w_thread (timed_at k j) -> i = j;
  to_all : forall t w, C !! t = Some w -> wt_timed w = true ->
    exists i, timed_index i /\ w_occupied (timed_at k i) = true /\ w_thread (timed_at k i) = t }.

Record ipc_core (k : Kernel) (l : list Z) (C : gmap Z Waiting) : Prop := {
  ic_sched : sched_wf k l;
  ic_system : om_initialized (k_ept k) = true;
  ic_registry : registry ENDPOINT_STORAGE_CAPACITY (om_storage (k_ept k));
  ic_waiter : forall t w, C !! t = Some w -> waiter_ok k l t w;
  ic_other : forall t, C !! t = None -> ipc_kind (t_wait_kind (thr k t)) = false;
  ic_endpoint : forall e kind, ipc_endpoint_valid k e = true -> ipc_kind kind = true ->
    (waiting_thread (ept k e) kind = 0 /\ waiting_id (ept k e) kind = 0) \/
    exists w, C !! waiting_thread (ept k e) kind = Some w /\ wt_endpoint w = e /\ wt_kind w = kind;
  ic_timed : timed_ok k C }.

(** The staged message is that of a pending sender, and it is staged because the
    mailbox is full; a closed endpoint has no message and no pending waiter. *)
Record ept_ok (k : Kernel) (e : Z) : Prop := {
  eo_staged : e_waiting_sender_message_ready (ept k e) = true <->
    e_waiting_sender (ept k e) <> 0 /\ pending k (e_waiting_sender (ept k e)) = true;
  eo_message : e_waiting_sender_message_ready (ept k e) = true ->
    ipc_message_valid (e_waiting_sender_message (ept k e)) = true;
  eo_full : e_waiting_sender_message_ready (ept k e) = true -> e_message_ready (ept k e) = true;
  eo_closed : e_closed (ept k e) = true ->
    e_message_ready (ept k e) = false /\
    (e_waiting_receiver (ept k e) <> 0 -> pending k (e_waiting_receiver (ept k e)) = false) /\
    (e_waiting_sender (ept k e) <> 0 -> pending k (e_waiting_sender (ept k e)) = false) }.

Record ipc_wf (k : Kernel) (l : list Z) (C : gmap Z Waiting) : Prop := {
  iw_core : ipc_core k l C;
  iw_ept : forall e, ipc_endpoint_valid k e = true -> ept_ok k e }.

(** * Consequences *)

Lemma waiter_nonnull k l t w : waiter_ok k l t w -> t <> 0.
Proof.
  intros [_ _ Hm _ _ _ _] ->. unfold thread_wait_matches_id, thread_wait_matches, thread_known,
    thread_storage_live, object_storage_find in Hm. cbn in Hm. rewrite Z.ltb_irrefl in Hm.
  rewrite andb_false_r in Hm. cbn in Hm. by rewrite andb_false_r in Hm.
Qed.

(** Two continuations of one endpoint and kind are the same thread's. *)
Lemma waiter_unique k l C t w t' w' :
  ipc_core k l C -> C !! t = Some w -> C !! t' = Some w' ->
  wt_endpoint w = wt_endpoint w' -> wt_kind w = wt_kind w' -> t = t'.
Proof.
  intros Hc H1 H2 He Hk. pose proof (wo_thread _ _ _ _ (ic_waiter _ _ _ Hc _ _ H1)) as E1.
  pose proof (wo_thread _ _ _ _ (ic_waiter _ _ _ Hc _ _ H2)) as E2. congruence.
Qed.

Lemma located_running k l :
  sched_wf k l -> forall t, t ∈ l -> t = current_of k -> idle k = false.
Proof.
  intros Hwf t Hin ->. destruct (idle k) eqn:Hi; [|done]. rewrite (wf_idle _ _ Hwf Hi) in Hin.
  by destruct (rl_nonnull _ _ (wf_list _ _ Hwf)).
Qed.

(** A queued thread is current and running or ready with a saved frame. *)
Lemma queued_cases k l t :
  sched_wf k l -> t ∈ l ->
  t_on_run_queue (thr k t) = true /\ nz (t_run_next (thr k t)) = true /\
  ((t = current_of k /\ t_state (thr k t) = THREAD_STATE_RUNNING) \/
   (t <> current_of k /\ t_state (thr k t) = THREAD_STATE_READY /\ has_frame k t = true)).
Proof.
  intros Hwf Hin. pose proof (wf_list _ _ Hwf) as Hl. split_and!.
  - rewrite (rl_queued _ _ Hl). by apply bool_decide_eq_true.
  - apply (nz_in l); [apply Hl|]. apply (ring_next_in (next_of k)); [apply Hl|done].
  - destruct (decide (t = current_of k)) as [->|Hne]; [left|right].
    + split; [done|]. apply (wf_current _ _ Hwf). by apply (located_running k l Hwf (current_of k)).
    + destruct (wf_ready _ _ Hwf t Hin Hne). done.
Qed.

(** A valid endpoint's reservations pass the code's own check. *)
Lemma reservation_valid k l C e kind :
  ipc_core k l C -> ipc_endpoint_valid k e = true -> ipc_kind kind = true ->
  ipc_reservation_valid k e kind = true.
Proof.
  intros Hc Hv Hk. pose proof (ic_sched _ _ _ Hc) as Hwf. unfold ipc_reservation_valid.
  destruct (ic_endpoint _ _ _ Hc e kind Hv Hk) as [[-> ->]|(w & Hw & He & Hwk)]; [done|].
  pose proof (waiter_nonnull _ _ _ _ (ic_waiter _ _ _ Hc _ _ Hw)) as Hz.
  destruct (ic_waiter _ _ _ Hc _ _ Hw) as [_ _ Hm Hr Hl _ Hid]. apply andb_true_iff in Hr as [Hr _].
  subst e kind. rewrite Hid.
  set (t := waiting_thread _ _) in *. rewrite Hm, Hr.
  assert (nz t = true) as -> by (by apply negb_true_iff, Z.eqb_neq). cbn [negb orb].
  unfold thread_current, state_is. rewrite (wf_tinit _ _ Hwf). cbn [negb]. fold (current_of k).
  destruct Hl as [Hin|Hb].
  - destruct (queued_cases k l t Hwf Hin) as (-> & -> & [[-> ->]|(Hne & -> & Hf)]).
    + by rewrite Z.eqb_refl.
    + apply Z.eqb_neq in Hne. rewrite Hne. cbn [andb]. unfold has_frame in Hf.
      apply andb_true_iff in Hf as [Hf _]. apply andb_true_iff in Hf as [-> ->]. done.
  - destruct (blocked_unqueued k l t Hwf Hb) as [Hn Hne]. rewrite Hb.
    destruct (wf_blocked _ _ Hwf t Hb) as (_ & Hf & _). unfold has_frame in Hf.
    apply andb_true_iff in Hf as [Hf _]. apply andb_true_iff in Hf as [-> ->].
    apply Z.eqb_neq in Hne. rewrite Hne. cbn. change (t_run_next (thr k t)) with (next_of k t).
    rewrite (rl_queued _ _ (wf_list _ _ Hwf)), (rl_off _ _ (wf_list _ _ Hwf) t Hn).
    by rewrite bool_decide_eq_true_2, (bool_decide_eq_false_2 (t ∈ l)).
Qed.

(** Making a located thread runnable. *)
Lemma make_ready_spec k l t :
  sched_wf k l -> located k l t ->
  exists k' l', ipc_make_ready t k = (true, k') /\ sched_wf k' l' /\ calm k k' /\ t ∈ l' /\
    current_of k' = current_of k /\ idle k' = idle k /\
    (forall u, located k l u -> located k' l' u) /\ (forall u, u ∈ l -> u ∈ l').
Proof.
  intros Hwf [Hin|Hb].
  - exists k, l. unfold ipc_make_ready, state_is, thread_current. rewrite (wf_tinit _ _ Hwf). cbn [negb].
    fold (current_of k).
    destruct (queued_cases k l t Hwf Hin) as (-> & _ & [[-> ->]|(_ & -> & _)]);
      split_and!; try done; try apply calm_refl.
    + by rewrite Z.eqb_refl.
    + cbn. by rewrite andb_false_r.
  - destruct (wake_spec k l t Hwf Hb) as (k' & Hw & Hwf' & Hi & Hc & Hs & Ho).
    exists k', (l ++ [t]). unfold ipc_make_ready, state_is. rewrite Hb, bool_decide_eq_true_2 by done.
    pose proof (calm_wake t k) as Hcm. rewrite Hw in Hcm. split_and!; try done; [set_solver| |set_solver].
    intros u [Hu|Hu]; [left; set_solver|]. destruct (decide (u = t)) as [->|Hne]; [left; set_solver|].
    right. by destruct (view_eq k k' u (Ho u Hne)) as (-> & _).
Qed.

(** * Steps that keep the continuations *)

Lemma wait_fields_eq a b :
  wait_fields a = wait_fields b ->
  t_id a = t_id b /\ t_process a = t_process b /\ t_wait_kind a = t_wait_kind b /\
  t_wait_result a = t_wait_result b /\ t_wait_object a = t_wait_object b /\ t_wait_id a = t_wait_id b.
Proof. unfold wait_fields. intros H. by simplify_eq. Qed.

(** Every guard on a wait record reads only its wait fields and the registry. *)
Lemma matches_ext k k' t kind o id :
  tm_storage (k_thr k') = tm_storage (k_thr k) -> tm_initialized (k_thr k') = tm_initialized (k_thr k) ->
  t_id (thr k' t) = t_id (thr k t) -> t_wait_kind (thr k' t) = t_wait_kind (thr k t) ->
  t_wait_object (thr k' t) = t_wait_object (thr k t) -> t_wait_id (thr k' t) = t_wait_id (thr k t) ->
  thread_wait_matches_id k' t kind o id = thread_wait_matches_id k t kind o id.
Proof.
  intros Hs Hi H1 H2 H3 H4.
  unfold thread_wait_matches_id, thread_wait_matches, thread_known, thread_storage_live.
  by rewrite Hs, Hi, H1, H2, H3, H4.
Qed.

Lemma endpoint_valid_ext k k' e :
  om_storage (k_ept k') = om_storage (k_ept k) -> e_initialized (ept k' e) = e_initialized (ept k e) ->
  e_id (ept k' e) = e_id (ept k e) -> ipc_endpoint_valid k' e = ipc_endpoint_valid k e.
Proof.
  intros Hs H1 H2. unfold ipc_endpoint_valid, endpoint_storage_in_use, endpoint_live. by rewrite Hs, H1, H2.
Qed.

(** What IPC steps may change of an endpoint without touching its reservations. *)
Definition link_fields (e : Endpoint) : Z * bool * Z * Z * Z * Z :=
  (e_id e, e_initialized e, e_waiting_receiver e, e_waiting_receiver_id e, e_waiting_sender e,
   e_waiting_sender_id e).

Lemma link_fields_eq a b :
  link_fields a = link_fields b ->
  e_id a = e_id b /\ e_initialized a = e_initialized b /\
  (forall kind, waiting_thread a kind = waiting_thread b kind /\ waiting_id a kind = waiting_id b kind).
Proof.
  unfold link_fields, waiting_thread, waiting_id. intros H. simplify_eq. split_and!; try done.
  intros kind. by destruct (bool_decide _).
Qed.

(** [k'] has the reservations, identities and timeout table of [k]; outcomes
    may have been settled. *)
Record ipc_frame (k k' : Kernel) : Prop := {
  if_storage : tm_storage (k_thr k') = tm_storage (k_thr k);
  if_init : tm_initialized (k_thr k') = tm_initialized (k_thr k);
  if_ept : k_ept k' = k_ept k;
  if_timed : im_timed_waits (k_ipc k') = im_timed_waits (k_ipc k);
  if_links : forall e, link_fields (ept k' e) = link_fields (ept k e);
  if_wait : forall t, t_id (thr k' t) = t_id (thr k t) /\ t_wait_kind (thr k' t) = t_wait_kind (thr k t) /\
    t_wait_object (thr k' t) = t_wait_object (thr k t) /\ t_wait_id (thr k' t) = t_wait_id (thr k t) }.

Lemma frame_matches k k' t kind o id :
  ipc_frame k k' -> thread_wait_matches_id k' t kind o id = thread_wait_matches_id k t kind o id.
Proof. intros [Hs Hi _ _ _ Hw]. destruct (Hw t) as (? & ? & ? & ?). by apply matches_ext. Qed.

Lemma frame_valid k k' e : ipc_frame k k' -> ipc_endpoint_valid k' e = ipc_endpoint_valid k e.
Proof.
  intros [_ _ He _ Hl _]. destruct (link_fields_eq _ _ (Hl e)) as (? & ? & _).
  apply endpoint_valid_ext; [by rewrite He|done|done].
Qed.

Lemma timed_frame k k' C : ipc_frame k k' -> timed_ok k C -> timed_ok k' C.
Proof.
  intros [_ _ _ Ht Hl Hw] [H1 H2 H3 H4].
  assert (forall i, timed_at k' i = timed_at k i) as Ha by (intros; unfold timed_at; by rewrite Ht).
  split; [by rewrite Ht| | |].
  - intros i Hi. rewrite Ha. intros Ho. destruct (H2 i Hi Ho) as (w & Hc & Hr). exists w. split; [done|].
    unfold registers in *. destruct (link_fields_eq _ _ (Hl (wt_endpoint w))) as (-> & _).
    by destruct (Hw (w_thread (timed_at k i))) as (-> & _).
  - intros i j. rewrite !Ha. apply H3.
  - intros t w. setoid_rewrite Ha. apply H4.
Qed.

Lemma core_frame k k' l l' C :
  ipc_core k l C -> ipc_frame k k' -> sched_wf k' l' ->
  (forall t w, C !! t = Some w -> located k' l' t /\ result_fits w (t_wait_result (thr k' t)) = true) ->
  ipc_core k' l' C.
Proof.
  intros [Hs Hsys Hreg Hw Ho He Ht] Hf Hs' Hnew. split; try done.
  - by rewrite (if_ept _ _ Hf).
  - by rewrite (if_ept _ _ Hf).
  - intros t w Hc. destruct (Hw t w Hc) as [H1 H2 H3 _ _ H6 H7]. destruct (Hnew t w Hc).
    destruct (link_fields_eq _ _ (if_links _ _ Hf (wt_endpoint w))) as (_ & _ & Hl).
    destruct (Hl (wt_kind w)) as [E1 E2].
    split; try done; [by rewrite (frame_valid k k')|by rewrite (frame_matches k k')|congruence|congruence].
  - intros t Hc. destruct (if_wait _ _ Hf t) as (_ & -> & _). by apply Ho.
  - intros e kind. rewrite (frame_valid k k') by done.
    destruct (link_fields_eq _ _ (if_links _ _ Hf e)) as (_ & _ & Hl). destruct (Hl kind) as [-> ->].
    by apply He.
  - by apply (timed_frame k).
Qed.

Lemma frame_refl k : ipc_frame k k.
Proof. by split. Qed.

Lemma frame_trans k k1 k2 : ipc_frame k k1 -> ipc_frame k1 k2 -> ipc_frame k k2.
Proof.
  intros [? ? ? ? L1 W1] [? ? ? ? L2 W2]. split; [congruence..| |].
  - intros e. by rewrite L2.
  - intros t. destruct (W1 t) as (? & ? & ? & ?), (W2 t) as (? & ? & ? & ?). split_and!; congruence.
Qed.

Lemma calm_frame k k' : calm k k' -> ipc_frame k k'.
Proof.
  intros [Hw Hr Hs Hi _]. split; try done.
  - by rewrite Hr.
  - by rewrite Hr.
  - intros e. assert (k_endpoints k' = k_endpoints k) as He by (by rewrite Hr). unfold ept. by rewrite He.
  - intros t. by destruct (wait_fields_eq _ _ (Hw t)) as (? & _ & ? & _ & ? & ?).
Qed.

Lemma frame_ept k e f : (forall x, link_fields (f x) = link_fields x) -> ipc_frame k (set_ept e f k).
Proof.
  intros Hf. split; try done. intros e'. rewrite ept_set. case_decide; [subst; apply Hf|done].
Qed.

Lemma frame_result k t r : ipc_frame k (set_thr t (fun t => t <| t_wait_result := r |>) k).
Proof. split; try done. intros u. rewrite thr_set. case_decide; [subst|]; done. Qed.

Lemma quiet_ept k e f : quiet k (set_ept e f k).
Proof. done. Qed.
