(* ===== verification/IpcOps.v ===== *)
(** What each IPC operation does from a well-formed state: none halts, and all
    keep the invariant. *)

From S2P Require Import Prelude Pmm ObjectStorage Kernel Objects Capability.
From S2P Require Import Endpoint Thread Ring Scheduler SchedulerProofs SchedulerWf.
From S2P Require Import SchedulerOps Ipc IpcWf.

Open Scope jcos_scope.

(** The message as the mailbox stores it: words past the count are zero. *)
Definition stored (m : IpcMessage) : IpcMessage :=
  mkIpcMessage (copy_words (m_word_count m) (m_words m)) (m_word_count m).

Lemma pending_iff k t : pending k t = true <-> t_wait_result (thr k t) = THREAD_WAIT_RESULT_PENDING.
Proof. unfold pending. apply bool_decide_eq_true. Qed.

Lemma pending_ext k k' t :
  t_wait_result (thr k' t) = t_wait_result (thr k t) -> pending k' t = pending k t.
Proof. unfold pending. by intros ->. Qed.

(** The registered thread and identity of each kind. *)
Lemma waiting_receive e :
  waiting_thread e THREAD_WAIT_IPC_RECEIVE = e_waiting_receiver e /\
  waiting_id e THREAD_WAIT_IPC_RECEIVE = e_waiting_receiver_id e.
Proof. done. Qed.

Lemma waiting_send e :
  waiting_thread e THREAD_WAIT_IPC_SEND = e_waiting_sender e /\
  waiting_id e THREAD_WAIT_IPC_SEND = e_waiting_sender_id e.
Proof. done. Qed.

Ltac waiting_simpl :=
  repeat match goal with
         | H : context [waiting_thread ?e THREAD_WAIT_IPC_RECEIVE] |- _ => rewrite (proj1 (waiting_receive e)) in H
         | H : context [waiting_id ?e THREAD_WAIT_IPC_RECEIVE] |- _ => rewrite (proj2 (waiting_receive e)) in H
         | H : context [waiting_thread ?e THREAD_WAIT_IPC_SEND] |- _ => rewrite (proj1 (waiting_send e)) in H
         | H : context [waiting_id ?e THREAD_WAIT_IPC_SEND] |- _ => rewrite (proj2 (waiting_send e)) in H
         end.

(** A waiting thread is registered with its own endpoint only. *)
Lemma waits_elsewhere k l C t w e kind :
  ipc_core k l C -> C !! t = Some w -> ipc_endpoint_valid k e = true -> ipc_kind kind = true ->
  e <> wt_endpoint w -> waiting_thread (ept k e) kind <> t.
Proof.
  intros Hc Hw Hv Hk Hne Ht. destruct (ic_endpoint _ _ _ Hc e kind Hv Hk) as [[H0 _]|(w' & Hw' & He & _)].
  - destruct (waiter_nonnull _ _ _ _ (ic_waiter _ _ _ Hc _ _ Hw)). congruence.
  - rewrite Ht, Hw in Hw'. by simplify_eq.
Qed.

Lemma ept_ok_ext k k' e :
  ept k' e = ept k e ->
  (forall kind, ipc_kind kind = true -> pending k' (waiting_thread (ept k e) kind) =
                                        pending k (waiting_thread (ept k e) kind)) ->
  ept_ok k e -> ept_ok k' e.
Proof.
  intros He Hp [H1 H2 Hfull H3].
  pose proof (Hp THREAD_WAIT_IPC_RECEIVE eq_refl) as Hr. pose proof (Hp THREAD_WAIT_IPC_SEND eq_refl) as Hs.
  waiting_simpl.
  split; rewrite He, ?Hr, ?Hs; done.
Qed.

(** A step at one endpoint: the rest of the system keeps its invariant. *)
Lemma endpoint_step k k' l l' C e :
  ipc_wf k l C -> ipc_frame k k' -> sched_wf k' l' ->
  (forall t, located k l t -> located k' l' t) ->
  (forall e', e' <> e -> ept k' e' = ept k e') ->
  (forall t, t_wait_result (thr k' t) = t_wait_result (thr k t) \/
     (exists w, C !! t = Some w /\ wt_endpoint w = e /\ result_fits w (t_wait_result (thr k' t)) = true)) ->
  (ipc_endpoint_valid k e = true -> ept_ok k' e) -> ipc_wf k' l' C.
Proof.
  intros [Hc He] Hf Hs Hl Hother Hres Hok. split.
  - apply (core_frame k k' l); try done. intros t w Hw. pose proof (ic_waiter _ _ _ Hc t w Hw) as Ho.
    split; [apply Hl, Ho|]. destruct (Hres t) as [->|(w' & Hw' & _ & H)]; [apply Ho|by simplify_eq].
  - intros e'. rewrite (frame_valid k k') by done. intros Hv.
    destruct (decide (e' = e)) as [->|Hne]; [by apply Hok|].
    apply (ept_ok_ext k); [by apply Hother| |by apply He].
    intros kind Hk. apply pending_ext. destruct (Hres (waiting_thread (ept k e') kind)) as [H|(w & Hw & Hwe & _)]; [done|].
    exfalso. apply (waits_elsewhere k l C _ w e' kind Hc Hw Hv Hk); [congruence|done].
Qed.

(** * Settling an outcome *)

Lemma finish_spec k l C t w r :
  ipc_core k l C -> C !! t = Some w -> pending k t = true -> wait_terminal r = true ->
  ipc_finish t (wt_endpoint w) (wt_kind w) (wt_id w) r k =
    Some (set_thr t (fun t => t <| t_wait_result := r |>) k).
Proof.
  intros Hc Hw Hp Hr. destruct (ic_waiter _ _ _ Hc t w Hw) as [_ _ Hm _ Hl _ _].
  pose proof (ic_sched _ _ _ Hc) as Hwf. unfold ipc_finish, thread_wait_try_complete.
  rewrite Hr, Hm. unfold pending in Hp. rewrite Hp. cbn [negb orb].
  fold (current_of k). unfold state_is.
  destruct Hl as [Hin|Hb]; [|by rewrite Hb].
  destruct (queued_cases k l t Hwf Hin) as (_ & _ & [[-> ->]|(_ & -> & _)]); [|done].
  by rewrite Z.eqb_refl.
Qed.

Lemma quiet_result k t r : quiet k (set_thr t (fun t => t <| t_wait_result := r |>) k).
Proof. by apply quiet_thr. Qed.

Lemma result_set k t r u :
  t_wait_result (thr (set_thr t (fun t => t <| t_wait_result := r |>) k) u) =
    if decide (t = u) then r else t_wait_result (thr k u).
Proof. rewrite thr_set. by case_decide. Qed.

Lemma result_calm k k' t : calm k k' -> t_wait_result (thr k' t) = t_wait_result (thr k t).
Proof. intros Hc. by destruct (wait_fields_eq _ _ (ca_wait _ _ Hc t)) as (_ & _ & _ & -> & _). Qed.

Lemma ept_calm k k' e : calm k k' -> ept k' e = ept k e.
Proof. intros Hc. unfold ept. by rewrite (ca_rest _ _ Hc). Qed.

Lemma located_quiet k k' l t : quiet k k' -> located k l t -> located k' l t.
Proof.
  intros Hq [?|Hb]; [by left|right]. by destruct (sched_fields_eq _ _ (qu_thr _ _ Hq t)) as (-> & _).
Qed.

Lemma quiet_trans k k1 k2 : quiet k k1 -> quiet k1 k2 -> quiet k k2.
Proof.
  intros [W1 S1 C1 T1 H1] [W2 S2 C2 T2 H2]. split; [by eapply same_world_trans|congruence|congruence| |auto].
  intros t. by rewrite T2.
Qed.

Lemma quiet_refl k : quiet k k.
Proof. by split. Qed.

(** * The mailbox *)

Definition filled (m : IpcMessage) (e : Endpoint) : Endpoint :=
  e <| e_message := stored m |> <| e_message_ready := true |>.

(** The accepted message and whether the endpoint is closed. *)
Definition mailbox (e : Endpoint) : IpcMessage * bool * bool := (e_message e, e_message_ready e, e_closed e).

Definition emptied (e : Endpoint) : Endpoint := e <| e_message := message_zero |> <| e_message_ready := false |>.

Definition unstaged (e : Endpoint) : Endpoint :=
  e <| e_waiting_sender_message := message_zero |> <| e_waiting_sender_message_ready := false |>.

Lemma valid_facts k e :
  ipc_endpoint_valid k e = true ->
  endpoint_live k e = true /\ e_initialized (ept k e) = true /\ nz (e_id (ept k e)) = true /\ nz e = true.
Proof.
  unfold ipc_endpoint_valid, endpoint_storage_in_use. intros H.
  apply andb_true_iff in H as [H ?]. apply andb_true_iff in H as [H ?]. split_and!; try done.
  unfold endpoint_live, object_storage_find in H. destruct (nz e); [done|]. by rewrite Z.ltb_irrefl in H.
Qed.

Lemma message_ready_valid k l C e :
  ipc_core k l C -> ipc_endpoint_valid k e = true -> endpoint_message_ready k e = e_message_ready (ept k e).
Proof.
  intros Hc (H1 & H2 & H3 & _)%valid_facts. unfold endpoint_message_ready, endpoint_ready.
  by rewrite (ic_system _ _ _ Hc), H1, H2, H3.
Qed.

Lemma try_send_spec k e m :
  om_initialized (k_ept k) = true -> ipc_endpoint_valid k e = true -> ipc_message_valid m = true ->
  e_closed (ept k e) = false -> e_message_ready (ept k e) = false ->
  endpoint_try_send e m k = (true, set_ept e (filled m) k).
Proof.
  intros Hs (H1 & H2 & H3 & H4)%valid_facts Hm Hc Hr. unfold endpoint_try_send.
  unfold ipc_message_valid in Hm. apply andb_true_iff in Hm as [Hm1 Hm2].
  assert ((m_word_count m >? IPC_MESSAGE_MAX_WORDS) = false) as Hm3
    by (apply Z.leb_le in Hm2; by apply Z.ltb_ge).
  by rewrite Hs, H1, H2, H3, H4, Hc, Hm1, Hm3, Hr.
Qed.

Lemma try_receive_spec k e :
  om_initialized (k_ept k) = true -> ipc_endpoint_valid k e = true -> e_closed (ept k e) = false ->
  e_message_ready (ept k e) = true ->
  endpoint_try_receive e k = (Some (e_message (ept k e)), set_ept e emptied k).
Proof.
  intros Hs (H1 & H2 & H3 & H4)%valid_facts Hc Hr. unfold endpoint_try_receive.
  by rewrite Hs, H1, H2, H3, H4, Hc, Hr.
Qed.

(** A step that keeps the processor where it is and loses no thread. *)
Record keeps_sched (k k' : Kernel) (l l' : list Z) : Prop := {
  ks_current : current_of k' = current_of k;
  ks_idle : idle k' = idle k;
  ks_located : forall t, located k l t -> located k' l' t;
  ks_queued : forall t, t ∈ l -> t ∈ l';
  ks_hook : hook_armed k = false -> hook_armed k' = false }.

Lemma keeps_refl k l : keeps_sched k k l l.
Proof. by split. Qed.

Lemma keeps_trans k k1 k2 l l1 l2 : keeps_sched k k1 l l1 -> keeps_sched k1 k2 l1 l2 -> keeps_sched k k2 l l2.
Proof. intros [? ? H1 Q1 K1] [? ? H2 Q2 K2]. split; [congruence..| | |]; auto. Qed.

Lemma keeps_quiet k k' l : quiet k k' -> keeps_sched k k' l l.
Proof.
  intros Hq. split; [apply Hq|unfold idle; by rewrite (qu_sch _ _ Hq)| |done|apply Hq]. intros t. by apply located_quiet.
Qed.

(** Making a waiter runnable after quiet writes. *)
Lemma wake_after k k1 l t :
  sched_wf k l -> quiet k k1 -> located k l t ->
  exists k2 l2, ipc_make_ready t k1 = (true, k2) /\ sched_wf k2 l2 /\ calm k1 k2 /\ t ∈ l2 /\
    keeps_sched k k2 l l2.
Proof.
  intros Hwf Hq Hl. pose proof (quiet_sched _ _ _ Hq Hwf) as Hwf1.
  destruct (make_ready_spec k1 l t Hwf1 (located_quiet _ _ _ _ Hq Hl)) as (k2 & l2 & Hm & Hwf2 & Hca & Hin & Hc & Hi & Hlo & Hqu).
  exists k2, l2. split_and!; try done. eapply keeps_trans; [by apply keeps_quiet|].
  split; try done. unfold hook_armed. by rewrite (ca_rest _ _ Hca).
Qed.

Definition send_possible (k : Kernel) (e : Z) (m : IpcMessage) : bool :=
  ipc_endpoint_valid k e && ipc_message_valid m && !e_closed (ept k e) && !e_message_ready (ept k e)
  && (!nz (e_waiting_receiver (ept k e)) || pending k (e_waiting_receiver (ept k e))).

Lemma filled_ept_ok k k' e m :
  ept_ok k e -> e_closed (ept k e) = false -> ept k' e = filled m (ept k e) ->
  (forall t, t_wait_result (thr k' t) = t_wait_result (thr k t)) -> ept_ok k' e.
Proof.
  intros [H1 H2 Hfull H3] Hc He Hr. split; rewrite He; cbn.
  - by rewrite (pending_ext k k').
  - done.
  - done.
  - congruence.
Qed.

(** A receiver or sender registered at a valid endpoint has a continuation. *)
Lemma registered_waiter k l C e kind :
  ipc_core k l C -> ipc_endpoint_valid k e = true -> ipc_kind kind = true ->
  nz (waiting_thread (ept k e) kind) = true ->
  exists w, C !! waiting_thread (ept k e) kind = Some w /\ wt_endpoint w = e /\ wt_kind w = kind /\
    wt_id w = waiting_id (ept k e) kind.
Proof.
  intros Hc Hv Hk Hz. destruct (ic_endpoint _ _ _ Hc e kind Hv Hk) as [[H0 _]|(w & Hw & He & Hkw)].
  - by rewrite H0 in Hz.
  - exists w. split_and!; try done. destruct (ic_waiter _ _ _ Hc _ _ Hw) as [_ _ _ _ _ _ H7].
    by rewrite He, Hkw in H7.
Qed.

Lemma send_locked_spec k l C e m :
  ipc_wf k l C ->
  if send_possible k e m then
    exists k' l', ipc_send_locked e m k = Some (true, k') /\ ipc_wf k' l' C /\ keeps_sched k k' l l' /\
      (forall e', ept k' e' = if decide (e' = e) then filled m (ept k e) else ept k e') /\
      (forall t, t_wait_result (thr k' t) = t_wait_result (thr k t)) /\
      (e_waiting_receiver (ept k e) <> 0 -> e_waiting_receiver (ept k e) ∈ l')
  else ipc_send_locked e m k = Some (false, k).
Proof.
  intros Hwf. pose proof (iw_core _ _ _ Hwf) as Hc. unfold send_possible, ipc_send_locked.
  destruct (ipc_endpoint_valid k e) eqn:Hv; [|done].
  destruct (ipc_message_valid m) eqn:Hm; [|done]. rewrite (message_ready_valid k l C e Hc Hv).
  destruct (e_closed (ept k e)) eqn:Hcl; [done|]. destruct (e_message_ready (ept k e)) eqn:Hr; [done|].
  rewrite (reservation_valid k l C e THREAD_WAIT_IPC_RECEIVE Hc Hv eq_refl). cbn [negb orb andb].
  assert (forall e', ept (set_ept e (filled m) k) e' = if decide (e' = e) then filled m (ept k e) else ept k e') as He.
  { intros e'. rewrite ept_set. by case_decide; case_decide; congruence. }
  destruct (nz (e_waiting_receiver (ept k e))) eqn:Hz; cbn [negb orb andb].
  - destruct (pending k _) eqn:Hp; [|done]. cbn [negb].
    rewrite try_send_spec by (done || apply Hc). cbn [negb].
    destruct (registered_waiter k l C e THREAD_WAIT_IPC_RECEIVE Hc Hv eq_refl Hz) as (w & Hw & Hwe & Hwk & _).
    change (waiting_thread _ _) with (e_waiting_receiver (ept k e)) in Hw.
    destruct (wake_after k _ l _ (ic_sched _ _ _ Hc) (quiet_ept k e (filled m))
      (wo_where _ _ _ _ (ic_waiter _ _ _ Hc _ _ Hw))) as (k2 & l2 & -> & Hwf2 & Hca & Hin & Hks).
    exists k2, l2. split; [done|].
    assert (forall t, t_wait_result (thr k2 t) = t_wait_result (thr k t)) as Hres
      by (intros t; by rewrite (result_calm _ _ t Hca)).
    split_and!; try done; [|intros e'; rewrite (ept_calm _ _ e' Hca); apply He].
    apply (endpoint_step k k2 l l2 C e Hwf); try done; [|apply Hks| | |].
    + apply (frame_trans k (set_ept e (filled m) k)); [by apply frame_ept|by apply calm_frame].
    + intros e' Hne. rewrite (ept_calm _ _ e' Hca), He. by rewrite decide_False.
    + intros t. by left.
    + intros _. apply (filled_ept_ok k k2 e m); try done; [by apply Hwf|].
      rewrite (ept_calm _ _ e Hca), He. by rewrite decide_True.
  - rewrite try_send_spec by (done || apply Hc). cbn [negb].
    exists (set_ept e (filled m) k), l. bool_prop. split_and!; try done.
    apply (endpoint_step k _ l l C e Hwf); try done.
    + by apply frame_ept.
    + by apply (quiet_sched k), Hc.
    + intros e' Hne. rewrite He. by rewrite decide_False.
    + intros t. by left.
    + intros _. apply (filled_ept_ok k _ e m); try done; [by apply Hwf|]. rewrite He. by rewrite decide_True.
Qed.

(** The core alone is kept by any step of the frame that settles outcomes. *)
Lemma core_step k k' l l' C :
  ipc_core k l C -> ipc_frame k k' -> sched_wf k' l' ->
  (forall t, located k l t -> located k' l' t) ->
  (forall t w, C !! t = Some w -> t_wait_result (thr k' t) = t_wait_result (thr k t) \/
     result_fits w (t_wait_result (thr k' t)) = true) -> ipc_core k' l' C.
Proof.
  intros Hc Hf Hs Hl Hr. apply (core_frame k k' l); try done. intros t w Hw.
  pose proof (ic_waiter _ _ _ Hc t w Hw) as Ho. split; [apply Hl, Ho|].
  destruct (Hr t w Hw) as [->|H]; [apply Ho|done].
Qed.

Definition receive_possible (k : Kernel) (e current : Z) : bool :=
  ipc_endpoint_valid k e && !e_closed (ept k e)
  && (!nz (e_waiting_receiver (ept k e))
      || ((e_waiting_receiver (ept k e) =? current) && pending k (e_waiting_receiver (ept k e))))
  && e_message_ready (ept k e).

(** The mailbox after a receive: a staged message takes the place of the one
    received. *)
Definition after_receive (e : Endpoint) : Endpoint :=
  if e_waiting_sender_message_ready e then unstaged (filled (e_waiting_sender_message e) (emptied e))
  else emptied e.

Lemma staged_sender k l C e :
  ipc_wf k l C -> ipc_endpoint_valid k e = true -> e_waiting_sender_message_ready (ept k e) = true ->
  exists w, C !! e_waiting_sender (ept k e) = Some w /\ wt_endpoint w = e /\ wt_kind w = THREAD_WAIT_IPC_SEND /\
    wt_id w = e_waiting_sender_id (ept k e) /\ nz (e_waiting_sender (ept k e)) = true /\
    pending k (e_waiting_sender (ept k e)) = true.
Proof.
  intros Hwf Hv Hst. destruct (iw_ept _ _ _ Hwf e Hv) as [H1 _ _ _]. apply H1 in Hst as [Hz Hp].
  assert (nz (e_waiting_sender (ept k e)) = true) as Hz' by (by apply negb_true_iff, Z.eqb_neq).
  destruct (registered_waiter k l C e THREAD_WAIT_IPC_SEND (iw_core _ _ _ Hwf) Hv eq_refl Hz')
    as (w & Hw & He & Hk & Hid).
  by exists w.
Qed.

(** Receiving with no staged message. *)
Lemma receive_plain k l C e :
  ipc_wf k l C -> ipc_endpoint_valid k e = true -> e_closed (ept k e) = false ->
  e_waiting_sender_message_ready (ept k e) = false -> ipc_wf (set_ept e emptied k) l C.
Proof.
  intros Hwf Hv Hcl Hst. assert (ept (set_ept e emptied k) e = emptied (ept k e)) as He
    by (rewrite ept_set; by rewrite decide_True).
  apply (endpoint_step k _ l l C e Hwf); try done.
  - by apply frame_ept.
  - by apply (quiet_sched k), Hwf.
  - intros e' Hne. rewrite ept_set. by rewrite decide_False.
  - intros t. by left.
  - intros _. destruct (iw_ept _ _ _ Hwf e Hv) as [H1 H2 Hfull H3]. split; rewrite He; cbn.
    + exact H1.
    + exact H2.
    + congruence.
    + congruence.
Qed.

Lemma promoted_ept_ok k k' e :
  ept_ok k e -> e_closed (ept k e) = false -> e_waiting_sender_message_ready (ept k e) = true ->
  ept k' e = unstaged (filled (e_waiting_sender_message (ept k e)) (emptied (ept k e))) ->
  pending k' (e_waiting_sender (ept k e)) = false -> ept_ok k' e.
Proof.
  intros [H1 H2 Hfull H3] Hc Hst He Hp. split; rewrite He; cbn.
  - rewrite Hp. split; [done|]. by intros [_ ?].
  - done.
  - done.
  - congruence.
Qed.

(** Promoting the staged message: the sender is woken and its send committed. *)
Lemma receive_staged k l C e :
  ipc_wf k l C -> ipc_endpoint_valid k e = true -> e_closed (ept k e) = false ->
  e_waiting_sender_message_ready (ept k e) = true ->
  let s := e_waiting_sender (ept k e) in
  let k2 := set_ept e (filled (e_waiting_sender_message (ept k e))) (set_ept e emptied k) in
  exists k3 l3, ipc_make_ready s k2 = (true, k3) /\
    ipc_finish s e THREAD_WAIT_IPC_SEND (e_waiting_sender_id (ept k3 e)) THREAD_WAIT_RESULT_COMPLETED k3 =
      Some (set_thr s (fun t => t <| t_wait_result := THREAD_WAIT_RESULT_COMPLETED |>) k3) /\
    let k5 := drop_staged e (set_thr s (fun t => t <| t_wait_result := THREAD_WAIT_RESULT_COMPLETED |>) k3) in
    ipc_wf k5 l3 C /\ keeps_sched k k5 l l3 /\ s ∈ l3 /\
    (forall e', ept k5 e' = if decide (e' = e) then after_receive (ept k e) else ept k e') /\
    (forall t, t_wait_result (thr k5 t) = if decide (t = s) then THREAD_WAIT_RESULT_COMPLETED
                                          else t_wait_result (thr k t)).
Proof.
  intros Hwf Hv Hcl Hst s k2. pose proof (iw_core _ _ _ Hwf) as Hc.
  destruct (staged_sender k l C e Hwf Hv Hst) as (w & Hw & Hwe & Hwk & Hwid & Hz & Hp). fold s in Hw, Hz, Hp.
  assert (quiet k k2) as Hq by done.
  assert (ipc_frame k k2) as Hf2.
  { apply (frame_trans k (set_ept e emptied k)); by apply frame_ept. }
  destruct (wake_after k k2 l s (ic_sched _ _ _ Hc) Hq (wo_where _ _ _ _ (ic_waiter _ _ _ Hc _ _ Hw)))
    as (k3 & l3 & Hm & Hwf3 & Hca & Hin & Hks).
  assert (ipc_frame k k3) as Hf3 by (eapply frame_trans; [done|by apply calm_frame]).
  assert (forall t, t_wait_result (thr k3 t) = t_wait_result (thr k t)) as Hr3
    by (intros t; by rewrite (result_calm _ _ t Hca)).
  assert (forall e', ept k3 e' = if decide (e' = e) then filled (e_waiting_sender_message (ept k e)) (emptied (ept k e))
                                 else ept k e') as He3.
  { intros e'. rewrite (ept_calm _ _ e' Hca). unfold k2. rewrite !ept_set.
    repeat case_decide; try congruence. }
  assert (ipc_core k3 l3 C) as Hc3.
  { apply (core_step k k3 l l3 C Hc Hf3 Hwf3); [apply Hks|]. intros t v _. by left. }
  assert (ipc_finish s e THREAD_WAIT_IPC_SEND (e_waiting_sender_id (ept k3 e)) THREAD_WAIT_RESULT_COMPLETED k3 =
    Some (set_thr s (fun t => t <| t_wait_result := THREAD_WAIT_RESULT_COMPLETED |>) k3)) as Hfin.
  { rewrite He3, decide_True by done. cbn. rewrite <- Hwid, <- Hwk, <- Hwe.
    apply (finish_spec k3 l3 C s w); try done. by rewrite (pending_ext k k3). }
  exists k3, l3. split; [done|]. split; [done|]. intros k5.
  assert (forall t, t_wait_result (thr k5 t) = if decide (t = s) then THREAD_WAIT_RESULT_COMPLETED
                                               else t_wait_result (thr k t)) as Hr5.
  { intros t. change (t_wait_result (thr k5 t)) with (t_wait_result (thr (set_thr s (fun t => t <| t_wait_result :=
      THREAD_WAIT_RESULT_COMPLETED |>) k3) t)). rewrite result_set, Hr3. repeat case_decide; congruence. }
  assert (quiet k3 k5) as Hq5.
  { apply (quiet_trans k3 (set_thr s (fun t => t <| t_wait_result := THREAD_WAIT_RESULT_COMPLETED |>) k3));
      [apply quiet_result|done]. }
  assert (forall e', ept k5 e' = if decide (e' = e) then after_receive (ept k e) else ept k e') as He5.
  { intros e'. unfold k5, drop_staged. rewrite ept_set. 
    change (ept (set_thr _ _ k3)) with (ept k3). unfold after_receive. rewrite Hst, !He3.
    repeat case_decide; try congruence; done. }
  assert (keeps_sched k k5 l l3) as Hks5 by (eapply keeps_trans; [exact Hks|by apply keeps_quiet]).
  split_and!; try done.
  apply (endpoint_step k k5 l l3 C e Hwf).
  - eapply frame_trans; [exact Hf3|]. eapply frame_trans; [apply frame_result|]. by apply frame_ept.
  - by apply (quiet_sched k3).
  - apply Hks5.
  - intros e' Hne. rewrite He5. by rewrite decide_False.
  - intros t. rewrite Hr5. case_decide; [|by left]. right. exists w. unfold result_fits. rewrite Hwk. by subst.
  - intros _. apply (promoted_ept_ok k k5 e); try done; [by apply Hwf| |].
    + rewrite He5. rewrite decide_True by done. unfold after_receive. by rewrite Hst.
    + unfold pending. rewrite Hr5. by rewrite decide_True.
Qed.

(** The sender whose message a receive commits, if any. *)
Definition committed (k : Kernel) (e t : Z) : bool :=
  e_waiting_sender_message_ready (ept k e) && (t =? e_waiting_sender (ept k e)).

Lemma receive_locked_spec k l C e cur :
  ipc_wf k l C ->
  if receive_possible k e cur then
    exists k' l', ipc_receive_locked e cur k = Some (Some (e_message (ept k e)), k') /\ ipc_wf k' l' C /\
      keeps_sched k k' l l' /\
      (forall e', ept k' e' = if decide (e' = e) then after_receive (ept k e) else ept k e') /\
      (forall t, t_wait_result (thr k' t) =
         if committed k e t then THREAD_WAIT_RESULT_COMPLETED else t_wait_result (thr k t)) /\
      (forall t, committed k e t = true -> t ∈ l')
  else ipc_receive_locked e cur k = Some (None, k).
Proof.
  intros Hwf. pose proof (iw_core _ _ _ Hwf) as Hc. unfold receive_possible, ipc_receive_locked.
  destruct (ipc_endpoint_valid k e) eqn:Hv; [|done].
  destruct (e_closed (ept k e)) eqn:Hcl; [done|].
  rewrite (reservation_valid k l C e THREAD_WAIT_IPC_RECEIVE Hc Hv eq_refl).
  rewrite (reservation_valid k l C e THREAD_WAIT_IPC_SEND Hc Hv eq_refl).
  rewrite (message_ready_valid k l C e Hc Hv). cbn [negb orb andb].
  set (r := e_waiting_receiver (ept k e)) in *.
  assert ((nz r && ((r != cur) || !pending k r)) = negb (!nz r || ((r =? cur) && pending k r))) as ->.
  { destruct (nz r), (r =? cur), (pending k r); done. }
  destruct (!nz r || ((r =? cur) && pending k r)); [|done]. cbn [negb andb].
  destruct (e_message_ready (ept k e)) eqn:Hr; [|done]. cbn [negb].
  destruct (e_waiting_sender_message_ready (ept k e)) eqn:Hst.
  - destruct (staged_sender k l C e Hwf Hv Hst) as (w & _ & _ & _ & _ & Hz & Hp).
    rewrite Hz, Hp. cbn [negb orb andb]. rewrite try_receive_spec by (done || apply Hc).
    assert (forall x, ept (set_ept e x k) e = x (ept k e)) as Heq by (intros; rewrite ept_set; by rewrite decide_True).
    rewrite Heq. cbn [emptied e_waiting_sender_message].
    change (e_waiting_sender_message (emptied (ept k e))) with (e_waiting_sender_message (ept k e)).
    rewrite try_send_spec.
    2: apply Hc. 2: rewrite (frame_valid k); [done|by apply frame_ept].
    2: by apply (iw_ept _ _ _ Hwf e Hv). 2, 3: by rewrite Heq.
    cbn [negb]. destruct (receive_staged k l C e Hwf Hv Hcl Hst) as (k3 & l3 & -> & Hfin & Hwf5 & Hks & Hin & He & Hres).
    cbn [negb]. rewrite Hfin. cbn [mbind option_bind]. eexists _, l3. split; [done|]. unfold committed. rewrite Hst.
    split_and!; try done.
    + intros t. rewrite Hres. cbn [andb]. destruct (Z.eqb_spec t (e_waiting_sender (ept k e)));
        [by rewrite decide_True|by rewrite decide_False].
    + intros t Ht. apply Z.eqb_eq in Ht. by subst.
  - assert ((nz (e_waiting_sender (ept k e)) && pending k (e_waiting_sender (ept k e)) && ! false) = false) as ->.
    { destruct (nz (e_waiting_sender (ept k e))) eqn:Hz; [|done].
      destruct (pending k (e_waiting_sender (ept k e))) eqn:Hp; [|done]. exfalso.
      destruct (iw_ept _ _ _ Hwf e Hv) as [H1 _ _ _]. rewrite Hst in H1. bool_prop.
      assert (false = true) by (by apply H1). done. }
    cbn [andb]. rewrite try_receive_spec by (done || apply Hc). cbn [negb].
    exists (set_ept e emptied k), l. unfold committed. rewrite Hst. split_and!; try done.
    + by apply receive_plain.
    + intros e'. rewrite ept_set. unfold after_receive. rewrite Hst. repeat case_decide; congruence.
Qed.

(** * Closing *)

Definition settle (t : Z) (r : ThreadWaitResult) (k : Kernel) : Kernel :=
  if nz t && pending k t then set_thr t (fun t => t <| t_wait_result := r |>) k else k.

Lemma settle_quiet t r k : quiet k (settle t r k).
Proof. unfold settle. if_case; [apply quiet_result|apply quiet_refl]. Qed.

Lemma settle_frame t r k : ipc_frame k (settle t r k).
Proof. unfold settle. if_case; [apply frame_result|apply frame_refl]. Qed.

Lemma settle_result t r k u :
  t_wait_result (thr (settle t r k) u) =
    if nz t && pending k t && bool_decide (u = t) then r else t_wait_result (thr k u).
Proof.
  unfold settle. destruct (nz t && pending k t); [|done]. rewrite result_set. cbn [andb].
  case_decide; case_bool_decide; congruence.
Qed.

Lemma settle_ept t r k e : ept (settle t r k) e = ept k e.
Proof. unfold settle. by if_case. Qed.

(** The outcome of a waiter of [e] is settled if it is still pending. *)
Lemma settle_spec k l C e kind r :
  ipc_core k l C -> ipc_endpoint_valid k e = true -> ipc_kind kind = true -> wait_terminal r = true ->
  r <> THREAD_WAIT_RESULT_COMPLETED ->
  let t := waiting_thread (ept k e) kind in
  (if nz t && pending k t then ipc_finish t e kind (waiting_id (ept k e) kind) r k else Some k) =
    Some (settle t r k) /\ ipc_core (settle t r k) l C.
Proof.
  intros Hc Hv Hk Hr Hnc t. unfold settle. destruct (nz t) eqn:Hz; [|done]. destruct (pending k t) eqn:Hp; [|done].
  cbn [andb]. destruct (registered_waiter k l C e kind Hc Hv Hk Hz) as (w & Hw & Hwe & Hwk & Hwid).
  fold t in Hw. split.
  - rewrite <- Hwid, <- Hwk, <- Hwe. by apply (finish_spec k l C).
  - apply (core_step k _ l l C Hc); [apply frame_result|apply (quiet_sched k); [apply quiet_result|apply Hc]| |].
    + intros u. apply located_quiet, quiet_result.
    + intros u v _. rewrite result_set. case_decide; [right|by left]. unfold result_fits.
      rewrite (bool_decide_eq_false_2 (r = _)), andb_false_r by done. by destruct r.
Qed.

Definition shut (e : Endpoint) : Endpoint := emptied (unstaged (e <| e_closed := true |>)).

(** [t] is registered with [e] as receiver or sender. *)
Definition waits_at (k : Kernel) (e t : Z) : bool :=
  nz t && ((t =? e_waiting_receiver (ept k e)) || (t =? e_waiting_sender (ept k e))).

Lemma shut_ept_ok k k' e :
  ept k' e = shut (ept k e) -> 
  (forall t, waits_at k e t = true -> pending k' t = false) -> ept_ok k' e.
Proof.
  intros He Hp. unfold waits_at in Hp. split; rewrite He; cbn.
  - split; [done|]. intros [Hz Hs]. rewrite Hp in Hs; [done|].
    rewrite Z.eqb_refl, orb_true_r, andb_true_r. by apply negb_true_iff, Z.eqb_neq.
  - done.
  - done.
  - intros _. split_and!; [done| |]; intros Hz; apply Hp; rewrite Z.eqb_refl, ?orb_true_r, andb_true_r;
      by apply negb_true_iff, Z.eqb_neq.
Qed.

(** Waking an optional waiter. *)
Lemma wake_if k l t :
  sched_wf k l -> (nz t = true -> located k l t) ->
  exists k' l', (if nz t then make_ready_or_halt t k else Some k) = Some k' /\ sched_wf k' l' /\ calm k k' /\
    keeps_sched k k' l l' /\ (nz t = true -> t ∈ l').
Proof.
  intros Hwf Hl. destruct (nz t) eqn:Hz.
  - unfold make_ready_or_halt.
    destruct (make_ready_spec k l t Hwf (Hl eq_refl)) as (k' & l' & -> & Hwf' & Hca & Hin & Hc & Hi & Hlo & Hqu).
    exists k', l'. split_and!; try done. split; try done. unfold hook_armed. by rewrite (ca_rest _ _ Hca).
  - exists k, l. split_and!; try done. apply calm_refl.
Qed.

(** The guards of [ipc_endpoint_close] hold at every valid open endpoint. *)
Lemma staged_guards k l C e :
  ipc_wf k l C -> ipc_endpoint_valid k e = true ->
  let s := e_waiting_sender (ept k e) in
  e_waiting_sender_message_ready (ept k e) && (!nz s || !pending k s) = false /\
  nz s && pending k s && !e_waiting_sender_message_ready (ept k e) = false.
Proof.
  intros Hwf Hv s. destruct (iw_ept _ _ _ Hwf e Hv) as [H1 _ _ _]. fold s in H1.
  unfold nz. destruct (e_waiting_sender_message_ready (ept k e)), (Z.eqb_spec s 0), (pending k s); cbn; try done;
    exfalso; intuition congruence.
Qed.

(** The two settlements and the clean-up of [ipc_endpoint_close]. *)
Definition shutdown (e : Z) (k : Kernel) : Kernel :=
  set_ept e emptied (drop_staged e
    (settle (e_waiting_sender (ept k e)) THREAD_WAIT_RESULT_PEER_CLOSED
       (settle (e_waiting_receiver (ept k e)) THREAD_WAIT_RESULT_PEER_CLOSED
          (set_ept e (fun e => e <| e_closed := true |>) k)))).

Lemma shutdown_facts k e :
  quiet k (shutdown e k) /\ ipc_frame k (shutdown e k) /\
  (forall e', ept (shutdown e k) e' = if decide (e' = e) then shut (ept k e) else ept k e') /\
  (forall t, t_wait_result (thr (shutdown e k) t) =
     if waits_at k e t && pending k t then THREAD_WAIT_RESULT_PEER_CLOSED else t_wait_result (thr k t)).
Proof.
  unfold shutdown. set (k1 := set_ept e (fun e => e <| e_closed := true |>) k).
  set (k2 := settle _ _ k1). set (k3 := settle _ _ k2). split_and!.
  - apply (quiet_trans k k1); [done|]. apply (quiet_trans k1 k2); [apply settle_quiet|].
    by apply (quiet_trans k2 k3); [apply settle_quiet|].
  - apply (frame_trans k k1); [by apply frame_ept|]. apply (frame_trans k1 k2); [apply settle_frame|].
    apply (frame_trans k2 k3); [apply settle_frame|]. apply (frame_trans k3 (drop_staged e k3)); by apply frame_ept.
  - intros e'. unfold drop_staged. rewrite !ept_set. unfold k3, k2. rewrite !settle_ept. unfold k1. rewrite !ept_set.
    repeat case_decide; try congruence; done.
  - intros t. change (thr (set_ept e emptied (drop_staged e k3)) t) with (thr k3 t).
    unfold k3. rewrite settle_result. unfold k2. rewrite settle_result.
    assert (forall u, pending k2 u = pending k1 u && !(nz (e_waiting_receiver (ept k e)) &&
              pending k (e_waiting_receiver (ept k e)) && bool_decide (u = e_waiting_receiver (ept k e)))) as Hp.
    { intros u. unfold k2. unfold pending at 1. rewrite settle_result.
      change (pending k1 (e_waiting_receiver (ept k e))) with (pending k (e_waiting_receiver (ept k e))).
      destruct (_ && _ && _); cbn; [by rewrite andb_false_r|by rewrite andb_true_r]. }
    rewrite Hp. unfold waits_at. change (thr k1 t) with (thr k t).
    assert (forall u, pending k1 u = pending k u) as Hp1 by done. rewrite !Hp1.
    set (r := e_waiting_receiver (ept k e)). set (s := e_waiting_sender (ept k e)). clearbody r s. clear.
    assert (forall x y, (x =? y) = bool_decide (x = y)) as Hb
      by (intros x y; destruct (Z.eqb_spec x y); by case_bool_decide).
    rewrite !Hb. repeat case_bool_decide; subst; try congruence; cbn;
      rewrite ?andb_true_r, ?andb_false_r; try done.
    all: repeat match goal with |- context [nz ?x] => destruct (nz x) end;
      repeat match goal with |- context [pending ?a ?x] => destruct (pending a x) end; done.
Qed.

Lemma waits_at_waiter k l C e t :
  ipc_core k l C -> ipc_endpoint_valid k e = true -> waits_at k e t = true ->
  exists w, C !! t = Some w /\ wt_endpoint w = e.
Proof.
  intros Hc Hv Ht. unfold waits_at in Ht. apply andb_true_iff in Ht as [Hz Ht].
  apply orb_true_iff in Ht as [Ht%Z.eqb_eq|Ht%Z.eqb_eq]; subst t.
  - destruct (registered_waiter k l C e THREAD_WAIT_IPC_RECEIVE Hc Hv eq_refl Hz) as (w & Hw & He & _). by exists w.
  - destruct (registered_waiter k l C e THREAD_WAIT_IPC_SEND Hc Hv eq_refl Hz) as (w & Hw & He & _). by exists w.
Qed.

(** Up to the wake-ups, closing a valid open endpoint is [shutdown]. *)
Lemma close_unfold k l C e :
  ipc_wf k l C -> ipc_endpoint_valid k e = true -> e_closed (ept k e) = false ->
  let r := e_waiting_receiver (ept k e) in
  let s := e_waiting_sender (ept k e) in
  ipc_endpoint_close e k =
    (k ← (if nz r then make_ready_or_halt r (shutdown e k) else Some (shutdown e k));
     k ← (if nz s then make_ready_or_halt s k else Some k); Some (true, k)).
Proof.
  intros Hwf Hv Hcl r s. pose proof (iw_core _ _ _ Hwf) as Hc. unfold ipc_endpoint_close. rewrite Hv, Hcl.
  rewrite (reservation_valid k l C e THREAD_WAIT_IPC_RECEIVE Hc Hv eq_refl).
  rewrite (reservation_valid k l C e THREAD_WAIT_IPC_SEND Hc Hv eq_refl). cbn [negb orb andb].
  destruct (staged_guards k l C e Hwf Hv) as [-> ->]. unfold shutdown.
  set (k1 := set_ept e (fun e => e <| e_closed := true |>) k) in *.
  assert (ipc_core k1 l C) as Hc1.
  { apply (core_step k k1 l l C Hc); [by apply frame_ept|by apply (quiet_sched k), Hc|done|]. intros t v _. by left. }
  assert (ipc_endpoint_valid k1 e = true) as Hv1 by (rewrite (frame_valid k); [done|by apply frame_ept]).
  assert (e_waiting_receiver (ept k1 e) = r /\ e_waiting_sender (ept k1 e) = s) as [Er Es]
    by (unfold k1; rewrite ept_set; by rewrite decide_True).
  destruct (settle_spec k1 l C e THREAD_WAIT_IPC_RECEIVE THREAD_WAIT_RESULT_PEER_CLOSED Hc1 Hv1 eq_refl eq_refl ltac:(done))
    as [Hs1 Hc2]. cbv zeta in Hs1, Hc2. waiting_simpl. rewrite Er in Hs1, Hc2. fold r. rewrite Hs1. cbn [mbind option_bind].
  set (k2 := settle r _ k1) in *.
  assert (ipc_endpoint_valid k2 e = true) as Hv2 by (rewrite (frame_valid k1); [done|apply settle_frame]).
  destruct (settle_spec k2 l C e THREAD_WAIT_IPC_SEND THREAD_WAIT_RESULT_PEER_CLOSED Hc2 Hv2 eq_refl eq_refl ltac:(done))
    as [Hs2 _]. cbv zeta in Hs2. waiting_simpl.
  assert (e_waiting_sender (ept k2 e) = s) as Es2 by (unfold k2; by rewrite settle_ept).
  rewrite Es2 in Hs2. fold s. rewrite Hs2. done.
Qed.

Lemma close_spec k l C e :
  ipc_wf k l C ->
  if ipc_endpoint_valid k e && !e_closed (ept k e) then
    exists k' l', ipc_endpoint_close e k = Some (true, k') /\ ipc_wf k' l' C /\ keeps_sched k k' l l' /\
      (forall e', ept k' e' = if decide (e' = e) then shut (ept k e) else ept k e') /\
      (forall t, t_wait_result (thr k' t) =
         if waits_at k e t && pending k t then THREAD_WAIT_RESULT_PEER_CLOSED else t_wait_result (thr k t)) /\
      (forall t, waits_at k e t = true -> t ∈ l') /\ k_ept k' = k_ept k
  else ipc_endpoint_close e k = Some (false, k).
Proof.
  intros Hwf. pose proof (iw_core _ _ _ Hwf) as Hc.
  destruct (ipc_endpoint_valid k e) eqn:Hv; [|unfold ipc_endpoint_close; by rewrite Hv].
  destruct (e_closed (ept k e)) eqn:Hcl; [unfold ipc_endpoint_close; by rewrite Hv, Hcl|].
  cbn [negb andb]. rewrite (close_unfold k l C e Hwf Hv Hcl).
  destruct (shutdown_facts k e) as (Hq & Hf & He & Hres). set (k4 := shutdown e k) in *.
  pose proof (quiet_sched _ _ _ Hq (ic_sched _ _ _ Hc)) as Hwf4.
  assert (forall t, waits_at k e t = true -> located k l t) as Hloc.
  { intros t Ht. destruct (waits_at_waiter k l C e t Hc Hv Ht) as (w & Hw & _).
    apply (ic_waiter _ _ _ Hc _ _ Hw). }
  set (r := e_waiting_receiver (ept k e)) in *. set (s := e_waiting_sender (ept k e)) in *.
  destruct (wake_if k4 l r Hwf4) as (k5 & l5 & -> & Hwf5 & Hca5 & Hks5 & Hr5).
  { intros Hz. apply (located_quiet k); [done|]. apply Hloc. unfold waits_at. by rewrite Hz, Z.eqb_refl. }
  cbn [mbind option_bind].
  destruct (wake_if k5 l5 s Hwf5) as (k6 & l6 & -> & Hwf6 & Hca6 & Hks6 & Hr6).
  { intros Hz. apply (ks_located _ _ _ _ Hks5), (located_quiet k); [done|].
    apply Hloc. unfold waits_at. by rewrite Hz, Z.eqb_refl, orb_true_r. }
  cbn [mbind option_bind]. exists k6, l6. pose proof (calm_trans _ _ _ Hca5 Hca6) as Hca.
  assert (forall e', ept k6 e' = if decide (e' = e) then shut (ept k e) else ept k e') as He6
    by (intros e'; by rewrite (ept_calm _ _ e' Hca)).
  assert (forall t, t_wait_result (thr k6 t) =
     if waits_at k e t && pending k t then THREAD_WAIT_RESULT_PEER_CLOSED else t_wait_result (thr k t)) as Hres6
    by (intros t; by rewrite (result_calm _ _ t Hca)).
  assert (keeps_sched k k6 l l6) as Hks.
  { eapply keeps_trans; [by apply keeps_quiet|]. by eapply keeps_trans. }
  split_and!; try done.
  - apply (endpoint_step k k6 l l6 C e Hwf); try done.
    + eapply frame_trans; [exact Hf|by apply calm_frame].
    + apply Hks.
    + intros e' Hne. rewrite He6. by rewrite decide_False.
    + intros t. rewrite Hres6. destruct (waits_at k e t) eqn:Ht; [|by left]. cbn [andb].
      destruct (pending k t); [right|by left]. destruct (waits_at_waiter k l C e t Hc Hv Ht) as (w & ? & ?).
      exists w. unfold result_fits. by rewrite andb_false_r.
    + intros _. apply (shut_ept_ok k k6 e); [rewrite He6; by rewrite decide_True|].
      intros t Ht. unfold pending at 1. rewrite Hres6, Ht. cbn [andb]. by destruct (pending k t) eqn:Hp.
  - intros t Ht. unfold waits_at in Ht. apply andb_true_iff in Ht as [Hz Ht].
    apply orb_true_iff in Ht as [Ht%Z.eqb_eq|Ht%Z.eqb_eq]; subst t; [|by auto]. by apply Hks6, Hr5.
  - rewrite (if_ept _ _ (calm_frame _ _ Hca)). apply Hf.
Qed.
