(* ===== verification/IpcReserve.v ===== *)
(** Waits of message passing: polling the table of timeouts settles exactly the
    expired waits; entering and leaving a wait, with its reservation, timeout
    registration and release. *)

From S2P Require Import Prelude Pmm ObjectStorage Kernel Objects Capability.
From S2P Require Import Endpoint Thread Ring Scheduler SchedulerProofs SchedulerWf.
From S2P Require Import SchedulerOps Ipc IpcWf IpcOps.

Open Scope jcos_scope.

(** Slot [i] holds a pending wait whose deadline has passed. *)
Definition expired (k : Kernel) (now i : Z) : bool :=
  w_occupied (timed_at k i) && pending k (w_thread (timed_at k i))
  && ipc_deadline_reached now (w_deadline (timed_at k i)).

Lemma matches_known k t kind o id :
  thread_wait_matches_id k t kind o id = true -> thread_storage_live k t = true.
Proof.
  unfold thread_wait_matches_id, thread_wait_matches, thread_known. intros H.
  destruct (thread_storage_live k t); [done|]. rewrite andb_false_r in H. cbn in H. by rewrite andb_false_r in H.
Qed.

(** The consistency checks of [poll_slot] hold at every occupied slot. *)
Lemma poll_guard k l C i :
  ipc_core k l C -> timed_index i -> w_occupied (timed_at k i) = true ->
  let s := timed_at k i in
  (!thread_storage_in_use k (w_thread s) || !ipc_endpoint_valid k (w_endpoint s)
     || (t_id (thr k (w_thread s)) != w_thread_id s) || (e_id (ept k (w_endpoint s)) != w_endpoint_id s)
     || !thread_wait_matches_id k (w_thread s) (w_kind s) (w_endpoint s) (w_wait_id s)
     || !ipc_reservation_valid k (w_endpoint s) (w_kind s)) = false.
Proof.
  intros Hc Hi Ho s. destruct (to_slot _ _ (ic_timed _ _ _ Hc) i Hi Ho) as (w & Hw & Hr).
  fold s in Hw, Hr. destruct Hr as (_ & He & Hk & Hid & Ht & Hei).
  destruct (ic_waiter _ _ _ Hc _ _ Hw) as [Hwk Hv Hm _ _ _ _]. unfold thread_storage_in_use.
  rewrite He, Hk, Hid, Ht, Hei, Hv, Hm, (matches_known _ _ _ _ _ Hm), !Z.eqb_refl.
  by rewrite (reservation_valid k l C _ _ Hc Hv Hwk).
Qed.

(** The endpoint of an expired wait. *)
Definition lapse (kind : ThreadWaitKind) (e : Endpoint) : Endpoint :=
  if bool_decide (kind = THREAD_WAIT_IPC_SEND) then unstaged e else e.

Definition lapse_at (kind : ThreadWaitKind) (e : Z) (k : Kernel) : Kernel :=
  if bool_decide (kind = THREAD_WAIT_IPC_SEND) then drop_staged e k else k.

Lemma lapse_ept kind e k e' :
  ept (lapse_at kind e k) e' = if decide (e' = e) then lapse kind (ept k e) else ept k e'.
Proof.
  unfold lapse_at, lapse, drop_staged. destruct (bool_decide _); [rewrite ept_set|];
    repeat case_decide; congruence || done.
Qed.

(** What [poll_slot] does to an expired wait. *)
Lemma poll_expired k l C now i :
  ipc_wf k l C -> timed_index i -> expired k now i = true ->
  let s := timed_at k i in
  poll_slot now k i =
    make_ready_or_halt (w_thread s) (lapse_at (w_kind s) (w_endpoint s)
      (set_thr (w_thread s) (fun t => t <| t_wait_result := THREAD_WAIT_RESULT_TIMED_OUT |>) k)).
Proof.
  intros Hwf Hi Hx s. pose proof (iw_core _ _ _ Hwf) as Hc. unfold expired in Hx.
  apply andb_true_iff in Hx as [Hx Hd]. apply andb_true_iff in Hx as [Ho Hp].
  pose proof (poll_guard k l C i Hc Hi Ho) as Hg. unfold poll_slot. fold s in Hg, Ho, Hp, Hd |- *. cbv zeta in Hg.
  rewrite Ho, Hg, Hp, Hd. cbn [negb].
  destruct (to_slot _ _ (ic_timed _ _ _ Hc) i Hi Ho) as (w & Hw & _ & He & Hk & Hid & _). fold s in Hw, He, Hk, Hid.
  pose proof (ic_waiter _ _ _ Hc _ _ Hw) as Hwo. pose proof (wo_kind _ _ _ _ Hwo) as Hik.
  pose proof (finish_spec k l C _ w THREAD_WAIT_RESULT_TIMED_OUT Hc Hw Hp eq_refl) as Hfin.
  rewrite <- He, <- Hk, <- Hid in Hfin. rewrite <- Hk in Hik. unfold lapse_at.
  destruct (w_kind s) eqn:Ek; try done.
  - by rewrite Hfin.
  - rewrite Hfin. pose proof (wo_valid _ _ _ _ Hwo) as Hv. pose proof (wo_thread _ _ _ _ Hwo) as Hth.
    rewrite <- He, <- Hk in Hth. rewrite <- He in Hv. waiting_simpl.
    assert (e_waiting_sender_message_ready (ept k (w_endpoint s)) = true) as ->.
    { apply (iw_ept _ _ _ Hwf _ Hv). rewrite Hth. split; [|done]. by apply (waiter_nonnull _ _ _ _ Hwo). }
    done.
Qed.

Lemma poll_idle k l C now i :
  ipc_wf k l C -> timed_index i -> expired k now i = false -> poll_slot now k i = Some k.
Proof.
  intros Hwf Hi Hx. unfold poll_slot. destruct (w_occupied (timed_at k i)) eqn:Ho; [|done].
  rewrite (poll_guard k l C i (iw_core _ _ _ Hwf) Hi Ho). cbn [negb]. unfold expired in Hx. rewrite Ho in Hx.
  destruct (pending k _); [|done]. cbn in Hx |- *. by rewrite Hx.
Qed.

Lemma lapse_ept_ok k k' e kind t :
  ept_ok k e -> ept k' e = lapse kind (ept k e) -> waiting_thread (ept k e) kind = t -> ipc_kind kind = true ->
  (forall u, t_wait_result (thr k' u) = if decide (u = t) then THREAD_WAIT_RESULT_TIMED_OUT
                                        else t_wait_result (thr k u)) ->
  (kind = THREAD_WAIT_IPC_RECEIVE -> e_waiting_sender (ept k e) <> t) -> ept_ok k' e.
Proof.
  intros [H1 H2 Hfull H3] He Ht Hk Hr Hne.
  assert (forall u, pending k' u = true -> pending k u = true) as Hmono.
  { intros u. rewrite !pending_iff, Hr. case_decide; done. }
  assert (pending k' t = false) as Hpt by (unfold pending; rewrite Hr; by rewrite decide_True).
  assert (forall u, u <> t -> pending k' u = pending k u) as Hother
    by (intros u Hu; apply pending_ext; rewrite Hr; by rewrite decide_False).
  assert (forall u, pending k u = false -> pending k' u = false) as Hmono'.
  { intros u Hu. destruct (pending k' u) eqn:E; [|done]. apply Hmono in E. congruence. }
  destruct kind; try done;
    [change (lapse THREAD_WAIT_IPC_RECEIVE (ept k e)) with (ept k e) in He
    |change (lapse THREAD_WAIT_IPC_SEND (ept k e)) with (unstaged (ept k e)) in He];
    split; rewrite He; cbn; waiting_simpl.
  - rewrite Hother by auto. exact H1.
  - exact H2.
  - exact Hfull.
  - intros Hc. destruct (H3 Hc) as (? & ? & ?). auto.
  - split; [done|]. rewrite Ht, Hpt. by intros [_ ?].
  - done.
  - done.
  - intros Hc. destruct (H3 Hc) as (? & ? & ?). auto.
Qed.

Lemma poll_slot_spec k l C now i :
  ipc_wf k l C -> timed_index i ->
  exists k' l', poll_slot now k i = Some k' /\ ipc_wf k' l' C /\ keeps_sched k k' l l' /\
    im_timed_waits (k_ipc k') = im_timed_waits (k_ipc k) /\
    (forall t, t_wait_result (thr k' t) =
       if expired k now i && (t =? w_thread (timed_at k i)) then THREAD_WAIT_RESULT_TIMED_OUT
       else t_wait_result (thr k t)) /\
    (expired k now i = true -> w_thread (timed_at k i) ∈ l') /\
    (forall e, mailbox (ept k' e) = mailbox (ept k e)).
Proof.
  intros Hwf Hi. pose proof (iw_core _ _ _ Hwf) as Hc. destruct (expired k now i) eqn:Hx.
  2: { exists k, l. rewrite (poll_idle k l C) by done. by split_and!. }
  rewrite (poll_expired k l C) by done. unfold expired in Hx.
  apply andb_true_iff in Hx as [Hx _]. apply andb_true_iff in Hx as [Ho _].
  destruct (to_slot _ _ (ic_timed _ _ _ Hc) i Hi Ho) as (w & Hw & _ & He & Hk & Hid & _).
  set (s := timed_at k i) in *. set (t := w_thread s) in *. set (e := w_endpoint s) in *.
  pose proof (ic_waiter _ _ _ Hc _ _ Hw) as Hwo.
  set (k1 := set_thr t (fun t => t <| t_wait_result := THREAD_WAIT_RESULT_TIMED_OUT |>) k).
  set (k2 := lapse_at (w_kind s) e k1).
  assert (quiet k k2 /\ ipc_frame k k2) as [Hq Hf].
  { split; [apply (quiet_trans k k1); [apply quiet_result|]|apply (frame_trans k k1); [apply frame_result|]];
      unfold k2, lapse_at; destruct (bool_decide _); try done; by apply frame_ept. }
  assert (forall u, t_wait_result (thr k2 u) =
    if decide (u = t) then THREAD_WAIT_RESULT_TIMED_OUT else t_wait_result (thr k u)) as Hr2.
  { intros u. assert (thr k2 u = thr k1 u) as -> by (unfold k2, lapse_at; by destruct (bool_decide _)).
    unfold k1. rewrite result_set. repeat case_decide; congruence. }
  destruct (wake_after k k2 l t (ic_sched _ _ _ Hc) Hq (wo_where _ _ _ _ Hwo))
    as (k3 & l3 & Hm & Hwf3 & Hca & Hin & Hks).
  unfold make_ready_or_halt. rewrite Hm. exists k3, l3.
  assert (forall u, t_wait_result (thr k3 u) =
    if decide (u = t) then THREAD_WAIT_RESULT_TIMED_OUT else t_wait_result (thr k u)) as Hr3
    by (intros u; by rewrite (result_calm _ _ u Hca)).
  assert (forall e', ept k3 e' = if decide (e' = e) then lapse (w_kind s) (ept k e) else ept k e') as He3
    by (intros e'; rewrite (ept_calm _ _ e' Hca); apply (lapse_ept (w_kind s) e k1)).
  split; [done|]. assert (ipc_frame k k3) as Hf3 by (eapply frame_trans; [exact Hf|by apply calm_frame]).
  split_and!; try done; [|apply Hf3| |].
  - apply (endpoint_step k k3 l l3 C e Hwf); try done; [apply Hks| | |].
    + intros e' Hne. rewrite He3. by rewrite decide_False.
    + intros u. rewrite Hr3. case_decide; [right; exists w; subst; unfold result_fits; by rewrite andb_false_r|by left].
    + intros Hv. apply (lapse_ept_ok k k3 e (w_kind s) t); try done.
      * by apply Hwf.
      * rewrite He3. by rewrite decide_True.
      * rewrite Hk, He. apply Hwo.
      * rewrite Hk. apply Hwo.
      * intros Hkr Hs.
        destruct (registered_waiter k l C e THREAD_WAIT_IPC_SEND Hc Hv eq_refl) as (w' & Hw' & _ & Hk' & _).
        { waiting_simpl. rewrite (proj1 (waiting_send _)), Hs. apply negb_true_iff, Z.eqb_neq.
          by apply (waiter_nonnull _ _ _ _ Hwo). }
        rewrite (proj1 (waiting_send _)), Hs, Hw in Hw'. simplify_eq. congruence.
  - intros u. rewrite Hr3. cbn [andb]. destruct (Z.eqb_spec u t); [by rewrite decide_True|by rewrite decide_False].
  - intros e'. rewrite He3. case_decide; [subst e'|done]. unfold lapse. by destruct (bool_decide _).
Qed.

(** The thread of one of the slots [L] times out. *)
Definition times_out (k : Kernel) (now : Z) (L : list Z) (t : Z) : bool :=
  existsb (fun i => expired k now i && (t =? w_thread (timed_at k i))) L.

Lemma expired_later k k1 l C now i j :
  ipc_core k l C -> timed_index i -> timed_index j -> i <> j -> expired k now i = true ->
  im_timed_waits (k_ipc k1) = im_timed_waits (k_ipc k) ->
  (forall t, t_wait_result (thr k1 t) =
     if t =? w_thread (timed_at k i) then THREAD_WAIT_RESULT_TIMED_OUT else t_wait_result (thr k t)) ->
  timed_at k1 j = timed_at k j /\ expired k1 now j = expired k now j.
Proof.
  intros Hc Hi Hj Hne Hx Ht Hr. assert (timed_at k1 j = timed_at k j) as Ej by (unfold timed_at; by rewrite Ht).
  split; [done|]. unfold expired in *. rewrite Ej. destruct (w_occupied (timed_at k j)) eqn:Ho; [|done]. cbn [andb].
  f_equal. apply pending_ext. rewrite Hr. destruct (Z.eqb_spec (w_thread (timed_at k j)) (w_thread (timed_at k i))) as [E|]; [|done].
  exfalso. apply Hne. apply (to_unique _ _ (ic_timed _ _ _ Hc)); try done.
  by repeat (apply andb_true_iff in Hx as [Hx _]).
Qed.

Lemma times_out_ext k k1 now L t :
  (forall j, j ∈ L -> timed_at k1 j = timed_at k j /\ expired k1 now j = expired k now j) ->
  times_out k1 now L t = times_out k now L t.
Proof.
  unfold times_out. induction L as [|j L IH]; intros H; [done|]. cbn.
  destruct (H j) as [-> ->]; [set_solver|]. f_equal. apply IH. intros. apply H. set_solver.
Qed.

Lemma poll_list_spec now L k l C :
  ipc_wf k l C -> NoDup L -> (forall i, i ∈ L -> timed_index i) ->
  exists k' l', foldl (fun k i => k ← k; poll_slot now k i) (Some k) L = Some k' /\ ipc_wf k' l' C /\
    keeps_sched k k' l l' /\ im_timed_waits (k_ipc k') = im_timed_waits (k_ipc k) /\
    (forall t, t_wait_result (thr k' t) =
       if times_out k now L t then THREAD_WAIT_RESULT_TIMED_OUT else t_wait_result (thr k t)) /\
    (forall t, times_out k now L t = true -> t ∈ l') /\
    (forall e, mailbox (ept k' e) = mailbox (ept k e)).
Proof.
  revert k l. induction L as [|i L IH]; intros k l Hwf Hnd Hix.
  - exists k, l. by split_and!.
  - apply list.NoDup_cons in Hnd as [Hni Hnd].
    assert (timed_index i) as Hi by (apply Hix; set_solver).
    destruct (poll_slot_spec k l C now i Hwf Hi) as (k1 & l1 & H1 & Hwf1 & Hks1 & Ht1 & Hr1 & Hq1 & Hm1).
    cbn [foldl mbind option_bind]. rewrite H1.
    destruct (IH k1 l1 Hwf1 Hnd) as (k2 & l2 & H2 & Hwf2 & Hks2 & Ht2 & Hr2 & Hq2 & Hm2); [intros; apply Hix; set_solver|].
    exists k2, l2. split; [done|]. split; [done|]. split; [by eapply keeps_trans|]. split; [congruence|].
    assert (forall t, times_out k1 now L t = times_out k now L t) as Hto.
    { intros t. apply times_out_ext. intros j Hj. assert (i <> j) as Hne by (intros ->; done).
      assert (timed_index j) as Hji by (apply Hix; set_solver).
      destruct (expired k now i) eqn:Hx; [by apply (expired_later k k1 l C now i j), Hr1; try done; apply Hwf|].
      assert (timed_at k1 j = timed_at k j) as Ej by (unfold timed_at; by rewrite Ht1).
      split; [done|]. unfold expired. rewrite Ej. do 2 f_equal. apply pending_ext. by rewrite Hr1. }
    assert (forall t, times_out k now (i :: L) t = (expired k now i && (t =? w_thread (timed_at k i))) || times_out k now L t) as Hcons
      by done.
    split_and!; [| |intros e; by rewrite Hm2].
    + intros t. rewrite Hr2, Hto, Hr1, Hcons. destruct (times_out k now L t); [by rewrite orb_true_r|].
      by rewrite orb_false_r.
    + intros t. rewrite Hcons. intros [Ht|Ht]%orb_true_iff.
      * apply andb_true_iff in Ht as [Hx Et]. apply Z.eqb_eq in Et. subst t. by apply Hks2, Hq1.
      * apply Hq2. by rewrite Hto.
Qed.

Definition timed_indices : list Z := seqZ 0 IPC_TIMED_WAIT_CAPACITY.

Lemma poll_spec now k l C :
  ipc_wf k l C ->
  exists k' l', ipc_timeout_poll now k = Some k' /\ ipc_wf k' l' C /\ keeps_sched k k' l l' /\
    im_timed_waits (k_ipc k') = im_timed_waits (k_ipc k) /\
    (forall t, t_wait_result (thr k' t) =
       if times_out k now timed_indices t then THREAD_WAIT_RESULT_TIMED_OUT else t_wait_result (thr k t)) /\
    (forall t, times_out k now timed_indices t = true -> t ∈ l') /\
    (forall e, mailbox (ept k' e) = mailbox (ept k e)).
Proof.
  intros Hwf. apply poll_list_spec; [done|apply NoDup_seqZ|].
  intros i. unfold timed_indices. rewrite elem_of_seqZ. unfold timed_index. lia.
Qed.

(** * Reserving *)

Definition waits_for (kind : ThreadWaitKind) (e id : Z) (t : Thread) : Thread :=
  t <| t_wait_kind := kind |> <| t_wait_result := THREAD_WAIT_RESULT_PENDING |> <| t_wait_object := e |>
    <| t_wait_id := id |>.

Definition next_wait (id : Z) (m : ThreadMod) : ThreadMod := m <| tm_next_wait_id := u64 (id + 1) |>.

(** [thread_wait_begin] at the current thread, then the endpoint's links [g]. *)
Definition reserve (t e : Z) (kind : ThreadWaitKind) (id : Z) (g : Endpoint -> Endpoint) (k : Kernel) : Kernel :=
  set_ept e g (set_tm (next_wait id) (set_thr t (waits_for kind e id) k)).

(** [g] registers [t] for [kind] and leaves the rest of the links. *)
Record links (g : Endpoint -> Endpoint) (kind : ThreadWaitKind) (t id : Z) : Prop := {
  lk_id : forall E, e_id (g E) = e_id E;
  lk_init : forall E, e_initialized (g E) = e_initialized E;
  lk_thread : forall E kind', ipc_kind kind' = true ->
    waiting_thread (g E) kind' = if decide (kind' = kind) then t else waiting_thread E kind';
  lk_wait : forall E kind', ipc_kind kind' = true ->
    waiting_id (g E) kind' = if decide (kind' = kind) then id else waiting_id E kind' }.

Lemma begin_at k l t kind e k1 :
  sched_wf k l -> thread_wait_begin t kind e k = (true, k1) ->
  exists id, k1 = set_tm (next_wait id) (set_thr t (waits_for kind e id) k) /\ id <> 0 /\
    t = current_of k /\ t ∈ l /\ thread_known k t = true /\ nz e = true /\ t <> 0 /\
    nz (t_wait_id (thr k t)) = false.
Proof.
  intros Hs. unfold thread_wait_begin. if_case; [done|]. if_case; [done|]. if_case; [done|]. intros H. simplify_eq.
  exists (tm_next_wait_id (k_thr k)). repeat (apply orb_false_iff in E as [E ?]).
  apply orb_false_iff in E0 as [E0 Hq]. apply negb_false_iff in E0, Hq. unfold state_is in E0.
  apply bool_decide_eq_true in E0. bool_prop.
  destruct (wf_running _ _ Hs t E0) as [Hid Ht].
  assert (thread_known k t = true) as Hkn.
  { unfold thread_known. unfold nz. rewrite (proj2 (Z.eqb_neq _ _)) by done.
    rewrite (wf_tinit _ _ Hs).
    by match goal with H : thread_storage_live k t = true |- _ => rewrite H end. }
  split_and!; try done.
  - rewrite Ht. by apply (wf_current _ _ Hs).
  - unfold nz. by apply negb_true_iff, Z.eqb_neq.
  - intros ->. pose proof (wf_current _ _ Hs Hid) as [Hin _]. rewrite <- Ht in Hin.
    by destruct (rl_nonnull _ _ (wf_list _ _ Hs)).
  - unfold thread_wait_active in E1. rewrite Hkn in E1. cbn [negb] in E1. by apply orb_false_iff in E1 as [_ E1].
Qed.

(** A thread without a wait identity waits for nothing. *)
Lemma matches_idle k t kind o id : nz (t_wait_id (thr k t)) = false -> thread_wait_matches_id k t kind o id = false.
Proof.
  intros E. unfold thread_wait_matches_id, thread_wait_matches. rewrite E. cbn [negb].
  rewrite !orb_true_r. by rewrite andb_false_r.
Qed.

Lemma begin_spec k l C t kind e k1 :
  ipc_core k l C -> thread_wait_begin t kind e k = (true, k1) ->
  exists id, k1 = set_tm (next_wait id) (set_thr t (waits_for kind e id) k) /\ id <> 0 /\
    t = current_of k /\ t ∈ l /\ C !! t = None /\ thread_known k t = true /\ nz e = true /\ t <> 0.
Proof.
  intros Hc Hb. destruct (begin_at k l t kind e k1 (ic_sched _ _ _ Hc) Hb) as (id & ? & ? & ? & ? & ? & ? & ? & Hw0).
  exists id. split_and!; try done. destruct (C !! t) as [w|] eqn:Hw; [|done]. exfalso.
  pose proof (wo_match _ _ _ _ (ic_waiter _ _ _ Hc _ _ Hw)) as Hm. by rewrite matches_idle in Hm.
Qed.

Lemma reserve_thr k t e kind id g u :
  thr (reserve t e kind id g k) u = if decide (t = u) then waits_for kind e id (thr k t) else thr k u.
Proof. unfold reserve. apply (thr_set k t u). Qed.

Lemma reserve_ept k t e kind id g x :
  ept (reserve t e kind id g k) x = if decide (e = x) then g (ept k e) else ept k x.
Proof. unfold reserve. apply (ept_set (set_tm _ (set_thr t _ k)) e x). Qed.

Lemma reserve_quiet k t e kind id g : quiet k (reserve t e kind id g k).
Proof.
  assert (forall u, sched_fields (thr (reserve t e kind id g k) u) = sched_fields (thr k u)) as Hs.
  { intros u. rewrite reserve_thr. case_decide; [subst|]; done. }
  split; try done. split; try done. intros u. specialize (Hs u). unfold sched_fields in Hs. congruence.
Qed.

Section Reserve.
  Context {k : Kernel} {l : list Z} {C : gmap Z Waiting} {t e id : Z} {kind : ThreadWaitKind}
    {g : Endpoint -> Endpoint}.
  Hypothesis Hwf : ipc_wf k l C.
  Hypothesis Hv : ipc_endpoint_valid k e = true.
  Hypothesis Hk : ipc_kind kind = true.
  Hypothesis Hid : id <> 0.
  Hypothesis Ht0 : t <> 0.
  Hypothesis Hin : t ∈ l.
  Hypothesis Hknown : thread_known k t = true.
  Hypothesis Hnew : C !! t = None.
  Hypothesis Hfree : waiting_thread (ept k e) kind = 0.
  Hypothesis Hg : links g kind t id.

  Local Notation w := (mkWaiting e kind id false).
  Local Notation k' := (reserve t e kind id g k).

Lemma reserve_valid x : ipc_endpoint_valid k' x = ipc_endpoint_valid k x.
Proof using All.
  apply endpoint_valid_ext; [done| |]; rewrite reserve_ept; case_decide; try done; subst; apply Hg.
Qed.

(** The threads registered before are not [t]. *)
Lemma reserve_others x kind' :
  ipc_endpoint_valid k x = true -> ipc_kind kind' = true -> waiting_thread (ept k x) kind' <> t.
Proof using All.
  intros Hvx Hk'. destruct (ic_endpoint _ _ _ (iw_core _ _ _ Hwf) x kind' Hvx Hk') as [[-> _]|(v & Hw & _)]; congruence.
Qed.

Lemma reserve_waiter u v : C !! u = Some v -> waiter_ok k' l u v.
Proof using All.
  intros Hu. pose proof (ic_waiter _ _ _ (iw_core _ _ _ Hwf) u v Hu) as Ho.
  pose proof (waiter_nonnull _ _ _ _ Ho) as Hnz. assert (t <> u) as Hne by (intros ->; congruence).
  destruct Ho as [H1 H2 H3 H4 H5 H6 H7].
  assert (thr k' u = thr k u) as Eu by (rewrite reserve_thr; by rewrite decide_False).
  assert (waiting_thread (ept k' (wt_endpoint v)) (wt_kind v) = u /\
          waiting_id (ept k' (wt_endpoint v)) (wt_kind v) = wt_id v) as [E1 E2].
  { rewrite reserve_ept. case_decide as Ee; [|done]. rewrite (lk_thread _ _ _ _ Hg), (lk_wait _ _ _ _ Hg) by done.
    rewrite Ee. case_decide as Ekk; [|done]. exfalso. rewrite Ee, <- Ekk in Hfree. congruence. }
  split; try done.
  - by rewrite reserve_valid.
  - rewrite (matches_ext k); try done; by rewrite Eu.
  - by rewrite Eu.
  - apply (located_quiet k); [apply reserve_quiet|done].
Qed.

Lemma reserve_new : waiter_ok k' l t w.
Proof using All.
  assert (thr k' t = waits_for kind e id (thr k t)) as Et by (rewrite reserve_thr; by rewrite decide_True).
  assert (ept k' e = g (ept k e)) as Ee by (rewrite reserve_ept; by rewrite decide_True).
  destruct (valid_facts _ _ Hv) as (_ & _ & _ & He0).
  split; cbn [wt_kind wt_endpoint wt_id]; try done.
  - by rewrite reserve_valid.
  - assert (thread_known k' t = true) as Hkn'.
    { unfold thread_known in *. rewrite Et. exact Hknown. }
    unfold thread_wait_matches_id, thread_wait_matches. rewrite Hkn', He0, Et. cbn.
    unfold nz. rewrite (proj2 (Z.eqb_neq id 0)) by done. rewrite !Z.eqb_refl.
    rewrite bool_decide_eq_true_2 by done. by destruct kind.
  - rewrite Et. unfold result_fits. by rewrite andb_false_r.
  - by left.
  - rewrite Ee, (lk_thread _ _ _ _ Hg) by done. by rewrite decide_True.
  - rewrite Ee, (lk_wait _ _ _ _ Hg) by done. by rewrite decide_True.
Qed.

Lemma reserve_timed : timed_ok k' (<[t := w]> C).
Proof using All.
  destruct (ic_timed _ _ _ (iw_core _ _ _ Hwf)) as [H1 H2 H3 H4]. split; try done.
  - intros i Hi Ho. destruct (H2 i Hi Ho) as (v & Hc & Hr). exists v.
    assert (t <> w_thread (timed_at k i)) as Hne by (intros E; rewrite <- E in Hc; congruence).
    change (timed_at k' i) with (timed_at k i). rewrite lookup_insert_ne by done. split; [done|].
    unfold registers in *. rewrite reserve_thr, reserve_ept. rewrite (decide_False (P := t = _)) by done.
    case_decide as Ee; [|done]. rewrite (lk_id _ _ _ _ Hg). by rewrite Ee.
  - intros u v. destruct (decide (t = u)) as [->|Hne]; [rewrite lookup_insert_eq|by rewrite lookup_insert_ne by done; apply H4].
    intros. by simplify_eq.
Qed.

Lemma reserve_core : ipc_core k' l (<[t := w]> C).
Proof using All.
  pose proof (iw_core _ _ _ Hwf) as Hc. split.
  - apply (quiet_sched k); [apply reserve_quiet|apply Hc].
  - apply Hc.
  - apply Hc.
  - intros u v. destruct (decide (t = u)) as [<-|Hne].
    + rewrite lookup_insert_eq. intros. simplify_eq. apply reserve_new.
    + rewrite lookup_insert_ne by done. apply reserve_waiter.
  - intros u. destruct (decide (t = u)) as [<-|Hne]; [by rewrite lookup_insert_eq|].
    rewrite lookup_insert_ne by done. intros Hu. rewrite reserve_thr, decide_False by done. by apply Hc.
  - intros x kind'. rewrite reserve_valid. intros Hvx Hk'. pose proof (reserve_others x kind' Hvx Hk') as Ho.
    pose proof (ic_endpoint _ _ _ Hc x kind' Hvx Hk') as Hx.
    rewrite reserve_ept. case_decide as Ee.
    + subst x. rewrite (lk_thread _ _ _ _ Hg), (lk_wait _ _ _ _ Hg) by done.
      case_decide; [right; exists w; subst; by rewrite lookup_insert_eq|].
      destruct Hx as [?|(v & ? & ? & ?)]; [by left|right]. exists v. by rewrite lookup_insert_ne.
    + destruct Hx as [?|(v & ? & ? & ?)]; [by left|right]. exists v. by rewrite lookup_insert_ne.
  - apply reserve_timed.
Qed.

Lemma reserve_wf : ept_ok k' e -> ipc_wf k' l (<[t := w]> C).
Proof using All.
  intros Hok. split; [apply reserve_core|]. intros x. rewrite reserve_valid. intros Hvx.
  destruct (decide (e = x)) as [<-|Hne]; [done|].
  apply (ept_ok_ext k); [rewrite reserve_ept; by rewrite decide_False| |by apply Hwf].
  intros kind' Hk'. apply pending_ext. rewrite reserve_thr, decide_False; [done|].
  intros E. by apply (reserve_others x kind' Hvx Hk').
Qed.

End Reserve.

(** * Timeout registration *)

Definition timed_write (ws : list IpcTimedWait) (k : Kernel) : Kernel :=
  set_im (fun m => m <| im_timed_waits := ws |>) k.

(** Rewriting the table and the timeout flag of one continuation. *)
Lemma retime_wf k l C t w w' ws :
  ipc_wf k l C -> C !! t = Some w ->
  wt_endpoint w' = wt_endpoint w -> wt_kind w' = wt_kind w -> wt_id w' = wt_id w ->
  timed_ok (timed_write ws k) (<[t := w']> C) -> ipc_wf (timed_write ws k) l (<[t := w']> C).
Proof.
  intros [Hc He] Hw E1 E2 E3 Ht. split; [split|].
  - by apply (quiet_sched k), Hc.
  - apply Hc.
  - apply Hc.
  - intros u v. destruct (decide (t = u)) as [<-|Hne].
    + rewrite lookup_insert_eq. intros. simplify_eq.
      destruct (ic_waiter _ _ _ Hc _ _ Hw) as [? ? ? ? ? ? ?]. split; unfold result_fits; rewrite ?E1, ?E2, ?E3; done.
    + rewrite lookup_insert_ne by done. intros Hu.
      destruct (ic_waiter _ _ _ Hc _ _ Hu) as [? ? ? ? ? ? ?]. by split.
  - intros u. destruct (decide (t = u)) as [<-|Hne]; [by rewrite lookup_insert_eq|].
    rewrite lookup_insert_ne by done. apply Hc.
  - intros x kind Hv Hk. destruct (ic_endpoint _ _ _ Hc x kind Hv Hk) as [?|(v & Hl & Hx & Hkk)]; [by left|right].
    change (ept (timed_write ws k) x) with (ept k x).
    destruct (decide (t = waiting_thread (ept k x) kind)) as [E|Hne].
    + rewrite <- E, lookup_insert_eq. rewrite <- E, Hw in Hl. simplify_eq. exists w'. split_and!; congruence.
    + rewrite lookup_insert_ne by done. by exists v.
  - done.
  - intros x Hv. destruct (He x Hv) as [? ? ? ?]. by split.
Qed.

Lemma timed_at_write k i s j :
  Z.of_nat (length (im_timed_waits (k_ipc k))) = IPC_TIMED_WAIT_CAPACITY -> timed_index i -> timed_index j ->
  timed_at (set_timed i s k) j = if decide (i = j) then s else timed_at k j.
Proof.
  unfold timed_index, IPC_TIMED_WAIT_CAPACITY, ENDPOINT_STORAGE_CAPACITY. intros Hl Hi Hj.
  change (timed_at (set_timed i s k) j) with (<[Z.to_nat i := s]> (im_timed_waits (k_ipc k)) !!! Z.to_nat j).
  case_decide as E; [subst|].
  - apply list_lookup_total_insert_eq. lia.
  - apply list_lookup_total_insert_ne. lia.
Qed.

Lemma timed_length k i s :
  length (im_timed_waits (k_ipc (set_timed i s k))) = length (im_timed_waits (k_ipc k)).
Proof. apply length_insert. Qed.

Lemma timed_scan_spec k t e kind id L empty j :
  timed_scan t e kind id k L empty = Some j ->
  (forall i, i ∈ L -> w_occupied (timed_at k i) = true -> w_thread (timed_at k i) <> t) /\
  (j = empty \/ (j ∈ L /\ w_occupied (timed_at k j) = false)).
Proof.
  revert empty. induction L as [|i L IH]; cbn; intros empty H.
  - simplify_eq. split; [|by left]. intros i Hi. by apply not_elem_of_nil in Hi.
  - destruct (w_occupied (timed_at k i)) eqn:Ho; cbn [negb] in H.
    + destruct (_ || _) eqn:Hd in H; [done|]. apply orb_false_iff in Hd as [Hd _]. apply Z.eqb_neq in Hd.
      destruct (IH _ H) as [H1 H2]. split.
      * intros x [->|Hx]%elem_of_cons; [done|]. by apply H1.
      * destruct H2 as [?|[? ?]]; [by left|right; set_solver].
    + destruct (IH _ H) as [H1 H2]. split.
      * intros x [->|Hx]%elem_of_cons; [congruence|]. by apply H1.
      * destruct H2 as [->|[? ?]]; [|right; set_solver]. case_match; [right; set_solver|by left].
Qed.

Lemma register_spec k l C t w ticks :
  ipc_wf k l C -> C !! t = Some w -> wt_timed w = false ->
  let '(b, k') := ipc_timeout_register t (wt_endpoint w) (wt_kind w) (wt_id w) ticks k in
  if b then ipc_wf k' l (<[t := mkWaiting (wt_endpoint w) (wt_kind w) (wt_id w) true]> C) /\
            quiet k k' /\ ipc_endpoint_valid k' (wt_endpoint w) = true
  else k' = k.
Proof.
  intros Hwf Hw Htm. unfold ipc_timeout_register. if_case; [done|].
  destruct (timed_scan _ _ _ _ _ _ _) as [j|] eqn:Hs; [|done]. if_case; [done|]. apply Z.eqb_neq in E0.
  apply timed_scan_spec in Hs as [Hnone [?|[Hj Hfree]]]; [done|]. rewrite elem_of_seqZ in Hj.
  assert (timed_index j) as Hji by (unfold timed_index; lia).
  pose proof (ic_timed _ _ _ (iw_core _ _ _ Hwf)) as [H1 H2 H3 H4].
  assert (forall i, timed_index i -> w_occupied (timed_at k i) = true -> w_thread (timed_at k i) <> t) as Hn.
  { intros i Hi. apply Hnone. rewrite elem_of_seqZ. unfold timed_index in Hi. lia. }
  set (s := mkIpcTimedWait _ _ _ _ _ _ _ _). set (w' := mkWaiting _ _ _ true).
  assert (forall i, timed_index i -> timed_at (set_timed j s k) i = if decide (j = i) then s else timed_at k i) as Ha
    by (intros; by apply timed_at_write).
  split_and!; [|done|by apply (ic_waiter _ _ _ (iw_core _ _ _ Hwf) _ _ Hw)].
  apply (retime_wf k l C t w w' _ Hwf Hw); try done. split.
  - etrans; [|exact H1]. f_equal. apply timed_length.
  - intros i Hi. rewrite Ha by done. case_decide; subst.
    + intros _. exists w'. cbn. rewrite lookup_insert_eq. split; [done|]. unfold registers. by cbn.
    + intros Ho. destruct (H2 i Hi Ho) as (v & Hv & Hr). exists v. rewrite lookup_insert_ne; [done|].
      intros E'. by apply (Hn i).
  - intros i i' Hi Hi'. rewrite !Ha by done. repeat case_decide; subst; try done.
    + intros _ Ho Et. cbn in Et. destruct (Hn i' Hi' Ho). congruence.
    + intros Ho _ Et. cbn in Et. by destruct (Hn i Hi Ho).
    + by apply H3.
  - intros u v. destruct (decide (t = u)) as [<-|Hne].
    + intros _ _. exists j. rewrite Ha by done. by rewrite decide_True.
    + rewrite lookup_insert_ne by done. intros Hu Hv. destruct (H4 u v Hu Hv) as (i & Hi & Ho & Et).
      exists i. split; [done|]. rewrite Ha by done. rewrite decide_False; [done|]. intros ->. congruence.
Qed.

Definition untimed (w : Waiting) : Waiting := mkWaiting (wt_endpoint w) (wt_kind w) (wt_id w) false.

Lemma timed_match_thread k t e kind id i :
  timed_matches k t e kind id i = true -> w_occupied (timed_at k i) = true /\ w_thread (timed_at k i) = t.
Proof.
  unfold timed_matches. intros H. apply andb_true_iff in H as [H _]. apply andb_true_iff in H as [H _].
  apply andb_true_iff in H as [H _]. apply andb_true_iff in H as [? ?%Z.eqb_eq]. done.
Qed.

Lemma unregister_spec k l C t w :
  ipc_wf k l C -> C !! t = Some w ->
  let '(b, k') := ipc_timeout_unregister t (wt_endpoint w) (wt_kind w) (wt_id w) k in
  b = wt_timed w /\ ipc_wf k' l (<[t := untimed w]> C) /\ quiet k k' /\
  (exists ws, k' = timed_write ws k).
Proof.
  intros Hwf Hw. pose proof (ic_timed _ _ _ (iw_core _ _ _ Hwf)) as [H1 H2 H3 H4].
  unfold ipc_timeout_unregister.
  destruct (List.find _ _) as [j|] eqn:Hf.
  - apply List.find_some in Hf as [Hj Hm]. apply list_elem_of_In, elem_of_seqZ in Hj.
    destruct (timed_match_thread _ _ _ _ _ _ Hm) as [Ho Et].
    assert (timed_index j) as Hji by (unfold timed_index; lia).
    destruct (H2 j Hji Ho) as (v & Hv & Hr). rewrite Et, Hw in Hv. simplify_eq.
    split; [symmetry; apply Hr|]. split; [|split; [done|by eexists]].
    assert (forall i, timed_index i -> timed_at (set_timed j timed_wait_zero k) i =
              if decide (j = i) then timed_wait_zero else timed_at k i) as Ha by (intros; by apply timed_at_write).
    apply (retime_wf k l C _ v (untimed v) _ Hwf Hw); try done. split.
    + etrans; [|exact H1]. f_equal. apply timed_length.
    + intros i Hi. rewrite Ha by done. case_decide; [done|]. intros Hoi.
      destruct (H2 i Hi Hoi) as (u & Hu & Hru). exists u. rewrite lookup_insert_ne; [done|].
      intros E. by destruct (H3 i j Hi Hji Hoi Ho).
    + intros i i' Hi Hi'. rewrite !Ha by done. repeat case_decide; try done. by apply H3.
    + intros u x. destruct (decide (w_thread (timed_at k j) = u)) as [<-|Hne].
      * rewrite lookup_insert_eq. intros. by simplify_eq.
      * rewrite lookup_insert_ne by done. intros Hu Hx. destruct (H4 u x Hu Hx) as (i & Hi & Hoi & Eti).
        exists i. split; [done|]. rewrite Ha by done. rewrite decide_False; [done|]. intros ->. congruence.
  - assert (wt_timed w = false) as Htm.
    { destruct (wt_timed w) eqn:Htm; [|done]. exfalso. destruct (H4 t w Hw Htm) as (i & Hi & Ho & Et).
      destruct (H2 i Hi Ho) as (v & Hv & _ & E1 & E2 & E3 & _). rewrite Et, Hw in Hv. simplify_eq.
      apply (List.find_none _ _) with (x := i) in Hf.
      - unfold timed_matches in Hf. rewrite Ho, E1, E2, E3, !Z.eqb_refl, bool_decide_eq_true_2 in Hf; done.
      - apply list_elem_of_In, elem_of_seqZ. unfold timed_index in Hi. lia. }
    split; [done|]. split; [|split; [done|]].
    + rewrite insert_id; [done|]. rewrite Hw. f_equal. unfold untimed. rewrite <- Htm. by destruct w.
    + exists (im_timed_waits (k_ipc k)). unfold timed_write, set_im. by destruct k as [? ? ? ? ? ? ? ? ? ? ? ? ? ? ? ? [] ?].
Qed.

(** * Release *)

Definition unregistered (kind : ThreadWaitKind) (e : Endpoint) : Endpoint :=
  if bool_decide (kind = THREAD_WAIT_IPC_RECEIVE)
  then e <| e_waiting_receiver := 0 |> <| e_waiting_receiver_id := 0 |>
  else unstaged (e <| e_waiting_sender := 0 |> <| e_waiting_sender_id := 0 |>).

Lemma clear_waiting_ept e kind k x :
  ept (clear_waiting e kind k) x = if decide (e = x) then unregistered kind (ept k e) else ept k x.
Proof.
  unfold clear_waiting, unregistered, drop_staged. destruct (bool_decide _); rewrite !ept_set;
    repeat case_decide; try done.
Qed.

Lemma unregistered_links kind : ipc_kind kind = true -> links (unregistered kind) kind 0 0.
Proof.
  intros Hk. split; intros E; unfold unregistered; destruct kind; try done; cbn; intros kind' Hk';
    destruct kind'; done.
Qed.

Section Release.
  Context {k : Kernel} {l : list Z} {C : gmap Z Waiting} {t : Z} {w : Waiting}.
  Hypothesis Hwf : ipc_wf k l C.
  Hypothesis Hw : C !! t = Some w.
  Hypothesis Htm : wt_timed w = false.

  Local Notation e := (wt_endpoint w).
  Local Notation kind := (wt_kind w).
  Local Notation k' := (clear_waiting (wt_endpoint w) (wt_kind w) (wait_clear t k)).

Lemma release_thr u : thr k' u = if decide (t = u) then wait_cleared (thr k t) else thr k u.
Proof using. unfold clear_waiting. destruct (bool_decide _); apply (thr_set k t u). Qed.

Lemma release_ept x : ept k' x = if decide (e = x) then unregistered kind (ept k e) else ept k x.
Proof using. by rewrite clear_waiting_ept. Qed.

Lemma release_kind : ipc_kind kind = true.
Proof using Hwf Hw. apply (ic_waiter _ _ _ (iw_core _ _ _ Hwf) _ _ Hw). Qed.

Lemma release_quiet : quiet k k'.
Proof using.
  apply (quiet_trans k (wait_clear t k)); [by apply quiet_thr|]. unfold clear_waiting. by destruct (bool_decide _).
Qed.

Lemma release_fixed :
  k_ept k' = k_ept k /\ k_ipc k' = k_ipc k /\ tm_storage (k_thr k') = tm_storage (k_thr k) /\
  tm_initialized (k_thr k') = tm_initialized (k_thr k).
Proof using. unfold clear_waiting. by destruct (bool_decide _). Qed.

Lemma release_valid x : ipc_endpoint_valid k' x = ipc_endpoint_valid k x.
Proof using All.
  pose proof (unregistered_links kind release_kind) as Hg. destruct release_fixed as (E & _).
  apply endpoint_valid_ext; [by rewrite E| |]; rewrite release_ept; case_decide as Ee; try done;
    rewrite <- Ee; apply Hg.
Qed.

(** Other continuations are at another endpoint or of the other kind. *)
Lemma release_other u v : C !! u = Some v -> u <> t -> wt_endpoint v = e -> wt_kind v <> kind.
Proof using All.
  intros Hu Hne He Hk. apply Hne. by apply (waiter_unique k l C u v t w (iw_core _ _ _ Hwf)).
Qed.

Lemma release_waiter u v : C !! u = Some v -> u <> t -> waiter_ok k' l u v.
Proof using All.
  intros Hu Hne. destruct (ic_waiter _ _ _ (iw_core _ _ _ Hwf) u v Hu) as [H1 H2 H3 H4 H5 H6 H7].
  pose proof (unregistered_links kind release_kind) as Hg.
  assert (thr k' u = thr k u) as Eu by (rewrite release_thr; by rewrite decide_False).
  destruct release_fixed as (_ & _ & Es & Ei).
  assert (waiting_thread (ept k' (wt_endpoint v)) (wt_kind v) = u /\
          waiting_id (ept k' (wt_endpoint v)) (wt_kind v) = wt_id v) as [E1 E2].
  { rewrite release_ept. case_decide as Ee; [|done].
    rewrite (lk_thread _ _ _ _ Hg), (lk_wait _ _ _ _ Hg) by done.
    rewrite decide_False by (by apply (release_other u v)). rewrite decide_False by (by apply (release_other u v)).
    by rewrite Ee. }
  split; try done; [by rewrite release_valid|rewrite (matches_ext k); try done; by rewrite Eu|by rewrite Eu|].
  apply (located_quiet k); [apply release_quiet|done].
Qed.

Lemma release_timed : timed_ok k' (delete t C).
Proof using All.
  destruct (ic_timed _ _ _ (iw_core _ _ _ Hwf)) as [H1 H2 H3 H4]. destruct release_fixed as (_ & Ei & _).
  assert (forall i, timed_at k' i = timed_at k i) as Ha by (intros; unfold timed_at; by rewrite Ei).
  pose proof (unregistered_links kind release_kind) as Hg.
  split; [by rewrite Ei| | |].
  - intros i Hi. rewrite Ha. intros Ho. destruct (H2 i Hi Ho) as (v & Hv & Hr).
    assert (t <> w_thread (timed_at k i)) as Hne.
    { intros E. rewrite <- E, Hw in Hv. simplify_eq. destruct Hr as (Hr & _). congruence. }
    exists v. rewrite lookup_delete_ne by done. split; [done|]. unfold registers in *.
    rewrite release_thr, release_ept, (decide_False (P := t = _)) by done.
    case_decide as Ee; [|done]. rewrite (lk_id _ _ _ _ Hg). by rewrite Ee.
  - intros i j. rewrite !Ha. apply H3.
  - intros u v Hu. setoid_rewrite Ha. apply H4. by apply lookup_delete_Some in Hu as [_ ?].
Qed.

Lemma release_core : ipc_core k' l (delete t C).
Proof using All.
  pose proof (iw_core _ _ _ Hwf) as Hc. pose proof (unregistered_links kind release_kind) as Hg. split.
  - apply (quiet_sched k); [apply release_quiet|apply Hc].
  - destruct release_fixed as (-> & _). apply Hc.
  - destruct release_fixed as (-> & _). apply Hc.
  - intros u v [Hne Hu]%lookup_delete_Some. by apply release_waiter.
  - intros u Hu. rewrite release_thr. case_decide; [by subst|]. apply Hc. by rewrite lookup_delete_ne in Hu.
  - intros x kind'. rewrite release_valid. intros Hv Hk'.
    pose proof (ic_endpoint _ _ _ Hc x kind' Hv Hk') as Hx. rewrite release_ept. case_decide as Ee.
    + subst x. rewrite (lk_thread _ _ _ _ Hg), (lk_wait _ _ _ _ Hg) by done.
      case_decide as Ekk; [by left|]. destruct Hx as [?|(v & Hv' & Hve & Hvk)]; [by left|right]. exists v.
      rewrite lookup_delete_ne; [done|]. intros E. rewrite <- E, Hw in Hv'. simplify_eq.
    + destruct Hx as [?|(v & Hv' & Hve & Hvk)]; [by left|right]. exists v.
      rewrite lookup_delete_ne; [done|]. intros E. rewrite <- E, Hw in Hv'. simplify_eq.
  - apply release_timed.
Qed.

(** Registered threads other than [t] keep their outcome. *)
Lemma release_pending u : u <> t -> pending k' u = pending k u.
Proof using. intros Hne. apply pending_ext. rewrite release_thr. by rewrite decide_False. Qed.

Lemma release_ept_ok : ept_ok k' e.
Proof using All.
  pose proof (iw_core _ _ _ Hwf) as Hc. destruct (ic_waiter _ _ _ Hc _ _ Hw) as [Hk Hv _ _ _ Hth _].
  destruct (iw_ept _ _ _ Hwf e Hv) as [H1 H2 Hfull H3].
  assert (forall kind', ipc_kind kind' = true -> kind' <> kind -> waiting_thread (ept k e) kind' <> t) as Hoth.
  { intros kind' Hk' Hne E. destruct (ic_endpoint _ _ _ Hc e kind' Hv Hk') as [[H0 _]|(v & Hv' & _ & Hvk)].
    - destruct (waiter_nonnull _ _ _ _ (ic_waiter _ _ _ Hc _ _ Hw)). congruence.
    - rewrite E, Hw in Hv'. by simplify_eq. }
  assert (ept k' e = unregistered kind (ept k e)) as Ee by (rewrite release_ept; by rewrite decide_True).
  destruct kind eqn:Ekind; try done.
  - pose proof (Hoth THREAD_WAIT_IPC_SEND eq_refl ltac:(done)) as Hs. waiting_simpl.
    change (unregistered THREAD_WAIT_IPC_RECEIVE (ept k e)) with
      ((ept k e) <| e_waiting_receiver := 0 |> <| e_waiting_receiver_id := 0 |>) in Ee.
    rewrite <- Ekind in Ee |- *. split; rewrite Ee; cbn.
    + rewrite release_pending by done. exact H1.
    + exact H2.
    + exact Hfull.
    + intros Hcl. destruct (H3 Hcl) as (? & ? & ?). split_and!; [done|done|]. rewrite release_pending by done. done.
  - pose proof (Hoth THREAD_WAIT_IPC_RECEIVE eq_refl ltac:(done)) as Hs. waiting_simpl.
    change (unregistered THREAD_WAIT_IPC_SEND (ept k e)) with
      (unstaged ((ept k e) <| e_waiting_sender := 0 |> <| e_waiting_sender_id := 0 |>)) in Ee.
    rewrite <- Ekind in Ee |- *. split; rewrite Ee; cbn.
    + split; [done|]. by intros [? _].
    + done.
    + done.
    + intros Hcl. destruct (H3 Hcl) as (? & ? & ?). split_and!; [done| |done]. rewrite release_pending by done. done.
Qed.

Lemma reservation_release_wf : ipc_wf k' l (delete t C).
Proof using All.
  split; [apply release_core|]. intros x. rewrite release_valid. intros Hv.
  destruct (decide (e = x)) as [<-|Hne]; [apply release_ept_ok|].
  apply (ept_ok_ext k); [rewrite release_ept; by rewrite decide_False| |by apply Hwf].
  intros kind' Hk'. apply release_pending. 
  apply (waits_elsewhere k l C t w x kind' (iw_core _ _ _ Hwf) Hw Hv Hk'). congruence.
Qed.

End Release.
