(* ===== verification/IpcCalls.v ===== *)
(** The blocking calls, the diagnostic hook and aborts keep the invariant and
    do not halt. *)

From S2P Require Import Prelude Pmm ObjectStorage Kernel Objects Capability.
From S2P Require Import Endpoint Thread Ring Scheduler SchedulerProofs SchedulerWf.
From S2P Require Import SchedulerOps Ipc IpcWf IpcOps IpcReserve.

Open Scope jcos_scope.

(** A write IPC's invariant does not read. *)
Lemma wf_same k k' l C :
  ipc_wf k l C -> sched_wf k' l -> (forall t, located k l t -> located k' l t) -> ipc_frame k k' ->
  (forall e, ept k' e = ept k e) -> (forall t, t_wait_result (thr k' t) = t_wait_result (thr k t)) ->
  ipc_wf k' l C.
Proof.
  intros Hwf Hs Hl Hf He Hr. apply (endpoint_step k k' l l C 0 Hwf Hf Hs Hl).
  - intros e _. apply He.
  - intros t. left. apply Hr.
  - intros (_ & _ & _ & H)%valid_facts. done.
Qed.

Lemma im_sched k l f : sched_wf k l -> sched_wf (set_im f k) l.
Proof.
  intros Hwf. apply (sched_wf_rebuild k _ l l Hwf); try done; try apply Hwf.
  apply (run_list_frame k); [done|done|apply Hwf].
Qed.

Lemma wf_hook k l C f : ipc_wf k l C -> ipc_wf (set_before_park f k) l C.
Proof. intros Hwf. apply (wf_same k); try done. apply im_sched, Hwf. Qed.

Lemma wf_park k l C : ipc_wf k l C -> ipc_wf (count_park k) l C.
Proof. intros Hwf. apply (wf_same k); try done. apply im_sched, Hwf. Qed.

(** * The flow of messages

    A log records which messages an endpoint accepted and delivered, that the
    accepted message was the one of the blocked sender [t] ([LCommit]), that the
    blocked send of [t] returned true ([LReport]), and that such a send was
    aborted after its message had been accepted ([LForgo]). *)

Inductive IpcLog :=
  | LAccept (e : Z) (m : IpcMessage)
  | LDeliver (e : Z) (m : IpcMessage)
  | LCommit (e t : Z)
  | LReport (e t : Z)
  | LForgo (e t : Z).

Definition accepted (e : Z) (log : list IpcLog) : list IpcMessage :=
  omap (fun x => match x with LAccept e' m => if e' =? e then Some m else None | _ => None end) log.

Definition delivered (e : Z) (log : list IpcLog) : list IpcMessage :=
  omap (fun x => match x with LDeliver e' m => if e' =? e then Some m else None | _ => None end) log.

Definition commits (e t : Z) (x : IpcLog) : bool :=
  match x with LCommit e' t' => (e' =? e) && (t' =? t) | _ => false end.

Definition reports (e t : Z) (x : IpcLog) : bool :=
  match x with LReport e' t' => (e' =? e) && (t' =? t) | _ => false end.

Definition forgoes (e t : Z) (x : IpcLog) : bool :=
  match x with LForgo e' t' => (e' =? e) && (t' =? t) | _ => false end.

Definition tally (f : IpcLog -> bool) (log : list IpcLog) : nat := length (List.filter f log).

Lemma tally_app f log1 log2 : tally f (log1 ++ log2) = (tally f log1 + tally f log2)%nat.
Proof. unfold tally. by rewrite List.filter_app, length_app. Qed.

Definition mail (e : Endpoint) : list IpcMessage := if e_message_ready e then [e_message e] else [].

(** What was in the mailbox and what was accepted is what was delivered and
    what is in the mailbox, in this order; closing discards. *)
Record flow (k k' : Kernel) (log : list IpcLog) : Prop := {
  fl_mail : forall e, e_closed (ept k' e) = true \/
    mail (ept k e) ++ accepted e log = delivered e log ++ mail (ept k' e);
  fl_closed : forall e, e_closed (ept k e) = true -> e_closed (ept k' e) = true }.

Lemma flow_trans k k1 k2 log1 log2 : flow k k1 log1 -> flow k1 k2 log2 -> flow k k2 (log1 ++ log2).
Proof.
  intros [M1 C1] [M2 C2]. split; [|auto]. intros e. destruct (M2 e) as [?|E2]; [by left|].
  destruct (M1 e) as [?|E1]; [by left; apply C2|]. right. unfold accepted, delivered in *.
  rewrite !omap_app, app_assoc, E1, <- !app_assoc. by rewrite E2.
Qed.

Lemma flow_same k k' : (forall e, mailbox (ept k' e) = mailbox (ept k e)) -> flow k k' [].
Proof.
  intros H. split; intros e; specialize (H e); unfold mailbox in H; injection H as E1 E2 E3.
  - right. unfold mail. by rewrite E1, E2, app_nil_r.
  - congruence.
Qed.

(** The message of the blocked send of [t] at [e] has been accepted and the
    call has yet to return. *)
Definition owed (k : Kernel) (e t : Z) : bool :=
  bool_decide (t_wait_kind (thr k t) = THREAD_WAIT_IPC_SEND) && (t_wait_object (thr k t) =? e)
  && bool_decide (t_wait_result (thr k t) = THREAD_WAIT_RESULT_COMPLETED).

(** Blocked sends report exactly what was accepted. *)
Definition ledger (k k' : Kernel) (log : list IpcLog) : Prop := forall e t,
  (Nat.b2n (owed k e t) + tally (commits e t) log =
   tally (reports e t) log + tally (forgoes e t) log + Nat.b2n (owed k' e t))%nat.

Definition moves (k k' : Kernel) (log : list IpcLog) : Prop := flow k k' log /\ ledger k k' log.

Lemma moves_trans k k1 k2 log1 log2 : moves k k1 log1 -> moves k1 k2 log2 -> moves k k2 (log1 ++ log2).
Proof.
  intros [F1 L1] [F2 L2]. split; [by eapply flow_trans|]. intros e t. specialize (L1 e t). specialize (L2 e t).
  rewrite !tally_app. lia.
Qed.

Lemma ledger_nil k k' : (forall e t, owed k' e t = owed k e t) -> ledger k k' [].
Proof. intros Ho e t. rewrite Ho. unfold tally. cbn. lia. Qed.

Lemma owed_ext k k' e t : wait_fields (thr k' t) = wait_fields (thr k t) -> owed k' e t = owed k e t.
Proof. unfold owed, wait_fields. intros Hf. injection Hf as _ _ -> -> -> _. done. Qed.

(** Nothing is moved by a step that keeps mailboxes and wait records. *)
Lemma moves_same k k' :
  (forall e, mailbox (ept k' e) = mailbox (ept k e)) -> (forall t, wait_fields (thr k' t) = wait_fields (thr k t)) ->
  moves k k' [].
Proof. intros He Ht. split; [by apply flow_same|]. apply ledger_nil. intros e t. by apply owed_ext. Qed.

Lemma moves_refl k : moves k k [].
Proof. by apply moves_same. Qed.

(** In a well-formed state the continuations say who is owed a report. *)
Lemma owed_waiter k l C e t :
  ipc_core k l C -> owed k e t =
    match C !! t with
    | Some w => bool_decide (wt_kind w = THREAD_WAIT_IPC_SEND) && (wt_endpoint w =? e)
                && bool_decide (t_wait_result (thr k t) = THREAD_WAIT_RESULT_COMPLETED)
    | None => false
    end.
Proof.
  intros Hc. unfold owed. destruct (C !! t) as [w|] eqn:Hw.
  - pose proof (wo_match _ _ _ _ (ic_waiter _ _ _ Hc _ _ Hw)) as Hm.
    unfold thread_wait_matches_id, thread_wait_matches in Hm. apply andb_true_iff in Hm as [Hm _].
    apply andb_true_iff in Hm as [_ Hm]. if_case_in Hm; [done|]. apply andb_true_iff in Hm as [Ek Eo].
    apply bool_decide_eq_true in Ek. apply Z.eqb_eq in Eo. by rewrite Ek, Eo.
  - pose proof (ic_other _ _ _ Hc t Hw) as Hk. rewrite bool_decide_eq_false_2; [done|]. intros E. by rewrite E in Hk.
Qed.

Definition completed (k : Kernel) (t : Z) : bool :=
  bool_decide (t_wait_result (thr k t) = THREAD_WAIT_RESULT_COMPLETED).

Lemma completed_pending k t : pending k t = true -> completed k t = false.
Proof. rewrite pending_iff. unfold completed. by intros ->. Qed.

Lemma owed_results k k' l l' C :
  ipc_core k l C -> ipc_core k' l' C -> (forall t, completed k' t = completed k t) ->
  forall e t, owed k' e t = owed k e t.
Proof.
  intros Hc Hc' Hr e t. rewrite (owed_waiter k l C), (owed_waiter k' l' C) by done. specialize (Hr t).
  unfold completed in Hr. by rewrite Hr.
Qed.

(** Logs from the results of the calls. *)
Definition send_log (e : Z) (m : IpcMessage) (sent : bool) : list IpcLog :=
  if sent then [LAccept e (stored m)] else [].

Definition receive_log (k : Kernel) (e : Z) (r : option IpcMessage) : list IpcLog :=
  match r with
  | Some m => LDeliver e m ::
      (if e_waiting_sender_message_ready (ept k e)
       then [LAccept e (stored (e_waiting_sender_message (ept k e))); LCommit e (e_waiting_sender (ept k e))] else [])
  | None => []
  end.

Lemma flow_send k k' e m :
  (forall e', ept k' e' = if decide (e' = e) then filled m (ept k e) else ept k e') ->
  e_message_ready (ept k e) = false -> flow k k' (send_log e m true).
Proof.
  intros He Hr. split; intros x; rewrite He; case_decide as Ex; subst; try done.
  - right. unfold mail, accepted, delivered. cbn. by rewrite Hr, Z.eqb_refl.
  - right. unfold mail, accepted, delivered. cbn. rewrite (proj2 (Z.eqb_neq _ _)) by done. by rewrite app_nil_r.
Qed.

Lemma flow_receive k k' e :
  (forall e', ept k' e' = if decide (e' = e) then after_receive (ept k e) else ept k e') ->
  e_message_ready (ept k e) = true -> flow k k' (receive_log k e (Some (e_message (ept k e)))).
Proof.
  intros He Hr. split; intros x; rewrite He; case_decide as Ex; subst; try done.
  - right. unfold mail, accepted, delivered, receive_log, after_receive. rewrite Hr. cbn. rewrite Z.eqb_refl.
    destruct (e_waiting_sender_message_ready (ept k e)); cbn; [by rewrite Z.eqb_refl|done].
  - right. unfold mail, accepted, delivered, receive_log. cbn. rewrite (proj2 (Z.eqb_neq _ _)) by done.
    destruct (e_waiting_sender_message_ready (ept k e)); cbn;
      rewrite ?(proj2 (Z.eqb_neq _ _)) by done; by rewrite app_nil_r.
  - unfold after_receive. by destruct (e_waiting_sender_message_ready (ept k e)).
Qed.

(** A receive owes the sender whose message it commits a report. *)
Lemma ledger_receive k k' l l' C e m :
  ipc_wf k l C -> ipc_wf k' l' C -> ipc_endpoint_valid k e = true ->
  (forall t, t_wait_result (thr k' t) =
     if committed k e t then THREAD_WAIT_RESULT_COMPLETED else t_wait_result (thr k t)) ->
  ledger k k' (receive_log k e (Some m)).
Proof.
  intros Hwf Hwf' Hv Hres x t. pose proof (iw_core _ _ _ Hwf) as Hc.
  rewrite (owed_waiter k l C), (owed_waiter k' l' C) by (done || apply Hwf').
  rewrite Hres. unfold receive_log, committed. destruct (e_waiting_sender_message_ready (ept k e)) eqn:Hst; cbn [andb].
  2: { unfold tally. cbn. lia. }
  destruct (staged_sender k l C e Hwf Hv Hst) as (w & Hw & He & Hk & _ & _ & Hp). unfold tally. cbn.
  destruct (Z.eqb_spec t (e_waiting_sender (ept k e))) as [->|Hne].
  - rewrite Hw, Hk, He, Z.eqb_refl. apply pending_iff in Hp. rewrite Hp. cbn. rewrite andb_true_r. by destruct (e =? x).
  - rewrite (proj2 (Z.eqb_neq (e_waiting_sender (ept k e)) t)) by done. rewrite andb_false_r. cbn. lia.
Qed.

(** * No lost wake-ups

    A waiter whose outcome is settled is on the run list, and so is a receiver
    whose message has arrived. *)

Definition awake {A} (k : Kernel) (l : list Z) (C : gmap Z A) : Prop :=
  forall t w, C !! t = Some w -> pending k t = true \/ t ∈ l.

Lemma awake_step {A} k k' l l' (C C' : gmap Z A) :
  (forall t, t ∈ l -> t ∈ l') ->
  (forall t w', C' !! t = Some w' -> t ∈ l' \/
     (exists w, C !! t = Some w) /\ (pending k t = true -> pending k' t = true \/ t ∈ l')) ->
  awake k l C -> awake k' l' C'.
Proof.
  intros Hl HC Ha t w' Hw'. destruct (HC t w' Hw') as [?|[[w Hw] Hp]]; [by right|].
  destruct (Ha t w Hw) as [H|H]; [by apply Hp|right; by apply Hl].
Qed.

(** Outcomes change only for threads on the run list. *)
Lemma awake_results {A} k k' l l' (C : gmap Z A) :
  (forall t, t ∈ l -> t ∈ l') ->
  (forall t, t_wait_result (thr k' t) = t_wait_result (thr k t) \/ t ∈ l') ->
  awake k l C -> awake k' l' C.
Proof.
  intros Hl Hr. apply awake_step; [done|]. intros t w Hw. right. split; [by exists w|].
  destruct (Hr t) as [E|?]; [|by right]. left. by rewrite (pending_ext _ _ _ E).
Qed.

Lemma awake_same {A} k k' l (C : gmap Z A) :
  (forall t, t_wait_result (thr k' t) = t_wait_result (thr k t)) -> awake k l C -> awake k' l C.
Proof. intros Hr. apply awake_results; [done|]. intros t. by left. Qed.

Definition prompt (k : Kernel) (l : list Z) (C : gmap Z Waiting) : Prop :=
  forall t w, C !! t = Some w -> wt_kind w = THREAD_WAIT_IPC_RECEIVE ->
    e_message_ready (ept k (wt_endpoint w)) = true -> t ∈ l.

Lemma prompt_step k k' l l' C C' :
  (forall t, t ∈ l -> t ∈ l') ->
  (forall t w', C' !! t = Some w' -> t ∈ l' \/
     exists w, C !! t = Some w /\ wt_kind w = wt_kind w' /\ wt_endpoint w = wt_endpoint w') ->
  (forall x, e_message_ready (ept k' x) = true -> e_message_ready (ept k x) = true) ->
  prompt k l C -> prompt k' l' C'.
Proof.
  intros Hl HC He Hp t w' Hw' Hk Hr. destruct (HC t w' Hw') as [?|(w & Hw & E1 & E2)]; [done|].
  apply Hl, (Hp t w Hw); [congruence|]. rewrite E2. by apply He.
Qed.

Lemma prompt_same k k' l l' C :
  (forall t, t ∈ l -> t ∈ l') -> (forall x, e_message_ready (ept k' x) = true -> e_message_ready (ept k x) = true) ->
  prompt k l C -> prompt k' l' C.
Proof. intros Hl He. apply prompt_step; [done| |done]. intros t w Hw. right. by exists w. Qed.

Definition wakes (k : Kernel) (l : list Z) (C : gmap Z Waiting) (k' : Kernel) (l' : list Z) (C' : gmap Z Waiting) : Prop :=
  (awake k l C -> awake k' l' C') /\ (prompt k l C -> prompt k' l' C').

Lemma wakes_refl k l C : wakes k l C k l C.
Proof. done. Qed.

Lemma wakes_trans k l C k1 l1 C1 k2 l2 C2 : wakes k l C k1 l1 C1 -> wakes k1 l1 C1 k2 l2 C2 -> wakes k l C k2 l2 C2.
Proof. intros [? ?] [? ?]. split; auto. Qed.

Lemma wakes_same k k' l C :
  (forall t, t_wait_result (thr k' t) = t_wait_result (thr k t)) ->
  (forall x, e_message_ready (ept k' x) = e_message_ready (ept k x)) -> wakes k l C k' l C.
Proof. intros Hr He. split; [by apply awake_same|]. apply prompt_same; [done|]. intros x. by rewrite He. Qed.

(** * Leaving a wait *)

Definition settled_as (t : Z) (r : ThreadWaitResult) (k : Kernel) : Kernel :=
  set_thr t (fun t => t <| t_wait_result := r |>) k.

Lemma settled_id k t r :
  t_wait_result (thr k t) = r -> r <> THREAD_WAIT_RESULT_NONE -> settled_as t r k = k.
Proof.
  intros Hr Hn. unfold settled_as, set_thr, thr in *. destruct (k_threads k !! t) as [x|] eqn:E; [|done].
  cbn in *. rewrite insert_id; [by destruct k|]. rewrite E. f_equal. rewrite <- Hr. by destruct x.
Qed.

Lemma clear_settled k t r : wait_clear t (settled_as t r k) = wait_clear t k.
Proof.
  unfold wait_clear, settled_as, set_thr. cbn. unfold thr at 1. cbn. rewrite lookup_insert_eq. cbn.
  by rewrite insert_insert_eq.
Qed.

(** The timeout table does not depend on the threads. *)
Lemma unregister_thr k t f u e kind id :
  ipc_timeout_unregister u e kind id (set_thr t f k) =
    let '(b, k') := ipc_timeout_unregister u e kind id k in (b, set_thr t f k').
Proof.
  unfold ipc_timeout_unregister. change (timed_matches (set_thr t f k)) with (timed_matches k).
  by destruct (List.find _ _).
Qed.

(** The code's checks of a reservation accept any settled outcome. *)
Lemma reservation_settled k t r e kind :
  wait_terminal r = true -> ipc_reservation_valid k e kind = true ->
  ipc_reservation_valid (settled_as t r k) e kind = true.
Proof.
  intros Hr Hv. unfold ipc_reservation_valid in *. change (ept (settled_as t r k)) with (ept k).
  set (u := waiting_thread (ept k e) kind) in *.
  rewrite (frame_matches k (settled_as t r k)) by apply frame_result.
  change (thread_current (settled_as t r k)) with (thread_current k). unfold state_is, settled_as.
  rewrite thr_set. case_decide as E; [|done]. clearbody u. subst u. upd_simpl. unfold state_is in Hv.
  destruct (negb (nz t)); [done|]. destruct (thread_wait_matches_id _ _ _ _ _); [|done].
  assert (ipc_result_valid r = true) as -> by (by destruct r). cbn [negb orb].
  destruct (ipc_result_valid _); done.
Qed.

Lemma matches_fst k t kind e id :
  thread_wait_matches_id k t kind e id = true -> thread_wait_matches k t kind e = true.
Proof.
  unfold thread_wait_matches_id. intros H. apply andb_true_iff in H as [H _]. by apply andb_true_iff in H as [_ ?].
Qed.

Lemma clear_waiting_ready e kind k x : e_message_ready (ept (clear_waiting e kind k) x) = e_message_ready (ept k x).
Proof. rewrite clear_waiting_ept. case_decide as E; [subst x|done]. unfold unregistered. by destruct (bool_decide _). Qed.

Lemma wakes_release k k3 l (C : gmap Z Waiting) t e kind :
  (forall u, thr k3 u = thr k u) -> (forall x, ept k3 x = ept k x) ->
  wakes k l C (clear_waiting e kind (wait_clear t k3)) l (delete t C).
Proof.
  intros Hk Hx. split.
  2: { apply prompt_step; [done| |].
       - intros u w Hu. apply lookup_delete_Some in Hu as [_ Hu]. right. by exists w.
       - intros x. rewrite clear_waiting_ready. change (ept (wait_clear t k3) x) with (ept k3 x). by rewrite Hx. }
  apply awake_step; [done|]. intros u w Hu. apply lookup_delete_Some in Hu as [Hne Hu]. right.
  split; [by exists w|]. intros Hp. left. unfold pending in *.
  assert (forall k0, thr (clear_waiting e kind k0) u = thr k0 u) as ->
    by (intros; unfold clear_waiting; if_case; reflexivity).
  unfold wait_clear. rewrite thr_set, decide_False by done. by rewrite Hk.
Qed.

(** Release of the current thread's reservation once its outcome is [r]. *)
Lemma end_spec k l C t w r :
  ipc_wf k l C -> C !! t = Some w -> t = current_of k -> idle k = false -> wait_terminal r = true ->
  exists k', ipc_end_reservation t (wt_endpoint w) (wt_kind w) (wt_id w) (wt_timed w) (settled_as t r k) = Some k' /\
    ipc_wf k' l (delete t C) /\ quiet k k' /\
    (forall x, ept k' x = if decide (wt_endpoint w = x) then unregistered (wt_kind w) (ept k x) else ept k x) /\
    (forall u, u <> t -> t_wait_result (thr k' u) = t_wait_result (thr k u)) /\
    wakes k l C k' l (delete t C).
Proof.
  intros Hwf Hw Ht Hid Hr. pose proof (iw_core _ _ _ Hwf) as Hc.
  destruct (ic_waiter _ _ _ Hc _ _ Hw) as [Hk Hv Hm _ _ _ _].
  assert (thread_wait_matches_id (settled_as t r k) t (wt_kind w) (wt_endpoint w) (wt_id w) = true) as Hm1
    by (rewrite (frame_matches k); [done|apply frame_result]).
  unfold ipc_end_reservation.
  rewrite Hm1, (reservation_settled k t r _ _ Hr (reservation_valid _ l C _ _ Hc Hv Hk)). cbn [negb orb].
  pose proof (unregister_spec k l C t w Hwf Hw) as Hu.
  destruct (ipc_timeout_unregister t (wt_endpoint w) (wt_kind w) (wt_id w) k) as [b k2] eqn:Eu.
  destruct Hu as (-> & Hwf2 & Hq2 & ws & ->).
  assert (exists ws', (if wt_timed w then
      match ipc_timeout_unregister t (wt_endpoint w) (wt_kind w) (wt_id w) (settled_as t r k) with
      | (true, k) => Some k | (false, _) => None end else Some (settled_as t r k)) =
      Some (settled_as t r (timed_write ws' k)) /\ ipc_wf (timed_write ws' k) l (<[t := untimed w]> C))
    as (ws' & -> & Hwf3).
  { destruct (wt_timed w) eqn:Htm.
    - exists ws. unfold settled_as. rewrite unregister_thr, Eu. done.
    - exists (im_timed_waits (k_ipc k)).
      assert (timed_write (im_timed_waits (k_ipc k)) k = k) as ->
        by (unfold timed_write, set_im; by destruct k as [? ? ? ? ? ? ? ? ? ? ? ? ? ? ? ? [] ?]).
      split; [done|]. rewrite insert_id; [done|]. rewrite Hw. f_equal. unfold untimed. rewrite <- Htm. by destruct w. }
  cbn [mbind option_bind]. clear Eu Hwf2 Hq2 ws. set (k3 := timed_write ws' k) in *.
  assert (thread_wait_end t (wt_kind w) (wt_endpoint w) (settled_as t r k3) = (true, wait_clear t k3)) as ->.
  { unfold thread_wait_end. fold (current_of (settled_as t r k3)).
    change (current_of (settled_as t r k3)) with (current_of k). rewrite <- Ht, Z.eqb_refl.
    change (thread_wait_matches (settled_as t r k3)) with (thread_wait_matches (settled_as t r k)).
    rewrite (matches_fst _ _ _ _ _ Hm1). unfold state_is, settled_as. rewrite thr_set, decide_True by done.
    destruct (wf_current _ _ (ic_sched _ _ _ Hc) Hid) as [_ Hrun]. rewrite <- Ht in Hrun.
    change (thr k3 t) with (thr k t). upd_simpl. rewrite Hrun, Hr. cbn. f_equal. apply clear_settled. }
  eexists. split; [done|].
  assert ((<[t := untimed w]> C) !! t = Some (untimed w)) as Hw3 by apply lookup_insert_eq.
  pose proof (reservation_release_wf Hwf3 Hw3 eq_refl) as Hrel. rewrite delete_insert_eq in Hrel.
  split; [exact Hrel|]. split.
  - apply (quiet_trans k k3); [done|]. apply release_quiet.
  - split_and!; [intros x; rewrite clear_waiting_ept; case_decide; [by subst|done]| |by apply wakes_release].
    intros u Hu. rewrite release_thr. by rewrite decide_False.
Qed.

(** * Calls by capability *)

(** A step that keeps the invariant and the processor, with its log. *)
Definition steps_to (k : Kernel) (l : list Z) (C : gmap Z Waiting) (log : list IpcLog) (k' : Kernel) : Prop :=
  exists l', ipc_wf k' l' C /\ keeps_sched k k' l l' /\ moves k k' log /\ wakes k l C k' l' C.

Lemma flow_refl k : flow k k [].
Proof. by apply flow_same. Qed.

Lemma steps_refl k l C : ipc_wf k l C -> steps_to k l C [] k.
Proof. intros H. exists l. split_and!; [done|apply keeps_refl|apply moves_refl|apply wakes_refl]. Qed.

Lemma send_possible_ready k e m : send_possible k e m = true -> e_message_ready (ept k e) = false.
Proof.
  unfold send_possible. intros H. apply andb_true_iff in H as [H _]. apply andb_true_iff in H as [_ H].
  by apply negb_true_iff in H.
Qed.

Lemma receive_possible_ready k e t : receive_possible k e t = true -> e_message_ready (ept k e) = true.
Proof. unfold receive_possible. intros H. by apply andb_true_iff in H as [_ H]. Qed.

Lemma send_locked_call k l C e m :
  ipc_wf k l C -> exists b k', ipc_send_locked e m k = Some (b, k') /\ steps_to k l C (send_log e m b) k'.
Proof.
  intros Hwf. pose proof (send_locked_spec k l C e m Hwf) as Hs. destruct (send_possible k e m) eqn:Hp.
  - destruct Hs as (k' & l' & Hs & Hwf' & Hk & He & Hres & Hq). eexists _, k'. split; [done|]. exists l'.
    split_and!; try done; [split; [apply flow_send; [done|by apply (send_possible_ready k e m)]|]|split].
    + intros x t. rewrite (owed_results k k' l l' C); [unfold tally; cbn; lia|apply Hwf|apply Hwf'|].
      intros u. unfold completed. by rewrite Hres.
    + apply awake_results; [apply Hk|]. intros t. by left.
    + intros Hpr t w Hw Ek. rewrite He. case_decide as Ex.
      * intros _. pose proof (ic_waiter _ _ _ (iw_core _ _ _ Hwf) _ _ Hw) as Ho. pose proof (wo_thread _ _ _ _ Ho) as Hth.
        rewrite Ek, Ex in Hth. waiting_simpl. rewrite <- Hth. apply Hq. rewrite Hth. by apply (waiter_nonnull _ _ _ _ Ho).
      * intros Hr. by apply (ks_queued _ _ _ _ Hk), (Hpr t w).
  - eexists _, k. split; [done|by apply steps_refl].
Qed.

Lemma receive_wakes k k' l l' C e :
  keeps_sched k k' l l' -> e_message_ready (ept k e) = true ->
  (forall e', ept k' e' = if decide (e' = e) then after_receive (ept k e) else ept k e') ->
  (forall t, t_wait_result (thr k' t) =
     if committed k e t then THREAD_WAIT_RESULT_COMPLETED else t_wait_result (thr k t)) ->
  (forall t, committed k e t = true -> t ∈ l') -> wakes k l C k' l' C.
Proof.
  intros Hk Hrd He Hres Hq. split.
  - apply awake_results; [apply Hk|]. intros u. rewrite Hres. destruct (committed k e u) eqn:Hcm; [right; by apply Hq|by left].
  - apply prompt_same; [apply Hk|]. intros x. rewrite He. case_decide; [by subst|done].
Qed.

Lemma receive_locked_call k l C e t :
  ipc_wf k l C -> exists r k', ipc_receive_locked e t k = Some (r, k') /\ steps_to k l C (receive_log k e r) k'.
Proof.
  intros Hwf. pose proof (receive_locked_spec k l C e t Hwf) as Hs. destruct (receive_possible k e t) eqn:Hp.
  - destruct Hs as (k' & l' & Hs & Hwf' & Hk & He & Hres & Hq). eexists _, k'. split; [done|]. exists l'.
    pose proof (receive_possible_ready k e t Hp) as Hrd.
    split_and!; try done; [split; [by apply flow_receive|]|by apply (receive_wakes k k' l l' C e)].
    apply (ledger_receive k k' l l' C e); try done. unfold receive_possible in Hp.
    by do 3 (apply andb_true_iff in Hp as [Hp _]).
  - eexists _, k. split; [done|by apply steps_refl].
Qed.

Lemma try_send_call k l C p h m :
  ipc_wf k l C -> exists b k', ipc_try_send p h m k = Some (b, k') /\
    steps_to k l C (send_log (ipc_resolve_endpoint k p h CAPABILITY_RIGHT_SEND) m b) k'.
Proof.
  intros Hwf. unfold ipc_try_send. if_case; [eexists _, _; split; [done|by apply steps_refl]|].
  if_case; [eexists _, _; split; [done|by apply steps_refl]|]. by apply send_locked_call.
Qed.

Lemma try_receive_call k l C p h :
  ipc_wf k l C -> exists r k', ipc_try_receive p h k = Some (r, k') /\
    steps_to k l C (receive_log k (ipc_resolve_endpoint k p h CAPABILITY_RIGHT_RECEIVE) r) k'.
Proof.
  intros Hwf. unfold ipc_try_receive. if_case; [eexists _, _; split; [done|by apply steps_refl]|].
  by apply receive_locked_call.
Qed.

Lemma close_wakes k k' l l' C e :
  keeps_sched k k' l l' ->
  (forall e', ept k' e' = if decide (e' = e) then shut (ept k e) else ept k e') ->
  (forall t, t_wait_result (thr k' t) =
     if waits_at k e t && pending k t then THREAD_WAIT_RESULT_PEER_CLOSED else t_wait_result (thr k t)) ->
  (forall t, waits_at k e t = true -> t ∈ l') -> wakes k l C k' l' C.
Proof.
  intros Hk He Hres Hq. split.
  - apply awake_results; [apply Hk|]. intros t. rewrite Hres.
    destruct (waits_at k e t) eqn:Hat; [right; by apply Hq|by left].
  - apply prompt_same; [apply Hk|]. intros x. rewrite He. by case_decide.
Qed.

(** Closing commits and reports nothing. *)
Lemma close_moves k k' l l' C e :
  ipc_wf k l C -> ipc_wf k' l' C ->
  (forall e', ept k' e' = if decide (e' = e) then shut (ept k e) else ept k e') ->
  (forall t, t_wait_result (thr k' t) =
     if waits_at k e t && pending k t then THREAD_WAIT_RESULT_PEER_CLOSED else t_wait_result (thr k t)) ->
  moves k k' [].
Proof.
  intros Hwf Hwf' He Hres. split.
  - split; intros x; rewrite He; case_decide; try done; [by left|right]. by rewrite app_nil_r.
  - apply ledger_nil, (owed_results k k' l l' C); [apply Hwf|apply Hwf'|]. intros t. unfold completed. rewrite Hres.
    destruct (waits_at k e t); [|done]. destruct (pending k t) eqn:Hp; [|done]. apply pending_iff in Hp. by rewrite Hp.
Qed.

Lemma close_call k l C e :
  ipc_wf k l C -> exists b k', ipc_endpoint_close e k = Some (b, k') /\ steps_to k l C [] k'.
Proof.
  intros Hwf. pose proof (close_spec k l C e Hwf) as Hs. destruct (_ && _).
  - destruct Hs as (k' & l' & Hs & Hwf' & Hk & He & Hres & Hq & _). eexists _, k'. split; [done|]. exists l'.
    split_and!; try done.
    + by apply (close_moves k k' l l' C e).
    + by apply (close_wakes k k' l l' C e).
  - eexists _, k. split; [done|by apply steps_refl].
Qed.

(** * The hook *)

Lemma hook_call k l C b e :
  ipc_wf k l C -> exists r k' log, hook_action b e k = Some (r, k') /\ steps_to k l C log k'.
Proof.
  intros Hwf. unfold hook_action. destruct (bp_action b).
  - eexists _, _, []. split; [done|by apply steps_refl].
  - destruct (try_send_call k l C (bp_peer b) (bp_handle b) (bp_message b) Hwf) as (r & k' & ? & ?). by eexists _, _, _.
  - destruct (try_receive_call k l C (bp_peer b) (bp_handle b) Hwf) as (r & k' & -> & H). by eexists _, _, _.
  - destruct (close_call k l C e Hwf) as (r & k' & ? & ?). by eexists _, _, _.
Qed.

Lemma before_park_call k l C t e :
  ipc_wf k l C -> exists k' log, ipc_before_park t e k = Some k' /\ steps_to k l C log k' /\
    (hook_armed k = false -> log = []).
Proof.
  intros Hwf. unfold ipc_before_park. fold (hook_armed k). destruct (hook_armed k) eqn:Ha.
  2: { exists k, []. split_and!; [done|by apply steps_refl|done]. }
  if_case; [exists k, []; split_and!; [done|by apply steps_refl|done]|].
  set (k1 := set_before_park _ k). assert (ipc_wf k1 l C) as Hwf1 by (by apply wf_hook).
  if_case; [exists k1, []; split_and!; [done| |done]; exists l; split_and!; [done|by split|by apply moves_same|by apply wakes_same]|].
  set (k2 := set_before_park _ k1). assert (ipc_wf k2 l C) as Hwf2 by (by apply wf_hook).
  destruct (hook_call k2 l C (im_before_park (k_ipc k)) e Hwf2) as (r & k3 & log & -> & l3 & Hwf3 & Hks & Hfl & Haw).
  eexists _, log. split; [done|]. split; [|done]. exists l3. split; [by apply wf_hook|].
  destruct Hks as [H1 H2 H3 H4 H5]. split_and!; [split; try done; congruence| |].
  - assert (moves k k2 []) as M1 by (by apply moves_same). rewrite <- (app_nil_r log).
    apply (moves_trans k k3 _ log []); [apply (moves_trans k k2 k3 [] log M1 Hfl)|by apply moves_same].
  - apply (wakes_trans k l C k2 l C); [by apply wakes_same|]. apply (wakes_trans k2 l C k3 l3 C); [done|by apply wakes_same].
Qed.

(** * Publication *)

(** A call that leaves its wait reports what it is owed. *)
Lemma end_ledger k k' l C t w :
  ipc_core k l C -> ipc_core k' l (delete t C) -> C !! t = Some w ->
  (forall u, u <> t -> t_wait_result (thr k' u) = t_wait_result (thr k u)) ->
  ledger k k' (if bool_decide (wt_kind w = THREAD_WAIT_IPC_SEND) && completed k t then [LReport (wt_endpoint w) t] else []).
Proof.
  intros Hc Hc' Hw Hr e u. rewrite (owed_waiter k l C), (owed_waiter k' l (delete t C)) by done. unfold completed.
  destruct (decide (u = t)) as [->|Hne].
  - rewrite Hw, lookup_delete_eq. destruct (bool_decide (wt_kind w = _)); [|unfold tally; cbn; lia].
    destruct (bool_decide (t_wait_result _ = _)); unfold tally; cbn; rewrite ?Z.eqb_refl, ?andb_true_r, ?andb_false_r;
      [by destruct (wt_endpoint w =? e)|done].
  - rewrite lookup_delete_ne, Hr by done. destruct (_ && _); unfold tally; cbn; [|lia].
    rewrite (proj2 (Z.eqb_neq t u)), andb_false_r by done. cbn. lia.
Qed.

Lemma end_flow k k' w :
  (forall x, ept k' x = if decide (wt_endpoint w = x) then unregistered (wt_kind w) (ept k x) else ept k x) ->
  flow k k' [].
Proof.
  intros He. apply flow_same. intros x. rewrite He. case_decide; [|done]. unfold unregistered. by destruct (bool_decide _).
Qed.

Lemma register_ept t e kind id ticks k x : ept (ipc_timeout_register t e kind id ticks k).2 x = ept k x.
Proof. unfold ipc_timeout_register. if_case; [done|]. destruct (timed_scan _ _ _ _ _ _ _); [|done]. by if_case. Qed.

Lemma register_thr t e kind id ticks k u : thr (ipc_timeout_register t e kind id ticks k).2 u = thr k u.
Proof. unfold ipc_timeout_register. if_case; [done|]. destruct (timed_scan _ _ _ _ _ _ _); [|done]. by if_case. Qed.

Lemma publish_call k l C t w ticks :
  ipc_wf k l C -> C !! t = Some (untimed w) -> t = current_of k -> idle k = false -> pending k t = true ->
  exists c k' l' log, ipc_publish t w ticks k = Some (c, k') /\ keeps_sched k k' l l' /\ moves k k' log /\
    (hook_armed k = false -> log = []) /\
    ((c = Returned false message_zero /\ ipc_wf k' l' (delete t C) /\ wakes k l C k' l' (delete t C)) \/
     (c = Parked w /\ ipc_wf k' l' (<[t := w]> C) /\ wakes k l C k' l' (<[t := w]> C))).
Proof.
  intros Hwf Hw Ht Hid Hp. unfold ipc_publish. pose proof (iw_core _ _ _ Hwf) as Hc.
  assert (forall k1 C1, ipc_wf k1 l C1 -> C1 = <[t := w]> C -> quiet k k1 -> (forall x, ept k1 x = ept k x) ->
    (forall u, thr k1 u = thr k u) ->
    exists k' l' log, (k ← ipc_before_park t (wt_endpoint w) k1; Some (Parked w, k)) = Some (Parked w, k') /\
      keeps_sched k k' l l' /\ moves k k' log /\ (hook_armed k = false -> log = []) /\
      ipc_wf k' l' (<[t := w]> C) /\ wakes k l C k' l' (<[t := w]> C)) as Hgo.
  { intros k1 C1 Hwf1 -> Hq Hsame Hthr.
    destruct (before_park_call k1 l _ t (wt_endpoint w) Hwf1) as (k2 & log & -> & (l2 & Hwf2 & Hks & Hfl & Haw) & Hlog).
    exists k2, l2, log. split; [done|]. split; [eapply keeps_trans; [by apply keeps_quiet|done]|]. split.
    - apply (moves_trans k k1 k2 [] log); [|done]. apply moves_same; intros x; [by rewrite Hsame|by rewrite Hthr].
    - split; [intros Ha; apply Hlog; by apply (qu_hook _ _ Hq)|]. split; [done|].
      apply (wakes_trans k l C k1 l (<[t := w]> C)); [|done].
      assert (forall u v, (<[t := w]> C) !! u = Some v -> exists w0, C !! u = Some w0 /\ wt_kind w0 = wt_kind v /\ wt_endpoint w0 = wt_endpoint v) as Hold.
      { intros u v Hu. destruct (decide (u = t)) as [->|Hne].
        - rewrite lookup_insert_eq in Hu. injection Hu as <-. by exists (untimed w).
        - rewrite lookup_insert_ne in Hu by done. by exists v. }
      split.
      + apply awake_step; [done|]. intros u v Hu. right. unfold pending. rewrite Hthr.
        destruct (Hold u v Hu) as (w0 & ? & _). split; [by exists w0|by left].
      + apply prompt_step; [done| |intros x; by rewrite Hsame]. intros u v Hu. right. by apply Hold. }
  destruct (wt_timed w) eqn:Htm.
  - pose proof (register_spec k l C t (untimed w) ticks Hwf Hw eq_refl) as Hreg. cbn in Hreg.
    pose proof (register_ept t (wt_endpoint w) (wt_kind w) (wt_id w) ticks k) as Hre.
    destruct (ipc_timeout_register _ _ _ _ _ _) as [[|] k1] eqn:Er; cbn [negb].
    + destruct Hreg as (Hwf1 & Hq & _).
      destruct (Hgo k1 _ Hwf1) as (k2 & l2 & log & -> & Hks & Hfl & Hlog & Hwf2 & Haw); [|done|done| |].
      { f_equal. rewrite <- Htm. by destruct w. }
      { pose proof (register_thr t (wt_endpoint w) (wt_kind w) (wt_id w) ticks k) as Hrt. by rewrite Er in Hrt. }
      exists (Parked w), k2, l2, log. split_and!; try done. by right.
    + subst k1. pose proof (finish_spec k l C t (untimed w) THREAD_WAIT_RESULT_CANCELLED Hc Hw Hp eq_refl) as Hfin.
      cbn in Hfin. rewrite Hfin. cbn [mbind option_bind].
      destruct (end_spec k l C t (untimed w) THREAD_WAIT_RESULT_CANCELLED Hwf Hw Ht Hid eq_refl) as (k2 & He & Hwf2 & Hq & Hee & Hoth & Haw).
      unfold settled_as in He. cbn in He. rewrite He. cbn [mbind option_bind].
      exists (Returned false message_zero), k2, l, []. split_and!; try done; [by apply keeps_quiet| |by left].
      split; [by apply (end_flow k k2 (untimed w))|].
      pose proof (end_ledger k k2 l C t (untimed w) Hc (iw_core _ _ _ Hwf2) Hw Hoth) as Hled.
      by rewrite (completed_pending k t Hp), andb_false_r in Hled.
  - cbn [negb]. destruct (Hgo k C Hwf) as (k2 & l2 & log & -> & Hks & Hfl & Hlog & Hwf2 & Haw).
    + rewrite insert_id; [done|]. rewrite Hw. f_equal. unfold untimed. rewrite <- Htm. by destruct w.
    + apply quiet_refl.
    + done.
    + done.
    + exists (Parked w), k2, l2, log. split_and!; try done. by right.
Qed.

(** * Entering *)

Lemma resolve_valid k p h r :
  nz (ipc_resolve_endpoint k p h r) = true -> ipc_endpoint_valid k (ipc_resolve_endpoint k p h r) = true.
Proof.
  unfold ipc_resolve_endpoint. if_case; [done|]. destruct (capability_lookup_rights _ _ _ _ _); [|done].
  by if_case.
Qed.

Definition receiver_link (t id : Z) (e : Endpoint) : Endpoint :=
  e <| e_waiting_receiver := t |> <| e_waiting_receiver_id := id |>.

Definition sender_link (t id : Z) (m : IpcMessage) (e : Endpoint) : Endpoint :=
  e <| e_waiting_sender := t |> <| e_waiting_sender_id := id |>
    <| e_waiting_sender_message := m |> <| e_waiting_sender_message_ready := true |>.

Lemma receiver_links t id : links (receiver_link t id) THREAD_WAIT_IPC_RECEIVE t id.
Proof. split; intros E; try done; intros kind Hk; by destruct kind. Qed.

Lemma sender_links t id m : links (sender_link t id m) THREAD_WAIT_IPC_SEND t id.
Proof. split; intros E; try done; intros kind Hk; by destruct kind. Qed.

(** How a call that may block changes the continuations of its thread. *)
Definition after_call (t : Z) (c : IpcCall) (C : gmap Z Waiting) : gmap Z Waiting :=
  match c with
  | Returned _ _ => delete t C
  | Parked w | Waits w _ => <[t := w]> C
  end.

Definition call_ok (k : Kernel) (l : list Z) (C : gmap Z Waiting) (lg : IpcCall -> list IpcLog)
    (r : option (IpcCall * Kernel)) : Prop :=
  exists c k' l' log, r = Some (c, k') /\ keeps_sched k k' l l' /\ ipc_wf k' l' (after_call (current_of k) c C) /\
    moves k k' log /\ (hook_armed k = false -> log = lg c) /\
    wakes k l C k' l' (after_call (current_of k) c C).

(** What the result of a receive or send at endpoint [e] says was moved. *)
Definition receive_call_log (k : Kernel) (e : Z) (c : IpcCall) : list IpcLog :=
  match c with Returned true m => receive_log k e (Some m) | _ => [] end.

Definition send_call_log (e : Z) (m : IpcMessage) (c : IpcCall) : list IpcLog :=
  match c with Returned true _ => send_log e m true | _ => [] end.

Lemma call_returned k k' l C lg log b m :
  steps_to k l C log k' -> C !! current_of k = None -> log = lg (Returned b m) ->
  call_ok k l C lg (Some (Returned b m, k')).
Proof.
  intros (l' & Hwf & Hks & Hfl & Haw) Hn Hlog. exists (Returned b m), k', l', log.
  split_and!; try done; cbn; by rewrite delete_id.
Qed.

Lemma call_refused k l C lg :
  ipc_wf k l C -> C !! current_of k = None -> lg (Returned false message_zero) = [] ->
  call_ok k l C lg (Some (Returned false message_zero, k)).
Proof. intros Hwf Hn Hl. eapply call_returned; [by apply steps_refl|done|done]. Qed.

Lemma thread_current_wf k l : sched_wf k l -> thread_current k = current_of k.
Proof. intros H. unfold thread_current. by rewrite (wf_tinit _ _ H). Qed.

(** From the reservation on. *)
Lemma reserve_call k l C lg e kind id g timed ticks :
  ipc_wf k l C -> ipc_endpoint_valid k e = true -> ipc_kind kind = true -> id <> 0 ->
  current_of k <> 0 -> current_of k ∈ l -> thread_known k (current_of k) = true ->
  C !! current_of k = None -> waiting_thread (ept k e) kind = 0 -> links g kind (current_of k) id ->
  ept_ok (reserve (current_of k) e kind id g k) e -> (forall E, mailbox (g E) = mailbox E) ->
  lg (Returned false message_zero) = [] -> (forall w, lg (Parked w) = []) ->
  call_ok k l C lg (ipc_publish (current_of k) (mkWaiting e kind id timed) ticks (reserve (current_of k) e kind id g k)).
Proof.
  intros Hwf Hv Hk Hid H0 Hin Hkn Hn Hfree Hg Hok Hmb Hl1 Hl2.
  set (t := current_of k) in *. set (k1 := reserve t e kind id g k) in *.
  pose proof (reserve_wf Hwf Hv Hk Hid H0 Hin Hkn Hn Hfree Hg Hok) as Hwf1. fold k1 in Hwf1.
  assert (quiet k k1) as Hq by apply reserve_quiet.
  assert (idle k1 = false) as Hi1 by (apply (located_running k1 l (ic_sched _ _ _ (iw_core _ _ _ Hwf1)) t); done).
  destruct (publish_call k1 l _ t (mkWaiting e kind id timed) ticks Hwf1) as (c & k2 & l2 & log & -> & Hks & Hfl & Hlog & Hc);
    try done.
  - apply lookup_insert_eq.
  - unfold pending, k1. rewrite reserve_thr, decide_True by done. done.
  - exists c, k2, l2, log. split; [done|]. split; [eapply keeps_trans; [by apply keeps_quiet|done]|]. fold t.
    assert (forall x, mailbox (ept k1 x) = mailbox (ept k x)) as Hbox.
    { intros x. unfold k1. rewrite reserve_ept. case_decide; [subst x; apply Hmb|done]. }
    assert (wakes k l C k1 l (<[t := untimed (mkWaiting e kind id timed)]> C)) as Haw.
    { split.
      - apply awake_step; [done|]. intros u v Hu. destruct (decide (u = t)) as [->|Hne]; [by left|right].
        rewrite lookup_insert_ne in Hu by done. split; [by eexists|]. left. unfold pending, k1 in *.
        by rewrite reserve_thr, decide_False.
      - apply prompt_step; [done| |].
        + intros u v Hu. destruct (decide (u = t)) as [->|Hne]; [by left|right].
          rewrite lookup_insert_ne in Hu by done. by exists v.
        + intros x. specialize (Hbox x). unfold mailbox in Hbox. by injection Hbox as _ -> _. }
    assert (ipc_wf k2 l2 (after_call t c C) /\ wakes k l C k2 l2 (after_call t c C)) as [Hw2 Haw2].
    { destruct Hc as [[-> [Hc Ha]]|[-> [Hc Ha]]]; cbn [after_call].
      - rewrite delete_insert_eq in Hc, Ha. split; [done|by eapply wakes_trans].
      - rewrite insert_insert_eq in Hc, Ha. split; [done|by eapply wakes_trans]. }
    split; [done|split; [|split; [|done]]].
    + apply (moves_trans k k1 k2 [] log); [|done]. split; [by apply flow_same|]. apply ledger_nil. intros x u.
      rewrite (owed_waiter k l C), (owed_waiter k1 l (<[t := untimed (mkWaiting e kind id timed)]> C)) by apply Hwf || apply Hwf1.
      unfold k1. rewrite reserve_thr. destruct (decide (t = u)) as [<-|Hne].
      * rewrite lookup_insert_eq, Hn. cbn. by rewrite andb_false_r.
      * by rewrite lookup_insert_ne by done.
    + intros Ha. rewrite Hlog by (by apply (qu_hook _ _ Hq)). destruct Hc as [[-> _]|[-> _]]; [by rewrite Hl1|by rewrite Hl2].
Qed.

Lemma receiver_ept_ok k e t id :
  ept_ok k e -> e_closed (ept k e) = false -> e_waiting_sender (ept k e) <> t ->
  ept_ok (reserve t e THREAD_WAIT_IPC_RECEIVE id (receiver_link t id) k) e.
Proof.
  intros [H1 H2 Hfull H3] Hc Hne.
  assert (ept (reserve t e THREAD_WAIT_IPC_RECEIVE id (receiver_link t id) k) e = receiver_link t id (ept k e)) as He
    by (rewrite reserve_ept; by rewrite decide_True).
  split; rewrite He; cbn; [|done|done|congruence].
  rewrite (pending_ext k); [done|]. rewrite reserve_thr. by rewrite decide_False.
Qed.

Lemma sender_ept_ok k e t id m :
  e_closed (ept k e) = false -> e_message_ready (ept k e) = true -> t <> 0 -> ipc_message_valid m = true ->
  ept_ok (reserve t e THREAD_WAIT_IPC_SEND id (sender_link t id m) k) e.
Proof.
  intros Hc Hfull Hz Hm.
  assert (ept (reserve t e THREAD_WAIT_IPC_SEND id (sender_link t id m) k) e = sender_link t id m (ept k e)) as He
    by (rewrite reserve_ept; by rewrite decide_True).
  split; rewrite He; cbn; [|done|done|congruence].
  split; [|done]. intros _. split; [done|]. unfold pending. rewrite reserve_thr. by rewrite decide_True.
Qed.

(** A registered thread is not one without a continuation. *)
Lemma registered_not k l C e kind t :
  ipc_core k l C -> ipc_endpoint_valid k e = true -> ipc_kind kind = true -> C !! t = None -> t <> 0 ->
  waiting_thread (ept k e) kind <> t.
Proof.
  intros Hc Hv Hk Hn Hz E. destruct (ic_endpoint _ _ _ Hc e kind Hv Hk) as [[H0 _]|(w & Hw & _)]; congruence.
Qed.

(** A failed [thread_wait_begin] changes nothing. *)
Lemma begin_refused t kind e k k1 : thread_wait_begin t kind e k = (false, k1) -> k1 = k.
Proof. unfold thread_wait_begin. intros Hb. repeat (if_case_in Hb; [congruence|]). congruence. Qed.

Lemma begun_id k t kind e id :
  t_wait_id (thr (set_tm (next_wait id) (set_thr t (waits_for kind e id) k)) t) = id.
Proof. change (thr (set_tm _ ?x)) with (thr x). rewrite thr_set. by rewrite decide_True. Qed.

Lemma receive_enter_call k l C p h timed ticks :
  ipc_wf k l C -> C !! current_of k = None ->
  call_ok k l C (receive_call_log k (ipc_resolve_endpoint k p h CAPABILITY_RIGHT_RECEIVE))
    (ipc_receive_enter p h timed ticks k).
Proof.
  intros Hwf Hn. pose proof (iw_core _ _ _ Hwf) as Hc. unfold ipc_receive_enter.
  rewrite (thread_current_wf k l) by apply Hc. set (e := ipc_resolve_endpoint _ _ _ _).
  if_case; [by apply call_refused|]. if_case; [by apply call_refused|]. if_case; [by apply call_refused|].
  apply orb_false_iff in E1 as [Hz Hcl]. apply negb_false_iff in Hz. pose proof (resolve_valid k p h _ Hz) as Hv.
  fold e in Hv. rewrite (message_ready_valid k l C e Hc Hv). destruct (e_message_ready (ept k e)).
  - destruct (receive_locked_call k l C e (current_of k) Hwf) as ([m|] & k' & -> & Hst); cbn [mbind option_bind];
      by eapply call_returned.
  - if_case; [by apply call_refused|]. apply orb_false_iff in E1 as [Hr0 _]. apply negb_false_iff, Z.eqb_eq in Hr0.
    destruct (thread_wait_begin _ _ _ _) as [[|] k1] eqn:Hb; cbn [negb].
    + destruct (begin_spec k l C _ _ _ _ Hc Hb) as (id & -> & Hid & _ & Hin & _ & Hkn & _ & H0). rewrite begun_id.
      apply (reserve_call k l C _ e THREAD_WAIT_IPC_RECEIVE id (receiver_link (current_of k) id)); try done.
      * apply receiver_links.
      * apply receiver_ept_ok; [by apply Hwf|done|].
        by apply (registered_not k l C e THREAD_WAIT_IPC_SEND).
    + rewrite (begin_refused _ _ _ _ _ Hb). by apply call_refused.
Qed.

Lemma send_enter_call k l C p h m timed ticks :
  ipc_wf k l C -> C !! current_of k = None ->
  call_ok k l C (send_call_log (ipc_resolve_endpoint k p h CAPABILITY_RIGHT_SEND) m)
    (ipc_send_enter p h m timed ticks k).
Proof.
  intros Hwf Hn. pose proof (iw_core _ _ _ Hwf) as Hc. unfold ipc_send_enter.
  rewrite (thread_current_wf k l) by apply Hc. set (e := ipc_resolve_endpoint _ _ _ _).
  if_case; [by apply call_refused|]. if_case; [by apply call_refused|]. if_case; [by apply call_refused|].
  apply orb_false_iff in E as [E _]. apply orb_false_iff in E as [_ Hm]. apply negb_false_iff in Hm.
  apply orb_false_iff in E1 as [Hz Hcl]. apply negb_false_iff in Hz. pose proof (resolve_valid k p h _ Hz) as Hv.
  fold e in Hv. rewrite (message_ready_valid k l C e Hc Hv). destruct (e_message_ready (ept k e)) eqn:Hfull; cbn [negb].
  - if_case; [by apply call_refused|]. apply orb_false_iff in E as [E Hst].
    apply orb_false_iff in E as [Hs0 _]. apply negb_false_iff, Z.eqb_eq in Hs0.
    destruct (thread_wait_begin _ _ _ _) as [[|] k1] eqn:Hb; cbn [negb].
    + destruct (begin_spec k l C _ _ _ _ Hc Hb) as (id & -> & Hid & _ & Hin & _ & Hkn & _ & H0). rewrite begun_id.
      apply (reserve_call k l C _ e THREAD_WAIT_IPC_SEND id (sender_link (current_of k) id m)); try done.
      * apply sender_links.
      * by apply sender_ept_ok.
    + rewrite (begin_refused _ _ _ _ _ Hb). by apply call_refused.
  - destruct (send_locked_call k l C e m Hwf) as ([|] & k' & -> & Hst); cbn [mbind option_bind];
      by eapply call_returned.
Qed.

(** * The wait loop *)

Lemma current_runs_here k l :
  sched_wf k l -> idle k = false ->
  current_runs k (current_of k) = true /\ nz (sm_run_head (k_sch k)) = true /\ nz (sm_run_tail (k_sch k)) = true /\
  0 < sm_run_count (k_sch k).
Proof.
  intros Hwf Hid. destruct (wf_current _ _ Hwf Hid) as [Hin Hrun]. pose proof (wf_list _ _ Hwf) as Hl.
  destruct (queued_cases k l _ Hwf Hin) as (Hq & Hnx & _). split_and!.
  - unfold current_runs, state_is. rewrite Hrun, Hq, Hnx, bool_decide_eq_true_2 by done.
    pose proof (wf_member _ _ Hwf _ Hin) as Ha. unfold activatable in Ha.
    repeat (apply andb_true_iff in Ha as [Ha ?]). rewrite (nz_in l) by (done || apply Hl).
    by match goal with H : nz (t_id _) = true |- _ => rewrite H end.
  - rewrite (rl_head _ _ Hl). destruct l as [|x l]; [by apply not_elem_of_nil in Hin|]. cbn.
    apply (nz_in (x :: l)); [apply Hl|set_solver].
  - rewrite (rl_tail _ _ Hl). apply (nz_in l); [apply Hl|]. apply final_in. by intros ->; apply not_elem_of_nil in Hin.
  - rewrite (rl_count _ _ Hl). destruct l; [by apply not_elem_of_nil in Hin|]. cbn. lia.
Qed.

Definition count_idle_wait (k : Kernel) : Kernel :=
  set_sm (fun m => m <| sm_idle_wait_count := u64 (sm_idle_wait_count m + 1) |>) k.

Lemma idle_wait_sched k l : sched_wf k l -> sched_wf (count_idle_wait k) l.
Proof.
  intros Hwf. apply (sched_wf_rebuild k _ l l Hwf); try done; try apply Hwf.
  apply (run_list_frame k); [done|done|apply Hwf].
Qed.

(** From a well-formed state [scheduler_wait_current] never fails at once: it
    traps when another thread can run and halts for one interrupt otherwise. *)
Lemma wait_current_spec k l :
  sched_wf k l -> idle k = false ->
  (scheduler_wait_current k = (Trap SCHEDULER_TRAP_BLOCK, k) /\ (1 < length l)%nat) \/
  (scheduler_wait_current k = (Halt_once, count_idle_wait k) /\ l = [current_of k]).
Proof.
  intros Hwf Hid. destruct (current_runs_here k l Hwf Hid) as (Hcr & Hh & Ht & Hn).
  unfold scheduler_wait_current, scheduler_block_current. rewrite (thread_current_wf k l Hwf), Hcr, (wf_init _ _ Hwf), Hh, Ht.
  assert (nz (sm_run_count (k_sch k)) = true) as Hnz by (apply negb_true_iff, Z.eqb_neq; lia).
  rewrite Hnz. cbn [negb orb andb]. destruct (1 <? sm_run_count (k_sch k)) eqn:E.
  - left. apply Z.ltb_lt in E. rewrite (proj2 (Z.ltb_ge _ _)) by lia. split; [done|].
    rewrite (rl_count _ _ (wf_list _ _ Hwf)) in E. lia.
  - right. apply Z.ltb_ge in E. assert (sm_run_count (k_sch k) = 1) as E1 by lia.
    pose proof (wf_list _ _ Hwf) as Hl. destruct (wf_current _ _ Hwf Hid) as [Hin _].
    rewrite (rl_count _ _ Hl) in E1. destruct l as [|x [|y l]]; cbn in E1; try lia.
    apply list_elem_of_singleton in Hin. rewrite (rl_count _ _ Hl), (rl_head _ _ Hl), (rl_tail _ _ Hl). cbn.
    change (final [x]) with x. change (t_run_next (thr k (current_of k))) with (next_of k (current_of k)).
    pose proof (rl_ring _ _ Hl) as [Hnx _]. cbn in Hnx. change (Z.of_nat 1 =? 1) with true. rewrite Hin, Hnx, Z.eqb_refl. done.
Qed.

Lemma pending_terminal k l C t w :
  ipc_core k l C -> C !! t = Some w -> pending k t = false -> wait_terminal (t_wait_result (thr k t)) = true.
Proof.
  intros Hc Hw Hp. pose proof (wo_result _ _ _ _ (ic_waiter _ _ _ Hc _ _ Hw)) as Hr.
  apply andb_true_iff in Hr as [Hr _].
  unfold pending in Hp. apply bool_decide_eq_false in Hp. by destruct (t_wait_result (thr k t)).
Qed.

Section Leave.
  Context {k : Kernel} {l : list Z} {C : gmap Z Waiting} {w : Waiting}.
  Hypothesis Hwf : ipc_wf k l C.
  Hypothesis Hw : C !! current_of k = Some w.
  Hypothesis Hid : idle k = false.

(** Leaving the loop with outcome [r] moves no message. *)
Lemma receive_leave_call m r :
  wt_kind w = THREAD_WAIT_IPC_RECEIVE -> wait_terminal r = true ->
  exists k', ipc_receive_leave w m (settled_as (current_of k) r k) =
      Some (Returned (bool_decide (r = THREAD_WAIT_RESULT_COMPLETED)) m, k') /\
    keeps_sched k k' l l /\ ipc_wf k' l (delete (current_of k) C) /\ moves k k' [] /\
    wakes k l C k' l (delete (current_of k) C).
Proof using All.
  intros Hk Hr. unfold ipc_receive_leave.
  change (thread_current (settled_as (current_of k) r k)) with (thread_current k).
  rewrite (thread_current_wf k l) by apply Hwf.
  assert (t_wait_result (thr (settled_as (current_of k) r k) (current_of k)) = r) as ->
    by (unfold settled_as; rewrite result_set; by rewrite decide_True).
  destruct (end_spec k l C _ w r Hwf Hw eq_refl Hid Hr) as (k' & He & Hwf' & Hq & Hee & Hoth & Haw). rewrite Hk in He. rewrite He.
  exists k'. split_and!; [done|by apply keeps_quiet|done| |done].
  pose proof (end_ledger k k' l C _ w (iw_core _ _ _ Hwf) (iw_core _ _ _ Hwf') Hw Hoth) as Hled. rewrite Hk in Hled.
  split; [by apply (end_flow k k' w)|done].
Qed.

Lemma send_leave_call r :
  wt_kind w = THREAD_WAIT_IPC_SEND -> wait_terminal r = true ->
  (r = THREAD_WAIT_RESULT_COMPLETED -> e_waiting_sender_message_ready (ept k (wt_endpoint w)) = false) ->
  exists k', ipc_send_leave w (settled_as (current_of k) r k) =
      Some (Returned (bool_decide (r = THREAD_WAIT_RESULT_COMPLETED)) message_zero, k') /\
    keeps_sched k k' l l /\ ipc_wf k' l (delete (current_of k) C) /\
    moves k k' (if completed k (current_of k) then [LReport (wt_endpoint w) (current_of k)] else []) /\
    wakes k l C k' l (delete (current_of k) C).
Proof using All.
  intros Hk Hr Hst. unfold ipc_send_leave.
  change (thread_current (settled_as (current_of k) r k)) with (thread_current k).
  rewrite (thread_current_wf k l) by apply Hwf.
  change (ept (settled_as (current_of k) r k)) with (ept k).
  assert (t_wait_result (thr (settled_as (current_of k) r k) (current_of k)) = r) as ->
    by (unfold settled_as; rewrite result_set; by rewrite decide_True).
  assert (bool_decide (r = THREAD_WAIT_RESULT_COMPLETED) && e_waiting_sender_message_ready (ept k (wt_endpoint w)) = false) as ->.
  { case_bool_decide; [by rewrite Hst|done]. }
  destruct (end_spec k l C _ w r Hwf Hw eq_refl Hid Hr) as (k' & He & Hwf' & Hq & Hee & Hoth & Haw). rewrite Hk in He. rewrite He.
  exists k'. split_and!; [done|by apply keeps_quiet|done| |done].
  pose proof (end_ledger k k' l C _ w (iw_core _ _ _ Hwf) (iw_core _ _ _ Hwf') Hw Hoth) as Hled. rewrite Hk in Hled.
  split; [|done]. pose proof (end_flow k k' w Hee) as [F1 F2]. by destruct (completed k (current_of k)).
Qed.

End Leave.

Section Resume.
  Context {k : Kernel} {l : list Z} {C : gmap Z Waiting} {w : Waiting}.
  Hypothesis Hwf : ipc_wf k l C.
  Hypothesis Hw : C !! current_of k = Some w.
  Hypothesis Hid : idle k = false.

(** The outcome is settled already. *)
Lemma settled_now : pending k (current_of k) = false ->
  wait_terminal (t_wait_result (thr k (current_of k))) = true /\
  settled_as (current_of k) (t_wait_result (thr k (current_of k))) k = k.
Proof using All.
  intros Hp. pose proof (pending_terminal k l C _ w (iw_core _ _ _ Hwf) Hw Hp) as Hr. split; [done|].
  apply settled_id; [done|]. intros E. by rewrite E in Hr.
Qed.

(** What a resumed call reports: a receive the message it returns, a send that
    it succeeded. *)
Definition resume_log (c : IpcCall) : list IpcLog :=
  if bool_decide (wt_kind w = THREAD_WAIT_IPC_RECEIVE) then receive_call_log k (wt_endpoint w) c
  else match c with Returned true _ => [LReport (wt_endpoint w) (current_of k)] | _ => [] end.

Lemma left_call b m k' log :
  keeps_sched k k' l l -> ipc_wf k' l (delete (current_of k) C) -> moves k k' log ->
  wakes k l C k' l (delete (current_of k) C) -> log = resume_log (Returned b m) ->
  call_ok k l C resume_log (Some (Returned b m, k')).
Proof using. intros Hks Hwf' Hfl Haw Hl. exists (Returned b m), k', l, log. by split_and!. Qed.

Lemma cancelled_call :
  pending k (current_of k) = true -> call_ok k l C resume_log (ipc_resume w false k).
Proof using All.
  intros Hp. pose proof (iw_core _ _ _ Hwf) as Hc. unfold ipc_resume, ipc_receive_cancelled, ipc_send_cancelled.
  rewrite (thread_current_wf k l) by apply Hc.
  pose proof (finish_spec k l C _ w THREAD_WAIT_RESULT_CANCELLED Hc Hw Hp eq_refl) as Hf.
  pose proof (wo_kind _ _ _ _ (ic_waiter _ _ _ Hc _ _ Hw)) as Hk.
  destruct (wt_kind w) eqn:Ek; try done; rewrite Hf; cbn [mbind option_bind].
  - rewrite bool_decide_eq_true_2 by done.
    destruct (receive_leave_call Hwf Hw Hid message_zero THREAD_WAIT_RESULT_CANCELLED Ek eq_refl) as (k' & He & ? & ? & ? & ?).
    unfold settled_as in He. rewrite He. eapply left_call; [done..|]. unfold resume_log. by rewrite Ek.
  - rewrite bool_decide_eq_false_2 by done.
    destruct (send_leave_call Hwf Hw Hid THREAD_WAIT_RESULT_CANCELLED Ek eq_refl) as (k' & He & ? & ? & ? & ?); [done|].
    unfold settled_as in He. rewrite He. eapply left_call; [done..|]. unfold resume_log.
    by rewrite Ek, (completed_pending k _ Hp).
Qed.

(** The waiting receiver takes the message that arrived. *)
Definition take_message : option (IpcCall * Kernel) :=
  '(m, k1) ← ipc_receive_locked (wt_endpoint w) (current_of k) k;
  k1 ← ipc_finish (current_of k) (wt_endpoint w) THREAD_WAIT_IPC_RECEIVE (wt_id w)
         (match m with Some _ => THREAD_WAIT_RESULT_COMPLETED | None => THREAD_WAIT_RESULT_CANCELLED end) k1;
  ipc_receive_leave w (default message_zero m) k1.

Lemma receive_takes :
  wt_kind w = THREAD_WAIT_IPC_RECEIVE -> pending k (current_of k) = true ->
  e_message_ready (ept k (wt_endpoint w)) = true ->
  let m := e_message (ept k (wt_endpoint w)) in
  exists k' l', take_message = Some (Returned true m, k') /\ keeps_sched k k' l l' /\
    ipc_wf k' l' (delete (current_of k) C) /\ moves k k' (receive_log k (wt_endpoint w) (Some m)) /\
    wakes k l C k' l' (delete (current_of k) C).
Proof using All.
  intros Ek Hp Hr. pose proof (iw_core _ _ _ Hwf) as Hc. pose proof (ic_waiter _ _ _ Hc _ _ Hw) as Ho.
  pose proof (wo_valid _ _ _ _ Ho) as Hv. pose proof (wo_thread _ _ _ _ Ho) as Hth. rewrite Ek in Hth. waiting_simpl.
  pose proof (receive_locked_spec k l C (wt_endpoint w) (current_of k) Hwf) as Hs.
  assert (receive_possible k (wt_endpoint w) (current_of k) = true) as Hrp.
  { unfold receive_possible. rewrite Hv, Hr, Hth, Hp, Z.eqb_refl. cbn [andb].
    rewrite orb_true_r, !andb_true_r. apply negb_true_iff.
    destruct (e_closed (ept k (wt_endpoint w))) eqn:Ecl; [|done].
    destruct (eo_closed _ _ (iw_ept _ _ _ Hwf _ Hv) Ecl). congruence. }
  unfold take_message. rewrite Hrp in Hs.
  destruct Hs as (k1 & l1 & -> & Hwf1 & Hks & He & Hres & Hq). cbn [mbind option_bind].
  assert (committed k (wt_endpoint w) (current_of k) = false) as Hnc.
  { unfold committed. destruct (e_waiting_sender_message_ready _) eqn:Est; [|done].
    destruct (staged_sender k l C _ Hwf Hv Est) as (v & Hv' & _ & Hvk & _). cbn.
    apply Z.eqb_neq. intros E. rewrite <- E, Hw in Hv'. simplify_eq. congruence. }
  assert (pending k1 (current_of k) = true) as Hp1 by (unfold pending; rewrite Hres, Hnc; done).
  assert (current_of k1 = current_of k) as Hcur by apply Hks.
  pose proof (finish_spec k1 l1 C (current_of k) w THREAD_WAIT_RESULT_COMPLETED (iw_core _ _ _ Hwf1) Hw Hp1 eq_refl) as Hf.
  rewrite Ek in Hf. rewrite Hf. cbn [mbind option_bind]. change (default message_zero (Some ?x)) with x.
  assert (C !! current_of k1 = Some w) as Hw1 by (by rewrite Hcur).
  assert (idle k1 = false) as Hid1 by (by rewrite (ks_idle _ _ _ _ Hks)).
  destruct (receive_leave_call Hwf1 Hw1 Hid1 (e_message (ept k (wt_endpoint w))) THREAD_WAIT_RESULT_COMPLETED Ek eq_refl)
    as (k2 & Hl & Hks2 & Hwf2 & Hfl2 & Haw2). unfold settled_as in Hl. rewrite Hcur in Hl, Hwf2, Haw2. rewrite Hl.
  exists k2, l1. split; [done|]. split; [by eapply keeps_trans|]. split; [done|]. split.
  - rewrite <- (app_nil_r (receive_log _ _ _)). apply (moves_trans k k1 k2 _ []); [|done].
    split; [by apply flow_receive|]. by apply (ledger_receive k k1 l l1 C).
  - apply (wakes_trans k l C k1 l1 C); [|done]. by apply (receive_wakes k k1 l l1 C (wt_endpoint w)).
Qed.

Lemma receive_now :
  wt_kind w = THREAD_WAIT_IPC_RECEIVE -> pending k (current_of k) = true ->
  e_message_ready (ept k (wt_endpoint w)) = true -> call_ok k l C resume_log take_message.
Proof using All.
  intros Ek Hp Hr. destruct (receive_takes Ek Hp Hr) as (k' & l' & Ht & Hks & Hwf' & Hfl & Haw).
  eexists _, k', l', _. split; [done|]. split_and!; [done|done|done| |done]. intros _. unfold resume_log. by rewrite Ek.
Qed.

(** A receiver goes to sleep only at an empty mailbox. *)
Definition stalled : Prop :=
  wt_kind w = THREAD_WAIT_IPC_RECEIVE -> e_message_ready (ept k (wt_endpoint w)) = false.

(** The call goes to sleep. *)
Definition sleeps (r : option (IpcCall * Kernel)) : Prop :=
  (r = Some (Waits w (Trap SCHEDULER_TRAP_BLOCK), count_park k) /\ (1 < length l)%nat) \/
  r = Some (Waits w Halt_once, count_idle_wait (count_park k)).

Lemma park_call :
  sleeps (let '(call, k) := scheduler_wait_current (count_park k) in Some (Waits w call, k)).
Proof using All.
  destruct (wait_current_spec (count_park k) l) as [[-> ?]|[-> _]]; [|done|by left|by right].
  apply im_sched, Hwf.
Qed.

Lemma leave_returns v m k0 w' c k1 :
  (ipc_receive_leave v m k0 = Some (Waits w' c, k1) -> False) /\ (ipc_send_leave v k0 = Some (Waits w' c, k1) -> False).
Proof using.
  unfold ipc_receive_leave, ipc_send_leave. split; [|if_case; [done|]];
    by destruct (ipc_end_reservation _ _ _ _ _ _).
Qed.

(** A turn of the loop that waits goes to sleep. *)
Lemma resume_waits w' c k1 :
  ipc_resume w true k = Some (Waits w' c, k1) ->
  pending k (current_of k) = true /\ stalled /\ sleeps (ipc_resume w true k).
Proof using All.
  pose proof (ic_waiter _ _ _ (iw_core _ _ _ Hwf) _ _ Hw) as Ho. unfold stalled.
  rewrite <- (message_ready_valid k l C _ (iw_core _ _ _ Hwf) (wo_valid _ _ _ _ Ho)).
  unfold ipc_resume, ipc_receive_iterate, ipc_send_iterate. rewrite (thread_current_wf k l) by apply Hwf.
  case_bool_decide; if_case; try done; destruct (pending k (current_of k)); cbn [negb].
  - if_case; [|intros _; split_and!; [done|done|apply park_call]].
    destruct (ipc_receive_locked _ _ _) as [[m k2]|]; [|done]. cbn [mbind option_bind].
    destruct (ipc_finish _ _ _ _ _ _) as [k3|]; [|done]. cbn [mbind option_bind].
    intros Hl. by destruct (proj1 (leave_returns _ _ _ _ _ _) Hl).
  - intros Hl. by destruct (proj1 (leave_returns _ _ _ _ _ _) Hl).
  - if_case; [done|]. intros _. split_and!; [done|done|apply park_call].
  - intros Hl. by destruct (proj2 (leave_returns w message_zero _ _ _ _) Hl).
Qed.

(** A resumed call returns or goes back to sleep; it never halts. *)
Lemma iterate_call :
  call_ok k l C resume_log (ipc_resume w true k) \/
  (pending k (current_of k) = true /\ stalled /\ sleeps (ipc_resume w true k)).
Proof using All.
  pose proof (iw_core _ _ _ Hwf) as Hc. pose proof (ic_waiter _ _ _ Hc _ _ Hw) as Ho.
  pose proof (wo_kind _ _ _ _ Ho) as Hk. pose proof (wo_match _ _ _ _ Ho) as Hm. pose proof (wo_valid _ _ _ _ Ho) as Hv.
  pose proof (reservation_valid k l C _ _ Hc Hv Hk) as Hrv.
  unfold ipc_resume, ipc_receive_iterate, ipc_send_iterate. rewrite (thread_current_wf k l) by apply Hc.
  rewrite (message_ready_valid k l C _ Hc Hv).
  destruct (wt_kind w) eqn:Ek; try done; rewrite Hm, Hrv; cbn [negb orb].
  - rewrite bool_decide_eq_true_2 by done. destruct (pending k (current_of k)) eqn:Hp; cbn [negb].
    + destruct (e_message_ready (ept k (wt_endpoint w))) eqn:Hr; [left|right; split_and!; [done|by intros _|apply park_call]].
      by apply receive_now.
    + left. destruct (settled_now Hp) as [Ht Hs].
      destruct (receive_leave_call Hwf Hw Hid message_zero _ Ek Ht) as (k' & He & ? & ? & ? & ?). rewrite Hs in He. rewrite He.
      eapply left_call; [done..|]. unfold resume_log. rewrite Ek. rewrite bool_decide_eq_true_2 by done.
      rewrite bool_decide_eq_false_2; [done|]. intros E. pose proof (wo_result _ _ _ _ Ho) as Hf.
      unfold result_fits in Hf. by rewrite Ek, E in Hf.
  - rewrite bool_decide_eq_false_2 by done. pose proof (iw_ept _ _ _ Hwf _ Hv) as Hep.
    pose proof (wo_thread _ _ _ _ Ho) as Hth. rewrite Ek in Hth. waiting_simpl.
    destruct (pending k (current_of k)) eqn:Hp; cbn [negb].
    + assert (e_waiting_sender_message_ready (ept k (wt_endpoint w)) = true) as ->.
      { apply Hep. rewrite Hth. split; [|done]. by apply (waiter_nonnull _ _ _ _ Ho). }
      right. split_and!; [done|by intros E; rewrite Ek in E|apply park_call].
    + left. destruct (settled_now Hp) as [Ht Hs].
      destruct (send_leave_call Hwf Hw Hid _ Ek Ht) as (k' & He & ? & ? & ? & ?).
      { intros _. destruct (e_waiting_sender_message_ready (ept k (wt_endpoint w))) eqn:Es; [|done].
        apply Hep in Es as [_ Es]. congruence. }
      rewrite Hs in He. rewrite He. eapply left_call; [done..|]. unfold resume_log, completed. rewrite Ek.
      by destruct (bool_decide (t_wait_result _ = _)).
Qed.

End Resume.

(** * Aborting *)

(** [thread_wait_abort] of another thread's reservation is its release. *)
Lemma abort_spec k l C t w :
  ipc_core k l C -> C !! t = Some w -> t <> current_of k ->
  t_state (thr k t) = THREAD_STATE_BLOCKED \/ t_state (thr k t) = THREAD_STATE_READY ->
  thread_wait_abort t (wt_kind w) (wt_endpoint w) k = (true, wait_clear t k).
Proof.
  intros Hc Hw Hne Hs. pose proof (ic_waiter _ _ _ Hc _ _ Hw) as Ho. unfold thread_wait_abort.
  fold (current_of k). rewrite (proj2 (Z.eqb_neq _ _) Hne), (matches_fst _ _ _ _ _ (wo_match _ _ _ _ Ho)).
  cbn [negb orb]. unfold state_is.
  assert (!bool_decide (t_state (thr k t) = THREAD_STATE_BLOCKED) &&
          !bool_decide (t_state (thr k t) = THREAD_STATE_READY) = false) as -> by (by destruct Hs as [-> | ->]).
  fold (pending k t). destruct (pending k t) eqn:Hp.
  - rewrite thr_set, decide_True by done. upd_simpl. cbn [wait_terminal negb].
    f_equal. apply (clear_settled k t THREAD_WAIT_RESULT_CANCELLED).
  - by rewrite (pending_terminal k l C t w Hc Hw Hp).
Qed.

Lemma matches_active k t kind o id : thread_wait_matches_id k t kind o id = true -> thread_wait_active k t = true.
Proof.
  intros Hm. unfold thread_wait_matches_id, thread_wait_matches in Hm.
  apply andb_true_iff in Hm as [Hm _]. apply andb_true_iff in Hm as [_ Hm]. if_case_in Hm; [done|].
  unfold thread_wait_active. apply orb_false_iff in E as [E Hid]. apply orb_false_iff in E as [E _].
  apply orb_false_iff in E as [E _]. rewrite E. apply negb_false_iff in Hid. by rewrite Hid, orb_true_r.
Qed.

Lemma waiter_active k l t w : waiter_ok k l t w -> thread_wait_active k t = true.
Proof. intros Ho. eapply matches_active, Ho. Qed.

(** What a granted abort leaves: the reservation and its timeout are gone. *)
Lemma abort_form k l C t w :
  ipc_wf k l C -> C !! t = Some w -> t <> current_of k ->
  t_state (thr k t) = THREAD_STATE_BLOCKED \/ t_state (thr k t) = THREAD_STATE_READY ->
  ipc_abort_thread_wait t k = (true, clear_waiting (wt_endpoint w) (wt_kind w) (wait_clear t
    (ipc_timeout_unregister t (wt_endpoint w) (wt_kind w) (wt_id w) k).2)).
Proof.
  intros Hwf Hw Hne Hst. pose proof (iw_core _ _ _ Hwf) as Hc.
  pose proof (ic_waiter _ _ _ Hc _ _ Hw) as Ho. pose proof (wo_match _ _ _ _ Ho) as Hm.
  unfold thread_wait_matches_id, thread_wait_matches in Hm. apply andb_true_iff in Hm as [Hm Eid].
  apply andb_true_iff in Hm as [_ Hm]. if_case_in Hm; [done|]. apply andb_true_iff in Hm as [Ek Eo].
  apply bool_decide_eq_true in Ek. apply Z.eqb_eq in Eo, Eid. unfold ipc_abort_thread_wait.
  rewrite (thread_current_wf k l), (proj2 (Z.eqb_neq _ _) Hne), (waiter_active k l t w Ho) by apply Hc.
  assert (negb (state_is k t THREAD_STATE_BLOCKED) && negb (state_is k t THREAD_STATE_READY) = false) as ->
    by (unfold state_is; destruct Hst as [-> | ->]; done).
  rewrite Ek, Eo, Eid, (wo_valid _ _ _ _ Ho), (reservation_valid k l C) by (done || apply Ho).
  rewrite (wo_thread _ _ _ _ Ho), Z.eqb_refl, (abort_spec k l C t w Hc Hw Hne Hst). cbn [negb orb].
  assert ((ipc_timeout_unregister t (wt_endpoint w) (wt_kind w) (wt_id w) (wait_clear t k)).2 =
    wait_clear t (ipc_timeout_unregister t (wt_endpoint w) (wt_kind w) (wt_id w) k).2) as Hcomm.
  { unfold wait_clear. rewrite unregister_thr. by destruct (ipc_timeout_unregister _ _ _ _ _). }
  pose proof (wo_kind _ _ _ _ Ho) as Hk. by destruct (wt_kind w); try done; rewrite Hcomm.
Qed.

(** An aborted send whose message was accepted never reports. *)
Definition abort_log (k : Kernel) (t : Z) (aborted : bool) : list IpcLog :=
  if aborted && owed k (t_wait_object (thr k t)) t then [LForgo (t_wait_object (thr k t)) t] else [].

Lemma abort_ledger k k' l C t w :
  ipc_core k l C -> ipc_core k' l (delete t C) -> C !! t = Some w ->
  (forall u, u <> t -> t_wait_result (thr k' u) = t_wait_result (thr k u)) -> ledger k k' (abort_log k t true).
Proof.
  intros Hc Hc' Hw Hr e u. unfold abort_log. cbn [andb].
  destruct (decide (u = t)) as [->|Hne].
  - rewrite (owed_waiter k' l (delete t C)), lookup_delete_eq by done. unfold owed.
    rewrite Z.eqb_refl, andb_true_r. destruct (bool_decide (t_wait_kind _ = _)); [|by unfold tally; cbn].
    destruct (bool_decide (t_wait_result _ = _)); unfold tally; cbn;
      rewrite ?Z.eqb_refl, ?andb_true_r, ?andb_false_r; [by destruct (t_wait_object (thr k t) =? e)|done].
  - rewrite (owed_waiter k l C), (owed_waiter k' l (delete t C)), lookup_delete_ne, Hr by done.
    destruct (owed k _ t); unfold tally; cbn; [|lia]. rewrite (proj2 (Z.eqb_neq t u)), andb_false_r by done. cbn. lia.
Qed.

Lemma abort_flow k k' t b : flow k k' [] -> flow k k' (abort_log k t b).
Proof. intros [F1 F2]. unfold abort_log. by destruct (_ && _). Qed.

Lemma abort_call k l C t :
  ipc_wf k l C ->
  let '(b, k') := ipc_abort_thread_wait t k in
  ipc_wf k' l (if b then delete t C else C) /\ keeps_sched k k' l l /\ flow k k' [] /\
  ledger k k' (abort_log k t b) /\ wakes k l C k' l (if b then delete t C else C).
Proof.
  intros Hwf. pose proof (iw_core _ _ _ Hwf) as Hc.
  assert (ipc_wf k l C /\ keeps_sched k k l l /\ flow k k [] /\ ledger k k [] /\ wakes k l C k l C) as Hsame
    by (split_and!; [done|apply keeps_refl|apply flow_refl|apply moves_refl|apply wakes_refl]).
  destruct (C !! t) as [w|] eqn:Hw.
  2: { pose proof (ic_other _ _ _ Hc t Hw). unfold ipc_abort_thread_wait. do 3 (if_case; [done|]).
       by destruct (t_wait_kind (thr k t)). }
  destruct (decide (t = current_of k)) as [->|Hne].
  { unfold ipc_abort_thread_wait. rewrite (thread_current_wf k l), Z.eqb_refl by apply Hc. done. }
  destruct (state_is k t THREAD_STATE_BLOCKED || state_is k t THREAD_STATE_READY) eqn:Hst.
  2: { apply orb_false_iff in Hst as [E1 E2]. unfold ipc_abort_thread_wait. if_case; [done|]. by rewrite E1, E2. }
  rewrite (abort_form k l C t w); try done.
  2: { apply orb_true_iff in Hst as [E|E]; apply bool_decide_eq_true in E; auto. }
  pose proof (unregister_spec k l C t w Hwf Hw) as Hu.
  destruct (ipc_timeout_unregister t (wt_endpoint w) (wt_kind w) (wt_id w) k) as [b k2]. cbn [snd].
  destruct Hu as (_ & Hwf2 & Hq2 & ws & ->).
  pose proof (reservation_release_wf (w := untimed w) Hwf2 (lookup_insert_eq _ _ _) eq_refl) as Hrel.
  rewrite delete_insert_eq in Hrel. split_and!; [done| | | |by apply wakes_release].
  3: { apply (abort_ledger k _ l C t w Hc (iw_core _ _ _ Hrel) Hw). intros u Hu. rewrite release_thr. by rewrite decide_False. }
  - apply keeps_quiet. eapply quiet_trans; [exact Hq2|apply release_quiet].
  - apply (end_flow k _ w). intros x. rewrite clear_waiting_ept. case_decide; [by subst|done].
Qed.
