(* ===== verification/IpcClose.v ===== *)
(** Closing every endpoint of a process: the walk over the owner index visits
    each owned endpoint once. *)

From S2P Require Import Prelude Pmm ObjectStorage Kernel Objects Capability.
From S2P Require Import Endpoint Thread Ring Scheduler SchedulerProofs SchedulerWf.
From S2P Require Import SchedulerOps Ipc IpcWf IpcOps IpcReserve.
From S2P Require Import IpcCalls.

Open Scope jcos_scope.

(** * The owner index *)

Lemma live_unique S n m e :
  NoDup (live S) -> S !! n = Some e -> S !! m = Some e -> e <> 0 -> n = m.
Proof.
  unfold live. revert n m. induction S as [|x S IH]; intros n m Hd Hn Hm He; [done|].
  assert (forall i, S !! i = Some e -> e ∈ List.filter nz S) as Hin.
  { intros i Hi. apply elem_of_live. split; [done|by eapply list_elem_of_lookup_2]. }
  cbn [List.filter] in Hd. destruct n as [|n], m as [|m]; cbn in Hn, Hm; simplify_eq; try done.
  - exfalso. assert (nz e = true) as Hz by (apply negb_true_iff, Z.eqb_neq; lia). rewrite Hz in Hd.
    apply list.NoDup_cons in Hd as [Hx _]. by apply Hx, (Hin m).
  - exfalso. assert (nz e = true) as Hz by (apply negb_true_iff, Z.eqb_neq; lia). rewrite Hz in Hd.
    apply list.NoDup_cons in Hd as [Hx _]. by apply Hx, (Hin n).
  - f_equal. apply IH; try done. destruct (nz x); [by apply list.NoDup_cons in Hd as [_ Hd]|done].
Qed.

Lemma find_drop (p : Z -> bool) S s :
  (List.find p (drop s S) = None /\ forall n x, (s <= n)%nat -> S !! n = Some x -> p x = false) \/
  (exists n x, List.find p (drop s S) = Some x /\ (s <= n)%nat /\ S !! n = Some x /\ p x = true /\
     forall m y, (s <= m < n)%nat -> S !! m = Some y -> p y = false).
Proof.
  revert s. induction S as [|z S IH]; intros s.
  - left. rewrite drop_nil. split; [done|]. intros n x _ H. by rewrite lookup_nil in H.
  - destruct s as [|s].
    + cbn. destruct (p z) eqn:Hz.
      * right. exists O, z. split_and!; try done. lia.
      * destruct (IH O) as [[Hf Hn]|(n & x & Hf & _ & Hx & Hp & Hm)]; rewrite drop_0 in Hf; rewrite Hf.
        -- left. split; [done|]. intros [|n] x _ Hx; cbn in Hx; [congruence|]. apply (Hn n); [lia|done].
        -- right. exists (Datatypes.S n), x. split_and!; try done; [lia|]. intros [|m] y Hm' Hy; cbn in Hy; [congruence|].
           apply (Hm m); [lia|done].
    + cbn [drop]. destruct (IH s) as [[Hf Hn]|(n & x & Hf & Hle & Hx & Hp & Hm)]; rewrite Hf.
      * left. split; [done|]. intros [|n] x Hle Hx; [lia|]. apply (Hn n); [lia|done].
      * right. exists (Datatypes.S n), x. split_and!; try done; [lia|]. intros [|m] y Hm' Hy; [lia|]. apply (Hm m); [lia|done].
Qed.

Lemma find_ext (p q : Z -> bool) S : (forall x, p x = q x) -> List.find p S = List.find q S.
Proof. intros H. induction S as [|x S IH]; [done|]. cbn. by rewrite H, IH. Qed.

Section Owned.
  Context {k : Kernel} (Hreg : registry ENDPOINT_STORAGE_CAPACITY (om_storage (k_ept k))).

Lemma owned_storage : take (Z.to_nat ENDPOINT_STORAGE_CAPACITY) (om_storage (k_ept k)) = om_storage (k_ept k).
Proof using Hreg. apply take_ge. pose proof (reg_length _ _ Hreg). lia. Qed.

(** The search from entry [s] on. *)
Lemma owned_from_spec o s :
  o <> 0 ->
  (endpoint_owned_from k o (Z.of_nat s) = 0 /\
     forall n x, (s <= n)%nat -> om_storage (k_ept k) !! n = Some x -> owned_by k o x = false) \/
  (exists n e, endpoint_owned_from k o (Z.of_nat s) = e /\ (s <= n)%nat /\ om_storage (k_ept k) !! n = Some e /\
     owned_by k o e = true /\ forall m y, (s <= m < n)%nat -> om_storage (k_ept k) !! m = Some y -> owned_by k o y = false).
Proof using Hreg.
  intros Ho. unfold endpoint_owned_from. rewrite owned_storage, Nat2Z.id.
  assert (nz o = true) as -> by (apply negb_true_iff, Z.eqb_neq; lia). cbn [negb].
  destruct (find_drop (owned_by k o) (om_storage (k_ept k)) s) as [[-> H]|(n & x & -> & H)]; [by left|].
  right. exists n, x. by split.
Qed.

Lemma owned_nonnull o e : owned_by k o e = true -> nz e = true /\ e_owner_process_id (ept k e) = o.
Proof using.
  unfold owned_by. intros H. apply andb_true_iff in H as [H Ho]. apply andb_true_iff in H as [H _].
  apply andb_true_iff in H as [Hz _]. split; [done|by apply Z.eqb_eq].
Qed.

Lemma owned_next_spec o n e :
  om_storage (k_ept k) !! n = Some e -> owned_by k o e = true ->
  endpoint_owned_next k o e = endpoint_owned_from k o (Z.of_nat (S n)).
Proof using Hreg.
  intros Hn Hob. destruct (owned_nonnull o e Hob) as [Hz Ho]. unfold endpoint_owned_next.
  assert (e <> 0) as He by (apply negb_true_iff, Z.eqb_neq in Hz; done).
  assert (e ∈ live (om_storage (k_ept k))) as Hl by (apply elem_of_live; split; [done|by eapply list_elem_of_lookup_2]).
  destruct (object_storage_find_lookup _ _ _ Hreg Hl) as (m & -> & Hm).
  rewrite (live_unique _ m n e (reg_nodup _ _ Hreg) Hm Hn He). rewrite Ho, Z.eqb_refl, andb_true_r.
  pose proof (reg_length _ _ Hreg) as Hlen. apply lookup_lt_Some in Hn.
  rewrite (proj2 (Z.ltb_lt _ _)) by lia. cbn [andb]. destruct (Z.ltb_spec (Z.of_nat n + 1) ENDPOINT_STORAGE_CAPACITY).
  - f_equal. lia.
  - unfold endpoint_owned_from. rewrite owned_storage, drop_ge by lia. by if_case.
Qed.

Lemma owned_valid o n e :
  om_storage (k_ept k) !! n = Some e -> owned_by k o e = true -> ipc_endpoint_valid k e = true.
Proof using Hreg.
  intros Hn Hob. unfold ipc_endpoint_valid, endpoint_storage_in_use, endpoint_live.
  rewrite (object_storage_find_live _ _ e Hreg). unfold owned_by in Hob.
  apply andb_true_iff in Hob as [H _]. apply andb_true_iff in H as [H ->]. apply andb_true_iff in H as [Hz ->].
  rewrite bool_decide_eq_true_2; [by rewrite ?Hz|]. apply elem_of_live. split.
  - by apply negb_true_iff, Z.eqb_neq in Hz.
  - by eapply list_elem_of_lookup_2.
Qed.

End Owned.

(** * The walk *)

(** Closing leaves registry and ownership as they are. *)
Definition owner_fields (e : Endpoint) : Z * bool * Z := (e_id e, e_initialized e, e_owner_process_id e).

Lemma owned_ext k k' o e :
  owner_fields (ept k' e) = owner_fields (ept k e) -> owned_by k' o e = owned_by k o e.
Proof. unfold owner_fields, owned_by. intros H. injection H as -> -> ->. done. Qed.

Record closes (k k' : Kernel) (o : Z) : Prop := {
  cl_ept : k_ept k' = k_ept k;
  cl_same : forall e, ept k' e = ept k e \/ (owned_by k o e = true /\ ept k' e = shut (ept k e)) }.

Lemma closes_owned k k' o e : closes k k' o -> owned_by k' o e = owned_by k o e.
Proof. intros [_ H]. apply owned_ext. destruct (H e) as [->|[_ ->]]; done. Qed.

Lemma closes_trans k k1 k2 o : closes k k1 o -> closes k1 k2 o -> closes k k2 o.
Proof.
  intros H1 H2. split; [by rewrite (cl_ept _ _ _ H2), (cl_ept _ _ _ H1)|]. intros e.
  pose proof (cl_same _ _ _ H2 e) as [-> | [Ho ->]]; [apply H1|]. right.
  rewrite (closes_owned _ _ _ _ H1) in Ho. split; [done|]. by destruct (cl_same _ _ _ H1 e) as [-> | [_ ->]].
Qed.

Lemma closes_closed k k' o e : closes k k' o -> e_closed (ept k e) = true -> e_closed (ept k' e) = true.
Proof. intros H Hc. by destruct (cl_same _ _ _ H e) as [-> | [_ ->]]. Qed.

Lemma close_owned_spec o C fuel s k l :
  o <> 0 -> ipc_wf k l C -> (length (om_storage (k_ept k)) < s + fuel)%nat -> (0 < fuel)%nat ->
  exists k' l', close_owned_loop fuel o (endpoint_owned_from k o (Z.of_nat s)) k = Some (true, k') /\
    ipc_wf k' l' C /\ keeps_sched k k' l l' /\ moves k k' [] /\ wakes k l C k' l' C /\ closes k k' o /\
    forall n e, (s <= n)%nat -> om_storage (k_ept k) !! n = Some e -> owned_by k o e = true -> e_closed (ept k' e) = true.
Proof.
  intros Ho. revert s k l. induction fuel as [|fuel IH]; intros s k l Hwf Hlen Hpos; [lia|].
  pose proof (ic_registry _ _ _ (iw_core _ _ _ Hwf)) as Hreg.
  - cbn [close_owned_loop].
    destruct (owned_from_spec Hreg o s Ho) as [[-> Hnone]|(n & e & -> & Hle & Hn & Hob & Hbefore)].
    + exists k, l. split_and!; try done; [apply moves_refl|by split; [|left]|].
      intros n e Hle Hn Hob. by rewrite (Hnone n e) in Hob.
    + destruct (owned_nonnull o e Hob) as [Hz _]. rewrite Hz. cbn [negb].
      pose proof (owned_valid Hreg o n e Hn Hob) as Hv. rewrite (owned_next_spec Hreg o n e Hn Hob).
      assert (exists k1 l1, (if endpoint_closed k e then Some (true, k) else ipc_endpoint_close e k) = Some (true, k1) /\
        ipc_wf k1 l1 C /\ keeps_sched k k1 l l1 /\ moves k k1 [] /\ wakes k l C k1 l1 C /\ closes k k1 o /\
        e_closed (ept k1 e) = true) as (k1 & l1 & Hcl & Hwf1 & Hks1 & Hm1 & Ha1 & Hc1 & Hdone).
      { unfold endpoint_closed, endpoint_ready.
        destruct (valid_facts k e Hv) as (-> & -> & -> & _). rewrite (ic_system _ _ _ (iw_core _ _ _ Hwf)). cbn [andb].
        destruct (e_closed (ept k e)) eqn:Ec.
        - exists k, l. split_and!; try done; [apply moves_refl|]. by split; [|left].
        - pose proof (close_spec k l C e Hwf) as Hs. rewrite Hv, Ec in Hs. cbn [negb andb] in Hs.
          destruct Hs as (k1 & l1 & Hcl & Hwf1 & Hks & He & Hres & Hq & Hem). exists k1, l1. split_and!; try done.
          + by apply (close_moves k k1 l l1 C e).
          + by apply (close_wakes k k1 l l1 C e).
          + split; [done|]. intros x. rewrite He. case_decide as Ex; [subst; by right|by left].
          + rewrite He. by rewrite decide_True. }
      pose proof (lookup_lt_Some _ _ _ Hn) as Hlt.
      destruct (IH (S n) k1 l1 Hwf1) as (k2 & l2 & Hr & Hwf2 & Hks2 & Hm2 & Ha2 & Hc2 & Hall);
        [rewrite (cl_ept _ _ _ Hc1); lia|lia|].
      exists k2, l2. split_and!; try done.
      * destruct (endpoint_closed k e).
        -- injection Hcl as <-. exact Hr.
        -- rewrite Hcl. cbn [mbind option_bind negb].
           assert (endpoint_owned_from k1 o (Z.of_nat (S n)) = endpoint_owned_from k o (Z.of_nat (S n))) as <-; [|exact Hr].
           unfold endpoint_owned_from. rewrite (cl_ept _ _ _ Hc1). if_case; [done|]. f_equal.
           apply find_ext. intros x. by apply closes_owned.
      * by eapply keeps_trans.
      * by apply (moves_trans k k1 k2 [] []).
      * by eapply wakes_trans.
      * by eapply closes_trans.
      * intros m x Hm Hx Hxo. destruct (decide (m = n)) as [->|Hne].
        -- rewrite Hn in Hx. injection Hx as <-. by apply (closes_closed k1 k2 o).
        -- assert (n < m)%nat.
           { destruct (decide (m < n)%nat); [|lia]. rewrite (Hbefore m x) in Hxo by (done || lia). done. }
           apply (Hall m x); [lia|by rewrite (cl_ept _ _ _ Hc1)|by rewrite (closes_owned _ _ _ _ Hc1)].
Qed.

(** The whole call. *)
Lemma close_owned_call k l C o :
  ipc_wf k l C -> o <> 0 ->
  exists k' l', ipc_close_owned_endpoints o k = Some (true, k') /\ ipc_wf k' l' C /\ keeps_sched k k' l l' /\
    moves k k' [] /\ wakes k l C k' l' C /\ closes k k' o /\ endpoint_process_has_open_owned k' o = false /\
    forall e, ipc_endpoint_valid k e = true -> owned_by k o e = true -> e_closed (ept k' e) = true.
Proof.
  intros Hwf Ho. pose proof (ic_registry _ _ _ (iw_core _ _ _ Hwf)) as Hreg. pose proof (reg_length _ _ Hreg) as Hlen.
  destruct (close_owned_spec o C (S (Z.to_nat ENDPOINT_STORAGE_CAPACITY)) 0 k l Ho Hwf)
    as (k' & l' & Hr & Hwf' & Hks & Hm & Ha' & Hcl & Hall); [lia|lia|].
  pose proof (owned_storage Hreg) as Htake. exists k', l'. split_and!; try done.
  - unfold ipc_close_owned_endpoints, endpoint_owned_first.
    assert (nz o = true) as -> by (by apply negb_true_iff, Z.eqb_neq). exact Hr.
  - unfold endpoint_process_has_open_owned. rewrite (cl_ept _ _ _ Hcl), Htake. apply andb_false_iff. right.
    apply not_true_iff_false. intros Hex. apply existsb_exists in Hex as (e & Hin & He).
    apply list_elem_of_In, list_elem_of_lookup in Hin as [n Hn]. apply andb_true_iff in He as [Hob Hop].
    rewrite (closes_owned _ _ _ _ Hcl) in Hob. by rewrite (Hall n e) in Hop by (done || lia).
  - intros e Hv Hob. destruct (valid_facts _ _ Hv) as (Hl & _). unfold endpoint_live in Hl.
    rewrite (object_storage_find_live _ _ _ Hreg) in Hl. apply bool_decide_eq_true, elem_of_live in Hl as [_ Hl].
    apply list_elem_of_lookup in Hl as [n Hn]. apply (Hall n); [lia|done|done].
Qed.
