(* ===== verification/IpcEvents.v ===== *)
(** The kernel as seen by IPC: calls, resumptions, timer interrupts and
    scheduling events in any order. *)

From S2P Require Import Prelude Pmm ObjectStorage Kernel Objects Capability.
From S2P Require Import Endpoint Thread Ring Scheduler SchedulerProofs SchedulerWf.
From S2P Require Import SchedulerOps SchedulerTheorems Ipc IpcWf IpcOps.
From S2P Require Import IpcReserve IpcCalls IpcClose.

Open Scope jcos_scope.

(** * Scheduling events leave IPC alone *)

Lemma calm_switch f timer k : calm k (scheduler_switch_ready_from_interrupt f timer k).2.
Proof.
  unfold scheduler_switch_ready_from_interrupt. if_case; [calm|]. if_case; [calm|]. if_case; [calm|].
  destruct (scheduler_find_next_interrupt_thread _ _) as [c|]; [|if_case; cbn [snd]; calm].
  set (k1 := save_context _ _ _). assert (calm k k1) as H1 by (unfold k1; if_case; calm).
  pose proof (calm_activate c k1) as H2. destruct (thread_activate c k1) as [b k2]. cbn [snd] in H2.
  assert (calm k k2) by (by eapply calm_trans). repeat if_case; cbn [snd]; calm.
Qed.

Lemma calm_block f k r k' : scheduler_block_from_interrupt f k = Some (r, k') -> calm k k'.
Proof.
  unfold scheduler_block_from_interrupt. intros H. if_case_in H; [simplify_eq; calm|].
  if_case_in H; [simplify_eq; calm|]. if_case_in H; [simplify_eq; calm|].
  destruct (scheduler_find_next_interrupt_thread _ _) as [c|]; [|simplify_eq; calm].
  set (k1 := save_context _ _ _) in H. assert (calm k k1) as H1 by (unfold k1; calm).
  pose proof (calm_activate c k1) as H2. destruct (thread_activate c k1) as [b k2]. cbn [snd] in H2.
  assert (calm k k2) by (by eapply calm_trans). if_case_in H; [simplify_eq; calm|].
  pose proof (calm_unlink (thread_current (set_rax f 0 k)) k2) as H3.
  destruct (scheduler_unlink _ k2) as [b2 k3]. cbn [snd] in H3. if_case_in H; [done|]. simplify_eq.
  assert (calm k k3) by (by eapply calm_trans). calm.
Qed.

Lemma calm_resume f k r k' : scheduler_resume_from_idle f k = Some (r, k') -> calm k k'.
Proof.
  unfold scheduler_resume_from_idle. intros H. if_case_in H; [simplify_eq; calm|].
  if_case_in H; [done|]. if_case_in H; [simplify_eq; calm|].
  destruct (scheduler_find_idle_ready k) as [c|]; [|done].
  pose proof (calm_activate_from_idle c k) as H2. destruct (thread_scheduler_activate_from_idle c k) as [b k2].
  cbn [snd] in H2. if_case_in H; [done|]. simplify_eq. calm.
Qed.

Lemma calm_exit `{KernelStack} loop f counted k r k' :
  scheduler_exit_from_interrupt loop f counted k = Some (r, k') -> calm k k'.
Proof.
  unfold scheduler_exit_from_interrupt. intros Hx. if_case_in Hx; [done|]. if_case_in Hx; [done|].
  if_case_in Hx.
  - if_case_in Hx; [done|].
    assert (calm k (scheduler_idle_frame_build loop (sm_idle_stack_base (k_sch k)) (sm_idle_stack_top (k_sch k)) k).2) as H1
      by (unfold scheduler_idle_frame_build; repeat if_case; cbn [snd]; calm).
    destruct (scheduler_idle_frame_build _ _ _ _) as [[fr|] k1]; [|done]. cbn [snd] in H1. if_case_in Hx; [done|].
    pose proof (calm_unlink (thread_current k) k1) as H2. destruct (scheduler_unlink _ k1) as [b2 k2].
    cbn [snd] in H2. if_case_in Hx; [done|]. assert (calm k k2) by (by eapply calm_trans).
    set (k3 := drop_context _ _) in Hx. assert (calm k k3) as H3 by (unfold k3; calm).
    pose proof (calm_enter_idle (sm_idle_stack_top (k_sch k3)) k3) as H4.
    destruct (thread_scheduler_enter_idle _ k3) as [b4 k4]. cbn [snd] in H4. if_case_in Hx; [done|].
    assert (calm k k4) by (by eapply calm_trans). simplify_eq. if_case; calm.
  - destruct (scheduler_find_next_interrupt_thread _ _) as [c|]; [|done].
    pose proof (calm_activate c k) as H2. destruct (thread_activate c k) as [b k2]. cbn [snd] in H2.
    if_case_in Hx; [done|]. pose proof (calm_unlink (thread_current k) k2) as H3.
    destruct (scheduler_unlink _ k2) as [b3 k3]. cbn [snd] in H3. if_case_in Hx; [done|].
    assert (calm k k3) by (by eapply calm_trans). simplify_eq. if_case; calm.
Qed.

Lemma calm_trap `{KernelStack} loop op f k k' : trap loop op f k = Some k' -> calm k k'.
Proof.
  unfold trap, scheduler_reschedule. intros Hx.
  assert (calm k (set_rax f op k)) as H0 by calm.
  destruct (negb (nz f)); [simplify_eq; calm|].
  if_case_in Hx.
  - pose proof (calm_switch f false (set_rax f op k)) as H1.
    destruct (scheduler_switch_ready_from_interrupt _ _ _). simplify_eq. by eapply calm_trans.
  - if_case_in Hx.
    + destruct (scheduler_block_from_interrupt f _) as [[r k1]|] eqn:Eb; [|done]. simplify_eq.
      eapply calm_trans; [exact H0|by eapply calm_block].
    + if_case_in Hx; [|simplify_eq; calm].
      destruct (scheduler_exit_from_interrupt _ f _ _) as [[r k1]|] eqn:Eb; [|done]. simplify_eq.
      eapply calm_trans; [exact H0|by eapply calm_exit].
Qed.

Lemma calm_event `{KernelStack} loop e k k' : run_event loop e k = Some k' -> calm k k'.
Proof.
  destruct e as [f|f|f|f|t|t]; cbn [run_event]; intros Hx; try by eapply calm_trap.
  - unfold scheduler_preempt in Hx. if_case_in Hx.
    + destruct (scheduler_resume_from_idle f k) as [[r k1]|] eqn:Er; [|done]. simplify_eq. by eapply calm_resume.
    + if_case_in Hx; [simplify_eq; calm|]. pose proof (calm_switch f true k) as H1.
      destruct (scheduler_switch_ready_from_interrupt _ _ _). by simplify_eq.
  - simplify_eq. apply calm_wake.
  - simplify_eq. unfold scheduler_terminate_thread. if_case; [calm|]. if_case; [calm|].
    assert (forall k1, calm k k1 -> calm k (set_thr t (fun t => t <| t_state := THREAD_STATE_DEAD |>
      <| t_interrupt_rsp := 0 |> <| t_interrupt_context_ready := false |> <| t_run_next := 0 |>
      <| t_on_run_queue := false |>) k1)) as Hd
      by (intros k1 H1; eapply calm_trans; [exact H1|by apply calm_thr]).
    destruct (state_is k t THREAD_STATE_READY && t_on_run_queue (thr k t)); [|apply Hd, calm_refl].
    pose proof (calm_unlink t k) as H1. destruct (scheduler_unlink t k) as [b k1]. cbn [snd] in H1.
    if_case; cbn [snd]; [done|by apply Hd].
Qed.

(** * Scheduling events keep the continuations *)

Definition known_to (R : RunState) (t : Z) : Prop := t ∈ rs_list R \/ rs_blocked R t.

(** A thread leaves the scheduler only by its own exit or by termination. *)
Lemma run_step_known e R R' t :
  run_step e R R' -> known_to R t -> (exists f, e = EExit f /\ rs_current R = Some t) \/ e = ETerminate t \/ known_to R' t.
Proof.
  intros Hs Hk. destruct Hs as [f a cur b B B' HB|f a cur b B B' HB|f a cur b B B' HB|f l B B' HB|f cur B B' HB
    |f a cur b B B' Hne HB|f a cur b B B' HB|u l c B B' Hu HB|u l c B B' Hu HB|u a b c B B' Hc HB|u l c B B' Hu HB
    |u l c B B' HB]; unfold known_to in *; cbn in *; rewrite ?HB in *; try tauto.
  - destruct Hk as [Hin|Hb]; [|tauto]. destruct (decide (t = cur)) as [->|Hn]; [tauto|]. right. right. left. set_solver.
  - destruct Hk as [Hin|Hb]; [|tauto]. destruct (decide (t = cur)) as [->|Hn]; [left; by exists f|].
    right. right. left. set_solver.
  - right. right. destruct Hk as [Hin|Hb]; [left; set_solver|]. destruct (decide (t = u)) as [->|Hn]; [left; set_solver|tauto].
  - destruct Hk as [Hin|Hb]; [|tauto]. destruct (decide (t = u)) as [->|Hn]; [tauto|]. right. right. left. set_solver.
  - destruct (decide (t = u)) as [->|Hn]; tauto.
Qed.

Lemma run_step_queued e R R' t :
  run_step e R R' -> t ∈ rs_list R ->
  (exists f, (e = EExit f \/ e = EBlock f) /\ rs_current R = Some t) \/ e = ETerminate t \/ t ∈ rs_list R'.
Proof.
  intros Hs Hk. destruct Hs as [f a cur b B B' HB|f a cur b B B' HB|f a cur b B B' HB|f l B B' HB|f cur B B' HB
    |f a cur b B B' Hne HB|f a cur b B B' HB|u l c B B' Hu HB|u l c B B' Hu HB|u a b c B B' Hc HB|u l c B B' Hu HB
    |u l c B B' HB]; cbn in *; try tauto.
  - destruct (decide (t = cur)) as [->|Hn]; [left; exists f; tauto|]. right. right. set_solver.
  - destruct (decide (t = cur)) as [->|Hn]; [left; exists f; tauto|]. right. right. set_solver.
  - right. right. set_solver.
  - destruct (decide (t = u)) as [->|Hn]; [tauto|]. right. right. set_solver.
Qed.

Lemma queued_list k l l' t : sched_wf k l -> sched_wf k l' -> t ∈ l -> t ∈ l'.
Proof.
  intros H1 H2 Hin. pose proof (rl_queued _ _ (wf_list _ _ H2) t) as Hq.
  rewrite (rl_queued _ _ (wf_list _ _ H1) t), bool_decide_eq_true_2 in Hq by done.
  by symmetry in Hq; apply bool_decide_eq_true in Hq.
Qed.

(** Being queued or blocked does not depend on the list chosen for the ring. *)
Lemma located_list k l l' t : sched_wf k l -> sched_wf k l' -> located k l t -> located k l' t.
Proof. intros H1 H2 [Hin|Hb]; [left; by apply (queued_list k l)|by right]. Qed.

(** A block trap that finds another runnable thread gives it the processor. *)
Lemma block_leaves f k k' l l' :
  run_step (EBlock f) (run_state k l) (run_state k' l') -> NoDup l -> idle k = false -> (1 < length l)%nat ->
  current_of k' <> current_of k.
Proof.
  unfold run_state. intros Hs Hnd Hid Hlen E. remember (EBlock f) as ev eqn:Eev.
  rewrite Hid, E in Hs.
  remember (mkRunState l _ _) as R eqn:ER in Hs. remember (mkRunState l' _ _) as R' eqn:ER' in Hs.
  destruct Hs; simplify_eq; [cbn in Hlen; lia|]. 
  destruct (idle k'); [|simplify_eq].
  - match goal with H : hand_over a b = None |- _ => unfold hand_over in H; destruct (b ++ a); done end.
  - apply list.NoDup_app in Hnd as (_ & Hd & Hnd). apply list.NoDup_cons in Hnd as [Hnb _].
    assert (current_of k ∈ b ++ a) as Hin by (unfold hand_over in *; destruct (b ++ a) as [|x y]; simplify_eq; set_solver).
    apply elem_of_app in Hin as [Hin|Hin]; [done|]. apply (Hd _ Hin). set_solver.
Qed.

(** Every waiting thread stays queued or blocked, and stays queued unless it is
    the current thread and [S] holds. *)
Definition stays (S : Prop) (k : Kernel) (l : list Z) (k' : Kernel) (l' : list Z) : Prop :=
  forall t, thread_wait_active k t = true ->
    (located k l t -> located k' l' t) /\ (t ∈ l -> t ∈ l' \/ t = current_of k /\ S).

Section System.
  Context `{KernelStack} (idle_loop : Z).

(** A waiting thread stays queued or blocked, and only its own block trap takes
    it off the run list. *)
Lemma event_waiting k l k' l' e t :
  sched_wf k l -> sched_wf k' l' -> event_ok k e -> run_event idle_loop e k = Some k' ->
  run_step e (run_state k l) (run_state k' l') -> thread_wait_active k t = true ->
  (located k l t -> located k' l' t) /\ (t ∈ l -> t ∈ l' \/ exists f, e = EBlock f /\ t = current_of k).
Proof using All.
  intros Hs Hs' Hok Hr Hst Hact.
  assert (e = ETerminate t -> k' = k) as Hterm.
  { intros ->. cbn in Hr. unfold scheduler_terminate_thread in Hr. if_case_in Hr; [by simplify_eq|].
    rewrite Hact in Hr. by simplify_eq. }
  assert (forall f, e = EExit f -> rs_current (run_state k l) <> Some t) as Hexit.
  { intros f -> Hcur. destruct Hok as (Hid & _ & Hna & _). cbn in Hcur. rewrite Hid in Hcur. simplify_eq. congruence. }
  split.
  - intros Hl. destruct (run_step_known e _ _ t Hst Hl) as [(f & He & Hcur)|[He|Hk]]; [| |done].
    + by destruct (Hexit f He).
    + rewrite (Hterm He) in *. by apply (located_list k l l').
  - intros Hin. destruct (run_step_queued e _ _ t Hst Hin) as [(f & [He|He] & Hcur)|[He|Hk]]; [| | |by left].
    + by destruct (Hexit f He).
    + right. exists f. split; [done|]. cbn in Hcur. destruct (idle k); [done|]. by injection Hcur.
    + left. rewrite (Hterm He) in *. by apply (queued_list k l l').
Qed.

Lemma sched_event_call k l C e :
  ipc_wf k l C -> event_ok k e ->
  exists k' l', run_event idle_loop e k = Some k' /\ ipc_wf k' l' C /\ calm k k' /\
    run_step e (run_state k l) (run_state k' l') /\
    ((forall f, e = EBlock f -> C !! current_of k = None \/ pending k (current_of k) = true) ->
     awake k l C -> awake k' l' C) /\
    ((forall f w, e = EBlock f -> C !! current_of k = Some w -> stalled (k := k) (w := w)) ->
     prompt k l C -> prompt k' l' C).
Proof using All.
  intros Hwf Hok. pose proof (iw_core _ _ _ Hwf) as Hc.
  destruct (event_simulates idle_loop k l e (ic_sched _ _ _ Hc) Hok) as (k' & l' & Hr & Hwf' & Hs).
  pose proof (calm_event idle_loop e k k' Hr) as Hca. exists k', l'.
  assert (forall t w, C !! t = Some w -> (located k l t -> located k' l' t) /\
    (t ∈ l -> t ∈ l' \/ exists f, e = EBlock f /\ t = current_of k)) as Hwait.
  { intros t w Hw. apply (event_waiting k l k' l' e t); try done; [apply Hc|].
    apply (waiter_active k l t w). by apply (ic_waiter _ _ _ Hc). }
  split_and!; [done| |done|done| |].
  - split.
    + apply (core_frame k k' l); [done|by apply calm_frame|done|]. intros t w Hw.
      pose proof (ic_waiter _ _ _ Hc _ _ Hw) as Ho. split; [apply (Hwait t w Hw), Ho|].
      rewrite (result_calm _ _ t Hca). apply Ho.
    + intros x. rewrite (frame_valid k k') by (by apply calm_frame). intros Hv.
      apply (ept_ok_ext k); [by apply ept_calm| |by apply Hwf]. intros kind _. apply pending_ext. by apply result_calm.
  - intros Hb Ha t w Hw. unfold pending. rewrite (result_calm _ _ t Hca). fold (pending k t).
    destruct (Ha t w Hw) as [?|Hin]; [by left|].
    destruct (proj2 (Hwait t w Hw) Hin) as [?|(f & He & ->)]; [by right|].
    destruct (Hb f He) as [Hn|Hp]; [congruence|by left].
  - intros Hb Hpr t w Hw Hk. rewrite (ept_calm _ _ _ Hca). intros Hrd.
    destruct (proj2 (Hwait t w Hw) (Hpr t w Hw Hk Hrd)) as [?|(f & He & ->)]; [done|].
    rewrite (Hb f w He Hw Hk) in Hrd. done.
Qed.

(** * Sleeping and resuming *)

(** What follows [scheduler_wait_current] in the thread [t] that called it: a
    trap that comes back to [t] with zero is a failed wait. *)
Definition wait_step (t frame : Z) (c : IpcCall) (k : Kernel) : option (IpcCall * Kernel) :=
  match c with
  | Waits w (Return false) => ipc_resume w false k
  | Waits w (Trap op) =>
    k ← trap idle_loop op frame k;
    if (thread_current k =? t) && !nz (f_rax (frm k frame)) then ipc_resume w false k else Some (c, k)
  | _ => Some (c, k)
  end.

Definition resume_step (frame : Z) (w : Waiting) (k : Kernel) : option (IpcCall * Kernel) :=
  '(c, k1) ← ipc_resume w true k; wait_step (thread_current k) frame c k1.

(** A sleeping call gives the processor to another thread or waits for one
    interrupt; its continuation stays. *)
Lemma sleep_call k l C w frame r :
  ipc_wf k l C -> C !! current_of k = Some w -> idle k = false ->
  scheduler_interrupt_frame_valid k (current_of k) frame = true -> pending k (current_of k) = true ->
  stalled (k := k) (w := w) -> sleeps (k := k) (l := l) (w := w) r ->
  exists c k1 k' l', r = Some (c, k1) /\ wait_step (current_of k) frame c k1 = Some (c, k') /\
    after_call (current_of k) c C = C /\ ipc_wf k' l' C /\ moves k k' [] /\
    (hook_armed k = false -> hook_armed k' = false) /\ (forall b m, c <> Returned b m) /\
    wakes k l C k' l' C /\ stays True k l k' l'.
Proof using All.
  intros Hwf Hw Hid Hfv Hp Hsl [[-> Hlen]| ->].
  - assert (ipc_wf (count_park k) l C) as Hwf1 by (by apply wf_park).
    destruct (sched_event_call (count_park k) l C (EBlock frame) Hwf1) as (k' & l' & Hr & Hwf' & Hca & Hs & Haw & Hpr); [done|].
    eexists _, _, k', l'. split; [done|]. cbn [wait_step run_event] in *. rewrite Hr. cbn [mbind option_bind].
    assert (current_of k' <> current_of k) as Hne.
    { apply (block_leaves frame (count_park k) k' l l'); try done.
      apply (wf_list _ _ (ic_sched _ _ _ (iw_core _ _ _ Hwf))). }
    rewrite (thread_current_wf k' l') by apply Hwf'. rewrite (proj2 (Z.eqb_neq _ _) Hne). cbn [andb].
    split_and!; try done.
    + cbn. by rewrite insert_id.
    + apply moves_same; intros x; [by rewrite (ept_calm _ _ x Hca)|by rewrite (ca_wait _ _ Hca)].
    + unfold hook_armed. rewrite (ca_rest _ _ Hca). done.
    + split; [intros Ha; apply Haw; [by right|by apply (awake_same k)]|].
      intros Hq. apply Hpr; [|by apply (prompt_same k (count_park k) l l)].
      intros f w' _ Hw'. change (current_of (count_park k)) with (current_of k) in Hw'. rewrite Hw in Hw'.
      by injection Hw' as <-.
    + intros t Ht. destruct (event_waiting (count_park k) l k' l' (EBlock frame) t) as [H1 H2]; try done; [apply Hwf1|apply Hwf'|].
      split; [exact H1|]. intros Hin. destruct (H2 Hin) as [?|(? & _ & ->)]; [by left|by right].
  - eexists _, _, (count_idle_wait (count_park k)), l. split; [done|]. cbn [wait_step]. split_and!; try done.
    + cbn. by rewrite insert_id.
    + assert (ipc_wf (count_park k) l C) as Hwf1 by (by apply wf_park).
      apply (wf_same (count_park k)); try done. apply idle_wait_sched, Hwf1.
    + by apply moves_same.
    + intros t _. split; [done|by left].
Qed.

(** * Events *)

Inductive IpcEvent :=
  | ISend (p h : Z) (m : IpcMessage)
  | IReceive (p h : Z)
  | ISendBlocking (p h : Z) (m : IpcMessage) (timed : bool) (ticks : Z)
  | IReceiveBlocking (p h : Z) (timed : bool) (ticks : Z)
  | IResume (frame : Z)
  | IClose (e : Z)
  | ICloseOwned (owner : Z)
  | IAbort (t : Z)
  | ITimer
  | IArm (t e peer h : Z) (a : IpcWaitTestAction) (m : option IpcMessage)
  | IReset
  | ISched (e : SchedEvent).

Definition is_arm (e : IpcEvent) : bool := match e with IArm _ _ _ _ _ _ => true | _ => false end.

(** One event, with the log its results report. [IResume] is one turn of the
    wait loop of the current thread, up to and including the trap. *)
Definition ipc_step (e : IpcEvent) (k : Kernel) (C : gmap Z Waiting)
    : option (list IpcLog * Kernel * gmap Z Waiting) :=
  let t := thread_current k in
  match e with
  | ISend p h m =>
    '(b, k1) ← ipc_try_send p h m k;
    Some (send_log (ipc_resolve_endpoint k p h CAPABILITY_RIGHT_SEND) m b, k1, C)
  | IReceive p h =>
    '(r, k1) ← ipc_try_receive p h k;
    Some (receive_log k (ipc_resolve_endpoint k p h CAPABILITY_RIGHT_RECEIVE) r, k1, C)
  | ISendBlocking p h m timed ticks =>
    '(c, k1) ← ipc_send_enter p h m timed ticks k;
    Some (send_call_log (ipc_resolve_endpoint k p h CAPABILITY_RIGHT_SEND) m c, k1, after_call t c C)
  | IReceiveBlocking p h timed ticks =>
    '(c, k1) ← ipc_receive_enter p h timed ticks k;
    Some (receive_call_log k (ipc_resolve_endpoint k p h CAPABILITY_RIGHT_RECEIVE) c, k1, after_call t c C)
  | IResume frame =>
    w ← C !! t;
    '(c, k1) ← resume_step frame w k;
    Some (resume_log (k := k) (w := w) c, k1, after_call t c C)
  | IClose e => '(_, k1) ← ipc_endpoint_close e k; Some ([], k1, C)
  | ICloseOwned owner => '(_, k1) ← ipc_close_owned_endpoints owner k; Some ([], k1, C)
  | IAbort u => let '(b, k1) := ipc_abort_thread_wait u k in Some (abort_log k u b, k1, if b then delete u C else C)
  | ITimer => k1 ← timer_handle_irq k; Some ([], k1, C)
  | IArm u e peer h a m => Some ([], (ipc_wait_test_arm_before_park u e peer h a m k).2, C)
  | IReset => Some ([], ipc_wait_test_reset k, C)
  | ISched e => k1 ← run_event idle_loop e k; Some ([], k1, C)
  end.

(** A thread makes one call at a time, a call resumes in the thread that made
    it, with its frame on its own stack, and a thread inside a call blocks only
    through its wait loop. *)
Definition ipc_event_ok (k : Kernel) (C : gmap Z Waiting) (e : IpcEvent) : Prop :=
  match e with
  | ISendBlocking _ _ _ _ _ | IReceiveBlocking _ _ _ _ => C !! current_of k = None
  | IResume frame =>
    is_Some (C !! current_of k) /\ idle k = false /\
    scheduler_interrupt_frame_valid k (current_of k) frame = true
  | ISched e => event_ok k e /\ forall f, e = EBlock f -> C !! current_of k = None
  | _ => True
  end.

Definition step_ok (k : Kernel) (l : list Z) (C : gmap Z Waiting) (armed : bool) (r : option (list IpcLog * Kernel * gmap Z Waiting)) : Prop :=
  exists log k' C' l', r = Some (log, k', C') /\ ipc_wf k' l' C' /\ wakes k l C k' l' C' /\
    (armed = false -> hook_armed k = false -> hook_armed k' = false /\ moves k k' log).

Lemma steps_ok k l C log k' :
  steps_to k l C log k' -> step_ok k l C false (Some (log, k', C)).
Proof.
  intros (l' & Hwf & Hks & Hfl & Haw). exists log, k', C, l'. split_and!; try done. intros _ Hh. split; [by apply Hks|done].
Qed.

Lemma call_step k l C lg r :
  call_ok k l C lg r -> thread_current k = current_of k ->
  step_ok k l C false ('(c, k1) ← r; Some (lg c, k1, after_call (thread_current k) c C)).
Proof.
  intros (c & k' & l' & log & -> & Hks & Hwf & Hfl & Hlog & Haw) Ht. cbn [mbind option_bind]. rewrite Ht.
  eexists _, k', _, l'. split_and!; try done. intros _ Hh. split; [by apply Hks|]. by rewrite <- (Hlog Hh).
Qed.

Lemma close_owned_steps o k l C :
  ipc_wf k l C -> exists b k', ipc_close_owned_endpoints o k = Some (b, k') /\ steps_to k l C [] k'.
Proof.
  intros Hwf. destruct (decide (o = 0)) as [->|Ho].
  - eexists _, _. split; [done|by apply steps_refl].
  - destruct (close_owned_call k l C o Hwf Ho) as (k' & l' & Hr & Hwf' & Hks & Hm & Haw & _).
    eexists _, _. split; [done|]. by exists l'.
Qed.

Lemma wf_clock k l C f : ipc_wf k l C -> ipc_wf (k <| k_tim := f |>) l C.
Proof.
  intros Hwf. apply (wf_same k); try done. pose proof (ic_sched _ _ _ (iw_core _ _ _ Hwf)) as Hs.
  apply (sched_wf_rebuild k _ l l Hs); try done; try apply Hs. apply (run_list_frame k); [done|done|apply Hs].
Qed.

Lemma times_out_pending k now L t : times_out k now L t = true -> pending k t = true.
Proof.
  unfold times_out. intros (i & _ & Ht)%existsb_exists. apply andb_true_iff in Ht as [Hx Ht%Z.eqb_eq]. subst t.
  unfold expired in Hx. apply andb_true_iff in Hx as [Hx _]. by apply andb_true_iff in Hx as [_ Hx].
Qed.

Lemma timer_call k l C :
  ipc_wf k l C -> exists k', timer_handle_irq k = Some k' /\ steps_to k l C [] k'.
Proof.
  intros Hwf. unfold timer_handle_irq. if_case; [eexists; split; [done|by apply steps_refl]|].
  set (k1 := k <| k_tim := _ |>). assert (ipc_wf k1 l C) as Hwf1 by (by apply wf_clock).
  destruct (poll_spec (timer_ticks k1) k1 l C Hwf1) as (k' & l' & -> & Hwf' & [? ? Hl Hqd ?] & _ & Hres & Hq & Hm).
  eexists. split; [done|]. exists l'. split_and!; [done|by split|split; [apply flow_same; apply Hm|]|split].
  - assert (forall e t, owed k' e t = owed k1 e t) as Ho; [|by apply ledger_nil].
    apply (owed_results k1 k' l l' C); [apply Hwf1|apply Hwf'|]. intros t. unfold completed. rewrite Hres.
    destruct (times_out k1 _ _ t) eqn:Hto; [|done]. apply times_out_pending, pending_iff in Hto. by rewrite Hto.
  - apply awake_results; [done|]. intros t. rewrite Hres. destruct (times_out _ _ _ t) eqn:Hto; [right; by apply Hq|by left].
  - apply prompt_same; [done|]. intros x. specialize (Hm x). unfold mailbox in Hm. by injection Hm as _ -> _.
Qed.

(** A turn of the loop goes back to sleep or ends the call. *)
Lemma resume_cases k l C frame w :
  ipc_wf k l C -> C !! current_of k = Some w -> idle k = false ->
  (pending k (current_of k) = true /\ stalled (k := k) (w := w) /\
   sleeps (k := k) (l := l) (w := w) (ipc_resume w true k)) \/
  exists c k1, ipc_resume w true k = Some (c, k1) /\ (forall t, wait_step t frame c k1 = Some (c, k1)) /\
    call_ok k l C (resume_log (k := k) (w := w)) (ipc_resume w true k).
Proof using.
  intros Hwf Hw Hid. destruct (iterate_call Hwf Hw Hid) as [Hok|Hs]; [|by left].
  destruct Hok as (c & k1 & l1 & log & Hr & Hok).
  destruct c as [b m|w'|w' c]; [right|right|left; by apply (resume_waits Hwf Hw Hid w' c k1)];
    (eexists _, k1; split_and!; [done|done|by eexists _, _, _, _]).
Qed.

Lemma resume_call k l C frame w :
  ipc_wf k l C -> C !! current_of k = Some w -> idle k = false ->
  scheduler_interrupt_frame_valid k (current_of k) frame = true ->
  step_ok k l C false ('(c, k1) ← resume_step frame w k;
                   Some (resume_log (k := k) (w := w) c, k1, after_call (thread_current k) c C)).
Proof.
  intros Hwf Hw Hid Hfv. assert (thread_current k = current_of k) as Ht by (apply (thread_current_wf k l), Hwf).
  unfold resume_step.
  destruct (resume_cases k l C frame w Hwf Hw Hid) as [(Hp & Hsl & Hs)|(c & k1 & Hr & Hws & Hok)].
  - destruct (sleep_call k l C w frame _ Hwf Hw Hid Hfv Hp Hsl Hs)
      as (c & k1 & k' & l' & -> & Hst & Haf & Hwf' & Hfl & Hh & Hn & Haw & _).
    cbn [mbind option_bind]. rewrite Ht, Hst. cbn [mbind option_bind]. rewrite Haf.
    exists [], k', C, l'. split; [|split_and!; [done|done|by intros _ Ha; split; [apply Hh|]]]. repeat f_equal. unfold resume_log, receive_call_log.
    destruct c; [by destruct (Hn result message)|by destruct (bool_decide _)|by destruct (bool_decide _)].
  - pose proof (call_step k l C _ _ Hok Ht) as Hcs. rewrite Hr in Hcs |- *. cbn [mbind option_bind] in *.
    rewrite Hws. apply Hcs.
Qed.

Lemma reset_moves k : moves k (ipc_wait_test_reset k) [].
Proof. by apply moves_same. Qed.

(** Any event keeps the invariant and does not halt. *)
Lemma event_step k l C e :
  ipc_wf k l C -> ipc_event_ok k C e -> step_ok k l C (is_arm e) (ipc_step e k C).
Proof using All.
  intros Hwf Hok. assert (thread_current k = current_of k) as Ht by (apply (thread_current_wf k l), Hwf).
  destruct e as [p h m|p h|p h m timed ticks|p h timed ticks|frame|e|o|u| |u e peer h a m| |e]; cbn [ipc_step is_arm].
  - destruct (try_send_call k l C p h m Hwf) as (b & k1 & -> & Hs). by eapply steps_ok.
  - destruct (try_receive_call k l C p h Hwf) as (b & k1 & -> & Hs). by eapply steps_ok.
  - eapply call_step; [by apply send_enter_call|done].
  - eapply call_step; [by apply receive_enter_call|done].
  - destruct Hok as ([w Hw] & Hid & Hfv). rewrite Ht, Hw, <- Ht. by apply (resume_call k l C frame w).
  - destruct (close_call k l C e Hwf) as (b & k1 & -> & Hs). by eapply steps_ok.
  - destruct (close_owned_steps o k l C Hwf) as (b & k1 & -> & Hs). by eapply steps_ok.
  - pose proof (abort_call k l C u Hwf) as Ha. destruct (ipc_abort_thread_wait u k) as [b k1].
    destruct Ha as (Hwf' & Hks & Hfl & Hled & Haw). eexists _, k1, _, l. split_and!; try done.
    intros _ Hh. split; [by apply Hks|]. split; [by apply abort_flow|done].
  - destruct (timer_call k l C Hwf) as (k1 & -> & Hs). by eapply steps_ok.
  - unfold ipc_wait_test_arm_before_park. repeat if_case; eexists _, _, C, l; (split; [done|]; split; [by try apply wf_hook|]; split; [by try apply wakes_same|done]).
  - eexists _, _, C, l. split; [done|]. split; [by apply wf_hook|].
    split; [by apply wakes_same|]. intros _ _. split; [done|apply reset_moves].
  - destruct Hok as [Hok Hblk].
    destruct (sched_event_call k l C e Hwf Hok) as (k1 & l1 & -> & Hwf1 & Hca & _ & Haw & Hpr).
    eexists _, k1, C, l1. split_and!; [done|done| |].
    { split; [apply Haw; intros f Ef; left; by apply (Hblk f)|]. apply Hpr. intros f w Ef Hw.
      by rewrite (Hblk f Ef) in Hw. }
    intros _ Hh. split.
    + unfold hook_armed. by rewrite (ca_rest _ _ Hca).
    + apply moves_same; intros x; [by rewrite (ept_calm _ _ x Hca)|by rewrite (ca_wait _ _ Hca)].
Qed.

Fixpoint ipc_run (es : list IpcEvent) (k : Kernel) (C : gmap Z Waiting)
    : option (list IpcLog * Kernel * gmap Z Waiting) :=
  match es with
  | [] => Some ([], k, C)
  | e :: es =>
    '(log, k1, C1) ← ipc_step e k C;
    '(log', k2, C2) ← ipc_run es k1 C1;
    Some (log ++ log', k2, C2)
  end.

Fixpoint ipc_events_ok (k : Kernel) (C : gmap Z Waiting) (es : list IpcEvent) : Prop :=
  match es with
  | [] => True
  | e :: es => ipc_event_ok k C e /\ forall log k1 C1, ipc_step e k C = Some (log, k1, C1) -> ipc_events_ok k1 C1 es
  end.

Lemma run_ok es k l C :
  ipc_wf k l C -> ipc_events_ok k C es -> step_ok k l C (existsb is_arm es) (ipc_run es k C).
Proof using All.
  revert k l C. induction es as [|e es IH]; intros k l C Hwf Hok.
  - exists [], k, C, l. split_and!; try done. intros _ Hh. split; [done|apply moves_refl].
  - destruct Hok as [He Hes]. cbn [ipc_run existsb].
    destruct (event_step k l C e Hwf He) as (log & k1 & C1 & l1 & Hs & Hwf1 & Haw1 & Hf1). rewrite Hs. cbn [mbind option_bind].
    destruct (IH k1 l1 C1 Hwf1 (Hes _ _ _ Hs)) as (log2 & k2 & C2 & l2 & -> & Hwf2 & Haw2 & Hf2). cbn [mbind option_bind].
    eexists _, k2, C2, l2. split_and!; [done|done|by eapply wakes_trans|]. intros Ha Hh. apply orb_false_iff in Ha as [Ha1 Ha2].
    destruct (Hf1 Ha1 Hh) as [Hh1 Hfl1]. destruct (Hf2 Ha2 Hh1) as [Hh2 Hfl2]. split; [done|]. by eapply moves_trans.
Qed.

End System.
