(* ===== verification/IpcTheorems.v ===== *)
(** The theorems of message passing.

    The concrete machine of the witnesses adds an endpoint and a capability
    with both rights to the scheduler's demonstration machine. *)

From S2P Require Import Prelude Pmm ObjectStorage Kernel Objects Capability.
From S2P Require Import Endpoint Thread Ring Scheduler SchedulerProofs SchedulerWf.
From S2P Require Import SchedulerOps SchedulerTheorems Ipc IpcWf IpcOps.
From S2P Require Import IpcReserve IpcCalls IpcClose IpcEvents.

Open Scope jcos_scope.

(** * A concrete machine *)

Definition demo_endpoints : gmap Z Endpoint :=
  {[ 0x6000 := endpoint_zero <| e_id := 1 |> <| e_owner_process_id := 1 |>
                 <| e_initialized := true |> <| e_capability_refs := 1 |> ]}.

Definition ipc_demo : Kernel :=
  sched_demo
  <| k_endpoints := demo_endpoints |>
  <| k_ept := mkObjectMod 2 true (0x6000 :: replicate 255 0) |>
  <| k_tables := {[ caps_of g_kernel_process :=
       mkCapabilityTable (mkCapabilitySlot 0x6000 1 0x60 1 CAPABILITY_TYPE_ENDPOINT true :: replicate 63 slot_zero) 1 true ]} |>
  <| k_cap := mkCapMod (caps_of g_kernel_process :: replicate 255 0) (2 :: replicate 63 1) true |>
  <| k_tim := mkTimerMod 100 true |>.

Definition demo_handle : Z := make_handle 1 0.

Definition demo_message (n : Z) : IpcMessage := mkIpcMessage [n; n + 1; 0; 0] 2.

Lemma quiet_objects k eps em tbs cm tim :
  quiet k (k <| k_endpoints := eps |> <| k_ept := em |> <| k_tables := tbs |> <| k_cap := cm |> <| k_tim := tim |>).
Proof. by split; [split|..]. Qed.

Lemma ipc_demo_sched : sched_wf ipc_demo [0x1000; 0x2000].
Proof. unfold ipc_demo. eapply quiet_sched; [apply quiet_objects|apply sched_demo_wf]. Qed.

Lemma ipc_demo_ept e : ipc_endpoint_valid ipc_demo e = true -> e = 0x6000.
Proof.
  unfold ipc_endpoint_valid, ept. change (k_endpoints ipc_demo) with demo_endpoints. unfold demo_endpoints. intros H.
  destruct (decide (e = 0x6000)) as [->|Hne]; [done|].
  rewrite lookup_singleton_ne in H by done. cbn [default e_initialized endpoint_zero] in H.
  by rewrite andb_false_r in H.
Qed.

Lemma ipc_demo_idle t : ipc_kind (t_wait_kind (thr ipc_demo t)) = false.
Proof. change (thr ipc_demo t) with (thr sched_demo t). demo_cases t; [by vm_compute..|done]. Qed.

Lemma ipc_demo_free i : timed_index i -> w_occupied (timed_at ipc_demo i) = false.
Proof.
  intros Hi. unfold timed_at. change (im_timed_waits (k_ipc ipc_demo)) with (replicate 512 timed_wait_zero).
  rewrite lookup_total_replicate_2; [done|]. unfold timed_index, IPC_TIMED_WAIT_CAPACITY, ENDPOINT_STORAGE_CAPACITY in Hi. lia.
Qed.

Lemma ipc_demo_wf : ipc_wf ipc_demo [0x1000; 0x2000] ∅.
Proof.
  split; [split|].
  - apply ipc_demo_sched.
  - done.
  - split; [by vm_compute|]. apply (bool_decide_unpack _). by vm_compute.
  - intros t w Hw. by rewrite lookup_empty in Hw.
  - intros t _. apply ipc_demo_idle.
  - intros e kind ->%ipc_demo_ept Hk. left. by destruct kind; vm_compute.
  - split.
    + by vm_compute.
    + intros i Hi Ho. by rewrite ipc_demo_free in Ho.
    + intros i j Hi _ Ho. by rewrite ipc_demo_free in Ho.
    + intros t w Hw. by rewrite lookup_empty in Hw.
  - intros e ->%ipc_demo_ept. split; [split|..]; try (by vm_compute).
    intros [H _]. by destruct H.
Qed.

(** The boolean guard of an event. *)
Definition ipc_event_okb (k : Kernel) (C : gmap Z Waiting) (e : IpcEvent) : bool :=
  match e with
  | ISendBlocking _ _ _ _ _ | IReceiveBlocking _ _ _ _ => negb (bool_decide (is_Some (C !! current_of k)))
  | IResume frame =>
    bool_decide (is_Some (C !! current_of k)) && !idle k && scheduler_interrupt_frame_valid k (current_of k) frame
  | ISched e => event_okb k e &&
    match e with EBlock _ => negb (bool_decide (is_Some (C !! current_of k))) | _ => true end
  | _ => true
  end.

#[local] Instance ipc_demo_stack : KernelStack := { kernel_stack_mapping_valid := fun _ _ _ => true }.

Fixpoint ipc_events_okb (k : Kernel) (C : gmap Z Waiting) (es : list IpcEvent) : bool :=
  match es with
  | [] => true
  | e :: es => ipc_event_okb k C e &&
    match ipc_step 0x5000 e k C with Some (_, k1, C1) => ipc_events_okb k1 C1 es | None => true end
  end.

Lemma event_okb_sound e k : event_okb k e = true -> event_ok k e.
Proof.
  intros He. assert (events_ok 0x5000 k [e]) as [H _]; [|exact H].
  apply events_okb_sound. cbn. rewrite He. by destruct (run_event _ _ _).
Qed.

Lemma ipc_events_okb_sound es k C : ipc_events_okb k C es = true -> ipc_events_ok 0x5000 k C es.
Proof.
  revert k C. induction es as [|e es IH]; intros k C H; [done|]. cbn [ipc_events_okb] in H.
  apply andb_true_iff in H as [He Hes]. split.
  - clear Hes. destruct e; cbn in He |- *; try done.
    + apply negb_true_iff, bool_decide_eq_false in He. by apply eq_None_not_Some.
    + apply negb_true_iff, bool_decide_eq_false in He. by apply eq_None_not_Some.
    + apply andb_true_iff in He as [He Hf]. apply andb_true_iff in He as [Hs Hi].
      apply bool_decide_eq_true in Hs. by apply negb_true_iff in Hi.
    + apply andb_true_iff in He as [He Hb]. split; [by apply event_okb_sound|]. intros f ->.
      apply negb_true_iff, bool_decide_eq_false in Hb. by apply eq_None_not_Some.
  - intros log k' C' Hk. rewrite Hk in Hes. by apply IH.
Qed.

(** A receiver blocks and is woken by a message; a sender blocks behind a full
    mailbox and is woken by a receive; a timed receive runs into its deadline. *)
Definition ipc_demo_events : list IpcEvent :=
  let p := g_kernel_process in let h := demo_handle in
  [IReceiveBlocking p h true 5; IResume 0x103000; ISend p h (demo_message 7); ITimer; ISched (EYield 0x203000);
   IResume 0x103000;
   ISend p h (demo_message 8); ISendBlocking p h (demo_message 9) false 0; IResume 0x103000; IReceive p h;
   ISched (EYield 0x203000); IResume 0x103000; IReceive p h;
   IReceiveBlocking p h true 1; IResume 0x103000; ITimer; ISched (EYield 0x203000); IResume 0x103000].

(** * Scheduling between two pieces of a call *)

Section Between.
  Context `{KernelStack} (idle_loop : Z).

Lemma sched_run ss k l C :
  ipc_wf k l C -> ipc_events_ok idle_loop k C (map ISched ss) ->
  exists k' l', ipc_run idle_loop (map ISched ss) k C = Some ([], k', C) /\ ipc_wf k' l' C /\ calm k k'.
Proof using All.
  revert k l. induction ss as [|e ss IH]; intros k l Hwf Hok; [exists k, l; split_and!; [done|done|apply calm_refl]|].
  destruct Hok as [[He _] Hes]. destruct (sched_event_call idle_loop k l C e Hwf He) as (k1 & l1 & Hr & Hwf1 & Hca & _).
  assert (ipc_step idle_loop (ISched e) k C = Some ([], k1, C)) as Hs by (cbn; by rewrite Hr).
  destruct (IH k1 l1 Hwf1 (Hes _ _ _ Hs)) as (k2 & l2 & Hr2 & Hwf2 & Hca2). exists k2, l2.
  split_and!; [|done|by eapply calm_trans]. cbn [map ipc_run]. rewrite Hs. cbn [mbind option_bind]. by rewrite Hr2.
Qed.

(** A receiver whose message has arrived takes it when it runs. *)
Lemma resume_receives k l C t w :
  ipc_wf k l C -> C !! t = Some w -> wt_kind w = THREAD_WAIT_IPC_RECEIVE -> pending k t = true ->
  e_message_ready (ept k (wt_endpoint w)) = true -> idle k = false -> current_of k = t ->
  exists k' l', ipc_resume w true k = Some (Returned true (e_message (ept k (wt_endpoint w))), k') /\
    ipc_wf k' l' (delete t C).
Proof using.
  intros Hwf Hw Hk Hp Hr Hid <-. pose proof (iw_core _ _ _ Hwf) as Hc. pose proof (ic_waiter _ _ _ Hc _ _ Hw) as Ho.
  destruct (receive_takes Hwf Hw Hid Hk Hp Hr) as (k' & l' & Ht & _ & Hwf' & _). exists k', l'. split; [|done].
  rewrite <- Ht. unfold ipc_resume, ipc_receive_iterate, take_message. rewrite Hk, bool_decide_eq_true_2 by done.
  rewrite (thread_current_wf k l) by apply Hc. rewrite (message_ready_valid k l C _ Hc (wo_valid _ _ _ _ Ho)), Hr, Hp.
  pose proof (wo_match _ _ _ _ Ho) as Hm. rewrite Hk in Hm.
  by rewrite Hm, (reservation_valid k l C _ _ Hc (wo_valid _ _ _ _ Ho)).
Qed.

End Between.

(** A waiter that is not runnable waits for something that has not happened. *)
Lemma waiter_stalled k l C :
  ipc_wf k l C -> awake k l C -> prompt k l C -> forall t w, C !! t = Some w ->
  let e := ept k (wt_endpoint w) in
  (t ∈ l /\ t_state (thr k t) <> THREAD_STATE_BLOCKED) \/
  (t_state (thr k t) = THREAD_STATE_BLOCKED /\ pending k t = true /\ e_closed e = false /\
   (wt_kind w = THREAD_WAIT_IPC_RECEIVE -> e_message_ready e = false) /\
   (wt_kind w = THREAD_WAIT_IPC_SEND -> e_message_ready e = true /\ e_waiting_sender_message_ready e = true)).
Proof.
  intros Hwf Ha Hpr t w Hw. cbn zeta. pose proof (iw_core _ _ _ Hwf) as Hc. pose proof (ic_waiter _ _ _ Hc _ _ Hw) as Ho.
  destruct (wo_where _ _ _ _ Ho) as [Hin|Hb]; [left|right].
  { split; [done|]. by apply (member_not_blocked k l t (ic_sched _ _ _ Hc)). }
  destruct (blocked_unqueued k l t (ic_sched _ _ _ Hc) Hb) as [Hn _].
  assert (pending k t = true) as Hp by (by destruct (Ha t w Hw)).
  pose proof (iw_ept _ _ _ Hwf _ (wo_valid _ _ _ _ Ho)) as Hep. pose proof (waiter_nonnull _ _ _ _ Ho) as Hz.
  pose proof (wo_thread _ _ _ _ Ho) as Hth. pose proof (wo_kind _ _ _ _ Ho) as Hk. split_and!; try done.
  - destruct (e_closed _) eqn:Hcl; [|done]. destruct (eo_closed _ _ Hep Hcl) as (_ & H1 & H2).
    destruct (wt_kind w); try done; waiting_simpl; rewrite Hth in *; [specialize (H1 Hz)|specialize (H2 Hz)]; congruence.
  - intros Ek. destruct (e_message_ready _) eqn:Hr; [|done]. by destruct Hn; apply (Hpr t w).
  - intros Ek. rewrite Ek in Hth. waiting_simpl.
    assert (e_waiting_sender_message_ready (ept k (wt_endpoint w)) = true) as Hst by (apply Hep; by rewrite Hth).
    split; [by apply Hep|done].
Qed.

(** * Theorems *)

(** C13. Message passing never halts the machine: from a state that satisfies
    the invariant, every sequence of sends, receives, blocking calls, turns of
    wait loops, closes, aborts, timer interrupts, hook settings and scheduling
    events runs to its end and the invariant holds again. So the consistency
    checks of [ipc.c] that call [cpu_halt_forever] never fire. *)
Theorem ipc_never_halts `{KernelStack} (idle_loop : Z) (es : list IpcEvent) (k : Kernel) (l : list Z)
    (C : gmap Z Waiting) :
  ipc_wf k l C -> ipc_events_ok idle_loop k C es ->
  exists log k' C' l', ipc_run idle_loop es k C = Some (log, k', C') /\ ipc_wf k' l' C'.
Proof.
  intros Hwf Hok. destruct (run_ok idle_loop es k l C Hwf Hok) as (log & k' & C' & l' & Hr & Hwf' & _).
  by exists log, k', C', l'.
Qed.

(** C14. No wake-up is lost: whatever happens, a thread inside a blocking call
    is runnable unless what it waits for has not happened. A thread that is
    blocked has a pending outcome (so one whose call is completed, closed, timed
    out or cancelled is on the run list), its endpoint is open, a blocked
    receiver's mailbox is empty, and a blocked sender's mailbox is full with its
    message staged behind it. *)
Theorem ipc_no_lost_wakeup `{KernelStack} (idle_loop : Z) (es : list IpcEvent) (k : Kernel) (l : list Z)
    (C : gmap Z Waiting) :
  ipc_wf k l C -> awake k l C -> prompt k l C -> ipc_events_ok idle_loop k C es ->
  exists log k' C' l', ipc_run idle_loop es k C = Some (log, k', C') /\ ipc_wf k' l' C' /\
    forall t w, C' !! t = Some w -> let e := ept k' (wt_endpoint w) in
      (t ∈ l' /\ t_state (thr k' t) <> THREAD_STATE_BLOCKED) \/
      (t_state (thr k' t) = THREAD_STATE_BLOCKED /\ pending k' t = true /\ e_closed e = false /\
       (wt_kind w = THREAD_WAIT_IPC_RECEIVE -> e_message_ready e = false) /\
       (wt_kind w = THREAD_WAIT_IPC_SEND -> e_message_ready e = true /\ e_waiting_sender_message_ready e = true)).
Proof.
  intros Hwf Ha Hpr Hok.
  destruct (run_ok idle_loop es k l C Hwf Hok) as (log & k' & C' & l' & Hr & Hwf' & [Haw Hpw] & _).
  exists log, k', C', l'. split; [done|]. split; [done|]. intros t w Hw. by apply (waiter_stalled k' l' C'); auto.
Qed.

(** C15. Messages are neither lost, duplicated nor reordered, while the
    diagnostic hook is not armed: at an endpoint that is still open, the messages
    accepted, after what was in the mailbox, are those reported delivered,
    followed by what is in the mailbox. A message counts as accepted when its
    send reports success at once or, for a blocked sender, when a receive takes
    it over; and blocked sends report truthfully: for every thread and endpoint,
    the takeovers are exactly the blocked sends that returned true, those aborted
    after their takeover, and the one that has still to return. *)
Theorem ipc_fifo `{KernelStack} (idle_loop : Z) (es : list IpcEvent) (k : Kernel) (l : list Z)
    (C : gmap Z Waiting) :
  ipc_wf k l C -> hook_armed k = false -> existsb is_arm es = false -> ipc_events_ok idle_loop k C es ->
  exists log k' C', ipc_run idle_loop es k C = Some (log, k', C') /\
    (forall e, e_closed (ept k' e) = false ->
      mail (ept k e) ++ accepted e log = delivered e log ++ mail (ept k' e)) /\
    (forall e t, (Nat.b2n (owed k e t) + tally (commits e t) log =
      tally (reports e t) log + tally (forgoes e t) log + Nat.b2n (owed k' e t))%nat).
Proof.
  intros Hwf Hh Harm Hok. destruct (run_ok idle_loop es k l C Hwf Hok) as (log & k' & C' & l' & Hr & _ & _ & Hf).
  exists log, k', C'. destruct (Hf Harm Hh) as [_ [[Hm _] Hled]]. split_and!; [done| |exact Hled].
  intros e He. destruct (Hm e) as [?|E]; [congruence|exact E].
Qed.

(** C16. A message sent by capability to an endpoint with a blocked receiver
    reaches that receiver: the send succeeds and makes the receiver runnable,
    and whatever the scheduler does until the receiver runs, its call returns
    true with the message that was sent. *)
Theorem message_reaches_receiver `{KernelStack} (idle_loop : Z) (k : Kernel) (l : list Z) (C : gmap Z Waiting)
    (t p h : Z) (w : Waiting) (m : IpcMessage) :
  ipc_wf k l C -> C !! t = Some w -> wt_kind w = THREAD_WAIT_IPC_RECEIVE -> pending k t = true ->
  e_message_ready (ept k (wt_endpoint w)) = false -> ipc_message_valid m = true ->
  ipc_resolve_endpoint k p h CAPABILITY_RIGHT_SEND = wt_endpoint w ->
  exists k1 l1, ipc_try_send p h m k = Some (true, k1) /\ ipc_wf k1 l1 C /\ t ∈ l1 /\
    forall ss k2, ipc_events_ok idle_loop k1 C (map ISched ss) ->
      ipc_run idle_loop (map ISched ss) k1 C = Some ([], k2, C) -> idle k2 = false -> current_of k2 = t ->
      exists k3 l3, ipc_resume w true k2 = Some (Returned true (stored m), k3) /\ ipc_wf k3 l3 (delete t C).
Proof.
  intros Hwf Hw Hk Hp Hr Hm Hres. pose proof (iw_core _ _ _ Hwf) as Hc. pose proof (ic_waiter _ _ _ Hc _ _ Hw) as Ho.
  pose proof (wo_valid _ _ _ _ Ho) as Hv. pose proof (wo_thread _ _ _ _ Ho) as Hth. rewrite Hk in Hth. waiting_simpl.
  pose proof (send_locked_spec k l C (wt_endpoint w) m Hwf) as Hs.
  assert (send_possible k (wt_endpoint w) m = true) as Hpos.
  { unfold send_possible. rewrite Hv, Hm, Hr, Hth, Hp, orb_true_r. cbn [negb andb]. rewrite !andb_true_r.
    apply negb_true_iff. destruct (e_closed _) eqn:Ecl; [|done].
    destruct (eo_closed _ _ (iw_ept _ _ _ Hwf _ Hv) Ecl) as (_ & Hcl & _). rewrite Hth in Hcl.
    rewrite Hcl in Hp; [done|]. by apply (waiter_nonnull _ _ _ _ Ho). }
  rewrite Hpos in Hs. destruct Hs as (k1 & l1 & Hs & Hwf1 & _ & He & Hresult & Hq). exists k1, l1.
  rewrite Hth in Hq. split_and!; [|done|apply Hq; by apply (waiter_nonnull _ _ _ _ Ho)|].
  - unfold ipc_try_send. rewrite Hm, Hres. destruct (valid_facts _ _ Hv) as (_ & _ & _ & ->). cbn [negb].
    destruct (nz p) eqn:Hz; [done|]. exfalso. unfold ipc_resolve_endpoint, process_capabilities in Hres.
    assert (process_usable k p = false) as Hu.
    { apply negb_false_iff, Z.eqb_eq in Hz. subst p. unfold process_usable, process_storage_in_use. by rewrite ?andb_false_r. }
    rewrite Hu in Hres. cbn in Hres. destruct (valid_facts _ _ Hv) as (_ & _ & _ & Hz'). by rewrite <- Hres in Hz'.
  - intros ss k2 Hok Hrun Hid Hcur. destruct (sched_run idle_loop ss k1 l1 C Hwf1 Hok) as (k2' & l2 & Hrun' & Hwf2 & Hca).
    rewrite Hrun in Hrun'. injection Hrun' as <-.
    assert (e_message (ept k2 (wt_endpoint w)) = stored m /\ e_message_ready (ept k2 (wt_endpoint w)) = true) as [Em Er].
    { rewrite (ept_calm _ _ _ Hca), He, decide_True by done. done. }
    rewrite <- Em. apply (resume_receives k2 l2 C t w); try done. unfold pending.
    by rewrite (result_calm _ _ t Hca), Hresult.
Qed.

(** C17. Closing an open endpoint settles it for good: it succeeds, every
    registered waiter is runnable and no longer pending, a pending one with the
    outcome PEER_CLOSED, the message is dropped, other endpoints are untouched,
    and no later send, receive or close at this endpoint succeeds or changes
    anything. *)
Theorem close_settles (k : Kernel) (l : list Z) (C : gmap Z Waiting) (e : Z) :
  ipc_wf k l C -> ipc_endpoint_valid k e = true -> e_closed (ept k e) = false ->
  exists k' l', ipc_endpoint_close e k = Some (true, k') /\ ipc_wf k' l' C /\
    (forall t, waits_at k e t = true -> t ∈ l' /\ pending k' t = false /\
       (pending k t = true -> t_wait_result (thr k' t) = THREAD_WAIT_RESULT_PEER_CLOSED)) /\
    e_message_ready (ept k' e) = false /\ (forall e', e' <> e -> ept k' e' = ept k e') /\
    forall m t, ipc_send_locked e m k' = Some (false, k') /\ ipc_receive_locked e t k' = Some (None, k') /\
      ipc_endpoint_close e k' = Some (false, k').
Proof.
  intros Hwf Hv Ho. pose proof (close_spec k l C e Hwf) as Hs. rewrite Hv, Ho in Hs. cbn [negb andb] in Hs.
  destruct Hs as (k' & l' & Hc & Hwf' & _ & He & Hres & Hq & _). exists k', l'.
  assert (ept k' e = shut (ept k e)) as Ee by (rewrite He; by rewrite decide_True).
  split_and!; [done|done| |by rewrite Ee|intros e' Hne; rewrite He; by rewrite decide_False|].
  - intros t Ht. split; [by apply Hq|]. unfold pending at 1. rewrite Hres, Ht. cbn [andb]. by destruct (pending k t) eqn:Hp.
  - intros m t. assert (e_closed (ept k' e) = true) as Ecl by (by rewrite Ee).
    pose proof (send_locked_spec k' l' C e m Hwf') as Hsend. pose proof (receive_locked_spec k' l' C e t Hwf') as Hrecv.
    pose proof (close_spec k' l' C e Hwf') as Hclose. unfold send_possible in Hsend. unfold receive_possible in Hrecv.
    rewrite Ecl in Hsend, Hrecv, Hclose. cbn [negb] in *. rewrite ?andb_false_r in *. cbn [andb] in *.
    rewrite ?andb_false_r in *. done.
Qed.

(** A timer interrupt times out exactly the pending waits whose deadline
    has come: each gets the outcome TIMED_OUT and is runnable, every other
    outcome and every message is as it was, and the interrupt never halts. *)
Theorem timer_times_out (k : Kernel) (l : list Z) (C : gmap Z Waiting) :
  ipc_wf k l C -> timer_initialized k = true ->
  exists k' l', timer_handle_irq k = Some k' /\ ipc_wf k' l' C /\
    forall t, let out := times_out k (u64 (timer_ticks k + 1)) timed_indices t in
      t_wait_result (thr k' t) = (if out then THREAD_WAIT_RESULT_TIMED_OUT else t_wait_result (thr k t)) /\
      (out = true -> t ∈ l') /\ forall e, mailbox (ept k' e) = mailbox (ept k e).
Proof.
  intros Hwf Ht. unfold timer_handle_irq. rewrite Ht. cbn [negb].
  set (k1 := k <| k_tim := _ |>). pose proof (wf_clock k l C _ Hwf : ipc_wf k1 l C) as Hwf1.
  destruct (poll_spec (timer_ticks k1) k1 l C Hwf1) as (k' & l' & Hp & Hwf' & _ & _ & Hres & Hq & Hm).
  exists k', l'. split_and!; [done|done|]. intros t. cbn zeta. split; [apply Hres|]. split; [apply Hq|apply Hm].
Qed.

(** C19. Deadlines are exact across the wrap-around of the 64-bit tick counter:
    a wait of [n] ticks registered at any tick [start] has not expired while
    fewer than [n] ticks have passed and has expired from then on, for the
    2^63 - 1 ticks that follow the start. *)
Theorem deadline_exact (start n passed : Z) :
  0 <= n <= IPC_TIMEOUT_MAX_TICKS -> 0 <= passed < 2 ^ 63 ->
  ipc_deadline_reached (u64 (start + passed)) (u64 (start + n)) = (n <=? passed).
Proof.
  unfold IPC_TIMEOUT_MAX_TICKS, ipc_deadline_reached, u64. intros Hn Hp.
  rewrite <- Zminus_mod. replace (start + passed - (start + n)) with (passed - n) by lia.
  destruct (Z.leb_spec n passed).
  - rewrite Z.mod_small by lia. apply Z.ltb_lt. lia.
  - replace (passed - n) with (passed - n + 2 ^ 64 + (-1) * 2 ^ 64) by lia. rewrite Z_mod_plus_full, Z.mod_small by lia.
    apply Z.ltb_ge. lia.
Qed.

(** C20. [ipc_close_owned_endpoints] closes every endpoint of the process: its
    walk over the owner index ends within one test more than the registry has
    entries, with success, the process has no open
    endpoint left, endpoints of other owners are untouched, and every thread
    waiting at an endpoint of the process is runnable with a settled outcome. *)
Theorem close_owned_complete (k : Kernel) (l : list Z) (C : gmap Z Waiting) (o : Z) :
  ipc_wf k l C -> awake k l C -> o <> 0 ->
  exists k' l', ipc_close_owned_endpoints o k = Some (true, k') /\ ipc_wf k' l' C /\
    endpoint_process_has_open_owned k' o = false /\
    (forall e, owned_by k o e = false -> ept k' e = ept k e) /\
    forall t w, C !! t = Some w -> owned_by k o (wt_endpoint w) = true -> pending k' t = false /\ t ∈ l'.
Proof.
  intros Hwf Ha Ho.
  destruct (close_owned_call k l C o Hwf Ho) as (k' & l' & Hr & Hwf' & _ & _ & [Ha' _] & Hcl & Hopen & Hall).
  exists k', l'. split_and!; try done.
  - intros e Hne. destruct (cl_same _ _ _ Hcl e) as [?|[? _]]; [done|congruence].
  - intros t w Hw Hob. pose proof (ic_waiter _ _ _ (iw_core _ _ _ Hwf') _ _ Hw) as Hok'.
    pose proof (wo_valid _ _ _ _ Hok') as Hv'.
    assert (e_closed (ept k' (wt_endpoint w)) = true) as Hclosed
      by (apply Hall; [apply (ic_waiter _ _ _ (iw_core _ _ _ Hwf) _ _ Hw)|done]).
    pose proof (wo_thread _ _ _ _ Hok') as Hth. pose proof (waiter_nonnull _ _ _ _ Hok') as Hz.
    destruct (eo_closed _ _ (iw_ept _ _ _ Hwf' _ Hv') Hclosed) as (_ & Hpr & Hps).
    assert (pending k' t = false) as Hp.
    { unfold waiting_thread in Hth. revert Hth. case_bool_decide; intros Hth; rewrite Hth in *; auto. }
    split; [done|]. destruct (Ha' Ha t w Hw) as [?|?]; [congruence|done].
Qed.

(** * Witnesses *)

Lemma ipc_demo_ok : ipc_events_ok 0x5000 ipc_demo ∅ ipc_demo_events.
Proof. apply ipc_events_okb_sound. by vm_compute. Qed.

Lemma awake_empty k l : awake k l (∅ : gmap Z Waiting).
Proof. intros t w Hw. by rewrite lookup_empty in Hw. Qed.

Lemma ipc_never_halts_witness :
  exists log k' C', ipc_run 0x5000 ipc_demo_events ipc_demo ∅ = Some (log, k', C') /\ exists l', ipc_wf k' l' C'.
Proof.
  destruct (ipc_never_halts 0x5000 ipc_demo_events ipc_demo [0x1000; 0x2000] ∅ ipc_demo_wf ipc_demo_ok)
    as (log & k' & C' & l' & Hr & Hwf). exists log, k', C'. split; [exact Hr|]. by exists l'.
Defined.

Lemma prompt_empty k l : prompt k l (∅ : gmap Z Waiting).
Proof. intros t w Hw. by rewrite lookup_empty in Hw. Qed.

(** After three events the receiver's message has arrived, after ten the blocked
    sender's outcome is settled; both are runnable. *)
Lemma ipc_no_lost_wakeup_witness :
  (exists log k C l w, ipc_run 0x5000 (take 3 ipc_demo_events) ipc_demo ∅ = Some (log, k, C) /\
     C !! 0x1000 = Some w /\ wt_kind w = THREAD_WAIT_IPC_RECEIVE /\ pending k 0x1000 = true /\
     ipc_wf k l C /\ 0x1000 ∈ l) /\
  (exists log k C l w, ipc_run 0x5000 (take 10 ipc_demo_events) ipc_demo ∅ = Some (log, k, C) /\
     C !! 0x1000 = Some w /\ wt_kind w = THREAD_WAIT_IPC_SEND /\ pending k 0x1000 = false /\
     ipc_wf k l C /\ 0x1000 ∈ l).
Proof.
  split.
  - destruct (ipc_no_lost_wakeup 0x5000 (take 3 ipc_demo_events) ipc_demo [0x1000; 0x2000] ∅ ipc_demo_wf
      (awake_empty _ _) (prompt_empty _ _)) as (log & k & C & l & Hr & Hwf & Hall);
      [apply ipc_events_okb_sound; by vm_compute|].
    assert (match ipc_run 0x5000 (take 3 ipc_demo_events) ipc_demo ∅ with
            | Some (_, k, C) => match C !! 0x1000 with
                | Some w => (true, wt_kind w, pending k 0x1000, e_message_ready (ept k (wt_endpoint w)))
                | None => (false, THREAD_WAIT_NONE, false, false) end
            | None => (false, THREAD_WAIT_NONE, false, false) end
            = (true, THREAD_WAIT_IPC_RECEIVE, true, true)) as H1 by (by vm_compute).
    rewrite Hr in H1. destruct (C !! 0x1000) as [w|] eqn:Hw; [|discriminate H1]. injection H1 as H1 H2 H3.
    assert (0x1000 ∈ l) as Hin.
    { destruct (Hall 0x1000 w Hw) as [[Hin _]|(_ & _ & _ & He & _)]; [exact Hin|]. rewrite (He H1) in H3. discriminate H3. }
    exists log, k, C, l, w. exact (conj Hr (conj Hw (conj H1 (conj H2 (conj Hwf Hin))))).
  - destruct (ipc_no_lost_wakeup 0x5000 (take 10 ipc_demo_events) ipc_demo [0x1000; 0x2000] ∅ ipc_demo_wf
      (awake_empty _ _) (prompt_empty _ _)) as (log & k & C & l & Hr & Hwf & Hall);
      [apply ipc_events_okb_sound; by vm_compute|].
    assert (match ipc_run 0x5000 (take 10 ipc_demo_events) ipc_demo ∅ with
            | Some (_, k, C) => match C !! 0x1000 with
                | Some w => (true, wt_kind w, pending k 0x1000) | None => (false, THREAD_WAIT_NONE, true) end
            | None => (false, THREAD_WAIT_NONE, true) end
            = (true, THREAD_WAIT_IPC_SEND, false)) as H1 by (by vm_compute).
    rewrite Hr in H1. destruct (C !! 0x1000) as [w|] eqn:Hw; [|discriminate H1]. injection H1 as H1 H2.
    assert (0x1000 ∈ l) as Hin.
    { destruct (Hall 0x1000 w Hw) as [[Hin _]|(_ & Hp & _)]; [exact Hin|]. rewrite H2 in Hp. discriminate Hp. }
    exists log, k, C, l, w. exact (conj Hr (conj Hw (conj H1 (conj H2 (conj Hwf Hin))))).
Defined.

(** Three messages pass; one of them is that of a blocked sender, which reports
    success once. *)
Lemma ipc_fifo_witness :
  exists log k' C', ipc_run 0x5000 ipc_demo_events ipc_demo ∅ = Some (log, k', C') /\
    accepted 0x6000 log = delivered 0x6000 log /\ length (delivered 0x6000 log) = 3%nat /\
    tally (commits 0x6000 0x1000) log = 1%nat /\ tally (reports 0x6000 0x1000) log = 1%nat.
Proof.
  destruct (ipc_fifo 0x5000 ipc_demo_events ipc_demo [0x1000; 0x2000] ∅ ipc_demo_wf eq_refl eq_refl ipc_demo_ok)
    as (log & k' & C' & Hr & Hf & Hled). exists log, k', C'. split; [exact Hr|].
  assert (match ipc_run 0x5000 ipc_demo_events ipc_demo ∅ with
          | Some (log, k, _) => (length (delivered 0x6000 log), e_closed (ept k 0x6000), mail (ept k 0x6000),
                                 tally (commits 0x6000 0x1000) log, tally (forgoes 0x6000 0x1000) log, owed k 0x6000 0x1000)
          | None => (O, true, [], O, O, true)
          end = (3%nat, false, [], 1%nat, 0%nat, false)) as H1 by (by vm_compute).
  assert (owed ipc_demo 0x6000 0x1000 = false) as H0 by (by vm_compute).
  rewrite Hr in H1. injection H1 as H1 H2 H3 H4 H5 H6. split_and!; [|exact H1|exact H4|].
  - pose proof (Hf 0x6000 H2) as H7. by rewrite H3, app_nil_r in H7.
  - specialize (Hled 0x6000 0x1000). rewrite H0, H4, H5, H6 in Hled. cbn in Hled. lia.
Defined.

(** The machine after the receiver has gone to sleep. *)
Definition sleeping : Kernel * gmap Z Waiting :=
  match ipc_run 0x5000 (take 2 ipc_demo_events) ipc_demo ∅ with
  | Some (_, k, C) => (k, C)
  | None => (ipc_demo, ∅)
  end.

Lemma sleeping_wf : exists l, ipc_wf sleeping.1 l sleeping.2 /\ awake sleeping.1 l sleeping.2.
Proof.
  destruct (run_ok 0x5000 (take 2 ipc_demo_events) ipc_demo [0x1000; 0x2000] ∅ ipc_demo_wf)
    as (log & k & C & l & Hr & Hwf & Ha & _); [apply ipc_events_okb_sound; by vm_compute|].
  unfold sleeping. rewrite Hr. exists l. split; [exact Hwf|]. apply (proj1 Ha), awake_empty.
Qed.

Definition demo_wait : Waiting := mkWaiting 0x6000 THREAD_WAIT_IPC_RECEIVE 1 true.

Lemma message_reaches_receiver_witness :
  exists k1 l1, ipc_try_send g_kernel_process demo_handle (demo_message 7) sleeping.1 = Some (true, k1) /\
    ipc_wf k1 l1 sleeping.2 /\ 0x1000 ∈ l1.
Proof.
  destruct sleeping_wf as (l & Hwf & _).
  destruct (message_reaches_receiver 0x5000 sleeping.1 l sleeping.2 0x1000 g_kernel_process demo_handle demo_wait
              (demo_message 7) Hwf) as (k1 & l1 & Hs & Hwf1 & Hin & _); [by vm_compute..|].
  exists k1, l1. split; [exact Hs|]. split; [exact Hwf1|exact Hin].
Defined.

Lemma close_settles_witness :
  exists k' (l' : list Z), ipc_endpoint_close 0x6000 sleeping.1 = Some (true, k') /\ 0x1000 ∈ l' /\
    t_wait_result (thr k' 0x1000) = THREAD_WAIT_RESULT_PEER_CLOSED.
Proof.
  destruct sleeping_wf as (l & Hwf & _).
  destruct (close_settles sleeping.1 l sleeping.2 0x6000 Hwf) as (k' & l' & Hc & _ & Hw & _); [by vm_compute..|].
  exists k', l'. split; [exact Hc|]. destruct (Hw 0x1000) as (Hin & _ & Hp); [by vm_compute|].
  split; [exact Hin|]. apply Hp. by vm_compute.
Defined.

Lemma timer_times_out_witness :
  exists k', timer_handle_irq sleeping.1 = Some k' /\
    t_wait_result (thr k' 0x1000) = THREAD_WAIT_RESULT_PENDING.
Proof.
  destruct sleeping_wf as (l & Hwf & _).
  destruct (timer_times_out sleeping.1 l sleeping.2 Hwf) as (k' & l' & Ht & _ & Hr); [by vm_compute|].
  exists k'. split; [exact Ht|]. destruct (Hr 0x1000) as [-> _]. by vm_compute.
Defined.

Lemma deadline_exact_witness :
  ipc_deadline_reached (u64 (2 ^ 64 - 2 + 4)) (u64 (2 ^ 64 - 2 + 5)) = false /\
  ipc_deadline_reached (u64 (2 ^ 64 - 2 + 5)) (u64 (2 ^ 64 - 2 + 5)) = true.
Proof. split; (rewrite deadline_exact; [reflexivity|unfold IPC_TIMEOUT_MAX_TICKS; lia|lia]). Defined.

Lemma close_owned_complete_witness :
  exists k' l', ipc_close_owned_endpoints 1 sleeping.1 = Some (true, k') /\ ipc_wf k' l' sleeping.2 /\
    endpoint_process_has_open_owned k' 1 = false.
Proof.
  destruct sleeping_wf as (l & Hwf & Ha).
  destruct (close_owned_complete sleeping.1 l sleeping.2 1 Hwf Ha) as (k' & l' & Hc & Hwf' & Hn & _);
    [done|]. exists k', l'. split; [exact Hc|]. split; [exact Hwf'|exact Hn].
Defined.
