(* ===== verification/ExitQueue.v ===== *)
(** Process-exit queues: [kernel/process_exit_queue.c].

    A queue reserves one of its 16 slots for each process it watches; the exit
    of the process turns the reservation into a pending event, and a ring of
    slot numbers gives the order of publication. One kernel thread may block
    for an event. Every function runs with interrupts excluded; [None] is
    [cpu_halt_forever]. The blocking receive is split where the code calls
    [scheduler_wait_current], as in [Ipc]. Result pointers are not null. *)

From S2P Require Import Prelude Pmm ObjectStorage Kernel Objects Thread.
From S2P Require Import Scheduler.

Open Scope jcos_scope.

Definition PROCESS_EXIT_QUEUE_STORAGE_CAPACITY : Z := 16.

(** * Registry *)

Definition queue_live (k : Kernel) (queue : Z) : bool :=
  object_storage_find (om_storage (k_exq k)) PROCESS_EXIT_QUEUE_STORAGE_CAPACITY queue
    <? PROCESS_EXIT_QUEUE_STORAGE_CAPACITY.

Definition process_exit_queue_storage_in_use (k : Kernel) (queue : Z) : bool := queue_live k queue.

Definition process_exit_queue_object_count (k : Kernel) : Z :=
  object_storage_count (om_storage (k_exq k)) PROCESS_EXIT_QUEUE_STORAGE_CAPACITY.

(** * Validity *)

Definition wait_reservation_valid (k : Kernel) (queue : Z) : bool :=
  let thread := q_waiting_receiver (exq k queue) in
  let id := q_waiting_receiver_id (exq k queue) in
  let t := thr k thread in
  if !nz thread then id =? 0 else
  if !thread_wait_matches_id k thread THREAD_WAIT_PROCESS_EXIT queue id then false else
  if (thread =? thread_current k) && state_is k thread THREAD_STATE_RUNNING
  then t_on_run_queue t && nz (t_run_next t) else
  if !t_interrupt_context_ready t || !nz (t_interrupt_rsp t) then false else
  if state_is k thread THREAD_STATE_BLOCKED then !t_on_run_queue t && !nz (t_run_next t) else
  if state_is k thread THREAD_STATE_READY then t_on_run_queue t && nz (t_run_next t) else false.

Definition queue_indices : list Z := seqZ 0 PROCESS_EXIT_QUEUE_CAPACITY.

Definition qslot_at (q : ProcessExitQueue) (i : Z) : ProcessExitQueueSlot := q_slots q !!! Z.to_nat i.

Definition order_at (q : ProcessExitQueue) (i : Z) : Z := q_pending_order q !!! Z.to_nat i.

Definition no_event (e : ProcessExitInfo) : bool := bool_decide (x_reason e = PROCESS_EXIT_NONE).

(** The body of the first loop of [queue_valid]. *)
Definition qslot_valid (k : Kernel) (queue i : Z) : bool :=
  let slot := qslot_at (exq k queue) i in
  if q_watching slot then
    !q_pending slot && nz (q_process slot) && nz (q_process_id slot) && no_event (q_event slot)
    && process_storage_in_use k (q_process slot) && (p_id (prc k (q_process slot)) =? q_process_id slot)
    && (p_exit_queue (prc k (q_process slot)) =? queue)
    && (p_exit_queue_id (prc k (q_process slot)) =? q_id (exq k queue))
  else if q_pending slot then
    !nz (q_process slot) && nz (q_process_id slot) && !no_event (q_event slot)
    && (x_process_id (q_event slot) =? q_process_id slot)
  else !nz (q_process slot) && !nz (q_process_id slot) && no_event (q_event slot).

(** The last loop: the ring names distinct pending slots. *)
Fixpoint order_valid (q : ProcessExitQueue) (l seen : list Z) : bool :=
  match l with
  | [] => true
  | i :: l =>
    let index := order_at q ((q_pending_head q + i) mod PROCESS_EXIT_QUEUE_CAPACITY) in
    if (index >=? PROCESS_EXIT_QUEUE_CAPACITY) || bool_decide (index ∈ seen) || !q_pending (qslot_at q index)
    then false else order_valid q l (index :: seen)
  end.

Definition queue_valid (k : Kernel) (queue : Z) : bool :=
  let q := exq k queue in
  queue_live k queue && q_initialized q && nz (q_id q)
  && (q_watch_count q <=? PROCESS_EXIT_QUEUE_CAPACITY) && (q_pending_count q <=? PROCESS_EXIT_QUEUE_CAPACITY)
  && (q_watch_count q + q_pending_count q <=? PROCESS_EXIT_QUEUE_CAPACITY)
  && (q_pending_head q <? PROCESS_EXIT_QUEUE_CAPACITY) && (q_pending_tail q <? PROCESS_EXIT_QUEUE_CAPACITY)
  && wait_reservation_valid k queue
  && forallb (qslot_valid k queue) queue_indices
  && (countb (fun i => q_watching (qslot_at q i)) queue_indices =? q_watch_count q)
  && (countb (fun i => q_pending (qslot_at q i)) queue_indices =? q_pending_count q)
  && (q_pending_tail q =? (q_pending_head q + q_pending_count q) mod PROCESS_EXIT_QUEUE_CAPACITY)
  && order_valid q (seqZ 0 (q_pending_count q)) [].

(** * Creation *)

Definition process_exit_queue_create (queue : Z) (k : Kernel) : bool * Kernel :=
  if !nz queue then (false, k) else
  let slot := object_storage_empty (om_storage (k_exq k)) PROCESS_EXIT_QUEUE_STORAGE_CAPACITY in
  if !queue_live k queue && (slot <? PROCESS_EXIT_QUEUE_STORAGE_CAPACITY) && nz (om_next_id (k_exq k)) then
    let id := om_next_id (k_exq k) in
    let k := set_exq queue (fun _ => queue_zero <| q_id := id |> <| q_initialized := true |>) k in
    (true, set_qm (fun m => m <| om_next_id := u64 (id + 1) |>
                              <| om_storage := storage_set slot queue (om_storage m) |>) k)
  else (false, k).

Definition queue_make_ready (thread : Z) (k : Kernel) : bool * Kernel :=
  if state_is k thread THREAD_STATE_BLOCKED then scheduler_wake thread k else
  (((thread =? thread_current k) && state_is k thread THREAD_STATE_RUNNING && t_on_run_queue (thr k thread))
   || (state_is k thread THREAD_STATE_READY && t_on_run_queue (thr k thread)), k).

(** * Watching *)

Definition set_qslot (i : Z) (s : ProcessExitQueueSlot) (q : ProcessExitQueue) : ProcessExitQueue :=
  q <| q_slots := <[Z.to_nat i := s]> (q_slots q) |>.

(** [process->exit_queue = queue; process->exit_queue_id = id] *)
Definition link_process (process queue id : Z) (k : Kernel) : Kernel :=
  set_prc process (fun p => p <| p_exit_queue := queue |> <| p_exit_queue_id := id |>) k.

Definition process_exit_queue_watch (queue process : Z) (k : Kernel) : bool * Kernel :=
  let p := prc k process in
  if !queue_valid k queue || q_closed (exq k queue) || !process_storage_in_use k process || !nz process
     || !p_initialized p || !nz (p_id p) || p_kernel p || !no_event (p_exit_info p)
     || nz (p_exit_queue p) || nz (p_exit_queue_id p)
     || (q_watch_count (exq k queue) + q_pending_count (exq k queue) >=? PROCESS_EXIT_QUEUE_CAPACITY)
  then (false, k) else
  match List.find (fun i => !(q_watching (qslot_at (exq k queue) i) || q_pending (qslot_at (exq k queue) i)))
          queue_indices with
  | None => (false, k)
  | Some i =>
    let slot := qslot_at (exq k queue) i in
    let k := set_exq queue (set_qslot i (slot <| q_process := process |> <| q_process_id := p_id p |>
                                              <| q_watching := true |>)) k in
    let k := link_process process queue (q_id (exq k queue)) k in
    (true, set_exq queue (fun q => q <| q_watch_count := u32 (q_watch_count q + 1) |>) k)
  end.

(** The slot that watches a process. *)
Definition watch_slot (k : Kernel) (queue process : Z) : option Z :=
  List.find (fun i => let slot := qslot_at (exq k queue) i in
      !(!q_watching slot || (q_process slot != process) || (q_process_id slot != p_id (prc k process))))
    queue_indices.

Definition process_exit_queue_unwatch_process (process : Z) (k : Kernel) : bool * Kernel :=
  if !nz process then (false, k) else
  if !nz (p_exit_queue (prc k process)) && !nz (p_exit_queue_id (prc k process)) then (true, k) else
  let queue := p_exit_queue (prc k process) in
  if !queue_valid k queue || (p_exit_queue_id (prc k process) != q_id (exq k queue))
     || !process_storage_in_use k process then (false, k) else
  match watch_slot k queue process with
  | None => (false, k)
  | Some i =>
    let k := set_exq queue (set_qslot i qslot_zero) k in
    let k := set_exq queue (fun q => q <| q_watch_count := u32 (q_watch_count q - 1) |>) k in
    (true, link_process process 0 0 k)
  end.

(** * Publication *)

(** Completing the registered receiver's wait and waking it. *)
Definition complete_receiver (queue : Z) (result : ThreadWaitResult) (k : Kernel) : option Kernel :=
  let receiver := q_waiting_receiver (exq k queue) in
  if nz receiver && bool_decide (t_wait_result (thr k receiver) = THREAD_WAIT_RESULT_PENDING) then
    match thread_wait_try_complete receiver THREAD_WAIT_PROCESS_EXIT queue
            (q_waiting_receiver_id (exq k queue)) result k with
    | (true, k) => match queue_make_ready receiver k with (true, k) => Some k | (false, _) => None end
    | (false, _) => None
    end
  else Some k.

Definition process_exit_queue_publish_process (process : Z) (info : ProcessExitInfo) (k : Kernel)
    : option (bool * Kernel) :=
  if !nz process then Some (false, k) else
  if !nz (p_exit_queue (prc k process)) && !nz (p_exit_queue_id (prc k process)) then Some (true, k) else
  let queue := p_exit_queue (prc k process) in
  if !queue_valid k queue || q_closed (exq k queue) || (p_exit_queue_id (prc k process) != q_id (exq k queue))
     || no_event info || (x_process_id info != p_id (prc k process)) then Some (false, k) else
  match watch_slot k queue process with
  | None => Some (false, k)
  | Some i =>
    let k := set_exq queue (fun q => set_qslot i ((qslot_at q i) <| q_process := 0 |> <| q_watching := false |>
               <| q_pending := true |> <| q_event := info |>) q) k in
    let k := set_exq queue (fun q => q
               <| q_pending_order := <[Z.to_nat (q_pending_tail q) := u8 i]> (q_pending_order q) |>
               <| q_pending_tail := (q_pending_tail q + 1) mod PROCESS_EXIT_QUEUE_CAPACITY |>
               <| q_watch_count := u32 (q_watch_count q - 1) |>
               <| q_pending_count := u32 (q_pending_count q + 1) |>) k in
    let k := link_process process 0 0 k in
    k ← complete_receiver queue THREAD_WAIT_RESULT_COMPLETED k;
    Some (true, k)
  end.

(** * Receiving *)

Definition receive_locked (queue : Z) (k : Kernel) : option ProcessExitInfo * Kernel :=
  let q := exq k queue in
  if !nz (q_pending_count q) then (None, k) else
  let index := order_at q (q_pending_head q) in
  if index >=? PROCESS_EXIT_QUEUE_CAPACITY then (None, k) else
  let slot := qslot_at q index in
  if !q_pending slot then (None, k) else
  (Some (q_event slot), set_exq queue (fun q => (set_qslot index qslot_zero q)
     <| q_pending_order := <[Z.to_nat (q_pending_head q) := 0]> (q_pending_order q) |>
     <| q_pending_head := (q_pending_head q + 1) mod PROCESS_EXIT_QUEUE_CAPACITY |>
     <| q_pending_count := u32 (q_pending_count q - 1) |>) k).

Definition process_exit_queue_try_receive (queue : Z) (k : Kernel) : option ProcessExitInfo * Kernel :=
  let q := exq k queue in
  if queue_valid k queue && !nz (q_waiting_receiver q) && !nz (q_waiting_receiver_id q) && nz (q_pending_count q)
  then receive_locked queue k else (None, k).

(** What a blocked receive keeps on its kernel stack. *)
Record ExitWaiting := mkExitWaiting { xw_queue : Z; xw_id : Z }.

(** The received event, none for the result false; or the entry of the wait
    loop; or the call of [scheduler_wait_current]. *)
Inductive ExitCall :=
  | XReturned (received : option ProcessExitInfo)
  | XParked (w : ExitWaiting)
  | XWaits (w : ExitWaiting) (call : SchedCall).

Definition exit_receive_enter (queue : Z) (k : Kernel) : ExitCall * Kernel :=
  let current := thread_current k in
  let kernel := process_kernel k in
  if !nz current || !nz kernel || (t_process (thr k current) != kernel) || !nz (t_id (thr k current))
  then (XReturned None, k) else
  if !queue_valid k queue then (XReturned None, k) else
  if nz (q_pending_count (exq k queue)) then
    let '(received, k) := receive_locked queue k in (XReturned received, k)
  else
  if q_closed (exq k queue) || nz (q_waiting_receiver (exq k queue)) || nz (q_waiting_receiver_id (exq k queue))
  then (XReturned None, k) else
  let '(begun, k) := thread_wait_begin current THREAD_WAIT_PROCESS_EXIT queue k in
  if negb begun then (XReturned None, k) else
  let id := t_wait_id (thr k current) in
  (XParked (mkExitWaiting queue id),
   set_exq queue (fun q => q <| q_waiting_receiver := current |> <| q_waiting_receiver_id := id |>) k).

Definition clear_receiver (queue : Z) (k : Kernel) : Kernel :=
  set_exq queue (fun q => q <| q_waiting_receiver := 0 |> <| q_waiting_receiver_id := 0 |>) k.

(** From the end of the loop to the return. *)
Definition exit_receive_leave (w : ExitWaiting) (k : Kernel) : option (ExitCall * Kernel) :=
  let current := thread_current k in
  let queue := xw_queue w in
  let '(received, k) :=
    if bool_decide (t_wait_result (thr k current) = THREAD_WAIT_RESULT_COMPLETED)
       && nz (q_pending_count (exq k queue))
    then receive_locked queue k else (None, k) in
  match thread_wait_end current THREAD_WAIT_PROCESS_EXIT queue k with
  | (true, k) =>
    Some (XReturned received, clear_receiver queue k)
  | (false, _) => None
  end.

Definition exit_receive_finish (w : ExitWaiting) (result : ThreadWaitResult) (k : Kernel)
    : option (ExitCall * Kernel) :=
  match thread_wait_try_complete (thread_current k) THREAD_WAIT_PROCESS_EXIT (xw_queue w) (xw_id w) result k with
  | (true, k) => exit_receive_leave w k
  | (false, _) => None
  end.

Definition exit_receive_iterate (w : ExitWaiting) (k : Kernel) : option (ExitCall * Kernel) :=
  let current := thread_current k in
  if !thread_wait_matches_id k current THREAD_WAIT_PROCESS_EXIT (xw_queue w) (xw_id w)
     || !wait_reservation_valid k (xw_queue w) then None else
  if !bool_decide (t_wait_result (thr k current) = THREAD_WAIT_RESULT_PENDING) then exit_receive_leave w k else
  if nz (q_pending_count (exq k (xw_queue w))) then exit_receive_finish w THREAD_WAIT_RESULT_COMPLETED k else
  let '(call, k) := scheduler_wait_current k in
  Some (XWaits w call, k).

(** A blocked receive after [scheduler_wait_current] returned [waited]. *)
Definition exit_receive_resume (w : ExitWaiting) (waited : bool) (k : Kernel) : option (ExitCall * Kernel) :=
  if waited then exit_receive_iterate w k else exit_receive_finish w THREAD_WAIT_RESULT_CANCELLED k.

(** * Aborting, closing and destroying *)

Definition process_exit_queue_abort_wait (thread : Z) (k : Kernel) : bool * Kernel :=
  if !nz thread || (thread =? thread_current k) then (false, k) else
  if !thread_wait_active k thread || !bool_decide (t_wait_kind (thr k thread) = THREAD_WAIT_PROCESS_EXIT)
     || (!state_is k thread THREAD_STATE_BLOCKED && !state_is k thread THREAD_STATE_READY) then (false, k) else
  let queue := t_wait_object (thr k thread) in
  if !queue_valid k queue || (q_waiting_receiver (exq k queue) != thread)
     || (q_waiting_receiver_id (exq k queue) != t_wait_id (thr k thread)) then (false, k) else
  let '(aborted, k) := thread_wait_abort thread THREAD_WAIT_PROCESS_EXIT queue k in
  if !aborted then (false, k) else (true, clear_receiver queue k).

(** One turn of the second loop of [process_exit_queue_close]. *)
Definition close_qslot (queue : Z) (k : Kernel) (i : Z) : Kernel :=
  let slot := qslot_at (exq k queue) i in
  if !q_watching slot then k else
  let k := link_process (q_process slot) 0 0 k in
  let k := set_exq queue (set_qslot i qslot_zero) k in
  set_exq queue (fun q => q <| q_watch_count := u32 (q_watch_count q - 1) |>) k.

Definition close_qslots (queue : Z) (k : Kernel) : Kernel := foldl (close_qslot queue) k queue_indices.

Definition process_exit_queue_close (queue : Z) (k : Kernel) : option (bool * Kernel) :=
  if !queue_valid k queue || q_closed (exq k queue) then Some (false, k) else
  if !forallb (fun i =>
        let slot := qslot_at (exq k queue) i in
        !q_watching slot
        || !(!process_storage_in_use k (q_process slot) || (p_id (prc k (q_process slot)) != q_process_id slot)
             || (p_exit_queue (prc k (q_process slot)) != queue)
             || (p_exit_queue_id (prc k (q_process slot)) != q_id (exq k queue)))) queue_indices
  then Some (false, k) else
  let k := set_exq queue (fun q => q <| q_closed := true |>) k in
  let k := close_qslots queue k in
  k ← complete_receiver queue THREAD_WAIT_RESULT_PEER_CLOSED k;
  Some (true, k).

Definition process_exit_queue_destroy (queue : Z) (k : Kernel) : bool * Kernel :=
  let q := exq k queue in
  if !queue_valid k queue || !q_closed q || nz (q_watch_count q) || nz (q_pending_count q)
     || nz (q_waiting_receiver q) || nz (q_waiting_receiver_id q) then (false, k) else
  let slot := object_storage_find (om_storage (k_exq k)) PROCESS_EXIT_QUEUE_STORAGE_CAPACITY queue in
  if slot =? PROCESS_EXIT_QUEUE_STORAGE_CAPACITY then (false, k) else
  let k := set_qm (fun m => m <| om_storage := storage_set slot 0 (om_storage m) |>) k in
  (true, set_exq queue (fun _ => queue_zero) k).

Definition process_exit_queue_watch_count (k : Kernel) (queue : Z) : Z :=
  if queue_live k queue && q_initialized (exq k queue) then q_watch_count (exq k queue) else 0.

Definition process_exit_queue_pending_count (k : Kernel) (queue : Z) : Z :=
  if queue_live k queue && q_initialized (exq k queue) then q_pending_count (exq k queue) else 0.
