(* ===== verification/ExitRing.v ===== *)
(** The ring of pending events inside an exit queue.

    [ring_ok q l]: the queue's counters and its ring of slot numbers represent
    the list [l] of pending slots, oldest first. *)

From S2P Require Import Prelude Pmm ObjectStorage Kernel Objects Thread.
From S2P Require Import Scheduler ExitQueue.

Open Scope jcos_scope.

Notation QCAP := PROCESS_EXIT_QUEUE_CAPACITY.

Definition qindex (x : Z) : Prop := 0 <= x < QCAP.

Record ring_ok (q : ProcessExitQueue) (l : list Z) : Prop := {
  ro_slots : Z.of_nat (length (q_slots q)) = QCAP;
  ro_order : Z.of_nat (length (q_pending_order q)) = QCAP;
  ro_head : qindex (q_pending_head q);
  ro_count : q_pending_count q = Z.of_nat (length l);
  ro_tail : q_pending_tail q = (q_pending_head q + q_pending_count q) mod QCAP;
  ro_at : forall i x, l !! i = Some x -> order_at q ((q_pending_head q + Z.of_nat i) mod QCAP) = x;
  ro_nodup : NoDup l;
  ro_range : forall x, x ∈ l -> qindex x;
  ro_pending : forall x, qindex x -> q_pending (qslot_at q x) = true <-> x ∈ l;
  ro_watch : q_watch_count q = countb q_watching (q_slots q);
  ro_apart : forall x, qindex x -> q_watching (qslot_at q x) = true -> q_pending (qslot_at q x) = false }.

(** The pending events, oldest first, read from the ring. *)
Definition pending_events (q : ProcessExitQueue) : list ProcessExitInfo :=
  map (fun i => q_event (qslot_at q (order_at q ((q_pending_head q + i) mod QCAP)))) (seqZ 0 (q_pending_count q)).

(** The events of the slots [l]. *)
Definition ring_events (q : ProcessExitQueue) (l : list Z) : list ProcessExitInfo :=
  map (fun x => q_event (qslot_at q x)) l.

(** * Slots by index *)

Lemma elem_of_indices x : x ∈ queue_indices <-> qindex x.
Proof. unfold queue_indices. rewrite elem_of_seqZ. unfold qindex. lia. Qed.

Lemma qslot_lookup q x :
  Z.of_nat (length (q_slots q)) = QCAP -> qindex x -> q_slots q !! Z.to_nat x = Some (qslot_at q x).
Proof.
  intros Hl Hx. unfold qslot_at. destruct (lookup_lt_is_Some_2 (q_slots q) (Z.to_nat x)) as [s Hs].
  - unfold qindex in Hx. lia.
  - by rewrite (list_lookup_total_correct _ _ _ Hs).
Qed.

Lemma qslot_set q x y s :
  Z.of_nat (length (q_slots q)) = QCAP -> qindex x -> qindex y ->
  qslot_at (set_qslot x s q) y = if decide (x = y) then s else qslot_at q y.
Proof.
  intros Hl Hx Hy. unfold qslot_at, set_qslot. upd_simpl. unfold qindex in *. case_decide as E.
  - subst y. apply list_lookup_total_insert_eq. lia.
  - apply list_lookup_total_insert_ne. lia.
Qed.

Lemma countb_total {A} `{Inhabited A} (f : A -> bool) (l : list A) :
  countb (fun i => f (l !!! Z.to_nat i)) (seqZ 0 (Z.of_nat (length l))) = countb f l.
Proof.
  induction l as [|x l IH] using rev_ind; [done|].
  rewrite length_app. cbn [length]. rewrite Nat2Z.inj_add, (seqZ_app 0 (Z.of_nat (length l))) by lia.
  assert (forall (B : Type) (g : B -> bool) (a b : list B), countb g (a ++ b) = countb g a + countb g b) as Happ.
  { intros B g a b. unfold countb. rewrite List.filter_app, length_app. lia. }
  rewrite !Happ, <- IH. f_equal.
  - apply countb_ext. intros i Hi. apply elem_of_seqZ in Hi. f_equal. apply lookup_total_app_l. lia.
  - change (seqZ (0 + Z.of_nat (length l)) (Z.of_nat 1)) with [0 + Z.of_nat (length l)].
    unfold countb. cbn [List.filter]. rewrite Z.add_0_l, Nat2Z.id.
    rewrite lookup_total_app_r by lia. rewrite Nat.sub_diag. cbn. by destruct (f x).
Qed.

Lemma count_slots q (f : ProcessExitQueueSlot -> bool) :
  Z.of_nat (length (q_slots q)) = QCAP -> countb (fun i => f (qslot_at q i)) queue_indices = countb f (q_slots q).
Proof. intros Hl. unfold queue_indices, qslot_at. rewrite <- Hl. apply countb_total. Qed.

(** * Counting *)

Lemma nodup_indices l :
  NoDup l -> (forall x, x ∈ l -> qindex x) -> Z.of_nat (length l) <= QCAP.
Proof.
  intros Hd Hr. assert (length l <= length queue_indices)%nat as H.
  { apply submseteq_length, NoDup_submseteq; [done|]. intros x Hx. apply elem_of_indices. auto. }
  change (length queue_indices) with 16%nat in H. change QCAP with 16. lia.
Qed.

Section Ring.
  Context {q : ProcessExitQueue} {l : list Z} (Hr : ring_ok q l).

Lemma ring_pending_count : countb (fun i => q_pending (qslot_at q i)) queue_indices = q_pending_count q.
Proof using Hr.
  rewrite (ro_count _ _ Hr). unfold countb. f_equal. apply Permutation_length, NoDup_Permutation.
  - apply NoDup_ListNoDup, List.NoDup_filter, NoDup_ListNoDup, NoDup_seqZ.
  - apply Hr.
  - intros x. rewrite list_elem_of_In, List.filter_In, <- list_elem_of_In, elem_of_indices.
    split; [intros [Hx Hp]; by apply (ro_pending _ _ Hr)|]. intros Hx. pose proof (ro_range _ _ Hr x Hx).
    split; [done|by apply (ro_pending _ _ Hr)].
Qed.

Lemma ring_watch_count : countb (fun i => q_watching (qslot_at q i)) queue_indices = q_watch_count q.
Proof using Hr. rewrite (ro_watch _ _ Hr). apply count_slots, Hr. Qed.

(** Reservations and events share the slots. *)
Lemma ring_capacity : 0 <= q_watch_count q /\ 0 <= q_pending_count q /\ q_watch_count q + q_pending_count q <= QCAP.
Proof using Hr.
  rewrite <- ring_pending_count, <- ring_watch_count. split_and!; try apply countb_nonneg.
  assert (forall I, (forall x, x ∈ I -> qindex x) ->
    countb (fun i => q_watching (qslot_at q i)) I + countb (fun i => q_pending (qslot_at q i)) I <= Z.of_nat (length I)) as H.
  { intros I HI. induction I as [|x I IH]; [done|]. rewrite !countb_cons. cbn [length].
    assert (Z.b2z (q_watching (qslot_at q x)) + Z.b2z (q_pending (qslot_at q x)) <= 1).
    { pose proof (ro_apart _ _ Hr x (HI x (list_elem_of_here _ _))) as Ha.
      destruct (q_watching (qslot_at q x)); [rewrite Ha by done|]; destruct (q_pending _); done. }
    specialize (IH (fun y Hy => HI y (list_elem_of_further _ _ _ Hy))). lia. }
  specialize (H queue_indices (fun x => proj1 (elem_of_indices x))).
  change (Z.of_nat (length queue_indices)) with QCAP in H. exact H.
Qed.

Lemma ring_pending_events : pending_events q = ring_events q l.
Proof using Hr.
  unfold pending_events, ring_events. rewrite (ro_count _ _ Hr). apply list_eq. intros i. rewrite !list_lookup_fmap.
  destruct (l !! i) as [x|] eqn:Hx.
  - rewrite lookup_seqZ_lt by (apply lookup_lt_Some in Hx; lia). cbn [fmap option_fmap option_map].
    rewrite Z.add_0_l. by rewrite (ro_at _ _ Hr i x Hx).
  - rewrite lookup_seqZ_ge; [done|]. apply lookup_ge_None in Hx. lia.
Qed.

Lemma ring_tail : qindex (q_pending_tail q).
Proof using Hr. rewrite (ro_tail _ _ Hr). apply Z.mod_pos_bound. done. Qed.

Lemma ring_order_valid : order_valid q (seqZ 0 (q_pending_count q)) [] = true.
Proof using Hr.
  assert (forall n i seen, (i + n = length l)%nat -> (forall x, x ∈ seen -> x ∈ take i l) ->
    order_valid q (seqZ (Z.of_nat i) (Z.of_nat n)) seen = true) as H.
  { induction n as [|n IH]; intros i seen Hn Hs; [done|].
    rewrite seqZ_cons by lia. cbn [order_valid]. replace (Z.succ (Z.of_nat i)) with (Z.of_nat (S i)) by lia.
    replace (Z.pred (Z.of_nat (S n))) with (Z.of_nat n) by lia.
    destruct (lookup_lt_is_Some_2 l i) as [x Hx]; [lia|]. rewrite (ro_at _ _ Hr i x Hx).
    assert (x ∈ l) as Hxl by (by eapply list_elem_of_lookup_2). pose proof (ro_range _ _ Hr x Hxl) as Hxr.
    rewrite (proj2 (ro_pending _ _ Hr x Hxr) Hxl).
    assert ((x >=? QCAP) = false) as -> by (unfold qindex in Hxr; apply Z.leb_gt; lia).
    rewrite bool_decide_eq_false_2; cbn [negb orb].
    - apply IH; [lia|]. intros y Hy. rewrite (take_S_r l i x Hx).
      apply elem_of_app. apply elem_of_cons in Hy as [->|Hy]; [right; by apply list_elem_of_singleton|left; auto].
    - intros Hin. apply Hs in Hin. apply list_elem_of_lookup in Hin as [j Hj].
      apply lookup_take_Some in Hj as [Hj Hlt]. pose proof (NoDup_lookup _ _ _ _ (ro_nodup _ _ Hr) Hx Hj). lia. }
  specialize (H (length l) O [] eq_refl). rewrite (ro_count _ _ Hr). apply H. intros x Hx. by apply not_elem_of_nil in Hx.
Qed.

End Ring.

(** * Steps of the ring *)

Section Steps.
  Context {q : ProcessExitQueue} {l : list Z} (Hr : ring_ok q l).

(** A slot that starts or stops being watched. *)
Lemma ring_slot x s :
  qindex x -> q_pending s = q_pending (qslot_at q x) -> (q_watching s = true -> q_pending s = false) ->
  ring_ok ((set_qslot x s q) <| q_watch_count := q_watch_count q - Z.b2z (q_watching (qslot_at q x)) + Z.b2z (q_watching s) |>) l.
Proof using Hr.
  intros Hx Hp Hd. pose proof (ro_slots _ _ Hr) as Hl.
  assert (forall y, qindex y -> qslot_at (set_qslot x s q) y = if decide (x = y) then s else qslot_at q y) as Hs
    by (intros y Hy; by apply qslot_set).
  destruct Hr as [H1 H2 H3 H4 H5 H6 H7 H8 H9 H10 H11]. split; try done.
  - unfold set_qslot. upd_simpl. by rewrite length_insert.
  - intros y Hy. change (qslot_at (_ <| q_watch_count := _ |>)) with (qslot_at (set_qslot x s q)).
    rewrite (Hs y Hy), <- (H9 y Hy). case_decide; [by subst; rewrite Hp|done].
  - cbn [q_watch_count q_slots]. upd_simpl. unfold set_qslot. upd_simpl.
    rewrite (countb_insert _ _ _ (qslot_at q x)) by (by apply qslot_lookup). by rewrite H10.
  - intros y Hy. change (qslot_at (_ <| q_watch_count := _ |>)) with (qslot_at (set_qslot x s q)).
    rewrite (Hs y Hy). case_decide; [done|by apply H11].
Qed.

Lemma ring_events_slot x s n :
  qindex x -> x ∉ l -> ring_events ((set_qslot x s q) <| q_watch_count := n |>) l = ring_events q l.
Proof using Hr.
  intros Hx Hn. apply map_ext_in. intros y Hy. apply list_elem_of_In in Hy.
  change (qslot_at (_ <| q_watch_count := _ |>)) with (qslot_at (set_qslot x s q)).
  pose proof (ro_range _ _ Hr y Hy). rewrite qslot_set by (done || apply (ro_slots _ _ Hr)). rewrite decide_False; [done|congruence].
Qed.

Lemma watching_apart x : qindex x -> q_watching (qslot_at q x) = true -> x ∉ l.
Proof using Hr.
  intros Hx Hw Hin. apply (ro_pending _ _ Hr x Hx) in Hin. by rewrite (ro_apart _ _ Hr x Hx Hw) in Hin.
Qed.

Lemma watch_room x : qindex x -> q_watching (qslot_at q x) = true -> 0 < q_watch_count q.
Proof using Hr.
  intros Hx Hw. rewrite (ro_watch _ _ Hr), countb_pos. exists (qslot_at q x). split; [|done].
  eapply list_elem_of_lookup_2. apply qslot_lookup; [apply Hr|done].
Qed.

(** A reservation becomes the youngest event. *)
Definition publish_at (x : Z) (info : ProcessExitInfo) (q : ProcessExitQueue) : ProcessExitQueue :=
  (set_qslot x ((qslot_at q x) <| q_process := 0 |> <| q_watching := false |>
                  <| q_pending := true |> <| q_event := info |>) q)
  <| q_pending_order := <[Z.to_nat (q_pending_tail q) := x]> (q_pending_order q) |>
  <| q_pending_tail := (q_pending_tail q + 1) mod QCAP |>
  <| q_watch_count := q_watch_count q - 1 |>
  <| q_pending_count := q_pending_count q + 1 |>.

Lemma publish_qslot x info y :
  qindex x -> qindex y ->
  qslot_at (publish_at x info q) y =
    if decide (x = y) then (qslot_at q x) <| q_process := 0 |> <| q_watching := false |>
                  <| q_pending := true |> <| q_event := info |> else qslot_at q y.
Proof using Hr. intros Hx Hy. apply qslot_set; [apply Hr|done|done]. Qed.

Lemma wrap_apart h i j : 0 <= i < QCAP -> 0 <= j < QCAP -> (h + i) mod QCAP = (h + j) mod QCAP -> i = j.
Proof using.
  intros Hi Hj E. assert ((i - j) mod QCAP = 0) as H.
  { replace (i - j) with ((h + i) - (h + j)) by lia. rewrite Zminus_mod, E, Z.sub_diag. done. }
  apply Z.mod_divide in H as [c Hc]; [|done]. unfold QCAP in *. lia.
Qed.

Lemma ring_publish x info :
  qindex x -> q_watching (qslot_at q x) = true -> ring_ok (publish_at x info q) (l ++ [x]).
Proof using Hr.
  intros Hx Hw. pose proof (watching_apart x Hx Hw) as Hn. pose proof (ro_slots _ _ Hr) as Hl.
  assert (Z.of_nat (length (l ++ [x])) <= QCAP) as Hlen.
  { apply nodup_indices.
    - apply list.NoDup_app. split_and!; [apply Hr| |apply NoDup_singleton]. intros y Hy. rewrite list_elem_of_singleton. congruence.
    - intros y Hy. apply elem_of_app in Hy as [Hy|Hy%list_elem_of_singleton]; [by apply Hr|by subst]. }
  rewrite length_app in Hlen. cbn [length] in Hlen.
  pose proof (ring_tail Hr) as Ht. pose proof (publish_qslot x info) as Hq.
  assert (forall i, qindex i -> order_at (publish_at x info q) i = if decide (q_pending_tail q = i) then x else order_at q i) as Ho.
  { intros i Hi. unfold order_at, publish_at. upd_simpl. pose proof (ro_order _ _ Hr). unfold qindex in *. case_decide as E.
    - rewrite E. apply list_lookup_total_insert_eq. lia.
    - apply list_lookup_total_insert_ne. lia. }
  split.
  - unfold publish_at, set_qslot. upd_simpl. by rewrite length_insert.
  - unfold publish_at. upd_simpl. rewrite length_insert. apply Hr.
  - apply Hr.
  - unfold publish_at. upd_simpl. rewrite (ro_count _ _ Hr), length_app. cbn [length]. lia.
  - unfold publish_at. upd_simpl. rewrite (ro_tail _ _ Hr), Zplus_mod_idemp_l. f_equal. cbn. lia.
  - intros i y Hy. change (q_pending_head (publish_at x info q)) with (q_pending_head q).
    rewrite Ho by (apply Z.mod_pos_bound; done). rewrite (ro_tail _ _ Hr), (ro_count _ _ Hr).
    apply lookup_app_Some in Hy as [Hy|[Hge Hy]].
    + rewrite decide_False; [by apply (ro_at _ _ Hr)|]. intros E. apply lookup_lt_Some in Hy.
      apply wrap_apart in E; lia.
    + apply list_lookup_singleton_Some in Hy as [Hi ->]. rewrite decide_True; [done|]. do 2 f_equal. lia.
  - apply list.NoDup_app. split_and!; [apply Hr| |apply NoDup_singleton]. intros y Hy. rewrite list_elem_of_singleton. congruence.
  - intros y Hy. apply elem_of_app in Hy as [Hy|Hy%list_elem_of_singleton]; [by apply Hr|by subst].
  - intros y Hy. rewrite (Hq y Hx Hy), elem_of_app, list_elem_of_singleton. case_decide as E.
    + subst y. split; [by right|done].
    + rewrite (ro_pending _ _ Hr y Hy). split; [by left|]. intros [?|?]; [done|congruence].
  - unfold publish_at, set_qslot. upd_simpl. rewrite (countb_insert _ _ _ (qslot_at q x)) by (by apply qslot_lookup).
    rewrite Hw. upd_simpl. rewrite (ro_watch _ _ Hr). cbn. lia.
  - intros y Hy. rewrite (Hq y Hx Hy). case_decide; [done|by apply Hr].
Qed.

Lemma publish_events x info :
  qindex x -> q_watching (qslot_at q x) = true ->
  ring_events (publish_at x info q) (l ++ [x]) = ring_events q l ++ [info].
Proof using Hr.
  intros Hx Hw. pose proof (watching_apart x Hx Hw) as Hn. unfold ring_events. rewrite map_app. f_equal.
  - apply map_ext_in. intros y Hy. apply list_elem_of_In in Hy.
    rewrite publish_qslot by (done || by apply (ro_range _ _ Hr)). rewrite decide_False; [done|congruence].
  - cbn [map]. rewrite publish_qslot by done. by rewrite decide_True.
Qed.

End Steps.

(** The oldest event leaves the ring. *)
Definition receive_head (q : ProcessExitQueue) : ProcessExitQueue :=
  (set_qslot (order_at q (q_pending_head q)) qslot_zero q)
  <| q_pending_order := <[Z.to_nat (q_pending_head q) := 0]> (q_pending_order q) |>
  <| q_pending_head := (q_pending_head q + 1) mod QCAP |>
  <| q_pending_count := q_pending_count q - 1 |>.

Section Receive.
  Context {q : ProcessExitQueue} {x : Z} {l : list Z} (Hr : ring_ok q (x :: l)).

Lemma ring_oldest : order_at q (q_pending_head q) = x.
Proof using Hr.
  pose proof (ro_at _ _ Hr O x eq_refl) as H. rewrite Z.add_0_r in H.
  rewrite Z.mod_small in H by apply Hr. exact H.
Qed.

Lemma oldest_range : qindex x.
Proof using Hr. apply Hr. left. Qed.

Lemma receive_qslot y :
  qindex y -> qslot_at (receive_head q) y = if decide (x = y) then qslot_zero else qslot_at q y.
Proof using Hr.
  intros Hy. unfold receive_head. rewrite ring_oldest. apply qslot_set; [apply Hr|apply oldest_range|done].
Qed.

Lemma ring_receive : ring_ok (receive_head q) l.
Proof using Hr.
  pose proof (ro_slots _ _ Hr) as Hl. pose proof oldest_range as Hx. pose proof ring_oldest as Hox.
  pose proof (ro_nodup _ _ Hr) as Hnd. apply list.NoDup_cons in Hnd as [Hn Hnd].
  assert (Z.of_nat (length (x :: l)) <= QCAP) as Hlen by (apply nodup_indices; apply Hr).
  cbn [length] in Hlen. pose proof (ro_head _ _ Hr) as Hh.
  assert (q_pending (qslot_at q x) = true) as Hpx by (apply (ro_pending _ _ Hr x Hx); left).
  assert (q_watching (qslot_at q x) = false) as Hwx.
  { destruct (q_watching (qslot_at q x)) eqn:E; [|done]. by rewrite (ro_apart _ _ Hr x Hx E) in Hpx. }
  assert (forall i, qindex i -> order_at (receive_head q) i = if decide (q_pending_head q = i) then 0 else order_at q i) as Ho.
  { intros i Hi. unfold order_at at 1, receive_head. upd_simpl. pose proof (ro_order _ _ Hr). unfold qindex in *. case_decide as E.
    - rewrite E. apply list_lookup_total_insert_eq. lia.
    - apply list_lookup_total_insert_ne. lia. }
  split.
  - unfold receive_head, set_qslot. upd_simpl. by rewrite length_insert.
  - unfold receive_head. upd_simpl. rewrite length_insert. apply Hr.
  - unfold receive_head. upd_simpl. apply Z.mod_pos_bound. done.
  - unfold receive_head. upd_simpl. rewrite (ro_count _ _ Hr). cbn [length]. lia.
  - unfold receive_head. upd_simpl. cbn. rewrite (ro_tail _ _ Hr), Zplus_mod_idemp_l. f_equal. lia.
  - intros i y Hy. pose proof (lookup_lt_Some _ _ _ Hy) as Hlt.
    change (q_pending_head (receive_head q)) with ((q_pending_head q + 1) mod QCAP).
    rewrite Zplus_mod_idemp_l. replace (q_pending_head q + 1 + Z.of_nat i) with (q_pending_head q + Z.of_nat (S i)) by lia.
    rewrite Ho by (apply Z.mod_pos_bound; done). rewrite decide_False; [by apply (ro_at _ _ Hr (S i) y)|].
    intros E. rewrite <- (Z.mod_small (q_pending_head q) QCAP) in E at 1 by done.
    rewrite <- (Z.add_0_r (q_pending_head q)) in E at 1. apply wrap_apart in E; lia.
  - done.
  - intros y Hy. apply Hr. by right.
  - intros y Hy. rewrite (receive_qslot y Hy). case_decide as E.
    + subst y. split; [done|]. by intros ?.
    + rewrite (ro_pending _ _ Hr y Hy), elem_of_cons. split; [|by right]. intros [?|?]; [congruence|done].
  - unfold receive_head, set_qslot. upd_simpl. rewrite Hox.
    rewrite (countb_insert _ _ _ (qslot_at q x)) by (by apply qslot_lookup). rewrite Hwx, (ro_watch _ _ Hr). cbn. lia.
  - intros y Hy. rewrite (receive_qslot y Hy). case_decide; [done|by apply Hr].
Qed.

Lemma receive_events : ring_events q (x :: l) = q_event (qslot_at q x) :: ring_events (receive_head q) l.
Proof using Hr.
  unfold ring_events. cbn [map]. f_equal. apply map_ext_in. intros y Hy. apply list_elem_of_In in Hy.
  pose proof (ro_nodup _ _ Hr) as Hnd. apply list.NoDup_cons in Hnd as [Hn Hnd].
  rewrite receive_qslot by (apply Hr; by right). rewrite decide_False; [done|congruence].
Qed.

End Receive.

Lemma ring_zero id : ring_ok (queue_zero <| q_id := id |> <| q_initialized := true |>) [].
Proof.
  assert (forall x, qindex x -> qslot_at queue_zero x = qslot_zero) as Hz.
  { intros x Hx. apply lookup_total_replicate_2. unfold qindex in Hx. lia. }
  split; try done.
  - apply NoDup_nil_2.
  - intros x Hx. by apply not_elem_of_nil in Hx.
  - intros x Hx. change (qslot_at _ x) with (qslot_at queue_zero x). rewrite (Hz x Hx).
    split; [done|]. intros Hin. by apply not_elem_of_nil in Hin.
  - intros x Hx. change (qslot_at _ x) with (qslot_at queue_zero x). by rewrite (Hz x Hx).
Qed.
