(* ===== verification/ExitData.v ===== *)
(** The invariant of the exit queues and what each operation does to their data.

    [exit_data k]: every live queue represents a list of events, every slot it
    reserves belongs to a live process that points back at the queue, and every
    process with a watcher has exactly one reserved slot. *)

From S2P Require Import Prelude Pmm ObjectStorage Kernel Objects Thread.
From S2P Require Import Scheduler SchedulerProofs SchedulerWf Ipc IpcWf IpcOps.
From S2P Require Import ExitQueue ExitRing.

Open Scope jcos_scope.

Notation QSTORE := PROCESS_EXIT_QUEUE_STORAGE_CAPACITY.

(** Slot [x] of [queue] is reserved for [process]. *)
Definition watches (k : Kernel) (queue process x : Z) : Prop :=
  qindex x /\ q_watching (qslot_at (exq k queue) x) = true /\ q_process (qslot_at (exq k queue) x) = process.

Record queue_ok (k : Kernel) (queue : Z) (l : list Z) : Prop := {
  qo_ring : ring_ok (exq k queue) l;
  qo_init : q_initialized (exq k queue) = true;
  qo_id : nz (q_id (exq k queue)) = true;
  qo_slot : forall x, qindex x -> qslot_valid k queue x = true;
  qo_unique : forall p x y, watches k queue p x -> watches k queue p y -> x = y;
  qo_closed : q_closed (exq k queue) = true -> forall p x, ~ watches k queue p x }.

Definition unlinked_process (p : Process) : Prop := p_exit_queue p = 0 /\ p_exit_queue_id p = 0.

Definition link_ok (k : Kernel) (p : Z) : Prop :=
  unlinked_process (prc k p) \/
  (process_storage_live k p = true /\ queue_live k (p_exit_queue (prc k p)) = true /\
   p_exit_queue_id (prc k p) = q_id (exq k (p_exit_queue (prc k p))) /\
   exists x, watches k (p_exit_queue (prc k p)) p x).

Record exit_data (k : Kernel) : Prop := {
  xd_reg : registry QSTORE (om_storage (k_exq k));
  xd_queue : forall q, queue_live k q = true -> exists l, queue_ok k q l;
  xd_link : forall p, link_ok k p }.

(** * Slots *)

Lemma process_live_nonnull k p : process_storage_live k p = true -> p <> 0.
Proof. intros H ->. unfold process_storage_live, object_storage_find in H. cbn in H. by rewrite Z.ltb_irrefl in H. Qed.

Lemma queue_live_nonnull k q : queue_live k q = true -> nz q = true.
Proof.
  unfold queue_live, object_storage_find. destruct (nz q); [done|]. by rewrite Z.ltb_irrefl.
Qed.

Lemma watch_valid k q p x :
  watches k q p x -> qslot_valid k q x = true ->
  p <> 0 /\ process_storage_live k p = true /\ p_id (prc k p) = q_process_id (qslot_at (exq k q) x) /\
  p_exit_queue (prc k p) = q /\ p_exit_queue_id (prc k p) = q_id (exq k q) /\
  q_pending (qslot_at (exq k q) x) = false.
Proof.
  intros (_ & Hw & Hp). unfold qslot_valid. rewrite Hw, Hp. intros H.
  repeat match goal with H : _ && _ = true |- _ => apply andb_true_iff in H as [H ?] end.
  match goal with H : nz p = true |- _ => apply negb_true_iff, Z.eqb_neq in H end.
  repeat match goal with H : (_ =? _) = true |- _ => apply Z.eqb_eq in H end.
  apply negb_true_iff in H. by split_and!.
Qed.

(** Reservations of a live process are found by the search. *)
Lemma watch_slot_spec k q p x l :
  queue_ok k q l -> watches k q p x -> watch_slot k q p = Some x.
Proof.
  intros Hq Hx. unfold watch_slot. destruct (watch_valid k q p x Hx) as (_ & _ & Hid & _); [apply Hq, Hx|].
  destruct Hx as (Hr & Hw & Hp) eqn:E. clear E.
  destruct (List.find _ queue_indices) as [y|] eqn:Hf.
  - apply List.find_some in Hf as [Hy Hb]. apply list_elem_of_In, elem_of_indices in Hy.
    apply negb_true_iff in Hb. apply orb_false_iff in Hb as [Hb _]. apply orb_false_iff in Hb as [Hwy Hpy].
    apply negb_false_iff in Hwy. apply negb_false_iff, Z.eqb_eq in Hpy.
    f_equal. apply (qo_unique _ _ _ Hq p); by split_and!.
  - exfalso. assert (In x queue_indices) as Hin by (by apply list_elem_of_In, elem_of_indices).
    pose proof (List.find_none _ _ Hf x Hin) as Hb. cbn beta zeta in Hb.
    by rewrite Hw, Hp, Hid, !Z.eqb_refl in Hb.
Qed.

Lemma watch_slot_some k q p x : watch_slot k q p = Some x -> watches k q p x.
Proof.
  unfold watch_slot. intros Hf. apply List.find_some in Hf as [Hy Hb]. apply list_elem_of_In, elem_of_indices in Hy.
  apply negb_true_iff in Hb. apply orb_false_iff in Hb as [Hb _]. apply orb_false_iff in Hb as [Hwy Hpy].
  apply negb_false_iff in Hwy. apply negb_false_iff, Z.eqb_eq in Hpy. done.
Qed.

(** * The check of the code *)

Lemma queue_valid_spec k q l :
  queue_live k q = true -> queue_ok k q l -> wait_reservation_valid k q = true -> queue_valid k q = true.
Proof.
  intros Hl [Hr Hi Hid Hs _ _] Hw. unfold queue_valid. rewrite Hl, Hi, Hid, Hw.
  rewrite (ring_watch_count Hr), (ring_pending_count Hr), (ring_order_valid Hr), <- (ro_tail _ _ Hr), !Z.eqb_refl.
  destruct (ring_capacity Hr) as (H1 & H2 & H3). pose proof (ro_head _ _ Hr) as Hh. pose proof (ring_tail Hr) as Ht.
  unfold qindex in *.
  rewrite !(proj2 (Z.leb_le _ _)) by lia. rewrite !(proj2 (Z.ltb_lt _ _)) by lia. rewrite !andb_true_r. cbn [andb].
  apply forallb_forall. intros x Hx. apply Hs, elem_of_indices. by apply list_elem_of_In.
Qed.

(** * Frames *)

(** What the queue invariant reads of processes and registries. *)
Record exit_frame (k k' : Kernel) : Prop := {
  ef_reg : k_exq k' = k_exq k;
  ef_prc : k_prc k' = k_prc k;
  ef_id : forall p, p_id (prc k' p) = p_id (prc k p) }.

Lemma frame_queue_live k k' q : exit_frame k k' -> queue_live k' q = queue_live k q.
Proof. intros [H _ _]. unfold queue_live. by rewrite H. Qed.

Lemma frame_process_live k k' p : exit_frame k k' -> process_storage_live k' p = process_storage_live k p.
Proof. intros [_ H _]. unfold process_storage_live. by rewrite H. Qed.

Definition exit_links (p : Process) : Z * Z := (p_exit_queue p, p_exit_queue_id p).

(** A slot keeps its validity when its process keeps its link. *)
Lemma qslot_valid_ext k k' q x :
  exit_frame k k' -> q_id (exq k' q) = q_id (exq k q) -> qslot_at (exq k' q) x = qslot_at (exq k q) x ->
  (q_watching (qslot_at (exq k q) x) = true ->
   exit_links (prc k' (q_process (qslot_at (exq k q) x))) = exit_links (prc k (q_process (qslot_at (exq k q) x)))) ->
  qslot_valid k' q x = qslot_valid k q x.
Proof.
  intros Hf Hid Hs Hl. unfold qslot_valid. rewrite Hs, Hid. destruct (q_watching _); [|done].
  specialize (Hl eq_refl). unfold exit_links in Hl. injection Hl as -> ->. unfold process_storage_in_use.
  by rewrite (frame_process_live k k'), (ef_id _ _ Hf).
Qed.

Lemma queue_ok_ext k k' q l :
  exit_frame k k' -> exq k' q = exq k q ->
  (forall p, p_exit_queue (prc k p) = q -> exit_links (prc k' p) = exit_links (prc k p)) ->
  queue_ok k q l -> queue_ok k' q l.
Proof.
  intros Hf He Hl [H1 H2 H3 H4 H5 H6].
  assert (forall p x, watches k' q p x <-> watches k q p x) as Hw by (intros; unfold watches; by rewrite He).
  split; rewrite ?He; try done.
  - intros x Hx. rewrite (qslot_valid_ext k k' q x); [auto|done|by rewrite He|by rewrite He|].
    intros Hwx. apply Hl. destruct (watch_valid k q (q_process (qslot_at (exq k q) x)) x) as (_ & _ & _ & ? & _);
      [done|auto|done].
  - intros p x y Hx%Hw Hy%Hw. by apply (H5 p).
  - intros Hc p x Hx%Hw. by apply (H6 Hc p x).
Qed.

Lemma queue_ok_same k k' q l :
  exq k' q = exq k q -> (forall p, prc k' p = prc k p) -> k_prc k' = k_prc k -> queue_ok k q l -> queue_ok k' q l.
Proof.
  intros He Hp Hs [H1 H2 H3 H4 H5 H6].
  assert (forall p x, watches k' q p x <-> watches k q p x) as Hw by (intros; unfold watches; by rewrite He).
  split; rewrite ?He; try done.
  - intros x Hx. rewrite <- (H4 x Hx). unfold qslot_valid, process_storage_in_use, process_storage_live. by rewrite He, Hp, Hs.
  - intros p x y Hx%Hw Hy%Hw. by apply (H5 p).
  - intros Hc p x Hx%Hw. by apply (H6 Hc p x).
Qed.

(** One queue and the processes linked to it change. *)
Lemma exit_data_step k k' q :
  exit_data k -> exit_frame k k' -> nz q = true ->
  (forall q', q' <> q -> exq k' q' = exq k q') ->
  (forall p, exit_links (prc k' p) = exit_links (prc k p) \/
     ((p_exit_queue (prc k p) = q \/ unlinked_process (prc k p)) /\
      (p_exit_queue (prc k' p) = q \/ unlinked_process (prc k' p)))) ->
  (queue_live k q = true -> exists l, queue_ok k' q l) ->
  (forall p, p_exit_queue (prc k' p) = q -> link_ok k' p) -> exit_data k'.
Proof.
  intros [Hr Hq Hl] Hf Hz He Hp Hok Hlink. apply negb_true_iff, Z.eqb_neq in Hz. split.
  - by rewrite (ef_reg _ _ Hf).
  - intros q'. rewrite (frame_queue_live k k') by done. intros Hv.
    destruct (decide (q' = q)) as [->|Hne]; [auto|]. destruct (Hq q' Hv) as [l Hl']. exists l.
    apply (queue_ok_ext k); try done; [by apply He|]. intros p Hpq. destruct (Hp p) as [?|[[?|[Hu _]] _]]; [done|congruence|].
    rewrite Hu in Hpq. subst q'. apply queue_live_nonnull in Hv. done.
  - intros p. destruct (decide (p_exit_queue (prc k' p) = q)) as [E|Hne]; [auto|].
    destruct (Hp p) as [E|[_ [?|?]]]; [|done|by left].
    unfold exit_links in E. injection E as E1 E2. destruct (Hl p) as [Hu|(H1 & H2 & H3 & x & H4)].
    + left. destruct Hu. split; congruence.
    + right. rewrite (frame_process_live k k'), (frame_queue_live k k'), E1, E2 by done.
      rewrite He by congruence. split_and!; try done. exists x. unfold watches. rewrite He by congruence. done.
Qed.

(** [k'] differs from [k] only in the exit queues and the links of processes. *)
Record exit_only (k k' : Kernel) : Prop := {
  eo_rest : k' = k <| k_queues := k_queues k' |> <| k_processes := k_processes k' |>;
  eo_fields : forall p, process_fields (prc k' p) = process_fields (prc k p);
  eo_pid : forall p, p_id (prc k' p) = p_id (prc k p) }.

Lemma exit_only_frame k k' : exit_only k k' -> exit_frame k k'.
Proof. intros [H _ Hid]. split; [by rewrite H|by rewrite H|done]. Qed.

Lemma exit_only_trans k k1 k2 : exit_only k k1 -> exit_only k1 k2 -> exit_only k k2.
Proof.
  intros [R1 F1 I1] [R2 F2 I2]. split.
  - rewrite R2, R1. by destruct k.
  - intros p. by rewrite F2.
  - intros p. by rewrite I2.
Qed.

Lemma exit_only_queue k q f : exit_only k (set_exq q f k).
Proof. split; [by destruct k|done|done]. Qed.

Lemma exit_only_link k p q id : exit_only k (link_process p q id k).
Proof.
  split; [by destruct k| |]; intros p'; unfold link_process; rewrite prc_set; case_decide; by subst.
Qed.

Lemma exit_only_quiet k k' : exit_only k k' -> quiet k k'.
Proof.
  intros [R F _]. split; [split|..]; try (by rewrite R).
Qed.

Lemma link_prc k p q id p' :
  prc (link_process p q id k) p' =
    if decide (p = p') then (prc k p) <| p_exit_queue := q |> <| p_exit_queue_id := id |> else prc k p'.
Proof. apply prc_set. Qed.

Lemma link_exq k p q id q' : exq (link_process p q id k) q' = exq k q'.
Proof. done. Qed.

(** * One slot

    Slot [x] of a queue is rewritten to [s] and the link of one process changes
    with it: the process is newly watched there, or it was watched there, or it
    has nothing to do with the slot. *)

Record slot_step (k k' : Kernel) (queue process x : Z) (s : ProcessExitQueueSlot) : Prop := {
  sx_frame : exit_frame k k';
  sx_index : qindex x;
  sx_others : forall q, q <> queue -> exq k' q = exq k q;
  sx_id : q_id (exq k' queue) = q_id (exq k queue);
  sx_init : q_initialized (exq k' queue) = q_initialized (exq k queue);
  sx_closed : q_closed (exq k' queue) = q_closed (exq k queue);
  sx_slot : forall y, qindex y -> qslot_at (exq k' queue) y = if decide (x = y) then s else qslot_at (exq k queue) y;
  sx_links : forall p, p <> process -> exit_links (prc k' p) = exit_links (prc k p);
  sx_valid : qslot_valid k' queue x = true;
  sx_process :
    (q_watching s = true /\ q_process s = process /\ q_watching (qslot_at (exq k queue) x) = false /\
     unlinked_process (prc k process) /\ exit_links (prc k' process) = (queue, q_id (exq k queue)) /\
     process_storage_live k process = true /\ q_closed (exq k queue) = false) \/
    (q_watching s = false /\ unlinked_process (prc k' process) /\
     (watches k queue process x \/ (q_watching (qslot_at (exq k queue) x) = false /\ unlinked_process (prc k process)))) }.

Section SlotStep.
  Context {k k' : Kernel} {queue process x : Z} {l l' : list Z} {s : ProcessExitQueueSlot}.
  Hypothesis Hd : exit_data k.
  Hypothesis Hv : queue_live k queue = true.
  Hypothesis Hq : queue_ok k queue l.
  Hypothesis Hs : slot_step k k' queue process x s.
  Hypothesis Hr : ring_ok (exq k' queue) l'.

(** The other reservations of the queue are for other processes. *)
Lemma step_other p y : watches k queue p y -> y <> x -> p <> process.
Proof using Hd Hv Hq Hs.
  intros Hy Hne ->. pose proof (queue_live_nonnull _ _ Hv) as Hz. apply negb_true_iff, Z.eqb_neq in Hz.
  destruct (watch_valid k queue process y Hy) as (_ & _ & _ & Hpq & _); [apply Hq, Hy|].
  destruct (sx_process _ _ _ _ _ _ Hs) as [(_ & _ & _ & [Hu _] & _)|(_ & _ & [Hx|[_ [Hu _]]])]; [congruence| |congruence].
  apply Hne. by apply (qo_unique _ _ _ Hq process).
Qed.

Lemma step_watches p y :
  watches k' queue p y <-> (y <> x /\ watches k queue p y) \/ (y = x /\ q_watching s = true /\ q_process s = p).
Proof using Hs.
  unfold watches. split.
  - intros (Hy & Hw & Hp). rewrite (sx_slot _ _ _ _ _ _ Hs y Hy) in Hw, Hp. case_decide; [right|left]; by subst.
  - intros [(Hne & Hy & Hw & Hp)|(-> & Hw & Hp)].
    + rewrite (sx_slot _ _ _ _ _ _ Hs y Hy), decide_False by done. done.
    + pose proof (sx_index _ _ _ _ _ _ Hs) as Hx. rewrite (sx_slot _ _ _ _ _ _ Hs x Hx), decide_True by done. done.
Qed.

Lemma step_queue_ok : queue_ok k' queue l'.
Proof using All.
  split; [done|by rewrite (sx_init _ _ _ _ _ _ Hs); apply Hq|by rewrite (sx_id _ _ _ _ _ _ Hs); apply Hq|..].
  - intros y Hy. destruct (decide (y = x)) as [->|Hne]; [apply Hs|].
    assert (qslot_at (exq k' queue) y = qslot_at (exq k queue) y) as He
      by (rewrite (sx_slot _ _ _ _ _ _ Hs y Hy); by rewrite decide_False).
    rewrite (qslot_valid_ext k k' queue y); [by apply Hq|apply Hs|apply Hs|done|].
    intros Hw. apply Hs. by apply (step_other _ y).
  - intros p y z Hy Hz. apply step_watches in Hy as [[Hny Hy]|(-> & Hw & Hp)], Hz as [[Hnz Hz]|(-> & Hw' & Hp')].
    + by apply (qo_unique _ _ _ Hq p).
    + exfalso. pose proof (step_other _ _ Hy Hny) as Hne.
      destruct (sx_process _ _ _ _ _ _ Hs) as [(_ & Hsp & _)|(Hsw & _)]; congruence.
    + exfalso. pose proof (step_other _ _ Hz Hnz) as Hne.
      destruct (sx_process _ _ _ _ _ _ Hs) as [(_ & Hsp & _)|(Hsw & _)]; congruence.
    + done.
  - rewrite (sx_closed _ _ _ _ _ _ Hs). intros Hc p y Hy. apply step_watches in Hy as [[_ Hy]|(_ & Hw & _)].
    + by apply (qo_closed _ _ _ Hq Hc p y).
    + destruct (sx_process _ _ _ _ _ _ Hs) as [(_ & _ & _ & _ & _ & _ & Ho)|(Hsw & _)]; congruence.
Qed.

Lemma step_exit_data : exit_data k'.
Proof using All.
  pose proof (queue_live_nonnull _ _ Hv) as Hz. apply (exit_data_step k k' queue Hd); try apply Hs; try done.
  - intros p. destruct (decide (p = process)) as [->|Hne]; [right|left; by apply Hs].
    destruct (sx_process _ _ _ _ _ _ Hs) as [(_ & _ & _ & Hu & Hl & _)|(_ & Hu & [Hx|[_ Hu']])].
    + unfold exit_links in Hl. injection Hl as Hl _. split; [by right|by left].
    + destruct (watch_valid k queue process x Hx) as (_ & _ & _ & Hpq & _); [apply Hq, Hx|]. split; [by left|by right].
    + split; by right.
  - intros _. exists l'. apply step_queue_ok.
  - intros p Hp. destruct (decide (p = process)) as [->|Hne].
    + destruct (sx_process _ _ _ _ _ _ Hs) as [(Hw & Hsp & _ & Hu & Hl & Hlive & _)|(_ & Hu & _)]; [right|by left].
      unfold exit_links in Hl. injection Hl as Hl1 Hl2. rewrite Hp.
      rewrite (frame_process_live k k'), (frame_queue_live k k') by apply Hs.
      split_and!; try done; [by rewrite (sx_id _ _ _ _ _ _ Hs)|]. exists x. apply step_watches. right. by split_and!.
    + pose proof (sx_links _ _ _ _ _ _ Hs p Hne) as E. unfold exit_links in E. injection E as E1 E2.
      destruct (xd_link _ Hd p) as [[Hu1 Hu2]|(H1 & H2 & H3 & y & H4)]; [left; split; congruence|].
      right. rewrite (frame_process_live k k'), (frame_queue_live k k'), E2, Hp by apply Hs. rewrite <- E1, Hp in H2, H3, H4.
      split_and!; try done; [by rewrite (sx_id _ _ _ _ _ _ Hs)|]. exists y. apply step_watches. left. split; [|done].
      intros ->. destruct H4 as (_ & Hw & Hpp).
      destruct (sx_process _ _ _ _ _ _ Hs) as [(_ & _ & Hnw & _)|(_ & _ & [(_ & _ & Hx)|[Hnw _]])]; congruence.
Qed.

End SlotStep.

(** * Operations *)

Lemma set_exq_at k q f g : f (exq k q) = g (exq k q) -> set_exq q f k = set_exq q g k.
Proof. intros E. unfold set_exq. by rewrite E. Qed.

Lemma set_exq_twice k q f g : set_exq q g (set_exq q f k) = set_exq q (fun x => g (f x)) k.
Proof.
  unfold set_exq at 1. rewrite exq_set, decide_True by done. unfold set_exq. upd_simpl. f_equal.
  by rewrite insert_insert_eq.
Qed.

Lemma link_set_exq k p a b q f : set_exq q f (link_process p a b k) = link_process p a b (set_exq q f k).
Proof. done. Qed.

(** What waiting threads read of a queue. *)
Definition wait_view (q : ProcessExitQueue) : Z * Z := (q_waiting_receiver q, q_waiting_receiver_id q).

(** An operation on the data: the rest of the kernel, the registered receivers
    and the open queues stay. *)
Record data_step (k k' : Kernel) : Prop := {
  ds_only : exit_only k k';
  ds_data : exit_data k';
  ds_wait : forall q, wait_view (exq k' q) = wait_view (exq k q);
  ds_closed : forall q, q_closed (exq k' q) = q_closed (exq k q) }.

Lemma data_step_refl k : exit_data k -> data_step k k.
Proof. intros Hd. split; try done. split; try done. by destruct k. Qed.

(** A slot rewritten together with the count of reservations. *)
Definition recount (x : Z) (s : ProcessExitQueueSlot) (q : ProcessExitQueue) : ProcessExitQueue :=
  (set_qslot x s q) <| q_watch_count := q_watch_count q - Z.b2z (q_watching (qslot_at q x)) + Z.b2z (q_watching s) |>.

Lemma recount_slot q x s y l :
  ring_ok q l -> qindex x -> qindex y -> qslot_at (recount x s q) y = if decide (x = y) then s else qslot_at q y.
Proof. intros Hr Hx Hy. apply (qslot_set q); [apply Hr|done|done]. Qed.

Section Ops.
  Context {k : Kernel} (Hd : exit_data k).

Section Slot.
  Context {q p x : Z} {l : list Z} {s : ProcessExitQueueSlot} (Hv : queue_live k q = true) (Hq : queue_ok k q l).
  Context (Hx : qindex x).

(** Rewriting a reservation. *)
Lemma recount_step a b :
  let k' := link_process p a b (set_exq q (recount x s) k) in
  q_pending s = false -> q_pending (qslot_at (exq k q) x) = false -> qslot_valid k' q x = true ->
  ((q_watching s = true /\ q_process s = p /\ q_watching (qslot_at (exq k q) x) = false /\
    unlinked_process (prc k p) /\ (a, b) = (q, q_id (exq k q)) /\
    process_storage_live k p = true /\ q_closed (exq k q) = false) \/
   (q_watching s = false /\ (a, b) = (0, 0) /\
    (watches k q p x \/ (q_watching (qslot_at (exq k q) x) = false /\ unlinked_process (prc k p))))) ->
  data_step k k' /\ queue_ok k' q l /\
  forall q', pending_events (exq k' q') = pending_events (exq k q') /\
    q_pending_count (exq k' q') = q_pending_count (exq k q').
Proof using All.
  intros k' Hsp Hxp Hval Hcase.
  assert (exq k' q = recount x s (exq k q)) as He by (unfold k'; rewrite link_exq, exq_set; by rewrite decide_True).
  assert (forall q', q' <> q -> exq k' q' = exq k q') as Hother
    by (intros q' Hne; unfold k'; rewrite link_exq, exq_set; by rewrite decide_False).
  assert (exit_only k k') as Honly by (eapply exit_only_trans; [apply exit_only_queue|apply exit_only_link]).
  assert (ring_ok (exq k' q) l) as Hring.
  { rewrite He. apply (ring_slot (qo_ring _ _ _ Hq) x s Hx); [congruence|done]. }
  assert (exit_links (prc k' p) = (a, b)) as Hlp.
  { unfold k'. rewrite link_prc, decide_True by done. done. }
  assert (slot_step k k' q p x s) as Hs.
  { split; try (rewrite He; done); try done.
    - by apply exit_only_frame.
    - intros y Hy. rewrite He. apply (qslot_set (exq k q)); [apply (qo_ring _ _ _ Hq)|done|done].
    - intros p' Hne. unfold k'. rewrite link_prc. by rewrite decide_False.
    - destruct Hcase as [(? & ? & ? & ? & Hab & ? & ?)|(? & Hab & ?)]; [left|right]; rewrite Hab in Hlp.
      + by split_and!.
      + unfold exit_links in Hlp. injection Hlp as H1 H2. by split_and!. }
  split; [|split].
  - split; [done|by apply (step_exit_data Hd Hv Hq Hs Hring)|..]; intros q';
      (destruct (decide (q' = q)) as [->|Hne]; [by rewrite He|by rewrite Hother]).
  - apply (step_queue_ok Hd Hv Hq Hs Hring).
  - intros q'. destruct (decide (q' = q)) as [->|Hne]; [|by rewrite Hother]. split; [|by rewrite He].
    rewrite (ring_pending_events Hring), (ring_pending_events (qo_ring _ _ _ Hq)), He.
    apply (ring_events_slot (qo_ring _ _ _ Hq)); [done|].
    intros Hin. apply (ro_pending _ _ (qo_ring _ _ _ Hq) x Hx) in Hin. congruence.
Qed.

End Slot.

Lemma free_slot q l :
  queue_ok k q l -> q_watch_count (exq k q) + q_pending_count (exq k q) < QCAP ->
  exists x, List.find (fun i => !(q_watching (qslot_at (exq k q) i) || q_pending (qslot_at (exq k q) i))) queue_indices = Some x /\
    qindex x /\ q_watching (qslot_at (exq k q) x) = false /\ q_pending (qslot_at (exq k q) x) = false.
Proof using.
  intros Hq Hlt. destruct (List.find _ queue_indices) as [x|] eqn:Hf.
  - exists x. apply List.find_some in Hf as [Hx Hb]. apply list_elem_of_In, elem_of_indices in Hx.
    apply negb_true_iff, orb_false_iff in Hb as [? ?]. by split_and!.
  - exfalso. rewrite <- (ring_pending_count (qo_ring _ _ _ Hq)), <- (ring_watch_count (qo_ring _ _ _ Hq)) in Hlt.
    assert (forall I, (forall x, In x I -> q_watching (qslot_at (exq k q) x) || q_pending (qslot_at (exq k q) x) = true) ->
      Z.of_nat (length I) <= countb (fun i => q_watching (qslot_at (exq k q) i)) I
                             + countb (fun i => q_pending (qslot_at (exq k q) i)) I) as H.
    { intros I HI. induction I as [|x I IH]; [done|]. rewrite !countb_cons. cbn [length].
      pose proof (HI x (or_introl eq_refl)) as Hx. specialize (IH (fun y Hy => HI y (or_intror Hy))).
      destruct (q_watching (qslot_at (exq k q) x)), (q_pending (qslot_at (exq k q) x)); cbn in *; try done; lia. }
    specialize (H queue_indices (fun x Hx => proj1 (negb_false_iff _) (List.find_none _ _ Hf x Hx))).
    change (Z.of_nat (length queue_indices)) with QCAP in H. lia.
Qed.

(** ** Watching *)

Definition watchable (q p : Z) : bool :=
  queue_live k q && !q_closed (exq k q) && process_storage_live k p && p_initialized (prc k p) && nz (p_id (prc k p))
  && !p_kernel (prc k p) && no_event (p_exit_info (prc k p)) && !nz (p_exit_queue (prc k p))
  && (q_watch_count (exq k q) + q_pending_count (exq k q) <? QCAP).

Lemma watch_guard q p :
  !queue_live k q || q_closed (exq k q) || !process_storage_live k p || !nz p
     || !p_initialized (prc k p) || !nz (p_id (prc k p)) || p_kernel (prc k p) || !no_event (p_exit_info (prc k p))
     || nz (p_exit_queue (prc k p)) || nz (p_exit_queue_id (prc k p))
     || (q_watch_count (exq k q) + q_pending_count (exq k q) >=? QCAP) = !watchable q p.
Proof using Hd.
  unfold watchable. rewrite Z.leb_antisym.
  destruct (queue_live k q); [|done]. destruct (q_closed (exq k q)); [done|].
  destruct (process_storage_live k p) eqn:Hp; [|done].
  assert (nz p = true) as -> by (apply negb_true_iff, Z.eqb_neq; by apply (process_live_nonnull k)).
  destruct (p_initialized _), (nz (p_id _)), (p_kernel _), (no_event _); try done.
  destruct (nz (p_exit_queue (prc k p))) eqn:Hpq; [done|].
  destruct (xd_link _ Hd p) as [[_ ->]|(_ & Hbad & _)].
  - cbn. by destruct (_ <? _).
  - apply queue_live_nonnull in Hbad. congruence.
Qed.

Lemma watch_spec q p :
  queue_valid k q = queue_live k q ->
  if watchable q p then
    exists k', process_exit_queue_watch q p k = (true, k') /\ data_step k k' /\
      (forall q', pending_events (exq k' q') = pending_events (exq k q') /\
         q_pending_count (exq k' q') = q_pending_count (exq k q')) /\
      p_exit_queue (prc k' p) = q /\ forall p', p' <> p -> prc k' p' = prc k p'
  else process_exit_queue_watch q p k = (false, k).
Proof using Hd.
  intros Hvalid. unfold process_exit_queue_watch, process_storage_in_use. rewrite Hvalid, watch_guard.
  destruct (watchable q p) eqn:Hw; [|done]. cbn [negb]. unfold watchable in Hw. repeat (apply andb_true_iff in Hw as [Hw ?]).
  repeat match goal with H : !_ = true |- _ => apply negb_true_iff in H end.
  match goal with H : nz (p_exit_queue _) = false |- _ => apply negb_false_iff, Z.eqb_eq in H as Hpq end.
  match goal with H : (_ <? _) = true |- _ => apply Z.ltb_lt in H as Hlt end.
  match goal with H : process_storage_live _ _ = true |- _ => pose proof (process_live_nonnull _ _ H) as Hp0 end.
  assert (p_exit_queue_id (prc k p) = 0) as Hqid.
  { destruct (xd_link _ Hd p) as [[_ ?]|(_ & Hbad & _)]; [done|]. rewrite Hpq in Hbad. by apply queue_live_nonnull in Hbad. }
  destruct (xd_queue _ Hd q Hw) as [l Hq]. destruct (free_slot q l Hq Hlt) as (x & -> & Hx & Hnw & Hnp).
  set (s := (qslot_at (exq k q) x) <| q_process := p |> <| q_process_id := p_id (prc k p) |> <| q_watching := true |>).
  rewrite exq_set, decide_True by done. rewrite link_set_exq, set_exq_twice.
  change (q_id (set_qslot x s (exq k q))) with (q_id (exq k q)).
  rewrite (set_exq_at k q _ (recount x s)).
  2: { unfold recount. rewrite Hnw. change (Z.b2z (q_watching s)) with 1. cbn [Z.b2z]. rewrite Z.sub_0_r.
       destruct (ring_capacity (qo_ring _ _ _ Hq)) as (? & ? & ?). unfold QCAP in *.
       change (q_watch_count (set_qslot x s (exq k q))) with (q_watch_count (exq k q)). by rewrite u32_id by lia. }
  assert (exit_links (prc (link_process p q (q_id (exq k q)) (set_exq q (recount x s) k)) p) = (q, q_id (exq k q))) as Hlp
    by (rewrite link_prc; by rewrite decide_True).
  destruct (recount_step (p := p) (x := x) (s := s) Hw Hq Hx q (q_id (exq k q))) as (Hstep & _ & Hev); try done.
  - pose proof (qo_slot _ _ _ Hq x Hx) as Hsv. unfold qslot_valid in Hsv |- *. rewrite Hnw, Hnp in Hsv.
    rewrite link_exq, exq_set, decide_True by done.
    rewrite (recount_slot _ _ _ _ _ (qo_ring _ _ _ Hq)), decide_True by done.
    apply andb_true_iff in Hsv as [_ Hne]. unfold s. upd_simpl. rewrite Hnp, Hne, !link_prc, !decide_True by done.
    change (process_storage_in_use (link_process ?a ?b ?c (set_exq ?d ?e k))) with (process_storage_live k).
    rewrite !Z.eqb_refl. repeat match goal with H : ?b = true |- context [?b] => rewrite H end.
    assert (nz p = true) as -> by (by apply negb_true_iff, Z.eqb_neq). done.
  - left. split_and!; try done.
  - eexists. split; [done|]. split; [done|]. split; [done|]. unfold exit_links in Hlp. injection Hlp as Hl1 _.
    split; [done|]. intros p' Hne. rewrite link_prc. by rewrite decide_False.
Qed.

(** ** Unwatching *)

(** A linked process, its queue and its reservation. *)
Lemma linked_slot p :
  nz (p_exit_queue (prc k p)) || nz (p_exit_queue_id (prc k p)) = true ->
  let q := p_exit_queue (prc k p) in
  exists x l, queue_live k q = true /\ queue_ok k q l /\ watches k q p x /\ watch_slot k q p = Some x /\
    process_storage_live k p = true /\ p_exit_queue_id (prc k p) = q_id (exq k q) /\ q_closed (exq k q) = false.
Proof using Hd.
  intros Hl q. destruct (xd_link _ Hd p) as [[H1 H2]|(H1 & H2 & H3 & x & H4)].
  - by rewrite H1, H2 in Hl.
  - destruct (xd_queue _ Hd q H2) as [l Hq]. exists x, l. split_and!; try done; [by apply (watch_slot_spec k q p x l)|].
    destruct (q_closed (exq k q)) eqn:Hc; [|done]. by destruct (qo_closed _ _ _ Hq Hc p x).
Qed.

Lemma unlinked_iff p :
  (!nz (p_exit_queue (prc k p)) && !nz (p_exit_queue_id (prc k p))) =
  !(nz (p_exit_queue (prc k p)) || nz (p_exit_queue_id (prc k p))).
Proof using. by destruct (nz (p_exit_queue _)), (nz (p_exit_queue_id _)). Qed.

Lemma unlinked_eq p :
  nz (p_exit_queue (prc k p)) || nz (p_exit_queue_id (prc k p)) = false -> unlinked_process (prc k p).
Proof using. intros H. apply orb_false_iff in H as [H1 H2]. by apply negb_false_iff, Z.eqb_eq in H1, H2. Qed.

Lemma unwatch_spec p :
  (forall q, queue_valid k q = queue_live k q) -> p <> 0 ->
  exists k', process_exit_queue_unwatch_process p k = (true, k') /\ data_step k k' /\
    (forall q, pending_events (exq k' q) = pending_events (exq k q) /\
       q_pending_count (exq k' q) = q_pending_count (exq k q)) /\
    unlinked_process (prc k' p) /\ forall p', p' <> p -> prc k' p' = prc k p'.
Proof using Hd.
  intros Hvalid Hp. unfold process_exit_queue_unwatch_process, process_storage_in_use.
  assert (nz p = true) as -> by (by apply negb_true_iff, Z.eqb_neq). cbn [negb]. rewrite unlinked_iff.
  destruct (nz (p_exit_queue (prc k p)) || nz (p_exit_queue_id (prc k p))) eqn:Hl; cbn [negb].
  2: { exists k. pose proof (unlinked_eq p Hl) as Hu. split; [done|]. split; [by apply data_step_refl|]. by split. }
  destruct (linked_slot p Hl) as (x & l & Hv & Hq & Hx & Hfind & Hlive & Hid & Hopen).
  set (q := p_exit_queue (prc k p)) in *. rewrite Hvalid, Hv, Hid, Z.eqb_refl, Hlive, Hfind. cbn [negb orb].
  destruct (watch_valid k q p x Hx) as (_ & _ & _ & _ & _ & Hnp); [apply Hq, Hx|]. destruct Hx as (Hxi & Hxw & Hxp).
  rewrite set_exq_twice, (set_exq_at k q _ (recount x qslot_zero)).
  2: { unfold recount. rewrite Hxw. change (Z.b2z (q_watching qslot_zero)) with 0. cbn [Z.b2z]. rewrite Z.add_0_r.
       destruct (ring_capacity (qo_ring _ _ _ Hq)) as (? & ? & ?). pose proof (watch_room (qo_ring _ _ _ Hq) x Hxi Hxw).
       unfold QCAP in *. change (q_watch_count (set_qslot x qslot_zero (exq k q))) with (q_watch_count (exq k q)).
       by rewrite u32_id by lia. }
  destruct (recount_step (p := p) (x := x) (s := qslot_zero) Hv Hq Hxi 0 0) as (Hstep & _ & Hev); try done.
  - unfold qslot_valid. rewrite link_exq, exq_set, decide_True by done.
    by rewrite (recount_slot _ _ _ _ _ (qo_ring _ _ _ Hq)), decide_True.
  - right. split_and!; try done. by left.
  - eexists. split; [done|]. split; [done|]. split; [done|]. rewrite link_prc, decide_True by done.
    split; [done|]. intros p' Hne. rewrite link_prc. by rewrite decide_False.
Qed.

(** ** Publishing *)

Definition event_committed (q p x : Z) (info : ProcessExitInfo) : Kernel :=
  link_process p 0 0 (set_exq q (publish_at x info) k).

Lemma publish_step q p x l info :
  queue_live k q = true -> queue_ok k q l -> watches k q p x -> no_event info = false -> x_process_id info = p_id (prc k p) ->
  let k' := event_committed q p x info in
  data_step k k' /\ queue_ok k' q (l ++ [x]) /\ pending_events (exq k' q) = pending_events (exq k q) ++ [info] /\
  q_pending_count (exq k' q) = q_pending_count (exq k q) + 1 /\ (forall q', q' <> q -> exq k' q' = exq k q').
Proof using Hd.
  intros Hv Hq Hx Hne Hpid k'. destruct (watch_valid k q p x Hx) as (_ & _ & Hid & _); [apply Hq, Hx|].
  assert (nz (q_process_id (qslot_at (exq k q) x)) = true) as Hnzid.
  { pose proof (qo_slot _ _ _ Hq x (proj1 Hx)) as Hsv. unfold qslot_valid in Hsv. destruct Hx as (_ & Hxw & _). rewrite Hxw in Hsv.
    repeat match goal with H : _ && _ = true |- _ => apply andb_true_iff in H as [H ?] end. done. }
  assert (exq k' q = publish_at x info (exq k q)) as He by (unfold k', event_committed; rewrite link_exq, exq_set; by rewrite decide_True).
  assert (forall q', q' <> q -> exq k' q' = exq k q') as Hother
    by (intros q' Hn; unfold k', event_committed; rewrite link_exq, exq_set; by rewrite decide_False).
  assert (exit_only k k') as Honly by (eapply exit_only_trans; [apply exit_only_queue|apply exit_only_link]).
  pose proof (ring_publish (qo_ring _ _ _ Hq) x info (proj1 Hx) (proj1 (proj2 Hx))) as Hring. rewrite <- He in Hring.
  pose proof (publish_qslot (qo_ring _ _ _ Hq) x info) as Hslot.
  set (s := (qslot_at (exq k q) x) <| q_process := 0 |> <| q_watching := false |> <| q_pending := true |> <| q_event := info |>) in *.
  assert (slot_step k k' q p x s) as Hs.
  { split; try (rewrite He; done); try done.
    - by apply exit_only_frame.
    - apply Hx.
    - intros y Hy. rewrite He. apply Hslot; [apply Hx|done].
    - intros p' Hn. unfold k', event_committed. rewrite link_prc. by rewrite decide_False.
    - unfold qslot_valid. rewrite He, (Hslot x) by apply Hx. rewrite decide_True by done. unfold s. upd_simpl.
      rewrite Hne, Hpid, Hid, Hnzid, Z.eqb_refl. done.
    - right. split; [done|]. split; [|by left]. unfold k', event_committed. rewrite link_prc, decide_True by done. done. }
  split_and!.
  - split; [done|by apply (step_exit_data Hd Hv Hq Hs Hring)|..]; intros q';
      (destruct (decide (q' = q)) as [->|Hn]; [by rewrite He|by rewrite Hother]).
  - apply (step_queue_ok Hd Hv Hq Hs Hring).
  - rewrite (ring_pending_events Hring), (ring_pending_events (qo_ring _ _ _ Hq)), He.
    apply (publish_events (qo_ring _ _ _ Hq)); apply Hx.
  - by rewrite He.
  - done.
Qed.

(** ** Receiving *)

Lemma exit_receive_spec q l :
  queue_live k q = true -> queue_ok k q l ->
  match pending_events (exq k q) with
  | [] => q_pending_count (exq k q) = 0 /\ receive_locked q k = (None, k)
  | e :: es => let k' := set_exq q receive_head k in
    nz (q_pending_count (exq k q)) = true /\ receive_locked q k = (Some e, k') /\ data_step k k' /\
    pending_events (exq k' q) = es /\ (forall q', q' <> q -> exq k' q' = exq k q')
  end.
Proof using Hd.
  intros Hv Hq. pose proof (qo_ring _ _ _ Hq) as Hr. rewrite (ring_pending_events Hr). unfold receive_locked.
  rewrite (ro_count _ _ Hr). destruct l as [|x l]; [done|].
  rewrite (receive_events Hr). set (k' := set_exq q receive_head k). cbn zeta.
  assert (nz (Z.of_nat (length (x :: l))) = true) as Hnz by (apply negb_true_iff, Z.eqb_neq; cbn [length]; lia).
  rewrite Hnz. cbn [negb].
  rewrite (ring_oldest Hr). pose proof (oldest_range Hr) as Hx.
  assert ((x >=? QCAP) = false) as -> by (unfold qindex in Hx; apply Z.leb_gt; lia).
  assert (q_pending (qslot_at (exq k q) x) = true) as Hpx by (apply (ro_pending _ _ Hr x Hx); left). rewrite Hpx. cbn [negb].
  assert (exq k' q = receive_head (exq k q)) as He by (unfold k'; rewrite exq_set; by rewrite decide_True).
  assert (forall q', q' <> q -> exq k' q' = exq k q') as Hother by (intros q' Hn; unfold k'; rewrite exq_set; by rewrite decide_False).
  pose proof (ring_receive Hr) as Hring. rewrite <- He in Hring.
  assert (q_watching (qslot_at (exq k q) x) = false) as Hwx.
  { destruct (q_watching (qslot_at (exq k q) x)) eqn:E; [|done]. by rewrite (ro_apart _ _ Hr x Hx E) in Hpx. }
  assert (slot_step k k' q 0 x qslot_zero) as Hs.
  { split; try (rewrite He; done); try done.
    - intros y Hy. rewrite He. by apply (receive_qslot Hr).
    - unfold qslot_valid. rewrite He, (receive_qslot Hr x Hx), decide_True by done. done.
    - right. split; [done|]. assert (unlinked_process (prc k 0)) as Hu; [|split; [done|by right]].
      destruct (xd_link _ Hd 0) as [?|(H0 & _)]; [done|]. by apply process_live_nonnull in H0. }
  split; [done|]. split; [|split; [|split; [|done]]].
  - f_equal. unfold k'. apply set_exq_at. unfold receive_head. rewrite (ring_oldest Hr), (ro_count _ _ Hr).
    assert (Z.of_nat (length (x :: l)) <= QCAP) as Hlen by (apply nodup_indices; apply Hr).
    unfold QCAP in Hlen. cbn [length] in Hlen. change (q_pending_order (set_qslot x qslot_zero ?z)) with (q_pending_order z).
    change (q_pending_head (set_qslot x qslot_zero ?z)) with (q_pending_head z).
    change (q_pending_count (set_qslot x qslot_zero ?z)) with (q_pending_count z).
    rewrite ?(ro_count _ _ Hr). rewrite u32_id by (cbn [length]; lia). done.
  - split; [apply exit_only_queue|by apply (step_exit_data Hd Hv Hq Hs Hring)|..]; intros q';
      (destruct (decide (q' = q)) as [->|Hn]; [by rewrite He|by rewrite Hother]).
  - by rewrite (ring_pending_events Hring), He.
Qed.

End Ops.
