(* ===== verification/ExitClose.v ===== *)
(** Creation, closing and destruction of exit queues. *)

From S2P Require Import Prelude Pmm ObjectStorage Kernel Objects Thread.
From S2P Require Import Scheduler SchedulerProofs SchedulerWf Ipc IpcWf IpcOps.
From S2P Require Import ExitQueue ExitRing ExitData.

Open Scope jcos_scope.

(** * Closing

    The loop over the slots, up to a prefix [done] of the indices. *)

Section Close.
  Context {k0 : Kernel} {q : Z} {l : list Z}.
  Hypothesis Hr : ring_ok (exq k0 q) l.
  Hypothesis Hs : forall x, qindex x -> qslot_valid k0 q x = true.
  Hypothesis Hu : forall p x y, watches k0 q p x -> watches k0 q p y -> x = y.

Definition queue_head (Q : ProcessExitQueue) : Z * bool * bool * Z * (Z * Z) :=
  (q_id Q, q_initialized Q, q_closed Q, q_pending_count Q, wait_view Q).

Record closing (done : list Z) (k : Kernel) : Prop := {
  cg_only : exit_only k0 k;
  cg_other : forall q', q' <> q -> exq k q' = exq k0 q';
  cg_ring : ring_ok (exq k q) l;
  cg_events : ring_events (exq k q) l = ring_events (exq k0 q) l;
  cg_head : queue_head (exq k q) = queue_head (exq k0 q);
  cg_slot : forall y, qindex y -> qslot_at (exq k q) y =
    if bool_decide (y ∈ done) && q_watching (qslot_at (exq k0 q) y) then qslot_zero else qslot_at (exq k0 q) y;
  cg_unlinked : forall p y, y ∈ done -> watches k0 q p y -> unlinked_process (prc k p);
  cg_linked : forall p, (forall y, y ∈ done -> ~ watches k0 q p y) -> prc k p = prc k0 p }.

Lemma closing_step done k x :
  closing done k -> qindex x -> x ∉ done -> closing (done ++ [x]) (close_qslot q k x).
Proof using Hr Hs Hu.
  intros [Ho Hoth Hring Hev Hhd Hslot Hun Hlk] Hx Hn. unfold close_qslot.
  assert (qslot_at (exq k q) x = qslot_at (exq k0 q) x) as Hsx
    by (rewrite (Hslot x Hx), bool_decide_eq_false_2 by done; done).
  rewrite Hsx. destruct (q_watching (qslot_at (exq k0 q) x)) eqn:Hw; cbn [negb].
  - set (p := q_process (qslot_at (exq k0 q) x)). assert (watches k0 q p x) as Hwx by done.
    rewrite link_set_exq, link_set_exq, set_exq_twice.
    assert (q_watching (qslot_at (exq k q) x) = true) as Hwk by congruence.
    rewrite (set_exq_at k q _ (recount x qslot_zero)).
    2: { unfold recount. rewrite Hwk. change (Z.b2z (q_watching qslot_zero)) with 0. cbn [Z.b2z]. rewrite Z.add_0_r.
         destruct (ring_capacity Hring) as (? & ? & ?). pose proof (watch_room Hring x Hx Hwk). unfold QCAP in *.
         change (q_watch_count (set_qslot x qslot_zero (exq k q))) with (q_watch_count (exq k q)). by rewrite u32_id by lia. }
    assert (q_pending (qslot_at (exq k q) x) = false) as Hnp by (by apply (ro_apart _ _ Hring)).
    assert (exq (link_process p 0 0 (set_exq q (recount x qslot_zero) k)) q = recount x qslot_zero (exq k q)) as He
      by (rewrite link_exq, exq_set; by rewrite decide_True).
    split.
    + eapply exit_only_trans; [exact Ho|]. eapply exit_only_trans; [apply exit_only_queue|apply exit_only_link].
    + intros q' Hne. rewrite link_exq, exq_set, decide_False by done. by apply Hoth.
    + rewrite He. apply (ring_slot Hring); [done|by rewrite Hnp|done].
    + rewrite He, <- Hev. apply (ring_events_slot Hring); [done|]. by apply (watching_apart Hring).
    + rewrite He, <- Hhd. done.
    + intros y Hy. rewrite He, (recount_slot _ _ _ _ _ Hring) by done. rewrite (Hslot y Hy).
      case_decide as E.
      * subst y. rewrite bool_decide_eq_true_2 by set_solver. by rewrite Hw.
      * assert (bool_decide (y ∈ done ++ [x]) = bool_decide (y ∈ done)) as -> by (apply bool_decide_ext; set_solver). done.
    + intros p' y Hy Hwy. rewrite link_prc. case_decide as E; [done|].
      apply elem_of_app in Hy as [Hy|Hy%list_elem_of_singleton]; [by apply (Hun p' y)|]. subst y. destruct Hwy as (_ & _ & Hp'). done.
    + intros p' Hp'. rewrite link_prc. rewrite decide_False.
      * apply Hlk. intros y Hy. apply Hp'. set_solver.
      * intros <-. apply (Hp' x); [set_solver|done].
  - split; try done.
    + intros y Hy. rewrite (Hslot y Hy). destruct (decide (y = x)) as [->|Hne].
      * rewrite Hw, !andb_false_r. done.
      * assert (bool_decide (y ∈ done ++ [x]) = bool_decide (y ∈ done)) as -> by (apply bool_decide_ext; set_solver). done.
    + intros p y Hy Hwy. apply elem_of_app in Hy as [Hy|Hy%list_elem_of_singleton]; [by apply (Hun p y)|].
      subst y. destruct Hwy as (_ & Hwy & _). congruence.
    + intros p Hp. apply Hlk. intros y Hy. apply Hp. set_solver.
Qed.

Lemma closing_all : closing queue_indices (foldl (close_qslot q) k0 queue_indices).
Proof using Hr Hs Hu.
  assert (forall todo done k, closing done k -> (forall x, x ∈ todo -> qindex x) -> NoDup (done ++ todo) ->
    closing (done ++ todo) (foldl (close_qslot q) k todo)) as H.
  { induction todo as [|x todo IH]; intros done k Hc Hi Hnd; [by rewrite app_nil_r|].
    cbn [foldl]. replace (done ++ x :: todo) with ((done ++ [x]) ++ todo) in * by (by rewrite <- app_assoc).
    apply IH; [|intros y Hy; apply Hi; by right|done]. apply closing_step; [done|apply Hi; left|].
    apply list.NoDup_app in Hnd as (Hnd & _ & _). apply list.NoDup_app in Hnd as (_ & Hd & _). intros Hin.
    apply (Hd x Hin). by apply list_elem_of_singleton. }
  apply (H queue_indices [] k0); [|intros x; apply elem_of_indices|apply NoDup_seqZ].
  split; try done.
  - split; try done. by destruct k0.
  - intros p y Hy. by apply not_elem_of_nil in Hy.
Qed.

End Close.

Definition shut_flag (q : Z) (k : Kernel) : Kernel := set_exq q (fun Q => Q <| q_closed := true |>) k.

Lemma shut_facts k q l :
  queue_ok k q l ->
  ring_ok (exq (shut_flag q k) q) l /\ (forall x, qindex x -> qslot_valid (shut_flag q k) q x = true) /\
  (forall p x, watches (shut_flag q k) q p x <-> watches k q p x) /\
  (forall p x y, watches (shut_flag q k) q p x -> watches (shut_flag q k) q p y -> x = y).
Proof.
  intros Hq. set (k0 := shut_flag q k).
  assert (exq k0 q = (exq k q) <| q_closed := true |>) as He0 by (unfold k0, shut_flag; rewrite exq_set; by rewrite decide_True).
  assert (forall y, qslot_at (exq k0 q) y = qslot_at (exq k q) y) as Hsl by (intros; by rewrite He0).
  assert (forall p y, watches k0 q p y <-> watches k q p y) as Hw by (intros; unfold watches; by rewrite Hsl).
  split_and!; [rewrite He0; destruct (qo_ring _ _ _ Hq); by split| |done|].
  - intros x Hx. rewrite (qslot_valid_ext k k0 q x); [by apply Hq|by apply exit_only_frame, exit_only_queue|by rewrite He0|done|done].
  - intros p x y Hx%Hw Hy%Hw. by apply (qo_unique _ _ _ Hq p).
Qed.

Lemma closing_data k q l k' :
  exit_data k -> queue_live k q = true -> queue_ok k q l ->
  closing (k0 := shut_flag q k) (q := q) (l := l) queue_indices k' ->
  exit_only k k' /\ exit_data k' /\ (forall q', q' <> q -> exq k' q' = exq k q') /\
  wait_view (exq k' q) = wait_view (exq k q) /\ q_pending_count (exq k' q) = q_pending_count (exq k q) /\
  q_closed (exq k' q) = true /\ q_watch_count (exq k' q) = 0 /\
  pending_events (exq k' q) = pending_events (exq k q).
Proof.
  intros Hd Hv Hq [Ho Hoth Hring Hev Hhd Hslot Hun Hlk]. destruct (shut_facts k q l Hq) as (_ & _ & Hw & _).
  set (k0 := shut_flag q k) in *.
  assert (exq k0 q = (exq k q) <| q_closed := true |>) as He0 by (unfold k0, shut_flag; rewrite exq_set; by rewrite decide_True).
  assert (forall y, qslot_at (exq k0 q) y = qslot_at (exq k q) y) as Hsl by (intros; by rewrite He0).
  assert (exit_only k k0) as Ho0 by apply exit_only_queue.
  assert (forall q', q' <> q -> exq k' q' = exq k q') as Hother.
  { intros q' Hne. rewrite Hoth by done. unfold k0, shut_flag. rewrite exq_set. by rewrite decide_False. }
  assert (forall y, qindex y -> q_watching (qslot_at (exq k' q) y) = false) as Hnw.
  { intros y Hy. rewrite (Hslot y Hy), bool_decide_eq_true_2 by (by apply elem_of_indices). cbn [andb].
    by destruct (q_watching (qslot_at (exq k0 q) y)) eqn:E. }
  assert (exit_only k k') as Hok by (by eapply exit_only_trans).
  rewrite He0 in Hhd. unfold queue_head in Hhd. injection Hhd as Hid Hini Hcl Hpc Hwv1 Hwv2.
  assert (wait_view (exq k' q) = wait_view (exq k q)) as Hwv by (unfold wait_view; by f_equal).
  assert (forall p, p_exit_queue (prc k p) <> q -> prc k' p = prc k p) as Hkeep.
  { intros p Hp. rewrite Hlk; [done|]. intros y Hy Hwy%Hw.
    destruct (watch_valid k q p y Hwy) as (_ & _ & _ & E & _); [apply Hq, Hwy|]. congruence. }
  assert (forall p, p_exit_queue (prc k p) = q -> unlinked_process (prc k' p)) as Hcut.
  { intros p Hp. destruct (xd_link _ Hd p) as [[Hz _]|(_ & _ & _ & x & Hx)].
    - apply queue_live_nonnull in Hv. rewrite <- Hp, Hz in Hv. done.
    - apply (Hun p x); [apply elem_of_indices, Hx|apply Hw; by rewrite <- Hp]. }
  split_and!; try done.
  - apply (exit_data_step k k' q Hd); [by apply exit_only_frame|by apply (queue_live_nonnull k)|done| | |].
    + intros p. destruct (decide (p_exit_queue (prc k p) = q)) as [Hp|Hp]; [right; split; [by left|right; auto]|].
      left. by rewrite (Hkeep p Hp).
    + intros _. exists l. split; [done|by rewrite Hini; apply Hq|by rewrite Hid; apply Hq|..].
      * intros x Hx. pose proof (qo_slot _ _ _ Hq x Hx) as Hsv. unfold qslot_valid in Hsv |- *. rewrite (Hnw x Hx).
        rewrite (Hslot x Hx), bool_decide_eq_true_2 by (by apply elem_of_indices). rewrite Hsl. cbn [andb].
        by destruct (q_watching (qslot_at (exq k q) x)).
      * intros p x y (Hx & Hwx & _). by rewrite (Hnw x Hx) in Hwx.
      * intros _ p x (Hx & Hwx & _). by rewrite (Hnw x Hx) in Hwx.
    + intros p Hp. left. destruct (decide (p_exit_queue (prc k p) = q)) as [E|E]; [auto|].
      rewrite (Hkeep p E) in Hp. done.
  - rewrite <- (ring_watch_count Hring). destruct (Z.eq_dec (countb (fun i => q_watching (qslot_at (exq k' q) i)) queue_indices) 0);
      [done|exfalso]. pose proof (countb_nonneg (fun i => q_watching (qslot_at (exq k' q) i)) queue_indices).
    destruct (proj1 (countb_pos (fun i => q_watching (qslot_at (exq k' q) i)) queue_indices)) as (x & Hx%elem_of_indices & Hwx); [lia|].
    by rewrite (Hnw x Hx) in Hwx.
  - by rewrite (ring_pending_events Hring), Hev, He0, (ring_pending_events (qo_ring _ _ _ Hq)).
Qed.

(** The state [process_exit_queue_close] reaches before it wakes the receiver. *)
Notation closed_queue q k := (close_qslots q (shut_flag q k)).

Lemma close_data k q l :
  queue_ok k q l -> closing (k0 := shut_flag q k) (q := q) (l := l) queue_indices (closed_queue q k).
Proof. intros Hq. destruct (shut_facts k q l Hq) as (H1 & H2 & _ & H3). exact (closing_all H1 H2 H3). Qed.

(** * Creation and destruction *)

(** [k'] differs from [k] only in the queues and their registry. *)
Lemma registry_quiet k q f g : quiet k (set_qm g (set_exq q f k)).
Proof. by split; [split|..]. Qed.

Lemma queue_live_reg k q : registry QSTORE (om_storage (k_exq k)) -> queue_live k q = bool_decide (q ∈ live (om_storage (k_exq k))).
Proof. apply object_storage_find_live. Qed.

(** A queue no process is linked to is rewritten. *)
Lemma rewrite_dead k q f :
  exit_data k -> nz q = true -> (queue_live k q = true -> forall p x, ~ watches k q p x) ->
  (queue_live k q = true -> exists l, queue_ok (set_exq q f k) q l) -> exit_data (set_exq q f k).
Proof.
  intros Hd Hz Hnw Hok. apply (exit_data_step k _ q Hd); try done.
  - intros q' Hne. rewrite exq_set. by rewrite decide_False.
  - intros p. by left.
  - intros p Hp. destruct (xd_link _ Hd p) as [?|(_ & Hlive & _ & x & Hx)]; [by left|]. exfalso.
    change (prc (set_exq q f k) p) with (prc k p) in Hp. rewrite Hp in Hlive, Hx. by apply (Hnw Hlive p x).
Qed.

Definition creatable (k : Kernel) (q : Z) : bool :=
  nz q && !queue_live k q && (object_storage_empty (om_storage (k_exq k)) QSTORE <? QSTORE) && nz (om_next_id (k_exq k)).

Lemma create_spec k q :
  exit_data k ->
  if creatable k q then
    exists k', process_exit_queue_create q k = (true, k') /\ quiet k k' /\ exit_data k' /\ queue_live k' q = true /\
      (forall q', q' <> q -> exq k' q' = exq k q' /\ queue_live k' q' = queue_live k q') /\ (forall p, prc k' p = prc k p) /\
      exq k' q = queue_zero <| q_id := om_next_id (k_exq k) |> <| q_initialized := true |> /\ k_prc k' = k_prc k
  else process_exit_queue_create q k = (false, k).
Proof.
  intros Hd. unfold creatable, process_exit_queue_create. destruct (nz q) eqn:Hz; [|done]. cbn [negb andb].
  destruct (queue_live k q) eqn:Hv; [done|]. cbn [negb andb].
  destruct (object_storage_empty (om_storage (k_exq k)) QSTORE <? QSTORE) eqn:He; [|done]. cbn [andb].
  destruct (nz (om_next_id (k_exq k))) eqn:Hid; [|done]. eexists. split; [done|].
  apply Z.ltb_lt in He. pose proof (xd_reg _ Hd) as Hreg.
  set (new := queue_zero <| q_id := om_next_id (k_exq k) |> <| q_initialized := true |>).
  set (k1 := set_exq q (fun _ => new) k). set (k' := set_qm _ k1).
  assert (q ∉ live (om_storage (k_exq k))) as Hdead.
  { rewrite queue_live_reg in Hv by done. by apply bool_decide_eq_false in Hv. }
  destruct (storage_register QSTORE (om_storage (k_exq k)) q Hreg) as [Hreg' Hlive]; [lia|by apply negb_true_iff, Z.eqb_neq in Hz|done|].
  assert (exit_data k1) as Hd1 by (apply rewrite_dead; [done|done|congruence|congruence]).
  assert (exq k1 q = new) as Hnew by (unfold k1; rewrite exq_set; by rewrite decide_True).
  assert (forall x, qindex x -> qslot_at (exq k1 q) x = qslot_zero) as Hzero.
  { intros x Hx. rewrite Hnew. apply lookup_total_replicate_2. unfold qindex in Hx. lia. }
  assert (queue_ok k1 q []) as Hok.
  { split; [rewrite Hnew; apply ring_zero|by rewrite Hnew|by rewrite Hnew|..].
    - intros x Hx. unfold qslot_valid. by rewrite (Hzero x Hx).
    - intros p x y (Hx & Hw & _). by rewrite (Hzero x Hx) in Hw.
    - intros _ p x (Hx & Hw & _). by rewrite (Hzero x Hx) in Hw. }
  assert (forall q', queue_live k' q' = bool_decide (q' = q \/ q' ∈ live (om_storage (k_exq k)))) as Hlk.
  { intros q'. rewrite queue_live_reg by exact Hreg'. apply bool_decide_ext.
    change (om_storage (k_exq k')) with (storage_set (object_storage_empty (om_storage (k_exq k)) QSTORE) q (om_storage (k_exq k))).
    rewrite Hlive, elem_of_cons. done. }
  split_and!; try done.
  - split; [exact Hreg'| |].
    + intros q'. rewrite Hlk. intros Hq'.
      assert (exists l, queue_ok k1 q' l) as [l Hl]; [|exists l; by apply (queue_ok_same k1)].
      apply bool_decide_eq_true in Hq' as [->|Hin]; [by exists []|].
      apply (xd_queue _ Hd1). change (queue_live k1 q') with (queue_live k q'). rewrite queue_live_reg by done.
      by apply bool_decide_eq_true.
    + intros p. destruct (xd_link _ Hd1 p) as [?|(H1 & H2 & H3 & H4)]; [by left|right]. split_and!; try done.
      rewrite Hlk. apply bool_decide_eq_true. right. change (queue_live k1) with (queue_live k) in H2.
      rewrite queue_live_reg in H2 by done. by apply bool_decide_eq_true in H2.
  - rewrite Hlk. apply bool_decide_eq_true. by left.
  - intros q' Hne. split; [unfold k', k1; change (exq (set_qm ?f ?x)) with (exq x); rewrite exq_set; by rewrite decide_False|].
    rewrite Hlk, queue_live_reg by done. apply bool_decide_ext. tauto.
Qed.

Definition destroyable (k : Kernel) (q : Z) : bool :=
  queue_live k q && q_closed (exq k q) && !nz (q_pending_count (exq k q)) && !nz (q_waiting_receiver (exq k q))
  && !nz (q_waiting_receiver_id (exq k q)).

Lemma closed_watch_count k q l : queue_ok k q l -> q_closed (exq k q) = true -> q_watch_count (exq k q) = 0.
Proof.
  intros Hq Hc. pose proof (qo_ring _ _ _ Hq) as Hr. rewrite <- (ring_watch_count Hr).
  pose proof (countb_nonneg (fun i => q_watching (qslot_at (exq k q) i)) queue_indices).
  destruct (Z.eq_dec (countb (fun i => q_watching (qslot_at (exq k q) i)) queue_indices) 0); [done|exfalso].
  destruct (proj1 (countb_pos (fun i => q_watching (qslot_at (exq k q) i)) queue_indices)) as (x & Hx%elem_of_indices & Hwx); [lia|].
  by apply (qo_closed _ _ _ Hq Hc (q_process (qslot_at (exq k q) x)) x).
Qed.

Lemma destroy_spec k q :
  exit_data k -> queue_valid k q = queue_live k q ->
  if destroyable k q then
    exists k', process_exit_queue_destroy q k = (true, k') /\ quiet k k' /\ exit_data k' /\ queue_live k' q = false /\
      (forall q', q' <> q -> exq k' q' = exq k q' /\ queue_live k' q' = queue_live k q') /\ (forall p, prc k' p = prc k p) /\
      exq k' q = queue_zero /\ k_prc k' = k_prc k
  else process_exit_queue_destroy q k = (false, k).
Proof.
  intros Hd Hvalid. unfold destroyable, process_exit_queue_destroy. rewrite Hvalid.
  destruct (queue_live k q) eqn:Hv; [|done]. destruct (q_closed (exq k q)) eqn:Hc; [|done].
  destruct (xd_queue _ Hd q Hv) as [l Hq]. rewrite (closed_watch_count k q l Hq Hc). cbn [negb andb orb nz Z.eqb].
  destruct (nz (q_pending_count _)); [done|]. destruct (nz (q_waiting_receiver _)); [done|].
  destruct (nz (q_waiting_receiver_id _)); [done|]. cbn [negb andb orb].
  pose proof (xd_reg _ Hd) as Hreg. pose proof (queue_live_nonnull _ _ Hv) as Hz.
  assert (q ∈ live (om_storage (k_exq k))) as Hin by (rewrite queue_live_reg in Hv by done; by apply bool_decide_eq_true in Hv).
  assert ((object_storage_find (om_storage (k_exq k)) QSTORE q =? QSTORE) = false) as ->
    by (unfold queue_live in Hv; apply Z.ltb_lt in Hv; apply Z.eqb_neq; lia).
  destruct (storage_release QSTORE (om_storage (k_exq k)) q Hreg Hin) as (Hreg' & Hperm & Hout).
  eexists. split; [done|]. set (k1 := set_qm _ k). set (k' := set_exq q _ k1).
  assert (forall q', queue_live k' q' = bool_decide (q' <> q /\ q' ∈ live (om_storage (k_exq k)))) as Hlk.
  { intros q'. rewrite queue_live_reg by exact Hreg'. apply bool_decide_ext.
    change (om_storage (k_exq k')) with (storage_set (object_storage_find (om_storage (k_exq k)) QSTORE q) 0 (om_storage (k_exq k))).
    rewrite Hperm, elem_of_cons. split; [|tauto]. intros Hl. split; [congruence|by right]. }
  assert (forall q', q' <> q -> exq k' q' = exq k q') as Hother
    by (intros q' Hne; unfold k'; rewrite exq_set; by rewrite decide_False).
  assert (forall q', queue_live k' q' = true -> q' <> q /\ queue_live k q' = true) as Hsub.
  { intros q'. rewrite Hlk. intros H%bool_decide_eq_true. split; [apply H|]. rewrite queue_live_reg by done. apply bool_decide_eq_true, H. }
  split_and!; try done.
  - split; [exact Hreg'| |].
    + intros q' [Hne Hl]%Hsub. destruct (xd_queue _ Hd q' Hl) as [l' Hq']. exists l'.
      apply (queue_ok_same k); [by apply Hother|done|done|done].
    + intros p. destruct (xd_link _ Hd p) as [?|(H1 & H2 & H3 & x & H4)]; [by left|right].
      change (prc k' p) with (prc k p).
      assert (p_exit_queue (prc k p) <> q) as Hne.
      { intros E. rewrite E in H4. by apply (qo_closed _ _ _ Hq Hc p x). }
      split_and!; try done.
      * rewrite Hlk. apply bool_decide_eq_true. split; [done|]. rewrite queue_live_reg in H2 by done. by apply bool_decide_eq_true in H2.
      * by rewrite (Hother _ Hne).
      * exists x. unfold watches. by rewrite (Hother _ Hne).
  - rewrite Hlk. apply bool_decide_eq_false. tauto.
  - intros q' Hne. split; [by apply Hother|]. rewrite Hlk, queue_live_reg by done. apply bool_decide_ext. tauto.
  - unfold k'. rewrite exq_set. by rewrite decide_True.
Qed.
