(* ===== verification/ExitWaits.v ===== *)
(** Threads blocked on exit queues: the invariant and the steps that settle
    their outcome. [W] maps a blocked thread to what its call keeps on its
    stack. *)

From S2P Require Import Prelude Pmm ObjectStorage Kernel Objects Thread.
From S2P Require Import Ring Scheduler SchedulerProofs SchedulerWf SchedulerOps.
From S2P Require Import Ipc IpcWf IpcOps IpcReserve IpcCalls.
From S2P Require Import ExitQueue ExitRing ExitData ExitClose.

Open Scope jcos_scope.

Record exit_waiter (k : Kernel) (l : list Z) (t : Z) (w : ExitWaiting) : Prop := {
  ew_live : queue_live k (xw_queue w) = true;
  ew_match : thread_wait_matches_id k t THREAD_WAIT_PROCESS_EXIT (xw_queue w) (xw_id w) = true;
  ew_result : pending k t = true \/ wait_terminal (t_wait_result (thr k t)) = true;
  ew_where : located k l t;
  ew_view : wait_view (exq k (xw_queue w)) = (t, xw_id w);
  ew_idle : pending k t = true ->
    q_pending_count (exq k (xw_queue w)) = 0 /\ q_closed (exq k (xw_queue w)) = false }.

Record exit_wf (k : Kernel) (l : list Z) (W : gmap Z ExitWaiting) : Prop := {
  xf_sched : sched_wf k l;
  xf_data : exit_data k;
  xf_waiter : forall t w, W !! t = Some w -> exit_waiter k l t w;
  xf_receiver : forall q, queue_live k q = true -> wait_view (exq k q) = (0, 0) \/
    exists w, W !! q_waiting_receiver (exq k q) = Some w /\ xw_queue w = q;
  xf_other : forall t, W !! t = None -> t_wait_kind (thr k t) <> THREAD_WAIT_PROCESS_EXIT }.

(** * Consequences *)

Lemma exit_waiter_nonnull k l t w : exit_waiter k l t w -> t <> 0.
Proof.
  intros [_ Hm _ _ _ _] ->. unfold thread_wait_matches_id, thread_wait_matches, thread_known,
    thread_storage_live, object_storage_find in Hm. cbn in Hm. rewrite Z.ltb_irrefl in Hm.
  rewrite andb_false_r in Hm. cbn in Hm. by rewrite andb_false_r in Hm.
Qed.

Lemma exit_reservation_valid k l W q :
  exit_wf k l W -> queue_live k q = true -> wait_reservation_valid k q = true.
Proof.
  intros Hx Hv. pose proof (xf_sched _ _ _ Hx) as Hwf. unfold wait_reservation_valid.
  destruct (xf_receiver _ _ _ Hx q Hv) as [E|(w & Hw & He)]; [unfold wait_view in E; by injection E as -> ->|].
  pose proof (exit_waiter_nonnull _ _ _ _ (xf_waiter _ _ _ Hx _ _ Hw)) as Hz.
  destruct (xf_waiter _ _ _ Hx _ _ Hw) as [_ Hm _ Hl Hview _]. subst q. unfold wait_view in Hview. injection Hview as Hid.
  rewrite Hid. set (t := q_waiting_receiver _) in *. rewrite Hm.
  assert (nz t = true) as -> by (by apply negb_true_iff, Z.eqb_neq). cbn [negb orb].
  unfold thread_current, state_is. rewrite (wf_tinit _ _ Hwf). cbn [negb]. fold (current_of k).
  destruct Hl as [Hin|Hb].
  - destruct (queued_cases k l t Hwf Hin) as (-> & -> & [[-> ->]|(Hne & -> & Hf)]).
    + by rewrite Z.eqb_refl.
    + apply Z.eqb_neq in Hne. rewrite Hne. cbn [andb]. unfold has_frame in Hf.
      apply andb_true_iff in Hf as [Hf _]. apply andb_true_iff in Hf as [-> ->]. done.
  - destruct (blocked_unqueued k l t Hwf Hb) as [Hn Hne]. rewrite Hb.
    destruct (wf_blocked _ _ Hwf t Hb) as (_ & Hf & _). unfold has_frame in Hf.
    apply andb_true_iff in Hf as [Hf _]. apply andb_true_iff in Hf as [-> ->].
    apply Z.eqb_neq in Hne. rewrite Hne. cbn. change (t_run_next (thr k t)) with (next_of k t).
    rewrite (rl_queued _ _ (wf_list _ _ Hwf)), (rl_off _ _ (wf_list _ _ Hwf) t Hn).
    by rewrite bool_decide_eq_true_2, (bool_decide_eq_false_2 (t ∈ l)).
Qed.

(** The code's check of a queue is that it is live. *)
Lemma exit_valid k l W q : exit_wf k l W -> queue_valid k q = queue_live k q.
Proof.
  intros Hx. destruct (queue_live k q) eqn:Hv; [|unfold queue_valid; by rewrite Hv].
  destruct (xd_queue _ (xf_data _ _ _ Hx) q Hv) as [l' Hq].
  apply (queue_valid_spec k q l'); [done|done|]. by apply (exit_reservation_valid k l W).
Qed.

(** The two waits of one queue are one. *)
Lemma exit_waiter_unique k l W t w t' w' :
  exit_wf k l W -> W !! t = Some w -> W !! t' = Some w' -> xw_queue w = xw_queue w' -> t = t'.
Proof.
  intros Hx Hw Hw' E. pose proof (ew_view _ _ _ _ (xf_waiter _ _ _ Hx _ _ Hw)) as H1.
  pose proof (ew_view _ _ _ _ (xf_waiter _ _ _ Hx _ _ Hw')) as H2. rewrite E, H2 in H1. congruence.
Qed.

(** * Steps *)

(** The reservations stay; outcomes may have been settled. *)
Lemma exit_wf_step k k' l l' W :
  exit_wf k l W -> ipc_frame k k' -> sched_wf k' l' -> exit_data k' -> k_exq k' = k_exq k ->
  (forall t, located k l t -> located k' l' t) ->
  (forall q, wait_view (exq k' q) = wait_view (exq k q)) ->
  (forall t w, W !! t = Some w -> t_wait_result (thr k' t) = t_wait_result (thr k t) \/ wait_terminal (t_wait_result (thr k' t)) = true) ->
  (forall t w, W !! t = Some w -> pending k' t = true ->
     q_pending_count (exq k' (xw_queue w)) = 0 /\ q_closed (exq k' (xw_queue w)) = false) ->
  exit_wf k' l' W.
Proof.
  intros [Hs Hd Hw Hr Ho] Hf Hs' Hd' He Hl Hv Hres Hidle.
  assert (forall q, queue_live k' q = queue_live k q) as Hlive by (intros; unfold queue_live; by rewrite He).
  split; try done.
  - intros t w Ht. destruct (Hw t w Ht) as [H1 H2 H3 H4 H5 _]. split.
    + by rewrite Hlive.
    + by rewrite (frame_matches k k').
    + destruct (Hres t w Ht) as [E|E]; [|by right]. by rewrite (pending_ext _ _ _ E), E.
    + auto.
    + by rewrite Hv.
    + by apply (Hidle t).
  - intros q. rewrite Hlive. intros Hq. rewrite Hv. destruct (Hr q Hq) as [?|(w & Hww & ?)]; [by left|right].
    exists w. split; [|done]. specialize (Hv q). unfold wait_view in Hv. injection Hv as -> _. done.
  - intros t Ht. destruct (if_wait _ _ Hf t) as (_ & -> & _). by apply Ho.
Qed.

Lemma exit_only_ipc k k' : exit_only k k' -> ipc_frame k k'.
Proof.
  intros [R _ _]. by split; try (by rewrite R).
Qed.

Lemma exit_only_thr k k' t : exit_only k k' -> thr k' t = thr k t.
Proof. intros [R _ _]. unfold thr. by rewrite R. Qed.

Lemma exit_only_exq k k' : exit_only k k' -> k_exq k' = k_exq k.
Proof. intros [R _ _]. by rewrite R. Qed.

(** A step of the data at queues whose waiters are settled or unaffected. *)
Lemma data_wf k k' l W :
  exit_wf k l W -> exit_only k k' -> exit_data k' -> (forall q, wait_view (exq k' q) = wait_view (exq k q)) ->
  (forall t w, W !! t = Some w -> pending k t = true ->
     q_pending_count (exq k' (xw_queue w)) = 0 /\ q_closed (exq k' (xw_queue w)) = false) ->
  exit_wf k' l W.
Proof.
  intros Hx Ho Hd Hv Hi. pose proof (exit_only_quiet _ _ Ho) as Hq.
  apply (exit_wf_step k k' l l W Hx); try done.
  - by apply exit_only_ipc.
  - apply (quiet_sched k k' l Hq). apply Hx.
  - by apply exit_only_exq.
  - intros t. by apply located_quiet.
  - intros t w _. left. by rewrite (exit_only_thr k k').
  - intros t w Hw. unfold pending. rewrite (exit_only_thr k k') by done. by apply Hi.
Qed.

Definition exit_steps (k : Kernel) (l : list Z) (W : gmap Z ExitWaiting) (k' : Kernel) : Prop :=
  exists l', exit_wf k' l' W /\ keeps_sched k k' l l' /\ (awake k l W -> awake k' l' W).

Lemma exit_steps_refl k l W : exit_wf k l W -> exit_steps k l W k.
Proof. intros H. exists l. split_and!; [done|apply keeps_refl|done]. Qed.

Lemma data_steps k k' l W :
  exit_wf k l W -> exit_only k k' -> exit_data k' -> (forall q, wait_view (exq k' q) = wait_view (exq k q)) ->
  (forall t w, W !! t = Some w -> pending k t = true ->
     q_pending_count (exq k' (xw_queue w)) = 0 /\ q_closed (exq k' (xw_queue w)) = false) ->
  exit_steps k l W k'.
Proof.
  intros Hx Ho Hd Hv Hi. exists l. split; [by apply (data_wf k)|]. split; [by apply keeps_quiet, exit_only_quiet|].
  apply awake_same. intros t. by rewrite (exit_only_thr k k').
Qed.

(** * Completing the receiver *)

Lemma try_complete_at k l t kind o id r :
  sched_wf k l -> thread_wait_matches_id k t kind o id = true -> located k l t -> pending k t = true ->
  wait_terminal r = true ->
  thread_wait_try_complete t kind o id r k = (true, set_thr t (fun t => t <| t_wait_result := r |>) k).
Proof.
  intros Hwf Hm Hl Hp Hr. unfold thread_wait_try_complete.
  rewrite Hr, Hm. unfold pending in Hp. rewrite Hp. cbn [negb orb]. fold (current_of k). unfold state_is.
  destruct Hl as [Hin|Hb]; [|by rewrite Hb].
  destruct (queued_cases k l t Hwf Hin) as (_ & _ & [[-> ->]|(_ & -> & _)]); [|done].
  by rewrite Z.eqb_refl.
Qed.

Lemma exit_data_same k k' :
  exit_data k -> (forall q, exq k' q = exq k q) -> (forall p, prc k' p = prc k p) -> k_exq k' = k_exq k ->
  k_prc k' = k_prc k -> exit_data k'.
Proof.
  intros [Hr Hq Hl] He Hp Hx Hs.
  assert (forall q, queue_live k' q = queue_live k q) as Hlive by (intros; unfold queue_live; by rewrite Hx).
  split; [by rewrite Hx| |].
  - intros q. rewrite Hlive. intros Hv. destruct (Hq q Hv) as [l Hl']. exists l. by apply (queue_ok_same k).
  - intros p. destruct (Hl p) as [?|(H1 & H2 & H3 & x & H4)]; [left; by rewrite Hp|right].
    unfold process_storage_live, watches in *. rewrite Hp, Hs, Hlive, He. by eauto 6.
Qed.

Lemma calm_exit_data k k' : calm k k' -> exit_data k -> exit_data k'.
Proof.
  intros Hc Hd. pose proof (ca_rest _ _ Hc) as R. apply (exit_data_same k); try done.
  - intros q. unfold exq. by rewrite R.
  - intros p. unfold prc. by rewrite R.
  - by rewrite R.
  - by rewrite R.
Qed.

Definition completes (k : Kernel) (q : Z) (r : ThreadWaitResult) (t : Z) : ThreadWaitResult :=
  if nz t && (t =? q_waiting_receiver (exq k q)) && pending k t then r else t_wait_result (thr k t).

Lemma complete_spec k k1 l W q r :
  exit_wf k l W -> exit_only k k1 -> exit_data k1 -> queue_live k q = true ->
  (forall q', wait_view (exq k1 q') = wait_view (exq k q')) -> (forall q', q' <> q -> exq k1 q' = exq k q') ->
  wait_terminal r = true ->
  exists k2, complete_receiver q r k1 = Some k2 /\ exit_steps k l W k2 /\ (forall q', exq k2 q' = exq k1 q') /\
    (forall p, prc k2 p = prc k1 p) /\ k_exq k2 = k_exq k /\ k_prc k2 = k_prc k /\
    (forall t, t_wait_result (thr k2 t) = completes k q r t).
Proof.
  intros Hx Ho Hd1 Hv Hview Hother Hr. unfold complete_receiver.
  assert (wait_view (exq k1 q) = wait_view (exq k q)) as Hq by auto. unfold wait_view in Hq. injection Hq as Hq1 Hq2.
  rewrite Hq1, Hq2. set (t := q_waiting_receiver (exq k q)). fold (pending k1 t).
  assert (pending k1 t = pending k t) as Hp by (apply pending_ext; by rewrite (exit_only_thr k k1)). rewrite Hp.
  assert (forall u, W !! u <> None -> u <> t -> forall w, W !! u = Some w -> xw_queue w <> q) as Hothers.
  { intros u _ Hne w Hw E. pose proof (ew_view _ _ _ _ (xf_waiter _ _ _ Hx _ _ Hw)) as Hvw. rewrite E in Hvw.
    unfold wait_view in Hvw. injection Hvw as Hvw _. by apply Hne. }
  assert (k_prc k1 = k_prc k) as Hprc by (destruct Ho as [R _ _]; by rewrite R).
  destruct (nz t && pending k t) eqn:Hact.
  - apply andb_true_iff in Hact as [Hz Hpt].
    destruct (xf_receiver _ _ _ Hx q Hv) as [E|(w & Hw & Hwq)].
    { unfold wait_view in E. injection E as E _. fold t in E. by rewrite E in Hz. }
    fold t in Hw. pose proof (xf_waiter _ _ _ Hx _ _ Hw) as Hew.
    assert (q_waiting_receiver_id (exq k q) = xw_id w) as Hid.
    { pose proof (ew_view _ _ _ _ Hew) as Hvw. rewrite Hwq in Hvw. unfold wait_view in Hvw. by injection Hvw. }
    pose proof (exit_only_quiet _ _ Ho) as Hqu. pose proof (quiet_sched _ _ _ Hqu (xf_sched _ _ _ Hx)) as Hs1.
    rewrite Hid, (try_complete_at k1 l); [|done| |by apply (located_quiet k), Hew|by rewrite Hp|done].
    2: { rewrite (frame_matches k k1) by (by apply exit_only_ipc). rewrite <- Hwq. apply Hew. }
    set (k1' := set_thr t _ k1). assert (quiet k1 k1') as Hq1' by apply quiet_result.
    destruct (make_ready_spec k1' l t) as (k2 & l2 & Hm & Hs2 & Hca & Hin & Hc & Hi & Hlo & Hqd);
      [by apply (quiet_sched k1)|apply (located_quiet k1); [done|]; by apply (located_quiet k), Hew|].
    change (queue_make_ready t k1') with (ipc_make_ready t k1'). rewrite Hm.
    pose proof (ca_rest _ _ Hca) as R2.
    assert (forall q', exq k2 q' = exq k1 q') as He2 by (intros; unfold exq; by rewrite R2).
    assert (forall p, prc k2 p = prc k1 p) as Hp2 by (intros; unfold prc; by rewrite R2).
    assert (k_exq k2 = k_exq k) as Hexq by (transitivity (k_exq k1); [by rewrite R2|by apply exit_only_exq]).
    assert (k_prc k2 = k_prc k) as Hprc2 by (transitivity (k_prc k1); [by rewrite R2|done]).
    assert (forall u, t_wait_result (thr k2 u) = if decide (t = u) then r else t_wait_result (thr k u)) as Hres.
    { intros u. rewrite (result_calm _ _ u Hca). unfold k1'. rewrite result_set, (exit_only_thr k k1) by done. done. }
    exists k2. split; [done|]. split_and!; try done.
    + exists l2. assert (keeps_sched k k2 l l2) as Hks.
      { eapply keeps_trans; [by apply keeps_quiet|]. eapply keeps_trans; [by apply keeps_quiet|].
        split; try done. unfold hook_armed. by rewrite R2. }
      split; [|split; [done|]].
      * apply (exit_wf_step k k2 l l2 W Hx); try done.
        -- eapply frame_trans; [by apply exit_only_ipc|]. eapply frame_trans; [apply frame_result|by apply calm_frame].
        -- apply (exit_data_same k1); try done; by rewrite R2.
        -- apply Hks.
        -- intros q'. rewrite He2. apply Hview.
        -- intros u w' Hw'. rewrite Hres. case_decide; [by right|by left].
        -- intros u w' Hw' Hpu. unfold pending in Hpu. rewrite Hres in Hpu. rewrite He2.
           case_decide as E; [apply bool_decide_eq_true in Hpu; by rewrite Hpu in Hr|].
           rewrite Hother by (apply (Hothers u); [congruence|done|done]). by apply (ew_idle _ _ _ _ (xf_waiter _ _ _ Hx _ _ Hw')).
      * apply awake_results; [apply Hks|]. intros u. rewrite Hres. case_decide; [right; by subst|by left].
    + intros u. rewrite Hres. unfold completes. fold t. case_decide as E.
      * subst u. by rewrite Hz, Z.eqb_refl, Hpt.
      * rewrite (proj2 (Z.eqb_neq u t)) by congruence. by rewrite andb_false_r.
  - exists k1. split; [done|]. split_and!; try done; [|by apply exit_only_exq|].
    + apply data_steps; try done. intros u w Hw Hpu.
      destruct (decide (u = t)) as [->|Hne].
      * rewrite Hpu, andb_true_r in Hact. apply negb_false_iff, Z.eqb_eq in Hact.
        by destruct (exit_waiter_nonnull _ _ _ _ (xf_waiter _ _ _ Hx _ _ Hw)).
      * rewrite Hother by (apply (Hothers u); [congruence|done|done]). by apply (ew_idle _ _ _ _ (xf_waiter _ _ _ Hx _ _ Hw)).
    + intros u. rewrite (exit_only_thr k k1) by done. unfold completes. fold t.
      destruct (Z.eqb_spec u t) as [->|Hne]; [|by rewrite andb_false_r]. rewrite andb_true_r, Hact. done.
Qed.
