(* ===== verification/ExitBlocking.v ===== *)
(** The operations on exit queues keep the invariant, do not halt and move
    events in order; blocking receives enter and leave a wait, run its loop and
    abort. *)

From S2P Require Import Prelude Pmm ObjectStorage Kernel Objects Thread.
From S2P Require Import Ring Scheduler SchedulerProofs SchedulerWf SchedulerOps Ipc.
From S2P Require Import IpcWf IpcOps IpcReserve IpcCalls ExitQueue ExitRing.
From S2P Require Import ExitData ExitClose ExitWaits.

Open Scope jcos_scope.

(** * The flow of events *)

Inductive ExitLog :=
  | XPublish (q : Z) (info : ProcessExitInfo)
  | XReceive (q : Z) (info : ProcessExitInfo).

Definition published (q : Z) (log : list ExitLog) : list ProcessExitInfo :=
  omap (fun x => match x with XPublish q' e => if q' =? q then Some e else None | XReceive _ _ => None end) log.

Definition received (q : Z) (log : list ExitLog) : list ProcessExitInfo :=
  omap (fun x => match x with XReceive q' e => if q' =? q then Some e else None | XPublish _ _ => None end) log.

(** The events a queue holds. *)
Definition queued (k : Kernel) (q : Z) : list ProcessExitInfo :=
  if queue_live k q then pending_events (exq k q) else [].

Definition xflow (k k' : Kernel) (log : list ExitLog) : Prop :=
  forall q, queued k q ++ published q log = received q log ++ queued k' q.

Lemma xflow_trans k k1 k2 a b : xflow k k1 a -> xflow k1 k2 b -> xflow k k2 (a ++ b).
Proof.
  intros H1 H2 q. specialize (H1 q). specialize (H2 q). unfold published, received in *.
  by rewrite !omap_app, app_assoc, H1, <- !app_assoc, H2.
Qed.

Lemma xflow_same k k' : (forall q, queued k' q = queued k q) -> xflow k k' [].
Proof. intros H q. rewrite H. cbn. by rewrite app_nil_r. Qed.

Lemma xflow_one k k' q e :
  (forall q', q' <> q -> queued k' q' = queued k q') ->
  (queued k' q = queued k q ++ [e] -> xflow k k' [XPublish q e]) /\
  (queued k q = e :: queued k' q -> xflow k k' [XReceive q e]).
Proof.
  intros Ho. split; intros E q'; unfold published, received; cbn; destruct (Z.eqb_spec q q') as [<-|Hne]; cbn;
    rewrite ?app_nil_r; try done; by rewrite Ho.
Qed.

Lemma pending_events_nil q : q_pending_count q = 0 -> pending_events q = [].
Proof. intros E. unfold pending_events. by rewrite E. Qed.

(** An operation with the log its result reports. *)
Definition exit_ok (k : Kernel) (l : list Z) (W : gmap Z ExitWaiting) (log : list ExitLog) (k' : Kernel) : Prop :=
  exit_steps k l W k' /\ xflow k k' log.

Lemma exit_ok_refl k l W : exit_wf k l W -> exit_ok k l W [] k.
Proof. intros H. split; [by apply exit_steps_refl|by apply xflow_same]. Qed.

Section Calls.
  Context {k : Kernel} {l : list Z} {W : gmap Z ExitWaiting} (Hx : exit_wf k l W).

Lemma valid_live q : queue_valid k q = queue_live k q.
Proof using Hx. by apply (exit_valid k l W). Qed.

(** Data that no waiter depends on. *)
Lemma data_ok k' :
  data_step k k' ->
  (forall q, pending_events (exq k' q) = pending_events (exq k q) /\ q_pending_count (exq k' q) = q_pending_count (exq k q)) ->
  exit_ok k l W [] k'.
Proof using Hx.
  intros [Ho Hd Hv Hc] He. split.
  - apply data_steps; try done. intros t w Hw Hp. rewrite Hc. destruct (He (xw_queue w)) as [_ ->].
    by apply (ew_idle _ _ _ _ (xf_waiter _ _ _ Hx _ _ Hw)).
  - apply xflow_same. intros q. unfold queued. rewrite (frame_queue_live k k') by (by apply exit_only_frame).
    by destruct (He q) as [-> _].
Qed.

Lemma watch_call q p :
  exists b k', process_exit_queue_watch q p k = (b, k') /\ exit_ok k l W [] k' /\ b = watchable (k := k) q p.
Proof using Hx.
  pose proof (watch_spec (xf_data _ _ _ Hx) q p (valid_live q)) as Hs. destruct (watchable q p) eqn:E.
  - destruct Hs as (k' & Hr & Hst & He & _). exists true, k'. split_and!; [done|by apply data_ok|done].
  - exists false, k. split_and!; [done|by apply exit_ok_refl|done].
Qed.

Lemma unwatch_call p :
  exists b k', process_exit_queue_unwatch_process p k = (b, k') /\ exit_ok k l W [] k' /\ b = nz p.
Proof using Hx.
  destruct (decide (p = 0)) as [->|Hne].
  - exists false, k. split_and!; [done|by apply exit_ok_refl|done].
  - destruct (unwatch_spec (xf_data _ _ _ Hx) p valid_live Hne) as (k' & Hr & Hst & He & _).
    exists true, k'. split_and!; [done|by apply data_ok|]. symmetry. by apply negb_true_iff, Z.eqb_neq.
Qed.

(** ** Publication *)

Definition linked (p : Z) : bool := nz (p_exit_queue (prc k p)) || nz (p_exit_queue_id (prc k p)).

Definition publishable (p : Z) (info : ProcessExitInfo) : bool :=
  nz p && (!linked p || (!no_event info && (x_process_id info =? p_id (prc k p)))).

Lemma publish_eq q p x info k1 :
  queue_live k q = true -> watches k q p x ->
  k1 = event_committed (k := k) q p x info ->
  link_process p 0 0
    (set_exq q (fun Q => Q
               <| q_pending_order := <[Z.to_nat (q_pending_tail Q) := u8 x]> (q_pending_order Q) |>
               <| q_pending_tail := (q_pending_tail Q + 1) mod PROCESS_EXIT_QUEUE_CAPACITY |>
               <| q_watch_count := u32 (q_watch_count Q - 1) |>
               <| q_pending_count := u32 (q_pending_count Q + 1) |>)
      (set_exq q (fun Q => set_qslot x ((qslot_at Q x) <| q_process := 0 |> <| q_watching := false |>
               <| q_pending := true |> <| q_event := info |>) Q) k)) = k1.
Proof using Hx.
  intros Hv Hw ->. unfold event_committed. f_equal. rewrite set_exq_twice. apply set_exq_at.
  destruct (xd_queue _ (xf_data _ _ _ Hx) q Hv) as [l' Hq]. pose proof (qo_ring _ _ _ Hq) as Hr.
  destruct (ring_capacity Hr) as (? & ? & ?). destruct Hw as (Hxi & Hxw & _). pose proof (watch_room Hr x Hxi Hxw).
  unfold qindex, QCAP in *. unfold publish_at.
  change (q_pending_order (set_qslot x ?s (exq k q))) with (q_pending_order (exq k q)).
  change (q_pending_tail (set_qslot x ?s (exq k q))) with (q_pending_tail (exq k q)).
  change (q_pending_count (set_qslot x ?s (exq k q))) with (q_pending_count (exq k q)).
  change (q_watch_count (set_qslot x ?s (exq k q))) with (q_watch_count (exq k q)).
  rewrite !u32_id by lia. unfold u8. rewrite (Z.mod_small x) by lia. done.
Qed.

Lemma publish_call_exit p info :
  exists k', process_exit_queue_publish_process p info k = Some (publishable p info, k') /\
    exit_ok k l W (if publishable p info && linked p then [XPublish (p_exit_queue (prc k p)) info] else []) k' /\
    (publishable p info = true -> unlinked_process (prc k' p)) /\
    (forall q, queue_live k' q = queue_live k q) /\
    (k_prc k' = k_prc k /\ forall p', process_fields (prc k' p') = process_fields (prc k p')) /\
    (publishable p info && linked p = true -> forall t,
       t_wait_result (thr k' t) = completes k (p_exit_queue (prc k p)) THREAD_WAIT_RESULT_COMPLETED t).
Proof using Hx.
  unfold process_exit_queue_publish_process, publishable. destruct (nz p) eqn:Hz; cbn [negb andb].
  2: { exists k. split_and!; try done. by apply exit_ok_refl. }
  rewrite unlinked_iff. fold (linked p). destruct (linked p) eqn:Hl; cbn [negb orb].
  2: { exists k. split; [done|]. split; [by apply exit_ok_refl|]. split; [intros _; by apply unlinked_eq|by split_and!]. }
  destruct (linked_slot (xf_data _ _ _ Hx) p Hl) as (x & l' & Hv & Hq & Hwx & Hfind & Hlive & Hid & Hopen).
  set (q := p_exit_queue (prc k p)) in *. rewrite valid_live, Hv, Hopen, Hid, Z.eqb_refl. cbn [negb orb].
  destruct (no_event info) eqn:Hne; cbn [negb orb andb]; [exists k; split_and!; try done; by apply exit_ok_refl|].
  destruct (x_process_id info =? p_id (prc k p)) eqn:Hpid; cbn [negb].
  2: { exists k. split_and!; try done. by apply exit_ok_refl. }
  apply Z.eqb_eq in Hpid. rewrite Hfind, (publish_eq q p x info _ Hv Hwx eq_refl).
  destruct (publish_step (xf_data _ _ _ Hx) q p x l' info Hv Hq Hwx Hne Hpid) as (Hst & Hq1 & Hev & Hcnt & Hoth).
  set (k1 := event_committed q p x info) in *.
  destruct (complete_spec k k1 l W q THREAD_WAIT_RESULT_COMPLETED Hx (ds_only _ _ Hst) (ds_data _ _ Hst) Hv
              (ds_wait _ _ Hst) Hoth eq_refl) as (k2 & -> & Hsteps & He2 & Hp2 & Hexq & Hprc & Hres). cbn [mbind option_bind].
  assert (forall q', queue_live k2 q' = queue_live k q') as Hlk by (intros; unfold queue_live; by rewrite Hexq).
  exists k2. split; [done|]. split; [|split; [|split; [done|split; [|intros _; exact Hres]]]].
  - split; [done|]. apply xflow_one.
    + intros q' Hn. unfold queued. by rewrite Hlk, He2, Hoth.
    + unfold queued. by rewrite Hlk, Hv, He2.
  - intros _. rewrite Hp2. unfold k1, event_committed. rewrite link_prc. by rewrite decide_True.
  - split; [done|]. intros p'. rewrite Hp2. apply (ds_only _ _ Hst).
Qed.

(** ** Receiving *)

(** A receive by a thread that is not registered. *)
Lemma receive_ok q e es :
  queue_live k q = true -> pending_events (exq k q) = e :: es ->
  (forall t w, W !! t = Some w -> xw_queue w = q -> pending k t = false) ->
  receive_locked q k = (Some e, set_exq q receive_head k) /\ exit_ok k l W [XReceive q e] (set_exq q receive_head k) /\
  nz (q_pending_count (exq k q)) = true /\ pending_events (exq (set_exq q receive_head k) q) = es /\
  data_step k (set_exq q receive_head k).
Proof using Hx.
  intros Hv He Hw. destruct (xd_queue _ (xf_data _ _ _ Hx) q Hv) as [l' Hq].
  pose proof (exit_receive_spec (xf_data _ _ _ Hx) q l' Hv Hq) as Hs. rewrite He in Hs. cbn zeta in Hs.
  set (k' := set_exq q receive_head k) in *. destruct Hs as (Hnz & Hr & Hst & Hev & Hoth).
  split; [done|]. split; [split|by split_and!].
  - apply data_steps; try apply Hst; [done|]. intros t w Hww Hp. rewrite (ds_closed _ _ Hst).
    rewrite Hoth by (intros E; by rewrite (Hw t w Hww E) in Hp). by apply (ew_idle _ _ _ _ (xf_waiter _ _ _ Hx _ _ Hww)).
  - apply xflow_one; unfold queued; change (queue_live k') with (queue_live k).
    + intros q' Hn. by rewrite Hoth.
    + by rewrite Hv, He, Hev.
Qed.

Lemma empty_count q : queue_live k q = true -> (q_pending_count (exq k q) = 0 <-> pending_events (exq k q) = []).
Proof using Hx.
  intros Hv. split; [apply pending_events_nil|]. intros He. destruct (xd_queue _ (xf_data _ _ _ Hx) q Hv) as [l' Hq].
  pose proof (exit_receive_spec (xf_data _ _ _ Hx) q l' Hv Hq) as Hs. rewrite He in Hs. apply Hs.
Qed.

(** The waiter of a queue with events is settled. *)
Lemma busy_settled q t w :
  pending_events (exq k q) <> [] -> W !! t = Some w -> xw_queue w = q -> pending k t = false.
Proof using Hx.
  intros He Hw Hq. destruct (pending k t) eqn:Hp; [|done]. exfalso. apply He. apply pending_events_nil.
  rewrite <- Hq. by apply (ew_idle _ _ _ _ (xf_waiter _ _ _ Hx _ _ Hw)).
Qed.

Lemma try_receive_exit q :
  exists r k', process_exit_queue_try_receive q k = (r, k') /\
    exit_ok k l W (match r with Some e => [XReceive q e] | None => [] end) k' /\
    (queue_live k q = true -> wait_view (exq k q) = (0, 0) -> r = head (pending_events (exq k q))).
Proof using Hx.
  unfold process_exit_queue_try_receive. rewrite valid_live. destruct (queue_live k q) eqn:Hv.
  2: { exists None, k. split_and!; [done|by apply exit_ok_refl|done]. }
  destruct (nz (q_waiting_receiver (exq k q))) eqn:H1; cbn [negb andb].
  { exists None, k. split_and!; [done|by apply exit_ok_refl|]. intros _ E. unfold wait_view in E. injection E as E _. by rewrite E in H1. }
  destruct (nz (q_waiting_receiver_id (exq k q))) eqn:H2; cbn [negb andb].
  { exists None, k. split_and!; [done|by apply exit_ok_refl|]. intros _ E. unfold wait_view in E. injection E as _ E. by rewrite E in H2. }
  destruct (pending_events (exq k q)) as [|e es] eqn:He.
  - rewrite (proj2 (empty_count q Hv) He). exists None, k. split_and!; [done|by apply exit_ok_refl|done].
  - destruct (receive_ok q e es Hv He) as (Hr & Hok & -> & _).
    { intros t w Hw Hq. apply (busy_settled q t w); [by rewrite He|done|done]. }
    rewrite Hr. exists (Some e), (set_exq q receive_head k). split_and!; [done|done|done].
Qed.

(** ** Closing, creating and destroying *)

Lemma close_guard q l' :
  queue_ok k q l' ->
  forallb (fun i =>
    !q_watching (qslot_at (exq k q) i) || !(!process_storage_in_use k (q_process (qslot_at (exq k q) i))
      || (p_id (prc k (q_process (qslot_at (exq k q) i))) != q_process_id (qslot_at (exq k q) i))
      || (p_exit_queue (prc k (q_process (qslot_at (exq k q) i))) != q)
      || (p_exit_queue_id (prc k (q_process (qslot_at (exq k q) i))) != q_id (exq k q)))) queue_indices = true.
Proof using.
  intros Hq. apply forallb_forall. intros x Hxi. apply list_elem_of_In, elem_of_indices in Hxi. cbn zeta.
  destruct (q_watching (qslot_at (exq k q) x)) eqn:Hw; [|done]. cbn [negb orb].
  destruct (watch_valid k q (q_process (qslot_at (exq k q) x)) x) as (_ & Hl & H1 & H2 & H3 & _); [done|by apply Hq|].
  unfold process_storage_in_use. by rewrite Hl, H1, H2, H3, !Z.eqb_refl.
Qed.

Lemma close_call_exit q :
  if queue_live k q && !q_closed (exq k q) then
    exists k', process_exit_queue_close q k = Some (true, k') /\ exit_ok k l W [] k' /\ q_closed (exq k' q) = true /\
      (forall q', q' <> q -> exq k' q' = exq k q') /\
      (forall t, t_wait_result (thr k' t) = completes k q THREAD_WAIT_RESULT_PEER_CLOSED t) /\
      (forall q', queue_live k' q' = queue_live k q') /\ q_watch_count (exq k' q) = 0
  else process_exit_queue_close q k = Some (false, k).
Proof using Hx.
  unfold process_exit_queue_close. rewrite valid_live. destruct (queue_live k q) eqn:Hv; [|done].
  destruct (q_closed (exq k q)) eqn:Hc; [done|].
  destruct (xd_queue _ (xf_data _ _ _ Hx) q Hv) as [l' Hq]. rewrite (close_guard q l' Hq). cbn [negb andb orb].
  destruct (closing_data k q l' (closed_queue q k) (xf_data _ _ _ Hx) Hv Hq (close_data k q l' Hq))
    as (Ho & Hd & Hoth & Hwv & Hpc & Hcl & Hwc & Hev).
  fold (shut_flag q k).
  set (k1 := closed_queue q k) in *. clearbody k1.
  assert (forall q', wait_view (exq k1 q') = wait_view (exq k q')) as Hview.
  { intros q'. destruct (decide (q' = q)) as [->|Hn]; [done|by rewrite Hoth]. }
  destruct (complete_spec k k1 l W q THREAD_WAIT_RESULT_PEER_CLOSED Hx Ho Hd Hv Hview Hoth eq_refl)
    as (k2 & -> & Hsteps & He2 & Hp2 & Hexq & _ & Hres). cbn [mbind option_bind].
  assert (forall q', queue_live k2 q' = queue_live k q') as Hlk by (intros; unfold queue_live; by rewrite Hexq).
  exists k2. split; [done|]. split_and!; try done; [|by rewrite He2|intros q' Hn; by rewrite He2, Hoth|by rewrite He2].
  split; [done|]. apply xflow_same. intros q'. unfold queued. rewrite Hlk, He2.
  destruct (decide (q' = q)) as [->|Hn]; [by rewrite Hev|by rewrite Hoth].
Qed.

(** Registry changes: [q] is the only queue that changes, and it has no waiter. *)
Lemma registry_ok k' q :
  quiet k k' -> ipc_frame k k' -> (forall t, thr k' t = thr k t) -> exit_data k' ->
  (forall q', q' <> q -> exq k' q' = exq k q' /\ queue_live k' q' = queue_live k q') ->
  (forall t w, W !! t = Some w -> xw_queue w <> q) -> (queue_live k' q = true -> wait_view (exq k' q) = (0, 0)) ->
  queued k q = [] -> queued k' q = [] -> exit_ok k l W [] k'.
Proof using Hx.
  intros Hq Hf Ht Hd Ho Hw Hview E1 E2. split.
  - exists l. assert (keeps_sched k k' l l) as Hks by (by apply keeps_quiet). split; [|split; [done|]].
    + split; [apply (quiet_sched k k' l Hq), Hx|done| | |].
      * intros t w Hww. pose proof (Hw t w Hww) as Hne. destruct (Ho _ Hne) as [He Hl].
        destruct (xf_waiter _ _ _ Hx t w Hww) as [H1 H2 H3 H4 H5 H6]. unfold pending in *. split; unfold pending; rewrite ?He, ?Hl, ?Ht; try done.
        -- by rewrite (frame_matches k k').
        -- by apply Hks.
      * intros q' Hl. destruct (decide (q' = q)) as [->|Hne]; [left; auto|]. destruct (Ho _ Hne) as [He Hl'].
        rewrite He. apply Hx. by rewrite <- Hl'.
      * intros t Hn. rewrite Ht. by apply Hx.
    + apply awake_same. intros t. by rewrite Ht.
  - apply xflow_same. intros q'. destruct (decide (q' = q)) as [->|Hne]; [congruence|].
    destruct (Ho _ Hne) as [He Hl]. unfold queued. by rewrite He, Hl.
Qed.

Lemma create_call q :
  exists k', process_exit_queue_create q k = (creatable k q, k') /\ exit_ok k l W [] k'.
Proof using Hx.
  pose proof (create_spec k q (xf_data _ _ _ Hx)) as Hs. destruct (creatable k q) eqn:Hc; [|exists k; split; [done|by apply exit_ok_refl]].
  destruct Hs as (k' & Hr & Hqu & Hd & Hl & Ho & Hp & He & _). exists k'. split; [done|].
  assert (queue_live k q = false) as Hdead.
  { unfold creatable in Hc. repeat (apply andb_true_iff in Hc as [Hc ?]). by apply negb_true_iff. }
  assert (ipc_frame k k' /\ forall t, thr k' t = thr k t) as [Hf Ht].
  { unfold process_exit_queue_create in Hr. destruct (nz q); cbn [negb] in Hr; [|done]. if_case_in Hr; [|done].
    injection Hr as <-. done. }
  apply (registry_ok k' q); try done.
  - intros t w Hw E. pose proof (ew_live _ _ _ _ (xf_waiter _ _ _ Hx t w Hw)) as Hlw. congruence.
  - by rewrite He.
  - unfold queued. by rewrite Hdead.
  - unfold queued. rewrite Hl, He. done.
Qed.

Lemma destroy_call q :
  exists k', process_exit_queue_destroy q k = (destroyable k q, k') /\ exit_ok k l W [] k'.
Proof using Hx.
  pose proof (destroy_spec k q (xf_data _ _ _ Hx) (valid_live q)) as Hs.
  destruct (destroyable k q) eqn:Hc; [|exists k; split; [done|by apply exit_ok_refl]].
  destruct Hs as (k' & Hr & Hqu & Hd & Hl & Ho & Hp & He & _). exists k'. split; [done|].
  unfold destroyable in Hc. repeat (apply andb_true_iff in Hc as [Hc ?]).
  repeat match goal with H : !nz _ = true |- _ => apply negb_true_iff, negb_false_iff, Z.eqb_eq in H end.
  assert (ipc_frame k k' /\ forall t, thr k' t = thr k t) as [Hf Ht].
  { unfold process_exit_queue_destroy in Hr. if_case_in Hr; [done|]. if_case_in Hr; [done|]. injection Hr as <-. done. }
  apply (registry_ok k' q); try done.
  - intros t w Hw E. pose proof (ew_view _ _ _ _ (xf_waiter _ _ _ Hx t w Hw)) as Hvw. rewrite E in Hvw.
    unfold wait_view in Hvw. injection Hvw as Hvw _.
    destruct (exit_waiter_nonnull _ _ _ _ (xf_waiter _ _ _ Hx t w Hw)). congruence.
  - congruence.
  - unfold queued. rewrite Hc. by apply pending_events_nil.
  - unfold queued. by rewrite Hl.
Qed.

End Calls.

(** * The registered receiver *)

Definition waited_by (t id : Z) (q : ProcessExitQueue) : ProcessExitQueue :=
  q <| q_waiting_receiver := t |> <| q_waiting_receiver_id := id |>.

(** The data of the queues does not depend on who waits. *)
Lemma queue_ok_waited k q l t id f g :
  queue_ok k q l -> queue_ok (set_exq q (waited_by t id) (set_tm f (set_thr t g k))) q l.
Proof.
  intros [H1 H2 H3 H4 H5 H6]. set (k' := set_exq _ _ _).
  assert (exq k' q = waited_by t id (exq k q)) as E by (unfold k'; rewrite exq_set; by rewrite decide_True).
  split; unfold qslot_valid, watches; rewrite ?E; try done.
  by destruct H1; split.
Qed.

Lemma exit_data_waited k q t id f g :
  exit_data k -> exit_data (set_exq q (waited_by t id) (set_tm f (set_thr t g k))).
Proof.
  intros [Hr Hq Hl]. set (k' := set_exq _ _ _).
  assert (forall q', exq k' q' = if decide (q = q') then waited_by t id (exq k q) else exq k q') as E
    by (intros; unfold k'; by rewrite exq_set).
  split; [done| |].
  - intros q' Hv. destruct (Hq q' Hv) as [l Hl']. exists l. destruct (decide (q = q')) as [<-|Hne].
    + by apply queue_ok_waited.
    + apply (queue_ok_same k); try done. rewrite E. by rewrite decide_False.
  - intros p. destruct (Hl p) as [?|(H1 & H2 & H3 & x & H4)]; [by left|right].
    change (prc k' p) with (prc k p). unfold watches in *. rewrite E. case_decide as Eq; [|by eauto 6]. subst q.
    split_and!; try done. by exists x.
Qed.

(** Thread [t] enters or leaves the wait at queue [q]; nobody else waits there. *)
Lemma rewait k k' l W W' t q :
  exit_wf k l W -> quiet k k' -> exit_data k' -> k_exq k' = k_exq k ->
  tm_storage (k_thr k') = tm_storage (k_thr k) -> tm_initialized (k_thr k') = tm_initialized (k_thr k) ->
  (forall u, u <> t -> thr k' u = thr k u) -> (forall q', q' <> q -> exq k' q' = exq k q') ->
  (forall u, u <> t -> W' !! u = W !! u) -> (forall u w, W !! u = Some w -> u = t <-> xw_queue w = q) ->
  match W' !! t with
  | None => t_wait_kind (thr k' t) <> THREAD_WAIT_PROCESS_EXIT /\ wait_view (exq k' q) = (0, 0)
  | Some w => xw_queue w = q /\ exit_waiter k' l t w
  end -> exit_wf k' l W'.
Proof.
  intros Hx Hq Hd Hexq Hst Hti Hthr He HW Hat Hme.
  assert (forall q', queue_live k' q' = queue_live k q') as Hlive by (intros; unfold queue_live; by rewrite Hexq).
  split; [apply (quiet_sched k k' l Hq), Hx|done| | |].
  - intros u w Hu. destruct (decide (u = t)) as [->|Hne]; [rewrite Hu in Hme; apply Hme|].
    rewrite HW in Hu by done. destruct (xf_waiter _ _ _ Hx u w Hu) as [H1 H2 H3 H4 H5 H6].
    assert (xw_queue w <> q) as Hnq by (intros E; apply Hne; by apply (Hat u w Hu)).
    split; unfold pending in *; rewrite ?Hthr, ?He, ?Hlive by done; try done.
    + rewrite (matches_ext k); try done; by rewrite Hthr.
    + by apply (located_quiet k).
  - intros q' Hv. rewrite Hlive in Hv. destruct (decide (q' = q)) as [->|Hne].
    + destruct (W' !! t) as [w|] eqn:Ht; [right|by left; apply Hme]. destruct Hme as [Hwq Hew].
      pose proof (ew_view _ _ _ _ Hew) as Hvw. rewrite Hwq in Hvw. unfold wait_view in Hvw. injection Hvw as -> _. by exists w.
    + rewrite He by done. destruct (xf_receiver _ _ _ Hx q' Hv) as [?|(w & Hw & Hwq)]; [by left|right].
      exists w. rewrite HW; [done|]. intros E. rewrite E in Hw. apply Hne. rewrite <- Hwq. by apply (Hat t w).
  - intros u Hu. destruct (decide (u = t)) as [->|Hne]; [rewrite Hu in Hme; apply Hme|].
    rewrite Hthr by done. rewrite HW in Hu by done. by apply Hx.
Qed.

(** What a call that may block does to the waits of its thread. *)
Definition after_exit (t : Z) (c : ExitCall) (W : gmap Z ExitWaiting) : gmap Z ExitWaiting :=
  match c with XReturned _ => delete t W | XParked w | XWaits w _ => <[t := w]> W end.

Definition exit_call_log (q : Z) (c : ExitCall) : list ExitLog :=
  match c with XReturned (Some e) => [XReceive q e] | _ => [] end.

Definition exit_call_ok (k : Kernel) (l : list Z) (W : gmap Z ExitWaiting) (q : Z)
    (r : option (ExitCall * Kernel)) : Prop :=
  exists c k' l', r = Some (c, k') /\ exit_wf k' l' (after_exit (current_of k) c W) /\ keeps_sched k k' l l' /\
    xflow k k' (exit_call_log q c) /\ (awake k l W -> awake k' l' (after_exit (current_of k) c W)).

Lemma exit_refused k l W q :
  exit_wf k l W -> W !! current_of k = None -> exit_call_ok k l W q (Some (XReturned None, k)).
Proof.
  intros Hx Hn. exists (XReturned None), k, l. cbn. rewrite delete_id by done.
  split_and!; [done|done|apply keeps_refl|by apply xflow_same|done].
Qed.

(** * Entering *)

Lemma exit_reserve_ok k l W q id :
  exit_wf k l W -> queue_live k q = true -> q_pending_count (exq k q) = 0 -> q_closed (exq k q) = false ->
  q_waiting_receiver (exq k q) = 0 -> W !! current_of k = None ->
  id <> 0 -> current_of k <> 0 -> current_of k ∈ l -> thread_known k (current_of k) = true -> nz q = true ->
  exit_call_ok k l W q (Some (XParked (mkExitWaiting q id),
    set_exq q (waited_by (current_of k) id)
      (set_tm (next_wait id) (set_thr (current_of k) (waits_for THREAD_WAIT_PROCESS_EXIT q id) k)))).
Proof.
  intros Hx Hv Hpc Hcl Hr0 Hn Hid H0 Hin Hkn Hz. set (t := current_of k) in *. set (k' := set_exq _ _ _).
  assert (forall u, thr k' u = if decide (t = u) then waits_for THREAD_WAIT_PROCESS_EXIT q id (thr k t) else thr k u) as Ht
    by (intros; apply (thr_set k t u)).
  assert (forall q', exq k' q' = if decide (q = q') then waited_by t id (exq k q) else exq k q') as He
    by (intros; unfold k'; by rewrite exq_set).
  assert (quiet k k') as Hq.
  { assert (forall u, sched_fields (thr k' u) = sched_fields (thr k u)) as Hs
      by (intros u; rewrite Ht; case_decide; [subst|]; done).
    split; try done. split; try done. intros u. specialize (Hs u). unfold sched_fields in Hs. congruence. }
  exists (XParked (mkExitWaiting q id)), k', l. cbn [after_exit exit_call_log]. fold t. split_and!; [done| |by apply keeps_quiet| |].
  - apply (rewait k k' l W _ t q); try done; [by apply exit_data_waited, Hx|..].
    + intros u Hne. rewrite Ht. by rewrite decide_False.
    + intros q' Hne. rewrite He. by rewrite decide_False.
    + intros u Hne. by rewrite lookup_insert_ne.
    + intros u w Hw. split; [congruence|]. intros E. exfalso.
      pose proof (ew_view _ _ _ _ (xf_waiter _ _ _ Hx u w Hw)) as Hvw. rewrite E in Hvw. unfold wait_view in Hvw.
      injection Hvw as Hvw _. destruct (exit_waiter_nonnull _ _ _ _ (xf_waiter _ _ _ Hx u w Hw)). congruence.
    + rewrite lookup_insert_eq. split; [done|].
      assert (thr k' t = waits_for THREAD_WAIT_PROCESS_EXIT q id (thr k t)) as Et by (rewrite Ht; by rewrite decide_True).
      assert (exq k' q = waited_by t id (exq k q)) as Eq by (rewrite He; by rewrite decide_True).
      split; cbn [xw_queue xw_id]; rewrite ?Eq; try done.
      * assert (thread_known k' t = true) as Hkn' by (unfold thread_known in *; rewrite Et; exact Hkn).
        unfold thread_wait_matches_id, thread_wait_matches. rewrite Hkn', Hz, Et. cbn.
        unfold nz. rewrite (proj2 (Z.eqb_neq id 0)) by done. by rewrite !Z.eqb_refl.
      * left. unfold pending. by rewrite Et.
      * by left.
  - apply xflow_same. intros q'. unfold queued. change (queue_live k' q') with (queue_live k q'). rewrite He.
    case_decide; by subst.
  - apply awake_step; [done|]. intros u w Hu. destruct (decide (u = t)) as [->|Hne]; [by left|right].
    rewrite lookup_insert_ne in Hu by done. split; [by exists w|]. unfold pending. rewrite Ht, decide_False by done. by left.
Qed.

Lemma exit_enter_call k l W q :
  exit_wf k l W -> W !! current_of k = None -> exit_call_ok k l W q (Some (exit_receive_enter q k)).
Proof.
  intros Hx Hn. unfold exit_receive_enter. rewrite (thread_current_wf k l) by apply Hx.
  if_case; [by apply exit_refused|]. rewrite (valid_live Hx). destruct (queue_live k q) eqn:Hv; [|by apply exit_refused].
  cbn [negb]. destruct (nz (q_pending_count (exq k q))) eqn:Hnz.
  - destruct (pending_events (exq k q)) as [|e es] eqn:He.
    { apply (empty_count Hx q Hv) in He. by rewrite He in Hnz. }
    destruct (receive_ok Hx q e es Hv He) as (-> & [(l' & Hx' & Hks & Haw) Hfl] & _).
    { intros t w Hw Hq. apply (busy_settled Hx q t w); [by rewrite He|done|done]. }
    exists (XReturned (Some e)), (set_exq q receive_head k), l'. cbn. rewrite delete_id by done. by split_and!.
  - apply negb_false_iff, Z.eqb_eq in Hnz. if_case; [by apply exit_refused|].
    apply orb_false_iff in E0 as [E0 _]. apply orb_false_iff in E0 as [Hcl Hr0]. apply negb_false_iff, Z.eqb_eq in Hr0.
    destruct (thread_wait_begin _ _ _ _) as [[|] k1] eqn:Hb; cbn [negb].
    + destruct (begin_at k l _ _ _ _ (xf_sched _ _ _ Hx) Hb) as (id & -> & Hid & _ & Hin & Hkn & Hz & H0 & _).
      rewrite begun_id. by apply exit_reserve_ok.
    + rewrite (begin_refused _ _ _ _ _ Hb). by apply exit_refused.
Qed.

(** * Leaving *)

Definition released (t q : Z) (k : Kernel) : Kernel := clear_receiver q (wait_clear t k).

Lemma set_tm_id k : set_tm (fun m => m) k = k.
Proof. by destruct k. Qed.

Lemma exit_release k l W t w :
  exit_wf k l W -> W !! t = Some w ->
  let k' := released t (xw_queue w) k in
  exit_wf k' l (delete t W) /\ quiet k k' /\ (awake k l W -> awake k' l (delete t W)) /\ xflow k k' [].
Proof.
  intros Hx Hw. cbn zeta. set (q := xw_queue w). set (k' := released t q k).
  assert (forall u, thr k' u = if decide (t = u) then wait_cleared (thr k t) else thr k u) as Ht
    by (intros; apply (thr_set k t u)).
  assert (forall q', exq k' q' = if decide (q = q') then waited_by 0 0 (exq k q) else exq k q') as He
    by (intros; unfold k', released, clear_receiver; by rewrite exq_set).
  assert (quiet k k') as Hq by (apply (quiet_trans k (wait_clear t k)); [by apply quiet_thr|done]).
  split_and!; [|done| |].
  - apply (rewait k k' l W _ t q); try done.
    + apply (exit_data_same (set_exq q (waited_by 0 0) (set_tm (fun m => m) (set_thr 0 (fun x => x) k)))); try done.
      by apply exit_data_waited, Hx.
    + intros u Hne. rewrite Ht. by rewrite decide_False.
    + intros q' Hne. rewrite He. by rewrite decide_False.
    + intros u Hne. by rewrite lookup_delete_ne.
    + intros u v Hv. split; [intros ->; unfold q; congruence|]. intros E. by apply (exit_waiter_unique k l W u v t w).
    + rewrite lookup_delete_eq. rewrite Ht, He, !decide_True by done. done.
  - apply awake_step; [done|]. intros u v [Hne Hv]%lookup_delete_Some. right. split; [by exists v|].
    unfold pending. rewrite Ht, decide_False by done. by left.
  - apply xflow_same. intros q'. unfold queued. change (queue_live k' q') with (queue_live k q'). rewrite He.
    case_decide; by subst.
Qed.

Section ExitResume.
  Context {k : Kernel} {l : list Z} {W : gmap Z ExitWaiting} {w : ExitWaiting}.
  Hypothesis Hx : exit_wf k l W.
  Hypothesis Hw : W !! current_of k = Some w.
  Hypothesis Hid : idle k = false.

Lemma wait_end_spec :
  wait_terminal (t_wait_result (thr k (current_of k))) = true ->
  thread_wait_end (current_of k) THREAD_WAIT_PROCESS_EXIT (xw_queue w) k = (true, wait_clear (current_of k) k).
Proof using All.
  intros Hr. unfold thread_wait_end. fold (current_of k). rewrite Z.eqb_refl, Hr.
  rewrite (matches_fst _ _ _ _ _ (ew_match _ _ _ _ (xf_waiter _ _ _ Hx _ _ Hw))). unfold state_is.
  destruct (wf_current _ _ (xf_sched _ _ _ Hx) Hid) as [_ ->]. done.
Qed.

(** The outcome is settled: the oldest event is taken when the wait completed
    and the queue still holds one. *)
Definition exit_outcome : option ProcessExitInfo :=
  if bool_decide (t_wait_result (thr k (current_of k)) = THREAD_WAIT_RESULT_COMPLETED)
  then head (pending_events (exq k (xw_queue w))) else None.

Lemma exit_leave_call :
  pending k (current_of k) = false ->
  exists k', exit_receive_leave w k = Some (XReturned exit_outcome, k') /\
    exit_call_ok k l W (xw_queue w) (Some (XReturned exit_outcome, k')).
Proof using All.
  intros Hp. pose proof (xf_waiter _ _ _ Hx _ _ Hw) as Hew. pose proof (ew_live _ _ _ _ Hew) as Hv.
  assert (wait_terminal (t_wait_result (thr k (current_of k))) = true) as Hr
    by (destruct (ew_result _ _ _ _ Hew); [congruence|done]).
  unfold exit_receive_leave, exit_outcome. rewrite (thread_current_wf k l) by apply Hx.
  set (q := xw_queue w) in *. case_bool_decide as Hres; cbn [andb].
  - destruct (pending_events (exq k q)) as [|e es] eqn:He; cbn [head].
    + rewrite (proj2 (empty_count Hx q Hv) He). change (nz 0) with false. cbn beta iota. unfold q. rewrite wait_end_spec by done.
      destruct (exit_release k l W _ w Hx Hw) as (H1 & H2 & H3 & H4). eexists. split; [done|].
      eexists _, _, l. by split_and!; [done|done|by apply keeps_quiet|..].
    + destruct (receive_ok Hx q e es Hv He) as (-> & [(l1 & Hx1 & Hks & Haw) Hfl] & -> & _).
      { intros t v Ht Hq. apply (busy_settled Hx q t v); [by rewrite He|done|done]. }
      set (k1 := set_exq q receive_head k) in *.
      assert (thread_wait_end (current_of k) THREAD_WAIT_PROCESS_EXIT q k1 = (true, wait_clear (current_of k) k1)) as ->.
      { pose proof wait_end_spec as E. fold q in E. specialize (E Hr). revert E. unfold thread_wait_end.
        change (k_thr k1) with (k_thr k). change (thr k1) with (thr k). change (state_is k1) with (state_is k).
        change (thread_wait_matches k1) with (thread_wait_matches k). if_case; done. }
      destruct (exit_release k1 l1 W (current_of k) w Hx1 Hw) as (H1 & H2 & H3 & H4). eexists. split; [done|].
      eexists _, _, l1. split; [done|]. cbn [after_exit exit_call_log]. split_and!; [done| | |auto].
      * eapply keeps_trans; [done|by apply keeps_quiet].
      * apply (xflow_trans k k1 _ [XReceive q e] []); done.
  - unfold q. rewrite wait_end_spec by done. destruct (exit_release k l W _ w Hx Hw) as (H1 & H2 & H3 & H4).
    eexists. split; [done|]. eexists _, _, l. by split_and!; [done|done|by apply keeps_quiet|..].
Qed.

(** One turn of the loop: the call returns when the outcome is settled, and
    waits otherwise. *)
Lemma exit_iterate_call :
  exit_receive_iterate w k =
    if pending k (current_of k) then let '(call, k') := scheduler_wait_current k in Some (XWaits w call, k')
    else exit_receive_leave w k.
Proof using All.
  pose proof (xf_waiter _ _ _ Hx _ _ Hw) as Hew. pose proof (ew_live _ _ _ _ Hew) as Hv.
  unfold exit_receive_iterate. rewrite (thread_current_wf k l) by apply Hx.
  rewrite (ew_match _ _ _ _ Hew), (exit_reservation_valid k l W _ Hx Hv). cbn [negb orb].
  fold (pending k (current_of k)). destruct (pending k (current_of k)) eqn:Hp; [|done]. cbn [negb].
  destruct (ew_idle _ _ _ _ Hew Hp) as [-> _]. done.
Qed.

End ExitResume.

(** * Aborting *)

(** What a granted abort leaves: the receiver is gone from the queue. *)
Lemma exit_abort_form k l W t w :
  exit_wf k l W -> W !! t = Some w -> t <> current_of k ->
  t_state (thr k t) = THREAD_STATE_BLOCKED \/ t_state (thr k t) = THREAD_STATE_READY ->
  process_exit_queue_abort_wait t k = (true, clear_receiver (xw_queue w) (wait_clear t k)).
Proof.
  intros Hx Hw Hne Hst. pose proof (xf_waiter _ _ _ Hx _ _ Hw) as Hew. pose proof (ew_match _ _ _ _ Hew) as Hm.
  pose proof Hm as Hm0. unfold thread_wait_matches_id, thread_wait_matches in Hm0. apply andb_true_iff in Hm0 as [Hm0 Eid].
  apply andb_true_iff in Hm0 as [_ Hm0]. if_case_in Hm0; [done|]. apply andb_true_iff in Hm0 as [Ek Eo].
  apply Z.eqb_eq in Eo, Eid.
  assert (negb (state_is k t THREAD_STATE_BLOCKED) && negb (state_is k t THREAD_STATE_READY) = false) as Hs
    by (unfold state_is; destruct Hst as [-> | ->]; done).
  pose proof (exit_waiter_nonnull _ _ _ _ Hew) as Hz. unfold process_exit_queue_abort_wait, nz at 1.
  rewrite (proj2 (Z.eqb_neq _ _) Hz), (thread_current_wf k l), (proj2 (Z.eqb_neq _ _) Hne) by apply Hx.
  rewrite (matches_active _ _ _ _ _ Hm), Ek, Hs, Eo, Eid, (valid_live Hx), (ew_live _ _ _ _ Hew).
  pose proof (ew_view _ _ _ _ Hew) as Hvw. unfold wait_view in Hvw. injection Hvw as -> ->. rewrite !Z.eqb_refl. cbn [negb orb].
  assert (thread_wait_abort t THREAD_WAIT_PROCESS_EXIT (xw_queue w) k = (true, wait_clear t k)) as ->; [|done].
  unfold thread_wait_abort. fold (current_of k). rewrite (proj2 (Z.eqb_neq _ _) Hne), (matches_fst _ _ _ _ _ Hm), Hs.
  cbn [negb orb]. fold (pending k t). destruct (pending k t) eqn:Hp.
  - rewrite thr_set, decide_True by done. upd_simpl. cbn [wait_terminal negb].
    f_equal. apply (clear_settled k t THREAD_WAIT_RESULT_CANCELLED).
  - destruct (ew_result _ _ _ _ Hew) as [?| ->]; [congruence|done].
Qed.

Lemma exit_abort_call k l W t :
  exit_wf k l W ->
  let '(b, k') := process_exit_queue_abort_wait t k in
  exit_wf k' l (if b then delete t W else W) /\ keeps_sched k k' l l /\ xflow k k' [] /\
  (awake k l W -> awake k' l (if b then delete t W else W)) /\
  (b = true -> is_Some (W !! t)).
Proof.
  intros Hx.
  assert (exit_wf k l W /\ keeps_sched k k l l /\ xflow k k [] /\ (awake k l W -> awake k l W) /\ (false = true -> is_Some (W !! t))) as Hsame
    by (split_and!; [done|apply keeps_refl|by apply xflow_same|done|done]).
  destruct (W !! t) as [w|] eqn:Hw.
  2: { pose proof (xf_other _ _ _ Hx t Hw) as Hk. unfold process_exit_queue_abort_wait. if_case; [done|].
       rewrite (bool_decide_eq_false_2 _ Hk), orb_true_r. done. }
  destruct (decide (t = current_of k)) as [->|Hne].
  { unfold process_exit_queue_abort_wait. rewrite (thread_current_wf k l), Z.eqb_refl, orb_true_r by apply Hx. done. }
  destruct (state_is k t THREAD_STATE_BLOCKED || state_is k t THREAD_STATE_READY) eqn:Hst.
  2: { apply orb_false_iff in Hst as [E1 E2]. unfold process_exit_queue_abort_wait. if_case; [done|].
       rewrite E1, E2. cbn [negb andb]. rewrite orb_true_r. done. }
  rewrite (exit_abort_form k l W t w); try done.
  2: { apply orb_true_iff in Hst as [E|E]; apply bool_decide_eq_true in E; auto. }
  destruct (exit_release k l W t w Hx Hw) as (H1 & H2 & H3 & H4). split_and!; try done. by apply keeps_quiet.
Qed.
