(* ===== verification/ExitEvents.v ===== *)
(** The kernel as seen by the exit queues: calls, resumptions and scheduling
    events in any order. *)

From S2P Require Import Prelude Pmm ObjectStorage Kernel Objects Thread.
From S2P Require Import Ring Scheduler SchedulerProofs SchedulerWf SchedulerOps.
From S2P Require Import SchedulerTheorems Ipc IpcWf IpcOps IpcReserve.
From S2P Require Import IpcCalls IpcEvents ExitQueue ExitRing ExitData.
From S2P Require Import ExitClose ExitWaits ExitBlocking.

Open Scope jcos_scope.

Section ExitSystem.
  Context `{KernelStack} (idle_loop : Z).

Lemma exit_sched_call k l W e :
  exit_wf k l W -> event_ok k e ->
  exists k' l', run_event idle_loop e k = Some k' /\ exit_wf k' l' W /\ calm k k' /\
    run_step e (run_state k l) (run_state k' l') /\ xflow k k' [] /\
    ((forall f, e = EBlock f -> W !! current_of k = None \/ pending k (current_of k) = true) ->
     awake k l W -> awake k' l' W).
Proof using All.
  intros Hx Hok.
  destruct (event_simulates idle_loop k l e (xf_sched _ _ _ Hx) Hok) as (k' & l' & Hr & Hwf' & Hs).
  pose proof (calm_event idle_loop e k k' Hr) as Hca. exists k', l'. pose proof (ca_rest _ _ Hca) as R.
  assert (forall q, exq k' q = exq k q) as He by (intros; unfold exq; by rewrite R).
  assert (forall t, pending k' t = pending k t) as Hp by (intros; apply pending_ext; by apply result_calm).
  assert (forall t w, W !! t = Some w -> (located k l t -> located k' l' t) /\
    (t ∈ l -> t ∈ l' \/ exists f, e = EBlock f /\ t = current_of k)) as Hwait.
  { intros t w Hw. apply (event_waiting idle_loop k l k' l' e t); try done; [apply Hx|].
    eapply matches_active, (ew_match _ _ _ _ (xf_waiter _ _ _ Hx t w Hw)). }
  assert (k_exq k' = k_exq k) as Hexq by (by rewrite R).
  split_and!; [done| |done|done| |].
  - assert (forall q, queue_live k' q = queue_live k q) as Hlive by (intros; unfold queue_live; by rewrite Hexq).
    pose proof (calm_frame _ _ Hca) as Hf. split; [done|by apply (calm_exit_data k), Hx|..].
    + intros t w Hw. destruct (xf_waiter _ _ _ Hx t w Hw) as [H1 H2 H3 H4 H5 H6].
      split; rewrite ?Hlive, ?He, ?Hp, ?(result_calm _ _ t Hca); try done; [by rewrite (frame_matches k k')|].
      by apply (Hwait t w Hw).
    + intros q. rewrite Hlive, He. apply Hx.
    + intros t Ht. destruct (if_wait _ _ Hf t) as (_ & -> & _). by apply Hx.
  - apply xflow_same. intros q. unfold queued, queue_live. by rewrite Hexq, He.
  - intros Hb Ha t w Hw. rewrite Hp. destruct (Ha t w Hw) as [?|Hin]; [by left|].
    destruct (proj2 (Hwait t w Hw) Hin) as [?|(f & Ef & ->)]; [by right|].
    destruct (Hb f Ef) as [Hn|Hpd]; [congruence|by left].
Qed.

(** What follows [scheduler_wait_current] in the thread [t] that called it. *)
Definition exit_wait_step (t frame : Z) (c : ExitCall) (k : Kernel) : option (ExitCall * Kernel) :=
  match c with
  | XWaits w (Return false) => exit_receive_resume w false k
  | XWaits w (Trap op) =>
    k ← trap idle_loop op frame k;
    if (thread_current k =? t) && !nz (f_rax (frm k frame)) then exit_receive_resume w false k else Some (c, k)
  | _ => Some (c, k)
  end.

Definition exit_resume_step (frame : Z) (w : ExitWaiting) (k : Kernel) : option (ExitCall * Kernel) :=
  '(c, k1) ← exit_receive_resume w true k; exit_wait_step (thread_current k) frame c k1.

Definition exit_step_ok (k : Kernel) (l : list Z) (W : gmap Z ExitWaiting)
    (r : option (list ExitLog * Kernel * gmap Z ExitWaiting)) : Prop :=
  exists log k' W' l', r = Some (log, k', W') /\ exit_wf k' l' W' /\ xflow k k' log /\ (awake k l W -> awake k' l' W').

Lemma exit_call_step k l W q r :
  exit_wf k l W -> exit_call_ok k l W q r ->
  exit_step_ok k l W ('(c, k1) ← r; Some (exit_call_log q c, k1, after_exit (thread_current k) c W)).
Proof using.
  intros Hx (c & k' & l' & -> & Hx' & Hks & Hfl & Haw). rewrite (thread_current_wf k l) by apply Hx.
  by exists (exit_call_log q c), k', (after_exit (current_of k) c W), l'.
Qed.

Lemma exit_steps_ok k l W log k' : exit_ok k l W log k' -> exit_step_ok k l W (Some (log, k', W)).
Proof using. intros [(l' & Hx & _ & Haw) Hfl]. by exists log, k', W, l'. Qed.

(** A pending wait goes back to sleep: another thread gets the processor, or
    the processor halts for one interrupt. *)
Lemma exit_sleep_call k l W w frame :
  exit_wf k l W -> W !! current_of k = Some w -> idle k = false ->
  scheduler_interrupt_frame_valid k (current_of k) frame = true -> pending k (current_of k) = true ->
  exists call k' l', exit_resume_step frame w k = Some (XWaits w call, k') /\ exit_wf k' l' W /\ xflow k k' [] /\
    (awake k l W -> awake k' l' W) /\ stays True k l k' l'.
Proof using All.
  intros Hx Hw Hid Hfv Hp. pose proof (xf_sched _ _ _ Hx) as Hs.
  unfold exit_resume_step, exit_receive_resume. rewrite (exit_iterate_call Hx Hw Hid), Hp, (thread_current_wf k l Hs).
  destruct (wait_current_spec k l Hs Hid) as [[-> Hlen]|[-> _]]; cbn [mbind option_bind exit_wait_step].
  - destruct (exit_sched_call k l W (EBlock frame) Hx) as (k' & l' & Hr & Hx' & Hca & Hst & Hfl & Haw); [done|].
    cbn [run_event] in Hr. rewrite Hr. cbn [mbind option_bind].
    assert (current_of k' <> current_of k) as Hne by (apply (block_leaves frame k k' l l'); try done; apply (wf_list _ _ Hs)).
    rewrite (thread_current_wf k' l') by apply Hx'. rewrite (proj2 (Z.eqb_neq _ _) Hne). cbn [andb].
    eexists _, k', l'. split_and!; try done; [apply Haw; by right|].
    intros t Ht. destruct (event_waiting idle_loop k l k' l' (EBlock frame) t) as [H1 H2]; try done; [apply Hx'|].
    split; [exact H1|]. intros Hin. destruct (H2 Hin) as [?|(? & _ & ->)]; [by left|by right].
  - eexists _, _, l. split; [done|]. split_and!; [|by apply xflow_same|by apply awake_same|intros t _; split; [done|by left]].
    apply (exit_wf_step k _ l l W Hx); try done.
    + by apply idle_wait_sched.
    + apply (exit_data_same k); try done. apply Hx.
    + intros t v Hv. by left.
    + intros t v Hv. apply (ew_idle _ _ _ _ (xf_waiter _ _ _ Hx t v Hv)).
Qed.

Lemma exit_resume_call k l W w frame :
  exit_wf k l W -> W !! current_of k = Some w -> idle k = false ->
  scheduler_interrupt_frame_valid k (current_of k) frame = true ->
  exit_step_ok k l W ('(c, k1) ← exit_resume_step frame w k;
                      Some (exit_call_log (xw_queue w) c, k1, after_exit (thread_current k) c W)).
Proof using All.
  intros Hx Hw Hid Hfv. destruct (pending k (current_of k)) eqn:Hp.
  - destruct (exit_sleep_call k l W w frame Hx Hw Hid Hfv Hp) as (call & k' & l' & -> & Hx' & Hfl & Haw & _).
    cbn [mbind option_bind exit_call_log after_exit]. rewrite (thread_current_wf k l) by apply Hx.
    rewrite insert_id by done. by exists [], k', W, l'.
  - destruct (exit_leave_call Hx Hw Hid Hp) as (k' & Hl & Hok).
    pose proof (exit_call_step k l W _ _ Hx Hok) as Hst. unfold exit_resume_step, exit_receive_resume.
    rewrite (exit_iterate_call Hx Hw Hid), Hp, Hl. exact Hst.
Qed.

(** * Events *)

Inductive ExitEvent :=
  | QCreate (q : Z)
  | QDestroy (q : Z)
  | QWatch (q p : Z)
  | QUnwatch (p : Z)
  | QPublish (p : Z) (info : ProcessExitInfo)
  | QTryReceive (q : Z)
  | QReceiveBlocking (q : Z)
  | QResume (frame : Z)
  | QAbort (t : Z)
  | QClose (q : Z)
  | QSched (e : SchedEvent).

(** One event, with the log its results report. [QResume] is one turn of the
    wait loop of the current thread, up to and including the trap. *)
Definition exit_step (e : ExitEvent) (k : Kernel) (W : gmap Z ExitWaiting)
    : option (list ExitLog * Kernel * gmap Z ExitWaiting) :=
  match e with
  | QCreate q => Some ([], (process_exit_queue_create q k).2, W)
  | QDestroy q => Some ([], (process_exit_queue_destroy q k).2, W)
  | QWatch q p => Some ([], (process_exit_queue_watch q p k).2, W)
  | QUnwatch p => Some ([], (process_exit_queue_unwatch_process p k).2, W)
  | QPublish p info =>
    '(b, k1) ← process_exit_queue_publish_process p info k;
    Some (if b && linked (k := k) p then [XPublish (p_exit_queue (prc k p)) info] else [], k1, W)
  | QTryReceive q =>
    let '(r, k1) := process_exit_queue_try_receive q k in
    Some (match r with Some e => [XReceive q e] | None => [] end, k1, W)
  | QReceiveBlocking q =>
    '(c, k1) ← Some (exit_receive_enter q k);
    Some (exit_call_log q c, k1, after_exit (thread_current k) c W)
  | QResume frame =>
    w ← W !! thread_current k;
    '(c, k1) ← exit_resume_step frame w k;
    Some (exit_call_log (xw_queue w) c, k1, after_exit (thread_current k) c W)
  | QAbort t => let '(b, k1) := process_exit_queue_abort_wait t k in Some ([], k1, if b then delete t W else W)
  | QClose q => '(_, k1) ← process_exit_queue_close q k; Some ([], k1, W)
  | QSched e => k1 ← run_event idle_loop e k; Some ([], k1, W)
  end.

(** A thread makes one call at a time, resumes in the thread that made it with
    its frame on its own stack, and blocks inside a call only in its loop. *)
Definition exit_event_ok (k : Kernel) (W : gmap Z ExitWaiting) (e : ExitEvent) : Prop :=
  match e with
  | QReceiveBlocking _ => W !! current_of k = None
  | QResume frame =>
    is_Some (W !! current_of k) /\ idle k = false /\
    scheduler_interrupt_frame_valid k (current_of k) frame = true
  | QSched e => event_ok k e /\ forall f, e = EBlock f -> W !! current_of k = None
  | _ => True
  end.

Lemma exit_event_step k l W e :
  exit_wf k l W -> exit_event_ok k W e -> exit_step_ok k l W (exit_step e k W).
Proof using All.
  intros Hx Hok. destruct e as [q|q|q p|p|p info|q|q|frame|t|q|e]; cbn [exit_step].
  - destruct (create_call Hx q) as (k' & -> & Hc). by apply exit_steps_ok.
  - destruct (destroy_call Hx q) as (k' & -> & Hc). by apply exit_steps_ok.
  - destruct (watch_call Hx q p) as (b & k' & -> & Hc & _). by apply exit_steps_ok.
  - destruct (unwatch_call Hx p) as (b & k' & -> & Hc & _). by apply exit_steps_ok.
  - destruct (publish_call_exit Hx p info) as (k' & -> & Hc & _). by apply exit_steps_ok.
  - destruct (try_receive_exit Hx q) as (r & k' & -> & Hc & _). by apply exit_steps_ok.
  - apply exit_call_step; [done|]. by apply exit_enter_call.
  - destruct Hok as ([w Hw] & Hid & Hfv). rewrite (thread_current_wf k l), Hw by apply Hx. cbn [mbind option_bind].
    rewrite <- (thread_current_wf k l) by apply Hx. by apply (exit_resume_call k l W w frame).
  - pose proof (exit_abort_call k l W t Hx) as Ha. destruct (process_exit_queue_abort_wait t k) as [b k'].
    destruct Ha as (H1 & _ & H2 & H3 & _). by eexists _, k', _, l.
  - pose proof (close_call_exit Hx q) as Hc. destruct (queue_live k q && _).
    + destruct Hc as (k' & -> & Hc & _). by apply exit_steps_ok.
    + rewrite Hc. apply exit_steps_ok. by apply exit_ok_refl.
  - destruct Hok as [Hok Hblk]. destruct (exit_sched_call k l W e Hx Hok) as (k' & l' & -> & Hx' & _ & _ & Hfl & Haw).
    eexists _, k', W, l'. split_and!; try done. apply Haw. intros f Ef. left. by apply (Hblk f).
Qed.

Fixpoint exit_run (es : list ExitEvent) (k : Kernel) (W : gmap Z ExitWaiting)
    : option (list ExitLog * Kernel * gmap Z ExitWaiting) :=
  match es with
  | [] => Some ([], k, W)
  | e :: es =>
    '(log, k1, W1) ← exit_step e k W;
    '(log', k2, W2) ← exit_run es k1 W1;
    Some (log ++ log', k2, W2)
  end.

Fixpoint exit_events_ok (k : Kernel) (W : gmap Z ExitWaiting) (es : list ExitEvent) : Prop :=
  match es with
  | [] => True
  | e :: es => exit_event_ok k W e /\ forall log k1 W1, exit_step e k W = Some (log, k1, W1) -> exit_events_ok k1 W1 es
  end.

Lemma exit_run_ok es k l W :
  exit_wf k l W -> exit_events_ok k W es -> exit_step_ok k l W (exit_run es k W).
Proof using All.
  revert k l W. induction es as [|e es IH]; intros k l W Hx Hok.
  - exists [], k, W, l. split_and!; try done. by apply xflow_same.
  - destruct Hok as [He Hes]. cbn [exit_run].
    destruct (exit_event_step k l W e Hx He) as (log & k1 & W1 & l1 & Hs & Hx1 & Hf1 & Ha1). rewrite Hs. cbn [mbind option_bind].
    destruct (IH k1 l1 W1 Hx1 (Hes _ _ _ Hs)) as (log2 & k2 & W2 & l2 & -> & Hx2 & Hf2 & Ha2). cbn [mbind option_bind].
    eexists _, k2, W2, l2. split_and!; [done|done|by eapply xflow_trans|auto].
Qed.

End ExitSystem.
