(* ===== verification/ExitTheorems.v ===== *)
(** The theorems of the exit queues.

    The concrete machine of the witnesses adds a user process to the
    scheduler's demonstration machine. *)

From S2P Require Import Prelude Pmm ObjectStorage Kernel Objects Thread.
From S2P Require Import Ring Scheduler SchedulerProofs SchedulerWf SchedulerOps.
From S2P Require Import SchedulerTheorems Ipc IpcWf IpcOps IpcReserve.
From S2P Require Import IpcCalls IpcEvents ExitQueue ExitRing ExitData.
From S2P Require Import ExitClose ExitWaits ExitBlocking ExitEvents.

Open Scope jcos_scope.

(** * A concrete machine *)

Definition exit_demo_processes : gmap Z Process :=
  {[ g_kernel_process := process_zero <| p_id := 1 |> <| p_address_space := 0x80 |>
       <| p_kernel := true |> <| p_initialized := true |>;
     0x7000 := process_zero <| p_id := 2 |> <| p_initialized := true |>;
     0x7100 := process_zero <| p_id := 3 |> <| p_initialized := true |> ]}.

Definition exit_demo : Kernel :=
  sched_demo
  <| k_processes := exit_demo_processes |>
  <| k_prc := mkObjectMod 4 true ([g_kernel_process; 0x7000; 0x7100] ++ replicate 125 0) |>.

(** Another set of processes under the same threads. *)
Lemma sched_wf_processes k ps m l :
  let k' := k <| k_processes := ps |> <| k_prc := m |> in
  sched_wf k l ->
  (forall t p, t_process (thr k t) = p -> p = 0 \/
     (process_address_space k' p = process_address_space k p /\ process_cr3 k' p = process_cr3 k p)) ->
  kernel_process_ok k' -> sched_wf k' l.
Proof.
  intros k' [H1 H2 H3 H4 H5 H6 H7 H8 H9 H10 H11 H12] Hp Hk.
  assert (forall t, activatable k t = true -> activatable k' t = true) as Ha.
  { intros t Ht. unfold activatable in *. change (thr k' t) with (thr k t).
    change (thread_storage_live k' t) with (thread_storage_live k t).
    destruct (Hp t _ eq_refl) as [E|[-> ->]]; [|done]. rewrite E, andb_false_r in Ht. done. }
  split; try done.
  - by apply (run_list_frame k).
  - intros t Ht. by apply Ha, H5.
  - intros t Ht. destruct (H10 t Ht) as (? & ? & ?). split_and!; [done|done|by apply Ha].
  - by destruct H11; split.
Qed.

Lemma exit_demo_sched : sched_wf exit_demo [0x1000; 0x2000].
Proof.
  apply sched_wf_processes; [apply sched_demo_wf| |split; by vm_compute].
  intros t p Hp. assert (p = g_kernel_process \/ p = 0) as [->| ->]; [|right; split; by vm_compute|by left].
  rewrite <- Hp. demo_cases t; [left; by vm_compute..|by right].
Qed.

Lemma exit_demo_prc p : unlinked_process (prc exit_demo p).
Proof.
  unfold prc. change (k_processes exit_demo) with exit_demo_processes. unfold exit_demo_processes.
  destruct (decide (p = g_kernel_process)) as [->|H1]; [done|].
  destruct (decide (p = 0x7000)) as [->|H2]; [done|]. destruct (decide (p = 0x7100)) as [->|H3]; [done|].
  by rewrite !lookup_insert_ne, lookup_singleton_ne by done.
Qed.

Lemma exit_demo_queue q : queue_live exit_demo q = false.
Proof.
  unfold queue_live. assert (registry QSTORE (om_storage (k_exq exit_demo))) as Hr
    by (split; [by vm_compute|apply (bool_decide_unpack _); by vm_compute]).
  rewrite (object_storage_find_live _ _ _ Hr). apply bool_decide_eq_false_2.
  assert (live (om_storage (k_exq exit_demo)) = []) as -> by (by vm_compute). apply not_elem_of_nil.
Qed.

Lemma exit_demo_wf : exit_wf exit_demo [0x1000; 0x2000] ∅.
Proof.
  split.
  - apply exit_demo_sched.
  - split.
    + split; [by vm_compute|apply (bool_decide_unpack _); by vm_compute].
    + intros q Hq. by rewrite exit_demo_queue in Hq.
    + intros p. left. apply exit_demo_prc.
  - intros t w Hw. by rewrite lookup_empty in Hw.
  - intros q Hq. by rewrite exit_demo_queue in Hq.
  - intros t _. change (thr exit_demo t) with (thr sched_demo t). demo_cases t; [by vm_compute..|done].
Qed.

#[local] Instance exit_demo_stack : KernelStack := { kernel_stack_mapping_valid := fun _ _ _ => true }.

(** The boolean guard of an event. *)
Definition exit_event_okb (k : Kernel) (W : gmap Z ExitWaiting) (e : ExitEvent) : bool :=
  match e with
  | QReceiveBlocking _ => negb (bool_decide (is_Some (W !! current_of k)))
  | QResume frame =>
    bool_decide (is_Some (W !! current_of k)) && !idle k && scheduler_interrupt_frame_valid k (current_of k) frame
  | QSched e => event_okb k e &&
    match e with EBlock _ => negb (bool_decide (is_Some (W !! current_of k))) | _ => true end
  | _ => true
  end.

Fixpoint exit_events_okb (k : Kernel) (W : gmap Z ExitWaiting) (es : list ExitEvent) : bool :=
  match es with
  | [] => true
  | e :: es => exit_event_okb k W e &&
    match exit_step 0x5000 e k W with Some (_, k1, W1) => exit_events_okb k1 W1 es | None => true end
  end.

Lemma exit_sched_okb_sound e k : event_okb k e = true -> event_ok k e.
Proof.
  intros He. assert (events_ok 0x5000 k [e]) as [H _]; [|exact H].
  apply events_okb_sound. cbn. rewrite He. by destruct (run_event _ _ _).
Qed.

Lemma exit_events_okb_sound es k W : exit_events_okb k W es = true -> exit_events_ok 0x5000 k W es.
Proof.
  revert k W. induction es as [|e es IH]; intros k W H; [done|]. cbn [exit_events_okb] in H.
  apply andb_true_iff in H as [He Hes]. split.
  - clear Hes. destruct e; cbn in He |- *; try done.
    + apply negb_true_iff, bool_decide_eq_false in He. by apply eq_None_not_Some.
    + apply andb_true_iff in He as [He Hf]. apply andb_true_iff in He as [Hs Hi].
      apply bool_decide_eq_true in Hs. by apply negb_true_iff in Hi.
    + apply andb_true_iff in He as [He Hb]. split; [by apply exit_sched_okb_sound|]. intros f ->.
      apply negb_true_iff, bool_decide_eq_false in Hb. by apply eq_None_not_Some.
  - intros log k' W' Hk. rewrite Hk in Hes. by apply IH.
Qed.

(** * Scheduling between two pieces of a call *)

Section ExitBetween.
  Context `{KernelStack} (idle_loop : Z).

Lemma exit_sched_run ss k l W :
  exit_wf k l W -> exit_events_ok idle_loop k W (map QSched ss) ->
  exists k' l', exit_run idle_loop (map QSched ss) k W = Some ([], k', W) /\ exit_wf k' l' W /\ calm k k'.
Proof using All.
  revert k l. induction ss as [|e ss IH]; intros k l Hx Hok; [exists k, l; split_and!; [done|done|apply calm_refl]|].
  destruct Hok as [[He _] Hes]. destruct (exit_sched_call idle_loop k l W e Hx He) as (k1 & l1 & Hr & Hx1 & Hca & _).
  assert (exit_step idle_loop (QSched e) k W = Some ([], k1, W)) as Hs by (cbn; by rewrite Hr).
  destruct (IH k1 l1 Hx1 (Hes _ _ _ Hs)) as (k2 & l2 & Hr2 & Hx2 & Hca2). exists k2, l2.
  split_and!; [|done|by eapply calm_trans]. cbn [map exit_run]. rewrite Hs. cbn [mbind option_bind]. by rewrite Hr2.
Qed.

End ExitBetween.

(** * Theorems *)

(** C21. Exit events are neither lost, duplicated nor reordered, and the module
    never halts the machine: from a state that satisfies the invariant, every
    sequence of queue operations, turns of wait loops and scheduling events
    runs to its end, the invariant holds again, and at every queue the events
    held before and those published since are those received, in this order,
    followed by those still held, across closing and destruction too. *)
Theorem exit_queue_fifo `{KernelStack} (idle_loop : Z) (es : list ExitEvent) (k : Kernel) (l : list Z)
    (W : gmap Z ExitWaiting) :
  exit_wf k l W -> exit_events_ok idle_loop k W es ->
  exists log k' W' l', exit_run idle_loop es k W = Some (log, k', W') /\ exit_wf k' l' W' /\
    forall q, queued k q ++ published q log = received q log ++ queued k' q.
Proof.
  intros Hx Hok. destruct (exit_run_ok idle_loop es k l W Hx Hok) as (log & k' & W' & l' & Hr & Hx' & Hfl & _).
  by exists log, k', W', l'.
Qed.

(** No wake-up is lost: after any sequence of events, a thread inside a
    blocking receive whose outcome is settled is on the run list, and one whose
    wait is still pending waits at an open queue that holds no event. *)
Theorem exit_no_lost_wakeup `{KernelStack} (idle_loop : Z) (es : list ExitEvent) (k : Kernel) (l : list Z)
    (W : gmap Z ExitWaiting) :
  exit_wf k l W -> awake k l W -> exit_events_ok idle_loop k W es ->
  exists log k' W' (l' : list Z), exit_run idle_loop es k W = Some (log, k', W') /\ exit_wf k' l' W' /\
    forall t w, W' !! t = Some w ->
      if pending k' t then queued k' (xw_queue w) = [] /\ q_closed (exq k' (xw_queue w)) = false
      else t ∈ l' /\ t_state (thr k' t) <> THREAD_STATE_BLOCKED.
Proof.
  intros Hx Ha Hok. destruct (exit_run_ok idle_loop es k l W Hx Hok) as (log & k' & W' & l' & Hr & Hx' & _ & Haw).
  exists log, k', W', l'. split; [done|]. split; [done|]. intros t w Hw. destruct (pending k' t) eqn:Hp.
  - destruct (ew_idle _ _ _ _ (xf_waiter _ _ _ Hx' t w Hw) Hp) as [Hz Hc]. split; [|done].
    unfold queued. rewrite (pending_events_nil _ Hz). by destruct (queue_live _ _).
  - destruct (Haw Ha t w Hw) as [?|Hin]; [congruence|]. split; [done|].
    apply (member_not_blocked k' l' t); [apply Hx'|done].
Qed.

(** C23. The exit of a watched process reaches the thread blocked on its queue:
    the publication succeeds and makes the thread runnable, and whatever the
    scheduler does until the thread runs, its call returns exactly that exit
    information. *)
Theorem exit_reaches_receiver `{KernelStack} (idle_loop : Z) (k : Kernel) (l : list Z) (W : gmap Z ExitWaiting)
    (t p : Z) (w : ExitWaiting) (info : ProcessExitInfo) :
  exit_wf k l W -> awake k l W -> W !! t = Some w -> pending k t = true ->
  p_exit_queue (prc k p) = xw_queue w -> no_event info = false -> x_process_id info = p_id (prc k p) ->
  exists k1 (l1 : list Z), process_exit_queue_publish_process p info k = Some (true, k1) /\ t ∈ l1 /\ exit_wf k1 l1 W /\
    forall ss k2, exit_events_ok idle_loop k1 W (map QSched ss) ->
      exit_run idle_loop (map QSched ss) k1 W = Some ([], k2, W) -> idle k2 = false -> current_of k2 = t ->
      exists k3 l3, exit_receive_resume w true k2 = Some (XReturned (Some info), k3) /\ exit_wf k3 l3 (delete t W).
Proof.
  intros Hx Ha Hw Hp Hq Hne Hid. set (q := xw_queue w) in *. pose proof (xf_waiter _ _ _ Hx t w Hw) as Hew.
  pose proof (ew_live _ _ _ _ Hew) as Hv. fold q in Hv.
  assert (linked (k := k) p = true) as Hl by (unfold linked; by rewrite Hq, (queue_live_nonnull _ _ Hv)).
  assert (nz p = true) as Hz.
  { destruct (linked_slot (xf_data _ _ _ Hx) p Hl) as (x & l' & _ & _ & _ & _ & Hlive & _).
    apply negb_true_iff, Z.eqb_neq. by apply (process_live_nonnull k). }
  destruct (publish_call_exit Hx p info) as (k1 & Hpub & [(l1 & Hx1 & Hks & Haw) Hfl] & _ & Hlk & _ & Hres).
  assert (publishable (k := k) p info = true) as Hpb.
  { unfold publishable. rewrite Hz, Hl, Hne, Hid, Z.eqb_refl. done. }
  rewrite Hpb, Hl, Hq in *. cbn [andb] in *. specialize (Hres eq_refl).
  pose proof (exit_waiter_nonnull _ _ _ _ Hew) as Ht0.
  assert (t_wait_result (thr k1 t) = THREAD_WAIT_RESULT_COMPLETED) as Ht.
  { rewrite Hres. unfold completes. rewrite Hp. pose proof (ew_view _ _ _ _ Hew) as Hvw. fold q in Hvw.
    unfold wait_view in Hvw. injection Hvw as -> _. rewrite Z.eqb_refl. unfold nz.
    by rewrite (proj2 (Z.eqb_neq t 0)). }
  assert (pending k1 t = false) as Hp1 by (unfold pending; by rewrite Ht).
  exists k1, l1. split_and!; [done|destruct (Haw Ha t w Hw); [congruence|done]|done|].
  intros ss k2 Hok Hrun Hidle Hcur.
  destruct (exit_sched_run idle_loop ss k1 l1 W Hx1 Hok) as (k2' & l2 & Hrun' & Hx2 & Hca). rewrite Hrun in Hrun'.
  injection Hrun' as <-.
  assert (pending_events (exq k2 q) = [info]) as Hev.
  { assert (exq k2 q = exq k1 q) as -> by (unfold exq; by rewrite (ca_rest _ _ Hca)).
    specialize (Hfl q). unfold published, received, queued in Hfl. rewrite Hlk, Hv in Hfl. cbn in Hfl.
    rewrite Z.eqb_refl in Hfl. destruct (ew_idle _ _ _ _ Hew Hp) as [E0 _]. fold q in E0.
    rewrite (pending_events_nil _ E0) in Hfl. by rewrite <- Hfl. }
  rewrite <- Hcur in Hw |- *. destruct (exit_leave_call (k := k2) Hx2 Hw Hidle) as (k3 & Hlv & Hok3).
  { unfold pending. by rewrite (result_calm _ _ _ Hca), Hcur, Ht. }
  unfold exit_outcome in Hlv, Hok3. fold q in Hlv, Hok3. rewrite (result_calm _ _ _ Hca), Hcur, Ht, Hev in Hlv, Hok3.
  destruct Hok3 as (c & k3' & l3 & E & Hx3 & _). cbn in E. injection E as <- <-. cbn in Hlv. exists k3, l3.
  unfold exit_receive_resume. rewrite (exit_iterate_call Hx2 Hw Hidle). unfold pending.
  rewrite (result_calm _ _ _ Hca), Hcur, Ht. cbn. split; [exact Hlv|]. by rewrite Hcur in Hx3.
Qed.

(** A reservation is a guarantee: the first and only publication for a
    watched process always succeeds, whatever else fills the queue; it appends
    the event, drops the link, and leaves the other queues alone. *)
Theorem watched_exit_published (k : Kernel) (l : list Z) (W : gmap Z ExitWaiting) (p : Z) (info : ProcessExitInfo) :
  exit_wf k l W -> p_exit_queue (prc k p) <> 0 -> no_event info = false -> x_process_id info = p_id (prc k p) ->
  let q := p_exit_queue (prc k p) in
  exists k' l', process_exit_queue_publish_process p info k = Some (true, k') /\ exit_wf k' l' W /\
    queued k' q = queued k q ++ [info] /\ (forall q', q' <> q -> queued k' q' = queued k q') /\
    unlinked_process (prc k' p).
Proof.
  intros Hx Hq Hne Hid q. assert (nz q = true) as Hnz by (by apply negb_true_iff, Z.eqb_neq).
  assert (linked (k := k) p = true) as Hl by (unfold linked; by fold q; rewrite Hnz).
  destruct (linked_slot (xf_data _ _ _ Hx) p Hl) as (x & l' & Hv & _ & _ & _ & Hlive & _).
  assert (nz p = true) as Hz by (apply negb_true_iff, Z.eqb_neq; by apply (process_live_nonnull k)).
  destruct (publish_call_exit Hx p info) as (k1 & Hpub & [(l1 & Hx1 & _) Hfl] & Hun & _).
  assert (publishable (k := k) p info = true) as Hpb.
  { unfold publishable. rewrite Hz, Hl, Hne, Hid, Z.eqb_refl. done. }
  rewrite Hpb, Hl in *. cbn [andb] in *. fold q in Hfl. exists k1, l1.
  split_and!; [done|done| | |by apply Hun].
  - specialize (Hfl q). unfold published, received in Hfl. cbn in Hfl. by rewrite Z.eqb_refl in Hfl.
  - intros q' Hn. specialize (Hfl q'). unfold published, received in Hfl. cbn in Hfl.
    rewrite (proj2 (Z.eqb_neq q q')) in Hfl by congruence. by rewrite app_nil_r in Hfl.
Qed.

(** The run-time validity check of the queues is exactly liveness: after
    any sequence of events [queue_valid] accepts every live queue and nothing
    else, the reserved and pending slots fit in the sixteen slots, and the
    pending counter is the number of events held. *)
Theorem exit_queue_validity `{KernelStack} (idle_loop : Z) (es : list ExitEvent) (k : Kernel) (l : list Z)
    (W : gmap Z ExitWaiting) :
  exit_wf k l W -> exit_events_ok idle_loop k W es ->
  exists log k' W', exit_run idle_loop es k W = Some (log, k', W') /\
    forall q, queue_valid k' q = queue_live k' q /\
      (queue_live k' q = true ->
       0 <= process_exit_queue_watch_count k' q /\
       process_exit_queue_watch_count k' q + process_exit_queue_pending_count k' q <= PROCESS_EXIT_QUEUE_CAPACITY /\
       process_exit_queue_pending_count k' q = Z.of_nat (length (queued k' q))).
Proof.
  intros Hx Hok. destruct (exit_run_ok idle_loop es k l W Hx Hok) as (log & k' & W' & l' & Hr & Hx' & _).
  exists log, k', W'. split; [done|]. intros q. split; [by apply (exit_valid k' l' W')|]. intros Hv.
  destruct (xd_queue _ (xf_data _ _ _ Hx') q Hv) as [l2 Hq]. pose proof (qo_ring _ _ _ Hq) as Hring.
  destruct (ring_capacity Hring) as (H1 & H2 & H3). unfold process_exit_queue_watch_count, process_exit_queue_pending_count.
  rewrite Hv, (qo_init _ _ _ Hq). cbn [andb]. split_and!; [lia|lia|].
  unfold queued. rewrite Hv, (ring_pending_events Hring), (ro_count _ _ Hring). unfold ring_events. by rewrite length_map.
Qed.

(** Closing a queue settles it: it succeeds once, keeps the events already
    published, detaches every watched process, gives a pending receiver the
    outcome PEER_CLOSED and makes it runnable; afterwards no process can be
    watched there and a second close is refused, both without effect. *)
Theorem exit_close_settles (k : Kernel) (l : list Z) (W : gmap Z ExitWaiting) (q : Z) :
  exit_wf k l W -> awake k l W -> queue_live k q = true -> q_closed (exq k q) = false ->
  exists k' l', process_exit_queue_close q k = Some (true, k') /\ exit_wf k' l' W /\ queued k' q = queued k q /\
    (forall p, p_exit_queue (prc k' p) <> q) /\
    (forall t w, W !! t = Some w -> xw_queue w = q -> t ∈ l' /\ pending k' t = false /\
       (pending k t = true -> t_wait_result (thr k' t) = THREAD_WAIT_RESULT_PEER_CLOSED)) /\
    (forall p, process_exit_queue_watch q p k' = (false, k')) /\ process_exit_queue_close q k' = Some (false, k').
Proof.
  intros Hx Ha Hv Ho. pose proof (close_call_exit Hx q) as Hc. rewrite Hv, Ho in Hc. cbn [negb andb] in Hc.
  destruct Hc as (k' & Hc & [(l' & Hx' & _ & Haw) Hfl] & Hcl & _ & Hres & Hlk & _). exists k', l'.
  assert (queue_live k' q = true) as Hv' by (by rewrite Hlk). destruct (xd_queue _ (xf_data _ _ _ Hx') q Hv') as [l2 Hq].
  split_and!; [done|done| | | | |].
  - specialize (Hfl q). cbn in Hfl. by rewrite app_nil_r in Hfl.
  - intros p Hp. destruct (xd_link _ (xf_data _ _ _ Hx') p) as [[E _]|(_ & _ & _ & x & Hwx)].
    + apply queue_live_nonnull in Hv. rewrite <- Hp, E in Hv. done.
    + rewrite Hp in Hwx. by apply (qo_closed _ _ _ Hq Hcl p x).
  - intros t w Hw E. pose proof (xf_waiter _ _ _ Hx' t w Hw) as Hew.
    assert (pending k' t = false) as Hp.
    { destruct (pending k' t) eqn:Hp; [|done]. destruct (ew_idle _ _ _ _ Hew Hp) as [_ Hop]. rewrite E in Hop. congruence. }
    split; [|split; [done|]].
    + destruct (Haw Ha t w Hw); [congruence|done].
    + intros Hpt. rewrite Hres. unfold completes. rewrite Hpt.
      pose proof (ew_view _ _ _ _ (xf_waiter _ _ _ Hx t w Hw)) as Hvw. rewrite E in Hvw. unfold wait_view in Hvw.
      injection Hvw as -> _. rewrite Z.eqb_refl. pose proof (exit_waiter_nonnull _ _ _ _ Hew). unfold nz.
      by rewrite (proj2 (Z.eqb_neq t 0)).
  - intros p. pose proof (watch_spec (xf_data _ _ _ Hx') q p (valid_live Hx' q)) as Hs. unfold watchable in Hs.
    by rewrite Hcl, andb_false_r in Hs.
  - pose proof (close_call_exit Hx' q) as Hs. by rewrite Hcl, andb_false_r in Hs.
Qed.

(** * Witnesses *)

Definition demo_exit (pid : Z) : ProcessExitInfo := mkProcessExitInfo PROCESS_EXIT_NORMAL pid 0 0 0 0 0.

(** A receiver blocks on a queue that watches two processes; both exit; the
    receiver is scheduled and takes the first event, the other one is taken
    without blocking; the queue is closed and destroyed. *)
Definition exit_demo_events : list ExitEvent :=
  [QCreate 0x8000; QWatch 0x8000 0x7000; QWatch 0x8000 0x7100; QReceiveBlocking 0x8000; QResume 0x103000;
   QPublish 0x7000 (demo_exit 2); QPublish 0x7100 (demo_exit 3); QSched (EYield 0x203000); QResume 0x103000;
   QTryReceive 0x8000; QClose 0x8000; QDestroy 0x8000].

Lemma exit_demo_ok : exit_events_ok 0x5000 exit_demo ∅ exit_demo_events.
Proof. apply exit_events_okb_sound. by vm_compute. Qed.

Lemma exit_queue_fifo_witness :
  exists log k' W', exit_run 0x5000 exit_demo_events exit_demo ∅ = Some (log, k', W') /\
    published 0x8000 log = received 0x8000 log /\ received 0x8000 log = [demo_exit 2; demo_exit 3].
Proof.
  destruct (exit_queue_fifo 0x5000 exit_demo_events exit_demo [0x1000; 0x2000] ∅ exit_demo_wf exit_demo_ok)
    as (log & k' & W' & l' & Hr & _ & Hf). exists log, k', W'. split; [exact Hr|].
  assert (match exit_run 0x5000 exit_demo_events exit_demo ∅ with
          | Some (log, k, _) => (received 0x8000 log, queued k 0x8000)
          | None => ([], [])
          end = ([demo_exit 2; demo_exit 3], [])) as H1 by (by vm_compute).
  rewrite Hr in H1. injection H1 as H1 H2. split; [|exact H1].
  pose proof (Hf 0x8000) as H3. assert (queued exit_demo 0x8000 = []) as H4 by (by vm_compute).
  by rewrite H2, H4, app_nil_r in H3.
Defined.

Lemma exit_awake_empty k l : awake k l (∅ : gmap Z ExitWaiting).
Proof. intros t w Hw. by rewrite lookup_empty in Hw. Qed.

(** The machine after the receiver has gone to sleep. *)
Definition exit_sleeping : Kernel * gmap Z ExitWaiting :=
  match exit_run 0x5000 (take 5 exit_demo_events) exit_demo ∅ with
  | Some (_, k, W) => (k, W)
  | None => (exit_demo, ∅)
  end.

Lemma exit_sleeping_wf :
  exists l, exit_wf exit_sleeping.1 l exit_sleeping.2 /\ awake exit_sleeping.1 l exit_sleeping.2.
Proof.
  destruct (exit_run_ok 0x5000 (take 5 exit_demo_events) exit_demo [0x1000; 0x2000] ∅ exit_demo_wf)
    as (log & k & W & l & Hr & Hx & _ & Ha); [apply exit_events_okb_sound; by vm_compute|].
  unfold exit_sleeping. rewrite Hr. exists l. split; [exact Hx|]. apply Ha, exit_awake_empty.
Qed.

Lemma exit_no_lost_wakeup_witness :
  exists log k' W' (l' : list Z), exit_run 0x5000 (take 6 exit_demo_events) exit_demo ∅ = Some (log, k', W') /\
    exit_wf k' l' W' /\ forall t w, W' !! t = Some w ->
      if pending k' t then queued k' (xw_queue w) = [] /\ q_closed (exq k' (xw_queue w)) = false
      else t ∈ l' /\ t_state (thr k' t) <> THREAD_STATE_BLOCKED.
Proof.
  apply (exit_no_lost_wakeup 0x5000 (take 6 exit_demo_events) exit_demo [0x1000; 0x2000] ∅ exit_demo_wf (exit_awake_empty _ _)).
  apply exit_events_okb_sound. by vm_compute.
Defined.

Definition demo_exit_wait : ExitWaiting := mkExitWaiting 0x8000 1.

Lemma exit_reaches_receiver_witness :
  exists k1 (l1 : list Z), process_exit_queue_publish_process 0x7000 (demo_exit 2) exit_sleeping.1 = Some (true, k1) /\
    0x1000 ∈ l1 /\ exit_wf k1 l1 exit_sleeping.2.
Proof.
  destruct exit_sleeping_wf as (l & Hx & Ha).
  destruct (exit_reaches_receiver 0x5000 exit_sleeping.1 l exit_sleeping.2 0x1000 0x7000 demo_exit_wait (demo_exit 2) Hx Ha)
    as (k1 & l1 & Hp & Hin & Hx1 & _); [by vm_compute..|].
  exists k1, l1. split; [exact Hp|]. split; [exact Hin|exact Hx1].
Defined.

Lemma watched_exit_published_witness :
  exists k', process_exit_queue_publish_process 0x7100 (demo_exit 3) exit_sleeping.1 = Some (true, k') /\
    queued k' 0x8000 = [demo_exit 3].
Proof.
  destruct exit_sleeping_wf as (l & Hx & _).
  destruct (watched_exit_published exit_sleeping.1 l exit_sleeping.2 0x7100 (demo_exit 3) Hx)
    as (k' & l' & Hp & _ & Hq & _); [by vm_compute..|].
  exists k'. split; [exact Hp|]. assert (p_exit_queue (prc exit_sleeping.1 0x7100) = 0x8000) as E by (by vm_compute).
  rewrite E in Hq. rewrite Hq. by vm_compute.
Defined.

Lemma exit_queue_validity_witness :
  exists log k' W', exit_run 0x5000 exit_demo_events exit_demo ∅ = Some (log, k', W') /\
    forall q, queue_valid k' q = queue_live k' q.
Proof.
  destruct (exit_queue_validity 0x5000 exit_demo_events exit_demo [0x1000; 0x2000] ∅ exit_demo_wf exit_demo_ok)
    as (log & k' & W' & Hr & Hq). exists log, k', W'. split; [exact Hr|]. intros q. apply Hq.
Defined.

Lemma exit_close_settles_witness :
  exists k' (l' : list Z), process_exit_queue_close 0x8000 exit_sleeping.1 = Some (true, k') /\ 0x1000 ∈ l' /\
    t_wait_result (thr k' 0x1000) = THREAD_WAIT_RESULT_PEER_CLOSED.
Proof.
  destruct exit_sleeping_wf as (l & Hx & Ha).
  destruct (exit_close_settles exit_sleeping.1 l exit_sleeping.2 0x8000 Hx Ha)
    as (k' & l' & Hc & _ & _ & _ & Hw & _); [by vm_compute..|].
  exists k', l'. split; [exact Hc|]. destruct (Hw 0x1000 demo_exit_wait) as (Hin & _ & Hp); [by vm_compute..|].
  split; [exact Hin|]. apply Hp. by vm_compute.
Defined.
