(* ===== verification/Process.v ===== *)
(** Processes: [kernel/process.c].

    The queries that other components use are in [Objects] and [Thread]. Here
    are the boot of the kernel process, the list of threads a process owns,
    and the publication of its terminal outcome. [None] is [cpu_halt_forever].
    [process_create] and [process_destroy] need [address_space.c] and are not
    modelled. *)

From S2P Require Import Prelude Pmm ObjectStorage Kernel Objects Capability.
From S2P Require Import Endpoint Thread Scheduler ExitQueue.

Open Scope jcos_scope.

(** * The kernel process *)

(** [k_memset(process, 0, sizeof(Process))], inline members included. *)
Definition process_clear (process : Z) (k : Kernel) : Kernel :=
  let k := set_prc process (fun _ => process_zero) k in
  let k := set_tbl (caps_of process) (fun _ => table_zero) k in
  set_spc (space_of process) (fun _ => space_zero) k.

Definition process_system_init (kernel_space : Z) (k : Kernel) : bool * Kernel :=
  if om_initialized (k_prc k) || !nz kernel_space || !a_kernel (spc k kernel_space)
     || !nz (address_space_cr3 k kernel_space) then (false, k) else
  let k := process_clear g_kernel_process k in
  match capability_table_init (caps_of g_kernel_process) k with
  | (false, k) => (false, k)
  | (true, k) =>
    let k := set_prc g_kernel_process (fun p => p <| p_id := 1 |> <| p_address_space := kernel_space |>
               <| p_kernel := true |> <| p_owns_address_space := false |> <| p_initialized := true |>) k in
    let k := k <| k_prc := mkObjectMod 2 true (storage_set 0 g_kernel_process (om_storage (k_prc k))) |> in
    (true, set_prc g_kernel_process (fun p => p <| p_thread_count := 0 |>) k)
  end.

(** * The threads of a process *)

(** The guard of a list node: [current && current->id && current->process == process]. *)
Definition owned_node (k : Kernel) (process current : Z) : bool :=
  nz current && nz (t_id (thr k current)) && (t_process (thr k current) =? process).

Fixpoint contains_loop (count : nat) (k : Kernel) (process thread current : Z) : bool :=
  match count with
  | O => false
  | S count =>
    if !owned_node k process current then false else
    if current =? thread then true else
    contains_loop count k process thread (t_process_next (thr k current))
  end.

Definition process_thread_contains (k : Kernel) (process thread : Z) : bool :=
  if !process_usable k process || !owned_node k process thread then false else
  contains_loop (Z.to_nat (p_thread_count (prc k process))) k process thread (p_thread_head (prc k process)).

Definition process_thread_first (k : Kernel) (process : Z) : Z :=
  if !process_usable k process || !nz (p_thread_count (prc k process)) then 0
  else p_thread_head (prc k process).

Definition set_next (thread next : Z) (k : Kernel) : Kernel :=
  set_thr thread (fun t => t <| t_process_next := next |>) k.

Definition set_prev (thread prev : Z) (k : Kernel) : Kernel :=
  set_thr thread (fun t => t <| t_process_prev := prev |>) k.

Definition process_thread_attach (process thread : Z) (k : Kernel) : bool * Kernel :=
  let p := prc k process in
  if !process_usable k process || !nz (p_id p) || !owned_node k process thread
     || (p_thread_count p =? 2 ^ 64 - 1) then (false, k) else
  if !no_event (p_exit_info p) then (false, k) else
  if process_thread_contains k process thread then (false, k) else
  if nz (t_process_prev (thr k thread)) || nz (t_process_next (thr k thread)) then (false, k) else
  if !nz (p_thread_count p) then
    if nz (p_thread_head p) || nz (p_thread_tail p) then (false, k) else
    (true, set_prc process (fun p => p <| p_thread_head := thread |> <| p_thread_tail := thread |>
             <| p_thread_count := u64 (p_thread_count p + 1) |>) k)
  else
    if !nz (p_thread_head p) || !nz (p_thread_tail p) || nz (t_process_next (thr k (p_thread_tail p)))
    then (false, k) else
    let k := set_prev thread (p_thread_tail p) k in
    let k := set_next (p_thread_tail p) thread k in
    (true, set_prc process (fun p => p <| p_thread_tail := thread |>
             <| p_thread_count := u64 (p_thread_count p + 1) |>) k).

Fixpoint can_detach_loop (count : nat) (k : Kernel) (process thread current previous : Z) (found : bool) : bool :=
  match count with
  | O => found && !nz current && (previous =? p_thread_tail (prc k process))
  | S count =>
    if !owned_node k process current then false else
    if t_process_prev (thr k current) != previous then false else
    can_detach_loop count k process thread (t_process_next (thr k current)) current (found || (current =? thread))
  end.

Definition process_thread_can_detach (k : Kernel) (process thread : Z) : bool :=
  let p := prc k process in
  if !process_usable k process || !nz (p_id p) || !owned_node k process thread || !nz (p_thread_count p)
  then false else
  if !nz (p_thread_head p) || !nz (p_thread_tail p) then false else
  can_detach_loop (Z.to_nat (p_thread_count p)) k process thread (p_thread_head p) 0 false.

Definition process_thread_detach (process thread : Z) (k : Kernel) : bool * Kernel :=
  if !process_thread_can_detach k process thread then (false, k) else
  let previous := t_process_prev (thr k thread) in
  let next := t_process_next (thr k thread) in
  let k := if nz previous then set_next previous next k
           else set_prc process (fun p => p <| p_thread_head := next |>) k in
  let k := if nz next then set_prev next previous k
           else set_prc process (fun p => p <| p_thread_tail := previous |>) k in
  let k := set_thr thread (fun t => t <| t_process_prev := 0 |> <| t_process_next := 0 |>) k in
  let k := set_prc process (fun p => p <| p_thread_count := u64 (p_thread_count p - 1) |>) k in
  (true, if !nz (p_thread_count (prc k process))
         then set_prc process (fun p => p <| p_thread_head := 0 |> <| p_thread_tail := 0 |>) k else k).

(** * The terminal outcome *)

(** The result and what is written to the output, none when the output aliases
    the canonical record of a live process. *)
Definition process_exit_info (k : Kernel) (process : Z) (aliases : bool) : bool * option ProcessExitInfo :=
  let live := process_usable k process in
  if live && aliases then (false, None) else
  if live && !p_kernel (prc k process) && !no_event (p_exit_info (prc k process))
  then (true, Some (p_exit_info (prc k process))) else (false, Some exit_info_zero).

(** The loop over the threads: whether the named thread was met, none when a
    thread is not stopped. The walk ends at null; the fuel is the number of
    threads the list was just checked to have. *)
Fixpoint publish_scan (count : nat) (k : Kernel) (info : ProcessExitInfo) (t : Z) (found : bool) : option bool :=
  if !nz t then Some found else
  match count with
  | O => None
  | S count =>
    if thread_wait_active k t then None else
    let found := found || (t_id (thr k t) =? x_thread_id info) in
    if t =? thread_current k then
      if (t_id (thr k t) != x_thread_id info) || !state_is k t THREAD_STATE_RUNNING || !t_on_run_queue (thr k t)
      then None else publish_scan count k info (t_process_next (thr k t)) found
    else
      if !state_is k t THREAD_STATE_DEAD || t_on_run_queue (thr k t) || nz (t_run_next (thr k t))
         || t_interrupt_context_ready (thr k t) || nz (t_interrupt_rsp (thr k t))
      then None else publish_scan count k info (t_process_next (thr k t)) found
  end.

Definition process_exit_publish (process : Z) (info : ProcessExitInfo) (k : Kernel) : option (bool * Kernel) :=
  let p := prc k process in
  if !process_usable k process || p_kernel p || !no_event (p_exit_info p) || (x_process_id info != p_id p)
     || !nz (x_thread_id info) || no_event info then Some (false, k) else
  let first := process_thread_first k process in
  if !nz first || !process_thread_can_detach k process first then Some (false, k) else
  match publish_scan (Z.to_nat (p_thread_count p)) k info first false with
  | None => Some (false, k)
  | Some found =>
    if !found || endpoint_process_has_open_owned k (p_id p) then Some (false, k) else
    '(published, k) ← process_exit_queue_publish_process process info k;
    if negb published then Some (false, k) else
    Some (true, set_prc process (fun p => p <| p_exit_info := info |>) k)
  end.
