(* ===== verification/ProcessThreads.v ===== *)
(** The list of threads of a process.

    [thread_list k p l]: the process's counter, its end pointers and the links
    of its threads represent the list [l]. *)

From S2P Require Import Prelude Pmm ObjectStorage Kernel Objects Capability.
From S2P Require Import Endpoint Thread Scheduler ExitQueue Process.

Open Scope jcos_scope.

Notation prev_of k t := (t_process_prev (thr k t)).
Notation next_in k t := (t_process_next (thr k t)).

(** A doubly linked segment between [p] and [n]. *)
Fixpoint segment (k : Kernel) (p : Z) (l : list Z) (n : Z) : Prop :=
  match l with
  | [] => True
  | t :: l => prev_of k t = p /\ next_in k t = hd n l /\ segment k t l n
  end.

Record thread_list (k : Kernel) (p : Z) (l : list Z) : Prop := {
  tl_count : p_thread_count (prc k p) = Z.of_nat (length l);
  tl_head : p_thread_head (prc k p) = hd 0 l;
  tl_tail : p_thread_tail (prc k p) = List.last l 0;
  tl_node : forall t, t ∈ l -> owned_node k p t = true;
  tl_links : segment k 0 l 0 }.

(** * Segments *)

Lemma hd_app {A} (d : A) a b : hd d (a ++ b) = hd (hd d b) a.
Proof. by destruct a. Qed.

Lemma last_cons {A} (x d : A) l : List.last (x :: l) d = List.last l x.
Proof.
  revert d x. induction l as [|y l IH]; intros d x; [done|]. change (List.last (y :: l) d = List.last (y :: l) x).
  by rewrite !IH.
Qed.

Lemma last_member (l : list Z) d : l <> [] -> List.last l d ∈ l.
Proof.
  revert d. induction l as [|x l IH]; intros d Hn; [done|]. rewrite last_cons. destruct l as [|y l]; [set_solver|].
  right. by apply IH.
Qed.

Lemma last_default (l : list Z) d d' : l <> [] -> List.last l d = List.last l d'.
Proof. destruct l as [|x l]; [done|]. intros _. by rewrite !last_cons. Qed.

Lemma last_app_right (a b : list Z) d : b <> [] -> List.last (a ++ b) d = List.last b d.
Proof.
  revert d. induction a as [|x a IH]; intros d Hn; [done|]. cbn [app]. rewrite last_cons, IH by done. by apply last_default.
Qed.

Lemma hd_app_left (a b : list Z) d : a <> [] -> hd d (a ++ b) = hd d a.
Proof. by destruct a. Qed.

Lemma nz_length (l : list Z) : l <> [] -> nz (Z.of_nat (length l)) = true.
Proof. intros Hn. apply negb_true_iff, Z.eqb_neq. destruct l; [done|cbn; lia]. Qed.

Lemma segment_app k p a b n : segment k p (a ++ b) n <-> segment k p a (hd n b) /\ segment k (List.last a p) b n.
Proof.
  revert p. induction a as [|x a IH]; intros p; [cbn; tauto|]. cbn [app segment]. rewrite last_cons, IH, hd_app. tauto.
Qed.

(** The next pointer of the last thread changes. *)
Lemma segment_last k k' p a n n' :
  segment k p a n -> NoDup a -> (forall x, x ∈ a -> prev_of k' x = prev_of k x) ->
  (forall x, x ∈ a -> x <> List.last a 0 -> next_in k' x = next_in k x) ->
  (a <> [] -> next_in k' (List.last a 0) = n') -> segment k' p a n'.
Proof.
  revert p. induction a as [|x a IH]; intros p Hs Hnd Hp Hn Hl; [done|].
  destruct Hs as (Hx & Hxn & Hs). apply list.NoDup_cons in Hnd as [Hxa Hnd]. rewrite last_cons in *.
  split; [rewrite Hp; [done|set_solver]|]. destruct a as [|y a]; [split; [by apply Hl|done]|].
  assert (List.last (y :: a) x ∈ y :: a) as Hin by (by apply last_member).
  assert (List.last (y :: a) 0 = List.last (y :: a) x) as El by (by apply last_default).
  split.
  - rewrite Hn; [done|set_solver|]. intros E. rewrite <- E in Hin. done.
  - apply IH; [done|done|intros z Hz; apply Hp; by right| |].
    + intros z Hz. rewrite El. intros Hne. apply Hn; [by right|done].
    + intros _. rewrite El. by apply Hl.
Qed.

(** The previous pointer of the first thread changes. *)
Lemma segment_first k k' p p' b n :
  segment k p b n -> NoDup b -> (forall x, x ∈ b -> next_in k' x = next_in k x) ->
  (forall x, x ∈ b -> x <> hd 0 b -> prev_of k' x = prev_of k x) ->
  (b <> [] -> prev_of k' (hd 0 b) = p') -> segment k' p' b n.
Proof.
  destruct b as [|x b]; intros Hs Hnd Hn Hp Hh; [done|]. destruct Hs as (_ & Hxn & Hs).
  apply list.NoDup_cons in Hnd as [Hxb _]. cbn [hd] in *.
  split; [by apply Hh|]. split; [rewrite Hn; [done|set_solver]|].
  assert (forall q l, (forall z, z ∈ l -> next_in k' z = next_in k z /\ prev_of k' z = prev_of k z) ->
    segment k q l n -> segment k' q l n) as Hext.
  { intros q l. revert q. induction l as [|y l IH]; intros q He H; [done|]. destruct H as (H1 & H2 & H3).
    destruct (He y) as [E1 E2]; [set_solver|]. split; [congruence|]. split; [congruence|].
    apply IH; [|done]. intros z Hz. apply He. by right. }
  apply Hext; [|done]. intros z Hz. split; [apply Hn; by right|]. apply Hp; [by right|]. intros ->. done.
Qed.

(** A null-terminated list is determined by its first thread. *)
Lemma segment_unique k p q a b :
  (forall t, t ∈ a -> t <> 0) -> (forall t, t ∈ b -> t <> 0) ->
  segment k p a 0 -> segment k q b 0 -> hd 0 a = hd 0 b -> a = b.
Proof.
  revert p q b. induction a as [|x a IH]; intros p q b Ha Hb Hsa Hsb E.
  - destruct b as [|y b]; [done|]. cbn in E. destruct (Hb y); [set_solver|done].
  - destruct b as [|y b]; [cbn in E; destruct (Ha x); [set_solver|done]|]. cbn in E. subst y.
    destruct Hsa as (_ & H1 & Hsa), Hsb as (_ & H2 & Hsb). f_equal.
    apply (IH x x); try done; [intros t Ht; apply Ha; by right|intros t Ht; apply Hb; by right|congruence].
Qed.

Lemma segment_nodup k p l : (forall t, t ∈ l -> t <> 0) -> segment k p l 0 -> NoDup l.
Proof.
  revert p. induction l as [|x l IH]; intros p Hz Hs; [constructor|]. destruct Hs as (H1 & H2 & Hs). constructor.
  - intros Hin. apply list_elem_of_split in Hin as (a & b & ->).
    assert (x :: a ++ x :: b = x :: b) as E.
    { apply (segment_unique k p (List.last a x)); try done.
      - intros t Ht. apply Hz. set_solver.
      - by apply segment_app in Hs as [_ ?]. }
    apply (f_equal length) in E. cbn in E. rewrite length_app in E. cbn in E. lia.
  - apply (IH x); [|done]. intros t Ht. apply Hz. by right.
Qed.

(** * The checks of the code *)

Lemma owned_node_nonnull k p t : owned_node k p t = true -> t <> 0.
Proof. unfold owned_node. intros H ->. done. Qed.

Lemma thread_list_nodup k p l : thread_list k p l -> NoDup l.
Proof. intros H. apply (segment_nodup k 0); [|apply H]. intros t Ht. by apply (owned_node_nonnull k p), H. Qed.

Lemma can_detach_loop_spec n k p t cur prev found :
  can_detach_loop n k p t cur prev found = true <->
  exists l, length l = n /\ hd 0 l = cur /\ segment k prev l 0 /\ (forall x, x ∈ l -> owned_node k p x = true) /\
    (found = true \/ t ∈ l) /\ List.last l prev = p_thread_tail (prc k p).
Proof.
  revert cur prev found. induction n as [|n IH]; intros cur prev found; cbn [can_detach_loop].
  - split.
    + intros H. apply andb_true_iff in H as [H Ht]. apply andb_true_iff in H as [-> Hc].
      apply negb_true_iff, negb_false_iff, Z.eqb_eq in Hc. apply Z.eqb_eq in Ht. exists [].
      split_and!; try done; [set_solver|by left].
    + intros (l & Hl & Hc & _ & _ & Hf & Ht). destruct l; [|done]. cbn in *. subst cur.
      destruct Hf as [->|Hf]; [|set_solver]. by rewrite Ht, Z.eqb_refl.
  - destruct (owned_node k p cur) eqn:Ho; cbn [negb].
    2: { split; [done|]. intros (l & Hl & Hc & _ & Hn & _). destruct l as [|x l]; [done|]. cbn in Hc. subst x.
         rewrite Hn in Ho; [done|set_solver]. }
    destruct (Z.eqb_spec (prev_of k cur) prev) as [Hp|Hp]; cbn [negb].
    2: { split; [done|]. intros (l & Hl & Hc & Hs & _). destruct l as [|x l]; [done|]. cbn in Hc. subst x. by destruct Hs. }
    rewrite IH. split.
    + intros (l & Hl & Hc & Hs & Hn & Hf & Ht). exists (cur :: l). rewrite last_cons. cbn.
      split_and!; try done; [by rewrite Hl| |].
      * intros x [->|Hx]%elem_of_cons; [done|auto].
      * destruct Hf as [Hf|Hf]; [|right; by right]. apply orb_true_iff in Hf as [Hf|Hf]; [by left|].
        apply Z.eqb_eq in Hf. right. subst. by left.
    + intros (l & Hl & Hc & Hs & Hn & Hf & Ht). destruct l as [|x l]; [done|]. cbn in Hc. subst x.
      destruct Hs as (_ & Hnx & Hs). rewrite last_cons in Ht. exists l. split_and!; try done; [by injection Hl|..].
      * intros x Hx. apply Hn. by right.
      * destruct Hf as [->|Hf]; [by left|]. apply elem_of_cons in Hf as [->|Hf]; [|by right].
        left. by rewrite Z.eqb_refl, orb_true_r.
Qed.

Lemma contains_loop_spec k p t l prev :
  segment k prev l 0 -> (forall x, x ∈ l -> owned_node k p x = true) ->
  contains_loop (length l) k p t (hd 0 l) = bool_decide (t ∈ l).
Proof.
  revert prev. induction l as [|x l IH]; intros prev Hs Hn; cbn [contains_loop length hd].
  - by rewrite bool_decide_eq_false_2 by apply not_elem_of_nil.
  - rewrite Hn by set_solver. cbn [negb]. destruct Hs as (_ & Hx & Hs). destruct (Z.eqb_spec x t) as [->|Hne].
    + by rewrite bool_decide_eq_true_2 by set_solver.
    + rewrite Hx, (IH x) by (done || (intros y Hy; apply Hn; by right)).
      apply bool_decide_ext. set_solver.
Qed.

Lemma contains_spec k p l t :
  thread_list k p l -> process_usable k p = true -> process_thread_contains k p t = bool_decide (t ∈ l).
Proof.
  intros Hl Hu. unfold process_thread_contains. rewrite Hu. cbn [negb orb].
  destruct (owned_node k p t) eqn:Ho; cbn [negb].
  - rewrite (tl_count _ _ _ Hl), (tl_head _ _ _ Hl), Nat2Z.id. apply (contains_loop_spec k p t l 0); apply Hl.
  - symmetry. apply bool_decide_eq_false_2. intros Hin. by rewrite (tl_node _ _ _ Hl) in Ho.
Qed.

Lemma list_ends k p l :
  thread_list k p l -> l <> [] ->
  nz (p_thread_count (prc k p)) = true /\ nz (p_thread_head (prc k p)) = true /\ nz (p_thread_tail (prc k p)) = true.
Proof.
  intros Hl Hn. rewrite (tl_count _ _ _ Hl), (tl_head _ _ _ Hl), (tl_tail _ _ _ Hl). unfold nz.
  assert (forall t, t ∈ l -> (t =? 0) = false) as Hz.
  { intros t Ht. apply Z.eqb_neq. by apply (owned_node_nonnull k p), Hl. }
  rewrite (Hz (hd 0 l)), (Hz (List.last l 0)) by (by apply last_member || (destruct l; [done|set_solver])).
  split; [|done]. apply negb_true_iff, Z.eqb_neq. destruct l; [done|cbn; lia].
Qed.

(** The check before a detach decides that the list is well formed and
    contains the thread. *)
Lemma can_detach_spec k p t :
  process_usable k p = true -> nz (p_id (prc k p)) = true ->
  process_thread_can_detach k p t = true <-> exists l, thread_list k p l /\ t ∈ l.
Proof.
  intros Hu Hid. unfold process_thread_can_detach. rewrite Hu, Hid. cbn [negb orb]. split.
  - intros H. if_case_in H; [done|]. if_case_in H; [done|]. apply orb_false_iff in E as [_ Hc].
    apply can_detach_loop_spec in H as (l & Hl & Hh & Hs & Hn & [?|Hin] & Ht); [done|]. exists l. split; [|done].
    split; try done. rewrite Hl. destruct (Z.lt_ge_cases (p_thread_count (prc k p)) 0); [|lia].
    replace (Z.to_nat _) with O in Hl by lia. destruct l; [set_solver|done].
  - intros (l & Hl & Hin). destruct (list_ends k p l Hl) as (-> & -> & ->); [intros ->; set_solver|].
    rewrite (tl_node _ _ _ Hl) by done. cbn [negb orb]. apply can_detach_loop_spec. exists l.
    rewrite (tl_count _ _ _ Hl), Nat2Z.id. destruct Hl. split_and!; try done. by right.
Qed.

(** * Attaching *)

Definition attachable (k : Kernel) (p t : Z) (l : list Z) : bool :=
  process_usable k p && nz (p_id (prc k p)) && owned_node k p t && !(p_thread_count (prc k p) =? 2 ^ 64 - 1)
  && no_event (p_exit_info (prc k p)) && negb (bool_decide (t ∈ l)) && !nz (prev_of k t) && !nz (next_in k t).

(** What an operation on the list of [p] leaves alone. *)
Record list_frame (k k' : Kernel) (p : Z) : Prop := {
  lf_reg : k_prc k' = k_prc k;
  lf_self : prc k' p = (prc k p) <| p_thread_head := p_thread_head (prc k' p) |>
    <| p_thread_tail := p_thread_tail (prc k' p) |> <| p_thread_count := p_thread_count (prc k' p) |>;
  lf_prc : forall q, q <> p -> prc k' q = prc k q;
  lf_thr : forall t, thr k' t = (thr k t) <| t_process_prev := prev_of k' t |> <| t_process_next := next_in k' t |>;
  lf_others : forall t, t_process (thr k t) <> p -> thr k' t = thr k t }.

Lemma frame_node k k' p q t : list_frame k k' p -> owned_node k' q t = owned_node k q t.
Proof. intros [_ _ _ H _]. unfold owned_node. by rewrite (H t). Qed.

(** The lists of the other processes stay. *)
Lemma frame_list k k' p q l : list_frame k k' p -> q <> p -> thread_list k q l -> thread_list k' q l.
Proof.
  intros Hf Hne [H1 H2 H3 H4 H5]. assert (forall t, t ∈ l -> thr k' t = thr k t) as Ht.
  { intros t Ht. apply Hf. intros E. apply H4 in Ht. unfold owned_node in Ht. apply andb_true_iff in Ht as [_ Ht].
    apply Z.eqb_eq in Ht. congruence. }
  split; rewrite ?(lf_prc _ _ _ Hf) by done; try done.
  - intros t Hin. rewrite (frame_node k k' p) by done. by apply H4.
  - assert (forall a, segment k a l 0 -> segment k' a l 0) as H; [|by apply H].
    clear -Ht. induction l as [|x l IH]; intros a; [done|]. cbn [segment]. rewrite (Ht x) by set_solver.
    intros (? & ? & ?). split_and!; try done. apply IH; [|done]. intros t Hin. apply Ht. by right.
Qed.

Lemma node_owner k p t : owned_node k p t = true -> t_process (thr k t) = p.
Proof. unfold owned_node. intros H. apply andb_true_iff in H as [_ H]. by apply Z.eqb_eq in H. Qed.

Lemma segment_end k p l n : segment k p l n -> l <> [] -> next_in k (List.last l 0) = n.
Proof.
  intros Hs Hn. destruct (exists_last Hn) as (a & x & ->). apply segment_app in Hs as [_ (_ & H & _)].
  by rewrite List.last_last.
Qed.

Lemma attach_spec k p t l :
  thread_list k p l -> p_thread_count (prc k p) < 2 ^ 64 ->
  if attachable k p t l then
    exists k', process_thread_attach p t k = (true, k') /\ thread_list k' p (l ++ [t]) /\ list_frame k k' p
  else process_thread_attach p t k = (false, k).
Proof.
  intros Hl Hb. unfold attachable, process_thread_attach. destruct (process_usable k p) eqn:Hu; [|done].
  rewrite (contains_spec k p l t Hl Hu). destruct (nz (p_id _)); [|done]. destruct (owned_node k p t) eqn:Ho; [|done].
  cbn [negb orb andb]. destruct (Z.eqb_spec (p_thread_count (prc k p)) (2 ^ 64 - 1)) as [?|Hmax]; [done|].
  destruct (no_event _); [|done]. cbn [negb andb]. case_bool_decide as Hin; [done|].
  destruct (nz (prev_of k t)) eqn:Hp0; [done|]. destruct (nz (next_in k t)) eqn:Hn0; [done|]. cbn [negb andb orb].
  apply negb_false_iff, Z.eqb_eq in Hp0, Hn0.
  assert (u64 (p_thread_count (prc k p) + 1) = Z.of_nat (length (l ++ [t]))) as Hcnt.
  { rewrite (tl_count _ _ _ Hl) in *. rewrite length_app. cbn. unfold u64. rewrite Z.mod_small by lia. lia. }
  destruct (decide (l = [])) as [->|Hne].
  - rewrite (tl_count _ _ _ Hl), (tl_head _ _ _ Hl), (tl_tail _ _ _ Hl) in *. cbn [length hd List.last Z.of_nat nz negb orb] in *.
    eexists. split; [reflexivity|]. set (f := fun p => _ <| p_thread_count := _ |>).
    assert (prc (set_prc p f k) p = f (prc k p)) as E by (rewrite prc_set; by rewrite decide_True).
    split; [split; rewrite ?E; try done|split; try done].
    + unfold f. upd_simpl. rewrite (tl_count _ _ _ Hl). done.
    + intros u Hin'. apply list_elem_of_singleton in Hin'. by subst u.
    + rewrite E. unfold f. by destruct (prc k p).
    + intros q Hq. rewrite prc_set. by rewrite decide_False.
    + intros u. change (thr (set_prc p f k) u) with (thr k u). by destruct (thr k u).
  - destruct (list_ends k p l Hl Hne) as (-> & -> & ->). rewrite (tl_tail _ _ _ Hl), (segment_end _ _ _ _ (tl_links _ _ _ Hl) Hne).
    cbn [negb orb nz]. change (nz 0) with false. cbn iota. set (x := List.last l 0). assert (x ∈ l) as Hx by (by apply last_member).
    assert (t <> x) as Htx by (intros ->; done). eexists. split; [reflexivity|]. set (k' := set_prc _ _ _).
    assert (forall u, thr k' u = if decide (x = u) then (thr k x) <| t_process_next := t |>
                       else if decide (t = u) then (thr k t) <| t_process_prev := x |> else thr k u) as Ht.
    { intros u. unfold k', set_next, set_prev. change (thr (set_prc ?a ?b ?c) u) with (thr c u). rewrite !thr_set.
      repeat case_decide; congruence. }
    assert (prc k' p = (prc k p) <| p_thread_tail := t |> <| p_thread_count := u64 (p_thread_count (prc k p) + 1) |>) as Hp
      by (unfold k'; rewrite prc_set; by rewrite decide_True).
    assert (list_frame k k' p) as Hf.
    { split; [done| |..].
      - rewrite Hp. by destruct (prc k p).
      - intros q Hq. unfold k'. rewrite prc_set. by rewrite decide_False.
      - intros u. rewrite Ht. repeat case_decide; subst u || idtac; match goal with |- context [thr k ?v] => by destruct (thr k v) end.
      - intros u Hpu. rewrite Ht. rewrite decide_False, decide_False; [done| |]; intros <-; apply Hpu; apply node_owner; [done|by apply Hl]. }
    split; [|done]. split; rewrite ?Hp; upd_simpl.
    + done.
    + rewrite (tl_head _ _ _ Hl). by destruct l.
    + by rewrite List.last_last.
    + intros u Hin'. rewrite (frame_node k k' p) by done. apply elem_of_app in Hin' as [?|?%list_elem_of_singleton]; [by apply Hl|by subst].
    + apply segment_app. split.
      * apply (segment_last k k' 0 l 0); [apply Hl|by apply (thread_list_nodup k p)|..].
        -- intros u Hin'. rewrite Ht. repeat case_decide; subst; done.
        -- intros u Hin' Hnu. rewrite Ht. rewrite decide_False by (by intros <-). by rewrite decide_False by (by intros <-).
        -- intros _. fold x. rewrite Ht. by rewrite decide_True.
      * cbn. rewrite Ht, decide_False, decide_True by congruence. done.
Qed.

(** * Detaching *)

(** The two links around a thread after it is taken out. *)
Definition unlink_prev (p previous next : Z) (k : Kernel) : Kernel :=
  if nz previous then set_next previous next k else set_prc p (fun p => p <| p_thread_head := next |>) k.

Definition unlink_next (p previous next : Z) (k : Kernel) : Kernel :=
  if nz next then set_prev next previous k else set_prc p (fun p => p <| p_thread_tail := previous |>) k.

Lemma unlink_prev_thr p a n k u :
  thr (unlink_prev p a n k) u = if nz a && (u =? a) then (thr k u) <| t_process_next := n |> else thr k u.
Proof.
  unfold unlink_prev, set_next. destruct (nz a); [|done]. rewrite thr_set. cbn [andb].
  destruct (Z.eqb_spec u a) as [->|Hne]; case_decide; congruence.
Qed.

Lemma unlink_next_thr p a n k u :
  thr (unlink_next p a n k) u = if nz n && (u =? n) then (thr k u) <| t_process_prev := a |> else thr k u.
Proof.
  unfold unlink_next, set_prev. destruct (nz n); [|done]. rewrite thr_set. cbn [andb].
  destruct (Z.eqb_spec u n) as [->|Hne]; case_decide; congruence.
Qed.

Lemma unlink_prev_prc p a n k q :
  prc (unlink_prev p a n k) q = if !nz a && (q =? p) then (prc k q) <| p_thread_head := n |> else prc k q.
Proof.
  unfold unlink_prev. destruct (nz a); [done|]. rewrite prc_set. cbn [andb negb].
  destruct (Z.eqb_spec q p) as [->|Hne]; case_decide; congruence.
Qed.

Lemma unlink_next_prc p a n k q :
  prc (unlink_next p a n k) q = if !nz n && (q =? p) then (prc k q) <| p_thread_tail := a |> else prc k q.
Proof.
  unfold unlink_next. destruct (nz n); [done|]. rewrite prc_set. cbn [andb negb].
  destruct (Z.eqb_spec q p) as [->|Hne]; case_decide; congruence.
Qed.

(** The thread's links and the counter; an empty list has null ends. *)
Definition unlink_self (p t : Z) (k : Kernel) : Kernel :=
  let k := set_thr t (fun t => t <| t_process_prev := 0 |> <| t_process_next := 0 |>) k in
  let k := set_prc p (fun p => p <| p_thread_count := u64 (p_thread_count p - 1) |>) k in
  if !nz (p_thread_count (prc k p)) then set_prc p (fun p => p <| p_thread_head := 0 |> <| p_thread_tail := 0 |>) k else k.

Lemma unlink_self_thr p t k u :
  thr (unlink_self p t k) u = if u =? t then (thr k u) <| t_process_prev := 0 |> <| t_process_next := 0 |> else thr k u.
Proof.
  unfold unlink_self. set (k1 := set_thr _ _ _). cbn zeta.
  transitivity (thr k1 u); [by destruct (negb _)|]. unfold k1. rewrite thr_set.
  destruct (Z.eqb_spec u t) as [->|Hne]; case_decide; congruence.
Qed.

Lemma unlink_self_prc p t k q :
  prc (unlink_self p t k) q =
    if q =? p then
      let c := u64 (p_thread_count (prc k p) - 1) in
      (prc k p) <| p_thread_count := c |> <| p_thread_head := (if nz c then p_thread_head (prc k p) else 0) |>
                <| p_thread_tail := (if nz c then p_thread_tail (prc k p) else 0) |>
    else prc k q.
Proof.
  unfold unlink_self. set (k1 := set_thr _ _ _). cbn zeta. change (prc k1 ?x) with (prc k x).
  rewrite prc_set, decide_True by done. change (prc k1 p) with (prc k p). upd_simpl.
  set (c := u64 _). destruct (Z.eqb_spec q p) as [->|Hne].
  - destruct (nz c); cbn [negb]; rewrite !prc_set, !decide_True by done; change (prc k1 p) with (prc k p);
      by destruct (prc k p).
  - destruct (nz c); cbn [negb]; rewrite !prc_set, !decide_False by done; done.
Qed.

Section Detach.
  Context {k : Kernel} {p t : Z} {a b : list Z} (Hl : thread_list k p (a ++ t :: b)).

  Local Notation x := (List.last a 0).
  Local Notation y := (hd 0 b).
  Local Notation k' := (unlink_self p t (unlink_next p x y (unlink_prev p x y k))).

Lemma detach_around : prev_of k t = x /\ next_in k t = y /\ segment k 0 a t /\ segment k t b 0.
Proof using Hl. pose proof (tl_links _ _ _ Hl) as Hs. by apply segment_app in Hs as (? & ? & ? & ?). Qed.

Lemma detach_nonnull u : u ∈ a ++ t :: b -> nz u = true.
Proof using Hl. intros Hin. apply negb_true_iff, Z.eqb_neq. by apply (owned_node_nonnull k p), Hl. Qed.

(** The neighbours exist exactly when their side of the list is not empty. *)
Lemma detach_sides :
  ((a = [] /\ nz x = false) \/ (a <> [] /\ nz x = true)) /\ ((b = [] /\ nz y = false) \/ (b <> [] /\ nz y = true)).
Proof using Hl.
  split.
  - destruct (decide (a = [])) as [->|Hn]; [by left|right]. split; [done|].
    apply detach_nonnull. apply elem_of_app. left. by apply last_member.
  - destruct (decide (b = [])) as [->|Hn]; [by left|right]. split; [done|].
    apply detach_nonnull. apply elem_of_app. right. right. destruct b; [done|left].
Qed.

Lemma detach_far u : u ∉ a -> nz x && (u =? x) = false.
Proof using Hl.
  intros Hn. destruct detach_sides as [[[_ ->]|[Ha ->]] _]; [done|]. apply Z.eqb_neq. intros ->. by apply Hn, last_member.
Qed.

Lemma detach_near u : u ∉ b -> nz y && (u =? y) = false.
Proof using Hl.
  intros Hn. destruct detach_sides as [_ [[_ ->]|[Hb ->]]]; [done|]. apply Z.eqb_neq. intros ->. apply Hn.
  destruct b; [done|left].
Qed.

Lemma detach_nodup : NoDup a /\ NoDup b /\ t ∉ a /\ t ∉ b /\ forall u, u ∈ a -> u ∉ b.
Proof using Hl.
  pose proof (thread_list_nodup _ _ _ Hl) as Hnd. apply list.NoDup_app in Hnd as (H1 & H2 & H3).
  apply list.NoDup_cons in H3 as [H3 H4]. split_and!; try done; [intros Hin; apply (H2 t Hin); set_solver|].
  intros u Hu Hu'. apply (H2 u Hu). by right.
Qed.

Lemma detach_thr u :
  thr k' u = if u =? t then (thr k u) <| t_process_prev := 0 |> <| t_process_next := 0 |>
             else (thr k u) <| t_process_prev := (if nz y && (u =? y) then x else prev_of k u) |>
                            <| t_process_next := (if nz x && (u =? x) then y else next_in k u) |>.
Proof using.
  rewrite unlink_self_thr, unlink_next_thr, unlink_prev_thr.
  destruct (u =? t), (nz y && (u =? y)), (nz x && (u =? x)); by destruct (thr k u).
Qed.

Lemma detach_frame : list_frame k k' p.
Proof using Hl.
  split.
  - unfold unlink_self, unlink_next, unlink_prev. by destruct (nz x), (nz y), (negb _).
  - rewrite unlink_self_prc, Z.eqb_refl, unlink_next_prc, unlink_prev_prc.
    destruct (_ && _), (_ && _); by destruct (prc k p).
  - intros q Hq. apply Z.eqb_neq in Hq. rewrite unlink_self_prc, Hq, unlink_next_prc, Hq, unlink_prev_prc, Hq.
    by rewrite !andb_false_r.
  - intros u. rewrite detach_thr. destruct (u =? t); by destruct (thr k u).
  - intros u Hu. assert (u ∉ a ++ t :: b) as Hn by (intros Hin; apply Hu, node_owner; by apply Hl).
    rewrite detach_thr, detach_far, detach_near by set_solver.
    assert ((u =? t) = false) as -> by (apply Z.eqb_neq; intros ->; apply Hn; set_solver).
    by destruct (thr k u).
Qed.

Lemma detach_list : p_thread_count (prc k p) < 2 ^ 64 -> thread_list k' p (a ++ b).
Proof using Hl.
  intros Hb. destruct detach_around as (Hpt & Hnt & Hsa & Hsb). destruct detach_nodup as (Ha & Hbn & Hta & Htb & Hab).
  destruct detach_sides as [Hx Hy]. pose proof detach_frame as Hf. pose proof detach_far as Hfar. pose proof detach_near as Hnear.
  pose proof detach_thr as Hthr.
  assert (forall u, u ∈ a ++ b -> (u =? t) = false) as Hut.
  { intros u Hu. apply Z.eqb_neq. intros ->. by apply elem_of_app in Hu as [?|?]. }
  assert (u64 (p_thread_count (prc k p) - 1) = Z.of_nat (length (a ++ b))) as Hc.
  { pose proof (tl_count _ _ _ Hl) as E. rewrite length_app in E |- *. cbn [length] in E. unfold u64.
    rewrite Z.mod_small by lia. lia. }
  assert (prc k' p = (prc k p) <| p_thread_count := Z.of_nat (length (a ++ b)) |> <| p_thread_head := hd 0 (a ++ b) |>
            <| p_thread_tail := List.last (a ++ b) 0 |>) as Hp.
  { rewrite unlink_self_prc, Z.eqb_refl, unlink_next_prc, unlink_prev_prc, Z.eqb_refl, !andb_true_r.
    pose proof (tl_head _ _ _ Hl) as Hh. pose proof (tl_tail _ _ _ Hl) as Ht. clear -Hx Hy Hc Hh Ht.
    destruct Hx as [[-> ->]|[Hna ->]], Hy as [[-> ->]|[Hnb ->]]; cbn [negb]; upd_simpl; rewrite Hc.
    - by destruct (prc k p).
    - cbn [app] in *. rewrite nz_length, Ht, last_cons, (last_default b t 0) by done. by destruct (prc k p).
    - rewrite app_nil_r in *. rewrite nz_length, Hh, hd_app_left by done. by destruct (prc k p).
    - rewrite nz_length by (by destruct a). rewrite Hh, Ht, !hd_app_left, !last_app_right, last_cons, (last_default b t 0) by done.
      by destruct (prc k p). }
  split; rewrite ?Hp; try done.
  - intros u Hu. rewrite (frame_node k k' p) by done. apply Hl. set_solver.
  - apply segment_app. split.
    + apply (segment_last k k' 0 a t); [done|done|..].
      * intros u Hu. rewrite Hthr, Hut, Hnear by (auto; set_solver). done.
      * intros u Hu Hne. rewrite Hthr, Hut by set_solver. upd_simpl. apply Z.eqb_neq in Hne. by rewrite Hne, andb_false_r.
      * intros Hne. rewrite Hthr, Hut by (apply elem_of_app; left; by apply last_member). upd_simpl.
        destruct Hx as [[? _]|[_ ->]]; [done|]. by rewrite Z.eqb_refl.
    + apply (segment_first k k' t); [done|done|..].
      * intros u Hu. rewrite Hthr, Hut, Hfar by (set_solver || (intros Hua; by apply (Hab u))). done.
      * intros u Hu Hne. rewrite Hthr, Hut by set_solver. upd_simpl. apply Z.eqb_neq in Hne. by rewrite Hne, andb_false_r.
      * intros Hne. rewrite Hthr, Hut by (apply elem_of_app; right; destruct b; [done|left]). upd_simpl.
        destruct Hy as [[? _]|[_ ->]]; [done|]. by rewrite Z.eqb_refl.
Qed.

End Detach.

Lemma detach_spec k p t a b :
  process_usable k p = true -> nz (p_id (prc k p)) = true -> p_thread_count (prc k p) < 2 ^ 64 ->
  thread_list k p (a ++ t :: b) ->
  exists k', process_thread_detach p t k = (true, k') /\ thread_list k' p (a ++ b) /\ list_frame k k' p /\
    prev_of k' t = 0 /\ next_in k' t = 0.
Proof.
  intros Hu Hid Hb Hl. destruct (detach_around Hl) as (Hp & Hn & _).
  assert (process_thread_can_detach k p t = true) as Hc.
  { apply can_detach_spec; [done|done|]. exists (a ++ t :: b). split; [done|set_solver]. }
  unfold process_thread_detach. rewrite Hc, Hp, Hn. eexists. split; [reflexivity|].
  split; [by apply (detach_list Hl)|]. split; [by apply (detach_frame Hl)|].
  pose proof (detach_thr (k := k) (p := p) (t := t) (a := a) (b := b) t) as Ht. rewrite Z.eqb_refl in Ht.
  unfold unlink_self, unlink_next, unlink_prev in Ht. by rewrite Ht.
Qed.

Lemma detach_refused k p t :
  process_thread_can_detach k p t = false -> process_thread_detach p t k = (false, k).
Proof. intros H. unfold process_thread_detach. by rewrite H. Qed.

(** What the frame keeps of the process itself. *)
Lemma frame_self k k' p :
  list_frame k k' p -> process_usable k' p = process_usable k p /\ p_id (prc k' p) = p_id (prc k p) /\
    p_exit_info (prc k' p) = p_exit_info (prc k p).
Proof.
  intros Hf. unfold process_usable, process_storage_live. rewrite (lf_reg _ _ _ Hf), (lf_self _ _ _ Hf). done.
Qed.
