(* ===== verification/ProcessTheorems.v ===== *)
(** The theorems of processes: their lists of threads and their terminal
    outcome, which composes with the exit queues. *)

From S2P Require Import Prelude Pmm ObjectStorage Kernel Objects Capability.
From S2P Require Import Endpoint Thread Scheduler SchedulerProofs SchedulerWf.
From S2P Require Import Ipc IpcWf IpcOps IpcCalls SchedulerTheorems.
From S2P Require Import ExitQueue ExitRing ExitData ExitWaits ExitBlocking.
From S2P Require Import ExitTheorems Process ProcessThreads.

Open Scope jcos_scope.

(** * The walk before a publication *)

(** A thread of an ending process: stopped, or the current thread that ends it. *)
Definition stopped (k : Kernel) (info : ProcessExitInfo) (t : Z) : bool :=
  !thread_wait_active k t &&
  (if t =? thread_current k
   then (t_id (thr k t) =? x_thread_id info) && state_is k t THREAD_STATE_RUNNING && t_on_run_queue (thr k t)
   else state_is k t THREAD_STATE_DEAD && !t_on_run_queue (thr k t) && !nz (t_run_next (thr k t))
        && !t_interrupt_context_ready (thr k t) && !nz (t_interrupt_rsp (thr k t))).

Lemma publish_scan_spec k p info l n prev found :
  segment k prev l 0 -> (forall t, t ∈ l -> owned_node k p t = true) -> (length l <= n)%nat ->
  publish_scan n k info (hd 0 l) found =
    if forallb (stopped k info) l then Some (found || existsb (fun t => t_id (thr k t) =? x_thread_id info) l) else None.
Proof.
  revert n prev found. induction l as [|x l IH]; intros n prev found Hs Hn Hlen.
  { cbn. rewrite orb_false_r. by destruct n. }
  destruct n as [|n]; [cbn in Hlen; lia|]. destruct Hs as (_ & Hx & Hs). cbn [hd publish_scan forallb existsb].
  assert (nz x = true) as -> by (apply negb_true_iff, Z.eqb_neq; apply (owned_node_nonnull k p), Hn; set_solver).
  cbn [negb]. unfold stopped at 1. rewrite Hx.
  assert (forall f, publish_scan n k info (hd 0 l) f = if forallb (stopped k info) l
    then Some (f || existsb (fun t => t_id (thr k t) =? x_thread_id info) l) else None) as IH'.
  { intros f. apply (IH n x f Hs); [intros t Ht; apply Hn; by right|cbn in Hlen; lia]. }
  destruct (thread_wait_active k x); [done|]. cbn [negb andb]. destruct (x =? thread_current k).
  - destruct (t_id (thr k x) =? x_thread_id info) eqn:E; [|done]. cbn [negb orb andb].
    destruct (state_is k x THREAD_STATE_RUNNING); [|done]. destruct (t_on_run_queue (thr k x)); [|done]. cbn [negb orb andb].
    rewrite IH'. by destruct found.
  - destruct (state_is k x THREAD_STATE_DEAD); [|done]. destruct (t_on_run_queue (thr k x)); [done|].
    destruct (nz (t_run_next (thr k x))); [done|]. destruct (t_interrupt_context_ready (thr k x)); [done|].
    destruct (nz (t_interrupt_rsp (thr k x))); [done|]. cbn [negb orb andb]. rewrite IH'. by rewrite orb_assoc.
Qed.

(** * The invariant of the exit queues does not read the outcome *)

Lemma exit_data_links k k' :
  exit_frame k k' -> (forall q, exq k' q = exq k q) -> (forall p, exit_links (prc k' p) = exit_links (prc k p)) ->
  exit_data k -> exit_data k'.
Proof.
  intros Hf He Hl [Hr Hq Hk]. split.
  - by rewrite (ef_reg _ _ Hf).
  - intros q. rewrite (frame_queue_live k k') by done. intros Hv. destruct (Hq q Hv) as [l Hl']. exists l.
    by apply (queue_ok_ext k).
  - intros p. specialize (Hl p). unfold exit_links in Hl. injection Hl as E1 E2. unfold link_ok, unlinked_process.
    rewrite E1, E2, (frame_process_live k k'), (frame_queue_live k k'), He by done.
    destruct (Hk p) as [?|(? & ? & ? & x & Hx)]; [by left|right]. split_and!; try done. exists x.
    unfold watches in *. by rewrite He.
Qed.

(** Writes to a process that neither the scheduler nor the queues read. *)
Lemma process_write_only k p f :
  (forall P, process_fields (f P) = process_fields P /\ p_id (f P) = p_id P) -> exit_only k (set_prc p f k).
Proof. intros Hf. split; [by destruct k| |]; intros q; rewrite prc_set; case_decide; try done; subst; apply Hf. Qed.

Lemma process_write_wf k l W p f :
  (forall P, process_fields (f P) = process_fields P /\ p_id (f P) = p_id P) ->
  (forall P, exit_links (f P) = exit_links P) -> exit_wf k l W -> exit_wf (set_prc p f k) l W.
Proof.
  intros Hf Hl Hx. pose proof (process_write_only k p f Hf) as Ho. apply (data_wf k); try done.
  - apply (exit_data_links k); [by apply exit_only_frame|done| |apply Hx].
    intros q. rewrite prc_set. case_decide; [subst; apply Hl|done].
  - intros t w Hw. apply (ew_idle _ _ _ _ (xf_waiter _ _ _ Hx t w Hw)).
Qed.

Definition record_exit (p : Z) (info : ProcessExitInfo) (k : Kernel) : Kernel :=
  set_prc p (fun p => p <| p_exit_info := info |>) k.

(** * Publication *)

(** When a process with the threads [l] may publish [info]. *)
Definition may_publish (k : Kernel) (p : Z) (info : ProcessExitInfo) (l : list Z) : bool :=
  process_usable k p && !p_kernel (prc k p) && no_event (p_exit_info (prc k p)) && nz (p_id (prc k p))
  && (x_process_id info =? p_id (prc k p)) && nz (x_thread_id info) && !no_event info
  && forallb (stopped k info) l && existsb (fun t => t_id (thr k t) =? x_thread_id info) l
  && !endpoint_process_has_open_owned k (p_id (prc k p)).

Lemma usable_nonnull k p : process_usable k p = true -> p <> 0.
Proof.
  unfold process_usable. intros H. apply andb_true_iff in H as [H _]. apply andb_true_iff in H as [_ H].
  by apply (process_live_nonnull k).
Qed.

Lemma first_spec k p l : thread_list k p l -> process_usable k p = true -> process_thread_first k p = hd 0 l.
Proof.
  intros Hl Hu. unfold process_thread_first. rewrite Hu. cbn [negb orb]. destruct (decide (l = [])) as [->|Hn].
  - by rewrite (tl_count _ _ _ Hl).
  - destruct (list_ends k p l Hl Hn) as (-> & _ & _). apply Hl.
Qed.

(** A refused publication changes nothing; an accepted one records the outcome
    and appends it to the queue that watches the process. *)
Lemma exit_publish_spec k l W p info threads :
  exit_wf k l W -> thread_list k p threads ->
  if may_publish k p info threads then
    exists k' l', process_exit_publish p info k = Some (true, k') /\ exit_wf k' l' W /\
      p_exit_info (prc k' p) = info /\ process_usable k' p = process_usable k p /\ p_kernel (prc k' p) = p_kernel (prc k p) /\
      xflow k k' (if linked (k := k) p then [XPublish (p_exit_queue (prc k p)) info] else []) /\
      keeps_sched k k' l l' /\ (awake k l W -> awake k' l' W) /\
      exists k1, process_exit_queue_publish_process p info k = Some (true, k1) /\ k' = record_exit p info k1
  else process_exit_publish p info k = Some (false, k).
Proof.
  intros Hx Hl. unfold may_publish, process_exit_publish. destruct (process_usable k p) eqn:Hu; [|done].
  destruct (p_kernel _) eqn:Hkern; [done|]. destruct (no_event (p_exit_info _)); [|done]. cbn [negb orb andb].
  destruct (x_process_id info =? p_id (prc k p)) eqn:Hpid; [|by rewrite andb_false_r].
  destruct (nz (x_thread_id info)); [|by rewrite !andb_false_r].
  destruct (no_event info) eqn:Hne; [by rewrite !andb_false_r|]. cbn [negb orb andb]. rewrite !andb_true_r.
  rewrite (first_spec k p threads Hl Hu).
  destruct (nz (p_id (prc k p))) eqn:Hid; cbn [andb].
  2: { assert (process_thread_can_detach k p (hd 0 threads) = false) as ->.
       { unfold process_thread_can_detach. by rewrite Hid, orb_true_r. }
       by rewrite orb_true_r. }
  destruct (decide (threads = [])) as [->|Hn]; [done|].
  assert (hd 0 threads ∈ threads) as Hin by (destruct threads; [done|left]).
  assert (nz (hd 0 threads) = true) as -> by (apply negb_true_iff, Z.eqb_neq; apply (owned_node_nonnull k p), Hl, Hin).
  assert (process_thread_can_detach k p (hd 0 threads) = true) as -> by (apply can_detach_spec; [done|done|by exists threads]).
  cbn [negb orb]. rewrite (publish_scan_spec k p info threads _ 0 false);
    [|apply Hl|apply Hl|rewrite (tl_count _ _ _ Hl); lia].
  destruct (forallb (stopped k info) threads); [|done]. cbn [orb andb].
  destruct (existsb _ threads); [|done]. cbn [negb orb andb]. destruct (endpoint_process_has_open_owned _ _); [done|].
  cbn [negb].
  destruct (publish_call_exit Hx p info) as (k1 & Hpub & [(l1 & Hx1 & Hks & Haw) Hfl] & _ & Hlk & (Hprc & Hfields) & _).
  assert (publishable (k := k) p info = true) as Hpb.
  { unfold publishable. rewrite Hne, Hpid. apply usable_nonnull in Hu. unfold nz at 1. rewrite (proj2 (Z.eqb_neq p 0)) by done.
    by rewrite orb_true_r. }
  rewrite Hpb in *. rewrite Hpub. cbn [mbind option_bind negb andb] in *.
  exists (record_exit p info k1), l1. split; [done|]. split; [by apply process_write_wf|].
  assert (prc (record_exit p info k1) p = (prc k1 p) <| p_exit_info := info |>) as E
    by (unfold record_exit; rewrite prc_set; by rewrite decide_True).
  specialize (Hfields p). unfold process_fields in Hfields. injection Hfields as _ Hk1 Hi1.
  rewrite E. upd_simpl. split_and!; [done| |congruence|done|by destruct Hks; split|done|by exists k1].
  unfold process_usable, process_storage_live in *. rewrite E. upd_simpl.
  change (k_prc (record_exit p info k1)) with (k_prc k1). by rewrite Hprc, Hi1, Hu.
Qed.

Lemma filter_keeps (P : Z -> Prop) `{!forall x, Decision (P x)} (l : list Z) : (forall x, x ∈ l -> P x) -> filter P l = l.
Proof.
  induction l as [|x l IH]; intros HP; [done|]. rewrite filter_cons_True by (apply HP; left). f_equal. apply IH.
  intros y Hy. apply HP. by right.
Qed.

(** The appended event as the queues see it. *)
Lemma published_queue k k' p info :
  xflow k k' (if linked (k := k) p then [XPublish (p_exit_queue (prc k p)) info] else []) ->
  forall q, queued k' q = queued k q ++ (if linked (k := k) p && (p_exit_queue (prc k p) =? q) then [info] else []).
Proof.
  intros Hfl q. specialize (Hfl q). unfold published, received in Hfl.
  destruct (linked (k := k) p); cbn in Hfl |- *; [|by rewrite !app_nil_r in *].
  by destruct (p_exit_queue (prc k p) =? q); cbn in Hfl |- *; rewrite ?app_nil_r in *.
Qed.

(** * Theorems *)

(** The check before a detach decides well-formedness: for a live process
    [process_thread_can_detach] accepts a thread exactly when the counter, both
    ends and all links of the process represent some list of its own threads
    and the thread is on it. *)
Theorem can_detach_decides (k : Kernel) (p t : Z) :
  process_usable k p = true -> nz (p_id (prc k p)) = true ->
  process_thread_can_detach k p t = true <-> exists l, thread_list k p l /\ t ∈ l.
Proof. apply can_detach_spec. Qed.

(** C29. The intrusive list refines a list: in a well-formed state membership
    and the first thread are those of the represented list; attaching appends
    the thread when it is allowed and is refused without effect otherwise;
    detaching a member removes it and clears its links, and any other detach is
    refused without effect; the lists of the other processes stay. *)
Theorem thread_list_refines (k : Kernel) (p t : Z) (l : list Z) :
  thread_list k p l -> process_usable k p = true -> nz (p_id (prc k p)) = true ->
  p_thread_count (prc k p) < 2 ^ 64 ->
  process_thread_contains k p t = bool_decide (t ∈ l) /\ process_thread_first k p = hd 0 l /\
  (let '(b, k') := process_thread_attach p t k in
   b = attachable k p t l /\ thread_list k' p (if b then l ++ [t] else l) /\
   (b = false -> k' = k) /\ forall q l', q <> p -> thread_list k q l' -> thread_list k' q l') /\
  (let '(b, k') := process_thread_detach p t k in
   b = bool_decide (t ∈ l) /\ thread_list k' p (filter (fun u => u <> t) l) /\
   (b = false -> k' = k) /\ (b = true -> prev_of k' t = 0 /\ next_in k' t = 0) /\
   forall q l', q <> p -> thread_list k q l' -> thread_list k' q l').
Proof.
  intros Hl Hu Hid Hb. split; [by apply contains_spec|]. split; [by apply first_spec|]. split.
  - pose proof (attach_spec k p t l Hl Hb) as Ha. destruct (attachable k p t l).
    + destruct Ha as (k' & -> & Hl' & Hf). split_and!; [done|done|done|]. intros q l' Hq. by apply (frame_list k k' p).
    + rewrite Ha. by split_and!.
  - case_bool_decide as Hin.
    + pose proof (thread_list_nodup k p l Hl) as Hnd. apply list_elem_of_split in Hin as (a & b & ->).
      destruct (detach_spec k p t a b Hu Hid Hb Hl) as (k' & -> & Hl' & Hf & Hp & Hn).
      split_and!; try done; [|intros q l' Hq; by apply (frame_list k k' p)].
      apply list.NoDup_app in Hnd as (_ & Hd & Hnd). apply list.NoDup_cons in Hnd as [Htb _].
      rewrite list.filter_app, filter_cons_False by (by intros H; apply H).
      rewrite !filter_keeps; [done| |]; [by intros u Hub -> |intros u Hua ->]. apply (Hd t Hua). set_solver.
    + rewrite detach_refused.
      2: { apply not_true_iff_false. intros H. apply can_detach_spec in H as (l' & Hl' & Hin'); [|done|done]. apply Hin.
           rewrite <- (segment_unique k 0 0 l' l); try done; try apply Hl; try apply Hl'.
           - intros u Hu'. by apply (owned_node_nonnull k p), Hl'.
           - intros u Hu'. by apply (owned_node_nonnull k p), Hl.
           - by rewrite <- (tl_head _ _ _ Hl), <- (tl_head _ _ _ Hl'). }
      split_and!; try done. rewrite filter_keeps; [done|]. by intros u Hu' ->.
Qed.

(** Attaching a thread and detaching it again gives back the list, with
    the thread's links null, so it can be attached again. *)
Theorem attach_detach (k : Kernel) (p t : Z) (l : list Z) :
  thread_list k p l -> p_thread_count (prc k p) < 2 ^ 64 - 2 -> attachable k p t l = true ->
  exists k1 k2, process_thread_attach p t k = (true, k1) /\ process_thread_detach p t k1 = (true, k2) /\
    thread_list k2 p l /\ prev_of k2 t = 0 /\ next_in k2 t = 0.
Proof.
  intros Hl Hb Ha. pose proof (attach_spec k p t l Hl) as Hs. rewrite Ha in Hs.
  destruct Hs as (k1 & Hs & Hl1 & Hf); [lia|]. exists k1. destruct (frame_self k k1 p Hf) as (Hu & Hid & _).
  unfold attachable in Ha. do 7 (apply andb_true_iff in Ha as [Ha ?]).
  destruct (detach_spec k1 p t l []) as (k2 & Hd & Hl2 & _ & Hp & Hn); try congruence.
  - pose proof (tl_count _ _ _ Hl1) as E1. pose proof (tl_count _ _ _ Hl) as E2. rewrite length_app in E1. cbn in E1. lia.
  - exists k2. rewrite app_nil_r in Hl2. by split_and!.
Qed.

(** C27. The first terminal outcome of a process wins and reaches its watcher.
    [process_exit_publish] never halts; it is accepted exactly when the process
    is live, has no outcome yet, its threads are stopped and no endpoint of it
    is open; a refusal changes nothing; after an acceptance the outcome can be
    read back, every later publication and every attach is refused without
    effect, the exit-queue invariant holds, and the event is appended to the
    queue that watches the process. *)
Theorem exit_publish_once (k : Kernel) (l : list Z) (W : gmap Z ExitWaiting) (p : Z) (info : ProcessExitInfo)
    (threads : list Z) :
  exit_wf k l W -> thread_list k p threads ->
  exists b k', process_exit_publish p info k = Some (b, k') /\ b = may_publish k p info threads /\
    (b = false -> k' = k) /\
    (b = true -> process_exit_info k' p false = (true, Some info) /\
       (forall info', process_exit_publish p info' k' = Some (false, k')) /\
       (forall t, process_thread_attach p t k' = (false, k')) /\
       (exists l', exit_wf k' l' W) /\
       forall q, queued k' q = queued k q ++ (if linked (k := k) p && (p_exit_queue (prc k p) =? q) then [info] else [])).
Proof.
  intros Hx Hl. pose proof (exit_publish_spec k l W p info threads Hx Hl) as Hs.
  destruct (may_publish k p info threads) eqn:Hm; [|by exists false, k].
  destruct Hs as (k' & l' & Hp & Hx' & Hi & Hu & Hkern & Hfl & _). exists true, k'. split_and!; try done. intros _.
  unfold may_publish in Hm. do 9 (apply andb_true_iff in Hm as [Hm ?]).
  repeat match goal with H : !_ = true |- _ => apply negb_true_iff in H end.
  assert (no_event info = false) as Hev by done.
  split_and!.
  - unfold process_exit_info. rewrite Hu, Hkern, Hi, Hm. cbn [andb].
    repeat match goal with H : _ = false |- _ => rewrite H end. done.
  - intros info'. unfold process_exit_publish. rewrite Hi, Hev. cbn [negb]. by rewrite !orb_true_r.
  - intros t. unfold process_thread_attach. rewrite Hi, Hev. by if_case.
  - by exists l'.
  - by apply published_queue.
Qed.

(** * Witnesses *)

(** A dead thread outside the scheduler, owned by a user process. *)
Lemma sched_wf_dead k l t x :
  sched_wf k l -> t ∉ l -> next_of k t = 0 -> t_on_run_queue (thr k t) = false ->
  t_state x = THREAD_STATE_DEAD -> t_run_next x = 0 -> t_on_run_queue x = false ->
  sched_wf (set_thr t (fun _ => x) k) l.
Proof.
  intros [H1 H2 H3 H4 H5 H6 H7 H8 H9 H10 H11 H12] Hn Hnx Hq Hs Hxn Hxq. set (k' := set_thr _ _ _).
  assert (forall u, u <> t -> thr k' u = thr k u) as Hu by (intros u Hne; unfold k'; rewrite thr_set; by rewrite decide_False).
  assert (thr k' t = x) as Ht by (unfold k'; rewrite thr_set; by rewrite decide_True).
  assert (forall u, u <> t -> activatable k' u = activatable k u /\ has_frame k' u = has_frame k u) as Ha.
  { intros u Hne. unfold activatable, has_frame, scheduler_interrupt_frame_valid. rewrite !Hu by done. done. }
  assert (forall u, u ∈ l -> u <> t) as Hl by (by intros u Hin ->).
  split; try done.
  - apply (run_list_frame k); [done| |done]. intros u. destruct (decide (u = t)) as [->|Hne]; [|by rewrite Hu].
    unfold next_of in Hnx. by rewrite Ht, Hxn, Hxq, Hnx, Hq.
  - intros u Hin. rewrite (proj1 (Ha u (Hl u Hin))). by apply H5.
  - intros Hid. destruct (H6 Hid) as [Hin Hr]. split; [done|]. change (current_of k') with (current_of k). by rewrite Hu by (by apply Hl).
  - intros u Hin. rewrite (proj2 (Ha u (Hl u Hin))), Hu by (by apply Hl). by apply H8.
  - intros u. destruct (decide (u = t)) as [->|Hne]; [by rewrite Ht, Hs|]. rewrite Hu by done. apply H9.
  - intros u. destruct (decide (u = t)) as [->|Hne]; [by rewrite Ht, Hs|]. rewrite Hu by done.
    destruct (Ha u Hne) as [-> ->]. apply H10.
  - by destruct H11; split.
  - by destruct H12; split.
Qed.

Definition dead_thread : Thread :=
  thread_zero <| t_id := 4 |> <| t_process := 0x7000 |> <| t_state := THREAD_STATE_DEAD |>.

(** A user process whose only thread has ended. *)
Definition ended (k : Kernel) : Kernel :=
  set_prc 0x7000 (fun p => p <| p_thread_head := 0x4000 |> <| p_thread_tail := 0x4000 |> <| p_thread_count := 1 |>)
    (set_thr 0x4000 (fun _ => dead_thread) k).

Lemma ended_wf k l : exit_wf k l ∅ -> 0x4000 ∉ l -> thr k 0x4000 = thread_zero -> exit_wf (ended k) l ∅.
Proof.
  intros Hx Hn Ht. apply process_write_wf; [done|done|]. split.
  - apply sched_wf_dead; try done; [apply Hx|unfold next_of|]; by rewrite Ht.
  - apply (exit_data_same k); try done. apply Hx.
  - intros t w Hw. by rewrite lookup_empty in Hw.
  - intros q Hq. destruct (xf_receiver _ _ _ Hx q Hq) as [?|(w & Hw & _)]; [by left|]. by rewrite lookup_empty in Hw.
  - intros t _. rewrite thr_set. case_decide; [done|]. apply (xf_other _ _ _ Hx t). apply lookup_empty.
Qed.

Lemma ended_demo_wf : exit_wf (ended exit_demo) [0x1000; 0x2000] ∅.
Proof. apply ended_wf; [apply exit_demo_wf|set_solver|by vm_compute]. Qed.

Lemma ended_threads : thread_list (ended exit_demo) 0x7000 [0x4000].
Proof.
  split; [by vm_compute..| |by vm_compute]. intros t Ht. apply list_elem_of_singleton in Ht as ->. by vm_compute.
Qed.

Lemma can_detach_decides_witness : exists l, thread_list (ended exit_demo) 0x7000 l /\ 0x4000 ∈ l.
Proof. apply (can_detach_decides (ended exit_demo) 0x7000 0x4000); by vm_compute. Defined.

Lemma thread_list_refines_witness :
  process_thread_first (ended exit_demo) 0x7000 = 0x4000 /\ (process_thread_detach 0x7000 0x4000 (ended exit_demo)).1 = true.
Proof.
  destruct (thread_list_refines (ended exit_demo) 0x7000 0x4000 [0x4000] ended_threads) as (_ & Hf & _ & Hd); [by vm_compute..|].
  split; [exact Hf|]. destruct (process_thread_detach 0x7000 0x4000 (ended exit_demo)) as [b k']. destruct Hd as [-> _].
  by vm_compute.
Defined.

Lemma demo_kernel_threads : thread_list exit_demo g_kernel_process [].
Proof. split; [by vm_compute..| |by vm_compute]. intros t Ht. by apply not_elem_of_nil in Ht. Qed.

Lemma attach_detach_witness :
  exists k1 k2, process_thread_attach g_kernel_process 0x1000 exit_demo = (true, k1) /\
    process_thread_detach g_kernel_process 0x1000 k1 = (true, k2) /\ thread_list k2 g_kernel_process [].
Proof.
  destruct (attach_detach exit_demo g_kernel_process 0x1000 [] demo_kernel_threads) as (k1 & k2 & H1 & H2 & H3 & _); [by vm_compute..|].
  exists k1, k2. split; [exact H1|]. split; [exact H2|exact H3].
Defined.

Definition ended_info : ProcessExitInfo := mkProcessExitInfo PROCESS_EXIT_NORMAL 2 4 0 0 0 0.

Lemma exit_publish_once_witness :
  exists k', process_exit_publish 0x7000 ended_info (ended exit_demo) = Some (true, k') /\
    process_exit_info k' 0x7000 false = (true, Some ended_info).
Proof.
  destruct (exit_publish_once (ended exit_demo) [0x1000; 0x2000] ∅ 0x7000 ended_info [0x4000] ended_demo_wf ended_threads)
    as (b & k' & Hp & Hb & _ & Hok).
  assert (b = true) as E by (rewrite Hb; by vm_compute). rewrite E in Hp. exists k'. split; [exact Hp|].
  apply (Hok E).
Defined.
