(* ===== verification/Joint.v ===== *)
(** Message passing and exit queues together.

    Both components share the threads, their wait records and the scheduler.
    [beside_exit k k'] says that a step leaves the exit queues, the processes
    and the wait records of threads blocked on exit queues alone;
    [beside_ipc k k'] says the same of endpoints and threads blocked in message
    passing. Every operation of one component satisfies the relation of the
    other, by the guards of the wait protocol alone, so that each component
    keeps its invariant through the other's steps. *)

From S2P Require Import Prelude Pmm ObjectStorage Kernel Objects Capability.
From S2P Require Import Endpoint Thread Ring Scheduler SchedulerProofs SchedulerWf.
From S2P Require Import SchedulerOps SchedulerTheorems Ipc IpcWf IpcOps.
From S2P Require Import IpcReserve IpcCalls IpcEvents ExitQueue ExitRing.
From S2P Require Import ExitData ExitClose ExitWaits ExitBlocking ExitEvents.

Open Scope jcos_scope.

(** Wait records of the kinds [P] stay. *)
Record spares (P : ThreadWaitKind -> bool) (k k' : Kernel) : Prop := {
  sp_wait : forall t, P (t_wait_kind (thr k t)) = true \/ P (t_wait_kind (thr k' t)) = true ->
    wait_fields (thr k' t) = wait_fields (thr k t);
  sp_storage : tm_storage (k_thr k') = tm_storage (k_thr k);
  sp_init : tm_initialized (k_thr k') = tm_initialized (k_thr k) }.

Definition exit_kind (kind : ThreadWaitKind) : bool := bool_decide (kind = THREAD_WAIT_PROCESS_EXIT).

Definition exit_part (k : Kernel) := (k_queues k, k_exq k, k_processes k, k_prc k).

Definition ipc_part (k : Kernel) := (k_endpoints k, k_ept k, k_ipc k).

(** Kinds of waits message passing does not touch. *)
Class IpcFree (P : ThreadWaitKind -> bool) : Prop := {
  free_receive : P THREAD_WAIT_IPC_RECEIVE = false;
  free_send : P THREAD_WAIT_IPC_SEND = false }.

(** Kinds of waits exit queues do not touch. *)
Class ExitFree (P : ThreadWaitKind -> bool) : Prop := { free_exit : P THREAD_WAIT_PROCESS_EXIT = false }.

Definition no_wait (kind : ThreadWaitKind) : bool := bool_decide (kind = THREAD_WAIT_NONE).

#[export] Instance exit_kind_free : IpcFree exit_kind.
Proof. done. Qed.

#[export] Instance ipc_kind_free : ExitFree ipc_kind.
Proof. done. Qed.

#[export] Instance no_wait_ipc_free : IpcFree no_wait.
Proof. done. Qed.

#[export] Instance no_wait_exit_free : ExitFree no_wait.
Proof. done. Qed.

Definition beside_exit (P : ThreadWaitKind -> bool) (k k' : Kernel) : Prop :=
  spares P k k' /\ exit_part k' = exit_part k.

Definition beside_ipc (P : ThreadWaitKind -> bool) (k k' : Kernel) : Prop :=
  spares P k k' /\ ipc_part k' = ipc_part k.

Section Spares.
  Context {P : ThreadWaitKind -> bool}.

Lemma spares_refl k : spares P k k.
Proof using. done. Qed.

Lemma wait_fields_kind a b : wait_fields a = wait_fields b -> t_wait_kind a = t_wait_kind b.
Proof using. unfold wait_fields. intros H. by injection H. Qed.

Lemma spares_trans k k1 k2 : spares P k k1 -> spares P k1 k2 -> spares P k k2.
Proof using.
  intros [W1 S1 I1] [W2 S2 I2]. split; [|congruence|congruence]. intros t [H|H].
  - pose proof (W1 t (or_introl H)) as E. rewrite W2; [done|]. left. by rewrite (wait_fields_kind _ _ E).
  - pose proof (W2 t (or_intror H)) as E. rewrite E. apply W1. right. by rewrite <- (wait_fields_kind _ _ E).
Qed.

Lemma spares_same k k' : k_threads k' = k_threads k -> k_thr k' = k_thr k -> spares P k k'.
Proof using. intros E1 E2. split; [|by rewrite E2|by rewrite E2]. intros t _. unfold thr. by rewrite E1. Qed.

Lemma spares_calm k k' : calm k k' -> spares P k k'.
Proof using. intros H. split; [|apply H|apply H]. intros t _. apply H. Qed.

(** A write to one thread that is of another kind before and after. *)
Lemma spares_thr k t f :
  P (t_wait_kind (thr k t)) = false -> P (t_wait_kind (f (thr k t))) = false -> spares P k (set_thr t f k).
Proof using.
  intros H1 H2. split; [|done|done]. intros u. rewrite thr_set. case_decide as E; [|done]. subst u.
  intros [H|H]; congruence.
Qed.

Lemma matches_kind k t kind o : thread_wait_matches k t kind o = true -> t_wait_kind (thr k t) = kind.
Proof using.
  unfold thread_wait_matches. if_case; [done|]. intros H. apply andb_true_iff in H as [H _]. by apply bool_decide_eq_true in H.
Qed.

Section Kind.
  Context {kind : ThreadWaitKind} (HP : P kind = false).

Lemma spares_try_complete t o id r k : spares P k (thread_wait_try_complete t kind o id r k).2.
Proof using HP.
  unfold thread_wait_try_complete. if_case; [done|]. if_case; [done|]. cbn [snd].
  apply orb_false_iff in E as [E _]. apply orb_false_iff in E as [_ E]. apply negb_false_iff in E.
  unfold thread_wait_matches_id in E. apply andb_true_iff in E as [E _]. apply andb_true_iff in E as [_ E].
  apply matches_kind in E. apply spares_thr; [by rewrite E|]. upd_simpl. by rewrite E.
Qed.

Lemma spares_begin t o k : P THREAD_WAIT_NONE = false -> spares P k (thread_wait_begin t kind o k).2.
Proof using HP.
  intros HN. unfold thread_wait_begin. if_case; [done|]. if_case; [done|]. if_case; [done|]. cbn [snd].
  match goal with |- spares P k (set_tm ?f ?k1) => apply (spares_trans k k1); [|done] end. apply spares_thr; [|done].
  unfold thread_wait_active in E1. if_case_in E1.
  - repeat (apply orb_false_iff in E as [E ?]). apply negb_true_iff in E2. unfold thread_known in E2.
    repeat match goal with H : negb _ = false |- _ => apply negb_false_iff in H end.
    repeat match goal with H : ?b = true, H' : context [?b] |- _ => rewrite H in H' end. done.
  - repeat (apply orb_false_iff in E1 as [E1 ?]). apply negb_false_iff, bool_decide_eq_true in E1. by rewrite E1.
Qed.

Lemma spares_end t o k : P THREAD_WAIT_NONE = false -> spares P k (thread_wait_end t kind o k).2.
Proof using HP.
  intros HN. unfold thread_wait_end. if_case; [done|]. cbn [snd]. repeat (apply orb_false_iff in E as [E ?]).
  match goal with H : !thread_wait_matches _ _ _ _ = false |- _ => apply negb_false_iff, matches_kind in H as Hm end.
  apply spares_thr; [by rewrite Hm|done].
Qed.

Lemma spares_abort t o k : P THREAD_WAIT_NONE = false -> spares P k (thread_wait_abort t kind o k).2.
Proof using HP.
  intros HN. unfold thread_wait_abort. if_case; [done|]. if_case; [done|].
  apply orb_false_iff in E as [_ E]. apply negb_false_iff, matches_kind in E.
  set (k1 := if bool_decide _ then _ else _). cbn zeta.
  assert (spares P k k1 /\ t_wait_kind (thr k1 t) = kind) as [H1 Hk].
  { unfold k1. case_bool_decide; [|done]. split; [apply spares_thr; [by rewrite E|upd_simpl; by rewrite E]|].
    by rewrite thr_set, decide_True. }
  if_case; cbn [snd]; [done|]. eapply spares_trans; [exact H1|]. apply spares_thr; [by rewrite Hk|done].
Qed.

End Kind.
End Spares.

(** * Message passing leaves the exit queues alone *)

Create HintDb beside.

(** Case analysis of [f k = Some (x, k')], chaining the relation through every call. *)
Ltac be_next H :=
  match type of H with
  | Some _ = Some _ => injection H as; subst
  | None = Some _ => discriminate H
  | (_ ← ?r; _) = Some _ => let E := fresh "E" in destruct r as [?|] eqn:E; [cbn [mbind option_bind] in H|discriminate H]
  | (if ?b then _ else _) = Some _ => let E := fresh "E" in destruct b eqn:E
  | (let '(_, _) := ?r in _) = Some _ =>
    let E := fresh "E" in let x := fresh "x" in let k1 := fresh "k" in destruct r as [x k1] eqn:E
  | match ?r with _ => _ end = Some _ => let E := fresh "E" in destruct r eqn:E
  end.

Section IpcOps.
  Context {P : ThreadWaitKind -> bool} `{HF : !IpcFree P}.

Lemma free_ipc kind : ipc_kind kind = true -> P kind = false.
Proof using HF. destruct kind; try done; intros _; apply HF. Qed.

Lemma be_refl k : beside_exit P k k.
Proof. by split. Qed.

Lemma be_trans k k1 k2 : beside_exit P k k1 -> beside_exit P k1 k2 -> beside_exit P k k2.
Proof. intros [H1 E1] [H2 E2]. split; [by eapply spares_trans|congruence]. Qed.

Lemma be_calm k k' : calm k k' -> beside_exit P k k'.
Proof. intros H. split; [by apply spares_calm|]. unfold exit_part. by rewrite (ca_rest _ _ H). Qed.

Lemma be_ept k e f : beside_exit P k (set_ept e f k).
Proof. done. Qed.

Lemma be_im k f : beside_exit P k (set_im f k).
Proof. done. Qed.

Lemma be_ready t k : beside_exit P k (ipc_make_ready t k).2.
Proof. unfold ipc_make_ready. if_case; [apply be_calm, calm_wake|done]. Qed.

Lemma be_ready_or_halt t k k' : make_ready_or_halt t k = Some k' -> beside_exit P k k'.
Proof.
  unfold make_ready_or_halt. pose proof (be_ready t k) as H. destruct (ipc_make_ready t k) as [[|] k1]; [|done].
  intros. by simplify_eq.
Qed.

Lemma be_finish t e kind id r k k' : ipc_kind kind = true -> ipc_finish t e kind id r k = Some k' -> beside_exit P k k'.
Proof.
  intros Hk. unfold ipc_finish. pose proof (free_ipc kind Hk) as Hx.
  pose proof (spares_try_complete Hx t e id r k) as H.
  assert (exit_part (thread_wait_try_complete t kind e id r k).2 = exit_part k) as E
    by (unfold thread_wait_try_complete; by repeat if_case).
  destruct (thread_wait_try_complete _ _ _ _ _ _) as [[|] k1]; [|done]. intros Hs. injection Hs as ->. exact (conj H E).
Qed.

Lemma be_send e m k : beside_exit P k (endpoint_try_send e m k).2.
Proof. unfold endpoint_try_send. by repeat if_case. Qed.

Lemma be_receive e k : beside_exit P k (endpoint_try_receive e k).2.
Proof. unfold endpoint_try_receive. by repeat if_case. Qed.

Lemma be_drop e k : beside_exit P k (drop_staged e k).
Proof. done. Qed.

Lemma be_register t e kind id ticks k : beside_exit P k (ipc_timeout_register t e kind id ticks k).2.
Proof. unfold ipc_timeout_register. if_case; [done|]. destruct (timed_scan _ _ _ _ _ _ _); [|done]. by if_case. Qed.

Lemma be_unregister t e kind id k : beside_exit P k (ipc_timeout_unregister t e kind id k).2.
Proof. unfold ipc_timeout_unregister. by destruct (List.find _ _). Qed.

Lemma be_clear e kind k : beside_exit P k (clear_waiting e kind k).
Proof. unfold clear_waiting. by if_case. Qed.

#[local] Hint Resolve be_refl be_ept be_im be_ready be_ready_or_halt be_finish be_send be_receive be_drop
  be_register be_unregister be_clear : beside.

Lemma be_pair {A} (r : A * Kernel) k x k' : beside_exit P k r.2 -> r = (x, k') -> beside_exit P k k'.
Proof. by intros H ->. Qed.

Lemma be_if (b : bool) (r : option Kernel) k k' :
  (if b then r else Some k) = Some k' -> (r = Some k' -> beside_exit P k k') -> beside_exit P k k'.
Proof. destruct b; [auto|]. intros H _. simplify_eq. apply be_refl. Qed.

(** The relation from the equation of an optional call. *)
Ltac be_opt E :=
  first [apply be_ready_or_halt in E | apply be_finish in E; [|done] | apply be_if in E; [|let F := fresh in intros F; be_opt F; exact F]].

Ltac be_calls :=
  repeat match goal with
  | E : ?r = (_, ?k1) |- _ =>
    let B := fresh "B" in
    eassert (beside_exit _ _ k1) as B by (eapply (be_pair r); [solve [eauto 3 with beside]|exact E]); clear E
  | E : _ = Some _ |- _ => be_opt E
  end.

Ltac be_chain :=
  be_calls;
  repeat match goal with
  | B : beside_exit ?P ?k1 ?k2 |- beside_exit ?P ?k ?k2 => apply (be_trans k k1 k2); [clear B|exact B]
  | |- beside_exit ?P ?k (drop_staged ?e ?k1) => apply (be_trans k k1); [|apply be_drop]
  | |- beside_exit ?P ?k (clear_waiting ?e ?f ?k1) => apply (be_trans k k1); [|apply be_clear]
  | |- beside_exit ?P ?k (set_im ?f ?k1) => apply (be_trans k k1); [|apply be_im]
  | |- beside_exit ?P ?k (set_before_park ?f ?k1) => apply (be_trans k k1); [|apply be_im]
  | |- beside_exit ?P ?k (set_ept ?e ?f ?k1) => apply (be_trans k k1); [|apply be_ept]
  end; eauto 3 with beside.

Lemma be_send_locked e m k r k' : ipc_send_locked e m k = Some (r, k') -> beside_exit P k k'.
Proof. unfold ipc_send_locked. intros H. repeat be_next H; be_chain. Qed.

Lemma be_receive_locked e t k r k' : ipc_receive_locked e t k = Some (r, k') -> beside_exit P k k'.
Proof. unfold ipc_receive_locked. intros H. repeat be_next H; be_chain. Qed.

Lemma be_try_send p h m k r k' : ipc_try_send p h m k = Some (r, k') -> beside_exit P k k'.
Proof. unfold ipc_try_send. intros H. repeat be_next H; auto with beside. by apply be_send_locked in H. Qed.

Lemma be_try_receive p h k r k' : ipc_try_receive p h k = Some (r, k') -> beside_exit P k k'.
Proof. unfold ipc_try_receive. intros H. repeat be_next H; auto with beside. by apply be_receive_locked in H. Qed.

Lemma be_close e k r k' : ipc_endpoint_close e k = Some (r, k') -> beside_exit P k k'.
Proof.
  unfold ipc_endpoint_close. intros H. do 3 (be_next H; [be_next H; auto with beside|]). repeat be_next H.
  be_chain.
Qed.

#[local] Hint Resolve be_send_locked be_receive_locked be_try_send be_try_receive be_close : beside.

Lemma be_close_owned n o e k r k' : close_owned_loop n o e k = Some (r, k') -> beside_exit P k k'.
Proof.
  revert e k. induction n as [|n IH]; intros e k H; cbn [close_owned_loop] in H; [done|].
  be_next H; [by injection H as _ <-|]. be_next H; [by apply IH in H|]. be_next H. destruct p as [b k1].
  apply be_close in E1. be_next H; [by injection H as _ <-|]. apply IH in H. by eapply be_trans.
Qed.

Lemma be_hook b e k r k' : hook_action b e k = Some (r, k') -> beside_exit P k k'.
Proof.
  unfold hook_action. destruct (bp_action b); intros H; eauto with beside; repeat be_next H; eauto with beside.
Qed.

Lemma be_before_park t e k k' : ipc_before_park t e k = Some k' -> beside_exit P k k'.
Proof.
  unfold ipc_before_park. intros H. be_next H; [by injection H as <-|]. be_next H; [by injection H as <-|].
  be_next H. destruct p as [b k1]. apply be_hook in E1. injection H as <-. be_chain.
Qed.

(** The calls below begin or end waits. *)
Context (HN : P THREAD_WAIT_NONE = false).

Lemma be_wait_end t kind e k : ipc_kind kind = true -> beside_exit P k (thread_wait_end t kind e k).2.
Proof.
  intros Hk. split; [apply spares_end; [by apply free_ipc|done]|]. unfold thread_wait_end. by if_case.
Qed.

Lemma be_wait_begin t kind e k : ipc_kind kind = true -> beside_exit P k (thread_wait_begin t kind e k).2.
Proof.
  intros Hk. split; [apply spares_begin; [by apply free_ipc|done]|]. unfold thread_wait_begin. by repeat if_case.
Qed.

Lemma be_wait_abort t kind e k : ipc_kind kind = true -> beside_exit P k (thread_wait_abort t kind e k).2.
Proof.
  intros Hk. split; [apply spares_abort; [by apply free_ipc|done]|]. unfold thread_wait_abort. if_case; [done|]. if_case; [done|].
  destruct (bool_decide _); by if_case.
Qed.

Lemma be_end_reservation t e kind id b k k' :
  ipc_kind kind = true -> ipc_end_reservation t e kind id b k = Some k' -> beside_exit P k k'.
Proof.
  intros Hk. unfold ipc_end_reservation. intros H. be_next H; [done|]. be_next H.
  pose proof (be_wait_end t kind e k0 Hk) as H2. destruct (thread_wait_end _ _ _ _) as [[|] k2]; [|done].
  injection H as <-. cbn [snd] in H2. eapply be_trans; [|eapply be_trans; [exact H2|apply be_clear]].
  apply be_if in E0; [done|]. intros E1. pose proof (be_unregister t e kind id k) as H1.
  destruct (ipc_timeout_unregister _ _ _ _ _) as [[|] k1]; [by injection E1 as <-|done].
Qed.

Lemma be_publish t w ticks k r k' :
  ipc_kind (wt_kind w) = true -> ipc_publish t w ticks k = Some (r, k') -> beside_exit P k k'.
Proof.
  intros Hk. unfold ipc_publish. set (reg := if wt_timed w then _ else _). intros H.
  assert (beside_exit P k reg.2) as H1 by (unfold reg; destruct (wt_timed w); [apply be_register|apply be_refl]).
  destruct reg as [[|] k1]; cbn [snd negb] in *.
  - be_next H. apply be_before_park in E. injection H as _ <-. by eapply be_trans.
  - be_next H. apply be_finish in E; [|done]. be_next H. apply be_end_reservation in E0; [|done]. injection H as _ <-.
    eapply be_trans; [exact H1|]. by eapply be_trans.
Qed.

Lemma be_wait_current k : beside_exit P k (scheduler_wait_current k).2.
Proof. unfold scheduler_wait_current. by repeat if_case. Qed.

Lemma be_receive_enter p h timed ticks k r k' : ipc_receive_enter p h timed ticks k = Some (r, k') -> beside_exit P k k'.
Proof.
  unfold ipc_receive_enter. intros H. do 3 (be_next H; [by injection H as _ <-|]). be_next H.
  - be_next H. destruct p0 as [m k1]. apply be_receive_locked in E3. by injection H as _ <-.
  - be_next H; [by injection H as _ <-|].
    pose proof (be_wait_begin (thread_current k) THREAD_WAIT_IPC_RECEIVE (ipc_resolve_endpoint k p h CAPABILITY_RIGHT_RECEIVE) k eq_refl) as H1.
    destruct (thread_wait_begin _ _ _ _) as [[|] k1]; cbn [snd negb] in *; [|by injection H as _ <-].
    apply be_publish in H; [|done]. be_chain.
Qed.

Lemma be_send_enter p h m timed ticks k r k' : ipc_send_enter p h m timed ticks k = Some (r, k') -> beside_exit P k k'.
Proof.
  unfold ipc_send_enter. intros H. do 3 (be_next H; [by injection H as _ <-|]). be_next H.
  - be_next H. destruct p0 as [b k1]. apply be_send_locked in E3. by injection H as _ <-.
  - be_next H; [by injection H as _ <-|].
    pose proof (be_wait_begin (thread_current k) THREAD_WAIT_IPC_SEND (ipc_resolve_endpoint k p h CAPABILITY_RIGHT_SEND) k eq_refl) as H1.
    destruct (thread_wait_begin _ _ _ _) as [[|] k1]; cbn [snd negb] in *; [|by injection H as _ <-].
    apply be_publish in H; [|done]. be_chain.
Qed.

Lemma be_receive_leave w m k r k' : ipc_receive_leave w m k = Some (r, k') -> beside_exit P k k'.
Proof. unfold ipc_receive_leave. intros H. be_next H. apply be_end_reservation in E; [|done]. by injection H as _ <-. Qed.

Lemma be_send_leave w k r k' : ipc_send_leave w k = Some (r, k') -> beside_exit P k k'.
Proof.
  unfold ipc_send_leave. intros H. be_next H; [done|]. be_next H. apply be_end_reservation in E0; [|done]. by injection H as _ <-.
Qed.

(** The turn that ends in [scheduler_wait_current]. *)
Lemma be_park w k r k' :
  (let '(call, k) := scheduler_wait_current (count_park k) in Some (Waits w call, k)) = Some (r, k') -> beside_exit P k k'.
Proof.
  pose proof (be_wait_current (count_park k)) as H1. destruct (scheduler_wait_current _) as [c k1]. intros H.
  injection H as _ <-. eapply be_trans; [|exact H1]. apply be_im.
Qed.

Lemma be_resume w waited k r k' : ipc_resume w waited k = Some (r, k') -> beside_exit P k k'.
Proof.
  unfold ipc_resume. destruct (bool_decide _), waited; intros H.
  - unfold ipc_receive_iterate in H. be_next H; [done|]. be_next H; [by apply be_receive_leave in H|]. be_next H.
    + be_next H. destruct p as [m k1]. apply be_receive_locked in E2. be_next H. apply be_finish in E3; [|done].
      apply be_receive_leave in H. be_chain.
    + by apply be_park in H.
  - unfold ipc_receive_cancelled in H. be_next H. apply be_finish in E; [|done]. apply be_receive_leave in H. be_chain.
  - unfold ipc_send_iterate in H. be_next H; [done|]. be_next H; [by apply be_send_leave in H|]. be_next H; [done|].
    by apply be_park in H.
  - unfold ipc_send_cancelled in H. be_next H. apply be_finish in E; [|done]. apply be_send_leave in H. be_chain.
Qed.

Lemma be_abort t k : beside_exit P k (ipc_abort_thread_wait t k).2.
Proof.
  unfold ipc_abort_thread_wait. do 3 (if_case; [apply be_refl|]).
  destruct (t_wait_kind (thr k t)) eqn:Hk; try apply be_refl; (if_case; [apply be_refl|]);
    pose proof (be_wait_abort t (t_wait_kind (thr k t)) (t_wait_object (thr k t)) k) as H; rewrite Hk in H;
    destruct (thread_wait_abort _ _ _ _) as [[|] k1]; cbn [snd negb] in *;
    (eapply be_trans; [by apply H|]); try apply be_refl;
    (eapply be_trans; [apply be_unregister|apply be_clear]).
Qed.

Lemma be_poll_slot now k i k' : poll_slot now k i = Some k' -> beside_exit P k k'.
Proof.
  unfold poll_slot. intros H. be_next H; [by injection H as <-|]. be_next H; [done|].
  be_next H; [by injection H as <-|]. be_next H; [by injection H as <-|].
  destruct (w_kind (timed_at k i)); try done; repeat be_next H; try done; be_chain.
Qed.

Lemma be_timer k k' : timer_handle_irq k = Some k' -> beside_exit P k k'.
Proof.
  unfold timer_handle_irq. intros H. be_next H; [by injection H as <-|]. revert H. set (k1 := k <| k_tim := _ |>).
  assert (beside_exit P k k1) as H1 by done. unfold ipc_timeout_poll. generalize (timer_ticks k1). intros now.
  generalize (seqZ 0 IPC_TIMED_WAIT_CAPACITY). intros il. revert H1. generalize k1.
  induction il as [|i il IH]; intros k2 H2 H; [by injection H as <-|]. cbn [foldl mbind option_bind] in H.
  destruct (poll_slot now k2 i) as [k3|] eqn:E1.
  - apply (IH k3); [|done]. eapply be_trans; [done|by eapply be_poll_slot].
  - exfalso. clear -H. induction il; done.
Qed.

Lemma be_arm t e peer h a m k : beside_exit P k (ipc_wait_test_arm_before_park t e peer h a m k).2.
Proof. unfold ipc_wait_test_arm_before_park. by repeat if_case. Qed.

Context `{KernelStack} (idle_loop : Z).

Lemma be_trap op f k k' : trap idle_loop op f k = Some k' -> beside_exit P k k'.
Proof using All. intros E. by apply be_calm, (calm_trap idle_loop op f). Qed.

Lemma be_resume_step f w k r k' : resume_step idle_loop f w k = Some (r, k') -> beside_exit P k k'.
Proof using All.
  unfold resume_step. intros E. be_next E. destruct p as [c k1]. apply be_resume in E0. unfold wait_step in E.
  destruct c as [b m|w'|w' [[|]|op|]]; try (injection E as _ <-; exact E0).
  - apply be_resume in E. by eapply be_trans.
  - be_next E. apply be_trap in E1. assert (beside_exit P k k0) as H0 by (by eapply be_trans).
    be_next E; [|by injection E as _ <-]. apply be_resume in E. by eapply be_trans.
Qed.

(** No IPC event touches the exit queues or their waiters. *)
Lemma ipc_step_beside e k C log k' C' : ipc_step idle_loop e k C = Some (log, k', C') -> beside_exit P k k'.
Proof using All.
  destruct e as [p h m|p h|p h m timed ticks|p h timed ticks|frame|e|o|u| |u e peer h a m| |e]; cbn [ipc_step]; intros E.
  - be_next E. destruct p0 as [b k1]. apply be_try_send in E0. by injection E as _ <- _.
  - be_next E. destruct p0 as [b k1]. apply be_try_receive in E0. by injection E as _ <- _.
  - be_next E. destruct p0 as [b k1]. apply be_send_enter in E0. by injection E as _ <- _.
  - be_next E. destruct p0 as [b k1]. apply be_receive_enter in E0. by injection E as _ <- _.
  - be_next E. be_next E. destruct p as [b k1]. apply be_resume_step in E1. by injection E as _ <- _.
  - be_next E. destruct p as [b k1]. apply be_close in E0. by injection E as _ <- _.
  - be_next E. destruct p as [b k1]. injection E as _ <- _. unfold ipc_close_owned_endpoints in E0.
    be_next E0; [by injection E0 as _ <-|]. by apply be_close_owned in E0.
  - pose proof (be_abort u k) as Ha. destruct (ipc_abort_thread_wait u k). by injection E as _ <- _.
  - be_next E. apply be_timer in E0. by injection E as _ <- _.
  - injection E as _ <- _. apply be_arm.
  - injection E as _ <- _. apply be_im.
  - be_next E. injection E as _ <- _. by apply be_calm, (calm_event idle_loop e).
Qed.

End IpcOps.

(** * Exit queues leave message passing alone *)

Section ExitOps.
  Context {P : ThreadWaitKind -> bool} `{HF : !ExitFree P}.

Lemma bi_refl k : beside_ipc P k k.
Proof. by split. Qed.

Lemma bi_trans k k1 k2 : beside_ipc P k k1 -> beside_ipc P k1 k2 -> beside_ipc P k k2.
Proof. intros [H1 E1] [H2 E2]. split; [by eapply spares_trans|congruence]. Qed.

Lemma bi_calm k k' : calm k k' -> beside_ipc P k k'.
Proof. intros H. split; [by apply spares_calm|]. unfold ipc_part. by rewrite (ca_rest _ _ H). Qed.

Lemma bi_exq k q f : beside_ipc P k (set_exq q f k).
Proof. done. Qed.

Lemma bi_prc k p f : beside_ipc P k (set_prc p f k).
Proof. done. Qed.

Lemma bi_complete t q id r k : beside_ipc P k (thread_wait_try_complete t THREAD_WAIT_PROCESS_EXIT q id r k).2.
Proof.
  split; [apply spares_try_complete, free_exit|]. unfold thread_wait_try_complete. by repeat if_case.
Qed.

Lemma bi_ready t k : beside_ipc P k (queue_make_ready t k).2.
Proof. unfold queue_make_ready. if_case; [apply bi_calm, calm_wake|done]. Qed.

Lemma bi_complete_receiver q r k k' : complete_receiver q r k = Some k' -> beside_ipc P k k'.
Proof.
  unfold complete_receiver. intros H. be_next H; [|by injection H as <-].
  match type of H with context [thread_wait_try_complete ?t _ ?q ?id ?r ?k] => pose proof (bi_complete t q id r k) as H1 end.
  destruct (thread_wait_try_complete _ _ _ _ _ _) as [[|] k1]; [|done].
  match type of H with context [queue_make_ready ?t ?k1] => pose proof (bi_ready t k1) as H2 end.
  destruct (queue_make_ready _ _) as [[|] k2]; [|done]. injection H as <-. by eapply bi_trans.
Qed.

Lemma bi_publish p info k r k' : process_exit_queue_publish_process p info k = Some (r, k') -> beside_ipc P k k'.
Proof.
  unfold process_exit_queue_publish_process. intros H. do 3 (be_next H; [by injection H as _ <-|]).
  destruct (watch_slot _ _ _); [|by injection H as _ <-]. be_next H. injection H as _ <-.
  apply bi_complete_receiver in E2. eapply bi_trans; [|exact E2]. done.
Qed.

Lemma bi_receive q k : beside_ipc P k (receive_locked q k).2.
Proof. unfold receive_locked. by repeat if_case. Qed.

Context (HN : P THREAD_WAIT_NONE = false).

Lemma bi_enter q k : beside_ipc P k (exit_receive_enter q k).2.
Proof.
  unfold exit_receive_enter. do 2 (if_case; [done|]). if_case.
  { pose proof (bi_receive q k) as H. by destruct (receive_locked q k). }
  if_case; [done|].
  pose proof (spares_begin (kind := THREAD_WAIT_PROCESS_EXIT) free_exit (thread_current k) q k HN) as H.
  assert (ipc_part (thread_wait_begin (thread_current k) THREAD_WAIT_PROCESS_EXIT q k).2 = ipc_part k) as Hp
    by (unfold thread_wait_begin; by repeat if_case).
  destruct (thread_wait_begin _ _ _ _) as [[|] k1]; cbn [negb snd] in *; [|exact (conj H Hp)].
  apply (bi_trans k k1); [exact (conj H Hp)|apply bi_exq].
Qed.

Lemma bi_leave w k r k' : exit_receive_leave w k = Some (r, k') -> beside_ipc P k k'.
Proof.
  unfold exit_receive_leave. set (x := if _ : bool then _ else _). intros H.
  assert (beside_ipc P k x.2) as H1 by (unfold x; if_case; [apply bi_receive|done]). destruct x as [rcv k1]. cbn [snd] in H1.
  pose proof (spares_end (kind := THREAD_WAIT_PROCESS_EXIT) free_exit (thread_current k) (xw_queue w) k1 HN) as H2.
  assert (ipc_part (thread_wait_end (thread_current k) THREAD_WAIT_PROCESS_EXIT (xw_queue w) k1).2 = ipc_part k1) as Hp
    by (unfold thread_wait_end; by if_case).
  destruct (thread_wait_end _ _ _ _) as [[|] k2]; [|done]. injection H as _ <-. 
  apply (bi_trans k k1); [exact H1|]. apply (bi_trans k1 k2); [exact (conj H2 Hp)|apply bi_exq].
Qed.

Lemma bi_finish w r k c k' : exit_receive_finish w r k = Some (c, k') -> beside_ipc P k k'.
Proof.
  unfold exit_receive_finish. intros H. pose proof (bi_complete (thread_current k) (xw_queue w) (xw_id w) r k) as H1.
  destruct (thread_wait_try_complete _ _ _ _ _ _) as [[|] k1]; [|done]. apply bi_leave in H. by eapply bi_trans.
Qed.

Lemma bi_resume w waited k r k' : exit_receive_resume w waited k = Some (r, k') -> beside_ipc P k k'.
Proof.
  unfold exit_receive_resume. destruct waited; [|apply bi_finish]. unfold exit_receive_iterate. intros H.
  be_next H; [done|]. be_next H; [by apply bi_leave in H|]. be_next H; [by apply bi_finish in H|].
  assert (beside_ipc P k (scheduler_wait_current k).2) as H1 by (unfold scheduler_wait_current; by repeat if_case).
  destruct (scheduler_wait_current k). by injection H as _ <-.
Qed.

Lemma bi_abort t k : beside_ipc P k (process_exit_queue_abort_wait t k).2.
Proof.
  unfold process_exit_queue_abort_wait. do 3 (if_case; [done|]).
  pose proof (spares_abort (kind := THREAD_WAIT_PROCESS_EXIT) free_exit t (t_wait_object (thr k t)) k HN) as H.
  assert (ipc_part (thread_wait_abort t THREAD_WAIT_PROCESS_EXIT (t_wait_object (thr k t)) k).2 = ipc_part k) as Hp.
  { unfold thread_wait_abort. if_case; [done|]. if_case; [done|]. cbn zeta. destruct (bool_decide (t_wait_result _ = _)); if_case; done. }
  destruct (thread_wait_abort _ _ _ _) as [[|] k1]; cbn [negb snd] in *; [|exact (conj H Hp)].
  apply (bi_trans k k1); [exact (conj H Hp)|apply bi_exq].
Qed.

Lemma bi_close q k r k' : process_exit_queue_close q k = Some (r, k') -> beside_ipc P k k'.
Proof.
  unfold process_exit_queue_close. intros H. do 2 (be_next H; [by injection H as _ <-|]). be_next H. injection H as _ <-.
  apply bi_complete_receiver in E1. eapply bi_trans; [|exact E1]. unfold close_qslots. generalize queue_indices. intros il.
  assert (forall k1, beside_ipc P k k1 -> beside_ipc P k (foldl (close_qslot q) k1 il)) as Hl; [|by apply Hl].
  clear. induction il as [|i il IH]; intros k1 H; [done|]. cbn [foldl]. apply IH. eapply bi_trans; [exact H|].
  unfold close_qslot. by if_case.
Qed.

End ExitOps.

(** * Frames *)

Lemma match_kind k t kind o id : thread_wait_matches_id k t kind o id = true -> t_wait_kind (thr k t) = kind.
Proof. unfold thread_wait_matches_id. intros H. do 2 (apply andb_true_iff in H as [H ?]). by eapply matches_kind. Qed.

Lemma wait_fields_match k k' t kind o id :
  tm_storage (k_thr k') = tm_storage (k_thr k) -> tm_initialized (k_thr k') = tm_initialized (k_thr k) ->
  wait_fields (thr k' t) = wait_fields (thr k t) ->
  thread_wait_matches_id k' t kind o id = thread_wait_matches_id k t kind o id.
Proof. intros Hs Hi Hw. apply wait_fields_eq in Hw as (? & _ & ? & _ & ? & ?). by apply matches_ext. Qed.

Lemma wait_fields_pending k k' t : wait_fields (thr k' t) = wait_fields (thr k t) -> pending k' t = pending k t.
Proof. intros H. apply wait_fields_eq in H as (_ & _ & _ & H & _). by apply pending_ext. Qed.

Lemma exit_kept k k' l l' W :
  exit_wf k l W -> beside_exit exit_kind k k' -> sched_wf k' l' ->
  (forall t w, W !! t = Some w -> located k l t -> located k' l' t) -> exit_wf k' l' W.
Proof.
  intros Hx [[Hw Hs Hi] Hp] Hs' Hl. unfold exit_part in Hp. injection Hp as E1 E2 E3 E4.
  assert (forall q, exq k' q = exq k q) as Hq by (intros; unfold exq; by rewrite E1).
  assert (forall q, queue_live k' q = queue_live k q) as Hlive by (intros; unfold queue_live; by rewrite E2).
  split; [done| |..].
  - apply (exit_data_same k); try done; [apply Hx|]. intros p. unfold prc. by rewrite E3.
  - intros t w Ht. pose proof (xf_waiter _ _ _ Hx t w Ht) as Ho. destruct Ho as [H1 H2 H3 H4 H5 H6].
    assert (wait_fields (thr k' t) = wait_fields (thr k t)) as Hf
      by (apply Hw; left; by rewrite (match_kind _ _ _ _ _ H2)).
    pose proof (wait_fields_eq _ _ Hf) as (_ & _ & _ & Hr & _).
    split; rewrite ?Hlive, ?Hq, ?(wait_fields_pending k k' t Hf), ?Hr; try done; [|by eapply Hl].
    by rewrite (wait_fields_match k k').
  - intros q. rewrite Hlive, Hq. apply Hx.
  - intros t Ht Hk. apply (xf_other _ _ _ Hx t Ht). rewrite <- Hk. symmetry. apply wait_fields_kind, Hw. right. by rewrite Hk.
Qed.

Lemma ipc_kept k k' l l' C :
  ipc_wf k l C -> beside_ipc ipc_kind k k' -> sched_wf k' l' ->
  (forall t w, C !! t = Some w -> located k l t -> located k' l' t) -> ipc_wf k' l' C.
Proof.
  intros [Hc He] [[Hw Hs Hi] Hp] Hs' Hl. unfold ipc_part in Hp. injection Hp as E1 E2 E3.
  assert (forall e, ept k' e = ept k e) as Hq by (intros; unfold ept; by rewrite E1).
  assert (forall e, ipc_endpoint_valid k' e = ipc_endpoint_valid k e) as Hv.
  { intros e. unfold ipc_endpoint_valid, endpoint_storage_in_use, endpoint_live. by rewrite Hq, E2. }
  assert (forall t w, C !! t = Some w -> wait_fields (thr k' t) = wait_fields (thr k t)) as Hf.
  { intros t w Ht. apply Hw. left. destruct (ic_waiter _ _ _ Hc t w Ht) as [Hk _ Hm _ _ _ _].
    by rewrite (match_kind _ _ _ _ _ Hm). }
  destruct Hc as [H1 H2 Hreg H3 H4 H5 H6]. split; [split|]; [done|by rewrite E2|by rewrite E2|..].
  - intros t w Ht. destruct (H3 t w Ht) as [G1 G2 G3 G4 G5 G6 G7]. pose proof (Hf t w Ht) as F.
    split; rewrite ?Hv, ?Hq; try done; [|by destruct (wait_fields_eq _ _ F) as (_ & _ & _ & -> & _)|by apply (Hl t w)].
    by rewrite (wait_fields_match k k').
  - intros t Ht. destruct (ipc_kind (t_wait_kind (thr k' t))) eqn:Hk; [|done].
    rewrite (wait_fields_kind _ _ (Hw t (or_intror Hk))) in Hk. rewrite <- Hk. by apply H4.
  - intros e kind. rewrite Hv, Hq. apply H5.
  - assert (forall i, timed_at k' i = timed_at k i) as Ha by (intros; unfold timed_at; by rewrite E3).
    destruct H6 as [T1 T2 T3 T4]. split; [by rewrite E3| |intros i j; rewrite !Ha; apply T3|].
    2: { intros t w Ht Hti. destruct (T4 t w Ht Hti) as (i & Hix & Ho). exists i. by rewrite Ha. }
    intros i Hix. rewrite Ha. intros Ho. destruct (T2 i Hix Ho) as (w & Hcw & Hr). exists w. split; [done|].
    unfold registers in *. rewrite Hq. by destruct (wait_fields_eq _ _ (Hf _ _ Hcw)) as (-> & _).
  - intros e. rewrite Hv. intros Hve.
    assert (forall kind, ipc_kind kind = true -> waiting_thread (ept k e) kind <> 0 ->
      pending k' (waiting_thread (ept k e) kind) = pending k (waiting_thread (ept k e) kind)) as Hpd.
    { intros kind Hk Hz. destruct (H5 e kind Hve Hk) as [[? _]|(w & Ht & _)]; [done|].
      apply wait_fields_pending. by apply (Hf _ w). }
    pose proof (Hpd THREAD_WAIT_IPC_RECEIVE eq_refl) as Pr. pose proof (Hpd THREAD_WAIT_IPC_SEND eq_refl) as Ps.
    waiting_simpl. destruct (He e Hve) as [S1 S2 Sf S3]. split; rewrite ?Hq; try done.
    + rewrite S1. split; intros [Hz Hb]; (split; [done|]); [by rewrite Ps|by rewrite <- Ps].
    + intros Hcl. destruct (S3 Hcl) as (M & R & S). split_and!; [done|intros Hz; rewrite Pr; auto|intros Hz; rewrite Ps; auto].
Qed.

Lemma exit_waiter_fields k k' l W t w :
  exit_wf k l W -> beside_exit exit_kind k k' -> W !! t = Some w -> wait_fields (thr k' t) = wait_fields (thr k t).
Proof.
  intros Hx [[Hw _ _] _] Ht. apply Hw. left. pose proof (ew_match _ _ _ _ (xf_waiter _ _ _ Hx t w Ht)) as Hm.
  by rewrite (match_kind _ _ _ _ _ Hm).
Qed.

Lemma ipc_waiter_fields k k' l C t w :
  ipc_wf k l C -> beside_ipc ipc_kind k k' -> C !! t = Some w -> wait_fields (thr k' t) = wait_fields (thr k t).
Proof.
  intros Hwf [[Hw _ _] _] Ht. apply Hw. left. destruct (ic_waiter _ _ _ (iw_core _ _ _ Hwf) t w Ht) as [Hk _ Hm _ _ _ _].
  by rewrite (match_kind _ _ _ _ _ Hm).
Qed.

Lemma exit_awake_kept k k' l l' W :
  exit_wf k l W -> beside_exit exit_kind k k' -> (forall t w, W !! t = Some w -> t ∈ l -> t ∈ l') ->
  awake k l W -> awake k' l' W.
Proof.
  intros Hx Hb Hl Ha t w Ht. rewrite (wait_fields_pending k k' t); [|by eapply exit_waiter_fields].
  destruct (Ha t w Ht); [by left|right; by eapply Hl].
Qed.

Lemma ipc_awake_kept k k' l l' C :
  ipc_wf k l C -> beside_ipc ipc_kind k k' -> (forall t w, C !! t = Some w -> t ∈ l -> t ∈ l') ->
  awake k l C -> awake k' l' C.
Proof.
  intros Hx Hb Hl Ha t w Ht. rewrite (wait_fields_pending k k' t); [|by eapply ipc_waiter_fields].
  destruct (Ha t w Ht); [by left|right; by eapply Hl].
Qed.

Lemma beside_xflow P k k' : beside_exit P k k' -> xflow k k' [].
Proof.
  intros [_ Hp]. unfold exit_part in Hp. injection Hp as E1 E2 _ _. apply xflow_same. intros q.
  unfold queued, queue_live, exq. by rewrite E1, E2.
Qed.

Lemma beside_flow P k k' : beside_ipc P k k' -> flow k k' [].
Proof.
  intros [_ Hp]. unfold ipc_part in Hp. injection Hp as E1 _ _. apply flow_same. intros e. unfold ept. by rewrite E1.
Qed.

(** * Waiters of the other component stay with the scheduler *)

Lemma stays_keeps k l k' l1 l' : keeps_sched k k' l l1 -> sched_wf k' l1 -> sched_wf k' l' -> stays False k l k' l'.
Proof.
  intros Hk H1 H2 t _. split.
  - intros Hl. apply (located_list k' l1 l'); [done|done|]. by apply Hk.
  - intros Hin. left. apply (queued_list k' l1 l'); [done|done|]. by apply (ks_queued _ _ _ _ Hk).
Qed.

Lemma stays_weaken (S S' : Prop) k l k' l' : (S -> S') -> stays S k l k' l' -> stays S' k l k' l'.
Proof. intros HS H t Ht. destruct (H t Ht) as [H1 H2]. split; [done|]. intros Hin. destruct (H2 Hin) as [?|[? ?]]; auto. Qed.

Lemma stays_list S k l k' l1 l' : sched_wf k' l1 -> sched_wf k' l' -> stays S k l k' l1 -> stays S k l k' l'.
Proof.
  intros H1 H2 Hs t Ht. destruct (Hs t Ht) as [Ha Hb]. split.
  - intros Hl. by apply (located_list k' l1 l'), Ha.
  - intros Hin. destruct (Hb Hin) as [?|?]; [left; by apply (queued_list k' l1 l')|by right].
Qed.

Lemma steps_stay k l C log k' l' : steps_to k l C log k' -> sched_wf k' l' -> stays False k l k' l'.
Proof. intros (l1 & Hwf & Hks & _) Hs. apply (stays_keeps k l k' l1 l'); [done|apply Hwf|done]. Qed.

Section Stays.
  Context `{KernelStack} (idle_loop : Z).

Lemma sched_stays k l k' l' e :
  sched_wf k l -> sched_wf k' l' -> event_ok k e -> run_event idle_loop e k = Some k' ->
  stays (exists f, e = EBlock f) k l k' l'.
Proof using All.
  intros Hs Hs' Hok Hr. destruct (event_simulates idle_loop k l e Hs Hok) as (k1 & l1 & Hr1 & Hs1 & Hst).
  rewrite Hr in Hr1. injection Hr1 as <-. apply (stays_list _ k l k' l1 l' Hs1 Hs').
  intros t Ht. destruct (event_waiting idle_loop k l k' l1 e t Hs Hs1 Hok Hr Hst Ht) as [H1 H2]. split; [done|].
  intros Hin. destruct (H2 Hin) as [?|(f & -> & ->)]; [by left|right; split; [done|by exists f]].
Qed.

Lemma resume_stays k l C frame w c k' l' :
  ipc_wf k l C -> C !! current_of k = Some w -> idle k = false ->
  scheduler_interrupt_frame_valid k (current_of k) frame = true ->
  resume_step idle_loop frame w k = Some (c, k') -> sched_wf k' l' -> stays True k l k' l'.
Proof using All.
  intros Hwf Hw Hid Hfv Hr Hs'. assert (thread_current k = current_of k) as Ht by (apply (thread_current_wf k l), Hwf).
  unfold resume_step in Hr. rewrite Ht in Hr.
  destruct (resume_cases idle_loop k l C frame w Hwf Hw Hid) as [(Hp & Hsl & Hs)|(c1 & k1 & Hr1 & Hws & Hok)].
  - destruct (sleep_call idle_loop k l C w frame _ Hwf Hw Hid Hfv Hp Hsl Hs)
      as (c1 & k1 & k2 & l2 & E1 & Hst & _ & Hwf' & _ & _ & _ & _ & Hstay). rewrite E1 in Hr. cbn [mbind option_bind] in Hr.
    rewrite Hst in Hr. injection Hr as _ <-. apply (stays_list _ k l k2 l2 l'); [apply Hwf'|done|done].
  - rewrite Hr1 in Hr. cbn [mbind option_bind] in Hr. rewrite Hws in Hr. injection Hr as _ <-.
    destruct Hok as (c2 & k2 & l2 & log & E2 & Hks & Hwf2 & _). rewrite Hr1 in E2. injection E2 as _ <-.
    apply (stays_weaken False); [done|]. apply (stays_keeps k l k1 l2 l'); [done|apply Hwf2|done].
Qed.

(** What an IPC event does to any waiting thread. *)
Lemma ipc_stays k l C e log k' C' l' :
  ipc_wf k l C -> ipc_event_ok k C e -> ipc_step idle_loop e k C = Some (log, k', C') -> sched_wf k' l' ->
  stays (is_Some (C !! current_of k) \/ exists f, e = ISched (EBlock f)) k l k' l'.
Proof using All.
  intros Hwf Hok Hr Hs'. assert (thread_current k = current_of k) as Ht by (apply (thread_current_wf k l), Hwf).
  assert (forall C1 log1 k1, steps_to k l C1 log1 k1 -> k1 = k' ->
    stays (is_Some (C !! current_of k) \/ exists f, e = ISched (EBlock f)) k l k' l') as Hsteps.
  { intros C1 log1 k1 Hst ->. apply (stays_weaken False); [done|]. by apply (steps_stay k l C1 log1). }
  assert (forall lg c1 k1, call_ok k l C lg (Some (c1, k1)) -> k1 = k' ->
    stays (is_Some (C !! current_of k) \/ exists f, e = ISched (EBlock f)) k l k' l') as Hcall.
  { intros lg c1 k1 (c2 & k2 & l2 & log2 & E & Hks & Hwf2 & _) ->. injection E as <- <-.
    apply (stays_weaken False); [done|]. apply (stays_keeps k l k' l2 l'); [done|apply Hwf2|done]. }
  destruct e as [p h m|p h|p h m timed ticks|p h timed ticks|frame|e|o|u| |u e peer h a m| |e]; cbn [ipc_step] in Hr.
  - destruct (try_send_call k l C p h m Hwf) as (b & k1 & E & Hs). rewrite E in Hr. injection Hr as _ E1 _. by eapply Hsteps.
  - destruct (try_receive_call k l C p h Hwf) as (b & k1 & E & Hs). rewrite E in Hr. injection Hr as _ E1 _. by eapply Hsteps.
  - be_next Hr. destruct p0 as [c1 k1]. injection Hr as _ <- _. pose proof (send_enter_call k l C p h m timed ticks Hwf Hok) as Hc.
    rewrite E in Hc. by eapply Hcall.
  - be_next Hr. destruct p0 as [c1 k1]. injection Hr as _ <- _. pose proof (receive_enter_call k l C p h timed ticks Hwf Hok) as Hc.
    rewrite E in Hc. by eapply Hcall.
  - destruct Hok as ([w Hw] & Hid & Hfv). rewrite Ht, Hw in Hr. cbn [mbind option_bind] in Hr. be_next Hr.
    destruct p as [c1 k1]. injection Hr as _ <- _. apply (stays_weaken True); [by left|].
    by apply (resume_stays k l C frame w c1 k1 l').
  - destruct (close_call k l C e Hwf) as (b & k1 & E & Hs). rewrite E in Hr. injection Hr as _ E1 _. by eapply Hsteps.
  - destruct (close_owned_steps o k l C Hwf) as (b & k1 & E & Hs). rewrite E in Hr. injection Hr as _ E1 _. by eapply Hsteps.
  - pose proof (abort_call k l C u Hwf) as Ha. destruct (ipc_abort_thread_wait u k) as [b k1].
    destruct Ha as (Hwf' & Hks & Hfl & _ & Haw). injection Hr as _ <- _. apply (stays_weaken False); [done|].
    apply (stays_keeps k l k1 l l'); [done|apply Hwf'|done].
  - destruct (timer_call k l C Hwf) as (k1 & E & Hs). rewrite E in Hr. injection Hr as _ E1 _. by eapply Hsteps.
  - injection Hr as _ <- _. apply (stays_weaken False); [done|]. revert Hs'. unfold ipc_wait_test_arm_before_park.
    repeat if_case; intros Hs'; (apply (stays_list _ k l _ l); [first [apply Hwf|apply (wf_hook k l C), Hwf]|done|]);
      intros t _; (split; [done|by left]).
  - injection Hr as _ <- _. apply (stays_weaken False); [done|].
    apply (stays_list _ k l _ l); [apply (wf_hook k l C), Hwf|done|]. intros t _. split; [done|by left].
  - be_next Hr. injection Hr as _ <- _. destruct Hok as [Hok _]. apply (stays_weaken (exists f, e = EBlock f)).
    + intros [f ->]. right. by exists f.
    + apply sched_stays; [apply Hwf|done|done|done].
Qed.

Lemma exit_resume_stays k l W frame w c k' l' :
  exit_wf k l W -> W !! current_of k = Some w -> idle k = false ->
  scheduler_interrupt_frame_valid k (current_of k) frame = true ->
  exit_resume_step idle_loop frame w k = Some (c, k') -> sched_wf k' l' -> stays True k l k' l'.
Proof using All.
  intros Hx Hw Hid Hfv Hr Hs'. destruct (pending k (current_of k)) eqn:Hp.
  - destruct (exit_sleep_call idle_loop k l W w frame Hx Hw Hid Hfv Hp) as (call & k1 & l1 & E & Hx' & _ & _ & Hst).
    rewrite E in Hr. injection Hr as _ <-. apply (stays_list _ k l k1 l1 l'); [apply Hx'|done|done].
  - destruct (exit_leave_call Hx Hw Hid Hp) as (k1 & Hl & Hok).
    unfold exit_resume_step, exit_receive_resume in Hr. rewrite (exit_iterate_call Hx Hw Hid), Hp, Hl in Hr.
    cbn [mbind option_bind exit_wait_step] in Hr. injection Hr as _ <-.
    destruct Hok as (c1 & k2 & l2 & E & Hx' & Hks & _). injection E as _ <-.
    apply (stays_weaken False); [done|]. apply (stays_keeps k l k1 l2 l'); [done|apply Hx'|done].
Qed.

(** What an exit-queue event does to any waiting thread. *)
Lemma exit_stays k l W e log k' W' l' :
  exit_wf k l W -> exit_event_ok k W e -> exit_step idle_loop e k W = Some (log, k', W') -> sched_wf k' l' ->
  stays (is_Some (W !! current_of k) \/ exists f, e = QSched (EBlock f)) k l k' l'.
Proof using All.
  intros Hx Hok Hr Hs'. set (S := _ \/ _).
  assert (forall k1, exit_steps k l W k1 -> k1 = k' -> stays S k l k' l') as Hsteps.
  { intros k1 (l1 & Hx' & Hks & _) ->. apply (stays_weaken False); [done|]. apply (stays_keeps k l k' l1 l'); [done|apply Hx'|done]. }
  destruct e as [q|q|q p|p|p info|q|q|frame|t|q|e]; cbn [exit_step] in Hr.
  - destruct (create_call Hx q) as (k1 & E & [Hc _]). rewrite E in Hr. injection Hr as _ Hr _. by apply (Hsteps _ Hc).
  - destruct (destroy_call Hx q) as (k1 & E & [Hc _]). rewrite E in Hr. injection Hr as _ Hr _. by apply (Hsteps _ Hc).
  - destruct (watch_call Hx q p) as (b & k1 & E & [Hc _] & _). rewrite E in Hr. injection Hr as _ Hr _. by apply (Hsteps _ Hc).
  - destruct (unwatch_call Hx p) as (b & k1 & E & [Hc _] & _). rewrite E in Hr. injection Hr as _ Hr _. by apply (Hsteps _ Hc).
  - destruct (publish_call_exit Hx p info) as (k1 & E & [Hc _] & _). rewrite E in Hr. cbn [mbind option_bind] in Hr.
    injection Hr as _ Hr _. by apply (Hsteps _ Hc).
  - destruct (try_receive_exit Hx q) as (r & k1 & E & [Hc _] & _). rewrite E in Hr. injection Hr as _ Hr _. by apply (Hsteps _ Hc).
  - destruct (exit_enter_call k l W q Hx Hok) as (c & k1 & l1 & E & Hx' & Hks & _). rewrite E in Hr. cbn [mbind option_bind] in Hr.
    injection Hr as _ <- _. apply (stays_weaken False); [done|]. apply (stays_keeps k l k1 l1 l'); [done|apply Hx'|done].
  - destruct Hok as ([w Hw] & Hid & Hfv). rewrite (thread_current_wf k l), Hw in Hr by apply Hx.
    cbn [mbind option_bind] in Hr. be_next Hr. destruct p as [c k1]. injection Hr as _ <- _.
    apply (stays_weaken True); [by left|]. by apply (exit_resume_stays k l W frame w c).
  - pose proof (exit_abort_call k l W t Hx) as Ha. destruct (process_exit_queue_abort_wait t k) as [b k1].
    destruct Ha as (H1 & H2 & _). injection Hr as _ <- _. apply (stays_weaken False); [done|].
    apply (stays_keeps k l k1 l l'); [done|apply H1|done].
  - pose proof (close_call_exit Hx q) as Hc. destruct (queue_live k q && _).
    + destruct Hc as (k1 & E & [Hc _] & _). rewrite E in Hr. injection Hr as _ Hr _. by apply (Hsteps _ Hc).
    + rewrite Hc in Hr. injection Hr as _ Hr _. by apply (Hsteps _ (exit_steps_refl k l W Hx)).
  - destruct Hok as [Hok _]. be_next Hr. injection Hr as _ <- _. apply (stays_weaken (exists f, e = EBlock f)).
    + intros [f ->]. right. by exists f.
    + apply sched_stays; [apply Hx|done|done|done].
Qed.

Lemma step_kernel {A B} (a a' : A) (x x' : Kernel) (b b' : B) : Some (a, x, b) = Some (a', x', b') -> x' = x.
Proof using. congruence. Qed.

Lemma bi_watch q p k : beside_ipc ipc_kind k (process_exit_queue_watch q p k).2.
Proof using. unfold process_exit_queue_watch. if_case; [done|]. by destruct (List.find _ _). Qed.

Lemma bi_unwatch p k : beside_ipc ipc_kind k (process_exit_queue_unwatch_process p k).2.
Proof using. unfold process_exit_queue_unwatch_process. do 3 (if_case; [done|]). by destruct (watch_slot _ _ _). Qed.

(** No exit-queue event touches endpoints or their waiters. *)
Lemma exit_step_beside e k W log k' W' : exit_step idle_loop e k W = Some (log, k', W') -> beside_ipc ipc_kind k k'.
Proof using All.
  destruct e as [q|q|q p|p|p info|q|q|frame|t|q|e]; cbn [exit_step]; intros E.
  - apply step_kernel in E as ->. unfold process_exit_queue_create. by repeat if_case.
  - apply step_kernel in E as ->. unfold process_exit_queue_destroy. by repeat if_case.
  - apply step_kernel in E as ->. apply bi_watch.
  - apply step_kernel in E as ->. apply bi_unwatch.
  - be_next E. destruct p0 as [b k1]. injection E as _ <- _. exact (bi_publish _ _ _ _ _ E0).
  - unfold process_exit_queue_try_receive in E. pose proof (bi_receive (P := ipc_kind) q k) as H1. be_next E. injection E as _ <- _.
    destruct (_ && _); [by rewrite E0 in H1|]. by injection E0 as _ <-.
  - pose proof (bi_enter (P := ipc_kind) eq_refl q k) as H1. destruct (exit_receive_enter q k). by injection E as _ <- _.
  - be_next E. be_next E. destruct p as [c k1]. injection E as _ <- _. unfold exit_resume_step in E1. be_next E1.
    destruct p as [c1 k2]. apply (bi_resume (P := ipc_kind) eq_refl) in E. unfold exit_wait_step in E1.
    destruct c1 as [b|w'|w' [[|]|op|]]; try (injection E1 as _ <-; exact E).
    + apply (bi_resume (P := ipc_kind) eq_refl) in E1. by eapply bi_trans.
    + be_next E1. apply calm_trap, (bi_calm (P := ipc_kind)) in E2. assert (beside_ipc ipc_kind k k0) as H2 by (by eapply bi_trans).
      be_next E1; [|by injection E1 as _ <-]. apply (bi_resume (P := ipc_kind) eq_refl) in E1. by eapply bi_trans.
  - pose proof (bi_abort (P := ipc_kind) eq_refl t k) as H1. destruct (process_exit_queue_abort_wait t k). by injection E as _ <- _.
  - be_next E. destruct p as [b k1]. injection E as _ <- _. exact (bi_close _ _ _ _ E0).
  - be_next E. injection E as _ <- _. by apply bi_calm, (calm_event idle_loop e).
Qed.

End Stays.
