(* ===== verification/Task.v ===== *)
(** Task termination: [kernel/task.c].

    The functions that end threads and processes compose the scheduler, message
    passing, the exit queues and the process records. Every function runs with
    interrupts excluded; [None] is [cpu_halt_forever]. Walks over the threads of
    a process end at null; their fuel is the thread count of a list that was
    just checked, and a walk that does not end in it is [None] too.
    [task_quiesce_process] needs [thread_destroy] and is not modelled. *)

From S2P Require Import Prelude Pmm ObjectStorage Kernel Objects Thread.
From S2P Require Import Scheduler Ipc ExitQueue Process.

Open Scope jcos_scope.

(** Ends the wait of another thread on behalf of its owner; a record of no known
    kind is not detached. *)
Definition detach_wait (thread : Z) (k : Kernel) : bool * Kernel :=
  if !thread_wait_active k thread then (true, k) else
  match t_wait_kind (thr k thread) with
  | THREAD_WAIT_IPC_RECEIVE | THREAD_WAIT_IPC_SEND => ipc_abort_thread_wait thread k
  | THREAD_WAIT_PROCESS_EXIT => process_exit_queue_abort_wait thread k
  | THREAD_WAIT_NONE => (false, k)
  end.

Definition task_terminate_thread (thread : Z) (k : Kernel) : option (bool * Kernel) :=
  if !nz thread || (thread =? thread_current k) || !nz (t_id (thr k thread)) then Some (false, k) else
  if !scheduler_can_terminate_thread k thread then Some (false, k) else
  let '(detached, k) := detach_wait thread k in
  if !detached then Some (false, k) else
  match scheduler_terminate_thread thread k with
  | (true, k) => Some (true, k)
  | (false, _) => None
  end.

Definition task_user_fault_supported (vector : Z) : bool :=
  (vector =? 0) || (vector =? 6) || (vector =? 7) || (vector =? 13) || (vector =? 14).

Definition interrupt_from_user (k : Kernel) (frame : Z) : bool :=
  if !nz frame then false else Z.land (f_cs (frm k frame)) 3 =? 3.

Section Current.
  Context `{KernelStack} (idle_loop : Z).

(** The current thread of a user process in the state in which it may end. *)
Definition task_user_terminal_current (frame : Z) (k : Kernel) : option Z :=
  let current := thread_current k in
  let process := t_process (thr k current) in
  if !nz frame || !interrupt_from_user k frame || !nz current || !nz (t_id (thr k current))
     || !nz process || !nz (process_capabilities k process) || p_kernel (prc k process)
     || !state_is k current THREAD_STATE_RUNNING || !t_on_run_queue (thr k current)
     || thread_wait_active k current || !no_event (p_exit_info (prc k process))
     || !process_thread_can_detach k process current || !scheduler_can_terminate_current k
  then None else Some current.

(** What [task_publish_exit] records; a frame is given for a fault only. *)
Definition exit_record (k : Kernel) (process thread : Z) (reason : ProcessExitReason) (frame fault_address : Z)
    : ProcessExitInfo :=
  let f := frm k frame in
  if nz frame && bool_decide (reason = PROCESS_EXIT_FAULT) then
    mkProcessExitInfo reason (p_id (prc k process)) (t_id (thr k thread)) (f_vector f) (f_error_code f) (f_rip f)
      (if f_vector f =? 14 then fault_address else 0)
  else mkProcessExitInfo reason (p_id (prc k process)) (t_id (thr k thread)) 0 0 0 0.

Definition task_publish_exit (process thread : Z) (reason : ProcessExitReason) (frame fault_address : Z) (k : Kernel)
    : option Kernel :=
  '(published, k) ← process_exit_publish process (exit_record k process thread reason frame fault_address) k;
  if negb published then None else Some k.

(** The loop of [task_exit_current_from_interrupt] that computes [last]. *)
Fixpoint last_scan (count : nat) (k : Kernel) (current t : Z) (last : bool) : option bool :=
  if !nz t then Some last else
  match count with
  | O => None
  | S count =>
    last_scan count k current (t_process_next (thr k t))
      (if (t != current) && !state_is k t THREAD_STATE_DEAD then false else last)
  end.

Definition close_owned_or_halt (owner : Z) (k : Kernel) : option Kernel :=
  '(closed, k) ← ipc_close_owned_endpoints owner k;
  if negb closed then None else Some k.

Definition task_exit_current_from_interrupt (frame : Z) (k : Kernel) : option (Z * Kernel) :=
  current ← task_user_terminal_current frame k;
  let process := t_process (thr k current) in
  last ← last_scan (Z.to_nat (p_thread_count (prc k process))) k current (process_thread_first k process) true;
  k ← (if (last : bool) then
         k ← close_owned_or_halt (p_id (prc k process)) k;
         task_publish_exit process current PROCESS_EXIT_NORMAL 0 0 k
       else Some k);
  scheduler_terminate_current_from_interrupt idle_loop frame k.

(** The loop of [task_fault_current_from_interrupt] over the siblings. *)
Fixpoint terminate_siblings (count : nat) (current t : Z) (k : Kernel) : option Kernel :=
  if !nz t then Some k else
  match count with
  | O => None
  | S count =>
    if (t != current) && !state_is k t THREAD_STATE_DEAD then
      '(terminated, k) ← task_terminate_thread t k;
      if negb terminated then None else terminate_siblings count current (t_process_next (thr k t)) k
    else terminate_siblings count current (t_process_next (thr k t)) k
  end.

Definition task_fault_current_from_interrupt (frame fault_address : Z) (k : Kernel) : option (Z * Kernel) :=
  current ← task_user_terminal_current frame k;
  let process := t_process (thr k current) in
  if !task_user_fault_supported (f_vector (frm k frame)) then None else
  k ← terminate_siblings (Z.to_nat (p_thread_count (prc k process))) current (process_thread_first k process) k;
  k ← close_owned_or_halt (p_id (prc k process)) k;
  k ← task_publish_exit process current PROCESS_EXIT_FAULT frame fault_address k;
  scheduler_terminate_current_from_interrupt idle_loop frame k.

End Current.
