(* ===== verification/TaskProofs.v ===== *)
(** Ending threads under the joint invariant of message passing and exit
    queues: what [task_terminate_thread] does, and what it keeps. *)

From S2P Require Import Prelude Pmm ObjectStorage Kernel Objects Capability.
From S2P Require Import Endpoint Thread Ring Scheduler SchedulerProofs SchedulerWf.
From S2P Require Import SchedulerOps SchedulerTheorems Ipc IpcWf IpcOps.
From S2P Require Import IpcReserve IpcCalls IpcClose IpcEvents ExitQueue ExitRing.
From S2P Require Import ExitData ExitClose ExitWaits ExitBlocking.
From S2P Require Import ExitEvents Process Joint Task.

Open Scope jcos_scope.

(** Both components over one run list. *)
Record joint (k : Kernel) (l : list Z) (C : gmap Z Waiting) (W : gmap Z ExitWaiting) : Prop := {
  jt_ipc : ipc_wf k l C;
  jt_exit : exit_wf k l W }.

Lemma joint_sched k l C W : joint k l C W -> sched_wf k l.
Proof. intros H. apply H. Qed.

(** * What ending threads and closing endpoints never touches *)

(** A thread's identity, owner, place in its process and kernel stack. *)
Definition thread_links (t : Thread) :=
  (t_id t, t_process t, t_process_next t, t_process_prev t,
   (t_kernel_stack_base t, t_kernel_stack_top t, t_kernel_stack_size t)).

Record steady (k k' : Kernel) : Prop := {
  st_thr : forall t, thread_links (thr k' t) = thread_links (thr k t);
  st_dead : forall t, t_state (thr k t) = THREAD_STATE_DEAD -> view k' t = view k t;
  st_frames : k_frames k' = k_frames k;
  st_sched : sched_fixed (k_sch k') = sched_fixed (k_sch k);
  st_ept : k_ept k' = k_ept k }.

(** Processes are left alone too. *)
Record firm (k k' : Kernel) : Prop := {
  fm_steady : steady k k';
  fm_processes : k_processes k' = k_processes k;
  fm_prc : k_prc k' = k_prc k }.

Lemma steady_refl k : steady k k.
Proof. done. Qed.

Lemma view_dead k k' t : view k' t = view k t -> t_state (thr k' t) = t_state (thr k t).
Proof. unfold view. intros H. by injection H. Qed.

Lemma steady_trans k k1 k2 : steady k k1 -> steady k1 k2 -> steady k k2.
Proof.
  intros [H1 D1 ? ? ?] [H2 D2 ? ? ?]. split; [intros t; by rewrite H2| |congruence..].
  intros t Hd. pose proof (D1 t Hd) as E. rewrite D2; [done|]. by rewrite (view_dead _ _ _ E).
Qed.

(** A write to a thread that keeps its links and, when it is dead, its context. *)
Lemma steady_thr k t f :
  (forall u, thread_links (f u) = thread_links u) ->
  t_state (thr k t) <> THREAD_STATE_DEAD \/
  (forall u, (t_state (f u), t_interrupt_context_ready (f u), t_interrupt_rsp (f u)) =
             (t_state u, t_interrupt_context_ready u, t_interrupt_rsp u)) -> steady k (set_thr t f k).
Proof.
  intros Hf Hd. split; try done; intros u; unfold view; rewrite thr_set; case_decide as E; try done; subst u; [apply Hf|].
  intros Hdead. destruct Hd as [?|Hv]; [done|]. apply Hv.
Qed.

Lemma steady_sm k f : (forall m, sched_fixed (f m) = sched_fixed m) -> steady k (set_sm f k).
Proof. intros Hf. split; try done. apply Hf. Qed.

Lemma steady_ept k e f : steady k (set_ept e f k).
Proof. done. Qed.

Lemma steady_exq k q f : steady k (set_exq q f k).
Proof. done. Qed.

Lemma steady_im k f : steady k (set_im f k).
Proof. done. Qed.

Lemma steady_prc k p f : steady k (set_prc p f k).
Proof. done. Qed.

Ltac steady :=
  unfold set_run_next, set_on_run_queue, wait_clear, drop_staged, clear_receiver, set_timed, link_process;
  repeat first
    [ assumption | apply steady_refl
    | eapply steady_trans;
      [|first [ apply steady_thr; [done|right; done] | apply steady_sm; done | apply steady_ept | apply steady_exq
              | apply steady_im | apply steady_prc ]] ].

Lemma steady_unlink t k : steady k (scheduler_unlink t k).2.
Proof.
  unfold scheduler_unlink. if_case; [steady|]. destruct (find_previous _ _ _ _); [|steady].
  if_case; [steady|]. repeat if_case; cbn [snd]; steady.
Qed.

Lemma steady_add t k : steady k (scheduler_add t k).2.
Proof. unfold scheduler_add. repeat if_case; cbn [snd]; steady. Qed.

Lemma add_refused t k k' : scheduler_add t k = (false, k') -> k' = k.
Proof. unfold scheduler_add. repeat if_case; congruence. Qed.

Lemma state_alive k t s : state_is k t s = true -> s <> THREAD_STATE_DEAD -> t_state (thr k t) <> THREAD_STATE_DEAD.
Proof. unfold state_is. intros H. apply bool_decide_eq_true in H. congruence. Qed.

Lemma steady_wake t k : steady k (scheduler_wake t k).2.
Proof.
  unfold scheduler_wake. if_case; [steady|]. if_case; [steady|]. apply orb_false_iff in E as [_ E].
  apply negb_false_iff in E. pose proof (state_alive k t _ E) as Hal. set (k0 := set_state t THREAD_STATE_READY k).
  assert (steady k k0) as H0 by (apply steady_thr; [done|left; by apply Hal]).
  pose proof (steady_add t k0) as H. destruct (scheduler_add t k0) as [[|] k1] eqn:Ea; cbn [snd negb] in *.
  - by eapply steady_trans.
  - apply add_refused in Ea as ->. eapply steady_trans; [exact H0|]. apply steady_thr; [done|left].
    unfold k0, set_state. rewrite thr_set, decide_True by done. done.
Qed.

Lemma views_thr k t f u :
  (forall x, (t_state (f x), t_interrupt_context_ready (f x), t_interrupt_rsp (f x)) =
             (t_state x, t_interrupt_context_ready x, t_interrupt_rsp x)) -> view (set_thr t f k) u = view k u.
Proof. intros Hf. unfold view. rewrite thr_set. case_decide; [subst; apply Hf|done]. Qed.

Lemma unlink_views t k u : view (scheduler_unlink t k).2 u = view k u.
Proof.
  unfold scheduler_unlink, set_run_next, set_on_run_queue. if_case; [done|]. destruct (find_previous _ _ _ _); [|done].
  if_case; [done|]. assert (forall k f, view (set_sm f k) u = view k u) as Hsm by done.
  repeat if_case; cbn [snd]; repeat first [rewrite Hsm | rewrite views_thr by done]; done.
Qed.

Lemma steady_terminate t k : steady k (scheduler_terminate_thread t k).2.
Proof.
  unfold scheduler_terminate_thread. if_case; [steady|]. if_case; [steady|]. apply negb_false_iff in E.
  assert (t_state (thr k t) <> THREAD_STATE_DEAD) as Hal.
  { unfold scheduler_can_terminate_thread in E. if_case_in E; [done|]. intros Hd. by rewrite Hd in E. }
  pose proof (view_dead _ _ _ (unlink_views t k t)) as Hun.
  pose proof (steady_unlink t k) as Hu. destruct (_ && _).
  - destruct (scheduler_unlink t k) as [[|] k1]; cbn [snd negb] in *; [|done].
    eapply steady_trans; [exact Hu|]. apply steady_thr; [done|left; congruence].
  - cbn [negb snd]. apply steady_thr; [done|by left].
Qed.

Lemma steady_ready t k k' : make_ready_or_halt t k = Some k' -> steady k k'.
Proof.
  unfold make_ready_or_halt, ipc_make_ready. pose proof (steady_wake t k) as H. destruct (state_is k t THREAD_STATE_BLOCKED).
  - destruct (scheduler_wake t k) as [[|] k1]; [|done]. intros E. by simplify_eq.
  - destruct (_ || _); [|done]. intros E. by simplify_eq.
Qed.

Lemma steady_complete t kind o id r k : steady k (thread_wait_try_complete t kind o id r k).2.
Proof. unfold thread_wait_try_complete. if_case; [steady|]. if_case; [steady|]. cbn [snd]. steady. Qed.

Lemma steady_finish t e kind id r k k' : ipc_finish t e kind id r k = Some k' -> steady k k'.
Proof.
  unfold ipc_finish. pose proof (steady_complete t kind e id r k) as H.
  destruct (thread_wait_try_complete _ _ _ _ _ _) as [[|] k1]; [|done]. intros E. by simplify_eq.
Qed.

Lemma steady_if (b : bool) (r : option Kernel) k k' :
  (if b then r else Some k) = Some k' -> (r = Some k' -> steady k k') -> steady k k'.
Proof. destruct b; [auto|]. intros H _. simplify_eq. apply steady_refl. Qed.

Lemma steady_close e k r k' : ipc_endpoint_close e k = Some (r, k') -> steady k k'.
Proof.
  unfold ipc_endpoint_close. intros H. do 3 (be_next H; [by injection H as _ <-|]). do 4 be_next H. injection H as _ <-.
  apply steady_if in E2; [|apply steady_finish]. apply steady_if in E3; [|apply steady_finish].
  apply steady_if in E4; [|apply steady_ready]. apply steady_if in E5; [|apply steady_ready].
  eapply steady_trans; [|exact E5]. eapply steady_trans; [|exact E4]. steady.
  eapply steady_trans; [|exact E3]. eapply steady_trans; [|exact E2]. steady.
Qed.

Lemma steady_close_owned o k r k' : ipc_close_owned_endpoints o k = Some (r, k') -> steady k k'.
Proof.
  unfold ipc_close_owned_endpoints. intros H. be_next H; [by injection H as _ <-|].
  revert H. generalize (S (Z.to_nat ENDPOINT_STORAGE_CAPACITY)). generalize (endpoint_owned_first k o). intros e n.
  revert e k E. induction n as [|n IH]; intros e k E H; cbn [close_owned_loop] in H; [done|].
  be_next H; [by injection H as _ <-|]. be_next H; [by apply IH in H|]. be_next H. destruct p as [b k1].
  apply steady_close in E2. be_next H; [by injection H as _ <-|]. apply IH in H; [|done]. by eapply steady_trans.
Qed.

Lemma steady_queue_ready t k : steady k (queue_make_ready t k).2.
Proof. unfold queue_make_ready. if_case; [apply steady_wake|steady]. Qed.

Lemma steady_receiver q r k k' : complete_receiver q r k = Some k' -> steady k k'.
Proof.
  unfold complete_receiver. intros H. be_next H; [|injection H as <-; steady].
  match type of H with context [thread_wait_try_complete ?t ?kd ?q ?id ?r ?k] => pose proof (steady_complete t kd q id r k) as H1 end.
  destruct (thread_wait_try_complete _ _ _ _ _ _) as [[|] k1]; [|done].
  match type of H with context [queue_make_ready ?t ?k1] => pose proof (steady_queue_ready t k1) as H2 end.
  destruct (queue_make_ready _ _) as [[|] k2]; [|done]. injection H as <-. by eapply steady_trans.
Qed.

(** Publication changes the watched process and its queue only. *)
Lemma steady_publish p info k r k' : process_exit_queue_publish_process p info k = Some (r, k') -> steady k k'.
Proof.
  unfold process_exit_queue_publish_process. intros H. do 3 (be_next H; [by injection H as _ <-|]).
  destruct (watch_slot _ _ _); [|by injection H as _ <-]. be_next H. injection H as _ <-. apply steady_receiver in E2.
  eapply steady_trans; [|exact E2]. steady.
Qed.

Lemma firm_refl k : firm k k.
Proof. done. Qed.

Lemma firm_trans k k1 k2 : firm k k1 -> firm k1 k2 -> firm k k2.
Proof. intros [H1 ? ?] [H2 ? ?]. split; [by eapply steady_trans|congruence..]. Qed.

Lemma firm_thr k t f : steady k (set_thr t f k) -> firm k (set_thr t f k).
Proof. done. Qed.

Lemma firm_beside P k k' : steady k k' -> beside_exit P k k' -> firm k k'.
Proof. intros H [_ E]. unfold exit_part in E. by injection E as _ _ E1 E2. Qed.

Lemma firm_terminate t k : firm k (scheduler_terminate_thread t k).2.
Proof.
  apply (firm_beside exit_kind); [apply steady_terminate|]. apply be_calm.
  exact (calm_event (H := Build_KernelStack (fun _ _ _ => true)) 0 (ETerminate t) k _ eq_refl).
Qed.

Lemma firm_close_owned o k r k' : ipc_close_owned_endpoints o k = Some (r, k') -> firm k k'.
Proof.
  intros H. apply (firm_beside exit_kind); [by eapply steady_close_owned|]. unfold ipc_close_owned_endpoints in H.
  be_next H; [by injection H as _ <-|]. by eapply be_close_owned.
Qed.

(** * Ending a wait *)

Lemma cleared_inactive k t : wait_fields (thr k t) = wait_fields (wait_cleared (thr k t)) -> thread_wait_active k t = false.
Proof.
  intros H. apply wait_fields_eq in H as (_ & _ & H1 & H2 & H3 & H4). unfold thread_wait_active. if_case; [done|].
  rewrite H1, H2, H3, H4. done.
Qed.

Lemma active_kept k k' t :
  tm_storage (k_thr k') = tm_storage (k_thr k) -> tm_initialized (k_thr k') = tm_initialized (k_thr k) ->
  wait_fields (thr k' t) = wait_fields (thr k t) -> thread_wait_active k' t = thread_wait_active k t.
Proof.
  intros Hs Hi H. apply wait_fields_eq in H as (H0 & _ & H1 & H2 & H3 & H4).
  unfold thread_wait_active, thread_known, thread_storage_live. by rewrite Hs, Hi, H0, H1, H2, H3, H4.
Qed.

(** What ending the wait of [t] leaves: [t] waits for nothing, and nothing else
    of the scheduler, the processes or other waits has changed. *)
Record detached (k : Kernel) (l : list Z) (C : gmap Z Waiting) (W : gmap Z ExitWaiting) (t : Z) (k' : Kernel) : Prop := {
  dt_joint : joint k' l (delete t C) (delete t W);
  dt_quiet : quiet k k';
  dt_firm : firm k k';
  dt_inactive : thread_wait_active k' t = false;
  dt_other : forall u, u <> t -> wait_fields (thr k' u) = wait_fields (thr k u);
  dt_flow : flow k k' [];
  dt_xflow : xflow k k' [];
  dt_awake : awake k l C -> awake k' l (delete t C);
  dt_xawake : awake k l W -> awake k' l (delete t W) }.

Lemma quiet_located k k' l t : quiet k k' -> located k l t -> located k' l t.
Proof. intros Hq. apply (keeps_quiet k k' l Hq). Qed.

Lemma ipc_only k l C W t w : joint k l C W -> C !! t = Some w -> W !! t = None.
Proof.
  intros [Hi Hx] Hw. destruct (W !! t) as [v|] eqn:Hv; [|done].
  destruct (ic_waiter _ _ _ (iw_core _ _ _ Hi) t w Hw) as [Hk _ Hm _ _ _ _].
  pose proof (match_kind _ _ _ _ _ (ew_match _ _ _ _ (xf_waiter _ _ _ Hx t v Hv))) as E.
  rewrite (match_kind _ _ _ _ _ Hm) in E. by rewrite E in Hk.
Qed.

Lemma detach_ipc k l C W t w :
  joint k l C W -> C !! t = Some w -> t <> current_of k ->
  t_state (thr k t) = THREAD_STATE_BLOCKED \/ t_state (thr k t) = THREAD_STATE_READY ->
  exists k', ipc_abort_thread_wait t k = (true, k') /\ detached k l C W t k'.
Proof.
  intros Hj Hw Hne Hst. pose proof Hj as [Hi Hx]. pose proof (abort_call k l C t Hi) as Ha.
  pose proof (be_abort (P := exit_kind) eq_refl t k) as Hb.
  rewrite (abort_form k l C t w Hi Hw Hne Hst) in *. cbn [snd] in Hb. eexists. split; [done|].
  destruct Ha as (Hi' & Hks & Hfl & _ & [Haw _]).
  set (k1 := (ipc_timeout_unregister t (wt_endpoint w) (wt_kind w) (wt_id w) k).2) in *.
  assert (quiet k k1 /\ firm k k1 /\ forall u, thr k1 u = thr k u) as (Hq1 & Hf1 & Ht1)
    by (unfold k1, ipc_timeout_unregister; by destruct (List.find _ _)).
  set (k2 := clear_waiting _ _ _) in *.
  assert (forall u, thr k2 u = if decide (t = u) then wait_cleared (thr k t) else thr k u) as Ht2.
  { intros u. unfold k2, clear_waiting. rewrite <- !Ht1. transitivity (thr (wait_clear t k1) u); [by destruct (bool_decide _)|].
    unfold wait_clear. rewrite thr_set. by case_decide; subst. }
  assert (quiet k k2) as Hq2 by (apply (quiet_trans k k1); [done|apply release_quiet]).
  split; try done.
  - split; [done|]. rewrite delete_id by by eapply ipc_only. apply (exit_kept k k2 l l W Hx Hb); [apply Hi'|]. intros u v _. by apply quiet_located.
  - apply (firm_trans k k1); [done|]. apply (firm_trans k1 (wait_clear t k1)); [by apply firm_thr; apply steady_thr; [|right]|].
    unfold k2, clear_waiting. by destruct (bool_decide _).
  - apply cleared_inactive. by rewrite Ht2, decide_True.
  - intros u Hu. by rewrite Ht2, decide_False.
  - by eapply beside_xflow.
  - rewrite delete_id by by eapply ipc_only. by apply (exit_awake_kept k).
Qed.

Lemma exit_only_waits k l C W t w : joint k l C W -> W !! t = Some w -> C !! t = None.
Proof.
  intros Hj Hw. destruct (C !! t) as [v|] eqn:Hv; [|done]. by rewrite (ipc_only k l C W t v Hj Hv) in Hw.
Qed.

Lemma detach_exit k l C W t w :
  joint k l C W -> W !! t = Some w -> t <> current_of k ->
  t_state (thr k t) = THREAD_STATE_BLOCKED \/ t_state (thr k t) = THREAD_STATE_READY ->
  exists k', process_exit_queue_abort_wait t k = (true, k') /\ detached k l C W t k'.
Proof.
  intros Hj Hw Hne Hst. pose proof Hj as [Hi Hx]. pose proof (exit_abort_call k l W t Hx) as Ha.
  pose proof (bi_abort (P := ipc_kind) eq_refl t k) as Hb.
  rewrite (exit_abort_form k l W t w Hx Hw Hne Hst) in *. cbn [snd] in Hb. eexists. split; [done|].
  destruct Ha as (Hx' & Hks & Hfl & Haw & _). set (k2 := clear_receiver _ _) in *.
  assert (forall u, thr k2 u = if decide (t = u) then wait_cleared (thr k t) else thr k u) as Ht2.
  { intros u. change (thr k2 u) with (thr (wait_clear t k) u). unfold wait_clear. by rewrite thr_set. }
  assert (quiet k k2) as Hq2 by (apply (quiet_trans k (wait_clear t k)); [by apply quiet_thr|done]).
  split; try done.
  - split; [|done]. rewrite delete_id by by eapply exit_only_waits.
    apply (ipc_kept k k2 l l C Hi Hb); [apply Hx'|]. intros u v _. by apply quiet_located.
  - apply (firm_trans k (wait_clear t k)); [by apply firm_thr; apply steady_thr; [|right]|done].
  - apply cleared_inactive. by rewrite Ht2, decide_True.
  - intros u Hu. by rewrite Ht2, decide_False.
  - by eapply beside_flow.
  - rewrite delete_id by by eapply exit_only_waits. by apply (ipc_awake_kept k).
Qed.

(** A thread outside every wait. *)
Lemma idle_waits k l C W t : joint k l C W -> thread_wait_active k t = false -> C !! t = None /\ W !! t = None.
Proof.
  intros [Hi Hx] Ha. split.
  - destruct (C !! t) as [w|] eqn:Hw; [|done]. pose proof (ic_waiter _ _ _ (iw_core _ _ _ Hi) t w Hw) as Ho.
    by rewrite (waiter_active k l t w Ho) in Ha.
  - destruct (W !! t) as [w|] eqn:Hw; [|done]. pose proof (ew_match _ _ _ _ (xf_waiter _ _ _ Hx t w Hw)) as Hm.
    by rewrite (matches_active _ _ _ _ _ Hm) in Ha.
Qed.

Lemma detach_call k l C W t :
  joint k l C W -> t <> current_of k ->
  t_state (thr k t) = THREAD_STATE_BLOCKED \/ t_state (thr k t) = THREAD_STATE_READY ->
  (thread_wait_active k t = true -> t_wait_kind (thr k t) <> THREAD_WAIT_NONE) ->
  exists k', detach_wait t k = (true, k') /\ detached k l C W t k'.
Proof.
  intros Hj Hne Hst Hk. unfold detach_wait. destruct (thread_wait_active k t) eqn:Hact; cbn [negb].
  - specialize (Hk eq_refl). destruct (C !! t) as [w|] eqn:Hw.
    { destruct (detach_ipc k l C W t w Hj Hw Hne Hst) as (k' & Ha & Hd). exists k'. split; [|done].
      destruct (ic_waiter _ _ _ (iw_core _ _ _ (jt_ipc _ _ _ _ Hj)) t w Hw) as [Hwk _ Hm _ _ _ _].
      rewrite (match_kind _ _ _ _ _ Hm). by destruct (wt_kind w). }
    destruct (W !! t) as [w|] eqn:Hv.
    { destruct (detach_exit k l C W t w Hj Hv Hne Hst) as (k' & Ha & Hd). exists k'. split; [|done].
      by rewrite (match_kind _ _ _ _ _ (ew_match _ _ _ _ (xf_waiter _ _ _ (jt_exit _ _ _ _ Hj) t w Hv))). }
    pose proof (ic_other _ _ _ (iw_core _ _ _ (jt_ipc _ _ _ _ Hj)) t Hw) as H1.
    pose proof (xf_other _ _ _ (jt_exit _ _ _ _ Hj) t Hv) as H2. by destruct (t_wait_kind (thr k t)).
  - exists k. split; [done|]. destruct (idle_waits k l C W t Hj Hact) as [HC HW].
    split; rewrite ?(delete_id C), ?(delete_id W) by done; try done; [apply flow_refl|by apply xflow_same].
Qed.

(** * Terminating *)

(** A thread other than the current one that the scheduler can end. *)
Lemma can_terminate_view k l t :
  sched_wf k l -> t <> current_of k -> t <> 0 -> t_id (thr k t) <> 0 ->
  t_state (thr k t) = THREAD_STATE_BLOCKED \/ t_state (thr k t) = THREAD_STATE_READY ->
  scheduler_can_terminate_thread k t = true.
Proof.
  intros Hs Hne Hz Hid [Hb|Hr]; [by apply (can_terminate_blocked k l)|].
  destruct (decide (t ∈ l)) as [Hin|Hnot]; [by apply (can_terminate_member k l)|].
  unfold scheduler_can_terminate_thread, thread_current, nz. rewrite (wf_init _ _ Hs), (wf_tinit _ _ Hs). fold (current_of k).
  rewrite !(proj2 (Z.eqb_neq _ _)) by done. cbn [negb orb]. pose proof (wf_list _ _ Hs) as Hl.
  rewrite Hr, (rl_queued _ _ Hl), bool_decide_eq_false_2 by done. by apply Z.eqb_eq, (rl_off _ _ Hl).
Qed.

Lemma can_terminate_inv k l t :
  sched_wf k l -> scheduler_can_terminate_thread k t = true ->
  t <> current_of k /\ nz t = true /\ nz (t_id (thr k t)) = true /\
  (t_state (thr k t) = THREAD_STATE_BLOCKED \/ t_state (thr k t) = THREAD_STATE_READY).
Proof.
  intros Hs. unfold scheduler_can_terminate_thread. rewrite (thread_current_wf k l Hs). if_case; [done|].
  repeat (apply orb_false_iff in E as [E ?]). intros Hc. split_and!.
  - by apply Z.eqb_neq.
  - by apply negb_false_iff.
  - by apply negb_false_iff.
  - destruct (t_state (thr k t)); try done; auto.
Qed.

(** The scheduler's part of a termination. *)
Lemma sched_terminate_spec k l t :
  sched_wf k l -> scheduler_can_terminate_thread k t = true -> thread_wait_active k t = false ->
  exists k' l', scheduler_terminate_thread t k = (true, k') /\ sched_wf k' l' /\
    view k' t = (THREAD_STATE_DEAD, false, 0) /\ (forall u, u <> t -> view k' u = view k u) /\
    idle k' = idle k /\ current_of k' = current_of k /\ t ∉ l' /\ (forall u, u <> t -> u ∈ l' <-> u ∈ l).
Proof.
  intros Hs Hc Ha. destruct (can_terminate_inv k l t Hs Hc) as (Hne & _). destruct (decide (t ∈ l)) as [Hin|Hnot].
  - apply list_elem_of_split in Hin as (a & b & ->). pose proof (rl_nodup _ _ (wf_list _ _ Hs)) as Hnd.
    destruct (terminate_member_spec k a t b Hs Hne Ha) as (k' & -> & H1 & H2 & H3 & H4 & H5). exists k', (a ++ b).
    apply list.NoDup_app in Hnd as (_ & Hd & Hnd). apply list.NoDup_cons in Hnd as [Hnb _].
    split_and!; try done; [|intros u Hu; set_solver]. intros [?|?]%elem_of_app; [|done]. apply (Hd t); set_solver.
  - exists (set_thr t terminated k), l.
    destruct (terminated_wf k k l l t Hs (relinked_refl k) (wf_list _ _ Hs) Hnot Hne) as (H1 & H2 & H3 & H4 & H5); try done.
    split_and!; try done. unfold scheduler_terminate_thread. rewrite Hc, Ha. cbn [negb].
    by rewrite (rl_queued _ _ (wf_list _ _ Hs)), (bool_decide_eq_false_2 (t ∈ l)), andb_false_r by done.
Qed.

(** [t] has ended: it is off the scheduler and waits for nothing. *)
Definition ended (k : Kernel) (t : Z) : Prop :=
  t_state (thr k t) = THREAD_STATE_DEAD /\ t_on_run_queue (thr k t) = false /\ t_run_next (thr k t) = 0 /\
  t_interrupt_context_ready (thr k t) = false /\ t_interrupt_rsp (thr k t) = 0 /\ thread_wait_active k t = false.

(** What a granted termination of [t] leaves of the rest. *)
Record terminates (k : Kernel) (l : list Z) (C : gmap Z Waiting) (W : gmap Z ExitWaiting) (t : Z)
    (k' : Kernel) (l' : list Z) : Prop := {
  tm_joint : joint k' l' (delete t C) (delete t W);
  tm_firm : firm k k';
  tm_ended : ended k' t;
  tm_views : forall u, u <> t -> view k' u = view k u /\ wait_fields (thr k' u) = wait_fields (thr k u);
  tm_others : forall u, u <> t -> u ∈ l' <-> u ∈ l;
  tm_here : current_of k' = current_of k /\ idle k' = idle k;
  tm_known : tm_storage (k_thr k') = tm_storage (k_thr k) /\ tm_initialized (k_thr k') = tm_initialized (k_thr k);
  tm_flow : flow k k' [] /\ xflow k k' [];
  tm_hook : hook_armed k = false -> hook_armed k' = false;
  tm_awake : (awake k l C -> awake k' l' (delete t C)) /\ (awake k l W -> awake k' l' (delete t W)) }.

(** The code's guard, and a wait record of a known kind. *)
Definition can_end (k : Kernel) (t : Z) : bool :=
  scheduler_can_terminate_thread k t && (!thread_wait_active k t || !no_wait (t_wait_kind (thr k t))).

Lemma calm_terminate t k : calm k (scheduler_terminate_thread t k).2.
Proof. exact (calm_event (H := Build_KernelStack (fun _ _ _ => true)) 0 (ETerminate t) k _ eq_refl). Qed.

(** The scheduler's termination of a thread that waits for nothing. *)
Lemma finish_call k l C W t :
  joint k l C W -> scheduler_can_terminate_thread k t = true -> thread_wait_active k t = false ->
  exists k' l', scheduler_terminate_thread t k = (true, k') /\ terminates k l C W t k' l'.
Proof.
  intros Hj Hc Ha. pose proof Hj as [Hi Hx]. destruct (idle_waits k l C W t Hj Ha) as [HC HW].
  destruct (sched_terminate_spec k l t (joint_sched _ _ _ _ Hj) Hc Ha) as (k' & l' & Ht & Hs' & Hv & Hov & Hid & Hcur & Hnot & Hl).
  exists k', l'. split; [done|]. pose proof (calm_terminate t k) as Hca. pose proof (firm_terminate t k) as Hf.
  rewrite Ht in Hca, Hf. cbn [snd] in Hca, Hf.
  assert (forall u, u <> t -> located k l u -> located k' l' u) as Hloc.
  { intros u Hu [Hin|Hb]; [left; by apply Hl|right]. by destruct (view_eq k k' u (Hov u Hu)) as (-> & _). }
  pose proof (wf_list _ _ Hs') as Hrl.
  split; rewrite ?(delete_id C), ?(delete_id W) by done; try done.
  - split; [apply (ipc_kept k k' l l' C Hi)|apply (exit_kept k k' l l' W Hx)];
      try done; try (by apply bi_calm); try (by apply be_calm); intros u w Hu; apply Hloc; congruence.
  - unfold view in Hv. injection Hv as H1 H2 H3. split_and!; try done.
    + rewrite (rl_queued _ _ Hrl). by apply bool_decide_eq_false.
    + by apply (rl_off _ _ Hrl).
    + rewrite (active_kept k k' t); try done; apply Hca.
  - intros u Hu. split; [by apply Hov|apply Hca].
  - split; apply Hca.
  - split; [apply (beside_flow ipc_kind); by apply bi_calm|apply (beside_xflow exit_kind); by apply be_calm].
  - unfold hook_armed. by rewrite (ca_rest _ _ Hca).
  - split; [apply (ipc_awake_kept k k' l l' C Hi)|apply (exit_awake_kept k k' l l' W Hx)];
      try (by apply bi_calm); try (by apply be_calm); intros u w Hu Hin; apply Hl; congruence.
Qed.

Lemma terminate_call k l C W t :
  joint k l C W ->
  if can_end k t then exists k' l', task_terminate_thread t k = Some (true, k') /\ terminates k l C W t k' l'
  else task_terminate_thread t k = Some (false, k).
Proof.
  intros Hj. unfold can_end, task_terminate_thread. pose proof (joint_sched _ _ _ _ Hj) as Hs.
  destruct (scheduler_can_terminate_thread k t) eqn:Hc; cbn [andb negb]; [|by destruct (_ || _)].
  destruct (can_terminate_inv k l t Hs Hc) as (Hne & Hz & Hid & Hst).
  rewrite Hz, Hid, (thread_current_wf k l Hs), (proj2 (Z.eqb_neq _ _) Hne). cbn [negb orb].
  destruct (_ || _) eqn:Hk.
  2: { apply orb_false_iff in Hk as [Hact Hk]. apply negb_false_iff in Hact, Hk. apply bool_decide_eq_true in Hk.
       unfold detach_wait. by rewrite Hact, Hk. }
  destruct (detach_call k l C W t Hj Hne Hst) as (k1 & -> & [Hj1 Hq Hf Hin Hot Hfl Hxf Haw Hxw]).
  { intros Hact. rewrite Hact in Hk. cbn [negb orb] in Hk. apply negb_true_iff, bool_decide_eq_false in Hk. done. }
  cbn [negb]. destruct (sched_fields_eq _ _ (qu_thr _ _ Hq t)) as (Est & _).
  pose proof (qu_current _ _ Hq) as Ecur. fold (current_of k1) (current_of k) in Ecur.
  assert (scheduler_can_terminate_thread k1 t = true) as Hc1.
  { apply (can_terminate_view k1 l t); [by eapply joint_sched|by rewrite Ecur|by apply negb_true_iff, Z.eqb_neq in Hz| |by rewrite Est].
    pose proof (st_thr _ _ (fm_steady _ _ Hf) t) as E. unfold thread_links in E. injection E as -> _. by apply negb_true_iff, Z.eqb_neq in Hid. }
  destruct (finish_call k1 l (delete t C) (delete t W) t Hj1 Hc1 Hin)
    as (k' & l' & -> & [J F En Vi Ot [He1 He2] [Hk1 Hk2] [F1 F2] Hh [A1 A2]]).
  rewrite !delete_delete_eq in *. exists k', l'. split; [done|]. split; try done.
  - by apply (firm_trans k k1).
  - intros u Hu. destruct (Vi u Hu) as [-> ->]. split; [|by apply Hot]. unfold view.
    destruct (sched_fields_eq _ _ (qu_thr _ _ Hq u)) as (-> & -> & -> & _). done.
  - split; [congruence|]. rewrite He2. unfold idle. by rewrite (qu_sch _ _ Hq).
  - destruct (qu_world _ _ Hq). split; congruence.
  - split; [apply (flow_trans k k1 k' [] []); done|by apply (xflow_trans k k1 k' [] [])].
  - intros Hu. by apply Hh, (qu_hook _ _ Hq).
  - split; auto.
Qed.
