(* ===== verification/TaskFault.v ===== *)
(** Ending a whole process from a fault or its last exit. *)

From S2P Require Import Prelude Pmm ObjectStorage Kernel Objects Capability.
From S2P Require Import Endpoint Thread Ring Scheduler SchedulerProofs SchedulerWf.
From S2P Require Import SchedulerOps SchedulerTheorems Ipc IpcWf IpcOps.
From S2P Require Import IpcReserve IpcCalls IpcClose IpcEvents ExitQueue ExitRing.
From S2P Require Import ExitData ExitClose ExitWaits ExitBlocking.
From S2P Require Import ExitEvents Process ProcessThreads ProcessTheorems Joint.
From S2P Require Import Task TaskProofs.

Open Scope jcos_scope.

(** * Sweeping the siblings *)

(** A thread the sweep can leave dead: dead with its context dropped already,
    or runnable or blocked with no stray wait record. *)
Definition endable (k : Kernel) (t : Z) : bool :=
  match t_state (thr k t) with
  | THREAD_STATE_DEAD =>
    !thread_wait_active k t && !t_interrupt_context_ready (thr k t) && !nz (t_interrupt_rsp (thr k t))
  | THREAD_STATE_READY | THREAD_STATE_BLOCKED => !thread_wait_active k t || !no_wait (t_wait_kind (thr k t))
  | _ => false
  end.

Definition gone (k : Kernel) (l : list Z) (t : Z) : Prop :=
  view k t = (THREAD_STATE_DEAD, false, 0) /\ t ∉ l /\ thread_wait_active k t = false.

Lemma gone_ended k l t : sched_wf k l -> gone k l t -> ended k t.
Proof.
  intros Hs (Hv & Hn & Ha). unfold view in Hv. injection Hv as H1 H2 H3. pose proof (wf_list _ _ Hs) as Hl.
  split_and!; try done; [rewrite (rl_queued _ _ Hl); by apply bool_decide_eq_false|by apply (rl_off _ _ Hl)].
Qed.

Lemma ended_gone k l t : sched_wf k l -> ended k t -> gone k l t.
Proof.
  intros Hs (H1 & H2 & H3 & H4 & H5 & H6). split_and!; [unfold view; congruence| |done].
  rewrite (rl_queued _ _ (wf_list _ _ Hs)) in H2. by apply bool_decide_eq_false in H2.
Qed.

(** [k'] is [k] with the threads of [S] ended. *)
Record swept (k : Kernel) (l : list Z) (C : gmap Z Waiting) (W : gmap Z ExitWaiting) (S : list Z)
    (k' : Kernel) (l' : list Z) (C' : gmap Z Waiting) (W' : gmap Z ExitWaiting) : Prop := {
  sw_joint : joint k' l' C' W';
  sw_firm : firm k k';
  sw_gone : forall t, t ∈ S -> gone k' l' t;
  sw_views : forall u, u ∉ S -> view k' u = view k u /\ wait_fields (thr k' u) = wait_fields (thr k u);
  sw_others : forall u, u ∉ S -> u ∈ l' <-> u ∈ l;
  sw_here : current_of k' = current_of k /\ idle k' = idle k;
  sw_known : tm_storage (k_thr k') = tm_storage (k_thr k) /\ tm_initialized (k_thr k') = tm_initialized (k_thr k);
  sw_flow : flow k k' [] /\ xflow k k' [];
  sw_awake : (awake k l C -> awake k' l' C') /\ (awake k l W -> awake k' l' W');
  sw_waits : forall u, (u ∈ S -> C' !! u = None /\ W' !! u = None) /\ (u ∉ S -> C' !! u = C !! u /\ W' !! u = W !! u) }.

Lemma swept_nil k l C W : joint k l C W -> swept k l C W [] k l C W.
Proof.
  intros Hj. split; try done; [by intros t ?%elem_of_nil|split; [apply flow_refl|by apply xflow_same]|].
  intros u. split; [by intros ?%elem_of_nil|done].
Qed.

Lemma swept_active k l C W S k' l' C' W' u :
  swept k l C W S k' l' C' W' -> u ∉ S -> thread_wait_active k' u = thread_wait_active k u.
Proof. intros H Hu. apply active_kept; [apply H|apply H|by apply (sw_views _ _ _ _ _ _ _ _ _ H)]. Qed.

Lemma gone_swept k l C W S k' l' C' W' u :
  swept k l C W S k' l' C' W' -> u ∉ S -> gone k l u -> gone k' l' u.
Proof.
  intros H Hu (Hv & Hn & Ha). destruct (sw_views _ _ _ _ _ _ _ _ _ H u Hu) as [Ev _].
  split_and!; [congruence|by rewrite (sw_others _ _ _ _ _ _ _ _ _ H u Hu)|by rewrite (swept_active _ _ _ _ _ _ _ _ _ _ H Hu)].
Qed.

(** A dead thread joins the sweep. *)
Lemma swept_dead k l C W S k' l' C' W' t :
  joint k l C W -> gone k l t -> t ∉ S -> swept k l C W S k' l' C' W' -> swept k l C W (t :: S) k' l' C' W'.
Proof.
  intros Hj Hg Hn H. pose proof (gone_swept _ _ _ _ _ _ _ _ _ _ H Hn Hg) as Hg'. pose proof H as [H1 H2 H3 H4 H5 H6 H7 H8 H9 H10].
  split; try done.
  - intros u [->|Hu]%elem_of_cons; [done|by apply H3].
  - intros u Hu. apply H4. set_solver.
  - intros u Hu. apply H5. set_solver.
  - intros u. split; [|intros Hu; apply H10; set_solver]. intros [->|Hu]%elem_of_cons; [|by apply H10].
    by apply (idle_waits k' l'); [|apply Hg'].
Qed.

(** A terminated thread joins the sweep. *)
Lemma swept_step k l C W t k1 l1 S k' l' C' W' :
  terminates k l C W t k1 l1 -> t ∉ S -> swept k1 l1 (delete t C) (delete t W) S k' l' C' W' ->
  swept k l C W (t :: S) k' l' C' W'.
Proof.
  intros T Hn H. pose proof (tm_joint _ _ _ _ _ _ _ T) as Hj.
  assert (gone k1 l1 t) as Hg by (apply ended_gone; [by eapply joint_sched|apply T]).
  pose proof (gone_swept _ _ _ _ _ _ _ _ _ _ H Hn Hg) as Hg'. pose proof H as [H1 H2 H3 H4 H5 [H6 H6'] [H7 H7'] [H8 H8'] [H9 H9'] H10].
  destruct T as [T1 T2 T3 T4 T5 [T6 T6'] [T7 T7'] [T8 T8'] _ [T9 T9']]. split; try done.
  - by apply (firm_trans k k1).
  - intros u [->|Hu]%elem_of_cons; [done|by apply H3].
  - intros u Hu. destruct (H4 u) as [-> ->]; [set_solver|]. apply T4. set_solver.
  - intros u Hu. rewrite H5, T5; set_solver.
  - split; congruence.
  - split; congruence.
  - split; [by apply (flow_trans k k1 k' [] [])|by apply (xflow_trans k k1 k' [] [])].
  - split; auto.
  - intros u. split.
    + intros [->|Hu]%elem_of_cons; [|by apply H10]. by apply (idle_waits k' l'); [|apply Hg'].
    + intros [Hut Hu]%not_elem_of_cons. destruct (proj2 (H10 u) Hu) as [-> ->]. by rewrite !lookup_delete_ne.
Qed.

(** * The loop *)

Lemma firm_links k k' t :
  firm k k' -> t_id (thr k' t) = t_id (thr k t) /\ t_process (thr k' t) = t_process (thr k t) /\
  next_in k' t = next_in k t /\ prev_of k' t = prev_of k t.
Proof. intros Hf. pose proof (st_thr _ _ (fm_steady _ _ Hf) t) as E. unfold thread_links in E. by injection E. Qed.

Lemma firm_node k k' p t : firm k k' -> owned_node k' p t = owned_node k p t.
Proof. intros Hf. destruct (firm_links k k' t Hf) as (E1 & E2 & _). unfold owned_node. by rewrite E1, E2. Qed.

Lemma firm_segment k k' p l n : firm k k' -> segment k p l n -> segment k' p l n.
Proof.
  intros Hf. revert p. induction l as [|t l IH]; intros p; [done|]. cbn [segment].
  destruct (firm_links k k' t Hf) as (_ & _ & -> & ->). intros (? & ? & ?). auto.
Qed.

Lemma firm_process k k' p : firm k k' -> prc k' p = prc k p.
Proof. intros Hf. unfold prc. by rewrite (fm_processes _ _ Hf). Qed.

Lemma firm_list k k' p l : firm k k' -> thread_list k p l -> thread_list k' p l.
Proof.
  intros Hf [H1 H2 H3 H4 H5]. split; rewrite ?(firm_process k k' p Hf); try done; [|by apply (firm_segment k)].
  intros t Ht. rewrite (firm_node k k' p t Hf). auto.
Qed.

Lemma firm_usable k k' p : firm k k' -> process_usable k' p = process_usable k p.
Proof.
  intros Hf. unfold process_usable, process_storage_live. by rewrite (fm_prc _ _ Hf), (firm_process k k' p Hf).
Qed.

Lemma view_triple k k' t :
  view k' t = view k t -> t_state (thr k' t) = t_state (thr k t) /\
    t_interrupt_context_ready (thr k' t) = t_interrupt_context_ready (thr k t) /\ t_interrupt_rsp (thr k' t) = t_interrupt_rsp (thr k t).
Proof. unfold view. intros H. by injection H. Qed.

Lemma endable_kept k l C W t k1 l1 u : terminates k l C W t k1 l1 -> u <> t -> endable k1 u = endable k u.
Proof.
  intros T Hu. destruct (tm_views _ _ _ _ _ _ _ T u Hu) as [Hv Hw]. destruct (tm_known _ _ _ _ _ _ _ T) as [Hs Hi].
  destruct (view_triple _ _ _ Hv) as (E1 & E2 & E3). unfold endable.
  rewrite E1, E2, E3, (active_kept k k1 u Hs Hi Hw), (wait_fields_kind _ _ Hw). done.
Qed.

Lemma endable_dead k l t :
  sched_wf k l -> t <> current_of k -> endable k t = true -> t_state (thr k t) = THREAD_STATE_DEAD -> gone k l t.
Proof.
  intros Hs Hne He Hd. unfold endable in He. rewrite Hd in He. apply andb_true_iff in He as [He Hr].
  apply andb_true_iff in He as [Ha Hc]. apply negb_true_iff in Ha, Hc. apply negb_true_iff, negb_false_iff, Z.eqb_eq in Hr.
  split_and!; [unfold view; congruence| |done]. intros Hin. destruct (wf_ready _ _ Hs t Hin Hne). congruence.
Qed.

Lemma endable_can_end k l p t :
  sched_wf k l -> t <> current_of k -> owned_node k p t = true -> endable k t = true ->
  t_state (thr k t) <> THREAD_STATE_DEAD -> can_end k t = true.
Proof.
  intros Hs Hne Hn He Hd. pose proof (owned_node_nonnull _ _ _ Hn) as Hz. unfold owned_node in Hn.
  apply andb_true_iff in Hn as [Hn _]. apply andb_true_iff in Hn as [_ Hid]. apply negb_true_iff, Z.eqb_neq in Hid.
  unfold can_end, endable in *. rewrite (can_terminate_view k l t); try done; destruct (t_state (thr k t)); try done; auto.
Qed.

Definition others (cur : Z) (ts : list Z) : list Z := filter (fun t => t <> cur) ts.

Lemma elem_of_others cur ts t : t ∈ others cur ts <-> t <> cur /\ t ∈ ts.
Proof. unfold others. by rewrite list_elem_of_filter. Qed.

Lemma siblings_call n cur p ts prev k l C W :
  joint k l C W -> cur = current_of k -> segment k prev ts 0 -> (forall t, t ∈ ts -> owned_node k p t = true) ->
  NoDup ts -> (length ts <= n)%nat -> (forall t, t ∈ ts -> t <> cur -> endable k t = true) ->
  exists k' l' C' W', terminate_siblings n cur (hd 0 ts) k = Some k' /\ swept k l C W (others cur ts) k' l' C' W'.
Proof.
  revert n prev k l C W. induction ts as [|t ts IH]; intros n prev k l C W Hj Hcur Hseg Hn Hnd Hlen He.
  - exists k, l, C, W. split; [by destruct n|by apply swept_nil].
  - destruct n as [|n]; [cbn in Hlen; lia|]. cbn [terminate_siblings hd length] in *. destruct Hseg as (_ & Hnext & Hseg).
    apply list.NoDup_cons in Hnd as [Hnt Hnd]. pose proof (joint_sched _ _ _ _ Hj) as Hs.
    assert (nz t = true) as -> by (apply negb_true_iff, Z.eqb_neq; apply (owned_node_nonnull k p), Hn; left).
    assert (t ∉ others cur ts) as Hno by (rewrite elem_of_others; tauto). unfold others. rewrite filter_cons. cbn [negb].
    destruct (decide (t = cur)) as [Ht|Ht].
    + rewrite (proj2 (Z.eqb_eq _ _) Ht). cbn [negb andb]. rewrite Hnext, decide_False by tauto.
      apply (IH n t); try done; [intros; apply Hn; by right|lia|intros; apply He; [by right|done]].
    + rewrite (proj2 (Z.eqb_neq _ _) Ht). cbn [negb andb]. rewrite decide_True by done.
      assert (endable k t = true) as Het by (apply He; [left|done]). unfold state_is. case_bool_decide as Hd; cbn [negb].
      * rewrite Hnext. pose proof (endable_dead k l t Hs (ltac:(congruence)) Het Hd) as Hg.
        destruct (IH n t k l C W) as (k' & l' & C' & W' & -> & Hsw); try done;
          [intros; apply Hn; by right|lia|intros; apply He; [by right|done]|].
        exists k', l', C', W'. split; [done|]. by apply swept_dead.
      * assert (can_end k t = true) as Hce by (apply (endable_can_end k l p); try done; [congruence|apply Hn; left]).
        pose proof (terminate_call k l C W t Hj) as Hc. rewrite Hce in Hc. destruct Hc as (k1 & l1 & -> & T).
        pose proof (tm_firm _ _ _ _ _ _ _ T) as Hf. destruct (tm_here _ _ _ _ _ _ _ T) as [Hcur1 _].
        cbn [mbind option_bind negb]. destruct (firm_links k k1 t Hf) as (_ & _ & -> & _). rewrite Hnext.
        destruct (IH n t k1 l1 (delete t C) (delete t W)) as (k' & l' & C' & W' & -> & Hsw); try done.
        -- apply T.
        -- congruence.
        -- by apply (firm_segment k).
        -- intros u Hu. rewrite (firm_node k k1 p u Hf). apply Hn. by right.
        -- lia.
        -- intros u Hu Huc. rewrite (endable_kept k l C W t k1 l1 u T) by congruence. apply He; [by right|done].
        -- exists k', l', C', W'. split; [done|]. by apply (swept_step k l C W t k1 l1).
Qed.

(** * Closing, publishing and leaving *)

Lemma inactive_beside k k' t :
  steady k k' -> spares no_wait k k' -> thread_wait_active k t = false -> thread_wait_active k' t = false.
Proof.
  intros Hst [Hw Hs Hi] Ha. destruct (thread_known k t) eqn:Hk.
  - assert (t_wait_kind (thr k t) = THREAD_WAIT_NONE) as Hkd.
    { unfold thread_wait_active in Ha. rewrite Hk in Ha. cbn [negb] in Ha.
      do 3 (apply orb_false_iff in Ha as [Ha ?]). by apply negb_false_iff, bool_decide_eq_true in Ha. }
    rewrite (active_kept k k' t); try done. apply Hw. left. by rewrite Hkd.
  - unfold thread_wait_active. assert (thread_known k' t = false) as ->; [|done].
    revert Hk. unfold thread_known, thread_storage_live. rewrite Hs, Hi.
    pose proof (st_thr _ _ Hst t) as E. unfold thread_links in E. by injection E as -> _.
Qed.

(** A dead thread is on no run list. *)
Lemma dead_unqueued k l t : sched_wf k l -> t_state (thr k t) = THREAD_STATE_DEAD -> t ∉ l.
Proof.
  intros Hs Hd Hin. destruct (decide (t = current_of k)) as [Ht|Hne].
  - pose proof (located_running k l Hs t Hin Ht) as Hid. destruct (wf_current _ _ Hs Hid). congruence.
  - destruct (wf_ready _ _ Hs t Hin Hne). congruence.
Qed.

Lemma gone_beside k k' l l' t :
  steady k k' -> spares no_wait k k' -> sched_wf k' l' -> gone k l t -> gone k' l' t.
Proof.
  intros Hst Hsp Hwf' (Hv & Hn & Ha). pose proof Hv as Hd. unfold view in Hd. injection Hd as Hd _ _.
  pose proof (st_dead _ _ Hst t Hd) as Hv'. split_and!; [congruence| |by apply (inactive_beside k)].
  apply (dead_unqueued k' l' t Hwf'). apply view_dead in Hv'. congruence.
Qed.

(** What ending a process asks of it. *)
Record ending (k : Kernel) (l : list Z) (C : gmap Z Waiting) (W : gmap Z ExitWaiting) (p cur : Z) (threads : list Z) : Prop := {
  en_joint : joint k l C W;
  en_registry : registry ENDPOINT_STORAGE_CAPACITY (om_storage (k_ept k));
  en_running : idle k = false;
  en_current : cur = current_of k;
  en_inactive : thread_wait_active k cur = false;
  en_list : thread_list k p threads;
  en_member : cur ∈ threads;
  en_usable : process_usable k p = true;
  en_user : p_kernel (prc k p) = false;
  en_alive : no_event (p_exit_info (prc k p)) = true;
  en_id : nz (p_id (prc k p)) = true }.

Lemma record_kept k k' p t reason frame addr :
  firm k k' -> exit_record k' p t reason frame addr = exit_record k p t reason frame addr.
Proof.
  intros Hf. destruct (firm_links k k' t Hf) as (E & _). unfold exit_record, frm.
  by rewrite (firm_process k k' p Hf), E, (st_frames _ _ (fm_steady _ _ Hf)).
Qed.

Lemma record_event k p t reason frame addr :
  let info := exit_record k p t reason frame addr in
  x_process_id info = p_id (prc k p) /\ x_thread_id info = t_id (thr k t) /\ x_reason info = reason.
Proof. unfold exit_record. by if_case. Qed.

(** Every thread of a process whose other threads are gone lets it publish. *)
Lemma ending_stopped k l C W p cur threads info :
  ending k l C W p cur threads -> (forall t, t ∈ threads -> t <> cur -> gone k l t) ->
  x_thread_id info = t_id (thr k cur) -> forallb (stopped k info) threads = true.
Proof.
  intros He Hg Hi. pose proof (joint_sched _ _ _ _ (en_joint _ _ _ _ _ _ _ He)) as Hs. pose proof (en_current _ _ _ _ _ _ _ He) as Hc.
  apply forallb_forall. intros t Ht. apply list_elem_of_In in Ht. unfold stopped. rewrite (thread_current_wf k l Hs).
  destruct (decide (t = cur)) as [->|Hne].
  - rewrite (en_inactive _ _ _ _ _ _ _ He), Hi, Hc, !Z.eqb_refl. cbn [negb andb].
    destruct (wf_current _ _ Hs (en_running _ _ _ _ _ _ _ He)) as [Hin Hr]. unfold state_is.
    rewrite Hr, bool_decide_eq_true_2, (rl_queued _ _ (wf_list _ _ Hs)) by done. by apply bool_decide_eq_true.
  - rewrite <- Hc, (proj2 (Z.eqb_neq _ _) Hne). destruct (gone_ended k l t Hs (Hg t Ht Hne)) as (H1 & H2 & H3 & H4 & H5 & H6).
    unfold state_is. by rewrite H1, H2, H3, H4, H5, H6, bool_decide_eq_true_2.
Qed.

(** The state after the endpoints are closed and the outcome is published. *)
Record published_end (k : Kernel) (l : list Z) (C : gmap Z Waiting) (W : gmap Z ExitWaiting) (p : Z)
    (info : ProcessExitInfo) (k' : Kernel) (l' : list Z) : Prop := {
  pe_joint : joint k' l' C W;
  pe_steady : steady k k';
  pe_spares : spares no_wait k k';
  pe_here : current_of k' = current_of k /\ idle k' = idle k;
  pe_info : p_exit_info (prc k' p) = info;
  pe_closed : endpoint_process_has_open_owned k' (p_id (prc k p)) = false;
  pe_xflow : xflow k k' (if linked (k := k) p then [XPublish (p_exit_queue (prc k p)) info] else []);
  pe_awake : (awake k l C -> awake k' l' C) /\ (awake k l W -> awake k' l' W) }.

Lemma open_owned_ext k k' o :
  k_ept k' = k_ept k -> k_endpoints k' = k_endpoints k ->
  endpoint_process_has_open_owned k' o = endpoint_process_has_open_owned k o.
Proof. intros E1 E2. unfold endpoint_process_has_open_owned, owned_by, ept. by rewrite E1, E2. Qed.

Lemma close_or_halt_call k l C W p cur threads :
  ending k l C W p cur threads ->
  exists k' l', close_owned_or_halt (p_id (prc k p)) k = Some k' /\ ending k' l' C W p cur threads /\ firm k k' /\
    spares no_wait k k' /\ endpoint_process_has_open_owned k' (p_id (prc k p)) = false /\ xflow k k' [] /\
    idle k' = idle k /\ (awake k l C -> awake k' l' C) /\ (awake k l W -> awake k' l' W).
Proof.
  intros He. pose proof He as [Hj Hreg Hid Hcur Hina Hl Hm Hu Hk Hev Hpid]. pose proof Hj as [Hi Hx].
  apply negb_true_iff, Z.eqb_neq in Hpid.
  destruct (close_owned_call k l C (p_id (prc k p)) Hi Hpid) as (k' & l' & Hc & Hi' & Hks & _ & [Haw _] & Hcl & Hopen & _).
  pose proof (firm_close_owned _ _ _ _ Hc) as Hf. unfold ipc_close_owned_endpoints in Hc. be_next Hc; [done|].
  pose proof (be_close_owned (P := exit_kind) _ _ _ _ _ _ Hc) as Hb.
  pose proof (be_close_owned (P := no_wait) _ _ _ _ _ _ Hc) as [Hsp _].
  exists k', l'. unfold close_owned_or_halt, ipc_close_owned_endpoints. rewrite E, Hc. cbn [mbind option_bind negb].
  split; [done|]. split_and!; try done.
  - split; rewrite ?(firm_process k k' p Hf), ?(firm_usable k k' p Hf); try done.
    + split; [done|]. apply (exit_kept k k' l l' W Hx Hb); [apply Hi'|]. intros t w _. by apply Hks.
    + by rewrite (st_ept _ _ (fm_steady _ _ Hf)).
    + by rewrite (ks_idle _ _ _ _ Hks).
    + by rewrite (ks_current _ _ _ _ Hks).
    + apply (inactive_beside k); [apply Hf|done|done].
    + by apply (firm_list k).
    + by apply negb_true_iff, Z.eqb_neq.
  - by eapply beside_xflow.
  - apply Hks.
  - apply (exit_awake_kept k k' l l' W Hx Hb). intros t w _. apply (ks_queued _ _ _ _ Hks).
Qed.

Lemma publish_or_halt_call k l C W p cur threads reason frame addr :
  ending k l C W p cur threads -> endpoint_process_has_open_owned k (p_id (prc k p)) = false ->
  (forall t, t ∈ threads -> t <> cur -> gone k l t) -> reason <> PROCESS_EXIT_NONE ->
  exists k' l', task_publish_exit p cur reason frame addr k = Some k' /\
    published_end k l C W p (exit_record k p cur reason frame addr) k' l'.
Proof.
  intros He Hopen Hg Hr. pose proof He as [Hj Hreg Hid Hcur Hina Hl Hm Hu Hk Hev Hpid]. pose proof Hj as [Hi Hx].
  set (info := exit_record _ _ _ _ _ _). destruct (record_event k p cur reason frame addr) as (E1 & E2 & E3). fold info in E1, E2, E3.
  assert (nz (t_id (thr k cur)) = true) as Hcid.
  { pose proof (tl_node _ _ _ Hl cur Hm) as Hn. unfold owned_node in Hn. apply andb_true_iff in Hn as [Hn _].
    by apply andb_true_iff in Hn as [_ ?]. }
  assert (may_publish k p info threads = true) as Hmp.
  { unfold may_publish. rewrite Hu, Hk, Hev, Hpid, E1, E2, Z.eqb_refl, Hcid, Hopen.
    rewrite (ending_stopped k l C W p cur threads info He Hg E2). unfold no_event. rewrite E3, bool_decide_eq_false_2 by done.
    cbn [negb andb]. rewrite andb_true_r. apply existsb_exists. exists cur. split; [by apply list_elem_of_In|apply Z.eqb_refl]. }
  pose proof (exit_publish_spec k l W p info threads Hx Hl) as Hp. rewrite Hmp in Hp.
  destruct Hp as (k' & l' & Hp & Hx' & Hinfo & _ & _ & Hxf & Hks & Haw & k1 & Hpub & ->).
  exists (record_exit p info k1), l'. unfold task_publish_exit. fold info. rewrite Hp. split; [done|].
  pose proof (bi_publish (P := ipc_kind) _ _ _ _ _ Hpub) as Hb. pose proof (bi_publish (P := no_wait) _ _ _ _ _ Hpub) as [Hsp _].
  assert (beside_ipc ipc_kind k (record_exit p info k1)) as Hb' by (eapply bi_trans; [exact Hb|done]).
  split; try done.
  - split; [|done]. apply (ipc_kept k _ l l' C Hi Hb'); [apply Hx'|]. intros t w _. by apply Hks.
  - eapply steady_trans; [by eapply steady_publish|done].
  - eapply spares_trans; [exact Hsp|by apply spares_same].
  - split; apply Hks.
  - rewrite <- Hopen. destruct Hb' as [_ E]. unfold ipc_part in E. injection E as H1 H2 _.
    by apply open_owned_ext.
  - split; [|done]. apply (ipc_awake_kept k _ l l' C Hi Hb'). intros t w _. apply (ks_queued _ _ _ _ Hks).
Qed.

(** * Leaving the current thread *)

Section Leave.
  Context `{KernelStack} (idle_loop : Z).

(** What the current thread's end asks of its frame and of the idle stack. *)
Definition may_leave (k : Kernel) (frame : Z) : Prop :=
  scheduler_interrupt_frame_valid k (current_of k) frame = true /\
  forall k', kernel_stack_mapping_valid k' (sm_idle_stack_physical (k_sch k)) (sm_idle_stack_base (k_sch k)) = true.

(** The current thread is gone, and another thread or the idle context runs. *)
Record leaves (k : Kernel) (l : list Z) (C : gmap Z Waiting) (W : gmap Z ExitWaiting) (k' : Kernel) (l' : list Z) : Prop := {
  lv_joint : joint k' l' C W;
  lv_gone : gone k' l' (current_of k);
  lv_other : forall t, gone k l t -> gone k' l' t;
  lv_moved : current_of k' <> current_of k;
  lv_calm : calm k k';
  lv_awake : (awake k l C -> awake k' l' C) /\ (awake k l W -> awake k' l' W) }.

Lemma leave_call k l C W frame :
  joint k l C W -> idle k = false -> thread_wait_active k (current_of k) = false -> may_leave k frame ->
  exists r k' l', scheduler_terminate_current_from_interrupt idle_loop frame k = Some (r, k') /\ leaves k l C W k' l'.
Proof using All.
  intros Hj Hid Ha [Hfv Hmap]. pose proof (joint_sched _ _ _ _ Hj) as Hs. pose proof Hj as [Hi Hx].
  destruct (idle_waits k l C W _ Hj Ha) as [HC HW]. destruct (split_current k l Hs Hid) as (a & b & ->).
  set (cur := current_of k) in *. unfold scheduler_terminate_current_from_interrupt.
  pose proof (rl_nodup _ _ (wf_list _ _ Hs)) as Hnd. apply list.NoDup_app in Hnd as (_ & Hd & Hnd).
  apply list.NoDup_cons in Hnd as [Hnb _]. assert (cur ∉ a ++ b) as Hna.
  { intros [Hin|Hin]%elem_of_app; [|done]. apply (Hd cur Hin). left. }
  assert (exists r k', scheduler_exit_from_interrupt idle_loop frame false k = Some (r, k') /\ sched_wf k' (a ++ b) /\
    view k' cur = (THREAD_STATE_DEAD, false, 0) /\ current_of k' <> cur /\
    forall t, t <> cur -> t_state (thr k t) <> THREAD_STATE_READY -> view k' t = view k t)
    as (r & k' & Hr & Hs' & Hv & Hmv & Hot).
  { destruct (b ++ a) as [|c m] eqn:E.
    - apply app_eq_nil in E as [-> ->].
      destruct (exit_idle_spec idle_loop k cur frame false Hs eq_refl Hid Hfv Ha (Hmap k)) as (k' & -> & Hs' & Hid' & Hv & Hot & _).
      exists (idle_frame k), k'. split_and!; try done; [|auto]. rewrite (wf_idle _ _ Hs' Hid').
      intros E. apply (rl_nonnull _ _ (wf_list _ _ Hs)). rewrite E. left.
    - destruct (exit_handover_spec Hs (eq_refl : current_of k = cur) Hid idle_loop frame false c m Hfv E)
        as (k' & -> & Hs' & Hid' & Hc' & Hvcur & Hvc & Hot).
      assert (c ∈ b ++ a) as Hin by (rewrite E; left).
      assert (c <> cur) as Hne by (intros ->; apply Hna; set_solver).
      eexists _, k'. split_and!; try done; [by rewrite Hc'|]. intros t Ht Hnr. apply Hot; [|done]. intros ->.
      destruct (wf_ready _ _ Hs c) as [? _]; [set_solver|done|done]. }
  pose proof (calm_exit idle_loop frame false k r k' Hr) as Hca.
  exists r, k', (a ++ b). split; [done|].
  assert (forall t, t <> cur -> located k (a ++ cur :: b) t -> located k' (a ++ b) t) as Hloc.
  { intros t Ht [Hin|Hb]; [left; set_solver|right]. rewrite (view_dead k k' t); [done|]. apply Hot; [done|congruence]. }
  assert (forall t, t <> cur -> t ∈ a ++ cur :: b -> t ∈ a ++ b) as Hq by set_solver.
  split; try done.
  - split; [apply (ipc_kept k k' (a ++ cur :: b) (a ++ b) C Hi)|apply (exit_kept k k' (a ++ cur :: b) (a ++ b) W Hx)];
      try done; try (by apply bi_calm); try (by apply be_calm); intros u w Hu; apply Hloc; congruence.
  - split_and!; [done|done|]. fold cur. rewrite (active_kept k k' cur); try done; apply Hca.
  - intros t (Hvt & Hnt & Hat). assert (t <> cur) as Ht by set_solver. pose proof Hvt as Hvt0. unfold view in Hvt0.
    injection Hvt0 as Hdt _ _. split_and!; [rewrite Hot; congruence|set_solver|].
    rewrite (active_kept k k' t); try done; apply Hca.
  - split; [apply (ipc_awake_kept k k' (a ++ cur :: b) (a ++ b) C Hi)|apply (exit_awake_kept k k' (a ++ cur :: b) (a ++ b) W Hx)];
      try (by apply bi_calm); try (by apply be_calm); intros u w Hu Hin; apply Hq; congruence.
Qed.

End Leave.

(** * Entering from an interrupt *)

Section Enter.
  Context `{KernelStack}.

(** The code's own check gives what ending the process needs. *)
Lemma terminal_ending k l C W frame cur :
  joint k l C W -> registry ENDPOINT_STORAGE_CAPACITY (om_storage (k_ept k)) ->
  task_user_terminal_current frame k = Some cur ->
  exists threads, ending k l C W (t_process (thr k cur)) cur threads.
Proof using All.
  intros Hj Hreg Ht. unfold task_user_terminal_current in Ht. if_case_in Ht; [done|]. injection Ht as Hcur.
  pose proof (joint_sched _ _ _ _ Hj) as Hs. rewrite Hcur in E. rewrite (thread_current_wf k l Hs) in Hcur.
  do 12 (apply orb_false_iff in E as [E ?]).
  repeat match goal with H : negb _ = false |- _ => apply negb_false_iff in H end.
  match goal with H : process_thread_can_detach _ _ _ = true |- _ => rename H into Hd end.
  match goal with H : nz (process_capabilities _ _) = true |- _ => rename H into Hcap end.
  match goal with H : state_is _ _ _ = true |- _ => apply bool_decide_eq_true in H; rename H into Hrun end.
  assert (process_usable k (t_process (thr k cur)) = true) as Hu
    by (unfold process_capabilities in Hcap; by destruct (process_usable _ _)).
  assert (nz (p_id (prc k (t_process (thr k cur)))) = true) as Hpid.
  { unfold process_thread_can_detach in Hd. destruct (nz (p_id _)); [done|]. by rewrite orb_true_r in Hd. }
  destruct (proj1 (can_detach_spec k _ cur Hu Hpid) Hd) as (threads & Hl & Hin). exists threads.
  destruct (wf_running _ _ Hs cur Hrun) as [Hid _]. by split.
Qed.

Lemma last_scan_spec k cur ts n prev last :
  segment k prev ts 0 -> (forall t, t ∈ ts -> t <> 0) -> (length ts <= n)%nat ->
  last_scan n k cur (hd 0 ts) last =
    Some (last && forallb (fun t => (t =? cur) || state_is k t THREAD_STATE_DEAD) ts).
Proof using.
  revert n prev last. induction ts as [|t ts IH]; intros n prev last Hseg Hz Hlen.
  - rewrite andb_true_r. by destruct n.
  - destruct n as [|n]; [cbn in Hlen; lia|]. destruct Hseg as (_ & Hnext & Hseg). cbn [hd last_scan forallb length] in *.
    assert (nz t = true) as -> by (apply negb_true_iff, Z.eqb_neq, Hz; left). cbn [negb]. rewrite Hnext.
    rewrite (IH n t); [|done|intros; apply Hz; by right|lia]. f_equal.
    destruct (t =? cur), (state_is k t THREAD_STATE_DEAD), last; done.
Qed.

End Enter.

(** Membership as the code tests it. *)
Lemma ending_contains k l C W p cur threads t :
  ending k l C W p cur threads -> process_thread_contains k p t = bool_decide (t ∈ threads).
Proof. intros He. by apply contains_spec; apply He. Qed.

Lemma may_leave_kept `{KernelStack} k k' frame :
  steady k k' -> current_of k' = current_of k -> may_leave k frame -> may_leave k' frame.
Proof.
  intros Hst Hc [Hf Hm]. split.
  - rewrite Hc. revert Hf. unfold scheduler_interrupt_frame_valid. pose proof (st_thr _ _ Hst (current_of k)) as E.
    unfold thread_links in E. by injection E as _ _ _ _ -> -> ->.
  - destruct (sched_fixed_eq _ _ (st_sched _ _ Hst)) as (_ & -> & -> & _). done.
Qed.

(** The process has ended with the outcome [info]. *)
Record process_ended (k : Kernel) (l : list Z) (C : gmap Z Waiting) (W : gmap Z ExitWaiting) (p cur : Z) (threads : list Z)
    (info : ProcessExitInfo) (k' : Kernel) (l' : list Z) : Prop := {
  pd_joint : joint k' l' C W;
  pd_gone : forall t, t ∈ threads -> gone k' l' t;
  pd_info : p_exit_info (prc k' p) = info;
  pd_closed : endpoint_process_has_open_owned k' (p_id (prc k p)) = false;
  pd_xflow : xflow k k' (if linked (k := k) p then [XPublish (p_exit_queue (prc k p)) info] else []);
  pd_moved : current_of k' <> cur;
  pd_awake : (awake k l C -> awake k' l' C) /\ (awake k l W -> awake k' l' W) }.

Lemma end_call `{KernelStack} idle_loop k l C W p cur threads reason fr addr frame :
  ending k l C W p cur threads -> (forall t, t ∈ threads -> t <> cur -> gone k l t) -> may_leave k frame ->
  reason <> PROCESS_EXIT_NONE ->
  exists r k1 k2 k' l', close_owned_or_halt (p_id (prc k p)) k = Some k1 /\
    task_publish_exit p cur reason fr addr k1 = Some k2 /\
    scheduler_terminate_current_from_interrupt idle_loop frame k2 = Some (r, k') /\
    process_ended k l C W p cur threads (exit_record k p cur reason fr addr) k' l'.
Proof.
  intros He Hg Hm Hr. pose proof (en_current _ _ _ _ _ _ _ He) as Hcur.
  destruct (close_or_halt_call k l C W p cur threads He) as (k1 & l1 & Hc & He1 & Hf1 & Hs1 & Ho1 & Hx1 & Hi1 & A1 & A1').
  pose proof (joint_sched _ _ _ _ (en_joint _ _ _ _ _ _ _ He1)) as Hsch1. pose proof (en_current _ _ _ _ _ _ _ He1) as Hcur1.
  assert (forall t, t ∈ threads -> t <> cur -> gone k1 l1 t) as Hg1
    by (intros t Ht Hne; apply (gone_beside k k1 l l1); try done; [apply Hf1|auto]).
  rewrite <- (firm_process k k1 p Hf1) in Ho1.
  destruct (publish_or_halt_call k1 l1 C W p cur threads reason fr addr He1 Ho1 Hg1 Hr)
    as (k2 & l2 & Hp & [J2 St2 Sp2 [Cu2 Id2] In2 Op2 X2 [B2 B2']]).
  rewrite (record_kept k k1) in * by done.
  assert (current_of k2 = cur) as Hcur2 by congruence.
  destruct (leave_call idle_loop k2 l2 C W frame J2) as (r & k' & l' & Hl & [J' G' O' M' Ca' [D D']]).
  { rewrite Id2. apply He1. }
  { rewrite Hcur2. apply (inactive_beside k1); [done|done|apply He1]. }
  { apply (may_leave_kept k1); [done|done|]. apply (may_leave_kept k); [apply Hf1|congruence|done]. }
  exists r, k1, k2, k', l'. split_and!; try done. pose proof (ca_rest _ _ Ca') as R.
  assert (k_processes k' = k_processes k2 /\ k_ept k' = k_ept k2 /\ k_endpoints k' = k_endpoints k2) as (R1 & R2 & R3)
    by (by rewrite R).
  split; try done.
  - intros t Ht. destruct (decide (t = cur)) as [->|Hne]; [by rewrite <- Hcur2|]. apply O'.
    apply (gone_beside k1 k2 l1 l2); [done|done|by eapply joint_sched|by apply Hg1].
  - unfold prc. rewrite R1. exact In2.
  - rewrite (open_owned_ext k2 k') by done. by rewrite <- (firm_process k k1 p Hf1).
  - pose proof (xflow_trans k k1 k2 [] _ Hx1 X2) as X. unfold linked in X |- *. rewrite (firm_process k k1 p Hf1) in X.
    pose proof (beside_xflow exit_kind k2 k' (be_calm _ _ Ca')) as X'.
    pose proof (xflow_trans k k2 k' _ [] X X') as X3. by rewrite app_nil_r in X3.
  - congruence.
  - split; auto.
Qed.
