(* ===== verification/TaskTheorems.v ===== *)
(** Theorems on ending threads and processes, and on the kernel in which message
    passing, exit queues and termination run interleaved; a concrete machine with a
    user process of two threads for their witnesses. *)

From S2P Require Import Prelude Pmm ObjectStorage Kernel Objects Capability.
From S2P Require Import Endpoint Thread Ring Scheduler SchedulerProofs SchedulerWf.
From S2P Require Import SchedulerOps SchedulerTheorems Ipc IpcWf IpcOps.
From S2P Require Import IpcReserve IpcCalls IpcClose IpcEvents ExitQueue ExitRing.
From S2P Require Import ExitData ExitClose ExitWaits ExitBlocking.
From S2P Require Import ExitEvents Process ProcessThreads ProcessTheorems Joint.
From S2P Require Import Task TaskProofs TaskFault IpcTheorems ExitTheorems.

Open Scope jcos_scope.

(** * A concrete machine

    Threads [0x1000] (running) and [0x2000] (queued) belong to process [0x7000],
    which owns the endpoint [0x6000]; [0x3000] is a blocked kernel thread. *)

Definition user_thread (x : Thread) (prev next : Z) : Thread :=
  x <| t_process := 0x7000 |> <| t_process_prev := prev |> <| t_process_next := next |>.

Definition task_threads : gmap Z Thread :=
  {[ 0x1000 := user_thread (demo_thread 1 0x100000 THREAD_STATE_RUNNING 0x2000 true) 0 0x2000;
     0x2000 := user_thread (demo_thread 2 0x200000 THREAD_STATE_READY 0x1000 true) 0x1000 0;
     0x3000 := demo_thread 3 0x300000 THREAD_STATE_BLOCKED 0 false ]}.

Definition task_processes : gmap Z Process :=
  {[ g_kernel_process := process_zero <| p_id := 1 |> <| p_address_space := 0x80 |>
       <| p_kernel := true |> <| p_initialized := true |>;
     0x7000 := process_zero <| p_id := 2 |> <| p_address_space := 0x90 |> <| p_initialized := true |>
       <| p_thread_head := 0x1000 |> <| p_thread_tail := 0x2000 |> <| p_thread_count := 2 |> ]}.

Definition task_endpoints : gmap Z Endpoint :=
  {[ 0x6000 := endpoint_zero <| e_id := 1 |> <| e_owner_process_id := 2 |>
                 <| e_initialized := true |> <| e_capability_refs := 1 |> ]}.

(** A page fault of user code, on the stack of either thread. *)
Definition task_frames : gmap Z InterruptFrame :=
  let f := mkInterruptFrame 0 14 6 0x400010 0x2b 0x202 0x7ff0 0x23 in {[ 0x103000 := f; 0x203000 := f ]}.

Definition task_demo : Kernel :=
  sched_demo
  <| k_threads := task_threads |>
  <| k_processes := task_processes |>
  <| k_prc := mkObjectMod 3 true ([g_kernel_process; 0x7000] ++ replicate 126 0) |>
  <| k_spaces := {[ 0x80 := mkAddressSpace 1 7 false true 0; 0x90 := mkAddressSpace 2 8 false true 0 ]} |>
  <| k_spc := mkObjectMod 3 true ([0x80; 0x90] ++ replicate 254 0) |>
  <| k_endpoints := task_endpoints |>
  <| k_ept := mkObjectMod 2 true (0x6000 :: replicate 255 0) |>
  <| k_tables := {[ caps_of 0x7000 :=
       mkCapabilityTable (mkCapabilitySlot 0x6000 1 0x60 1 CAPABILITY_TYPE_ENDPOINT true :: replicate 63 slot_zero) 1 true ]} |>
  <| k_cap := mkCapMod (caps_of 0x7000 :: replicate 255 0) (2 :: replicate 63 1) true |>
  <| k_frames := task_frames |>
  <| k_tim := mkTimerMod 100 true |>.

Lemma task_demo_thr t :
  (t = 0x1000 \/ t = 0x2000 \/ t = 0x3000) \/
  (t <> 0x1000 /\ t <> 0x2000 /\ t <> 0x3000 /\ thr task_demo t = thread_zero).
Proof.
  destruct (decide (t = 0x1000)); [tauto|]. destruct (decide (t = 0x2000)); [tauto|].
  destruct (decide (t = 0x3000)); [tauto|]. right. split_and!; try done.
  unfold thr. change (k_threads task_demo) with task_threads. unfold task_threads.
  by rewrite !lookup_insert_ne, lookup_singleton_ne by done.
Qed.

Ltac task_cases t := destruct (task_demo_thr t) as [[->|[->| ->]]|(? & ? & ? & ->)].

Lemma task_demo_run_list : run_list task_demo [0x1000; 0x2000].
Proof.
  split; try (by vm_compute); try (apply (bool_decide_unpack _); by vm_compute).
  - intros t. task_cases t; [by vm_compute..|]. rewrite bool_decide_eq_false_2; [done|]. set_solver.
  - intros t Ht. unfold next_of. task_cases t; [set_solver..|by vm_compute|done].
Qed.

Lemma task_demo_sched : sched_wf task_demo [0x1000; 0x2000].
Proof.
  split.
  - done.
  - done.
  - split; [by vm_compute|]. apply (bool_decide_unpack _). by vm_compute.
  - apply task_demo_run_list.
  - intros t Ht. assert (t = 0x1000 \/ t = 0x2000) as [->| ->] by set_solver; by vm_compute.
  - intros _. split; [apply (bool_decide_unpack _)|]; by vm_compute.
  - done.
  - intros t Ht Hne. change (current_of task_demo) with 0x1000 in Hne.
    assert (t = 0x2000) as -> by set_solver. by vm_compute.
  - intros t. task_cases t; [by vm_compute..|done].
  - intros t. task_cases t; [by vm_compute..|done].
  - split; by vm_compute.
  - split; by vm_compute.
Qed.

Lemma task_demo_wait t : t_wait_kind (thr task_demo t) = THREAD_WAIT_NONE.
Proof. task_cases t; [by vm_compute..|done]. Qed.

Lemma task_demo_ept e : ipc_endpoint_valid task_demo e = true -> e = 0x6000.
Proof.
  unfold ipc_endpoint_valid, ept. change (k_endpoints task_demo) with task_endpoints. unfold task_endpoints. intros H.
  destruct (decide (e = 0x6000)) as [->|Hne]; [done|].
  rewrite lookup_singleton_ne in H by done. cbn [default e_initialized endpoint_zero] in H.
  by rewrite andb_false_r in H.
Qed.

Lemma task_demo_free i : timed_index i -> w_occupied (timed_at task_demo i) = false.
Proof.
  intros Hi. unfold timed_at. change (im_timed_waits (k_ipc task_demo)) with (replicate 512 timed_wait_zero).
  rewrite lookup_total_replicate_2; [done|]. unfold timed_index, IPC_TIMED_WAIT_CAPACITY, ENDPOINT_STORAGE_CAPACITY in Hi. lia.
Qed.

Lemma task_demo_ipc : ipc_wf task_demo [0x1000; 0x2000] ∅.
Proof.
  split; [split|].
  - apply task_demo_sched.
  - done.
  - split; [by vm_compute|]. apply (bool_decide_unpack _). by vm_compute.
  - intros t w Hw. by rewrite lookup_empty in Hw.
  - intros t _. by rewrite task_demo_wait.
  - intros e kind ->%task_demo_ept Hk. left. by destruct kind; vm_compute.
  - split.
    + by vm_compute.
    + intros i Hi Ho. by rewrite task_demo_free in Ho.
    + intros i j Hi _ Ho. by rewrite task_demo_free in Ho.
    + intros t w Hw. by rewrite lookup_empty in Hw.
  - intros e ->%task_demo_ept. split; [split|..]; try (by vm_compute). intros [H _]. by destruct H.
Qed.

Lemma task_demo_prc p : unlinked_process (prc task_demo p).
Proof.
  unfold prc. change (k_processes task_demo) with task_processes. unfold task_processes.
  destruct (decide (p = g_kernel_process)) as [->|H1]; [done|].
  destruct (decide (p = 0x7000)) as [->|H2]; [done|].
  by rewrite !lookup_insert_ne, lookup_singleton_ne by done.
Qed.

Lemma task_demo_queue q : queue_live task_demo q = false.
Proof.
  unfold queue_live. assert (registry QSTORE (om_storage (k_exq task_demo))) as Hr
    by (split; [by vm_compute|apply (bool_decide_unpack _); by vm_compute]).
  rewrite (object_storage_find_live _ _ _ Hr). apply bool_decide_eq_false_2.
  assert (live (om_storage (k_exq task_demo)) = []) as -> by (by vm_compute). apply not_elem_of_nil.
Qed.

Lemma task_demo_exit : exit_wf task_demo [0x1000; 0x2000] ∅.
Proof.
  split.
  - apply task_demo_sched.
  - split.
    + split; [by vm_compute|apply (bool_decide_unpack _); by vm_compute].
    + intros q Hq. by rewrite task_demo_queue in Hq.
    + intros p. left. apply task_demo_prc.
  - intros t w Hw. by rewrite lookup_empty in Hw.
  - intros q Hq. by rewrite task_demo_queue in Hq.
  - intros t _. by rewrite task_demo_wait.
Qed.

Lemma task_demo_joint : joint task_demo [0x1000; 0x2000] ∅ ∅.
Proof. split; [apply task_demo_ipc|apply task_demo_exit]. Qed.

(** * Ending threads and processes *)

(** No reservation names a thread without a continuation. *)
Lemma unregistered k l C W t :
  joint k l C W -> t <> 0 -> C !! t = None -> W !! t = None ->
  (forall e kind, ipc_endpoint_valid k e = true -> ipc_kind kind = true -> waiting_thread (ept k e) kind <> t) /\
  (forall q, queue_live k q = true -> q_waiting_receiver (exq k q) <> t).
Proof.
  intros [Hi Hx] Hz HC HW. split.
  - intros e kind Hv Hk <-. destruct (ic_endpoint _ _ _ (iw_core _ _ _ Hi) e kind Hv Hk) as [[? _]|(w & Hw & _)]; congruence.
  - intros q Hq <-. destruct (xf_receiver _ _ _ Hx q Hq) as [E|(w & Hw & _)]; [|congruence].
    unfold wait_view in E. by injection E.
Qed.

(** * The joint machine *)

Section System.
  Context `{KernelStack} (idle_loop : Z).

Inductive TaskEvent :=
  | TIpc (e : IpcEvent)
  | TExit (e : ExitEvent)
  | TTerminate (t : Z).

Definition task_step (e : TaskEvent) (k : Kernel) (C : gmap Z Waiting) (W : gmap Z ExitWaiting)
    : option (list IpcLog * list ExitLog * Kernel * gmap Z Waiting * gmap Z ExitWaiting) :=
  match e with
  | TIpc e => '(log, k, C) ← ipc_step idle_loop e k C; Some (log, [], k, C, W)
  | TExit e => '(log, k, W) ← exit_step idle_loop e k W; Some ([], log, k, C, W)
  | TTerminate t =>
    '(b, k) ← task_terminate_thread t k; Some (if (b : bool) then ([], [], k, delete t C, delete t W) else ([], [], k, C, W))
  end.

(** A thread inside a call of one component does not block through the other. *)
Definition task_event_ok (k : Kernel) (C : gmap Z Waiting) (W : gmap Z ExitWaiting) (e : TaskEvent) : Prop :=
  match e with
  | TIpc e => ipc_event_ok k C e /\ forall f, e = ISched (EBlock f) -> W !! current_of k = None
  | TExit e => exit_event_ok k W e /\ forall f, e = QSched (EBlock f) -> C !! current_of k = None
  | TTerminate _ => True
  end.

Definition is_task_arm (e : TaskEvent) : bool := match e with TIpc e => is_arm e | _ => false end.

(** What a step or a run of steps keeps and reports. *)
Definition task_ok (k : Kernel) (l : list Z) (C : gmap Z Waiting) (W : gmap Z ExitWaiting) (armed : bool)
    (r : option (list IpcLog * list ExitLog * Kernel * gmap Z Waiting * gmap Z ExitWaiting)) : Prop :=
  exists log xlog k' C' W' l', r = Some (log, xlog, k', C', W') /\ joint k' l' C' W' /\ xflow k k' xlog /\
    (awake k l C -> awake k' l' C') /\ (awake k l W -> awake k' l' W') /\
    (armed = false -> hook_armed k = false -> hook_armed k' = false /\ flow k k' log).

Lemma exit_active k l W t w : exit_wf k l W -> W !! t = Some w -> thread_wait_active k t = true.
Proof using. intros Hx Hw. eapply matches_active, (ew_match _ _ _ _ (xf_waiter _ _ _ Hx t w Hw)). Qed.

Lemma ipc_active k l C t w : ipc_wf k l C -> C !! t = Some w -> thread_wait_active k t = true.
Proof using. intros Hi Hw. apply (waiter_active k l t w), (ic_waiter _ _ _ (iw_core _ _ _ Hi)), Hw. Qed.

Lemma task_event_step k l C W e :
  joint k l C W -> task_event_ok k C W e -> task_ok k l C W (is_task_arm e) (task_step e k C W).
Proof using All.
  intros Hj Hok. pose proof Hj as [Hi Hx]. destruct e as [e|e|t]; cbn [task_step is_task_arm].
  - destruct Hok as [Hok Hblk]. destruct (event_step idle_loop k l C e Hi Hok) as (log & k' & C' & l' & Hr & Hi' & [Haw _] & Hfl).
    pose proof (ipc_step_beside (P := exit_kind) eq_refl idle_loop e k C log k' C' Hr) as Hb.
    pose proof (ipc_stays idle_loop k l C e log k' C' l' Hi Hok Hr (ic_sched _ _ _ (iw_core _ _ _ Hi'))) as Hst.
    rewrite Hr. cbn [mbind option_bind]. exists log, [], k', C', W, l'. split_and!; try done.
    + split; [done|]. apply (exit_kept k k' l l' W Hx Hb); [apply Hi'|]. intros t w Hw. apply Hst. by eapply exit_active.
    + by eapply beside_xflow.
    + apply (exit_awake_kept k k' l l' W Hx Hb). intros t w Hw Hin. destruct (proj2 (Hst t (exit_active k l W t w Hx Hw)) Hin)
        as [?|[-> [[v Hv]|[f ->]]]]; [done|by rewrite (ipc_only k l C W _ v Hj Hv) in Hw|by rewrite (Hblk f) in Hw].
    + intros Harm Hh. destruct (Hfl Harm Hh) as [? [? _]]. done.
  - destruct Hok as [Hok Hblk]. destruct (exit_event_step idle_loop k l W e Hx Hok) as (log & k' & W' & l' & Hr & Hx' & Hfl & Haw).
    pose proof (exit_step_beside idle_loop e k W log k' W' Hr) as Hb.
    pose proof (exit_stays idle_loop k l W e log k' W' l' Hx Hok Hr (xf_sched _ _ _ Hx')) as Hst.
    rewrite Hr. cbn [mbind option_bind]. exists [], log, k', C, W', l'. split_and!; try done.
    + split; [|done]. apply (ipc_kept k k' l l' C Hi Hb); [apply Hx'|]. intros t w Hw. apply Hst. by eapply ipc_active.
    + apply (ipc_awake_kept k k' l l' C Hi Hb). intros t w Hw Hin. destruct (proj2 (Hst t (ipc_active k l C t w Hi Hw)) Hin)
        as [?|[-> [[v Hv]|[f ->]]]]; [done|by rewrite (exit_only_waits k l C W _ v Hj Hv) in Hw|by rewrite (Hblk f) in Hw].
    + intros _ Hh. split; [|by eapply beside_flow]. destruct Hb as [_ E]. unfold ipc_part in E. injection E as _ _ E.
      unfold hook_armed in *. by rewrite E.
  - pose proof (terminate_call k l C W t Hj) as Ht. destruct (can_end k t).
    + destruct Ht as (k' & l' & -> & [T1 T2 T3 T4 T5 T6 T7 [T8 T8'] T9 [T10 T11]]).
      exists [], [], k', (delete t C), (delete t W), l'. split_and!; try done. intros _ Hh. split; [by apply T9|done].
    + rewrite Ht. exists [], [], k, C, W, l. split_and!; try done; [by apply xflow_same|].
      intros _ Hh. split; [done|apply flow_refl].
Qed.

Fixpoint task_run (es : list TaskEvent) (k : Kernel) (C : gmap Z Waiting) (W : gmap Z ExitWaiting)
    : option (list IpcLog * list ExitLog * Kernel * gmap Z Waiting * gmap Z ExitWaiting) :=
  match es with
  | [] => Some ([], [], k, C, W)
  | e :: es =>
    '(log, xlog, k1, C1, W1) ← task_step e k C W;
    '(log', xlog', k2, C2, W2) ← task_run es k1 C1 W1;
    Some (log ++ log', xlog ++ xlog', k2, C2, W2)
  end.

Fixpoint task_events_ok (k : Kernel) (C : gmap Z Waiting) (W : gmap Z ExitWaiting) (es : list TaskEvent) : Prop :=
  match es with
  | [] => True
  | e :: es => task_event_ok k C W e /\
      forall log xlog k1 C1 W1, task_step e k C W = Some (log, xlog, k1, C1, W1) -> task_events_ok k1 C1 W1 es
  end.

Lemma task_run_ok es k l C W :
  joint k l C W -> task_events_ok k C W es -> task_ok k l C W (existsb is_task_arm es) (task_run es k C W).
Proof using All.
  revert k l C W. induction es as [|e es IH]; intros k l C W Hj Hok.
  - exists [], [], k, C, W, l. split_and!; try done; [by apply xflow_same|]. intros _ Hh. split; [done|apply flow_refl].
  - destruct Hok as [He Hes]. cbn [task_run existsb].
    destruct (task_event_step k l C W e Hj He) as (g & x & k1 & C1 & W1 & l1 & Hs & Hj1 & Hx1 & Ha1 & Hw1 & Hf1).
    rewrite Hs. cbn [mbind option_bind].
    destruct (IH k1 l1 C1 W1 Hj1 (Hes _ _ _ _ _ Hs)) as (g2 & x2 & k2 & C2 & W2 & l2 & -> & Hj2 & Hx2 & Ha2 & Hw2 & Hf2).
    cbn [mbind option_bind]. exists (g ++ g2), (x ++ x2), k2, C2, W2, l2. split_and!; [done|done|by eapply xflow_trans|auto|auto|].
    intros Ha Hh. apply orb_false_iff in Ha as [Ha1' Ha2']. destruct (Hf1 Ha1' Hh) as [Hh1 Hfl1].
    destruct (Hf2 Ha2' Hh1) as [Hh2 Hfl2]. split; [done|]. by eapply flow_trans.
Qed.

End System.

(** * Theorems *)

(** C31. [task_terminate_thread] under the joint invariant never halts. It is
    granted exactly when the scheduler can end the thread and its wait record is
    of a known kind; then the thread is dead, off every run list, outside every
    wait, no endpoint or exit queue still names it, every other thread keeps
    its state and its wait, both invariants hold again, and no message and no
    exit event was lost. A refusal changes nothing. *)
Theorem terminate_detaches (k : Kernel) (l : list Z) (C : gmap Z Waiting) (W : gmap Z ExitWaiting) (t : Z) :
  joint k l C W ->
  exists k' l', task_terminate_thread t k = Some (can_end k t, k') /\
    (can_end k t = false -> k' = k) /\
    (can_end k t = true ->
       joint k' l' (delete t C) (delete t W) /\ ended k' t /\
       (forall u, u <> t -> view k' u = view k u /\ wait_fields (thr k' u) = wait_fields (thr k u)) /\
       (forall e kind, ipc_endpoint_valid k' e = true -> ipc_kind kind = true -> waiting_thread (ept k' e) kind <> t) /\
       (forall q, queue_live k' q = true -> q_waiting_receiver (exq k' q) <> t) /\
       flow k k' [] /\ xflow k k' []).
Proof.
  intros Hj. pose proof (terminate_call k l C W t Hj) as Ht. destruct (can_end k t) eqn:Hc; [|by exists k, l].
  destruct Ht as (k' & l' & -> & [T1 T2 T3 T4 T5 T6 T7 [T8 T8'] T9 T10]). exists k', l'. split_and!; try done. intros _.
  apply andb_true_iff in Hc as [Hc _]. destruct (can_terminate_inv k l t (joint_sched _ _ _ _ Hj) Hc) as (_ & Hz & _).
  apply negb_true_iff, Z.eqb_neq in Hz.
  destruct (unregistered k' l' (delete t C) (delete t W) t T1 Hz) as [U1 U2]; [apply lookup_delete_eq..|]. by split_and!.
Qed.

(** C32. A supported fault of a user thread ends its whole process and never
    halts the kernel: every thread of the process is dead, off the run list and
    outside every wait, the waits of all other threads stand, every endpoint of
    the process is closed, the fault record with the faulting address is the
    process's outcome and the last event of the queue that watches it, another
    thread or the idle context runs, and no wakeup of another thread is lost. *)
Theorem fault_ends_process `{KernelStack} (idle_loop : Z) (k : Kernel) (l : list Z) (C : gmap Z Waiting)
    (W : gmap Z ExitWaiting) (cur frame addr : Z) :
  joint k l C W ->
  task_user_terminal_current frame k = Some cur -> task_user_fault_supported (f_vector (frm k frame)) = true ->
  (forall t, process_thread_contains k (t_process (thr k cur)) t = true -> t <> cur -> endable k t = true) ->
  may_leave k frame ->
  let p := t_process (thr k cur) in
  let info := exit_record k p cur PROCESS_EXIT_FAULT frame addr in
  exists r k' l' C' W', task_fault_current_from_interrupt idle_loop frame addr k = Some (r, k') /\ joint k' l' C' W' /\
    (forall t, process_thread_contains k p t = true -> ended k' t /\ C' !! t = None /\ W' !! t = None) /\
    (forall t, process_thread_contains k p t = false -> C' !! t = C !! t /\ W' !! t = W !! t) /\
    endpoint_process_has_open_owned k' (p_id (prc k p)) = false /\
    p_exit_info (prc k' p) = info /\
    (forall q, queued k' q = queued k q ++ (if linked (k := k) p && (p_exit_queue (prc k p) =? q) then [info] else [])) /\
    current_of k' <> cur /\ (awake k l C -> awake k' l' C') /\ (awake k l W -> awake k' l' W').
Proof.
  intros Hj Hterm Hsup Hsib Hml p info. pose proof (ic_registry _ _ _ (iw_core _ _ _ (jt_ipc _ _ _ _ Hj))) as Hreg.
  destruct (terminal_ending k l C W frame cur Hj Hreg Hterm) as (threads & He). fold p in He.
  pose proof He as [_ _ Hid Hcur Hina Hl Hm Hu Hkn Hev Hpid].
  assert (forall t, process_thread_contains k p t = bool_decide (t ∈ threads)) as Hct by (intros; by eapply ending_contains).
  destruct (siblings_call (Z.to_nat (p_thread_count (prc k p))) cur p threads 0 k l C W) as (k1 & l1 & C1 & W1 & Hs1 & Sw);
    try done; [apply Hl|apply Hl|by eapply thread_list_nodup|rewrite (tl_count _ _ _ Hl); lia| |].
  { intros t Ht Hne. apply Hsib; [|done]. fold p. rewrite Hct. by apply bool_decide_eq_true. }
  pose proof (sw_firm _ _ _ _ _ _ _ _ _ Sw) as Hf. destruct (sw_here _ _ _ _ _ _ _ _ _ Sw) as [Hc1 Hi1].
  assert (cur ∉ others cur threads) as Hno by (rewrite elem_of_others; tauto).
  assert (ending k1 l1 C1 W1 p cur threads) as He1.
  { split; rewrite ?(firm_process k k1 p Hf), ?(firm_usable k k1 p Hf); try done; [apply Sw| | | | |].
    - by rewrite (st_ept _ _ (fm_steady _ _ Hf)).
    - congruence.
    - congruence.
    - by rewrite (swept_active _ _ _ _ _ _ _ _ _ _ Sw Hno).
    - by apply (firm_list k). }
  assert (forall t, t ∈ threads -> t <> cur -> gone k1 l1 t) as Hg1
    by (intros t Ht Hne; apply (sw_gone _ _ _ _ _ _ _ _ _ Sw), elem_of_others; done).
  destruct (end_call idle_loop k1 l1 C1 W1 p cur threads PROCESS_EXIT_FAULT frame addr frame He1 Hg1)
    as (r & k2 & k3 & k' & l' & E1 & E2 & E3 & [P1 P2 P3 P4 P5 P6 [P7 P7']]); [by apply (may_leave_kept k); [apply Hf|..]|done|].
  rewrite (record_kept k k1) in * by done. fold info in P3, P5. rewrite (firm_process k k1 p Hf) in *.
  exists r, k', l', C1, W1. split.
  { unfold task_fault_current_from_interrupt. rewrite Hterm. cbn [mbind option_bind]. fold p. rewrite Hsup. cbn [negb].
    rewrite (first_spec k p threads Hl Hu), Hs1. cbn [mbind option_bind].
    rewrite (firm_process k k1 p Hf), E1. cbn [mbind option_bind]. by rewrite E2. }
  pose proof (sw_waits _ _ _ _ _ _ _ _ _ Sw) as Hw. destruct (idle_waits k l C W cur Hj Hina) as [HC HW].
  split_and!; try done.
  - intros t Ht. rewrite Hct in Ht. apply bool_decide_eq_true in Ht. split; [apply (gone_ended k' l'); [by eapply joint_sched|auto]|].
    destruct (decide (t = cur)) as [->|Hne]; [|apply Hw, elem_of_others; done].
    destruct (proj2 (Hw cur) Hno) as [-> ->]. done.
  - intros t Ht. rewrite Hct in Ht. apply bool_decide_eq_false in Ht. apply Hw. rewrite elem_of_others. tauto.
  - apply published_queue. pose proof (xflow_trans k k1 k' [] _ (proj2 (sw_flow _ _ _ _ _ _ _ _ _ Sw)) P5) as X.
    unfold linked in X |- *. by rewrite (firm_process k k1 p Hf) in X.
  - intros Ha. apply P7, (proj1 (sw_awake _ _ _ _ _ _ _ _ _ Sw)), Ha.
  - intros Ha. apply P7', (proj2 (sw_awake _ _ _ _ _ _ _ _ _ Sw)), Ha.
Qed.

(** C33. A user thread that exits ends alone unless it is the last: while a
    sibling lives, only the thread itself dies and neither the process outcome
    nor any queue nor any endpoint changes; the last one closes the process's
    endpoints, records the normal outcome and appends it to the watching queue.
    The kernel does not halt, and no wakeup of another thread is lost. *)
Theorem exit_ends_last `{KernelStack} (idle_loop : Z) (k : Kernel) (l : list Z) (C : gmap Z Waiting)
    (W : gmap Z ExitWaiting) (cur frame : Z) :
  joint k l C W ->
  task_user_terminal_current frame k = Some cur ->
  (forall t, process_thread_contains k (t_process (thr k cur)) t = true -> t_state (thr k t) = THREAD_STATE_DEAD ->
     endable k t = true) ->
  may_leave k frame ->
  let p := t_process (thr k cur) in
  let info := exit_record k p cur PROCESS_EXIT_NORMAL 0 0 in
  exists r k' l', task_exit_current_from_interrupt idle_loop frame k = Some (r, k') /\ joint k' l' C W /\
    ended k' cur /\ current_of k' <> cur /\ (awake k l C -> awake k' l' C) /\ (awake k l W -> awake k' l' W) /\
    ((exists t, process_thread_contains k p t = true /\ t <> cur /\ t_state (thr k t) <> THREAD_STATE_DEAD) ->
       prc k' p = prc k p /\ (forall q, queued k' q = queued k q) /\ (forall e, ept k' e = ept k e)) /\
    ((forall t, process_thread_contains k p t = true -> t <> cur -> t_state (thr k t) = THREAD_STATE_DEAD) ->
       (forall t, process_thread_contains k p t = true -> ended k' t) /\ p_exit_info (prc k' p) = info /\
       endpoint_process_has_open_owned k' (p_id (prc k p)) = false /\
       forall q, queued k' q = queued k q ++ (if linked (k := k) p && (p_exit_queue (prc k p) =? q) then [info] else [])).
Proof.
  intros Hj Hterm Hsib Hml p info. pose proof (ic_registry _ _ _ (iw_core _ _ _ (jt_ipc _ _ _ _ Hj))) as Hreg.
  destruct (terminal_ending k l C W frame cur Hj Hreg Hterm) as (threads & He). fold p in He.
  pose proof He as [_ _ Hid Hcur Hina Hl Hm Hu Hkn Hev Hpid]. pose proof (joint_sched _ _ _ _ Hj) as Hs.
  assert (forall t, process_thread_contains k p t = true <-> t ∈ threads) as Hct.
  { intros t. rewrite (ending_contains k l C W p cur threads t He). apply bool_decide_eq_true. }
  unfold task_exit_current_from_interrupt. rewrite Hterm. cbn [mbind option_bind]. fold p.
  rewrite (first_spec k p threads Hl Hu), (last_scan_spec k cur threads _ 0 true);
    [|apply Hl|intros t Ht; apply (owned_node_nonnull k p), Hl, Ht|rewrite (tl_count _ _ _ Hl); lia].
  cbn [andb mbind option_bind]. destruct (forallb _ threads) eqn:Hlast.
  - assert (forall t, t ∈ threads -> t <> cur -> t_state (thr k t) = THREAD_STATE_DEAD) as Hdead.
    { intros t Ht Hne. rewrite forallb_forall in Hlast. apply list_elem_of_In, Hlast in Ht.
      rewrite (proj2 (Z.eqb_neq _ _) Hne) in Ht. by apply bool_decide_eq_true in Ht. }
    assert (forall t, t ∈ threads -> t <> cur -> gone k l t) as Hg
      by (intros t Ht Hne; apply endable_dead; auto; [congruence|]; apply Hsib; [by apply Hct|auto]).
    destruct (end_call idle_loop k l C W p cur threads PROCESS_EXIT_NORMAL 0 0 frame He Hg Hml)
      as (r & k1 & k2 & k' & l' & -> & E2 & E3 & [P1 P2 P3 P4 P5 P6 [P7 P7']]); [done|].
    cbn [mbind option_bind]. rewrite E2. cbn [mbind option_bind]. exists r, k', l'.
    assert (forall t, t ∈ threads -> ended k' t) as Hend by (intros t Ht; apply (gone_ended k' l'); [by eapply joint_sched|auto]).
    split_and!; auto.
    + intros (t & Ht & Hne & Hnd). destruct Hnd. apply Hdead; [by apply Hct|done].
    + intros _. split_and!; try done; [intros t Ht; by apply Hend, Hct|by apply published_queue].
  - cbn [mbind option_bind]. assert (thread_wait_active k (current_of k) = false) as Hina' by (by rewrite <- Hcur).
    destruct (leave_call idle_loop k l C W frame Hj Hid Hina' Hml) as (r & k' & l' & -> & [J G O M Ca [A A']]).
    exists r, k', l'. rewrite <- Hcur in *. pose proof (ca_rest _ _ Ca) as R.
    split_and!; try done; [apply (gone_ended k' l'); [by eapply joint_sched|done]| |].
    + intros _. split_and!; [unfold prc; by rewrite R|intros q; unfold queued, queue_live, exq; by rewrite R|].
      intros e. unfold ept. by rewrite R.
    + intros Hall. exfalso. apply not_true_iff_false in Hlast. apply Hlast, forallb_forall. intros t Ht.
      apply list_elem_of_In in Ht. destruct (Z.eqb_spec t cur) as [|Hne]; [done|]. cbn [orb].
      apply bool_decide_eq_true, Hall; [by apply Hct|done].
Qed.

(** C34. The kernel in which threads send, receive and wait for process exits,
    time out, are scheduled and are terminated, in any order, never halts: both
    invariants hold after every run, every thread with a settled wait is
    runnable, exit events come out of each queue in the order of their
    publication, and messages out of each open endpoint in the order of their
    acceptance (the last while the diagnostic hook is not armed). *)
Theorem system_never_halts `{KernelStack} (idle_loop : Z) (es : list TaskEvent) (k : Kernel) (l : list Z)
    (C : gmap Z Waiting) (W : gmap Z ExitWaiting) :
  joint k l C W -> awake k l C -> awake k l W -> task_events_ok idle_loop k C W es ->
  exists log xlog k' C' W' l', task_run idle_loop es k C W = Some (log, xlog, k', C', W') /\ joint k' l' C' W' /\
    (forall t w, C' !! t = Some w -> pending k' t = true \/ t ∈ l') /\
    (forall t w, W' !! t = Some w -> pending k' t = true \/ t ∈ l') /\
    (forall q, queued k q ++ published q xlog = received q xlog ++ queued k' q) /\
    (existsb is_task_arm es = false -> hook_armed k = false -> forall e, e_closed (ept k' e) = false ->
       mail (ept k e) ++ accepted e log = delivered e log ++ mail (ept k' e)).
Proof.
  intros Hj Ha Hw Hok.
  destruct (task_run_ok idle_loop es k l C W Hj Hok) as (log & xlog & k' & C' & W' & l' & Hr & Hj' & Hx & Ha' & Hw' & Hf).
  exists log, xlog, k', C', W', l'. split_and!; try done; [by apply Ha'|by apply Hw'|].
  intros Harm Hh e Hopen. destruct (Hf Harm Hh) as [_ [Hm _]]. destruct (Hm e) as [?|?]; [congruence|done].
Qed.

(** * Witnesses *)

#[local] Instance task_demo_stack : KernelStack := { kernel_stack_mapping_valid := fun _ _ _ => true }.

(** The boolean guard of an event. *)
Definition task_event_okb (k : Kernel) (C : gmap Z Waiting) (W : gmap Z ExitWaiting) (e : TaskEvent) : bool :=
  match e with
  | TIpc e => ipc_event_okb k C e &&
    match e with ISched (EBlock _) => negb (bool_decide (is_Some (W !! current_of k))) | _ => true end
  | TExit e => exit_event_okb k W e &&
    match e with QSched (EBlock _) => negb (bool_decide (is_Some (C !! current_of k))) | _ => true end
  | TTerminate _ => true
  end.

Fixpoint task_events_okb (k : Kernel) (C : gmap Z Waiting) (W : gmap Z ExitWaiting) (es : list TaskEvent) : bool :=
  match es with
  | [] => true
  | e :: es => task_event_okb k C W e &&
    match task_step 0x5000 e k C W with Some (_, _, k1, C1, W1) => task_events_okb k1 C1 W1 es | None => true end
  end.

Lemma ipc_event_okb_sound e k C : ipc_event_okb k C e = true -> ipc_event_ok k C e.
Proof.
  intros He. assert (ipc_events_ok 0x5000 k C [e]) as [H _]; [|exact H].
  apply ipc_events_okb_sound. cbn [ipc_events_okb]. rewrite He. by destruct (ipc_step _ _ _ _) as [[[? ?] ?]|].
Qed.

Lemma exit_event_okb_sound e k W : exit_event_okb k W e = true -> exit_event_ok k W e.
Proof.
  intros He. assert (exit_events_ok 0x5000 k W [e]) as [H _]; [|exact H].
  apply exit_events_okb_sound. cbn [exit_events_okb]. rewrite He. by destruct (exit_step _ _ _ _) as [[[? ?] ?]|].
Qed.

Lemma task_events_okb_sound es k C W : task_events_okb k C W es = true -> task_events_ok 0x5000 k C W es.
Proof.
  revert k C W. induction es as [|e es IH]; intros k C W H; [done|]. cbn [task_events_okb] in H.
  apply andb_true_iff in H as [He Hes]. split.
  - clear Hes. destruct e; cbn [task_event_okb task_event_ok] in He |- *; [| |done].
    + apply andb_true_iff in He as [He Hb]. split; [by apply ipc_event_okb_sound|]. intros f ->.
      apply negb_true_iff, bool_decide_eq_false in Hb. by apply eq_None_not_Some.
    + apply andb_true_iff in He as [He Hb]. split; [by apply exit_event_okb_sound|]. intros f ->.
      apply negb_true_iff, bool_decide_eq_false in Hb. by apply eq_None_not_Some.
  - intros log xlog k' C' W' Hk. rewrite Hk in Hes. by apply IH.
Qed.

(** A queue watches the process; its first thread goes to sleep in a receive
    and is then terminated by the second; the second sends to the endpoint. *)
Definition task_demo_events : list TaskEvent :=
  [TExit (QCreate 0x8000); TExit (QWatch 0x8000 0x7000); TIpc (IReceiveBlocking 0x7000 demo_handle true 5);
   TIpc (IResume 0x103000); TTerminate 0x1000; TIpc (ISend 0x7000 demo_handle (demo_message 7))].

Lemma system_never_halts_witness :
  exists log xlog k' C' W' l', task_run 0x5000 task_demo_events task_demo ∅ ∅ = Some (log, xlog, k', C', W') /\
    joint k' l' C' W'.
Proof.
  destruct (system_never_halts 0x5000 task_demo_events task_demo [0x1000; 0x2000] ∅ ∅ task_demo_joint)
    as (log & xlog & k' & C' & W' & l' & Hr & Hj & _);
    [apply awake_empty|apply exit_awake_empty|apply task_events_okb_sound; by vm_compute|].
  exists log, xlog, k', C', W', l'. split; [exact Hr|exact Hj].
Defined.

(** The machine in which the first thread sleeps and the second runs. *)
Definition task_sleeping : Kernel * gmap Z Waiting * gmap Z ExitWaiting :=
  match task_run 0x5000 (take 4 task_demo_events) task_demo ∅ ∅ with
  | Some (_, _, k, C, W) => (k, C, W)
  | None => (task_demo, ∅, ∅)
  end.

Lemma task_sleeping_joint : exists l, joint task_sleeping.1.1 l task_sleeping.1.2 task_sleeping.2.
Proof.
  destruct (task_run_ok 0x5000 (take 4 task_demo_events) task_demo [0x1000; 0x2000] ∅ ∅ task_demo_joint)
    as (log & xlog & k & C & W & l & Hr & Hj & _); [apply task_events_okb_sound; by vm_compute|].
  unfold task_sleeping. rewrite Hr. exists l. exact Hj.
Qed.

Lemma two_threads k p a b t :
  thread_list k p [a; b] -> process_usable k p = true -> process_thread_contains k p t = true -> t = a \/ t = b.
Proof. intros Hl Hu. rewrite (contains_spec k p [a; b] t Hl Hu). intros Ht%bool_decide_eq_true. set_solver. Qed.

Lemma task_sleeping_list : thread_list task_sleeping.1.1 0x7000 [0x1000; 0x2000].
Proof.
  split; [by vm_compute|by vm_compute|by vm_compute| |by vm_compute].
  intros t Ht. apply elem_of_cons in Ht as [->|Ht]; [by vm_compute|]. apply list_elem_of_singleton in Ht as ->. by vm_compute.
Qed.

Lemma task_sleeping_threads t :
  process_thread_contains task_sleeping.1.1 0x7000 t = true -> t = 0x1000 \/ t = 0x2000.
Proof. apply two_threads; [apply task_sleeping_list|by vm_compute]. Qed.

Lemma terminate_detaches_witness :
  exists k', task_terminate_thread 0x1000 task_sleeping.1.1 = Some (true, k') /\
    t_state (thr k' 0x1000) = THREAD_STATE_DEAD /\ e_waiting_receiver (ept k' 0x6000) <> 0x1000.
Proof.
  destruct task_sleeping_joint as (l & Hj).
  destruct (terminate_detaches task_sleeping.1.1 l task_sleeping.1.2 task_sleeping.2 0x1000 Hj) as (k' & l' & Hr & _ & Ht).
  assert (can_end task_sleeping.1.1 0x1000 = true) as Hc by (by vm_compute). rewrite Hc in Hr. exists k'. split; [exact Hr|].
  destruct (Ht Hc) as (_ & He & _ & Hn & _). split; [apply He|].
  apply (Hn 0x6000 THREAD_WAIT_IPC_RECEIVE); [|reflexivity].
  assert (match task_terminate_thread 0x1000 task_sleeping.1.1 with Some (_, k) => ipc_endpoint_valid k 0x6000 | None => true end
          = true) as H by (by vm_compute). by rewrite Hr in H.
Defined.

Lemma fault_ends_process_witness :
  exists r k', task_fault_current_from_interrupt 0x5000 0x203000 0xdead task_sleeping.1.1 = Some (r, k') /\
    t_state (thr k' 0x1000) = THREAD_STATE_DEAD /\ t_state (thr k' 0x2000) = THREAD_STATE_DEAD /\
    queued k' 0x8000 = [mkProcessExitInfo PROCESS_EXIT_FAULT 2 2 14 6 0x400010 0xdead].
Proof.
  destruct task_sleeping_joint as (l & Hj).
  destruct (fault_ends_process 0x5000 task_sleeping.1.1 l task_sleeping.1.2 task_sleeping.2 0x2000 0x203000 0xdead Hj)
    as (r & k' & l' & C' & W' & Hr & _ & Hend & _ & _ & _ & Hq & _); [by vm_compute|by vm_compute| | |].
  - assert (t_process (thr task_sleeping.1.1 0x2000) = 0x7000) as -> by (by vm_compute).
    intros t [->| ->]%task_sleeping_threads Hne; by vm_compute.
  - split; [by vm_compute|done].
  - exists r, k'. split; [exact Hr|].
    split; [apply Hend; by vm_compute|]. split; [apply Hend; by vm_compute|]. rewrite Hq. by vm_compute.
Defined.

Lemma exit_ends_last_witness :
  exists r k', task_exit_current_from_interrupt 0x5000 0x203000 task_sleeping.1.1 = Some (r, k') /\
    t_state (thr k' 0x2000) = THREAD_STATE_DEAD /\ queued k' 0x8000 = [].
Proof.
  destruct task_sleeping_joint as (l & Hj).
  destruct (exit_ends_last 0x5000 task_sleeping.1.1 l task_sleeping.1.2 task_sleeping.2 0x2000 0x203000 Hj)
    as (r & k' & l' & Hr & _ & Hend & _ & _ & _ & Hsome & _); [by vm_compute| | |].
  - assert (t_process (thr task_sleeping.1.1 0x2000) = 0x7000) as -> by (by vm_compute).
    intros t [->| ->]%task_sleeping_threads; by vm_compute.
  - split; [by vm_compute|done].
  - exists r, k'. split; [exact Hr|]. split; [apply Hend|]. destruct Hsome as (_ & -> & _); [|by vm_compute].
    exists 0x1000. split; [by vm_compute|]. split; [done|by vm_compute].
Defined.
