(* ===== verification/Frames.v ===== *)
(** What the clients of the frame allocator rely on, in terms of the frames they
    hold: an allocated frame was free and is now held, and exactly a held frame
    can be released. *)

From S2P Require Import Prelude Pmm PmmProofs PmmInit PmmRefine.

Open Scope jcos_scope.

(** A frame the allocator manages and has handed out. *)
Definition held (s : Pmm) (f : Z) : Prop := frame_owned s f /\ f ∉ free_set s.

(** Allocation and release change the free set only. *)
Record same_frames (s s' : Pmm) : Prop := {
  sf_owned : forall f, frame_owned s' f <-> frame_owned s f;
  sf_armed : g_free_fault_armed s = false -> g_free_fault_armed s' = false }.

#[export] Instance same_frames_preorder : PreOrder same_frames.
Proof.
  split.
  - by intros s.
  - intros s1 s2 s3 [H1 H2] [H3 H4]. split; [|by auto]. intros f. by rewrite H3, H1.
Qed.

Lemma owned_range s f : pmm_wf s -> frame_owned s f -> 256 <= f < 2 ^ 52.
Proof.
  intros W [Hm _]. pose proof (wf_base s W). pose proof (wf_top s W).
  pose proof (wf_ranges s W f Hm). lia.
Qed.

Lemma free_owned s f : pmm_wf s -> f ∈ free_set s -> frame_owned s f.
Proof.
  intros W [Hr Hf]%elem_of_free_set. destruct (wf_owned s W (f - g_base_frame s)) as [Hm Hb]; [lia|unfold bit_free; by rewrite Hf|].
  unfold bit_managed in Hm. replace (g_base_frame s + (f - g_base_frame s)) with f in * by lia. by split.
Qed.

Lemma held_valid s f : pmm_wf s -> held s f -> f <> FRAME_INVALID.
Proof. intros W [Ho _] ->. apply owned_range in Ho; [|done]. unfold FRAME_INVALID, U64_MAX in Ho. lia. Qed.

Lemma held_kept s s' f : same_frames s s' -> f ∉ free_set s' -> held s f -> held s' f.
Proof. intros E Hn [Ho _]. split; [by apply (sf_owned _ _ E)|done]. Qed.

Lemma alloc_held s :
  pmm_wf s -> let '(f, s') := frame_alloc s in
  pmm_wf s' /\ same_frames s s' /\
  ((f = FRAME_INVALID /\ s' = s /\ free_set s = ∅) \/
   (f <> FRAME_INVALID /\ f ∈ free_set s /\ free_set s' = free_set s ∖ {[f]} /\ held s' f)).
Proof.
  intros W. pose proof (alloc_refines s W) as Hr. pose proof (erase_frame_alloc s) as E.
  assert (pmm_wf (frame_alloc s).2 /\ (free_pages (g_stats s) = 0 -> (frame_alloc s).2 = s /\ (frame_alloc s).1 = FRAME_INVALID)) as [W' H0].
  { destruct (frame_alloc_spec s W) as [H0 H1]. pose proof (wf_free_range s W).
    destruct (decide (free_pages (g_stats s) = 0)) as [Ez|Ez]; [rewrite H0 by done; done|].
    destruct H1 as (j & H1); [lia|]. split; [apply H1|done]. }
  destruct (frame_alloc s) as [f s'] eqn:Ea. cbn [fst snd] in *. destruct (erase_geometry _ _ E) as (_ & _ & Ea' & Eo).
  split_and!; [done|split; [done|congruence]|].
  destruct (decide (free_pages (g_stats s) = 0)) as [Ez|Ez]; [left; destruct (H0 Ez); split_and!; [done|done|by apply free_set_empty]|]. right.
  inversion Hr as [F g Hg|Hf HF HF'| | | |].
  - subst. assert (held s' f) as Hh by (split; [by apply Eo, free_owned|set_solver]). split_and!; try done. by eapply held_valid.
  - exfalso. apply Ez. pose proof (wf_free_range s W). destruct (decide (0 < free_pages (g_stats s))) as [Hp|]; [|lia].
    rewrite (wf_free s W) in Hp. apply count_if_pos in Hp as (i & Hi & Hfr).
    assert (g_base_frame s + i ∈ free_set s) as Hin; [|set_solver].
    apply elem_of_free_set. split; [lia|]. replace (g_base_frame s + i - g_base_frame s) with i by lia. by apply negb_true_iff in Hfr.
Qed.

Lemma held_allocated s first count :
  pmm_wf s -> span_allocated s first count <-> forall f, first <= f < first + count -> held s f.
Proof.
  intros W. unfold span_allocated, held, frame_owned. split; intros H f Hf.
  - destruct (H f Hf) as (H1 & H2 & H3). split; [done|]. rewrite elem_of_free_set. intros [_ Hu]. congruence.
  - destruct (H f Hf) as [[H1 H2] H3]. split_and!; [done|done|]. apply not_false_iff_true. intros Hu. apply H3, elem_of_free_set.
    split; [by apply (wf_ranges s W)|done].
Qed.

(** A release is all or nothing, and fails for held frames only through an armed
    diagnostic fault. *)
Lemma free_range_held s first count :
  pmm_wf s -> is_u64 first -> is_u64 count -> let '(b, s') := frame_free_range first count s in
  pmm_wf s' /\ same_frames s s' /\ free_set s' = (if b then free_set s ∪ span first count else free_set s) /\
  (b = true -> 0 < count /\ forall f, first <= f < first + count -> held s f) /\
  (0 < count -> (forall f, first <= f < first + count -> held s f) -> g_free_fault_armed s = false -> b = true).
Proof.
  intros W Hf Hc. pose proof (held_allocated s first count W) as HA.
  destruct (g_free_fault_armed s && (first =? g_free_fault_first s) && (count =? g_free_fault_count s)) eqn:Hfault.
  - unfold frame_free_range. destruct (free_range_valid s first count) eqn:Ev; cbn [negb].
    + rewrite Hfault, <- HA. split_and!; [by destruct W; split|by split|done|done|]. intros _ _ Ha. by rewrite Ha in Hfault.
    + rewrite <- HA. split_and!; try done. intros H1 H2. by rewrite (proj2 (free_range_valid_spec s first count W Hf Hc) (conj H1 H2)) in Ev.
  - destruct (frame_free_range_spec s first count W Hf Hc Hfault) as (Hiff & Hok & Hko).
    destruct (frame_free_range first count s) as [[] s'] eqn:Er; cbn [fst snd] in *; rewrite <- HA;
      [|assert (s' = s) as -> by (by apply Hko); split_and!; try done; intros; by apply Hiff].
    destruct (proj1 Hiff eq_refl) as [Hpos Hsp]. destruct (Hok eq_refl) as (W' & _ & Hu).
    pose proof (frame_free_range_eq s first count W Hf Hc Hpos Hsp Hfault) as Heq. cbn zeta in Heq. rewrite Er in Heq. injection Heq as Heq.
    assert (erase s' = erase s) as Ee by (rewrite Heq; apply erase_realloc). destruct (erase_geometry _ _ Ee) as (_ & _ & Ea & Eo).
    destruct (release_wf s first count W Hpos Hsp) as (_ & _ & _ & Ha & Hle).
    split_and!; try done; [split; [done|congruence]|]. rewrite (free_set_plus s s' (first - g_base_frame s) count Ee Ha Hle Hu). f_equal.
    apply set_eq. intros g. rewrite !elem_of_span. lia.
Qed.

Lemma free_held s f :
  pmm_wf s -> held s f -> let '(b, s') := frame_free f s in
  pmm_wf s' /\ same_frames s s' /\ free_set s' = (if b then free_set s ∪ {[f]} else free_set s) /\
  (g_free_fault_armed s = false -> b = true).
Proof.
  intros W H. pose proof (owned_range s f W (proj1 H)). unfold frame_free.
  pose proof (free_range_held s f 1 W ltac:(unfold is_u64; lia) ltac:(unfold is_u64; lia)) as Hr. destruct (frame_free_range f 1 s) as [b s'].
  destruct Hr as (W' & Hs & Hset & _ & Hok).
  assert (span f 1 = {[f]}) as Espan by (apply set_eq; intros g; rewrite elem_of_span, elem_of_singleton; lia). rewrite Espan in Hset.
  split_and!; [done|done|done|]. apply Hok; [lia|]. intros g Hg. by assert (g = f) as -> by lia.
Qed.
