(* ===== verification/Vmm.v ===== *)
(** Virtual memory: [kernel/vmm.c], four-level page tables in physical memory.

    [v_pages] is the content of physical page frames as 512 words; a non-null
    [u64 *] that addresses a page table is the frame it addresses, and
    [&table[i]] is the pair of the frame and [i]. The structures [VmPageMap] live
    at the addresses [v_maps] holds. The control registers, model-specific
    registers and CPUID are the record [Cpu]; [c_tlb] is what the processor has
    cached of the active translation, page by page, and a write of CR3 empties
    it (no global pages, no PCID). Every exported function runs with interrupts
    excluded. *)

From S2P Require Import Prelude Pmm.

Open Scope jcos_scope.

(** * Data *)

Definition VM_PAGE_SIZE : Z := 4096.

Definition VM_PML4_ENTRY_COUNT : Z := 512.

Definition PAGE_TABLE_ENTRIES : Z := 512.

Definition VM_WRITE : Z := Z.shiftl 1 0.

Definition VM_USER : Z := Z.shiftl 1 1.

Definition VM_EXEC : Z := Z.shiftl 1 2.

Definition VM_UNCACHED : Z := Z.shiftl 1 3.

Definition VM_DEVICE : Z := Z.shiftl 1 4.

Definition PTE_PRESENT : Z := Z.shiftl 1 0.

Definition PTE_WRITE : Z := Z.shiftl 1 1.

Definition PTE_USER : Z := Z.shiftl 1 2.

Definition PTE_PWT : Z := Z.shiftl 1 3.

Definition PTE_PCD : Z := Z.shiftl 1 4.

Definition PTE_HUGE : Z := Z.shiftl 1 7.

Definition PTE_GLOBAL : Z := Z.shiftl 1 8.

Definition PTE_NX : Z := Z.shiftl 1 63.

Definition PTE_ADDRESS_MASK : Z := 0x000FFFFFFFFFF000.

Record VmPageMap := mkVmPageMap {
  root_frame : Z;
  owned_pml4_first : Z;
  owned_pml4_end : Z;
  destroy_pending : bool;
  shared_source : bool }.

#[export] Instance rebuild_VmPageMap : Rebuild VmPageMap :=
  fun r => mkVmPageMap (root_frame r) (owned_pml4_first r) (owned_pml4_end r) (destroy_pending r) (shared_source r).

(** A structure no constructor has filled. *)
Definition page_map_zero : VmPageMap := mkVmPageMap FRAME_INVALID 0 0 false false.

Inductive VmmTestFault := VMM_TEST_ALLOC | VMM_TEST_ACCESS | VMM_TEST_FREE.

#[export] Instance VmmTestFault_eq_dec : EqDecision VmmTestFault.
Proof. solve_decision. Defined.

Record Fault := mkFault { ft_map : Z; ft_skip : Z; ft_armed : bool }.

Record Cpu := mkCpu {
  c_cr0 : Z;
  c_cr3 : Z;
  c_cr4 : Z;
  c_msr : Z -> Z;
  c_cpuid : Z -> Z * Z * Z * Z;
  c_tlb : gmap Z (Z * Z) }.

#[export] Instance rebuild_Cpu : Rebuild Cpu :=
  fun r => mkCpu (c_cr0 r) (c_cr3 r) (c_cr4 r) (c_msr r) (c_cpuid r) (c_tlb r).

Record Vmm := mkVmm {
  v_pmm : Pmm;
  v_pages : gmap Z (list Z);
  v_maps : gmap Z VmPageMap;
  v_use_phys_map : bool;
  v_nx_enabled : bool;
  v_unlinked_table : Z;
  v_faults : VmmTestFault -> Fault;
  v_cpu : Cpu }.

#[export] Instance rebuild_Vmm : Rebuild Vmm :=
  fun r => mkVmm (v_pmm r) (v_pages r) (v_maps r) (v_use_phys_map r) (v_nx_enabled r) (v_unlinked_table r)
    (v_faults r) (v_cpu r).

Definition pmap (s : Vmm) (map : Z) : VmPageMap := default page_map_zero (v_maps s !! map).

Definition set_pmap (map : Z) (f : VmPageMap -> VmPageMap) (s : Vmm) : Vmm :=
  s <| v_maps := <[map := f (pmap s map)]> (v_maps s) |>.

(** [table[index]] of the page table in [frame]. *)
Definition table_of (s : Vmm) (frame : Z) : list Z := default [] (v_pages s !! frame).

Definition entry (s : Vmm) (frame index : Z) : Z := default 0 (table_of s frame !! Z.to_nat index).

Definition set_entry (frame index value : Z) (s : Vmm) : Vmm :=
  s <| v_pages := <[frame := <[Z.to_nat index := value]> (table_of s frame)]> (v_pages s) |>.

(** [k_memset(table, 0, VM_PAGE_SIZE)] *)
Definition zero_table (frame : Z) (s : Vmm) : Vmm :=
  s <| v_pages := <[frame := replicate (Z.to_nat PAGE_TABLE_ENTRIES) 0]> (v_pages s) |>.

(** A bit test of a page-table entry or of flags. *)
Definition has (x bit : Z) : bool := nz (Z.land x bit).

#[global] Arguments has : simpl never.

(** * Processor state *)

Definition arch_write_cr3 (value : Z) (s : Vmm) : Vmm :=
  s <| v_cpu := (v_cpu s) <| c_cr3 := value |> <| c_tlb := ∅ |> |>.

Definition map_active (s : Vmm) (map : Z) : bool :=
  nz map && (root_frame (pmap s map) != FRAME_INVALID)
  && (Z.land (c_cr3 (v_cpu s)) PTE_ADDRESS_MASK =? frame_to_phys (root_frame (pmap s map))).

Definition profile_supported (s : Vmm) : bool := !has (c_cr4 (v_cpu s)) (Z.shiftl 1 17).

Definition flush_active_map (map : Z) (s : Vmm) : Vmm :=
  if map_active s map then arch_write_cr3 (c_cr3 (v_cpu s)) s else s.

Definition vmm_enable_phys_map_access (s : Vmm) : Vmm := s <| v_use_phys_map := true |>.

Definition vmm_phys_map_access_enabled (s : Vmm) : bool := v_use_phys_map s.

Definition IA32_EFER_MSR : Z := 0xC0000080.

Definition IA32_EFER_NXE : Z := Z.shiftl 1 11.

Definition CPUID_EXTENDED_MAX : Z := 0x80000000.

Definition CPUID_EXTENDED_FEATURES : Z := 0x80000001.

Definition CPUID_EXTENDED_NX : Z := Z.shiftl 1 20.

Definition CR0_WRITE_PROTECT : Z := Z.shiftl 1 16.

Definition arch_read_msr (s : Vmm) (msr : Z) : Z := c_msr (v_cpu s) msr.

Definition arch_write_msr (msr value : Z) (s : Vmm) : Vmm :=
  s <| v_cpu := (v_cpu s) <| c_msr := fun m => if m =? msr then value else c_msr (v_cpu s) m |> |>.

Definition vmm_enable_nx (s : Vmm) : bool * Vmm :=
  if v_nx_enabled s then (true, s) else
  let '(a, _, _, _) := c_cpuid (v_cpu s) CPUID_EXTENDED_MAX in
  if a <? CPUID_EXTENDED_FEATURES then (false, s) else
  let '(_, _, _, d) := c_cpuid (v_cpu s) CPUID_EXTENDED_FEATURES in
  if !has d CPUID_EXTENDED_NX then (false, s) else
  let efer := arch_read_msr s IA32_EFER_MSR in
  let s := if !has efer IA32_EFER_NXE then arch_write_msr IA32_EFER_MSR (Z.lor efer IA32_EFER_NXE) s else s in
  let efer := arch_read_msr s IA32_EFER_MSR in
  let s := s <| v_nx_enabled := has efer IA32_EFER_NXE |> in
  (v_nx_enabled s, s).

Definition vmm_nx_enabled (s : Vmm) : bool := v_nx_enabled s.

Definition vmm_enable_write_protect (s : Vmm) : bool * Vmm :=
  let cr0 := c_cr0 (v_cpu s) in
  let s := if !has cr0 CR0_WRITE_PROTECT
           then s <| v_cpu := (v_cpu s) <| c_cr0 := Z.lor cr0 CR0_WRITE_PROTECT |> |> else s in
  (has (c_cr0 (v_cpu s)) CR0_WRITE_PROTECT, s).

Definition vmm_write_protect_enabled (s : Vmm) : bool := has (c_cr0 (v_cpu s)) CR0_WRITE_PROTECT.

Definition vmm_device_memory_supported (s : Vmm) : bool :=
  let '(_, _, _, d) := c_cpuid (v_cpu s) 1 in
  let cr0 := c_cr0 (v_cpu s) in
  v_nx_enabled s && profile_supported s && has d (Z.shiftl 1 16)
  && has cr0 CR0_WRITE_PROTECT && !has cr0 (Z.lor (Z.shiftl 1 29) (Z.shiftl 1 30))
  && (Z.land (Z.shiftr (arch_read_msr s 0x277) 24) 0xFF =? 0).

(** * Diagnostics *)

Definition set_fault (fault : VmmTestFault) (x : Fault) (s : Vmm) : Vmm :=
  s <| v_faults := fun f => if decide (f = fault) then x else v_faults s f |>.

Definition test_fault (map : Z) (fault : VmmTestFault) (s : Vmm) : bool * Vmm :=
  let x := v_faults s fault in
  if !ft_armed x || (ft_map x != map) then (false, s) else
  if nz (ft_skip x) then (false, set_fault fault (mkFault (ft_map x) (ft_skip x - 1) (ft_armed x)) s) else
  (true, set_fault fault (mkFault 0 (ft_skip x) false) s).

Definition vmm_test_fail_once (map : Z) (fault : VmmTestFault) (skip : Z) (s : Vmm) : bool * Vmm :=
  if !nz map then (false, s) else
  if !ft_armed (v_faults s fault) then (true, set_fault fault (mkFault map skip true) s) else (false, s).

Definition vmm_test_faults_armed (s : Vmm) : Z :=
  foldl (fun count fault => if ft_armed (v_faults s fault) then count + 1 else count) 0
    [VMM_TEST_ALLOC; VMM_TEST_ACCESS; VMM_TEST_FREE].

Definition vmm_test_clear_faults (s : Vmm) : Vmm := s <| v_faults := fun _ => mkFault 0 0 false |>.

Definition vmm_unlinked_table_cleanup_pending (s : Vmm) : bool := v_unlinked_table s != FRAME_INVALID.

(** [frame_alloc] and [frame_free] on the allocator inside the state. *)
Definition vmm_frame_alloc (s : Vmm) : Z * Vmm :=
  let '(frame, p) := frame_alloc (v_pmm s) in (frame, s <| v_pmm := p |>).

Definition vmm_frame_free (frame : Z) (s : Vmm) : bool * Vmm :=
  let '(freed, p) := frame_free frame (v_pmm s) in (freed, s <| v_pmm := p |>).

Definition vmm_reclaim_unlinked_table (s : Vmm) : bool * Vmm :=
  let '(result, s) := if v_unlinked_table s =? FRAME_INVALID then (true, s)
                      else vmm_frame_free (v_unlinked_table s) s in
  if result then (true, s <| v_unlinked_table := FRAME_INVALID |>) else (false, s).

Definition free_table (map frame : Z) (s : Vmm) : bool * Vmm :=
  let '(fault, s) := test_fault map VMM_TEST_FREE s in
  if fault then (false, s) else vmm_frame_free frame s.

(** * Addresses and entries *)

Definition page_aligned (address : Z) : bool := Z.land address (VM_PAGE_SIZE - 1) =? 0.

Definition virtual_address_canonical (address : Z) : bool :=
  let upper := Z.shiftr address 48 in
  let negative := nz (Z.land (Z.shiftr address 47) 1) in
  if negative then upper =? 0xFFFF else upper =? 0.

Definition pml4_index (address : Z) : Z := Z.land (Z.shiftr address 39) 0x1FF.

Definition pdpt_index (address : Z) : Z := Z.land (Z.shiftr address 30) 0x1FF.

Definition pd_index (address : Z) : Z := Z.land (Z.shiftr address 21) 0x1FF.

Definition pt_index (address : Z) : Z := Z.land (Z.shiftr address 12) 0x1FF.

Definition map_owns_pml4_index (s : Vmm) (map index : Z) : bool :=
  if !nz map then false else
  (index >=? owned_pml4_first (pmap s map)) && (index <? owned_pml4_end (pmap s map)).

Definition table_pointer (s : Vmm) (frame : Z) : option Z :=
  let physical := frame_to_phys frame in
  if !nz physical then None else
  if v_use_phys_map s then (if nz (phys_to_virt physical) then Some frame else None)
  else Some frame.

Definition entry_frame (e : Z) : Z := phys_to_frame (Z.land e PTE_ADDRESS_MASK).

Definition valid_mapping_frame (frame : Z) : bool :=
  if frame =? FRAME_INVALID then false else
  let physical := frame_to_phys frame in
  if !nz physical then false else
  if nz (Z.land physical (u64 (Z.lnot PTE_ADDRESS_MASK))) then false else true.

(** * Tables *)

Definition allocate_table (map : Z) (s : Vmm) : option Z * Vmm :=
  if !nz map then (None, s) else
  if v_unlinked_table s != FRAME_INVALID then (None, s) else
  let '(fault, s) := test_fault map VMM_TEST_ALLOC s in
  if fault then (None, s) else
  let '(frame, s) := vmm_frame_alloc s in
  if frame =? FRAME_INVALID then (None, s) else
  let '(usable, s) := if valid_mapping_frame frame then
                        let '(fault, s) := test_fault map VMM_TEST_ACCESS s in (!fault, s)
                      else (false, s) in
  match (if usable then table_pointer s frame else None) with
  | None =>
    let '(freed, s) := free_table map frame s in
    (None, if !freed then s <| v_unlinked_table := frame |> else s)
  | Some table => (Some frame, zero_table table s)
  end.

Definition existing_table (s : Vmm) (parent index : Z) : option Z :=
  let e := entry s parent index in
  if !has e PTE_PRESENT then None else
  if has e PTE_HUGE then None else
  let frame := entry_frame e in
  if frame =? FRAME_INVALID then None else table_pointer s frame.

(** The result is the created frame, [FRAME_INVALID] for none, and the table. *)
Definition create_or_get_table (map parent index : Z) (user : bool) (s : Vmm) : option (Z * Z) * Vmm :=
  let e := entry s parent index in
  if has e PTE_PRESENT then
    if has e PTE_HUGE then (None, s) else
    let s := set_entry parent index (Z.lor e PTE_WRITE) s in
    let s := if user then set_entry parent index (Z.lor (entry s parent index) PTE_USER) s else s in
    let frame := entry_frame (entry s parent index) in
    if frame =? FRAME_INVALID then (None, s) else
    match table_pointer s frame with
    | None => (None, s)
    | Some table => (Some (FRAME_INVALID, table), s)
    end
  else if nz e then (None, s) else
  match allocate_table map s with
  | (None, s) => (None, s)
  | (Some frame, s) =>
    let flags := Z.lor PTE_PRESENT PTE_WRITE in
    let flags := if user then Z.lor flags PTE_USER else flags in
    (Some (frame, frame), set_entry parent index (Z.lor (frame_to_phys frame) flags) s)
  end.

Definition table_empty (s : Vmm) (frame : Z) : bool :=
  forallb (fun i => !nz (entry s frame i)) (seqZ 0 PAGE_TABLE_ENTRIES).

Definition release_empty_child (map parent index : Z) (s : Vmm) : bool * Vmm :=
  let saved := entry s parent index in
  if !has saved PTE_PRESENT || has saved PTE_HUGE then (false, s) else
  let frame := entry_frame saved in
  match table_pointer s frame with
  | None => (false, s)
  | Some table =>
    if !table_empty s table then (false, s) else
    let s := set_entry parent index 0 s in
    let '(freed, s) := free_table map frame s in
    if !freed then (false, set_entry parent index saved s) else (true, s)
  end.

(** [created] holds the created links, the last one first. *)
Fixpoint rollback_loop (map : Z) (created : list (Z * Z * Z)) (s : Vmm) : Vmm :=
  match created with
  | [] => s
  | (parent, index, frame) :: created =>
    if entry_frame (entry s parent index) != frame then s else
    let '(released, s) := release_empty_child map parent index s in
    if !released then s else rollback_loop map created s
  end.

Definition rollback_created_tables (map : Z) (created : list (Z * Z * Z)) (s : Vmm) : Vmm :=
  if map_active s map || shared_source (pmap s map) then s else rollback_loop map created s.

(** Level 1 is a page table, whose entries map data. *)
Fixpoint tree_has_no_leaves (level : nat) (s : Vmm) (frame first last : Z) : bool :=
  match table_pointer s frame, level with
  | Some table, S below =>
    forallb (fun i =>
      let e := entry s table i in
      if !nz e then true else
      if Nat.eqb level 1 || !has e PTE_PRESENT || has e PTE_HUGE then false else
      let child := entry_frame e in
      (child != frame) && tree_has_no_leaves below s child 0 PAGE_TABLE_ENTRIES)
      (seqZ first (last - first))
  | _, _ => false
  end.

(** A loop whose body may end it with the result false. *)
Fixpoint for_each (body : Z -> Vmm -> bool * Vmm) (indices : list Z) (s : Vmm) : bool * Vmm :=
  match indices with
  | [] => (true, s)
  | i :: indices =>
    match body i s with
    | (true, s) => for_each body indices s
    | (false, s) => (false, s)
    end
  end.

Fixpoint collect_children (level : nat) (map frame first last : Z) (s : Vmm) : bool * Vmm :=
  match table_pointer s frame, level with
  | Some table, S below =>
    if Nat.eqb level 1 then (true, s) else
    for_each (fun i s =>
      let e := entry s table i in
      if !nz e then (true, s) else
      if !has e PTE_PRESENT || has e PTE_HUGE then (false, s) else
      let child := entry_frame e in
      if child =? frame then (false, s) else
      let '(collected, s) := collect_children below map child 0 PAGE_TABLE_ENTRIES s in
      if !collected then (false, s) else
      match table_pointer s child with
      | Some t => if table_empty s t then release_empty_child map table i s else (true, s)
      | None => (true, s)
      end) (seqZ first (last - first)) s
  | _, _ => (false, s)
  end.

Definition map_reclaimable (s : Vmm) (map : Z) : bool :=
  let m := pmap s map in
  nz map && (root_frame m != FRAME_INVALID) && (owned_pml4_first m <? owned_pml4_end m)
  && (owned_pml4_end m <=? VM_PML4_ENTRY_COUNT) && !shared_source m && !map_active s map && profile_supported s.

Definition vmm_page_map_collect (map : Z) (s : Vmm) : bool * Vmm :=
  if map_reclaimable s map then
    collect_children 4 map (root_frame (pmap s map)) (owned_pml4_first (pmap s map)) (owned_pml4_end (pmap s map)) s
  else (false, s).

(** * Page maps *)

Definition create_owned_locked (map owned_first owned_end : Z) (s : Vmm) : bool * Vmm :=
  if !nz map then (false, s) else
  if (owned_first >=? owned_end) || (owned_end >? VM_PML4_ENTRY_COUNT) then (false, s) else
  let s := set_pmap map (fun _ => mkVmPageMap FRAME_INVALID 0 0 false false) s in
  match allocate_table map s with
  | (None, s) => (false, s)
  | (Some root, s) =>
    (true, set_pmap map (fun m => m <| root_frame := root |> <| owned_pml4_first := owned_first |>
                                    <| owned_pml4_end := owned_end |>) s)
  end.

Definition vmm_page_map_create_owned_range (map first last : Z) (s : Vmm) : bool * Vmm :=
  if profile_supported s then create_owned_locked map first last s else (false, s).

Definition vmm_page_map_create (map : Z) (s : Vmm) : bool * Vmm :=
  vmm_page_map_create_owned_range map 0 VM_PML4_ENTRY_COUNT s.

Definition vmm_page_map_destroy (map : Z) (s : Vmm) : bool * Vmm :=
  if !map_reclaimable s map then (false, s) else
  let m := pmap s map in
  if !tree_has_no_leaves 4 s (root_frame m) (owned_pml4_first m) (owned_pml4_end m) then (false, s) else
  let s := set_pmap map (fun m => m <| destroy_pending := true |>) s in
  let '(collected, s) := collect_children 4 map (root_frame m) (owned_pml4_first m) (owned_pml4_end m) s in
  if !collected then (false, s) else
  let '(freed, s) := free_table map (root_frame m) s in
  if !freed then (false, s) else
  (true, set_pmap map (fun m => m <| root_frame := FRAME_INVALID |> <| owned_pml4_first := 0 |>
                                  <| owned_pml4_end := 0 |> <| destroy_pending := false |>) s).

(** * Mapping *)

Definition VM_FLAGS_ALL : Z := Z.lor VM_WRITE (Z.lor VM_USER (Z.lor VM_EXEC (Z.lor VM_UNCACHED VM_DEVICE))).

(** The hardware bits of a leaf. *)
Definition leaf_flags (flags : Z) : Z :=
  let entry_flags := Z.lor PTE_PRESENT PTE_NX in
  let entry_flags := if has flags VM_WRITE then Z.lor entry_flags PTE_WRITE else entry_flags in
  let entry_flags := if has flags VM_USER then Z.lor entry_flags PTE_USER else entry_flags in
  let entry_flags := if has flags VM_UNCACHED then Z.lor entry_flags PTE_PCD else entry_flags in
  let entry_flags := if has flags VM_DEVICE then Z.lor entry_flags (Z.lor PTE_PCD PTE_PWT) else entry_flags in
  if has flags VM_EXEC then Z.land entry_flags (u64 (Z.lnot PTE_NX)) else entry_flags.

(** Record a created link. *)
Definition note_created (created parent index : Z) (links : list (Z * Z * Z)) : list (Z * Z * Z) :=
  if created != FRAME_INVALID then (parent, index, created) :: links else links.

(** The part of [map_page_locked] after its checks. *)
Definition map_page_tables (map virtual_address frame flags : Z) (s : Vmm) : bool * Vmm :=
  match table_pointer s (root_frame (pmap s map)) with
  | None => (false, s)
  | Some pml4 =>
    let user := has flags VM_USER in
    let i4 := pml4_index virtual_address in
    match create_or_get_table map pml4 i4 user s with
    | (None, s) => (false, s)
    | (Some (created, pdpt), s) =>
      let links := note_created created pml4 i4 [] in
      let i3 := pdpt_index virtual_address in
      match create_or_get_table map pdpt i3 user s with
      | (None, s) => (false, rollback_created_tables map links s)
      | (Some (created, pd), s) =>
        let links := note_created created pdpt i3 links in
        let i2 := pd_index virtual_address in
        match create_or_get_table map pd i2 user s with
        | (None, s) => (false, rollback_created_tables map links s)
        | (Some (created, pt), s) =>
          let links := note_created created pd i2 links in
          let i1 := pt_index virtual_address in
          if nz (entry s pt i1) then (false, rollback_created_tables map links s) else
          (true, set_entry pt i1 (Z.lor (frame_to_phys frame) (leaf_flags flags)) s)
        end
      end
    end
  end.

(** The checks of [map_page_locked]. *)
Definition map_page_allowed (s : Vmm) (map virtual_address frame flags : Z) : bool :=
  let m := pmap s map in
  if !nz map || (root_frame m =? FRAME_INVALID) || destroy_pending m then false else
  if shared_source m && !map_active s map then false else
  if !page_aligned virtual_address || !virtual_address_canonical virtual_address then false else
  if !valid_mapping_frame frame then false else
  if !v_nx_enabled s then false else
  if nz (Z.land flags (u64 (Z.lnot VM_FLAGS_ALL))) then false else
  if has flags VM_DEVICE && (has flags VM_UNCACHED || !vmm_device_memory_supported s) then false else
  map_owns_pml4_index s map (pml4_index virtual_address).

Definition map_page_locked (map virtual_address frame flags : Z) (s : Vmm) : bool * Vmm :=
  if !map_page_allowed s map virtual_address frame flags then (false, s)
  else map_page_tables map virtual_address frame flags s.

Definition vmm_map_page (map address frame permissions : Z) (s : Vmm) : bool * Vmm :=
  let '(result, s) := if profile_supported s then map_page_locked map address frame permissions s else (false, s) in
  (result, if profile_supported s then flush_active_map map s else s).

(** * Queries *)

(** The permissions of a translation with the given entries, outermost first. *)
Definition effective_flags (pml4e pdpte pde pte : Z) : Z :=
  let result := 0 in
  let result := if has pml4e PTE_WRITE && has pdpte PTE_WRITE && has pde PTE_WRITE && has pte PTE_WRITE
                then Z.lor result VM_WRITE else result in
  let result := if has pml4e PTE_USER && has pdpte PTE_USER && has pde PTE_USER && has pte PTE_USER
                then Z.lor result VM_USER else result in
  let result := if !has (Z.lor (Z.lor (Z.lor pml4e pdpte) pde) pte) PTE_NX then Z.lor result VM_EXEC else result in
  if Z.land pte (Z.lor PTE_PCD PTE_PWT) =? Z.lor PTE_PCD PTE_PWT then Z.lor result VM_DEVICE
  else if has pte PTE_PCD then Z.lor result VM_UNCACHED else result.

Definition vmm_query_page (s : Vmm) (map virtual_address : Z) : option (Z * Z) :=
  if !nz map || (root_frame (pmap s map) =? FRAME_INVALID) then None else
  if !page_aligned virtual_address || !virtual_address_canonical virtual_address then None else
  pml4 ← table_pointer s (root_frame (pmap s map));
  pdpt ← existing_table s pml4 (pml4_index virtual_address);
  pd ← existing_table s pdpt (pdpt_index virtual_address);
  pt ← existing_table s pd (pd_index virtual_address);
  let pte := entry s pt (pt_index virtual_address) in
  if !has pte PTE_PRESENT then None else
  Some (entry_frame pte,
        effective_flags (entry s pml4 (pml4_index virtual_address)) (entry s pdpt (pdpt_index virtual_address))
          (entry s pd (pd_index virtual_address)) pte).

(** * Changing and removing mappings *)

(** The walk of [vmm_set_writable] to the page table. *)
Fixpoint writable_walk (s : Vmm) (table : Z) (indices : list Z) : option Z :=
  match indices with
  | [] => Some table
  | i :: indices =>
    if !has (entry s table i) PTE_WRITE then None else
    table ← existing_table s table i;
    writable_walk s table indices
  end.

Definition vmm_set_writable (map address expected expected_flags : Z) (writable : bool) (s : Vmm) : bool * Vmm :=
  let m := pmap s map in
  if !profile_supported s || !nz map || destroy_pending m || !page_aligned address
     || !virtual_address_canonical address || !map_owns_pml4_index s map (pml4_index address)
     || (shared_source m && !map_active s map) then (false, s) else
  match vmm_query_page s map address with
  | None => (false, s)
  | Some (actual, permissions) =>
    if (actual != expected) || (permissions != expected_flags) || has permissions VM_EXEC
       || (has permissions VM_DEVICE && !vmm_device_memory_supported s) then (false, s) else
    match table ← table_pointer s (root_frame m);
          writable_walk s table [pml4_index address; pdpt_index address; pd_index address] with
    | None => (false, s)
    | Some table =>
      let leaf := entry s table (pt_index address) in
      if has leaf (Z.lor PTE_GLOBAL PTE_HUGE) || !has leaf PTE_NX then (false, s) else
      let s := set_entry table (pt_index address)
                 (if writable then Z.lor leaf PTE_WRITE else Z.land leaf (u64 (Z.lnot PTE_WRITE))) s in
      (true, flush_active_map map s)
    end
  end.

(** The pruning of [unmap_page_locked] after the leaf was removed. *)
Definition prune_tables (map pml4 i4 pdpt i3 pd i2 pt : Z) (s : Vmm) : Vmm :=
  if !map_active s map && !shared_source (pmap s map) && table_empty s pt then
    let '(released, s) := release_empty_child map pd i2 s in
    if !released then s else
    if table_empty s pd then
      let '(released, s) := release_empty_child map pdpt i3 s in
      if !released then s else
      if table_empty s pdpt then (release_empty_child map pml4 i4 s).2 else s
    else s
  else s.

Definition unmap_page_locked (map virtual_address : Z) (s : Vmm) : option Z * Vmm :=
  let m := pmap s map in
  if !nz map || (root_frame m =? FRAME_INVALID) || destroy_pending m then (None, s) else
  if shared_source m && !map_active s map then (None, s) else
  if !page_aligned virtual_address || !virtual_address_canonical virtual_address then (None, s) else
  let i4 := pml4_index virtual_address in
  let i3 := pdpt_index virtual_address in
  let i2 := pd_index virtual_address in
  let i1 := pt_index virtual_address in
  if !map_owns_pml4_index s map i4 then (None, s) else
  match (pml4 ← table_pointer s (root_frame m);
         pdpt ← existing_table s pml4 i4;
         pd ← existing_table s pdpt i3;
         pt ← existing_table s pd i2;
         Some (pml4, pdpt, pd, pt)) with
  | None => (None, s)
  | Some (pml4, pdpt, pd, pt) =>
    let e := entry s pt i1 in
    if !has e PTE_PRESENT || has e PTE_GLOBAL then (None, s) else
    let mapped := entry_frame e in
    let s := set_entry pt i1 0 s in
    let s := flush_active_map map s in
    (Some mapped, prune_tables map pml4 i4 pdpt i3 pd i2 pt s)
  end.

(** The frame is what [*old_frame] receives. *)
Definition vmm_unmap_page (map address : Z) (s : Vmm) : option Z * Vmm :=
  if profile_supported s then unmap_page_locked map address s else (None, s).

(** * Ranges *)

(** One page of [vmm_map_range]. *)
Definition map_range_page (map virtual_address physical_address flags i : Z) (s : Vmm) : bool * Vmm :=
  let virtual_page := u64 (virtual_address + i * VM_PAGE_SIZE) in
  let physical_page := u64 (physical_address + i * VM_PAGE_SIZE) in
  if !map_owns_pml4_index s map (pml4_index virtual_page) then (false, s) else
  let expected := phys_to_frame physical_page in
  if expected =? FRAME_INVALID then (false, s) else
  match vmm_query_page s map virtual_page with
  | Some (existing, existing_flags) =>
    if existing != expected then (false, s) else
    if Z.land existing_flags flags != flags then (false, s) else (true, s)
  | None => vmm_map_page map virtual_page expected flags s
  end.

Definition vmm_map_range (map virtual_address physical_address size flags : Z) (s : Vmm) : bool * Vmm :=
  if !nz map || destroy_pending (pmap s map) then (false, s) else
  if !nz size then (true, s) else
  if nz (Z.land virtual_address (VM_PAGE_SIZE - 1)) then (false, s) else
  if nz (Z.land physical_address (VM_PAGE_SIZE - 1)) then (false, s) else
  if size >? U64_MAX - (VM_PAGE_SIZE - 1) then (false, s) else
  let page_count := (size + VM_PAGE_SIZE - 1) / VM_PAGE_SIZE in
  if !nz page_count then (false, s) else
  if page_count >? U64_MAX / VM_PAGE_SIZE then (false, s) else
  let span := page_count * VM_PAGE_SIZE in
  if virtual_address >? U64_MAX - (span - 1) then (false, s) else
  if physical_address >? U64_MAX - (span - 1) then (false, s) else
  for_each (map_range_page map virtual_address physical_address flags) (seqZ 0 page_count) s.

Definition vmm_identity_map_range (map physical_address size flags : Z) (s : Vmm) : bool * Vmm :=
  if !nz size then (true, s) else
  let offset := Z.land physical_address (VM_PAGE_SIZE - 1) in
  let aligned := Z.land physical_address (u64 (Z.lnot (VM_PAGE_SIZE - 1))) in
  if size >? U64_MAX - offset then (false, s) else
  let adjusted_size := size + offset in
  if !nz aligned then
    if adjusted_size <=? VM_PAGE_SIZE then (true, s)
    else vmm_map_range map VM_PAGE_SIZE VM_PAGE_SIZE (adjusted_size - VM_PAGE_SIZE) flags s
  else vmm_map_range map aligned aligned adjusted_size flags s.

(** * Sharing *)

Definition share_locked (destination source index : Z) (s : Vmm) : bool * Vmm :=
  let d := pmap s destination in
  let m := pmap s source in
  if !nz destination || !nz source || (root_frame d =? FRAME_INVALID) || (root_frame m =? FRAME_INVALID)
     || (index >=? VM_PML4_ENTRY_COUNT) then (false, s) else
  if (destination =? source) || destroy_pending d || destroy_pending m || map_active s destination then (false, s) else
  if map_owns_pml4_index s destination index then (false, s) else
  match table_pointer s (root_frame d), table_pointer s (root_frame m) with
  | Some destination_pml4, Some source_pml4 =>
    if has (entry s destination_pml4 index) PTE_PRESENT then (false, s) else
    let s := set_entry destination_pml4 index (entry s source_pml4 index) s in
    (true, if has (entry s source_pml4 index) PTE_PRESENT
           then set_pmap source (fun m => m <| shared_source := true |>) s else s)
  | _, _ => (false, s)
  end.

Definition vmm_page_map_share_pml4_entry (destination source index : Z) (s : Vmm) : bool * Vmm :=
  if profile_supported s then share_locked destination source index s else (false, s).

(** * Structural inspection *)

Definition vmm_test_unlinked_table (s : Vmm) : Z := v_unlinked_table s.

Definition vmm_test_entry_flags (e : Z) : Z :=
  if !has e PTE_PRESENT then 0 else
  let flags := 0 in
  let flags := if has e PTE_WRITE then Z.lor flags VM_WRITE else flags in
  let flags := if has e PTE_USER then Z.lor flags VM_USER else flags in
  let flags := if !has e PTE_NX then Z.lor flags VM_EXEC else flags in
  if Z.land e (Z.lor PTE_PCD PTE_PWT) =? Z.lor PTE_PCD PTE_PWT then Z.lor flags VM_DEVICE
  else if has e PTE_PCD then Z.lor flags VM_UNCACHED else flags.

Record VmmTestPageWalk := mkVmmTestPageWalk {
  pw_frame : Z;
  pw_pml4_flags : Z;
  pw_pdpt_flags : Z;
  pw_pd_flags : Z;
  pw_pt_flags : Z;
  pw_effective_flags : Z }.

Definition vmm_test_page_walk (s : Vmm) (map virtual_address : Z) : option VmmTestPageWalk :=
  '(mapped, effective) ← vmm_query_page s map virtual_address;
  pml4 ← table_pointer s (root_frame (pmap s map));
  let i4 := pml4_index virtual_address in
  pdpt ← existing_table s pml4 i4;
  let i3 := pdpt_index virtual_address in
  pd ← existing_table s pdpt i3;
  let i2 := pd_index virtual_address in
  pt ← existing_table s pd i2;
  let pte := entry s pt (pt_index virtual_address) in
  if !has pte PTE_PRESENT || (entry_frame pte != mapped) then None else
  Some (mkVmmTestPageWalk mapped (vmm_test_entry_flags (entry s pml4 i4)) (vmm_test_entry_flags (entry s pdpt i3))
          (vmm_test_entry_flags (entry s pd i2)) (vmm_test_entry_flags pte) effective).
