(* ===== verification/VmmWf.v ===== *)
(** The tree of page tables and its invariant.

    A table is named by the page map that owns it and the path of indices from
    the root ([node]); the invariant [vmm_wf] says that this naming is injective
    over all maps, that every table is a frame held from the allocator, and that
    every entry is empty or of the type its level demands. *)

From S2P Require Import Prelude Pmm PmmProofs PmmRefine Frames Vmm.

Open Scope jcos_scope.

(** * Bits *)

Lemma has_bit x k : 0 <= k -> has x (Z.shiftl 1 k) = Z.testbit x k.
Proof. intros Hk. unfold has, nz. by rewrite land_bit_testbit. Qed.

Lemma has_lor x y k : 0 <= k -> has (Z.lor x y) (Z.shiftl 1 k) = has x (Z.shiftl 1 k) || has y (Z.shiftl 1 k).
Proof. intros Hk. by rewrite !has_bit, Z.lor_spec. Qed.

Lemma has_land x y k : 0 <= k -> has (Z.land x y) (Z.shiftl 1 k) = has x (Z.shiftl 1 k) && has y (Z.shiftl 1 k).
Proof. intros Hk. by rewrite !has_bit, Z.land_spec. Qed.

Lemma has_0 b : has 0 b = false.
Proof. unfold has. by rewrite Z.land_0_l. Qed.

Lemma has_nonzero e b : has e b = true -> e <> 0.
Proof. intros H ->. by rewrite has_0 in H. Qed.

(** The address field does not overlap the bits of an entry. *)
Lemma has_masked x b : Z.land PTE_ADDRESS_MASK b = 0 -> Z.land x PTE_ADDRESS_MASK = x -> has x b = false.
Proof. intros Hb Hx. unfold has. rewrite <- Hx, <- Z.land_assoc, Hb, Z.land_0_r. done. Qed.

Lemma page_offset x : Z.land x (FRAME_SIZE - 1) = x mod 4096.
Proof. change (FRAME_SIZE - 1) with (Z.ones 12). by rewrite Z.land_ones. Qed.

Lemma frame_to_phys_u64 f : is_u64 (frame_to_phys f).
Proof. unfold frame_to_phys. repeat if_case; [unfold is_u64; lia..|apply u64_range]. Qed.

Lemma u64_bits_above x n : is_u64 x -> 64 <= n -> Z.testbit x n = false.
Proof.
  intros Hx Hn. destruct (decide (x = 0)) as [->|H0]; [apply Z.bits_0|]. unfold is_u64 in Hx.
  apply Z.bits_above_log2; [lia|]. apply Z.log2_lt_pow2; [lia|]. apply (Z.lt_le_trans _ (2 ^ 64)); [lia|].
  apply Z.pow_le_mono_r; lia.
Qed.

(** [x & ~mask] is empty exactly when [x & mask] is [x]. *)
Lemma land_lnot_0 x mask : is_u64 x -> Z.land x (u64 (Z.lnot mask)) = 0 -> Z.land x mask = x.
Proof.
  intros Hx H0. apply Z.bits_inj'. intros n Hn. rewrite Z.land_spec. destruct (Z.testbit x n) eqn:En; [|done].
  destruct (Z.testbit mask n) eqn:Em; [done|]. exfalso. destruct (decide (n < 64)) as [Hn64|]; [|by rewrite u64_bits_above in En by lia || done].
  assert (Z.testbit (Z.land x (u64 (Z.lnot mask))) n = true) as Hb; [|by rewrite H0, Z.bits_0 in Hb].
  rewrite Z.land_spec, En. unfold u64. by rewrite <- Z.land_ones, Z.land_spec, Z.lnot_spec, Em, Z.ones_spec_low by lia.
Qed.

Lemma valid_frame f :
  0 <= f -> valid_mapping_frame f = true ->
  f <> FRAME_INVALID /\ 0 < f /\ frame_to_phys f = f * FRAME_SIZE /\
  Z.land (frame_to_phys f) PTE_ADDRESS_MASK = frame_to_phys f.
Proof.
  unfold valid_mapping_frame. intros Hf H. repeat if_case_in H; try done. bool_prop.
  split_and!; [done| | |apply land_lnot_0; [apply frame_to_phys_u64|done]].
  - destruct (Z.eq_dec f 0) as [->|]; [by vm_compute in E0|lia].
  - unfold frame_to_phys in *. destruct (Z.eqb_spec f FRAME_INVALID); [done|]. if_case; [done|]. bool_prop.
    apply u64_id. unfold is_u64, FRAME_SIZE, U64_MAX in *. change ((2 ^ 64 - 1) / 4096) with 4503599627370495 in *. lia.
Qed.

(** An entry made of a frame and bits outside the address field. *)
Lemma entry_frame_make f bits :
  0 <= f -> valid_mapping_frame f = true -> Z.land bits PTE_ADDRESS_MASK = 0 ->
  entry_frame (Z.lor (frame_to_phys f) bits) = f.
Proof.
  intros Hf Hv Hb. destruct (valid_frame f Hf Hv) as (_ & _ & Hp & Hm). unfold entry_frame.
  rewrite Z.land_lor_distr_l, Hb, Z.lor_0_r, Hm, Hp. unfold phys_to_frame. rewrite page_offset.
  unfold FRAME_SIZE. rewrite Z.mod_mul, Z.div_mul by lia. done.
Qed.

Lemma has_make f bits k :
  0 <= f -> valid_mapping_frame f = true -> 0 <= k -> Z.land PTE_ADDRESS_MASK (Z.shiftl 1 k) = 0 ->
  has (Z.lor (frame_to_phys f) bits) (Z.shiftl 1 k) = has bits (Z.shiftl 1 k).
Proof.
  intros Hf Hv Hk Hm. destruct (valid_frame f Hf Hv) as (_ & _ & _ & Hp). by rewrite has_lor, (has_masked _ _ Hm Hp).
Qed.

(** Bits outside the address field do not change the frame. *)
Lemma entry_frame_lor e bits : Z.land bits PTE_ADDRESS_MASK = 0 -> entry_frame (Z.lor e bits) = entry_frame e.
Proof. intros Hb. unfold entry_frame. by rewrite Z.land_lor_distr_l, Hb, Z.lor_0_r. Qed.

(** * Entries *)

Definition index (i : Z) : Prop := 0 <= i < 512.

Lemma index_mask x : index (Z.land x 0x1FF).
Proof. unfold index. change 0x1FF with (Z.ones 9). rewrite Z.land_ones by lia. apply (Z.mod_pos_bound x 512). lia. Qed.

Lemma entry_set s f i e g j :
  index i -> index j -> length (table_of s f) = 512%nat ->
  entry (set_entry f i e s) g j = if decide (g = f /\ j = i) then e else entry s g j.
Proof.
  intros Hi Hj Hl. unfold entry, set_entry, table_of in *. upd_simpl. unfold index in *.
  destruct (decide (g = f)) as [->|Hg].
  - rewrite lookup_insert_eq. cbn [default id]. destruct (decide (j = i)) as [->|Hj'].
    + rewrite list_lookup_insert_eq by lia. by rewrite decide_True.
    + rewrite list_lookup_insert_ne by lia. rewrite decide_False by (by intros []). done.
  - rewrite lookup_insert_ne by done. rewrite decide_False by (by intros []). done.
Qed.

Lemma length_set s f i e g : length (table_of (set_entry f i e s) g) = length (table_of s g).
Proof.
  unfold set_entry, table_of. upd_simpl. destruct (decide (g = f)) as [->|Hg].
  - rewrite lookup_insert_eq. apply length_insert.
  - by rewrite lookup_insert_ne.
Qed.

(** What [existing_table] reads of an entry. *)
Definition target (phys : bool) (e : Z) : option Z :=
  if !has e PTE_PRESENT then None else if has e PTE_HUGE then None else
  let frame := entry_frame e in
  if frame =? FRAME_INVALID then None else
  let physical := frame_to_phys frame in
  if !nz physical then None else
  if phys then (if nz (phys_to_virt physical) then Some frame else None) else Some frame.

Lemma existing_target s f i : existing_table s f i = target (v_use_phys_map s) (entry s f i).
Proof. done. Qed.

Lemma target_frame b e g : target b e = Some g -> entry_frame e = g /\ has e PTE_PRESENT = true /\ has e PTE_HUGE = false.
Proof.
  unfold target. intros H. destruct (has e PTE_PRESENT); [|done]. destruct (has e PTE_HUGE); [done|]. cbn [negb] in H.
  repeat if_case_in H; try done; by injection H.
Qed.

Lemma target_0 b : target b 0 = None.
Proof. by destruct b. Qed.

Lemma pointer_self s f g : table_pointer s f = Some g -> g = f.
Proof. unfold table_pointer. intros H. repeat if_case_in H; try done; by injection H. Qed.

Lemma target_pointer s e g :
  target (v_use_phys_map s) e = Some g -> table_pointer s g = Some g /\ g <> FRAME_INVALID.
Proof.
  intros H. pose proof (target_frame _ _ _ H) as (E & Hp & Hh). unfold target in H. rewrite Hp, Hh, E in H. cbn [negb] in H.
  destruct (Z.eqb_spec g FRAME_INVALID); [done|]. by split.
Qed.

Lemma target_make s f bits :
  0 <= f -> valid_mapping_frame f = true -> table_pointer s f = Some f -> Z.land bits PTE_ADDRESS_MASK = 0 ->
  has bits PTE_PRESENT = true -> has bits PTE_HUGE = false ->
  target (v_use_phys_map s) (Z.lor (frame_to_phys f) bits) = Some f.
Proof.
  intros Hf Hv Hp Hb H1 H2. destruct (valid_frame f Hf Hv) as (Hi & _). unfold target.
  unfold PTE_PRESENT, PTE_HUGE in *. rewrite !has_make, H1, H2, entry_frame_make by done. cbn [negb].
  destruct (Z.eqb_spec f FRAME_INVALID); [done|]. exact Hp.
Qed.

(** * Paths *)

Fixpoint walk (s : Vmm) (f : Z) (p : list Z) : option Z :=
  match p with
  | [] => Some f
  | i :: p => g ← existing_table s f i; walk s g p
  end.

Lemma walk_app s f p q : walk s f (p ++ q) = g ← walk s f p; walk s g q.
Proof.
  revert f. induction p as [|i p IH]; intros f; [done|]. cbn [walk app].
  destruct (existing_table s f i); [apply IH|done].
Qed.

Lemma walk_snoc s f p i : walk s f (p ++ [i]) = g ← walk s f p; existing_table s g i.
Proof.
  rewrite walk_app. destruct (walk s f p) as [g|]; [|done]. cbn. by destruct (existing_table s g i).
Qed.

Lemma walk_keep s s' f p :
  (forall q i r g, p = q ++ i :: r -> walk s f q = Some g -> existing_table s' g i = existing_table s g i) ->
  walk s' f p = walk s f p.
Proof.
  revert f. induction p as [|i p IH]; intros f H; [done|]. cbn [walk].
  rewrite (H [] i p f eq_refl eq_refl). destruct (existing_table s f i) as [g|] eqn:E; [|done]. cbn [mbind option_bind].
  apply IH. intros q j r h -> Hw. apply (H (i :: q) j r h); [done|]. cbn [walk]. rewrite E. done.
Qed.

(** * Tables and their owners *)

Definition map_live (s : Vmm) (m : Z) : Prop := nz m = true /\ root_frame (pmap s m) <> FRAME_INVALID.

Definition root (s : Vmm) (m : Z) : Z := root_frame (pmap s m).

(** A path of at most three indices that starts in the map's own range. *)
Definition owned_path (s : Vmm) (m : Z) (p : list Z) : Prop :=
  Forall index p /\ (length p <= 3)%nat /\ forall i q, p = i :: q -> map_owns_pml4_index s m i = true.

Definition node (s : Vmm) (m : Z) (p : list Z) (f : Z) : Prop :=
  map_live s m /\ owned_path s m p /\ walk s (root s m) p = Some f.

(** An index at which a table at this path belongs to the map. *)
Definition slot (s : Vmm) (m : Z) (p : list Z) (i : Z) : Prop :=
  index i /\ (p = [] -> map_owns_pml4_index s m i = true).

(** The entry that maps a page, with the path to its table. *)
Definition leaf (s : Vmm) (m : Z) (p : list Z) (i : Z) : Z :=
  match walk s (root s m) p with Some f => entry s f i | None => 0 end.

Definition leaf_ok (e : Z) : Prop :=
  has e PTE_PRESENT = true /\ has e PTE_GLOBAL = false /\ has e PTE_HUGE = false.

Record vmm_wf (s : Vmm) : Prop := {
  vw_pmm : pmm_wf (v_pmm s);
  vw_map : forall m, map_live s m -> 0 <= owned_pml4_first (pmap s m) < owned_pml4_end (pmap s m) /\
    owned_pml4_end (pmap s m) <= 512;
  vw_table : forall m p f, node s m p f ->
    held (v_pmm s) f /\ length (table_of s f) = 512%nat /\ table_pointer s f = Some f;
  vw_inj : forall m p m' p' f, node s m p f -> node s m' p' f -> m = m' /\ p = p';
  vw_link : forall m p f i, node s m p f -> (length p < 3)%nat -> slot s m p i ->
    entry s f i = 0 \/
    (is_Some (existing_table s f i) /\ has (entry s f i) PTE_WRITE = true /\ has (entry s f i) PTE_NX = false);
  vw_leaf : forall m p f i, node s m p f -> length p = 3%nat -> index i -> entry s f i = 0 \/ leaf_ok (entry s f i);
  vw_user : forall m p f q g j r i, node s m p f -> length p = 3%nat -> index i -> has (entry s f i) PTE_USER = true ->
    p = q ++ j :: r -> node s m q g -> has (entry s g j) PTE_USER = true;
  vw_shared : forall m i, map_live s m -> index i -> map_owns_pml4_index s m i = false ->
    entry s (root s m) i = 0 \/
    exists m' g, m' <> m /\ shared_source (pmap s m') = true /\ node s m' [i] g /\ existing_table s (root s m) i = Some g;
  vw_unlinked : v_unlinked_table s <> FRAME_INVALID ->
    held (v_pmm s) (v_unlinked_table s) /\ forall m p, ~ node s m p (v_unlinked_table s) }.

Lemma owned_prefix s m p q : owned_path s m (p ++ q) -> owned_path s m p.
Proof.
  intros (H1 & H2 & H3). apply Forall_app in H1 as [H1 _]. rewrite length_app in H2. split_and!; [done|lia|].
  intros i r ->. by apply (H3 i (r ++ q)).
Qed.

Lemma node_prefix s m p q f : node s m (p ++ q) f -> exists g, node s m p g /\ walk s g q = Some f.
Proof.
  intros (Hl & Ho & Hw). rewrite walk_app in Hw. destruct (walk s (root s m) p) as [g|] eqn:E; [|done].
  exists g. split; [|done]. split; [done|]. split; [by eapply owned_prefix|done].
Qed.

Lemma root_node s m : map_live s m -> node s m [] (root s m).
Proof. intros Hl. split; [done|]. split; [|done]. split; [done|]. split; [cbn; lia|]. done. Qed.

Lemma node_root s m f : node s m [] f -> f = root s m.
Proof. intros (_ & _ & Hw). by injection Hw. Qed.

Lemma node_child s m p f i g :
  node s m p f -> (length p < 3)%nat -> slot s m p i -> existing_table s f i = Some g -> node s m (p ++ [i]) g.
Proof.
  intros (Hl & (H1 & H2 & H3) & Hw) Hp [Hi Ho] He. split; [done|]. split; [|by rewrite walk_snoc, Hw].
  split_and!; [apply Forall_app; by rewrite Forall_singleton|rewrite length_app; cbn; lia|].
  intros j r E. destruct p as [|k p]; [injection E as ->; by apply Ho|]. injection E as -> _. by apply (H3 j p).
Qed.

Lemma node_parent s m p i f :
  node s m (p ++ [i]) f -> exists g, node s m p g /\ existing_table s g i = Some f /\ slot s m p i /\ (length p < 3)%nat.
Proof.
  intros Hn. pose proof Hn as (_ & (H1 & H2 & H3) & _). destruct (node_prefix _ _ _ _ _ Hn) as (g & Hg & Hw).
  exists g. split; [done|]. cbn [walk] in Hw. destruct (existing_table s g i) as [h|] eqn:E; [|done]. injection Hw as ->.
  apply Forall_app in H1 as [_ H1]. rewrite Forall_singleton in H1. rewrite length_app in H2. cbn in H2.
  split_and!; [done|split; [done|]|lia]. intros ->. by apply (H3 i []).
Qed.
