(* ===== verification/VmmEdit.v ===== *)
(** Single writes to page tables: which tables exist afterwards, and the
    invariant. *)

From S2P Require Import Prelude Pmm PmmProofs PmmRefine Frames Vmm VmmWf.

Open Scope jcos_scope.

(** * States with the same tables *)

(** The owners and the tables stay; their memory, the allocator and the
    diagnostics may change where no table is. *)
Record aside (s s' : Vmm) : Prop := {
  as_maps : v_maps s' = v_maps s;
  as_phys : v_use_phys_map s' = v_use_phys_map s;
  as_table : forall m p f, node s m p f -> table_of s' f = table_of s f }.

Lemma aside_pmap s s' m : v_maps s' = v_maps s -> pmap s' m = pmap s m.
Proof. intros E. unfold pmap. by rewrite E. Qed.

Lemma aside_owned s s' m p : v_maps s' = v_maps s -> owned_path s' m p <-> owned_path s m p.
Proof. intros E. unfold owned_path, map_owns_pml4_index. by rewrite (aside_pmap s s' m E). Qed.

Lemma aside_live s s' m : v_maps s' = v_maps s -> map_live s' m <-> map_live s m.
Proof. intros E. unfold map_live. by rewrite (aside_pmap s s' m E). Qed.

Lemma aside_owns s s' m i : v_maps s' = v_maps s -> map_owns_pml4_index s' m i = map_owns_pml4_index s m i.
Proof. intros E. unfold map_owns_pml4_index. by rewrite (aside_pmap s s' m E). Qed.

Lemma aside_root s s' m : v_maps s' = v_maps s -> root s' m = root s m.
Proof. intros E. unfold root. by rewrite (aside_pmap s s' m E). Qed.

Lemma aside_slot s s' m p i : v_maps s' = v_maps s -> slot s' m p i <-> slot s m p i.
Proof. intros E. unfold slot. by rewrite (aside_owns s s' m i E). Qed.

Lemma aside_pointer s s' f : v_use_phys_map s' = v_use_phys_map s -> table_pointer s' f = table_pointer s f.
Proof. intros E. unfold table_pointer. by rewrite E. Qed.

(** Equal targets at the links of every table give the same tables. *)
Lemma nodes_same s s' :
  v_maps s' = v_maps s ->
  (forall m p f i, node s m p f -> (length p < 3)%nat -> slot s m p i -> existing_table s' f i = existing_table s f i) ->
  forall m p f, node s' m p f <-> node s m p f.
Proof.
  intros Em Ht m p f. unfold node. rewrite (aside_live s s' m Em), (aside_owned s s' m p Em), (aside_root s s' m Em).
  assert (map_live s m -> owned_path s m p -> walk s' (root s m) p = walk s (root s m) p) as Hw.
  2: { split; intros (Hl & Ho & Hx); (split_and!; [done|done|]); [rewrite <- Hw by done|rewrite Hw by done]; done. }
  intros Hl Ho. apply walk_keep. intros q i r g -> Hq.
  destruct Ho as (H1 & H2 & H3). rewrite length_app in H2. cbn in H2. apply (Ht m q).
  - split; [done|]. split; [|done]. apply (owned_prefix s m q (i :: r)). split; [done|]. rewrite length_app. cbn. by split; [lia|].
  - lia.
  - apply Forall_app in H1 as [_ H1]. apply Forall_inv in H1. split; [done|]. intros ->. by apply (H3 i r).
Qed.

Lemma aside_existing s s' f i :
  v_use_phys_map s' = v_use_phys_map s -> table_of s' f = table_of s f -> existing_table s' f i = existing_table s f i.
Proof. intros Ep Et. rewrite !existing_target. unfold entry. by rewrite Ep, Et. Qed.

Lemma aside_node s s' m p f : aside s s' -> node s' m p f <-> node s m p f.
Proof.
  intros [Em Ep Et]. apply nodes_same; [done|]. intros m' p' g i Hg _ _. apply aside_existing; [done|]. by eapply Et.
Qed.

Lemma aside_leaf s s' m p i :
  aside s s' -> map_live s m -> owned_path s m p -> leaf s' m p i = leaf s m p i.
Proof.
  intros Ha Hl Ho. pose proof (aside_node s s' m p) as Hn. unfold leaf. rewrite (aside_root s s' m (as_maps _ _ Ha)).
  destruct (walk s (root s m) p) as [f|] eqn:E.
  - assert (node s m p f) as Hf by done. destruct (proj2 (Hn f Ha) Hf) as (_ & _ & Hw).
    rewrite (aside_root s s' m (as_maps _ _ Ha)) in Hw. rewrite Hw. unfold entry. by rewrite (as_table _ _ Ha m p f Hf).
  - destruct (walk s' (root s m) p) as [g|] eqn:E'; [|done].
    assert (node s' m p g) as Hg; [|destruct (proj1 (Hn g Ha) Hg) as (_ & _ & Hw); congruence].
    split; [by apply (aside_live s s' m (as_maps _ _ Ha))|]. split; [by apply (aside_owned s s' m p (as_maps _ _ Ha))|].
    by rewrite (aside_root s s' m (as_maps _ _ Ha)).
Qed.

Lemma aside_wf s s' :
  vmm_wf s -> aside s s' -> pmm_wf (v_pmm s') -> (forall m p f, node s m p f -> held (v_pmm s') f) ->
  (v_unlinked_table s' <> FRAME_INVALID ->
     held (v_pmm s') (v_unlinked_table s') /\ forall m p, ~ node s m p (v_unlinked_table s')) ->
  vmm_wf s'.
Proof.
  intros [W1 W2 W3 W4 W5 W6 W7 W8 W9] Ha Hp Hh Hu. pose proof Ha as [Em Ep Et].
  assert (forall m p f, node s' m p f <-> node s m p f) as Hn by (intros; by apply aside_node).
  assert (forall m p f i, node s m p f -> entry s' f i = entry s f i) as He
    by (intros m p f i Hf; unfold entry; by rewrite (Et m p f Hf)).
  assert (forall m p f i, node s m p f -> existing_table s' f i = existing_table s f i) as Hx
    by (intros m p f i Hf; apply aside_existing; [done|]; by eapply Et).
  split.
  - done.
  - intros m. rewrite (aside_live s s' m Em), (aside_pmap s s' m Em). apply W2.
  - intros m p f Hf%Hn. rewrite (Et m p f Hf), (aside_pointer s s' f Ep). split; [by eapply Hh|]. by eapply W3.
  - intros m p m' p' f H1%Hn H2%Hn. by eapply W4.
  - intros m p f i Hf%Hn Hlt Hs%(aside_slot s s' m p i Em). rewrite (He m p f i Hf), (Hx m p f i Hf). by eapply W5.
  - intros m p f i Hf%Hn Hl Hi. rewrite (He m p f i Hf). by eapply W6.
  - intros m p f q g j r i Hf%Hn Hl Hi. rewrite (He m p f i Hf). intros Hus -> Hg%Hn. rewrite (He m q g j Hg). apply (W7 m (q ++ j :: r) f q g j r i); done.
  - intros m i. rewrite (aside_live s s' m Em), (aside_owns s s' m i Em), (aside_root s s' m Em). intros Hl Hi Ho.
    pose proof (root_node s m Hl) as Hr. rewrite (He m [] _ i Hr), (Hx m [] _ i Hr).
    destruct (W8 m i Hl Hi Ho) as [?|(m' & g & H1 & H2 & H3 & H4)]; [by left|]. right. exists m', g.
    rewrite (aside_pmap s s' m' Em). by rewrite Hn.
  - intros Hv. destruct (Hu Hv) as [H1 H2]. split; [done|]. intros m p Hf%Hn. by eapply H2.
Qed.

(** * One write *)

Section Write.
  Context (s : Vmm) (W : vmm_wf s) (m : Z) (p : list Z) (f i e : Z) (Hf : node s m p f) (Hs : slot s m p i).

Definition written : Vmm := set_entry f i e s.

Lemma written_entry g j : index j -> entry written g j = if decide (g = f /\ j = i) then e else entry s g j.
Proof using W Hf Hs. intros Hj. apply entry_set; [apply Hs|done|]. by eapply (vw_table s W). Qed.

Lemma written_existing g j :
  index j -> existing_table written g j = if decide (g = f /\ j = i) then target (v_use_phys_map s) e else existing_table s g j.
Proof using W Hf Hs.
  intros Hj. rewrite existing_target, written_entry by done. change (v_use_phys_map written) with (v_use_phys_map s).
  by case_decide.
Qed.

(** Only paths through the written entry can change. *)
Lemma written_walk m' p' :
  map_live s m' -> owned_path s m' p' -> (forall r, ~ (m' = m /\ p' = p ++ i :: r)) ->
  walk written (root s m') p' = walk s (root s m') p'.
Proof using W Hf Hs.
  intros Hl Ho Hne. apply walk_keep. intros q j r g -> Hq.
  assert (node s m' q g) as Hg by (split; [done|]; split; [by eapply owned_prefix|done]).
  destruct Ho as (H1 & _ & _). apply Forall_app in H1 as [_ H1]. apply Forall_inv in H1.
  rewrite written_existing by done. case_decide as E; [|done]. destruct E as [-> ->].
  destruct (vw_inj s W m' q m p f Hg Hf) as [-> ->]. by destruct (Hne r).
Qed.

Lemma written_self : walk written (root s m) p = Some f.
Proof using W Hf Hs.
  rewrite written_walk; [by apply Hf|by apply Hf|by apply Hf|]. intros r [_ E].
  apply (f_equal length) in E. rewrite length_app in E. cbn in E. lia.
Qed.

(** A write at a leaf, or one that keeps the target, keeps the tables. *)
Lemma written_nodes_same m' p' g :
  length p = 3%nat \/ target (v_use_phys_map s) e = existing_table s f i -> node written m' p' g <-> node s m' p' g.
Proof using W Hf Hs.
  intros Hc. apply nodes_same; [done|]. intros m1 p1 h j Hh Hlt Hj. rewrite written_existing by apply Hj.
  case_decide as E; [|done]. destruct E as [-> ->]. destruct (vw_inj s W m1 p1 m p f Hh Hf) as [-> ->].
  destruct Hc as [Hc|Hc]; [lia|done].
Qed.

(** A new link to an empty table that is no table of the tree. *)
Lemma written_nodes_link g m' p' h :
  (length p < 3)%nat -> entry s f i = 0 -> target (v_use_phys_map s) e = Some g ->
  (forall m p, ~ node s m p g) -> (forall j, index j -> entry s g j = 0) ->
  node written m' p' h <-> node s m' p' h \/ (m' = m /\ p' = p ++ [i] /\ h = g).
Proof using W Hf Hs.
  intros Hlt H0 Ht Hg Hz. assert (g <> f) as Hgf by (intros ->; by eapply Hg).
  assert (existing_table s f i = None) as Hn by (rewrite existing_target, H0; apply target_0).
  assert (walk written (root s m) (p ++ [i]) = Some g) as Hw.
  { rewrite walk_snoc, written_self. cbn [mbind option_bind]. rewrite written_existing by apply Hs. by rewrite decide_True. }
  split.
  - intros (Hl & Ho & Hh). destruct (decide (m' = m /\ p ++ [i] `prefix_of` p')) as [[-> [r ->]]|Hne].
    + right. change (walk written (root s m) ((p ++ [i]) ++ r) = Some h) in Hh. rewrite walk_app, Hw in Hh. cbn [mbind option_bind] in Hh.
      destruct r as [|j r]; [injection Hh as <-; by rewrite app_nil_r|]. exfalso. cbn [walk] in Hh.
      destruct Ho as (H1 & _ & _). apply Forall_app in H1 as [_ H1]. apply Forall_inv in H1.
      rewrite written_existing in Hh by done. rewrite decide_False in Hh by (by intros [? _]).
      rewrite existing_target, Hz, target_0 in Hh by done. done.
    + left. split; [done|]. split; [done|]. rewrite <- written_walk; [done|done|done|].
      intros r [-> ->]. apply Hne. split; [done|]. exists r. by rewrite <- app_assoc.
  - intros [(Hl & Ho & Hh)|(-> & -> & ->)].
    + split; [done|]. split; [done|]. change (root written m') with (root s m'). rewrite written_walk; [done|done|done|].
      intros r [-> ->]. rewrite walk_app, (proj2 (proj2 Hf)) in Hh. cbn [mbind option_bind walk] in Hh. by rewrite Hn in Hh.
    + split; [apply Hf|]. split; [|done]. apply (node_child written m p f i g); [|done|done|].
      * split; [apply Hf|]. split; [apply Hf|]. apply written_self.
      * rewrite written_existing by apply Hs. by rewrite decide_True.
Qed.

(** The removal of a link to an empty table. *)
Lemma written_nodes_unlink c m' p' h :
  (length p < 3)%nat -> e = 0 -> existing_table s f i = Some c -> (forall j, index j -> entry s c j = 0) ->
  node written m' p' h <-> node s m' p' h /\ ~ (m' = m /\ p' = p ++ [i]).
Proof using W Hf Hs.
  intros Hlt He Hc Hz. assert (target (v_use_phys_map s) e = None) as Hn by (rewrite He; apply target_0).
  assert (walk s (root s m) (p ++ [i]) = Some c) as Hw by (rewrite walk_snoc, (proj2 (proj2 Hf)); done).
  assert (walk written (root s m) (p ++ [i]) = None) as Hw'.
  { rewrite walk_snoc, written_self. cbn [mbind option_bind]. rewrite written_existing by apply Hs. by rewrite decide_True. }
  split.
  - intros (Hl & Ho & Hh). destruct (decide (m' = m /\ p ++ [i] `prefix_of` p')) as [[-> [r ->]]|Hne].
    { change (walk written (root s m) ((p ++ [i]) ++ r) = Some h) in Hh. by rewrite walk_app, Hw' in Hh. }
    split; [|intros [-> ->]; by apply Hne]. split; [done|]. split; [done|]. rewrite <- written_walk; [done|done|done|].
    intros r [-> ->]. apply Hne. split; [done|]. exists r. by rewrite <- app_assoc.
  - intros [(Hl & Ho & Hh) Hne]. split; [done|]. split; [done|]. change (root written m') with (root s m').
    rewrite written_walk; [done|done|done|]. intros r [-> ->]. destruct r as [|j r]; [by apply Hne|].
    replace (p ++ i :: j :: r) with ((p ++ [i]) ++ j :: r) in * by (by rewrite <- app_assoc). rewrite walk_app, Hw in Hh.
    cbn [mbind option_bind walk] in Hh. destruct Ho as (H1 & _ & _). apply Forall_app in H1 as [_ H1]. apply Forall_inv in H1.
    rewrite existing_target, Hz, target_0 in Hh by done. done.
Qed.

End Write.

(** * Leaves *)

Lemma leaf_node s m p f i : node s m p f -> leaf s m p i = entry s f i.
Proof. intros (_ & _ & Hw). unfold leaf. by rewrite Hw. Qed.

Lemma leaf_none s m p i : map_live s m -> owned_path s m p -> (forall f, ~ node s m p f) -> leaf s m p i = 0.
Proof. intros Hl Ho Hn. unfold leaf. destruct (walk s (root s m) p) as [f|] eqn:E; [|done]. by destruct (Hn f). Qed.

Lemma node_dec s m p : map_live s m -> owned_path s m p -> {f | node s m p f} + {forall f, ~ node s m p f}.
Proof.
  intros Hl Ho. destruct (walk s (root s m) p) as [f|] eqn:E; [left; by exists f|]. right. intros f (_ & _ & Hw). congruence.
Qed.

(** Every page of a map's own range is mapped by the same entry in both states. *)
Definition same_leaves (s s' : Vmm) : Prop :=
  forall m p i, map_live s m -> owned_path s m p -> length p = 3%nat -> index i -> leaf s' m p i = leaf s m p i.

(** Tables of a map on the way to its leaves. *)
Definition route_user (s : Vmm) (m : Z) (p : list Z) : Prop :=
  forall q g j r, p = q ++ j :: r -> node s m q g -> has (entry s g j) PTE_USER = true.

Section WriteWf.
  Context (s : Vmm) (W : vmm_wf s) (m : Z) (p : list Z) (f i e : Z) (Hf : node s m p f) (Hs : slot s m p i).

Local Notation s' := (written s f i e).

Lemma written_other g j : index j -> (g <> f \/ j <> i) -> entry s' g j = entry s g j.
Proof using W Hf Hs. intros Hj Hne. rewrite (written_entry s W m p f i e Hf Hs g j Hj). case_decide; [tauto|done]. Qed.

Lemma written_here : entry s' f i = e.
Proof using W Hf Hs. rewrite (written_entry s W m p f i e Hf Hs f i); [by rewrite decide_True|apply Hs]. Qed.

(** A table at another path is another frame. *)
Lemma written_elsewhere m' p' g j : index j -> node s m' p' g -> (m' <> m \/ p' <> p) -> entry s' g j = entry s g j.
Proof using W Hf Hs.
  intros Hj Hg Hne. apply written_other; [done|]. left. intros ->.
  destruct (vw_inj s W m' p' m p f Hg Hf) as [-> ->]. tauto.
Qed.

Lemma written_shared :
  (forall m' j g, m' <> m \/ p <> [] \/ j <> i -> shared_source (pmap s m') = true -> node s m' [j] g -> node s' m' [j] g) ->
  (p = [] -> shared_source (pmap s m) = true -> is_Some (existing_table s f i) ->
     target (v_use_phys_map s) e = existing_table s f i) ->
  forall m' j, map_live s m' -> index j -> map_owns_pml4_index s m' j = false ->
    entry s' (root s m') j = 0 \/
    exists m1 g, m1 <> m' /\ shared_source (pmap s m1) = true /\ node s' m1 [j] g /\ existing_table s' (root s m') j = Some g.
Proof using W Hf Hs.
  intros Hn Hsame m' j Hl Hj Ho.
  assert (root s m' <> f \/ j <> i) as Hne.
  { destruct (decide (root s m' = f)) as [E|]; [|by left]. right. intros ->.
    pose proof (root_node s m' Hl) as Hr. rewrite E in Hr. destruct (vw_inj s W m' [] m p f Hr Hf) as [-> <-].
    destruct Hs as [_ Hown]. by rewrite Hown in Ho. }
  rewrite written_other by done. rewrite (written_existing s W m p f i e Hf Hs _ _ Hj), decide_False by tauto.
  destruct (vw_shared s W m' j Hl Hj Ho) as [?|(m1 & g & H1 & H2 & H3 & H4)]; [by left|]. right. exists m1, g.
  split_and!; try done. destruct (decide (m1 = m /\ p = [] /\ j = i)) as [(-> & -> & ->)|Hx].
  2: { apply Hn; [|done|done]. destruct (decide (m1 = m)), (decide (p = [])), (decide (j = i)); tauto. }
  assert (existing_table s f i = Some g) as Hx by (rewrite (node_root s m f Hf); destruct H3 as (_ & _ & Hw); cbn [walk] in Hw; by destruct (existing_table s (root s m) i)).
  apply (proj2 (written_nodes_same s W m [] f i e Hf Hs m [i] g (or_intror (Hsame eq_refl H2 (ex_intro _ g Hx))))), H3.
Qed.

(** A write that keeps the target of a link. *)
Lemma upgrade_wf :
  (length p < 3)%nat -> is_Some (existing_table s f i) -> target (v_use_phys_map s) e = existing_table s f i ->
  has e PTE_WRITE = true -> has e PTE_NX = false -> (has (entry s f i) PTE_USER = true -> has e PTE_USER = true) ->
  vmm_wf s' /\ same_leaves s s'.
Proof using W Hf Hs.
  intros Hlt Hsome Ht Hw Hnx Hus.
  assert (forall m' p' g, node s' m' p' g <-> node s m' p' g) as Hn
    by (intros; apply (written_nodes_same s W m p f i e Hf Hs); by right).
  assert (forall g j, index j -> existing_table s' g j = existing_table s g j) as Hx.
  { intros g j Hj. rewrite (written_existing s W m p f i e Hf Hs g j Hj). case_decide as E; [|done]. by destruct E as [-> ->]. }
  split.
  - split; [apply W|apply W| | | | | | |].
    + intros m' p' g Hg%Hn. destruct (vw_table s W m' p' g Hg) as (H1 & H2 & H3). split; [done|]. by rewrite <- (length_set s f i e g) in H2.
    + intros m1 p1 m2 p2 g H1%Hn H2%Hn. by eapply (vw_inj s W).
    + intros m' p' g j Hg%Hn Hl Hj. rewrite Hx by apply Hj. rewrite (written_entry s W m p f i e Hf Hs g j) by apply Hj.
      case_decide as E; [|by eapply (vw_link s W)]. destruct E as [-> ->]. by right.
    + intros m' p' g j Hg%Hn Hl Hj. rewrite (written_elsewhere m' p' g j Hj Hg); [by eapply (vw_leaf s W)|]. right. intros ->. lia.
    + intros m' p' g q h j r k Hg%Hn Hl Hk Hu -> Hh%Hn.
      rewrite (written_elsewhere m' _ g k Hk Hg) in Hu by (right; intros E; rewrite <- E, Hl in Hlt; lia).
      pose proof (vw_user s W m' _ g q h j r k Hg Hl Hk Hu eq_refl Hh) as Hu'.
      assert (index j) as Hj by (destruct Hg as (_ & (H1 & _) & _); apply Forall_app in H1 as [_ H1]; by apply Forall_inv in H1).
      rewrite (written_entry s W m p f i e Hf Hs h j Hj). case_decide as E; [|done]. destruct E as [-> ->]. by apply Hus.
    + apply (written_shared); [|done]. intros m' j g _ _ Hg. by apply Hn.
    + intros Hv. destruct (vw_unlinked s W Hv) as [H1 H2]. split; [done|]. intros m' p' Hg%Hn. by eapply H2.
  - intros m' p' j Hl Ho Hp Hj. destruct (node_dec s m' p' Hl Ho) as [[g Hg]|Hno].
    + rewrite (leaf_node s m' p' g j Hg), (leaf_node s' m' p' g j (proj2 (Hn m' p' g) Hg)).
      apply (written_elsewhere m' p' g j Hj Hg). right. intros ->. lia.
    + rewrite (leaf_none s m' p' j Hl Ho Hno). apply leaf_none; [done|done|]. intros g Hg%Hn. by apply (Hno g).
Qed.

(** A write of a leaf. *)
Lemma leaf_wf :
  length p = 3%nat -> e = 0 \/ leaf_ok e -> (has e PTE_USER = true -> route_user s m p) -> vmm_wf s'.
Proof using W Hf Hs.
  intros Hl3 He Hus.
  assert (forall m' p' g, node s' m' p' g <-> node s m' p' g) as Hn
    by (intros; apply (written_nodes_same s W m p f i e Hf Hs); by left).
  assert (forall m' p' g j, index j -> node s m' p' g -> (length p' < 3)%nat -> entry s' g j = entry s g j) as Hsh
    by (intros m' p' g j Hj Hg Hlt; apply (written_elsewhere m' p' g j Hj Hg); right; intros ->; lia).
  split; [apply W|apply W| | | | | | |].
  - intros m' p' g Hg%Hn. destruct (vw_table s W m' p' g Hg) as (H1 & H2 & H3). split; [done|]. by rewrite <- (length_set s f i e g) in H2.
  - intros m1 p1 m2 p2 g H1%Hn H2%Hn. by eapply (vw_inj s W).
  - intros m' p' g j Hg%Hn Hl Hj. rewrite existing_target, (Hsh m' p' g j (proj1 Hj) Hg Hl). by eapply (vw_link s W).
  - intros m' p' g j Hg%Hn Hl Hj. rewrite (written_entry s W m p f i e Hf Hs g j Hj).
    case_decide; [done|by eapply (vw_leaf s W)].
  - intros m' p' g q h j r k Hg%Hn Hl Hk Hu -> Hh%Hn.
    assert (length q < 3)%nat as Hq by (rewrite length_app in Hl; cbn in Hl; lia).
    assert (index j) as Hj by (destruct Hg as (_ & (H1 & _) & _); apply Forall_app in H1 as [_ H1]; by apply Forall_inv in H1).
    rewrite (Hsh m' q h j Hj Hh Hq). rewrite (written_entry s W m p f i e Hf Hs g k Hk) in Hu. case_decide as E.
    + destruct E as [-> ->]. destruct (vw_inj s W m' _ m p f Hg Hf) as [-> <-]. by eapply (Hus Hu).
    + by eapply (vw_user s W m' _ g q h j r k Hg).
  - apply (written_shared); [|intros ->; done]. intros m' j g _ _ Hg. by apply Hn.
  - intros Hv. destruct (vw_unlinked s W Hv) as [H1 H2]. split; [done|]. intros m' p' Hg%Hn. by eapply H2.
Qed.

Lemma leaf_write m' p' j :
  length p = 3%nat -> map_live s m' -> owned_path s m' p' -> length p' = 3%nat -> index j ->
  leaf s' m' p' j = if decide (m' = m /\ p' = p /\ j = i) then e else leaf s m' p' j.
Proof using W Hf Hs.
  intros Hl3 Hl Ho Hp Hj.
  assert (forall m' p' g, node s' m' p' g <-> node s m' p' g) as Hn
    by (intros; apply (written_nodes_same s W m p f i e Hf Hs); by left).
  destruct (node_dec s m' p' Hl Ho) as [[g Hg]|Hno].
  - rewrite (leaf_node s m' p' g j Hg), (leaf_node s' m' p' g j (proj2 (Hn m' p' g) Hg)).
    rewrite (written_entry s W m p f i e Hf Hs g j Hj). case_decide as E.
    + destruct E as [-> ->]. destruct (vw_inj s W m' p' m p f Hg Hf) as [-> ->]. by rewrite decide_True.
    + rewrite decide_False; [done|]. intros (-> & -> & ->). apply E. split; [|done].
      destruct Hg as (_ & _ & H1). destruct Hf as (_ & _ & H2). congruence.
  - rewrite decide_False by (intros (-> & -> & ->); by apply (Hno f)). rewrite (leaf_none s m' p' j Hl Ho Hno).
    apply leaf_none; [done|done|]. intros g Hg%Hn. by apply (Hno g).
Qed.

(** A new link to an empty held table. *)
Lemma link_wf g :
  (length p < 3)%nat -> entry s f i = 0 -> target (v_use_phys_map s) e = Some g -> has e PTE_WRITE = true ->
  has e PTE_NX = false -> (forall m p, ~ node s m p g) -> (forall j, index j -> entry s g j = 0) ->
  held (v_pmm s) g -> length (table_of s g) = 512%nat -> v_unlinked_table s <> g ->
  vmm_wf s' /\ same_leaves s s'.
Proof using W Hf Hs.
  intros Hlt H0 Ht Hw Hnx Hng Hz Hh Hlen Hul.
  pose proof (fun m' p' h => written_nodes_link s W m p f i e Hf Hs g m' p' h Hlt H0 Ht Hng Hz) as Hn.
  assert (g <> f) as Hgf by (intros ->; by eapply Hng).
  assert (forall j, index j -> entry s' g j = 0) as Hz' by (intros j Hj; rewrite written_other by tauto; auto).
  assert (owned_path s m (p ++ [i])) as Hop.
  { destruct (proj2 (Hn m (p ++ [i]) g) (or_intror (conj eq_refl (conj eq_refl eq_refl)))) as (_ & Ho & _). done. }
  split.
  - split; [apply W|apply W| | | | | | |].
    + intros m' p' h [Hg|(-> & -> & ->)]%Hn.
      * destruct (vw_table s W m' p' h Hg) as (H1 & H2 & H3). split; [done|]. by rewrite <- (length_set s f i e h) in H2.
      * split; [done|]. rewrite <- (length_set s f i e g) in Hlen. split; [done|]. by apply (target_pointer s e).
    + intros m1 p1 m2 p2 h [H1|(-> & -> & ->)]%Hn [H2|(-> & -> & E)]%Hn; subst; [by eapply (vw_inj s W)|by apply Hng in H1|by apply Hng in H2|done].
    + intros m' p' h j [Hg|(-> & -> & ->)]%Hn Hl Hj; [|by left; apply Hz', Hj].
      rewrite (written_existing s W m p f i e Hf Hs h j), (written_entry s W m p f i e Hf Hs h j) by apply Hj.
      case_decide as E; [|by eapply (vw_link s W)]. right. rewrite Ht. by split_and!.
    + intros m' p' h j [Hg|(-> & -> & ->)]%Hn Hl Hj; [|by left; apply Hz', Hj].
      rewrite (written_elsewhere m' p' h j Hj Hg); [by eapply (vw_leaf s W)|]. right. intros ->. lia.
    + intros m' p' h q h' j r k [Hg|(-> & Ep & ->)]%Hn Hl Hk Hu; [|by rewrite Hz', has_0 in Hu].
      intros -> Hh'. assert (length q < 3)%nat as Hq by (rewrite length_app in Hl; cbn in Hl; lia).
      rewrite (written_elsewhere m' _ h k Hk Hg) in Hu by (right; intros E; rewrite <- E, Hl in Hlt; lia).
      assert (index j) as Hj by (destruct Hg as (_ & (H1 & _) & _); apply Forall_app in H1 as [_ H1]; by apply Forall_inv in H1).
      destruct (node_prefix s m' q (j :: r) h Hg) as (h0 & Hh0 & Hw0).
      assert (h' = h0) as ->.
      { destruct (proj2 (Hn m' q h0) (or_introl Hh0)) as (_ & _ & E1). destruct Hh' as (_ & _ & E2). congruence. }
      pose proof (vw_user s W m' _ h q h0 j r k Hg Hl Hk Hu eq_refl Hh0) as Hu'.
      rewrite (written_other h0 j Hj); [done|]. destruct (decide (h0 = f)) as [->|]; [|by left]. right. intros ->.
      by rewrite H0, has_0 in Hu'.
    + apply (written_shared); [intros m' j h _ _ Hg; apply Hn; by left|].
      intros _ _ [h Hx]. by rewrite existing_target, H0, target_0 in Hx.
    + intros Hv. destruct (vw_unlinked s W Hv) as [H1 H2]. split; [done|]. intros m' p' [Hg|(_ & _ & E)]%Hn; [by eapply H2|done].
  - intros m' p' j Hl Ho Hp Hj. destruct (node_dec s m' p' Hl Ho) as [[h Hg]|Hno].
    + rewrite (leaf_node s m' p' h j Hg), (leaf_node s' m' p' h j (proj2 (Hn m' p' h) (or_introl Hg))).
      apply (written_elsewhere m' p' h j Hj Hg). right. intros ->. lia.
    + rewrite (leaf_none s m' p' j Hl Ho Hno). destruct (node_dec s' m' p' Hl Ho) as [[h Hg]|Hno']; [|by apply leaf_none].
      rewrite (leaf_node s' m' p' h j Hg). apply Hn in Hg as [Hg|(-> & -> & ->)]; [by destruct (Hno h)|auto].
Qed.

(** The removal of a link to an empty table, by a map that shares nothing. *)
Lemma unlink_wf c :
  (length p < 3)%nat -> e = 0 -> existing_table s f i = Some c -> (forall j, index j -> entry s c j = 0) ->
  shared_source (pmap s m) = false -> vmm_wf s' /\ same_leaves s s'.
Proof using W Hf Hs.
  intros Hlt He Hc Hz Hsh.
  pose proof (fun m' p' h => written_nodes_unlink s W m p f i e Hf Hs c m' p' h Hlt He Hc Hz) as Hn.
  assert (node s m (p ++ [i]) c) as Hnc by (by eapply node_child).
  split.
  - split; [apply W|apply W| | | | | | |].
    + intros m' p' h [Hg _]%Hn. destruct (vw_table s W m' p' h Hg) as (H1 & H2 & H3). split; [done|]. by rewrite <- (length_set s f i e h) in H2.
    + intros m1 p1 m2 p2 h [H1 _]%Hn [H2 _]%Hn. by eapply (vw_inj s W).
    + intros m' p' h j [Hg _]%Hn Hl Hj.
      rewrite (written_existing s W m p f i e Hf Hs h j), (written_entry s W m p f i e Hf Hs h j) by apply Hj.
      case_decide as E; [by left|by eapply (vw_link s W)].
    + intros m' p' h j [Hg _]%Hn Hl Hj. rewrite (written_elsewhere m' p' h j Hj Hg); [by eapply (vw_leaf s W)|]. right. intros ->. lia.
    + intros m' p' h q h' j r k [Hg Hne]%Hn Hl Hk Hu -> [Hh' _]%Hn.
      rewrite (written_elsewhere m' _ h k Hk Hg) in Hu by (right; intros E; rewrite <- E, Hl in Hlt; lia).
      assert (index j) as Hj by (destruct Hg as (_ & (H1 & _) & _); apply Forall_app in H1 as [_ H1]; by apply Forall_inv in H1).
      pose proof (vw_user s W m' _ h q h' j r k Hg Hl Hk Hu eq_refl Hh') as Hu'.
      rewrite (written_other h' j Hj); [done|]. destruct (decide (h' = f)) as [->|]; [|by left]. right. intros ->.
      destruct (vw_inj s W m' q m p f Hh' Hf) as [-> ->].
      destruct (node_prefix s m (p ++ [i]) r h) as (c' & Hc' & Hw); [by rewrite <- app_assoc|].
      assert (c' = c) as -> by (destruct Hc' as (_ & _ & E1); destruct Hnc as (_ & _ & E2); congruence).
      destruct r as [|j r]; [by apply Hne|]. cbn [walk] in Hw.
      destruct Hg as (_ & (H1 & _) & _). apply Forall_app in H1 as [_ H1]. apply Forall_inv_tail, Forall_inv in H1.
      rewrite existing_target, Hz, target_0 in Hw by done. done.
    + apply written_shared; [|intros _ Hsh'; congruence]. intros m' j h _ Hsh' Hg. apply Hn. split; [done|].
      intros [-> _]. congruence.
    + intros Hv. destruct (vw_unlinked s W Hv) as [H1 H2]. split; [done|]. intros m' p' [Hg _]%Hn. by eapply H2.
  - intros m' p' j Hl Ho Hp Hj. destruct (node_dec s' m' p' Hl Ho) as [[h Hg]|Hno].
    + rewrite (leaf_node s' m' p' h j Hg). apply Hn in Hg as [Hg _]. rewrite (leaf_node s m' p' h j Hg).
      apply (written_elsewhere m' p' h j Hj Hg). right. intros ->. lia.
    + rewrite (leaf_none s' m' p' j Hl Ho Hno). destruct (node_dec s m' p' Hl Ho) as [[h Hg]|Hno']; [|by symmetry; apply leaf_none].
      rewrite (leaf_node s m' p' h j Hg). destruct (decide (m' = m /\ p' = p ++ [i])) as [[-> ->]|Hne]; [|by destruct (Hno h); apply Hn].
      assert (h = c) as -> by (destruct Hg as (_ & _ & E1); destruct Hnc as (_ & _ & E2); congruence). symmetry. auto.
Qed.

End WriteWf.
