(* ===== verification/VmmOps.v ===== *)
(** The operations on single tables: allocation, linking and release. *)

From S2P Require Import Prelude Pmm PmmProofs PmmRefine Frames Vmm.
From S2P Require Import VmmWf VmmEdit.

Open Scope jcos_scope.

(** * What an operation on one map keeps *)

(** No diagnostic fault is armed. *)
Definition no_faults (s : Vmm) : Prop :=
  g_free_fault_armed (v_pmm s) = false /\ forall x, ft_armed (v_faults s x) = false.

(** The frames of the page-table pool: free, used as a table, or quarantined. *)
Definition pool (s : Vmm) (f : Z) : Prop :=
  f ∈ free_set (v_pmm s) \/ (exists m p, node s m p f) \/ (v_unlinked_table s <> FRAME_INVALID /\ f = v_unlinked_table s).

Record keeps (m : Z) (s s' : Vmm) : Prop := {
  kp_wf : vmm_wf s';
  kp_maps : v_maps s' = v_maps s;
  kp_phys : v_use_phys_map s' = v_use_phys_map s;
  kp_nx : v_nx_enabled s' = v_nx_enabled s;
  kp_cpu : v_cpu s' = v_cpu s;
  kp_other : forall m' p f, m' <> m -> node s m' p f -> node s' m' p f /\ table_of s' f = table_of s f;
  kp_pool : forall f, pool s' f <-> pool s f;
  kp_frames : same_frames (v_pmm s) (v_pmm s');
  kp_quiet : no_faults s -> no_faults s' }.

Lemma vmm_keeps_refl m s : vmm_wf s -> keeps m s s.
Proof. by split. Qed.

Lemma vmm_keeps_trans m s1 s2 s3 : keeps m s1 s2 -> keeps m s2 s3 -> keeps m s1 s3.
Proof.
  intros [A1 A2 A3 A4 A5 A6 A7 A8 A9] [B1 B2 B3 B4 B5 B6 B7 B8 B9].
  split; [done|congruence|congruence|congruence|congruence| | |by etrans|auto].
  - intros m' p f Hne Hf. destruct (A6 m' p f Hne Hf) as [Hf' E]. destruct (B6 m' p f Hne Hf') as [Hf'' E']. split; [done|congruence].
  - intros f. by rewrite B7, A7.
Qed.

Lemma leaves_refl s : same_leaves s s.
Proof. done. Qed.

Lemma leaves_trans s1 s2 s3 : v_maps s2 = v_maps s1 -> same_leaves s1 s2 -> same_leaves s2 s3 -> same_leaves s1 s3.
Proof.
  intros E A B m p i Hl Ho Hp Hi. rewrite <- (A m p i Hl Ho Hp Hi). apply B; [by apply (aside_live s1 s2 m E)|by apply (aside_owned s1 s2 m p E)|done|done].
Qed.

(** A change of allocator, diagnostics and foreign memory only. *)
Lemma aside_keeps m s s' :
  vmm_wf s -> aside s s' -> pmm_wf (v_pmm s') -> same_frames (v_pmm s) (v_pmm s') ->
  v_nx_enabled s' = v_nx_enabled s -> v_cpu s' = v_cpu s -> (no_faults s -> no_faults s') ->
  (forall f, (f ∈ free_set (v_pmm s') \/ (v_unlinked_table s' <> FRAME_INVALID /\ f = v_unlinked_table s')) <->
             (f ∈ free_set (v_pmm s) \/ (v_unlinked_table s <> FRAME_INVALID /\ f = v_unlinked_table s))) ->
  (v_unlinked_table s' <> FRAME_INVALID -> v_unlinked_table s' ∉ free_set (v_pmm s') /\ frame_owned (v_pmm s) (v_unlinked_table s')) ->
  keeps m s s' /\ same_leaves s s'.
Proof.
  intros W Ha Hp Hfr Hnx Hc Hq Hpool Hu.
  assert (forall m' p f, node s m' p f -> f ∉ free_set (v_pmm s) /\ (v_unlinked_table s <> FRAME_INVALID -> f <> v_unlinked_table s)) as Hnf.
  { intros m' p f Hf. split; [by apply (vw_table s W m' p f Hf)|]. intros Hv ->. by apply (vw_unlinked s W Hv) in Hf. }
  assert (vmm_wf s') as W'.
  { apply (aside_wf s s' W Ha Hp).
    - intros m' p f Hf. destruct (vw_table s W m' p f Hf) as ([Ho _] & _). split; [by apply (sf_owned _ _ Hfr)|]. intros Hin.
      destruct (proj1 (Hpool f) (or_introl Hin)) as [?|[Hv E]]; [by destruct (Hnf m' p f Hf)|by destruct (Hnf m' p f Hf) as [_ H]; apply H].
    - intros Hv. destruct (Hu Hv) as [Hn Ho]. split; [split; [by apply (sf_owned _ _ Hfr)|done]|]. intros m' p Hf.
      destruct (proj1 (Hpool _) (or_intror (conj Hv eq_refl))) as [?|[Hv' E]]; [by destruct (Hnf m' p _ Hf)|].
      destruct (Hnf m' p _ Hf) as [_ H]. by apply H. }
  split; [|intros m' p i Hl Ho _ _; by apply aside_leaf].
  split; try done; [apply Ha|apply Ha| |].
  - intros m' p f _ Hf. split; [by apply (aside_node s s')|]. by apply (as_table s s' Ha m' p).
  - intros f. unfold pool. setoid_rewrite (fun m p => aside_node s s' m p f Ha). pose proof (Hpool f). tauto.
Qed.

Lemma aside_refl s : aside s s.
Proof. by split. Qed.

(** A change of diagnostics only. *)
Lemma faults_keeps m s x :
  vmm_wf s -> (no_faults s -> forall f, ft_armed (x f) = false) ->
  keeps m s (s <| v_faults := x |>) /\ same_leaves s (s <| v_faults := x |>).
Proof.
  intros W Hx. apply aside_keeps; try done; [apply W|intros Hq; split; [apply Hq|by apply Hx]|].
  intros Hv. destruct (vw_unlinked s W Hv) as [[Ho Hn] _]. done.
Qed.

Lemma fault_call m map x s :
  vmm_wf s -> let '(b, s') := test_fault map x s in
  keeps m s s' /\ same_leaves s s' /\ s' = s <| v_faults := v_faults s' |> /\ (no_faults s -> b = false).
Proof.
  intros W. unfold test_fault. set (y := v_faults s x).
  destruct (!ft_armed y || (ft_map y != map)) eqn:Ha; [split_and!; [by apply vmm_keeps_refl|done|by destruct s|done]|].
  apply orb_false_iff in Ha as [Ha _]. apply negb_false_iff in Ha.
  assert (no_faults s -> False) as Hno by (intros [_ Hq]; unfold y in Ha; by rewrite Hq in Ha).
  destruct (nz (ft_skip y));
    match goal with |- context [set_fault x ?v s] => destruct (faults_keeps m s (v_faults (set_fault x v s)) W) as [H1 H2]; [tauto|] end;
    (split_and!; [exact H1|exact H2|done|tauto]).
Qed.

(** * Allocation *)

Lemma fault_form map x s :
  exists X, (test_fault map x s).2 = s <| v_faults := X |> /\
    (no_faults s -> (test_fault map x s).1 = false /\ forall f, ft_armed (X f) = false).
Proof.
  unfold test_fault. set (y := v_faults s x).
  destruct (!ft_armed y || (ft_map y != map)) eqn:Ha; [exists (v_faults s); split; [by destruct s|intros [_ Hq]; by split]|].
  apply orb_false_iff in Ha as [Ha _]. apply negb_false_iff in Ha.
  assert (no_faults s -> False) as Hno by (intros [_ Hq]; unfold y in Ha; by rewrite Hq in Ha).
  destruct (nz (ft_skip y)); eexists; (split; [reflexivity|tauto]).
Qed.

(** The state with another allocator and other diagnostics. *)
Definition with_pmm (s : Vmm) (P : Pmm) (X : VmmTestFault -> Fault) : Vmm := s <| v_pmm := P |> <| v_faults := X |>.

Lemma free_table_form m f s :
  pmm_wf (v_pmm s) -> held (v_pmm s) f -> let '(b, s') := free_table m f s in
  exists P X, s' = with_pmm s P X /\ pmm_wf P /\ same_frames (v_pmm s) P /\
    free_set P = (if b then free_set (v_pmm s) ∪ {[f]} else free_set (v_pmm s)) /\
    (no_faults s -> b = true /\ no_faults s').
Proof.
  intros W Hh. unfold free_table. destruct (fault_form m VMM_TEST_FREE s) as (X & E & Hq).
  destruct (test_fault m VMM_TEST_FREE s) as [b s1]. cbn [fst snd] in *. subst s1. destruct b.
  - exists (v_pmm s), X. split_and!; try done. intros Hn. by destruct (Hq Hn).
  - unfold vmm_frame_free. pose proof (free_held (v_pmm s) f W Hh) as Hf. change (v_pmm (s <| v_faults := X |>)) with (v_pmm s).
    destruct (frame_free f (v_pmm s)) as [b P]. destruct Hf as (H1 & H2 & H3 & H4). exists P, X.
    split_and!; try done. intros Hn. destruct (Hq Hn) as [_ HX]. split; [by apply H4, Hn|]. split; [by apply (sf_armed _ _ H2), Hn|done].
Qed.

(** Enough frames, all of them usable as tables, and no pending diagnostics. *)
Record supply (n : nat) (s : Vmm) : Prop := {
  su_faults : no_faults s;
  su_unlinked : v_unlinked_table s = FRAME_INVALID;
  su_size : (n <= size (free_set (v_pmm s)))%nat;
  su_usable : forall f, f ∈ free_set (v_pmm s) -> valid_mapping_frame f = true /\ is_Some (table_pointer s f) }.

(** A frame taken from the allocator and zeroed, not yet linked. *)
Record fresh (s s' : Vmm) (g : Z) : Prop := {
  fr_wf : vmm_wf s';
  fr_aside : aside s s';
  fr_frames : same_frames (v_pmm s) (v_pmm s');
  fr_nx : v_nx_enabled s' = v_nx_enabled s;
  fr_cpu : v_cpu s' = v_cpu s;
  fr_quiet : no_faults s -> no_faults s';
  fr_unlinked : v_unlinked_table s = FRAME_INVALID /\ v_unlinked_table s' = FRAME_INVALID;
  fr_free : free_set (v_pmm s') = free_set (v_pmm s) ∖ {[g]} /\ g ∈ free_set (v_pmm s);
  fr_held : held (v_pmm s') g;
  fr_zero : forall j, entry s' g j = 0;
  fr_length : length (table_of s' g) = 512%nat;
  fr_pointer : table_pointer s' g = Some g;
  fr_valid : valid_mapping_frame g = true;
  fr_new : forall m p, ~ node s m p g }.

Lemma with_pmm_keeps (m : Z) s P X u :
  vmm_wf s -> pmm_wf P -> same_frames (v_pmm s) P -> (no_faults s -> no_faults (with_pmm s P X)) ->
  (forall f, (f ∈ free_set P \/ (u <> FRAME_INVALID /\ f = u)) <->
             (f ∈ free_set (v_pmm s) \/ (v_unlinked_table s <> FRAME_INVALID /\ f = v_unlinked_table s))) ->
  (u <> FRAME_INVALID -> u ∉ free_set P /\ frame_owned (v_pmm s) u) ->
  let s' := (with_pmm s P X) <| v_unlinked_table := u |> in keeps m s s' /\ same_leaves s s'.
Proof. intros W Hp Hf Hq Hpool Hu s'. by apply aside_keeps. Qed.

Lemma zero_entry s g j : entry (zero_table g s) g j = 0.
Proof.
  unfold entry, zero_table, table_of. upd_simpl. rewrite lookup_insert_eq. cbn [default id].
  destruct (replicate _ 0 !! Z.to_nat j) as [x|] eqn:E; [|done]. by apply lookup_replicate in E as [-> _].
Qed.

Lemma allocate_call m s :
  vmm_wf s -> let '(r, s') := allocate_table m s in
  match r with
  | None => aside s s' /\ keeps m s s' /\ same_leaves s s' /\ (m <> 0 -> forall n, ~ supply (S n) s)
  | Some g => fresh s s' g
  end.
Proof.
  intros W. unfold allocate_table. destruct (nz m) eqn:Hm; [|bool_prop; split_and!; [apply aside_refl|by apply vmm_keeps_refl|done|done]]. cbn [negb].
  destruct (Z.eqb_spec (v_unlinked_table s) FRAME_INVALID) as [Hu|Hu]; cbn [negb];
    [|split_and!; [apply aside_refl|by apply vmm_keeps_refl|done|intros _ n Hs; by apply Hu, Hs]].
  destruct (fault_form m VMM_TEST_ALLOC s) as (X1 & E1 & Q1). destruct (test_fault m VMM_TEST_ALLOC s) as [b1 s1].
  cbn [fst snd] in *. subst s1.
  assert (forall P X, pmm_wf P -> same_frames (v_pmm s) P -> (no_faults s -> no_faults (with_pmm s P X)) ->
    free_set P = free_set (v_pmm s) -> keeps m s (with_pmm s P X) /\ same_leaves s (with_pmm s P X)) as Hsame.
  { intros P X H1 H2 H3 H4. apply (with_pmm_keeps m s P X (v_unlinked_table s)); try done. by rewrite H4. }
  destruct b1.
  { destruct (Hsame (v_pmm s) X1) as [K L]; [apply W|done|intros Hn; by destruct (Q1 Hn)|done|].
    split_and!; [done|done|done|]. intros _ n Hs. by destruct (Q1 (su_faults _ _ Hs)). }
  unfold vmm_frame_alloc. change (v_pmm (s <| v_faults := X1 |>)) with (v_pmm s).
  pose proof (alloc_held (v_pmm s) (vw_pmm s W)) as Ha. destruct (frame_alloc (v_pmm s)) as [g P] eqn:EP. destruct Ha as (HP & HF & Ha).
  destruct (Z.eqb_spec g FRAME_INVALID) as [Hg|Hg].
  { destruct Ha as [(_ & -> & H0)|(? & _)]; [|done]. destruct (Hsame (v_pmm s) X1) as [K L]; [apply W|done| |done|].
    { intros Hn. split; [apply Hn|by apply (Q1 Hn)]. }
    split_and!; [done|exact K|exact L|]. intros _ n Hs. pose proof (su_size _ _ Hs) as Hsz. rewrite H0, size_empty in Hsz. lia. }
  destruct Ha as [[? _]|(_ & Hin & HFP & Hh)]; [done|].
  set (s2 := (s <| v_faults := X1 |>) <| v_pmm := P |>).
  assert (0 <= g) as Hg0 by (pose proof (owned_range _ _ (vw_pmm s W) (free_owned _ _ (vw_pmm s W) Hin)); lia).
  assert (exists X2 usable, (if valid_mapping_frame g then let '(fault, s3) := test_fault m VMM_TEST_ACCESS s2 in (!fault, s3) else (false, s2))
            = (usable, s2 <| v_faults := X2 |>) /\ (usable = true -> valid_mapping_frame g = true) /\
            (no_faults s -> usable = valid_mapping_frame g /\ forall f, ft_armed (X2 f) = false)) as (X2 & usable & -> & Hus & Q2).
  { assert (no_faults s -> no_faults s2) as Hn2 by (intros Hn; split; [by apply (sf_armed _ _ HF), Hn|by apply (Q1 Hn)]).
    destruct (valid_mapping_frame g).
    - destruct (fault_form m VMM_TEST_ACCESS s2) as (X2 & E2 & Q2). destruct (test_fault m VMM_TEST_ACCESS s2) as [b2 s3].
      cbn [fst snd] in *. subst s3. exists X2, (!b2). split_and!; [done|done|]. intros Hn. destruct (Q2 (Hn2 Hn)) as [-> H]. done.
    - exists X1, false. split_and!; [done|done|]. intros Hn. split; [done|by apply (Q1 Hn)]. }
  destruct (if usable then table_pointer (s2 <| v_faults := X2 |>) g else None) as [t|] eqn:Et.
  - destruct usable; [|done]. pose proof (pointer_self _ _ _ Et) as ->.
    assert (forall m p, ~ node s m p g) as Hng.
    { intros m' p Hn. by destruct (vw_table s W m' p g Hn) as [[_ Hn'] _]. }
    assert (aside s (zero_table g (s2 <| v_faults := X2 |>))) as Has.
    { split; [done|done|]. intros m' p f Hf. unfold zero_table, table_of. upd_simpl. rewrite lookup_insert_ne; [done|]. intros ->. by eapply Hng. }
    split; try done.
    + apply (aside_wf s _ W Has); [done| |]; unfold zero_table; cbn.
      * intros m' p f Hf. apply (held_kept (v_pmm s) P f HF); [|by eapply (vw_table s W)].
        change (f ∉ free_set P). rewrite HFP. destruct (vw_table s W m' p f Hf) as [[_ ?] _]. set_solver.
      * intros Hv. by destruct Hv.
    + intros Hn. split; [by apply (sf_armed _ _ HF), Hn|by apply (Q2 Hn)].
    + apply zero_entry.
    + unfold zero_table, table_of. upd_simpl. by rewrite lookup_insert_eq.
    + by apply Hus.
  - pose proof (free_table_form m g (s2 <| v_faults := X2 |>) HP Hh) as Hf.
    destruct (free_table m g (s2 <| v_faults := X2 |>)) as [b3 s4]. destruct Hf as (P3 & X3 & -> & HP3 & HF3 & Hset & Q3).
    change (v_pmm (s2 <| v_faults := X2 |>)) with P in *.
    assert (free_set (v_pmm s) = free_set P ∪ {[g]}) as Eset.
    { rewrite HFP. apply set_eq. intros f. rewrite elem_of_union, elem_of_difference, elem_of_singleton.
      destruct (decide (f = g)) as [->|]; tauto. }
    assert (no_faults s -> no_faults (s2 <| v_faults := X2 |>)) as Hn2
      by (intros Hn; split; [by apply (sf_armed _ _ HF), Hn|by apply (Q2 Hn)]).
    assert (m <> 0 -> forall n, ~ supply (S n) s) as Hno.
    { intros _ n Hs. destruct (su_usable _ _ Hs g Hin) as [Hv [t Ht]]. destruct (Q2 (su_faults _ _ Hs)) as [-> _].
      rewrite Hv in Et. change (table_pointer s g = None) in Et. congruence. }
    destruct b3; cbn [negb].
    + destruct (Hsame P3 X3) as [K L]; [done|by etrans|intros Hn; by destruct (Q3 (Hn2 Hn))|by rewrite Hset, Eset|].
      split_and!; [done|exact K|exact L|done].
    + destruct (with_pmm_keeps m s P3 X3 g W HP3) as [K L]; [by etrans|intros Hn; by destruct (Q3 (Hn2 Hn))| | |].
      * intros f. rewrite Hset, Hu, Eset, elem_of_union, elem_of_singleton. tauto.
      * intros _. rewrite Hset. split; [apply Hh|]. by apply free_owned, Hin; apply W.
      * split_and!; [done|exact K|exact L|done].
Qed.

(** * Links *)

(** An operation below one table of the map: every other table stays. *)
Definition stay (s s' : Vmm) : Prop := forall m p f, node s m p f -> node s' m p f.

Lemma stay_refl s : stay s s.
Proof. by intros m p f. Qed.

#[export] Hint Resolve stay_refl : core.

Lemma stay_trans s1 s2 s3 : stay s1 s2 -> stay s2 s3 -> stay s1 s3.
Proof. unfold stay. auto. Qed.

(** Writing an entry of the map itself touches no other map. *)
Lemma written_table_other_at s : vmm_wf s -> forall m p f i e, node s m p f -> forall m' p' g,
  m' <> m -> node s m' p' g -> table_of (written s f i e) g = table_of s g.
Proof.
  intros W m p f i e Hf m' p' g Hne Hg. unfold written, set_entry, table_of. upd_simpl. rewrite lookup_insert_ne; [done|]. intros <-.
  destruct (vw_inj s W m' p' m p f Hg Hf) as [-> _]. done.
Qed.

Lemma link_entry_form s g (user : bool) :
  let flags := if user then Z.lor (Z.lor PTE_PRESENT PTE_WRITE) PTE_USER else Z.lor PTE_PRESENT PTE_WRITE in
  let e := Z.lor (frame_to_phys g) flags in
  0 <= g -> valid_mapping_frame g = true -> table_pointer s g = Some g ->
  target (v_use_phys_map s) e = Some g /\ has e PTE_WRITE = true /\ has e PTE_NX = false /\ has e PTE_USER = user.
Proof.
  intros flags e Hg Hv Hp. unfold e, flags. split; [apply target_make; try done; by destruct user|].
  unfold PTE_WRITE, PTE_NX, PTE_USER. rewrite !has_make by done. by destruct user.
Qed.

Lemma upgrade_form s e (user : bool) :
  has e PTE_WRITE = true -> has e PTE_NX = false ->
  let e' := if user then Z.lor (Z.lor e PTE_WRITE) PTE_USER else Z.lor e PTE_WRITE in
  target (v_use_phys_map s) e' = target (v_use_phys_map s) e /\ has e' PTE_WRITE = true /\ has e' PTE_NX = false /\
  (has e PTE_USER = true -> has e' PTE_USER = true) /\ (user = true -> has e' PTE_USER = true).
Proof.
  intros Hw Hn e'. split.
  - unfold target. assert (entry_frame e' = entry_frame e) as -> by (unfold e'; destruct user; by rewrite ?entry_frame_lor).
    assert (has e' PTE_PRESENT = has e PTE_PRESENT /\ has e' PTE_HUGE = has e PTE_HUGE) as [-> ->]; [|done].
    unfold e', PTE_PRESENT, PTE_HUGE. destruct user; unfold PTE_WRITE, PTE_USER; rewrite !has_lor by lia; by rewrite !orb_false_r.
  - unfold e', PTE_WRITE, PTE_NX, PTE_USER in *. destruct user; rewrite !has_lor by lia; rewrite ?Hw, ?Hn; split_and!; try done;
      (intros Hx; rewrite ?Hx; by rewrite ?orb_true_r).
Qed.

Lemma set_set f i a b s : set_entry f i b (set_entry f i a s) = set_entry f i b s.
Proof.
  unfold set_entry, table_of. upd_simpl. rewrite lookup_insert_eq. cbn [default id].
  rewrite list_insert_insert_eq. unfold upd. cbn. by rewrite insert_insert_eq.
Qed.

Section Links.
  Context (s : Vmm) (W : vmm_wf s) (m : Z) (p : list Z) (f i : Z).
  Context (Hf : node s m p f) (Hs : slot s m p i) (Hlt : (length p < 3)%nat).

(** What [create_or_get_table] leaves for the next level. *)
Record descended (user : bool) (s' : Vmm) (created t : Z) : Prop := {
  de_keeps : keeps m s s';
  de_leaves : same_leaves s s';
  de_stay : stay s s';
  de_node : node s' m (p ++ [i]) t;
  de_user : user = true -> has (entry s' f i) PTE_USER = true;
  de_other : forall j, index j -> j <> i -> entry s' f j = entry s f j;
  de_raise : forall m' p' g j, node s m' p' g -> index j -> has (entry s g j) PTE_USER = true -> has (entry s' g j) PTE_USER = true;
  de_created : (created = FRAME_INVALID /\ existing_table s f i = Some t /\ free_set (v_pmm s') = free_set (v_pmm s) /\
                (forall j, index j -> entry s' t j = entry s t j)) \/
               (created = t /\ entry s f i = 0 /\ t ∈ free_set (v_pmm s) /\ (forall j, index j -> entry s' t j = 0)) }.

(** The state and result when the entry is empty and a table was allocated. *)
Lemma descend_new (user : bool) s1 g :
  entry s f i = 0 -> fresh s s1 g ->
  let flags := if user then Z.lor (Z.lor PTE_PRESENT PTE_WRITE) PTE_USER else Z.lor PTE_PRESENT PTE_WRITE in
  let s' := set_entry f i (Z.lor (frame_to_phys g) flags) s1 in
  descended user s' g g /\ forall n, supply (S n) s -> supply n s'.
Proof using W Hf Hs Hlt.
  intros H0 [F1 F2 F3 F4 F5 F6 [F7 F7'] [F8 F8'] F9 F10 F11 F12 F13 F14] flags s'.
  assert (0 <= g) as Hg0 by (pose proof (owned_range _ _ (vw_pmm s W) (free_owned _ _ (vw_pmm s W) F8')); lia).
  assert (node s1 m p f) as Hf1 by (by apply (aside_node s s1)).
  assert (slot s1 m p i) as Hs1 by (by apply (aside_slot s s1 m p i (as_maps _ _ F2))).
  assert (entry s1 f i = 0) as H1 by (unfold entry; by rewrite (as_table _ _ F2 m p f Hf)).
  assert (forall m' p', ~ node s1 m' p' g) as Hng by (intros m' p' Hn%(aside_node s s1); [by eapply F14|done]).
  destruct (link_entry_form s g user Hg0 F13) as (E1 & E2 & E3 & E4); [by rewrite <- (aside_pointer s s1 g (as_phys _ _ F2))|].
  fold flags in E1, E2, E3, E4. rewrite <- (as_phys _ _ F2) in E1.
  set (e := Z.lor (frame_to_phys g) flags) in *. change s' with (written s1 f i e).
  destruct (link_wf s1 F1 m p f i e Hf1 Hs1 g Hlt H1 E1 E2 E3 Hng) as [W' L]; [auto|done|done| |].
  { rewrite F7'. intros E. by apply (held_valid _ _ (vw_pmm _ F1) F9). }
  pose proof (fun m' p' h => written_nodes_link s1 F1 m p f i e Hf1 Hs1 g m' p' h Hlt H1 E1 Hng (fun j _ => F10 j)) as Hn.
  assert (g <> f) as Hgf by (intros ->; by eapply F14).
  assert (forall m' p' h, node s m' p' h -> node (written s1 f i e) m' p' h) as Hst
    by (intros m' p' h Hh; apply Hn; left; by apply (aside_node s s1)).
  assert (forall h j, index j -> (h <> f \/ j <> i) -> (exists m' p', node s m' p' h) -> entry (written s1 f i e) h j = entry s h j) as Hent.
  { intros h j Hj Hne (m' & p' & Hh). rewrite (written_other s1 F1 m p f i e Hf1 Hs1 h j Hj Hne). unfold entry. by rewrite (as_table _ _ F2 m' p' h Hh). }
  split.
  - split; [|by eapply leaves_trans; [apply F2|intros m' p' j Hl Ho _ _; by apply aside_leaf|done]|exact Hst| | | | |].
    + split; [done|apply F2|apply F2|done|done| | |done|done].
      * intros m' p' h Hne Hh. split; [by apply Hst|].
        rewrite (written_table_other_at s1 F1 m p f i e Hf1 m' p' h Hne); [by apply (as_table _ _ F2 m' p')|by apply (aside_node s s1)].
      * intros h. unfold pool. change (v_pmm (written s1 f i e)) with (v_pmm s1). change (v_unlinked_table (written s1 f i e)) with (v_unlinked_table s1).
        rewrite F7, F7', F8, elem_of_difference, elem_of_singleton. setoid_rewrite Hn. setoid_rewrite (fun m p => aside_node s s1 m p h F2).
        destruct (decide (h = g)) as [->|]; [|split; [intros [?|[(m' & p' & [Hx|(-> & -> & ->)])|?]]|intros [?|[(m' & p' & Hx)|?]]]; naive_solver].
        split; [by left|]. intros _. right. left. exists m, (p ++ [i]). by right.
    + apply Hn. by right.
    + intros ->. by rewrite (written_here s1 F1 m p f i e Hf1 Hs1), E4.
    + intros j Hj Hne. apply Hent; [done|by right|by exists m, p].
    + intros m' p' h j Hh Hj Hu. rewrite Hent; [done|done| |by exists m', p']. destruct (decide (h = f)) as [->|]; [|by left]. right.
      intros ->. by rewrite H0, has_0 in Hu.
    + right. split_and!; try done. intros j Hj. rewrite (written_other s1 F1 m p f i e Hf1 Hs1 g j Hj); [auto|by left].
  - intros n [S1 S2 S3 S4]. split; [by apply F6|done| |].
    + change (v_pmm (written s1 f i e)) with (v_pmm s1). rewrite F8, size_difference by set_solver. rewrite size_singleton. lia.
    + intros h Hh. change (v_pmm (written s1 f i e)) with (v_pmm s1) in Hh. rewrite F8 in Hh.
      destruct (S4 h) as [Hv Hp]; [set_solver|]. split; [done|]. change (table_pointer (written s1 f i e) h) with (table_pointer s1 h).
      by rewrite (aside_pointer s s1 h (as_phys _ _ F2)).
Qed.

(** The state when the entry links a table already. *)
Lemma descend_old (user : bool) t :
  existing_table s f i = Some t -> has (entry s f i) PTE_WRITE = true -> has (entry s f i) PTE_NX = false ->
  let e := entry s f i in
  let e' := if user then Z.lor (Z.lor e PTE_WRITE) PTE_USER else Z.lor e PTE_WRITE in
  descended user (written s f i e') FRAME_INVALID t /\ forall n, supply (S n) s -> supply n (written s f i e').
Proof using W Hf Hs Hlt.
  intros Ht Hw Hn e e'. destruct (upgrade_form s e user Hw Hn) as (U1 & U2 & U3 & U4 & U5). fold e' in U1, U2, U3, U4, U5.
  destruct (upgrade_wf s W m p f i e' Hf Hs Hlt) as [W' L]; [by exists t|by rewrite existing_target|done|done|done|].
  pose proof (fun m' p' h => written_nodes_same s W m p f i e' Hf Hs m' p' h (or_intror U1)) as Hno.
  assert (node s m (p ++ [i]) t) as Hnt by (by eapply node_child).
  split.
  - split; [|done|intros m' p' h Hh; by apply Hno|by apply Hno| | | |].
    + split; try done; [|intros h; unfold pool; by setoid_rewrite Hno].
      intros m' p' h Hne Hh. split; [by apply Hno|]. by apply (written_table_other_at s W m p f i e' Hf m' p' h).
    + intros ->. rewrite (written_here s W m p f i e' Hf Hs). by apply U5.
    + intros j Hj Hne. apply (written_other s W m p f i e' Hf Hs); [done|by right].
    + intros m' p' h j Hh Hj Hu. rewrite (written_entry s W m p f i e' Hf Hs h j Hj). case_decide as E; [|done].
      destruct E as [-> ->]. by apply U4.
    + left. split_and!; try done. intros j Hj. apply (written_elsewhere s W m p f i e' Hf Hs m (p ++ [i]) t j Hj Hnt).
      right. intros E. apply (f_equal length) in E. rewrite length_app in E. cbn in E. lia.
  - intros n [S1 S2 S3 S4]. split; try done. change (v_pmm (written s f i e')) with (v_pmm s). lia.
Qed.

Lemma create_or_get_call user :
  let '(r, s') := create_or_get_table m f i user s in
  match r with
  | None => keeps m s s' /\ same_leaves s s' /\ stay s s' /\ (forall t, ~ node s m (p ++ [i]) t) /\ (m <> 0 -> forall n, ~ supply (S n) s)
  | Some (created, t) => descended user s' created t /\ forall n, supply (S n) s -> supply n s'
  end.
Proof using W Hf Hs Hlt.
  unfold create_or_get_table. set (e := entry s f i). pose proof (proj1 Hs) as Hi.
  destruct (vw_link s W m p f i Hf Hlt Hs) as [H0|([t Ht] & Hw & Hn)]; fold e in H0 || fold e in Hw, Hn.
  - rewrite H0, has_0. change (nz 0) with false. cbn [negb].
    pose proof (allocate_call m s W) as Ha. destruct (allocate_table m s) as [[g|] s1].
    + apply descend_new; [done|]. exact Ha.
    + destruct Ha as (Ha & K & L & Hno). split_and!; try done; [intros m' p' h Hh; by apply (aside_node s s1)|].
      intros t Ht. apply node_parent in Ht as (g & Hg & He & _).
      assert (g = f) as -> by (destruct Hg as (_ & _ & E1), Hf as (_ & _ & E2); congruence). rewrite existing_target in He. fold e in He. by rewrite H0, target_0 in He.
  - pose proof Ht as Ht'. rewrite existing_target in Ht'. pose proof (target_frame _ _ _ Ht') as (Efr & Hp & Hh).
    fold e in Ht', Efr, Hp, Hh. rewrite Hp, Hh. cbn [negb].
    pose proof (descend_old user t Ht Hw Hn) as D. cbn zeta in D. fold e in D.
    set (e' := if user then Z.lor (Z.lor e PTE_WRITE) PTE_USER else Z.lor e PTE_WRITE) in *.
    assert ((if user then set_entry f i (Z.lor (entry (set_entry f i (Z.lor e PTE_WRITE) s) f i) PTE_USER) (set_entry f i (Z.lor e PTE_WRITE) s)
             else set_entry f i (Z.lor e PTE_WRITE) s) = written s f i e') as ->.
    { unfold e'. destruct user; [|done]. rewrite set_set.
      change (set_entry f i (Z.lor e PTE_WRITE) s) with (written s f i (Z.lor e PTE_WRITE)). by rewrite (written_here s W m p f i _ Hf Hs). }
    rewrite (written_here s W m p f i e' Hf Hs).
    destruct (upgrade_form s e user Hw Hn) as (U1 & _). fold e' in U1. rewrite Ht' in U1.
    destruct (target_frame _ _ _ U1) as (-> & _ & _). destruct (target_pointer s e' t U1) as [Hpt Hinv].
    destruct (Z.eqb_spec t FRAME_INVALID); [done|]. change (table_pointer (written s f i e') t) with (table_pointer s t). by rewrite Hpt.
Qed.

End Links.

Lemma keeps_active m s s' a : keeps m s s' -> map_active s' a = map_active s a.
Proof. intros K. unfold map_active. by rewrite (aside_pmap s s' a (kp_maps _ _ _ K)), (kp_cpu _ _ _ K). Qed.

(** * Release *)

Lemma table_empty_spec s c : table_empty s c = true <-> forall j, index j -> entry s c j = 0.
Proof.
  unfold table_empty. rewrite forallb_forall. split.
  - intros H j Hj. specialize (H j). rewrite <- list_elem_of_In, elem_of_seqZ in H. apply negb_true_iff in H; [by bool_prop|].
    unfold index, PAGE_TABLE_ENTRIES in *. lia.
  - intros H j Hj. rewrite <- list_elem_of_In, elem_of_seqZ in Hj. rewrite H; [done|]. unfold index, PAGE_TABLE_ENTRIES in *. lia.
Qed.

Lemma set_entry_id f i s : index i -> length (table_of s f) = 512%nat -> forall g, table_of (set_entry f i (entry s f i) s) g = table_of s g.
Proof.
  intros Hi Hl g. unfold set_entry. unfold table_of at 1. upd_simpl. destruct (decide (g = f)) as [->|Hne].
  - rewrite lookup_insert_eq. cbn [default id]. apply list_insert_id. unfold entry, index in *.
    destruct (table_of s f !! Z.to_nat i) eqn:E; [done|]. apply lookup_ge_None in E. lia.
  - by rewrite lookup_insert_ne.
Qed.

Record released (m : Z) (p : list Z) (f i : Z) (s : Vmm) (b : bool) (s' : Vmm) : Prop := {
  rl_keeps : keeps m s s';
  rl_leaves : same_leaves s s';
  rl_stay : forall m' p' h, node s m' p' h -> ~ (b = true /\ m' = m /\ p' = p ++ [i]) -> node s' m' p' h;
  rl_table : forall h, h <> f -> table_of s' h = table_of s h;
  rl_entry : forall j, index j -> entry s' f j = if b && (j =? i) then 0 else entry s f j;
  rl_done : no_faults s -> forall c, existing_table s f i = Some c -> table_empty s c = true -> b = true }.

Lemma released_not m p f i s b :
  vmm_wf s -> b = false -> (forall c, existing_table s f i = Some c -> table_empty s c = true -> False) -> released m p f i s b s.
Proof. intros W -> Hno. split; [by apply vmm_keeps_refl|done|done|done|done|]. intros _ c H1 H2. by destruct (Hno c). Qed.

(** Allocation state and diagnostics of a release that failed. *)
Lemma released_undone m p f i s P X :
  vmm_wf s -> node s m p f -> slot s m p i -> pmm_wf P -> same_frames (v_pmm s) P -> free_set P = free_set (v_pmm s) ->
  (no_faults s -> False) ->
  released m p f i s false (set_entry f i (entry s f i) (with_pmm (set_entry f i 0 s) P X)).
Proof.
  intros W Hf [Hi Ho] HP HF Hset Hq. destruct (vw_table s W m p f Hf) as (_ & Hlen & _).
  set (s' := set_entry _ _ _ _).
  assert (forall g, table_of s' g = table_of s g) as Ht.
  { intros g. rewrite <- (set_entry_id f i s Hi Hlen g), <- (set_set f i 0 (entry s f i) s). done. }
  assert (keeps m s s' /\ same_leaves s s') as [K L].
  { apply (aside_keeps m s s' W); try done; [change (v_pmm s') with P; by rewrite Hset|].
    intros Hv. change (v_pmm s') with P. rewrite Hset. by destruct (vw_unlinked s W Hv) as [[H1 H2] _]. }
  split; [done|done| |auto| |tauto].
  - intros m' p' h Hh _. apply (aside_node s s' m' p' h); [|done]. split; [done|done|intros; apply Ht].
  - intros j Hj. unfold entry. by rewrite Ht.
Qed.

Lemma released_done m p f i s c P X :
  vmm_wf s -> node s m p f -> slot s m p i -> (length p < 3)%nat -> shared_source (pmap s m) = false ->
  existing_table s f i = Some c -> table_empty s c = true -> pmm_wf P -> same_frames (v_pmm s) P ->
  free_set P = free_set (v_pmm s) ∪ {[c]} -> (no_faults s -> no_faults (with_pmm s P X)) ->
  released m p f i s true (with_pmm (set_entry f i 0 s) P X).
Proof.
  intros W Hf Hs Hlt Hsh Hc He HP HF Hset Hq. rewrite table_empty_spec in He. set (s0 := written s f i 0).
  change (set_entry f i 0 s) with s0. set (s' := with_pmm s0 P X).
  assert (node s m (p ++ [i]) c) as Hnc by (by eapply node_child).
  destruct (unlink_wf s W m p f i 0 Hf Hs c Hlt eq_refl Hc He Hsh) as [W0 L]. fold s0 in W0, L.
  pose proof (fun m' p' h => written_nodes_unlink s W m p f i 0 Hf Hs c m' p' h Hlt eq_refl Hc He) as Hn. fold s0 in Hn.
  assert (aside s0 s') as Ha by done.
  assert (forall m' p' h, node s' m' p' h <-> node s m' p' h /\ ~ (m' = m /\ p' = p ++ [i])) as Hn'
    by (intros m' p' h; rewrite (aside_node s0 s' m' p' h Ha); apply Hn).
  assert (forall m' p', node s0 m' p' c -> False) as Hnc0.
  { intros m' p' [H1 H2]%Hn. apply H2. by destruct (vw_inj s W m' p' m (p ++ [i]) c H1 Hnc). }
  assert (forall h, h <> f -> table_of s' h = table_of s h) as Ht.
  { intros h Hne. change (table_of s0 h = table_of s h). unfold s0, written, set_entry, table_of. upd_simpl. by rewrite lookup_insert_ne. }
  assert (vmm_wf s') as W'.
  { apply (aside_wf s0 s' W0 Ha HP).
    - intros m' p' h Hh. apply (held_kept (v_pmm s) P h HF); [|by eapply (vw_table s0 W0)]. rewrite Hset.
      destruct (vw_table s0 W0 m' p' h Hh) as ([_ H1] & _). rewrite elem_of_union, elem_of_singleton. intros [?| ->]; [done|by eapply Hnc0].
    - intros Hv. destruct (vw_unlinked s W Hv) as [[H1 H2] H3]. split; [split; [by apply (sf_owned _ _ HF)|]|intros m' p' [Hh _]%Hn; by eapply H3].
      change (v_unlinked_table s' ∉ free_set P). rewrite Hset, elem_of_union, elem_of_singleton. intros [?|E]; [done|].
      apply (H3 m (p ++ [i])). change (v_unlinked_table s) with (v_unlinked_table s'). by rewrite E. }
  split; [|intros m' p' j Hl Ho Hp Hj; rewrite <- (L m' p' j Hl Ho Hp Hj); by apply aside_leaf| |done| |done].
  - split; try done.
    + intros m' p' h Hne Hh. split; [apply Hn'; split; [done|tauto]|]. apply Ht. intros ->.
      destruct (vw_inj s W m' p' m p f Hh Hf) as [-> _]. done.
    + intros h. unfold pool. change (v_pmm s') with P. change (v_unlinked_table s') with (v_unlinked_table s).
      rewrite Hset, elem_of_union, elem_of_singleton. setoid_rewrite Hn'. split.
      * intros [[?| ->]|[(m' & p' & Hh & _)|?]]; [by left|right; left; by exists m, (p ++ [i])|right; left; by exists m', p'|by right; right].
      * intros [?|[(m' & p' & Hh)|?]]; [by left; left| |by right; right].
        destruct (decide (m' = m /\ p' = p ++ [i])) as [[-> ->]|Hne]; [|right; left; by exists m', p'].
        left. right. destruct Hh as (_ & _ & E1). destruct Hnc as (_ & _ & E2). congruence.
  - intros m' p' h Hh Hne. apply Hn'. split; [done|tauto].
  - intros j Hj. change (entry s0 f j = if true && (j =? i) then 0 else entry s f j). unfold s0.
    rewrite (written_entry s W m p f i 0 Hf Hs f j Hj). cbn [andb]. destruct (Z.eqb_spec j i); case_decide; tauto.
Qed.

Lemma release_call m p f i s :
  vmm_wf s -> node s m p f -> slot s m p i -> (length p < 3)%nat -> shared_source (pmap s m) = false ->
  let '(b, s') := release_empty_child m f i s in released m p f i s b s'.
Proof.
  intros W Hf Hs Hlt Hsh. unfold release_empty_child.
  destruct (vw_link s W m p f i Hf Hlt Hs) as [H0|([c Hc] & Hw & Hn)].
  { rewrite H0, has_0. cbn. apply released_not; [done|done|]. intros c Hc. by rewrite existing_target, H0, target_0 in Hc. }
  pose proof Hc as Hc'. rewrite existing_target in Hc'. destruct (target_frame _ _ _ Hc') as (-> & -> & ->). cbn [negb orb].
  destruct (target_pointer s _ _ Hc') as [-> _]. destruct (table_empty s c) eqn:He; cbn [negb].
  2: { apply released_not; [done|done|]. intros c' Hc''. congruence. }
  assert (node s m (p ++ [i]) c) as Hnc by (by eapply node_child).
  destruct (vw_table s W _ _ _ Hnc) as (Hh & _).
  pose proof (free_table_form m c (set_entry f i 0 s) (vw_pmm s W) Hh) as Hfr.
  destruct (free_table m c (set_entry f i 0 s)) as [b s1]. destruct Hfr as (P & X & -> & HP & HF & Hset & Hq).
  destruct b; cbn [negb].
  - apply (released_done m p f i s c P X); try done. intros Hno. by destruct (Hq Hno).
  - apply (released_undone m p f i s P X); try done. intros Hno. by destruct (Hq Hno).
Qed.
