(* ===== verification/VmmMap.v ===== *)
(** Mapping, querying and removing single pages. *)

From S2P Require Import Prelude Pmm PmmProofs PmmRefine Frames Vmm.
From S2P Require Import VmmWf VmmEdit VmmOps.

Open Scope jcos_scope.

(** * Rolling back created links *)

(** The created links, the deepest first. *)
Fixpoint links_ok (s : Vmm) (m : Z) (n : nat) (links : list (Z * Z * Z)) : Prop :=
  match links with
  | [] => True
  | (f, i, _) :: links =>
    exists p, node s m p f /\ slot s m p i /\ (length p < n)%nat /\ links_ok s m (length p) links
  end.

Lemma links_mono s s' m n n' links :
  (forall p f, (length p < n)%nat -> node s m p f -> node s' m p f) -> v_maps s' = v_maps s -> (n <= n')%nat ->
  links_ok s m n links -> links_ok s' m n' links.
Proof.
  revert n n'. induction links as [|[[f i] c] links IH]; intros n n' Hst Em Hn; [done|].
  intros (p & Hf & Hs & Hlt & Hl). exists p. split_and!; [by apply Hst|by apply (aside_slot s s' m p i Em)|lia|].
  apply (IH (length p)); [|done|done|done]. intros q g Hq Hg. apply Hst; [lia|done].
Qed.

Lemma rollback_loop_call m links n s :
  vmm_wf s -> shared_source (pmap s m) = false -> (n <= 3)%nat -> links_ok s m n links ->
  keeps m s (rollback_loop m links s) /\ same_leaves s (rollback_loop m links s).
Proof.
  revert n s. induction links as [|[[f i] c] links IH]; intros n s W Hsh Hn; [split; [by apply vmm_keeps_refl|done]|].
  intros (p & Hf & Hs & Hlt & Hl). cbn [rollback_loop]. destruct (entry_frame (entry s f i) != c); [split; [by apply vmm_keeps_refl|done]|].
  pose proof (release_call m p f i s W Hf Hs) as Hr. destruct (release_empty_child m f i s) as [b s1].
  destruct Hr as [K L St _ _ _]; [lia|done|]. destruct b; cbn [negb]; [|done].
  destruct (IH (length p) s1) as [K2 L2]; [apply K|by rewrite (aside_pmap s s1 m (kp_maps _ _ _ K))|lia| |].
  - apply (links_mono s s1 m (length p) (length p)); [|apply K|done|done].
    intros q g Hq Hg. apply St; [done|]. intros (_ & _ & ->). rewrite length_app in Hq. cbn in Hq. lia.
  - split; [by eapply vmm_keeps_trans|]. eapply leaves_trans; [apply K|done|done].
Qed.

Lemma rollback_call m links n s :
  vmm_wf s -> (n <= 3)%nat -> links_ok s m n links ->
  keeps m s (rollback_created_tables m links s) /\ same_leaves s (rollback_created_tables m links s).
Proof.
  intros W Hn Hl. unfold rollback_created_tables. destruct (map_active s m || shared_source (pmap s m)) eqn:E.
  - split; [by apply vmm_keeps_refl|done].
  - apply orb_false_iff in E as [_ E]. by apply (rollback_loop_call m links n).
Qed.

Lemma rollback_active m links s : map_active s m = true -> rollback_created_tables m links s = s.
Proof. intros H. unfold rollback_created_tables. by rewrite H. Qed.

Lemma rollback_nil m s : rollback_created_tables m [] s = s.
Proof. unfold rollback_created_tables. by destruct (map_active s m || _). Qed.

(** * Flags *)

Lemma small_flags (P : Z -> bool) flags : forallb P (seqZ 0 32) = true -> 0 <= flags < 32 -> P flags = true.
Proof. intros H Hf. rewrite forallb_forall in H. apply H, list_elem_of_In, elem_of_seqZ. lia. Qed.

Lemma leaf_flags_bits flags :
  0 <= flags < 32 ->
  Z.land (leaf_flags flags) PTE_ADDRESS_MASK = 0 /\ has (leaf_flags flags) PTE_PRESENT = true /\
  has (leaf_flags flags) PTE_GLOBAL = false /\ has (leaf_flags flags) PTE_HUGE = false /\
  has (leaf_flags flags) PTE_USER = has flags VM_USER.
Proof.
  intros Hf. pose proof (small_flags (fun flags =>
    (Z.land (leaf_flags flags) PTE_ADDRESS_MASK =? 0) && has (leaf_flags flags) PTE_PRESENT && !has (leaf_flags flags) PTE_GLOBAL
    && !has (leaf_flags flags) PTE_HUGE && bool_decide (has (leaf_flags flags) PTE_USER = has flags VM_USER)) flags eq_refl Hf) as H.
  cbv beta in H. do 4 (apply andb_true_iff in H as [H ?]). bool_prop. split_and!; try done. by apply bool_decide_eq_true in H0.
Qed.

(** The entry that maps a frame with the given permissions. *)
Definition leaf_entry (frame flags : Z) : Z := Z.lor (frame_to_phys frame) (leaf_flags flags).

Lemma leaf_entry_ok frame flags :
  0 <= frame -> valid_mapping_frame frame = true -> 0 <= flags < 32 ->
  leaf_ok (leaf_entry frame flags) /\ has (leaf_entry frame flags) PTE_USER = has flags VM_USER /\
  entry_frame (leaf_entry frame flags) = frame.
Proof.
  intros Hf Hv Hfl. destruct (leaf_flags_bits flags Hfl) as (B1 & B2 & B3 & B4 & B5). unfold leaf_ok, leaf_entry.
  split; [|split; [unfold PTE_USER in *; by rewrite has_make|by apply entry_frame_make]].
  unfold PTE_PRESENT, PTE_GLOBAL, PTE_HUGE in *. by rewrite !has_make.
Qed.

(** * Mapping *)

(** The path and the final index of a page. *)
Definition route (va : Z) : list Z := [pml4_index va; pdpt_index va; pd_index va].

Lemma route_owned s m va : map_owns_pml4_index s m (pml4_index va) = true -> owned_path s m (route va).
Proof.
  intros Ho. split; [repeat constructor; apply index_mask|]. split; [cbn; lia|]. intros i q E. by injection E as <- _.
Qed.

(** Leaves after writing one of them. *)
Definition leaves_set (s s' : Vmm) (m : Z) (p : list Z) (i e : Z) : Prop :=
  forall m' p' j, map_live s m' -> owned_path s m' p' -> length p' = 3%nat -> index j ->
    leaf s' m' p' j = if decide (m' = m /\ p' = p /\ j = i) then e else leaf s m' p' j.

Lemma leaf_write_keeps s m p f i e :
  vmm_wf s -> node s m p f -> length p = 3%nat -> index i -> e = 0 \/ leaf_ok e -> (has e PTE_USER = true -> route_user s m p) ->
  keeps m s (set_entry f i e s) /\ leaves_set s (set_entry f i e s) m p i e.
Proof.
  intros W Hf Hp Hi He Hu. assert (slot s m p i) as Hs by (split; [done|intros ->; done]).
  pose proof (leaf_wf s W m p f i e Hf Hs Hp He Hu) as W'.
  pose proof (fun m' p' g => written_nodes_same s W m p f i e Hf Hs m' p' g (or_introl Hp)) as Hn.
  split.
  - split; try done.
    + intros m' p' h Hne Hh. split; [by apply Hn|]. by apply (written_table_other_at s W m p f i e Hf m' p' h).
    + intros h. unfold pool. by setoid_rewrite Hn.
  - intros m' p' j Hl Ho Hp' Hj. by apply (leaf_write s W m p f i e Hf Hs).
Qed.

Lemma note_links s m p f i user s' created t n links :
  descended s m p f i user s' created t -> (length p < n)%nat -> slot s m p i -> node s m p f ->
  links_ok s m (length p) links -> links_ok s' m n (note_created created f i links).
Proof.
  intros D Hlt Hs Hf Hl. pose proof (de_keeps _ _ _ _ _ _ _ _ _ D) as K. pose proof (de_stay _ _ _ _ _ _ _ _ _ D) as St.
  assert (links_ok s' m (length p) links) as Hl' by (apply (links_mono s s' m (length p) (length p)); [auto|apply K|done|done]).
  unfold note_created. destruct (created != FRAME_INVALID).
  - exists p. split_and!; [by apply St|by apply (aside_slot s s' m p i (kp_maps _ _ _ K))|done|done].
  - apply (links_mono s' s' m (length p) n); try done. lia.
Qed.

(** A result of the walk that creates tables, from a state with supply. *)
Record failed (s : Vmm) (m : Z) (s' : Vmm) : Prop := {
  fd_keeps : keeps m s s';
  fd_leaves : same_leaves s s' }.

Lemma failed_after s m s1 s2 : keeps m s s1 -> same_leaves s s1 -> keeps m s1 s2 -> same_leaves s1 s2 -> failed s m s2.
Proof. intros K L K' L'. split; [by eapply vmm_keeps_trans|eapply leaves_trans; [apply K|done|done]]. Qed.

Lemma slot_below s m p i : p <> [] -> index i -> slot s m p i.
Proof. by split. Qed.

(** The walk of [map_page_tables] has come down a path. *)
Record reached (s0 : Vmm) (m : Z) (p : list Z) (user : bool) (s : Vmm) (f : Z) (links : list (Z * Z * Z)) : Prop := {
  re_keeps : keeps m s0 s;
  re_leaves : same_leaves s0 s;
  re_node : node s m p f;
  re_route : user = true -> route_user s m p;
  re_links : links_ok s m (length p) links;
  re_stay : stay s0 s;
  re_supply : forall n, supply (length p + n) s0 -> supply n s }.

Lemma node_fun s m p f g : node s m p f -> node s m p g -> f = g.
Proof. intros (_ & _ & E1) (_ & _ & E2). congruence. Qed.

Lemma reached_fails s0 m p user s f links s' :
  reached s0 m p user s f links -> (length p <= 3)%nat -> keeps m s s' -> same_leaves s s' -> stay s s' ->
  failed s0 m (rollback_created_tables m links s').
Proof.
  intros [K L N _ Lk _ _] Hp K' L' St.
  destruct (rollback_call m links (length p) s' (kp_wf _ _ _ K')) as [K2 L2];
    [lia|apply (links_mono s s' m (length p) (length p)); [auto|apply K'|done|done]|].
  apply (failed_after s0 m s'); [by eapply vmm_keeps_trans|eapply leaves_trans; [apply K|done|done]|done|done].
Qed.

Lemma reach_step s0 m p user s f links i :
  reached s0 m p user s f links -> slot s m p i -> (length p < 3)%nat -> m <> 0 ->
  let '(r, s') := create_or_get_table m f i user s in
  match r with
  | None => failed s0 m (rollback_created_tables m links s') /\ (forall n, ~ supply (length p + S n) s0) /\
      (map_active s0 m = true -> stay s0 (rollback_created_tables m links s')) /\ forall t, ~ node s0 m (p ++ [i]) t
  | Some (created, t) => reached s0 m (p ++ [i]) user s' t (note_created created f i links)
  end.
Proof.
  intros R Hs Hlt Hm. pose proof R as [K L N Rt Lk St0 Su].
  pose proof (create_or_get_call s (kp_wf _ _ _ K) m p f i N Hs Hlt user) as Hc.
  destruct (create_or_get_table m f i user s) as [[[c t]|] s'].
  - destruct Hc as [D SuD]. pose proof D as [K1 L1 St1 N1 U1 _ R1 _].
    split; [by eapply vmm_keeps_trans|eapply leaves_trans; [apply K|done|done]|done| | |by eapply stay_trans|].
    + intros Hu q g j r E Hg. destruct r as [|x r _] using rev_ind.
      * apply app_inj_tail in E as [-> ->]. rewrite (node_fun _ _ _ _ _ Hg (St1 _ _ _ N)). by apply U1.
      * rewrite app_comm_cons, app_assoc in E. apply app_inj_tail in E as [-> ->].
        destruct (node_prefix s m q (j :: r) f N) as (g' & Hg' & _). rewrite (node_fun _ _ _ _ _ Hg (St1 _ _ _ Hg')).
        apply (R1 m q g' j Hg'); [|by eapply (Rt Hu)].
        destruct N as (_ & (H1 & _) & _). apply Forall_app in H1 as [_ H1]. by apply Forall_inv in H1.
    + rewrite length_app. apply (note_links s m p f i user s' c t _ links D); [cbn; lia|done|done|done].
    + intros n Hn. apply SuD, Su. by rewrite length_app, <- Nat.add_assoc in Hn.
  - destruct Hc as (K1 & L1 & St1 & Hnew & Hno). split_and!; [apply (reached_fails s0 m p user s f links s' R); [lia|done|done|done]| | |].
    + intros n Hn. by eapply (Hno Hm), Su.
    + intros Ha. rewrite rollback_active; [by eapply stay_trans|]. by rewrite (keeps_active m s s' m K1), (keeps_active m s0 s m K).
    + intros t Ht. by apply (Hnew t), St0.
Qed.

Lemma reached_root s m user :
  vmm_wf s -> map_live s m -> reached s m [] user s (root s m) [].
Proof.
  intros W Hl. split; [by apply vmm_keeps_refl|done|by apply root_node| |done|by intros ???|done].
  intros _ q g j r E. by destruct q.
Qed.

(** The tables that lead to a page. *)
Definition has_tables (s : Vmm) (m va : Z) : Prop := exists f, node s m (route va) f.

Lemma no_tables s m va p i q : route va = p ++ i :: q -> (forall t, ~ node s m (p ++ [i]) t) -> ~ has_tables s m va.
Proof.
  intros E Hno [f Hf]. rewrite E, (app_assoc p [i] q : p ++ i :: q = _) in Hf. destruct (node_prefix s m (p ++ [i]) q f Hf) as (g & Hg & _). by apply (Hno g).
Qed.

(** The outcome of mapping a page whose checks passed. *)
Lemma map_tables_call m va frame flags s :
  vmm_wf s -> map_live s m -> map_owns_pml4_index s m (pml4_index va) = true -> 0 <= frame ->
  valid_mapping_frame frame = true -> 0 <= flags < 32 ->
  let '(b, s') := map_page_tables m va frame flags s in
  keeps m s s' /\ (map_active s m = true -> stay s s') /\
  (if (b : bool) then leaf s m (route va) (pt_index va) = 0 /\ leaves_set s s' m (route va) (pt_index va) (leaf_entry frame flags) /\
     (forall n, supply (3 + n) s -> supply n s') /\ has_tables s' m va
   else same_leaves s s' /\ (leaf s m (route va) (pt_index va) = 0 -> ~ supply 3 s /\ ~ has_tables s m va)).
Proof.
  intros W Hl Ho Hf Hv Hfl. assert (m <> 0) as Hm by (destruct Hl as [Hz _]; by bool_prop).
  unfold map_page_tables. destruct (vw_table s W m [] _ (root_node s m Hl)) as (_ & _ & Hp). fold (root s m). rewrite Hp.
  set (user := has flags VM_USER).
  pose proof (reach_step s m [] user s (root s m) [] (pml4_index va) (reached_root s m user W Hl)
    (conj (index_mask _) (fun _ => Ho)) ltac:(cbn; lia) Hm) as H1.
  destruct (create_or_get_table m (root s m) (pml4_index va) user s) as [[[c1 pdpt]|] s1].
  2: { destruct H1 as ([K L] & Hno & St & Hn). rewrite rollback_nil in K, L, St. split_and!; [done|done|done|]. intros _. split; [apply (Hno 2%nat)|by apply (no_tables s m va [] _ _ eq_refl)]. }
  pose proof (reach_step s m [pml4_index va] user s1 pdpt _ (pdpt_index va) H1 (slot_below _ _ _ _ (fun E => nil_cons (eq_sym E)) (index_mask _)) ltac:(cbn; lia) Hm) as H2.
  destruct (create_or_get_table m pdpt (pdpt_index va) user s1) as [[[c2 pd]|] s2].
  2: { destruct H2 as ([K L] & Hno & St & Hn). split_and!; [done|done|done|]. intros _. split; [apply (Hno 1%nat)|by apply (no_tables s m va [_] _ _ eq_refl)]. }
  pose proof (reach_step s m _ user s2 pd _ (pd_index va) H2 (slot_below _ _ _ _ (fun E => nil_cons (eq_sym E)) (index_mask _)) ltac:(cbn; lia) Hm) as H3.
  destruct (create_or_get_table m pd (pd_index va) user s2) as [[[c3 pt]|] s3].
  2: { destruct H3 as ([K L] & Hno & St & Hn). split_and!; [done|done|done|]. intros _. split; [apply (Hno 0%nat)|by apply (no_tables s m va [_; _] _ _ eq_refl)]. }
  cbn [app] in H3. fold (route va) in H3. pose proof H3 as [K L N Rt Lk St Su].
  assert (entry s3 pt (pt_index va) = leaf s m (route va) (pt_index va)) as E.
  { rewrite <- (leaf_node s3 m (route va) pt _ N). apply L; [done|by apply route_owned|done|apply index_mask]. }
  rewrite E. destruct (nz (leaf s m (route va) (pt_index va))) eqn:Hnz; bool_prop.
  - destruct (reached_fails s m (route va) user s3 pt _ s3 H3) as [K' L']; [cbn; lia|apply vmm_keeps_refl, K|apply leaves_refl|by intros ???|].
    split_and!; try done. intros Ha. rewrite rollback_active; [done|]. by rewrite (keeps_active m s s3 m K).
  - destruct (leaf_entry_ok frame flags Hf Hv Hfl) as (Lo & Lu & _).
    destruct (leaf_write_keeps s3 m (route va) pt (pt_index va) (leaf_entry frame flags) (kp_wf _ _ _ K) N) as [K' S'];
      [done|apply index_mask|by right|intros Hu; apply Rt; unfold user; by rewrite <- Lu|].
    pose proof (fun m' p' g => written_nodes_same s3 (kp_wf _ _ _ K) m (route va) pt (pt_index va) (leaf_entry frame flags) N
      (slot_below _ _ _ _ (fun E => nil_cons (eq_sym E)) (index_mask _)) m' p' g (or_introl eq_refl)) as Hsame.
    fold (leaf_entry frame flags). split_and!; [by eapply vmm_keeps_trans|intros _ m' p' g Hg; by apply Hsame, St|done| |intros n Hn; by destruct (Su n Hn); split|exists pt; by apply Hsame]. intros m' p' j Hl' Ho' Hp' Hj. rewrite (S' m' p' j); try done.
    + by rewrite (L m' p' j Hl' Ho' Hp' Hj).
    + by apply (aside_live s s3 m' (kp_maps _ _ _ K)).
    + by apply (aside_owned s s3 m' p' (kp_maps _ _ _ K)).
Qed.
