(* ===== verification/VmmCalls.v ===== *)
(** What [vmm_query_page] answers, in terms of leaves, and the exported operations
    on one page map: the pages they change, the frames they move, and what the
    processor may have cached. *)

From S2P Require Import Prelude Pmm PmmProofs PmmRefine Frames Vmm.
From S2P Require Import VmmWf VmmEdit VmmOps VmmMap.

Open Scope jcos_scope.

(** * Addresses *)

(** A 64-bit address a page can be mapped at. *)
Definition page (va : Z) : Prop := is_u64 va /\ page_aligned va = true /\ virtual_address_canonical va = true.

Lemma index_div x k : 0 <= k -> Z.land (Z.shiftr x k) 0x1FF = (x / 2 ^ k) mod 512.
Proof. intros Hk. change 0x1FF with (Z.ones 9). by rewrite Z.land_ones, Z.shiftr_div_pow2. Qed.

(** The digits of a page address. *)
Lemma page_digits x :
  page x -> exists top, (top = if 256 <=? pml4_index x then 65535 else 0) /\
    x = top * 2 ^ 48 + pml4_index x * 2 ^ 39 + pdpt_index x * 2 ^ 30 + pd_index x * 2 ^ 21 + pt_index x * 2 ^ 12.
Proof.
  intros (H1 & H2 & H3). exists (x / 2 ^ 48). unfold page_aligned, virtual_address_canonical in *.
  unfold pml4_index, pdpt_index, pd_index, pt_index. rewrite !index_div by lia.
  change (VM_PAGE_SIZE - 1) with (Z.ones 12) in H2. change 1 with (Z.ones 1) in H3. rewrite Z.land_ones in H2 by lia.
  rewrite Z.land_ones, !Z.shiftr_div_pow2 in H3 by lia. bool_prop.
  change (2 ^ 48) with 281474976710656 in *. change (2 ^ 47) with 140737488355328 in *. change (2 ^ 39) with 549755813888.
  change (2 ^ 30) with 1073741824. change (2 ^ 21) with 2097152. change (2 ^ 12) with 4096 in *. change (2 ^ 1) with 2 in *. split.
  - assert ((x / 140737488355328) mod 2 = (x / 549755813888) mod 512 / 256) as E by (Z.to_euclidean_division_equations; lia).
    rewrite E in H3. destruct (Z.leb_spec 256 ((x / 549755813888) mod 512)) as [Hs|Hs].
    + assert (nz ((x / 549755813888) mod 512 / 256) = true) as Hz; [|rewrite Hz in H3; by bool_prop].
      apply negb_true_iff, Z.eqb_neq. Z.to_euclidean_division_equations. lia.
    + assert (nz ((x / 549755813888) mod 512 / 256) = false) as Hz; [|rewrite Hz in H3; by bool_prop].
      apply negb_false_iff, Z.eqb_eq. Z.to_euclidean_division_equations. lia.
  - clear H3. Z.to_euclidean_division_equations. lia.
Qed.

(** A page is determined by its path and its final index. *)
Lemma route_inj va va' : page va -> page va' -> route va = route va' -> pt_index va = pt_index va' -> va = va'.
Proof.
  intros (t & E1 & E2)%page_digits (t' & E1' & E2')%page_digits E Ei. injection E as E4 E3 E5.
  rewrite E4 in E1. rewrite <- E1' in E1. subst t. rewrite E4, E3, E5, Ei in E2. etrans; [exact E2|by symmetry].
Qed.

(** * Permissions *)

(** The permissions of a leaf below links that permit everything. *)
Definition perms (e : Z) : Z :=
  let full := Z.lor PTE_WRITE PTE_USER in effective_flags full full full e.

Lemma effective_leaf a b c e :
  has a PTE_WRITE = true -> has b PTE_WRITE = true -> has c PTE_WRITE = true ->
  has a PTE_NX = false -> has b PTE_NX = false -> has c PTE_NX = false ->
  (has e PTE_USER = true -> has a PTE_USER = true /\ has b PTE_USER = true /\ has c PTE_USER = true) ->
  effective_flags a b c e = perms e.
Proof.
  intros A1 B1 C1 A2 B2 C2 Hu. unfold perms, effective_flags. unfold PTE_NX in *. rewrite !has_lor by lia.
  rewrite A1, B1, C1, A2, B2, C2. change (has (Z.lor PTE_WRITE PTE_USER) PTE_WRITE) with true.
  change (has (Z.lor PTE_WRITE PTE_USER) PTE_USER) with true. change (has PTE_WRITE (Z.shiftl 1 63)) with false.
  change (has PTE_USER (Z.shiftl 1 63)) with false. cbn [andb orb].
  destruct (has e PTE_USER); [|by rewrite !andb_false_r]. destruct Hu as (-> & -> & ->); [done|]. done.
Qed.

(** [perms] reads five bits. *)
Definition perms_of (w u nx : bool) (cache : Z) : Z :=
  let r := if w then VM_WRITE else 0 in
  let r := if u then Z.lor r VM_USER else r in
  let r := if negb nx then Z.lor r VM_EXEC else r in
  if cache =? Z.lor PTE_PCD PTE_PWT then Z.lor r VM_DEVICE
  else if nz (Z.land cache PTE_PCD) then Z.lor r VM_UNCACHED else r.

Lemma perms_bits e :
  perms e = perms_of (has e PTE_WRITE) (has e PTE_USER) (has e PTE_NX) (Z.land e (Z.lor PTE_PCD PTE_PWT)).
Proof.
  unfold perms, effective_flags, perms_of. unfold PTE_NX. rewrite !has_lor by lia.
  change (has (Z.lor PTE_WRITE PTE_USER) PTE_WRITE) with true. change (has (Z.lor PTE_WRITE PTE_USER) PTE_USER) with true.
  change (has PTE_WRITE (Z.shiftl 1 63)) with false. change (has PTE_USER (Z.shiftl 1 63)) with false. cbn [andb orb].
  rewrite <- Z.land_assoc. change (Z.land (Z.lor PTE_PCD PTE_PWT) PTE_PCD) with PTE_PCD. fold (has e PTE_PCD).
  by destruct (has e PTE_WRITE).
Qed.

Lemma perms_leaf_entry f flags :
  0 <= f -> valid_mapping_frame f = true -> 0 <= flags < 32 -> has flags VM_DEVICE && has flags VM_UNCACHED = false ->
  perms (leaf_entry f flags) = flags.
Proof.
  intros Hf Hv Hfl Hd. destruct (valid_frame f Hf Hv) as (_ & _ & _ & Hm).
  assert (perms (leaf_entry f flags) = perms (leaf_flags flags)) as ->.
  { rewrite !perms_bits. unfold leaf_entry, PTE_WRITE, PTE_USER, PTE_NX. rewrite !has_make by done. f_equal.
    rewrite Z.land_lor_distr_l. rewrite <- Hm, <- Z.land_assoc. change (Z.land PTE_ADDRESS_MASK _) with 0. by rewrite Z.land_0_r. }
  pose proof (small_flags (fun flags => (has flags VM_DEVICE && has flags VM_UNCACHED) || (perms (leaf_flags flags) =? flags)) flags
    eq_refl Hfl) as H. cbv beta in H. rewrite Hd in H. by apply Z.eqb_eq in H.
Qed.

(** * Queries *)

Definition page_ok (va : Z) : bool := page_aligned va && virtual_address_canonical va.

(** What a leaf translates to. *)
Definition meaning (e : Z) : option (Z * Z) := if has e PTE_PRESENT then Some (entry_frame e, perms e) else None.

Lemma query_leaf s m va :
  vmm_wf s -> map_live s m -> map_owns_pml4_index s m (pml4_index va) = true ->
  vmm_query_page s m va = if page_ok va then meaning (leaf s m (route va) (pt_index va)) else None.
Proof.
  intros W Hl Ho. unfold vmm_query_page, page_ok. destruct Hl as [Hz Hr]. rewrite Hz, (proj2 (Z.eqb_neq _ _) Hr). cbn [negb orb].
  destruct (page_aligned va), (virtual_address_canonical va); try done. cbn [negb orb andb].
  pose proof (root_node s m (conj Hz Hr)) as N0. destruct (vw_table s W m [] _ N0) as (_ & _ & Hp). fold (root s m). rewrite Hp.
  cbn [mbind option_bind]. unfold leaf, route. cbn [walk].
  assert (slot s m [] (pml4_index va)) as S0 by (split; [apply index_mask|done]).
  destruct (existing_table s (root s m) (pml4_index va)) as [pdpt|] eqn:E1; cbn [mbind option_bind]; [|unfold meaning; by rewrite has_0].
  assert (node s m [pml4_index va] pdpt) as N1 by (apply (node_child s m [] (root s m)); [done|cbn; lia|done|done]).
  assert (slot s m [pml4_index va] (pdpt_index va)) as S1 by (apply slot_below; [done|apply index_mask]).
  destruct (existing_table s pdpt (pdpt_index va)) as [pd|] eqn:E2; cbn [mbind option_bind]; [|unfold meaning; by rewrite has_0].
  assert (node s m [pml4_index va; pdpt_index va] pd) as N2 by (apply (node_child s m [pml4_index va] pdpt); [done|cbn; lia|done|done]).
  assert (slot s m [pml4_index va; pdpt_index va] (pd_index va)) as S2 by (apply slot_below; [done|apply index_mask]).
  destruct (existing_table s pd (pd_index va)) as [pt|] eqn:E3; cbn [mbind option_bind]; [|unfold meaning; by rewrite has_0].
  assert (node s m (route va) pt) as N3 by (apply (node_child s m [pml4_index va; pdpt_index va] pd); [done|cbn; lia|done|done]).
  set (e := entry s pt (pt_index va)). unfold meaning. destruct (has e PTE_PRESENT); [|done]. cbn [negb]. do 2 f_equal.
  assert (forall p f i g, node s m p f -> (length p < 3)%nat -> slot s m p i -> existing_table s f i = Some g ->
    has (entry s f i) PTE_WRITE = true /\ has (entry s f i) PTE_NX = false) as Hlink.
  { intros p f i g Hf Hlt Hs He. destruct (vw_link s W m p f i Hf Hlt Hs) as [H0|(_ & H1 & H2)]; [|done].
    by rewrite existing_target, H0, target_0 in He. }
  destruct (Hlink [] _ _ _ N0 ltac:(cbn; lia) S0 E1) as [A1 A2]. destruct (Hlink _ _ _ _ N1 ltac:(cbn; lia) S1 E2) as [B1 B2].
  destruct (Hlink _ _ _ _ N2 ltac:(cbn; lia) S2 E3) as [C1 C2].
  apply effective_leaf; try done. intros Hu.
  pose proof (fun q g j r => vw_user s W m (route va) pt q g j r (pt_index va) N3 eq_refl (index_mask _) Hu) as HU.
  split_and!; [by apply (HU [] _ _ [pdpt_index va; pd_index va])|by apply (HU [pml4_index va] _ _ [pd_index va])|by apply (HU [pml4_index va; pdpt_index va] _ _ [])].
Qed.

Lemma meaning_0 : meaning 0 = None.
Proof. done. Qed.

Lemma meaning_none s m p i :
  vmm_wf s -> map_live s m -> owned_path s m p -> length p = 3%nat -> index i -> meaning (leaf s m p i) = None <-> leaf s m p i = 0.
Proof.
  intros W Hl Ho Hp Hi. split; [|by intros ->]. unfold meaning. intros H. destruct (node_dec s m p Hl Ho) as [[f Hf]|Hno]; [|by apply leaf_none].
  rewrite (leaf_node s m p f i Hf) in *. destruct (vw_leaf s W m p f i Hf Hp Hi) as [?|[Hpr _]]; [done|]. by rewrite Hpr in H.
Qed.

Lemma query_none s m va :
  vmm_wf s -> map_live s m -> map_owns_pml4_index s m (pml4_index va) = true -> page_ok va = true ->
  vmm_query_page s m va = None <-> leaf s m (route va) (pt_index va) = 0.
Proof.
  intros W Hl Ho Hp. rewrite query_leaf, Hp by done. apply meaning_none; [done|done|by apply route_owned|done|apply index_mask].
Qed.

(** Every path with a final index is that of a page. *)
Lemma route_surj a b c d :
  index a -> index b -> index c -> index d -> exists va, page va /\ route va = [a; b; c] /\ pt_index va = d.
Proof.
  unfold index. intros Ha Hb Hc Hd. set (top := if 256 <=? a then 65535 else 0).
  assert (0 <= top < 65536) as Ht by (unfold top; destruct (256 <=? a); lia).
  set (va := top * 281474976710656 + a * 549755813888 + b * 1073741824 + c * 2097152 + d * 4096). exists va.
  assert (pml4_index va = a /\ pdpt_index va = b /\ pd_index va = c /\ pt_index va = d) as (E1 & E2 & E3 & E4).
  { unfold pml4_index, pdpt_index, pd_index, pt_index. rewrite !index_div by lia. change (2 ^ 39) with 549755813888.
    change (2 ^ 30) with 1073741824. change (2 ^ 21) with 2097152. change (2 ^ 12) with 4096.
    unfold va. clearbody top. split_and!; Z.to_euclidean_division_equations; lia. }
  unfold route. rewrite E1, E2, E3, E4. split; [|done]. unfold page, is_u64, page_aligned, virtual_address_canonical.
  change (VM_PAGE_SIZE - 1) with (Z.ones 12). change 1 with (Z.ones 1). rewrite !Z.land_ones, !Z.shiftr_div_pow2 by lia.
  change (2 ^ 48) with 281474976710656. change (2 ^ 47) with 140737488355328. change (2 ^ 12) with 4096. change (2 ^ 1) with 2.
  change (2 ^ 64) with 18446744073709551616.
  assert (va / 281474976710656 = top) as -> by (unfold va; clearbody top; Z.to_euclidean_division_equations; lia).
  split_and!.
  - unfold va. lia.
  - unfold va. lia.
  - apply Z.eqb_eq. unfold va. clearbody top. Z.to_euclidean_division_equations. lia.
  - assert ((va / 140737488355328) mod 2 = a / 256) as -> by (unfold va; clearbody top; Z.to_euclidean_division_equations; lia).
    unfold top. destruct (Z.leb_spec 256 a) as [Hs|Hs].
    + replace (a / 256) with 1 by (Z.to_euclidean_division_equations; lia). done.
    + replace (a / 256) with 0 by (Z.to_euclidean_division_equations; lia). done.
Qed.

(** * Maps that an operation does not touch *)

(** The table below an entry of a live root belongs to the map itself or to a map
    that shares it. *)
Lemma top_node s a i g :
  vmm_wf s -> map_live s a -> index i -> existing_table s (root s a) i = Some g ->
  exists x, node s x [i] g /\ (x = a \/ shared_source (pmap s x) = true).
Proof.
  intros W Hl Hi He. destruct (map_owns_pml4_index s a i) eqn:Ho.
  - exists a. split; [|by left]. apply (node_child s a [] (root s a)); [by apply root_node|cbn; lia|by split|done].
  - destruct (vw_shared s W a i Hl Hi Ho) as [H0|(x & h & _ & Hs & Hn & Hx)]; [by rewrite existing_target, H0, target_0 in He|].
    exists x. split; [congruence|by right].
Qed.

(** A query reads only tables of the map and of maps that share theirs, and of the
    root only the entry of the page. *)
Lemma query_entries s s' a va :
  vmm_wf s -> pmap s' a = pmap s a -> v_use_phys_map s' = v_use_phys_map s ->
  (forall x p f j, node s x p f -> x = a \/ (shared_source (pmap s x) = true /\ p <> []) -> index j ->
     (p = [] -> j = pml4_index va) -> entry s' f j = entry s f j) ->
  vmm_query_page s' a va = vmm_query_page s a va.
Proof.
  intros W Em Eu Ht. unfold vmm_query_page. rewrite Em.
  assert (forall x p f j, node s x p f -> x = a \/ (shared_source (pmap s x) = true /\ p <> []) -> index j ->
    (p = [] -> j = pml4_index va) -> existing_table s' f j = existing_table s f j /\ entry s' f j = entry s f j) as He.
  { intros x p f j Hf Hx Hj Hp. specialize (Ht x p f j Hf Hx Hj Hp). by rewrite !existing_target, Eu, Ht. }
  destruct (!nz a || (root_frame (pmap s a) =? FRAME_INVALID)) eqn:Hl; [done|].
  assert (map_live s a) as Hlive by (apply orb_false_iff in Hl as [H1 H2]; by bool_prop; split; [apply negb_true_iff, Z.eqb_neq|]).
  destruct (!page_aligned va || !virtual_address_canonical va); [done|]. rewrite (aside_pointer s s' _ Eu).
  destruct (table_pointer s (root_frame (pmap s a))) as [pml4|] eqn:Hp; [|done]. apply pointer_self in Hp as ->. cbn [mbind option_bind].
  fold (root s a). destruct (He a [] _ (pml4_index va) (root_node s a Hlive) (or_introl eq_refl) (index_mask _) (fun _ => eq_refl)) as [-> ->].
  destruct (existing_table s (root s a) (pml4_index va)) as [pdpt|] eqn:E1; [|done]. cbn [mbind option_bind].
  destruct (top_node s a _ pdpt W Hlive (index_mask _) E1) as (x & N1 & Hx').
  assert (forall (i : Z) q, x = a \/ (shared_source (pmap s x) = true /\ i :: q <> [])) as Hx by (intros; destruct Hx'; [by left|right; by split]).
  destruct (He x _ pdpt (pdpt_index va) N1 (Hx _ _) (index_mask _) ltac:(done)) as [-> ->].
  destruct (existing_table s pdpt (pdpt_index va)) as [pd|] eqn:E2; [|done]. cbn [mbind option_bind].
  assert (node s x [pml4_index va; pdpt_index va] pd) as N2
    by (apply (node_child s x [pml4_index va] pdpt); [done|cbn; lia|apply slot_below; [done|apply index_mask]|done]).
  destruct (He x _ pd (pd_index va) N2 (Hx _ _) (index_mask _) ltac:(done)) as [-> ->].
  destruct (existing_table s pd (pd_index va)) as [pt|] eqn:E3; [|done]. cbn [mbind option_bind].
  assert (node s x (route va) pt) as N3
    by (apply (node_child s x [pml4_index va; pdpt_index va] pd); [done|cbn; lia|apply slot_below; [done|apply index_mask]|done]).
  by destruct (He x _ pt (pt_index va) N3 (Hx _ _) (index_mask _) ltac:(done)) as [_ ->].
Qed.

Lemma query_tables s s' a va :
  vmm_wf s -> pmap s' a = pmap s a -> v_use_phys_map s' = v_use_phys_map s ->
  (forall x p f, node s x p f -> x = a \/ (shared_source (pmap s x) = true /\ p <> []) -> table_of s' f = table_of s f) ->
  vmm_query_page s' a va = vmm_query_page s a va.
Proof. intros W Em Eu Ht. apply query_entries; try done. intros x p f j Hf Hx _ _. unfold entry. by rewrite (Ht x p f Hf Hx). Qed.

Lemma query_other m s s' a va :
  vmm_wf s -> keeps m s s' -> shared_source (pmap s m) = false -> a <> m -> vmm_query_page s' a va = vmm_query_page s a va.
Proof.
  intros W K Hsh Ha. apply query_tables; [done|apply aside_pmap, K|apply K|]. intros x p f Hf Hx.
  apply (kp_other _ _ _ K x p f); [|done]. intros ->. destruct Hx as [|[]]; congruence.
Qed.

Lemma query_aside s s' a va : vmm_wf s -> aside s s' -> vmm_query_page s' a va = vmm_query_page s a va.
Proof. intros W H. apply query_tables; [done|apply aside_pmap, H|apply H|]. intros x p f Hf _. by apply (as_table s s' H x p). Qed.

(** * The processor's cache *)

(** Everything cached of the active map is what its tables say. *)
Definition coherent (s : Vmm) : Prop :=
  forall a va x, map_active s a = true -> c_tlb (v_cpu s) !! va = Some x -> vmm_query_page s a va = Some x.

Lemma active_live s a : map_active s a = true -> map_live s a.
Proof. unfold map_active. intros H. do 2 (apply andb_true_iff in H as [H ?]). split; [done|by bool_prop]. Qed.

(** An operation of the map that flushes when the map is active. *)
Definition acts (m : Z) (s s' : Vmm) : Prop := exists s1, keeps m s s1 /\ s' = flush_active_map m s1.

Lemma cpu_aside s c : aside s (s <| v_cpu := c |>).
Proof. done. Qed.

Lemma cpu_wf s c : vmm_wf s -> vmm_wf (s <| v_cpu := c |>).
Proof. intros W. apply (aside_wf s _ W (cpu_aside s c)); [apply W|intros m p f Hf; by eapply (vw_table s W)|intros Hv; by apply (vw_unlinked s W)]. Qed.

Lemma flush_cpu m s : exists c, flush_active_map m s = s <| v_cpu := c |> /\ c_cr3 c = c_cr3 (v_cpu s) /\
  c_tlb c = if map_active s m then ∅ else c_tlb (v_cpu s).
Proof.
  unfold flush_active_map. destruct (map_active s m); [by eexists|]. exists (v_cpu s). split; [by destruct s|done].
Qed.

Lemma cpu_query s c a va : vmm_query_page (s <| v_cpu := c |>) a va = vmm_query_page s a va.
Proof. done. Qed.

Lemma cpu_pool s c f : pool (s <| v_cpu := c |>) f <-> pool s f.
Proof. unfold pool. by setoid_rewrite (fun m p => aside_node s _ m p f (cpu_aside s c)). Qed.

Lemma coherent_acts m s s' :
  vmm_wf s -> coherent s -> acts m s s' -> (shared_source (pmap s m) = true -> map_active s m = true) -> coherent s'.
Proof.
  intros W Hc (s1 & K & ->) Hsh. destruct (flush_cpu m s1) as (c & -> & Hcr & Htlb). intros a va x Ha Hx.
  rewrite cpu_query. change (c_tlb c !! va = Some x) in Hx. rewrite Htlb, (keeps_active m s s1 m K) in Hx.
  destruct (map_active s m) eqn:Hm; [done|].
  assert (map_active s a = true) as Ha'.
  { rewrite <- (keeps_active m s s1 a K). unfold map_active in Ha |- *. change (c_cr3 (v_cpu (s1 <| v_cpu := c |>))) with (c_cr3 c) in Ha.
    by rewrite Hcr in Ha. }
  rewrite (query_other m s s1 a va W K); [apply Hc; [done|by rewrite <- (kp_cpu _ _ _ K)]| |].
  - destruct (shared_source (pmap s m)); [|done]. by specialize (Hsh eq_refl).
  - intros ->. congruence.
Qed.

Lemma flush_stay m s : stay s (flush_active_map m s).
Proof. intros m' p f Hf. destruct (flush_cpu m s) as (c & -> & _). by apply (aside_node s _ m' p f (cpu_aside s c)). Qed.

(** * Mapping a page *)

(** Frames are conserved and the owner relation stays. *)
Record moved (s s' : Vmm) : Prop := {
  mv_wf : vmm_wf s';
  mv_maps : v_maps s' = v_maps s;
  mv_pool : forall f, pool s' f <-> pool s f;
  mv_frames : same_frames (v_pmm s) (v_pmm s');
  mv_active : forall a, map_active s' a = map_active s a;
  mv_quiet : no_faults s -> no_faults s';
  mv_modes : v_nx_enabled s' = v_nx_enabled s /\ v_use_phys_map s' = v_use_phys_map s /\ profile_supported s' = profile_supported s /\
    c_cr3 (v_cpu s') = c_cr3 (v_cpu s) }.

Lemma flush_profile m s : profile_supported (flush_active_map m s) = profile_supported s.
Proof. unfold flush_active_map. by destruct (map_active s m). Qed.

Lemma acts_moved m s s' : acts m s s' -> moved s s'.
Proof.
  intros (s1 & K & ->). pose proof (flush_profile m s1) as Hpr. destruct (flush_cpu m s1) as (c & E & Hcr & _). rewrite E in *.
  split; [apply cpu_wf, K|apply K| |apply K| |apply K|].
  - intros f. by rewrite cpu_pool, (kp_pool _ _ _ K f).
  - intros a. rewrite <- (keeps_active m s s1 a K). unfold map_active. change (c_cr3 (v_cpu (s1 <| v_cpu := c |>))) with (c_cr3 c). by rewrite Hcr.
  - split_and!; [apply K|apply K| |].
    + rewrite Hpr. unfold profile_supported. by rewrite (kp_cpu _ _ _ K).
    + rewrite <- (kp_cpu _ _ _ K). exact Hcr.
Qed.

Lemma moved_refl s : vmm_wf s -> moved s s.
Proof. by split. Qed.

(** The pages of all maps in their own ranges, after a change of one leaf. *)
Definition maps_as (s s' : Vmm) (m va : Z) (x : option (Z * Z)) : Prop :=
  forall m' va', page va' -> map_owns_pml4_index s m' (pml4_index va') = true -> map_live s m' ->
    vmm_query_page s' m' va' = if decide (m' = m /\ va' = va) then x else vmm_query_page s m' va'.

Lemma page_page_ok va : page va -> page_ok va = true.
Proof. intros (_ & H1 & H2). unfold page_ok. by rewrite H1, H2. Qed.

Lemma maps_as_set s s' m va e :
  vmm_wf s -> vmm_wf s' -> v_maps s' = v_maps s -> page va -> leaves_set s s' m (route va) (pt_index va) e ->
  maps_as s s' m va (meaning e).
Proof.
  intros W W' Em Hp Hs m' va' Hp' Ho Hl.
  rewrite !query_leaf by (done || by apply (aside_live s s') || by rewrite (aside_owns s s')).
  rewrite (page_page_ok va' Hp'), (Hs m' (route va') (pt_index va') Hl (route_owned s m' va' Ho) eq_refl (index_mask _)).
  case_decide as E1; case_decide as E2; try done.
  - destruct E1 as (-> & E3 & E4). destruct E2. split; [done|]. by apply route_inj.
  - destruct E2 as [-> ->]. by destruct E1.
Qed.

Lemma maps_as_same s s' m va :
  vmm_wf s -> vmm_wf s' -> v_maps s' = v_maps s -> same_leaves s s' -> maps_as s s' m va (vmm_query_page s m va).
Proof.
  intros W W' Em Hs m' va' Hp' Ho Hl. assert (vmm_query_page s' m' va' = vmm_query_page s m' va') as ->.
  { rewrite !query_leaf by (done || by apply (aside_live s s') || by rewrite (aside_owns s s')).
    by rewrite (Hs m' (route va') (pt_index va') Hl (route_owned s m' va' Ho) eq_refl (index_mask _)). }
  case_decide as E; [|done]. by destruct E as [-> ->].
Qed.

(** The checks of a mapping, read as propositions. *)
Lemma map_allowed_inv s m va frame flags :
  map_page_allowed s m va frame flags = true ->
  map_live s m /\ map_owns_pml4_index s m (pml4_index va) = true /\ page_ok va = true /\ valid_mapping_frame frame = true /\
  Z.land flags (u64 (Z.lnot VM_FLAGS_ALL)) = 0 /\ has flags VM_DEVICE && has flags VM_UNCACHED = false /\
  (shared_source (pmap s m) = true -> map_active s m = true).
Proof.
  unfold map_page_allowed. intros H.
  destruct (!nz m || (root_frame (pmap s m) =? FRAME_INVALID) || destroy_pending (pmap s m)) eqn:E1; [done|].
  destruct (shared_source (pmap s m) && !map_active s m) eqn:E2; [done|].
  destruct (!page_aligned va || !virtual_address_canonical va) eqn:E3; [done|].
  destruct (valid_mapping_frame frame); [|done]. destruct (v_nx_enabled s); [|done].
  destruct (nz (Z.land flags (u64 (Z.lnot VM_FLAGS_ALL)))) eqn:E4; [done|].
  destruct (has flags VM_DEVICE && (has flags VM_UNCACHED || !vmm_device_memory_supported s)) eqn:E5; [done|]. cbn [negb] in H.
  apply orb_false_iff in E1 as [E1 _]. apply orb_false_iff in E1 as [E1 E1']. apply negb_false_iff in E1.
  apply orb_false_iff in E3 as [E3 E3']. apply negb_false_iff in E3, E3'.
  split_and!; try done; [split; [done|by bool_prop]|unfold page_ok; by rewrite E3, E3'|by bool_prop| |].
  - destruct (has flags VM_DEVICE); [|done]. cbn [andb] in *. by apply orb_false_iff in E5 as [-> _].
  - intros Hs. rewrite Hs in E2. by apply negb_false_iff in E2.
Qed.

Lemma flags_small flags : is_u64 flags -> Z.land flags (u64 (Z.lnot VM_FLAGS_ALL)) = 0 -> 0 <= flags < 32.
Proof.
  intros Hf H. rewrite <- (land_lnot_0 flags VM_FLAGS_ALL Hf H). change VM_FLAGS_ALL with (Z.ones 5).
  rewrite Z.land_ones by lia. apply (Z.mod_pos_bound flags 32). lia.
Qed.

Lemma page_ok_page va : is_u64 va -> page_ok va = true -> page va.
Proof. unfold page_ok. intros Hu H. by apply andb_true_iff in H as [H1 H2]. Qed.

Lemma map_page_call m va frame flags s :
  vmm_wf s -> is_u64 va -> is_u64 frame -> is_u64 flags ->
  let '(b, s') := vmm_map_page m va frame flags s in
  moved s s' /\
  maps_as s s' m va (if (b : bool) then Some (frame, flags) else vmm_query_page s m va) /\
  (b = true -> map_page_allowed s m va frame flags = true /\ vmm_query_page s m va = None) /\
  (profile_supported s = true -> map_page_allowed s m va frame flags = true -> vmm_query_page s m va = None -> supply 3 s -> b = true) /\
  (coherent s -> coherent s') /\ (b = true -> forall n, supply (3 + n) s -> supply n s') /\
  (map_active s m = true -> stay s s') /\ (b = true -> has_tables s' m va) /\
  (profile_supported s = true -> map_page_allowed s m va frame flags = true -> vmm_query_page s m va = None -> has_tables s m va -> b = true).
Proof.
  intros W Hva Hfr Hfl. unfold vmm_map_page. destruct (profile_supported s) eqn:Hp.
  2: { rewrite Hp. split_and!; [by apply moved_refl|by apply maps_as_same|done|done|done|done|by intros _ ???|done|done]. }
  unfold map_page_locked. destruct (map_page_allowed s m va frame flags) eqn:Ha; cbn [negb].
  2: { rewrite Hp. assert (acts m s (flush_active_map m s)) as A by (exists s; split; [by apply vmm_keeps_refl|done]).
       pose proof (acts_moved m s _ A) as Mv. destruct (flush_cpu m s) as (c & E & Hcr & Htlb).
       split_and!; [done|apply maps_as_same; [done|apply Mv|apply Mv|]|done|done| |done|intros _; by apply flush_stay|done|done].
       - rewrite E. intros m' p i Hl Ho _ _. apply aside_leaf; [apply cpu_aside|done|done].
       - intros Hc. rewrite E. intros a y x Hact Hx. rewrite cpu_query. change (c_tlb c !! y = Some x) in Hx. rewrite Htlb in Hx.
         destruct (map_active s m) eqn:Hm; [done|]. apply Hc; [|done]. unfold map_active in *.
         change (c_cr3 (v_cpu (s <| v_cpu := c |>))) with (c_cr3 c) in Hact. by rewrite Hcr in Hact. }
  destruct (map_allowed_inv s m va frame flags Ha) as (Hl & Ho & Hpg & Hv & Hf0 & Hd & Hsh).
  pose proof (flags_small flags Hfl Hf0) as Hsm. pose proof (page_ok_page va Hva Hpg) as Hpage.
  pose proof (map_tables_call m va frame flags s W Hl Ho (proj1 Hfr) Hv Hsm) as Hc.
  destruct (map_page_tables m va frame flags s) as [b s1]. destruct Hc as (K & Hst & Hc).
  assert (profile_supported s1 = true) as -> by (unfold profile_supported in *; by rewrite (kp_cpu _ _ _ K)).
  assert (acts m s (flush_active_map m s1)) as A by (by exists s1). pose proof (acts_moved m s _ A) as Mv.
  assert (forall x, maps_as s s1 m va x -> maps_as s (flush_active_map m s1) m va x) as Hfm.
  { intros x H m' va' H1 H2 H3. destruct (flush_cpu m s1) as (c & -> & _). rewrite cpu_query. by apply H. }
  assert (stay s1 (flush_active_map m s1)) as Hfl' by apply flush_stay.
  split_and!; [done| | | |intros Hco; by apply (coherent_acts m s)| |intros Hact; eapply stay_trans; [by apply Hst|done]| |].
  5: { intros ->. destruct Hc as (_ & _ & _ & [f Hf]). exists f. by apply Hfl'. }
  5: { intros _ _ Hq Ht. destruct b; [done|]. destruct Hc as [_ Hc]. destruct Hc as [_ []]; [by apply query_none|done]. }
  4: { intros -> n Hn. destruct Hc as (_ & _ & Hc & _). destruct (flush_cpu m s1) as (c & -> & _). by destruct (Hc n Hn); split. }
  - apply Hfm. destruct b; [destruct Hc as (Hc1 & Hc2 & _)|destruct Hc as [Hc1 Hc2]]; [|by apply maps_as_same; [done|apply K|apply K|]].
    pose proof (maps_as_set s s1 m va _ W (kp_wf _ _ _ K) (kp_maps _ _ _ K) Hpage Hc2) as Hm.
    destruct (leaf_entry_ok frame flags (proj1 Hfr) Hv Hsm) as ((Lp & _) & _ & Le). unfold meaning in Hm.
    by rewrite Lp, Le, (perms_leaf_entry frame flags (proj1 Hfr) Hv Hsm Hd) in Hm.
  - intros ->. split; [done|]. apply query_none; try done. apply Hc.
  - intros _ _ Hq Hsu. destruct b; [done|]. destruct Hc as [_ Hc]. destruct Hc as [[] _]; [by apply query_none|done].
Qed.
