(* ===== verification/VmmUnmap.v ===== *)
(** Removing a page and changing its write permission. *)

From S2P Require Import Prelude Pmm PmmProofs PmmRefine Frames Vmm.
From S2P Require Import VmmWf VmmEdit VmmOps VmmMap VmmCalls.

Open Scope jcos_scope.

(** * The walk to a page table *)

Lemma page_chain s m va :
  vmm_wf s -> map_live s m -> map_owns_pml4_index s m (pml4_index va) = true ->
  let chain := pml4 ← table_pointer s (root_frame (pmap s m));
               pdpt ← existing_table s pml4 (pml4_index va);
               pd ← existing_table s pdpt (pdpt_index va);
               pt ← existing_table s pd (pd_index va);
               Some (pml4, pdpt, pd, pt) in
  (chain = None /\ leaf s m (route va) (pt_index va) = 0) \/
  exists pdpt pd pt, chain = Some (root s m, pdpt, pd, pt) /\ node s m [pml4_index va] pdpt /\
    node s m [pml4_index va; pdpt_index va] pd /\ node s m (route va) pt.
Proof.
  intros W Hl Ho chain. pose proof (root_node s m Hl) as N0. destruct (vw_table s W m [] _ N0) as (_ & _ & Hp).
  unfold chain. fold (root s m). rewrite Hp. cbn [mbind option_bind]. unfold leaf, route. cbn [walk].
  destruct (existing_table s (root s m) (pml4_index va)) as [pdpt|] eqn:E1; [|by left]. cbn [mbind option_bind].
  assert (node s m [pml4_index va] pdpt) as N1
    by (apply (node_child s m [] (root s m)); [done|cbn; lia|split; [apply index_mask|done]|done]).
  destruct (existing_table s pdpt (pdpt_index va)) as [pd|] eqn:E2; [|by left]. cbn [mbind option_bind].
  assert (node s m [pml4_index va; pdpt_index va] pd) as N2
    by (apply (node_child s m [pml4_index va] pdpt); [done|cbn; lia|apply slot_below; [done|apply index_mask]|done]).
  destruct (existing_table s pd (pd_index va)) as [pt|] eqn:E3; [|by left]. cbn [mbind option_bind].
  right. exists pdpt, pd, pt. split_and!; try done.
  apply (node_child s m [pml4_index va; pdpt_index va] pd); [done|cbn; lia|apply slot_below; [done|apply index_mask]|done].
Qed.

(** * Pruning *)

Lemma prune_call m va pdpt pd pt s :
  vmm_wf s -> map_live s m -> map_owns_pml4_index s m (pml4_index va) = true -> node s m [pml4_index va] pdpt ->
  node s m [pml4_index va; pdpt_index va] pd ->
  let s' := prune_tables m (root s m) (pml4_index va) pdpt (pdpt_index va) pd (pd_index va) pt s in
  (keeps m s s' /\ same_leaves s s') /\ (map_active s m = true -> s' = s).
Proof.
  intros W Hl Ho N1 N2 s'. split; [|intros Ha; unfold s', prune_tables; by rewrite Ha].
  unfold s', prune_tables. destruct (!map_active s m && !shared_source (pmap s m) && table_empty s pt) eqn:Hc;
    [|split; [by apply vmm_keeps_refl|done]].
  apply andb_true_iff in Hc as [Hc _]. apply andb_true_iff in Hc as [_ Hsh]. apply negb_true_iff in Hsh.
  pose proof (root_node s m Hl) as N0.
  pose proof (release_call m _ pd (pd_index va) s W N2 (slot_below _ _ _ _ (fun E => nil_cons (eq_sym E)) (index_mask _)) ltac:(cbn; lia) Hsh) as H1.
  destruct (release_empty_child m pd (pd_index va) s) as [b1 s1]. destruct H1 as [K1 L1 St1 _ _ _].
  destruct b1; cbn [negb]; [|done]. destruct (table_empty s1 pd); [|done].
  assert (shared_source (pmap s1 m) = false) as Hsh1 by (by rewrite (aside_pmap s s1 m (kp_maps _ _ _ K1))).
  assert (node s1 m [pml4_index va] pdpt) as N1' by (apply St1; [done|intros (_ & _ & E); done]).
  assert (node s1 m [] (root s m)) as N0' by (apply St1; [done|intros (_ & _ & E); done]).
  pose proof (release_call m _ pdpt (pdpt_index va) s1 (kp_wf _ _ _ K1) N1' (slot_below _ _ _ _ (fun E => nil_cons (eq_sym E)) (index_mask _))
    ltac:(cbn; lia) Hsh1) as H2.
  destruct (release_empty_child m pdpt (pdpt_index va) s1) as [b2 s2]. destruct H2 as [K2 L2 St2 _ _ _].
  pose proof (vmm_keeps_trans m s s1 s2 K1 K2) as K12. pose proof (leaves_trans s s1 s2 (kp_maps _ _ _ K1) L1 L2) as L12.
  destruct b2; cbn [negb]; [|done]. destruct (table_empty s2 pdpt); [|done].
  assert (node s2 m [] (root s m)) as N0'' by (apply St2; [done|intros (_ & _ & E); done]).
  pose proof (release_call m [] (root s m) (pml4_index va) s2 (kp_wf _ _ _ K2) N0'') as H3.
  destruct (release_empty_child m (root s m) (pml4_index va) s2) as [b3 s3]. cbn [snd].
  destruct H3 as [K3 L3 _ _ _ _]; [split; [apply index_mask|intros _; by rewrite (aside_owns s s2 m _ (kp_maps _ _ _ K12))]|cbn; lia|
    by rewrite (aside_pmap s s2 m (kp_maps _ _ _ K12))|].
  split; [by eapply vmm_keeps_trans|eapply leaves_trans; [apply K12|done|done]].
Qed.

(** * Unmapping *)

(** The checks of [unmap_page_locked] that do not look at the page. *)
Definition change_allowed (s : Vmm) (m va : Z) : bool :=
  let x := pmap s m in
  profile_supported s && nz m && (root_frame x != FRAME_INVALID) && !destroy_pending x
  && !(shared_source x && !map_active s m) && page_ok va && map_owns_pml4_index s m (pml4_index va).

Lemma change_allowed_inv s m va :
  change_allowed s m va = true ->
  map_live s m /\ map_owns_pml4_index s m (pml4_index va) = true /\ page_ok va = true /\ profile_supported s = true /\
  destroy_pending (pmap s m) = false /\ (shared_source (pmap s m) = true -> map_active s m = true).
Proof.
  unfold change_allowed. intros H. do 6 (apply andb_true_iff in H as [H ?]). apply negb_true_iff in H2, H3, H4. bool_prop.
  split_and!; try done; [split; [by apply negb_true_iff, Z.eqb_neq|by bool_prop]|]. intros Hs. rewrite Hs in H2. by apply negb_false_iff in H2.
Qed.

Lemma flush_keeps_acts m s s1 s2 :
  keeps m s s1 -> keeps m (flush_active_map m s1) s2 -> (map_active s1 m = true -> s2 = flush_active_map m s1) -> acts m s s2.
Proof.
  intros K1 K2 Ha. destruct (map_active s1 m) eqn:Hm.
  - exists s1. split; [done|by apply Ha].
  - unfold flush_active_map in K2. rewrite Hm in K2. exists s2. split; [by eapply vmm_keeps_trans|].
    unfold flush_active_map. by rewrite (keeps_active m s1 s2 m K2), Hm.
Qed.

Lemma unmap_allowed m va s pdpt pd pt :
  vmm_wf s -> is_u64 va -> change_allowed s m va = true -> node s m [pml4_index va] pdpt ->
  node s m [pml4_index va; pdpt_index va] pd -> node s m (route va) pt ->
  let s1 := flush_active_map m (set_entry pt (pt_index va) 0 s) in
  let s' := prune_tables m (root s m) (pml4_index va) pdpt (pdpt_index va) pd (pd_index va) pt s1 in
  acts m s s' /\ maps_as s s' m va None /\ (map_active s m = true -> stay s s').
Proof.
  intros W Hva Ha N1 N2 N3 s1 s'. destruct (change_allowed_inv s m va Ha) as (Hl & Ho & Hpg & _ & _ & Hsh).
  destruct (leaf_write_keeps s m (route va) pt (pt_index va) 0 W N3 eq_refl (index_mask _) (or_introl eq_refl)) as [K0 S0];
    [by rewrite has_0|]. set (s0 := set_entry pt (pt_index va) 0 s) in *.
  destruct (flush_cpu m s0) as (c & Ef & _). unfold s1 in *. clear s1.
  pose proof (written_nodes_same s W m (route va) pt (pt_index va) 0 N3 (slot_below _ _ _ _ (fun E => nil_cons (eq_sym E)) (index_mask _))) as Hn.
  assert (forall p f, node s m p f -> node (flush_active_map m s0) m p f) as Hst.
  { intros p f Hf. rewrite Ef. apply (aside_node s0 _ m p f (cpu_aside s0 c)). apply Hn; [by left|done]. }
  assert (vmm_wf (flush_active_map m s0)) as Wf by (rewrite Ef; apply cpu_wf, K0).
  assert (root (flush_active_map m s0) m = root s m) as Er by (by rewrite Ef).
  destruct (prune_call m va pdpt pd pt (flush_active_map m s0) Wf) as [[K2 L2] Hact]; [by rewrite Ef|by rewrite Ef|by apply Hst|by apply Hst|].
  rewrite Er in K2, L2, Hact. fold s' in K2, L2, Hact.
  assert (map_active s0 m = true -> s' = flush_active_map m s0) as Hact'.
  { intros Hm. apply Hact. rewrite Ef. unfold map_active in *.
    destruct (flush_cpu m s0) as (c' & Ef' & Hcr & _). rewrite Ef in Ef'. assert (c = c') as -> by (by apply (f_equal v_cpu) in Ef').
    change (c_cr3 (v_cpu (s0 <| v_cpu := c' |>))) with (c_cr3 c'). by rewrite Hcr. }
  split_and!.
  3: { intros Hm. rewrite Hact' by (by rewrite (keeps_active m s s0 m K0)). eapply stay_trans; [|apply flush_stay].
       intros m' p' g Hg. by apply Hn; [left|]. }
  - by apply (flush_keeps_acts m s s0 s' K0 K2).
  - rewrite <- meaning_0. apply maps_as_set; [done|apply K2| |by apply page_ok_page|].
    + rewrite (kp_maps _ _ _ K2), Ef. done.
    + intros m' p' j Hl' Ho' Hp' Hj. rewrite (L2 m' p' j); [|by rewrite Ef|by rewrite Ef|done|done]. rewrite Ef.
      rewrite (aside_leaf s0 _ m' p' j (cpu_aside s0 c)); [|done|done]. by apply S0.
Qed.

Lemma unmap_call m va s :
  vmm_wf s -> is_u64 va ->
  let '(r, s') := vmm_unmap_page m va s in
  r = (if change_allowed s m va then fst <$> vmm_query_page s m va else None) /\ (r = None -> s' = s) /\
  moved s s' /\ maps_as s s' m va (if r then None else vmm_query_page s m va) /\ (coherent s -> coherent s') /\
  (map_active s m = true -> stay s s').
Proof.
  intros W Hva. unfold vmm_unmap_page, unmap_page_locked.
  assert (forall b : bool, b = false -> (if b then fst <$> vmm_query_page s m va else None) = None) as Hno by (by intros b ->).
  assert (moved s s /\ maps_as s s m va (vmm_query_page s m va)) as [M0 Q0] by (split; [by apply moved_refl|by apply maps_as_same]).
  destruct (change_allowed s m va) eqn:Ha.
  2: { unfold change_allowed, page_ok in Ha. destruct (profile_supported s); [|by split_and!]. cbn [andb] in Ha.
       destruct (nz m); cbn [negb orb andb] in *; [|by split_and!].
       destruct (root_frame (pmap s m) =? FRAME_INVALID); cbn [negb orb andb] in *; [by split_and!|].
       destruct (destroy_pending (pmap s m)); cbn [negb orb andb] in *; [by split_and!|].
       destruct (shared_source (pmap s m) && !map_active s m); cbn [negb orb andb] in *; [by split_and!|].
       destruct (page_aligned va), (virtual_address_canonical va); cbn [negb orb andb] in *; try (by split_and!).
       rewrite Ha. by split_and!. }
  destruct (change_allowed_inv s m va Ha) as (Hl & Ho & Hpg & Hp & Hd & Hsh). rewrite Hp. pose proof Hl as [Hz Hr]. rewrite Hz, Hd, Ho.
  rewrite (proj2 (Z.eqb_neq _ _) Hr). cbn [negb orb]. pose proof Hpg as Hpg'. unfold page_ok in Hpg'. apply andb_true_iff in Hpg' as [-> ->].
  cbn [negb orb].
  assert (shared_source (pmap s m) && !map_active s m = false) as ->
    by (destruct (shared_source (pmap s m)); [by rewrite Hsh|done]).
  rewrite (query_leaf s m va W Hl Ho), Hpg.
  destruct (page_chain s m va W Hl Ho) as [[-> Hz0]|(pdpt & pd & pt & -> & N1 & N2 & N3)].
  - rewrite Hz0, meaning_0. cbn. rewrite (query_leaf s m va W Hl Ho), Hpg, Hz0, meaning_0 in Q0. by split_and!.
  - rewrite (leaf_node s m (route va) pt _ N3). set (e := entry s pt (pt_index va)).
    rewrite (query_leaf s m va W Hl Ho), Hpg, (leaf_node s m (route va) pt _ N3) in Q0. fold e in Q0. unfold meaning in *.
    destruct (vw_leaf s W m (route va) pt (pt_index va) N3 eq_refl (index_mask _)) as [E0|(P1 & P2 & _)]; fold e in E0 || fold e in P1, P2.
    + rewrite E0, !has_0 in *. cbn. by split_and!.
    + rewrite P1, P2 in *. cbn [negb orb].
      destruct (unmap_allowed m va s pdpt pd pt W Hva Ha N1 N2 N3) as (A & M & Hst). split_and!; try done; [by eapply acts_moved|].
      intros Hc. by apply (coherent_acts m s).
Qed.

(** * Write permission *)

Lemma writable_form e (w : bool) :
  let e' := if w then Z.lor e PTE_WRITE else Z.land e (u64 (Z.lnot PTE_WRITE)) in
  entry_frame e' = entry_frame e /\ has e' PTE_USER = has e PTE_USER /\ has e' PTE_PRESENT = has e PTE_PRESENT /\
  has e' PTE_GLOBAL = has e PTE_GLOBAL /\ has e' PTE_HUGE = has e PTE_HUGE /\ has e' PTE_NX = has e PTE_NX /\ has e' PTE_WRITE = w /\
  Z.land e' (Z.lor PTE_PCD PTE_PWT) = Z.land e (Z.lor PTE_PCD PTE_PWT).
Proof.
  intros e'. unfold e', PTE_USER, PTE_PRESENT, PTE_GLOBAL, PTE_HUGE, PTE_NX, entry_frame. destruct w; unfold PTE_WRITE.
  - rewrite !has_lor by lia. rewrite !Z.land_lor_distr_l.
    split_and!; [by rewrite Z.lor_0_r|by rewrite orb_false_r..|by rewrite orb_true_r|by rewrite Z.lor_0_r].
  - rewrite !has_land by lia. rewrite <- !Z.land_assoc. by rewrite !andb_true_r, andb_false_r.
Qed.

Definition write_flag (flags : Z) (w : bool) : Z := if w then Z.lor flags VM_WRITE else Z.land flags (Z.lnot VM_WRITE).

Lemma perms_writable e (w : bool) :
  perms (if w then Z.lor e PTE_WRITE else Z.land e (u64 (Z.lnot PTE_WRITE))) = write_flag (perms e) w.
Proof.
  destruct (writable_form e w) as (_ & E1 & _ & _ & _ & E2 & E3 & E4). rewrite !perms_bits, E1, E2, E3, E4. unfold perms_of, write_flag.
  by destruct w, (has e PTE_WRITE), (has e PTE_USER), (has e PTE_NX), (Z.land e (Z.lor PTE_PCD PTE_PWT) =? Z.lor PTE_PCD PTE_PWT),
    (nz (Z.land (Z.land e (Z.lor PTE_PCD PTE_PWT)) PTE_PCD)).
Qed.

Lemma perms_exec e : has (perms e) VM_EXEC = negb (has e PTE_NX).
Proof.
  rewrite perms_bits. unfold perms_of.
  by destruct (has e PTE_WRITE), (has e PTE_USER), (has e PTE_NX), (Z.land e (Z.lor PTE_PCD PTE_PWT) =? Z.lor PTE_PCD PTE_PWT),
    (nz (Z.land (Z.land e (Z.lor PTE_PCD PTE_PWT)) PTE_PCD)).
Qed.

Lemma writable_walk_chain s m va pdpt pd pt :
  vmm_wf s -> map_live s m -> map_owns_pml4_index s m (pml4_index va) = true -> node s m [pml4_index va] pdpt ->
  node s m [pml4_index va; pdpt_index va] pd -> node s m (route va) pt ->
  (table ← table_pointer s (root_frame (pmap s m)); writable_walk s table (route va)) = Some pt.
Proof.
  intros W Hl Ho N1 N2 N3. pose proof (root_node s m Hl) as N0. destruct (vw_table s W m [] _ N0) as (_ & _ & Hp).
  fold (root s m). rewrite Hp. cbn [mbind option_bind]. unfold route. cbn [writable_walk].
  assert (forall p f i g, node s m p f -> node s m (p ++ [i]) g -> existing_table s f i = Some g /\ has (entry s f i) PTE_WRITE = true) as Hs.
  { intros p f i g Hf Hg. destruct (node_parent s m p i g Hg) as (f' & Hf' & He & Hs & Hlt). rewrite (node_fun s m p f f' Hf Hf').
    split; [done|]. destruct (vw_link s W m p f' i Hf' Hlt Hs) as [H0|(_ & H1 & _)]; [|done]. by rewrite existing_target, H0, target_0 in He. }
  destruct (Hs [] _ _ _ N0 N1) as [-> ->]. cbn [negb mbind option_bind]. destruct (Hs [pml4_index va] _ _ _ N1 N2) as [-> ->].
  cbn [negb mbind option_bind]. destruct (Hs [pml4_index va; pdpt_index va] _ _ _ N2 N3) as [-> ->]. done.
Qed.

(** What [vmm_set_writable] demands. *)
Definition writable_allowed (s : Vmm) (m va expected flags : Z) : Prop :=
  change_allowed s m va = true /\ vmm_query_page s m va = Some (expected, flags) /\ has flags VM_EXEC = false /\
  (has flags VM_DEVICE = true -> vmm_device_memory_supported s = true).

Lemma set_writable_allowed m va expected flags w s :
  vmm_wf s -> is_u64 va -> writable_allowed s m va expected flags ->
  let '(b, s') := vmm_set_writable m va expected flags w s in
  b = true /\ moved s s' /\ maps_as s s' m va (Some (expected, write_flag flags w)) /\ (coherent s -> coherent s').
Proof.
  intros W Hva (Ha & Hq & Hx & Hdev). destruct (change_allowed_inv s m va Ha) as (Hl & Ho & Hpg & Hp & Hd & Hsh).
  unfold vmm_set_writable. pose proof Hl as [Hz Hr]. rewrite Hp, Hz, Hd, Ho, Hq. pose proof Hpg as Hpg'. unfold page_ok in Hpg'.
  apply andb_true_iff in Hpg' as [-> ->]. cbn [negb orb].
  assert (shared_source (pmap s m) && !map_active s m = false) as ->
    by (destruct (shared_source (pmap s m)); [by rewrite Hsh|done]).
  rewrite !Z.eqb_refl, Hx. cbn [negb orb].
  assert (has flags VM_DEVICE && !vmm_device_memory_supported s = false) as ->
    by (destruct (has flags VM_DEVICE); [by rewrite Hdev|done]).
  rewrite (query_leaf s m va W Hl Ho), Hpg in Hq.
  destruct (page_chain s m va W Hl Ho) as [[_ Hz0]|(pdpt & pd & pt & _ & N1 & N2 & N3)]; [by rewrite Hz0, meaning_0 in Hq|].
  fold (route va). rewrite (writable_walk_chain s m va pdpt pd pt W Hl Ho N1 N2 N3).
  rewrite (leaf_node s m (route va) pt _ N3) in Hq. set (e := entry s pt (pt_index va)) in *. unfold meaning in Hq.
  destruct (vw_leaf s W m (route va) pt (pt_index va) N3 eq_refl (index_mask _)) as [E0|(P1 & P2 & P3)]; fold e in E0 || fold e in P1, P2, P3;
    [by rewrite E0 in Hq|]. rewrite P1 in Hq. injection Hq as Hq1 Hq2.
  rewrite <- Hq2, perms_exec in Hx. apply negb_false_iff in Hx.
  assert (has e (Z.lor PTE_GLOBAL PTE_HUGE) = false) as Hgh.
  { unfold has in *. rewrite Z.land_lor_distr_r. bool_prop. by rewrite P2, P3. }
  rewrite Hgh, Hx. cbn [negb orb]. set (e' := if w then _ else _).
  destruct (writable_form e w) as (F1 & F2 & F3 & F4 & F5 & _). fold e' in F1, F2, F3, F4, F5.
  destruct (leaf_write_keeps s m (route va) pt (pt_index va) e' W N3 eq_refl (index_mask _)) as [K0 S0].
  { right. by split_and!; congruence. }
  { intros Hu q g j r E Hg. rewrite F2 in Hu. by apply (vw_user s W m (route va) pt q g j r (pt_index va) N3 eq_refl (index_mask _) Hu). }
  set (s0 := set_entry pt (pt_index va) e' s) in *.
  assert (acts m s (flush_active_map m s0)) as A by (by exists s0).
  split_and!; [done|by eapply acts_moved| |intros Hc; by apply (coherent_acts m s)].
  pose proof (maps_as_set s s0 m va _ W (kp_wf _ _ _ K0) (kp_maps _ _ _ K0) (page_ok_page va Hva Hpg) S0) as M.
  unfold meaning in M. rewrite F3, P1, F1, Hq1 in M. unfold e' in M. rewrite perms_writable, Hq2 in M.
  intros m' va' H1 H2 H3. destruct (flush_cpu m s0) as (c & -> & _). rewrite cpu_query. by apply M.
Qed.

Lemma set_writable_refused m va expected flags w s :
  (vmm_set_writable m va expected flags w s).1 = true -> writable_allowed s m va expected flags.
Proof.
  unfold vmm_set_writable, writable_allowed, change_allowed, page_ok.
  destruct (profile_supported s), (nz m) eqn:Hz, (destroy_pending (pmap s m)), (page_aligned va) eqn:Hal,
    (virtual_address_canonical va) eqn:Hca, (map_owns_pml4_index s m (pml4_index va)), (shared_source (pmap s m) && !map_active s m);
    cbn [negb orb andb fst]; try done.
  destruct (vmm_query_page s m va) as [[actual perm]|] eqn:Hq; [|done].
  destruct (Z.eqb_spec actual expected) as [->|]; [|done]. destruct (Z.eqb_spec perm flags) as [->|]; [|done]. cbn [negb orb].
  destruct (has flags VM_EXEC); [done|]. cbn [orb].
  destruct (has flags VM_DEVICE && !vmm_device_memory_supported s) eqn:Hd; [done|]. intros _.
  assert (root_frame (pmap s m) <> FRAME_INVALID) as Hr.
  { intros E. unfold vmm_query_page in Hq. by rewrite Hz, E, Z.eqb_refl in Hq. }
  rewrite (proj2 (Z.eqb_neq _ _) Hr). split_and!; try done. intros Hdev. rewrite Hdev in Hd. by apply negb_false_iff in Hd.
Qed.

Lemma set_writable_same m va expected flags w s :
  (vmm_set_writable m va expected flags w s).1 = false -> (vmm_set_writable m va expected flags w s).2 = s.
Proof.
  unfold vmm_set_writable. destruct (_ || _ || _); [done|]. destruct (vmm_query_page s m va) as [[x y]|]; [|done].
  destruct (_ || _ || _); [done|]. destruct (_ ≫= _) as [t|]; [|done]. by destruct (_ || _).
Qed.
