(* ===== verification/VmmLife.v ===== *)
(** Whole trees (the search for leaves and the collection of empty tables) and the
    life of page maps: creation, destruction, sharing, and the quarantine. *)

From S2P Require Import Prelude Pmm PmmProofs PmmRefine Frames Vmm.
From S2P Require Import VmmWf VmmEdit VmmOps VmmMap VmmCalls.

Open Scope jcos_scope.

(** No page is mapped below a path; its last index may be that of a leaf. *)
Definition bare (s : Vmm) (m : Z) (q : list Z) : Prop :=
  forall p j, q `prefix_of` p ++ [j] -> length p = 3%nat -> owned_path s m p -> index j -> leaf s m p j = 0.

Lemma bare_leaf s m p f i : node s m p f -> length p = 3%nat -> index i -> bare s m (p ++ [i]) <-> entry s f i = 0.
Proof.
  intros Hf Hp Hi. split.
  - intros Hb. rewrite <- (leaf_node s m p f i Hf). apply Hb; [done|done|apply Hf|done].
  - intros E p' j [r Er] Hp' Ho Hj.
    assert (r = []) as -> by (destruct r; [done|]; apply (f_equal length) in Er; rewrite !length_app in Er; cbn in Er; lia).
    rewrite app_nil_r in Er. apply app_inj_tail in Er as [-> ->]. by rewrite (leaf_node s m p f i Hf).
Qed.

(** Nothing is mapped below an empty link. *)
Lemma bare_empty s m p f i : vmm_wf s -> node s m p f -> (length p < 3)%nat -> slot s m p i -> entry s f i = 0 -> bare s m (p ++ [i]).
Proof.
  intros W Hf Hp Hs E p' j [r Er] Hp' Ho Hj. apply leaf_none; [apply Hf|done|]. intros g Hg.
  assert (exists r', p' = p ++ i :: r') as [r' ->].
  { destruct r as [|x r _] using rev_ind; [apply (f_equal length) in Er; rewrite app_nil_r, !length_app in Er; cbn in Er; lia|].
    rewrite app_assoc in Er. apply app_inj_tail in Er as [-> _]. exists r. by rewrite <- app_assoc. }
  destruct (node_prefix s m p (i :: r') g Hg) as (f' & Hf' & Hw). rewrite (node_fun s m p f' f Hf' Hf) in Hw. cbn [walk] in Hw.
  by rewrite existing_target, E, target_0 in Hw.
Qed.

(** A table is bare when all of its entries are. *)
Lemma bare_split s m p f :
  node s m p f -> (1 <= length p)%nat -> bare s m p <-> forall k, index k -> bare s m (p ++ [k]).
Proof.
  intros Hf Hp. split.
  - intros Hb k Hk p' j Hpre. apply Hb. etrans; [|exact Hpre]. by apply prefix_app_r.
  - intros Hb p' j [r Er] Hp' Ho Hj. destruct r as [|k r].
    + rewrite app_nil_r in Er. apply (f_equal length) in Er. rewrite length_app in Er. cbn in Er.
      pose proof Hf as (_ & (_ & Hle & _) & _). lia.
    + apply (Hb k); [|by exists r; rewrite <- app_assoc|done|done|done].
      assert (Forall index (p' ++ [j])) as HF by (apply Forall_app; split; [apply Ho|by apply Forall_singleton]).
      rewrite Er in HF. apply Forall_app in HF as [_ HF]. by apply Forall_inv in HF.
Qed.

Lemma bare_same s s' m q : v_maps s' = v_maps s -> map_live s m -> same_leaves s s' -> bare s m q -> bare s' m q.
Proof.
  intros Em Hl Hs Hb p j Hpre Hp Ho Hj. apply (aside_owned s s' m p Em) in Ho. rewrite (Hs m p j Hl Ho Hp Hj). by apply Hb.
Qed.

(** The range of indices of a loop. *)
Lemma elem_of_range first last i : i ∈ seqZ first (last - first) <-> first <= i < last.
Proof. rewrite elem_of_seqZ. lia. Qed.

Lemma link_child s m p f i :
  vmm_wf s -> node s m p f -> (length p < 3)%nat -> slot s m p i -> entry s f i <> 0 ->
  exists c, existing_table s f i = Some c /\ node s m (p ++ [i]) c /\ entry_frame (entry s f i) = c /\
    has (entry s f i) PTE_PRESENT = true /\ has (entry s f i) PTE_HUGE = false /\ c <> f /\ table_pointer s c = Some c.
Proof.
  intros W Hf Hlt Hs Hne. destruct (vw_link s W m p f i Hf Hlt Hs) as [?|([c Hc] & _)]; [done|].
  pose proof Hc as Ht. rewrite existing_target in Ht. destruct (target_frame _ _ _ Ht) as (E1 & E2 & E3). exists c.
  assert (node s m (p ++ [i]) c) as Hn by (by eapply node_child). split_and!; try done.
  - intros ->. destruct (vw_inj s W m (p ++ [i]) m p f Hn Hf) as [_ E]. apply (f_equal length) in E. rewrite length_app in E. cbn in E. lia.
  - by apply (vw_table s W m _ c Hn).
Qed.

(** [tree_has_no_leaves] finds exactly the mapped pages. *)
Lemma no_leaves_spec level s m p f first last :
  vmm_wf s -> node s m p f -> (length p + level = 4)%nat -> (forall i, first <= i < last -> slot s m p i) ->
  tree_has_no_leaves level s f first last = true <-> forall i, first <= i < last -> bare s m (p ++ [i]).
Proof.
  intros W. revert p f first last. induction level as [|level IH]; intros p f first last Hf Hlen Hs.
  { pose proof Hf as (_ & (_ & Hle & _) & _). lia. }
  cbn [tree_has_no_leaves]. destruct (vw_table s W m p f Hf) as (_ & _ & ->). rewrite forallb_forall.
  assert (forall i, first <= i < last ->
    (let e := entry s f i in
     if !nz e then true else if Nat.eqb (S level) 1 || !has e PTE_PRESENT || has e PTE_HUGE then false
     else (entry_frame e != f) && tree_has_no_leaves level s (entry_frame e) 0 PAGE_TABLE_ENTRIES) = true <-> bare s m (p ++ [i])) as Hi.
  { intros i Hr. specialize (Hs i Hr). cbn zeta. destruct (decide (level = 0%nat)) as [->|Hl].
    - rewrite (bare_leaf s m p f i Hf ltac:(lia) (proj1 Hs)). cbn [Nat.eqb orb]. destruct (nz (entry s f i)) eqn:Hz; cbn [negb]; bool_prop; done.
    - assert (length p < 3)%nat as Hlt by lia. destruct (nz (entry s f i)) eqn:Hz; cbn [negb]; bool_prop;
        [|split; [intros _; by eapply bare_empty|done]].
      destruct (link_child s m p f i W Hf Hlt Hs Hz) as (c & _ & Hn & -> & -> & -> & Hcf & _).
      rewrite (proj2 (Z.eqb_neq _ _) Hcf). rewrite (proj2 (Nat.eqb_neq (S level) 1)) by lia. cbn [negb orb andb].
      rewrite (IH (p ++ [i]) c 0 PAGE_TABLE_ENTRIES Hn); [|rewrite length_app; cbn; lia|].
      + rewrite (bare_split s m (p ++ [i]) c Hn ltac:(rewrite length_app; cbn; lia)). done.
      + intros k Hk. apply slot_below; [by destruct p|done]. }
  split.
  - intros H i Hr. apply (Hi i Hr), H. rewrite <- list_elem_of_In. by apply elem_of_range.
  - intros H i Hr. rewrite <- list_elem_of_In in Hr. apply elem_of_range in Hr. by apply (Hi i Hr), H.
Qed.

(** * Collection *)

(** A path below a table, and the paths of a subtree. *)
Definition below (p q : list Z) : Prop := exists i r, q = p ++ i :: r.

(** What collecting the entries [ks] of the table at [p] does. *)
Record collected (m : Z) (p : list Z) (f : Z) (ks : list Z) (s : Vmm) (b : bool) (s' : Vmm) : Prop := {
  cl_keeps : keeps m s s';
  cl_leaves : same_leaves s s';
  cl_stay : forall m' q h, node s m' q h -> ~ (m' = m /\ below p q) -> node s' m' q h;
  cl_table : forall m' q h, node s m' q h -> ~ (m' = m /\ p `prefix_of` q) -> table_of s' h = table_of s h;
  cl_entry : forall j, index j -> j ∉ ks -> entry s' f j = entry s f j;
  cl_zero : (forall i, i ∈ ks -> bare s m (p ++ [i])) -> b = true -> forall i, i ∈ ks -> entry s' f i = 0;
  cl_done : no_faults s -> (forall i, i ∈ ks -> bare s m (p ++ [i])) -> b = true }.

Lemma collected_nil m p f s : vmm_wf s -> collected m p f [] s true s.
Proof. intros W. split; [by apply vmm_keeps_refl|done|done|done|done| |done]. intros _ _ i Hi. by apply not_elem_of_nil in Hi. Qed.

Lemma below_prefix p q : below p q -> p `prefix_of` q.
Proof. intros (i & r & ->). by exists (i :: r). Qed.

Lemma not_below_self p : ~ below p p.
Proof. intros (i & r & E). apply (f_equal length) in E. rewrite length_app in E. cbn in E. lia. Qed.

Lemma collected_cons m p f i ks s s1 b s2 :
  node s m p f -> i ∉ ks -> index i ->
  collected m p f [i] s true s1 -> collected m p f ks s1 b s2 -> collected m p f (i :: ks) s b s2.
Proof.
  intros Hf Hi Hix [K1 L1 St1 T1 E1 Z1 D1] [K2 L2 St2 T2 E2 Z2 D2]. pose proof (kp_maps _ _ _ K1) as Em.
  assert ((forall k, k ∈ i :: ks -> bare s m (p ++ [k])) -> forall k, k ∈ ks -> bare s1 m (p ++ [k])) as Hb2.
  { intros Hb k Hk. apply (bare_same s s1 m _ Em); [apply Hf|done|]. apply Hb. set_solver. }
  split.
  - by eapply vmm_keeps_trans.
  - by eapply leaves_trans.
  - auto.
  - intros m' q h Hh Hne. rewrite (T2 m' q h); [by apply (T1 m' q)| |done]. apply St1; [done|].
    intros [-> Hb]. apply Hne. split; [done|by apply below_prefix].
  - intros j Hj Hni. rewrite E2, E1; [done|done|set_solver|done|set_solver].
  - intros Hb Ht k Hk. apply elem_of_cons in Hk as [->|Hk]; [|by apply Z2; [apply Hb2|..]].
    rewrite E2; [|done|done]. apply Z1; [|done|set_solver]. intros k Hk. apply Hb. set_solver.
  - intros Hq Hb. apply D2; [by apply (kp_quiet _ _ _ K1)|by apply Hb2].
Qed.

(** An interrupted loop. *)
Lemma collected_stop m p f i ks s s1 :
  collected m p f [i] s false s1 -> collected m p f (i :: ks) s false s1.
Proof.
  intros [K1 L1 St1 T1 E1 Z1 D1]. split; [done|done|done|done| |done|].
  - intros j Hj Hni. apply E1; [done|set_solver].
  - intros Hq Hb. apply (D1 Hq). intros k Hk. apply Hb. set_solver.
Qed.

Lemma for_each_collected m p f body ks s :
  vmm_wf s -> node s m p f -> NoDup ks -> Forall (fun i => slot s m p i) ks -> shared_source (pmap s m) = false ->
  (forall i s1, i ∈ ks -> vmm_wf s1 -> node s1 m p f -> slot s1 m p i -> shared_source (pmap s1 m) = false ->
     let '(b, s2) := body i s1 in collected m p f [i] s1 b s2) ->
  let '(b, s') := for_each body ks s in collected m p f ks s b s'.
Proof.
  revert s. induction ks as [|i ks IH]; intros s W Hf Hnd Hs Hsh Hbody; cbn [for_each]; [by apply collected_nil|].
  apply list.NoDup_cons in Hnd as [Hni Hnd]. apply Forall_cons_1 in Hs as [Hs Hss].
  pose proof (Hbody i s ltac:(set_solver) W Hf Hs Hsh) as Hb. destruct (body i s) as [[] s1]; [|by apply collected_stop].
  pose proof (cl_keeps _ _ _ _ _ _ _ Hb) as K. pose proof (kp_maps _ _ _ K) as Em.
  assert (node s1 m p f) as Hf1 by (apply (cl_stay _ _ _ _ _ _ _ Hb); [done|intros [_ Hx]; by apply not_below_self in Hx]).
  pose proof (IH s1 (kp_wf _ _ _ K) Hf1 Hnd) as IH'. destruct (for_each body ks s1) as [b s2].
  apply (collected_cons m p f i ks s s1 b s2 Hf Hni (proj1 Hs) Hb), IH'.
  - rewrite Forall_forall in *. intros k Hk. apply (aside_slot s s1 m p k Em). by apply Hss.
  - by rewrite (aside_pmap s s1 m Em).
  - intros k s3 Hk. apply Hbody. set_solver.
Qed.

(** The end of one turn of the loop: the subtree of a child was collected. *)
Lemma collect_child m p f i c s b1 s1 :
  vmm_wf s -> node s m p f -> (length p < 3)%nat -> slot s m p i -> shared_source (pmap s m) = false ->
  existing_table s f i = Some c -> node s m (p ++ [i]) c -> c <> f ->
  collected m (p ++ [i]) c (seqZ 0 512) s b1 s1 ->
  let '(b, s') := if !b1 then (false, s1) else
                  match table_pointer s1 c with
                  | Some t => if table_empty s1 t then release_empty_child m f i s1 else (true, s1)
                  | None => (true, s1)
                  end in collected m p f [i] s b s'.
Proof.
  intros W Hf Hlt Hs Hsh Hc Hnc Hcf [K1 L1 St1 T1 E1 Z1 D1]. pose proof (kp_maps _ _ _ K1) as Em.
  assert (~ (p ++ [i]) `prefix_of` p) as Hpp by (intros [r E]; apply (f_equal length) in E; rewrite !length_app in E; cbn in E; lia).
  assert (node s1 m p f) as Hf1 by (apply St1; [done|intros [_ Hb]; by apply Hpp, below_prefix]).
  assert (node s1 m (p ++ [i]) c) as Hnc1 by (apply St1; [done|intros [_ Hb]; by apply not_below_self in Hb]).
  assert (table_of s1 f = table_of s f) as Hft by (apply (T1 m p f Hf); by intros [_ ?]).
  assert (forall j, entry s1 f j = entry s f j) as Hfe by (intros j; unfold entry; by rewrite Hft).
  assert (forall m' q h, node s m' q h -> ~ (m' = m /\ below p q) -> node s1 m' q h) as St.
  { intros m' q h Hh Hne. apply St1; [done|]. intros [-> (j & r & ->)]. apply Hne. split; [done|]. exists i, (j :: r). by rewrite <- app_assoc. }
  assert (forall m' q h, node s m' q h -> ~ (m' = m /\ p `prefix_of` q) -> table_of s1 h = table_of s h) as Tb.
  { intros m' q h Hh Hne. apply (T1 m' q h Hh). intros [-> Hpre]. apply Hne. split; [done|]. etrans; [|exact Hpre]. by apply prefix_app_r. }
  assert ((forall k, k ∈ [i] -> bare s m (p ++ [k])) -> forall k, k ∈ seqZ 0 512 -> bare s m ((p ++ [i]) ++ [k])) as Hbc.
  { intros Hb k Hk. apply elem_of_seqZ in Hk.
    apply (bare_split s m (p ++ [i]) c Hnc); [rewrite length_app; cbn; lia|apply Hb; set_solver|unfold index; lia]. }
  assert ((forall k, k ∈ [i] -> bare s m (p ++ [k])) -> b1 = true -> table_empty s1 c = true) as Hzero.
  { intros Hb ->. apply table_empty_spec. intros j Hj. apply Z1; [by apply Hbc|done|]. apply elem_of_seqZ. unfold index in Hj. lia. }
  destruct b1; cbn [negb].
  2: { split; [done|done|done|done|intros j Hj _; apply Hfe|done|]. intros Hq Hb. by apply (D1 Hq), Hbc. }
  destruct (vw_table s1 (kp_wf _ _ _ K1) m _ c Hnc1) as (_ & _ & ->). destruct (table_empty s1 c) eqn:He.
  2: { split; [done|done|done|done|intros j Hj _; apply Hfe| |done]. intros Hb. by specialize (Hzero Hb eq_refl). }
  pose proof (release_call m p f i s1 (kp_wf _ _ _ K1) Hf1) as Hr. destruct (release_empty_child m f i s1) as [b s'].
  destruct Hr as [K2 L2 St2 T2 E2 D2]; [by apply (aside_slot s s1 m p i Em)|done|by rewrite (aside_pmap s s1 m Em)|]. split.
  - by eapply vmm_keeps_trans.
  - by eapply leaves_trans.
  - intros m' q h Hh Hne. apply St2; [by apply St|]. intros (_ & -> & ->). apply Hne. split; [done|]. by exists i, [].
  - intros m' q h Hh Hne. rewrite T2; [by apply (Tb m' q)|]. intros ->. destruct (vw_inj s W m' q m p f Hh Hf) as [-> ->]. by apply Hne.
  - intros j Hj Hni. rewrite (E2 j Hj), Hfe. destruct (Z.eqb_spec j i); [set_solver|by rewrite andb_false_r].
  - intros Hb -> k Hk. assert (k = i) as -> by set_solver. rewrite (E2 i (proj1 Hs)), Z.eqb_refl. done.
  - intros Hq Hb. apply (D2 (kp_quiet _ _ _ K1 Hq) c); [|done]. rewrite <- Hc. apply aside_existing; [apply K1|done].
Qed.

Lemma collect_call level s m p f first last :
  vmm_wf s -> node s m p f -> (length p + level = 4)%nat -> (forall i, first <= i < last -> slot s m p i) ->
  shared_source (pmap s m) = false ->
  let '(b, s') := collect_children level m f first last s in collected m p f (seqZ first (last - first)) s b s'.
Proof.
  revert s p f first last. induction level as [|level IH]; intros s p f first last W Hf Hlen Hs Hsh.
  { pose proof Hf as (_ & (_ & Hle & _) & _). lia. }
  cbn [collect_children]. destruct (vw_table s W m p f Hf) as (_ & _ & ->).
  destruct (Nat.eqb_spec (S level) 1) as [El|Hl].
  - split; [by apply vmm_keeps_refl|done|done|done|done| |done]. intros Hb _ i Hi.
    apply (bare_leaf s m p f i Hf); [lia|apply Hs; by apply elem_of_range|by apply Hb].
  - apply for_each_collected; [done|done|apply NoDup_seqZ|apply Forall_forall; intros i Hi%list_elem_of_In; apply Hs; by apply elem_of_range|done|].
    intros i s1 Hi W1 Hf1 Hs1 Hsh1. assert (length p < 3)%nat as Hlt by lia.
    destruct (nz (entry s1 f i)) eqn:Hz; cbn [negb]; bool_prop.
    2: { split; [by apply vmm_keeps_refl|done|done|done|done| |done]. intros _ _ k Hk. by assert (k = i) as -> by set_solver. }
    destruct (link_child s1 m p f i W1 Hf1 Hlt Hs1 Hz) as (c & Hc & Hn & -> & -> & -> & Hcf & _). cbn [negb orb].
    rewrite (proj2 (Z.eqb_neq _ _) Hcf).
    pose proof (IH s1 (p ++ [i]) c 0 PAGE_TABLE_ENTRIES W1 Hn) as IH'.
    destruct (collect_children level m c 0 PAGE_TABLE_ENTRIES s1) as [b1 s2].
    apply (collect_child m p f i c s1 b1 s2); try done. apply IH'; [rewrite length_app; cbn; lia| |done].
    intros k Hk. apply slot_below; [by destruct p|done].
Qed.

(** * Changes of the structures *)

Lemma pmap_set m g s m' : pmap (set_pmap m g s) m' = if decide (m' = m) then g (pmap s m) else pmap s m'.
Proof.
  unfold pmap, set_pmap. upd_simpl. destruct (decide (m' = m)) as [->|Hne]; [by rewrite lookup_insert_eq|by rewrite lookup_insert_ne].
Qed.

Lemma walk_pages s s' f p :
  v_pages s' = v_pages s -> v_use_phys_map s' = v_use_phys_map s -> walk s' f p = walk s f p.
Proof.
  intros Ep Eu. apply walk_keep. intros q i r g _ _. rewrite !existing_target. unfold entry, table_of. by rewrite Ep, Eu.
Qed.

(** One map looks the same in both states. *)
Record same_map (s s' : Vmm) (m : Z) : Prop := {
  sm_root : root_frame (pmap s' m) = root_frame (pmap s m);
  sm_first : owned_pml4_first (pmap s' m) = owned_pml4_first (pmap s m);
  sm_end : owned_pml4_end (pmap s' m) = owned_pml4_end (pmap s m) }.

Lemma same_map_owns s s' m i : same_map s s' m -> map_owns_pml4_index s' m i = map_owns_pml4_index s m i.
Proof. intros [_ H1 H2]. unfold map_owns_pml4_index. by rewrite H1, H2. Qed.

Lemma same_map_live s s' m : same_map s s' m -> map_live s' m <-> map_live s m.
Proof. intros [H _ _]. unfold map_live. by rewrite H. Qed.

Lemma same_map_node s s' m p f :
  same_map s s' m -> v_pages s' = v_pages s -> v_use_phys_map s' = v_use_phys_map s -> node s' m p f <-> node s m p f.
Proof.
  intros E Ep Eu. unfold node, owned_path. setoid_rewrite (same_map_owns s s' m _ E). rewrite (same_map_live s s' m E).
  unfold root. by rewrite (sm_root _ _ _ E), (walk_pages s s' _ p Ep Eu).
Qed.

Lemma same_map_leaf s s' m p i :
  same_map s s' m -> v_pages s' = v_pages s -> v_use_phys_map s' = v_use_phys_map s -> leaf s' m p i = leaf s m p i.
Proof.
  intros E Ep Eu. unfold leaf, root. rewrite (sm_root _ _ _ E), (walk_pages s s' _ p Ep Eu). destruct (walk _ _ p); [|done].
  unfold entry, table_of. by rewrite Ep.
Qed.

(** The structure of a map changes in its flags only. *)
Lemma flags_wf m g s :
  vmm_wf s -> same_map s (set_pmap m g s) m -> (shared_source (pmap s m) = true -> shared_source (g (pmap s m)) = true) ->
  vmm_wf (set_pmap m g s) /\ forall m' p f, node (set_pmap m g s) m' p f <-> node s m' p f.
Proof.
  intros W E Hsh. set (s' := set_pmap m g s) in *.
  assert (forall m', same_map s s' m') as Es.
  { intros m'. destruct (decide (m' = m)) as [->|Hne]; [done|]. split; unfold s'; rewrite pmap_set; by rewrite decide_False. }
  assert (forall m' p f, node s' m' p f <-> node s m' p f) as Hn by (intros; by apply same_map_node).
  split; [|done]. split; [apply W| | | | | | | |].
  - intros m' Hl%(same_map_live s s' m' (Es m')). destruct (Es m') as [_ -> ->]. by apply (vw_map s W).
  - intros m' p f Hf%Hn. exact (vw_table s W m' p f Hf).
  - intros m1 p1 m2 p2 f H1%Hn H2%Hn. by eapply (vw_inj s W).
  - intros m' p f i Hf%Hn Hlt [Hi Hs]. rewrite (same_map_owns s s' m' i (Es m')) in Hs. by apply (vw_link s W m' p f i).
  - intros m' p f i Hf%Hn. by apply (vw_leaf s W m' p f i).
  - intros m' p f q h j r i Hf%Hn Hl Hi Hu Ep Hh%Hn. by apply (vw_user s W m' p f q h j r i).
  - intros m' i Hl%(same_map_live s s' m' (Es m')) Hi. rewrite (same_map_owns s s' m' i (Es m')). intros Ho. unfold root. rewrite (sm_root _ _ _ (Es m')).
    destruct (vw_shared s W m' i Hl Hi Ho) as [?|(x & h & H1 & H2 & H3 & H4)]; [by left|]. right. exists x, h. split_and!; [done| |by apply Hn|done].
    unfold s'. rewrite pmap_set. case_decide as Ex; [|done]. subst x. by apply Hsh.
  - intros Hv. destruct (vw_unlinked s W Hv) as [H1 H2]. split; [done|]. intros m' p Hf%Hn. by eapply H2.
Qed.

(** A map whose tree is gone except for its root. *)
Lemma drop_wf m s P X :
  vmm_wf s -> map_live s m -> (forall p f, node s m p f -> p = []) -> shared_source (pmap s m) = false ->
  pmm_wf P -> same_frames (v_pmm s) P -> free_set P = free_set (v_pmm s) ∪ {[root s m]} ->
  let s' := set_pmap m (fun x => x <| root_frame := FRAME_INVALID |> <| owned_pml4_first := 0 |> <| owned_pml4_end := 0 |>
                                    <| destroy_pending := false |>) (with_pmm s P X) in
  vmm_wf s' /\ forall f, pool s' f <-> pool s f.
Proof.
  intros W Hl Hroot Hsh HP HF Hset s'.
  assert (forall m', m' <> m -> pmap s' m' = pmap s m') as Ep by (intros m' Hne; unfold s'; rewrite pmap_set; by rewrite decide_False).
  assert (forall m', m' <> m -> same_map s s' m') as Es by (intros m' Hne; split; by rewrite Ep).
  assert (~ map_live s' m) as Hdead by (intros [_ H]; unfold s' in H; by rewrite pmap_set, decide_True in H).
  assert (forall m' p f, node s' m' p f <-> node s m' p f /\ m' <> m) as Hn.
  { intros m' p f. destruct (decide (m' = m)) as [->|Hne]; [split; [intros [? _]; done|tauto]|].
    rewrite (same_map_node s s' m' p f (Es m' Hne) eq_refl eq_refl). tauto. }
  pose proof (root_node s m Hl) as N0.
  assert (forall m' p f, node s' m' p f -> f <> root s m) as Hnr.
  { intros m' p f [Hf Hne]%Hn ->. by destruct (vw_inj s W m' p m [] _ Hf N0). }
  split.
  - split; [done| | | | | | | |].
    + intros m' Hl'. destruct (decide (m' = m)) as [->|Hne]; [done|]. apply (same_map_live s s' m' (Es m' Hne)) in Hl'.
      destruct (Es m' Hne) as [_ -> ->]. by apply (vw_map s W).
    + intros m' p f Hf. pose proof (Hnr m' p f Hf) as Hne. apply Hn in Hf as [Hf _]. destruct (vw_table s W m' p f Hf) as (H1 & H2 & H3).
      split; [|done]. apply (held_kept (v_pmm s) P f HF); [|done]. change (f ∉ free_set P). rewrite Hset. destruct H1 as [_ H1]. set_solver.
    + intros m1 p1 m2 p2 f [H1 _]%Hn [H2 _]%Hn. by eapply (vw_inj s W).
    + intros m' p f i [Hf Hne]%Hn Hlt [Hi Hs]. rewrite (same_map_owns s s' m' i (Es m' Hne)) in Hs. by apply (vw_link s W m' p f i).
    + intros m' p f i [Hf _]%Hn. by apply (vw_leaf s W m' p f i).
    + intros m' p f q h j r i [Hf _]%Hn H1 H2 H3 H4 [Hh _]%Hn. by apply (vw_user s W m' p f q h j r i).
    + intros m' i Hl' Hi. destruct (decide (m' = m)) as [->|Hne]; [done|]. apply (same_map_live s s' m' (Es m' Hne)) in Hl'.
      rewrite (same_map_owns s s' m' i (Es m' Hne)). intros Ho. unfold root. rewrite (sm_root _ _ _ (Es m' Hne)).
      destruct (vw_shared s W m' i Hl' Hi Ho) as [?|(x & h & H1 & H2 & H3 & H4)]; [by left|]. right. exists x, h.
      assert (x <> m) as Hx by (intros ->; congruence). split_and!; [done|by rewrite Ep|by apply Hn|done].
    + intros Hv. destruct (vw_unlinked s W Hv) as [[H1 H2] H3]. split; [|intros m' p [Hf _]%Hn; by eapply H3].
      split; [by apply (sf_owned _ _ HF)|]. change (v_unlinked_table s ∉ free_set P). rewrite Hset, elem_of_union, elem_of_singleton.
      intros [?|E]; [done|]. apply (H3 m []). by rewrite E.
  - intros f. unfold pool. change (v_pmm s') with P. change (v_unlinked_table s') with (v_unlinked_table s).
    rewrite Hset, elem_of_union, elem_of_singleton. setoid_rewrite Hn. split.
    + intros [[?| ->]|[(m' & p & Hf & _)|?]]; [by left|right; left; by exists m, []|right; left; by exists m', p|by right; right].
    + intros [?|[(m' & p & Hf)|?]]; [by left; left| |by right; right]. destruct (decide (m' = m)) as [->|Hne]; [|right; left; by exists m', p].
      left. right. pose proof (Hroot p f Hf) as ->. by apply node_root.
Qed.

(** * Operations on a whole map *)

Record lives (m : Z) (s s' : Vmm) : Prop := {
  lf_wf : vmm_wf s';
  lf_pool : forall f, pool s' f <-> pool s f;
  lf_frames : same_frames (v_pmm s) (v_pmm s');
  lf_cpu : v_cpu s' = v_cpu s;
  lf_maps : forall a, a <> m -> pmap s' a = pmap s a;
  lf_query : forall a va, a <> m -> vmm_query_page s' a va = vmm_query_page s a va;
  lf_quiet : no_faults s -> no_faults s';
  lf_node : forall a p f, a <> m -> node s' a p f -> node s a p f }.

Lemma lives_refl m s : vmm_wf s -> lives m s s.
Proof. by split. Qed.

Lemma lives_trans m s1 s2 s3 : lives m s1 s2 -> lives m s2 s3 -> lives m s1 s3.
Proof.
  intros [A1 A2 A3 A4 A5 A6 A7 A8] [B1 B2 B3 B4 B5 B6 B7 B8]. split; [done| |by etrans|congruence| | |auto|auto].
  - intros f. by rewrite B2, A2.
  - intros a Ha. by rewrite B5, A5.
  - intros a va Ha. by rewrite B6, A6.
Qed.

Lemma keeps_lives m s s' : vmm_wf s -> shared_source (pmap s m) = false -> keeps m s s' -> lives m s s'.
Proof.
  intros W Hsh K. split; try apply K; [intros a _; apply aside_pmap, K|intros a va Ha; by apply (query_other m)|].
  intros a p f Ha. revert f. induction p as [|i p IH] using rev_ind; intros f Hf.
  - rewrite (node_root _ _ _ Hf), (aside_root s s' a (kp_maps _ _ _ K)). apply root_node.
    by apply (aside_live s s' a (kp_maps _ _ _ K)), Hf.
  - destruct (node_parent s' a p i f Hf) as (g & Hg & He & Hs & Hlt). pose proof (IH g Hg) as Hg'.
    destruct (kp_other _ _ _ K a p g Ha Hg') as [_ Ht]. apply (node_child s a p g i f); [done|done| |].
    + by apply (aside_slot s s' a p i (kp_maps _ _ _ K)).
    + rewrite <- He. symmetry. apply aside_existing; [apply K|done].
Qed.

Lemma pmap_query m g s a va : a <> m -> vmm_query_page (set_pmap m g s) a va = vmm_query_page s a va.
Proof.
  intros Hne. unfold vmm_query_page. rewrite pmap_set, decide_False by done.
  change (table_pointer (set_pmap m g s)) with (table_pointer s). done.
Qed.

Lemma flags_lives m g s :
  vmm_wf s -> same_map s (set_pmap m g s) m -> (shared_source (pmap s m) = true -> shared_source (g (pmap s m)) = true) ->
  lives m s (set_pmap m g s).
Proof.
  intros W E Hsh. destruct (flags_wf m g s W E Hsh) as [W' Hn]. split; try done.
  - intros f. unfold pool. by setoid_rewrite Hn.
  - intros a Ha. by rewrite pmap_set, decide_False.
  - intros a va Ha. by apply pmap_query.
  - intros a p f _. apply Hn.
Qed.

Lemma reclaimable_inv s m :
  map_reclaimable s m = true ->
  map_live s m /\ owned_pml4_first (pmap s m) < owned_pml4_end (pmap s m) <= 512 /\ shared_source (pmap s m) = false /\
  map_active s m = false.
Proof.
  unfold map_reclaimable. intros H. do 6 (apply andb_true_iff in H as [H ?]). bool_prop. unfold VM_PML4_ENTRY_COUNT in *.
  split_and!; try done. split; [by apply negb_true_iff, Z.eqb_neq|done].
Qed.

Lemma reclaimable_slots s m i :
  vmm_wf s -> map_live s m -> owned_pml4_first (pmap s m) <= i < owned_pml4_end (pmap s m) <-> slot s m [] i.
Proof.
  intros W Hl. destruct (vw_map s W m Hl) as [H1 H2]. unfold slot, map_owns_pml4_index, index. destruct Hl as [-> _]. cbn [negb].
  rewrite andb_true_iff, Z.leb_le, Z.ltb_lt. split; [split; [lia|done]|]. intros [_ Hs]. by apply Hs.
Qed.

(** No page of the map's own range is mapped. *)
Definition unmapped (s : Vmm) (m : Z) : Prop :=
  forall va, page va -> map_owns_pml4_index s m (pml4_index va) = true -> vmm_query_page s m va = None.

Lemma unmapped_bare s m :
  vmm_wf s -> map_live s m -> unmapped s m <-> forall i, slot s m [] i -> bare s m [i].
Proof.
  intros W Hl. split.
  - intros Hu i Hs p j [r Er] Hp Ho Hj. destruct p as [|a [|b [|c [|? ?]]]]; try discriminate Hp. injection Er as -> Er.
    pose proof Ho as (HF & _ & Hown). apply Forall_cons_1 in HF as [Ha HF]. apply Forall_cons_1 in HF as [Hb HF]. apply Forall_cons_1 in HF as [Hc _].
    destruct (route_surj i b c j Ha Hb Hc Hj) as (va & Hpg & Hr & Hi). rewrite <- Hr, <- Hi. injection Hr as Hr _ _.
    apply query_none; try done; [rewrite Hr; by apply (Hown i [b; c])|by apply page_page_ok|].
    apply Hu; [done|]. rewrite Hr. by apply (Hown i [b; c]).
  - intros Hb va Hpg Ho. apply query_none; try done; [by apply page_page_ok|].
    apply (Hb (pml4_index va)); [split; [apply index_mask|done]|by exists [pdpt_index va; pd_index va; pt_index va]|done|by apply route_owned|apply index_mask].
Qed.

(** Only the root is left when the root is empty. *)
Lemma root_alone s m :
  (forall i, slot s m [] i -> entry s (root s m) i = 0) -> forall p f, node s m p f -> p = [].
Proof.
  intros Hz p f Hf. destruct p as [|i p]; [done|]. exfalso. destruct Hf as (Hl & (HF & _ & Ho) & Hw). cbn [walk] in Hw.
  rewrite existing_target, Hz, target_0 in Hw; [done|]. split; [by apply Forall_inv in HF|]. intros _. by apply (Ho i p).
Qed.

Lemma lives_pmm m s P X :
  vmm_wf s -> pmm_wf P -> same_frames (v_pmm s) P -> free_set P = free_set (v_pmm s) -> (no_faults s -> no_faults (with_pmm s P X)) ->
  lives m s (with_pmm s P X).
Proof.
  intros W HP HF Hset Hq. destruct (with_pmm_keeps m s P X (v_unlinked_table s) W HP HF Hq) as [K _].
  { by rewrite Hset. }
  { intros Hv. rewrite Hset. by destruct (vw_unlinked s W Hv) as [[? ?] _]. }
  split; try apply K; [done|done|]. intros a p f _. by apply (aside_node s (with_pmm s P X)).
Qed.

(** The end of [vmm_page_map_destroy], after the collection. *)
Lemma destroy_end m s2 :
  vmm_wf s2 -> map_live s2 m -> shared_source (pmap s2 m) = false -> (forall i, slot s2 m [] i -> entry s2 (root s2 m) i = 0) ->
  let '(b, s') :=
    let '(freed, s) := free_table m (root s2 m) s2 in
    if !freed then (false, s) else
    (true, set_pmap m (fun m => m <| root_frame := FRAME_INVALID |> <| owned_pml4_first := 0 |>
                                  <| owned_pml4_end := 0 |> <| destroy_pending := false |>) s) in
  lives m s2 s' /\ (b = true -> ~ map_live s' m) /\
  (b = false -> v_maps s' = v_maps s2 /\ forall va, vmm_query_page s' m va = vmm_query_page s2 m va) /\
  (no_faults s2 -> b = true).
Proof.
  intros W Hl Hsh Hz. pose proof (root_node s2 m Hl) as N0. destruct (vw_table s2 W m [] _ N0) as (Hh & _ & _).
  pose proof (free_table_form m (root s2 m) s2 (vw_pmm s2 W) Hh) as Hf. destruct (free_table m (root s2 m) s2) as [b s3].
  destruct Hf as (P & X & -> & HP & HF & Hset & Hq). destruct b; cbn [negb].
  - destruct (drop_wf m s2 P X W Hl (root_alone s2 m Hz) Hsh HP HF Hset) as [W' Hpool].
    set (s' := set_pmap m _ _) in *. split_and!; [|intros _ [_ Hr]; unfold s' in Hr; by rewrite pmap_set, decide_True in Hr|done|by intros Hno].
    split; try done; [intros a Ha; unfold s'; by rewrite pmap_set, decide_False| |intros Hno; by destruct (Hq Hno)|].
    + intros a va Ha. unfold s'. rewrite pmap_query by done. done.
    + intros a p f Ha Hf. apply (same_map_node s2 s' a p f); [|done|done|done]. split; unfold s'; by rewrite pmap_set, decide_False.
  - split_and!; [|done|done|intros Hno; by destruct (Hq Hno)]. apply lives_pmm; try done. intros Hno. by destruct (Hq Hno).
Qed.

(** Releases and collections leave the quarantine slot alone. *)
Lemma free_unlinked m f s : v_unlinked_table (free_table m f s).2 = v_unlinked_table s.
Proof.
  unfold free_table. destruct (fault_form m VMM_TEST_FREE s) as (X & E & _). destruct (test_fault m VMM_TEST_FREE s) as [b s1].
  cbn [snd] in E. subst s1. destruct b; [done|]. unfold vmm_frame_free. by destruct (frame_free f _).
Qed.

Lemma release_unlinked m f i s : v_unlinked_table (release_empty_child m f i s).2 = v_unlinked_table s.
Proof.
  unfold release_empty_child. destruct (_ || _); [done|]. destruct (table_pointer s _) as [t|]; [|done].
  destruct (!table_empty s t); [done|]. pose proof (free_unlinked m (entry_frame (entry s f i)) (set_entry f i 0 s)) as H.
  destruct (free_table m _ _) as [[] s1]; exact H.
Qed.

Lemma for_each_unlinked body ks s :
  (forall i s, v_unlinked_table (body i s).2 = v_unlinked_table s) -> v_unlinked_table (for_each body ks s).2 = v_unlinked_table s.
Proof.
  intros Hb. revert s. induction ks as [|i ks IH]; intros s; [done|]. cbn [for_each]. pose proof (Hb i s) as H.
  destruct (body i s) as [[] s1]; [by rewrite IH|done].
Qed.

Lemma collect_unlinked level m f first last s : v_unlinked_table (collect_children level m f first last s).2 = v_unlinked_table s.
Proof.
  revert f first last s. induction level as [|level IH]; intros f first last s; cbn [collect_children]; destruct (table_pointer s f) as [t|]; try done.
  destruct (Nat.eqb (S level) 1); [done|]. apply for_each_unlinked. intros i s1. destruct (!nz _); [done|]. destruct (_ || _); [done|].
  destruct (_ =? f); [done|]. pose proof (IH (entry_frame (entry s1 t i)) 0 PAGE_TABLE_ENTRIES s1) as H.
  destruct (collect_children level m _ _ _ s1) as [[] s2]; [|done]. cbn [negb snd] in *. destruct (table_pointer s2 _) as [t'|]; [|done].
  destruct (table_empty s2 t'); [|done]. by rewrite release_unlinked.
Qed.

Lemma destroy_unlinked m s : v_unlinked_table (vmm_page_map_destroy m s).2 = v_unlinked_table s.
Proof.
  unfold vmm_page_map_destroy. destruct (!map_reclaimable s m); [done|]. destruct (negb (tree_has_no_leaves _ _ _ _ _)); [done|].
  set (s1 := set_pmap m _ s). pose proof (collect_unlinked 4 m (root_frame (pmap s m)) (owned_pml4_first (pmap s m)) (owned_pml4_end (pmap s m)) s1) as H.
  destruct (collect_children 4 m _ _ _ s1) as [[] s2]; [|done]. cbn [negb snd] in *.
  pose proof (free_unlinked m (root_frame (pmap s m)) s2) as H2. destruct (free_table m _ s2) as [[] s3]; exact (eq_trans H2 H).
Qed.

Lemma page_map_destroy_call m s :
  vmm_wf s -> let '(b, s') := vmm_page_map_destroy m s in
  lives m s s' /\ (b = true -> map_reclaimable s m = true /\ unmapped s m /\ ~ map_live s' m) /\
  (b = false -> forall va, page va -> map_owns_pml4_index s m (pml4_index va) = true ->
     map_live s m -> vmm_query_page s' m va = vmm_query_page s m va) /\
  (no_faults s -> map_reclaimable s m = true -> unmapped s m -> b = true) /\
  (b = false -> same_map s s' m /\ shared_source (pmap s' m) = shared_source (pmap s m)).
Proof.
  intros W. unfold vmm_page_map_destroy. destruct (map_reclaimable s m) eqn:Hr; cbn [negb];
    [|split_and!; [by apply lives_refl|done|done|done|done]].
  destruct (reclaimable_inv s m Hr) as (Hl & Hrng & Hsh & Hact). pose proof (root_node s m Hl) as N0. fold (root s m).
  pose proof (no_leaves_spec 4 s m [] (root s m) (owned_pml4_first (pmap s m)) (owned_pml4_end (pmap s m)) W N0 eq_refl
    (fun i => proj1 (reclaimable_slots s m i W Hl))) as Hnl.
  assert ((forall i, owned_pml4_first (pmap s m) <= i < owned_pml4_end (pmap s m) -> bare s m ([] ++ [i])) <-> unmapped s m) as Hub.
  { rewrite (unmapped_bare s m W Hl). cbn [app]. split; intros H i Hi; apply H; by apply (reclaimable_slots s m i W Hl). }
  rewrite Hub in Hnl. destruct (tree_has_no_leaves 4 s (root s m) _ _) eqn:Et; cbn [negb].
  2: { split_and!; [by apply lives_refl|done|done| |done]. intros _ _ Hu. by apply Hnl in Hu. }
  pose proof (proj1 Hnl eq_refl) as Hu. set (s1 := set_pmap m (fun m => m <| destroy_pending := true |>) s).
  assert (same_map s s1 m) as Es by (split; unfold s1; by rewrite pmap_set, decide_True).
  assert (shared_source (pmap s1 m) = false) as Hsh1 by (unfold s1; by rewrite pmap_set, decide_True).
  destruct (flags_wf m _ s W Es) as [W1 Hn1]; [by rewrite Hsh|]. fold s1 in W1, Hn1.
  pose proof (flags_lives m _ s W Es) as Lv1. fold s1 in Lv1. specialize (Lv1 ltac:(by rewrite Hsh)).
  assert (map_live s1 m) as Hl1 by (by apply (same_map_live s s1 m Es)).
  assert (root s1 m = root s m) as Er by apply Es.
  assert (forall i, owned_pml4_first (pmap s m) <= i < owned_pml4_end (pmap s m) <-> slot s1 m [] i) as Hsl.
  { intros i. rewrite <- (reclaimable_slots s1 m i W1 Hl1). by destruct Es as [_ -> ->]. }
  assert (forall i, i ∈ seqZ (owned_pml4_first (pmap s m)) (owned_pml4_end (pmap s m) - owned_pml4_first (pmap s m)) -> bare s1 m ([] ++ [i])) as Hb1.
  { intros i Hi%elem_of_range p j Hpre Hp Ho Hj. rewrite (same_map_leaf s s1 m p j Es eq_refl eq_refl).
    apply (proj2 Hub Hu i Hi p j Hpre Hp); [|done]. destruct Ho as (O1 & O2 & O3). split_and!; try done. intros k q E.
    rewrite <- (same_map_owns s s1 m k Es). by eapply O3. }
  pose proof (collect_call 4 s1 m [] (root s m) (owned_pml4_first (pmap s m)) (owned_pml4_end (pmap s m)) W1) as Hc.
  destruct (collect_children 4 m (root s m) (owned_pml4_first (pmap s m)) (owned_pml4_end (pmap s m)) s1) as [b2 s2].
  destruct Hc as [K2 L2 St2 _ _ Z2 D2]; [rewrite <- Er; by apply root_node|done|intros i Hi; by apply Hsl|done|].
  assert (lives m s s2) as Lv2 by (eapply lives_trans; [exact Lv1|by apply keeps_lives]).
  assert (forall va, page va -> map_owns_pml4_index s m (pml4_index va) = true -> vmm_query_page s2 m va = vmm_query_page s m va) as Hq2.
  { intros va Hpg Ho. pose proof (kp_maps _ _ _ K2) as Em.
    rewrite (query_leaf s2), (query_leaf s) by (done || apply K2 || (apply (aside_live s1 s2 m Em); done) ||
      (rewrite (aside_owns s1 s2 m _ Em), (same_map_owns s s1 m _ Es); done)).
    rewrite (L2 m (route va) (pt_index va) Hl1); [|by apply route_owned; rewrite (same_map_owns s s1 m _ Es)|done|apply index_mask].
    by rewrite (same_map_leaf s s1 m _ _ Es). }
  assert (pmap s2 m = pmap s1 m) as Ep2 by (by apply aside_pmap, K2).
  assert (same_map s s2 m /\ shared_source (pmap s2 m) = shared_source (pmap s m)) as Es2.
  { split; [|by rewrite Ep2, Hsh1, Hsh]. destruct Es as [E1 E2 E3]. by split; rewrite Ep2. }
  destruct b2; cbn [negb].
  2: { split_and!; [done|done|auto| |done]. intros Hno _ _. apply D2; [|done]. by apply (lf_quiet _ _ _ Lv1). }
  assert (map_live s2 m) as Hl2 by (by apply (aside_live s1 s2 m (kp_maps _ _ _ K2))).
  assert (root s2 m = root s m) as Er2 by (by rewrite (aside_root s1 s2 m (kp_maps _ _ _ K2))).
  pose proof (destroy_end m s2 (kp_wf _ _ _ K2) Hl2) as He. rewrite Er2 in He.
  destruct (let '(freed, s) := free_table m (root s m) s2 in _) as [b s'].
  destruct He as (Lv & Hdead & Hsame & Hdone); [by rewrite (aside_pmap s1 s2 m (kp_maps _ _ _ K2))| |].
  { intros i Hi. apply (Z2 Hb1 eq_refl). apply elem_of_range, Hsl. by apply (aside_slot s1 s2 m [] i (kp_maps _ _ _ K2)). }
  split_and!; [by eapply lives_trans|auto| | |].
  - intros Hbf va Hpg Ho _. destruct (Hsame Hbf) as [_ Hsq]. by rewrite Hsq, Hq2.
  - intros Hno _ _. by apply Hdone, (lf_quiet _ _ _ Lv2).
  - intros Hbf. destruct (Hsame Hbf) as [Em _]. assert (pmap s' m = pmap s2 m) as Ep by (by apply aside_pmap).
    destruct Es2 as [[E1 E2 E3] E4]. split; [by split; rewrite Ep|by rewrite Ep].
Qed.

Lemma collect_map_call m s :
  vmm_wf s -> let '(b, s') := vmm_page_map_collect m s in
  lives m s s' /\ v_maps s' = v_maps s /\
  (forall va, page va -> map_owns_pml4_index s m (pml4_index va) = true -> map_live s m ->
     vmm_query_page s' m va = vmm_query_page s m va).
Proof.
  intros W. unfold vmm_page_map_collect. destruct (map_reclaimable s m) eqn:Hr; [|split_and!; [by apply lives_refl|done|done]].
  destruct (reclaimable_inv s m Hr) as (Hl & Hrng & Hsh & Hact).
  pose proof (collect_call 4 s m [] (root s m) (owned_pml4_first (pmap s m)) (owned_pml4_end (pmap s m)) W) as Hc.
  fold (root s m). destruct (collect_children 4 m (root s m) _ _ s) as [b s'].
  destruct Hc as [K L _ _ _ _ _]; [by apply root_node|done|intros i Hi; by apply (reclaimable_slots s m i W Hl)|done|].
  split_and!; [by apply keeps_lives|apply K|]. intros va Hpg Ho _. pose proof (kp_maps _ _ _ K) as Em.
  rewrite !query_leaf by (done || apply K || (apply (aside_live s s' m Em); done) || (rewrite (aside_owns s s' m _ Em); done)).
  by rewrite (L m (route va) (pt_index va) Hl (route_owned s m va Ho) eq_refl (index_mask _)).
Qed.

(** * Creation *)

(** A fresh table becomes the root of a map that was not live. *)
Lemma adopt_wf m first last s s1 g :
  vmm_wf s -> ~ map_live s m -> nz m = true -> 0 <= first < last -> last <= 512 -> fresh s s1 g ->
  let s' := set_pmap m (fun x => x <| root_frame := g |> <| owned_pml4_first := first |> <| owned_pml4_end := last |>) s1 in
  vmm_wf s' /\ (forall m' p f, node s' m' p f <-> node s m' p f \/ (m' = m /\ p = [] /\ f = g)) /\
  (forall a va, a <> m -> vmm_query_page s' a va = vmm_query_page s a va) /\
  (forall i, entry s' g i = 0).
Proof.
  intros W Hdead Hm Hr Hle [F1 F2 F3 F4 F5 F6 [F7 F7'] [F8 F8'] F9 F10 F11 F12 F13 F14] s'.
  assert (forall m', m' <> m -> pmap s' m' = pmap s m') as Ep.
  { intros m' Hne. unfold s'. rewrite pmap_set, decide_False by done. apply aside_pmap, F2. }
  assert (forall m', m' <> m -> same_map s1 s' m') as Es by (intros m' Hne; split; unfold s'; by rewrite pmap_set, decide_False).
  assert (root s' m = g) as Er by (unfold root, s'; by rewrite pmap_set, decide_True).
  assert (g <> FRAME_INVALID) as Hg by (by apply (held_valid _ _ (vw_pmm _ F1))).
  assert (forall f, existing_table s' g f = None) as Hx by (intros f; rewrite existing_target, (F10 f : entry s' g f = 0); apply target_0).
  assert (forall m' p f, node s' m' p f <-> node s m' p f \/ (m' = m /\ p = [] /\ f = g)) as Hn.
  { intros m' p f. destruct (decide (m' = m)) as [->|Hne].
    - split; [|intros [[? _]|(_ & -> & ->)]; [done|]].
      + intros (_ & _ & Hw). right. rewrite Er in Hw. destruct p as [|i p]; [by injection Hw as ->|]. cbn [walk] in Hw. by rewrite Hx in Hw.
      + assert (node s' m [] (root s' m)) as H; [|by rewrite Er in H]. apply root_node. split; [done|].
        change (root s' m <> FRAME_INVALID). by rewrite Er.
    - rewrite (same_map_node s1 s' m' p f (Es m' Hne) eq_refl eq_refl), (aside_node s s1 m' p f F2). tauto. }
  split_and!; [|done| |exact F10].
  - split; [apply F1| | | | | | | |].
    + intros m' Hl. destruct (decide (m' = m)) as [->|Hne]; [unfold s'; rewrite pmap_set, decide_True by done; done|].
      rewrite Ep by done. apply (vw_map s W). unfold map_live in *. by rewrite Ep in Hl.
    + intros m' p f [Hf|(-> & -> & ->)]%Hn; [|done]. apply (aside_node s s1 m' p f F2) in Hf. exact (vw_table s1 F1 m' p f Hf).
    + intros m1 p1 m2 p2 f [H1|(-> & -> & ->)]%Hn [H2|(-> & -> & E)]%Hn; [by eapply (vw_inj s W)|rewrite E in H1; by apply F14 in H1|by apply F14 in H2|done].
    + intros m' p f i [Hf|(-> & -> & ->)]%Hn Hlt Hs; [|by left; apply F10]. apply (aside_node s s1 m' p f F2) in Hf.
      assert (m' <> m) as Hne by (intros ->; destruct Hf as [Hf _]; by apply Hdead, (aside_live s s1 m (as_maps _ _ F2))).
      destruct Hs as [Hi Hs]. rewrite (same_map_owns s1 s' m' i (Es m' Hne)) in Hs. by apply (vw_link s1 F1 m' p f i).
    + intros m' p f i [Hf|(-> & -> & ->)]%Hn Hl Hi; [|by left; apply F10]. apply (aside_node s s1 m' p f F2) in Hf. by apply (vw_leaf s1 F1 m' p f i).
    + intros m' p f q h j r i [Hf|(-> & -> & ->)]%Hn Hl Hi Hu E Hh; [|done].
      assert (m' <> m) as Hne by (intros ->; destruct Hf as [Hf _]; by apply Hdead).
      apply Hn in Hh as [Hh|(-> & _)]; [|done]. apply (aside_node s s1 m' p f F2) in Hf. apply (aside_node s s1 m' q h F2) in Hh.
      by apply (vw_user s1 F1 m' p f q h j r i).
    + intros m' i Hl Hi Ho. destruct (decide (m' = m)) as [->|Hne]; [left; rewrite Er; apply F10|].
      rewrite (same_map_owns s1 s' m' i (Es m' Hne)) in Ho. apply (same_map_live s1 s' m' (Es m' Hne)) in Hl. unfold root. rewrite (sm_root _ _ _ (Es m' Hne)).
      destruct (vw_shared s1 F1 m' i Hl Hi Ho) as [?|(x & h & H1 & H2 & H3 & H4)]; [by left|]. right. exists x, h.
      apply (aside_node s s1 x [i] h F2) in H3. assert (x <> m) as Hx' by (intros ->; destruct H3 as [H3 _]; by apply Hdead).
      split_and!; [done|rewrite Ep by done; by rewrite <- (aside_pmap s s1 x (as_maps _ _ F2))|apply Hn; by left|done].
    + intros Hv. by destruct Hv.
  - intros a va Ha. unfold s'. rewrite pmap_query by done. apply (query_aside s s1 a va W F2).
Qed.

Lemma dead_set_wf m g s :
  vmm_wf s -> ~ map_live s m -> root_frame (g (pmap s m)) = FRAME_INVALID ->
  lives m s (set_pmap m g s) /\ ~ map_live (set_pmap m g s) m.
Proof.
  intros W Hd Hr. set (s' := set_pmap m g s).
  assert (~ map_live s' m) as Hd' by (intros [_ H]; unfold s' in H; by rewrite pmap_set, decide_True in H).
  assert (forall m', m' <> m -> pmap s' m' = pmap s m') as Ep by (intros m' Hne; unfold s'; by rewrite pmap_set, decide_False).
  assert (forall m', m' <> m -> same_map s s' m') as Es by (intros m' Hne; split; by rewrite Ep).
  assert (forall m' p f, node s' m' p f <-> node s m' p f) as Hn.
  { intros m' p f. destruct (decide (m' = m)) as [->|Hne]; [split; by intros [? _]|]. by apply (same_map_node s s' m' p f (Es m' Hne)). }
  assert (forall m', map_live s' m' -> m' <> m /\ map_live s m') as Hlv.
  { intros m' Hl. assert (m' <> m) as Hne by (by intros ->). split; [done|]. by apply (same_map_live s s' m' (Es m' Hne)). }
  split; [|done]. split; try done; [|intros f; unfold pool; by setoid_rewrite Hn|intros a va Ha; by apply pmap_query|intros a p f _; apply Hn].
  split; [apply W| | | | | | | |].
  - intros m' [Hne Hl]%Hlv. rewrite Ep by done. by apply (vw_map s W).
  - intros m' p f Hf%Hn. exact (vw_table s W m' p f Hf).
  - intros m1 p1 m2 p2 f H1%Hn H2%Hn. by eapply (vw_inj s W).
  - intros m' p f i Hf Hlt [Hi Hs]. destruct (Hlv m' (proj1 Hf)) as [Hne _]. apply Hn in Hf. rewrite (same_map_owns s s' m' i (Es m' Hne)) in Hs.
    by apply (vw_link s W m' p f i).
  - intros m' p f i Hf%Hn. by apply (vw_leaf s W m' p f i).
  - intros m' p f q h j r i Hf%Hn H1 H2 H3 H4 Hh%Hn. by apply (vw_user s W m' p f q h j r i).
  - intros m' i [Hne Hl]%Hlv Hi. rewrite (same_map_owns s s' m' i (Es m' Hne)). intros Ho. unfold root. rewrite (sm_root _ _ _ (Es m' Hne)).
    destruct (vw_shared s W m' i Hl Hi Ho) as [?|(x & h & H1 & H2 & H3 & H4)]; [by left|]. right. exists x, h.
    assert (x <> m) as Hx by (intros ->; destruct H3 as [? _]; done). split_and!; [done|by rewrite Ep|by apply Hn|done].
  - intros Hv. destruct (vw_unlinked s W Hv) as [H1 H2]. split; [done|]. intros m' p Hf%Hn. by eapply H2.
Qed.

Lemma page_map_create_call m first last s :
  vmm_wf s -> ~ map_live s m -> 0 <= first ->
  let '(b, s') := vmm_page_map_create_owned_range m first last s in
  lives m s s' /\
  (b = true -> map_live s' m /\ (forall va, vmm_query_page s' m va = None) /\
     (forall i, index i -> map_owns_pml4_index s' m i = (first <=? i) && (i <? last)) /\
     shared_source (pmap s' m) = false /\ destroy_pending (pmap s' m) = false /\ (forall i, entry s' (root s' m) i = 0)) /\
  (b = false -> ~ map_live s' m) /\
  (profile_supported s = true -> nz m = true -> first < last <= 512 -> supply 1 s -> b = true).
Proof.
  intros W Hd Hf0. unfold vmm_page_map_create_owned_range, create_owned_locked.
  destruct (profile_supported s); [|split_and!; [by apply lives_refl|done|done|done]].
  destruct (nz m) eqn:Hm; cbn [negb]; [|split_and!; [by apply lives_refl|done|done|done]].
  destruct ((last <=? first) || (VM_PML4_ENTRY_COUNT <? last)) eqn:Hr.
  { split_and!; [by apply lives_refl|done|done|]. intros _ _ Hx _. unfold VM_PML4_ENTRY_COUNT in Hr.
    apply orb_true_iff in Hr as [Hr|Hr]; bool_prop; lia. }
  apply orb_false_iff in Hr as [Hr1 Hr2]. bool_prop. unfold VM_PML4_ENTRY_COUNT in Hr2.
  destruct (dead_set_wf m (fun _ => mkVmPageMap FRAME_INVALID 0 0 false false) s W Hd eq_refl) as [Lv0 Hd0].
  set (s0 := set_pmap m _ s) in *. pose proof (lf_wf _ _ _ Lv0) as W0. pose proof (allocate_call m s0 W0) as Ha.
  destruct (allocate_table m s0) as [[g|] s1].
  - destruct (adopt_wf m first last s0 s1 g W0 Hd0 ltac:(by apply negb_true_iff, Z.eqb_neq) ltac:(lia) ltac:(lia) Ha) as (W' & Hn & Hq & Hz).
    set (s' := set_pmap m _ s1) in *. pose proof Ha as [F1 F2 F3 F4 F5 F6 [F7 F7'] [F8 F8'] F9 _ _ _ _ F14].
    assert (pmap s' m = (pmap s1 m) <| root_frame := g |> <| owned_pml4_first := first |> <| owned_pml4_end := last |>) as Epm
      by (unfold s'; by rewrite pmap_set, decide_True).
    assert (map_live s' m) as Hl.
    { split; [by apply negb_true_iff, Z.eqb_neq|]. rewrite Epm. upd_simpl. by apply (held_valid _ _ (vw_pmm _ F1)). }
    assert (pmap s1 m = mkVmPageMap FRAME_INVALID 0 0 false false) as Ep1
      by (rewrite (aside_pmap s0 s1 m (as_maps _ _ F2)); unfold s0; by rewrite pmap_set, decide_True).
    split_and!; [|intros _; split_and!; [done| | |by rewrite Epm, Ep1|by rewrite Epm, Ep1|intros i; unfold root; rewrite Epm; apply Hz]|done|done].
    + eapply lives_trans; [exact Lv0|]. split; try done.
      * intros f. unfold pool. change (v_pmm s') with (v_pmm s1). change (v_unlinked_table s') with (v_unlinked_table s1).
        rewrite F7, F7', F8, elem_of_difference, elem_of_singleton. setoid_rewrite Hn.
        destruct (decide (f = g)) as [->|Hne]; [split; [by left|intros _; right; left; exists m, []; by right]|].
        split; [intros [?|[(m' & p & [Hx|(_ & _ & ?)])|?]]; [left; tauto|right; left; by exists m', p|done|tauto]|].
        intros [?|[(m' & p & Hx)|?]]; [by left|right; left; exists m', p; by left|tauto].
      * intros a Hx. unfold s'. rewrite pmap_set, decide_False by done. apply aside_pmap, F2.
      * intros a p f Hx [?|(? & _)]%Hn; done.
    + intros va. unfold vmm_query_page. destruct (_ || _); [done|]. destruct (_ || _); [done|].
      destruct (table_pointer s' _) as [t|] eqn:Et; [|done]. apply pointer_self in Et as ->. cbn [mbind option_bind]. rewrite Epm. upd_simpl.
      by rewrite existing_target, Hz, target_0.
    + intros i Hi. unfold map_owns_pml4_index. rewrite Epm. upd_simpl. by assert (nz m = true) as -> by (by apply negb_true_iff, Z.eqb_neq).
  - destruct Ha as (Ha & K & L & Hno). split_and!; [|done| |].
    + eapply lives_trans; [exact Lv0|]. apply keeps_lives; [done| |done]. unfold s0. by rewrite pmap_set, decide_True.
    + intros _ Hl. by apply Hd0, (aside_live s0 s1 m (as_maps _ _ Ha)).
    + intros _ _ _ Hs. exfalso. apply (Hno Hm 0%nat). by destruct Hs; split.
Qed.

(** * Quarantine *)

Lemma reclaim_call m s :
  vmm_wf s -> let '(b, s') := vmm_reclaim_unlinked_table s in
  lives m s s' /\ v_maps s' = v_maps s /\ (forall a va, vmm_query_page s' a va = vmm_query_page s a va) /\
  (b = true -> v_unlinked_table s' = FRAME_INVALID) /\ (no_faults s -> b = true).
Proof.
  intros W. unfold vmm_reclaim_unlinked_table. destruct (Z.eqb_spec (v_unlinked_table s) FRAME_INVALID) as [E|E].
  - assert (s <| v_unlinked_table := FRAME_INVALID |> = s) as -> by (rewrite <- E; by destruct s). by split_and!; [apply lives_refl|..].
  - destruct (vw_unlinked s W E) as [Hh Hno]. unfold vmm_frame_free.
    pose proof (free_held (v_pmm s) (v_unlinked_table s) (vw_pmm s W) Hh) as Hf. destruct (frame_free (v_unlinked_table s) (v_pmm s)) as [b P].
    destruct Hf as (HP & HF & Hset & Hq). destruct b.
    + destruct (with_pmm_keeps m s P (v_faults s) FRAME_INVALID W HP HF) as [K _].
      * intros [H1 H2]. split; [by apply (sf_armed _ _ HF)|done].
      * intros f. rewrite Hset, elem_of_union, elem_of_singleton. tauto.
      * done.
      * split_and!; try done. split; try apply K; try done. intros a p f _. by apply (aside_node s).
    + split_and!; try done; [|intros [Hx _]; by apply Hq]. apply (lives_pmm m s P (v_faults s)); try done.
      intros [H1 H2]. split; [by apply (sf_armed _ _ HF)|done].
Qed.
