(* ===== verification/VmmShare.v ===== *)
(** Sharing a kernel subtree between page maps. *)

From S2P Require Import Prelude Pmm PmmProofs PmmRefine Frames Vmm.
From S2P Require Import VmmWf VmmEdit VmmOps VmmMap VmmCalls.
From S2P Require Import VmmLife.

Open Scope jcos_scope.

(** An entry outside the range of a map is written. *)
Lemma foreign_entry_wf s d i e :
  vmm_wf s -> map_live s d -> index i -> map_owns_pml4_index s d i = false ->
  (e = 0 \/ exists x h, x <> d /\ shared_source (pmap s x) = true /\ node s x [i] h /\ target (v_use_phys_map s) e = Some h) ->
  let s' := set_entry (root s d) i e s in
  lives d s s' /\ (forall m p f, node s' m p f <-> node s m p f) /\
  (forall f j, index j -> entry s' f j = if decide (f = root s d /\ j = i) then e else entry s f j).
Proof.
  intros W Hl Hi Ho He s'. pose proof (root_node s d Hl) as N0. destruct (vw_table s W d [] _ N0) as (_ & Hlen & _).
  assert (forall f j, index j -> entry s' f j = if decide (f = root s d /\ j = i) then e else entry s f j) as Hent
    by (intros f j Hj; by apply entry_set).
  assert (forall m p f j, node s m p f -> slot s m p j -> entry s' f j = entry s f j) as Hsl.
  { intros m p f j Hf [Hj Hs]. rewrite Hent by done. case_decide as E; [|done]. destruct E as [-> ->].
    destruct (vw_inj s W m p d [] _ Hf N0) as [-> ->]. by rewrite Hs in Ho. }
  assert (forall m p f, node s' m p f <-> node s m p f) as Hn.
  { apply nodes_same; [done|]. intros m p f j Hf _ Hs. by rewrite !existing_target, (Hsl m p f j Hf Hs). }
  assert (forall m p f j, node s m p f -> p <> [] -> index j -> entry s' f j = entry s f j) as Hdeep
    by (intros m p f j Hf Hp Hj; apply (Hsl m p f j Hf); by split).
  split_and!; [|done|done].
  assert (vmm_wf s') as W'.
  { split; [apply W|apply W| | | | | | |].
    - intros m p f Hf%Hn. destruct (vw_table s W m p f Hf) as (H1 & H2 & H3). split; [done|]. by rewrite <- (length_set s (root s d) i e f) in H2.
    - intros m1 p1 m2 p2 f H1%Hn H2%Hn. by eapply (vw_inj s W).
    - intros m p f j Hf%Hn Hlt Hs. rewrite existing_target, (Hsl m p f j Hf Hs). by apply (vw_link s W m p f j).
    - intros m p f j Hf%Hn Hp Hj. rewrite (Hdeep m p f j Hf); [by apply (vw_leaf s W m p f j)|by intros ->|done].
    - intros m p f q h j r k Hf%Hn Hp Hk Hu -> Hh%Hn. rewrite (Hdeep m _ f k Hf) in Hu; [|by destruct q|done].
      pose proof (vw_user s W m _ f q h j r k Hf Hp Hk Hu eq_refl Hh) as Hu'. rewrite (Hsl m q h j Hh); [done|].
      destruct Hf as (_ & (H1 & _ & H3) & _). split; [apply Forall_app in H1 as [_ H1]; by apply Forall_inv in H1|]. intros ->. by apply (H3 j r).
    - intros m j Hlm Hj Hoj. destruct (decide (root s m = root s d /\ j = i)) as [[E ->]|Hne].
      + assert (m = d) as -> by (apply (vw_inj s W m [] d [] (root s d)); [rewrite <- E; by apply root_node|done]).
        change (root s' d) with (root s d). rewrite existing_target, (Hent _ i Hi), decide_True by done.
        destruct He as [?|(x & h & H1 & H2 & H3 & H4)]; [by left|]. right. exists x, h. split_and!; try done. by apply Hn.
      + change (root s' m) with (root s m). rewrite existing_target, (Hent _ j Hj), decide_False by done.
        destruct (vw_shared s W m j Hlm Hj Hoj) as [?|(x & h & H1 & H2 & H3 & H4)]; [by left|]. right. exists x, h. split_and!; try done. by apply Hn.
    - intros Hv. destruct (vw_unlinked s W Hv) as [H1 H2]. split; [done|]. intros m p Hf%Hn. by eapply H2. }
  split; try done; [intros f; unfold pool; by setoid_rewrite Hn| |intros a p f _; apply Hn].
  intros a va Ha. apply query_tables; [done|done|done|]. intros x p f Hf Hx. unfold s', set_entry, table_of. upd_simpl.
  rewrite lookup_insert_ne; [done|]. intros <-.
  destruct (vw_inj s W x p d [] _ Hf N0) as [-> ->]. by destruct Hx as [|[]].
Qed.

(** The entry a map may copy: empty, or the link of the map that owns it. *)
Lemma source_entry s src i :
  vmm_wf s -> map_live s src -> index i ->
  let e := entry s (root s src) i in
  e = 0 \/ (has e PTE_PRESENT = true /\ exists x h, map_owns_pml4_index s x i = true /\ node s x [i] h /\
    target (v_use_phys_map s) e = Some h /\ (x = src \/ shared_source (pmap s x) = true)).
Proof.
  intros W Hl Hi e. assert (e = 0 \/ is_Some (existing_table s (root s src) i)) as [?|[h Hh]]; [|by left|].
  { destruct (map_owns_pml4_index s src i) eqn:Ho.
    - destruct (vw_link s W src [] (root s src) i (root_node s src Hl)) as [?|(? & _)]; [cbn; lia|by split|by left|by right].
    - destruct (vw_shared s W src i Hl Hi Ho) as [?|(x & h & _ & _ & _ & Hx)]; [by left|right; by exists h]. }
  right. destruct (top_node s src i h W Hl Hi Hh) as (x & Hx & Hs). rewrite existing_target in Hh. fold e in Hh.
  split; [by apply (target_frame _ _ _ Hh)|]. exists x, h. split_and!; try done. destruct Hx as (_ & (_ & _ & Ho) & _). by apply (Ho i []).
Qed.

Lemma flags_query m g s a va :
  same_map s (set_pmap m g s) m -> vmm_query_page (set_pmap m g s) a va = vmm_query_page s a va.
Proof.
  intros E. destruct (decide (a = m)) as [->|Hne]; [|by apply pmap_query]. unfold vmm_query_page. rewrite (sm_root _ _ _ E).
  change (table_pointer (set_pmap m g s)) with (table_pointer s). done.
Qed.

(** Two roots with the same entry translate its pages alike. *)
Lemma query_alias s d src va :
  map_live s d -> map_live s src -> table_pointer s (root s d) = Some (root s d) -> table_pointer s (root s src) = Some (root s src) ->
  entry s (root s d) (pml4_index va) = entry s (root s src) (pml4_index va) -> vmm_query_page s d va = vmm_query_page s src va.
Proof.
  intros [D1 D2] [S1 S2] Pd Ps E. unfold vmm_query_page. fold (root s d) (root s src). change (root_frame (pmap s d)) with (root s d) in D2.
  change (root_frame (pmap s src)) with (root s src) in S2.
  rewrite D1, S1, Pd, Ps, (proj2 (Z.eqb_neq _ _) D2), (proj2 (Z.eqb_neq _ _) S2). cbn [negb orb mbind option_bind].
  by rewrite !(existing_target s _ (pml4_index va)), E.
Qed.

(** What sharing keeps. *)
Record shares (d src i : Z) (s s' : Vmm) : Prop := {
  sr_wf : vmm_wf s';
  sr_pool : forall f, pool s' f <-> pool s f;
  sr_frames : same_frames (v_pmm s) (v_pmm s');
  sr_cpu : v_cpu s' = v_cpu s;
  sr_quiet : no_faults s -> no_faults s';
  sr_map : forall a, same_map s s' a;
  sr_flags : forall a, a <> src -> pmap s' a = pmap s a;
  sr_other : forall a va, a <> d -> vmm_query_page s' a va = vmm_query_page s a va;
  sr_query : forall va, vmm_query_page s' d va = if pml4_index va =? i then vmm_query_page s src va else vmm_query_page s d va;
  sr_entry : forall j, index j -> j <> i -> entry s' (root s' d) j = entry s (root s d) j;
  sr_pending : forall a, destroy_pending (pmap s' a) = destroy_pending (pmap s a);
  sr_exported : shared_source (pmap s src) = true -> shared_source (pmap s' src) = true }.

Lemma share_end d src i s0 s e :
  vmm_wf s0 -> lives src s s0 -> (forall a, same_map s s0 a) -> (forall a va, vmm_query_page s0 a va = vmm_query_page s a va) ->
  v_pages s0 = v_pages s -> (forall a, destroy_pending (pmap s0 a) = destroy_pending (pmap s a)) ->
  (shared_source (pmap s src) = true -> shared_source (pmap s0 src) = true) ->
  map_live s0 d -> map_live s0 src -> d <> src -> index i -> map_owns_pml4_index s0 d i = false -> e = entry s0 (root s0 src) i ->
  (has e PTE_PRESENT = true -> shared_source (pmap s0 src) = true) ->
  shares d src i s (set_entry (root s0 d) i e s0).
Proof.
  intros W [L1 L2 L3 L4 L5 L6 L7 _] Hsm Hq Hpages Hpend Hexp Hd Hs Hne Hi Ho He Hsh.
  assert (e = 0 \/ exists x h, x <> d /\ shared_source (pmap s0 x) = true /\ node s0 x [i] h /\ target (v_use_phys_map s0) e = Some h) as Hcase.
  { rewrite He in *. destruct (source_entry s0 src i W Hs Hi) as [?|(Hp & x & h & Hx & Hn & Ht & Hxs)]; [by left|]. right. exists x, h.
    split_and!; [intros ->; congruence|destruct Hxs as [->|]; [by apply Hsh|done]|done|done]. }
  destruct (foreign_entry_wf s0 d i e W Hd Hi Ho Hcase) as ([M1 M2 M3 M4 M5 M6 M7 _] & Hn & Hent).
  set (s' := set_entry (root s0 d) i e s0) in *.
  pose proof (root_node s0 d Hd) as Nd. pose proof (root_node s0 src Hs) as Ns.
  assert (root s0 src <> root s0 d) as Hrr by (intros E; rewrite E in Ns; by destruct (vw_inj s0 W src [] d [] _ Ns Nd) as [-> _]).
  split; [done|intros f; by rewrite M2, L2|by etrans|congruence|auto|intros a; by destruct (Hsm a)|exact L5|intros a va Ha; by rewrite M6, Hq| | |done|done].
  2: { intros j Hj Hji. change (root s' d) with (root s0 d). rewrite Hent, decide_False by (done || by intros [_ ?]).
       rewrite <- (sm_root _ _ _ (Hsm d) : root s0 d = root s d). unfold entry, table_of. by rewrite Hpages. }
  intros va. destruct (Z.eqb_spec (pml4_index va) i) as [E|E].
  - rewrite <- (Hq src), <- (M6 src va) by done. destruct (vw_table s0 W _ _ _ Nd) as (_ & _ & Pd). destruct (vw_table s0 W _ _ _ Ns) as (_ & _ & Ps).
    apply query_alias; try done. change (root s' d) with (root s0 d). change (root s' src) with (root s0 src).
    rewrite !Hent, E by apply index_mask. rewrite decide_True, decide_False by (done || by intros [? _]). done.
  - rewrite <- (Hq d). apply query_entries; [done|done|done|]. intros x p f j Hf Hx Hj Hp. rewrite Hent by done. case_decide as Ex; [|done].
    destruct Ex as [-> ->]. destruct (vw_inj s0 W x p d [] _ Hf Nd) as [-> ->]. by rewrite Hp in E.
Qed.

Lemma share_call d src i s :
  vmm_wf s -> 0 <= i ->
  let '(b, s') := vmm_page_map_share_pml4_entry d src i s in
  if (b : bool) then shares d src i s s' /\ map_active s d = false /\ d <> src else s' = s.
Proof.
  intros W Hi0. unfold vmm_page_map_share_pml4_entry. destruct (profile_supported s); [|done]. unfold share_locked.
  destruct (!nz d || !nz src || (root_frame (pmap s d) =? FRAME_INVALID) || (root_frame (pmap s src) =? FRAME_INVALID)
     || (VM_PML4_ENTRY_COUNT <=? i)) eqn:E1; [done|].
  destruct ((d =? src) || destroy_pending (pmap s d) || destroy_pending (pmap s src) || map_active s d) eqn:E2; [done|].
  destruct (map_owns_pml4_index s d i) eqn:Ho; [done|].
  do 4 (apply orb_false_iff in E1 as [E1 ?]). do 3 (apply orb_false_iff in E2 as [E2 ?]). apply negb_false_iff in E1, H2. bool_prop.
  assert (map_live s d /\ map_live s src) as [Hd Hs] by (split; split; try done; by apply negb_true_iff, Z.eqb_neq).
  assert (index i) as Hi by (unfold index, VM_PML4_ENTRY_COUNT in *; lia).
  pose proof (root_node s d Hd) as Nd. pose proof (root_node s src Hs) as Ns.
  destruct (vw_table s W d [] _ Nd) as (_ & Hlen & Hpd). destruct (vw_table s W src [] _ Ns) as (_ & _ & Hps).
  fold (root s d) (root s src). rewrite Hpd, Hps. destruct (has (entry s (root s d) i) PTE_PRESENT); [done|].
  set (e := entry s (root s src) i).
  assert (root s src <> root s d) as Hrr by (intros E; rewrite E in Ns; by destruct (vw_inj s W src [] d [] _ Ns Nd) as [-> _]).
  rewrite (entry_set s (root s d) i e (root s src) i Hi Hi Hlen), decide_False by (by intros [? _]). fold e.
  split; [|done]. destruct (has e PTE_PRESENT) eqn:He.
  - set (g := fun m => m <| shared_source := true |>).
    assert (same_map s (set_pmap src g s) src) as Es by (split; by rewrite pmap_set, decide_True).
    assert (lives src s (set_pmap src g s)) as Lv by (by apply flags_lives).
    assert (forall a, same_map s (set_pmap src g s) a) as Hsm.
    { intros a. destruct (decide (a = src)) as [->|Hx]; [done|]. split; by rewrite pmap_set, decide_False. }
    assert (root (set_pmap src g s) d = root s d) as Er by apply Hsm. assert (root (set_pmap src g s) src = root s src) as Er' by apply Hsm.
    change (set_pmap src g (set_entry (root s d) i e s)) with (set_entry (root s d) i e (set_pmap src g s)). rewrite <- Er.
    apply share_end; try done; [apply Lv|intros a va; by apply flags_query|
      intros a; rewrite pmap_set; by destruct (decide (a = src)) as [->|]|intros _; by rewrite pmap_set, decide_True|by apply (same_map_live s _ d (Hsm d))|by apply (same_map_live s _ src (Hsm src))|
      by rewrite (same_map_owns s _ d i (Hsm d))|by rewrite Er'|intros _; by rewrite pmap_set, decide_True].
  - by apply share_end; [|by apply lives_refl|..]; try done; rewrite He.
Qed.

(** Sharing into an empty entry the destination does not own succeeds. *)
Lemma share_succeeds d src i s :
  vmm_wf s -> profile_supported s = true -> map_live s d -> map_live s src -> d <> src -> index i ->
  destroy_pending (pmap s d) = false -> destroy_pending (pmap s src) = false -> map_active s d = false ->
  map_owns_pml4_index s d i = false -> entry s (root s d) i = 0 -> (vmm_page_map_share_pml4_entry d src i s).1 = true.
Proof.
  intros W Hp Hd Hs Hne Hi Hpd Hps Ha Ho He. destruct (vw_table s W d [] _ (root_node s d Hd)) as (_ & _ & Pd).
  destruct (vw_table s W src [] _ (root_node s src Hs)) as (_ & _ & Ps).
  unfold vmm_page_map_share_pml4_entry, share_locked. rewrite Hp. destruct Hd as [Hd Hd'], Hs as [Hs Hs'].
  rewrite Hd, Hs, Hpd, Hps, Ha, Ho, (proj2 (Z.eqb_neq _ _) Hd'), (proj2 (Z.eqb_neq _ _) Hs'), (proj2 (Z.eqb_neq _ _) Hne).
  unfold VM_PML4_ENTRY_COUNT. rewrite (proj2 (Z.leb_gt 512 i)) by (unfold index in Hi; lia). cbn [negb orb].
  fold (root s d) (root s src). by rewrite Pd, Ps, He.
Qed.
