(* ===== verification/VmmMachine.v ===== *)
(** All operations of the page-table module in any order, with the processor
    loading CR3 and filling its cache between them. *)

From S2P Require Import Prelude Pmm PmmProofs PmmRefine Frames Vmm.
From S2P Require Import VmmWf VmmEdit VmmOps VmmMap VmmCalls.
From S2P Require Import VmmUnmap VmmLife VmmShare.

Open Scope jcos_scope.

(** * The active map *)

Lemma phys_inj s f g : vmm_wf s -> held (v_pmm s) f -> held (v_pmm s) g -> frame_to_phys f = frame_to_phys g -> f = g.
Proof.
  intros W [Hf _] [Hg _]. apply owned_range in Hf, Hg; [|apply W..].
  assert (forall x, 256 <= x < 2 ^ 52 -> frame_to_phys x = x * 4096) as E; [|rewrite !E by done; lia].
  intros x Hx. unfold frame_to_phys. destruct (Z.eqb_spec x FRAME_INVALID) as [->|_]; [unfold FRAME_INVALID, U64_MAX in Hx; lia|].
  change (U64_MAX / FRAME_SIZE) with 4503599627370495. destruct (Z.ltb_spec 4503599627370495 x); [lia|]. apply u64_id.
  unfold is_u64, FRAME_SIZE. lia.
Qed.

Lemma active_unique s a b : vmm_wf s -> map_active s a = true -> map_active s b = true -> a = b.
Proof.
  intros W Ha Hb. pose proof (active_live s a Ha) as La. pose proof (active_live s b Hb) as Lb.
  pose proof (root_node s a La) as Na. pose proof (root_node s b Lb) as Nb.
  assert (root s a = root s b) as E.
  { apply (phys_inj s); [done|by apply (vw_table s W a [])|by apply (vw_table s W b [])|].
    unfold map_active in Ha, Hb. apply andb_true_iff in Ha as [_ Ha], Hb as [_ Hb]. bool_prop. unfold root. congruence. }
  rewrite E in Na. by destruct (vw_inj s W a [] b [] _ Na Nb).
Qed.

(** * Steps that keep the system running *)

Record running (s : Vmm) : Prop := {
  rn_wf : vmm_wf s;
  rn_active : exists a, map_active s a = true;
  rn_coherent : coherent s }.

Record advances (s s' : Vmm) : Prop := {
  ad_running : running s';
  ad_pool : forall f, pool s' f <-> pool s f;
  ad_frames : same_frames (v_pmm s) (v_pmm s') }.

Lemma advances_refl s : running s -> advances s s.
Proof. by split. Qed.

Lemma advances_trans s1 s2 s3 : advances s1 s2 -> advances s2 s3 -> advances s1 s3.
Proof. intros [A1 A2 A3] [B1 B2 B3]. split; [done| |by etrans]. intros f. by rewrite B2, A2. Qed.

Lemma moved_advances s s' : running s -> moved s s' -> (coherent s -> coherent s') -> advances s s'.
Proof.
  intros [W [a Ha] Hc] [M1 M2 M3 M4 M5 M6 _] Hc'. split; [|done|done]. split; [done|exists a; by rewrite M5|auto].
Qed.

(** An operation on an inactive map leaves the active one alone. *)
Lemma quiet_advances s s' m :
  running s -> map_active s m = false -> vmm_wf s' -> (forall f, pool s' f <-> pool s f) -> same_frames (v_pmm s) (v_pmm s') ->
  v_cpu s' = v_cpu s -> (forall a, a <> m -> root_frame (pmap s' a) = root_frame (pmap s a)) ->
  (forall a va, a <> m -> vmm_query_page s' a va = vmm_query_page s a va) -> advances s s'.
Proof.
  intros [W [a Ha] Hc] Hm W' Hp Hf Ecpu Er Hq. assert (a <> m) as Hne by (intros ->; congruence).
  assert (map_active s' a = true) as Ha' by (unfold map_active in *; by rewrite Er, Ecpu).
  split; [|done|done]. split; [done|by exists a|]. intros b va x Hb Hx. rewrite (active_unique s' b a W' Hb Ha'), Hq by done.
  apply Hc; [done|by rewrite <- Ecpu].
Qed.

Lemma lives_advances s s' m : running s -> map_active s m = false -> lives m s s' -> advances s s'.
Proof. intros Hr Hm [L1 L2 L3 L4 L5 L6 L7 _]. apply (quiet_advances s s' m); try done. intros a Ha. by rewrite L5. Qed.

(** * The machine *)

Inductive VmmEvent :=
  | VCreate (map first last : Z)
  | VDestroy (map : Z)
  | VCollect (map : Z)
  | VMap (map address frame flags : Z)
  | VUnmap (map address : Z)
  | VProtect (map address expected flags : Z) (writable : bool)
  | VRange (map address physical size flags : Z)
  | VShare (destination source index : Z)
  | VReclaim
  | VFault (map : Z) (fault : VmmTestFault) (skip : Z)
  | VSwitch (map : Z)
  | VFill (map address : Z).

(** The processor caches a translation of the map it runs on. *)
Definition fill_tlb (map address : Z) (s : Vmm) : Vmm :=
  match vmm_query_page s map address with
  | Some x => s <| v_cpu := (v_cpu s) <| c_tlb := <[address := x]> (c_tlb (v_cpu s)) |> |>
  | None => s
  end.

Definition vmm_step (e : VmmEvent) (s : Vmm) : Vmm :=
  match e with
  | VCreate map first last => (vmm_page_map_create_owned_range map first last s).2
  | VDestroy map => (vmm_page_map_destroy map s).2
  | VCollect map => (vmm_page_map_collect map s).2
  | VMap map address frame flags => (vmm_map_page map address frame flags s).2
  | VUnmap map address => (vmm_unmap_page map address s).2
  | VProtect map address expected flags writable => (vmm_set_writable map address expected flags writable s).2
  | VRange map address physical size flags => (vmm_map_range map address physical size flags s).2
  | VShare destination source index => (vmm_page_map_share_pml4_entry destination source index s).2
  | VReclaim => (vmm_reclaim_unlinked_table s).2
  | VFault map fault skip => (vmm_test_fail_once map fault skip s).2
  | VSwitch map => arch_write_cr3 (frame_to_phys (root_frame (pmap s map))) s
  | VFill map address => fill_tlb map address s
  end.

(** Arguments have the range of their types, storage of a live map is not reused,
    and CR3 is loaded with the root of a live map. *)
Definition vmm_event_ok (s : Vmm) (e : VmmEvent) : Prop :=
  match e with
  | VCreate map first last => ~ map_live s map /\ 0 <= first
  | VMap _ address frame flags => is_u64 address /\ is_u64 frame /\ is_u64 flags
  | VUnmap _ address => is_u64 address
  | VProtect _ address _ _ _ => is_u64 address
  | VRange _ _ _ _ flags => is_u64 flags
  | VShare _ _ index => 0 <= index
  | VSwitch map => map_active (arch_write_cr3 (frame_to_phys (root_frame (pmap s map))) s) map = true
  | VFill map _ => map_active s map = true
  | _ => True
  end.

Lemma map_page_advances s m va frame flags :
  running s -> is_u64 va -> is_u64 frame -> is_u64 flags -> advances s (vmm_map_page m va frame flags s).2.
Proof.
  intros Hr H1 H2 H3. pose proof (map_page_call m va frame flags s (rn_wf _ Hr) H1 H2 H3) as H.
  destruct (vmm_map_page m va frame flags s) as [b s']. destruct H as (M & _ & _ & _ & Hc & _). by apply moved_advances.
Qed.

Lemma phys_to_frame_u64 x : is_u64 x -> is_u64 (phys_to_frame x).
Proof.
  intros Hx. unfold phys_to_frame. destruct (nz _); [unfold is_u64, FRAME_INVALID, U64_MAX; lia|]. unfold is_u64, FRAME_SIZE in *.
  split; [apply Z.div_pos; lia|]. apply (Z.le_lt_trans _ x); [|lia]. apply Z.div_le_upper_bound; lia.
Qed.

Lemma for_each_advances body ks s :
  running s -> (forall i s1, running s1 -> advances s1 (body i s1).2) -> advances s (for_each body ks s).2.
Proof.
  intros Hr Hb. revert s Hr. induction ks as [|i ks IH]; intros s Hr; [by apply advances_refl|]. cbn [for_each].
  pose proof (Hb i s Hr) as H. destruct (body i s) as [[] s1]; [|done]. eapply advances_trans; [exact H|]. apply IH, H.
Qed.

Lemma map_range_advances s m va pa size flags :
  running s -> is_u64 flags -> advances s (vmm_map_range m va pa size flags s).2.
Proof.
  intros Hr Hf. unfold vmm_map_range.
  repeat match goal with |- advances s (if ?b then _ else _).2 => destruct b; [by apply advances_refl|] end.
  cbv zeta. repeat match goal with |- advances s (if ?b then _ else _).2 => destruct b; [by apply advances_refl|] end.
  apply for_each_advances; [done|]. intros i s1 Hr1. unfold map_range_page.
  destruct (map_owns_pml4_index s1 m _); cbn [negb]; [|by apply advances_refl].
  destruct (phys_to_frame _ =? FRAME_INVALID); [by apply advances_refl|].
  destruct (vmm_query_page s1 m _) as [[x y]|].
  - destruct (negb _); [by apply advances_refl|]. destruct (negb _); by apply advances_refl.
  - apply map_page_advances; [done|apply u64_range|apply phys_to_frame_u64, u64_range|done].
Qed.

Lemma arm_advances s m fault skip : running s -> advances s (vmm_test_fail_once m fault skip s).2.
Proof.
  intros Hr. unfold vmm_test_fail_once. destruct (!nz m); [by apply advances_refl|].
  destruct (!ft_armed (v_faults s fault)); [|by apply advances_refl]. cbn [snd]. pose proof Hr as [W [a Ha] Hc].
  set (s' := set_fault fault (mkFault m skip true) s). assert (aside s s') as Has by done.
  split; [|intros f; unfold pool; by setoid_rewrite (fun m p => aside_node s s' m p f Has)|done].
  split; [|by exists a|intros b va x Hb Hx; by apply (Hc b)].
  apply (aside_wf s s' W Has); [apply W|intros x p f Hf; by apply (vw_table s W x p)|apply W].
Qed.

Lemma cpu_advances s c :
  running s -> (exists a, map_active (s <| v_cpu := c |>) a = true) -> coherent (s <| v_cpu := c |>) -> advances s (s <| v_cpu := c |>).
Proof. intros [W _ _] Ha Hc. split; [split; [by apply cpu_wf|done|done]|intros f; apply cpu_pool|done]. Qed.

Lemma vmm_step_advances e s : running s -> vmm_event_ok s e -> advances s (vmm_step e s).
Proof.
  intros Hr Hok. pose proof Hr as [W [a Ha] Hc]. destruct e; cbn [vmm_step vmm_event_ok] in *.
  - destruct Hok as [Hd Hf]. pose proof (page_map_create_call map first last s W Hd Hf) as H.
    destruct (vmm_page_map_create_owned_range map first last s) as [b s']. destruct H as [Lv _]. apply (lives_advances s s' map); [done| |done].
    destruct (map_active s map) eqn:E; [|done]. by apply active_live in E.
  - pose proof (page_map_destroy_call map s W) as H. unfold vmm_page_map_destroy in *. destruct (map_reclaimable s map) eqn:Er; [|by apply advances_refl].
    destruct (reclaimable_inv s map Er) as (_ & _ & _ & Hi).
    match goal with |- advances s ?t.2 => destruct t as [b s'] end. destruct H as [Lv _]. by apply (lives_advances s s' map).
  - pose proof (collect_map_call map s W) as H. unfold vmm_page_map_collect in *. destruct (map_reclaimable s map) eqn:Er; [|by apply advances_refl].
    destruct (reclaimable_inv s map Er) as (_ & _ & _ & Hi).
    match goal with |- advances s ?t.2 => destruct t as [b s'] end. destruct H as [Lv _]. by apply (lives_advances s s' map).
  - destruct Hok as (H1 & H2 & H3). by apply map_page_advances.
  - pose proof (unmap_call map address s W Hok) as H. destruct (vmm_unmap_page map address s) as [r s'].
    destruct H as (_ & _ & M & _ & Hc' & _). by apply moved_advances.
  - destruct (vmm_set_writable map address expected flags writable s) as [b s'] eqn:E. cbn [snd]. destruct b.
    + pose proof (set_writable_refused map address expected flags writable s) as Hal. rewrite E in Hal. specialize (Hal eq_refl).
      pose proof (set_writable_allowed map address expected flags writable s W Hok Hal) as H. rewrite E in H. destruct H as (_ & M & _ & Hc').
      by apply moved_advances.
    + pose proof (set_writable_same map address expected flags writable s) as H. rewrite E in H. rewrite (H eq_refl : s' = s). by apply advances_refl.
  - by apply map_range_advances.
  - pose proof (share_call destination source index s W Hok) as H. destruct (vmm_page_map_share_pml4_entry destination source index s) as [b s'].
    destruct b; [|rewrite H; by apply advances_refl]. destruct H as ([S1 S2 S3 S4 S5 S6 S7 S8 S9] & Hi & Hne).
    apply (quiet_advances s s' destination); try done. intros x Hx. apply S6.
  - pose proof (reclaim_call a s W) as H. destruct (vmm_reclaim_unlinked_table s) as [b s']. destruct H as (Lv & Em & Hq & _). cbn [snd].
    split; [|apply Lv|apply Lv]. split; [apply Lv|exists a; unfold map_active in *; by rewrite (aside_pmap s s' a Em), (lf_cpu _ _ _ Lv)|].
    intros b' va x Hb Hx. rewrite Hq. apply Hc; [|by rewrite <- (lf_cpu _ _ _ Lv)].
    unfold map_active in *. by rewrite (aside_pmap s s' b' Em), (lf_cpu _ _ _ Lv) in Hb.
  - by apply arm_advances.
  - apply cpu_advances; [done|by exists map|]. intros b va x _ Hx.
    change ((∅ : gmap Z (Z * Z)) !! va = Some x) in Hx. by apply lookup_empty_Some in Hx.
  - unfold fill_tlb. destruct (vmm_query_page s map address) as [x|] eqn:Eq; [|by apply advances_refl].
    apply cpu_advances; [done|by exists map|]. intros b va y Hb Hy. rewrite cpu_query.
    assert (b = map) as -> by (by apply (active_unique s)). change (<[address:=x]> (c_tlb (v_cpu s)) !! va = Some y) in Hy.
    apply lookup_insert_Some in Hy as [[<- <-]|[_ Hy]]; [done|]. by apply Hc.
Qed.
