(* ===== verification/VmmTheorems.v ===== *)
(** The theorems of the page-table module. *)

From S2P Require Import Prelude Pmm PmmProofs PmmInit PmmRefine Frames.
From S2P Require Import Vmm VmmWf VmmEdit VmmOps VmmMap.
From S2P Require Import VmmCalls VmmUnmap VmmLife VmmShare VmmMachine.

Open Scope jcos_scope.

(** * Theorems *)


(** C36. [vmm_unmap_page] returns the frame of the page exactly when the change
    is allowed and the page is mapped; then the page translates to nothing, every
    other page of every map as before, and a map followed by an unmap gives the
    frame back. A refusal changes nothing. Tables emptied by the removal go back
    to the allocator, and no stale translation survives in the processor. *)
Theorem unmap_page_correct (s : Vmm) (m va : Z) :
  vmm_wf s -> is_u64 va ->
  let '(r, s') := vmm_unmap_page m va s in
  r = (if change_allowed s m va then fst <$> vmm_query_page s m va else None) /\ (r = None -> s' = s) /\
  vmm_wf s' /\ (forall f, pool s' f <-> pool s f) /\ (coherent s -> coherent s') /\
  forall m' va', page va' -> map_live s m' -> map_owns_pml4_index s m' (pml4_index va') = true ->
    vmm_query_page s' m' va' =
      if bool_decide (is_Some r) && (m' =? m) && (va' =? va) then None else vmm_query_page s m' va'.
Proof.
  intros W Hva. pose proof (unmap_call m va s W Hva) as H. destruct (vmm_unmap_page m va s) as [r s'].
  destruct H as (Hr & Hno & M & Hq & Hc & _). split_and!; [done|done|apply M|apply M|done|]. intros m' va' Hp Hl Ho. rewrite (Hq m' va' Hp Ho Hl).
  destruct r as [f|]; cbn [bool_decide is_Some].
  - rewrite bool_decide_eq_true_2 by (by exists f). destruct (Z.eqb_spec m' m) as [->|], (Z.eqb_spec va' va) as [->|]; case_decide as E; tauto || done.
  - rewrite bool_decide_eq_false_2 by (by intros []). cbn [andb]. case_decide as E; [|done]. by destruct E as [-> ->].
Qed.

(** C37. [vmm_set_writable] is granted exactly for a page whose frame and
    permissions are the expected ones, that is not executable, in the map's own
    range; it then changes the write permission of this page and nothing else, so
    no page ever becomes writable and executable through it, and no page of any
    map changes otherwise. A refusal changes nothing. *)
Theorem set_writable_correct (s : Vmm) (m va expected flags : Z) (w : bool) :
  vmm_wf s -> is_u64 va ->
  let '(b, s') := vmm_set_writable m va expected flags w s in
  (b = true <-> writable_allowed s m va expected flags) /\ (b = false -> s' = s) /\
  vmm_wf s' /\ (forall f, pool s' f <-> pool s f) /\ (coherent s -> coherent s') /\
  forall m' va', page va' -> map_live s m' -> map_owns_pml4_index s m' (pml4_index va') = true ->
    vmm_query_page s' m' va' =
      if b && (m' =? m) && (va' =? va)
      then Some (expected, if w then Z.lor flags VM_WRITE else Z.land flags (Z.lnot VM_WRITE)) else vmm_query_page s m' va'.
Proof.
  intros W Hva. pose proof (set_writable_refused m va expected flags w s) as Hal. pose proof (set_writable_same m va expected flags w s) as Hsame.
  pose proof (set_writable_allowed m va expected flags w s W Hva) as H. destruct (vmm_set_writable m va expected flags w s) as [b s'].
  cbn [fst snd] in *. destruct b.
  - destruct (H (Hal eq_refl)) as (_ & M & Hq & Hc). split_and!; try done; [apply M|apply M|]. intros m' va' Hp Hl Ho. rewrite (Hq m' va' Hp Ho Hl).
    destruct (Z.eqb_spec m' m) as [->|], (Z.eqb_spec va' va) as [->|]; case_decide as E; tauto || done.
  - rewrite (Hsame eq_refl). split_and!; try done. split; [done|]. intros Ha. by destruct (H Ha).
Qed.

(** A map that can go: it has a root and a range of its own in the top table, is
    not exported, its root is not the one the processor has loaded, and process
    context identifiers are off. *)
Record disposable (s : Vmm) (m : Z) : Prop := {
  di_root : m <> 0 /\ root_frame (pmap s m) <> FRAME_INVALID;
  di_range : owned_pml4_first (pmap s m) < owned_pml4_end (pmap s m) <= 512;
  di_private : shared_source (pmap s m) = false;
  di_inactive : Z.land (c_cr3 (v_cpu s)) 0x000FFFFFFFFFF000 <> frame_to_phys (root_frame (pmap s m));
  di_profile : Z.testbit (c_cr4 (v_cpu s)) 17 = false }.

Lemma reclaimable_spec s m : map_reclaimable s m = true <-> disposable s m.
Proof.
  unfold map_reclaimable, map_active, profile_supported, VM_PML4_ENTRY_COUNT, PTE_ADDRESS_MASK. rewrite has_bit by lia. split.
  - intros H. do 6 (apply andb_true_iff in H as [H ?]). rewrite H in *. bool_prop.
    match goal with Hr : root_frame _ <> FRAME_INVALID, Ha : _ && _ = false |- _ => rewrite (proj2 (Z.eqb_neq _ _) Hr) in Ha; cbn [negb andb] in Ha end. bool_prop. by split.
  - intros [(H1 & H2) [H3 H4] H5 H6 H7]. unfold nz. rewrite (proj2 (Z.eqb_neq _ _) H1), (proj2 (Z.eqb_neq _ _) H2), (proj2 (Z.ltb_lt _ _) H3), (proj2 (Z.leb_le _ _) H4).
    by rewrite H5, (proj2 (Z.eqb_neq _ _) H6), H7.
Qed.

(** C38. [vmm_page_map_destroy] destroys a map exactly when it has a root and a
    range of its own, is not exported, its root is not the one in CR3, the
    processor profile is the supported one, and it maps no page (unless a
    diagnostic makes a release fail, and then it can be retried: every page of
    every map translates as before). Then every table of the map, the root
    included, is free again, the map is dead, and no other map changes. *)
Theorem destroy_reclaims (s : Vmm) (m : Z) :
  vmm_wf s ->
  let '(b, s') := vmm_page_map_destroy m s in
  vmm_wf s' /\ (forall f, pool s' f <-> pool s f) /\
  (b = true -> disposable s m /\ unmapped s m) /\
  (no_faults s -> disposable s m -> unmapped s m -> b = true) /\
  (b = true -> ~ map_live s' m /\ forall p f, node s m p f -> f ∈ free_set (v_pmm s')) /\
  (forall a va, a <> m -> pmap s' a = pmap s a /\ vmm_query_page s' a va = vmm_query_page s a va) /\
  (b = false -> forall va, page va -> map_live s m -> map_owns_pml4_index s m (pml4_index va) = true ->
     vmm_query_page s' m va = vmm_query_page s m va).
Proof.
  intros W. pose proof (page_map_destroy_call m s W) as H. pose proof (destroy_unlinked m s) as Hu. destruct (vmm_page_map_destroy m s) as [b s'].
  destruct H as ([L1 L2 L3 L4 L5 L6 L7 L8] & Hb & Hf & Hd & _). cbn [snd] in Hu.
  rewrite reclaimable_spec in Hb, Hd.
  split_and!; try done; [intros Ht; by destruct (Hb Ht) as (? & ? & _)| |intros a va Ha; by rewrite L5, L6|by auto].
  intros Ht. destruct (Hb Ht) as (_ & _ & Hdead). split; [done|]. intros p f Hn.
  assert (pool s f) as Hp by (right; left; by exists m, p). apply L2 in Hp as [?|[(m' & p' & Hn')|[Hv E]]]; [done| |].
  - destruct (decide (m' = m)) as [->|Hne]; [by destruct Hn'|]. apply L8 in Hn'; [|done]. by destruct (vw_inj s W m p m' p' f Hn Hn').
  - rewrite Hu in Hv, E. destruct (vw_unlinked s W Hv) as [_ H]. rewrite E in Hn. by apply H in Hn.
Qed.

Fixpoint vmm_run (es : list VmmEvent) (s : Vmm) : Vmm :=
  match es with [] => s | e :: es => vmm_run es (vmm_step e s) end.

Fixpoint vmm_events_ok (s : Vmm) (es : list VmmEvent) : Prop :=
  match es with [] => True | e :: es => vmm_event_ok s e /\ vmm_events_ok (vmm_step e s) es end.

Lemma vmm_run_advances es s : running s -> vmm_events_ok s es -> advances s (vmm_run es s).
Proof.
  revert s. induction es as [|e es IH]; intros s Hr Hok; [by apply advances_refl|]. destruct Hok as [He Hes]. cbn [vmm_run].
  pose proof (vmm_step_advances e s Hr He) as A. eapply advances_trans; [exact A|]. apply IH; [apply A|done].
Qed.

(** C39. Any sequence of operations of the module (creating, destroying and
    collecting maps, mapping, unmapping and protecting pages and ranges, sharing
    subtrees, retrying the quarantine, armed diagnostics), interleaved with loads
    of CR3 and of the translation cache, keeps the tables typed: every entry of
    a map's own range is empty or links the table of the next level, or at the
    last level maps a page; no frame is two tables, and no table is free. The
    frames of the pool are conserved, and the processor never uses a
    translation the active tables do not contain. *)
Theorem tables_stay_typed (es : list VmmEvent) (s : Vmm) :
  running s -> vmm_events_ok s es ->
  let s' := vmm_run es s in
  (forall m p f i, node s' m p f -> slot s' m p i -> entry s' f i = 0 \/
     if (length p <? 3)%nat then exists g, existing_table s' f i = Some g /\ node s' m (p ++ [i]) g else leaf_ok (entry s' f i)) /\
  (forall m p m' p' f, node s' m p f -> node s' m' p' f -> m = m' /\ p = p') /\
  (forall m p f, node s' m p f -> held (v_pmm s') f) /\
  (forall f, pool s' f <-> pool s f) /\
  (forall a va x, map_active s' a = true -> c_tlb (v_cpu s') !! va = Some x -> vmm_query_page s' a va = Some x).
Proof.
  intros Hr Hok s'. destruct (vmm_run_advances es s Hr Hok) as [[W Ha Hc] Hp Hf]. fold s' in W, Ha, Hc, Hp, Hf.
  split_and!; [|apply W|intros m p f Hn; by apply (vw_table s' W m p)|done|done].
  intros m p f i Hn Hs. pose proof Hn as (_ & (_ & Hle & _) & _). destruct (Nat.ltb_spec (length p) 3) as [Hlt|Hge].
  - destruct (vw_link s' W m p f i Hn Hlt Hs) as [?|([g Hg] & _)]; [by left|]. right. exists g. split; [done|]. by eapply node_child.
  - apply (vw_leaf s' W m p f i Hn); [lia|apply Hs].
Qed.

(** * A concrete machine

    The frames of the allocator's demonstration machine, no map, and a processor
    with execute protection. *)

Definition demo_cpu : Cpu := mkCpu (Z.shiftl 1 16) 0 0 (fun _ => 0) (fun _ => (0, 0, 0, Z.shiftl 1 16)) ∅.

Definition vmm_empty : Vmm := mkVmm demo_pmm ∅ ∅ false true FRAME_INVALID (fun _ => mkFault 0 0 false) demo_cpu.

(** A kernel map is created and loaded, then a second map that owns the lower
    half. *)
Definition vmm_loaded : Vmm :=
  arch_write_cr3 (frame_to_phys 257) (vmm_page_map_create_owned_range 0x10 0 512 vmm_empty).2.

Definition vmm_demo : Vmm := vmm_step (VCreate 0x20 0 256) vmm_loaded.

Lemma vmm_empty_dead m : ~ map_live vmm_empty m.
Proof. intros [_ H]. unfold pmap in H. change (v_maps vmm_empty) with (∅ : gmap Z VmPageMap) in H. by rewrite lookup_empty in H. Qed.

(** A module without page maps is well formed. *)
Lemma dead_wf s : pmm_wf (v_pmm s) -> v_unlinked_table s = FRAME_INVALID -> (forall m, ~ map_live s m) -> vmm_wf s.
Proof.
  intros Hp Hu Hd. assert (forall m p f, ~ node s m p f) as Hn by (intros m p f [Hl _]; by apply Hd in Hl). split; [done|..].
  - intros m Hl. by apply Hd in Hl.
  - intros m p f Hf. by apply Hn in Hf.
  - intros m p m' p' f Hf. by apply Hn in Hf.
  - intros m p f i Hf. by apply Hn in Hf.
  - intros m p f i Hf. by apply Hn in Hf.
  - intros m p f q g j r i Hf. by apply Hn in Hf.
  - intros m i Hl. by apply Hd in Hl.
  - intros Hv. by rewrite Hu in Hv.
Qed.

Lemma vmm_empty_wf : vmm_wf vmm_empty.
Proof. apply dead_wf; [apply demo_wf|done|apply vmm_empty_dead]. Qed.

Lemma vmm_loaded_running : running vmm_loaded.
Proof.
  pose proof (page_map_create_call 0x10 0 512 vmm_empty vmm_empty_wf (vmm_empty_dead _) ltac:(lia)) as H. unfold vmm_loaded.
  assert ((vmm_page_map_create_owned_range 0x10 0 512 vmm_empty).1 = true) as Hb by (by vm_compute).
  assert (map_active (arch_write_cr3 (frame_to_phys 257) (vmm_page_map_create_owned_range 0x10 0 512 vmm_empty).2) 0x10 = true) as Ha
    by (by vm_compute).
  destruct (vmm_page_map_create_owned_range 0x10 0 512 vmm_empty) as [b s]. destruct H as [Lv _]. cbn [snd] in *.
  split; [apply cpu_wf, Lv|by exists 0x10|]. intros a va x _ Hx.
  change ((∅ : gmap Z (Z * Z)) !! va = Some x) in Hx. by apply lookup_empty_Some in Hx.
Qed.

Lemma step_running e s : running s -> vmm_event_ok s e -> running (vmm_step e s).
Proof. intros Hr Hok. by apply vmm_step_advances. Qed.

Lemma vmm_loaded_second : ~ map_live vmm_loaded 0x20.
Proof. intros [_ H]. apply H. by vm_compute. Qed.

Lemma vmm_demo_running : running vmm_demo.
Proof. apply (step_running (VCreate 0x20 0 256)); [apply vmm_loaded_running|]. split; [apply vmm_loaded_second|lia]. Qed.

(** The demonstration machine with a page mapped in the second map. *)
Definition vmm_mapped : Vmm := vmm_step (VMap 0x20 0x400000 300 3) vmm_demo.

Lemma vmm_mapped_running : running vmm_mapped.
Proof. apply (step_running (VMap 0x20 0x400000 300 3)); [apply vmm_demo_running|]. by split_and!. Qed.


Lemma unmap_page_correct_witness :
  exists s', vmm_unmap_page 0x20 0x400000 vmm_mapped = (Some 300, s') /\ vmm_query_page s' 0x20 0x400000 = None.
Proof.
  pose proof (unmap_page_correct vmm_mapped 0x20 0x400000 (rn_wf _ vmm_mapped_running)) as H.
  assert ((vmm_unmap_page 0x20 0x400000 vmm_mapped).1 = Some 300) as Hr by (by vm_compute).
  destruct (vmm_unmap_page 0x20 0x400000 vmm_mapped) as [r s']. cbn [fst] in Hr. subst r.
  destruct H as (_ & _ & _ & _ & _ & Hq); [by split|]. exists s'. split; [done|].
  rewrite Hq; [done|by split_and!|by split; vm_compute|by vm_compute].
Defined.

Lemma set_writable_correct_witness :
  exists s', vmm_set_writable 0x20 0x400000 300 3 false vmm_mapped = (true, s') /\ vmm_query_page s' 0x20 0x400000 = Some (300, 2).
Proof.
  pose proof (set_writable_correct vmm_mapped 0x20 0x400000 300 3 false (rn_wf _ vmm_mapped_running)) as H.
  assert ((vmm_set_writable 0x20 0x400000 300 3 false vmm_mapped).1 = true) as Hr by (by vm_compute).
  destruct (vmm_set_writable 0x20 0x400000 300 3 false vmm_mapped) as [b s']. cbn [fst] in Hr. subst b.
  destruct H as (_ & _ & _ & _ & _ & Hq); [by split|]. exists s'. split; [done|].
  rewrite Hq; [done|by split_and!|by split; vm_compute|by vm_compute].
Defined.

Lemma destroy_reclaims_witness :
  exists s', vmm_page_map_destroy 0x20 vmm_demo = (true, s') /\ ~ map_live s' 0x20.
Proof.
  pose proof (destroy_reclaims vmm_demo 0x20 (rn_wf _ vmm_demo_running)) as H.
  assert ((vmm_page_map_destroy 0x20 vmm_demo).1 = true) as Hr by (by vm_compute).
  destruct (vmm_page_map_destroy 0x20 vmm_demo) as [b s']. cbn [fst] in Hr. subst b.
  destruct H as (_ & _ & _ & _ & Hd & _). exists s'. split; [done|]. by apply Hd.
Defined.

(** A page of the second map is mapped and unmapped with a failing release, the
    kernel half is shared, a page of the running map is cached and unmapped. *)
Definition vmm_demo_events : list VmmEvent :=
  [VFault 0x20 VMM_TEST_FREE 1; VMap 0x20 0x400000 300 3; VUnmap 0x20 0x400000; VMap 0x10 0xFFFF800000000000 301 1;
   VFill 0x10 0xFFFF800000000000; VShare 0x20 0x10 256; VUnmap 0x10 0xFFFF800000000000; VCollect 0x20; VDestroy 0x20; VReclaim].

Lemma tables_stay_typed_witness :
  let s' := vmm_run vmm_demo_events vmm_demo in
  (forall f, pool s' f <-> pool vmm_demo f) /\ c_tlb (v_cpu s') = ∅ /\ shared_source (pmap s' 0x10) = true.
Proof.
  destruct (tables_stay_typed vmm_demo_events vmm_demo vmm_demo_running) as (_ & _ & _ & Hp & _).
  - cbn [vmm_events_ok vmm_demo_events vmm_event_ok]. split_and!; try done; by vm_compute.
  - split; [exact Hp|]. split; by vm_compute.
Defined.
