(* ===== verification/Space.v ===== *)
(** Address spaces: [kernel/address_space.c] over the page tables.

    [System] joins the kernel objects, the page tables and the contents of the
    page frames that hold data. The member [page_map] of the space at [a] is the
    page map at address [page_map a] of [Vmm]; the root frame and the pending flag
    of that structure are also kept in the storage of the space, where the
    capability and process modules read them, and [show_map] brings that copy up
    to date. [g_kernel_ready] and [g_next_id] are [om_initialized] and
    [om_next_id] of the module of spaces. *)

From S2P Require Import Prelude Pmm ObjectStorage Kernel Objects Vmm.

Open Scope jcos_scope.

(** * Data *)

Definition USER_PML4_FIRST : Z := 1.

Definition USER_PML4_END : Z := 256.

Definition KERNEL_LOW_PML4_SLOT : Z := 0.

Definition KERNEL_HIGH_PML4_FIRST : Z := 256.

Definition ADDRESS_SPACE_USER_BASE : Z := 0x0000008000000000.

Definition ADDRESS_SPACE_USER_LIMIT : Z := 0x0000800000000000.

Inductive SpaceCreateTestFault :=
  | SPACE_CREATE_TEST_ALLOCATE
  | SPACE_CREATE_TEST_AFTER_ROOT
  | SPACE_CREATE_TEST_AFTER_SHARE.

#[export] Instance SpaceCreateTestFault_eq_dec : EqDecision SpaceCreateTestFault.
Proof. solve_decision. Defined.

Record CreateFault := mkCreateFault {
  cf_target : Z;
  cf_fault : SpaceCreateTestFault;
  cf_fail_rollback : bool;
  cf_armed : bool }.

Definition create_fault_zero : CreateFault := mkCreateFault 0 SPACE_CREATE_TEST_ALLOCATE false false.

Record System := mkSystem {
  y_kernel : Kernel;
  y_vmm : Vmm;
  y_create_fault : CreateFault;
  y_data : gmap Z (list Z) }.

#[export] Instance rebuild_System : Rebuild System :=
  fun r => mkSystem (y_kernel r) (y_vmm r) (y_create_fault r) (y_data r).

(** Addresses of the static objects [g_kernel_space] and [g_unpublished_map]. *)
Definition g_kernel_space : Z := 0x80.

Definition g_unpublished_map : Z := 0x60.

(** [&space->page_map] *)
Definition page_map (space : Z) : Z := space + 8.

Definition show_map (space : Z) (s : System) : System :=
  let m := pmap (y_vmm s) (page_map space) in
  s <| y_kernel := set_spc space (fun a => a <| a_root_frame := root_frame m |>
                                             <| a_destroy_pending := destroy_pending m |>) (y_kernel s) |>.

Definition space_live (s : System) (space : Z) : bool := space_storage_live (y_kernel s) space.

(** A call of the page-table module. *)
Definition vmm_call {A} (op : Vmm -> A * Vmm) (s : System) : A * System :=
  let '(r, v) := op (y_vmm s) in (r, s <| y_vmm := v |>).

Definition unpublished_root (s : System) : Z := root_frame (pmap (y_vmm s) g_unpublished_map).

(** * Creation and destruction *)

Definition address_space_creation_cleanup_pending (s : System) : bool := unpublished_root s != FRAME_INVALID.

Definition address_space_reclaim_unpublished (s : System) : bool * System :=
  if unpublished_root s =? FRAME_INVALID then (true, s) else vmm_call (vmm_page_map_destroy g_unpublished_map) s.

Definition address_space_test_fail_create_once (target : Z) (fault : SpaceCreateTestFault) (fail_rollback : bool)
    (s : System) : bool * System :=
  if !nz target || (bool_decide (fault = SPACE_CREATE_TEST_ALLOCATE) && fail_rollback) then (false, s) else
  if !cf_armed (y_create_fault s) && !space_live s target && (unpublished_root s =? FRAME_INVALID)
     && !pmm_test_free_failure_armed (v_pmm (y_vmm s))
  then (true, s <| y_create_fault := mkCreateFault target fault fail_rollback true |>) else (false, s).

Definition address_space_test_create_fault_armed (s : System) : bool := cf_armed (y_create_fault s).

Definition address_space_test_clear_create_fault (s : System) : System := s <| y_create_fault := create_fault_zero |>.

Definition address_space_test_unpublished_root (s : System) : Z := unpublished_root s.

Definition space_create_fault (target : Z) (fault : SpaceCreateTestFault) (s : System) : bool * System :=
  let f := y_create_fault s in
  if !cf_armed f || (cf_target f != target) || !bool_decide (cf_fault f = fault) then (false, s) else
  let s := s <| y_create_fault := create_fault_zero |> in
  (true, if cf_fail_rollback f
         then (vmm_call (fun v => let '(r, p) := pmm_test_fail_free_range_once (unpublished_root s) 1 (v_pmm v) in
                                  (r, v <| v_pmm := p |>)) s).2
         else s).

Definition user_virtual_address (address : Z) : bool :=
  (address >=? ADDRESS_SPACE_USER_BASE) && (address <? ADDRESS_SPACE_USER_LIMIT).

Definition address_space_kernel_init (s : System) : bool * System :=
  if om_initialized (k_spc (y_kernel s)) then (false, s) else
  let s := s <| y_kernel := set_spc g_kernel_space (fun a => a <| a_id := 0 |> <| a_kernel := true |>) (y_kernel s) |> in
  let '(created, s) := vmm_call (vmm_page_map_create (page_map g_kernel_space)) s in
  let s := show_map g_kernel_space s in
  if !created then (false, s) else
  (true, s <| y_kernel := (y_kernel s) <| k_spc := mkObjectMod 1 true (storage_set 0 g_kernel_space (om_storage (k_spc (y_kernel s)))) |> |>).

Definition address_space_kernel (s : System) : Z := if !om_initialized (k_spc (y_kernel s)) then 0 else g_kernel_space.

(** The part of [address_space_create_locked] that fills the scratch map; false
    is a jump to its label [fail]. *)
Definition build_unpublished (space : Z) (s : System) : bool * System :=
  let share := vmm_page_map_share_pml4_entry g_unpublished_map (page_map g_kernel_space) in
  let '(ok, s) := vmm_call (vmm_page_map_create_owned_range g_unpublished_map USER_PML4_FIRST USER_PML4_END) s in
  if !ok then (false, s) else
  let '(fault, s) := space_create_fault space SPACE_CREATE_TEST_AFTER_ROOT s in
  if fault then (false, s) else
  let '(ok, s) := vmm_call (share KERNEL_LOW_PML4_SLOT) s in
  if !ok then (false, s) else
  let '(fault, s) := space_create_fault space SPACE_CREATE_TEST_AFTER_SHARE s in
  if fault then (false, s) else
  vmm_call (for_each share (seqZ KERNEL_HIGH_PML4_FIRST (VM_PML4_ENTRY_COUNT - KERNEL_HIGH_PML4_FIRST))) s.

(** [space->page_map = g_unpublished_map], which is then reset. *)
Definition move_unpublished (space : Z) (v : Vmm) : Vmm :=
  set_pmap g_unpublished_map (fun _ => page_map_zero) (set_pmap (page_map space) (fun _ => pmap v g_unpublished_map) v).

(** The ownership move that ends a successful creation. *)
Definition publish_space (space slot : Z) (s : System) : System :=
  let k := y_kernel s in
  let id := om_next_id (k_spc k) in
  let k := set_spc space (fun a => a <| a_id := id |>) k in
  let k := k <| k_spc := mkObjectMod (u64 (id + 1)) (om_initialized (k_spc k)) (storage_set slot space (om_storage (k_spc k))) |> in
  show_map space (s <| y_kernel := k |> <| y_vmm := move_unpublished space (y_vmm s) |>).

Definition address_space_create_locked (space : Z) (s : System) : bool * System :=
  if !nz space || space_live s space then (false, s) else
  let s := s <| y_kernel := set_spc space (fun _ => space_zero) (y_kernel s) |>
             <| y_vmm := set_pmap (page_map space) (fun _ => page_map_zero) (y_vmm s) |> in
  let s := show_map space s in
  let m := k_spc (y_kernel s) in
  if !om_initialized m || !nz (om_next_id m) || (unpublished_root s != FRAME_INVALID) then (false, s) else
  let slot := object_storage_empty (om_storage m) ADDRESS_SPACE_STORAGE_CAPACITY in
  if slot =? ADDRESS_SPACE_STORAGE_CAPACITY then (false, s) else
  let '(fault, s) := space_create_fault space SPACE_CREATE_TEST_ALLOCATE s in
  if fault then (false, s) else
  let '(built, s) := build_unpublished space s in
  if !built then (false, (address_space_reclaim_unpublished s).2) else (true, publish_space space slot s).

Definition address_space_create (space : Z) (s : System) : bool * System := address_space_create_locked space s.

Definition address_space_destroy (space : Z) (s : System) : bool * System :=
  let storage := om_storage (k_spc (y_kernel s)) in
  let slot := object_storage_find storage ADDRESS_SPACE_STORAGE_CAPACITY space in
  let a := spc (y_kernel s) space in
  if (slot =? ADDRESS_SPACE_STORAGE_CAPACITY) || (space =? g_kernel_space) || a_kernel a || nz (a_capability_refs a)
  then (false, s) else
  let '(destroyed, s) := vmm_call (vmm_page_map_destroy (page_map space)) s in
  let s := show_map space s in
  if !destroyed then (false, s) else
  let k := y_kernel s in
  let k := k <| k_spc := (k_spc k) <| om_storage := storage_set slot 0 storage |> |> in
  (true, s <| y_kernel := set_spc space (fun a => a <| a_id := 0 |>) k |>).

(** * Pages *)

Definition address_space_map_page (space virtual_address frame flags : Z) (s : System) : bool * System :=
  if !space_live s space then (false, s) else
  if !a_kernel (spc (y_kernel s) space) then
    if !user_virtual_address virtual_address then (false, s) else
    if has flags VM_WRITE && has flags VM_EXEC then (false, s) else
    vmm_call (vmm_map_page (page_map space) virtual_address frame (Z.lor flags VM_USER)) s
  else vmm_call (vmm_map_page (page_map space) virtual_address frame flags) s.

Definition address_space_unmap_page (space virtual_address : Z) (s : System) : option Z * System :=
  if !space_live s space then (None, s) else
  if !a_kernel (spc (y_kernel s) space) && !user_virtual_address virtual_address then (None, s) else
  vmm_call (vmm_unmap_page (page_map space) virtual_address) s.

Definition address_space_query_page (s : System) (space virtual_address : Z) : option (Z * Z) :=
  if !space_live s space then None else vmm_query_page (y_vmm s) (page_map space) virtual_address.
