(* ===== verification/SpaceWf.v ===== *)
(** The invariant of address spaces.

    Every live space has a live page map; a user space owns the lower half but
    its first slot, and translates the rest through tables of the kernel map;
    every page of a user space is reachable from user mode and never both
    writable and executable. *)

From S2P Require Import Prelude Pmm PmmProofs PmmRefine ObjectStorage Kernel.
From S2P Require Import Objects Frames Vmm VmmWf VmmEdit VmmOps.
From S2P Require Import VmmCalls VmmUnmap VmmLife VmmShare VmmMachine.
From S2P Require Import Space.

Open Scope jcos_scope.

(** * Moving a page map

    The creation of an address space moves its scratch map into place. *)

(** The structure at [u] moves to [m], and [u] is reset. *)
Definition move_map (u m : Z) (s : Vmm) : Vmm :=
  set_pmap u (fun _ => page_map_zero) (set_pmap m (fun _ => pmap s u) s).

Section Move.
  Context (s : Vmm) (u m : Z) (W : vmm_wf s).
  Context (Hu : map_live s u) (Hm : ~ map_live s m) (Hnz : nz m = true) (Hne : m <> u) (Hsh : shared_source (pmap s u) = false).

(** The map of the old state that a structure of the new state holds. *)
Definition source (x : Z) : Z := if decide (x = m) then u else x.

Lemma move_pmap x : pmap (move_map u m s) x = if decide (x = u) then page_map_zero else pmap s (source x).
Proof using.
  unfold move_map, source. rewrite pmap_set. destruct (decide (x = u)); [done|]. rewrite pmap_set. by destruct (decide (x = m)) as [->|].
Qed.

Lemma move_nz x : x <> u -> nz (source x) = nz x.
Proof using Hnz Hu. intros _. unfold source. case_decide as E; [|done]. rewrite E, Hnz. apply Hu. Qed.

Lemma move_live x : map_live (move_map u m s) x <-> x <> u /\ map_live s (source x).
Proof using Hnz Hu.
  destruct (decide (x = u)) as [->|Hx]; unfold map_live; rewrite move_pmap.
  - rewrite decide_True by done. split; [by intros [_ []]|by intros []].
  - rewrite decide_False, move_nz by done. tauto.
Qed.

Lemma move_owns x i : x <> u -> map_owns_pml4_index (move_map u m s) x i = map_owns_pml4_index s (source x) i.
Proof using Hnz Hu. intros Hx. unfold map_owns_pml4_index. by rewrite move_nz, move_pmap, decide_False. Qed.

Lemma move_root x : x <> u -> root (move_map u m s) x = root s (source x).
Proof using. intros Hx. unfold root. by rewrite move_pmap, decide_False. Qed.

Lemma move_node x p f : node (move_map u m s) x p f <-> x <> u /\ node s (source x) p f.
Proof using Hnz Hu.
  unfold node, owned_path. rewrite move_live. split.
  - intros ([Hx Hl] & (H1 & H2 & H3) & Hw). split; [done|]. rewrite move_root, (walk_pages s) in Hw by done. split_and!; try done.
    intros i q E. rewrite <- move_owns by done. by eapply H3.
  - intros (Hx & Hl & (H1 & H2 & H3) & Hw). split; [done|]. rewrite move_root, (walk_pages s) by done. split_and!; try done.
    intros i q E. rewrite move_owns by done. by eapply H3.
Qed.

Lemma source_inj x y f p q : node s (source x) p f -> node s (source y) q f -> x <> u -> y <> u -> x = y /\ p = q.
Proof using W.
  intros H1 H2 Hx Hy. destruct (vw_inj s W _ _ _ _ _ H1 H2) as [E ->]. split; [|done]. unfold source in E.
  repeat case_decide; congruence.
Qed.

Lemma move_wf : vmm_wf (move_map u m s).
Proof using W Hu Hm Hnz Hsh.
  split; [apply W| | | | | | | |].
  - intros x [Hx Hl]%move_live. rewrite move_pmap, decide_False by done. by apply (vw_map s W).
  - intros x p f [_ Hf]%move_node. exact (vw_table s W _ p f Hf).
  - intros x p y q f [Hx H1]%move_node [Hy H2]%move_node. by eapply source_inj.
  - intros x p f i [Hx Hf]%move_node Hlt [Hi Hs]. rewrite move_owns in Hs by done. by apply (vw_link s W _ p f i Hf Hlt).
  - intros x p f i [_ Hf]%move_node. exact (vw_leaf s W _ p f i Hf).
  - intros x p f q g j r i [_ Hf]%move_node H1 H2 H3 H4 [_ Hg]%move_node. exact (vw_user s W _ p f q g j r i Hf H1 H2 H3 H4 Hg).
  - intros x i [Hx Hl]%move_live Hi Ho. rewrite move_owns in Ho by done. rewrite move_root by done.
    destruct (vw_shared s W _ i Hl Hi Ho) as [?|(y & g & H1 & H2 & H3 & H4)]; [by left|right]. exists y, g.
    assert (y <> u) as Hy by (intros ->; congruence). assert (y <> m) as Hy' by (intros ->; by destruct H3).
    assert (source y = y) as Ey by (unfold source; by rewrite decide_False).
    split_and!; [intros ->; by rewrite Ey in H1|by rewrite move_pmap, decide_False, Ey|apply move_node; by rewrite Ey|done].
  - intros Hv. destruct (vw_unlinked s W Hv) as [H1 H2]. split; [done|]. intros x p [_ Hf]%move_node. by eapply H2.
Qed.

Lemma move_query x va : x <> u -> vmm_query_page (move_map u m s) x va = vmm_query_page s (source x) va.
Proof using Hnz Hu.
  intros Hx. unfold vmm_query_page. rewrite <- move_nz by done. rewrite move_pmap, decide_False by done. reflexivity.
Qed.

Lemma move_pool f : pool (move_map u m s) f <-> pool s f.
Proof using Hm Hne Hnz Hu.
  unfold pool. assert ((exists x p, node (move_map u m s) x p f) <-> exists x p, node s x p f) as E; [|by rewrite E].
  split; intros (x & p & Hf).
  - apply move_node in Hf as [_ Hf]. by exists (source x), p.
  - destruct (decide (x = u)) as [->|Hx].
    + exists m, p. apply move_node. unfold source. by rewrite decide_True.
    + assert (x <> m) as Hxm by (intros ->; by destruct Hf). exists x, p. apply move_node. unfold source. by rewrite decide_False.
Qed.

Lemma move_active x : map_active (move_map u m s) x = if decide (x = u) then false else map_active s (source x).
Proof using Hnz Hu.
  unfold map_active. rewrite move_pmap. destruct (decide (x = u)) as [->|Hx]; [|by rewrite move_nz].
  apply andb_false_iff. left. apply andb_false_iff. by right.
Qed.

Lemma move_advances : running s -> map_active s u = false -> advances s (move_map u m s).
Proof using Hm Hne Hnz Hsh Hu W.
  intros [Wf [a Ha] Hc] Hna. assert (a <> u) as Hau by (intros ->; congruence).
  assert (a <> m) as Ham by (intros ->; by apply active_live in Ha).
  split; [|intros f; apply move_pool|done]. split.
  - by apply move_wf.
  - exists a. rewrite move_active, decide_False by done. unfold source. by rewrite decide_False.
  - intros b va x Hb Hx. rewrite move_active in Hb. destruct (decide (b = u)) as [->|Hbu]; [done|]. rewrite move_query by done. by apply Hc.
Qed.

End Move.

(** * User addresses *)

Lemma canonical_index va :
  virtual_address_canonical va = true -> user_virtual_address va = (1 <=? pml4_index va) && (pml4_index va <? 256).
Proof.
  unfold virtual_address_canonical, user_virtual_address, pml4_index, ADDRESS_SPACE_USER_BASE, ADDRESS_SPACE_USER_LIMIT.
  change (Z.land (Z.shiftr va 47) 1) with (Z.land (Z.shiftr va 47) (Z.ones 1)). rewrite Z.land_ones, index_div, !Z.shiftr_div_pow2 by lia.
  intros H. apply eq_iff_eq_true. rewrite !andb_true_iff, !Z.leb_le, !Z.ltb_lt. unfold nz in H.
  destruct (Z.eqb_spec ((va / 2 ^ 47) mod 2 ^ 1) 0) as [E|E]; cbn [negb] in H; bool_prop;
    Z.to_euclidean_division_equations; lia.
Qed.

Lemma user_u64 va : user_virtual_address va = true -> is_u64 va.
Proof. unfold user_virtual_address, ADDRESS_SPACE_USER_BASE, ADDRESS_SPACE_USER_LIMIT, is_u64. intros H. bool_prop. lia. Qed.

Lemma query_page_ok s m va x : vmm_query_page s m va = Some x -> page_ok va = true.
Proof.
  unfold vmm_query_page, page_ok. destruct (_ || _); [done|]. destruct (page_aligned va), (virtual_address_canonical va); done.
Qed.

Lemma user_page va : user_virtual_address va = true -> page_ok va = true -> page va.
Proof. intros Hu Hp. apply page_ok_page; [by apply user_u64|done]. Qed.

(** * The page maps of the spaces *)

(** The root entries a space owns. *)
Definition owned_by (space i : Z) : bool :=
  (space =? g_kernel_space) || ((USER_PML4_FIRST <=? i) && (i <? USER_PML4_END)).

Definition page_safe (x : option (Z * Z)) : Prop :=
  forall f flags, x = Some (f, flags) -> has flags VM_USER = true /\ has flags VM_WRITE && has flags VM_EXEC = false.

(** A user space among [L]. *)
Definition user_space (L : list Z) (a : Z) : Prop := a ∈ L /\ a <> g_kernel_space.

Record space_maps (L : list Z) (v : Vmm) : Prop := {
  mp_live : forall a, a ∈ L -> map_live v (page_map a);
  mp_apart : forall a, a ∈ L -> page_map a <> g_unpublished_map;
  mp_owns : forall a i, a ∈ L -> index i -> map_owns_pml4_index v (page_map a) i = owned_by a i;
  mp_exported : forall m, map_live v m -> shared_source (pmap v m) = true -> m = page_map g_kernel_space;
  mp_safe : forall a va, user_space L a -> user_virtual_address va = true -> page_safe (vmm_query_page v (page_map a) va) }.

(** The scratch map of a creation that could not be rolled back. *)
Definition scratch_ok (v : Vmm) : Prop :=
  map_live v g_unpublished_map ->
  (forall i, index i -> map_owns_pml4_index v g_unpublished_map i = owned_by 0 i) /\
  (forall va, user_virtual_address va = true -> vmm_query_page v g_unpublished_map va = None) /\
  map_active v g_unpublished_map = false.

Definition spaces (s : System) : list Z := live (om_storage (k_spc (y_kernel s))).

(** What the storage of a space says of its page map. *)
Definition shown (s : System) (a : Z) : Prop :=
  a_root_frame (spc (y_kernel s) a) = root_frame (pmap (y_vmm s) (page_map a)) /\
  a_destroy_pending (spc (y_kernel s) a) = destroy_pending (pmap (y_vmm s) (page_map a)).

(** The identity a space was created with. *)
Definition space_id (s : System) (a : Z) : Z := a_id (spc (y_kernel s) a).

Record spaces_wf (s : System) : Prop := {
  sp_running : running (y_vmm s);
  sp_registry : registry ADDRESS_SPACE_STORAGE_CAPACITY (om_storage (k_spc (y_kernel s)));
  sp_ready : om_initialized (k_spc (y_kernel s)) = true /\ g_kernel_space ∈ spaces s;
  sp_kernel : forall a, a ∈ spaces s -> a_kernel (spc (y_kernel s) a) = bool_decide (a = g_kernel_space);
  sp_shown : forall a, a ∈ spaces s -> shown s a;
  sp_maps : space_maps (spaces s) (y_vmm s);
  sp_scratch : scratch_ok (y_vmm s);
  sp_next : is_u64 (om_next_id (k_spc (y_kernel s)));
  sp_fresh : forall a, user_space (spaces s) a -> 0 < space_id s a < 2 ^ 64 /\
    (om_next_id (k_spc (y_kernel s)) = 0 \/ space_id s a < om_next_id (k_spc (y_kernel s)));
  sp_ids : forall a b, user_space (spaces s) a -> user_space (spaces s) b -> space_id s a = space_id s b -> a = b }.

Lemma live_spaces s a : spaces_wf s -> space_live s a = bool_decide (a ∈ spaces s).
Proof. intros W. apply object_storage_find_live, W. Qed.

Lemma page_map_inj a b : page_map a = page_map b -> a = b.
Proof. unfold page_map. lia. Qed.

Lemma private L v a : space_maps L v -> user_space L a -> shared_source (pmap v (page_map a)) = false.
Proof.
  intros M [Ha Hk]. destruct (shared_source _) eqn:E; [|done]. apply (mp_exported _ _ M) in E; [|by apply (mp_live _ _ M)].
  by apply page_map_inj in E.
Qed.

Lemma user_owned L v a va :
  space_maps L v -> a ∈ L -> user_virtual_address va = true -> page_ok va = true ->
  map_owns_pml4_index v (page_map a) (pml4_index va) = true.
Proof.
  intros M Ha Hu Hp. apply andb_true_iff in Hp as [_ Hp]. rewrite (canonical_index va Hp) in Hu.
  rewrite (mp_owns _ _ M) by (done || apply index_mask). unfold owned_by, USER_PML4_FIRST, USER_PML4_END. by rewrite Hu, orb_true_r.
Qed.

(** ** The kernel half

    What a user space translates outside the user range, the kernel space
    translates to the same frame. *)
Lemma kernel_half L v a va f flags :
  vmm_wf v -> space_maps L v -> user_space L a -> g_kernel_space ∈ L -> user_virtual_address va = false ->
  vmm_query_page v (page_map a) va = Some (f, flags) ->
  exists flags', vmm_query_page v (page_map g_kernel_space) va = Some (f, flags').
Proof.
  intros W M [Ha Hak] HK Hu Hq. pose proof (query_page_ok _ _ _ _ Hq) as Hp. set (K := page_map g_kernel_space).
  pose proof (mp_live _ _ M a Ha) as La. pose proof (mp_live _ _ M _ HK) as LK. fold K in LK.
  assert (map_owns_pml4_index v (page_map a) (pml4_index va) = false) as Ho.
  { apply andb_true_iff in Hp as [_ Hc]. rewrite (canonical_index va Hc) in Hu. rewrite (mp_owns _ _ M) by (done || apply index_mask).
    unfold owned_by. rewrite (proj2 (Z.eqb_neq _ _) Hak). exact Hu. }
  destruct (vw_table v W (page_map a) [] _ (root_node v _ La)) as (_ & _ & Pa). destruct (vw_table v W K [] _ (root_node v _ LK)) as (_ & _ & PK).
  destruct (vw_shared v W (page_map a) (pml4_index va) La (index_mask _) Ho) as [H0|(x & g & _ & Hx & Hn & Hg)].
  - exfalso. unfold vmm_query_page in Hq. destruct (_ || _); [done|]. destruct (_ || _); [done|].
    change (root_frame (pmap v (page_map a))) with (root v (page_map a)) in Hq. rewrite Pa in Hq. cbn [mbind option_bind] in Hq.
    by rewrite existing_target, H0, target_0 in Hq.
  - apply (mp_exported _ _ M) in Hx as ->; [|apply Hn]. fold K in Hn. destruct (node_parent v K [] (pml4_index va) g Hn) as (r & Hr & He & _).
    rewrite (node_root _ _ _ Hr) in He. unfold vmm_query_page in Hq |- *. destruct La as [La La'], LK as [LK LK'].
    rewrite La, (proj2 (Z.eqb_neq _ _) La') in Hq. rewrite LK, (proj2 (Z.eqb_neq _ _) LK'). cbn [negb orb] in Hq |- *.
    destruct (!page_aligned va || !virtual_address_canonical va); [done|].
    change (root_frame (pmap v (page_map a))) with (root v (page_map a)) in Hq. change (root_frame (pmap v K)) with (root v K).
    rewrite Pa in Hq. rewrite PK. cbn [mbind option_bind] in Hq |- *. rewrite Hg in Hq. rewrite He. cbn [mbind option_bind] in Hq |- *.
    destruct (existing_table v g _) as [pd|]; [|done]. cbn [mbind option_bind] in Hq |- *.
    destruct (existing_table v pd _) as [pt|]; [|done]. cbn [mbind option_bind] in Hq |- *. destruct (has _ PTE_PRESENT); [|done].
    cbn [negb] in Hq |- *. injection Hq as <- _. by eexists.
Qed.

(** * Changes of the page tables *)

(** A change that keeps what the module knows of the maps of [L]. *)
Lemma maps_change L v v' :
  space_maps L v -> (forall a, a ∈ L -> same_map v v' (page_map a)) ->
  (forall m, map_live v' m -> shared_source (pmap v' m) = true -> m = page_map g_kernel_space) ->
  (forall a va, user_space L a -> user_virtual_address va = true -> page_safe (vmm_query_page v' (page_map a) va)) ->
  space_maps L v'.
Proof.
  intros [M1 M2 M3 M4 M5] Hs He Hq. split; [|done| |done|done].
  - intros a Ha. apply (same_map_live v v'); [by apply Hs|by apply M1].
  - intros a i Ha Hi. rewrite (same_map_owns v v') by (by apply Hs). by apply M3.
Qed.

Lemma same_map_refl v m : same_map v v m.
Proof. done. Qed.

Lemma same_map_pmap v v' m : pmap v' m = pmap v m -> same_map v v' m.
Proof. intros E. by split; rewrite E. Qed.

(** A change of one leaf of one map. *)
Lemma maps_leaf L v v' m va x :
  vmm_wf v -> space_maps L v -> scratch_ok v -> moved v v' -> maps_as v v' m va x -> is_u64 va ->
  (forall a, user_space L a -> m = page_map a -> user_virtual_address va = true -> page_safe x) -> m <> g_unpublished_map ->
  space_maps L v' /\ scratch_ok v'.
Proof.
  intros W M S [W' Em Hp Hf Ha Hn _] Hq Hva Hx Hmu.
  assert (forall a, pmap v' a = pmap v a) as Ep by (intros a; by apply aside_pmap). split.
  - apply (maps_change L v v' M).
    + intros a _. by apply same_map_pmap.
    + intros b Hl. rewrite Ep. apply (mp_exported _ _ M). by apply (aside_live v v' b Em).
    + intros a va' [HaL Hak] Hu f flags E. pose proof (query_page_ok _ _ _ _ E) as Hok.
      rewrite (Hq (page_map a) va') in E; [|by apply user_page|by eapply user_owned|by apply (mp_live _ _ M)].
      case_decide as D; [|exact (mp_safe _ _ M a va' (conj HaL Hak) Hu f flags E)]. destruct D as [E1 ->].
      exact (Hx a (conj HaL Hak) (eq_sym E1) Hu f flags E).
  - intros Hl%(aside_live v v' _ Em). destruct (S Hl) as (S1 & S2 & S3). split_and!.
    + intros i Hi. rewrite (aside_owns v v' _ _ Em). by apply S1.
    + intros va' Hu. destruct (page_ok va') eqn:Hok.
      2: { destruct (vmm_query_page v' g_unpublished_map va') eqn:E; [|done]. apply query_page_ok in E. congruence. }
      rewrite (Hq g_unpublished_map va'); [|by apply user_page| |done].
      * rewrite decide_False by (by intros [? _]). by apply S2.
      * rewrite S1 by apply index_mask. pose proof Hok as Hc. apply andb_true_iff in Hc as [_ Hc]. rewrite (canonical_index va' Hc) in Hu. exact Hu.
    + by rewrite Ha.
Qed.
