(* ===== verification/SpaceOps.v ===== *)
(** The operations of address spaces under the invariant. *)

From S2P Require Import Prelude Pmm PmmProofs PmmRefine ObjectStorage Kernel.
From S2P Require Import Objects Frames Vmm VmmWf VmmEdit VmmOps.
From S2P Require Import VmmCalls VmmUnmap VmmLife VmmShare VmmMachine.
From S2P Require Import Space SpaceWf.

Open Scope jcos_scope.

(** * Steps that touch the page tables only *)

(** What an operation on the pages of a space keeps. *)
Record tables_step (s s' : System) : Prop := {
  ts_wf : spaces_wf s';
  ts_kernel : y_kernel s' = y_kernel s;
  ts_data : y_data s' = y_data s;
  ts_maps : v_maps (y_vmm s') = v_maps (y_vmm s);
  ts_pool : forall f, pool (y_vmm s') f <-> pool (y_vmm s) f;
  ts_frames : same_frames (v_pmm (y_vmm s)) (v_pmm (y_vmm s'));
  ts_quiet : no_faults (y_vmm s) -> no_faults (y_vmm s');
  ts_modes : v_nx_enabled (y_vmm s') = v_nx_enabled (y_vmm s) /\ v_use_phys_map (y_vmm s') = v_use_phys_map (y_vmm s) /\
    profile_supported (y_vmm s') = profile_supported (y_vmm s) /\ c_cr3 (v_cpu (y_vmm s')) = c_cr3 (v_cpu (y_vmm s));
  ts_active : forall a, map_active (y_vmm s') a = map_active (y_vmm s) a }.

Lemma tables_refl s : spaces_wf s -> tables_step s s.
Proof. by split. Qed.

Lemma tables_trans s1 s2 s3 : tables_step s1 s2 -> tables_step s2 s3 -> tables_step s1 s3.
Proof.
  intros [A1 A2 A3 A4 A5 A6 A7 (A8 & A9 & A10 & A12) A11] [B1 B2 B3 B4 B5 B6 B7 (B8 & B9 & B10 & B12) B11].
  split; [done|congruence|congruence|congruence| |by etrans|by auto|split_and!; congruence|].
  - intros f. by rewrite B5, A5.
  - intros a. by rewrite B11, A11.
Qed.

Lemma vmm_wf_step s v :
  spaces_wf s -> running v -> (forall a, a ∈ spaces s -> root_frame (pmap v (page_map a)) = root_frame (pmap (y_vmm s) (page_map a)) /\
    destroy_pending (pmap v (page_map a)) = destroy_pending (pmap (y_vmm s) (page_map a))) ->
  space_maps (spaces s) v -> scratch_ok v -> spaces_wf (s <| y_vmm := v |>).
Proof.
  intros [S1 S2 S3 S4 S5 S6 S7 S8 S9 S10] Hr Hp Hm Hsc. split; try done.
  intros a Ha. destruct (S5 a Ha) as [E1 E2], (Hp a Ha) as [E3 E4]. unfold shown. change (y_vmm (s <| y_vmm := v |>)) with v. by rewrite E3, E4.
Qed.

Lemma query_live s a va : spaces_wf s -> a ∈ spaces s -> address_space_query_page s a va = vmm_query_page (y_vmm s) (page_map a) va.
Proof. intros W Ha. unfold address_space_query_page. by rewrite (live_spaces s a W), bool_decide_eq_true_2. Qed.

Lemma moved_step s v :
  spaces_wf s -> running v -> moved (y_vmm s) v -> space_maps (spaces s) v -> scratch_ok v -> tables_step s (s <| y_vmm := v |>).
Proof.
  intros W Hr [M1 M2 M3 M4 M5 M6 M7] Hm Hs. split; try done. apply vmm_wf_step; try done. intros a _. by rewrite (aside_pmap (y_vmm s) v _ M2).
Qed.

(** What mapping and unmapping do to the pages of user spaces. *)
Definition pages_as (s s' : System) (a va : Z) (x : option (Z * Z)) : Prop :=
  forall b va', user_space (spaces s) b -> user_virtual_address va' = true ->
    address_space_query_page s' b va' = if decide (b = a /\ va' = va) then x else address_space_query_page s b va'.

Lemma pages_moved s v a va x :
  spaces_wf s -> spaces_wf (s <| y_vmm := v |>) -> maps_as (y_vmm s) v (page_map a) va x ->
  (page_ok va = false -> x = None) -> pages_as s (s <| y_vmm := v |>) a va x.
Proof.
  intros W W' Hq Hx b va' [Hb Hbk] Hu. rewrite !query_live by done. change (y_vmm (s <| y_vmm := v |>)) with v.
  assert (forall w, page_ok va' = false -> vmm_query_page w (page_map b) va' = None) as Hno.
  { intros w Hok. destruct (vmm_query_page w (page_map b) va') eqn:E; [|done]. apply query_page_ok in E. congruence. }
  destruct (page_ok va') eqn:Hok.
  - rewrite (Hq (page_map b) va'); [|by apply user_page|by eapply user_owned; [apply W|..]|by apply (mp_live _ _ (sp_maps s W))].
    destruct (decide (b = a /\ va' = va)) as [[-> ->]|Hd]; [by rewrite decide_True|]. rewrite decide_False; [done|].
    intros [E ->]. apply Hd. by apply page_map_inj in E.
  - rewrite !Hno by done. case_decide as D; [|done]. destruct D as [_ ->]. symmetry. by apply Hx.
Qed.

Lemma has_user flags : has (Z.lor flags VM_USER) VM_USER = true.
Proof. change VM_USER with (Z.shiftl 1 1). rewrite has_lor by lia. by rewrite orb_true_r. Qed.

Lemma has_other flags k : 0 <= k -> k <> 1 -> has (Z.lor flags VM_USER) (Z.shiftl 1 k) = has flags (Z.shiftl 1 k).
Proof.
  intros Hk H1. rewrite has_lor by done. assert (has VM_USER (Z.shiftl 1 k) = false) as ->; [|by rewrite orb_false_r].
  rewrite has_bit by done. change VM_USER with (2 ^ 1). by apply Z.pow2_bits_false.
Qed.

Lemma log2_u64 a : is_u64 a -> Z.log2 a < 64.
Proof.
  unfold is_u64. intros H. destruct (Z.eq_dec a 0) as [->|Ha]; [done|]. apply Z.log2_lt_pow2; lia.
Qed.

Lemma lor_u64 a b : is_u64 a -> is_u64 b -> is_u64 (Z.lor a b).
Proof.
  intros Ha Hb. pose proof (log2_u64 a Ha). pose proof (log2_u64 b Hb). unfold is_u64 in *.
  assert (0 <= Z.lor a b) as Hge by (apply Z.lor_nonneg; lia). split; [done|].
  destruct (Z.eq_dec (Z.lor a b) 0) as [->|Hn]; [lia|]. apply Z.log2_lt_pow2; [lia|]. rewrite Z.log2_lor by lia. lia.
Qed.

(** ** Mapping *)

Lemma pages_refl s a va : pages_as s s a va (address_space_query_page s a va).
Proof. intros b va' _ _. case_decide as D; [|done]. by destruct D as [-> ->]. Qed.

(** The pages of the kernel space are not pages of user spaces. *)
Lemma pages_other s s' a va x y : ~ user_space (spaces s) a -> pages_as s s' a va x -> pages_as s s' a va y.
Proof. intros Ha Hp b va' Hb Hu. rewrite (Hp b va' Hb Hu), !decide_False; [done|..]; intros [-> _]; done. Qed.

Lemma map_core a va frame flags s :
  spaces_wf s -> a ∈ spaces s -> is_u64 va -> is_u64 frame -> is_u64 flags ->
  (user_space (spaces s) a -> page_safe (Some (frame, flags))) ->
  let '(b, s') := vmm_call (vmm_map_page (page_map a) va frame flags) s in
  tables_step s s' /\ pages_as s s' a va (if (b : bool) then Some (frame, flags) else address_space_query_page s a va) /\
  (b = true -> map_page_allowed (y_vmm s) (page_map a) va frame flags = true /\ address_space_query_page s a va = None) /\
  (profile_supported (y_vmm s) = true -> map_page_allowed (y_vmm s) (page_map a) va frame flags = true ->
     address_space_query_page s a va = None -> supply 3 (y_vmm s) -> b = true) /\
  (b = true -> forall n, supply (3 + n) (y_vmm s) -> supply n (y_vmm s')).
Proof.
  intros W Ha Hva Hfr Hfl Hsafe. rewrite query_live by done. unfold vmm_call.
  pose proof (map_page_call (page_map a) va frame flags (y_vmm s) (rn_wf _ (sp_running s W)) Hva Hfr Hfl) as H.
  destruct (vmm_map_page (page_map a) va frame flags (y_vmm s)) as [b v]. destruct H as (M & Hq & Hb & Hs & Hc & Hsu & _).
  pose proof (moved_advances _ _ (sp_running s W) M Hc) as [Hr _ _].
  destruct (maps_leaf _ _ _ _ _ _ (rn_wf _ (sp_running s W)) (sp_maps s W) (sp_scratch s W) M Hq Hva) as [Hm Hsc].
  { intros x Hx E Hu. apply page_map_inj in E as <-. destruct b; [by apply Hsafe|by apply (mp_safe _ _ (sp_maps s W))]. }
  { by apply (mp_apart _ _ (sp_maps s W)). }
  pose proof (moved_step s v W Hr M Hm Hsc) as Ht. split_and!; try done. apply pages_moved; [done|apply Ht|done|].
  intros Hok. destruct b.
  - destruct (Hb eq_refl) as [Hal _]. apply map_allowed_inv in Hal as (_ & _ & Hp & _). congruence.
  - destruct (vmm_query_page _ _ va) eqn:E; [|done]. apply query_page_ok in E. congruence.
Qed.

Lemma space_map_call a va frame flags s :
  spaces_wf s -> is_u64 va -> is_u64 frame -> is_u64 flags -> let '(b, s') := address_space_map_page a va frame flags s in
  tables_step s s' /\
  pages_as s s' a va (if (b : bool) then Some (frame, Z.lor flags VM_USER) else address_space_query_page s a va) /\
  (b = true -> user_space (spaces s) a -> user_virtual_address va = true /\ has flags VM_WRITE && has flags VM_EXEC = false /\
     map_page_allowed (y_vmm s) (page_map a) va frame (Z.lor flags VM_USER) = true /\ address_space_query_page s a va = None) /\
  (user_space (spaces s) a -> user_virtual_address va = true -> has flags VM_WRITE && has flags VM_EXEC = false ->
     profile_supported (y_vmm s) = true -> map_page_allowed (y_vmm s) (page_map a) va frame (Z.lor flags VM_USER) = true ->
     address_space_query_page s a va = None -> supply 3 (y_vmm s) -> b = true) /\
  (b = true -> forall n, supply (3 + n) (y_vmm s) -> supply n (y_vmm s')).
Proof.
  intros W Hva Hfr Hfl. unfold address_space_map_page. rewrite (live_spaces s a W).
  destruct (bool_decide_reflect (a ∈ spaces s)) as [Ha|Ha]; cbn [negb];
    [|by split_and!; [apply tables_refl|apply pages_refl|..]; intros; destruct_and?; try done; destruct H].
  rewrite (sp_kernel s W a Ha). destruct (bool_decide_reflect (a = g_kernel_space)) as [->|Hk]; cbn [negb].
  - pose proof (map_core g_kernel_space va frame flags s W Ha Hva Hfr Hfl) as H. destruct (vmm_call _ s) as [b s'].
    assert (~ user_space (spaces s) g_kernel_space) as Hno by (by intros [_ ?]).
    destruct H as (Ht & Hp & _ & _ & Hsu); [by intros ?|]. split_and!; [done|by apply (pages_other s s' _ va _ _ Hno Hp)|done|done|done].
  - assert (tables_step s s /\ pages_as s s a va (address_space_query_page s a va)) as [Hrefl Hsame]
      by (split; [by apply tables_refl|apply pages_refl]).
    destruct (user_virtual_address va); cbn [negb]; [|by split_and!].
    destruct (has flags VM_WRITE && has flags VM_EXEC) eqn:Hwx; [by split_and!|].
    pose proof (map_core a va frame (Z.lor flags VM_USER) s W Ha Hva Hfr (lor_u64 flags VM_USER Hfl ltac:(by split))) as H.
    destruct (vmm_call _ s) as [b s']. destruct H as (Ht & Hp & Hb & Hs & Hsu); [|by split_and!; auto].
    intros _ f fl E. injection E as <- <-. rewrite has_user. change VM_WRITE with (Z.shiftl 1 0) in *. change VM_EXEC with (Z.shiftl 1 2) in *.
    by rewrite !has_other by lia.
Qed.

(** ** Unmapping *)

Lemma space_unmap_call a va s :
  spaces_wf s -> is_u64 va -> let '(r, s') := address_space_unmap_page a va s in
  tables_step s s' /\ (r = None -> s' = s) /\
  pages_as s s' a va (if r then None else address_space_query_page s a va) /\
  (user_space (spaces s) a ->
   r = if user_virtual_address va && change_allowed (y_vmm s) (page_map a) va then fst <$> address_space_query_page s a va else None).
Proof.
  intros W Hva. unfold address_space_unmap_page. rewrite (live_spaces s a W).
  destruct (bool_decide_reflect (a ∈ spaces s)) as [Ha|Ha]; cbn [negb];
    [|split_and!; [by apply tables_refl|done|exact (pages_refl s a va)|by intros [? _]]].
  rewrite (sp_kernel s W a Ha). destruct (!bool_decide (a = g_kernel_space) && !user_virtual_address va) eqn:E.
  { apply andb_true_iff in E as [_ E]. apply negb_true_iff in E. rewrite E.
    split_and!; [by apply tables_refl|done|apply pages_refl|done]. }
  rewrite query_live by done. unfold vmm_call. pose proof (unmap_call (page_map a) va (y_vmm s) (rn_wf _ (sp_running s W)) Hva) as H.
  destruct (vmm_unmap_page (page_map a) va (y_vmm s)) as [r v]. destruct H as (Hr & Hno & M & Hq & Hc & _).
  pose proof (moved_advances _ _ (sp_running s W) M Hc) as [Hrun _ _].
  destruct (maps_leaf _ _ _ _ _ _ (rn_wf _ (sp_running s W)) (sp_maps s W) (sp_scratch s W) M Hq Hva) as [Hm Hsc].
  { intros x Hx Ex Hu. apply page_map_inj in Ex as <-. destruct r; [done|by apply (mp_safe _ _ (sp_maps s W))]. }
  { by apply (mp_apart _ _ (sp_maps s W)). }
  pose proof (moved_step s v W Hrun M Hm Hsc) as Ht. split_and!; [done|intros ->; rewrite Hno by done; by destruct s| |].
  - apply pages_moved; [done|apply Ht|done|]. intros Hok. destruct r; [done|].
    destruct (vmm_query_page _ _ va) eqn:Ex; [|done]. apply query_page_ok in Ex. congruence.
  - intros [_ Hk]. rewrite bool_decide_eq_false_2 in E by done. apply negb_false_iff in E. by rewrite E.
Qed.

(** * Changes of the allocator only *)

Lemma frames_step y P :
  spaces_wf y -> pmm_wf P -> (forall f, frame_owned P f <-> frame_owned (v_pmm (y_vmm y)) f) ->
  (forall f, f ∈ free_set P -> f ∈ free_set (v_pmm (y_vmm y)) \/ ~ pool (y_vmm y) f) ->
  spaces_wf (y <| y_vmm := (y_vmm y) <| v_pmm := P |> |>) /\
  forall f, pool ((y_vmm y) <| v_pmm := P |>) f <-> f ∈ free_set P \/ (pool (y_vmm y) f /\ f ∉ free_set (v_pmm (y_vmm y))).
Proof.
  intros W HP HO HF. set (v := y_vmm y) in *. set (v' := v <| v_pmm := P |>). pose proof (rn_wf _ (sp_running y W)) as Wv. fold v in Wv.
  assert (aside v v') as Has by done. destruct (sp_running y W) as [_ [x Hx] Hc].
  assert (forall f, held (v_pmm v) f -> pool v f -> held P f) as Hh.
  { intros f [H1 H2] H3. split; [by apply HO|]. intros Hf. by destruct (HF f Hf). }
  assert (vmm_wf v') as Wv'.
  { apply (aside_wf v v' Wv Has); [done| |].
    - intros m p f Hf. apply Hh; [by apply (vw_table v Wv m p)|]. right. left. by exists m, p.
    - intros Hv. destruct (vw_unlinked v Wv Hv) as [H1 H2]. split; [|done]. apply Hh; [done|]. right. by right. }
  split.
  - apply vmm_wf_step; [done|split; [done|by exists x|exact Hc]|done|by destruct (sp_maps y W); split|exact (sp_scratch y W)].
  - intros f. unfold pool. setoid_rewrite (fun m p => aside_node v v' m p f Has). change (v_unlinked_table v') with (v_unlinked_table v).
    assert ((exists m p, node v m p f) -> f ∉ free_set (v_pmm v)) as Hn by (intros (m & p & Hf); by apply (vw_table v Wv m p)).
    assert (v_unlinked_table v <> FRAME_INVALID /\ f = v_unlinked_table v -> f ∉ free_set (v_pmm v)) as Hu.
    { intros [Hv ->]. by destruct (vw_unlinked v Wv Hv) as [[? ?] _]. }
    change (v_pmm v') with P. tauto.
Qed.
