(* ===== verification/SpaceLife.v ===== *)
(** Creation and destruction of address spaces under the invariant. *)

From S2P Require Import Prelude Pmm PmmProofs PmmRefine ObjectStorage Kernel.
From S2P Require Import Objects Frames Vmm VmmWf VmmEdit VmmOps.
From S2P Require Import VmmCalls VmmUnmap VmmLife VmmShare VmmMachine.
From S2P Require Import Space SpaceWf SpaceOps.

Open Scope jcos_scope.

(** * Operations on one inactive map *)

Lemma lives_active m v v' a : lives m v v' -> a <> m -> map_active v' a = map_active v a.
Proof. intros Lv Ha. unfold map_active. by rewrite (lf_maps _ _ _ Lv a Ha), (lf_cpu _ _ _ Lv). Qed.

(** The other maps keep what the module knows of them. *)
Lemma maps_lives L v v' m :
  space_maps L v -> lives m v v' -> (forall a, a ∈ L -> page_map a <> m) ->
  (map_live v' m -> shared_source (pmap v' m) = true -> m = page_map g_kernel_space) -> space_maps L v'.
Proof.
  intros M Lv Hne He. apply (maps_change L v v' M).
  - intros a Ha. by apply same_map_pmap, (lf_maps _ _ _ Lv), Hne.
  - intros x Hl Hx. destruct (decide (x = m)) as [->|Hxm]; [by apply He|]. unfold map_live in Hl.
    rewrite (lf_maps _ _ _ Lv x Hxm) in Hl, Hx. by apply (mp_exported _ _ M).
  - intros a va Ha Hu. rewrite (lf_query _ _ _ Lv) by (apply Hne; apply Ha). by apply (mp_safe _ _ M).
Qed.

Lemma scratch_lives v v' m : scratch_ok v -> lives m v v' -> m <> g_unpublished_map -> scratch_ok v'.
Proof.
  intros S Lv Hm Hl. unfold map_live in Hl. rewrite (lf_maps _ _ _ Lv) in Hl by done. destruct (S Hl) as (S1 & S2 & S3). split_and!.
  - intros i Hi. unfold map_owns_pml4_index. rewrite (lf_maps _ _ _ Lv) by done. by apply S1.
  - intros va Hu. rewrite (lf_query _ _ _ Lv) by done. by apply S2.
  - by rewrite (lives_active m v v').
Qed.

Lemma maps_sub L L' v : space_maps L v -> (forall a, a ∈ L' -> a ∈ L) -> space_maps L' v.
Proof.
  intros [M1 M2 M3 M4 M5] Hs. split; [intros a Ha; by apply M1, Hs|intros a Ha; by apply M2, Hs|intros a i Ha; by apply M3, Hs|done|].
  intros a va [Ha Hk]. apply M5. by split; [apply Hs|].
Qed.

(** * What a change of the spaces keeps *)

Record spaces_step (s s' : System) : Prop := {
  ss_wf : spaces_wf s';
  ss_data : y_data s' = y_data s;
  ss_pool : forall f, pool (y_vmm s') f <-> pool (y_vmm s) f;
  ss_owned : forall f, frame_owned (v_pmm (y_vmm s')) f <-> frame_owned (v_pmm (y_vmm s)) f }.

Lemma tables_spaces s s' : tables_step s s' -> spaces_step s s'.
Proof. intros [A1 A2 A3 A4 A5 A6 A7 A8 A9]. split; try done. apply A6. Qed.

Lemma spaces_refl s : spaces_wf s -> spaces_step s s.
Proof. by split. Qed.

Lemma spaces_trans s1 s2 s3 : spaces_step s1 s2 -> spaces_step s2 s3 -> spaces_step s1 s3.
Proof.
  intros [A1 A2 A3 A4] [B1 B2 B3 B4]. split; [done|congruence| |]; intros f; [by rewrite B3, A3|by rewrite B4, A4].
Qed.

(** The identity and the pages of the user spaces other than [a]. *)
Definition others_same (s s' : System) (a : Z) : Prop :=
  forall b, user_space (spaces s) b -> b <> a ->
    space_id s' b = space_id s b /\ forall va, address_space_query_page s' b va = address_space_query_page s b va.

(** * Reclaiming the scratch map *)

Lemma destroy_advances v m : running v -> advances v (vmm_page_map_destroy m v).2.
Proof. intros Hr. exact (vmm_step_advances (VDestroy m) v Hr I). Qed.

(** The scratch map of [v] after an attempt to destroy it. *)
Lemma scratch_destroyed L v :
  running v -> space_maps L v -> scratch_ok v ->
  let '(b, v') := vmm_page_map_destroy g_unpublished_map v in
  advances v v' /\ lives g_unpublished_map v v' /\ space_maps L v' /\ scratch_ok v' /\ (b = true -> ~ map_live v' g_unpublished_map).
Proof.
  intros Hr M S. pose proof (rn_wf _ Hr) as W. pose proof (destroy_advances v g_unpublished_map Hr) as A.
  pose proof (page_map_destroy_call g_unpublished_map v W) as H. destruct (vmm_page_map_destroy g_unpublished_map v) as [b v'].
  destruct H as (Lv & Hb & Hf & _ & Hs). cbn [snd] in A.
  assert (space_maps L v') as M'.
  { apply (maps_lives L v v' g_unpublished_map M Lv); [apply M|]. destruct b; [by destruct (Hb eq_refl) as (_ & _ & ?)|].
    destruct (Hs eq_refl) as [Es E]. intros Hl. rewrite E. apply (mp_exported _ _ M). by apply (same_map_live v v' _ Es). }
  split_and!; [done|done|done| |intros ->; by apply Hb]. intros Hl. destruct b; [by destruct (Hb eq_refl) as (_ & _ & ?)|].
  destruct (Hs eq_refl) as [Es E]. apply (same_map_live v v' _ Es) in Hl as Hl0. destruct (S Hl0) as (S1 & S2 & S3). split_and!.
  - intros i Hi. rewrite (same_map_owns v v' _ _ Es). by apply S1.
  - intros va Hu. destruct (vmm_query_page v' g_unpublished_map va) eqn:Eq; [|done]. pose proof (query_page_ok _ _ _ _ Eq) as Hok.
    rewrite Hf in Eq; try done; [by rewrite S2 in Eq|by apply user_page|]. rewrite S1 by apply index_mask.
    apply andb_true_iff in Hok as [_ Hc]. rewrite (canonical_index va Hc) in Hu. exact Hu.
  - unfold map_active. by rewrite (sm_root _ _ _ Es), (lf_cpu _ _ _ Lv).
Qed.

Lemma unpublished_live s : g_unpublished_map <> 0 -> (unpublished_root s =? FRAME_INVALID) = false <-> map_live (y_vmm s) g_unpublished_map.
Proof. intros _. unfold map_live, unpublished_root. rewrite Z.eqb_neq. split; [by split|by intros []]. Qed.

(** A step inside the page tables that leaves every space alone. *)
Lemma quiet_step s v :
  spaces_wf s -> advances (y_vmm s) v -> lives g_unpublished_map (y_vmm s) v -> space_maps (spaces s) v -> scratch_ok v ->
  spaces_step s (s <| y_vmm := v |>).
Proof.
  intros W [A1 A2 A3] Lv M S. split; try done; [|apply A3]. apply vmm_wf_step; try done.
  intros a Ha. rewrite (lf_maps _ _ _ Lv) by (by apply (mp_apart _ _ (sp_maps s W))). done.
Qed.

Lemma reclaim_unpublished_call s :
  spaces_wf s -> let '(b, s') := address_space_reclaim_unpublished s in
  spaces_step s s' /\ y_kernel s' = y_kernel s /\
  (forall a va, a ∈ spaces s -> address_space_query_page s' a va = address_space_query_page s a va) /\
  (b = true -> ~ map_live (y_vmm s') g_unpublished_map).
Proof.
  intros W. unfold address_space_reclaim_unpublished. destruct (unpublished_root s =? FRAME_INVALID) eqn:E.
  - split_and!; [by apply spaces_refl|done|done|]. intros _ Hl%unpublished_live; [|done]. congruence.
  - unfold vmm_call. pose proof (scratch_destroyed (spaces s) (y_vmm s) (sp_running s W) (sp_maps s W) (sp_scratch s W)) as H.
    destruct (vmm_page_map_destroy g_unpublished_map (y_vmm s)) as [b v]. destruct H as (A & Lv & M & S & Hb).
    pose proof (quiet_step s v W A Lv M S) as St. split_and!; [done|done| |done].
    intros a va Ha. rewrite !query_live by (done || apply St). change (y_vmm (s <| y_vmm := v |>)) with v.
    apply (lf_query _ _ _ Lv). by apply (mp_apart _ _ (sp_maps s W)).
Qed.

(** * Destruction *)

(** The identity of a space. *)
Definition same_identity (s s' : System) (a : Z) : Prop :=
  a_kernel (spc (y_kernel s') a) = a_kernel (spc (y_kernel s) a) /\ space_id s' a = space_id s a.

(** A state whose spaces were spaces before. *)
Lemma wf_shrink s s' :
  spaces_wf s -> running (y_vmm s') -> registry ADDRESS_SPACE_STORAGE_CAPACITY (om_storage (k_spc (y_kernel s'))) ->
  om_initialized (k_spc (y_kernel s')) = true -> om_next_id (k_spc (y_kernel s')) = om_next_id (k_spc (y_kernel s)) ->
  g_kernel_space ∈ spaces s' -> (forall b, b ∈ spaces s' -> b ∈ spaces s /\ same_identity s s' b /\ shown s' b) ->
  space_maps (spaces s') (y_vmm s') -> scratch_ok (y_vmm s') -> spaces_wf s'.
Proof.
  intros [S1 S2 S3 S4 S5 S6 S7 S8 S9 S10] Hr Hreg Hi Hn Hk Hb Hm Hs.
  assert (forall b, user_space (spaces s') b -> user_space (spaces s) b /\ space_id s' b = space_id s b) as Hu.
  { intros b [H1 H2]. destruct (Hb b H1) as (H3 & [_ H4] & _). by split. }
  split; try done.
  - intros a Ha. destruct (Hb a Ha) as (Ha' & [-> _] & _). by apply S4.
  - intros a Ha. by apply Hb.
  - by rewrite Hn.
  - intros a Ha. destruct (Hu a Ha) as [Ha' ->]. rewrite Hn. by apply S9.
  - intros a b Ha Hbb. destruct (Hu a Ha) as [Ha' ->], (Hu b Hbb) as [Hb' ->]. by apply S10.
Qed.

(** Filling in the copy of the page map changes no identity. *)
Lemma show_spc s a b :
  spc (y_kernel (show_map a s)) b =
    if decide (a = b) then (spc (y_kernel s) a) <| a_root_frame := root_frame (pmap (y_vmm s) (page_map a)) |>
                             <| a_destroy_pending := destroy_pending (pmap (y_vmm s) (page_map a)) |>
    else spc (y_kernel s) b.
Proof. unfold show_map. cbn zeta. change (y_kernel (s <| y_kernel := ?k |>)) with k. apply spc_set. Qed.

Lemma show_identity s a b : same_identity s (show_map a s) b.
Proof. unfold same_identity, space_id. rewrite show_spc. by case_decide as E; [subst b|]. Qed.

Lemma show_shown s a b : (b <> a -> shown s b) -> shown (show_map a s) b.
Proof.
  intros Hs. unfold shown. rewrite show_spc. change (y_vmm (show_map a s)) with (y_vmm s).
  case_decide as E; [by subst b|]. apply Hs. congruence.
Qed.

Lemma destroy_unmapped s a :
  spaces_wf s -> user_space (spaces s) a ->
  unmapped (y_vmm s) (page_map a) <-> forall va, user_virtual_address va = true -> address_space_query_page s a va = None.
Proof.
  intros W [Ha Hk]. setoid_rewrite (query_live s a _ W Ha). pose proof (sp_maps s W) as M. split.
  - intros H va Hu. destruct (vmm_query_page _ _ va) eqn:E; [|done]. pose proof (query_page_ok _ _ _ _ E) as Hok.
    rewrite H in E; [done|by apply user_page|by eapply user_owned].
  - intros H va Hp Ho. apply H. rewrite (mp_owns _ _ M) in Ho by (done || apply index_mask). rewrite canonical_index by apply Hp.
    unfold owned_by in Ho. by rewrite (proj2 (Z.eqb_neq _ _) Hk) in Ho.
Qed.

(** The page tables after an attempt to destroy the map of a user space. *)
Lemma destroy_tables s a :
  spaces_wf s -> user_space (spaces s) a ->
  let '(b, v) := vmm_page_map_destroy (page_map a) (y_vmm s) in
  lives (page_map a) (y_vmm s) v /\ scratch_ok v /\ (b = true -> ~ map_live v (page_map a)) /\
  (forall L, (forall x, x ∈ L -> x ∈ spaces s /\ (b = true -> x <> a)) -> space_maps L v) /\
  (b = false -> same_map (y_vmm s) v (page_map a) /\
     forall va, user_virtual_address va = true -> vmm_query_page v (page_map a) va = vmm_query_page (y_vmm s) (page_map a) va).
Proof.
  intros W Ha. pose proof (rn_wf _ (sp_running s W)) as Wv. pose proof (sp_maps s W) as M.
  pose proof (page_map_destroy_call (page_map a) (y_vmm s) Wv) as H. destruct (vmm_page_map_destroy (page_map a) (y_vmm s)) as [b v].
  destruct H as (Lv & Hb & Hf & _ & Hs).
  assert (b = false -> forall va, user_virtual_address va = true -> vmm_query_page v (page_map a) va = vmm_query_page (y_vmm s) (page_map a) va) as Hq.
  { intros Eb va Hu. destruct (page_ok va) eqn:Hok.
    - apply (Hf Eb); [by apply user_page|by eapply user_owned; [|apply Ha|..]|by apply (mp_live _ _ M), Ha].
    - destruct (vmm_query_page v _ va) eqn:E1; [apply query_page_ok in E1; congruence|].
      destruct (vmm_query_page (y_vmm s) _ va) eqn:E2; [apply query_page_ok in E2; congruence|done]. }
  split_and!; [done|apply (scratch_lives _ _ _ (sp_scratch s W) Lv), (mp_apart _ _ M), Ha|intros ->; by apply Hb| |intros Eb; by split; [apply Hs|apply Hq]].
  intros L HL. destruct b.
  - apply (maps_lives L (y_vmm s) v (page_map a)); [by apply (maps_sub (spaces s)); [|intros x Hx; apply HL]|done| |].
    + intros x Hx E. apply page_map_inj in E. by apply (proj2 (HL x Hx)).
    + intros Hl. by destruct (Hb eq_refl) as (_ & _ & ?).
  - destruct (Hs eq_refl) as [Es Esh]. apply (maps_change L (y_vmm s) v); [by apply (maps_sub (spaces s)); [|intros x Hx; apply HL]| | |].
    + intros x Hx. destruct (decide (x = a)) as [->|Hne]; [done|]. apply same_map_pmap, (lf_maps _ _ _ Lv). intros E. by apply page_map_inj in E.
    + intros x Hl Hx. destruct (decide (x = page_map a)) as [->|Hne].
      * rewrite Esh, (private (spaces s) (y_vmm s) a M Ha) in Hx. done.
      * unfold map_live in Hl. rewrite (lf_maps _ _ _ Lv x Hne) in Hl, Hx. by apply (mp_exported _ _ M).
    + intros x va [Hx Hxk] Hu. assert (user_space (spaces s) x) as Hxu by (split; [by apply HL|done]).
      destruct (decide (x = a)) as [->|Hne]; [rewrite Hq by done|rewrite (lf_query _ _ _ Lv) by (intros E; by apply page_map_inj in E)];
        by apply (mp_safe _ _ M).
Qed.

Lemma find_capacity s a :
  spaces_wf s ->
  (object_storage_find (om_storage (k_spc (y_kernel s))) ADDRESS_SPACE_STORAGE_CAPACITY a =? ADDRESS_SPACE_STORAGE_CAPACITY)
  = negb (bool_decide (a ∈ spaces s)).
Proof.
  intros W. pose proof (sp_registry s W) as R. destruct (bool_decide_reflect (a ∈ spaces s)) as [Ha|Ha]; cbn [negb].
  - destruct (object_storage_find_lookup _ _ _ R Ha) as (n & -> & Hn). apply lookup_lt_Some in Hn. destruct R as [Hl _].
    apply Z.eqb_neq. lia.
  - rewrite (object_storage_find_ge _ _ _ R Ha). apply Z.eqb_refl.
Qed.

Lemma space_destroy_call a s :
  spaces_wf s -> let '(b, s') := address_space_destroy a s in
  spaces_step s s' /\ others_same s s' a /\
  (b = true -> user_space (spaces s) a /\ a_capability_refs (spc (y_kernel s) a) = 0 /\
     (forall va, user_virtual_address va = true -> address_space_query_page s a va = None) /\
     spaces s ≡ₚ a :: spaces s' /\ a ∉ spaces s') /\
  (b = false -> spaces s' = spaces s /\ space_id s' a = space_id s a /\
     forall va, user_virtual_address va = true -> address_space_query_page s' a va = address_space_query_page s a va) /\
  (no_faults (y_vmm s) -> user_space (spaces s) a -> a_capability_refs (spc (y_kernel s) a) = 0 ->
     profile_supported (y_vmm s) = true -> map_active (y_vmm s) (page_map a) = false ->
     (forall va, user_virtual_address va = true -> address_space_query_page s a va = None) -> b = true).
Proof.
  intros W. unfold address_space_destroy. rewrite (find_capacity s a W). pose proof (sp_maps s W) as M.
  destruct (!bool_decide (a ∈ spaces s) || (a =? g_kernel_space) || a_kernel (spc (y_kernel s) a) || nz (a_capability_refs (spc (y_kernel s) a))) eqn:E.
  { split_and!; [by apply spaces_refl|done|done|done|]. intros _ [Ha Hk] Hr _ _ _.
    rewrite bool_decide_eq_true_2, (sp_kernel s W a Ha), bool_decide_eq_false_2, Hr, (proj2 (Z.eqb_neq _ _) Hk) in E by done. done. }
  do 3 (apply orb_false_iff in E as [E ?]). apply negb_false_iff, bool_decide_eq_true in E. bool_prop.
  assert (user_space (spaces s) a) as Ha by (by split). unfold vmm_call. pose proof (destroy_advances (y_vmm s) (page_map a) (sp_running s W)) as A.
  pose proof (page_map_destroy_call (page_map a) (y_vmm s) (rn_wf _ (sp_running s W))) as Hcall.
  pose proof (destroy_tables s a W Ha) as Ht. destruct (vmm_page_map_destroy (page_map a) (y_vmm s)) as [b v].
  destruct Ht as (Lv & S & Hdead & HM & Hf), Hcall as (_ & Hb & _ & Hdone & _), A as [A1 A2 A3].
  set (s0 := s <| y_vmm := v |>). set (s1 := show_map a s0).
  assert (forall x, x <> a -> x ∈ spaces s -> shown s0 x) as Hshow.
  { intros x Hx Hin. destruct (sp_shown s W x Hin) as [E1 E2]. unfold shown. change (y_vmm s0) with v.
    rewrite (lf_maps _ _ _ Lv) by (intros Ex; by apply page_map_inj in Ex). done. }
  assert (forall s2 x va, spaces_wf s2 -> y_vmm s2 = v -> x ∈ spaces s2 -> x ∈ spaces s -> x <> a ->
    address_space_query_page s2 x va = address_space_query_page s x va) as Hoth.
  { intros s2 x va W2 Ev H2 Hx Hxa. rewrite !query_live, Ev by done. apply (lf_query _ _ _ Lv). intros Ex. by apply page_map_inj in Ex. }
  destruct b; cbn [negb].
  - destruct (Hb eq_refl) as (_ & Hun & _). pose proof (proj1 (destroy_unmapped s a W Ha) Hun) as Hnone.
    destruct (storage_release _ _ a (sp_registry s W) E) as (Hreg & Hperm & Hnin).
    set (slots := storage_set _ 0 _) in *. set (s2 := s1 <| y_kernel := _ |>). change (live (om_storage (k_spc (y_kernel s)))) with (spaces s) in Hperm.
    assert (spaces s2 = live slots) as Es by done.
    assert (forall x, x ∈ live slots -> x ∈ spaces s /\ x <> a) as Hsub.
    { intros x Hx. split; [rewrite Hperm; by right|]. by intros ->. }
    assert (forall x, x <> a -> spc (y_kernel s2) x = spc (y_kernel s) x) as Espc.
    { intros x Hx. change (spc (y_kernel s2) x) with (spc (set_spc a (fun r => r <| a_id := 0 |>) (y_kernel s1)) x).
      rewrite spc_set, decide_False by congruence. unfold s1. by rewrite show_spc, decide_False by congruence. }
    assert (spaces_wf s2) as W2.
    { apply (wf_shrink s s2); try done; [apply W| | |by apply HM; intros x Hx%Hsub; split; [|intros _]; apply Hx].
      - pose proof (proj2 (sp_ready s W)) as Hk. rewrite Hperm in Hk. apply elem_of_cons in Hk as [Hk|Hk]; [|done]. by destruct Ha.
      - intros x Hx. destruct (Hsub x Hx) as [Hx1 Hx2]. split; [done|].
        unfold same_identity, space_id, shown. rewrite Espc by done. split; [done|]. exact (Hshow x Hx2 Hx1). }
    split_and!; [by split; try done; apply A3| |intros _; split_and!; try done; apply Ha|done|done].
    intros x [Hx _] Hxa. split; [unfold space_id; by rewrite Espc|]. intros va. apply Hoth; try done. rewrite Es.
    rewrite Hperm in Hx. by apply elem_of_cons in Hx as [?|?].
  - destruct (Hf eq_refl) as [Esm Hq].
    assert (spaces_wf s1) as W1.
    { apply (wf_shrink s s1); try done; [apply W|apply W|apply W| |by apply HM].
      intros x Hx. split; [done|]. split; [exact (show_identity s0 a x)|].
      exact (show_shown s0 a x (fun Hxa => Hshow x Hxa Hx)). }
    split_and!; [by split; try done; apply A3| |done|intros _; split_and!; [done|exact (proj2 (show_identity s0 a a))|]|].
    + intros x [Hx _] Hxa. split; [exact (proj2 (show_identity s0 a x))|]. intros va. by apply Hoth.
    + intros va Hu. rewrite !query_live by done. by apply Hq.
    + intros Hno _ _ Hpr Hact Hun. apply Hdone; [done| |by apply destroy_unmapped].
      unfold map_reclaimable. pose proof (mp_live _ _ M a E) as [Hnz Hroot]. destruct (vw_map _ (rn_wf _ (sp_running s W)) _ (mp_live _ _ M a E)) as [Hr1 Hr2].
      rewrite Hnz, (proj2 (Z.eqb_neq _ _) Hroot), Hact, Hpr, (private _ _ _ M Ha), (proj2 (Z.ltb_lt _ _)) by lia.
      by rewrite (proj2 (Z.leb_le _ VM_PML4_ENTRY_COUNT)) by (unfold VM_PML4_ENTRY_COUNT; lia).
Qed.
