(* ===== verification/SpaceCreate.v ===== *)
(** The creation of an address space: a scratch map is filled with the kernel's
    root entries and moved into the new space, or taken apart again. *)

From S2P Require Import Prelude Pmm PmmProofs PmmRefine ObjectStorage Kernel.
From S2P Require Import Objects Frames Vmm VmmWf VmmEdit VmmOps.
From S2P Require Import VmmCalls VmmUnmap VmmLife VmmShare VmmMachine.
From S2P Require Import Space SpaceWf SpaceOps SpaceLife.

Open Scope jcos_scope.

Local Notation U := g_unpublished_map.
Local Notation K := (page_map g_kernel_space).

(** * The scratch map under construction *)

(** [v] has a scratch map into which the root entries [I] of the kernel map of
    [v0] were copied. *)
Record building (I : Z -> bool) (v0 v : Vmm) : Prop := {
  bd_running : running v;
  bd_pool : forall f, pool v f <-> pool v0 f;
  bd_owned : forall f, frame_owned (v_pmm v) f <-> frame_owned (v_pmm v0) f;
  bd_map : forall m, m <> U -> same_map v0 v m;
  bd_flags : forall m, m <> U -> m <> K -> pmap v m = pmap v0 m;
  bd_pending : forall m, m <> U -> destroy_pending (pmap v m) = destroy_pending (pmap v0 m);
  bd_query : forall m va, m <> U -> vmm_query_page v m va = vmm_query_page v0 m va;
  bd_live : map_live v U;
  bd_owns : forall i, index i -> map_owns_pml4_index v U i = owned_by 0 i;
  bd_private : shared_source (pmap v U) = false /\ destroy_pending (pmap v U) = false;
  bd_cpu : v_cpu v = v_cpu v0;
  bd_inactive : map_active v U = false;
  bd_copied : forall va, vmm_query_page v U va = if I (pml4_index va) then vmm_query_page v0 K va else None;
  bd_empty : forall i, index i -> I i = false -> entry v (root v U) i = 0;
  bd_range : forall i, index i -> I i = true -> owned_by 0 i = false }.

Lemma dead_inactive v m : ~ map_live v m -> map_active v m = false.
Proof. intros Hd. destruct (map_active v m) eqn:E; [|done]. by apply active_live in E. Qed.

Lemma lives_dead_inactive m v v' : running v -> ~ map_live v m -> lives m v v' -> vmm_wf v' -> map_active v' m = false.
Proof.
  intros [W [a Ha] Hc] Hd Lv W'. destruct (map_active v' m) eqn:E; [|done]. exfalso.
  assert (a <> m) as Hne by (intros ->; by apply active_live in Ha).
  assert (map_active v' a = true) as Ha' by (by rewrite (lives_active m v v')). by apply Hne, (active_unique v').
Qed.

Lemma building_start v0 :
  running v0 -> ~ map_live v0 U ->
  let '(b, v) := vmm_page_map_create_owned_range U USER_PML4_FIRST USER_PML4_END v0 in
  if (b : bool) then building (fun _ => false) v0 v /\ profile_supported v0 = true
  else lives U v0 v /\ advances v0 v /\ ~ map_live v U /\ ~ (profile_supported v0 = true /\ supply 1 v0).
Proof.
  intros Hr Hd. pose proof (vmm_step_advances (VCreate U USER_PML4_FIRST USER_PML4_END) v0 Hr ltac:(by split)) as A.
  cbn [vmm_step] in A. pose proof (page_map_create_call U USER_PML4_FIRST USER_PML4_END v0 (rn_wf _ Hr) Hd ltac:(done)) as H.
  assert ((vmm_page_map_create_owned_range U USER_PML4_FIRST USER_PML4_END v0).1 = true -> profile_supported v0 = true) as Hps
    by (unfold vmm_page_map_create_owned_range; by destruct (profile_supported v0)).
  destruct (vmm_page_map_create_owned_range U USER_PML4_FIRST USER_PML4_END v0) as [b v]. cbn [fst snd] in *.
  destruct H as (Lv & Hb & Hf & Hs). destruct b.
  - split; [|by apply Hps]. destruct (Hb eq_refl) as (B1 & B2 & B3 & B4 & B5 & B6). split; try done.
    + apply A.
    + apply A.
    + apply A.
    + intros m Hm. by apply same_map_pmap, (lf_maps _ _ _ Lv).
    + intros m Hm _. by apply (lf_maps _ _ _ Lv).
    + intros m Hm. by rewrite (lf_maps _ _ _ Lv).
    + intros m va Hm. by apply (lf_query _ _ _ Lv).
    + apply Lv.
    + apply (lives_dead_inactive U v0 v Hr Hd Lv), A.
  - split_and!; [done|done|by apply Hf|]. intros [H1 H2]. by specialize (Hs H1 eq_refl ltac:(done) H2).
Qed.

Lemma K_U : K <> U.
Proof. done. Qed.

Lemma building_share I v0 v i :
  building I v0 v -> index i -> owned_by 0 i = false ->
  let '(b, v') := vmm_page_map_share_pml4_entry U K i v in
  if (b : bool) then building (fun j => I j || (j =? i)) v0 v' else v' = v.
Proof.
  intros [Hr BP BO B2 B3 B4 B5 B6 B7 [B8 B9] B10 B11 B12 B13 B14] Hi Hri. assert (0 <= i) as Hi0 by (unfold index in Hi; lia).
  pose proof (share_call U K i v (rn_wf _ Hr) Hi0) as H. pose proof (vmm_step_advances (VShare U K i) v Hr Hi0) as A. cbn [vmm_step] in A.
  destruct (vmm_page_map_share_pml4_entry U K i v) as [b v']. cbn [snd] in A. destruct b; [|done].
  destruct H as ([S1 S2 S3 S4 S5 S6 S7 S8 S9 S10 S11 S12] & Hna & _). split.
  - apply A.
  - intros f. by rewrite S2, BP.
  - intros f. by rewrite (sf_owned _ _ S3), BO.
  - intros m Hm. destruct (B2 m Hm) as [E1 E2 E3], (S6 m) as [F1 F2 F3]. split; congruence.
  - intros m Hm Hk. rewrite S7 by done. by apply B3.
  - intros m Hm. rewrite S11. by apply B4.
  - intros m va Hm. rewrite S8 by done. by apply B5.
  - by apply (same_map_live v v' U (S6 U)).
  - intros j Hj. rewrite (same_map_owns v v' U j (S6 U)). by apply B7.
  - by rewrite S7.
  - by rewrite S4.
  - unfold map_active. rewrite (sm_root _ _ _ (S6 U)), S4. exact B11.
  - intros va. rewrite S9, B12. destruct (Z.eqb_spec (pml4_index va) i) as [E|E]; [|by rewrite orb_false_r].
    rewrite orb_true_r. by apply B5.
  - intros j Hj [Hij Hji]%orb_false_iff. bool_prop. rewrite S10 by done. by apply B13.
  - intros j Hj [Hij|Hij]%orb_true_iff; [by apply B14|]. bool_prop. by subst j.
Qed.

(** Sharing into the scratch map does not fail while the kernel map is usable. *)
Lemma building_shares I v0 v i :
  building I v0 v -> index i -> owned_by 0 i = false -> I i = false -> map_live v0 K -> destroy_pending (pmap v0 K) = false ->
  profile_supported v0 = true -> (vmm_page_map_share_pml4_entry U K i v).1 = true.
Proof.
  intros [Hr BP BO B2 B3 B4 B5 B6 B7 [B8 B9] B10 B11 B12 B13 B14] Hi Hri HI HK Hp Hps. apply share_succeeds; try done.
  - apply Hr.
  - unfold profile_supported in *. by rewrite B10.
  - by apply (same_map_live v0 v K (B2 K K_U)).
  - by rewrite B4.
  - by rewrite B7.
  - by apply B13.
Qed.

(** Arming a one-shot failure of the allocator leaves the tables alone. *)
Lemma arm_free v f n :
  running v -> let v' := v <| v_pmm := (pmm_test_fail_free_range_once f n (v_pmm v)).2 |> in
  running v' /\ (forall x, pool v' x <-> pool v x) /\ (forall x, frame_owned (v_pmm v') x <-> frame_owned (v_pmm v) x).
Proof.
  intros [W [a Ha] Hc] v'. assert (aside v v') as Has by done.
  assert (pmm_wf (v_pmm v') /\ free_set (v_pmm v') = free_set (v_pmm v) /\
    forall x, frame_owned (v_pmm v') x <-> frame_owned (v_pmm v) x) as (HP & HF & HO).
  { unfold v', pmm_test_fail_free_range_once. destruct (_ && _); [|by split_and!; [apply W|..]].
    split_and!; [destruct (vw_pmm v W); by split|done|done]. }
  assert (forall x, held (v_pmm v) x -> held (v_pmm v') x) as Hh by (intros x [H1 H2]; split; [by apply HO|by rewrite HF]).
  split_and!; [|intros x; unfold pool; rewrite HF; by setoid_rewrite (fun m p => aside_node v v' m p x Has)|done].
  split; [|by exists a|intros b va x Hb Hx; by apply (Hc b)].
  apply (aside_wf v v' W Has); [done|intros m p x Hx; by apply Hh, (vw_table v W m p)|].
  intros Hv. destruct (vw_unlinked v W Hv) as [H1 H2]. split; [by apply Hh|done].
Qed.

Lemma building_ext I J v0 v : (forall i, index i -> J i = I i) -> building I v0 v -> building J v0 v.
Proof.
  intros E [B0 BP BO B2 B3 B4 B5 B6 B7 B8 B10 B11 B12 B13 B14]. split; try done.
  - intros va. rewrite E by apply index_mask. by apply B12.
  - intros i Hi. rewrite E by done. by apply B13.
  - intros i Hi. rewrite E by done. by apply B14.
Qed.

Lemma building_arm I v0 v f n :
  building I v0 v -> building I v0 (v <| v_pmm := (pmm_test_fail_free_range_once f n (v_pmm v)).2 |>).
Proof.
  intros [B0 BP BO B2 B3 B4 B5 B6 B7 B8 B10 B11 B12 B13 B14]. destruct (arm_free v f n B0) as (A1 & A2 & A3). split; try done.
  - intros x. by rewrite A2.
  - intros x. by rewrite A3.
  - intros m Hm. destruct (B2 m Hm). by split.
Qed.

(** The loop over the kernel's root entries. *)
Lemma building_loop ks I v0 v :
  building I v0 v -> (forall i, i ∈ ks -> index i /\ owned_by 0 i = false) ->
  let '(b, v') := for_each (vmm_page_map_share_pml4_entry U K) ks v in
  (if (b : bool) then building (fun j => I j || bool_decide (j ∈ ks)) v0 v' else exists J, building J v0 v') /\
  (NoDup ks -> (forall i, i ∈ ks -> I i = false) -> map_live v0 K -> destroy_pending (pmap v0 K) = false ->
   profile_supported v0 = true -> b = true).
Proof.
  revert I v. induction ks as [|i ks IH]; intros I v B Hks; cbn [for_each].
  - split; [|done]. eapply building_ext; [|exact B]. intros j _. by rewrite bool_decide_eq_false_2, orb_false_r by (apply not_elem_of_nil).
  - destruct (Hks i) as [Hi Ho]; [by left|]. pose proof (building_share I v0 v i B Hi Ho) as Hs.
    pose proof (building_shares I v0 v i B Hi Ho) as Hok. destruct (vmm_page_map_share_pml4_entry U K i v) as [[] v1].
    + specialize (IH _ v1 Hs (fun j Hj => Hks j (list_elem_of_further _ _ _ Hj))).
      destruct (for_each _ ks v1) as [b v']. destruct IH as [IH1 IH2]. split.
      * destruct b; [|done]. eapply building_ext; [|exact IH1]. intros j Hj. cbn beta. rewrite <- orb_assoc. f_equal.
        destruct (Z.eqb_spec j i) as [->|Hne]; [by rewrite bool_decide_eq_true_2 by left|]. cbn [orb]. apply bool_decide_ext.
        rewrite elem_of_cons. tauto.
      * intros [Hn Hnd]%list.NoDup_cons HI H1 H2 H3. apply IH2; try done. intros j Hj. rewrite HI by (by right). cbn [orb].
        apply Z.eqb_neq. by intros ->.
    + split; [exists I; by rewrite Hs|]. intros _ HI H1 H2 H3. cbn [fst] in Hok. apply Hok; try done. apply HI. by left.
Qed.

(** A step of the diagnostics of a creation. *)
Lemma create_fault_call a x s :
  let '(b, s') := space_create_fault a x s in
  y_kernel s' = y_kernel s /\ y_data s' = y_data s /\ (b = false -> s' = s) /\ (cf_armed (y_create_fault s) = false -> b = false) /\
  (y_vmm s' = y_vmm s \/ exists f n, y_vmm s' = (y_vmm s) <| v_pmm := (pmm_test_fail_free_range_once f n (v_pmm (y_vmm s))).2 |>).
Proof.
  unfold space_create_fault. destruct (!cf_armed (y_create_fault s) || (cf_target (y_create_fault s) != a) || _) eqn:E; [by split_and!; try done; left|].
  assert (cf_armed (y_create_fault s) = false -> true = false) as Hno by (intros Ha; by rewrite Ha in E).
  set (s0 := s <| y_create_fault := create_fault_zero |>). destruct (cf_fail_rollback _); [|by split_and!; try done; left].
  unfold vmm_call. destruct (pmm_test_fail_free_range_once (unpublished_root s0) 1 (v_pmm (y_vmm s0))) as [r p] eqn:Ep.
  split_and!; try done. right. exists (unpublished_root s0), 1. change (y_vmm s) with (y_vmm s0). by rewrite Ep.
Qed.

Definition kernel_slot (i : Z) : bool := (i =? KERNEL_LOW_PML4_SLOT) || (KERNEL_HIGH_PML4_FIRST <=? i).

(** ** Filling the scratch map *)
Lemma build_call a s :
  running (y_vmm s) -> ~ map_live (y_vmm s) U ->
  let '(b, s') := build_unpublished a s in
  y_kernel s' = y_kernel s /\ y_data s' = y_data s /\
  (if (b : bool) then building kernel_slot (y_vmm s) (y_vmm s')
   else (exists I, building I (y_vmm s) (y_vmm s')) \/
        (lives U (y_vmm s) (y_vmm s') /\ advances (y_vmm s) (y_vmm s') /\ ~ map_live (y_vmm s') U)) /\
  (cf_armed (y_create_fault s) = false -> supply 1 (y_vmm s) -> profile_supported (y_vmm s) = true ->
   map_live (y_vmm s) K -> destroy_pending (pmap (y_vmm s) K) = false -> b = true).
Proof.
  intros Hr Hd. unfold build_unpublished. set (v0 := y_vmm s) in *. unfold vmm_call at 1. fold v0.
  pose proof (building_start v0 Hr Hd) as H0. destruct (vmm_page_map_create_owned_range U _ _ v0) as [[] v1]; cbn [negb].
  2: { destruct H0 as (L0 & A0 & D0 & N0). split_and!; [done|done|by right|]. intros _ H1 H2. by destruct N0. }
  destruct H0 as [B1 Hps]. set (s1 := s <| y_vmm := v1 |>).
  pose proof (create_fault_call a SPACE_CREATE_TEST_AFTER_ROOT s1) as F1. destruct (space_create_fault a _ s1) as [[] s2].
  { destruct F1 as (E1 & E2 & _ & E4 & E5). split_and!; [done|done| |intros Hc; by specialize (E4 Hc)]. left. exists (fun _ => false).
    destruct E5 as [E5|(f & n & E5)]; rewrite E5; [done|by apply building_arm]. }
  destruct F1 as (_ & _ & E3 & _ & _). rewrite (E3 eq_refl). clear E3 s2.
  unfold vmm_call at 1. change (y_vmm s1) with v1.
  pose proof (building_share _ v0 v1 KERNEL_LOW_PML4_SLOT B1 ltac:(done) ltac:(done)) as B2.
  pose proof (building_shares _ v0 v1 KERNEL_LOW_PML4_SLOT B1 ltac:(done) ltac:(done) eq_refl) as O2.
  destruct (vmm_page_map_share_pml4_entry U K KERNEL_LOW_PML4_SLOT v1) as [[] v2]; cbn [negb].
  2: { split_and!; [done|done|left; exists (fun _ => false); by rewrite B2|]. intros _ _ H1 H2 H3. by specialize (O2 H2 H3 H1). }
  set (s2 := s1 <| y_vmm := v2 |>).
  pose proof (create_fault_call a SPACE_CREATE_TEST_AFTER_SHARE s2) as F2. destruct (space_create_fault a _ s2) as [[] s3].
  { destruct F2 as (E1 & E2 & _ & E4 & E5). split_and!; [done|done| |intros Hc; by specialize (E4 Hc)]. left. eexists.
    destruct E5 as [E5|(f & n & E5)]; rewrite E5; [exact B2|apply building_arm; exact B2]. }
  destruct F2 as (_ & _ & E3 & _ & _). rewrite (E3 eq_refl). clear E3 s3. unfold vmm_call. change (y_vmm s2) with v2.
  set (ks := seqZ _ _).
  assert (forall i, i ∈ ks <-> 256 <= i < 512) as Hks.
  { intros i. unfold ks. rewrite elem_of_seqZ. unfold KERNEL_HIGH_PML4_FIRST, VM_PML4_ENTRY_COUNT. lia. }
  pose proof (building_loop ks _ v0 v2 B2) as Hl. destruct (for_each _ ks v2) as [b v3].
  destruct Hl as [Hl1 Hl2].
  { intros i Hi%Hks. unfold index, owned_by, g_kernel_space, USER_PML4_FIRST, USER_PML4_END. split; [lia|].
    cbn [Z.eqb orb]. apply andb_false_iff. right. apply Z.ltb_ge. lia. }
  split_and!; [done|done| |].
  - change (y_vmm (s2 <| y_vmm := v3 |>)) with v3. destruct b; [|by left]. eapply building_ext; [|exact Hl1]. intros i Hi. cbn beta. unfold kernel_slot. cbn [orb]. f_equal.
    apply eq_iff_eq_true. rewrite bool_decide_eq_true, Hks, Z.leb_le. unfold KERNEL_HIGH_PML4_FIRST, index in *. lia.
  - intros _ _ H1 H2 H3. apply Hl2; try done; [apply NoDup_seqZ|]. intros i Hi%Hks. cbn [orb]. apply Z.eqb_neq. unfold KERNEL_LOW_PML4_SLOT. lia.
Qed.

(** * Creation of a space *)

(** A state with the same registry and identities over other page tables. *)
Lemma wf_tables s s' :
  spaces_wf s -> y_kernel s' = y_kernel s -> running (y_vmm s') ->
  (forall a, a ∈ spaces s -> root_frame (pmap (y_vmm s') (page_map a)) = root_frame (pmap (y_vmm s) (page_map a)) /\
     destroy_pending (pmap (y_vmm s') (page_map a)) = destroy_pending (pmap (y_vmm s) (page_map a))) ->
  space_maps (spaces s) (y_vmm s') -> scratch_ok (y_vmm s') -> spaces_wf s'.
Proof.
  intros W Ek Hr Hp Hm Hs. assert (spaces s' = spaces s) as Es by (unfold spaces; by rewrite Ek).
  apply (wf_shrink s s'); try (rewrite ?Ek, ?Es; done || apply W).
  intros b Hb. rewrite Es in Hb. split; [done|]. split; [split; unfold space_id; by rewrite Ek|].
  destruct (sp_shown s W b Hb) as [E1 E2], (Hp b Hb) as [E3 E4]. unfold shown. rewrite Ek. split; congruence.
Qed.

Lemma building_maps L I v0 v : space_maps L v0 -> building I v0 v -> space_maps L v /\ scratch_ok v.
Proof.
  intros M [B0 BP BO B2 B3 B4 B5 B6 B7 [B8 B9] B10 B11 B12 B13 B14]. split.
  - apply (maps_change L v0 v M).
    + intros a Ha. apply B2. by apply (mp_apart _ _ M).
    + intros m Hl Hs. destruct (decide (m = U)) as [->|Hu]; [congruence|]. destruct (decide (m = K)) as [->|Hk]; [done|].
      unfold map_live in Hl. rewrite (B3 m Hu Hk) in Hl, Hs. by apply (mp_exported _ _ M).
    + intros a va Ha Hu. rewrite B5 by (apply (mp_apart _ _ M), Ha). by apply (mp_safe _ _ M).
  - intros _. split_and!; [done| |done]. intros va Hu. rewrite B12. destruct (I (pml4_index va)) eqn:E; [|done].
    destruct (vmm_query_page v0 K va) eqn:Eq; [|done]. apply query_page_ok in Eq. apply andb_true_iff in Eq as [_ Hc].
    apply B14 in E; [|apply index_mask]. rewrite (canonical_index va Hc) in Hu. unfold owned_by, USER_PML4_FIRST, USER_PML4_END in E.
    by rewrite Hu, orb_true_r in E.
Qed.

Lemma building_step I s s' :
  spaces_wf s -> y_kernel s' = y_kernel s -> y_data s' = y_data s -> building I (y_vmm s) (y_vmm s') -> spaces_step s s'.
Proof.
  intros W Ek Ed B. destruct (building_maps (spaces s) I _ _ (sp_maps s W) B) as [M S]. pose proof B as [B0 BP BO B2 B3 B4 _ _ _ _ _ _ _ _ _].
  split; try done. apply (wf_tables s s' W Ek B0); [|done|done]. intros a Ha. pose proof (mp_apart _ _ (sp_maps s W) a Ha) as Hu.
  split; [apply (B2 _ Hu)|by apply B4].
Qed.

(** Queries of live spaces follow the page tables. *)
Lemma query_same s s' a va :
  spaces_wf s -> spaces_wf s' -> a ∈ spaces s -> a ∈ spaces s' ->
  vmm_query_page (y_vmm s') (page_map a) va = vmm_query_page (y_vmm s) (page_map a) va ->
  address_space_query_page s' a va = address_space_query_page s a va.
Proof. intros W W' Ha Ha' E. by rewrite !query_live. Qed.

(** A creation that could not fill the scratch map. *)
Lemma build_failed s s' :
  spaces_wf s -> y_kernel s' = y_kernel s -> y_data s' = y_data s ->
  (exists I, building I (y_vmm s) (y_vmm s')) \/
    (lives U (y_vmm s) (y_vmm s') /\ advances (y_vmm s) (y_vmm s') /\ ~ map_live (y_vmm s') U) ->
  spaces_step s s' /\ forall a va, a ∈ spaces s -> address_space_query_page s' a va = address_space_query_page s a va.
Proof.
  intros W Ek Ed H. assert (spaces s' = spaces s) as Es by (unfold spaces; by rewrite Ek).
  assert (spaces_step s s' /\ forall a va, a ∈ spaces s -> vmm_query_page (y_vmm s') (page_map a) va = vmm_query_page (y_vmm s) (page_map a) va) as [St Hq].
  { pose proof (mp_apart _ _ (sp_maps s W)) as Hap. destruct H as [[I B]|(Lv & A & Hd)].
    - split; [by eapply building_step|]. intros a va Ha. apply (bd_query _ _ _ B). by apply Hap.
    - split; [|intros a va Ha; apply (lf_query _ _ _ Lv); by apply Hap]. destruct A as [A1 A2 A3]. split; [|done|done|apply A3].
      apply (wf_tables s s' W Ek A1); [intros a Ha; by rewrite (lf_maps _ _ _ Lv) by (by apply Hap)| |by intros ?].
      apply (maps_lives _ _ _ _ (sp_maps s W) Lv Hap). by intros ?. }
  split; [done|]. intros a va Ha. apply query_same; try done; [apply St|by rewrite Es|by apply Hq].
Qed.

(** ** The storage of the new space *)

Definition cleared (a : Z) (s : System) : System :=
  show_map a (s <| y_kernel := set_spc a (fun _ => space_zero) (y_kernel s) |>
                <| y_vmm := set_pmap (page_map a) (fun _ => page_map_zero) (y_vmm s) |>).

Lemma cleared_spc a s b :
  spc (y_kernel (cleared a s)) b = if decide (a = b) then space_zero <| a_root_frame := FRAME_INVALID |> else spc (y_kernel s) b.
Proof.
  unfold cleared. set (s1 := s <| y_kernel := _ |> <| y_vmm := _ |>). rewrite show_spc.
  assert (forall x, spc (y_kernel s1) x = if decide (a = x) then space_zero else spc (y_kernel s) x) as E by (intros x; apply spc_set).
  assert (pmap (y_vmm s1) (page_map a) = page_map_zero) as Ep by (etrans; [apply pmap_set|by rewrite decide_True]).
  rewrite Ep, !E. destruct (decide (a = b)); [by rewrite decide_True|done].
Qed.

(** What the creation of a space at [a] requires of its storage. *)
Definition storage_ok (s : System) (a : Z) : Prop :=
  0 < a /\ page_map a <> U /\ (a ∉ spaces s -> ~ map_live (y_vmm s) (page_map a)).

Lemma cleared_call a s :
  spaces_wf s -> storage_ok s a -> a ∉ spaces s ->
  spaces_step s (cleared a s) /\ lives (page_map a) (y_vmm s) (y_vmm (cleared a s)) /\ ~ map_live (y_vmm (cleared a s)) (page_map a) /\
  forall b va, b ∈ spaces s -> address_space_query_page (cleared a s) b va = address_space_query_page s b va.
Proof.
  intros W (Ha0 & Hau & Hdead) Ha. specialize (Hdead Ha). pose proof (sp_maps s W) as M.
  destruct (dead_set_wf (page_map a) (fun _ => page_map_zero) (y_vmm s) (rn_wf _ (sp_running s W)) Hdead eq_refl) as [Lv Hd].
  change (set_pmap (page_map a) (fun _ => page_map_zero) (y_vmm s)) with (y_vmm (cleared a s)) in *.
  destruct (lives_advances _ _ _ (sp_running s W) (dead_inactive _ _ Hdead) Lv) as [A1 A2 A3].
  assert (forall b, b ∈ spaces s -> b <> a /\ page_map b <> page_map a) as Hne.
  { intros b Hb. assert (b <> a) as Hba by (by intros ->). split; [done|]. intros E. by apply page_map_inj in E. }
  assert (spaces_wf (cleared a s)) as W'.
  { apply (wf_shrink s (cleared a s)); try done; [apply W|apply W|apply W| | |].
    - intros b Hb. destruct (Hne b Hb) as [H1 H2]. split; [done|]. unfold same_identity, space_id, shown.
      rewrite cleared_spc, decide_False by congruence. rewrite (lf_maps _ _ _ Lv) by done. split; [done|]. by apply (sp_shown s W).
    - apply (maps_lives _ _ _ _ M Lv); [intros b Hb; by apply Hne|by intros ?].
    - by apply (scratch_lives _ _ _ (sp_scratch s W) Lv). }
  split_and!; [split; try done; apply A3|done|done|]. intros b va Hb. apply query_same; try done.
  apply (lf_query _ _ _ Lv). by apply Hne.
Qed.

(** ** Publication *)

Lemma publish_spc a slot s b :
  spc (y_kernel (publish_space a slot s)) b =
    if decide (a = b) then (spc (y_kernel s) a) <| a_id := om_next_id (k_spc (y_kernel s)) |>
                             <| a_root_frame := root_frame (pmap (move_unpublished a (y_vmm s)) (page_map a)) |>
                             <| a_destroy_pending := destroy_pending (pmap (move_unpublished a (y_vmm s)) (page_map a)) |>
    else spc (y_kernel s) b.
Proof.
  unfold publish_space. cbn zeta. rewrite show_spc. change (y_vmm (_ <| y_vmm := ?v |>)) with v.
  change (y_kernel (s <| y_kernel := ?k |> <| y_vmm := ?v |>)) with k. set (k1 := set_spc a _ (y_kernel s)).
  change (spc (k1 <| k_spc := ?m |>)) with (spc k1). unfold k1. rewrite !spc_set. by case_decide; [rewrite decide_True|].
Qed.

Lemma publish_maps L a v :
  space_maps L v -> map_live v U -> (forall i, index i -> map_owns_pml4_index v U i = owned_by 0 i) ->
  shared_source (pmap v U) = false -> (forall va, user_virtual_address va = true -> vmm_query_page v U va = None) ->
  0 < a -> a ∉ L -> a <> g_kernel_space -> page_map a <> U -> ~ map_live v (page_map a) ->
  space_maps (a :: L) (move_unpublished a v) /\
  (forall x va, x ∈ L -> vmm_query_page (move_unpublished a v) (page_map x) va = vmm_query_page v (page_map x) va) /\
  (forall va, vmm_query_page (move_unpublished a v) (page_map a) va = vmm_query_page v U va).
Proof.
  intros M Hu Ho Hsh Hq Ha0 Ha Hak Hau Hd. change (move_unpublished a v) with (move_map U (page_map a) v).
  assert (nz (page_map a) = true) as Hnz by (apply negb_true_iff, Z.eqb_neq; unfold page_map; lia).
  assert (source U (page_map a) (page_map a) = U) as Esrc by (unfold source; by rewrite decide_True).
  assert (forall x, x ∈ L -> page_map x <> U /\ source U (page_map a) (page_map x) = page_map x) as Hx.
  { intros x Hx. split; [by apply (mp_apart _ _ M)|]. unfold source. rewrite decide_False; [done|]. intros E. apply page_map_inj in E as ->. done. }
  split_and!.
  - split.
    + intros x [->|Hin]%elem_of_cons; apply move_live; try done; [by rewrite Esrc|]. destruct (Hx x Hin) as [H1 ->]. split; [done|].
      by apply (mp_live _ _ M).
    + intros x [->|Hin]%elem_of_cons; [done|by apply (mp_apart _ _ M)].
    + intros x i [->|Hin]%elem_of_cons Hi.
      * rewrite (move_owns v U (page_map a)), Esrc, Ho by done. unfold owned_by. by rewrite (proj2 (Z.eqb_neq _ _) Hak).
      * destruct (Hx x Hin) as [H1 H2]. rewrite (move_owns v U (page_map a)), H2 by done. by apply (mp_owns _ _ M).
    + intros m [Hm Hl]%move_live Hs; [|done..]. rewrite move_pmap, decide_False in Hs by done. unfold source in *. case_decide as E; [congruence|].
      by apply (mp_exported _ _ M).
    + intros x va [Hin Hxk] Hva. apply elem_of_cons in Hin as [->|Hin].
      * rewrite (move_query v U (page_map a)), Esrc, Hq by done. by intros ?.
      * destruct (Hx x Hin) as [H1 H2]. rewrite (move_query v U (page_map a)), H2 by done. by apply (mp_safe _ _ M).
  - intros x va Hin. destruct (Hx x Hin) as [H1 H2]. by rewrite (move_query v U (page_map a)), H2.
  - intros va. by rewrite (move_query v U (page_map a)), Esrc.
Qed.

(** The registry and identities after a publication. *)
Lemma publish_wf I a s0 s :
  spaces_wf s0 -> spaces_wf s -> y_kernel s = y_kernel s0 -> building I (y_vmm s0) (y_vmm s) ->
  0 < a -> a ∉ spaces s -> page_map a <> U -> ~ map_live (y_vmm s0) (page_map a) ->
  a_kernel (spc (y_kernel s) a) = false -> om_next_id (k_spc (y_kernel s)) <> 0 ->
  let slots := om_storage (k_spc (y_kernel s)) in
  let slot := object_storage_empty slots ADDRESS_SPACE_STORAGE_CAPACITY in slot <> ADDRESS_SPACE_STORAGE_CAPACITY ->
  let s' := publish_space a slot s in
  spaces_wf s' /\ spaces s' ≡ₚ a :: spaces s /\ space_id s' a = om_next_id (k_spc (y_kernel s)) /\
  (forall f, pool (y_vmm s') f <-> pool (y_vmm s) f) /\
  (forall x va, x ∈ spaces s -> vmm_query_page (y_vmm s') (page_map x) va = vmm_query_page (y_vmm s) (page_map x) va) /\
  (forall va, vmm_query_page (y_vmm s') (page_map a) va = vmm_query_page (y_vmm s) U va).
Proof.
  intros W0 W Ek B Ha0 Ha Hau Hd Hak Hid slots slot Hslot s'. pose proof B as [B0 BP BO B2 B3 B4 B5 B6 B7 [B8 B9] B10 B11 B12 B13 B14].
  pose proof (sp_scratch s W B6) as (_ & Hnone & _).
  assert (a <> 0) as Haz by lia. assert (a <> g_kernel_space) as Hk by (intros ->; by apply Ha, (sp_ready s W)).
  assert (~ map_live (y_vmm s) (page_map a)) as Hd' by (intros Hl; by apply Hd, (same_map_live _ _ _ (B2 _ Hau))).
  destruct (storage_register _ slots a (sp_registry s W) Hslot Haz Ha) as [Hreg Hperm].
  destruct (publish_maps (spaces s) a (y_vmm s) (sp_maps s W) B6 B7 B8 Hnone Ha0 Ha Hk Hau Hd') as (M & Hq & Hqa).
  assert (nz (page_map a) = true) as Hnz by (apply negb_true_iff, Z.eqb_neq; unfold page_map; lia).
  destruct (move_advances (y_vmm s) U (page_map a) (rn_wf _ B0) B6 Hd' Hnz Hau B8 B0 B11) as [A1 A2 A3].
  change (move_map U (page_map a) (y_vmm s)) with (y_vmm s') in A1, A2, A3. change (move_unpublished a (y_vmm s)) with (y_vmm s') in *.
  assert (spaces s' ≡ₚ a :: spaces s) as Hsp by exact Hperm.
  set (id := om_next_id (k_spc (y_kernel s))) in *.
  assert (om_next_id (k_spc (y_kernel s')) = u64 (id + 1)) as Hnext by done.
  assert (forall x, x ∈ spaces s' -> x = a \/ (x ∈ spaces s /\ x <> a)) as Hin.
  { intros x Hx. rewrite Hsp in Hx. apply elem_of_cons in Hx as [?|Hx]; [by left|right]. split; [done|]. by intros ->. }
  assert (forall x, x <> a -> spc (y_kernel s') x = spc (y_kernel s) x) as Espc by (intros x Hx; unfold s'; rewrite publish_spc, decide_False by congruence; done).
  assert (space_id s' a = id) as Eid by (unfold space_id, s'; by rewrite publish_spc, decide_True).
  assert (forall x, user_space (spaces s') x -> x = a \/ (user_space (spaces s) x /\ space_id s' x = space_id s x /\ space_id s x < id)) as Hids.
  { intros x [Hx Hxk]. destruct (Hin x Hx) as [?|[Hx' Hxa]]; [by left|right]. assert (user_space (spaces s) x) as Hu by done.
    split_and!; [done|unfold space_id; by rewrite Espc|]. destruct (sp_fresh s W x Hu) as [_ [Hz|?]]; done. }
  pose proof (sp_next s W) as Hn. fold id in Hn. unfold is_u64 in Hn.
  assert (u64 (id + 1) = 0 \/ u64 (id + 1) = id + 1) as Hu1.
  { unfold u64. destruct (decide (id + 1 = 2 ^ 64)) as [->|Hne]; [by left|right; apply Z.mod_small; lia]. }
  assert (spaces_wf s') as W'; [|split_and!; done]. split; try done.
  - split; [apply W|]. rewrite Hsp. right. apply (sp_ready s W).
  - intros x Hx. destruct (Hin x Hx) as [->|[Hx' Hxa]]; [|rewrite Espc by done; by apply (sp_kernel s W)].
    unfold s'. rewrite publish_spc, decide_True by done. upd_simpl. rewrite Hak. symmetry. by apply bool_decide_eq_false_2.
  - intros x Hx. destruct (Hin x Hx) as [->|[Hx' Hxa]].
    + unfold shown, s'. rewrite publish_spc, decide_True by done. done.
    + unfold shown. rewrite Espc by done. assert (pmap (y_vmm s') (page_map x) = pmap (y_vmm s) (page_map x)) as ->; [|by apply (sp_shown s W)].
      change (y_vmm s') with (move_map U (page_map a) (y_vmm s)). rewrite move_pmap, decide_False by (by apply (mp_apart _ _ (sp_maps s W))).
      unfold source. rewrite decide_False; [done|]. intros E. by apply page_map_inj in E.
  - apply (maps_sub _ _ _ M). intros x Hx. by rewrite Hsp in Hx.
  - intros Hl. apply (move_live (y_vmm s) U (page_map a) B6 Hnz) in Hl as [Hl _]. done.
  - rewrite Hnext. apply u64_range.
  - intros x Hx. rewrite Hnext. destruct (Hids x Hx) as [->|(Hu & -> & Hlt)]; [rewrite Eid; split; [lia|destruct Hu1 as [->| ->]; lia]|].
    destruct (sp_fresh s W x Hu) as [Hb _]. split; [done|]. destruct Hu1 as [->| ->]; lia.
  - intros x y Hx Hy E. destruct (Hids x Hx) as [->|(Hu & E1 & Hlt)], (Hids y Hy) as [->|(Hu' & E1' & Hlt')]; try done; try lia.
    apply (sp_ids s W); [done|done|lia].
Qed.

(** Whether a creation has what it needs. *)
Record create_ready (a : Z) (s : System) : Prop := {
  cr_new : a ∉ spaces s;
  cr_id : om_next_id (k_spc (y_kernel s)) <> 0;
  cr_slot : object_storage_count (om_storage (k_spc (y_kernel s))) ADDRESS_SPACE_STORAGE_CAPACITY < ADDRESS_SPACE_STORAGE_CAPACITY;
  cr_scratch : ~ map_live (y_vmm s) U;
  cr_fault : cf_armed (y_create_fault s) = false;
  cr_supply : supply 1 (y_vmm s);
  cr_profile : profile_supported (y_vmm s) = true;
  cr_kernel : destroy_pending (pmap (y_vmm s) K) = false }.

Lemma create_unfold a s :
  address_space_create a s =
    if !nz a || space_live s a then (false, s) else
    let s1 := cleared a s in
    let m := k_spc (y_kernel s) in
    if !om_initialized m || !nz (om_next_id m) || (unpublished_root s1 != FRAME_INVALID) then (false, s1) else
    let slot := object_storage_empty (om_storage m) ADDRESS_SPACE_STORAGE_CAPACITY in
    if slot =? ADDRESS_SPACE_STORAGE_CAPACITY then (false, s1) else
    let '(fault, s2) := space_create_fault a SPACE_CREATE_TEST_ALLOCATE s1 in
    if fault then (false, s2) else
    let '(built, s3) := build_unpublished a s2 in
    if !built then (false, (address_space_reclaim_unpublished s3).2) else (true, publish_space a slot s3).
Proof. done. Qed.

Lemma supply_cleared a s : ~ map_live (y_vmm s) (page_map a) -> supply 1 (y_vmm s) -> supply 1 (y_vmm (cleared a s)).
Proof. intros _ [S1 S2 S3 S4]. by split. Qed.

Lemma armed_step s s' :
  spaces_wf s -> y_kernel s' = y_kernel s -> y_data s' = y_data s ->
  y_vmm s' = y_vmm s \/ (exists f n, y_vmm s' = (y_vmm s) <| v_pmm := (pmm_test_fail_free_range_once f n (v_pmm (y_vmm s))).2 |>) ->
  spaces_step s s' /\ forall a va, a ∈ spaces s -> address_space_query_page s' a va = address_space_query_page s a va.
Proof.
  intros W Ek Ed Hv. assert (spaces s' = spaces s) as Es by (unfold spaces; by rewrite Ek).
  assert (running (y_vmm s') /\ (forall x, pool (y_vmm s') x <-> pool (y_vmm s) x) /\
    (forall x, frame_owned (v_pmm (y_vmm s')) x <-> frame_owned (v_pmm (y_vmm s)) x) /\ v_maps (y_vmm s') = v_maps (y_vmm s) /\
    (forall m va, vmm_query_page (y_vmm s') m va = vmm_query_page (y_vmm s) m va) /\ v_cpu (y_vmm s') = v_cpu (y_vmm s)) as (H1 & H2 & H3 & H4 & H5 & H6).
  { destruct Hv as [->|(f & n & ->)]; [split_and!; try done; apply W|]. destruct (arm_free (y_vmm s) f n (sp_running s W)) as (A1 & A2 & A3). by split_and!. }
  assert (forall m, pmap (y_vmm s') m = pmap (y_vmm s) m) as Ep by (intros m; by apply aside_pmap).
  assert (spaces_wf s') as W'.
  { apply (wf_tables s s' W Ek H1); [intros a _; by rewrite Ep| |].
    - apply (maps_change _ _ _ (sp_maps s W)); [intros a _; by apply same_map_pmap| |intros a va Ha Hu; rewrite H5; by apply (mp_safe _ _ (sp_maps s W))].
      intros m Hl. unfold map_live in Hl. rewrite Ep in Hl |- *. by apply (mp_exported _ _ (sp_maps s W)).
    - intros Hl. unfold map_live in Hl. rewrite Ep in Hl. destruct (sp_scratch s W Hl) as (S1 & S2 & S3). split_and!.
      + intros i Hi. unfold map_owns_pml4_index. rewrite Ep. by apply S1.
      + intros va Hu. rewrite H5. by apply S2.
      + unfold map_active. rewrite Ep, H6. exact S3. }
  split; [by split|]. intros a va Ha. apply query_same; try done. by rewrite Es.
Qed.

Lemma space_create_call a s :
  spaces_wf s -> storage_ok s a -> let '(b, s') := address_space_create a s in
  spaces_step s s' /\ others_same s s' a /\
  (b = false -> spaces s' = spaces s /\ (a ∈ spaces s -> s' = s)) /\
  (b = true -> a ∉ spaces s /\ spaces s' ≡ₚ a :: spaces s /\ space_id s' a = om_next_id (k_spc (y_kernel s)) /\
     forall va, address_space_query_page s' a va =
       if user_virtual_address va then None else address_space_query_page s g_kernel_space va) /\
  (create_ready a s -> b = true).
Proof.
  intros W Hst. pose proof Hst as (Ha0 & Hau & Hd). rewrite create_unfold, (live_spaces s a W).
  assert (nz a = true) as Hnz by (apply negb_true_iff, Z.eqb_neq; lia). rewrite Hnz. cbn [negb orb].
  destruct (bool_decide_reflect (a ∈ spaces s)) as [Ha|Ha].
  { split_and!; [by apply spaces_refl|done|done|done|]. intros R. by apply (cr_new _ _ R) in Ha. }
  specialize (Hd Ha). destruct (cleared_call a s W Hst Ha) as (St1 & Lv1 & Hd1 & Hq1). set (s1 := cleared a s) in *. cbn zeta.
  assert (spaces s1 = spaces s) as Es1 by done. pose proof (ss_wf _ _ St1) as W1.
  assert (map_live (y_vmm s1) U <-> map_live (y_vmm s) U) as HlU by (unfold map_live; by rewrite (lf_maps _ _ _ Lv1)).
  assert (pmap (y_vmm s1) K = pmap (y_vmm s) K) as EK.
  { apply (lf_maps _ _ _ Lv1). intros E. apply page_map_inj in E as <-. by apply Ha, (sp_ready s W). }
  rewrite (proj1 (sp_ready s W)). cbn [negb orb].
  assert (forall x, x <> a -> space_id s1 x = space_id s x) as Hid1 by (intros x Hx; unfold space_id, s1; rewrite cleared_spc, decide_False by congruence; done).
  assert (forall s', spaces_step s1 s' -> y_kernel s' = y_kernel s1 -> (forall x va, x ∈ spaces s1 -> address_space_query_page s' x va = address_space_query_page s1 x va) ->
    ~ create_ready a s -> spaces_step s s' /\ others_same s s' a /\ (false = false -> spaces s' = spaces s /\ (a ∈ spaces s -> s' = s)) /\
    (false = true -> a ∉ spaces s /\ spaces s' ≡ₚ a :: spaces s /\ space_id s' a = om_next_id (k_spc (y_kernel s)) /\
     forall va, address_space_query_page s' a va = if user_virtual_address va then None else address_space_query_page s g_kernel_space va) /\
    (create_ready a s -> false = true)) as Hfail.
  { intros s' St Ek Hq Hno. assert (spaces s' = spaces s) as Es by (unfold spaces; by rewrite Ek). split_and!; [by eapply spaces_trans| |done|done|done].
    intros x [Hx _] Hxa. split; [unfold space_id; rewrite Ek; by apply Hid1|]. intros va. rewrite Hq by (by rewrite Es1). by apply Hq1. }
  destruct (!nz (om_next_id (k_spc (y_kernel s))) || (unpublished_root s1 != FRAME_INVALID)) eqn:E1.
  { apply Hfail; [by apply spaces_refl|done|done|]. intros R. apply orb_true_iff in E1 as [E1|E1]; bool_prop; [by apply (cr_id _ _ R)|].
    apply (cr_scratch _ _ R), HlU. by split. }
  apply orb_false_iff in E1 as [Hid E1]. bool_prop. destruct (Z.eqb_spec (object_storage_empty (om_storage (k_spc (y_kernel s))) ADDRESS_SPACE_STORAGE_CAPACITY) ADDRESS_SPACE_STORAGE_CAPACITY) as [E2|E2].
  { apply Hfail; [by apply spaces_refl|done|done|]. intros R. pose proof (object_storage_full _ _ (sp_registry s W) E2). pose proof (cr_slot _ _ R). lia. }
  pose proof (create_fault_call a SPACE_CREATE_TEST_ALLOCATE s1) as F. destruct (space_create_fault a _ s1) as [[] s2].
  { destruct F as (Ek & Ed & _ & Hc & Hv). destruct (armed_step s1 s2 W1 Ek Ed Hv) as [St2 Hq2].
    apply Hfail; [done|done|done|]. intros R. by specialize (Hc (cr_fault _ _ R)). }
  destruct F as (_ & _ & E3 & _ & _). rewrite (E3 eq_refl). clear E3 s2.
  assert (~ map_live (y_vmm s1) U) as HdU by (intros [_ Hl]; done).
  pose proof (build_call a s1 (sp_running s1 W1) HdU) as B. destruct (build_unpublished a s1) as [b s2]. destruct B as (Ek & Ed & B & Hok).
  assert (create_ready a s -> b = true) as Hok'.
  { intros R. apply Hok; [apply R|apply supply_cleared; [done|apply R]|apply R|apply (mp_live _ _ (sp_maps s1 W1)), (sp_ready s1 W1)|]. rewrite EK. apply R. }
  assert (spaces s2 = spaces s) as Es2 by (unfold spaces; by rewrite Ek). destruct b; cbn [negb].
  - pose proof (building_step _ s1 s2 W1 Ek Ed B) as St2. pose proof (ss_wf _ _ St2) as W2.
    destruct (publish_wf kernel_slot a s1 s2 W1 W2 Ek B Ha0) as (W3 & Hperm & Hid3 & Hpool & Hq & Hqa); try done; try (rewrite ?Es2, ?Ek; done).
    { rewrite Ek. unfold s1. by rewrite cleared_spc, decide_True. }
    rewrite Ek in *. set (s3 := publish_space a _ s2) in *. rewrite Es2 in Hperm, Hq.
    assert (forall x, x ∈ spaces s -> x ∈ spaces s3) as Hin by (intros x Hx; rewrite Hperm; by right).
    assert (spaces_step s s3) as St3.
    { eapply spaces_trans; [exact St1|]. eapply spaces_trans; [exact St2|]. by split. }
    split_and!; [done| |done|intros _; split_and!; try done|done].
    + intros x [Hx _] Hxa. split; [rewrite <- Hid1 by done; unfold space_id, s3; by rewrite publish_spc, decide_False, Ek by congruence|].
      intros va. rewrite <- Hq1 by done. apply query_same; try done; [by apply Hin|]. rewrite Hq by done.
      apply (bd_query _ _ _ B). by apply (mp_apart _ _ (sp_maps s W)).
    + intros va. rewrite query_live by (done || rewrite Hperm; by left). rewrite Hqa, (bd_copied _ _ _ B), <- (Hq1 g_kernel_space) by apply (sp_ready s W).
      rewrite query_live by (done || apply (sp_ready s1 W1)). destruct (vmm_query_page (y_vmm s1) K va) as [x|] eqn:Eq; [|by destruct (kernel_slot _), (user_virtual_address va)].
      apply query_page_ok, andb_true_iff in Eq as [_ Hc]. rewrite (canonical_index va Hc). pose proof (index_mask (Z.shiftr va 39)) as Hix.
      unfold kernel_slot, KERNEL_LOW_PML4_SLOT, KERNEL_HIGH_PML4_FIRST. unfold index in Hix. fold (pml4_index va) in Hix.
      destruct (Z.eqb_spec (pml4_index va) 0) as [->|Hz]; [done|]. destruct (Z.leb_spec 256 (pml4_index va)), (Z.ltb_spec (pml4_index va) 256); try lia; cbn [orb].
      * by rewrite andb_false_r.
      * by rewrite (proj2 (Z.leb_le 1 (pml4_index va))) by lia.
  - destruct (build_failed s1 s2 W1 Ek Ed B) as [St2 Hq2]. pose proof (reclaim_unpublished_call s2 (ss_wf _ _ St2)) as R.
    destruct (address_space_reclaim_unpublished s2) as [r s3]. destruct R as (St3 & Ek3 & Hq3 & _). cbn [snd].
    apply Hfail; [by eapply spaces_trans|by rewrite Ek3, Ek| |intros R; by specialize (Hok' R)].
    intros x va Hx. rewrite Hq3 by (by rewrite Es2). by apply Hq2.
Qed.
