(* ===== verification/SpaceMachine.v ===== *)
(** Address spaces as an abstract store of pages, and the machine of all
    operations in any order.

    Abstractly a user space is an identity and a partial map from user pages to
    frames with permissions. *)

From S2P Require Import Prelude Pmm PmmProofs PmmRefine ObjectStorage Kernel.
From S2P Require Import Objects Frames Vmm VmmWf VmmEdit VmmOps.
From S2P Require Import VmmCalls VmmUnmap VmmLife VmmShare VmmMachine.
From S2P Require Import Space SpaceWf SpaceOps SpaceLife SpaceCreate.

Open Scope jcos_scope.

(** * The abstract store *)

Definition Pages : Type := Z -> option (Z * Z).

Definition Store : Type := Z -> option (Z * Pages).

Definition assign {A} (f : Z -> A) (x : Z) (v : A) : Z -> A := fun y => if decide (y = x) then v else f y.

Inductive SpaceEvent :=
  | SpCreate (space : Z)
  | SpDestroy (space : Z)
  | SpMap (space address frame flags : Z)
  | SpUnmap (space address : Z)
  | SpReclaim
  | SpCreateFault (target : Z) (fault : SpaceCreateTestFault) (fail_rollback : bool)
  | SpTableFault (map : Z) (fault : VmmTestFault) (skip : Z)
  | SpReferences (space count : Z)
  | SpSwitch (space : Z)
  | SpTouch (space address : Z).

Inductive SpaceAnswer := Granted | Refused | Returned (frame : Z).

Definition answer (b : bool) : SpaceAnswer := if b then Granted else Refused.

Inductive store_step : SpaceEvent -> SpaceAnswer -> Store -> Store -> Prop :=
  | st_create a id S :
      S a = None -> (forall b id' P, S b = Some (id', P) -> id' <> id) ->
      store_step (SpCreate a) Granted S (assign S a (Some (id, fun _ => None)))
  | st_destroy a id P S :
      S a = Some (id, P) -> (forall va, user_virtual_address va = true -> P va = None) ->
      store_step (SpDestroy a) Granted S (assign S a None)
  | st_map a va frame flags id P S :
      S a = Some (id, P) -> P va = None -> user_virtual_address va = true -> has flags VM_WRITE && has flags VM_EXEC = false ->
      store_step (SpMap a va frame flags) Granted S (assign S a (Some (id, assign P va (Some (frame, Z.lor flags VM_USER)))))
  | st_map_kernel va frame flags S : store_step (SpMap g_kernel_space va frame flags) Granted S S
  | st_unmap a va frame flags id P S :
      S a = Some (id, P) -> P va = Some (frame, flags) -> user_virtual_address va = true ->
      store_step (SpUnmap a va) (Returned frame) S (assign S a (Some (id, assign P va None)))
  | st_unmap_kernel va frame S : store_step (SpUnmap g_kernel_space va) (Returned frame) S S
  | st_refused e S : store_step e Refused S S
  | st_other e r S :
      match e with SpCreate _ | SpDestroy _ | SpMap _ _ _ _ | SpUnmap _ _ => False | _ => True end -> store_step e r S S.

Inductive store_run : list (SpaceEvent * SpaceAnswer) -> Store -> Store -> Prop :=
  | sr_nil S : store_run [] S S
  | sr_cons e r t S S1 S2 : store_step e r S S1 -> store_run t S1 S2 -> store_run ((e, r) :: t) S S2.

(** * The machine *)

Definition space_step (e : SpaceEvent) (s : System) : SpaceAnswer * System :=
  match e with
  | SpCreate a => let '(b, s) := address_space_create a s in (answer b, s)
  | SpDestroy a => let '(b, s) := address_space_destroy a s in (answer b, s)
  | SpMap a va frame flags => let '(b, s) := address_space_map_page a va frame flags s in (answer b, s)
  | SpUnmap a va => let '(r, s) := address_space_unmap_page a va s in (if r is Some frame then Returned frame else Refused, s)
  | SpReclaim => let '(b, s) := address_space_reclaim_unpublished s in (answer b, s)
  | SpCreateFault a fault fail => let '(b, s) := address_space_test_fail_create_once a fault fail s in (answer b, s)
  | SpTableFault map fault skip => let '(b, s) := vmm_call (vmm_test_fail_once map fault skip) s in (answer b, s)
  | SpReferences a count => (Granted, s <| y_kernel := set_spc a (fun x => x <| a_capability_refs := count |>) (y_kernel s) |>)
  | SpSwitch a => (Granted, s <| y_vmm := arch_write_cr3 (address_space_cr3 (y_kernel s) a) (y_vmm s) |>)
  | SpTouch a va => (Granted, s <| y_vmm := fill_tlb (page_map a) va (y_vmm s) |>)
  end.

(** Arguments have the range of their types, storage handed to a creation holds no
    page map, and the processor runs on the map it last loaded. *)
Definition space_event_ok (s : System) (e : SpaceEvent) : Prop :=
  match e with
  | SpCreate a => storage_ok s a
  | SpMap _ va frame flags => is_u64 va /\ is_u64 frame /\ is_u64 flags
  | SpUnmap _ va => is_u64 va
  | SpSwitch a => a ∈ spaces s /\ map_active (arch_write_cr3 (address_space_cr3 (y_kernel s) a) (y_vmm s)) (page_map a) = true
  | SpTouch a _ => a ∈ spaces s /\ map_active (y_vmm s) (page_map a) = true
  | _ => True
  end.

Fixpoint space_run (es : list SpaceEvent) (s : System) : list (SpaceEvent * SpaceAnswer) * System :=
  match es with
  | [] => ([], s)
  | e :: es => let '(r, s) := space_step e s in let '(t, s) := space_run es s in ((e, r) :: t, s)
  end.

Fixpoint space_events_ok (s : System) (es : list SpaceEvent) : Prop :=
  match es with [] => True | e :: es => space_event_ok s e /\ space_events_ok (space_step e s).2 es end.

(** * Refinement *)

(** The store a state implements. *)
Definition implements (s : System) (S : Store) : Prop :=
  forall a, match S a with
  | Some (id, P) => user_space (spaces s) a /\ space_id s a = id /\
                    forall va, user_virtual_address va = true -> address_space_query_page s a va = P va
  | None => ~ user_space (spaces s) a
  end.

Lemma implements_some s S a :
  implements s S -> user_space (spaces s) a ->
  exists P, S a = Some (space_id s a, P) /\ forall va, user_virtual_address va = true -> address_space_query_page s a va = P va.
Proof.
  intros H Ha. specialize (H a). destruct (S a) as [[id P]|]; [|done]. destruct H as (_ & <- & H). by exists P.
Qed.

(** Nothing a store shows changed. *)
Lemma implements_same s s' S :
  implements s S -> (forall a, user_space (spaces s') a <-> user_space (spaces s) a) -> (forall a, user_space (spaces s) a -> space_id s' a = space_id s a) ->
  (forall a va, user_space (spaces s) a -> user_virtual_address va = true -> address_space_query_page s' a va = address_space_query_page s a va) ->
  implements s' S.
Proof.
  intros H Hu Hi Hq a. specialize (H a). destruct (S a) as [[id P]|]; [|by rewrite Hu]. destruct H as (H1 & H2 & H3).
  split_and!; [by apply Hu|by rewrite Hi|]. intros va Hva. rewrite Hq by done. by apply H3.
Qed.

(** A change of one page. *)
Lemma implements_pages s s' S a va x :
  implements s S -> tables_step s s' -> pages_as s s' a va x -> user_space (spaces s) a ->
  exists P, S a = Some (space_id s a, P) /\ (user_virtual_address va = true -> P va = address_space_query_page s a va) /\
    implements s' (assign S a (Some (space_id s a, assign P va x))).
Proof.
  intros H [T1 Ek Ed _ _ _ _ _ _] Hp Ha. destruct (implements_some s S a H Ha) as (P & HS & HP). exists P. split_and!; [done|intros Hu; by rewrite HP|].
  assert (spaces s' = spaces s) as Es by (unfold spaces; by rewrite Ek).
  assert (forall b, space_id s' b = space_id s b) as Ei by (intros b; unfold space_id; by rewrite Ek).
  intros b. unfold assign. destruct (decide (b = a)) as [->|Hne].
  - rewrite Es, Ei. split_and!; [done|done|]. intros va' Hu. rewrite (Hp a va' Ha Hu).
    destruct (decide (va' = va)) as [->|Hv]; [by rewrite decide_True|]. rewrite decide_False by (by intros [_ ?]). by apply HP.
  - specialize (H b). destruct (S b) as [[id Q]|]; [|by rewrite Es]. destruct H as (H1 & H2 & H3). rewrite Es, Ei. split_and!; [done|done|].
    intros va' Hu. rewrite (Hp b va' H1 Hu), decide_False by (by intros [? _]). by apply H3.
Qed.

(** ** One operation *)

Definition refines_step (e : SpaceEvent) (s : System) : Prop :=
  forall S, implements s S -> exists S', store_step e (space_step e s).1 S S' /\ implements (space_step e s).2 S'.

Lemma refused_refines s s' S e r :
  implements s S -> (forall a, user_space (spaces s') a <-> user_space (spaces s) a) -> (forall a, user_space (spaces s) a -> space_id s' a = space_id s a) ->
  (forall a va, user_space (spaces s) a -> user_virtual_address va = true -> address_space_query_page s' a va = address_space_query_page s a va) ->
  store_step e r S S -> exists S', store_step e r S S' /\ implements s' S'.
Proof. intros H1 H2 H3 H4 Hs. exists S. split; [done|]. by eapply implements_same. Qed.

Lemma create_refines a s : spaces_wf s -> storage_ok s a -> spaces_step s (space_step (SpCreate a) s).2 /\ refines_step (SpCreate a) s.
Proof.
  intros W Hst. unfold refines_step. cbn [space_step]. pose proof (space_create_call a s W Hst) as H. destruct (address_space_create a s) as [b s'].
  destruct H as (St & Ho & Hf & Ht & _). split; [done|]. intros S HS. destruct b; cbn [fst snd answer].
  - destruct (Ht eq_refl) as (Hn & Hp & Hid & Hq). assert (~ user_space (spaces s) a) as Hnu by (by intros [? _]).
    exists (assign S a (Some (om_next_id (k_spc (y_kernel s)), fun _ => None))). split.
    + apply st_create; [specialize (HS a); destruct (S a) as [[]|]; [|done]; by destruct HS|].
      intros b id P HSb E. subst id. specialize (HS b). rewrite HSb in HS. destruct HS as (Hb & Eb & _).
      destruct (sp_fresh s W b Hb) as [Hr [Hz|Hlt]]; lia.
    + assert (a <> g_kernel_space) as Hak by (intros ->; by apply Hn, (sp_ready s W)).
      intros b. unfold assign. destruct (decide (b = a)) as [->|Hne].
      * split_and!; [split; [rewrite Hp; by left|done]|done|]. intros va Hu. by rewrite Hq, Hu.
      * specialize (HS b). assert (user_space (spaces s') b <-> user_space (spaces s) b) as Hub.
        { unfold user_space. rewrite Hp, elem_of_cons. tauto. }
        destruct (S b) as [[id P]|]; [|by rewrite Hub]. destruct HS as (H1 & H2 & H3). destruct (Ho b H1 Hne) as [-> Hq'].
        split_and!; [by apply Hub|done|]. intros va Hu. rewrite Hq'. by apply H3.
  - destruct (Hf eq_refl) as [Es Hsame]. apply (refused_refines s s' S); [done|intros b; by rewrite Es| | |constructor].
    + intros b Hb. destruct (decide (b = a)) as [->|Hne]; [by rewrite Hsame by apply Hb|by apply Ho].
    + intros b va Hb _. destruct (decide (b = a)) as [->|Hne]; [by rewrite Hsame by apply Hb|by apply Ho].
Qed.

Lemma destroy_refines a s : spaces_wf s -> spaces_step s (space_step (SpDestroy a) s).2 /\ refines_step (SpDestroy a) s.
Proof.
  intros W. unfold refines_step. cbn [space_step]. pose proof (space_destroy_call a s W) as H. destruct (address_space_destroy a s) as [b s'].
  destruct H as (St & Ho & Ht & Hf & _). split; [done|]. intros S HS. destruct b; cbn [fst snd answer].
  - destruct (Ht eq_refl) as (Ha & _ & Hnone & Hp & Hn). destruct (implements_some s S a HS Ha) as (P & HSa & HP).
    exists (assign S a None). split; [apply (st_destroy a (space_id s a) P); [done|]; intros va Hu; rewrite <- HP by done; by apply Hnone|].
    intros b. unfold assign. destruct (decide (b = a)) as [->|Hne]; [by intros [? _]|]. specialize (HS b).
    assert (user_space (spaces s') b <-> user_space (spaces s) b) as Hub by (unfold user_space; rewrite Hp, elem_of_cons; tauto).
    destruct (S b) as [[id Q]|]; [|by rewrite Hub]. destruct HS as (H1 & H2 & H3). destruct (Ho b H1 Hne) as [-> Hq'].
    split_and!; [by apply Hub|done|]. intros va Hu. rewrite Hq'. by apply H3.
  - destruct (Hf eq_refl) as (Es & Hid & Hq). apply (refused_refines s s' S); [done|intros b; by rewrite Es| | |constructor].
    + intros b Hb. destruct (decide (b = a)) as [->|Hne]; [done|by apply Ho].
    + intros b va Hb Hu. destruct (decide (b = a)) as [->|Hne]; [by apply Hq|by apply Ho].
Qed.

(** A call that leaves the store as it is. *)
Lemma tables_same s s' S e r :
  implements s S -> tables_step s s' -> (forall a va, user_space (spaces s) a -> user_virtual_address va = true ->
    address_space_query_page s' a va = address_space_query_page s a va) ->
  store_step e r S S -> exists S', store_step e r S S' /\ implements s' S'.
Proof.
  intros HS [T1 Ek _ _ _ _ _ _ _] Hq Hs. apply (refused_refines s s' S e r); try done; unfold spaces, space_id; by rewrite Ek.
Qed.

Lemma pages_same s s' a va : pages_as s s' a va (address_space_query_page s a va) ->
  forall b va', user_space (spaces s) b -> user_virtual_address va' = true -> address_space_query_page s' b va' = address_space_query_page s b va'.
Proof. intros Hp b va' Hb Hu. rewrite (Hp b va' Hb Hu). case_decide as D; [|done]. by destruct D as [-> ->]. Qed.

Lemma pages_none s s' a va x : ~ user_space (spaces s) a -> pages_as s s' a va x ->
  forall b va', user_space (spaces s) b -> user_virtual_address va' = true -> address_space_query_page s' b va' = address_space_query_page s b va'.
Proof. intros Ha Hp. by apply (pages_same s s' a va), (pages_other s s' a va x). Qed.

Lemma map_refines a va frame flags s :
  spaces_wf s -> is_u64 va -> is_u64 frame -> is_u64 flags ->
  spaces_step s (space_step (SpMap a va frame flags) s).2 /\ refines_step (SpMap a va frame flags) s.
Proof.
  intros W H1 H2 H3. unfold refines_step. cbn [space_step]. pose proof (space_map_call a va frame flags s W H1 H2 H3) as H.
  assert ((address_space_map_page a va frame flags s).1 = true -> a ∈ spaces s) as Hin.
  { unfold address_space_map_page. rewrite (live_spaces s a W). by destruct (bool_decide_reflect (a ∈ spaces s)). }
  destruct (address_space_map_page a va frame flags s) as [b s']. destruct H as (T & Hp & Hb & _). split; [by apply tables_spaces|].
  intros S HS. destruct b; cbn [fst snd answer] in *; [|apply (tables_same s s' S); [done|done|by eapply pages_same|constructor]].
  destruct (decide (a = g_kernel_space)) as [->|Hk].
  - apply (tables_same s s' S); [done|done| |constructor]. eapply pages_none; [|exact Hp]. by intros [_ ?].
  - assert (user_space (spaces s) a) as Ha by (split; [by apply Hin|done]). destruct (Hb eq_refl Ha) as (Hu & Hwx & _ & Hnone).
    destruct (implements_pages s s' S a va _ HS T Hp Ha) as (P & HSa & HP & Himp). eexists. split; [|exact Himp].
    apply st_map; try done. by rewrite HP.
Qed.

Lemma unmap_refines a va s : spaces_wf s -> is_u64 va -> spaces_step s (space_step (SpUnmap a va) s).2 /\ refines_step (SpUnmap a va) s.
Proof.
  intros W H1. unfold refines_step. cbn [space_step]. pose proof (space_unmap_call a va s W H1) as H.
  assert ((address_space_unmap_page a va s).1 <> None -> a ∈ spaces s) as Hin.
  { unfold address_space_unmap_page. rewrite (live_spaces s a W). by destruct (bool_decide_reflect (a ∈ spaces s)). }
  destruct (address_space_unmap_page a va s) as [r s']. destruct H as (T & _ & Hp & Hr). split; [by apply tables_spaces|].
  intros S HS. destruct r as [f|]; cbn [fst snd] in *; [|apply (tables_same s s' S); [done|done|by eapply pages_same|constructor]].
  destruct (decide (a = g_kernel_space)) as [->|Hk].
  - apply (tables_same s s' S); [done|done| |constructor]. eapply pages_none; [|exact Hp]. by intros [_ ?].
  - assert (user_space (spaces s) a) as Ha by (split; [by apply Hin|done]). specialize (Hr Ha).
    destruct (user_virtual_address va) eqn:Hu; [|done]. destruct (change_allowed _ _ _); [|done]. cbn [andb] in Hr.
    destruct (address_space_query_page s a va) as [[g fl]|] eqn:Eq; [|done]. injection Hr as ->.
    destruct (implements_pages s s' S a va _ HS T Hp Ha) as (P & HSa & HP & Himp). eexists. split; [|exact Himp].
    apply (st_unmap a va g fl); try done. by rewrite HP.
Qed.

(** ** Steps that change neither spaces nor pages *)

(** The page tables differ in the allocator, the diagnostics or the processor only. *)
Lemma aside_step s v :
  spaces_wf s -> advances (y_vmm s) v -> v_maps v = v_maps (y_vmm s) ->
  (forall m va, vmm_query_page v m va = vmm_query_page (y_vmm s) m va) ->
  (map_live v g_unpublished_map -> map_active v g_unpublished_map = false) ->
  spaces_step s (s <| y_vmm := v |>) /\
  forall a va, a ∈ spaces s -> address_space_query_page (s <| y_vmm := v |>) a va = address_space_query_page s a va.
Proof.
  intros W [A1 A2 A3] Em Hq Hu. assert (forall m, pmap v m = pmap (y_vmm s) m) as Ep by (intros m; by apply aside_pmap).
  assert (spaces_wf (s <| y_vmm := v |>)) as W'.
  { apply vmm_wf_step; [done|done|intros a _; by rewrite Ep| |].
    - apply (maps_change _ _ _ (sp_maps s W)); [intros a _; by apply same_map_pmap| |intros a va Ha Hva; rewrite Hq; by apply (mp_safe _ _ (sp_maps s W))].
      intros m Hl. unfold map_live in Hl. rewrite Ep in Hl |- *. by apply (mp_exported _ _ (sp_maps s W)).
    - intros Hl. specialize (Hu Hl). unfold map_live in Hl. rewrite Ep in Hl. destruct (sp_scratch s W Hl) as (S1 & S2 & S3). split_and!; [| |done].
      + intros i Hi. unfold map_owns_pml4_index. rewrite Ep. by apply S1.
      + intros va Hva. rewrite Hq. by apply S2. }
  split; [split; try done; apply A3|]. intros a va Ha. by apply query_same; try done.
Qed.

Lemma other_refines e s s' r :
  space_step e s = (r, s') -> match e with SpCreate _ | SpDestroy _ | SpMap _ _ _ _ | SpUnmap _ _ => False | _ => True end ->
  spaces s' = spaces s -> (forall a, space_id s' a = space_id s a) ->
  (forall a va, a ∈ spaces s -> address_space_query_page s' a va = address_space_query_page s a va) -> refines_step e s.
Proof.
  intros E He Es Hid Hq S HS. rewrite E. cbn [fst snd]. apply (refused_refines s s' S); [done|intros a; by rewrite Es|intros a _; by apply Hid| |].
  - intros a va [Ha _] _. by apply Hq.
  - by apply st_other.
Qed.

(** The counter of references is no part of the invariant. *)
Lemma references_step a n s :
  spaces_wf s -> let s' := s <| y_kernel := set_spc a (fun x => x <| a_capability_refs := n |>) (y_kernel s) |> in
  spaces_step s s' /\ (forall b, space_id s' b = space_id s b).
Proof.
  intros W s'.
  assert (forall b, a_id (spc (y_kernel s') b) = a_id (spc (y_kernel s) b) /\ a_kernel (spc (y_kernel s') b) = a_kernel (spc (y_kernel s) b) /\
    a_root_frame (spc (y_kernel s') b) = a_root_frame (spc (y_kernel s) b) /\ a_destroy_pending (spc (y_kernel s') b) = a_destroy_pending (spc (y_kernel s) b)) as H.
  { intros b. change (y_kernel s') with (set_spc a (fun x => x <| a_capability_refs := n |>) (y_kernel s)). rewrite spc_set. by case_decide; [subst b|]. }
  split; [|intros b; apply H]. split; try done. apply (wf_shrink s s'); try done; try apply W.
  intros b Hb. destruct (H b) as (E1 & E2 & E3 & E4). split; [done|]. split; [by split|]. unfold shown. rewrite E3, E4. by apply (sp_shown s W).
Qed.

Lemma space_step_refines e s : spaces_wf s -> space_event_ok s e -> spaces_step s (space_step e s).2 /\ refines_step e s.
Proof.
  intros W Hok. destruct e; cbn [space_event_ok] in Hok.
  - by apply create_refines.
  - by apply destroy_refines.
  - destruct Hok as (H1 & H2 & H3). by apply map_refines.
  - by apply unmap_refines.
  - destruct (space_step SpReclaim s) as [r s'] eqn:E. pose proof E as E'. cbn [space_step] in E'.
    pose proof (reclaim_unpublished_call s W) as H. destruct (address_space_reclaim_unpublished s) as [b s1]. injection E' as <- <-.
    destruct H as (St & Ek & Hq & _). split; [done|]. apply (other_refines _ _ _ _ E); try done; unfold spaces, space_id; by rewrite Ek.
  - destruct (space_step (SpCreateFault target fault fail_rollback) s) as [r s'] eqn:E. pose proof E as E'. cbn [space_step] in E'.
    destruct (address_space_test_fail_create_once target fault fail_rollback s) as [b s1] eqn:Ef. injection E' as <- <-.
    assert (y_kernel s1 = y_kernel s /\ y_vmm s1 = y_vmm s /\ y_data s1 = y_data s) as (Ek & Ev & Ed).
    { unfold address_space_test_fail_create_once in Ef. destruct (_ || _); [by injection Ef as _ <-|]. destruct (_ && _); by injection Ef as _ <-. }
    destruct (armed_step s s1 W Ek Ed (or_introl Ev)) as [St Hq].
    split; [done|]. apply (other_refines _ _ _ _ E); try done; unfold spaces, space_id; by rewrite Ek.
  - destruct (space_step (SpTableFault map fault skip) s) as [r s'] eqn:E. pose proof E as E'. cbn [space_step] in E'. unfold vmm_call in E'.
    pose proof (arm_advances (y_vmm s) map fault skip (sp_running s W)) as A.
    assert (forall v, v = (vmm_test_fail_once map fault skip (y_vmm s)).2 -> v_maps v = v_maps (y_vmm s) /\
      (forall m va, vmm_query_page v m va = vmm_query_page (y_vmm s) m va) /\ v_cpu v = v_cpu (y_vmm s)) as Hv.
    { intros v ->. unfold vmm_test_fail_once. destruct (!nz map); [done|]. by destruct (!ft_armed _). }
    destruct (vmm_test_fail_once map fault skip (y_vmm s)) as [b v]. injection E' as <- <-. destruct (Hv v eq_refl) as (H1 & H2 & H3).
    destruct (aside_step s v W A H1 H2) as [St Hq].
    + intros Hl%(aside_live (y_vmm s) v _ H1). unfold map_active. rewrite (aside_pmap (y_vmm s) v _ H1), H3. by apply (sp_scratch s W).
    + split; [done|]. by apply (other_refines _ _ _ _ E).
  - destruct (references_step space count s W) as [St Hid]. split; [done|]. eapply (other_refines _ s); [reflexivity|done|done|done|].
    intros a va Ha. by apply query_same; [|apply St|..].
  - destruct Hok as [Ha Hact]. set (v := arch_write_cr3 (address_space_cr3 (y_kernel s) space) (y_vmm s)) in *.
    assert (advances (y_vmm s) v) as A.
    { apply cpu_advances; [apply W|by exists (page_map space)|]. intros b va x _ Hx.
      change ((∅ : gmap Z (Z * Z)) !! va = Some x) in Hx. by apply lookup_empty_Some in Hx. }
    destruct (aside_step s v W A eq_refl) as [St Hq]; [done| |split; [done|by eapply (other_refines _ s)]].
    intros _. destruct (map_active v g_unpublished_map) eqn:E; [|done]. exfalso. apply (mp_apart _ _ (sp_maps s W) space Ha).
    apply (active_unique v); [apply A|done|done].
  - destruct Hok as [Ha Hact]. pose proof (vmm_step_advances (VFill (page_map space) address) (y_vmm s) (sp_running s W) Hact) as A. cbn [vmm_step] in A.
    set (v := fill_tlb (page_map space) address (y_vmm s)) in *.
    assert (v_maps v = v_maps (y_vmm s) /\ (forall m va, vmm_query_page v m va = vmm_query_page (y_vmm s) m va) /\ c_cr3 (v_cpu v) = c_cr3 (v_cpu (y_vmm s))) as (H1 & H2 & H3)
      by (unfold v, fill_tlb; by destruct (vmm_query_page (y_vmm s) _ _)).
    destruct (aside_step s v W A H1 H2) as [St Hq]; [|split; [done|by eapply (other_refines _ s)]].
    intros Hl%(aside_live (y_vmm s) v _ H1). unfold map_active. rewrite (aside_pmap (y_vmm s) v _ H1), H3. by apply (sp_scratch s W).
Qed.

Lemma space_run_refines es s S :
  spaces_wf s -> space_events_ok s es -> implements s S ->
  let '(t, s') := space_run es s in
  spaces_step s s' /\ exists S', store_run t S S' /\ implements s' S'.
Proof.
  revert s S. induction es as [|e es IH]; intros s S W Hok HS; cbn [space_run]; [split; [by apply spaces_refl|exists S; by split; [constructor|]]|].
  destruct Hok as [He Hes]. destruct (space_step_refines e s W He) as [St Hr]. destruct (Hr S HS) as (S1 & Hs & HS1).
  destruct (space_step e s) as [r s1]. cbn [fst snd] in *. specialize (IH s1 S1 (ss_wf _ _ St) Hes HS1).
  destruct (space_run es s1) as [t s']. destruct IH as (St' & S' & Hrun & HS'). split; [by eapply spaces_trans|].
  exists S'. split; [by econstructor|done].
Qed.
