(* ===== verification/SpaceTheorems.v ===== *)
(** The theorems of address spaces. *)

From S2P Require Import Prelude Pmm PmmProofs PmmInit PmmRefine ObjectStorage.
From S2P Require Import Kernel Objects Frames Vmm VmmWf VmmEdit.
From S2P Require Import VmmOps VmmCalls VmmUnmap VmmLife VmmShare.
From S2P Require Import VmmMachine Space SpaceWf SpaceOps SpaceLife.
From S2P Require Import SpaceCreate SpaceMachine CapabilityTheorems VmmTheorems.

Open Scope jcos_scope.

(** * Theorems *)


(** C40. Creating and destroying spaces, mapping and unmapping their pages,
    retried roll-backs, armed diagnostics, changes of reference counts, loads of
    CR3 and of the translation cache, in any order: every answer is one of an
    abstract store in which a space is an identity and a partial map of user
    pages, so an operation on one space changes no page of another. In every
    state reached a page of a user space is user accessible and not both
    writable and executable; outside the user range it is a page of the kernel
    space; no two spaces have one identity; the processor uses no translation
    the active tables do not contain; and frames are conserved. *)
Theorem spaces_refine (es : list SpaceEvent) (s : System) (S : Store) :
  spaces_wf s -> space_events_ok s es -> implements s S ->
  let '(t, s') := space_run es s in
  (exists S', store_run t S S' /\ implements s' S') /\
  (forall a va f flags, user_space (spaces s') a -> user_virtual_address va = true ->
     address_space_query_page s' a va = Some (f, flags) -> has flags VM_USER = true /\ has flags VM_WRITE && has flags VM_EXEC = false) /\
  (forall a va f flags, user_space (spaces s') a -> user_virtual_address va = false ->
     address_space_query_page s' a va = Some (f, flags) -> exists flags', address_space_query_page s' g_kernel_space va = Some (f, flags')) /\
  (forall a b, user_space (spaces s') a -> user_space (spaces s') b -> space_id s' a = space_id s' b -> a = b) /\
  (forall a va x, a ∈ spaces s' -> map_active (y_vmm s') (page_map a) = true -> c_tlb (v_cpu (y_vmm s')) !! va = Some x ->
     address_space_query_page s' a va = Some x) /\
  (forall f, pool (y_vmm s') f <-> pool (y_vmm s) f).
Proof.
  intros W Hok HS. pose proof (space_run_refines es s S W Hok HS) as H. destruct (space_run es s) as [t s'].
  destruct H as ([W' Hd Hp Hf] & Href). pose proof (sp_maps s' W') as M. split_and!; try done.
  - intros a va f flags Ha Hu Hq. rewrite query_live in Hq by (done || apply Ha). exact (mp_safe _ _ M a va Ha Hu f flags Hq).
  - intros a va f flags Ha Hu Hq. rewrite query_live in Hq |- * by (done || apply Ha || apply (sp_ready s' W')).
    exact (kernel_half _ _ a va f flags (rn_wf _ (sp_running s' W')) M Ha (proj2 (sp_ready s' W')) Hu Hq).
  - apply (sp_ids s' W').
  - intros a va x Ha Hact Hx. rewrite query_live by done. by apply (rn_coherent _ (sp_running s' W')).
Qed.

(** * Booting *)

(** [address_space_kernel_init] on a system without page maps establishes the
    invariant as soon as the processor runs on the kernel space. *)
Lemma kernel_init_wf s cr3 :
  vmm_wf (y_vmm s) -> (forall m, ~ map_live (y_vmm s) m) -> om_initialized (k_spc (y_kernel s)) = false ->
  om_storage (k_spc (y_kernel s)) = replicate 256 0 -> (address_space_kernel_init s).1 = true ->
  let s' := (address_space_kernel_init s).2 in
  let v := arch_write_cr3 cr3 (y_vmm s') in
  map_active v (page_map g_kernel_space) = true -> spaces_wf (s' <| y_vmm := v |>) /\ spaces (s' <| y_vmm := v |>) = [g_kernel_space].
Proof.
  intros W Hdead Hi Hst. unfold address_space_kernel_init, vmm_call. rewrite Hi. set (s0 := s <| y_kernel := _ |>).
  change (y_vmm s0) with (y_vmm s). pose proof (page_map_create_call (page_map g_kernel_space) 0 VM_PML4_ENTRY_COUNT (y_vmm s) W (Hdead _) ltac:(lia)) as H.
  change (vmm_page_map_create_owned_range (page_map g_kernel_space) 0 VM_PML4_ENTRY_COUNT (y_vmm s))
    with (vmm_page_map_create (page_map g_kernel_space) (y_vmm s)) in H.
  destruct (vmm_page_map_create (page_map g_kernel_space) (y_vmm s)) as [[] v0]; [|done]. intros _. cbn [negb snd]. cbn zeta. set (s' := (show_map g_kernel_space (s0 <| y_vmm := v0 |>)) <| y_kernel := _ |>).
  set (v := arch_write_cr3 cr3 (y_vmm s')). intros Hact. destruct H as (Lv & Hb & _ & _). destruct (Hb eq_refl) as (B1 & B2 & B3 & B4 & B5 & _).
  assert (y_vmm s' = v0) as Ev by done. set (z := s' <| y_vmm := v |>).
  assert (om_storage (k_spc (y_kernel z)) = g_kernel_space :: replicate 255 0) as Eslots
    by (change (om_storage (k_spc (y_kernel z))) with (storage_set 0 g_kernel_space (om_storage (k_spc (y_kernel s)))); by rewrite Hst).
  assert (spaces z = [g_kernel_space]) as Es by (unfold spaces; by rewrite Eslots).
  assert (forall m, m <> page_map g_kernel_space -> ~ map_live v m) as Hother.
  { intros m Hm Hl. apply (Hdead m). unfold map_live in Hl. change (pmap v m) with (pmap v0 m) in Hl. by rewrite (lf_maps _ _ _ Lv m Hm) in Hl. }
  assert (forall a, ~ user_space (spaces z) a) as Hnone by (intros a [Ha Hk]; rewrite Es in Ha; by apply list_elem_of_singleton in Ha).
  split; [|done]. split.
  - split; [by apply cpu_wf, Lv|by exists (page_map g_kernel_space)|]. intros b va x _ Hx.
    change ((∅ : gmap Z (Z * Z)) !! va = Some x) in Hx. by apply lookup_empty_Some in Hx.
  - rewrite Eslots. split; [done|]. change (NoDup [g_kernel_space]). apply NoDup_singleton.
  - split; [done|]. rewrite Es. by left.
  - intros a Ha. rewrite Es in Ha. apply list_elem_of_singleton in Ha as ->.
    change (spc (y_kernel z) g_kernel_space) with (spc (y_kernel (show_map g_kernel_space (s0 <| y_vmm := v0 |>))) g_kernel_space).
    rewrite show_spc, decide_True by done. change (spc (y_kernel (s0 <| y_vmm := v0 |>)) g_kernel_space) with
      (spc (set_spc g_kernel_space (fun a => a <| a_id := 0 |> <| a_kernel := true |>) (y_kernel s)) g_kernel_space).
    by rewrite spc_set, decide_True.
  - intros a Ha. rewrite Es in Ha. apply list_elem_of_singleton in Ha as ->. unfold shown.
    change (spc (y_kernel z) g_kernel_space) with (spc (y_kernel (show_map g_kernel_space (s0 <| y_vmm := v0 |>))) g_kernel_space).
    by rewrite show_spc, decide_True.
  - rewrite Es. split.
    + intros a ->%list_elem_of_singleton. exact B1.
    + by intros a ->%list_elem_of_singleton.
    + intros a i ->%list_elem_of_singleton Hix. change (map_owns_pml4_index (y_vmm z) (page_map g_kernel_space) i) with (map_owns_pml4_index v0 (page_map g_kernel_space) i).
      rewrite B3 by done. unfold index, VM_PML4_ENTRY_COUNT in *. by rewrite (proj2 (Z.leb_le 0 i)), (proj2 (Z.ltb_lt i 512)) by lia.
    + intros m Hl _. destruct (decide (m = page_map g_kernel_space)) as [->|Hm]; [done|]. by apply Hother in Hl.
    + intros a va Ha. rewrite <- Es in Ha. by apply Hnone in Ha.
  - intros Hl. by apply Hother in Hl.
  - done.
  - intros a Ha. by apply Hnone in Ha.
  - intros a b Ha. by apply Hnone in Ha.
Qed.

(** * A concrete machine *)

Definition system_empty : System :=
  mkSystem (demo_kernel <| k_spaces := ∅ |> <| k_spc := mkObjectMod 0 false (replicate 256 0) |>) vmm_empty create_fault_zero ∅.

(** The kernel space is initialised and loaded. *)
Definition system_booted : System :=
  let s := (address_space_kernel_init system_empty).2 in
  s <| y_vmm := arch_write_cr3 (frame_to_phys 257) (y_vmm s) |>.

Lemma system_booted_wf : spaces_wf system_booted /\ spaces system_booted = [g_kernel_space].
Proof. apply (kernel_init_wf system_empty); [apply vmm_empty_wf|apply vmm_empty_dead|done|done|by vm_compute|by vm_compute]. Qed.

Lemma booted_storage : storage_ok system_booted 0x9000.
Proof. split_and!; [done|done|]. intros _ [_ H]. apply H. by vm_compute. Qed.


(** A kernel page is mapped, a space is created, gets a page, is loaded and
    touched, loses the page, and is destroyed once it is no longer loaded. *)
Definition space_demo_events : list SpaceEvent :=
  [SpMap g_kernel_space 0xFFFF800000000000 300 1; SpCreate 0x9000; SpMap 0x9000 ADDRESS_SPACE_USER_BASE 301 1; SpSwitch 0x9000;
   SpTouch 0x9000 ADDRESS_SPACE_USER_BASE; SpUnmap 0x9000 ADDRESS_SPACE_USER_BASE; SpDestroy 0x9000; SpSwitch g_kernel_space; SpDestroy 0x9000].

Lemma space_demo_ok : space_events_ok system_booted space_demo_events.
Proof.
  cbn [space_events_ok space_demo_events]. unfold space_event_ok. split_and!; try exact I; try done.
  all: first [apply (bool_decide_unpack _); by vm_compute | intros _ [_ H]; apply H; by vm_compute | by vm_compute].
Qed.

Lemma spaces_refine_witness :
  let '(t, s') := space_run space_demo_events system_booted in
  map snd t = [Granted; Granted; Granted; Granted; Granted; Returned 301; Refused; Granted; Granted] /\
  forall f, pool (y_vmm s') f <-> pool (y_vmm system_booted) f.
Proof.
  pose proof (spaces_refine space_demo_events system_booted (fun _ => None) (proj1 system_booted_wf) space_demo_ok) as H.
  assert (map snd (space_run space_demo_events system_booted).1 =
    [Granted; Granted; Granted; Granted; Granted; Returned 301; Refused; Granted; Granted]) as Ht by (by vm_compute).
  destruct (space_run space_demo_events system_booted) as [t s']. split; [exact Ht|]. apply H. intros a [Ha Hk].
  rewrite (proj2 system_booted_wf) in Ha. by apply list_elem_of_singleton in Ha.
Defined.
