(* ===== verification/Vfs.v ===== *)
(** The virtual file system: [kernel/vfs.c].

    A string is the list of its characters; reading it past its end gives the
    terminating zero, and a zero inside ends it. A cursor into a string is the
    rest of the string. The name of a node is the string its array holds. The
    address of [g_nodes[i]] is written [i + 1]. *)

From S2P Require Import Prelude.

Open Scope jcos_scope.

(** * Data *)

Definition VFS_NAME_MAX : Z := 63.

Definition VFS_PATH_MAX : Z := 256.

Definition VFS_MAX_NODES : Z := 256.

Inductive VfsNodeType := VFS_FILE | VFS_DIRECTORY.

#[export] Instance VfsNodeType_eq_dec : EqDecision VfsNodeType.
Proof. solve_decision. Defined.

(** [n_data] is the memory from the address [data] on; [None] is null. *)
Record VfsNode := mkVfsNode {
  n_name : list Z;
  n_type : VfsNodeType;
  n_data : option (list Z);
  n_size : Z;
  n_parent : Z;
  n_first_child : Z;
  n_next_sibling : Z }.

#[export] Instance rebuild_VfsNode : Rebuild VfsNode := fun r =>
  mkVfsNode (n_name r) (n_type r) (n_data r) (n_size r) (n_parent r) (n_first_child r) (n_next_sibling r).

(** The node [zero_node] leaves. *)
Definition node_zero : VfsNode := mkVfsNode [] VFS_FILE None 0 0 0 0.

Record Vfs := mkVfs { f_nodes : gmap Z VfsNode; f_node_count : Z; f_root : Z }.

#[export] Instance rebuild_Vfs : Rebuild Vfs := fun r => mkVfs (f_nodes r) (f_node_count r) (f_root r).

Definition vnode (s : Vfs) (n : Z) : VfsNode := default node_zero (f_nodes s !! n).

Definition set_vnode (n : Z) (g : VfsNode -> VfsNode) (s : Vfs) : Vfs := s <| f_nodes := <[n := g (vnode s n)]> (f_nodes s) |>.

(** The fuel of walks over nodes: there are no more nodes. *)
Definition vfs_fuel : nat := Z.to_nat VFS_MAX_NODES.

(** * Strings *)

(** [*s] *)
Definition chr (s : list Z) : Z := hd 0 s.

Definition SLASH : Z := 47.

(** The strings "." and "..". *)
Definition DOT : list Z := [46].

Definition DOTDOT : list Z := [46; 46].

Fixpoint string_length (s : list Z) : Z :=
  match s with
  | [] => 0
  | c :: s => if nz c then 1 + string_length s else 0
  end.

Fixpoint string_equal (a b : list Z) : bool :=
  match a with
  | [] => chr b =? 0
  | c :: a => if nz c && nz (chr b) then (if c != chr b then false else string_equal a (tl b)) else c =? chr b
  end.

(** * Nodes *)

Definition allocate_node (s : Vfs) : Z * Vfs :=
  if f_node_count s >=? VFS_MAX_NODES then (0, s) else
  let node := f_node_count s + 1 in
  let s := s <| f_node_count := f_node_count s + 1 |> in
  (node, set_vnode node (fun _ => node_zero) s).

Definition set_node_name (node : Z) (name : list Z) (s : Vfs) : bool * Vfs :=
  if !nz node then (false, s) else
  let length := string_length name in
  if length >? VFS_NAME_MAX then (false, s) else
  (true, set_vnode node (fun n => n <| n_name := take (Z.to_nat length) name |>) s).

Fixpoint last_sibling (fuel : nat) (s : Vfs) (current : Z) : Z :=
  match fuel with
  | O => current
  | S fuel => if nz (n_next_sibling (vnode s current)) then last_sibling fuel s (n_next_sibling (vnode s current)) else current
  end.

Definition append_child (parent child : Z) (s : Vfs) : Vfs :=
  let s := set_vnode child (fun n => n <| n_parent := parent |> <| n_next_sibling := 0 |>) s in
  if !nz (n_first_child (vnode s parent)) then set_vnode parent (fun n => n <| n_first_child := child |>) s else
  let current := last_sibling vfs_fuel s (n_first_child (vnode s parent)) in
  set_vnode current (fun n => n <| n_next_sibling := child |>) s.

(** * Paths *)

Fixpoint skip_slashes (p : list Z) : list Z :=
  match p with
  | [] => []
  | c :: q => if c =? SLASH then skip_slashes q else p
  end.

(** The characters up to a slash or the end; [None] if there are too many. *)
Fixpoint take_component (length : Z) (p : list Z) : option (list Z * list Z) :=
  match p with
  | [] => Some ([], [])
  | c :: q =>
    if nz c && (c != SLASH) then
      if length >=? VFS_NAME_MAX then None else
      '(name, rest) ← take_component (length + 1) q; Some (c :: name, rest)
    else Some ([], p)
  end.

(** The results 0, -1 and 1 of [next_component]. *)
Inductive Component := component_end | component_long | component_read (name rest : list Z).

Definition next_component (cursor : list Z) : Component :=
  let p := skip_slashes cursor in
  if !nz (chr p) then component_end else
  match take_component 0 p with
  | None => component_long
  | Some (name, rest) => component_read name rest
  end.

(** * Operations *)

Definition vfs_init (s : Vfs) : Vfs :=
  let s := s <| f_node_count := 0 |> in
  let '(root, s) := allocate_node s in
  let s := s <| f_root := root |> in
  if !nz root then s else
  set_vnode root (fun n => n <| n_name := [] |> <| n_type := VFS_DIRECTORY |> <| n_parent := 0 |>
                             <| n_first_child := 0 |> <| n_next_sibling := 0 |>) s.

Definition vfs_root (s : Vfs) : Z := f_root s.

Fixpoint find_loop (fuel : nat) (s : Vfs) (node : Z) (name : list Z) : Z :=
  match fuel with
  | O => 0
  | S fuel =>
    if !nz node then 0 else
    if string_equal (n_name (vnode s node)) name then node else find_loop fuel s (n_next_sibling (vnode s node)) name
  end.

Definition vfs_find_child (s : Vfs) (directory : Z) (name : list Z) : Z :=
  if !nz directory || !bool_decide (n_type (vnode s directory) = VFS_DIRECTORY) then 0 else
  find_loop vfs_fuel s (n_first_child (vnode s directory)) name.

Definition ensure_directory (parent : Z) (name : list Z) (s : Vfs) : Z * Vfs :=
  let existing := vfs_find_child s parent name in
  if nz existing then
    if bool_decide (n_type (vnode s existing) = VFS_DIRECTORY) then (existing, s) else (0, s)
  else
  let '(node, s) := allocate_node s in
  if !nz node then (0, s) else
  let '(named, s) := set_node_name node name s in
  if !named then (0, s) else
  let s := set_vnode node (fun n => n <| n_type := VFS_DIRECTORY |>) s in
  (node, append_child parent node s).

Fixpoint resolve_loop (fuel : nat) (s : Vfs) (current : Z) (cursor : list Z) : Z :=
  match fuel with
  | O => 0
  | S fuel =>
    match next_component cursor with
    | component_end => current
    | component_long => 0
    | component_read component cursor =>
      if string_equal component DOT then resolve_loop fuel s current cursor else
      if string_equal component DOTDOT then
        resolve_loop fuel s (if nz (n_parent (vnode s current)) then n_parent (vnode s current) else current) cursor
      else
      let current := vfs_find_child s current component in
      if !nz current then 0 else resolve_loop fuel s current cursor
    end
  end.

(** The fuel of walks along a path: every turn reads a character. *)
Definition path_fuel (path : list Z) : nat := S (length path).

Definition vfs_resolve (s : Vfs) (start : Z) (path : list Z) : Z :=
  if !nz (f_root s) then 0 else
  let current := if chr path =? SLASH then f_root s else if nz start then start else f_root s in
  resolve_loop (path_fuel path) s current path.

Fixpoint add_directory_loop (fuel : nat) (current : Z) (cursor : list Z) (s : Vfs) : bool * Vfs :=
  match fuel with
  | O => (false, s)
  | S fuel =>
    match next_component cursor with
    | component_end => (true, s)
    | component_long => (false, s)
    | component_read component cursor =>
      if string_equal component DOT then add_directory_loop fuel current cursor s else
      if string_equal component DOTDOT then (false, s) else
      let '(current, s) := ensure_directory current component s in
      if !nz current then (false, s) else add_directory_loop fuel current cursor s
    end
  end.

Definition vfs_add_directory (path : list Z) (s : Vfs) : bool * Vfs :=
  if !nz (f_root s) then (false, s) else add_directory_loop (path_fuel path) (f_root s) path s.

(** The last component of the path of a file. *)
Definition add_final (current : Z) (component : list Z) (data : option (list Z)) (size : Z) (s : Vfs) : bool * Vfs :=
  let existing := vfs_find_child s current component in
  if nz existing then
    if bool_decide (n_type (vnode s existing) = VFS_FILE)
    then (true, set_vnode existing (fun n => n <| n_data := data |> <| n_size := size |>) s) else (false, s)
  else
  let '(file, s) := allocate_node s in
  if !nz file then (false, s) else
  let '(named, s) := set_node_name file component s in
  if !named then (false, s) else
  let s := set_vnode file (fun n => n <| n_type := VFS_FILE |> <| n_data := data |> <| n_size := size |>) s in
  (true, append_child current file s).

Fixpoint add_file_loop (fuel : nat) (current : Z) (cursor : list Z) (data : option (list Z)) (size : Z) (s : Vfs) : bool * Vfs :=
  match fuel with
  | O => (false, s)
  | S fuel =>
    match next_component cursor with
    | component_end | component_long => (false, s)
    | component_read component cursor =>
      if string_equal component DOT then add_file_loop fuel current cursor data size s else
      if string_equal component DOTDOT then (false, s) else
      let final_component := chr (skip_slashes cursor) =? 0 in
      if !final_component then
        let '(current, s) := ensure_directory current component s in
        if !nz current then (false, s) else add_file_loop fuel current cursor data size s
      else add_final current component data size s
    end
  end.

Definition vfs_add_file (path : list Z) (data : option (list Z)) (size : Z) (s : Vfs) : bool * Vfs :=
  if !nz (f_root s) then (false, s) else add_file_loop (path_fuel path) (f_root s) path data size s.

(** The first pass of [vfs_get_path]: the length of the path and the node it
    stops at. *)
Fixpoint path_total (fuel : nat) (s : Vfs) (current total depth : Z) : option (Z * Z) :=
  match fuel with
  | O => None
  | S fuel =>
    if nz current && (current != f_root s) then
      let length := string_length (n_name (vnode s current)) in
      if !nz length then None else
      if depth + 1 >? VFS_MAX_NODES then None else
      path_total fuel s (n_parent (vnode s current)) (total + (length + 1)) (depth + 1)
    else Some (total, current)
  end.

(** The second pass; [written] is the buffer from [position] on. *)
Fixpoint path_fill (fuel : nat) (s : Vfs) (current : Z) (written : list Z) : option (list Z) :=
  if current =? f_root s then Some written else
  match fuel with
  | O => None
  | S fuel =>
    let name := n_name (vnode s current) in
    path_fill fuel s (n_parent (vnode s current)) (SLASH :: take (Z.to_nat (string_length name)) name ++ written)
  end.

Definition vfs_get_path (s : Vfs) (node capacity : Z) : option (list Z) :=
  if !nz node || (capacity =? 0) then None else
  if node =? f_root s then (if capacity <? 2 then None else Some [SLASH]) else
  '(total, current) ← path_total (S vfs_fuel) s node 0 0;
  if current != f_root s then None else
  if total + 1 >? capacity then None else path_fill vfs_fuel s node [].
