(* ===== verification/VfsTree.v ===== *)
(** The tree the nodes of the virtual file system represent, and what each
    operation does to it. *)

From S2P Require Import Prelude Vfs.

Open Scope jcos_scope.

(** * The abstract file system *)

(** What a node is to its users: directories and files with their content. *)
Inductive Entry := Directory | File (data : option (list Z)) (size : Z).

Notation Path := (list (list Z)).

(** The entries by their names from the root. *)
Notation Tree := (gmap Path Entry).

(** The names of a path: the parts between slashes that are not empty. *)
Definition flush (word : list Z) : Path := match word with [] => [] | _ => [word] end.

Fixpoint components_from (word p : list Z) : Path :=
  match p with
  | [] => flush word
  | c :: q =>
    if c =? 0 then flush word else
    if c =? SLASH then flush word ++ components_from [] q else components_from (word ++ [c]) q
  end.

Definition components (p : list Z) : Path := components_from [] p.

Definition too_long (c : list Z) : bool := VFS_NAME_MAX <? Z.of_nat (length c).

(** The directory of a name, made when there is none and a node is left. *)
Definition enter (base : Path) (c : list Z) (T : Tree) : option Tree :=
  match T !! (base ++ [c]) with
  | Some Directory => Some T
  | Some (File _ _) => None
  | None => if Z.of_nat (size T) <? VFS_MAX_NODES then Some (<[base ++ [c] := Directory]> T) else None
  end.

Fixpoint spec_directory (base cs : Path) (T : Tree) : bool * Tree :=
  match cs with
  | [] => (true, T)
  | c :: cs =>
    if too_long c then (false, T) else
    if decide (c = DOT) then spec_directory base cs T else
    if decide (c = DOTDOT) then (false, T) else
    match enter base c T with
    | None => (false, T)
    | Some T => spec_directory (base ++ [c]) cs T
    end
  end.

Definition spec_final (base : Path) (c : list Z) (data : option (list Z)) (n : Z) (T : Tree) : bool * Tree :=
  match T !! (base ++ [c]) with
  | Some Directory => (false, T)
  | Some (File _ _) => (true, <[base ++ [c] := File data n]> T)
  | None => if Z.of_nat (size T) <? VFS_MAX_NODES then (true, <[base ++ [c] := File data n]> T) else (false, T)
  end.

Fixpoint spec_file (base cs : Path) (data : option (list Z)) (n : Z) (T : Tree) : bool * Tree :=
  match cs with
  | [] => (false, T)
  | c :: cs =>
    if too_long c then (false, T) else
    if decide (c = DOT) then spec_file base cs data n T else
    if decide (c = DOTDOT) then (false, T) else
    if decide (cs = []) then spec_final base c data n T else
    match enter base c T with
    | None => (false, T)
    | Some T => spec_file (base ++ [c]) cs data n T
    end
  end.

(** Where a path leads from a directory. *)
Fixpoint spec_resolve (base cs : Path) (T : Tree) : option Path :=
  match cs with
  | [] => Some base
  | c :: cs =>
    if too_long c then None else
    if decide (c = DOT) then spec_resolve base cs T else
    if decide (c = DOTDOT) then spec_resolve (removelast base) cs T else
    match T !! (base ++ [c]) with
    | None => None
    | Some _ => spec_resolve (base ++ [c]) cs T
    end
  end.

(** The string of a path. *)
Definition path_string (p : Path) : list Z := concat (map (cons SLASH) p).

(** * Strings *)

Definition word_char (c : Z) : Prop := c <> 0 /\ c <> SLASH.

(** What [next_component] reads. *)
Definition component (c : list Z) : Prop := c <> [] /\ Forall word_char c /\ too_long c = false.

(** The names nodes can have. *)
Definition good_name (c : list Z) : Prop := component c /\ c <> DOT /\ c <> DOTDOT.

Lemma string_equal_spec a b : Forall (.≠ 0) a -> Forall (.≠ 0) b -> string_equal a b = bool_decide (a = b).
Proof.
  intros Ha. revert b. induction Ha as [|c a Hc Ha IH]; intros b Hb; cbn [string_equal].
  - destruct Hb as [|d b Hd Hb]; [done|]. cbn [chr hd]. rewrite bool_decide_eq_false_2 by done. by apply Z.eqb_neq.
  - assert (nz c = true) as -> by (unfold nz; by rewrite (proj2 (Z.eqb_neq _ _) Hc)). destruct Hb as [|d b Hd Hb]; cbn [chr hd tl].
    + change (nz 0) with false. rewrite bool_decide_eq_false_2 by done. by apply Z.eqb_neq.
    + assert (nz d = true) as -> by (unfold nz; by rewrite (proj2 (Z.eqb_neq _ _) Hd)). cbn [andb]. destruct (Z.eqb_spec c d) as [->|Hne]; cbn [negb].
      * rewrite (IH b Hb). apply bool_decide_ext. split; [by intros ->|by intros [=]].
      * rewrite bool_decide_eq_false_2; [done|]. by intros [=].
Qed.

Lemma string_length_word a : Forall (.≠ 0) a -> string_length a = Z.of_nat (length a).
Proof.
  induction 1 as [|c a Hc _ IH]; [done|]. cbn [string_length length]. unfold nz. rewrite (proj2 (Z.eqb_neq _ _) Hc). cbn [negb]. lia.
Qed.

Lemma word_nonzero c : Forall word_char c -> Forall (.≠ 0) c.
Proof. apply Forall_impl. by intros x [Hx _]. Qed.

Lemma dots_nonzero : Forall (.≠ 0) DOT /\ Forall (.≠ 0) DOTDOT.
Proof. split; repeat constructor; done. Qed.

(** * Components *)

Lemma flush_app word name : name <> [] -> flush (word ++ name) = [word ++ name].
Proof. intros H. destruct word; cbn; [|done]. by destruct name. Qed.

Lemma components_skip p : components (skip_slashes p) = components p.
Proof.
  unfold components. induction p as [|c p IH]; [done|]. cbn [skip_slashes]. destruct (c =? SLASH) eqn:E; [|done].
  rewrite IH. apply Z.eqb_eq in E as ->. done.
Qed.

Lemma skip_length p : (length (skip_slashes p) <= length p)%nat.
Proof. induction p as [|c p IH]; [done|]. cbn [skip_slashes]. if_case; cbn [length]; lia. Qed.

Lemma skip_head p : chr (skip_slashes p) <> SLASH.
Proof. induction p as [|c p IH]; [done|]. cbn [skip_slashes]. destruct (Z.eqb_spec c SLASH); [done|]. done. Qed.

Lemma take_component_some p : forall word n name rest, take_component n p = Some (name, rest) -> 0 <= n ->
  components_from word p = flush (word ++ name) ++ components rest /\ Forall word_char name /\
  Z.of_nat (length name) <= Z.max 0 (VFS_NAME_MAX - n) /\ (length p = length name + length rest)%nat.
Proof.
  induction p as [|c p IH]; intros word n name rest H Hn; cbn [take_component] in H.
  { injection H as <- <-. rewrite !app_nil_r. cbn. split_and!; [by destruct word|done|lia|done]. }
  destruct (nz c && negb (c =? SLASH)) eqn:E.
  - destruct (Z.leb_spec VFS_NAME_MAX n); [done|]. destruct (take_component (n + 1) p) as [[name' rest']|] eqn:Et; [|done]. injection H as <- <-.
    bool_prop. destruct (IH (word ++ [c]) (n + 1) name' rest' Et ltac:(lia)) as (Hc & Hw & Hl & Hs). cbn [components_from length].
    rewrite (proj2 (Z.eqb_neq c 0)), (proj2 (Z.eqb_neq c SLASH)), Hc by done. rewrite <- app_assoc. split_and!; [done|by constructor|lia|lia].
  - injection H as <- <-. rewrite app_nil_r. split_and!; [|done|cbn; lia|done]. cbn [components_from]. unfold components. cbn [components_from].
    unfold nz in E. destruct (Z.eqb_spec c 0); [by rewrite app_nil_r|]. cbn in E. by destruct (c =? SLASH).
Qed.

Lemma components_grow q word : word <> [] -> exists w r, components_from word q = w :: r /\ (length word <= length w)%nat.
Proof.
  revert word. induction q as [|d q IH]; intros word Hw; cbn [components_from]; [by exists word, []; destruct word|].
  destruct (d =? 0); [by exists word, []; destruct word|]. destruct (d =? SLASH).
  - destruct word as [|x word]; [done|]. by exists (x :: word), (components_from [] q).
  - destruct (IH (word ++ [d])) as (w & r & -> & Hl); [by destruct word|]. exists w, r. split; [done|]. rewrite length_app in Hl. lia.
Qed.

Lemma take_component_none p : forall word n, take_component n p = None -> 0 <= n <= VFS_NAME_MAX ->
  exists w r, components_from word p = w :: r /\ Z.of_nat (length word) + (VFS_NAME_MAX - n) < Z.of_nat (length w).
Proof.
  induction p as [|c p IH]; intros word n H Hn; [done|]. cbn [take_component] in H. destruct (nz c && negb (c =? SLASH)) eqn:E; [|done]. bool_prop.
  cbn [components_from]. rewrite (proj2 (Z.eqb_neq c 0)), (proj2 (Z.eqb_neq c SLASH)) by done. destruct (Z.leb_spec VFS_NAME_MAX n).
  - destruct (components_grow p (word ++ [c])) as (w & r & -> & Hl); [by destruct word|]. exists w, r. split; [done|]. rewrite length_app in Hl. cbn in Hl. lia.
  - destruct (take_component (n + 1) p) as [[? ?]|] eqn:Et; [done|]. destruct (IH (word ++ [c]) (n + 1) Et ltac:(lia)) as (w & r & -> & Hl).
    exists w, r. split; [done|]. rewrite length_app in Hl. cbn in Hl. lia.
Qed.

(** What [next_component] reads off a path. *)
Lemma next_component_spec cursor :
  match next_component cursor with
  | component_end => components cursor = []
  | component_long => exists c r, components cursor = c :: r /\ too_long c = true
  | component_read c rest => components cursor = c :: components rest /\ component c /\ (length rest < length cursor)%nat
  end.
Proof.
  unfold next_component. rewrite <- (components_skip cursor). pose proof (skip_length cursor) as Hl. pose proof (skip_head cursor) as Hh.
  set (p := skip_slashes cursor) in *. destruct (nz (chr p)) eqn:Ez; cbn [negb].
  - destruct (take_component 0 p) as [[c rest]|] eqn:Et.
    + destruct (take_component_some p [] 0 c rest Et ltac:(lia)) as (Hc & Hw & Hn & Hs). cbn [app] in Hc.
      assert (c <> []) as Hne.
      { intros ->. destruct p as [|x p]; [done|]. cbn [chr hd] in *. cbn [take_component] in Et. rewrite Ez in Et.
        rewrite (proj2 (Z.eqb_neq x SLASH)) in Et by done. cbn [andb negb] in Et. change (VFS_NAME_MAX <=? 0) with false in Et.
        destruct (take_component (0 + 1) p) as [[? ?]|]; discriminate Et. }
      split_and!; [|split_and!; [done|done|unfold too_long; apply Z.ltb_ge; unfold VFS_NAME_MAX in *; lia]|].
      * unfold components at 1. rewrite Hc. by destruct c.
      * destruct c; [done|]. cbn [length] in Hs. lia.
    + destruct (take_component_none p [] 0 Et ltac:(unfold VFS_NAME_MAX; lia)) as (w & r & Hw & Hlen). exists w, r. split; [done|]. unfold too_long. apply Z.ltb_lt. cbn in Hlen. lia.
  - unfold nz in Ez. destruct (Z.eqb_spec (chr p) 0) as [E|]; [|done]. destruct p as [|x p]; [done|]. cbn [chr hd] in E. subst x. done.
Qed.

Lemma final_spec cursor : (chr (skip_slashes cursor) =? 0) = bool_decide (components cursor = []).
Proof.
  rewrite <- (components_skip cursor). pose proof (skip_head cursor) as Hh. set (p := skip_slashes cursor) in *.
  destruct p as [|x p]; [done|]. cbn [chr hd] in *. destruct (Z.eqb_spec x 0) as [->|Hx]; [done|]. symmetry. apply bool_decide_eq_false_2.
  unfold components. cbn [components_from]. rewrite (proj2 (Z.eqb_neq x 0)), (proj2 (Z.eqb_neq x SLASH)) by done. cbn [app].
  by destruct (components_grow p [x]) as (w & r & -> & _).
Qed.

(** * The invariant *)

Definition live (s : Vfs) (n : Z) : Prop := 1 <= n <= f_node_count s.

(** The nodes of the list that starts at [n]. *)
Inductive siblings (s : Vfs) : Z -> list Z -> Prop :=
| siblings_nil : siblings s 0 []
| siblings_cons n l : n <> 0 -> siblings s (n_next_sibling (vnode s n)) l -> siblings s n (n :: l).

(** A node comes after its parent, is in its list of children, and is known
    there by its name. *)
Record vfs_wf (s : Vfs) (kids : Z -> list Z) : Prop := {
  fw_count : 1 <= f_node_count s <= VFS_MAX_NODES;
  fw_root : f_root s = 1;
  fw_top : n_parent (vnode s 1) = 0 /\ n_type (vnode s 1) = VFS_DIRECTORY;
  fw_chain : forall n, live s n -> siblings s (n_first_child (vnode s n)) (kids n);
  fw_kids : forall n m, live s n -> m ∈ kids n <-> 1 < m <= f_node_count s /\ n_parent (vnode s m) = n;
  fw_nodup : forall n, live s n -> NoDup (kids n);
  fw_parent : forall m, 1 < m <= f_node_count s -> 1 <= n_parent (vnode s m) < m /\ n_type (vnode s (n_parent (vnode s m))) = VFS_DIRECTORY /\
    good_name (n_name (vnode s m));
  fw_names : forall m m', 1 < m <= f_node_count s -> 1 < m' <= f_node_count s -> n_parent (vnode s m) = n_parent (vnode s m') ->
    n_name (vnode s m) = n_name (vnode s m') -> m = m' }.

Definition entry_of (n : VfsNode) : Entry := if decide (n_type n = VFS_DIRECTORY) then Directory else File (n_data n) (n_size n).

(** The names from the root to a node. *)
Inductive path_to (s : Vfs) : Z -> Path -> Prop :=
| path_root : path_to s 1 []
| path_node n p : 1 < n <= f_node_count s -> path_to s (n_parent (vnode s n)) p -> path_to s n (p ++ [n_name (vnode s n)]).

(** The tree the nodes represent. *)
Record repr (s : Vfs) (T : Tree) : Prop := {
  rp_entry : forall p e, T !! p = Some e <-> exists n, path_to s n p /\ entry_of (vnode s n) = e;
  rp_size : Z.of_nat (size T) = f_node_count s }.

Lemma path_inv s n p :
  path_to s n p -> (n = 1 /\ p = []) \/ (1 < n <= f_node_count s /\ exists q, path_to s (n_parent (vnode s n)) q /\ p = q ++ [n_name (vnode s n)]).
Proof. intros [|m q Hm Hq]; [by left|right]. split; [done|]. by exists q. Qed.

Section Wf.
  Context (s : Vfs) (kids : Z -> list Z) (W : vfs_wf s kids).

Lemma live_root : live s 1.
Proof using W. pose proof (fw_count _ _ W). unfold live. lia. Qed.

Lemma path_live n p : path_to s n p -> live s n.
Proof using W. intros [|m q Hm _]; [apply live_root|]. unfold live. lia. Qed.

Lemma path_fun n p p' : path_to s n p -> path_to s n p' -> p = p'.
Proof.
  intros H. revert p'. induction H as [|n p Hn _ IH]; intros p' [[? ->]|(? & q & Hq & ->)]%path_inv; [done|lia|lia|]. f_equal. by apply IH.
Qed.

Lemma path_inj n n' p : path_to s n p -> path_to s n' p -> n = n'.
Proof using W.
  intros H. revert n'. induction H as [|n p Hn _ IH]; intros n' [[-> E]|(Hn' & q & Hq & E)]%path_inv; [done|by destruct q|by destruct p|].
  apply app_inj_tail in E as [-> E]. apply (fw_names _ _ W); try done. by apply IH.
Qed.

Lemma path_exists n : live s n -> exists p, path_to s n p.
Proof using W.
  unfold live. assert (forall k : nat, forall n, 1 <= n <= f_node_count s -> n <= Z.of_nat k -> exists p, path_to s n p) as H.
  { induction k as [|k IH]; intros m Hm Hk; [lia|]. destruct (decide (m = 1)) as [->|]; [exists []; constructor|].
    destruct (fw_parent _ _ W m ltac:(lia)) as (Hp & _). destruct (IH (n_parent (vnode s m)) ltac:(lia) ltac:(lia)) as [p Hpt].
    eexists. constructor; [lia|exact Hpt]. }
  intros Hn. apply (H (Z.to_nat n)); lia.
Qed.

Lemma path_length n p : path_to s n p -> Z.of_nat (length p) < n.
Proof using W.
  induction 1 as [|n p Hn _ IH]; [done|]. destruct (fw_parent _ _ W n Hn) as (Hp & _). rewrite length_app. cbn. lia.
Qed.

Lemma path_good n p : path_to s n p -> Forall good_name p.
Proof using W.
  induction 1 as [|n p Hn _ IH]; [done|]. apply Forall_app. split; [done|]. constructor; [|done]. by apply (fw_parent _ _ W).
Qed.

Lemma kids_length n : live s n -> (length (kids n) < vfs_fuel)%nat.
Proof using W.
  intros Hn. pose proof (fw_count _ _ W) as Hc. assert (length (kids n) <= length (seqZ 2 (f_node_count s - 1)))%nat as H.
  { apply submseteq_length, NoDup_submseteq; [by apply (fw_nodup _ _ W)|]. intros m Hm. apply (fw_kids _ _ W n m Hn) in Hm as [Hm _].
    apply elem_of_seqZ. lia. }
  rewrite length_seqZ in H. unfold vfs_fuel, VFS_MAX_NODES in *. lia.
Qed.

(** * Finding a child *)

Lemma find_loop_spec fuel n l c :
  siblings s n l -> (length l < fuel)%nat -> Forall (.≠ 0) c -> Forall (fun m => Forall (.≠ 0) (n_name (vnode s m))) l ->
  (find_loop fuel s n c <> 0 -> find_loop fuel s n c ∈ l /\ n_name (vnode s (find_loop fuel s n c)) = c) /\
  (find_loop fuel s n c = 0 -> forall m, m ∈ l -> n_name (vnode s m) <> c).
Proof.
  intros H. revert fuel. induction H as [|n l Hn _ IH]; intros fuel Hf Hc Hl; (destruct fuel as [|fuel]; [cbn in Hf; lia|]).
  - cbn. split; [done|]. intros _ m []%elem_of_nil.
  - cbn [find_loop]. unfold nz. rewrite (proj2 (Z.eqb_neq _ _) Hn). cbn [negb]. apply list.Forall_cons in Hl as [Hn0 Hl]. rewrite string_equal_spec by done.
    destruct (bool_decide_reflect (n_name (vnode s n) = c)) as [E|E].
    + split; [|done]. intros _. split; [by left|done].
    + destruct (IH fuel ltac:(cbn in Hf; lia) Hc Hl) as [H1 H2]. split.
      * intros Hx. destruct (H1 Hx) as [? ?]. split; [by right|done].
      * intros Hx m [->|Hm]%elem_of_cons; [done|by apply H2].
Qed.

Definition child (n m : Z) (c : list Z) : Prop := 1 < m <= f_node_count s /\ n_parent (vnode s m) = n /\ n_name (vnode s m) = c.

Lemma find_child_spec n c :
  live s n -> Forall (.≠ 0) c ->
  (vfs_find_child s n c <> 0 -> child n (vfs_find_child s n c) c) /\ (vfs_find_child s n c = 0 -> forall m, ~ child n m c).
Proof using W.
  intros Hn Hc. unfold vfs_find_child. assert (nz n = true) as -> by (unfold nz; rewrite (proj2 (Z.eqb_neq _ _)); [done|unfold live in Hn; lia]). cbn [negb orb].
  destruct (bool_decide_reflect (n_type (vnode s n) = VFS_DIRECTORY)) as [Ht|Ht]; cbn [negb].
  - destruct (find_loop_spec vfs_fuel _ (kids n) c (fw_chain _ _ W n Hn) (kids_length n Hn) Hc) as [H1 H2].
    { apply Forall_forall. intros m Hm%list_elem_of_In. apply (fw_kids _ _ W n m Hn) in Hm as [Hm _]. destruct (fw_parent _ _ W m Hm) as (_ & _ & [(_ & Hw & _) _]). by apply word_nonzero. }
    split.
    + intros Hx. destruct (H1 Hx) as [Hin E]. apply (fw_kids _ _ W n _ Hn) in Hin as [? ?]. split; [done|by split].
    + intros Hx m (Hm & Hp & E). apply (H2 Hx m); [|done]. by apply (fw_kids _ _ W n m Hn).
  - split; [done|]. intros _ m (Hm & <- & _). by destruct (fw_parent _ _ W m Hm) as (_ & ? & _).
Qed.

(** A child of a directory is the entry below its path. *)
Lemma child_path n m c p : path_to s n p -> child n m c <-> path_to s m (p ++ [c]).
Proof using W.
  intros Hp. split.
  - intros (Hm & <- & <-). by constructor.
  - intros [[-> E]|(Hm & q & Hq & E)]%path_inv; [by destruct p|]. apply app_inj_tail in E as [-> ->]. split; [done|split; [|done]].
    by apply (path_inj _ _ q).
Qed.

End Wf.

(** * A new node *)

Lemma vnode_set n g s m : vnode (set_vnode n g s) m = if decide (m = n) then g (vnode s n) else vnode s m.
Proof. unfold vnode, set_vnode. upd_simpl. destruct (decide (m = n)) as [->|Hne]; [by rewrite lookup_insert_eq|by rewrite lookup_insert_ne]. Qed.

Lemma siblings_ext s s' n l :
  siblings s n l -> (forall x, x ∈ l -> n_next_sibling (vnode s' x) = n_next_sibling (vnode s x)) -> siblings s' n l.
Proof.
  induction 1 as [|n l Hn _ IH]; intros H; constructor; [done|]. rewrite (H n) by (by left). apply IH. intros x Hx. apply H. by right.
Qed.

Lemma siblings_snoc s s' n l z new :
  siblings s n (l ++ [z]) -> NoDup (l ++ [z]) -> new <> 0 -> n_next_sibling (vnode s' z) = new -> n_next_sibling (vnode s' new) = 0 ->
  (forall x, x ∈ l -> n_next_sibling (vnode s' x) = n_next_sibling (vnode s x)) -> siblings s' n ((l ++ [z]) ++ [new]).
Proof.
  intros H Hd Hnew Hz H0. revert n H Hd. induction l as [|x l IH]; intros n H Hd Hx; cbn [app] in *; inversion H as [|? ? Hn Hs]; clear H.
  - subst n. constructor; [done|]. rewrite Hz. constructor; [done|]. rewrite H0. constructor.
  - subst n. constructor; [done|]. rewrite Hx by (by left). apply list.NoDup_cons in Hd as [_ Hd]. apply IH; [done|done|]. intros y Hy. apply Hx. by right.
Qed.

Lemma last_sibling_spec s fuel n l z : siblings s n (l ++ [z]) -> (length l < fuel)%nat -> last_sibling fuel s n = z.
Proof.
  revert fuel n. induction l as [|x l IH]; intros fuel n H Hf; (destruct fuel as [|fuel]; [cbn in Hf; lia|]); inversion H as [|? ? Hn Hs]; subst; cbn [last_sibling].
  - inversion Hs. by subst.
  - cbn in Hf. destruct (nz (n_next_sibling (vnode s x))) eqn:E; [apply IH; [done|lia]|]. unfold nz in E. apply negb_false_iff, Z.eqb_eq in E.
    rewrite E in Hs. inversion Hs as [Hl|]; [by destruct l|congruence].
Qed.

(** The two links of a node that a new sibling or child changes. *)
Definition relinked (n n' : VfsNode) : Prop := exists a b, n' = n <| n_first_child := a |> <| n_next_sibling := b |>.

Lemma relinked_same n : relinked n n.
Proof. destruct n as [a b c d e f g]. by exists f, g. Qed.

(** [s'] is [s] with a child [new] of [parent]. *)
Record attached (s s' : Vfs) (kids : Z -> list Z) (parent new : Z) (node : VfsNode) : Prop := {
  at_root : f_root s' = f_root s;
  at_count : new = f_node_count s + 1 /\ f_node_count s' = new;
  at_new : vnode s' new = node /\ n_parent node = parent /\ n_first_child node = 0;
  at_old : forall m, live s m -> relinked (vnode s m) (vnode s' m);
  at_chain : forall n, live s n -> siblings s' (n_first_child (vnode s' n)) (if decide (n = parent) then kids n ++ [new] else kids n) }.

Section Append.
  Context (s s2 : Vfs) (kids : Z -> list Z) (W : vfs_wf s kids) (parent new : Z) (node : VfsNode).
  Context (Hp : live s parent) (En : new = f_node_count s + 1) (Hr : f_root s2 = f_root s) (Hc : f_node_count s2 = new).
  Context (Hnew : vnode s2 new = node) (Hnode : n_parent node = parent /\ n_first_child node = 0 /\ n_next_sibling node = 0).
  Context (Hold : forall m, m <> new -> vnode s2 m = vnode s m).

Lemma live_not_new m : live s m -> m <> new.
Proof using En. unfold live. lia. Qed.

Lemma kid_live n m : live s n -> m ∈ kids n -> live s m.
Proof using W. intros Hn [? _]%(fw_kids _ _ W n m Hn). unfold live. lia. Qed.

Lemma old_siblings n : live s n -> siblings s2 (n_first_child (vnode s n)) (kids n).
Proof using W En Hold.
  intros Hn. apply (siblings_ext s); [by apply (fw_chain _ _ W)|]. intros x Hx. rewrite (Hold x); [done|]. by eapply live_not_new, kid_live.
Qed.

Lemma attach_last l z :
  kids parent = l ++ [z] -> attached s (set_vnode z (fun n => n <| n_next_sibling := new |>) s2) kids parent new node.
Proof using W Hp En Hr Hc Hnew Hnode Hold.
  intros Ek. set (s3 := set_vnode z _ s2). assert (z ∈ kids parent) as Hz by (rewrite Ek; apply elem_of_app; right; by left).
  pose proof (live_not_new z (kid_live parent z Hp Hz)) as Hzn.
  assert (forall m, vnode s3 m = if decide (m = z) then (vnode s z) <| n_next_sibling := new |> else vnode s2 m) as H3.
  { intros m. unfold s3. rewrite vnode_set, (Hold z Hzn). done. }
  pose proof (fw_nodup _ _ W parent Hp) as Hnd. rewrite Ek in Hnd. destruct Hnode as (N1 & N2 & N3). split; [done|by split| | |].
  - rewrite H3, decide_False, Hnew by done. by split_and!.
  - intros m Hm. rewrite H3. destruct (decide (m = z)) as [->|]; [|rewrite (Hold m (live_not_new m Hm)); apply relinked_same].
    exists (n_first_child (vnode s z)), new. by destruct (vnode s z).
  - intros n Hn. assert (n_first_child (vnode s3 n) = n_first_child (vnode s n)) as ->.
    { rewrite H3. destruct (decide (n = z)) as [->|]; [done|]. by rewrite (Hold n (live_not_new n Hn)). }
    destruct (decide (n = parent)) as [->|Hne].
    + pose proof (old_siblings parent Hp) as Hps. rewrite Ek in *. pose proof (fw_count _ _ W) as Hcount.
      apply (siblings_snoc s2); try done; [lia|by rewrite H3, decide_True|by rewrite H3, decide_False, Hnew|].
      intros x Hx. rewrite H3, decide_False; [done|]. intros ->. apply list.NoDup_app in Hnd as (_ & Hnd & _). apply (Hnd z Hx). by left.
    + apply (siblings_ext s2); [by apply old_siblings|]. intros x Hx. rewrite H3, decide_False; [done|]. intros ->.
      apply (fw_kids _ _ W n z Hn) in Hx as [_ <-]. by apply (fw_kids _ _ W parent z Hp) in Hz as [_ ?].
Qed.

Lemma attach_first :
  kids parent = [] -> attached s (set_vnode parent (fun n => n <| n_first_child := new |>) s2) kids parent new node.
Proof using W Hp En Hr Hc Hnew Hnode Hold.
  intros E. set (s3 := set_vnode parent _ s2). pose proof (live_not_new _ Hp) as Hpn. destruct Hnode as (N1 & N2 & N3).
  assert (forall m, vnode s3 m = if decide (m = parent) then (vnode s parent) <| n_first_child := new |> else vnode s2 m) as H3.
  { intros m. unfold s3. rewrite vnode_set, (Hold parent Hpn). done. }
  split; [done|by split| | |].
  - rewrite H3, decide_False, Hnew by done. by split_and!.
  - intros m Hm. rewrite H3. destruct (decide (m = parent)) as [->|]; [|rewrite (Hold m (live_not_new m Hm)); apply relinked_same].
    exists new, (n_next_sibling (vnode s parent)). by destruct (vnode s parent).
  - intros n Hn. rewrite H3. destruct (decide (n = parent)) as [->|Hne].
    + rewrite E. cbn [app]. change (n_first_child _) with new. pose proof (fw_count _ _ W) as Hcount. constructor; [lia|].
      rewrite H3, decide_False, Hnew, N3 by done. constructor.
    + rewrite (Hold n (live_not_new n Hn)). apply (siblings_ext s2); [by apply old_siblings|]. intros x Hx. rewrite H3.
      destruct (decide (x = parent)) as [->|]; [|done]. by rewrite (Hold parent Hpn).
Qed.

End Append.

Lemma append_child_attached s s1 kids parent new node :
  vfs_wf s kids -> live s parent -> f_root s1 = f_root s -> new = f_node_count s + 1 -> f_node_count s1 = new ->
  vnode s1 new = node -> n_first_child node = 0 -> (forall m, m <> new -> vnode s1 m = vnode s m) ->
  attached s (append_child parent new s1) kids parent new (node <| n_parent := parent |> <| n_next_sibling := 0 |>).
Proof.
  intros W Hp Hr En Hc Hnode Hf Hold. unfold append_child. set (s2 := set_vnode new _ s1).
  assert (vnode s2 new = node <| n_parent := parent |> <| n_next_sibling := 0 |>) as Hnew by (unfold s2; by rewrite vnode_set, decide_True, Hnode).
  assert (forall m, m <> new -> vnode s2 m = vnode s m) as Hold2 by (intros m Hm; unfold s2; rewrite vnode_set, decide_False by done; by apply Hold).
  pose proof (fw_chain _ _ W parent Hp) as Hch. rewrite (Hold2 parent (live_not_new s new En parent Hp)).
  destruct (nz (n_first_child (vnode s parent))) eqn:Ez; cbn [negb].
  - destruct (kids parent) as [|z l _] eqn:Ek using rev_ind; [inversion Hch as [E|]; by rewrite <- E in Ez|].
    pose proof (old_siblings s s2 kids W new En Hold2 parent Hp) as Hps. pose proof (kids_length s kids W parent Hp) as Hlen.
    rewrite Ek in Hps, Hlen. rewrite length_app in Hlen. rewrite (last_sibling_spec s2 vfs_fuel _ l z Hps) by lia. by apply (attach_last s s2 kids W) with l.
  - apply negb_false_iff, Z.eqb_eq in Ez. rewrite Ez in Hch. apply (attach_first s s2 kids W); try done. by inversion Hch.
Qed.

Lemma relinked_fields n n' : relinked n n' -> n_name n' = n_name n /\ n_type n' = n_type n /\ n_parent n' = n_parent n /\ entry_of n' = entry_of n.
Proof. by intros (a & b & ->). Qed.

Section Attached.
  Context (s s' : Vfs) (kids : Z -> list Z) (W : vfs_wf s kids) (parent new : Z) (node : VfsNode) (A : attached s s' kids parent new node).
  Context (Hp : live s parent) (Ht : n_type (vnode s parent) = VFS_DIRECTORY) (Hspace : f_node_count s < VFS_MAX_NODES).
  Context (Hg : good_name (n_name node)) (Hno : forall m, ~ child s parent m (n_name node)).

(** A node of the new state is the new one or an old one. *)
Lemma attached_live m : live s' m -> m = new \/ live s m.
Proof using A. destruct (at_count _ _ _ _ _ _ A) as [-> Hc]. unfold live. rewrite Hc. lia. Qed.

Lemma attached_old m : live s m -> live s' m /\ m <> new /\ n_name (vnode s' m) = n_name (vnode s m) /\ n_type (vnode s' m) = n_type (vnode s m) /\
  n_parent (vnode s' m) = n_parent (vnode s m) /\ entry_of (vnode s' m) = entry_of (vnode s m).
Proof using A.
  intros Hm. destruct (relinked_fields _ _ (at_old _ _ _ _ _ _ A m Hm)) as (H1 & H2 & H3 & H4). destruct (at_count _ _ _ _ _ _ A) as [En Hc].
  unfold live in *. split_and!; [lia|lia|lia|done..].
Qed.

Definition attached_kids (n : Z) : list Z := if decide (n = new) then [] else if decide (n = parent) then kids n ++ [new] else kids n.

Lemma attached_member n m : live s' n -> m ∈ attached_kids n <-> 1 < m <= f_node_count s' /\ n_parent (vnode s' m) = n.
Proof using W A Hp.
  intros Hn. destruct (at_count _ _ _ _ _ _ A) as [En Hc]. destruct (at_new _ _ _ _ _ _ A) as (Hnew & Hpar & _). pose proof (fw_count _ _ W) as Hcount.
  unfold attached_kids. unfold live in Hp. assert (m = new -> 1 < m <= f_node_count s' /\ n_parent (vnode s' m) = parent) as Hm.
  { intros ->. rewrite Hnew. split; [lia|done]. }
  assert (m <> new -> 1 < m <= f_node_count s' /\ n_parent (vnode s' m) = n <-> 1 < m <= f_node_count s /\ n_parent (vnode s m) = n) as Hold.
  { intros Hne. split; intros [H1 H2]; (assert (live s m) as Hl by (unfold live; lia)); destruct (attached_old m Hl) as (_ & _ & _ & _ & E & _); split; (lia || congruence). }
  destruct (decide (n = new)) as [->|Hne].
  - split; [by intros ?%elem_of_nil|]. intros H. exfalso. destruct (decide (m = new)) as [->|Hmn]; [destruct (Hm eq_refl); lia|].
    apply Hold in H; [|done]. destruct H as [H1 H2]. destruct (fw_parent _ _ W m) as [? _]; lia.
  - destruct (attached_live n Hn) as [?|Hl]; [done|]. destruct (decide (n = parent)) as [->|Hnp].
    + rewrite elem_of_app, list_elem_of_singleton, (fw_kids _ _ W parent m Hl). destruct (decide (m = new)) as [->|Hmn]; [|rewrite Hold by done; tauto].
      split; [intros _; by apply Hm|by right].
    + rewrite (fw_kids _ _ W n m Hl). destruct (decide (m = new)) as [->|Hmn]; [|by rewrite Hold]. destruct (Hm eq_refl) as [_ E]. split; [lia|]. intros [_ ?]. congruence.
Qed.

Lemma attached_wf : vfs_wf s' attached_kids.
Proof using All.
  destruct (at_count _ _ _ _ _ _ A) as [En Hc]. destruct (at_new _ _ _ _ _ _ A) as (Hnew & Hpar & Hfirst). pose proof (fw_count _ _ W) as Hcount.
  assert (forall m, 1 < m <= f_node_count s' -> m = new \/ (1 < m <= f_node_count s /\ live s m)) as Hcase by (unfold live; lia). split.
  - lia.
  - by rewrite (at_root _ _ _ _ _ _ A), (fw_root _ _ W).
  - destruct (attached_old 1 (live_root s kids W)) as (_ & _ & _ & -> & -> & _). apply (fw_top _ _ W).
  - intros n Hn. unfold attached_kids. destruct (attached_live n Hn) as [->|Hl].
    + rewrite decide_True, Hnew, Hfirst by done. constructor.
    + rewrite decide_False by apply (attached_old n Hl). by apply (at_chain _ _ _ _ _ _ A).
  - apply attached_member.
  - intros n Hn. unfold attached_kids. destruct (attached_live n Hn) as [->|Hl]; [rewrite decide_True by done; constructor|].
    rewrite decide_False by apply (attached_old n Hl). pose proof (fw_nodup _ _ W n Hl) as Hnd. destruct (decide (n = parent)) as [->|]; [|done].
    apply list.NoDup_app. split_and!; [done| |apply NoDup_singleton]. intros x Hx ->%list_elem_of_singleton. apply (fw_kids _ _ W parent _ Hl) in Hx. lia.
  - intros m [->|[Hm Hl]]%Hcase.
    + rewrite Hnew, Hpar. unfold live in Hp. destruct (attached_old parent Hp) as (_ & _ & _ & -> & _). split_and!; [lia|lia|done|done].
    + destruct (fw_parent _ _ W m Hm) as (H1 & H2 & H3). destruct (attached_old m Hl) as (_ & _ & -> & _ & -> & _).
      destruct (attached_old (n_parent (vnode s m))) as (_ & _ & _ & -> & _); [unfold live in *; lia|]. split; [done|by split].
  - intros m m' [->|[Hm Hl]]%Hcase [->|[Hm' Hl']]%Hcase.
    + done.
    + rewrite Hnew, Hpar. destruct (attached_old m' Hl') as (_ & _ & -> & _ & -> & _). intros E1 E2. destruct (Hno m'). split; [done|by split].
    + rewrite Hnew, Hpar. destruct (attached_old m Hl) as (_ & _ & -> & _ & -> & _). intros E1 E2. destruct (Hno m). split; [done|by split].
    + destruct (attached_old m Hl) as (_ & _ & -> & _ & -> & _), (attached_old m' Hl') as (_ & _ & -> & _ & -> & _). by apply (fw_names _ _ W).
Qed.

(** Old nodes keep their paths. *)
Lemma attached_path n p : live s n -> path_to s' n p <-> path_to s n p.
Proof using W A.
  intros Hn. destruct (at_count _ _ _ _ _ _ A) as [En Hc]. split; intros H.
  - revert Hn. induction H as [|n p Hl _ IH]; intros Hn; [constructor|]. destruct (attached_old n Hn) as (_ & _ & E & _ & E' & _). rewrite E, E' in *.
    assert (1 < n <= f_node_count s) as Hl' by (unfold live in Hn; lia). constructor; [done|]. apply IH. destruct (fw_parent _ _ W n Hl') as [? _]. unfold live. lia.
  - clear Hn. induction H as [|n p Hl _ IH]; [constructor|]. destruct (attached_old n) as (_ & _ & E & _ & E' & _); [unfold live; lia|]. rewrite <- E.
    constructor; [lia|]. by rewrite E'.
Qed.

Lemma attached_new p : path_to s parent p -> path_to s' new (p ++ [n_name node]).
Proof using W A Hp.
  intros Hpp. destruct (at_count _ _ _ _ _ _ A) as [En Hc]. destruct (at_new _ _ _ _ _ _ A) as (Hnew & Hpar & _). pose proof (fw_count _ _ W) as Hcount.
  rewrite <- Hnew. constructor; [lia|]. rewrite Hnew, Hpar. by apply attached_path.
Qed.

Lemma attached_repr p T : path_to s parent p -> repr s T -> T !! (p ++ [n_name node]) = None /\ repr s' (<[p ++ [n_name node] := entry_of node]> T).
Proof using All.
  intros Hpp R. destruct (at_count _ _ _ _ _ _ A) as [En Hc]. destruct (at_new _ _ _ _ _ _ A) as (Hnew & Hpar & _).
  assert (T !! (p ++ [n_name node]) = None) as Hnone.
  { apply eq_None_not_Some. intros [e (m & Hm & _)%(rp_entry _ _ R)]. by apply (Hno m), (child_path s kids W _ _ _ p Hpp). }
  split; [done|]. split; [|rewrite map_size_insert_None by done; pose proof (rp_size _ _ R); lia].
  intros q e. rewrite lookup_insert_Some, (rp_entry _ _ R). pose proof (attached_new p Hpp) as Hn. split.
  - intros [[<- <-]|[Hne (m & Hm & He)]]; [exists new; by rewrite Hnew|]. exists m. pose proof (path_live s kids W m q Hm) as Hl.
    split; [by apply attached_path|]. by destruct (attached_old m Hl) as (_ & _ & _ & _ & _ & ->).
  - intros (m & Hm & He). destruct (attached_live m (path_live s' _ attached_wf m q Hm)) as [->|Hl].
    + left. split; [by apply (path_fun s' new)|]. by rewrite <- Hnew.
    + right. destruct (attached_old m Hl) as (_ & Hmn & _ & _ & _ & E). rewrite E in He. split; [|exists m; split; [by apply attached_path|done]].
      intros <-. apply Hmn. by apply (path_inj s' _ attached_wf _ _ _ Hm).
Qed.

End Attached.

(** * The operations on one name *)

Definition wf (s : Vfs) : Prop := exists kids, vfs_wf s kids.

Lemma good_component c : component c -> c <> DOT -> c <> DOTDOT -> good_name c.
Proof. intros Hc H1 H2. split; [done|by split]. Qed.

Lemma component_nonzero c : component c -> Forall (.≠ 0) c.
Proof. intros (_ & H & _). by apply word_nonzero. Qed.

Lemma make_node s kids parent c g :
  vfs_wf s kids -> live s parent -> f_node_count s < VFS_MAX_NODES -> component c ->
  n_first_child (g (node_zero <| n_name := c |>)) = 0 ->
  exists s1 s2, allocate_node s = (f_node_count s + 1, s1) /\ set_node_name (f_node_count s + 1) c s1 = (true, s2) /\
    attached s (append_child parent (f_node_count s + 1) (set_vnode (f_node_count s + 1) g s2)) kids parent (f_node_count s + 1)
      ((g (node_zero <| n_name := c |>)) <| n_parent := parent |> <| n_next_sibling := 0 |>).
Proof.
  intros W Hp Hspace Hc Hf. pose proof (fw_count _ _ W) as Hcount. set (new := f_node_count s + 1).
  set (s1 := set_vnode new (fun _ => node_zero) (s <| f_node_count := new |>)). set (s2 := set_vnode new (fun n => n <| n_name := c |>) s1).
  exists s1, s2. split_and!.
  - unfold allocate_node. by destruct (Z.leb_spec VFS_MAX_NODES (f_node_count s)); [lia|].
  - unfold set_node_name. assert (nz new = true) as -> by (unfold nz; destruct (Z.eqb_spec new 0); [lia|done]). cbn [negb].
    rewrite string_length_word by (by apply component_nonzero). destruct Hc as (_ & _ & Hl). unfold too_long in Hl. rewrite Hl.
    by rewrite Nat2Z.id, take_ge.
  - assert (vnode s2 new = node_zero <| n_name := c |>) as Hn by (unfold s2, s1; by rewrite !vnode_set, !decide_True).
    apply (append_child_attached s); try done.
    + by rewrite vnode_set, decide_True, Hn.
    + intros m Hm. unfold s2, s1. by rewrite !vnode_set, !decide_False.
Qed.

(** What a search says of the tree. *)
Lemma find_tree s kids T n p c :
  vfs_wf s kids -> repr s T -> path_to s n p -> Forall (.≠ 0) c ->
  if decide (vfs_find_child s n c = 0) then T !! (p ++ [c]) = None /\ forall m, ~ child s n m c
  else path_to s (vfs_find_child s n c) (p ++ [c]) /\ T !! (p ++ [c]) = Some (entry_of (vnode s (vfs_find_child s n c))).
Proof.
  intros W R Hp Hc. destruct (find_child_spec s kids W n c (path_live _ _ W _ _ Hp) Hc) as [H1 H2]. case_decide as E.
  - split; [|by apply H2]. apply eq_None_not_Some. intros [e (m & Hm & _)%(rp_entry _ _ R)]. apply (H2 E m). by apply (child_path s kids W _ _ _ p).
  - pose proof (proj1 (child_path s kids W _ _ _ p Hp) (H1 E)) as Hx. split; [done|]. apply (rp_entry _ _ R). by eexists.
Qed.

Lemma ensure_directory_spec s T parent p c :
  wf s -> repr s T -> path_to s parent p -> n_type (vnode s parent) = VFS_DIRECTORY -> good_name c ->
  let '(n, s') := ensure_directory parent c s in
  match enter p c T with
  | None => n = 0 /\ s' = s
  | Some T' => n <> 0 /\ wf s' /\ repr s' T' /\ path_to s' n (p ++ [c]) /\ n_type (vnode s' n) = VFS_DIRECTORY
  end.
Proof.
  intros [kids W] R Hp Ht Hg. pose proof (find_tree s kids T parent p c W R Hp (component_nonzero _ (proj1 Hg))) as Hf.
  pose proof (path_live _ _ W _ _ Hp) as Hl. pose proof (fw_count _ _ W) as Hcount. unfold ensure_directory, enter. unfold nz at 1. case_decide as E.
  - destruct Hf as [-> Hno]. rewrite E, (rp_size _ _ R). cbn [Z.eqb negb]. destruct (Z.ltb_spec (f_node_count s) VFS_MAX_NODES) as [Hs|Hs].
    + destruct (make_node s kids parent c (fun n => n <| n_type := VFS_DIRECTORY |>) W Hl Hs (proj1 Hg)) as (s1 & s2 & -> & -> & A); [done|].
      assert (nz (f_node_count s + 1) = true) as -> by (unfold nz; destruct (Z.eqb_spec (f_node_count s + 1) 0); [lia|done]). cbn [negb].
      set (node := (_ <| n_parent := parent |>) <| n_next_sibling := 0 |>) in A. assert (n_name node = c) as Ec by done. rewrite <- Ec in Hno, Hg |- *.
      split_and!; [lia| | | |].
      * eexists. exact (attached_wf s _ kids W parent _ node A Hl Ht Hs Hg Hno).
      * exact (proj2 (attached_repr s _ kids W parent _ node A Hl Ht Hs Hg Hno p T Hp R)).
      * exact (attached_new s _ kids W parent _ node A Hl p Hp).
      * by destruct (at_new _ _ _ _ _ _ A) as (-> & _).
    + unfold allocate_node. by rewrite (proj2 (Z.leb_le _ _) Hs).
  - destruct Hf as [Hpc ->]. rewrite (proj2 (Z.eqb_neq _ _) E). cbn [negb]. unfold entry_of. case_bool_decide as Hd; [rewrite decide_True by done|rewrite decide_False by done].
    + split_and!; try done. by exists kids.
    + done.
Qed.

(** A new content of a file. *)
Lemma content_spec s kids T n p data size :
  vfs_wf s kids -> repr s T -> path_to s n p -> n_type (vnode s n) = VFS_FILE ->
  let s' := set_vnode n (fun x => x <| n_data := data |> <| n_size := size |>) s in wf s' /\ repr s' (<[p := File data size]> T).
Proof.
  intros W R Hp Ht s'.
  assert (forall m, n_name (vnode s' m) = n_name (vnode s m) /\ n_type (vnode s' m) = n_type (vnode s m) /\ n_parent (vnode s' m) = n_parent (vnode s m) /\
    n_first_child (vnode s' m) = n_first_child (vnode s m) /\ n_next_sibling (vnode s' m) = n_next_sibling (vnode s m)) as Hf.
  { intros m. unfold s'. rewrite vnode_set. destruct (decide (m = n)) as [->|]; by split_and!. }
  assert (forall m q, path_to s' m q <-> path_to s m q) as Hpath.
  { intros m q. split; induction 1 as [|m q Hm _ IH]; try constructor; destruct (Hf m) as (E1 & _ & E2 & _).
    - rewrite E1. rewrite E2 in IH. by constructor.
    - rewrite <- E1. constructor; [done|]. by rewrite E2. }
  split.
  - exists kids. destruct W as [F1 F2 F3 F4 F5 F6 F7 F8]. split; try done.
    + destruct (Hf 1) as (_ & -> & -> & _). done.
    + intros m Hm. destruct (Hf m) as (_ & _ & _ & -> & _). apply (siblings_ext s); [by apply F4|]. intros x _. apply Hf.
    + intros a m Ha. destruct (Hf m) as (_ & _ & -> & _). by apply F5.
    + intros m Hm. destruct (Hf m) as (-> & _ & -> & _). destruct (Hf (n_parent (vnode s m))) as (_ & -> & _). by apply F7.
    + intros m m' Hm Hm'. destruct (Hf m) as (-> & _ & -> & _), (Hf m') as (-> & _ & -> & _). by apply F8.
  - assert (T !! p = Some (entry_of (vnode s n))) as Hlook by (apply (rp_entry _ _ R); by exists n).
    split; [|rewrite map_size_insert_Some by (by eexists); apply (rp_size _ _ R)].
    intros q e. rewrite lookup_insert_Some, (rp_entry _ _ R). split.
    + intros [[<- <-]|[Hne (m & Hm & He)]].
      * exists n. rewrite Hpath. split; [done|]. unfold s'. rewrite vnode_set, decide_True by done. unfold entry_of. rewrite decide_False; [done|]. change (n_type (vnode s n) <> VFS_DIRECTORY). by rewrite Ht.
      * exists m. rewrite Hpath. split; [done|]. unfold s'. rewrite vnode_set, decide_False; [done|]. intros ->. apply Hne. by apply (path_fun s n).
    + intros (m & Hm & He). rewrite Hpath in Hm. unfold s' in He. rewrite vnode_set in He. destruct (decide (m = n)) as [->|Hmn].
      * left. split; [by apply (path_fun s n)|]. rewrite <- He. unfold entry_of. rewrite decide_False; [done|]. change (n_type (vnode s n) <> VFS_DIRECTORY). by rewrite Ht.
      * right. split; [|by exists m]. intros <-. apply Hmn. by apply (path_inj s kids W _ _ p).
Qed.

Lemma add_final_spec s T parent p c data size :
  wf s -> repr s T -> path_to s parent p -> n_type (vnode s parent) = VFS_DIRECTORY -> good_name c ->
  let '(b, s') := add_final parent c data size s in let '(b', T') := spec_final p c data size T in b = b' /\ wf s' /\ repr s' T'.
Proof.
  intros [kids W] R Hp Ht Hg. pose proof (find_tree s kids T parent p c W R Hp (component_nonzero _ (proj1 Hg))) as Hf.
  pose proof (path_live _ _ W _ _ Hp) as Hl. pose proof (fw_count _ _ W) as Hcount. unfold add_final, spec_final. unfold nz at 1. case_decide as E.
  - destruct Hf as [-> Hno]. rewrite E, (rp_size _ _ R). cbn [Z.eqb negb]. destruct (Z.ltb_spec (f_node_count s) VFS_MAX_NODES) as [Hs|Hs].
    + destruct (make_node s kids parent c (fun n => n <| n_type := VFS_FILE |> <| n_data := data |> <| n_size := size |>) W Hl Hs (proj1 Hg)) as (s1 & s2 & -> & -> & A); [done|].
      assert (nz (f_node_count s + 1) = true) as -> by (unfold nz; destruct (Z.eqb_spec (f_node_count s + 1) 0); [lia|done]). cbn [negb].
      set (node := (_ <| n_parent := parent |>) <| n_next_sibling := 0 |>) in A. assert (n_name node = c) as Ec by done. rewrite <- Ec in Hno, Hg |- *.
      split_and!; [done| |].
      * eexists. exact (attached_wf s _ kids W parent _ node A Hl Ht Hs Hg Hno).
      * exact (proj2 (attached_repr s _ kids W parent _ node A Hl Ht Hs Hg Hno p T Hp R)).
    + unfold allocate_node. rewrite (proj2 (Z.leb_le _ _) Hs). split_and!; [done|by exists kids|done].
  - destruct Hf as [Hpc ->]. rewrite (proj2 (Z.eqb_neq _ _) E). cbn [negb]. unfold entry_of. case_bool_decide as Hd.
    + rewrite decide_False by congruence. destruct (content_spec s kids T _ _ data size W R Hpc Hd) as [? ?]. by split_and!.
    + destruct (n_type (vnode s (vfs_find_child s parent c))); [done|]. rewrite decide_True by done. split_and!; [done|by exists kids|done].
Qed.

(** * The operations on paths *)

Lemma dots c : component c -> string_equal c DOT = bool_decide (c = DOT) /\ string_equal c DOTDOT = bool_decide (c = DOTDOT).
Proof. intros Hc%component_nonzero. by split; apply string_equal_spec; [|apply dots_nonzero|..|apply dots_nonzero]. Qed.

Lemma add_directory_loop_spec fuel current cursor s p T :
  (length cursor < fuel)%nat -> wf s -> repr s T -> path_to s current p -> n_type (vnode s current) = VFS_DIRECTORY ->
  let '(b, s') := add_directory_loop fuel current cursor s in
  let '(b', T') := spec_directory p (components cursor) T in b = b' /\ wf s' /\ repr s' T'.
Proof.
  revert current cursor s p T. induction fuel as [|fuel IH]; intros current cursor s p T Hf W R Hp Ht; [lia|]. cbn [add_directory_loop].
  pose proof (next_component_spec cursor) as Hn. destruct (next_component cursor) as [| |c rest].
  - by rewrite Hn.
  - destruct Hn as (c & r & -> & Hl). cbn [spec_directory]. by rewrite Hl.
  - destruct Hn as (-> & Hc & Hlen). cbn [spec_directory]. destruct (dots c Hc) as [-> ->]. pose proof Hc as (_ & _ & ->).
    case_bool_decide as H1; [rewrite decide_True by done; apply IH; [lia|done..]|rewrite decide_False by done].
    case_bool_decide as H2; [by rewrite decide_True|rewrite decide_False by done].
    pose proof (ensure_directory_spec s T current p c W R Hp Ht (good_component _ Hc H1 H2)) as He. destruct (ensure_directory current c s) as [n s'].
    destruct (enter p c T) as [T'|]; [|by destruct He as [-> ->]]. destruct He as (Hz & W' & R' & Hp' & Ht').
    assert (nz n = true) as -> by (unfold nz; by rewrite (proj2 (Z.eqb_neq _ _) Hz)). cbn [negb]. apply IH; [lia|done..].
Qed.

Lemma add_file_loop_spec fuel current cursor data size s p T :
  (length cursor < fuel)%nat -> wf s -> repr s T -> path_to s current p -> n_type (vnode s current) = VFS_DIRECTORY ->
  let '(b, s') := add_file_loop fuel current cursor data size s in
  let '(b', T') := spec_file p (components cursor) data size T in b = b' /\ wf s' /\ repr s' T'.
Proof.
  revert current cursor s p T. induction fuel as [|fuel IH]; intros current cursor s p T Hf W R Hp Ht; [lia|]. cbn [add_file_loop].
  pose proof (next_component_spec cursor) as Hn. destruct (next_component cursor) as [| |c rest].
  - by rewrite Hn.
  - destruct Hn as (c & r & -> & Hl). cbn [spec_file]. by rewrite Hl.
  - destruct Hn as (-> & Hc & Hlen). cbn [spec_file]. destruct (dots c Hc) as [-> ->]. pose proof Hc as (_ & _ & ->).
    case_bool_decide as H1; [rewrite decide_True by done; apply IH; [lia|done..]|rewrite decide_False by done].
    case_bool_decide as H2; [by rewrite decide_True|rewrite decide_False by done]. pose proof (good_component _ Hc H1 H2) as Hg.
    rewrite final_spec. case_bool_decide as H3; cbn [negb]; [rewrite decide_True by done|rewrite decide_False by done].
    + by apply add_final_spec.
    + pose proof (ensure_directory_spec s T current p c W R Hp Ht Hg) as He. destruct (ensure_directory current c s) as [n s'].
      destruct (enter p c T) as [T'|]; [|by destruct He as [-> ->]]. destruct He as (Hz & W' & R' & Hp' & Ht').
      assert (nz n = true) as -> by (unfold nz; by rewrite (proj2 (Z.eqb_neq _ _) Hz)). cbn [negb]. apply IH; [lia|done..].
Qed.

(** The root. *)
Lemma root_facts s : wf s -> f_root s = 1 /\ path_to s (f_root s) [] /\ n_type (vnode s (f_root s)) = VFS_DIRECTORY.
Proof. intros [kids W]. rewrite (fw_root _ _ W). split_and!; [done|constructor|apply (fw_top _ _ W)]. Qed.

Lemma add_directory_spec path s T :
  wf s -> repr s T ->
  let '(b, s') := vfs_add_directory path s in let '(b', T') := spec_directory [] (components path) T in b = b' /\ wf s' /\ repr s' T'.
Proof.
  intros W R. destruct (root_facts s W) as (E & Hp & Ht). unfold vfs_add_directory. assert (nz (f_root s) = true) as -> by (by rewrite E). cbn [negb].
  apply add_directory_loop_spec; try done. unfold path_fuel. lia.
Qed.

Lemma add_file_spec path data size s T :
  wf s -> repr s T ->
  let '(b, s') := vfs_add_file path data size s in let '(b', T') := spec_file [] (components path) data size T in b = b' /\ wf s' /\ repr s' T'.
Proof.
  intros W R. destruct (root_facts s W) as (E & Hp & Ht). unfold vfs_add_file. assert (nz (f_root s) = true) as -> by (by rewrite E). cbn [negb].
  apply add_file_loop_spec; try done. unfold path_fuel. lia.
Qed.

Lemma resolve_loop_spec fuel s T current p cursor :
  (length cursor < fuel)%nat -> wf s -> repr s T -> path_to s current p ->
  match spec_resolve p (components cursor) T with
  | None => resolve_loop fuel s current cursor = 0
  | Some q => path_to s (resolve_loop fuel s current cursor) q
  end.
Proof.
  revert current p cursor. induction fuel as [|fuel IH]; intros current p cursor Hf W R Hp; [lia|]. cbn [resolve_loop].
  pose proof (next_component_spec cursor) as Hn. destruct (next_component cursor) as [| |c rest].
  - by rewrite Hn.
  - destruct Hn as (c & r & -> & Hl). cbn [spec_resolve]. by rewrite Hl.
  - destruct Hn as (-> & Hc & Hlen). cbn [spec_resolve]. destruct (dots c Hc) as [-> ->]. pose proof Hc as (_ & _ & ->). pose proof W as [kids W'].
    case_bool_decide as H1; [rewrite decide_True by done; apply IH; [lia|done..]|rewrite decide_False by done].
    case_bool_decide as H2; [rewrite decide_True by done|rewrite decide_False by done].
    + apply IH; [lia|done|done|]. destruct (path_inv _ _ _ Hp) as [[-> ->]|(Hm & q & Hq & ->)].
      * destruct (fw_top _ _ W') as [-> _]. done.
      * rewrite removelast_last. destruct (fw_parent _ _ W' current Hm) as [Hpar _].
        assert (nz (n_parent (vnode s current)) = true) as -> by (unfold nz; destruct (Z.eqb_spec (n_parent (vnode s current)) 0); [lia|done]). done.
    + pose proof (find_tree s kids T current p c W' R Hp (component_nonzero _ Hc)) as Hx. unfold nz. case_decide as E.
      * by rewrite E, (proj1 Hx).
      * destruct Hx as [Hpc ->]. rewrite (proj2 (Z.eqb_neq _ _) E). cbn [negb]. apply IH; [lia|done..].
Qed.

(** The string of a path names the path. *)
Lemma components_word w c r : Forall word_char c -> components_from w (c ++ r) = components_from (w ++ c) r.
Proof.
  intros H. revert w. induction H as [|x c [H1 H2] _ IH]; intros w; [by rewrite app_nil_r|]. cbn [app components_from].
  rewrite (proj2 (Z.eqb_neq _ _) H1), (proj2 (Z.eqb_neq _ _) H2), IH. by rewrite <- app_assoc.
Qed.

Lemma path_string_components p : Forall component p -> components (path_string p) = p.
Proof.
  unfold components, path_string. induction 1 as [|c p (Hne & Hw & _) _ IH]; [done|]. cbn [map concat app components_from]. change (SLASH =? 0) with false.
  rewrite Z.eqb_refl. cbn [flush app]. rewrite components_word by done. cbn [app]. destruct p as [|d p].
  - cbn. by destruct c.
  - cbn [map concat app components_from] in *. change (SLASH =? 0) with false in *. rewrite Z.eqb_refl in *. cbn [flush app] in IH. rewrite IH. by destruct c.
Qed.

Lemma path_string_snoc p c : path_string (p ++ [c]) = path_string p ++ SLASH :: c.
Proof. unfold path_string. rewrite map_app, concat_app. cbn. by rewrite app_nil_r. Qed.

Section GetPath.
  Context (s : Vfs) (kids : Z -> list Z) (W : vfs_wf s kids).

Lemma name_length n : 1 < n <= f_node_count s -> string_length (n_name (vnode s n)) = Z.of_nat (length (n_name (vnode s n))) /\ n_name (vnode s n) <> [].
Proof using W.
  intros Hn. destruct (fw_parent _ _ W n Hn) as (_ & _ & [Hc _]). split; [by apply string_length_word, component_nonzero|apply Hc].
Qed.

Lemma path_total_spec n p fuel total depth :
  path_to s n p -> (length p < fuel)%nat -> 0 <= depth -> depth + Z.of_nat (length p) <= VFS_MAX_NODES ->
  path_total fuel s n total depth = Some (total + Z.of_nat (length (path_string p)), 1).
Proof using W.
  intros H. revert fuel total depth. induction H as [|n p Hn _ IH]; intros fuel total depth Hf H0 Hd; (destruct fuel as [|fuel]; [cbn in Hf; lia|]); cbn [path_total].
  - rewrite (fw_root _ _ W). cbn. by rewrite Z.add_0_r.
  - rewrite (fw_root _ _ W). unfold nz at 1. destruct (Z.eqb_spec n 0), (Z.eqb_spec n 1); try lia. cbn [negb andb]. destruct (name_length n Hn) as [-> Hne].
    assert (nz (Z.of_nat (length (n_name (vnode s n)))) = true) as -> by (unfold nz; destruct (n_name (vnode s n)); done). cbn [negb].
    rewrite length_app in Hf, Hd. cbn in Hf, Hd. destruct (Z.ltb_spec VFS_MAX_NODES (depth + 1)); [lia|]. rewrite IH by lia.
    rewrite path_string_snoc, length_app. cbn [length]. do 2 f_equal. lia.
Qed.

Lemma path_fill_spec n p fuel written : path_to s n p -> (length p <= fuel)%nat -> path_fill fuel s n written = Some (path_string p ++ written).
Proof using W.
  intros H. revert fuel written. induction H as [|n p Hn _ IH]; intros fuel written Hf.
  - destruct fuel; cbn [path_fill]; by rewrite (fw_root _ _ W).
  - rewrite length_app in Hf. cbn in Hf. destruct fuel as [|fuel]; [lia|]. cbn [path_fill]. rewrite (fw_root _ _ W). destruct (Z.eqb_spec n 1); [lia|].
    destruct (name_length n Hn) as [-> _]. rewrite Nat2Z.id, take_ge by done. rewrite IH by lia. rewrite path_string_snoc, <- app_assoc. done.
Qed.

(** What [vfs_get_path] writes. *)
Definition path_text (p : Path) : list Z := if decide (p = []) then [SLASH] else path_string p.

Lemma get_path_spec n p capacity :
  path_to s n p -> 0 <= capacity ->
  vfs_get_path s n capacity = if Z.of_nat (length (path_text p)) <? capacity then Some (path_text p) else None.
Proof using W.
  intros Hp Hc. pose proof (path_live _ _ W _ _ Hp) as Hl. unfold live in Hl. unfold vfs_get_path. rewrite (fw_root _ _ W). unfold nz.
  destruct (Z.eqb_spec n 0); [lia|]. cbn [negb orb]. unfold path_text. destruct (path_inv _ _ _ Hp) as [[-> ->]|(Hn & q & Hq & Ep)].
  - rewrite decide_True by done. rewrite Z.eqb_refl. change (Z.of_nat (length [SLASH])) with 1. destruct (Z.eqb_spec capacity 0) as [->|]; [done|].
    destruct (Z.ltb_spec capacity 2), (Z.ltb_spec 1 capacity); try lia; done.
  - rewrite decide_False by (rewrite Ep; by destruct q). destruct (Z.eqb_spec n 1); [lia|]. destruct (Z.eqb_spec capacity 0) as [->|].
    { destruct (Z.ltb_spec (Z.of_nat (length (path_string p))) 0); [lia|done]. }
    pose proof (path_length _ _ W _ _ Hp) as Hlen. pose proof (fw_count _ _ W) as Hcount. unfold vfs_fuel, VFS_MAX_NODES in *.
    rewrite (path_total_spec n p) by (done || unfold VFS_MAX_NODES; lia). cbn [mbind option_bind Z.eqb negb].
    rewrite (path_fill_spec n p) by (done || lia). rewrite app_nil_r, Z.add_0_l.
    destruct (Z.ltb_spec capacity (Z.of_nat (length (path_string p)) + 1)), (Z.ltb_spec (Z.of_nat (length (path_string p))) capacity); try lia; done.
Qed.

End GetPath.
