(* ===== verification/Tar.v ===== *)
(** Mounting a ustar archive: [kernel/tar.c].

    The archive is the memory from its address on. A field of a header is the
    list of its bytes; the comparisons of the source hold for a character
    exactly when they hold for its byte. [temporary] is the string it holds. *)

From S2P Require Import Prelude Vfs.

Open Scope jcos_scope.

Definition TAR_BLOCK_SIZE : Z := 512.

(** The fields the code reads, and the bytes of the whole header. *)
Record TarHeader := mkTarHeader {
  t_name : list Z;
  t_size : list Z;
  t_checksum : list Z;
  t_typeflag : Z;
  t_magic : list Z;
  t_prefix : list Z;
  t_bytes : list Z }.

Definition slice (first length : nat) (bytes : list Z) : list Z := take length (drop first bytes).

Definition byte_at (bytes : list Z) (i : nat) : Z := nth i bytes 0.

Definition tar_header (block : list Z) : TarHeader :=
  mkTarHeader (slice 0 100 block) (slice 124 12 block) (slice 148 8 block) (byte_at block 156) (slice 257 6 block) (slice 345 155 block) block.

Definition block_is_zero (block : list Z) : bool := forallb (fun b => b =? 0) (take (Z.to_nat TAR_BLOCK_SIZE) block).

(** * Fields *)

Definition blank (c : Z) : bool := (c =? 32) || (c =? 0).

Fixpoint octal_skip (field : list Z) : list Z :=
  match field with
  | [] => []
  | c :: rest => if blank c then octal_skip rest else field
  end.

(** Without a digit the value is still the 0 it starts from. *)
Fixpoint octal_digits (value : Z) (field : list Z) : option Z :=
  match field with
  | [] => Some value
  | c :: rest =>
    if blank c then Some value else
    if (c <? 48) || (c >? 55) then None else octal_digits (u64 (u64 (Z.shiftl value 3) + (c - 48))) rest
  end.

Definition parse_octal (field : list Z) : option Z := octal_digits 0 (octal_skip field).

Fixpoint field_length (field : list Z) : Z :=
  match field with
  | [] => 0
  | c :: rest => if nz c then 1 + field_length rest else 0
  end.

Definition tar_magic_valid (header : TarHeader) : bool :=
  (byte_at (t_magic header) 0 =? 117) && (byte_at (t_magic header) 1 =? 115) && (byte_at (t_magic header) 2 =? 116) &&
  (byte_at (t_magic header) 3 =? 97) && (byte_at (t_magic header) 4 =? 114).

(** The sum of the header with the checksum field taken as spaces. *)
Definition checksum_of (bytes : list Z) : Z :=
  foldl (fun calculated i => u64 (calculated + (if (148 <=? i) && (i <? 156) then 32 else byte_at bytes (Z.to_nat i)))) 0 (seqZ 0 TAR_BLOCK_SIZE).

Definition checksum_valid (header : TarHeader) : bool :=
  match parse_octal (t_checksum header) with
  | None => false
  | Some stored => stored =? checksum_of (t_bytes header)
  end.

(** * Paths *)

Definition append_field (destination field : list Z) : option (list Z) :=
  let amount := field_length field in
  if Z.of_nat (length destination) + amount >=? VFS_PATH_MAX then None else Some (destination ++ take (Z.to_nat amount) field).

(** [while (source[0] == '.' && source[1] == '/') source += 2;] *)
Fixpoint skip_dot_slash (source : list Z) : list Z :=
  match source with
  | c :: d :: rest => if (c =? 46) && (d =? SLASH) then skip_dot_slash rest else source
  | _ => source
  end.

Fixpoint trim_slashes (source : list Z) (source_length : nat) : nat :=
  match source_length with
  | O => O
  | S below => if byte_at source below =? SLASH then trim_slashes source below else source_length
  end.

(** The part of [build_path] that works on [temporary]. *)
Definition clean_path (temporary : list Z) : option (list Z) :=
  let source := skip_slashes (skip_dot_slash temporary) in
  let source_length := trim_slashes source (Z.to_nat (string_length source)) in
  if (Nat.eqb source_length 0) || (Nat.eqb source_length 1 && (byte_at source 0 =? 46)) then Some [SLASH] else
  if Z.of_nat source_length + 2 >? VFS_PATH_MAX then None else Some (SLASH :: take source_length source).

Definition build_path (header : TarHeader) : option (list Z) :=
  temporary ← (if nz (field_length (t_prefix header)) then
                 temporary ← append_field [] (t_prefix header);
                 if Z.of_nat (length temporary) + 1 >=? VFS_PATH_MAX then None else Some (temporary ++ [SLASH])
               else Some []);
  temporary ← append_field temporary (t_name header);
  clean_path temporary.

(** * Mounting *)

(** The switch on the type of the entry. *)
Definition tar_add (header : TarHeader) (path data : list Z) (file_size : Z) (s : Vfs) : bool * Vfs :=
  if (t_typeflag header =? 0) || (t_typeflag header =? 48) then vfs_add_file path (Some data) file_size s else
  if t_typeflag header =? 53 then vfs_add_directory path s else (true, s).

(** The checks of one header: the size of its data and its path. *)
Definition tar_check (header : TarHeader) (archive_size offset : Z) : option (Z * list Z) :=
  if !tar_magic_valid header then None else
  if !checksum_valid header then None else
  file_size ← parse_octal (t_size header);
  let data_offset := u64 (offset + TAR_BLOCK_SIZE) in
  if data_offset <? offset then None else
  if file_size >? u64 (archive_size - data_offset) then None else
  path ← build_path header;
  Some (file_size, path).

(** [None] when the fuel runs out. *)
Fixpoint tar_loop (fuel : nat) (archive : list Z) (archive_size offset : Z) (s : Vfs) : option (bool * Vfs) :=
  match fuel with
  | O => None
  | S fuel =>
    if !(u64 (offset + TAR_BLOCK_SIZE) <=? archive_size) then Some (true, s) else
    let block := drop (Z.to_nat offset) archive in
    if block_is_zero block then Some (true, s) else
    let header := tar_header (take (Z.to_nat TAR_BLOCK_SIZE) block) in
    match tar_check header archive_size offset with
    | None => Some (false, s)
    | Some (file_size, path) =>
      let data_offset := u64 (offset + TAR_BLOCK_SIZE) in
      let '(success, s) := tar_add header path (drop (Z.to_nat data_offset) archive) file_size s in
      if !success then Some (false, s) else
      let padded_size := Z.land (u64 (file_size + TAR_BLOCK_SIZE - 1)) (u64 (Z.lnot (TAR_BLOCK_SIZE - 1))) in
      if padded_size <? file_size then Some (false, s) else
      let next := u64 (data_offset + padded_size) in
      if (next <? data_offset) || (next >? archive_size) then Some (false, s) else
      tar_loop fuel archive archive_size next s
    end
  end.

(** Every turn passes a header. *)
Definition tar_fuel (archive_size : Z) : nat := S (Z.to_nat (archive_size / TAR_BLOCK_SIZE)).

(** [archive] is [None] for a null pointer. *)
Definition tar_mount (archive : option (list Z)) (archive_size : Z) (s : Vfs) : option (bool * Vfs) :=
  match archive with
  | None => Some (false, s)
  | Some archive =>
    if (archive_size <? TAR_BLOCK_SIZE) || !nz (vfs_root s) then Some (false, s) else
    tar_loop (tar_fuel archive_size) archive archive_size 0 s
  end.
