(* ===== verification/FileTheorems.v ===== *)
(** Theorems about the virtual file system and the archives mounted in it. *)

From S2P Require Import Prelude Vfs VfsTree Tar.

Open Scope jcos_scope.

(** * Runs of the file system *)

Inductive VfsCall := AddDirectory (path : list Z) | AddFile (path : list Z) (data : option (list Z)) (size : Z).

Definition vfs_step (call : VfsCall) (s : Vfs) : bool * Vfs :=
  match call with
  | AddDirectory path => vfs_add_directory path s
  | AddFile path data size => vfs_add_file path data size s
  end.

Definition spec_step (call : VfsCall) (T : Tree) : bool * Tree :=
  match call with
  | AddDirectory path => spec_directory [] (components path) T
  | AddFile path data size => spec_file [] (components path) data size T
  end.

(** The answers of a sequence of calls, and the state after it. *)
Fixpoint run {A} (step : VfsCall -> A -> bool * A) (calls : list VfsCall) (a : A) : list bool * A :=
  match calls with
  | [] => ([], a)
  | call :: calls => let '(b, a) := step call a in let '(bs, a) := run step calls a in (b :: bs, a)
  end.

(** Only the root directory. *)
Definition tree_empty : Tree := {[ [] := Directory ]}.

Lemma step_spec call s T :
  wf s -> repr s T -> let '(b, s') := vfs_step call s in let '(b', T') := spec_step call T in b = b' /\ wf s' /\ repr s' T'.
Proof. intros W R. destruct call; [by apply add_directory_spec|by apply add_file_spec]. Qed.

Lemma run_spec calls s T :
  wf s -> repr s T -> let '(bs, s') := run vfs_step calls s in let '(bs', T') := run spec_step calls T in bs = bs' /\ wf s' /\ repr s' T'.
Proof.
  revert s T. induction calls as [|call calls IH]; intros s T W R; [done|]. cbn [run]. pose proof (step_spec call s T W R) as H.
  destruct (vfs_step call s) as [b s1], (spec_step call T) as [b' T1]. destruct H as (-> & W1 & R1). specialize (IH s1 T1 W1 R1).
  destruct (run vfs_step calls s1) as [bs s2], (run spec_step calls T1) as [bs' T2]. by destruct IH as (-> & ? & ?).
Qed.

Lemma init_spec s0 : wf (vfs_init s0) /\ repr (vfs_init s0) tree_empty.
Proof.
  set (s := vfs_init s0). assert (f_node_count s = 1 /\ f_root s = 1 /\ vnode s 1 = mkVfsNode [] VFS_DIRECTORY None 0 0 0 0) as (Hc & Hr & Hn).
  { split_and!; [done|done|]. unfold s, vfs_init, allocate_node. change (f_node_count (s0 <| f_node_count := 0 |>)) with 0.
    change (VFS_MAX_NODES <=? 0) with false. cbv beta iota zeta. change (nz (0 + 1)) with true. cbn [negb].
    rewrite vnode_set, decide_True by done. set (t := set_vnode (0 + 1) (fun _ => node_zero) _). change (vnode (t <| f_root := 0 + 1 |>) (0 + 1)) with (vnode t (0 + 1)).
    unfold t. rewrite vnode_set, decide_True by done. done. }
  assert (forall n, live s n -> n = 1) as Hl by (unfold live; lia).
  split.
  - exists (fun _ => []). split; rewrite ?Hc, ?Hn; try done; try (intros; lia).
    + intros n ->%Hl. rewrite Hn. constructor.
    + intros n m _. split; [by intros ?%elem_of_nil|lia].
    + intros n _. constructor.
  - split; [|done]. intros p e. unfold tree_empty. rewrite lookup_singleton_Some. split.
    + intros [<- <-]. exists 1. split; [constructor|]. by rewrite Hn.
    + intros (n & Hp & He). destruct (path_inv _ _ _ Hp) as [[-> ->]|(? & _)]; [|lia]. by rewrite Hn in He.
Qed.

(** What a path leads to, from a node or from the root. *)
Lemma resolve_spec s T start p path :
  wf s -> repr s T -> start = 0 /\ p = [] \/ path_to s start p ->
  let base := if chr path =? SLASH then [] else p in
  match spec_resolve base (components path) T with
  | None => vfs_resolve s start path = 0
  | Some q => path_to s (vfs_resolve s start path) q
  end.
Proof.
  intros W R Hs base. destruct (root_facts s W) as (E & Hroot & _). unfold vfs_resolve. assert (nz (f_root s) = true) as -> by (by rewrite E). cbn [negb].
  apply resolve_loop_spec; [unfold path_fuel; lia|done|done|]. unfold base. destruct (chr path =? SLASH); [done|].
  destruct Hs as [[-> ->]|Hp]; [done|]. destruct W as [kids W]. pose proof (path_live _ _ W _ _ Hp) as Hl. unfold live in Hl.
  assert (nz start = true) as -> by (unfold nz; destruct (Z.eqb_spec start 0); [lia|done]). done.
Qed.

(** C3. Any sequence of additions of directories and files, from the freshly
    initialised file system, answers as a finite map from paths to entries does:
    missing directories on the way are made, "." is skipped, ".." and names of
    more than 63 characters are refused, files and directories never replace each
    other, and no call needs more than 256 nodes. Afterwards every path, with "."
    and ".." and with any number of slashes, is resolved to the node whose entry
    the map has there, and to nothing otherwise. *)
Theorem vfs_refines calls s0 :
  let '(bs, s) := run vfs_step calls (vfs_init s0) in
  let '(bs', T) := run spec_step calls tree_empty in
  bs = bs' /\ wf s /\ repr s T /\
  forall path, match spec_resolve [] (components path) T with
  | None => vfs_resolve s 0 path = 0
  | Some p => vfs_resolve s 0 path <> 0 /\ T !! p = Some (entry_of (vnode s (vfs_resolve s 0 path)))
  end.
Proof.
  destruct (init_spec s0) as [W0 R0]. pose proof (run_spec calls _ _ W0 R0) as H.
  destruct (run vfs_step calls (vfs_init s0)) as [bs s], (run spec_step calls tree_empty) as [bs' T]. destruct H as (-> & W & R). split_and!; try done.
  intros path. pose proof (resolve_spec s T 0 [] path W R ltac:(by left)) as H. cbn zeta in H. replace (if chr path =? SLASH then [] else []) with ([] : Path) in H by (by destruct (chr path =? SLASH)).
  destruct (spec_resolve [] (components path) T) as [p|]; [|done]. destruct W as [kids W]. pose proof (path_live _ _ W _ _ H) as Hl. unfold live in Hl. split; [lia|].
  apply (rp_entry _ _ R). by eexists.
Qed.

Lemma resolve_good T base p : Forall good_name p -> (forall q r, p = q ++ r -> q <> [] -> is_Some (T !! (base ++ q))) -> spec_resolve base p T = Some (base ++ p).
Proof.
  intros H. revert base. induction H as [|c p Hg _ IH]; intros base Hin; [by rewrite app_nil_r|]. destruct Hg as [(_ & _ & Hl) [H1 H2]]. cbn [spec_resolve].
  rewrite Hl, !decide_False by done. destruct (Hin [c] p eq_refl) as [e ->]; [done|]. rewrite IH; [by rewrite <- app_assoc|].
  intros q r -> Hq. rewrite <- app_assoc. by apply (Hin (c :: q) r).
Qed.

(** C25. The path of every node is written when it fits the buffer with its
    terminator, and is refused otherwise; what is written leads back to the node,
    whatever directory the lookup starts from. *)
Theorem get_path_resolves s T n start capacity :
  wf s -> repr s T -> live s n -> 0 <= capacity ->
  exists text, path_to s n (components text) /\
    vfs_get_path s n capacity = (if Z.of_nat (length text) <? capacity then Some text else None) /\ vfs_resolve s start text = n.
Proof.
  intros [kids W] R Hn Hc. destruct (path_exists s kids W n Hn) as [p Hp]. exists (path_text p).
  assert (Forall good_name p) as Hg by (by apply (path_good s kids W n)).
  assert (components (path_text p) = p) as Ep.
  { unfold path_text. case_decide as E; [by subst p|]. apply path_string_components. eapply Forall_impl; [|exact Hg]. by intros c [? _]. }
  split_and!; [by rewrite Ep|by apply (get_path_spec s kids W)|].
  assert (chr (path_text p) = SLASH) as Eh by (unfold path_text; case_decide; [done|]; by destruct p).
  assert (spec_resolve [] p T = Some p) as Es.
  { apply (resolve_good T []); [done|]. intros q r -> Hq. cbn [app]. clear Hg Ep Eh. revert n Hn Hp. induction r as [|c r IH] using rev_ind; intros n Hn Hp.
    - rewrite app_nil_r in Hp. exists (entry_of (vnode s n)). apply (rp_entry _ _ R). by exists n.
    - rewrite app_assoc in Hp. destruct (path_inv _ _ _ Hp) as [[_ E]|(Hm & q' & Hq' & E)]; [by destruct (q ++ r)|].
      apply app_inj_tail in E as [<- _]. apply (IH (n_parent (vnode s n))); [|done]. by apply (path_live s kids W) in Hq'. }
  unfold vfs_resolve. destruct (root_facts s (ex_intro _ kids W)) as (E & Hroot & _). assert (nz (f_root s) = true) as -> by (by rewrite E). cbn [negb].
  rewrite Eh, Z.eqb_refl. pose proof (resolve_loop_spec (path_fuel (path_text p)) s T (f_root s) [] (path_text p) ltac:(unfold path_fuel; lia) (ex_intro _ kids W) R Hroot) as H.
  rewrite Ep, Es in H. by apply (path_inj s kids W _ _ p).
Qed.

(** * Archives *)

(** Files that an addition makes have the content it was given. *)
Lemma enter_files base c T T' p d n : enter base c T = Some T' -> T' !! p = Some (File d n) -> T !! p = Some (File d n).
Proof.
  unfold enter. destruct (T !! (base ++ [c])) as [[|? ?]|]; [by intros [= <-]|done|]. if_case; [|done]. intros [= <-].
  by intros [[? ?]|[? ?]]%lookup_insert_Some.
Qed.

Lemma directory_files base cs T p d n : (spec_directory base cs T).2 !! p = Some (File d n) -> T !! p = Some (File d n).
Proof.
  revert base T. induction cs as [|c cs IH]; intros base T; [done|]. cbn [spec_directory]. if_case; [done|]. case_decide; [apply IH|]. case_decide; [done|].
  destruct (enter base c T) as [T'|] eqn:Ee; [|done]. intros Hx%IH. by apply (enter_files base c T T').
Qed.

Lemma file_files base cs data size T p d n :
  (spec_file base cs data size T).2 !! p = Some (File d n) -> T !! p = Some (File d n) \/ (d = data /\ n = size).
Proof.
  revert base T. induction cs as [|c cs IH]; intros base T; cbn [spec_file]; [by left|]. if_case; [by left|]. case_decide; [apply IH|]. case_decide; [by left|]. case_decide.
  - unfold spec_final. assert (forall T : Tree, <[base ++ [c] := File data size]> T !! p = Some (File d n) -> T !! p = Some (File d n) \/ (d = data /\ n = size)) as Hins.
    { intros T' [[_ [= -> ->]]|[_ ?]]%lookup_insert_Some; auto. }
    destruct (T !! (base ++ [c])) as [[|? ?]|]; [by left|by apply Hins|]. if_case; [by apply Hins|by left].
  - destruct (enter base c T) as [T'|] eqn:Ee; [|by left]. intros [Ho|Ho]%IH; [left|by right]. by apply (enter_files base c T T').
Qed.

(** The file lies in the archive. *)
Definition inside (archive : list Z) (archive_size : Z) (d : option (list Z)) (n : Z) : Prop :=
  exists k, 0 <= k /\ 0 <= n /\ k + n <= archive_size /\ d = Some (drop (Z.to_nat k) archive).

Definition files_inside (archive : list Z) (archive_size : Z) (T T' : Tree) : Prop :=
  forall p d n, T' !! p = Some (File d n) -> T !! p = Some (File d n) \/ inside archive archive_size d n.

Lemma tar_add_spec header path data n s T :
  wf s -> repr s T -> let '(b, s') := tar_add header path data n s in
  exists T', wf s' /\ repr s' T' /\ forall p d m, T' !! p = Some (File d m) -> T !! p = Some (File d m) \/ (d = Some data /\ m = n).
Proof.
  intros W R. unfold tar_add. if_case.
  - pose proof (add_file_spec path (Some data) n s T W R) as Ha. pose proof (file_files [] (components path) (Some data) n T) as Hf.
    destruct (vfs_add_file path (Some data) n s) as [b s'], (spec_file [] (components path) (Some data) n T) as [b' T']. exists T'. split_and!; [apply Ha|apply Ha|exact Hf].
  - if_case; [|exists T; split_and!; [done|done|by left]].
    pose proof (add_directory_spec path s T W R) as Ha. pose proof (directory_files [] (components path) T) as Hf.
    destruct (vfs_add_directory path s) as [b s'], (spec_directory [] (components path) T) as [b' T']. exists T'. split_and!; [apply Ha|apply Ha|]. intros p d m Hx. left. by apply Hf.
Qed.

Lemma octal_digits_u64 value field v : is_u64 value -> octal_digits value field = Some v -> is_u64 v.
Proof.
  revert value. induction field as [|c field IH]; intros value Hv; cbn [octal_digits]; [by intros [= <-]|]. if_case; [by intros [= <-]|]. if_case; [done|].
  apply IH, u64_range.
Qed.

Lemma padded_size n : 0 <= n < 2 ^ 64 - 512 ->
  Z.land (u64 (n + TAR_BLOCK_SIZE - 1)) (u64 (Z.lnot (TAR_BLOCK_SIZE - 1))) = (n + 511) / 512 * 512.
Proof.
  intros Hn. unfold TAR_BLOCK_SIZE. rewrite (u64_id (n + 512 - 1)) by (unfold is_u64; lia). replace (n + 512 - 1) with (n + 511) by lia.
  change (u64 (Z.lnot (512 - 1))) with (Z.shiftl (Z.ones 55) 9).
  assert (Z.land (n + 511) (Z.shiftl (Z.ones 55) 9) = Z.shiftl (Z.land (Z.shiftr (n + 511) 9) (Z.ones 55)) 9) as ->.
  { apply Z.bits_inj'. intros i Hi. rewrite Z.land_spec, !Z.shiftl_spec by lia. destruct (Z.ltb_spec i 9) as [H|H].
    - rewrite !(Z.testbit_neg_r _ (i - 9)) by lia. by rewrite andb_false_r.
    - rewrite Z.land_spec, Z.shiftr_spec by lia. by rewrite Z.sub_add. }
  rewrite Z.land_ones, Z.shiftl_mul_pow2, Z.shiftr_div_pow2 by lia. change (2 ^ 9) with 512. rewrite Z.mod_small; [done|].
  Z.to_euclidean_division_equations; lia.
Qed.

(** What a header that passes the checks promises. *)
Lemma tar_check_bounds header archive_size offset n path :
  0 <= offset -> offset + 512 <= archive_size < 2 ^ 64 - 512 -> tar_check header archive_size offset = Some (n, path) -> 0 <= n <= archive_size - (offset + 512).
Proof.
  intros H0 Hs. unfold tar_check, TAR_BLOCK_SIZE. do 2 (if_case; [done|]). destruct (parse_octal (t_size header)) as [m|] eqn:Ep; [|done]. cbn [mbind option_bind].
  rewrite (u64_id (offset + 512)) by (unfold is_u64; lia). if_case; [done|]. rewrite (u64_id (archive_size - (offset + 512))) by (unfold is_u64; lia). if_case; [done|].
  destruct (build_path header); [|done]. intros [= -> _]. bool_prop. apply octal_digits_u64 in Ep; [|by split]. unfold is_u64 in Ep. lia.
Qed.

Lemma tar_loop_safe fuel archive archive_size offset s T :
  0 <= offset <= archive_size -> archive_size < 2 ^ 64 - 512 -> (archive_size - offset) / 512 < Z.of_nat fuel -> wf s -> repr s T ->
  exists b s' T', tar_loop fuel archive archive_size offset s = Some (b, s') /\ wf s' /\ repr s' T' /\ files_inside archive archive_size T T'.
Proof.
  revert offset s T. induction fuel as [|fuel IH]; intros offset s T H0 Hs Hf W R; [Z.to_euclidean_division_equations; lia|].
  assert (files_inside archive archive_size T T) as Hrefl by (by left). cbn [tar_loop]. unfold TAR_BLOCK_SIZE at 1. rewrite (u64_id (offset + 512)) by (unfold is_u64; lia).
  destruct (Z.leb_spec (offset + 512) archive_size) as [Hle|Hle]; cbn [negb]; [|by exists true, s, T]. if_case; [by exists true, s, T|].
  set (header := tar_header _). destruct (tar_check header archive_size offset) as [[n path]|] eqn:Ec; [|by exists false, s, T].
  pose proof (tar_check_bounds header archive_size offset n path ltac:(lia) (conj Hle Hs) Ec) as Hn. change (u64 (offset + TAR_BLOCK_SIZE)) with (u64 (offset + 512)).
  rewrite (u64_id (offset + 512)) by (unfold is_u64; lia). set (data := drop _ archive). pose proof (tar_add_spec header path data n s T W R) as HX.
  destruct (tar_add header path data n s) as [b s1]. destruct HX as (T1 & W1 & R1 & Hfiles).
  assert (files_inside archive archive_size T T1) as Hin.
  { intros p d m [?|[-> ->]]%Hfiles; [by left|]. right. exists (offset + 512). split_and!; [lia|lia|lia|done]. }
  destruct b; cbn [negb]; [|by exists false, s1, T1]. rewrite padded_size by lia. set (padded := (n + 511) / 512 * 512).
  assert (n <= padded < n + 512) as Hp by (unfold padded; Z.to_euclidean_division_equations; lia).
  destruct (Z.ltb_spec padded n); [lia|]. rewrite (u64_id (offset + 512 + padded)) by (unfold is_u64; lia). if_case; [by exists false, s1, T1|]. bool_prop.
  destruct (IH (offset + 512 + padded) s1 T1) as (b & s2 & T2 & -> & W2 & R2 & Hin2); [lia|done|Z.to_euclidean_division_equations; lia|done|done|].
  exists b, s2, T2. split_and!; try done. intros p d m [Ho|Ho]%Hin2; [by apply Hin|by right].
Qed.

(** * Clean paths *)

Lemma directory_dots k base cs T : spec_directory base (replicate k DOT ++ cs) T = spec_directory base cs T.
Proof. induction k as [|k IH]; [done|]. cbn [replicate app spec_directory]. by rewrite decide_True. Qed.

Lemma file_dots k base cs data n T : spec_file base (replicate k DOT ++ cs) data n T = spec_file base cs data n T.
Proof. induction k as [|k IH]; [done|]. cbn [replicate app spec_file]. by rewrite decide_True. Qed.

Lemma skip_dot_components t : exists k, components t = replicate k DOT ++ components (skip_dot_slash t).
Proof.
  assert (forall n t, (length t <= n)%nat -> exists k, components t = replicate k DOT ++ components (skip_dot_slash t)) as H; [|by apply (H (length t))].
  induction n as [|n IH]; intros [|c [|d r]] Hl; try (by exists 0%nat); [cbn in Hl; lia|]. cbn [skip_dot_slash].
  destruct ((c =? 46) && (d =? SLASH)) eqn:E; [|by exists 0%nat]. bool_prop. subst c d. destruct (IH r) as [k Hk]; [cbn in Hl; lia|]. exists (S k).
  cbn [replicate app]. rewrite <- Hk. done.
Qed.

Lemma skip_forall {P : Z -> Prop} t : Forall P t -> Forall P (skip_slashes (skip_dot_slash t)) /\ (length (skip_slashes (skip_dot_slash t)) <= length t)%nat.
Proof.
  intros H. assert (exists k, skip_dot_slash t = drop k t) as [k ->].
  { assert (forall n t, (length t <= n)%nat -> exists k, skip_dot_slash t = drop k t) as Hd; [|by apply (Hd (length t))]. clear. induction n as [|n IH]; intros [|c [|d r]] Hl;
      try (by exists 0%nat); [cbn in Hl; lia|]. cbn [skip_dot_slash]. if_case; [|by exists 0%nat]. destruct (IH r) as [k ->]; [cbn in Hl; lia|]. by exists (S (S k)). }
  assert (forall l : list Z, exists j, skip_slashes l = drop j l) as Hs.
  { induction l as [|c l [j IH]]; [by exists 0%nat|]. cbn [skip_slashes]. if_case; [|by exists 0%nat]. rewrite IH. by exists (S j). }
  destruct (Hs (drop k t)) as [j ->]. split; [by do 2 apply Forall_drop|]. rewrite !length_drop. lia.
Qed.

Lemma trim_le source n : (trim_slashes source n <= n)%nat.
Proof. induction n as [|n IH]; [done|]. cbn [trim_slashes]. if_case; lia. Qed.

Lemma trim_spec source n : (n <= length source)%nat -> exists k, take n source = take (trim_slashes source n) source ++ replicate k SLASH.
Proof.
  induction n as [|n IH]; intros Hn; [by exists 0%nat|]. cbn [trim_slashes]. destruct (Z.eqb_spec (byte_at source n) SLASH) as [E|]; [|exists 0%nat; by rewrite app_nil_r].
  destruct IH as [k Hk]; [lia|]. exists (k + 1)%nat. unfold byte_at in E.
  destruct (lookup_lt_is_Some_2 source n ltac:(lia)) as [x Hx]. rewrite (take_S_r _ _ _ Hx), Hk, replicate_add. rewrite (nth_lookup source n 0), Hx in E. cbn in E. subst x. by rewrite app_assoc.
Qed.

Lemma components_trailing x k w : Forall (.≠ 0) x -> components_from w (x ++ replicate k SLASH) = components_from w x.
Proof.
  intros H. revert w. induction H as [|c x Hc _ IH]; intros w; cbn [app components_from].
  - destruct k as [|k]; [done|]. cbn [replicate components_from]. change (SLASH =? 0) with false. rewrite Z.eqb_refl. cbn match.
    assert (components_from [] (replicate k SLASH) = []) as ->; [|by rewrite app_nil_r]. induction k as [|k IH]; [done|]. exact IH.
  - rewrite (proj2 (Z.eqb_neq _ _) Hc). destruct (c =? SLASH); by rewrite IH.
Qed.

(** A clean path says the same to the file system. *)
Lemma clean_path_spec t :
  Forall (.≠ 0) t -> Z.of_nat (length t) <= 254 ->
  exists path, clean_path t = Some path /\
    forall T, (spec_directory [] (components path) T = spec_directory [] (components t) T) /\
      forall data n, spec_file [] (components path) data n T = spec_file [] (components t) data n T.
Proof.
  intros Hz Hl. destruct (skip_forall t Hz) as [Hs Hlen]. destruct (skip_dot_components t) as [k ->]. rewrite <- (components_skip (skip_dot_slash t)).
  unfold clean_path. set (source := skip_slashes _) in *. rewrite string_length_word by done. rewrite Nat2Z.id. destruct (trim_spec source (length source) ltac:(done)) as [j Hj].
  rewrite firstn_all in Hj. set (m := trim_slashes source (length source)) in *.
  assert (components source = components (take m source)) as ->.
  { rewrite Hj at 1. apply components_trailing. by apply Forall_take. }
  assert (components [SLASH] = []) as Hroot by done.
  destruct (Nat.eqb_spec m 0) as [E|E]; cbn [orb].
  { rewrite E. exists [SLASH]. rewrite Hroot. split; [done|]. intros T. rewrite directory_dots. split; [done|]. intros data n. by rewrite file_dots. }
  destruct (Nat.eqb m 1 && (byte_at source 0 =? 46)) eqn:Ed.
  { apply andb_true_iff in Ed as [Em%Nat.eqb_eq Eb%Z.eqb_eq]. exists [SLASH]. rewrite Hroot, Em. split; [done|]. destruct source as [|c source']; [done|]. cbn in Eb. subst c.
    change (components (take 1 (46 :: source'))) with (replicate 1 DOT ++ []). intros T. rewrite !directory_dots. split; [done|]. intros data n. by rewrite !file_dots. }
  pose proof (trim_le source (length source)) as Hm. fold m in Hm.
  unfold VFS_PATH_MAX. destruct (Z.ltb_spec 256 (Z.of_nat m + 2)); [lia|]. exists (SLASH :: take m source). split; [done|].
  change (components (SLASH :: take m source)) with (components (take m source)). intros T. rewrite directory_dots. split; [done|]. intros data n. by rewrite file_dots.
Qed.

(** * Writing an archive

    The reference writer of the format: 512-byte headers with octal numbers and a
    checksum, data padded to blocks, two zero blocks at the end. *)

Definition padded (n : nat) (l : list Z) : list Z := l ++ replicate (n - length l) 0.

Fixpoint octal (w : nat) (v : Z) : list Z :=
  match w with
  | O => []
  | S w => octal w (v / 8) ++ [48 + v mod 8]
  end.

Record TarEntry := mkTarEntry { e_prefix : list Z; e_name : list Z; e_type : Z; e_data : list Z }.

Definition data_size (e : TarEntry) : Z := Z.of_nat (length (e_data e)).

Definition block_head (e : TarEntry) : list Z :=
  padded 100 (e_name e) ++ replicate 24 0 ++ (octal 11 (data_size e) ++ [0]) ++ replicate 12 0.

Definition USTAR : list Z := [117; 115; 116; 97; 114; 0].

Definition block_tail (e : TarEntry) : list Z :=
  [e_type e] ++ replicate 100 0 ++ USTAR ++ ([48; 48] ++ replicate 80 0) ++ padded 155 (e_prefix e) ++ replicate 12 0.

(** The checksum is the sum of the bytes of the header with eight spaces in the
    place of the checksum. *)
Definition sum (l : list Z) : Z := foldr Z.add 0 l.

Definition block_sum (e : TarEntry) : Z := sum (block_head e ++ replicate 8 32 ++ block_tail e).

Definition tar_block (e : TarEntry) : list Z := block_head e ++ (octal 6 (block_sum e) ++ [0; 32]) ++ block_tail e.

Definition padding (e : TarEntry) : list Z := replicate (Z.to_nat ((data_size e + 511) / 512 * 512 - data_size e)) 0.

Fixpoint tar_archive (es : list TarEntry) : list Z :=
  match es with
  | [] => replicate 1024 0
  | e :: es => tar_block e ++ e_data e ++ padding e ++ tar_archive es
  end.

(** The name of an entry in the archive. *)
Definition full_name (e : TarEntry) : list Z := match e_prefix e with [] => e_name e | _ => e_prefix e ++ SLASH :: e_name e end.

Definition text_byte (c : Z) : Prop := 0 < c < 256.

Record entry_ok (e : TarEntry) : Prop := {
  eo_name : Forall text_byte (e_name e) /\ (length (e_name e) <= 100)%nat;
  eo_prefix : Forall text_byte (e_prefix e) /\ (length (e_prefix e) <= 155)%nat;
  eo_full : Z.of_nat (length (full_name e)) <= 254;
  eo_type : 0 <= e_type e < 256;
  eo_data : data_size e < 8 ^ 11 }.

(** What mounting an entry means; [rest] is the archive behind its data. *)
Definition spec_entry (e : TarEntry) (rest : list Z) (T : Tree) : bool * Tree :=
  if (e_type e =? 0) || (e_type e =? 48) then spec_file [] (components (full_name e)) (Some (e_data e ++ rest)) (data_size e) T else
  if e_type e =? 53 then spec_directory [] (components (full_name e)) T else (true, T).

Fixpoint spec_mount (es : list TarEntry) (T : Tree) : bool * Tree :=
  match es with
  | [] => (true, T)
  | e :: es => let '(b, T) := spec_entry e (padding e ++ tar_archive es) T in if b then spec_mount es T else (false, T)
  end.

(** * Fields of a written header *)

Lemma octal_length w v : length (octal w v) = w.
Proof. revert v. induction w as [|w IH]; intros v; [done|]. cbn [octal]. rewrite length_app, IH. cbn. lia. Qed.

Lemma octal_range w v : Forall (fun c => 48 <= c <= 55) (octal w v).
Proof.
  revert v. induction w as [|w IH]; intros v; [done|]. cbn [octal]. apply Forall_app. split; [done|]. constructor; [|done].
  pose proof (Z.mod_pos_bound v 8 ltac:(lia)). lia.
Qed.

Lemma octal_digits_spec w v acc t :
  0 <= v < 8 ^ Z.of_nat w -> 0 <= acc -> acc * 8 ^ Z.of_nat w + v < 2 ^ 64 -> octal_digits acc (octal w v ++ t) = octal_digits (acc * 8 ^ Z.of_nat w + v) t.
Proof.
  revert v acc t. induction w as [|w IH]; intros v acc t Hv Ha Hb.
  { change (8 ^ Z.of_nat 0) with 1 in *. cbn [octal app]. f_equal. lia. }
  rewrite Nat2Z.inj_succ, Z.pow_succ_r in * by lia. assert (0 <= v / 8 < 8 ^ Z.of_nat w) as Hd by (Z.to_euclidean_division_equations; lia).
  pose proof (Z.mod_pos_bound v 8 ltac:(lia)) as Hm. pose proof (Z.div_mod v 8 ltac:(lia)) as Hdm. set (m := 8 ^ Z.of_nat w) in *.
  assert (8 * (acc * m + v / 8) + v mod 8 = acc * (8 * m) + v) as Ev by nia.
  cbn [octal]. rewrite <- app_assoc. rewrite IH by (done || nia). cbn [app octal_digits]. unfold blank.
  destruct (Z.eqb_spec (48 + v mod 8) 32); [lia|]. destruct (Z.eqb_spec (48 + v mod 8) 0); [lia|]. cbn [orb].
  destruct (Z.ltb_spec (48 + v mod 8) 48); [lia|]. destruct (Z.ltb_spec 55 (48 + v mod 8)); [lia|]. cbn [orb]. rewrite Z.shiftl_mul_pow2 by lia. change (2 ^ 3) with 8.
  fold m. rewrite (u64_id ((acc * m + v / 8) * 8)), u64_id by (unfold is_u64; nia). f_equal. lia.
Qed.

Lemma parse_octal_spec w v b t : 0 <= v < 8 ^ Z.of_nat w -> 8 ^ Z.of_nat w <= 2 ^ 64 -> (0 < w)%nat -> blank b = true -> parse_octal (octal w v ++ b :: t) = Some v.
Proof.
  intros Hv Hw H0 Hb. unfold parse_octal. assert (octal_skip (octal w v ++ b :: t) = octal w v ++ b :: t) as ->.
  { pose proof (octal_length w v) as Hl. pose proof (octal_range w v) as Hr. destruct (octal w v) as [|c l]; [cbn in Hl; lia|]. inversion Hr as [|? ? Hc]; subst. cbn [app octal_skip]. unfold blank.
    destruct (Z.eqb_spec c 32), (Z.eqb_spec c 0); try lia. done. }
  rewrite octal_digits_spec by lia. cbn [octal_digits]. by rewrite Hb.
Qed.

Lemma padded_length n l : (length l <= n)%nat -> length (padded n l) = n.
Proof. intros H. unfold padded. rewrite length_app, length_replicate. lia. Qed.

Lemma field_length_padded n l : Forall text_byte l -> field_length (padded n l) = Z.of_nat (length l) /\ take (length l) (padded n l) = l.
Proof.
  intros H. split; [|unfold padded; by rewrite take_app_length]. unfold padded. generalize (n - length l)%nat as k.
  induction H as [|c l Hc _ IH]; intros k; [by destruct k|]. cbn [app field_length length]. unfold text_byte in Hc. unfold nz. destruct (Z.eqb_spec c 0); [lia|]. cbn [negb]. rewrite IH. lia.
Qed.

Lemma slice_at i n (x a b c : list Z) : x = a ++ b ++ c -> length a = i -> length b = n -> slice i n x = b.
Proof. intros -> <- <-. unfold slice. by rewrite drop_app_length, take_app_length. Qed.

Lemma byte_mid i (x a c : list Z) (b : Z) : x = a ++ b :: c -> length a = i -> byte_at x i = b.
Proof. intros -> <-. unfold byte_at. rewrite app_nth2 by lia. by rewrite Nat.sub_diag. Qed.

(** * Checksums *)

Lemma foldl_same {A B} (f g : A -> B -> A) (l : list B) a : (forall a x, x ∈ l -> f a x = g a x) -> foldl f a l = foldl g a l.
Proof.
  revert a. induction l as [|x l IH]; intros a H; [done|]. cbn [foldl]. rewrite (H a x) by (by left). apply IH. intros b y Hy. apply H. by right.
Qed.

Definition byte (c : Z) : Prop := 0 <= c < 256.

Lemma sum_bound l : Forall byte l -> 0 <= sum l <= 255 * Z.of_nat (length l).
Proof. unfold byte. induction 1 as [|c l Hc _ IH]; cbn [sum foldr length]; [lia|]. fold (sum l). lia. Qed.

Lemma foldl_sum (g : Z -> Z) l v :
  (forall i, i ∈ l -> byte (g i)) -> 0 <= v -> v + 255 * Z.of_nat (length l) < 2 ^ 64 ->
  foldl (fun v i => u64 (v + g i)) v l = v + sum (g <$> l).
Proof.
  revert v. induction l as [|i l IH]; intros v Hg Hv Hb; [cbn; lia|]. cbn [foldl length fmap list_fmap sum foldr] in *. fold (sum (g <$> l)).
  assert (byte (g i)) as Hi by (apply Hg; by left). unfold byte in Hi. rewrite (u64_id (v + g i)) by (unfold is_u64; lia).
  rewrite IH; [lia| |lia|lia]. intros x Hx. apply Hg. by right.
Qed.

(** Reading the bytes of a list one after the other. *)
Lemma read_bytes x n : length x = Z.to_nat n -> (fun i => byte_at x (Z.to_nat i)) <$> seqZ 0 n = x.
Proof.
  intros Hn. apply list_eq. intros i. rewrite list_lookup_fmap. destruct (decide (i < length x)%nat) as [Hi|Hi].
  - rewrite lookup_seqZ_lt by lia. cbn. unfold byte_at. rewrite Z.add_0_l, Nat2Z.id, nth_lookup. destruct (lookup_lt_is_Some_2 x i Hi) as [c ->]. done.
  - rewrite lookup_seqZ_ge, (lookup_ge_None_2 x) by lia. done.
Qed.

(** The reader's sum of a header is the writer's. *)
Lemma checksum_sum a f c :
  length a = 148%nat -> length f = 8%nat -> length c = 356%nat -> Forall byte a -> Forall byte c ->
  checksum_of (a ++ f ++ c) = sum (a ++ replicate 8 32 ++ c).
Proof.
  intros Ha Hf Hc Ba Bc. set (x := a ++ replicate 8 32 ++ c).
  assert (length x = 512%nat) as Hx by (unfold x; rewrite !length_app, length_replicate, Ha, Hc; done).
  assert (Forall byte x) as Bx by (unfold x; rewrite !Forall_app; split_and!; [done|by apply Forall_replicate; unfold byte; lia|done]).
  rewrite <- (read_bytes x 512) by done. unfold checksum_of, TAR_BLOCK_SIZE.
  rewrite <- (Z.add_0_l (sum _)), <- foldl_sum; [|intros i Hi%elem_of_seqZ|lia|by rewrite length_seqZ].
  - apply foldl_same. intros v i Hi%elem_of_seqZ. do 2 f_equal. unfold byte_at, x.
    destruct (Z.leb_spec 148 i), (Z.ltb_spec i 156); cbn [andb].
    + rewrite app_nth2, Ha, app_nth1 by (rewrite ?length_replicate; lia). by rewrite nth_lookup, lookup_replicate_2 by lia.
    + rewrite !(app_nth2 a) by lia. rewrite Ha. rewrite !app_nth2 by (rewrite ?length_replicate; lia). by rewrite Hf, length_replicate.
    + by rewrite !(app_nth1 a) by lia.
    + lia.
  - unfold byte_at. apply (proj1 (Forall_forall _ _) Bx). apply nth_In. lia.
Qed.

Section Block.
  Context (e : TarEntry) (E : entry_ok e).

Lemma head_length : length (block_head e) = 148%nat.
Proof using E. unfold block_head. rewrite !length_app, padded_length by apply (eo_name _ E). rewrite octal_length. done. Qed.

Lemma tail_length : length (block_tail e) = 356%nat.
Proof using E. unfold block_tail. rewrite !length_app, padded_length by apply (eo_prefix _ E). done. Qed.

Lemma block_length : length (tar_block e) = 512%nat.
Proof using E. unfold tar_block. rewrite !length_app, head_length, tail_length, octal_length. done. Qed.

Lemma padded_bytes n l : Forall text_byte l -> Forall (fun c => 0 <= c < 256) (padded n l).
Proof. intros H. unfold padded. apply Forall_app. split; [|by apply Forall_replicate; lia]. eapply Forall_impl; [|exact H]. unfold text_byte. intros; lia. Qed.

Lemma octal_bytes w v : Forall (fun c => 0 <= c < 256) (octal w v).
Proof. eapply Forall_impl; [|apply octal_range]. cbn. intros; lia. Qed.

Lemma block_bytes : Forall byte (block_head e) /\ Forall byte (block_tail e).
Proof using E.
  unfold block_head, block_tail, byte. rewrite !Forall_app. repeat match goal with |- _ /\ _ => split end;
    try (by apply Forall_replicate; lia); try (by apply padded_bytes, E); try apply octal_bytes; repeat (constructor; [pose proof (eo_type _ E); lia|]); constructor.
Qed.

Lemma block_sum_bound : 0 <= block_sum e < 8 ^ 6.
Proof using E.
  destruct block_bytes as [Bh Bt].
  assert (Forall byte (block_head e ++ replicate 8 32 ++ block_tail e)) as H by (rewrite !Forall_app; split_and!; [done|by apply Forall_replicate; unfold byte; lia|done]).
  pose proof (sum_bound _ H) as Hs. rewrite !length_app, head_length, tail_length, length_replicate in Hs. unfold block_sum. lia.
Qed.

(** The header read back. *)
Lemma header_fields :
  let header := tar_header (tar_block e) in
  t_name header = padded 100 (e_name e) /\ t_size header = octal 11 (data_size e) ++ [0] /\ t_checksum header = octal 6 (block_sum e) ++ [0; 32] /\
  t_typeflag header = e_type e /\ t_magic header = USTAR /\ t_prefix header = padded 155 (e_prefix e) /\ t_bytes header = tar_block e.
Proof using E.
  pose proof head_length as Hh. pose proof (padded_length 100 (e_name e) (proj2 (eo_name _ E))) as Hn. pose proof (padded_length 155 (e_prefix e) (proj2 (eo_prefix _ E))) as Hp.
  set (sum := octal 6 (block_sum e) ++ [0; 32]). assert (length sum = 8%nat) as Hs by (unfold sum; by rewrite length_app, octal_length).
  cbv zeta. unfold tar_header. cbn [t_name t_size t_checksum t_typeflag t_magic t_prefix t_bytes]. split_and!; [..|done].
  - apply (slice_at 0 100 _ [] _ (replicate 24 0 ++ (octal 11 (data_size e) ++ [0]) ++ replicate 12 0 ++ sum ++ block_tail e)); [|done|done].
    unfold tar_block, block_head. by rewrite <- !app_assoc.
  - apply (slice_at 124 12 _ (padded 100 (e_name e) ++ replicate 24 0) _ (replicate 12 0 ++ sum ++ block_tail e)).
    + unfold tar_block, block_head. by rewrite <- !app_assoc.
    + by rewrite length_app, Hn.
    + by rewrite length_app, octal_length.
  - by apply (slice_at 148 8 _ (block_head e) _ (block_tail e)).
  - apply (byte_mid 156 _ (block_head e ++ sum) (replicate 100 0 ++ USTAR ++ ([48; 48] ++ replicate 80 0) ++ padded 155 (e_prefix e) ++ replicate 12 0)).
    + rewrite <- (app_assoc (block_head e) sum). done.
    + by rewrite length_app, Hh, Hs.
  - apply (slice_at 257 6 _ (block_head e ++ sum ++ [e_type e] ++ replicate 100 0) _ (([48; 48] ++ replicate 80 0) ++ padded 155 (e_prefix e) ++ replicate 12 0)); [|by rewrite !length_app, Hh, Hs|done].
    unfold tar_block, block_tail. by rewrite <- !app_assoc.
  - apply (slice_at 345 155 _ (block_head e ++ sum ++ [e_type e] ++ replicate 100 0 ++ USTAR ++ ([48; 48] ++ replicate 80 0)) _ (replicate 12 0)); [|by rewrite !length_app, Hh, Hs|done].
    unfold tar_block, block_tail. by rewrite <- !app_assoc.
Qed.

Lemma full_nonzero : Forall (.≠ 0) (full_name e).
Proof using E.
  assert (forall l, Forall text_byte l -> Forall (.≠ 0) l) as H by (intros l; apply Forall_impl; unfold text_byte; intros; lia).
  destruct (eo_name _ E) as [Hn%H _], (eo_prefix _ E) as [Hp%H _]. unfold full_name. destruct (e_prefix e) as [|c l]; [done|].
  apply Forall_app. split; [done|]. by constructor.
Qed.

Lemma append_padded n destination l :
  Forall text_byte l -> Z.of_nat (length destination) + Z.of_nat (length l) < 256 -> append_field destination (padded n l) = Some (destination ++ l).
Proof.
  intros Hl H. unfold append_field, VFS_PATH_MAX. destruct (field_length_padded n l Hl) as [-> Ht]. rewrite Nat2Z.id, Ht.
  by destruct (Z.leb_spec 256 (Z.of_nat (length destination) + Z.of_nat (length l))); [lia|].
Qed.

Lemma build_path_spec : build_path (tar_header (tar_block e)) = clean_path (full_name e).
Proof using E.
  destruct header_fields as (Hn & _ & _ & _ & _ & Hp & _). unfold build_path. rewrite Hn, Hp. destruct (eo_name _ E) as [Hnb _], (eo_prefix _ E) as [Hpb _].
  pose proof (eo_full _ E) as Hf. unfold full_name in *. destruct (field_length_padded 155 (e_prefix e) Hpb) as [-> _]. destruct (e_prefix e) as [|c l] eqn:Ep.
  - change (nz (Z.of_nat (length ([] : list Z)))) with false. cbn [mbind option_bind]. rewrite append_padded; [done|done|cbn; lia].
  - change (nz (Z.of_nat (length (c :: l)))) with true. rewrite length_app in Hf. cbn [length] in Hf. cbn match.
    rewrite append_padded by (done || (cbn; lia)). cbn [mbind option_bind app]. unfold VFS_PATH_MAX. destruct (Z.leb_spec 256 (Z.of_nat (length (c :: l)) + 1)) as [H|H]; [cbn [length] in H; lia|].
    cbn [mbind option_bind]. rewrite append_padded; [|done|cbn [length]; rewrite length_app; cbn [length]; lia]. cbn [mbind option_bind app]. by rewrite <- app_assoc.
Qed.

Lemma written_check archive_size offset :
  0 <= offset -> offset + 512 + data_size e <= archive_size < 2 ^ 64 - 512 ->
  tar_check (tar_header (tar_block e)) archive_size offset = path ← clean_path (full_name e); Some (data_size e, path).
Proof using E.
  intros H0 Hs. destruct header_fields as (_ & Hsz & Hck & _ & Hmg & _ & Hby). unfold tar_check.
  assert (0 <= data_size e) as Hd by (unfold data_size; lia). pose proof (eo_data _ E) as Hmax.
  assert (tar_magic_valid (tar_header (tar_block e)) = true) as -> by (unfold tar_magic_valid; by rewrite Hmg). cbn [negb].
  assert (checksum_valid (tar_header (tar_block e)) = true) as ->.
  { unfold checksum_valid. rewrite Hck, Hby. pose proof block_sum_bound as Hb. rewrite (parse_octal_spec 6 (block_sum e) 0 [32]); [|done|done|lia|done]. apply Z.eqb_eq.
    unfold block_sum, tar_block. symmetry. apply checksum_sum; [apply head_length|by rewrite length_app, octal_length|apply tail_length|apply block_bytes|apply block_bytes]. }
  cbn [negb]. rewrite Hsz, (parse_octal_spec 11 (data_size e) 0 []); [|by split|done|lia|done]. cbn [mbind option_bind]. unfold TAR_BLOCK_SIZE.
  rewrite (u64_id (offset + 512)) by (unfold is_u64; lia). destruct (Z.ltb_spec (offset + 512) offset); [lia|]. rewrite u64_id by (unfold is_u64; lia).
  destruct (Z.ltb_spec (archive_size - (offset + 512)) (data_size e)); [lia|]. by rewrite build_path_spec.
Qed.

Lemma written_nonzero rest : block_is_zero (tar_block e ++ rest) = false.
Proof using E.
  unfold block_is_zero. replace (Z.to_nat TAR_BLOCK_SIZE) with (length (tar_block e)) by apply block_length. rewrite take_app_length.
  apply not_true_iff_false. intros H. rewrite forallb_forall in H. specialize (H 117). assert (In 117 (tar_block e)) as Hin.
  { unfold tar_block, block_tail, USTAR. apply in_or_app. right. apply in_or_app. right. apply in_or_app. right. apply in_or_app. right. by left. }
  by specialize (H Hin).
Qed.

(** One entry of the archive is mounted. *)
Lemma written_add path s T rest :
  clean_path (full_name e) = Some path -> wf s -> repr s T ->
  let '(b, s') := tar_add (tar_header (tar_block e)) path (e_data e ++ rest) (data_size e) s in
  let '(b', T') := spec_entry e rest T in b = b' /\ wf s' /\ repr s' T'.
Proof using E.
  intros Hp W R. destruct header_fields as (_ & _ & _ & Ht & _). unfold tar_add, spec_entry. rewrite Ht.
  destruct (clean_path_spec (full_name e) full_nonzero (eo_full _ E)) as (path' & Hp' & Hspec). rewrite Hp in Hp'. injection Hp' as <-. destruct (Hspec T) as [Hd Hf].
  if_case; [rewrite <- Hf; by apply add_file_spec|]. if_case; [rewrite <- Hd; by apply add_directory_spec|done].
Qed.

End Block.

Lemma written_data e : Z.of_nat (length (e_data e ++ padding e)) = (data_size e + 511) / 512 * 512.
Proof. unfold padding. rewrite length_app, length_replicate. unfold data_size. Z.to_euclidean_division_equations; lia. Qed.

Lemma written_loop es : forall fuel pre archive archive_size s T,
  Forall entry_ok es -> archive = pre ++ tar_archive es -> archive_size = Z.of_nat (length archive) -> archive_size < 2 ^ 64 - 512 ->
  (archive_size - Z.of_nat (length pre)) / 512 < Z.of_nat fuel -> wf s -> repr s T ->
  exists s', tar_loop fuel archive archive_size (Z.of_nat (length pre)) s = Some ((spec_mount es T).1, s') /\ wf s' /\ repr s' (spec_mount es T).2.
Proof.
  induction es as [|e es IH]; intros fuel pre archive archive_size s T HE Ha Hs Hm Hf W R; (destruct fuel as [|fuel];
    [rewrite Hs, Ha, length_app in Hf; Z.to_euclidean_division_equations; lia|]).
  - assert (archive_size = Z.of_nat (length pre) + 1024) as Hl by (rewrite Hs, Ha, length_app; cbn [tar_archive]; rewrite length_replicate; lia).
    cbn [tar_loop]. unfold TAR_BLOCK_SIZE at 1. rewrite u64_id by (unfold is_u64; lia). destruct (Z.leb_spec (Z.of_nat (length pre) + 512) archive_size); [|lia]. cbn [negb].
    rewrite Ha, Nat2Z.id, drop_app_length. change (block_is_zero (tar_archive [])) with true. by exists s.
  - apply list.Forall_cons in HE as [He HE']. cbn [tar_archive] in Ha. set (rest := tar_archive es) in *.
    pose proof (block_length e He) as Hb. pose proof (written_data e) as Hd. set (padded := (data_size e + 511) / 512 * 512) in *.
    assert (data_size e <= padded /\ 0 <= data_size e) as [Hpd H0] by (unfold padded, data_size; Z.to_euclidean_division_equations; lia).
    assert (archive_size = Z.of_nat (length pre) + 512 + padded + Z.of_nat (length rest)) as Hl.
    { rewrite length_app in Hd. rewrite Hs, Ha, !length_app, Hb. lia. }
    set (offset := Z.of_nat (length pre)) in *. cbn [tar_loop]. unfold TAR_BLOCK_SIZE at 1. rewrite u64_id by (unfold is_u64; lia).
    destruct (Z.leb_spec (offset + 512) archive_size); [|lia]. cbn [negb].
    assert (drop (Z.to_nat offset) archive = tar_block e ++ e_data e ++ padding e ++ rest) as -> by (unfold offset; by rewrite Ha, Nat2Z.id, drop_app_length).
    rewrite (written_nonzero e He). replace (Z.to_nat TAR_BLOCK_SIZE) with (length (tar_block e)) by done. rewrite take_app_length, (written_check e He) by lia.
    destruct (clean_path_spec (full_name e) (full_nonzero e He) (eo_full _ He)) as (path & Hpath & _). rewrite Hpath. cbn [mbind option_bind].
    change (u64 (offset + TAR_BLOCK_SIZE)) with (u64 (offset + 512)). rewrite (u64_id (offset + 512)) by (unfold is_u64; lia).
    assert (drop (Z.to_nat (offset + 512)) archive = e_data e ++ padding e ++ rest) as ->.
    { rewrite Ha, app_assoc. replace (Z.to_nat (offset + 512)) with (length (pre ++ tar_block e)) by (rewrite length_app, Hb; unfold offset; lia). apply drop_app_length. }
    pose proof (written_add e He path s T (padding e ++ rest) Hpath W R) as H1. cbn [spec_mount]. fold rest.
    destruct (tar_add _ path _ (data_size e) s) as [b s1], (spec_entry e (padding e ++ rest) T) as [b' T1]. destruct H1 as (-> & W1 & R1).
    destruct b'; cbn [negb]; [|by exists s1]. rewrite padded_size by lia. fold padded. destruct (Z.ltb_spec padded (data_size e)); [lia|].
    rewrite (u64_id (offset + 512 + padded)) by (unfold is_u64; lia). destruct (Z.ltb_spec (offset + 512 + padded) (offset + 512)); [lia|].
    destruct (Z.ltb_spec archive_size (offset + 512 + padded)); [lia|]. cbn [orb].
    assert (offset + 512 + padded = Z.of_nat (length (pre ++ tar_block e ++ e_data e ++ padding e))) as Eo by (rewrite length_app in Hd; rewrite !length_app, Hb; unfold offset; lia).
    rewrite Eo. apply IH; try done; [by rewrite Ha, <- !app_assoc|]. rewrite <- Eo. Z.to_euclidean_division_equations; lia.
Qed.

(** * The claims about archives *)

(** C26. Mounting terminates on every archive, however malformed, and leaves a
    well-formed tree; every file it adds, also when it fails half way, lies inside
    the archive. *)
Theorem tar_mount_safe archive archive_size s T :
  wf s -> repr s T -> 0 <= archive_size <= Z.of_nat (length archive) -> archive_size < 2 ^ 64 - 512 ->
  exists b s' T', tar_mount (Some archive) archive_size s = Some (b, s') /\ wf s' /\ repr s' T' /\
    forall p d n, T' !! p = Some (File d n) -> T !! p = Some (File d n) \/
      exists k data, 0 <= k /\ 0 <= n /\ k + n <= archive_size /\ d = Some data /\ data = drop (Z.to_nat k) archive /\ n <= Z.of_nat (length data).
Proof.
  intros W R Hs Hm. unfold tar_mount.
  assert (exists b s' T', tar_loop (tar_fuel archive_size) archive archive_size 0 s = Some (b, s') /\ wf s' /\ repr s' T' /\ files_inside archive archive_size T T') as
    (b & s' & T' & Hl & W' & R' & Hin).
  { apply tar_loop_safe; try done; [lia|]. unfold tar_fuel, TAR_BLOCK_SIZE. rewrite Z.sub_0_r. Z.to_euclidean_division_equations; lia. }
  if_case; [exists false, s, T; split_and!; try done; by left|]. exists b, s', T'. split_and!; try done. intros p d n [?|(k & H0 & Hn & Hk & ->)]%Hin; [by left|].
  right. exists k, (drop (Z.to_nat k) archive). split_and!; try done. rewrite length_drop. lia.
Qed.

(** C28. Reading inverts writing: the archive that the reference writer makes of a
    list of entries, with the checksum of the format in each header (the sum of its
    bytes, the checksum field counted as eight spaces), is mounted as exactly these entries in their order, each file
    with its bytes first in its data, up to the first one the file system refuses. *)
Theorem tar_mount_written es s T :
  Forall entry_ok es -> Z.of_nat (length (tar_archive es)) < 2 ^ 64 - 512 -> wf s -> repr s T ->
  exists s', tar_mount (Some (tar_archive es)) (Z.of_nat (length (tar_archive es))) s = Some ((spec_mount es T).1, s') /\ wf s' /\ repr s' (spec_mount es T).2.
Proof.
  intros HE Hm W R. destruct (written_loop es (tar_fuel (Z.of_nat (length (tar_archive es)))) [] _ _ s T HE eq_refl eq_refl Hm) as (s' & Hl & W' & R'); [|done|done|].
  { unfold tar_fuel, TAR_BLOCK_SIZE. cbn [length app]. rewrite Z.sub_0_r. Z.to_euclidean_division_equations; lia. }
  exists s'. split; [|done]. unfold tar_mount, vfs_root. destruct (root_facts s W) as (-> & _). change (nz 1) with true. cbn [negb]. rewrite orb_false_r.
  assert (512 <= Z.of_nat (length (tar_archive es))) as Hlen.
  { destruct HE as [|e es He _]; cbn [tar_archive]; [rewrite length_replicate; lia|]. rewrite length_app, (block_length e He). lia. }
  unfold TAR_BLOCK_SIZE. by destruct (Z.ltb_spec (Z.of_nat (length (tar_archive es))) 512); [lia|].
Qed.

(** * A concrete archive *)

(** The directory ./etc/, the file ./etc/motd with two bytes, and a link. *)
Definition demo_entries : list TarEntry :=
  [ mkTarEntry [] [46; 47; 101; 116; 99; 47] 53 [];
    mkTarEntry [] [46; 47; 101; 116; 99; 47; 109; 111; 116; 100] 48 [104; 105];
    mkTarEntry [] [120] 50 [] ].

Definition demo_archive : list Z := tar_archive demo_entries.

Definition demo_vfs : Vfs := vfs_init (mkVfs ∅ 0 0).

Definition demo_mounted : option (bool * Vfs) := tar_mount (Some demo_archive) (Z.of_nat (length demo_archive)) demo_vfs.

Lemma demo_entries_ok : Forall entry_ok demo_entries.
Proof.
  repeat (constructor; [split; try (split; [repeat (constructor; [unfold text_byte; lia|]); constructor|cbn; lia]); done|]). constructor.
Qed.

Lemma demo_archive_length : Z.of_nat (length demo_archive) = 3072.
Proof. by vm_compute. Qed.

(** The message of the day, by a path that goes around. *)
Lemma tar_mount_written_witness :
  exists s', demo_mounted = Some (true, s') /\ wf s' /\ repr s' (spec_mount demo_entries tree_empty).2 /\
    (spec_mount demo_entries tree_empty).2 !! [[101; 116; 99]; [109; 111; 116; 100]] = Some (File (Some (drop 1024 demo_archive)) 2) /\
    take 2 (drop 1024 demo_archive) = [104; 105].
Proof.
  destruct (init_spec (mkVfs ∅ 0 0)) as [W R].
  destruct (tar_mount_written demo_entries demo_vfs tree_empty demo_entries_ok ltac:(fold demo_archive; rewrite demo_archive_length; done) W R) as (s' & H & W' & R').
  exists s'. assert ((spec_mount demo_entries tree_empty).1 = true) as Hb by (by vm_compute). rewrite Hb in H.
  split; [exact H|]. split; [exact W'|]. split; [exact R'|]. split; by vm_compute.
Defined.

Lemma tar_mount_safe_witness :
  exists s' T', demo_mounted = Some (true, s') /\ repr s' T' /\
    forall p d n, T' !! p = Some (File d n) -> exists k, d = Some (drop (Z.to_nat k) demo_archive) /\ k + n <= 3072.
Proof.
  destruct (init_spec (mkVfs ∅ 0 0)) as [W R].
  assert (0 <= 3072 <= Z.of_nat (length demo_archive)) as Hs by (rewrite demo_archive_length; lia).
  destruct (tar_mount_safe demo_archive 3072 demo_vfs tree_empty W R Hs ltac:(lia)) as (b & s' & T' & H & _ & R' & Hin).
  exists s', T'. assert (fst <$> demo_mounted = Some true) as Hb by (by vm_compute).
  assert (demo_mounted = Some (b, s')) as E by (unfold demo_mounted; rewrite demo_archive_length; exact H). rewrite E in Hb |- *. injection Hb as ->.
  split; [done|]. split; [exact R'|]. intros p d n [Ho|(k & data & _ & _ & Hk & -> & -> & _)]%Hin.
  - unfold tree_empty in Ho. apply lookup_singleton_Some in Ho as [_ Ho]. discriminate Ho.
  - exists k. split; [reflexivity|exact Hk].
Defined.

(** The node of a file gets the path "/etc/motd", which leads back to it from
    everywhere. *)
Definition motd : list Z := [47; 101; 116; 99; 47; 109; 111; 116; 100].

Definition motd_call : list VfsCall := [AddFile motd (Some [104; 105]) 2].

Lemma get_path_resolves_witness :
  vfs_get_path (run vfs_step motd_call demo_vfs).2 3 256 = Some motd /\ vfs_get_path (run vfs_step motd_call demo_vfs).2 3 9 = None /\
  vfs_resolve (run vfs_step motd_call demo_vfs).2 2 motd = 3.
Proof.
  assert (vfs_get_path (run vfs_step motd_call demo_vfs).2 3 256 = Some motd) as Hg by (vm_compute; reflexivity).
  assert (vfs_get_path (run vfs_step motd_call demo_vfs).2 3 9 = None) as Hg' by (vm_compute; reflexivity).
  assert (f_node_count (run vfs_step motd_call demo_vfs).2 = 3) as Hn by (vm_compute; reflexivity).
  destruct (init_spec (mkVfs ∅ 0 0)) as [W R]. pose proof (run_spec motd_call demo_vfs tree_empty W R) as H.
  set (r := run vfs_step motd_call demo_vfs) in *. set (r' := run spec_step motd_call tree_empty) in *. clearbody r r'.
  destruct r as [bs s], r' as [bs' T]. cbn [snd] in *. destruct H as (_ & W' & R').
  destruct (get_path_resolves s T 3 2 256 W' R' ltac:(unfold live; lia) ltac:(lia)) as (text & _ & Ht & Hr).
  split; [exact Hg|]. split; [exact Hg'|]. rewrite Ht in Hg. destruct (Z.of_nat (length text) <? 256); [|discriminate Hg]. injection Hg as Hg. rewrite Hg in Hr. exact Hr.
Defined.
