(* ===== verification/UserMemory.v ===== *)
(** User stacks and reads of user memory: [kernel/user_stack.c] and
    [kernel/user_memory.c].

    [y_data] holds the bytes of the page frames that are not page tables; a
    pointer into the direct map is the frame it addresses. *)

From S2P Require Import Prelude Pmm ObjectStorage Kernel Objects Vmm.
From S2P Require Import Space.

Open Scope jcos_scope.

(** * User stacks *)

Definition USER_STACK_INITIAL_BASE : Z := ADDRESS_SPACE_USER_BASE + 0x100000.

Definition stack_base_valid (stack_base : Z) : bool :=
  if nz (Z.land stack_base (VM_PAGE_SIZE - 1)) then false else
  if stack_base <? ADDRESS_SPACE_USER_BASE + VM_PAGE_SIZE then false else
  if stack_base >? ADDRESS_SPACE_USER_LIMIT - 2 * VM_PAGE_SIZE then false else true.

Definition page_absent (s : System) (space address : Z) : bool :=
  nz space && (if address_space_query_page s space address then false else true).

Definition user_stack_initial_reservation_conflicts (page_first page_end : Z) : bool :=
  if nz (Z.land page_first (VM_PAGE_SIZE - 1)) || nz (Z.land page_end (VM_PAGE_SIZE - 1)) || (page_first >=? page_end) then true else
  let reserved_first := USER_STACK_INITIAL_BASE - VM_PAGE_SIZE in
  let reserved_end := USER_STACK_INITIAL_BASE + 2 * VM_PAGE_SIZE in
  (page_first <? reserved_end) && (reserved_first <? page_end).

Definition user_stack_slot_available (s : System) (space stack_base : Z) : bool :=
  if !nz space || a_kernel (spc (y_kernel s) space) || !stack_base_valid stack_base then false else
  page_absent s space (stack_base - VM_PAGE_SIZE) && page_absent s space stack_base && page_absent s space (stack_base + VM_PAGE_SIZE).

Definition user_stack_mapping_valid (s : System) (space stack_base frame : Z) : bool :=
  if !nz space || a_kernel (spc (y_kernel s) space) || (frame =? FRAME_INVALID) || !stack_base_valid stack_base then false else
  if !page_absent s space (stack_base - VM_PAGE_SIZE) || !page_absent s space (stack_base + VM_PAGE_SIZE) then false else
  match address_space_query_page s space stack_base with
  | None => false
  | Some (mapped, flags) =>
    if mapped != frame then false else has flags VM_USER && has flags VM_WRITE && !has flags VM_EXEC
  end.

Definition user_stack_map_page (space stack_base frame : Z) (s : System) : bool * System :=
  if (frame =? FRAME_INVALID) || !user_stack_slot_available s space stack_base then (false, s) else
  let '(mapped, s) := address_space_map_page space stack_base frame VM_WRITE s in
  if !mapped then (false, s) else
  if user_stack_mapping_valid s space stack_base frame then (true, s) else
  let '(_, s) := address_space_unmap_page space stack_base s in (false, s).

(** * Reads of user memory *)

(** The bytes of a frame through the direct map. *)
Definition frame_bytes (s : System) (frame : Z) : list Z := default [] (y_data s !! frame).

Definition direct (frame : Z) : bool := nz (phys_to_virt (frame_to_phys frame)).

(** [value & ~(VM_PAGE_SIZE - 1)] *)
Definition page_down (value : Z) : Z := Z.land value (u64 (Z.lnot (VM_PAGE_SIZE - 1))).

(** The loop of [user_memory_read]; the result has the bytes stored so far. Every
    turn reads at least one byte. *)
Fixpoint read_loop (turns : nat) (s : System) (space address remaining : Z) : bool * list Z :=
  if !nz remaining then (true, []) else
  match turns with
  | O => (false, [])
  | S turns =>
    let page := page_down address in
    let offset := address - page in
    match address_space_query_page s space page with
    | None => (false, [])
    | Some (frame, flags) =>
      if (frame =? FRAME_INVALID) || !has flags VM_USER then (false, []) else
      if !direct frame then (false, []) else
      let chunk := VM_PAGE_SIZE - offset in
      let chunk := if chunk >? remaining then remaining else chunk in
      let '(ok, out) := read_loop turns s space (u64 (address + chunk)) (remaining - chunk) in
      (ok, take (Z.to_nat chunk) (drop (Z.to_nat offset) (frame_bytes s frame)) ++ out)
    end
  end.

(** The second result is what was stored at [destination], which is not null. *)
Definition user_memory_read (s : System) (process user_address size : Z) : bool * list Z :=
  if !nz process || p_kernel (prc (y_kernel s) process) || !nz size || (user_address <? ADDRESS_SPACE_USER_BASE)
     || (user_address >=? ADDRESS_SPACE_USER_LIMIT) || (size >? ADDRESS_SPACE_USER_LIMIT - user_address) then (false, []) else
  let space := p_address_space (prc (y_kernel s) process) in
  if !nz space || a_kernel (spc (y_kernel s) space) then (false, []) else
  read_loop (Z.to_nat size) s space user_address size.
