(* ===== verification/UserElf.v ===== *)
(** Loading of static executables: [kernel/user_elf.c].

    The state of the loader is the system, the ledgers [UserElfImage] at their
    addresses, and the one-shot diagnostics. A file is the bytes its node points
    to. Both entry points run with interrupts excluded. *)

From S2P Require Import Prelude Pmm ObjectStorage Kernel Objects Thread.
From S2P Require Import Vmm Space Vfs UserMemory.

Open Scope jcos_scope.

(** * Data *)

Definition ELF64_CLASS_64 : Z := 2.

Definition ELF64_DATA_LITTLE : Z := 1.

Definition ELF64_VERSION : Z := 1.

Definition ELF64_TYPE_EXEC : Z := 2.

Definition ELF64_MACHINE_X86_64 : Z := 62.

Definition ELF64_PT_LOAD : Z := 1.

Definition ELF64_PT_DYNAMIC : Z := 2.

Definition ELF64_PT_INTERP : Z := 3.

Definition ELF64_PT_TLS : Z := 7.

Definition ELF64_PF_X : Z := 1.

Definition ELF64_PF_W : Z := 2.

Definition ELF64_PF_R : Z := 4.

Definition ELF64_MAX_PHDRS : Z := 16.

Definition USER_ELF_MAX_LOAD_PAGES : Z := 64.

(** The content of a file; a null [data] has none. *)
Definition bytes (file : VfsNode) : list Z := default [] (n_data file).

Record Elf64Header := mkElf64Header {
  h_ident : list Z;
  h_type : Z;
  h_machine : Z;
  h_version : Z;
  h_entry : Z;
  h_program_header_offset : Z;
  h_section_header_offset : Z;
  h_flags : Z;
  h_header_size : Z;
  h_program_header_size : Z;
  h_program_header_count : Z;
  h_section_header_size : Z;
  h_section_header_count : Z;
  h_section_name_index : Z }.

Record Elf64ProgramHeader := mkElf64ProgramHeader {
  ph_type : Z;
  ph_flags : Z;
  ph_offset : Z;
  ph_virtual_address : Z;
  ph_physical_address : Z;
  ph_file_size : Z;
  ph_memory_size : Z;
  ph_alignment : Z }.

Definition byte_at (data : list Z) (i : Z) : Z := default 0 (data !! Z.to_nat i).

(** A little-endian integer of [n] bytes. *)
Fixpoint le (data : list Z) (offset : Z) (n : nat) : Z :=
  match n with
  | O => 0
  | S n => byte_at data offset + 256 * le data (offset + 1) n
  end.

(** The packed structures read from memory. *)
Definition read_header (d : list Z) : Elf64Header :=
  mkElf64Header (take 16 d) (le d 16 2) (le d 18 2) (le d 20 4) (le d 24 8) (le d 32 8) (le d 40 8) (le d 48 4)
    (le d 52 2) (le d 54 2) (le d 56 2) (le d 58 2) (le d 60 2) (le d 62 2).

Definition read_program_header (d : list Z) (o : Z) : Elf64ProgramHeader :=
  mkElf64ProgramHeader (le d o 4) (le d (o + 4) 4) (le d (o + 8) 8) (le d (o + 16) 8) (le d (o + 24) 8)
    (le d (o + 32) 8) (le d (o + 40) 8) (le d (o + 48) 8).

Definition SIZEOF_HEADER : Z := 64.

Definition SIZEOF_PROGRAM_HEADER : Z := 56.

Record UserElfPage := mkUserElfPage { ep_virtual_address : Z; ep_frame : Z; ep_mapped : bool }.

#[export] Instance UserElfPage_eq_dec : EqDecision UserElfPage.
Proof. solve_decision. Defined.

#[export] Instance rebuild_UserElfPage : Rebuild UserElfPage :=
  fun r => mkUserElfPage (ep_virtual_address r) (ep_frame r) (ep_mapped r).

Definition elf_page_zero : UserElfPage := mkUserElfPage 0 0 false.

Record UserElfImage := mkUserElfImage {
  i_entry : Z;
  i_pages : list UserElfPage;
  i_page_count : Z;
  i_loaded : bool;
  i_cleanup_pending : bool;
  i_owner : Z;
  i_owner_process_id : Z;
  i_owner_space_id : Z }.

#[export] Instance rebuild_UserElfImage : Rebuild UserElfImage :=
  fun r => mkUserElfImage (i_entry r) (i_pages r) (i_page_count r) (i_loaded r) (i_cleanup_pending r) (i_owner r)
    (i_owner_process_id r) (i_owner_space_id r).

Definition image_zero : UserElfImage :=
  mkUserElfImage 0 (replicate (Z.to_nat USER_ELF_MAX_LOAD_PAGES) elf_page_zero) 0 false false 0 0 0.

Inductive UserElfTestFault := USER_ELF_TEST_ALLOC | USER_ELF_TEST_MAP | USER_ELF_TEST_UNMAP | USER_ELF_TEST_FREE.

#[export] Instance UserElfTestFault_eq_dec : EqDecision UserElfTestFault.
Proof. solve_decision. Defined.

Record ElfTestFault := mkElfTestFault { ef_image : Z; ef_address : Z; ef_armed : bool }.

Definition elf_fault_zero : ElfTestFault := mkElfTestFault 0 0 false.

Record Loader := mkLoader {
  l_system : System;
  l_images : gmap Z UserElfImage;
  l_faults : UserElfTestFault -> ElfTestFault }.

#[export] Instance rebuild_Loader : Rebuild Loader := fun r => mkLoader (l_system r) (l_images r) (l_faults r).

Definition img (s : Loader) (image : Z) : UserElfImage := default image_zero (l_images s !! image).

Definition set_img (image : Z) (f : UserElfImage -> UserElfImage) (s : Loader) : Loader :=
  s <| l_images := <[image := f (img s image)]> (l_images s) |>.

(** [image->pages[i]] *)
Definition page_at (x : UserElfImage) (i : Z) : UserElfPage := default elf_page_zero (i_pages x !! Z.to_nat i).

Definition set_page (image i : Z) (p : UserElfPage) : Loader -> Loader :=
  set_img image (fun x => x <| i_pages := <[Z.to_nat i := p]> (i_pages x) |>).

(** A call of the system below. *)
Definition sys_call {A} (op : System -> A * System) (s : Loader) : A * Loader :=
  let '(r, y) := op (l_system s) in (r, s <| l_system := y |>).

Definition kernel (s : Loader) : Kernel := y_kernel (l_system s).

Definition set_kernel (f : Kernel -> Kernel) (s : Loader) : Loader :=
  s <| l_system := (l_system s) <| y_kernel := f (kernel s) |> |>.

(** * Helpers *)

Definition page_up (value : Z) : option Z :=
  if value >? U64_MAX - (VM_PAGE_SIZE - 1) then None else
  Some (Z.land (value + VM_PAGE_SIZE - 1) (u64 (Z.lnot (VM_PAGE_SIZE - 1)))).

Definition program_header (file : VfsNode) (header : Elf64Header) (index : Z) : option Elf64ProgramHeader :=
  if index >=? h_program_header_count header then None else
  let offset := u64 (h_program_header_offset header + index * SIZEOF_PROGRAM_HEADER) in
  if offset >? n_size file then None else
  if SIZEOF_PROGRAM_HEADER >? n_size file - offset then None else
  Some (read_program_header (bytes file) offset).

Definition image_find_frame (x : UserElfImage) (virtual_address : Z) : Z :=
  match List.find (fun i => ep_virtual_address (page_at x i) =? virtual_address) (seqZ 0 (i_page_count x)) with
  | Some i => ep_frame (page_at x i)
  | None => FRAME_INVALID
  end.

Definition user_elf_needs_cleanup (s : Loader) (image : Z) : bool :=
  let x := img s image in
  nz image && (nz (i_owner x) || nz (i_owner_process_id x) || nz (i_owner_space_id x) || nz (i_page_count x)
               || i_loaded x || i_cleanup_pending x || nz (i_entry x)).

(** * Diagnostics *)

Definition set_elf_fault (fault : UserElfTestFault) (x : ElfTestFault) (s : Loader) : Loader :=
  s <| l_faults := fun f => if decide (f = fault) then x else l_faults s f |>.

Definition user_elf_test_fail_once (image : Z) (fault : UserElfTestFault) (address : Z) (s : Loader) : bool * Loader :=
  if !nz image || (address <? ADDRESS_SPACE_USER_BASE) || (address >=? ADDRESS_SPACE_USER_LIMIT)
     || nz (Z.land address (VM_PAGE_SIZE - 1)) then (false, s) else
  if !ef_armed (l_faults s fault) then (true, set_elf_fault fault (mkElfTestFault image address true) s) else (false, s).

Definition user_elf_test_faults_armed (s : Loader) : Z :=
  foldl (fun mask '(i, fault) => if ef_armed (l_faults s fault) then Z.lor mask (Z.shiftl 1 i) else mask) 0
    [(0, USER_ELF_TEST_ALLOC); (1, USER_ELF_TEST_MAP); (2, USER_ELF_TEST_UNMAP); (3, USER_ELF_TEST_FREE)].

Definition user_elf_test_clear_faults (s : Loader) : Loader := s <| l_faults := fun _ => elf_fault_zero |>.

Definition fail_operation (image : Z) (fault : UserElfTestFault) (address : Z) (s : Loader) : bool * Loader :=
  let slot := l_faults s fault in
  if !ef_armed slot || (ef_image slot != image) || (ef_address slot != address) then (false, s) else
  (true, set_elf_fault fault elf_fault_zero s).

(** * Ownership *)

Definition process_available (s : Loader) (process : Z) : option Z :=
  let p := prc (kernel s) process in
  if !nz process || !p_initialized p || !nz (p_id p) || p_kernel p || !p_owns_address_space p
     || (p_address_space p != space_of process) then None else
  let space := process_address_space (kernel s) process in
  let a := spc (kernel s) space in
  if !nz space || a_kernel a || !nz (a_id a) || !nz (address_space_cr3 (kernel s) space) then None else
  if page_down (c_cr3 (v_cpu (y_vmm (l_system s)))) =? address_space_cr3 (kernel s) space then None else
  Some space.

Fixpoint unpublished_walk (k : Kernel) (process : Z) (count : nat) (thread previous : Z) : bool :=
  match count with
  | O => !nz thread && (previous =? p_thread_tail (prc k process))
  | S count =>
    let t := thr k thread in
    if !nz thread || !nz (t_id t) || (t_process t != process) || (t_process_prev t != previous)
       || !bool_decide (t_state t = THREAD_STATE_READY) || t_on_run_queue t || nz (t_run_next t)
       || t_interrupt_context_ready t || nz (t_interrupt_rsp t) || thread_wait_active k thread then false else
    unpublished_walk k process count (t_process_next t) thread
  end.

Definition threads_unpublished (k : Kernel) (process : Z) : bool :=
  unpublished_walk k process (Z.to_nat (p_thread_count (prc k process))) (p_thread_head (prc k process)) 0.

Definition image_owner_matches (s : Loader) (process space image : Z) : bool :=
  let x := img s image in
  (p_elf_image (prc (kernel s) process) =? image) && (i_owner x =? process)
  && (i_owner_process_id x =? p_id (prc (kernel s) process)) && (i_owner_space_id x =? a_id (spc (kernel s) space))
  && (i_page_count x <=? USER_ELF_MAX_LOAD_PAGES).

(** * Releasing pages *)

(** The unmapping of one page of the ledger. *)
Definition unmap_ledger_page (space image i : Z) (s : Loader) : bool * Loader :=
  let page := page_at (img s image) i in
  if !ep_mapped page then (true, s) else
  match address_space_query_page (l_system s) space (ep_virtual_address page) with
  | None => (false, s)
  | Some (current, _) =>
    if current != ep_frame page then (false, s) else
    let '(fault, s) := fail_operation image USER_ELF_TEST_UNMAP (ep_virtual_address page) s in
    if fault then (false, s) else
    match sys_call (address_space_unmap_page space (ep_virtual_address page)) s with
    | (None, s) => (false, s)
    | (Some old, s) => (old =? ep_frame page, set_page image i (page <| ep_mapped := false |>) s)
    end
  end.

(** The loop of [release_pages]; [count] is [image->page_count]. *)
Fixpoint release_loop (space image : Z) (count : nat) (s : Loader) : bool * Loader :=
  match count with
  | O => (true, s)
  | S below =>
    let i := Z.of_nat below in
    let page := page_at (img s image) i in
    if ep_frame page =? FRAME_INVALID then (false, s) else
    let '(unmapped, s) := unmap_ledger_page space image i s in
    if !unmapped then (false, s) else
    let '(fault, s) := fail_operation image USER_ELF_TEST_FREE (ep_virtual_address page) s in
    if fault then (false, s) else
    let '(freed, s) := sys_call (vmm_call (vmm_frame_free (ep_frame page))) s in
    if !freed then (false, s) else
    let s := set_page image i elf_page_zero s in
    let s := set_img image (fun x => x <| i_page_count := i |>) s in
    release_loop space image below s
  end.

Definition release_pages (process space image : Z) (s : Loader) : bool * Loader :=
  if !image_owner_matches s process space image then (false, s) else
  let s := set_img image (fun x => x <| i_entry := 0 |> <| i_loaded := false |> <| i_cleanup_pending := true |>) s in
  let '(released, s) := release_loop space image (Z.to_nat (i_page_count (img s image))) s in
  if !released then (false, s) else
  let s := set_kernel (set_prc process (fun p => p <| p_elf_image := 0 |>)) s in
  (true, set_img image (fun _ => image_zero) s).

(** * Validation *)

Definition elf_header_valid (file : VfsNode) (header : Elf64Header) : bool :=
  let ident i := byte_at (h_ident header) i in
  if (ident 0 != 0x7F) || (ident 1 != 0x45) || (ident 2 != 0x4C) || (ident 3 != 0x46) then false else
  if ident 4 != ELF64_CLASS_64 then false else
  if ident 5 != ELF64_DATA_LITTLE then false else
  if ident 6 != ELF64_VERSION then false else
  if h_type header != ELF64_TYPE_EXEC then false else
  if h_machine header != ELF64_MACHINE_X86_64 then false else
  if h_version header != ELF64_VERSION then false else
  if h_flags header != 0 then false else
  if h_header_size header != SIZEOF_HEADER then false else
  if h_program_header_size header != SIZEOF_PROGRAM_HEADER then false else
  if !nz (h_program_header_count header) || (h_program_header_count header >? ELF64_MAX_PHDRS) then false else
  if h_program_header_offset header >? n_size file then false else
  let table_size := h_program_header_count header * SIZEOF_PROGRAM_HEADER in
  if table_size >? n_size file - h_program_header_offset header then false else
  if (h_entry header <? ADDRESS_SPACE_USER_BASE) || (h_entry header >=? ADDRESS_SPACE_USER_LIMIT) then false else true.

Definition load_segment_page_range (segment : Elf64ProgramHeader) : option (Z * Z) :=
  if !nz (ph_memory_size segment) then None else
  if (ph_virtual_address segment <? ADDRESS_SPACE_USER_BASE) || (ph_virtual_address segment >=? ADDRESS_SPACE_USER_LIMIT) then None else
  if ph_memory_size segment >? ADDRESS_SPACE_USER_LIMIT - ph_virtual_address segment then None else
  let segment_end := ph_virtual_address segment + ph_memory_size segment in
  let page_first := page_down (ph_virtual_address segment) in
  page_end ← page_up segment_end;
  if (page_first <? ADDRESS_SPACE_USER_BASE) || (page_end >? ADDRESS_SPACE_USER_LIMIT) || (page_end <=? page_first) then None else
  Some (page_first, page_end).

(** The addresses of the pages in a range. *)
Definition pages_in (first last : Z) : list Z :=
  (fun i => first + i * VM_PAGE_SIZE) <$> seqZ 0 ((last - first) / VM_PAGE_SIZE).

(** The locals of [validate_segments] across its loop. *)
Record Validation := mkValidation { vs_loads : list (Z * Z); vs_pages : Z; vs_entry : bool }.

(** The body of the loop for a segment with memory. *)
Definition validate_load (s : System) (space : Z) (file : VfsNode) (header : Elf64Header) (segment : Elf64ProgramHeader)
    (st : Validation) : option Validation :=
  if ph_offset segment >? n_size file then None else
  if ph_file_size segment >? n_size file - ph_offset segment then None else
  if nz (Z.land (ph_flags segment) (u32 (Z.lnot (Z.lor (Z.lor ELF64_PF_R ELF64_PF_W) ELF64_PF_X)))) then None else
  if has (ph_flags segment) ELF64_PF_W && has (ph_flags segment) ELF64_PF_X then None else
  if (ph_alignment segment >? 1) &&
     (nz (Z.land (ph_alignment segment) (ph_alignment segment - 1)) ||
      (ph_virtual_address segment mod ph_alignment segment != ph_offset segment mod ph_alignment segment)) then None else
  '(page_first, page_end) ← load_segment_page_range segment;
  if user_stack_initial_reservation_conflicts page_first page_end then None else
  if List.existsb (fun '(first, last) => (page_first <? last) && (first <? page_end)) (vs_loads st) then None else
  if Z.of_nat (length (vs_loads st)) >=? ELF64_MAX_PHDRS then None else
  let pages := (page_end - page_first) / VM_PAGE_SIZE in
  if pages >? USER_ELF_MAX_LOAD_PAGES then None else
  if vs_pages st >? u32 (USER_ELF_MAX_LOAD_PAGES - pages) then None else
  if List.existsb (fun address => if address_space_query_page s space address then true else false) (pages_in page_first page_end) then None else
  let entered := has (ph_flags segment) ELF64_PF_X && nz (ph_file_size segment)
    && (h_entry header >=? ph_virtual_address segment) && (h_entry header <? u64 (ph_virtual_address segment + ph_file_size segment)) in
  Some (mkValidation (vs_loads st ++ [(page_first, page_end)]) (vs_pages st + pages) (vs_entry st || entered)).

Definition validate_segment (s : System) (space : Z) (file : VfsNode) (header : Elf64Header) (st : Validation) (i : Z) : option Validation :=
  segment ← program_header file header i;
  if (ph_type segment =? ELF64_PT_DYNAMIC) || (ph_type segment =? ELF64_PT_INTERP) || (ph_type segment =? ELF64_PT_TLS) then None else
  if ph_type segment != ELF64_PT_LOAD then Some st else
  if ph_file_size segment >? ph_memory_size segment then None else
  if !nz (ph_memory_size segment) then Some st else
  validate_load s space file header segment st.

(** The result is the number of pages the image needs. *)
Definition validate_segments (s : System) (space : Z) (file : VfsNode) (header : Elf64Header) : option Z :=
  st ← foldl (fun st i => st ← st; validate_segment s space file header st i) (Some (mkValidation [] 0 false))
         (seqZ 0 (h_program_header_count header));
  if (match vs_loads st with [] => true | _ => false end) || !nz (vs_pages st) || !vs_entry st then None else Some (vs_pages st).

(** * Mapping *)

(** A loop whose body may end it with the result false. *)
Fixpoint each {A} (body : A -> Loader -> bool * Loader) (l : list A) (s : Loader) : bool * Loader :=
  match l with
  | [] => (true, s)
  | x :: l => match body x s with (true, s) => each body l s | (false, s) => (false, s) end
  end.

Definition set_data (frame : Z) (content : list Z) (s : Loader) : Loader :=
  s <| l_system := (l_system s) <| y_data := <[frame := content]> (y_data (l_system s)) |> |>.

(** One page of a segment, first half: a frame is taken, recorded in the ledger
    before anything else can fail, and zeroed. *)
Definition claim_segment_page (image virtual_address : Z) (s : Loader) : option Z * Loader :=
  if i_page_count (img s image) >=? USER_ELF_MAX_LOAD_PAGES then (None, s) else
  let '(fault, s) := fail_operation image USER_ELF_TEST_ALLOC virtual_address s in
  if fault then (None, s) else
  let '(frame, s) := sys_call (vmm_call vmm_frame_alloc) s in
  if frame =? FRAME_INVALID then (None, s) else
  let i := i_page_count (img s image) in
  let s := set_img image (fun x => x <| i_page_count := i + 1 |>) s in
  let s := set_page image i (mkUserElfPage virtual_address frame false) s in
  if !direct frame then (None, s) else
  (Some frame, set_data frame (replicate (Z.to_nat VM_PAGE_SIZE) 0) s).

(** Second half: the frame is mapped. *)
Definition map_segment_page (space image flags virtual_address : Z) (s : Loader) : bool * Loader :=
  if address_space_query_page (l_system s) space virtual_address then (false, s) else
  match claim_segment_page image virtual_address s with
  | (None, s) => (false, s)
  | (Some frame, s) =>
    let '(fault, s) := fail_operation image USER_ELF_TEST_MAP virtual_address s in
    if fault then (false, s) else
    let '(mapped, s) := sys_call (address_space_map_page space virtual_address frame flags) s in
    if !mapped then (false, s) else
    (true, set_page image (i_page_count (img s image) - 1) (mkUserElfPage virtual_address frame true) s)
  end.

(** [k_memcpy(direct + offset, content, length)] *)
Definition overwrite (offset : Z) (content old : list Z) : list Z :=
  take (Z.to_nat offset) old ++ content ++ drop (Z.to_nat offset + length content) old.

(** The copy of the file part of a segment; every turn copies at least one byte. *)
Fixpoint copy_loop (turns : nat) (file : VfsNode) (segment : Elf64ProgramHeader) (image copied : Z) (s : Loader) : bool * Loader :=
  if copied >=? ph_file_size segment then (true, s) else
  match turns with
  | O => (false, s)
  | S turns =>
    let destination := u64 (ph_virtual_address segment + copied) in
    let page_address := page_down destination in
    let page_offset := destination - page_address in
    let remaining := ph_file_size segment - copied in
    let amount := VM_PAGE_SIZE - page_offset in
    let amount := if amount >? remaining then remaining else amount in
    let frame := image_find_frame (img s image) page_address in
    if frame =? FRAME_INVALID then (false, s) else
    if !direct frame then (false, s) else
    let content := take (Z.to_nat amount) (drop (Z.to_nat (ph_offset segment + copied)) (bytes file)) in
    let s := set_data frame (overwrite page_offset content (frame_bytes (l_system s) frame)) s in
    copy_loop turns file segment image (copied + amount) s
  end.

Definition segment_flags (segment : Elf64ProgramHeader) : Z :=
  let flags := 0 in
  let flags := if has (ph_flags segment) ELF64_PF_W then Z.lor flags VM_WRITE else flags in
  if has (ph_flags segment) ELF64_PF_X then Z.lor flags VM_EXEC else flags.

Definition map_segment (space : Z) (file : VfsNode) (segment : Elf64ProgramHeader) (image : Z) (s : Loader) : bool * Loader :=
  if !nz (ph_memory_size segment) then (true, s) else
  match load_segment_page_range segment with
  | None => (false, s)
  | Some (page_first, page_end) =>
    let '(mapped, s) := each (map_segment_page space image (segment_flags segment)) (pages_in page_first page_end) s in
    if !mapped then (false, s) else copy_loop (Z.to_nat (ph_file_size segment)) file segment image 0 s
  end.

(** * Loading and unloading *)

Definition load_segment (space : Z) (file : VfsNode) (header : Elf64Header) (image i : Z) (s : Loader) : bool * Loader :=
  match program_header file header i with
  | None => (false, s)
  | Some segment => if ph_type segment != ELF64_PT_LOAD then (true, s) else map_segment space file segment image s
  end.

Definition load_locked (process : Z) (file : VfsNode) (image : Z) (s : Loader) : bool * Loader :=
  if !nz image || user_elf_needs_cleanup s image then (false, s) else
  match process_available s process with
  | None => (false, s)
  | Some space =>
    if nz (p_elf_image (prc (kernel s) process)) || !threads_unpublished (kernel s) process then (false, s) else
    if !bool_decide (n_type file = VFS_FILE) || !(if n_data file then true else false) || (n_size file <? SIZEOF_HEADER) then (false, s) else
    let header := read_header (bytes file) in
    if !elf_header_valid file header then (false, s) else
    match validate_segments (l_system s) space file header with
    | None => (false, s)
    | Some expected_pages =>
      let s := set_img image (fun _ => image_zero <| i_owner := process |> <| i_owner_process_id := p_id (prc (kernel s) process) |>
                                         <| i_owner_space_id := a_id (spc (kernel s) space) |>) s in
      let s := set_kernel (set_prc process (fun p => p <| p_elf_image := image |>)) s in
      let '(loaded, s) := each (load_segment space file header image) (seqZ 0 (h_program_header_count header)) s in
      if !loaded || (i_page_count (img s image) != expected_pages) then (false, (release_pages process space image s).2) else
      (true, set_img image (fun x => x <| i_entry := h_entry header |> <| i_loaded := true |>) s)
    end
  end.

Definition user_elf_load (process : Z) (file : VfsNode) (image : Z) (s : Loader) : bool * Loader := load_locked process file image s.

Definition user_elf_unload (process image : Z) (s : Loader) : bool * Loader :=
  if !nz image then (false, s) else
  match process_available s process with
  | None => (false, s)
  | Some space =>
    let p := prc (kernel s) process in
    if !nz (p_thread_count p) && !nz (p_thread_head p) && !nz (p_thread_tail p) && image_owner_matches s process space image
    then release_pages process space image s else (false, s)
  end.
