(* ===== verification/ElfClaims.v ===== *)
(** The frames and pages an image has claimed.

    [claims a y0 E y] relates the system [y0] before a load to the system [y] in
    which the entries [E] of the ledger own their frames and, where marked, are
    mapped in the space [a]; everything else is as it was. *)

From S2P Require Import Prelude Pmm PmmProofs PmmRefine ObjectStorage Kernel.
From S2P Require Import Objects Frames Vmm VmmWf VmmEdit VmmOps.
From S2P Require Import VmmCalls VmmUnmap VmmLife VmmShare VmmMachine.
From S2P Require Import Space SpaceWf SpaceOps Vfs UserMemory UserElf.

Open Scope jcos_scope.

(** * Claims *)

Local Notation frames E := (ep_frame <$> E).
Local Notation addresses E := (ep_virtual_address <$> E).

Record claims (a : Z) (y0 : System) (E : list UserElfPage) (y : System) : Prop := {
  cl_wf : spaces_wf y;
  cl_space : user_space (spaces y0) a;
  cl_kernel : y_kernel y = y_kernel y0;
  cl_maps : v_maps (y_vmm y) = v_maps (y_vmm y0);
  cl_modes : v_nx_enabled (y_vmm y) = v_nx_enabled (y_vmm y0) /\ v_use_phys_map (y_vmm y) = v_use_phys_map (y_vmm y0) /\
    profile_supported (y_vmm y) = profile_supported (y_vmm y0) /\ c_cr3 (v_cpu (y_vmm y)) = c_cr3 (v_cpu (y_vmm y0));
  cl_active : forall m, map_active (y_vmm y) m = map_active (y_vmm y0) m;
  cl_owned : forall f, frame_owned (v_pmm (y_vmm y)) f <-> frame_owned (v_pmm (y_vmm y0)) f;
  cl_quiet : no_faults (y_vmm y0) -> no_faults (y_vmm y);
  cl_pool : forall f, pool (y_vmm y0) f <-> pool (y_vmm y) f \/ f ∈ frames E;
  cl_frames : NoDup (frames E);
  cl_held : forall e, e ∈ E -> held (v_pmm (y_vmm y)) (ep_frame e) /\ ~ pool (y_vmm y) (ep_frame e);
  cl_addresses : NoDup (addresses E);
  cl_user : forall e, e ∈ E -> user_virtual_address (ep_virtual_address e) = true /\ page_ok (ep_virtual_address e) = true /\
    address_space_query_page y0 a (ep_virtual_address e) = None;
  cl_mapped : forall e, e ∈ E -> ep_mapped e = true ->
    exists flags, address_space_query_page y a (ep_virtual_address e) = Some (ep_frame e, flags);
  cl_same : forall b va, user_space (spaces y0) b -> user_virtual_address va = true ->
    (b = a -> forall e, e ∈ E -> ep_mapped e = true -> ep_virtual_address e <> va) ->
    address_space_query_page y b va = address_space_query_page y0 b va }.

Lemma claims_start a y : spaces_wf y -> user_space (spaces y) a -> claims a y [] y.
Proof.
  intros W Ha. split; try done; try (intros e He; by apply not_elem_of_nil in He); [|constructor..].
  intros f. split; [by left|]. intros [?|H]; [done|by apply not_elem_of_nil in H].
Qed.

Lemma claims_spaces a y0 E y : claims a y0 E y -> spaces y = spaces y0.
Proof. intros C. unfold spaces. by rewrite (cl_kernel _ _ _ _ C). Qed.

(** The frames of a claim are machine words. *)
Lemma claims_u64 a y0 E y e : claims a y0 E y -> e ∈ E -> is_u64 (ep_frame e).
Proof.
  intros C He. destruct (cl_held _ _ _ _ C e He) as [[Ho _] _]. apply owned_range in Ho; [unfold is_u64; lia|].
  apply (rn_wf _ (sp_running _ (cl_wf _ _ _ _ C))).
Qed.

(** ** Claiming a frame *)

Lemma claims_alloc a y0 E y va :
  claims a y0 E y -> user_virtual_address va = true -> page_ok va = true -> address_space_query_page y0 a va = None -> va ∉ addresses E ->
  let '(f, y') := vmm_call vmm_frame_alloc y in
  y_data y' = y_data y /\ (forall b va, address_space_query_page y' b va = address_space_query_page y b va) /\
  (if decide (f = FRAME_INVALID) then claims a y0 E y' /\ forall n, ~ supply (S n) (y_vmm y)
   else claims a y0 (E ++ [mkUserElfPage va f false]) y' /\ f ∈ free_set (v_pmm (y_vmm y)) /\
        forall n, supply (S n) (y_vmm y) -> supply n (y_vmm y')).
Proof.
  intros C Hu Hok Hq Hva. pose proof C as [W Ha Ek Em Emo Eac Eo Equ Epo Efr Ehe Ead Eus Ema Esa].
  unfold vmm_call, vmm_frame_alloc. pose proof (rn_wf _ (sp_running y W)) as Wv. pose proof (alloc_held (v_pmm (y_vmm y)) (vw_pmm _ Wv)) as H.
  destruct (frame_alloc (v_pmm (y_vmm y))) as [f P]. destruct H as (HP & HF & H). split; [done|]. split; [done|].
  destruct H as [(-> & -> & H0)|(Hf & Hin & Hset & Hheld)].
  - rewrite decide_True by done. split; [|intros n [_ _ S3 _]; rewrite H0, size_empty in S3; lia].
    assert (y <| y_vmm := (y_vmm y) <| v_pmm := v_pmm (y_vmm y) |> |> = y) as -> by (by destruct y as [? [] ? ?]). done.
  - rewrite decide_False by done. set (e := mkUserElfPage va f false). set (v' := (y_vmm y) <| v_pmm := P |>). set (y' := y <| y_vmm := v' |>).
    destruct (frames_step y P W HP (sf_owned _ _ HF)) as [W' Hpool]; [intros g; rewrite Hset; set_solver|]. fold v' y' in W', Hpool.
    assert (pool (y_vmm y) f) as Hpf by (by left).
    assert (forall g, pool v' g <-> pool (y_vmm y) g /\ g <> f) as Hpool'.
    { intros g. rewrite Hpool, Hset, elem_of_difference, elem_of_singleton. unfold pool.
      destruct (decide (g ∈ free_set (v_pmm (y_vmm y)))), (decide (g = f)) as [->|]; tauto. }
    split_and!; [|done|].
    + split; try done.
      * intros g. change (v_pmm (y_vmm y')) with P. by rewrite (sf_owned _ _ HF), Eo.
      * intros Hno. destruct (Equ Hno) as [H1 H2]. split; [by apply (sf_armed _ _ HF)|done].
      * intros g. change (y_vmm y') with v'. rewrite Epo, Hpool', fmap_app, elem_of_app. cbn [fmap list_fmap ep_frame e]. rewrite list_elem_of_singleton.
        destruct (decide (g = f)) as [->|]; tauto.
      * rewrite fmap_app. apply list.NoDup_app. split_and!; [done| |apply NoDup_singleton].
        intros g Hg Hgf. cbn in Hgf. apply list_elem_of_singleton in Hgf as ->. apply list_elem_of_fmap in Hg as (e' & -> & He').
        by destruct (Ehe e' He').
      * change (y_vmm y') with v'. intros e' [He'| ->%list_elem_of_singleton]%elem_of_app; [|split; [done|rewrite Hpool'; cbn; tauto]].
        destruct (Ehe e' He') as [[H1 H2] H3]. change (v_pmm v') with P.
        split; [split; [by apply (sf_owned _ _ HF)|rewrite Hset; set_solver]|rewrite Hpool'; tauto].
      * rewrite fmap_app. apply list.NoDup_app. split_and!; [done| |apply NoDup_singleton].
        intros g Hg Hgv. cbn in Hgv. by apply list_elem_of_singleton in Hgv as ->.
      * by intros e' [He'| ->%list_elem_of_singleton]%elem_of_app; [by apply Eus|].
      * intros e' [He'| ->%list_elem_of_singleton]%elem_of_app Hm; [by apply Ema|done].
      * intros b va' Hb Hu' Hno. apply Esa; try done. intros -> e' He' Hm. apply Hno; try done. apply elem_of_app. by left.
    + intros n [S1 S2 S3 S4]. split; [|done| |].
      * destruct S1 as [H1 H2]. split; [by apply (sf_armed _ _ HF)|done].
      * change (v_pmm (y_vmm y')) with P. rewrite Hset, size_difference, size_singleton by set_solver. lia.
      * intros g Hg. apply S4. change (v_pmm (y_vmm y')) with P in Hg. rewrite Hset in Hg. set_solver.
Qed.

(** ** Mapping and unmapping the last page *)

(** A change of the translation of one claimed page. *)
Lemma claims_pages a y0 E e y y' e' x :
  claims a y0 (E ++ [e]) y -> tables_step y y' -> pages_as y y' a (ep_virtual_address e) x ->
  ep_virtual_address e' = ep_virtual_address e -> ep_frame e' = ep_frame e ->
  (if ep_mapped e' then exists flags, x = Some (ep_frame e, flags) else x = None) -> claims a y0 (E ++ [e']) y'.
Proof.
  intros C [T1 T2 T3 T4 T5 T6 T7 (T8 & T9 & T10 & T12) T11] Hp Eva Efrm Hx. pose proof C as [W Ha Ek Em (Em1 & Em2 & Em3 & Em4) Eac Eo Equ Epo Efr Ehe Ead Eus Ema Esa].
  pose proof (claims_spaces _ _ _ _ C) as Es.
  assert (frames (E ++ [e']) = frames (E ++ [e])) as Ef by (rewrite !fmap_app; cbn; by rewrite Efrm).
  assert (addresses (E ++ [e']) = addresses (E ++ [e])) as Ea by (rewrite !fmap_app; cbn; by rewrite Eva).
  assert (forall d, d ∈ E ++ [e'] -> exists d', d' ∈ E ++ [e] /\ ep_frame d' = ep_frame d /\ ep_virtual_address d' = ep_virtual_address d) as Hd.
  { intros d [Hd| ->%list_elem_of_singleton]%elem_of_app; [exists d; split; [|done]; apply elem_of_app; by left|].
    exists e. split; [|done]. apply elem_of_app. right. by apply list_elem_of_singleton. }
  assert (forall d, d ∈ E -> ep_virtual_address d <> ep_virtual_address e) as Hne.
  { intros d Hd' E1. rewrite fmap_app in Ead. apply list.NoDup_app in Ead as (_ & Hdis & _). apply (Hdis (ep_virtual_address e)).
    - rewrite <- E1. by apply list_elem_of_fmap_2.
    - by left. }
  split; [done|done|congruence|congruence|split_and!; congruence|intros m; by rewrite T11, Eac| | | | | | | | |].
  - intros f. by rewrite (sf_owned _ _ T6), Eo.
  - auto.
  - intros f. by rewrite Epo, T5, Ef.
  - by rewrite Ef.
  - intros d Hin. destruct (Hd d Hin) as (d' & Hd' & <- & _). destruct (Ehe d' Hd') as [[H1 H2] H3].
    assert (~ pool (y_vmm y') (ep_frame d')) as H4 by (by rewrite T5). split; [|done]. split; [by apply (sf_owned _ _ T6)|]. intros Hf. apply H4. by left.
  - by rewrite Ea.
  - intros d Hin. destruct (Hd d Hin) as (d' & Hd' & _ & <-). by apply Eus.
  - intros d [Hd'| ->%list_elem_of_singleton]%elem_of_app Hm.
    + rewrite Hp by (rewrite ?Es; done || apply Eus, elem_of_app; by left). rewrite decide_False by (intros [_ ?]; by apply (Hne d)).
      apply Ema; [apply elem_of_app; by left|done].
    + rewrite Eva, Efrm. rewrite Hm in Hx. rewrite Hp, decide_True by (rewrite ?Es; done || apply Eus, elem_of_app; right; by apply list_elem_of_singleton). done.
  - intros b va Hb Hu Hno. rewrite Hp by (rewrite ?Es; done). case_decide as D.
    + destruct D as [-> ->]. destruct (ep_mapped e') eqn:Hm'; [exfalso; apply (Hno eq_refl e'); [apply elem_of_app; right; by apply list_elem_of_singleton|done|done]|].
      rewrite Hx. symmetry. apply Eus. apply elem_of_app. right. by apply list_elem_of_singleton.
    + apply Esa; try done. intros -> d Hd' Hm. apply elem_of_app in Hd' as [Hd'| ->%list_elem_of_singleton].
      * apply Hno; [done|apply elem_of_app; by left|done].
      * intros <-. by apply D.
Qed.

Lemma claims_map a y0 E va f flags y :
  claims a y0 (E ++ [mkUserElfPage va f false]) y -> is_u64 flags ->
  let '(b, y') := address_space_map_page a va f flags y in
  y_data y' = y_data y /\ claims a y0 (E ++ [mkUserElfPage va f b]) y' /\
  (b = true -> address_space_query_page y' a va = Some (f, Z.lor flags VM_USER)) /\
  (forall b va', user_space (spaces y0) b -> user_virtual_address va' = true -> ~ (b = a /\ va' = va) ->
     address_space_query_page y' b va' = address_space_query_page y b va') /\
  (has flags VM_WRITE && has flags VM_EXEC = false -> profile_supported (y_vmm y) = true ->
   map_page_allowed (y_vmm y) (page_map a) va f (Z.lor flags VM_USER) = true -> supply 3 (y_vmm y) -> b = true) /\
  (b = true -> forall n, supply (3 + n) (y_vmm y) -> supply n (y_vmm y')).
Proof.
  intros C Hfl. set (e := mkUserElfPage va f false) in *. pose proof (claims_spaces _ _ _ _ C) as Es.
  assert (e ∈ E ++ [e]) as He by (apply elem_of_app; right; by apply list_elem_of_singleton).
  destruct (cl_user _ _ _ _ C e He) as (Hu & Hok & Hnone). pose proof (claims_u64 _ _ _ _ e C He) as Hf. pose proof (cl_space _ _ _ _ C) as Ha.
  assert (address_space_query_page y a va = None) as Hq.
  { rewrite (cl_same _ _ _ _ C a va Ha Hu); [done|]. intros _ d Hd Hm <-.
    assert (d = e) as Ede; [|by rewrite Ede in Hm]. pose proof (cl_addresses _ _ _ _ C) as Hnd.
    apply list_elem_of_lookup in Hd as (i & Hi). apply list_elem_of_lookup in He as (j & Hj).
    assert (i = j) as ->; [|congruence]. apply (NoDup_lookup _ i j (ep_virtual_address d) Hnd); [by rewrite list_lookup_fmap, Hi|by rewrite list_lookup_fmap, Hj]. }
  pose proof (space_map_call a va f flags y (cl_wf _ _ _ _ C) (user_u64 va Hu) Hf Hfl) as H. destruct (address_space_map_page a va f flags y) as [b y'].
  rewrite Es in H. destruct H as (T & Hp & Hb & Hs & Hsu).
  assert (claims a y0 (E ++ [mkUserElfPage va f b]) y') as C'.
  { apply (claims_pages a y0 E e y y' _ _ C T Hp); try done. cbn [ep_mapped]. destruct b; [by eexists|done]. }
  split_and!; [apply T|done| | | |done].
  - intros ->. by rewrite Hp, decide_True by (rewrite ?Es; done).
  - intros x va' Hx Hux Hne. rewrite Hp by (rewrite ?Es; done). by rewrite decide_False.
  - intros Hwx Hpr Hal Hsup. by apply Hs.
Qed.

Lemma claims_unmap a y0 E va f y :
  claims a y0 (E ++ [mkUserElfPage va f true]) y ->
  let '(r, y') := address_space_unmap_page a va y in
  y_data y' = y_data y /\
  match r with
  | None => y' = y /\ change_allowed (y_vmm y) (page_map a) va = false
  | Some old => old = f /\ claims a y0 (E ++ [mkUserElfPage va f false]) y'
  end.
Proof.
  intros C. set (e := mkUserElfPage va f true) in *. pose proof (claims_spaces _ _ _ _ C) as Es.
  assert (e ∈ E ++ [e]) as He by (apply elem_of_app; right; by apply list_elem_of_singleton).
  destruct (cl_user _ _ _ _ C e He) as (Hu & Hok & Hnone). pose proof (cl_space _ _ _ _ C) as Ha. destruct (cl_mapped _ _ _ _ C e He eq_refl) as [flags Hq].
  pose proof (space_unmap_call a va y (cl_wf _ _ _ _ C) (user_u64 va Hu)) as H. destruct (address_space_unmap_page a va y) as [r y'].
  rewrite Es in H. destruct H as (T & Hno & Hp & Hr). specialize (Hr Ha). change (ep_virtual_address e) with va in *. rewrite Hu, Hq in Hr. cbn [andb fmap option_fmap option_map fst ep_frame e] in Hr.
  split; [apply T|]. destruct (change_allowed (y_vmm y) (page_map a) va); subst r; [|by split; [apply Hno|]].
  split; [done|]. by apply (claims_pages a y0 E e y y' _ _ C T Hp).
Qed.

(** ** Giving a frame back *)

Lemma claims_free a y0 E va f y :
  claims a y0 (E ++ [mkUserElfPage va f false]) y ->
  let '(b, y') := vmm_call (vmm_frame_free f) y in
  y_data y' = y_data y /\ claims a y0 (E ++ (if (b : bool) then [] else [mkUserElfPage va f false])) y' /\ (no_faults (y_vmm y) -> b = true).
Proof.
  intros C. set (e := mkUserElfPage va f false) in *. assert (e ∈ E ++ [e]) as He by (apply elem_of_app; right; by apply list_elem_of_singleton).
  pose proof C as [W Ha Ek Em Emo Eac Eo Equ Epo Efr Ehe Ead Eus Ema Esa]. destruct (Ehe e He) as [Hh Hnp].
  unfold vmm_call, vmm_frame_free. pose proof (free_held (v_pmm (y_vmm y)) f (vw_pmm _ (rn_wf _ (sp_running y W))) Hh) as H.
  destruct (frame_free f (v_pmm (y_vmm y))) as [b P]. destruct H as (HP & HF & Hset & Hok). split; [done|]. split; [|intros [Hn _]; by apply Hok].
  destruct (frames_step y P W HP (sf_owned _ _ HF)) as [W' Hpool].
  { intros g. rewrite Hset. destruct b; [|by left]. rewrite elem_of_union, elem_of_singleton. intros [?| ->]; [by left|by right]. }
  set (v' := (y_vmm y) <| v_pmm := P |>) in *. set (y' := y <| y_vmm := v' |>) in *.
  assert (forall g, pool v' g <-> pool (y_vmm y) g \/ (b = true /\ g = f)) as Hpool'.
  { intros g. rewrite Hpool, Hset. unfold pool. destruct b; rewrite ?elem_of_union, ?elem_of_singleton;
      destruct (decide (g ∈ free_set (v_pmm (y_vmm y)))); split; intros; destruct_or?; destruct_and?; try tauto; done. }
  assert (no_faults (y_vmm y0) -> no_faults v') as Hquiet.
  { intros Hno. destruct (Equ Hno) as [H1 H2]. split; [by apply (sf_armed _ _ HF)|done]. }
  assert (forall d, d ∈ E ++ (if b then [] else [e]) -> d ∈ E ++ [e]) as Hsub.
  { intros d. rewrite !elem_of_app. intros [?|?]; [by left|right]. by destruct b; [apply not_elem_of_nil in H|]. }
  rewrite fmap_app in Efr, Ead. apply list.NoDup_app in Efr as (Ef1 & Ef2 & _), Ead as (Ea1 & Ea2 & _).
  assert (f ∉ frames E) as Hfn by (intros Hin; apply (Ef2 f Hin); by left).
  split; try done.
  - intros g. change (v_pmm (y_vmm y')) with P. by rewrite (sf_owned _ _ HF), Eo.
  - intros g. change (y_vmm y') with v'. rewrite Epo, Hpool', !fmap_app, !elem_of_app. destruct b; cbn [fmap list_fmap ep_frame e]; rewrite ?list_elem_of_singleton, ?elem_of_nil; naive_solver.
  - rewrite fmap_app. apply list.NoDup_app. split_and!; [done| |destruct b; [constructor|apply NoDup_singleton]].
    intros g Hg Hg'. apply (Ef2 g Hg). by destruct b; [apply not_elem_of_nil in Hg'|].
  - change (y_vmm y') with v'. intros d Hd. destruct (Ehe d (Hsub d Hd)) as [[H1 H2] H3].
    assert (b = true -> ep_frame d <> f) as Hdf.
    { intros ->. rewrite app_nil_r in Hd. intros E1. apply Hfn. rewrite <- E1. by apply list_elem_of_fmap_2. }
    split; [split; [by apply (sf_owned _ _ HF)|]|rewrite Hpool'; tauto].
    change (v_pmm v') with P. rewrite Hset. destruct b; [|done]. rewrite elem_of_union, elem_of_singleton. intros [?|?]; [done|]. by apply Hdf.
  - rewrite fmap_app. apply list.NoDup_app. split_and!; [done| |destruct b; [constructor|apply NoDup_singleton]].
    intros g Hg Hg'. apply (Ea2 g Hg). by destruct b; [apply not_elem_of_nil in Hg'|].
  - intros d Hd. by apply Eus, Hsub.
  - intros d Hd. apply Ema. by apply Hsub.
  - intros x va' Hx Hux Hno. apply Esa; try done. intros -> d Hd Hm. apply elem_of_app in Hd as [Hd| ->%list_elem_of_singleton]; [|done].
    apply Hno; [done|apply elem_of_app; by left|done].
Qed.
