(* ===== verification/ElfRelease.v ===== *)
(** The ledger of an image, and its release page by page. *)

From S2P Require Import Prelude Pmm PmmProofs PmmRefine ObjectStorage Kernel.
From S2P Require Import Objects Frames Vmm VmmWf VmmEdit VmmOps.
From S2P Require Import VmmCalls VmmUnmap VmmLife VmmShare VmmMachine.
From S2P Require Import Space SpaceWf SpaceOps Vfs UserMemory UserElf ElfClaims.

Open Scope jcos_scope.

(** * The ledger *)

(** The ledger of [image] holds the entries [E], which claim what they say. *)
Record ledger (a image : Z) (y0 : System) (E : list UserElfPage) (s : Loader) : Prop := {
  lg_claims : claims a y0 E (l_system s);
  lg_length : length (i_pages (img s image)) = 64%nat;
  lg_count : i_page_count (img s image) = Z.of_nat (length E);
  lg_entries : take (length E) (i_pages (img s image)) = E }.

(** No diagnostic of the loader is armed. *)
Definition elf_quiet (s : Loader) : Prop := forall f, ef_armed (l_faults s f) = false.

Lemma img_set image f s x : img (set_img image f s) x = if decide (x = image) then f (img s image) else img s x.
Proof.
  unfold img at 1, set_img. upd_simpl. destruct (decide (x = image)) as [->|H]; [by rewrite lookup_insert_eq|by rewrite lookup_insert_ne].
Qed.

Lemma img_set_eq image f s : img (set_img image f s) image = f (img s image).
Proof. by rewrite img_set, decide_True. Qed.

Lemma ledger_page a image y0 E e s : ledger a image y0 (E ++ [e]) s -> page_at (img s image) (Z.of_nat (length E)) = e.
Proof.
  intros L. pose proof (lg_entries _ _ _ _ _ L) as H. unfold page_at. rewrite Nat2Z.id.
  assert ((E ++ [e]) !! length E = Some e) as He by (rewrite lookup_app_r, Nat.sub_diag by lia; done).
  rewrite <- H, lookup_take_Some in He. by destruct He as [-> _].
Qed.

Lemma ledger_bound a image y0 E s : ledger a image y0 E s -> (length E <= 64)%nat.
Proof.
  intros L. pose proof (f_equal length (lg_entries _ _ _ _ _ L)) as H. rewrite length_take, (lg_length _ _ _ _ _ L) in H. lia.
Qed.

(** Replacing the last entry, in the array and in what it claims. *)
Lemma ledger_replace a image y0 E e e' s y :
  ledger a image y0 (E ++ [e]) s -> claims a y0 (E ++ [e']) y ->
  ledger a image y0 (E ++ [e']) (set_page image (Z.of_nat (length E)) e' (s <| l_system := y |>)).
Proof.
  intros L C. pose proof (ledger_bound _ _ _ _ _ L) as Hb. destruct L as [_ L2 L3 L4]. rewrite length_app in *. cbn [length] in *.
  unfold set_page. split; [done|rewrite img_set_eq; upd_simpl; by rewrite length_insert|rewrite img_set_eq; upd_simpl; rewrite length_app; exact L3|].
  rewrite img_set_eq. upd_simpl. rewrite Nat2Z.id, length_app. cbn [length].
  change (img (s <| l_system := y |>) image) with (img s image).
  assert (take (length E) (i_pages (img s image)) = E) as H1.
  { apply (f_equal (take (length E))) in L4. rewrite take_take, take_app_length in L4. by rewrite Nat.min_l in L4 by lia. }
  rewrite Nat.add_1_r, (take_S_r _ _ e') by (apply list_lookup_insert_eq; lia). by rewrite take_insert_ge, H1 by lia.
Qed.

(** Dropping the last entry. *)
Lemma ledger_drop a image y0 E e s y :
  ledger a image y0 (E ++ [e]) s -> claims a y0 E y ->
  ledger a image y0 E (set_img image (fun x => x <| i_page_count := Z.of_nat (length E) |>)
                         (set_page image (Z.of_nat (length E)) elf_page_zero (s <| l_system := y |>))).
Proof.
  intros L C. pose proof (ledger_bound _ _ _ _ _ L) as Hb. destruct L as [_ L2 L3 L4]. rewrite length_app in *. cbn [length] in *.
  unfold set_page. split; [done|..]; rewrite !img_set_eq; upd_simpl; change (img (s <| l_system := y |>) image) with (img s image).
  - by rewrite length_insert.
  - done.
  - rewrite Nat2Z.id, take_insert_ge by lia. apply (f_equal (take (length E))) in L4. rewrite take_take, take_app_length in L4.
    by rewrite Nat.min_l in L4 by lia.
Qed.

(** A step of the diagnostics. *)
Lemma fail_call image f va s :
  let '(b, s') := fail_operation image f va s in
  l_system s' = l_system s /\ l_images s' = l_images s /\ (elf_quiet s -> b = false /\ s' = s).
Proof.
  unfold fail_operation. destruct (!ef_armed (l_faults s f) || _ || _) eqn:E; [by split_and!|]. split_and!; try done.
  intros Hq. by rewrite Hq in E.
Qed.

Lemma ledger_same a image y0 E s s' :
  ledger a image y0 E s -> l_system s' = l_system s -> l_images s' = l_images s -> ledger a image y0 E s'.
Proof. intros [L1 L2 L3 L4] E1 E2. unfold img in *. split; unfold img; rewrite ?E1, ?E2; done. Qed.

(** The parts of an image besides its pages. *)
Definition same_image (x x' : UserElfImage) : Prop :=
  i_entry x' = i_entry x /\ i_loaded x' = i_loaded x /\ i_cleanup_pending x' = i_cleanup_pending x /\ i_owner x' = i_owner x /\
  i_owner_process_id x' = i_owner_process_id x /\ i_owner_space_id x' = i_owner_space_id x.

(** What steps on the pages of one image leave alone. *)
Record pages_step (image : Z) (s s' : Loader) : Prop := {
  ps_image : same_image (img s image) (img s' image);
  ps_other : forall x, x <> image -> img s' x = img s x;
  ps_quiet : elf_quiet s -> elf_quiet s' }.

Lemma pages_step_refl image s : pages_step image s s.
Proof. by split. Qed.

Lemma pages_step_trans image s1 s2 s3 : pages_step image s1 s2 -> pages_step image s2 s3 -> pages_step image s1 s3.
Proof.
  intros [(A1 & A2 & A3 & A4 & A5 & A6) A7 A8] [(B1 & B2 & B3 & B4 & B5 & B6) B7 B8]. split; [|intros x Hx; by rewrite B7, A7|auto].
  unfold same_image. split_and!; congruence.
Qed.

Lemma pages_step_set image i e s y : pages_step image s (set_page image i e (s <| l_system := y |>)).
Proof.
  split; [unfold set_page; by rewrite img_set_eq|intros x Hx; unfold set_page; by rewrite img_set, decide_False|done].
Qed.

Lemma pages_step_count image n s : pages_step image s (set_img image (fun x => x <| i_page_count := n |>) s).
Proof. split; [by rewrite img_set_eq|intros x Hx; by rewrite img_set, decide_False|done]. Qed.

Lemma pages_step_same image s s' :
  l_images s' = l_images s -> (elf_quiet s -> elf_quiet s') -> pages_step image s s'.
Proof. intros E Hq. assert (forall x, img s' x = img s x) as Ei by (intros x; unfold img; by rewrite E). split; [by rewrite Ei|intros x _; apply Ei|done]. Qed.

(** * Release *)

(** The pages of the space may be unmapped. *)
Definition releasable (a : Z) (y : System) : Prop :=
  no_faults (y_vmm y) /\
  forall va, user_virtual_address va = true -> page_ok va = true -> change_allowed (y_vmm y) (page_map a) va = true.

Lemma claims_allowed a y0 E y va :
  claims a y0 E y -> change_allowed (y_vmm y) (page_map a) va = change_allowed (y_vmm y0) (page_map a) va.
Proof.
  intros C. unfold change_allowed, map_owns_pml4_index. rewrite (aside_pmap (y_vmm y0) (y_vmm y) _ (cl_maps _ _ _ _ C)), (cl_active _ _ _ _ C).
  by destruct (cl_modes _ _ _ _ C) as (_ & _ & -> & _).
Qed.

Lemma unmap_page_step a image y0 E e s :
  ledger a image y0 (E ++ [e]) s ->
  let '(b, s') := unmap_ledger_page a image (Z.of_nat (length E)) s in
  y_data (l_system s') = y_data (l_system s) /\ pages_step image s s' /\
  (exists m, ledger a image y0 (E ++ [e <| ep_mapped := m |>]) s' /\ (b = true -> m = false)) /\
  (elf_quiet s -> releasable a y0 -> b = true).
Proof.
  intros L. unfold unmap_ledger_page. rewrite (ledger_page _ _ _ _ _ _ L). destruct e as [va f m]. cbn [ep_mapped ep_virtual_address ep_frame].
  assert (ledger a image y0 (E ++ [(mkUserElfPage va f m) <| ep_mapped := m |>]) s) as Lm by exact L.
  destruct m; cbn [negb]; [|by split_and!; [|apply pages_step_refl|exists false|]].
  pose proof (lg_claims _ _ _ _ _ L) as C. assert (mkUserElfPage va f true ∈ E ++ [mkUserElfPage va f true]) as He by (apply elem_of_app; right; by apply list_elem_of_singleton).
  destruct (cl_mapped _ _ _ _ C _ He eq_refl) as [flags Hq]. cbn [ep_virtual_address ep_frame] in Hq. rewrite Hq, Z.eqb_refl. cbn [negb].
  pose proof (fail_call image USER_ELF_TEST_UNMAP va s) as F. destruct (fail_operation image USER_ELF_TEST_UNMAP va s) as [[] s1].
  { destruct F as (F1 & F2 & F3). split_and!; [by rewrite F1| |exists true; split; [by apply (ledger_same _ _ _ _ s)|done]|].
    - apply pages_step_same; [done|]. intros Hx. by destruct (F3 Hx).
    - intros Hx. by destruct (F3 Hx). }
  destruct F as (F1 & F2 & F3). assert (ledger a image y0 (E ++ [mkUserElfPage va f true]) s1) as L1 by (by apply (ledger_same _ _ _ _ s)).
  assert (pages_step image s s1) as St1 by (apply pages_step_same; [done|]; intros Hx; by destruct (F3 Hx) as [_ ->]).
  unfold sys_call. rewrite F1. pose proof (claims_unmap a y0 E va f (l_system s) C) as H.
  destruct (address_space_unmap_page a va (l_system s)) as [[old|] y].
  - destruct H as (Hd & -> & C'). rewrite Z.eqb_refl. split_and!; [done| |exists false; split; [|done]|done].
    + eapply pages_step_trans; [exact St1|]. apply pages_step_set.
    + by apply (ledger_replace a image y0 E _ _ s1 y L1).
  - destruct H as (Hd & -> & Hno). split_and!; [done| |exists true; split; [|done]|].
    + eapply pages_step_trans; [exact St1|]. by apply pages_step_same.
    + by apply (ledger_same _ _ _ _ s _ L).
    + intros _ [_ Hal]. rewrite (claims_allowed _ _ _ _ va C), Hal in Hno; try done; by apply (cl_user _ _ _ _ C _ He).
Qed.

(** Every page the loop reaches is given back; what it does not reach stays. *)
Lemma release_loop_call a image y0 E s :
  ledger a image y0 E s ->
  let '(b, s') := release_loop a image (length E) s in
  y_data (l_system s') = y_data (l_system s) /\ pages_step image s s' /\
  (exists E', ledger a image y0 E' s' /\ (b = true -> E' = [])) /\
  (elf_quiet s -> releasable a y0 -> b = true).
Proof.
  revert s. induction E as [|e E IH] using rev_ind; intros s L; cbn [release_loop length].
  { split_and!; [done|apply pages_step_refl|by exists []|done]. }
  rewrite length_app. replace (length E + length [e])%nat with (S (length E)) by (cbn [length]; lia). cbn [release_loop].
  rewrite (ledger_page _ _ _ _ _ _ L). pose proof (lg_claims _ _ _ _ _ L) as C.
  assert (e ∈ E ++ [e]) as He by (apply elem_of_app; right; by apply list_elem_of_singleton).
  destruct (cl_held _ _ _ _ C e He) as [Hh _].
  destruct (Z.eqb_spec (ep_frame e) FRAME_INVALID) as [Ef|_].
  { exfalso. apply (held_valid _ _ (vw_pmm _ (rn_wf _ (sp_running _ (cl_wf _ _ _ _ C)))) Hh Ef). }
  pose proof (unmap_page_step a image y0 E e s L) as U. destruct (unmap_ledger_page a image (Z.of_nat (length E)) s) as [b1 s1].
  destruct U as (D1 & P1 & (m & L1 & Hm) & Q1). destruct b1; cbn [negb].
  2: { split_and!; [done|done|by eexists|]. intros H1 H2. by specialize (Q1 H1 H2). }
  specialize (Hm eq_refl) as ->. destruct e as [va f m']. cbn [ep_virtual_address ep_frame] in *.
  change ((mkUserElfPage va f m') <| ep_mapped := false |>) with (mkUserElfPage va f false) in L1.
  pose proof (fail_call image USER_ELF_TEST_FREE va s1) as F. destruct (fail_operation image USER_ELF_TEST_FREE va s1) as [b2 s2].
  destruct F as (F1 & F2 & F3). assert (ledger a image y0 (E ++ [mkUserElfPage va f false]) s2) as L2 by (by apply (ledger_same _ _ _ _ s1)).
  assert (pages_step image s s2) as P2.
  { eapply pages_step_trans; [exact P1|]. apply pages_step_same; [done|]. intros Hx. by destruct (F3 Hx) as [_ ->]. }
  assert (y_data (l_system s2) = y_data (l_system s)) as D2 by (by rewrite F1). destruct b2.
  { split_and!; [done|done|by eexists|]. intros H1 H2. by destruct (F3 (ps_quiet _ _ _ P1 H1)). }
  unfold sys_call. pose proof (claims_free a y0 E va f (l_system s2) (lg_claims _ _ _ _ _ L2)) as H.
  destruct (vmm_call (vmm_frame_free f) (l_system s2)) as [b3 y]. destruct H as (D3 & C3 & Q3). destruct b3; cbn [negb].
  2: { split_and!; [by rewrite <- D2, <- D3| | |].
       - eapply pages_step_trans; [exact P2|]. by apply pages_step_same.
       - exists (E ++ [mkUserElfPage va f false]). split; [|done]. destruct L2 as [_ B1 B2 B3]. by split.
       - intros H1 [H2 _]. apply Q3. by apply (cl_quiet _ _ _ _ (lg_claims _ _ _ _ _ L2)). }
  rewrite app_nil_r in C3. pose proof (ledger_drop a image y0 E _ s2 y L2 C3) as L3. set (s3 := set_img _ _ _) in *.
  assert (pages_step image s s3) as P3.
  { eapply pages_step_trans; [exact P2|]. eapply pages_step_trans; [apply pages_step_set|apply pages_step_count]. }
  specialize (IH s3 L3). destruct (release_loop a image (length E) s3) as [b s']. destruct IH as (D4 & P4 & H4 & Q4).
  split_and!; [rewrite D4; change (l_system s3) with y; by rewrite D3|by eapply pages_step_trans|done|]. intros H1 H2. apply Q4; [|done]. by apply (ps_quiet _ _ _ P3).
Qed.

(** The kernel's records of the process with another image. *)
Definition with_image (p image : Z) (y : System) : System :=
  y <| y_kernel := set_prc p (fun r => r <| p_elf_image := image |>) (y_kernel y) |>.

Lemma release_pages_call a p image y0 E s :
  ledger a image y0 E s -> image_owner_matches s p a image = true ->
  let '(b, s') := release_pages p a image s in
  y_data (l_system s') = y_data (l_system s) /\ (forall x, x <> image -> img s' x = img s x) /\
  (b = true -> img s' image = image_zero /\ exists y, claims a y0 [] y /\ l_system s' = with_image p 0 y) /\
  (b = false -> (exists E', ledger a image y0 E' s') /\ i_cleanup_pending (img s' image) = true /\ i_loaded (img s' image) = false /\
     i_owner (img s' image) = i_owner (img s image) /\ i_owner_process_id (img s' image) = i_owner_process_id (img s image) /\
     i_owner_space_id (img s' image) = i_owner_space_id (img s image)) /\
  (elf_quiet s -> releasable a y0 -> b = true) /\ (elf_quiet s -> elf_quiet s').
Proof.
  intros L Ho. unfold release_pages. rewrite Ho. cbn [negb]. set (g := fun x => x <| i_entry := 0 |> <| i_loaded := false |> <| i_cleanup_pending := true |>).
  set (s1 := set_img image g s).
  assert (img s1 image = g (img s image)) as Ei by apply img_set_eq. assert (forall x, x <> image -> img s1 x = img s x) as Eo by (intros x Hx; unfold s1; by rewrite img_set, decide_False).
  assert (ledger a image y0 E s1) as L1 by (destruct L as [L1 L2 L3 L4]; split; rewrite ?Ei; done).
  rewrite (lg_count _ _ _ _ _ L1), Nat2Z.id. pose proof (release_loop_call a image y0 E s1 L1) as H.
  destruct (release_loop a image (length E) s1) as [b s2]. destruct H as (D & [(I1 & I2 & I3 & I4 & I5 & I6) I7 I8] & (E' & L2 & HE) & Q).
  rewrite Ei in I1, I2, I3, I4, I5, I6. destruct b; cbn [negb].
  - rewrite (HE eq_refl) in L2. split_and!; [done| | |done|done|exact I8].
    + intros x Hx. rewrite img_set, decide_False by done. change (img (set_kernel _ s2) x) with (img s2 x). by rewrite I7, Eo.
    + intros _. split; [by rewrite img_set_eq|]. exists (l_system s2). split; [apply L2|done].
  - split_and!; [done|intros x Hx; by rewrite I7, Eo|done| |done|exact I8]. intros _. split_and!; [by exists E'|done|done|by rewrite I4|by rewrite I5|by rewrite I6].
Qed.
