(* ===== verification/ElfMap.v ===== *)
(** A whole segment: its pages are claimed, zeroed and mapped, then the bytes of
    the file are copied into them. *)

From S2P Require Import Prelude Pmm PmmProofs PmmRefine ObjectStorage Kernel.
From S2P Require Import Objects Frames Vmm VmmWf VmmEdit VmmOps.
From S2P Require Import VmmCalls VmmUnmap VmmLife VmmShare VmmMachine.
From S2P Require Import Space SpaceWf SpaceOps Vfs UserMemory UserElf ElfClaims.
From S2P Require Import ElfRelease.

Open Scope jcos_scope.

Local Notation frames E := (ep_frame <$> E).
Local Notation addresses E := (ep_virtual_address <$> E).

(** * Pages with their permissions and contents *)

(** The pages of [E] are mapped with the permissions [fl] and hold [ct]. *)
Definition filled (a : Z) (fl : Z -> Z) (ct : Z -> list Z) (E : list UserElfPage) (y : System) : Prop :=
  forall e, e ∈ E -> ep_mapped e = true /\
    address_space_query_page y a (ep_virtual_address e) = Some (ep_frame e, fl (ep_virtual_address e)) /\
    direct (ep_frame e) = true /\ frame_bytes y (ep_frame e) = ct (ep_virtual_address e).

Lemma filled_app a fl ct E E' y : filled a fl ct (E ++ E') y <-> filled a fl ct E y /\ filled a fl ct E' y.
Proof.
  unfold filled. setoid_rewrite elem_of_app. split; [intros H; split; intros e He; apply H; auto|intros [H1 H2] e [He|He]; auto].
Qed.

Lemma filled_ext a fl fl' ct ct' E y :
  (forall e, e ∈ E -> fl' (ep_virtual_address e) = fl (ep_virtual_address e) /\ ct' (ep_virtual_address e) = ct (ep_virtual_address e)) ->
  filled a fl ct E y -> filled a fl' ct' E y.
Proof. intros H F e He. destruct (F e He) as (F1 & F2 & F3 & F4), (H e He) as [-> ->]. done. Qed.

(** Memory in use before the load keeps its contents. *)
Definition untouched (y0 y y' : System) : Prop := forall f, ~ pool (y_vmm y0) f -> frame_bytes y' f = frame_bytes y f.

Lemma untouched_refl y0 y : untouched y0 y y.
Proof. by intros f _. Qed.

Lemma untouched_trans y0 y1 y2 y3 : untouched y0 y1 y2 -> untouched y0 y2 y3 -> untouched y0 y1 y3.
Proof. intros H1 H2 f Hf. by rewrite (H2 f Hf), (H1 f Hf). Qed.

Lemma untouched_data y0 y y' : y_data y' = y_data y -> untouched y0 y y'.
Proof. intros E f _. unfold frame_bytes. by rewrite E. Qed.

Definition zeros : list Z := replicate 4096 0.

(** Contents do not matter to what is claimed. *)
Lemma contents_wf y d : spaces_wf y -> spaces_wf (y <| y_data := d |>).
Proof. by intros [S1 S2 S3 S4 S5 S6 S7 S8 S9 S10]; split. Qed.

Lemma data_claims a y0 E y d : claims a y0 E y -> claims a y0 E (y <| y_data := d |>).
Proof. intros [C1 C2 C3 C4 C5 C6 C7 C8 C9 C10 C11 C12 C13 C14 C15]. split; try done. by apply contents_wf. Qed.

Lemma data_query y d b va : address_space_query_page (y <| y_data := d |>) b va = address_space_query_page y b va.
Proof. done. Qed.

(** * One page *)

(** What mapping more pages of the image needs. *)
Record mappable (a : Z) (flags : Z) (y : System) : Prop := {
  ma_flags : 0 <= flags < 8 /\ has flags VM_WRITE && has flags VM_EXEC = false;
  ma_modes : v_nx_enabled (y_vmm y) = true /\ v_use_phys_map (y_vmm y) = true /\ profile_supported (y_vmm y) = true;
  ma_pending : destroy_pending (pmap (y_vmm y) (page_map a)) = false }.

Lemma user_flags flags : 0 <= flags < 8 -> 0 <= Z.lor flags VM_USER < 8.
Proof.
  intros H. assert (flags = 0 \/ flags = 1 \/ flags = 2 \/ flags = 3 \/ flags = 4 \/ flags = 5 \/ flags = 6 \/ flags = 7) as Hc by lia.
  by destruct Hc as [->|[->|[->|[->|[->|[->|[->| ->]]]]]]].
Qed.

Lemma segment_flags_small flags : 0 <= flags < 8 -> Z.land flags (u64 (Z.lnot VM_FLAGS_ALL)) = 0 /\ has flags VM_DEVICE = false.
Proof.
  intros H. assert (flags = 0 \/ flags = 1 \/ flags = 2 \/ flags = 3 \/ flags = 4 \/ flags = 5 \/ flags = 6 \/ flags = 7) as Hc by lia.
  by destruct Hc as [->|[->|[->|[->|[->|[->|[->| ->]]]]]]].
Qed.

Lemma page_mappable a y0 E y va f flags :
  claims a y0 E y -> mappable a flags y0 -> user_virtual_address va = true -> page_ok va = true -> valid_mapping_frame f = true ->
  map_page_allowed (y_vmm y) (page_map a) va f (Z.lor flags VM_USER) = true.
Proof.
  intros C [[M1 _] (M2 & _ & _) M3] Hu Hok Hv. destruct (cl_modes _ _ _ _ C) as (E1 & _ & _ & _).
  pose proof (aside_pmap (y_vmm y0) (y_vmm y) (page_map a) (cl_maps _ _ _ _ C)) as Ep. pose proof (cl_wf _ _ _ _ C) as W.
  pose proof (cl_space _ _ _ _ C) as [Ha Hk]. rewrite <- (claims_spaces _ _ _ _ C) in Ha. pose proof (sp_maps y W) as M.
  destruct (mp_live _ _ M a Ha) as [Hn Hr]. destruct (segment_flags_small _ (user_flags flags M1)) as [F1 F2].
  unfold map_page_allowed. rewrite Hn, (proj2 (Z.eqb_neq _ _) Hr), Ep, M3, <- Ep, (private _ _ a M (conj Ha Hk)), Hv, E1, M2, F1, F2. cbn [negb orb andb].
  apply andb_true_iff in Hok as [H1 H2]. rewrite H1, H2. cbn [negb orb]. change (nz 0) with false. apply (user_owned _ _ _ _ M Ha Hu). by apply andb_true_iff.
Qed.

(** A frame that is usable for tables has a place in the direct map. *)
Lemma usable_direct n s f : supply n s -> v_use_phys_map s = true -> f ∈ free_set (v_pmm s) -> direct f = true.
Proof.
  intros Hs Hm Hf. destruct (su_usable _ _ Hs f Hf) as [_ [g Hg]]. unfold table_pointer in Hg. rewrite Hm in Hg. unfold direct.
  destruct (nz (frame_to_phys f)); [|done]. by destruct (nz (phys_to_virt (frame_to_phys f))).
Qed.

(** The array gains an entry. *)
Lemma ledger_add a image y0 E e s y :
  ledger a image y0 E s -> (length E < 64)%nat -> claims a y0 (E ++ [e]) y ->
  ledger a image y0 (E ++ [e]) (set_page image (Z.of_nat (length E)) e
    (set_img image (fun x => x <| i_page_count := Z.of_nat (length E) + 1 |>) (s <| l_system := y |>))).
Proof.
  intros [_ B1 B2 B3] Hlt C. unfold set_page. split; [done|..]; rewrite !img_set_eq; upd_simpl;
    change (img (s <| l_system := y |>) image) with (img s image).
  - by rewrite length_insert.
  - rewrite length_app. cbn [length]. lia.
  - rewrite length_app, Nat2Z.id. cbn [length]. rewrite Nat.add_1_r, (take_S_r _ _ e) by (apply list_lookup_insert_eq; lia).
    by rewrite take_insert_ge, B3 by lia.
Qed.

Lemma pages_step_add image i e n s y :
  pages_step image s (set_page image i e (set_img image (fun x => x <| i_page_count := n |>) (s <| l_system := y |>))).
Proof. unfold set_page. split; [by rewrite !img_set_eq|intros x Hx; by rewrite !img_set, !decide_False|done]. Qed.

(** Entries keep their translations and contents. *)
Definition entries_kept (a : Z) (E : list UserElfPage) (y y' : System) : Prop :=
  forall fl ct E', (forall e, e ∈ E' -> e ∈ E) -> filled a fl ct E' y -> filled a fl ct E' y'.

Lemma claim_page_step a image y0 E s va :
  ledger a image y0 E s -> user_virtual_address va = true -> page_ok va = true ->
  address_space_query_page y0 a va = None -> va ∉ addresses E ->
  let '(r, s') := claim_segment_page image va s in
  pages_step image s s' /\ untouched y0 (l_system s) (l_system s') /\
  match r with
  | Some f => ledger a image y0 (E ++ [mkUserElfPage va f false]) s' /\ entries_kept a E (l_system s) (l_system s') /\
      frame_bytes (l_system s') f = zeros /\ direct f = true /\ f ∈ free_set (v_pmm (y_vmm (l_system s)))
  | None => exists E', ledger a image y0 E' s'
  end /\
  (forall n, elf_quiet s -> v_use_phys_map (y_vmm y0) = true -> (length E < 64)%nat -> supply (S n) (y_vmm (l_system s)) ->
     is_Some r /\ supply n (y_vmm (l_system s'))).
Proof.
  intros L Hu Hok Hq Hva. pose proof (lg_claims _ _ _ _ _ L) as C. unfold claim_segment_page, USER_ELF_MAX_LOAD_PAGES.
  rewrite (lg_count _ _ _ _ _ L). destruct (Z.leb_spec 64 (Z.of_nat (length E))) as [Hfull|Hroom].
  { split_and!; [apply pages_step_refl|apply untouched_refl|by eexists|]. intros n _ _ Hlt. lia. }
  pose proof (fail_call image USER_ELF_TEST_ALLOC va s) as F. destruct (fail_operation image USER_ELF_TEST_ALLOC va s) as [b1 s1].
  destruct F as (F1 & F2 & F3). assert (ledger a image y0 E s1) as L1 by (by apply (ledger_same _ _ _ _ s)).
  assert (pages_step image s s1) as P1 by (apply pages_step_same; [done|]; intros Hx; by destruct (F3 Hx) as [_ ->]). rewrite <- F1 in *.
  destruct b1; [split_and!; [done|apply untouched_refl|by eexists|]; intros n Hx; by destruct (F3 Hx)|].
  unfold sys_call. pose proof (claims_alloc a y0 E (l_system s1) va C Hu Hok Hq Hva) as A.
  destruct (vmm_call vmm_frame_alloc (l_system s1)) as [f y2]. destruct A as (D2 & Q2 & A).
  destruct (Z.eqb_spec f FRAME_INVALID) as [Ef|Ef].
  { rewrite decide_True in A by done. destruct A as [C2 Hno].
    split_and!; [eapply pages_step_trans; [exact P1|by apply pages_step_same]|by apply untouched_data| |].
    - exists E. destruct L1 as [_ B1 B2 B3]. by split.
    - intros n _ _ _ Hs. by destruct (Hno n). }
  rewrite decide_False in A by done. destruct A as (C2 & Hfree & Hsup). cbn zeta. change (img (s1 <| l_system := y2 |>) image) with (img s1 image).
  rewrite (lg_count _ _ _ _ _ L1). pose proof (ledger_add a image y0 E _ s1 y2 L1 ltac:(lia) C2) as L3.
  pose proof (pages_step_trans _ _ _ _ P1 (pages_step_add image (Z.of_nat (length E)) (mkUserElfPage va f false) (Z.of_nat (length E) + 1) s1 y2)) as P3.
  set (s3 := set_page _ _ _ _) in *. change (l_system s3) with y2 in *. destruct (direct f) eqn:Hdir; cbn [negb].
  2: { split_and!; [done|by apply untouched_data|by eexists|]. intros n _ Hm _ Hs. rewrite (usable_direct _ _ _ Hs) in Hdir; try done.
       destruct (cl_modes _ _ _ _ C) as (_ & -> & _). exact Hm. }
  set (s4 := set_data f _ s3). assert (y_data (l_system s4) = <[f := zeros]> (y_data (l_system s1))) as D4 by (rewrite <- D2; done).
  assert (forall g, g <> f -> frame_bytes (l_system s4) g = frame_bytes (l_system s1) g) as Hfb.
  { intros g Hg. unfold frame_bytes. by rewrite D4, lookup_insert_ne. }
  split_and!; [by destruct P3; split|..].
  - intros g Hg. apply Hfb. intros ->. apply Hg. apply (cl_pool _ _ _ _ C). left. by left.
  - destruct L3 as [B0 B1 B2 B3]. split; try done. by apply data_claims.
  - intros fl ct E' Hin Hf d Hd. destruct (Hf d Hd) as (H1 & H2 & H3 & H4). split_and!; [done| |done|].
    + etrans; [|exact H2]. exact (Q2 a (ep_virtual_address d)).
    + rewrite Hfb; [done|]. intros Ed. destruct (cl_held _ _ _ _ C d (Hin d Hd)) as [_ Hnp]. apply Hnp. rewrite Ed. by left.
  - unfold frame_bytes. by rewrite D4, lookup_insert_eq.
  - done.
  - done.
  - intros n _ _ _ Hs. split; [done|]. by apply Hsup.
Qed.

Lemma map_page_step a image y0 E s flags va :
  ledger a image y0 E s -> is_u64 flags -> user_virtual_address va = true -> page_ok va = true ->
  address_space_query_page y0 a va = None -> va ∉ addresses E ->
  let '(b, s') := map_segment_page a image flags va s in
  pages_step image s s' /\ untouched y0 (l_system s) (l_system s') /\
  (if (b : bool) then exists f, ledger a image y0 (E ++ [mkUserElfPage va f true]) s' /\
     filled a (fun _ => Z.lor flags VM_USER) (fun _ => zeros) [mkUserElfPage va f true] (l_system s') /\
     entries_kept a E (l_system s) (l_system s')
   else exists E', ledger a image y0 E' s') /\
  (forall n, elf_quiet s -> mappable a flags y0 -> (length E < 64)%nat -> supply (4 + n) (y_vmm (l_system s)) ->
     b = true /\ supply n (y_vmm (l_system s'))).
Proof.
  intros L Hfl Hu Hok Hq Hva. pose proof (lg_claims _ _ _ _ _ L) as C. unfold map_segment_page.
  assert (address_space_query_page (l_system s) a va = None) as ->.
  { rewrite (cl_same _ _ _ _ C a va (cl_space _ _ _ _ C) Hu); [done|]. intros _ e He _ <-. apply Hva. by apply list_elem_of_fmap_2. }
  pose proof (claim_page_step a image y0 E s va L Hu Hok Hq Hva) as A. destruct (claim_segment_page image va s) as [[f|] s4].
  2: { destruct A as (P4 & U4 & E4 & S4). split_and!; [done|done|done|]. intros n Hx Hm Hlt Hs. by destruct (S4 (3 + n)%nat Hx (proj1 (proj2 (ma_modes _ _ _ Hm))) Hlt Hs) as [[? ?] _]. }
  destruct A as (P4 & U4 & (L4 & K4 & Z4 & Hdir & Hfree) & S4). set (e := mkUserElfPage va f false) in *.
  pose proof (fail_call image USER_ELF_TEST_MAP va s4) as G. destruct (fail_operation image USER_ELF_TEST_MAP va s4) as [b5 s5].
  destruct G as (G1 & G2 & G3). assert (ledger a image y0 (E ++ [e]) s5) as L5 by (by apply (ledger_same _ _ _ _ s4)).
  assert (pages_step image s s5) as P5.
  { eapply pages_step_trans; [exact P4|]. apply pages_step_same; [by rewrite G2|]. intros Hx. by destruct (G3 Hx) as [_ ->]. }
  rewrite <- G1 in *. destruct b5; [split_and!; [done|done|by eexists|]; intros n Hx; by destruct (G3 (ps_quiet _ _ _ P4 Hx))|].
  unfold sys_call. pose proof (claims_map a y0 E va f flags (l_system s5) (lg_claims _ _ _ _ _ L5) Hfl) as Mp.
  destruct (address_space_map_page a va f flags (l_system s5)) as [b6 y6]. destruct Mp as (D6 & C6 & Q6 & O6 & S6 & U6).
  assert (untouched y0 (l_system s) y6) as U7 by (eapply untouched_trans; [exact U4|by apply untouched_data]).
  assert (forall g, frame_bytes y6 g = frame_bytes (l_system s5) g) as D7 by (intros g; unfold frame_bytes; by rewrite D6).
  destruct b6; cbn [negb].
  - change (img (s5 <| l_system := y6 |>) image) with (img s5 image). rewrite (lg_count _ _ _ _ _ L5), length_app. cbn [length].
    replace (Z.of_nat (length E + 1) - 1) with (Z.of_nat (length E)) by lia.
    split_and!; [eapply pages_step_trans; [exact P5|apply pages_step_set]|exact U7| |].
    + exists f. split_and!; [by apply (ledger_replace a image y0 E e _ s5 y6 L5)| |].
      * intros d ->%list_elem_of_singleton. split_and!; [done|by apply Q6|done|]. etrans; [exact (D7 f)|exact Z4].
      * intros fl ct E' Hin Hf d Hd. destruct (K4 fl ct E' Hin Hf d Hd) as (H1 & H2 & H3 & H4).
        change (l_system (set_page _ _ _ (s5 <| l_system := y6 |>))) with y6. split_and!; [done| |done|by rewrite D7].
        rewrite O6; [done|apply C|by apply (cl_user _ _ _ _ C d (Hin d Hd))|].
        intros [_ E1]. apply Hva. rewrite <- E1. apply list_elem_of_fmap_2. by apply Hin.
    + intros n Hx Mm Hlt Hs. split; [done|]. apply U6; [done|]. by apply (S4 (3 + n)%nat Hx (proj1 (proj2 (ma_modes _ _ _ Mm))) Hlt).
  - split_and!; [eapply pages_step_trans; [exact P5|by apply pages_step_same]|exact U7| |].
    + exists (E ++ [e]). destruct L5 as [_ B1 B2 B3]. by split.
    + intros n Hx Mm Hlt Hs. exfalso. destruct (S4 (3 + n)%nat Hx (proj1 (proj2 (ma_modes _ _ _ Mm))) Hlt Hs) as [_ Hs2].
      assert (false = true); [|done]. destruct (ma_flags _ _ _ Mm) as [_ Hwx]. destruct (cl_modes _ _ _ _ (lg_claims _ _ _ _ _ L5)) as (_ & _ & Hpr & _).
      apply S6; [done|by rewrite Hpr; apply Mm| |].
      * apply (page_mappable a y0 (E ++ [e])); [apply L5|done|done|done|]. by apply (su_usable _ _ Hs f Hfree).
      * destruct Hs2 as [X1 X2 X3 X4]. split; [done|done| |done]. etrans; [|exact X3]. lia.
Qed.

(** * Mapping all pages *)

Definition fresh_page (a : Z) (y0 : System) (E : list UserElfPage) (va : Z) : Prop :=
  user_virtual_address va = true /\ page_ok va = true /\ address_space_query_page y0 a va = None /\ va ∉ addresses E.

Lemma entries_kept_trans a E E' y1 y2 y3 :
  (forall e, e ∈ E -> e ∈ E') -> entries_kept a E y1 y2 -> entries_kept a E' y2 y3 -> entries_kept a E y1 y3.
Proof. intros Hin H1 H2 fl ct D HD F. apply H2; [auto|]. by apply H1. Qed.

Lemma entries_kept_refl a E y : entries_kept a E y y.
Proof. by intros fl ct D _ F. Qed.

Lemma map_loop_call a image y0 flags l E s :
  ledger a image y0 E s -> is_u64 flags -> NoDup l -> (forall va, va ∈ l -> fresh_page a y0 E va) ->
  let '(b, s') := each (map_segment_page a image flags) l s in
  pages_step image s s' /\ untouched y0 (l_system s) (l_system s') /\
  (if (b : bool) then exists E1, addresses E1 = l /\ ledger a image y0 (E ++ E1) s' /\
     filled a (fun _ => Z.lor flags VM_USER) (fun _ => zeros) E1 (l_system s') /\ entries_kept a E (l_system s) (l_system s')
   else exists E', ledger a image y0 E' s') /\
  (forall n, elf_quiet s -> mappable a flags y0 -> (length E + length l <= 64)%nat -> supply (4 * length l + n) (y_vmm (l_system s)) ->
     b = true /\ supply n (y_vmm (l_system s'))).
Proof.
  intros L Hfl. revert E s L. induction l as [|va l IH]; intros E s L Hnd Hl; cbn [each].
  - split_and!; [apply pages_step_refl|apply untouched_refl| |done]. exists []. rewrite app_nil_r.
    split_and!; [done|done|by intros e ?%not_elem_of_nil|apply entries_kept_refl].
  - apply list.NoDup_cons in Hnd as [Hva Hnd]. destruct (Hl va) as (H1 & H2 & H3 & H4); [by left|].
    pose proof (map_page_step a image y0 E s flags va L Hfl H1 H2 H3 H4) as H. destruct (map_segment_page a image flags va s) as [b s1].
    destruct H as (P1 & U1 & R1 & S1). destruct b.
    2: { split_and!; [done|done|done|]. intros n Hq Hm Hlen Hs. cbn [length] in *.
         destruct (S1 (4 * length l + n)%nat Hq Hm ltac:(lia)) as [? _]; [|done]. replace (4 + (4 * length l + n))%nat with (4 * S (length l) + n)%nat by lia. done. }
    destruct R1 as (f & L1 & F1 & K1). specialize (IH _ s1 L1 Hnd). destruct (each _ l s1) as [b s2].
    destruct IH as (P2 & U2 & R2 & S2).
    { intros va' Hva'. destruct (Hl va') as (X1 & X2 & X3 & X4); [by right|]. split_and!; try done. rewrite fmap_app. cbn. rewrite elem_of_app, list_elem_of_singleton.
      intros [?| ->]; done. }
    split_and!; [by eapply pages_step_trans|by eapply untouched_trans| |].
    + destruct b; [|done]. destruct R2 as (E1 & A2 & L2 & F2 & K2). exists (mkUserElfPage va f true :: E1). rewrite <- app_assoc in L2.
      split_and!; [cbn; by rewrite A2|done| |].
      * apply (filled_app _ _ _ [_] E1). split; [|done]. apply K2; [|done]. intros e He. apply elem_of_app. by right.
      * eapply entries_kept_trans; [|exact K1|exact K2]. intros e He. apply elem_of_app. by left.
    + intros n Hq Hm Hlen Hs. cbn [length] in *. rewrite length_app in S2. cbn [length] in S2.
      destruct (S1 (4 * length l + n)%nat Hq Hm ltac:(lia)) as [_ Hs1]; [replace (4 + (4 * length l + n))%nat with (4 * S (length l) + n)%nat by lia; done|].
      apply S2; [by apply (ps_quiet _ _ _ P1)|done|lia|done].
Qed.

(** * Copying *)

(** The page at [va] once [copied] bytes of the segment are in place: the bytes of
    the file where the segment has them, zeros elsewhere. *)
Definition part (file : VfsNode) (segment : Elf64ProgramHeader) (copied va : Z) : list Z :=
  (fun i => let o := va + i - ph_virtual_address segment in
            if (0 <=? o) && (o <? copied) then byte_at (bytes file) (ph_offset segment + o) else 0) <$> seqZ 0 VM_PAGE_SIZE.

Lemma part_length file segment c va : length (part file segment c va) = 4096%nat.
Proof. unfold part. by rewrite length_fmap, length_seqZ. Qed.

Lemma part_lookup file segment c va (i : nat) :
  (i < 4096)%nat -> part file segment c va !! i =
  Some (let o := va + Z.of_nat i - ph_virtual_address segment in
        if (0 <=? o) && (o <? c) then byte_at (bytes file) (ph_offset segment + o) else 0).
Proof. intros Hi. unfold part. rewrite list_lookup_fmap, lookup_seqZ_lt by (unfold VM_PAGE_SIZE; lia). cbn. by rewrite Z.add_0_l. Qed.

Lemma part_zero file segment va : part file segment 0 va = zeros.
Proof.
  apply list_eq_same_length with (n := 4096%nat); [done|apply part_length|]. intros i x y Hi H1 H2.
  rewrite part_lookup in H1 by done. unfold zeros in H2. apply lookup_replicate in H2 as [-> _]. cbn zeta in H1.
  destruct (Z.leb_spec 0 (va + Z.of_nat i - ph_virtual_address segment)), (Z.ltb_spec (va + Z.of_nat i - ph_virtual_address segment) 0); cbn [andb] in H1; try lia; congruence.
Qed.

(** A page away from the bytes being copied stays the same. *)
Lemma part_other file segment c c' va :
  c <= c' -> (forall i, 0 <= i < 4096 -> ~ (c <= va + i - ph_virtual_address segment < c')) -> part file segment c' va = part file segment c va.
Proof.
  intros Hc Hno. apply list_eq_same_length with (n := 4096%nat); [apply part_length|apply part_length|]. intros i x y Hi H1 H2.
  rewrite part_lookup in H1, H2 by done. cbn zeta in *. specialize (Hno (Z.of_nat i) ltac:(lia)).
  set (o := va + Z.of_nat i - ph_virtual_address segment) in *.
  destruct (Z.leb_spec 0 o), (Z.ltb_spec o c), (Z.ltb_spec o c'); cbn [andb] in *; try lia; congruence.
Qed.

(** The page that receives them. *)
Lemma part_overwrite file segment c n va :
  0 <= c -> 0 < n -> 0 <= ph_offset segment -> ph_offset segment + c + n <= Z.of_nat (length (bytes file)) ->
  va <= ph_virtual_address segment + c -> ph_virtual_address segment + c + n <= va + 4096 ->
  overwrite (ph_virtual_address segment + c - va) (take (Z.to_nat n) (drop (Z.to_nat (ph_offset segment + c)) (bytes file))) (part file segment c va)
  = part file segment (c + n) va.
Proof.
  intros Hc Hn Ho Hlen Hlo Hhi. set (new := take _ _). assert (length new = Z.to_nat n) as Hnew by (unfold new; rewrite length_take, length_drop; lia).
  set (k := ph_virtual_address segment + c - va). unfold overwrite. rewrite Hnew.
  apply list_eq_same_length with (n := 4096%nat).
  { apply part_length. }
  { rewrite !length_app, length_take, length_drop, part_length, Hnew. lia. }
  intros i x y Hi H1 H2. rewrite part_lookup in H2 by done. cbn zeta in H2.
  set (o := va + Z.of_nat i - ph_virtual_address segment) in *. destruct (decide (i < Z.to_nat k)%nat) as [Hik|Hik].
  - rewrite lookup_app_l in H1 by (rewrite length_take, part_length; lia). rewrite lookup_take_lt, part_lookup in H1 by lia. cbn zeta in H1. fold o in H1.
    destruct (Z.leb_spec 0 o), (Z.ltb_spec o c), (Z.ltb_spec o (c + n)); cbn [andb] in *; try lia; congruence.
  - rewrite lookup_app_r in H1 by (rewrite length_take, part_length; lia). rewrite length_take, part_length, Nat.min_l in H1 by lia.
    destruct (decide (i - Z.to_nat k < Z.to_nat n)%nat) as [Hin|Hin].
    + rewrite lookup_app_l in H1 by lia. unfold new in H1. rewrite lookup_take_lt, lookup_drop in H1 by lia.
      destruct (Z.leb_spec 0 o), (Z.ltb_spec o (c + n)); cbn [andb] in *; try lia. unfold byte_at in H2.
      replace (Z.to_nat (ph_offset segment + o)) with (Z.to_nat (ph_offset segment + c) + (i - Z.to_nat k))%nat in H2 by lia. rewrite H1 in H2. cbn in H2. congruence.
    + rewrite lookup_app_r, Hnew, lookup_drop, part_lookup in H1 by lia. cbn zeta in H1.
      replace (va + Z.of_nat (Z.to_nat k + Z.to_nat n + (i - Z.to_nat k - Z.to_nat n)) - ph_virtual_address segment) with o in H1 by lia.
      destruct (Z.leb_spec 0 o), (Z.ltb_spec o c), (Z.ltb_spec o (c + n)); cbn [andb] in *; try lia; congruence.
Qed.

(** ** Addresses of pages *)

Lemma page_down_eq v : is_u64 v -> page_down v = v - v mod 4096.
Proof.
  intros Hv. unfold page_down. change (u64 (Z.lnot (VM_PAGE_SIZE - 1))) with (Z.shiftl (Z.ones 52) 12).
  assert (Z.land v (Z.shiftl (Z.ones 52) 12) = Z.shiftl (Z.land (Z.shiftr v 12) (Z.ones 52)) 12) as ->.
  { apply Z.bits_inj'. intros n Hn. rewrite Z.land_spec, !Z.shiftl_spec by lia. destruct (Z.ltb_spec n 12) as [H|H].
    - rewrite !(Z.testbit_neg_r _ (n - 12)) by lia. by rewrite andb_false_r.
    - rewrite Z.land_spec, Z.shiftr_spec by lia. by rewrite Z.sub_add. }
  rewrite Z.land_ones, Z.shiftl_mul_pow2, Z.shiftr_div_pow2 by lia. unfold is_u64 in Hv. change (2 ^ 12) with 4096.
  rewrite (Z.mod_small (v / 4096)) by (change (2 ^ 52) with (2 ^ 64 / 4096); split; [apply Z.div_pos; lia|apply Z.div_lt_upper_bound; [lia|]; change (4096 * (2 ^ 64 / 4096)) with (2 ^ 64); lia]).
  pose proof (Z.div_mod v 4096). lia.
Qed.

Lemma pages_in_elem va first last : va ∈ pages_in first last <-> exists i, 0 <= i < (last - first) / 4096 /\ va = first + i * 4096.
Proof.
  unfold pages_in. rewrite list_elem_of_fmap. setoid_rewrite elem_of_seqZ. unfold VM_PAGE_SIZE. split; intros (i & H1 & H2); exists i; split; (done || lia).
Qed.

Lemma pages_in_NoDup first last : NoDup (pages_in first last).
Proof. apply NoDup_fmap_2_strong; [|apply NoDup_seqZ]. intros x y _ _. unfold VM_PAGE_SIZE. lia. Qed.

Lemma pages_in_length first last : 0 <= last - first -> Z.of_nat (length (pages_in first last)) = (last - first) / 4096.
Proof. intros H. unfold pages_in, VM_PAGE_SIZE. rewrite length_fmap, length_seqZ, Z2Nat.id; [done|]. apply Z.div_pos; lia. Qed.

(** The page of an address in a range of whole pages. *)
Lemma page_down_in first last v :
  is_u64 v -> first mod 4096 = 0 -> last mod 4096 = 0 -> first <= v < last -> page_down v ∈ pages_in first last.
Proof.
  intros Hv H1 H2 H3. rewrite page_down_eq by done. apply pages_in_elem. exists ((v - first) / 4096).
  Z.to_euclidean_division_equations; lia.
Qed.

(** ** The frame of a page *)

Lemma entry_unique a y0 E y e d : claims a y0 E y -> e ∈ E -> d ∈ E -> ep_virtual_address d = ep_virtual_address e -> d = e.
Proof.
  intros C He Hd Ha. apply list_elem_of_lookup in He as (i & Hi). apply list_elem_of_lookup in Hd as (j & Hj).
  assert (j = i) as ->; [|congruence]. apply (NoDup_lookup _ j i (ep_virtual_address d) (cl_addresses _ _ _ _ C)); [by rewrite list_lookup_fmap, Hj|].
  by rewrite list_lookup_fmap, Hi, Ha.
Qed.

Lemma frame_unique a y0 E y e d : claims a y0 E y -> e ∈ E -> d ∈ E -> ep_frame d = ep_frame e -> d = e.
Proof.
  intros C He Hd Ha. apply list_elem_of_lookup in He as (i & Hi). apply list_elem_of_lookup in Hd as (j & Hj).
  assert (j = i) as ->; [|congruence]. apply (NoDup_lookup _ j i (ep_frame d) (cl_frames _ _ _ _ C)); [by rewrite list_lookup_fmap, Hj|].
  by rewrite list_lookup_fmap, Hi, Ha.
Qed.

Lemma ledger_lookup a image y0 E s (i : nat) e : ledger a image y0 E s -> E !! i = Some e -> page_at (img s image) (Z.of_nat i) = e.
Proof.
  intros L Hi. rewrite <- (lg_entries _ _ _ _ _ L) in Hi. unfold page_at. rewrite Nat2Z.id. apply lookup_take_Some in Hi as [-> _]. done.
Qed.

Lemma find_frame_call a image y0 E s e : ledger a image y0 E s -> e ∈ E -> image_find_frame (img s image) (ep_virtual_address e) = ep_frame e.
Proof.
  intros L He. unfold image_find_frame. rewrite (lg_count _ _ _ _ _ L). destruct (List.find _ _) as [i|] eqn:Hf.
  - apply find_some in Hf as [Hi Heq]. apply list_elem_of_In, elem_of_seqZ in Hi. apply Z.eqb_eq in Heq.
    destruct (lookup_lt_is_Some_2 E (Z.to_nat i)) as [d Hd]; [lia|]. pose proof (ledger_lookup _ _ _ _ _ _ _ L Hd) as Hp.
    rewrite Z2Nat.id in Hp by lia. rewrite Hp in *. f_equal. apply (entry_unique a y0 E (l_system s)); [apply L|done| |done]. by apply list_elem_of_lookup_2 in Hd.
  - exfalso. apply list_elem_of_lookup in He as (i & Hi). pose proof (ledger_lookup _ _ _ _ _ _ _ L Hi) as Hp.
    pose proof (find_none _ _ Hf (Z.of_nat i)) as Hno. cbn in Hno. rewrite Hp, Z.eqb_refl in Hno. apply lookup_lt_Some in Hi. 
    discriminate Hno. apply list_elem_of_In, elem_of_seqZ. lia.
Qed.

(** ** The loop *)

(** What the validation of a segment gives the copy. *)
Record copyable (file : VfsNode) (segment : Elf64ProgramHeader) (l : list Z) : Prop := {
  cp_offset : 0 <= ph_offset segment;
  cp_address : 0 <= ph_virtual_address segment;
  cp_file : ph_offset segment + ph_file_size segment <= Z.of_nat (length (bytes file));
  cp_memory : ph_virtual_address segment + ph_file_size segment < 2 ^ 64;
  cp_aligned : forall va, va ∈ l -> va mod 4096 = 0;
  cp_pages : forall c, 0 <= c < ph_file_size segment -> page_down (ph_virtual_address segment + c) ∈ l }.

Lemma set_data_bytes f content s g : frame_bytes (l_system (set_data f content s)) g = if decide (g = f) then content else frame_bytes (l_system s) g.
Proof.
  change (frame_bytes (l_system (set_data f content s)) g) with (default [] (<[f := content]> (y_data (l_system s)) !! g)).
  case_decide as D; [by rewrite D, lookup_insert_eq|by rewrite lookup_insert_ne].
Qed.

Lemma set_data_filled a image y0 E0 E1 s fl ct ct' e content :
  ledger a image y0 (E0 ++ E1) s -> filled a fl ct E1 (l_system s) -> e ∈ E1 -> ct' (ep_virtual_address e) = content ->
  (forall va, va ∈ addresses E1 -> va <> ep_virtual_address e -> ct' va = ct va) ->
  let s' := set_data (ep_frame e) content s in
  ledger a image y0 (E0 ++ E1) s' /\ filled a fl ct' E1 (l_system s') /\ entries_kept a E0 (l_system s) (l_system s').
Proof.
  intros L F He Hc Ho s'. pose proof (lg_claims _ _ _ _ _ L) as C.
  assert (forall d, d ∈ E1 -> d ∈ E0 ++ E1) as Hin by (intros d Hd; apply elem_of_app; by right).
  split_and!; [destruct L; split; try done; by apply data_claims| |].
  - intros d Hd. destruct (F d Hd) as (F1 & F2 & F3 & F4).
    split_and!; [done|done|done|]. unfold s'. rewrite set_data_bytes. destruct (decide (d = e)) as [->|Hne]; [by rewrite decide_True|].
    rewrite decide_False by (intros Ef; apply Hne; eapply frame_unique; eauto).
    rewrite Ho; [exact F4|by apply list_elem_of_fmap_2|]. intros Ef. apply Hne. eapply entry_unique; eauto.
  - intros fl' ct'' D HD FD d Hd. destruct (FD d Hd) as (F1 & F2 & F3 & F4). split_and!; [done|done|done|].
    unfold s'. rewrite set_data_bytes, decide_False; [done|]. intros Ef. pose proof (cl_frames _ _ _ _ C) as Hnd. rewrite fmap_app in Hnd.
    apply list.NoDup_app in Hnd as (_ & Hdis & _). apply (Hdis (ep_frame d)); [by apply list_elem_of_fmap_2, HD|]. rewrite Ef. by apply list_elem_of_fmap_2.
Qed.

Lemma copy_loop_call a image y0 E0 E1 file segment fl turns c s :
  copyable file segment (addresses E1) -> ledger a image y0 (E0 ++ E1) s ->
  0 <= c <= ph_file_size segment -> ph_file_size segment - c <= Z.of_nat turns -> filled a fl (part file segment c) E1 (l_system s) ->
  let '(b, s') := copy_loop turns file segment image c s in
  b = true /\ ledger a image y0 (E0 ++ E1) s' /\ pages_step image s s' /\ untouched y0 (l_system s) (l_system s') /\
  y_vmm (l_system s') = y_vmm (l_system s) /\
  filled a fl (part file segment (ph_file_size segment)) E1 (l_system s') /\ entries_kept a E0 (l_system s) (l_system s').
Proof.
  intros K. revert c s. induction turns as [|turns IH]; intros c s L Hc Ht F; cbn [copy_loop]; (destruct (Z.leb_spec (ph_file_size segment) c) as [H|H];
    [assert (ph_file_size segment = c) as -> by lia; split_and!; [done|done|apply pages_step_refl|apply untouched_refl|done|done|apply entries_kept_refl]|]); [lia|].
  pose proof K as [K1 K2 K3 K4 K5 K6]. pose proof (K6 c ltac:(lia)) as Hpg. assert (is_u64 (ph_virtual_address segment + c)) as Hd by (unfold is_u64; lia).
  rewrite u64_id by exact Hd. set (dest := ph_virtual_address segment + c) in *. set (va := page_down dest) in *.
  assert (va = dest - dest mod 4096) as Eva by (by apply page_down_eq).
  assert (0 <= dest - va < 4096) as Hoff by (pose proof (Z.mod_pos_bound dest 4096); lia).
  destruct (proj1 (list_elem_of_fmap _ _ _) Hpg) as (e & Ee & He). assert (e ∈ E0 ++ E1) as He' by (apply elem_of_app; by right).
  rewrite Ee, (find_frame_call a image y0 _ s e L He'), <- Ee. destruct (F e He) as (_ & Hq & Hdir & Hct). pose proof (lg_claims _ _ _ _ _ L) as C.
  rewrite Hdir, (proj2 (Z.eqb_neq _ _)) by (eapply held_valid; [apply (rn_wf _ (sp_running _ (cl_wf _ _ _ _ C)))|apply (cl_held _ _ _ _ C e He')]).
  cbn [negb]. cbn zeta.
  assert (exists n, (if VM_PAGE_SIZE - (dest - va) >? ph_file_size segment - c then ph_file_size segment - c else VM_PAGE_SIZE - (dest - va)) = n
            /\ 0 < n <= ph_file_size segment - c /\ dest + n <= va + 4096) as (n & -> & Hn & Hend).
  { unfold VM_PAGE_SIZE. destruct (Z.ltb_spec (ph_file_size segment - c) (4096 - (dest - va))); eexists; split_and!; try done; lia. }
  rewrite Hct, <- Ee. unfold dest at 1. rewrite part_overwrite by lia. fold dest.
  destruct (set_data_filled a image y0 E0 E1 s fl (part file segment c) (part file segment (c + n)) e (part file segment (c + n) va)) as (L2 & F2 & N2); try done.
  { by rewrite <- Ee. }
  { intros va' Hva' Hne. apply part_other; [lia|]. intros i Hi Hx. apply Hne. rewrite <- Ee.
    pose proof (K5 va' Hva'). pose proof (K5 va Hpg). unfold dest in *. Z.to_euclidean_division_equations; lia. }
  set (s2 := set_data _ _ _) in *. specialize (IH (c + n) s2 L2 ltac:(lia) ltac:(lia) F2). destruct (copy_loop turns file segment image (c + n) s2) as [b s3].
  destruct IH as (-> & L3 & P3 & U3 & V3 & F3 & N3). split_and!; try done.
  - eapply pages_step_trans; [|exact P3]. by split.
  - eapply untouched_trans; [|exact U3]. intros g Hg. unfold s2. rewrite set_data_bytes, decide_False; [done|].
    intros ->. apply Hg. apply (cl_pool _ _ _ _ C). right. by apply list_elem_of_fmap_2.
  - by eapply entries_kept_trans; [|exact N2|exact N3].
Qed.

(** * A segment *)

(** What the validation establishes of a segment with memory. *)
Record segment_ok (file : VfsNode) (p : Elf64ProgramHeader) : Prop := {
  so_words : is_u64 (ph_offset p) /\ is_u64 (ph_virtual_address p) /\ is_u64 (ph_file_size p) /\ is_u64 (ph_memory_size p);
  so_file : ph_offset p + ph_file_size p <= Z.of_nat (length (bytes file));
  so_sizes : ph_file_size p <= ph_memory_size p /\ ph_memory_size p <> 0;
  so_exclusive : has (ph_flags p) ELF64_PF_W && has (ph_flags p) ELF64_PF_X = false;
  so_aligned : 1 < ph_alignment p -> ph_virtual_address p mod ph_alignment p = ph_offset p mod ph_alignment p }.

Lemma page_up_eq v x : is_u64 v -> page_up v = Some x -> x mod 4096 = 0 /\ v <= x < v + 4096.
Proof.
  unfold page_up, U64_MAX, VM_PAGE_SIZE. intros Hv. destruct (Z.ltb_spec (2 ^ 64 - 1 - (4096 - 1)) v) as [H|H]; [done|]. intros [= <-].
  change (Z.land ?u (u64 (Z.lnot (4096 - 1)))) with (page_down u). unfold is_u64 in *. rewrite page_down_eq by (unfold is_u64; lia). Z.to_euclidean_division_equations; lia.
Qed.

Lemma page_range_spec p first last :
  is_u64 (ph_virtual_address p) -> is_u64 (ph_memory_size p) -> load_segment_page_range p = Some (first, last) ->
  ADDRESS_SPACE_USER_BASE <= first /\ first < last /\ last <= ADDRESS_SPACE_USER_LIMIT /\ first mod 4096 = 0 /\ last mod 4096 = 0 /\
  first <= ph_virtual_address p < first + 4096 /\ last - 4096 < ph_virtual_address p + ph_memory_size p <= last.
Proof.
  unfold load_segment_page_range, is_u64. intros Hv Hm H. do 3 (if_case_in H; [done|]).
  destruct (page_up (ph_virtual_address p + ph_memory_size p)) as [x|] eqn:Hx; [|done]. cbn [mbind option_bind] in H. if_case_in H; [done|].
  injection H as <- <-. bool_prop. unfold ADDRESS_SPACE_USER_BASE, ADDRESS_SPACE_USER_LIMIT in *.
  apply page_up_eq in Hx as [X1 X2]; [|unfold is_u64; lia]. rewrite page_down_eq in * by exact Hv. Z.to_euclidean_division_equations; lia.
Qed.

Lemma user_aligned va : user_virtual_address va = true -> va mod 4096 = 0 -> page_ok va = true.
Proof.
  unfold user_virtual_address, ADDRESS_SPACE_USER_BASE, ADDRESS_SPACE_USER_LIMIT, page_ok, page_aligned, virtual_address_canonical. intros Hu Ha. bool_prop.
  change (VM_PAGE_SIZE - 1) with (FRAME_SIZE - 1). rewrite page_offset, Ha, !Z.shiftr_div_pow2, !Z.div_small by lia. done.
Qed.

(** The pages of a segment are user pages. *)
Lemma pages_in_user p first last va :
  is_u64 (ph_virtual_address p) -> is_u64 (ph_memory_size p) -> load_segment_page_range p = Some (first, last) -> va ∈ pages_in first last ->
  user_virtual_address va = true /\ page_ok va = true /\ va mod 4096 = 0.
Proof.
  intros Hv Hm Hr (i & Hi & ->)%pages_in_elem. destruct (page_range_spec p first last Hv Hm Hr) as (R1 & R2 & R3 & R4 & R5 & _).
  assert ((first + i * 4096) mod 4096 = 0) as Ha by (by rewrite Z.mod_add).
  assert (user_virtual_address (first + i * 4096) = true) as Hu.
  { unfold user_virtual_address. apply andb_true_iff. split; [apply Z.leb_le; lia|apply Z.ltb_lt]. Z.to_euclidean_division_equations; lia. }
  split_and!; [done|by apply user_aligned|done].
Qed.

Lemma segment_copyable file p first last :
  segment_ok file p -> load_segment_page_range p = Some (first, last) -> copyable file p (pages_in first last).
Proof.
  intros [(W1 & W2 & W3 & W4) F1 (F2 & F3) _ _] Hr. pose proof (page_range_spec p first last W2 W4 Hr) as (R1 & R2 & R3 & R4 & R5 & R6 & R7).
  unfold ADDRESS_SPACE_USER_BASE, ADDRESS_SPACE_USER_LIMIT, is_u64 in *. split; try lia.
  - intros va Hva. by apply (pages_in_user p first last va).
  - intros c Hc. apply page_down_in; [unfold is_u64; lia|done|done|lia].
Qed.

Lemma segment_flags_spec file p :
  segment_ok file p -> 0 <= segment_flags p < 8 /\ has (segment_flags p) VM_WRITE && has (segment_flags p) VM_EXEC = false.
Proof.
  intros O. pose proof (so_exclusive _ _ O) as X. unfold segment_flags. destruct (has (ph_flags p) ELF64_PF_W), (has (ph_flags p) ELF64_PF_X); try done;
    (split; [cbv; split; congruence|done]).
Qed.

Lemma map_segment_call a image y0 E s file p first last :
  ledger a image y0 E s -> segment_ok file p -> load_segment_page_range p = Some (first, last) ->
  (forall va, va ∈ pages_in first last -> address_space_query_page y0 a va = None /\ va ∉ addresses E) ->
  let '(b, s') := map_segment a file p image s in
  pages_step image s s' /\ untouched y0 (l_system s) (l_system s') /\
  (if (b : bool) then exists E1, addresses E1 = pages_in first last /\ ledger a image y0 (E ++ E1) s' /\
     filled a (fun _ => Z.lor (segment_flags p) VM_USER) (part file p (ph_file_size p)) E1 (l_system s') /\
     entries_kept a E (l_system s) (l_system s')
   else exists E', ledger a image y0 E' s') /\
  (forall n, elf_quiet s -> mappable a (segment_flags p) y0 -> (length E + length (pages_in first last) <= 64)%nat ->
     supply (4 * length (pages_in first last) + n) (y_vmm (l_system s)) -> b = true /\ supply n (y_vmm (l_system s'))).
Proof.
  intros L O Hr Hl. pose proof O as [(W1 & W2 & W3 & W4) _ [_ Hm] _]. unfold map_segment. unfold nz. rewrite (proj2 (Z.eqb_neq _ _) Hm), Hr. cbn [negb].
  destruct (segment_flags_spec file p O) as [Hf _].
  pose proof (map_loop_call a image y0 (segment_flags p) (pages_in first last) E s L ltac:(unfold is_u64; lia) (pages_in_NoDup first last)) as H.
  destruct (each _ _ s) as [b1 s1]. destruct H as (P1 & U1 & R1 & S1).
  { intros va Hva. destruct (pages_in_user p first last va W2 W4 Hr Hva) as (X1 & X2 & _), (Hl va Hva) as [X3 X4]. by split_and!. }
  destruct b1; cbn [negb]; [|split_and!; done]. destruct R1 as (E1 & A1 & L1 & F1 & K1).
  pose proof (segment_copyable file p first last O Hr) as Hcp. rewrite <- A1 in Hcp. unfold is_u64 in W3.
  pose proof (copy_loop_call a image y0 E E1 file p (fun _ => Z.lor (segment_flags p) VM_USER) (Z.to_nat (ph_file_size p)) 0 s1 Hcp L1) as H.
  destruct (copy_loop _ file p image 0 s1) as [b2 s2]. destruct H as (-> & L2 & P2 & U2 & V2 & F2 & K2); [lia|lia| |].
  { apply (filled_ext _ _ _ _ _ E1 _ (fun e _ => conj eq_refl (part_zero file p (ep_virtual_address e))) F1). }
  split_and!; [by eapply pages_step_trans|by eapply untouched_trans| |].
  - exists E1. split_and!; try done. by eapply entries_kept_trans.
  - intros n Hq Hmp Hlen Hs. split; [done|]. rewrite V2. by apply S1.
Qed.
