(* ===== verification/ElfLoad.v ===== *)
(** What the validation of a file establishes, the loading of its segments, and
    the whole of a load. *)

From S2P Require Import Prelude Pmm PmmProofs PmmRefine ObjectStorage Kernel.
From S2P Require Import Objects Frames Vmm VmmWf VmmEdit VmmOps.
From S2P Require Import VmmCalls VmmUnmap VmmLife VmmShare VmmMachine.
From S2P Require Import Space SpaceWf SpaceOps Vfs UserMemory UserElf ElfClaims.
From S2P Require Import ElfRelease ElfMap.

Open Scope jcos_scope.

Local Notation frames E := (ep_frame <$> E).
Local Notation addresses E := (ep_virtual_address <$> E).

(** * Files *)

(** The node describes memory: [size] bytes at [data]. *)
Record file_ok (file : VfsNode) : Prop := {
  fo_size : n_size file = Z.of_nat (length (bytes file)) /\ is_u64 (n_size file);
  fo_bytes : Forall (fun b => 0 <= b < 256) (bytes file) }.

Lemma elf_byte_range d i : Forall (fun b => 0 <= b < 256) d -> 0 <= byte_at d i < 256.
Proof. intros H. unfold byte_at. destruct (d !! Z.to_nat i) as [b|] eqn:E; [|cbn; lia]. exact (Forall_lookup_1 _ _ _ _ H E). Qed.

Lemma le_range d o n : Forall (fun b => 0 <= b < 256) d -> 0 <= le d o n < 256 ^ Z.of_nat n.
Proof.
  intros H. revert o. induction n as [|n IH]; intros o; cbn [le]; [cbn; lia|]. pose proof (elf_byte_range d o H). specialize (IH (o + 1)).
  rewrite Nat2Z.inj_succ, Z.pow_succ_r by lia. nia.
Qed.

Lemma program_header_words file header i p :
  file_ok file -> program_header file header i = Some p ->
  is_u64 (ph_offset p) /\ is_u64 (ph_virtual_address p) /\ is_u64 (ph_file_size p) /\ is_u64 (ph_memory_size p).
Proof.
  intros [_ Hb]. unfold program_header. do 3 (if_case; [done|]). intros [= <-]. unfold is_u64.
  split_and!; apply (le_range _ _ 8 Hb).
Qed.

(** * Segments *)

(** A segment the loader gives memory. *)
Definition loaded_segment (p : Elf64ProgramHeader) : Prop := ph_type p = ELF64_PT_LOAD /\ ph_memory_size p <> 0.

#[export] Instance loaded_segment_dec p : Decision (loaded_segment p).
Proof. unfold loaded_segment. apply _. Defined.

Definition loads (file : VfsNode) (header : Elf64Header) (l : list Z) : list Elf64ProgramHeader :=
  filter loaded_segment (omap (program_header file header) l).

(** The segments of the file that are loaded, in the order of the table. *)
Definition segments (file : VfsNode) (header : Elf64Header) : list Elf64ProgramHeader :=
  loads file header (seqZ 0 (h_program_header_count header)).

Definition seg_pages (p : Elf64ProgramHeader) : list Z :=
  match load_segment_page_range p with Some (first, last) => pages_in first last | None => [] end.

(** The entry point is in the bytes of the file of an executable segment. *)
Definition enters (header : Elf64Header) (p : Elf64ProgramHeader) : Prop :=
  has (ph_flags p) ELF64_PF_X = true /\ ph_virtual_address p <= h_entry header < ph_virtual_address p + ph_file_size p.

Definition all_pages (P : list Elf64ProgramHeader) : list Z := concat (seg_pages <$> P).

Lemma all_pages_app P Q : all_pages (P ++ Q) = all_pages P ++ all_pages Q.
Proof. unfold all_pages. by rewrite fmap_app, concat_app. Qed.

Lemma all_pages_elem P va : va ∈ all_pages P <-> exists p, p ∈ P /\ va ∈ seg_pages p.
Proof.
  unfold all_pages. rewrite list_elem_of_In, in_concat. setoid_rewrite <- list_elem_of_In. setoid_rewrite list_elem_of_fmap.
  split; [intros (x & (p & -> & Hp) & Hva); eauto|intros (p & Hp & Hva); eauto 6].
Qed.

(** What the validation knows after the segments [P]. *)
Record validated (y : System) (a : Z) (file : VfsNode) (header : Elf64Header) (P : list Elf64ProgramHeader) (st : Validation) : Prop := {
  va_ranges : Forall2 (fun p r => load_segment_page_range p = Some r) P (vs_loads st);
  va_pages : vs_pages st = Z.of_nat (length (all_pages P));
  va_bound : vs_pages st <= 64;
  va_ok : forall p, p ∈ P -> segment_ok file p;
  va_distinct : NoDup (all_pages P);
  va_absent : forall va, va ∈ all_pages P -> address_space_query_page y a va = None;
  va_stack : forall va, va ∈ all_pages P -> va <> USER_STACK_INITIAL_BASE /\ va <> USER_STACK_INITIAL_BASE - 4096 /\ va <> USER_STACK_INITIAL_BASE + 4096;
  va_entry : vs_entry st = true -> exists p, p ∈ P /\ enters header p }.

Lemma validated_start y a file header : validated y a file header [] (mkValidation [] 0 false).
Proof. split; try done; try (by intros p ?%not_elem_of_nil); constructor. Qed.

(** Ranges of whole pages that do not overlap have no page in common. *)
Lemma ranges_apart first last first' last' va :
  first mod 4096 = 0 -> first' mod 4096 = 0 -> last mod 4096 = 0 -> last' mod 4096 = 0 ->
  (first' <? last) && (first <? last') = false -> va ∈ pages_in first last -> va ∈ pages_in first' last' -> False.
Proof.
  intros A1 A2 A3 A4 H (i & Hi & ->)%pages_in_elem (j & Hj & E)%pages_in_elem. apply andb_false_iff in H as [H|H]; bool_prop; Z.to_euclidean_division_equations; lia.
Qed.

Lemma stack_apart first last va :
  user_stack_initial_reservation_conflicts first last = false -> first mod 4096 = 0 -> va ∈ pages_in first last ->
  va <> USER_STACK_INITIAL_BASE /\ va <> USER_STACK_INITIAL_BASE - 4096 /\ va <> USER_STACK_INITIAL_BASE + 4096.
Proof.
  unfold user_stack_initial_reservation_conflicts. if_case; [done|]. intros H Ha (i & Hi & ->)%pages_in_elem. bool_prop.
  change (VM_PAGE_SIZE - 1) with (FRAME_SIZE - 1) in *. rewrite page_offset in *. unfold VM_PAGE_SIZE in *.
  apply andb_false_iff in H as [H|H]; bool_prop; Z.to_euclidean_division_equations; lia.
Qed.

Lemma existsb_absent y a l :
  List.existsb (fun va => if address_space_query_page y a va then true else false) l = false ->
  forall va, va ∈ l -> address_space_query_page y a va = None.
Proof.
  intros H va Hva. destruct (address_space_query_page y a va) eqn:E; [|done]. rewrite (proj2 (existsb_exists _ l)) in H; [done|].
  exists va. by rewrite <- list_elem_of_In, E.
Qed.

(** The pages of a new segment are not those of earlier ones. *)
Lemma new_pages_distinct y a file header P st p first last :
  validated y a file header P st -> is_u64 (ph_virtual_address p) -> is_u64 (ph_memory_size p) -> load_segment_page_range p = Some (first, last) ->
  List.existsb (fun '(f, l) => (first <? l) && (f <? last)) (vs_loads st) = false -> NoDup (all_pages P ++ pages_in first last).
Proof.
  intros V W1 W2 Hr Hex. apply list.NoDup_app. split_and!; [apply V| |apply pages_in_NoDup]. intros va Hva Hva'.
  apply all_pages_elem in Hva as (q & Hq & Hva). unfold seg_pages in Hva. destruct (load_segment_page_range q) as [[f l]|] eqn:Eq; [|by apply not_elem_of_nil in Hva].
  apply list_elem_of_lookup in Hq as (i & Hi). destruct (Forall2_lookup_l _ _ _ _ _ (va_ranges _ _ _ _ _ _ V) Hi) as ([f' l'] & Hi' & E').
  rewrite Eq in E'. injection E' as <- <-. destruct (so_words _ _ (va_ok _ _ _ _ _ _ V q (list_elem_of_lookup_2 _ _ _ Hi))) as (_ & X1 & _ & X2).
  destruct (page_range_spec q f l X1 X2 Eq) as (_ & _ & _ & A1 & A2 & _), (page_range_spec p first last W1 W2 Hr) as (_ & _ & _ & A3 & A4 & _).
  apply (ranges_apart f l first last va); try done. destruct ((first <? l) && (f <? last)) eqn:E; [|done].
  rewrite (proj2 (existsb_exists _ _)) in Hex; [done|]. exists (f, l). split; [|done]. apply list_elem_of_In. by apply list_elem_of_lookup_2 in Hi'.
Qed.

Lemma validate_load_step y a file header P st p st' :
  file_ok file -> validated y a file header P st ->
  is_u64 (ph_offset p) /\ is_u64 (ph_virtual_address p) /\ is_u64 (ph_file_size p) /\ is_u64 (ph_memory_size p) ->
  ph_file_size p <= ph_memory_size p -> ph_memory_size p <> 0 ->
  validate_load y a file header p st = Some st' -> validated y a file header (P ++ [p]) st'.
Proof.
  intros Fo V Hw Hs Hm H. pose proof Hw as (W1 & W2 & W3 & W4). unfold validate_load in H. do 5 (if_case_in H; [done|]).
  destruct (load_segment_page_range p) as [[first last]|] eqn:Hr; [|done]. cbn [mbind option_bind] in H. do 6 (if_case_in H; [done|]). injection H as <-.
  destruct (page_range_spec p first last W2 W4 Hr) as (R1 & R2 & R3 & R4 & R5 & R6 & R7).
  assert (1 < ph_alignment p -> ph_virtual_address p mod ph_alignment p = ph_offset p mod ph_alignment p) as Hal.
  { intros Ha. apply andb_false_iff in E3 as [E3|E3]; [apply Z.ltb_ge in E3; lia|]. apply orb_false_iff in E3 as [_ E3].
    by apply negb_false_iff, Z.eqb_eq in E3. }
  clear E3. bool_prop.
  destruct (fo_size _ Fo) as [Fs _]. unfold USER_ELF_MAX_LOAD_PAGES, VM_PAGE_SIZE in *. set (n := (last - first) / 4096) in *.
  assert (0 <= n) as Hn by (apply Z.div_pos; lia). rewrite u32_id in * by lia.
  assert (seg_pages p = pages_in first last) as Ep by (unfold seg_pages; by rewrite Hr).
  assert (all_pages (P ++ [p]) = all_pages P ++ pages_in first last) as Ea by (rewrite all_pages_app; unfold all_pages at 2; cbn; by rewrite Ep, app_nil_r).
  pose proof V as [V1 V2 V3 V4 V5 V6 V7 V8]. split; cbn [vs_loads vs_pages vs_entry]; rewrite ?Ea.
  - apply Forall2_app; [done|]. by constructor.
  - rewrite length_app, Nat2Z.inj_add, (pages_in_length first last) by lia. by rewrite V2.
  - lia.
  - intros q [Hq| ->%list_elem_of_singleton]%elem_of_app; [by apply V4|]. split; [done|lia|done|done|exact Hal].
  - by apply (new_pages_distinct y a file header P st p first last).
  - intros va [Hva|Hva]%elem_of_app; [by apply V6|by apply (existsb_absent _ _ _ E9)].
  - intros va [Hva|Hva]%elem_of_app; [by apply V7|by apply (stack_apart first last)].
  - intros [He|He]%orb_true_iff; [destruct (V8 He) as (q & Hq & Hx); exists q; split; [apply elem_of_app; by left|done]|].
    exists p. split; [apply elem_of_app; right; by apply list_elem_of_singleton|]. unfold is_u64, ADDRESS_SPACE_USER_LIMIT in *.
    rewrite u64_id in He by (unfold is_u64; lia). bool_prop. split; [done|lia].
Qed.

Lemma validate_segment_step y a file header P st i st' :
  file_ok file -> validated y a file header P st -> validate_segment y a file header st i = Some st' ->
  is_Some (program_header file header i) /\ validated y a file header (P ++ loads file header [i]) st'.
Proof.
  intros Fo V H. unfold validate_segment in H. unfold loads. cbn [omap list_omap]. destruct (program_header file header i) as [p|] eqn:Hp; [|done]. cbn [mbind option_bind] in H.
  split; [done|]. if_case_in H; [done|]. destruct (Z.eqb_spec (ph_type p) ELF64_PT_LOAD) as [Et|Et]; cbn [negb] in H.
  2: { injection H as <-. rewrite filter_cons_False by (intros [? _]; done). by rewrite filter_nil, app_nil_r. }
  if_case_in H; [done|]. destruct (Z.eqb_spec (ph_memory_size p) 0) as [Em|Em]; unfold nz in H; rewrite ?Em, ?(proj2 (Z.eqb_neq _ _) Em) in H; cbn [negb Z.eqb] in H.
  - injection H as <-. rewrite filter_cons_False by (intros [_ ?]; done). by rewrite filter_nil, app_nil_r.
  - rewrite filter_cons_True by done. rewrite filter_nil. bool_prop. apply (validate_load_step y a file header P st p st'); try done. by eapply program_header_words.
Qed.

Lemma loads_cons file header i l : loads file header (i :: l) = loads file header [i] ++ loads file header l.
Proof. unfold loads. rewrite <- list.filter_app. cbn [omap list_omap]. by destruct (program_header file header i). Qed.

Lemma foldl_none {A B} (f : A -> B -> option A) l : foldl (fun st i => st ← st; f st i) None l = None.
Proof. by induction l. Qed.

Lemma validate_loop_step y a file header l P st st' :
  file_ok file -> validated y a file header P st -> foldl (fun st i => st ← st; validate_segment y a file header st i) (Some st) l = Some st' ->
  (forall i, i ∈ l -> is_Some (program_header file header i)) /\ validated y a file header (P ++ loads file header l) st'.
Proof.
  intros Fo. revert P st. induction l as [|i l IH]; intros P st V H; cbn [foldl] in H.
  - injection H as <-. change (loads file header []) with (@nil Elf64ProgramHeader). rewrite app_nil_r. split; [by intros i ?%not_elem_of_nil|done].
  - cbn [mbind option_bind] in H. destruct (validate_segment y a file header st i) as [st1|] eqn:E; [|by rewrite foldl_none in H].
    destruct (validate_segment_step y a file header P st i st1 Fo V E) as [Hi V1]. destruct (IH _ st1 V1 H) as [Hl V2].
    rewrite <- app_assoc, <- loads_cons in V2. split; [|done]. intros j [->|Hj]%elem_of_cons; [done|by apply Hl].
Qed.

(** * The contract of the validation *)

Record load_plan (y : System) (a : Z) (file : VfsNode) (header : Elf64Header) (n : Z) : Prop := {
  lp_headers : forall i, 0 <= i < h_program_header_count header -> is_Some (program_header file header i);
  lp_count : n = Z.of_nat (length (all_pages (segments file header)));
  lp_bound : 0 < n <= 64;
  lp_ok : forall p, p ∈ segments file header -> segment_ok file p /\ is_Some (load_segment_page_range p);
  lp_distinct : NoDup (all_pages (segments file header));
  lp_absent : forall va, va ∈ all_pages (segments file header) -> address_space_query_page y a va = None;
  lp_stack : forall va, va ∈ all_pages (segments file header) ->
    va <> USER_STACK_INITIAL_BASE /\ va <> USER_STACK_INITIAL_BASE - 4096 /\ va <> USER_STACK_INITIAL_BASE + 4096;
  lp_entry : exists p, p ∈ segments file header /\ enters header p }.

Lemma validate_segments_call y a file header n :
  file_ok file -> validate_segments y a file header = Some n -> load_plan y a file header n.
Proof.
  intros Fo H. unfold validate_segments in H. destruct (foldl _ _ _) as [st|] eqn:E; [|done]. cbn [mbind option_bind] in H. if_case_in H; [done|]. injection H as <-.
  destruct (validate_loop_step y a file header _ _ _ st Fo (validated_start y a file header) E) as [Hi [V1 V2 V3 V4 V5 V6 V7 V8]].
  rewrite app_nil_l in *. bool_prop. split; try done.
  - intros i Hx. apply Hi. apply elem_of_seqZ. lia.
  - split; [|done]. destruct (Z.eqb_spec (vs_pages st) 0); [by bool_prop|lia].
  - intros p Hp. split; [by apply V4|]. apply list_elem_of_lookup in Hp as (i & Hp). destruct (Forall2_lookup_l _ _ _ _ _ V1 Hp) as (r & _ & ->). done.
  - by apply V8.
Qed.

(** * The loop over the table *)

(** The entries [E] are the pages of the segments [P], with their permissions and
    contents. *)
Definition placed (a : Z) (file : VfsNode) (P : list Elf64ProgramHeader) (E : list UserElfPage) (y : System) : Prop :=
  exists Es, E = concat Es /\
    Forall2 (fun p D => addresses D = seg_pages p /\ filled a (fun _ => Z.lor (segment_flags p) VM_USER) (part file p (ph_file_size p)) D y) P Es.

Lemma placed_addresses a file P E y : placed a file P E y -> addresses E = all_pages P.
Proof.
  intros (Es & -> & H). induction H as [|p D P Es [Ha _] _ IH]; [done|]. cbn [concat]. rewrite fmap_app, IH, Ha. done.
Qed.

Lemma placed_kept a file P E y y' : entries_kept a E y y' -> placed a file P E y -> placed a file P E y'.
Proof.
  intros K (Es & -> & H). exists Es. split; [done|]. apply Forall2_same_length_lookup in H as [Hlen H]. apply Forall2_same_length_lookup. split; [done|].
  intros i p D Hp HD. destruct (H i p D Hp HD) as [Ha Hf]. split; [done|]. apply K; [|done]. intros e He. apply list_elem_of_In, in_concat.
  exists D. rewrite <- !list_elem_of_In. split; [by apply list_elem_of_lookup_2 in HD|done].
Qed.

Lemma placed_snoc a file P E p D y :
  placed a file P E y -> addresses D = seg_pages p ->
  filled a (fun _ => Z.lor (segment_flags p) VM_USER) (part file p (ph_file_size p)) D y -> placed a file (P ++ [p]) (E ++ D) y.
Proof.
  intros (Es & -> & H) Ha Hf. exists (Es ++ [D]). rewrite concat_app. cbn [concat]. rewrite app_nil_r. split; [done|]. apply Forall2_app; [done|]. by constructor.
Qed.

(** What the machine provides for mapping. *)
Definition machine_ready (y : System) : Prop :=
  v_nx_enabled (y_vmm y) = true /\ v_use_phys_map (y_vmm y) = true /\ profile_supported (y_vmm y) = true.

Lemma supply_weaken n m v : (n <= m)%nat -> supply m v -> supply n v.
Proof. intros H [S1 S2 S3 S4]. split; [done|done|lia|done]. Qed.

(** A turn of the loop: a segment, or an entry that is not loaded. *)
Lemma load_segment_call a image y0 E s file header P i p :
  ledger a image y0 E s -> placed a file P E (l_system s) -> program_header file header i = Some p ->
  (loaded_segment p -> segment_ok file p) -> NoDup (all_pages (P ++ loads file header [i])) ->
  (forall va, va ∈ all_pages (loads file header [i]) -> address_space_query_page y0 a va = None) ->
  (loaded_segment p -> is_Some (load_segment_page_range p)) ->
  let '(b, s') := load_segment a file header image i s in
  pages_step image s s' /\ untouched y0 (l_system s) (l_system s') /\
  (if (b : bool) then exists E', ledger a image y0 E' s' /\ placed a file (P ++ loads file header [i]) E' (l_system s')
   else exists E', ledger a image y0 E' s') /\
  (forall n, elf_quiet s -> machine_ready y0 -> destroy_pending (pmap (y_vmm y0) (page_map a)) = false ->
     (length (all_pages (P ++ loads file header [i])) <= 64)%nat ->
     supply (4 * length (all_pages (loads file header [i])) + n) (y_vmm (l_system s)) -> b = true /\ supply n (y_vmm (l_system s'))).
Proof.
  intros L Pl Hp Ho Hnd Habs Hrange. unfold load_segment. rewrite Hp. revert Hnd Habs. unfold loads. cbn [omap list_omap]. rewrite Hp.
  destruct (decide (loaded_segment p)) as [Hl|Hl].
  2: { rewrite filter_cons_False, filter_nil, app_nil_r by done. intros _ _.
       assert ((if ph_type p != ELF64_PT_LOAD then (true, s) else map_segment a file p image s) = (true, s)) as ->.
       { destruct (Z.eqb_spec (ph_type p) ELF64_PT_LOAD) as [E1|E1]; [|done]. cbn [negb]. unfold map_segment, nz.
         destruct (Z.eqb_spec (ph_memory_size p) 0) as [E2|E2]; [done|]. by destruct Hl. }
       split_and!; [apply pages_step_refl|apply untouched_refl|by exists E|]. intros n _ _ _ _ Hs. by split. }
  rewrite filter_cons_True, filter_nil by done. pose proof Hl as [Ht Hm]. rewrite Ht, Z.eqb_refl. cbn [negb]. intros Hnd Habs.
  destruct (Hrange Hl) as [[first last] Hr]. assert (seg_pages p = pages_in first last) as Es by (unfold seg_pages; by rewrite Hr).
  assert (all_pages [p] = pages_in first last) as Ea by (unfold all_pages; cbn; by rewrite Es, app_nil_r). rewrite all_pages_app, Ea in *.
  pose proof (map_segment_call a image y0 E s file p first last L (Ho Hl) Hr) as H. destruct (map_segment a file p image s) as [b s'].
  destruct H as (P1 & U1 & R1 & S1).
  { intros va Hva. split; [by apply Habs|]. rewrite (placed_addresses _ _ _ _ _ Pl). apply list.NoDup_app in Hnd as (_ & Hd & _). intros Hx. by apply (Hd va). }
  split_and!; [done|done| |].
  - destruct b; [|done]. destruct R1 as (D & A1 & L1 & F1 & K1). exists (E ++ D). split; [done|].
    apply placed_snoc; [by eapply placed_kept|by rewrite Es|done].
  - intros n Hq (M1 & M2 & M3) Hpd Hlen Hs. apply S1; try done.
    + split; [by apply (segment_flags_spec file), Ho|done|done].
    + pose proof (f_equal length (placed_addresses _ _ _ _ _ Pl)) as Hl'. rewrite length_fmap in Hl'. rewrite length_app in Hlen. lia.
Qed.

Lemma loads_app file header l l' : loads file header (l ++ l') = loads file header l ++ loads file header l'.
Proof. induction l as [|i l IH]; [done|]. change ((i :: l) ++ l') with (i :: (l ++ l')). by rewrite loads_cons, IH, (loads_cons file header i l), app_assoc. Qed.

Lemma loads_elem file header l p : p ∈ loads file header l <-> loaded_segment p /\ exists i, i ∈ l /\ program_header file header i = Some p.
Proof. unfold loads. rewrite list_elem_of_filter, list_elem_of_omap. done. Qed.

Lemma load_loop_call a image y0 file header l P E s :
  ledger a image y0 E s -> placed a file P E (l_system s) -> (forall i, i ∈ l -> is_Some (program_header file header i)) ->
  (forall p, p ∈ loads file header l -> segment_ok file p /\ is_Some (load_segment_page_range p)) ->
  NoDup (all_pages (P ++ loads file header l)) ->
  (forall va, va ∈ all_pages (loads file header l) -> address_space_query_page y0 a va = None) ->
  let '(b, s') := each (load_segment a file header image) l s in
  pages_step image s s' /\ untouched y0 (l_system s) (l_system s') /\
  (if (b : bool) then exists E', ledger a image y0 E' s' /\ placed a file (P ++ loads file header l) E' (l_system s')
   else exists E', ledger a image y0 E' s') /\
  (forall n, elf_quiet s -> machine_ready y0 -> destroy_pending (pmap (y_vmm y0) (page_map a)) = false ->
     (length (all_pages (P ++ loads file header l)) <= 64)%nat ->
     supply (4 * length (all_pages (loads file header l)) + n) (y_vmm (l_system s)) -> b = true /\ supply n (y_vmm (l_system s'))).
Proof.
  revert P E s. induction l as [|i l IH]; intros P E s L Pl Hi Ho Hnd Habs; cbn [each].
  - change (loads file header []) with (@nil Elf64ProgramHeader). rewrite app_nil_r. split_and!; [apply pages_step_refl|apply untouched_refl|by exists E|].
    intros n _ _ _ _ Hs. by split.
  - rewrite loads_cons in *. destruct (Hi i) as [p Hp]; [by left|].
    assert (loaded_segment p -> p ∈ loads file header [i] ++ loads file header l) as Hin.
    { intros Hl. apply elem_of_app. left. apply loads_elem. split; [done|]. exists i. split; [by left|done]. }
    rewrite app_assoc in *. rewrite (all_pages_app (P ++ _)) in *. rewrite (all_pages_app (loads file header [i])) in *.
    pose proof (load_segment_call a image y0 E s file header P i p L Pl Hp (fun Hl => proj1 (Ho p (Hin Hl)))
      (proj1 (proj1 (list.NoDup_app _ _) Hnd)) (fun va Hva => Habs va ltac:(apply elem_of_app; by left)) (fun Hl => proj2 (Ho p (Hin Hl)))) as H.
    destruct (load_segment a file header image i s) as [b s1]. destruct H as (P1 & U1 & R1 & S1). rewrite length_app in *. destruct b.
    2: { split_and!; [done|done|done|]. intros n Hq Hm Hd Hlen Hs.
         destruct (S1 (4 * length (all_pages (loads file header l)) + n)%nat Hq Hm Hd ltac:(lia)) as [? _]; [|done]. eapply supply_weaken; [|exact Hs]. rewrite !length_app. lia. }
    destruct R1 as (E1 & L1 & Pl1). specialize (IH (P ++ loads file header [i]) E1 s1 L1 Pl1 (fun j Hj => Hi j ltac:(by right))
      (fun q Hq => Ho q ltac:(apply elem_of_app; by right))). rewrite all_pages_app in IH. specialize (IH Hnd (fun va Hva => Habs va ltac:(apply elem_of_app; by right))).
    destruct (each _ l s1) as [b s2]. destruct IH as (P2 & U2 & R2 & S2). rewrite length_app in S2.
    split_and!; [by eapply pages_step_trans|by eapply untouched_trans|done|]. intros n Hq Hm Hd Hlen Hs.
    destruct (S1 (4 * length (all_pages (loads file header l)) + n)%nat Hq Hm Hd ltac:(lia)) as [_ Hs1]; [eapply supply_weaken; [|exact Hs]; rewrite !length_app; lia|].
    apply S2; [by apply (ps_quiet _ _ _ P1)|done|done|done|done].
Qed.

(** * The process *)

Lemma with_image_wf p image y : spaces_wf y -> spaces_wf (with_image p image y).
Proof. intros [S1 S2 S3 S4 S5 S6 S7 S8 S9 S10]. by split. Qed.

Lemma available_space s process a :
  spaces_wf (l_system s) -> process_available s process = Some a ->
  user_space (spaces (l_system s)) a /\ destroy_pending (pmap (y_vmm (l_system s)) (page_map a)) = false.
Proof.
  intros W H. unfold process_available in H. do 3 (if_case_in H; [done|]). injection H as <-. set (a := process_address_space (kernel s) process) in *. bool_prop.
  unfold address_space_cr3 in *.
  destruct (!space_storage_live (kernel s) a || (a_root_frame (spc (kernel s) a) =? FRAME_INVALID) || a_destroy_pending (spc (kernel s) a)) eqn:Hc; [done|].
  bool_prop. assert (a ∈ spaces (l_system s)) as Ha by (apply (bool_decide_unpack _); rewrite <- live_spaces by done; by apply Is_true_true).
  destruct (sp_shown _ W a Ha) as [_ Hd]. rewrite <- Hd. split; [|done]. split; [done|]. intros Hk.
  pose proof (sp_kernel _ W a Ha) as Hx. rewrite bool_decide_true in Hx by done. unfold kernel in *. congruence.
Qed.

Lemma available_releasable s process a image :
  spaces_wf (l_system s) -> process_available s process = Some a -> no_faults (y_vmm (l_system s)) -> profile_supported (y_vmm (l_system s)) = true ->
  releasable a (with_image process image (l_system s)).
Proof.
  intros W H Hn Hp. destruct (available_space s process a W H) as [Ha Hd]. split; [done|]. intros va Hu Hok.
  change (y_vmm (with_image process image (l_system s))) with (y_vmm (l_system s)). pose proof (sp_maps _ W) as M.
  destruct (mp_live _ _ M a (proj1 Ha)) as [H1 H2]. unfold change_allowed. rewrite Hp, H1, (proj2 (Z.eqb_neq _ _) H2), Hd, (private _ _ a M Ha), Hok. cbn [negb andb].
  by apply (user_owned _ _ _ _ M (proj1 Ha)).
Qed.

(** * The whole load *)

(** The checks that come before the first change of the state; the results are
    the space and the number of pages. *)
Definition load_checks (s : Loader) (process : Z) (file : VfsNode) (image : Z) : option (Z * Z) :=
  if !nz image || user_elf_needs_cleanup s image then None else
  space ← process_available s process;
  if nz (p_elf_image (prc (kernel s) process)) || !threads_unpublished (kernel s) process then None else
  if !bool_decide (n_type file = VFS_FILE) || !(if n_data file then true else false) || (n_size file <? SIZEOF_HEADER) then None else
  if !elf_header_valid file (read_header (bytes file)) then None else
  pages ← validate_segments (l_system s) space file (read_header (bytes file));
  Some (space, pages).

(** The state in which the ledger is published. *)
Definition published (process a image : Z) (s : Loader) : Loader :=
  let s := set_img image (fun _ => image_zero <| i_owner := process |> <| i_owner_process_id := p_id (prc (kernel s) process) |>
                                     <| i_owner_space_id := a_id (spc (kernel s) a) |>) s in
  set_kernel (set_prc process (fun p => p <| p_elf_image := image |>)) s.

Lemma load_locked_eq process file image s :
  load_locked process file image s =
  match load_checks s process file image with
  | None => (false, s)
  | Some (a, pages) =>
    let '(loaded, s) := each (load_segment a file (read_header (bytes file)) image) (seqZ 0 (h_program_header_count (read_header (bytes file)))) (published process a image s) in
    if !loaded || (i_page_count (img s image) != pages) then (false, (release_pages process a image s).2) else
    (true, set_img image (fun x => x <| i_entry := h_entry (read_header (bytes file)) |> <| i_loaded := true |>) s)
  end.
Proof.
  unfold load_locked, load_checks. if_case; [done|]. destruct (process_available s process) as [a|]; [|done]. cbn [mbind option_bind].
  if_case; [done|]. if_case; [done|]. if_case; [done|]. by destruct (validate_segments _ _ _ _).
Qed.

(** What a check that passes has established. *)
Lemma load_checks_spec s process file image a n :
  file_ok file -> load_checks s process file image = Some (a, n) ->
  process_available s process = Some a /\ p_elf_image (prc (kernel s) process) = 0 /\ image <> 0 /\
  load_plan (l_system s) a file (read_header (bytes file)) n.
Proof.
  intros Fo. unfold load_checks. if_case; [done|]. destruct (process_available s process) as [x|]; [|done]. cbn [mbind option_bind].
  if_case; [done|]. if_case; [done|]. if_case; [done|]. destruct (validate_segments _ _ _ _) as [m|] eqn:Ev; [|done]. intros [= -> ->]. bool_prop.
  split_and!; [done|done|done|by apply validate_segments_call].
Qed.

(** The image has no page and everything else is as before. *)
Record rolled_back (process a image : Z) (s s' : Loader) : Prop := {
  rb_image : img s' image = image_zero;
  rb_kernel : kernel s' = set_prc process (fun p => p <| p_elf_image := 0 |>) (set_prc process (fun p => p <| p_elf_image := image |>) (kernel s));
  rb_claims : exists y, claims a (with_image process image (l_system s)) [] y /\ l_system s' = with_image process 0 y }.

Lemma published_img process a image s x :
  img (published process a image s) x =
  if decide (x = image) then image_zero <| i_owner := process |> <| i_owner_process_id := p_id (prc (kernel s) process) |> <| i_owner_space_id := a_id (spc (kernel s) a) |>
  else img s x.
Proof. unfold published. set (s1 := set_img image _ s). change (img (set_kernel _ s1) x) with (img s1 x). unfold s1. by rewrite img_set. Qed.

Lemma published_ledger process a image s :
  spaces_wf (l_system s) -> user_space (spaces (l_system s)) a ->
  ledger a image (with_image process image (l_system s)) [] (published process a image s).
Proof.
  intros W Ha. split; rewrite ?published_img, ?decide_True by done; try done. apply claims_start; [by apply with_image_wf|done].
Qed.

(** The image belongs to the process. *)
Definition owned_image (process a image : Z) (s s' : Loader) : Prop :=
  i_owner (img s' image) = process /\ i_owner_process_id (img s' image) = p_id (prc (kernel s) process) /\
  i_owner_space_id (img s' image) = a_id (spc (kernel s) a).

Lemma owned_step process a image s s' : pages_step image (published process a image s) s' -> owned_image process a image s s'.
Proof.
  intros P. destruct (ps_image _ _ _ P) as (_ & _ & _ & I1 & I2 & I3). rewrite published_img, decide_True in * by done. split_and!; assumption.
Qed.

Lemma owner_matches process a image s s' E :
  ledger a image (with_image process image (l_system s)) E s' -> owned_image process a image s s' -> image_owner_matches s' process a image = true.
Proof.
  intros L (O1 & O2 & O3). pose proof (ledger_bound _ _ _ _ _ L) as Hb. unfold image_owner_matches, kernel. rewrite (cl_kernel _ _ _ _ (lg_claims _ _ _ _ _ L)), O1, O2, O3, (lg_count _ _ _ _ _ L).
  change (y_kernel (with_image process image (l_system s))) with (set_prc process (fun p => p <| p_elf_image := image |>) (kernel s)).
  change (spc (set_prc process _ (kernel s)) a) with (spc (kernel s) a). rewrite prc_set, decide_True by done. upd_simpl.
  unfold USER_ELF_MAX_LOAD_PAGES. rewrite !Z.eqb_refl. cbn [andb]. apply Z.leb_le. lia.
Qed.

Lemma load_call process file image s :
  spaces_wf (l_system s) -> file_ok file ->
  match load_checks s process file image with
  | None => user_elf_load process file image s = (false, s)
  | Some (a, n) =>
    let y0 := with_image process image (l_system s) in
    let '(b, s') := user_elf_load process file image s in
    (forall x, x <> image -> img s' x = img s x) /\ untouched (l_system s) (l_system s) (l_system s') /\
    (b = true -> exists E, ledger a image y0 E s' /\ placed a file (segments file (read_header (bytes file))) E (l_system s') /\ owned_image process a image s s' /\
       i_loaded (img s' image) = true /\ i_cleanup_pending (img s' image) = false /\ i_entry (img s' image) = h_entry (read_header (bytes file))) /\
    (b = false -> rolled_back process a image s s' \/
       (exists E, ledger a image y0 E s') /\ i_cleanup_pending (img s' image) = true /\ i_loaded (img s' image) = false /\ owned_image process a image s s') /\
    (b = false -> elf_quiet s -> no_faults (y_vmm (l_system s)) -> profile_supported (y_vmm (l_system s)) = true -> rolled_back process a image s s') /\
    (elf_quiet s -> machine_ready (l_system s) -> supply (4 * Z.to_nat n) (y_vmm (l_system s)) -> b = true)
  end.
Proof.
  intros W Fo. unfold user_elf_load. rewrite load_locked_eq. destruct (load_checks s process file image) as [[a n]|] eqn:Hc; [|done].
  destruct (load_checks_spec s process file image a n Fo Hc) as (Hav & Hno & _ & Pn). set (header := read_header (bytes file)) in *.
  destruct (available_space s process a W Hav) as [Ha Hd]. set (y0 := with_image process image (l_system s)). cbn zeta.
  pose proof (published_ledger process a image s W Ha) as L0. set (s0 := published process a image s) in *. fold y0 in L0.
  assert (placed a file [] [] (l_system s0)) as Pl0 by (by exists []).
  pose proof (load_loop_call a image y0 file header (seqZ 0 (h_program_header_count header)) [] [] s0 L0 Pl0
    (fun i Hi => lp_headers _ _ _ _ _ Pn i ltac:(apply elem_of_seqZ in Hi; lia)) (lp_ok _ _ _ _ _ Pn) (lp_distinct _ _ _ _ _ Pn) (lp_absent _ _ _ _ _ Pn)) as H.
  rewrite app_nil_l in H. change (loads file header (seqZ 0 (h_program_header_count header))) with (segments file header) in H.
  destruct (each _ _ s0) as [b s1]. destruct H as (P1 & U1 & R1 & S1). pose proof (owned_step process a image s s1 P1) as O1.
  assert (forall x, x <> image -> img s1 x = img s x) as Eo by (intros x Hx; rewrite (ps_other _ _ _ P1) by done; unfold s0; by rewrite published_img, decide_False).
  assert (b = true -> i_page_count (img s1 image) = n) as Hcount.
  { intros ->. destruct R1 as (E & L1 & Pl). rewrite (lg_count _ _ _ _ _ L1), (lp_count _ _ _ _ _ Pn), <- (placed_addresses _ _ _ _ _ Pl). by rewrite length_fmap. }
  destruct b; cbn [negb orb].
  - rewrite (Hcount eq_refl), Z.eqb_refl. cbn [negb]. destruct R1 as (E & L1 & Pl). destruct (ps_image _ _ _ P1) as (_ & _ & I1 & _).
    unfold s0 in I1. rewrite published_img, decide_True in I1 by done.
    split_and!; [intros x Hx; by rewrite img_set, decide_False; [apply Eo|]|exact U1| |done|done|done].
    intros _. exists E. split_and!; rewrite ?img_set_eq; try done.
    + destruct L1 as [B0 B1 B2 B3]. split; rewrite ?img_set_eq; done.
    + unfold owned_image. rewrite img_set_eq. exact O1.
  - destruct R1 as (E & L1). pose proof (owner_matches process a image s s1 E L1 O1) as Hm.
    pose proof (release_pages_call a process image y0 E s1 L1 Hm) as H. destruct (release_pages process a image s1) as [r s2]. cbn [snd].
    destruct H as (D2 & Eo2 & T2 & F2 & Q2 & _).
    assert (r = true -> rolled_back process a image s s2) as Hrb.
    { intros Hr. destruct (T2 Hr) as (I2 & y & C2 & Ey). split; [done| |by exists y]. unfold kernel. rewrite Ey.
      change (y_kernel (with_image process 0 y)) with (set_prc process (fun p => p <| p_elf_image := 0 |>) (y_kernel y)). by rewrite (cl_kernel _ _ _ _ C2). }
    split_and!; [intros x Hx; by rewrite Eo2, Eo|eapply untouched_trans; [exact U1|by apply untouched_data]|done| | |].
    + intros _. destruct r; [left; by apply Hrb|right]. destruct (F2 eq_refl) as (G1 & G2 & G3 & G4 & G5 & G6). split_and!; try done. unfold owned_image. by rewrite G4, G5, G6.
    + intros _ Hq Hn Hp. apply Hrb, Q2; [by apply (ps_quiet _ _ _ P1)|]. by apply (available_releasable s).
    + intros Hq Hm' Hs. destruct (S1 0%nat Hq Hm' Hd) as [? _]; [|eapply supply_weaken; [|exact Hs]|done];
        pose proof (lp_count _ _ _ _ _ Pn); pose proof (lp_bound _ _ _ _ _ Pn); lia.
Qed.
