(* ===== verification/ElfTheorems.v ===== *)
(** Theorems on user programs in memory: reads of user memory, the loading of a
    program and its removal. *)

From S2P Require Import Prelude Pmm PmmProofs PmmRefine ObjectStorage Kernel.
From S2P Require Import Objects Frames Vmm VmmWf VmmEdit VmmOps.
From S2P Require Import VmmCalls VmmUnmap VmmLife VmmShare VmmMachine.
From S2P Require Import Space SpaceWf SpaceOps SpaceLife SpaceCreate SpaceMachine.
From S2P Require Import SpaceTheorems Vfs UserMemory UserElf ElfClaims ElfRelease ElfMap.
From S2P Require Import Thread ElfLoad.

Open Scope jcos_scope.

Local Notation frames E := (ep_frame <$> E).
Local Notation addresses E := (ep_virtual_address <$> E).

(** * Reads of user memory *)

(** The byte a user program sees at an address. *)
Definition user_byte (y : System) (space v : Z) : option Z :=
  '(frame, flags) ← address_space_query_page y space (page_down v);
  if (frame =? FRAME_INVALID) || !has flags VM_USER || !direct frame then None else frame_bytes y frame !! Z.to_nat (v mod 4096).

(** Every mapped page of a range has the bytes of a page. *)
Definition pages_full (y : System) (space address size : Z) : Prop :=
  forall i f flags, 0 <= i < size -> address_space_query_page y space (page_down (address + i)) = Some (f, flags) -> length (frame_bytes y f) = 4096%nat.

Lemma page_down_idem v i : is_u64 v -> v mod 4096 = 0 -> 0 <= i < 4096 -> page_down (v + i) = v /\ (v + i) mod 4096 = i.
Proof.
  intros Hv Ha Hi. assert ((v + i) mod 4096 = i) as E by (Z.to_euclidean_division_equations; lia). split; [|done].
  rewrite page_down_eq; [lia|]. unfold is_u64 in *. Z.to_euclidean_division_equations; lia.
Qed.

(** The bytes of one page. *)
Lemma user_byte_page y space va f flags i :
  is_u64 va -> va mod 4096 = 0 -> 0 <= i < 4096 -> address_space_query_page y space va = Some (f, flags) -> f <> FRAME_INVALID ->
  has flags VM_USER = true -> direct f = true -> user_byte y space (va + i) = frame_bytes y f !! Z.to_nat i.
Proof.
  intros Hv Ha Hi Hq Hf Hu Hd. destruct (page_down_idem va i Hv Ha Hi) as [E1 E2]. unfold user_byte. rewrite E1, E2, Hq. cbn [mbind option_bind].
  by rewrite (proj2 (Z.eqb_neq _ _) Hf), Hu, Hd.
Qed.

(** The bytes stored are those of user memory, and the read succeeds exactly when
    all of them are there. *)
Definition reads (y : System) (space address size : Z) (r : bool * list Z) : Prop :=
  (forall i b, r.2 !! i = Some b -> user_byte y space (address + Z.of_nat i) = Some b) /\ Z.of_nat (length r.2) <= size /\
  (r.1 = true -> Z.of_nat (length r.2) = size) /\
  (r.1 = false -> exists i, 0 <= i < size /\ user_byte y space (address + i) = None).

Lemma read_loop_call turns y space address remaining :
  pages_full y space address remaining -> 0 <= address -> 0 <= remaining -> address + remaining <= ADDRESS_SPACE_USER_LIMIT -> remaining <= Z.of_nat turns ->
  reads y space address remaining (read_loop turns y space address remaining).
Proof.
  revert address remaining. induction turns as [|turns IH]; intros address remaining Hp Ha Hr Hl Ht; cbn [read_loop];
    (destruct (Z.eqb_spec remaining 0) as [->|Hz]; [by split_and!|]); unfold nz; rewrite (proj2 (Z.eqb_neq _ _) Hz); cbn [negb]; [lia|].
  unfold ADDRESS_SPACE_USER_LIMIT in Hl. assert (is_u64 address) as Hu by (unfold is_u64; lia). set (va := page_down address).
  assert (va = address - address mod 4096) as Eva by (by apply page_down_eq). pose proof (Z.mod_pos_bound address 4096) as Hm.
  assert (forall out, user_byte y space address = None -> out = (false, []) -> reads y space address remaining out) as Hfail.
  { intros out Hb ->. split_and!; try done. intros _. exists 0. rewrite Z.add_0_r. split; [lia|done]. }
  destruct (address_space_query_page y space va) as [[f flags]|] eqn:Eq; [|apply Hfail; [unfold user_byte; fold va; by rewrite Eq|done]].
  destruct ((f =? FRAME_INVALID) || !has flags VM_USER) eqn:E1; [apply Hfail; [unfold user_byte; fold va; rewrite Eq; cbn [mbind option_bind]; by rewrite E1|done]|].
  destruct (direct f) eqn:E2; cbn [negb]; [|apply Hfail; [unfold user_byte; fold va; rewrite Eq; cbn [mbind option_bind]; by rewrite E1, E2|done]]. bool_prop.
  unfold VM_PAGE_SIZE. assert (exists n, (if 4096 - (address - va) >? remaining then remaining else 4096 - (address - va)) = n /\ 0 < n <= remaining /\ address - va + n <= 4096)
    as (n & -> & Hn & Hend) by (destruct (Z.ltb_spec remaining (4096 - (address - va))); eexists; split_and!; try done; lia).
  rewrite u64_id by (unfold is_u64 in *; lia). assert (pages_full y space (address + n) (remaining - n)) as Hp' by (intros i g fl Hi; rewrite <- Z.add_assoc; apply Hp; lia).
  assert (length (frame_bytes y f) = 4096%nat) as Hfull by (apply (Hp 0 f flags); [lia|]; by rewrite Z.add_0_r).
  specialize (IH (address + n) (remaining - n) Hp' ltac:(lia) ltac:(lia) ltac:(unfold ADDRESS_SPACE_USER_LIMIT; lia) ltac:(lia)).
  destruct (read_loop turns y space (address + n) (remaining - n)) as [ok out]. destruct IH as (I1 & I2 & I3 & I4). cbn [fst snd] in *.
  set (new := take _ _). assert (length new = Z.to_nat n) as Hnew by (unfold new; rewrite length_take, length_drop, Hfull; lia).
  assert (is_u64 va) as Hva by (pose proof (Z.mod_le address 4096); unfold is_u64 in *; lia). assert (va mod 4096 = 0) as Hal by (rewrite Eva; Z.to_euclidean_division_equations; lia).
  split_and!; cbn [fst snd]; rewrite ?length_app, ?Hnew.
  - intros i b Hi. destruct (decide (i < Z.to_nat n)%nat) as [Hin|Hin].
    + rewrite lookup_app_l in Hi by lia. unfold new in Hi. rewrite lookup_take_lt, lookup_drop in Hi by lia.
      replace (address + Z.of_nat i) with (va + (address - va + Z.of_nat i)) by lia. rewrite (user_byte_page y space va f flags) by (done || lia).
      rewrite <- Hi. f_equal. lia.
    + rewrite lookup_app_r, Hnew in Hi by lia. specialize (I1 _ _ Hi). rewrite <- I1. f_equal. lia.
  - lia.
  - intros Hok. specialize (I3 Hok). lia.
  - intros Hok. destruct (I4 Hok) as (i & Hi & Hb). exists (n + i). rewrite Z.add_assoc. split; [lia|done].
Qed.

(** What the caller must give: a range of user addresses in a user process. *)
Definition readable_request (y : System) (process address size : Z) : Prop :=
  process <> 0 /\ p_kernel (prc (y_kernel y) process) = false /\ 0 < size /\ ADDRESS_SPACE_USER_BASE <= address /\
  address + size <= ADDRESS_SPACE_USER_LIMIT /\ p_address_space (prc (y_kernel y) process) <> 0 /\
  a_kernel (spc (y_kernel y) (p_address_space (prc (y_kernel y) process))) = false.

Lemma read_request y process address size :
  is_u64 address -> is_u64 size ->
  (readable_request y process address size /\
   user_memory_read y process address size = read_loop (Z.to_nat size) y (p_address_space (prc (y_kernel y) process)) address size) \/
  (~ readable_request y process address size /\ user_memory_read y process address size = (false, [])).
Proof.
  unfold is_u64, readable_request, user_memory_read. intros Ha Hs. if_case; [right|if_case; [right|left]]; (split; [|done]).
  - intros (R1 & R2 & R3 & R4 & R5 & _). unfold ADDRESS_SPACE_USER_BASE, ADDRESS_SPACE_USER_LIMIT in *. unfold nz in E. rewrite R2 in E.
    repeat (apply orb_true_iff in E as [E|E]); bool_prop; try lia; done.
  - intros (_ & _ & _ & _ & _ & R6 & R7). rewrite R7 in E0. apply orb_true_iff in E0 as [E0|E0]; [|done]. bool_prop. done.
  - bool_prop. split_and!; try done; lia.
Qed.

(** C2. [user_memory_read] succeeds exactly when the request is a range of user
    addresses of a user process and every byte of it is on a present, user
    accessible page; it then stores exactly the bytes of user memory in that range,
    across page boundaries, and before a failure it has stored only bytes of user
    memory. *)
Theorem user_memory_read_correct y process address size :
  is_u64 address -> is_u64 size -> pages_full y (p_address_space (prc (y_kernel y) process)) address size ->
  let space := p_address_space (prc (y_kernel y) process) in
  let '(ok, out) := user_memory_read y process address size in
  (ok = true <-> readable_request y process address size /\ forall i, 0 <= i < size -> is_Some (user_byte y space (address + i))) /\
  (ok = true -> Z.of_nat (length out) = size) /\
  (forall i b, out !! i = Some b -> user_byte y space (address + Z.of_nat i) = Some b).
Proof.
  intros Ha Hs Hp space. destruct (read_request y process address size Ha Hs) as [[R ->]|[R ->]].
  2: { split_and!; try done. by split; [|intros [? _]]. }
  fold space. pose proof R as (_ & _ & R1 & R2 & R3 & _). unfold is_u64 in *.
  pose proof (read_loop_call (Z.to_nat size) y space address size Hp ltac:(lia) ltac:(lia) R3 ltac:(lia)) as (I1 & I2 & I3 & I4).
  destruct (read_loop _ y space address size) as [ok out]. cbn [fst snd] in *. split_and!; [|done|done]. split.
  - intros ->. split; [done|]. intros i Hi. specialize (I3 eq_refl). destruct (lookup_lt_is_Some_2 out (Z.to_nat i)) as [b Hb]; [lia|].
    apply I1 in Hb. rewrite Z2Nat.id in Hb by lia. by rewrite Hb.
  - intros [_ Hall]. destruct ok; [done|]. destruct (I4 eq_refl) as (i & Hi & Hb). destruct (Hall i Hi) as [b Hb']. congruence.
Qed.

(** * Removing a program *)

(** The availability of a process does not depend on its image. *)
Lemma available_same s s' process a image y0 E :
  y0 = with_image process image (l_system s) -> claims a y0 E (l_system s') -> process_available s' process = process_available s process.
Proof.
  intros -> C. destruct (cl_modes _ _ _ _ C) as (_ & _ & _ & Hcr). unfold process_available, kernel. rewrite (cl_kernel _ _ _ _ C), Hcr.
  change (y_kernel (with_image process image (l_system s))) with (set_prc process (fun r => r <| p_elf_image := image |>) (y_kernel (l_system s))).
  unfold process_address_space, process_usable. rewrite prc_set, decide_True by done. done.
Qed.

(** The process has no thread. *)
Definition no_threads (s : Loader) (process : Z) : Prop :=
  let p := prc (kernel s) process in p_thread_count p = 0 /\ p_thread_head p = 0 /\ p_thread_tail p = 0.

Lemma unload_call process a image s s1 E :
  let y0 := with_image process image (l_system s) in
  spaces_wf (l_system s) -> process_available s process = Some a -> image <> 0 -> no_threads s process ->
  ledger a image y0 E s1 -> owned_image process a image s s1 ->
  let '(b, s2) := user_elf_unload process image s1 in
  y_data (l_system s2) = y_data (l_system s1) /\ (forall x, x <> image -> img s2 x = img s1 x) /\ 
  (b = true -> rolled_back process a image s s2) /\
  (b = false -> (exists E', ledger a image y0 E' s2) /\ owned_image process a image s s2) /\
  (elf_quiet s1 -> no_faults (y_vmm (l_system s)) -> profile_supported (y_vmm (l_system s)) = true -> b = true).
Proof.
  intros y0 W Hav Hi (T1 & T2 & T3) L O. unfold user_elf_unload. unfold nz at 1. rewrite (proj2 (Z.eqb_neq _ _) Hi). cbn [negb].
  pose proof (lg_claims _ _ _ _ _ L) as C. rewrite (available_same s s1 process a image y0 E eq_refl C), Hav.
  assert (kernel s1 = set_prc process (fun r => r <| p_elf_image := image |>) (kernel s)) as Ek by (unfold kernel; by rewrite (cl_kernel _ _ _ _ C)).
  rewrite Ek, prc_set, decide_True by done. upd_simpl. rewrite T1, T2, T3, (owner_matches process a image s s1 E L O). cbn [nz negb andb Z.eqb].
  pose proof (release_pages_call a process image y0 E s1 L (owner_matches process a image s s1 E L O)) as H.
  destruct (release_pages process a image s1) as [r s2]. destruct H as (D2 & Eo2 & H1 & H2 & H3 & _). split_and!; [done|done| | |].
  - intros Hr. destruct (H1 Hr) as (I2 & y & C2 & Ey). split; [done| |by exists y]. unfold kernel. rewrite Ey.
    change (y_kernel (with_image process 0 y)) with (set_prc process (fun p => p <| p_elf_image := 0 |>) (y_kernel y)). by rewrite (cl_kernel _ _ _ _ C2).
  - intros Hr. destruct (H2 Hr) as (G1 & _ & _ & G4 & G5 & G6). split; [done|]. unfold owned_image in *. by rewrite G4, G5, G6.
  - intros Hq Hn Hp. apply H3; [done|]. by apply (available_releasable s).
Qed.

(** Everything but the diagnostics is as before the load. *)
Record restored (process image : Z) (s s' : Loader) : Prop := {
  rs_wf : spaces_wf (l_system s');
  rs_image : img s' image = image_zero;
  rs_images : forall x, x <> image -> img s' x = img s x;
  rs_processes : forall q, prc (kernel s') q = prc (kernel s) q;
  rs_kernel : (kernel s') <| k_processes := k_processes (kernel s) |> = kernel s;
  rs_frames : forall f, pool (y_vmm (l_system s')) f <-> pool (y_vmm (l_system s)) f;
  rs_pages : forall b va, user_space (spaces (l_system s)) b -> user_virtual_address va = true ->
    address_space_query_page (l_system s') b va = address_space_query_page (l_system s) b va;
  rs_memory : untouched (l_system s) (l_system s) (l_system s') }.

Lemma rolled_back_restored process a image s s' :
  p_elf_image (prc (kernel s) process) = 0 -> rolled_back process a image s s' -> (forall x, x <> image -> img s' x = img s x) ->
  untouched (l_system s) (l_system s) (l_system s') -> restored process image s s'.
Proof.
  intros H0 [R1 R2 (y & C & Ey)] Ho Hm. split; try done.
  - rewrite Ey. apply with_image_wf, C.
  - intros q. rewrite R2, !prc_set, (decide_True (P := process = process)) by done. case_decide as D; [|done]. subst q.
    destruct (prc (kernel s) process). cbn in H0. by subst.
  - rewrite R2. by destruct (kernel s).
  - intros f. rewrite Ey. change (y_vmm (with_image process 0 y)) with (y_vmm y). pose proof (cl_pool _ _ _ _ C f) as Hp. cbn [fmap list_fmap] in Hp. rewrite elem_of_nil in Hp. change (y_vmm (with_image process image (l_system s))) with (y_vmm (l_system s)) in Hp. tauto.
  - intros b va Hb Hu. rewrite Ey. change (address_space_query_page (with_image process 0 y) b va) with (address_space_query_page y b va).
    rewrite (cl_same _ _ _ _ C b va Hb Hu); [done|]. by intros _ e ?%not_elem_of_nil.
Qed.

(** Attempts to unload with diagnostics armed in each, up to the first success. *)
Fixpoint unload_attempts (process image : Z) (attempts : list (UserElfTestFault -> ElfTestFault)) (s : Loader) : bool * Loader :=
  match attempts with
  | [] => (false, s)
  | faults :: attempts =>
    match user_elf_unload process image (s <| l_faults := faults |>) with
    | (true, s) => (true, s)
    | (false, s) => unload_attempts process image attempts s
    end
  end.

Lemma unload_attempts_call process a image s attempts s1 E :
  let y0 := with_image process image (l_system s) in
  spaces_wf (l_system s) -> process_available s process = Some a -> image <> 0 -> no_threads s process -> p_elf_image (prc (kernel s) process) = 0 ->
  no_faults (y_vmm (l_system s)) -> profile_supported (y_vmm (l_system s)) = true ->
  ledger a image y0 E s1 -> owned_image process a image s s1 -> (forall x, x <> image -> img s1 x = img s x) ->
  untouched (l_system s) (l_system s) (l_system s1) ->
  let '(b, s2) := unload_attempts process image (attempts ++ [fun _ => elf_fault_zero]) s1 in
  b = true /\ restored process image s s2.
Proof.
  intros y0 W Hav Hi Ht H0 Hn Hp. revert s1 E. induction attempts as [|faults attempts IH]; intros s1 E L O Ho Hm; cbn [app unload_attempts].
  - pose proof (unload_call process a image s (s1 <| l_faults := fun _ => elf_fault_zero |>) E W Hav Hi Ht) as H.
    destruct (user_elf_unload process image _) as [b s2]. destruct H as (D & Eo & H1 & _ & H3); [by destruct L; split|done|].
    rewrite (H3 (fun _ => eq_refl) Hn Hp) in *. split; [done|]. apply (rolled_back_restored process a); [done|by apply H1| |].
    + intros x Hx. rewrite (Eo x Hx). by apply Ho.
    + eapply untouched_trans; [exact Hm|by apply untouched_data].
  - pose proof (unload_call process a image s (s1 <| l_faults := faults |>) E W Hav Hi Ht) as H.
    destruct (user_elf_unload process image _) as [b s2]. destruct H as (D & Eo & H1 & H2 & _); [by destruct L; split|done|].
    assert (forall x, x <> image -> img s2 x = img s x) as Ho2 by (intros x Hx; rewrite (Eo x Hx); by apply Ho).
    assert (untouched (l_system s) (l_system s) (l_system s2)) as Hm2 by (eapply untouched_trans; [exact Hm|by apply untouched_data]).
    destruct b; [split; [done|]; by apply (rolled_back_restored process a); [|apply H1|..]|].
    destruct (H2 eq_refl) as [[E' L'] O']. by apply (IH s2 E').
Qed.

(** * Loading a program *)

(** A loadable segment of a file, by the layout of ELF64: the table of program
    headers of 56 bytes, its place at offset 32 and its length at offset 56 of the
    file header. *)
Definition segment_of (file : VfsNode) (p : Elf64ProgramHeader) : Prop :=
  let d := bytes file in
  exists i, 0 <= i < le d 56 2 /\
    let o := le d 32 8 + 56 * i in
    o + 56 <= Z.of_nat (length d) /\
    ph_type p = le d o 4 /\ ph_flags p = le d (o + 4) 4 /\ ph_offset p = le d (o + 8) 8 /\
    ph_virtual_address p = le d (o + 16) 8 /\ ph_physical_address p = le d (o + 24) 8 /\
    ph_file_size p = le d (o + 32) 8 /\ ph_memory_size p = le d (o + 40) 8 /\ ph_alignment p = le d (o + 48) 8 /\
    ph_type p = 1 /\ 0 < ph_memory_size p.

(** Bits 0 and 1 of the flags of a segment. *)
Definition executable (p : Elf64ProgramHeader) : bool := Z.testbit (ph_flags p) 0.
Definition writable (p : Elf64ProgramHeader) : bool := Z.testbit (ph_flags p) 1.

(** The page at [va] has an address of the segment. *)
Definition segment_page (p : Elf64ProgramHeader) (va : Z) : Prop :=
  va mod 4096 = 0 /\ ph_virtual_address p < va + 4096 /\ va < ph_virtual_address p + ph_memory_size p.

Definition program_page (file : VfsNode) (va : Z) : Prop := exists p, segment_of file p /\ segment_page p va.

(** A static x86-64 executable with a table of one to sixteen program headers. *)
Record executable_file (file : VfsNode) : Prop := {
  ex_file : n_type file = VFS_FILE /\ 64 <= Z.of_nat (length (bytes file));
  ex_magic : take 7 (bytes file) = [0x7F; 0x45; 0x4C; 0x46; 2; 1; 1];
  ex_kind : le (bytes file) 16 2 = 2 /\ le (bytes file) 18 2 = 62 /\ le (bytes file) 20 4 = 1 /\ le (bytes file) 48 4 = 0;
  ex_sizes : le (bytes file) 52 2 = 64 /\ le (bytes file) 54 2 = 56 /\ 0 < le (bytes file) 56 2 <= 16;
  ex_table : le (bytes file) 32 8 + 56 * le (bytes file) 56 2 <= Z.of_nat (length (bytes file)) }.

(** A user process with a space of its own that is not the active one, no image,
    and threads that have not been started. *)
Record fresh_process (s : Loader) (process a : Z) : Prop := {
  fp_process : let p := prc (kernel s) process in process <> 0 /\ p_initialized p = true /\ p_id p <> 0 /\ p_kernel p = false /\
    p_owns_address_space p = true /\ p_address_space p = space_of process /\ a = space_of process /\ p_elf_image p = 0;
  fp_space : a_kernel (spc (kernel s) a) = false /\ a_id (spc (kernel s) a) <> 0 /\
    page_down (c_cr3 (v_cpu (y_vmm (l_system s)))) <> frame_to_phys (a_root_frame (spc (kernel s) a));
  fp_threads : exists L, length L = Z.to_nat (p_thread_count (prc (kernel s) process)) /\
    default 0 (L !! 0%nat) = p_thread_head (prc (kernel s) process) /\
    (forall i t, L !! i = Some t -> t_process_next (thr (kernel s) t) = default 0 (L !! S i)) /\
    (forall t, t ∈ L -> t <> 0 /\ t_process (thr (kernel s) t) = process /\ t_state (thr (kernel s) t) = THREAD_STATE_READY /\
       t_on_run_queue (thr (kernel s) t) = false /\ t_interrupt_context_ready (thr (kernel s) t) = false /\
       thread_wait_active (kernel s) t = false) }.

(** The program of [file] is in the space [a] of the process. *)
Record loaded (process a : Z) (file : VfsNode) (image : Z) (s s' : Loader) : Prop := {
  ld_kernel : kernel s' = set_prc process (fun p => p <| p_elf_image := image |>) (kernel s);
  ld_image : i_loaded (img s' image) = true /\ i_cleanup_pending (img s' image) = false /\ i_owner (img s' image) = process /\
    i_owner_process_id (img s' image) = p_id (prc (kernel s) process) /\ i_owner_space_id (img s' image) = a_id (spc (kernel s) a);
  ld_count : exists L, NoDup L /\ (forall va, va ∈ L <-> program_page file va) /\
    i_page_count (img s' image) = Z.of_nat (length L) /\ (length L <= 64)%nat;
  ld_entry : i_entry (img s' image) = le (bytes file) 24 8 /\
    exists p, segment_of file p /\ executable p = true /\
      ph_virtual_address p <= le (bytes file) 24 8 < ph_virtual_address p + ph_file_size p;
  ld_segments : forall p, segment_of file p ->
    ph_offset p + ph_file_size p <= Z.of_nat (length (bytes file)) /\ ph_file_size p <= ph_memory_size p /\
    executable p && writable p = false /\ ADDRESS_SPACE_USER_BASE <= ph_virtual_address p /\
    ph_virtual_address p + ph_memory_size p <= ADDRESS_SPACE_USER_LIMIT /\
    (1 < ph_alignment p -> ph_virtual_address p mod ph_alignment p = ph_offset p mod ph_alignment p);
  ld_pages : forall p va, segment_of file p -> segment_page p va ->
    exists f, address_space_query_page (l_system s') a va =
        Some (f, VM_USER + (if writable p then VM_WRITE else 0) + (if executable p then VM_EXEC else 0)) /\
      pool (y_vmm (l_system s)) f /\ ~ pool (y_vmm (l_system s')) f;
  ld_bytes : forall p va i, segment_of file p -> segment_page p va -> 0 <= i < 4096 ->
    user_byte (l_system s') a (va + i) =
    Some (let o := va + i - ph_virtual_address p in if (0 <=? o) && (o <? ph_file_size p) then byte_at (bytes file) (ph_offset p + o) else 0);
  ld_fresh : forall va, program_page file va -> address_space_query_page (l_system s) a va = None;
  ld_apart : forall va va' f flags flags', program_page file va -> program_page file va' ->
    address_space_query_page (l_system s') a va = Some (f, flags) ->
    address_space_query_page (l_system s') a va' = Some (f, flags') -> va = va';
  ld_others : forall b va, user_space (spaces (l_system s)) b -> user_virtual_address va = true ->
    ~ (b = a /\ program_page file va) ->
    address_space_query_page (l_system s') b va = address_space_query_page (l_system s) b va;
  ld_stack : forall va, program_page file va ->
    va <> USER_STACK_INITIAL_BASE /\ va <> USER_STACK_INITIAL_BASE - 4096 /\ va <> USER_STACK_INITIAL_BASE + 4096 }.

(** * What the checks establish *)

#[local] Arguments le : simpl never.

Lemma magic_bytes d :
  7 <= Z.of_nat (length d) -> byte_at (take 16 d) 0 = 0x7F -> byte_at (take 16 d) 1 = 0x45 -> byte_at (take 16 d) 2 = 0x4C ->
  byte_at (take 16 d) 3 = 0x46 -> byte_at (take 16 d) 4 = 2 -> byte_at (take 16 d) 5 = 1 -> byte_at (take 16 d) 6 = 1 ->
  take 7 d = [0x7F; 0x45; 0x4C; 0x46; 2; 1; 1].
Proof.
  destruct d as [|b0 [|b1 [|b2 [|b3 [|b4 [|b5 [|b6 d]]]]]]]; cbn [length]; try lia. intros _ H0 H1 H2 H3 H4 H5 H6.
  change (b0 = 0x7F) in H0. change (b1 = 0x45) in H1. change (b2 = 0x4C) in H2. change (b3 = 0x46) in H3. change (b4 = 2) in H4.
  change (b5 = 1) in H5. change (b6 = 1) in H6. by subst.
Qed.

Lemma header_valid_spec file :
  file_ok file -> n_type file = VFS_FILE -> 64 <= n_size file -> elf_header_valid file (read_header (bytes file)) = true ->
  executable_file file.
Proof.
  intros [[Fs Fu] Fb] Ht Hs. unfold elf_header_valid. set (d := bytes file) in *. cbn [read_header h_ident h_type h_machine h_version h_flags h_header_size
    h_program_header_size h_program_header_count h_program_header_offset h_entry].
  repeat (if_case; [done|]). intros _. pose proof (le_range d 56 2 Fb) as R1. pose proof (le_range d 32 8 Fb) as R2. bool_prop.
  unfold SIZEOF_HEADER, SIZEOF_PROGRAM_HEADER, ELF64_CLASS_64, ELF64_DATA_LITTLE, ELF64_VERSION, ELF64_TYPE_EXEC, ELF64_MACHINE_X86_64, ELF64_MAX_PHDRS in *.
  split; fold d; try (split_and!; (done || lia)); [|lia]. apply magic_bytes; (done || lia).
Qed.

Lemma segments_spec file p :
  file_ok file -> executable_file file -> p ∈ segments file (read_header (bytes file)) <-> segment_of file p.
Proof.
  intros [[Fs Fu] Fb] [_ _ _ (_ & _ & X1) X2]. unfold segments, loads, segment_of. rewrite list_elem_of_filter, list_elem_of_omap.
  setoid_rewrite elem_of_seqZ. unfold loaded_segment, program_header. set (d := bytes file) in *.
  cbn [read_header h_program_header_count h_program_header_offset]. unfold SIZEOF_PROGRAM_HEADER, is_u64 in *. pose proof (le_range d 32 8 Fb) as R.
  assert (forall i, 0 <= i < le d 56 2 -> u64 (le d 32 8 + i * 56) = le d 32 8 + 56 * i /\ le d 32 8 + 56 * i + 56 <= n_size file) as Ho
    by (intros i Hi; split; [rewrite u64_id by (unfold is_u64; lia)|]; lia).
  split.
  - intros ((Ht & Hm) & i & Hi & Hp). destruct (Ho i ltac:(lia)) as [Eo Hb]. rewrite Eo in Hp. do 3 (if_case_in Hp; [done|]). injection Hp as <-.
    exists i. cbn [read_program_header ph_type ph_flags ph_offset ph_virtual_address ph_physical_address ph_file_size ph_memory_size ph_alignment] in *.
    pose proof (le_range d (le d 32 8 + 56 * i + 40) 8 Fb). split_and!; (done || lia).
  - intros (i & Hi & Hb & H1 & H2 & H3 & H4 & H5 & H6 & H7 & H8 & Ht & Hm). destruct (Ho i Hi) as [Eo Hb'].
    split; [split; [done|lia]|]. exists i. split; [lia|]. rewrite Eo. rewrite (proj2 (Z.leb_gt _ _)), !(proj2 (Z.ltb_ge _ _)) by lia.
    destruct p. cbn in *. by subst.
Qed.

Lemma seg_pages_spec file p va :
  segment_ok file p -> is_Some (load_segment_page_range p) -> va ∈ seg_pages p <-> segment_page p va.
Proof.
  intros O [[first last] Hr]. destruct (so_words _ _ O) as (_ & W1 & _ & W2). unfold seg_pages, segment_page. rewrite Hr, pages_in_elem.
  destruct (page_range_spec p first last W1 W2 Hr) as (R1 & R2 & R3 & R4 & R5 & R6 & R7). split.
  - intros (i & Hi & ->). split; [by rewrite Z.mod_add|]. Z.to_euclidean_division_equations; lia.
  - intros (Ha & H1 & H2). exists ((va - first) / 4096). Z.to_euclidean_division_equations; lia.
Qed.

(** The permissions of a page are those of its segment. *)
Lemma segment_permissions p :
  Z.lor (segment_flags p) VM_USER = VM_USER + (if writable p then VM_WRITE else 0) + (if executable p then VM_EXEC else 0).
Proof.
  unfold segment_flags, writable, executable. change ELF64_PF_W with (Z.shiftl 1 1). change ELF64_PF_X with (Z.shiftl 1 0).
  rewrite !has_bit by lia. by destruct (Z.testbit (ph_flags p) 1), (Z.testbit (ph_flags p) 0).
Qed.

Lemma unpublished_spec k process n thread previous :
  unpublished_walk k process n thread previous = true ->
  exists L, length L = n /\ default 0 (L !! 0%nat) = thread /\ (forall i t, L !! i = Some t -> t_process_next (thr k t) = default 0 (L !! S i)) /\
    (forall t, t ∈ L -> t <> 0 /\ t_process (thr k t) = process /\ t_state (thr k t) = THREAD_STATE_READY /\ t_on_run_queue (thr k t) = false /\
       t_interrupt_context_ready (thr k t) = false /\ thread_wait_active k t = false).
Proof.
  revert thread previous. induction n as [|n IH]; intros thread previous H; cbn [unpublished_walk] in H.
  - apply andb_true_iff in H as [H _]. exists []. bool_prop. split_and!; [done|done|done|by intros t ?%not_elem_of_nil].
  - if_case_in H; [done|]. destruct (IH _ _ H) as (L & L1 & L2 & L3 & L4). clear H. bool_prop. exists (thread :: L). split_and!; [cbn; lia|done| |].
    + intros [|i] t; [intros [= <-]; exact (eq_sym L2)|exact (L3 i t)].
    + intros t [->|Ht]%elem_of_cons; [|by apply L4]. split_and!; try done. by eapply bool_decide_eq_true.
Qed.

Lemma available_spec s process a :
  process_available s process = Some a -> p_elf_image (prc (kernel s) process) = 0 -> threads_unpublished (kernel s) process = true ->
  fresh_process s process a.
Proof.
  unfold process_available. do 3 (if_case; [done|]). intros [= <-] H0 Ht. unfold process_address_space, address_space_cr3 in *.
  destruct (!process_usable (kernel s) process); [done|].
  destruct (_ || a_destroy_pending _); [by rewrite orb_true_r in E0|]. bool_prop. split.
  - by split_and!.
  - by split_and!.
  - by apply (unpublished_spec _ _ _ _ 0).
Qed.

Lemma flags_user flags : has (Z.lor flags VM_USER) VM_USER = true.
Proof. unfold VM_USER. rewrite has_lor, (has_bit (Z.shiftl 1 1)) by lia. by rewrite orb_true_r. Qed.

Lemma placed_entry a file P E y p va :
  placed a file P E y -> p ∈ P -> va ∈ seg_pages p -> exists e, e ∈ E /\ ep_virtual_address e = va /\ ep_mapped e = true /\
    address_space_query_page y a va = Some (ep_frame e, Z.lor (segment_flags p) VM_USER) /\ direct (ep_frame e) = true /\
    frame_bytes y (ep_frame e) = part file p (ph_file_size p) va.
Proof.
  intros (Es & -> & H) Hp Hva. apply list_elem_of_lookup in Hp as (i & Hp). destruct (Forall2_lookup_l _ _ _ _ _ H Hp) as (D & HD & Ha & Hf).
  rewrite <- Ha in Hva. apply list_elem_of_fmap in Hva as (e & -> & He). exists e. destruct (Hf e He) as (F1 & F2 & F3 & F4). split_and!; try done.
  apply list_elem_of_In, in_concat. exists D. rewrite <- !list_elem_of_In. split; [by apply list_elem_of_lookup_2 in HD|done].
Qed.

(** The pages of the segments are the pages of the program. *)
Lemma program_pages y a file n va :
  file_ok file -> executable_file file -> load_plan y a file (read_header (bytes file)) n ->
  va ∈ all_pages (segments file (read_header (bytes file))) <-> program_page file va.
Proof.
  intros Fo X Pn. rewrite all_pages_elem. unfold program_page. split; intros (p & Hp & Hva); exists p.
  - destruct (lp_ok _ _ _ _ _ Pn p Hp) as [O R]. split; [by apply segments_spec|by apply (seg_pages_spec file)].
  - apply segments_spec in Hp; [|done|done]. destruct (lp_ok _ _ _ _ _ Pn p Hp) as [O R]. split; [done|by apply (seg_pages_spec file)].
Qed.

Lemma ledger_loaded process a file image s s' E n :
  let y0 := with_image process image (l_system s) in
  spaces_wf (l_system s) -> file_ok file -> executable_file file -> load_plan (l_system s) a file (read_header (bytes file)) n ->
  ledger a image y0 E s' -> placed a file (segments file (read_header (bytes file))) E (l_system s') -> owned_image process a image s s' ->
  i_loaded (img s' image) = true -> i_cleanup_pending (img s' image) = false -> i_entry (img s' image) = h_entry (read_header (bytes file)) ->
  loaded process a file image s s'.
Proof.
  intros y0 W Fo X Pn L Pl O H1 H2 H3. pose proof (lg_claims _ _ _ _ _ L) as C.
  pose proof (placed_addresses _ _ _ _ _ Pl) as Ea. pose proof (fun va => program_pages _ _ _ _ va Fo X Pn) as Hpp.
  pose proof (fun p => segments_spec file p Fo X) as Hseg.
  assert (forall p va, segment_of file p -> segment_page p va -> exists e, e ∈ E /\ ep_virtual_address e = va /\
    address_space_query_page (l_system s') a va = Some (ep_frame e, Z.lor (segment_flags p) VM_USER) /\ direct (ep_frame e) = true /\
    frame_bytes (l_system s') (ep_frame e) = part file p (ph_file_size p) va) as Hentry.
  { intros p va Hp Hva. apply Hseg in Hp. destruct (lp_ok _ _ _ _ _ Pn p Hp) as [So R].
    destruct (placed_entry _ _ _ _ _ p va Pl Hp) as (e & He & Ee & _ & Hq & Hd & Hb); [by apply (seg_pages_spec file)|]. eauto 8. }
  assert (forall va, program_page file va -> exists e, e ∈ E /\ ep_virtual_address e = va /\ exists flags, address_space_query_page (l_system s') a va = Some (ep_frame e, flags)) as Hall.
  { intros va (p & Hp & Hva). destruct (Hentry p va Hp Hva) as (e & He & Ee & Hq & _). eauto 6. }
  destruct O as (O1 & O2 & O3). split; try done.
  - unfold kernel. by rewrite (cl_kernel _ _ _ _ C).
  - exists (all_pages (segments file (read_header (bytes file)))). split_and!; [apply Pn|apply Hpp| |].
    + rewrite (lg_count _ _ _ _ _ L), <- Ea. by rewrite length_fmap.
    + pose proof (lp_bound _ _ _ _ _ Pn) as Hb. rewrite (lp_count _ _ _ _ _ Pn) in Hb. lia.
  - split; [done|]. destruct (lp_entry _ _ _ _ _ Pn) as (p & Hp & Hx & Hr). exists p. split_and!; [by apply Hseg| |apply Hr|apply Hr].
    change ELF64_PF_X with (Z.shiftl 1 0) in Hx. by rewrite has_bit in Hx.
  - intros p Hp. apply Hseg in Hp. destruct (lp_ok _ _ _ _ _ Pn p Hp) as [So [[first last] R]]. destruct So as [(_ & W1 & _ & W2) S1 [S2 _] S3 S4].
    destruct (page_range_spec p first last W1 W2 R) as (R1 & R2 & R3 & R4 & R5 & R6 & R7). split_and!; try done; [|lia|lia].
    change ELF64_PF_W with (Z.shiftl 1 1) in S3. change ELF64_PF_X with (Z.shiftl 1 0) in S3. rewrite !has_bit, andb_comm in S3 by lia. exact S3.
  - intros p va Hp Hva. destruct (Hentry p va Hp Hva) as (e & He & Ee & Hq & _). exists (ep_frame e). rewrite <- segment_permissions. split_and!; [done| |].
    + apply (cl_pool _ _ _ _ C). right. by apply list_elem_of_fmap_2.
    + by apply (cl_held _ _ _ _ C).
  - intros p va i Hp Hva Hi. destruct (Hentry p va Hp Hva) as (e & He & Ee & Hq & Hd & Hb).
    destruct (cl_user _ _ _ _ C e He) as (Hu & Hok & _). rewrite Ee in Hu, Hok.
    rewrite (user_byte_page _ _ va (ep_frame e) (Z.lor (segment_flags p) VM_USER)); try done; [|by apply user_u64|apply Hva| |apply flags_user].
    + rewrite Hb, part_lookup by lia. by rewrite Z2Nat.id by lia.
    + eapply held_valid; [apply (rn_wf _ (sp_running _ (cl_wf _ _ _ _ C)))|by apply (cl_held _ _ _ _ C)].
  - intros va Hva. by apply (lp_absent _ _ _ _ _ Pn), Hpp.
  - intros va va' f flags flags' Hva Hva' Hq Hq'. destruct (Hall va Hva) as (e & He & <- & fl & Hx), (Hall va' Hva') as (e' & He' & <- & fl' & Hx').
    rewrite Hq in Hx. rewrite Hq' in Hx'. f_equal. apply (frame_unique a y0 E (l_system s')); try done. congruence.
  - intros b va Hb Hu Hno. rewrite (cl_same _ _ _ _ C b va Hb Hu); [done|]. intros -> e He _ <-. apply Hno. split; [done|]. apply Hpp. rewrite <- Ea. by apply list_elem_of_fmap_2.
  - intros va Hva. by apply (lp_stack _ _ _ _ _ Pn), Hpp.
Qed.

(** The request is a static executable for a fresh process and an unused image. *)
Definition load_requested (s : Loader) (process a : Z) (file : VfsNode) (image : Z) : Prop :=
  fresh_process s process a /\ executable_file file /\ image <> 0 /\ i_owner (img s image) = 0 /\ i_page_count (img s image) = 0 /\
  i_loaded (img s image) = false /\ i_cleanup_pending (img s image) = false.

Lemma load_checks_requested s process file image a n :
  file_ok file -> load_checks s process file image = Some (a, n) -> load_requested s process a file image.
Proof.
  intros Fo Hc. pose proof Fo as [[Fs _] _]. unfold load_checks in Hc. if_case_in Hc; [done|]. destruct (process_available s process) as [x|] eqn:Hav; [|done].
  cbn [mbind option_bind] in Hc. do 3 (if_case_in Hc; [done|]). destruct (validate_segments _ _ _ _) as [m|]; [|done]. injection Hc as -> ->.
  apply orb_false_iff in E as [E1' E2']. unfold user_elf_needs_cleanup in E2'. apply negb_false_iff in E1'. rewrite E1' in E2'. cbn [andb] in E2'. bool_prop.
  split_and!; try done; [by apply available_spec|]. apply header_valid_spec; [done|by eapply bool_decide_eq_true|by unfold SIZEOF_HEADER in *|done].
Qed.

(** The checks accept the request. *)
Definition load_accepted (s : Loader) (process : Z) (file : VfsNode) (image : Z) : Prop := is_Some (load_checks s process file image).


(** A process with threads keeps its program. *)
Lemma unload_refused process image s :
  ~ no_threads s process -> user_elf_unload process image s = (false, s).
Proof.
  unfold no_threads, user_elf_unload. intros Ht. if_case; [done|]. destruct (process_available s process); [|done]. if_case; [|done]. bool_prop. by destruct Ht.
Qed.

(** C8. A loaded program is removed without a trace, once the process has no
    threads. After a successful load, and whatever diagnostics are then armed,
    [user_elf_unload] refuses a process that had threads, without any effect. For a
    process without threads, on a machine the page tables support and with no
    diagnostic of the page tables or the frame allocator armed: whichever of the
    loader's own four diagnostics make earlier attempts to unload stop half way, the
    next attempt with none of them armed succeeds at the latest, and then every page
    and frame, the process and all memory in use are as they were before the load. *)
Theorem load_unload_restores process file image s attempts :
  spaces_wf (l_system s) -> file_ok file -> (user_elf_load process file image s).1 = true ->
  let s1 := (user_elf_load process file image s).2 in
  (~ no_threads s process -> forall faults, user_elf_unload process image (s1 <| l_faults := faults |>) = (false, s1 <| l_faults := faults |>)) /\
  (no_threads s process -> no_faults (y_vmm (l_system s)) -> profile_supported (y_vmm (l_system s)) = true ->
   let '(b, s') := unload_attempts process image (attempts ++ [fun _ => elf_fault_zero]) s1 in
   b = true /\ restored process image s s').
Proof.
  intros W Fo Hb. pose proof (load_call process file image s W Fo) as H. destruct (load_checks s process file image) as [[a n]|] eqn:Hc; [|by rewrite H in Hb].
  destruct (load_checks_spec s process file image a n Fo Hc) as (Hav & H0 & Hi & Pn). destruct (user_elf_load process file image s) as [b s1].
  destruct H as (Ho & Hm & Hl & _). destruct (Hl Hb) as (E & L & _ & O & _). cbn [snd]. split.
  - intros Ht faults. apply unload_refused. intros Hn. apply Ht. unfold no_threads, kernel in *. cbn [l_system] in Hn.
    change (l_system (s1 <| l_faults := faults |>)) with (l_system s1) in Hn. rewrite (cl_kernel _ _ _ _ (lg_claims _ _ _ _ _ L)) in Hn.
    change (y_kernel (with_image process image (l_system s))) with (set_prc process (fun r => r <| p_elf_image := image |>) (y_kernel (l_system s))) in Hn.
    rewrite prc_set, decide_True in Hn by done. exact Hn.
  - intros Ht Hn Hp. by apply (unload_attempts_call process a image s attempts s1 E).
Qed.

(** * A concrete program *)

Fixpoint to_le (n : nat) (x : Z) : list Z :=
  match n with
  | O => []
  | S n => x mod 256 :: to_le n (x / 256)
  end.

(** One executable segment of four bytes in two pages. *)
Definition demo_elf : list Z :=
  [0x7F; 0x45; 0x4C; 0x46; 2; 1; 1] ++ replicate 9 0 ++ to_le 2 2 ++ to_le 2 62 ++ to_le 4 1 ++ to_le 8 (ADDRESS_SPACE_USER_BASE + 0x78)
  ++ to_le 8 64 ++ to_le 8 0 ++ to_le 4 0 ++ to_le 2 64 ++ to_le 2 56 ++ to_le 2 1 ++ to_le 2 0 ++ to_le 2 0 ++ to_le 2 0
  ++ to_le 4 1 ++ to_le 4 5 ++ to_le 8 0x78 ++ to_le 8 (ADDRESS_SPACE_USER_BASE + 0x78) ++ to_le 8 0 ++ to_le 8 4 ++ to_le 8 0x1000 ++ to_le 8 0x1000
  ++ [0xF3; 0x90; 0xEB; 0xFC].

Definition demo_file : VfsNode := mkVfsNode [105; 110; 105; 116] VFS_FILE (Some demo_elf) 124 1 0 0.

Lemma demo_file_ok : file_ok demo_file.
Proof. split; [by vm_compute|]. apply (bool_decide_unpack _). by vm_compute. Qed.

(** A process with a fresh address space. *)
Definition demo_system : System :=
  let y := (address_space_create (space_of 0x9000) system_booted).2 in
  y <| y_kernel := (y_kernel y) <| k_prc := mkObjectMod 2 true (0x9000 :: replicate 255 0) |>
         <| k_processes := {[ 0x9000 := process_zero <| p_id := 1 |> <| p_address_space := space_of 0x9000 |> <| p_owns_address_space := true |>
                                          <| p_initialized := true |> ]} |> |>.

Definition demo_loader : Loader := mkLoader demo_system ∅ (fun _ => elf_fault_zero).

Lemma demo_system_wf : spaces_wf demo_system.
Proof.
  assert (storage_ok system_booted (space_of 0x9000)) as Hs.
  { split_and!; [done|done|]. intros _ [_ H]. apply H. by vm_compute. }
  pose proof (space_create_call (space_of 0x9000) system_booted (proj1 system_booted_wf) Hs) as H. unfold demo_system.
  destruct (address_space_create (space_of 0x9000) system_booted) as [b y]. pose proof (ss_wf _ _ (proj1 H)) as W. cbn [snd].
  destruct W as [S1 S2 S3 S4 S5 S6 S7 S8 S9 S10]. by split.
Qed.

(** The load of the program. *)
Definition demo_loaded : bool * Loader := user_elf_load 0x9000 demo_file 0x5000 demo_loader.

Lemma demo_no_faults : no_faults (y_vmm demo_system).
Proof. split; [by vm_compute|]. intros []; by vm_compute. Qed.


(** An attempt to unload that stops at the second page, then one that does not. *)
Definition demo_attempt : UserElfTestFault -> ElfTestFault :=
  fun f => if decide (f = USER_ELF_TEST_UNMAP) then mkElfTestFault 0x5000 ADDRESS_SPACE_USER_BASE true else elf_fault_zero.

Lemma load_unload_restores_witness :
  (user_elf_unload 0x9000 0x5000 (demo_loaded.2 <| l_faults := demo_attempt |>)).1 = false /\
  exists s', unload_attempts 0x9000 0x5000 [demo_attempt; fun _ => elf_fault_zero] demo_loaded.2 = (true, s') /\
    restored 0x9000 0x5000 demo_loader s'.
Proof.
  split; [by vm_compute|].
  pose proof (load_unload_restores 0x9000 demo_file 0x5000 demo_loader [demo_attempt] demo_system_wf demo_file_ok) as H.
  change (user_elf_load 0x9000 demo_file 0x5000 demo_loader) with demo_loaded in H.
  change ([demo_attempt] ++ [fun _ => elf_fault_zero]) with [demo_attempt; fun _ => elf_fault_zero] in H.
  assert (demo_loaded.1 = true) as Hb by (by vm_compute).
  destruct (H Hb) as [_ H']. specialize (H' ltac:(split_and!; by vm_compute) demo_no_faults ltac:(by vm_compute)). clear H. rename H' into H.
  set (r := unload_attempts 0x9000 0x5000 [demo_attempt; fun _ => elf_fault_zero] demo_loaded.2) in *. clearbody r.
  destruct r as [b s']. destruct H as [-> Hr]. exists s'. split; [reflexivity|exact Hr].
Defined.

(** Two bytes across the boundary between the two pages of the program. *)
Lemma user_memory_read_correct_witness :
  user_memory_read (l_system demo_loaded.2) 0x9000 (ADDRESS_SPACE_USER_BASE + 0xFFF) 2 = (true, [0; 0]) /\
  user_byte (l_system demo_loaded.2) (space_of 0x9000) (ADDRESS_SPACE_USER_BASE + 0xFFF + 1) = Some 0.
Proof.
  assert (p_address_space (prc (y_kernel (l_system demo_loaded.2)) 0x9000) = space_of 0x9000) as Es by (by vm_compute).
  assert (pages_full (l_system demo_loaded.2) (p_address_space (prc (y_kernel (l_system demo_loaded.2)) 0x9000)) (ADDRESS_SPACE_USER_BASE + 0xFFF) 2) as Hp.
  { intros i f flags Hi H. assert (i = 0 \/ i = 1) as [->| ->] by lia; vm_compute in H; injection H as <- <-; by vm_compute. }
  assert (user_memory_read (l_system demo_loaded.2) 0x9000 (ADDRESS_SPACE_USER_BASE + 0xFFF) 2 = (true, [0; 0])) as Hr by (by vm_compute).
  assert (is_u64 (ADDRESS_SPACE_USER_BASE + 0xFFF)) as H1 by (split; by vm_compute). assert (is_u64 2) as H2 by (split; by vm_compute).
  set (y := l_system demo_loaded.2) in *. clearbody y.
  pose proof (user_memory_read_correct y 0x9000 (ADDRESS_SPACE_USER_BASE + 0xFFF) 2 H1 H2 Hp) as H.
  rewrite Hr, Es in H. split; [exact Hr|]. destruct H as (_ & _ & H). exact (H 1%nat 0 eq_refl).
Defined.
