(* ===== verification/Stacks.v ===== *)
(** Guarded kernel stacks: [kernel/kernel_stack.c].

    The state is the system with the two globals of the module. A slot of the
    arena is a guard page, the pages of one stack and a guard page. [None] is
    [cpu_halt_forever]. *)

From S2P Require Import Prelude Pmm ObjectStorage Kernel Objects Thread.
From S2P Require Import Scheduler Vmm Space UserMemory.

Open Scope jcos_scope.

(** * Data *)

Definition THREAD_KERNEL_STACK_PAGES : Z := 4.

Definition KERNEL_STACK_GUARD_PAGES : Z := 1.

Definition KERNEL_STACK_SLOT_PAGES : Z := THREAD_KERNEL_STACK_PAGES + 2 * KERNEL_STACK_GUARD_PAGES.

Definition KERNEL_STACK_SLOT_SIZE : Z := KERNEL_STACK_SLOT_PAGES * VM_PAGE_SIZE.

Definition KERNEL_STACK_ARENA_SIZE : Z := 0x01000000.

Definition KERNEL_STACK_ARENA_BASE : Z := ADDRESS_SPACE_USER_BASE - KERNEL_STACK_ARENA_SIZE.

Definition KERNEL_STACK_PT_SPAN : Z := 0x200000.

Definition KERNEL_STACK_IDLE_SLOT : Z := THREAD_STORAGE_CAPACITY.

Definition KERNEL_STACK_TOTAL_SLOTS : Z := THREAD_STORAGE_CAPACITY + 1.

Record Arena := mkArena { r_system : System; r_space : Z; r_ready : bool }.

#[export] Instance rebuild_Arena : Rebuild Arena := fun r => mkArena (r_system r) (r_space r) (r_ready r).

(** A call of the page-table module. *)
Definition on_vmm {A} (op : Vmm -> A * Vmm) (s : Arena) : A * Arena :=
  let '(r, y) := vmm_call op (r_system s) in (r, s <| r_system := y |>).

Definition vmm_free_range (first count : Z) (s : Vmm) : bool * Vmm :=
  let '(freed, p) := frame_free_range first count (v_pmm s) in (freed, s <| v_pmm := p |>).

(** * Queries *)

Definition space_cr3 (s : Arena) (space : Z) : Z := address_space_cr3 (y_kernel (r_system s)) space.

Definition cr3_frame (s : Arena) : Z := Z.land (c_cr3 (v_cpu (y_vmm (r_system s)))) (u64 (Z.lnot 0xFFF)).

Definition kernel_map_active (s : Arena) : bool :=
  nz (r_space s) && nz (space_cr3 s (r_space s)) && (cr3_frame s =? space_cr3 s (r_space s)).

Definition slot_stack_base (slot : Z) : option Z :=
  if !nz slot || (slot >=? KERNEL_STACK_TOTAL_SLOTS) then None else
  let slot_offset := slot * KERNEL_STACK_SLOT_SIZE in
  if slot_offset >? KERNEL_STACK_ARENA_SIZE - KERNEL_STACK_SLOT_SIZE then None else
  Some (KERNEL_STACK_ARENA_BASE + slot_offset + VM_PAGE_SIZE).

Definition kernel_page_absent (s : Arena) (address : Z) : bool :=
  nz (r_space s) && (if address_space_query_page (r_system s) (r_space s) address then false else true).

Definition kernel_stack_base_valid (stack_base : Z) : bool :=
  if !nz stack_base || nz (Z.land stack_base (VM_PAGE_SIZE - 1)) then false else
  if stack_base <? KERNEL_STACK_ARENA_BASE + VM_PAGE_SIZE then false else
  let slot_start := stack_base - VM_PAGE_SIZE in
  if slot_start <? KERNEL_STACK_ARENA_BASE then false else
  let offset := slot_start - KERNEL_STACK_ARENA_BASE in
  if nz (offset mod KERNEL_STACK_SLOT_SIZE) then false else
  let slot := offset / KERNEL_STACK_SLOT_SIZE in
  (slot >? 0) && (slot <? KERNEL_STACK_TOTAL_SLOTS).

(** The indices of the pages of a stack. *)
Definition stack_pages : list Z := seqZ 0 THREAD_KERNEL_STACK_PAGES.

Definition slot_clear (s : Arena) (stack_base : Z) : bool :=
  if !nz (r_space s) || !kernel_stack_base_valid stack_base then false else
  if !kernel_page_absent s (stack_base - VM_PAGE_SIZE) then false else
  if !forallb (fun i => kernel_page_absent s (stack_base + i * VM_PAGE_SIZE)) stack_pages then false else
  kernel_page_absent s (stack_base + THREAD_KERNEL_STACK_SIZE).

(** The test of a mapped page against the frame it should have. *)
Definition stack_page_ok (first i : Z) (x : Z * Z) : bool :=
  let '(frame, flags) := x in
  (frame =? u64 (first + i)) && (Z.land flags (Z.lor VM_WRITE (Z.lor VM_USER VM_EXEC)) =? VM_WRITE).

Definition stack_mapping_valid (s : Arena) (physical stack_base : Z) : bool :=
  if !r_ready s || !nz (r_space s) || !nz physical || !kernel_stack_base_valid stack_base then false else
  if nz (Z.land physical (FRAME_SIZE - 1)) then false else
  if !kernel_page_absent s (stack_base - VM_PAGE_SIZE) || !kernel_page_absent s (stack_base + THREAD_KERNEL_STACK_SIZE) then false else
  let first := phys_to_frame physical in
  if first =? FRAME_INVALID then false else
  forallb (fun i => match address_space_query_page (r_system s) (r_space s) (stack_base + i * VM_PAGE_SIZE) with
                    | None => false
                    | Some x => stack_page_ok first i x
                    end) stack_pages.

Definition kernel_stack_virtual_released (s : Arena) (stack_base : Z) : bool := r_ready s && slot_clear s stack_base.

Definition kernel_stack_arena_ready (s : Arena) : bool := r_ready s.

(** What the scheduler asks of this module, over a given state of the arena. *)
#[export] Instance arena_stacks (s : Arena) : KernelStack :=
  {| kernel_stack_mapping_valid k := stack_mapping_valid (s <| r_system := (r_system s) <| y_kernel := k |> |>) |}.

(** * Mapping and unmapping *)

Fixpoint restore_loop (physical stack_base : Z) (pages : list Z) (s : Arena) : bool * Arena :=
  match pages with
  | [] => (stack_mapping_valid s physical stack_base, s)
  | i :: pages =>
    let address := stack_base + i * VM_PAGE_SIZE in
    let first := phys_to_frame physical in
    match address_space_query_page (r_system s) (r_space s) address with
    | Some x => if stack_page_ok first i x then restore_loop physical stack_base pages s else (false, s)
    | None =>
      let '(mapped, s) := on_vmm (vmm_map_page (page_map (r_space s)) address (u64 (first + i)) VM_WRITE) s in
      if !mapped then (false, s) else restore_loop physical stack_base pages s
    end
  end.

Definition restore_mapping (physical stack_base : Z) (s : Arena) : bool * Arena :=
  if phys_to_frame physical =? FRAME_INVALID then (false, s) else restore_loop physical stack_base stack_pages s.

Fixpoint unmap_loop (physical stack_base : Z) (pages : list Z) (s : Arena) : option (bool * Arena) :=
  match pages with
  | [] => Some (kernel_stack_virtual_released s stack_base, s)
  | i :: pages =>
    match on_vmm (vmm_unmap_page (page_map (r_space s)) (stack_base + i * VM_PAGE_SIZE)) s with
    | (None, s) =>
      let '(restored, s) := restore_mapping physical stack_base s in
      if restored then Some (false, s) else None
    | (Some old, s) => if old != u64 (phys_to_frame physical + i) then None else unmap_loop physical stack_base pages s
    end
  end.

Definition unmap_mapping (physical stack_base : Z) (s : Arena) : option (bool * Arena) :=
  if !stack_mapping_valid s physical stack_base then Some (false, s) else unmap_loop physical stack_base stack_pages s.

(** * The arena *)

(** One page-table span: its table is created by mapping a page of it once. *)
Fixpoint arena_loop (space probe : Z) (spans : list Z) (s : Arena) : bool * Arena :=
  match spans with
  | [] => (true, s <| r_ready := true |>)
  | address :: spans =>
    if !kernel_page_absent s address then (false, s) else
    let '(mapped, s) := on_vmm (vmm_map_page (page_map space) address probe VM_WRITE) s in
    if !mapped then (false, s) else
    match on_vmm (vmm_unmap_page (page_map space) address) s with
    | (None, s) => (false, s)
    | (Some old, s) =>
      if old != probe then (false, s) else
      if !kernel_page_absent s address then (false, s) else arena_loop space probe spans s
    end
  end.

(** The first pages of the spans the slots reach into. *)
Definition arena_spans : list Z :=
  let used := KERNEL_STACK_TOTAL_SLOTS * KERNEL_STACK_SLOT_SIZE in
  (fun i => KERNEL_STACK_ARENA_BASE + i * KERNEL_STACK_PT_SPAN) <$> seqZ 0 ((used + KERNEL_STACK_PT_SPAN - 1) / KERNEL_STACK_PT_SPAN).

Definition kernel_stack_arena_init (kernel_space probe_physical : Z) (s : Arena) : bool * Arena :=
  if r_ready s then (kernel_space =? r_space s, s) else
  if !nz kernel_space || !a_kernel (spc (y_kernel (r_system s)) kernel_space) || !nz (space_cr3 s kernel_space) then (false, s) else
  if cr3_frame s != space_cr3 s kernel_space then (false, s) else
  let probe := phys_to_frame (Z.land probe_physical (u64 (Z.lnot (FRAME_SIZE - 1)))) in
  if probe =? FRAME_INVALID then (false, s) else
  let s := s <| r_space := kernel_space |> in
  arena_loop kernel_space probe arena_spans s.

(** * Slots *)

(** The pages mapped so far are removed again, the last first. *)
Fixpoint undo_loop (first stack_base : Z) (mapped : nat) (s : Arena) : option Arena :=
  match mapped with
  | O => Some s
  | S below =>
    let i := Z.of_nat below in
    match on_vmm (vmm_unmap_page (page_map (r_space s)) (stack_base + i * VM_PAGE_SIZE)) s with
    | (None, _) => None
    | (Some old, s) => if old != u64 (first + i) then None else undo_loop first stack_base below s
    end
  end.

Fixpoint map_loop (first stack_base : Z) (mapped rest : nat) (s : Arena) : option (bool * Arena) :=
  match rest with
  | O => Some (true, s)
  | S rest =>
    let i := Z.of_nat mapped in
    let '(ok, s) := on_vmm (vmm_map_page (page_map (r_space s)) (stack_base + i * VM_PAGE_SIZE) (u64 (first + i)) VM_WRITE) s in
    if ok then map_loop first stack_base (S mapped) rest s else
    s ← undo_loop first stack_base mapped s; Some (false, s)
  end.

(** The result is what [*virtual_base_out] receives. *)
Definition map_slot (slot physical : Z) (s : Arena) : option (option Z * Arena) :=
  if !r_ready s || !kernel_map_active s || !nz physical then Some (None, s) else
  if nz (Z.land physical (FRAME_SIZE - 1)) then Some (None, s) else
  match slot_stack_base slot with
  | None => Some (None, s)
  | Some stack_base =>
    if !slot_clear s stack_base then Some (None, s) else
    let first := phys_to_frame physical in
    if first =? FRAME_INVALID then Some (None, s) else
    '(mapped, s) ← map_loop first stack_base 0 (Z.to_nat THREAD_KERNEL_STACK_PAGES) s;
    if negb mapped then Some (None, s) else
    if stack_mapping_valid s physical stack_base then Some (Some stack_base, s) else None
  end.

Definition kernel_stack_map (storage_slot physical : Z) (s : Arena) : option (option Z * Arena) :=
  if storage_slot >=? THREAD_STORAGE_CAPACITY then Some (None, s) else map_slot storage_slot physical s.

Definition kernel_stack_map_scheduler_idle (physical : Z) (s : Arena) : option (option Z * Arena) :=
  map_slot KERNEL_STACK_IDLE_SLOT physical s.

(** [first != FRAME_INVALID && frame_free_range(first, ...)] *)
Definition free_stack (physical : Z) (s : Arena) : bool * Arena :=
  let first := phys_to_frame physical in
  if first =? FRAME_INVALID then (false, s) else on_vmm (vmm_free_range first THREAD_KERNEL_STACK_PAGES) s.

Definition kernel_stack_discard_unpublished (physical stack_base : Z) (s : Arena) : option (bool * Arena) :=
  if !nz physical || nz (Z.land physical (FRAME_SIZE - 1)) then Some (false, s) else
  '(detached, s) ← (if !nz stack_base then Some (true, s) else
                    if !kernel_map_active s then Some (false, s) else
                    if kernel_stack_virtual_released s stack_base then Some (true, s) else unmap_mapping physical stack_base s);
  if negb detached then Some (false, s) else Some (free_stack physical s).

Definition kernel_stack_release (physical stack_base : Z) (s : Arena) : option (bool * Arena) :=
  if !r_ready s || !kernel_map_active s || !nz physical || !nz stack_base then Some (false, s) else
  '(unmapped, s) ← unmap_mapping physical stack_base s;
  if negb unmapped then Some (false, s) else
  if phys_to_frame physical =? FRAME_INVALID then None else
  let '(freed, s) := on_vmm (vmm_free_range (phys_to_frame physical) THREAD_KERNEL_STACK_PAGES) s in
  if freed then Some (true, s) else
  let '(restored, s) := restore_mapping physical stack_base s in
  if restored then Some (false, s) else None.
