(* ===== verification/StackTheorems.v ===== *)
(** Kernel stacks never halt the kernel: mapping a stack and releasing one are
    transactions. *)

From S2P Require Import Prelude Pmm PmmProofs PmmRefine ObjectStorage Kernel.
From S2P Require Import Objects Frames Thread Scheduler Vmm VmmWf.
From S2P Require Import VmmEdit VmmOps VmmMap VmmCalls VmmUnmap.
From S2P Require Import VmmLife VmmShare VmmMachine Space SpaceWf SpaceOps.
From S2P Require Import PmmInit UserMemory Stacks VmmTheorems SpaceTheorems ElfMap.

Open Scope jcos_scope.

Local Notation K := (page_map g_kernel_space).
Local Notation vm s := (y_vmm (r_system s)).

(** * The invariant *)

(** A page of the slots of the arena. *)
Definition arena_page (va : Z) : Prop :=
  KERNEL_STACK_ARENA_BASE <= va < KERNEL_STACK_ARENA_BASE + KERNEL_STACK_TOTAL_SLOTS * KERNEL_STACK_SLOT_SIZE /\ va mod 4096 = 0.

(** Once the arena is ready every slot has its page tables, so that no table is
    allocated when a stack is mapped. *)
Record arena_wf (s : Arena) : Prop := {
  aw_wf : spaces_wf (r_system s);
  aw_direct : v_use_phys_map (vm s) = true;
  aw_space : r_ready s = true -> r_space s = g_kernel_space;
  aw_modes : r_ready s = true -> v_nx_enabled (vm s) = true /\ profile_supported (vm s) = true;
  aw_tables : r_ready s = true -> forall va, arena_page va -> has_tables (vm s) K va }.

(** A change of kernel pages: tables and frames stay. *)
Record kernel_step (s s' : Arena) : Prop := {
  kt_tables : tables_step (r_system s) (r_system s');
  kt_space : r_space s' = r_space s;
  kt_ready : r_ready s' = r_ready s;
  kt_stay : stay (vm s) (vm s') }.

Lemma kernel_step_refl s : spaces_wf (r_system s) -> kernel_step s s.
Proof. intros W. split; [by apply tables_refl|done|done|apply stay_refl]. Qed.

Lemma kernel_step_trans s1 s2 s3 : kernel_step s1 s2 -> kernel_step s2 s3 -> kernel_step s1 s3.
Proof.
  intros [A1 A2 A3 A4] [B1 B2 B3 B4]. split; [by eapply tables_trans|congruence|congruence|by eapply stay_trans].
Qed.

Lemma kernel_step_wf s s' : arena_wf s -> kernel_step s s' -> arena_wf s'.
Proof.
  intros [A1 A2 A3 A4 A5] [B1 B2 B3 B4]. destruct (ts_modes _ _ B1) as (M1 & M2 & M3 & _). split; rewrite ?B2, ?B3, ?M1, ?M2, ?M3; try done; [apply B1|].
  intros Hr va Hva. destruct (A5 Hr va Hva) as [f Hf]. exists f. by apply B4.
Qed.

(** Nothing but pages of the kernel space in a range changes. *)
Definition same_except (s s' : Arena) (first last : Z) : Prop :=
  forall m va, page va -> map_owns_pml4_index (vm s) m (pml4_index va) = true -> map_live (vm s) m ->
    ~ (m = K /\ first <= va < last) -> vmm_query_page (vm s') m va = vmm_query_page (vm s) m va.

Lemma same_except_refl s first last : same_except s s first last.
Proof. done. Qed.

Lemma same_except_trans s1 s2 s3 first last :
  v_maps (vm s2) = v_maps (vm s1) -> same_except s1 s2 first last -> same_except s2 s3 first last -> same_except s1 s3 first last.
Proof.
  intros Em H1 H2 m va Hp Ho Hl Hno. rewrite (H2 m va); [by apply H1|done|by rewrite (aside_owns (vm s1))|by apply (aside_live (vm s1))|done].
Qed.

(** * The kernel map *)

Lemma kernel_live y : spaces_wf y -> g_kernel_space ∈ spaces y /\ map_live (y_vmm y) K.
Proof. intros W. destruct (sp_ready y W) as [_ H]. split; [done|]. by apply (mp_live _ _ (sp_maps y W)). Qed.

Lemma kernel_owns y va : spaces_wf y -> map_owns_pml4_index (y_vmm y) K (pml4_index va) = true.
Proof. intros W. rewrite (mp_owns _ _ (sp_maps y W)); [done|by apply kernel_live|apply index_mask]. Qed.

Lemma kernel_query s va :
  spaces_wf (r_system s) -> r_space s = g_kernel_space -> address_space_query_page (r_system s) (r_space s) va = vmm_query_page (vm s) K va.
Proof. intros W ->. apply query_live; [done|by apply kernel_live]. Qed.

Lemma absent_query s va :
  spaces_wf (r_system s) -> r_space s = g_kernel_space ->
  kernel_page_absent s va = bool_decide (vmm_query_page (vm s) K va = None).
Proof.
  intros W Es. unfold kernel_page_absent. rewrite (kernel_query s va W Es), Es. destruct (vmm_query_page (vm s) K va); [|done].
  by rewrite bool_decide_eq_false_2.
Qed.

Lemma address_mask x : Z.land x PTE_ADDRESS_MASK = (x / 4096) mod 2 ^ 40 * 4096.
Proof.
  change PTE_ADDRESS_MASK with (Z.shiftl (Z.ones 40) 12).
  assert (Z.land x (Z.shiftl (Z.ones 40) 12) = Z.shiftl (Z.land (Z.shiftr x 12) (Z.ones 40)) 12) as ->.
  { apply Z.bits_inj'. intros n Hn. rewrite Z.land_spec, !Z.shiftl_spec by lia. destruct (Z.ltb_spec n 12) as [H|H].
    - rewrite !(Z.testbit_neg_r _ (n - 12)) by lia. by rewrite andb_false_r.
    - rewrite Z.land_spec, Z.shiftr_spec by lia. by rewrite Z.sub_add. }
  by rewrite Z.land_ones, Z.shiftl_mul_pow2, Z.shiftr_div_pow2 by lia.
Qed.

Lemma masked_aligned x : 0 <= x < 2 ^ 52 -> x mod 4096 = 0 -> Z.land x PTE_ADDRESS_MASK = x.
Proof. intros Hx Ha. rewrite address_mask, Z.mod_small; Z.to_euclidean_division_equations; lia. Qed.

(** Frames that translations name are below the limit of physical addresses. *)
Lemma query_frame_bound v m va f flags : vmm_query_page v m va = Some (f, flags) -> 0 <= f < 2 ^ 40.
Proof.
  unfold vmm_query_page. intros H. do 2 (if_case_in H; [done|]). destruct (table_pointer v _); [|done]. cbn [mbind option_bind] in H.
  destruct (existing_table v _ _); [|done]. cbn [mbind option_bind] in H. destruct (existing_table v _ _); [|done]. cbn [mbind option_bind] in H.
  destruct (existing_table v _ _); [|done]. cbn [mbind option_bind] in H. if_case_in H; [done|]. injection H as <- _.
  unfold entry_frame. rewrite address_mask. unfold phys_to_frame. rewrite page_offset, Z.mod_mul by lia. change (nz 0) with false. cbn match.
  unfold FRAME_SIZE. rewrite Z.div_mul by lia. apply Z.mod_pos_bound. lia.
Qed.

Lemma small_frame_valid f : 0 < f < 2 ^ 40 -> valid_mapping_frame f = true.
Proof.
  intros Hf. unfold valid_mapping_frame. assert (frame_to_phys f = f * 4096) as E.
  { unfold frame_to_phys, FRAME_INVALID, U64_MAX, FRAME_SIZE. change ((2 ^ 64 - 1) / 4096) with 4503599627370495.
    destruct (Z.eqb_spec f (2 ^ 64 - 1)); [lia|]. destruct (Z.ltb_spec 4503599627370495 f); [lia|]. apply u64_id. unfold is_u64. lia. }
  rewrite E. destruct (Z.eqb_spec f FRAME_INVALID); [unfold FRAME_INVALID, U64_MAX in *; lia|]. unfold nz. destruct (Z.eqb_spec (f * 4096) 0); [lia|]. cbn [negb].
  rewrite <- (masked_aligned (f * 4096)) by (rewrite ?Z.mod_mul; lia). rewrite <- Z.land_assoc.
  change (Z.land PTE_ADDRESS_MASK (u64 (Z.lnot PTE_ADDRESS_MASK))) with 0. by rewrite Z.land_0_r.
Qed.

Lemma frame_to_phys_aligned f : frame_to_phys f mod 4096 = 0.
Proof.
  unfold frame_to_phys, FRAME_SIZE. if_case; [done|]. if_case; [done|]. unfold u64. change (2 ^ 64) with (4096 * 2 ^ 52).
  rewrite Z.rem_mul_r, Z.mod_mul by lia. rewrite Z.add_0_l, Z.mul_comm. by apply Z.mod_mul.
Qed.

(** The loaded root of a live map in the direct map is the one CR3 holds. *)
Lemma cr3_active s a :
  spaces_wf (r_system s) -> v_use_phys_map (vm s) = true -> a ∈ spaces (r_system s) -> space_cr3 s a <> 0 -> cr3_frame s = space_cr3 s a ->
  map_active (vm s) (page_map a) = true /\ destroy_pending (pmap (vm s) (page_map a)) = false.
Proof.
  intros W Hd Ha Hnz Hc. pose proof (mp_live _ _ (sp_maps _ W) a Ha) as Hl. destruct (sp_shown _ W a Ha) as [Hr Hp].
  unfold space_cr3, address_space_cr3 in *. rewrite Hr, Hp in *. if_case_in Hnz; [done|]. bool_prop. split; [|done]. pose proof Hl as [H1' H2'].
  unfold map_active. rewrite H1', (proj2 (Z.eqb_neq _ _) H2'). cbn [negb andb]. apply Z.eqb_eq. set (x := frame_to_phys _) in *.
  destruct (vw_table _ (rn_wf _ (sp_running _ W)) (page_map a) [] _ (root_node _ _ Hl)) as (_ & _ & Ht).
  assert (0 <= x < 2 ^ 52) as Hx.
  { pose proof (frame_to_phys_u64 (root_frame (pmap (vm s) (page_map a)))) as Hu. fold x in Hu. unfold is_u64 in Hu. split; [lia|].
    unfold table_pointer in Ht. fold (root (vm s) (page_map a)) in x. fold x in Ht. unfold nz in Ht. rewrite (proj2 (Z.eqb_neq _ _) Hnz), Hd in Ht. cbn [negb] in Ht.
    unfold phys_to_virt, physmap_virtual_address, PHYS_MAP_SIZE in Ht. destruct (Z.leb_spec 0x0000800000000000 x); [done|lia]. }
  unfold cr3_frame in Hc. set (c := c_cr3 _) in *. rewrite <- (masked_aligned x Hx (frame_to_phys_aligned _)), <- Hc, <- Z.land_assoc. f_equal.
Qed.

(** * One page of the kernel space *)

(** The processor runs on the kernel map and may change it. *)
Record kernel_open (s : Arena) : Prop := {
  ko_wf : spaces_wf (r_system s);
  ko_active : map_active (vm s) K = true;
  ko_pending : destroy_pending (pmap (vm s) K) = false }.

Lemma kernel_open_step s s' : kernel_open s -> kernel_step s s' -> kernel_open s'.
Proof.
  intros [W A P] [T _ _ _]. split; [apply T|by rewrite (ts_active _ _ T)|]. by rewrite (aside_pmap (vm s) (vm s') K (ts_maps _ _ T)).
Qed.

Lemma vmm_step_arena s v va x :
  spaces_wf (r_system s) -> moved (vm s) v -> maps_as (vm s) v K va x -> is_u64 va -> (coherent (vm s) -> coherent v) -> stay (vm s) v ->
  kernel_step s (s <| r_system := (r_system s) <| y_vmm := v |> |>).
Proof.
  intros W M Hq Hva Hc Hst. destruct (kernel_live _ W) as [Ha _].
  pose proof (moved_advances _ _ (sp_running _ W) M Hc) as [Hr _ _].
  destruct (maps_leaf _ _ _ _ _ _ (rn_wf _ (sp_running _ W)) (sp_maps _ W) (sp_scratch _ W) M Hq Hva) as [Hm Hsc].
  { intros b [_ Hb] E. by apply page_map_inj in E. }
  { by apply (mp_apart _ _ (sp_maps _ W)). }
  split; [exact (moved_step _ v W Hr M Hm Hsc)|done|done|exact Hst].
Qed.

Lemma kernel_map_step s va f :
  kernel_open s -> is_u64 va -> is_u64 f -> page_ok va = true ->
  let '(b, s') := on_vmm (vmm_map_page K va f VM_WRITE) s in
  kernel_step s s' /\ maps_as (vm s) (vm s') K va (if (b : bool) then Some (f, VM_WRITE) else vmm_query_page (vm s) K va) /\
  (b = true -> vmm_query_page (vm s) K va = None /\ v_nx_enabled (vm s) = true /\ profile_supported (vm s) = true /\ has_tables (vm s') K va) /\
  (v_nx_enabled (vm s) = true -> profile_supported (vm s) = true -> valid_mapping_frame f = true ->
   vmm_query_page (vm s) K va = None -> has_tables (vm s) K va -> b = true).
Proof.
  intros [W A P] Hva Hf Hok. unfold on_vmm, vmm_call. pose proof (rn_wf _ (sp_running _ W)) as Wv.
  pose proof (map_page_call K va f VM_WRITE (vm s) Wv Hva Hf ltac:(by split)) as H.
  assert ((vmm_map_page K va f VM_WRITE (vm s)).1 = true -> profile_supported (vm s) = true) as Hpr.
  { unfold vmm_map_page. destruct (profile_supported (vm s)) eqn:E; [done|]. by rewrite E. }
  destruct (vmm_map_page K va f VM_WRITE (vm s)) as [b v]. destruct H as (M & Hq & Hb & _ & Hc & _ & Hst & Ht & Hok'). cbn [fst] in Hpr.
  split_and!; [by apply (vmm_step_arena s v va _ W M Hq Hva Hc), Hst|exact Hq| |].
  - intros ->. destruct (Hb eq_refl) as [Hal Hn]. split_and!; [done| |by apply Hpr|by apply Ht].
    unfold map_page_allowed in Hal. repeat if_case_in Hal; try done. by bool_prop.
  - intros Hnx Hp Hv Hn Htab. apply Hok'; try done. destruct (kernel_live _ W) as [_ [L1 L2]]. unfold map_page_allowed.
    rewrite L1, (proj2 (Z.eqb_neq _ _) L2), P, A, andb_false_r, Hv, Hnx. cbn [negb orb]. apply andb_true_iff in Hok as [-> ->]. cbn. by apply kernel_owns.
Qed.

Lemma kernel_unmap_step s va :
  kernel_open s -> is_u64 va -> page_ok va = true -> profile_supported (vm s) = true ->
  let '(r, s') := on_vmm (vmm_unmap_page K va) s in
  kernel_step s s' /\ r = fst <$> vmm_query_page (vm s) K va /\
  maps_as (vm s) (vm s') K va (if r then None else vmm_query_page (vm s) K va).
Proof.
  intros [W A P] Hva Hok Hp. unfold on_vmm, vmm_call. pose proof (unmap_call K va (vm s) (rn_wf _ (sp_running _ W)) Hva) as H.
  destruct (vmm_unmap_page K va (vm s)) as [r v]. destruct H as (Hr & _ & M & Hq & Hc & Hst).
  assert (change_allowed (vm s) K va = true) as Hal.
  { unfold change_allowed. destruct (kernel_live _ W) as [_ [L1 L2]]. rewrite Hp, L1, (proj2 (Z.eqb_neq _ _) L2), P, A, Hok, (kernel_owns _ va W). by destruct (shared_source _). }
  rewrite Hal in Hr. split_and!; [by apply (vmm_step_arena s v va _ W M Hq Hva Hc), Hst|done|exact Hq].
Qed.

(** * The pages of a slot *)

(** The base of a stack and what follows for its pages. *)
Lemma base_valid_spec base :
  kernel_stack_base_valid base = true -> base mod 4096 = 0 /\ forall j, -1 <= j <= 4 -> arena_page (base + j * 4096).
Proof.
  unfold kernel_stack_base_valid. intros H. repeat if_case_in H; try done. bool_prop. change (VM_PAGE_SIZE - 1) with (FRAME_SIZE - 1) in *.
  rewrite page_offset in *. split; [done|]. intros j Hj. unfold arena_page.
  unfold KERNEL_STACK_TOTAL_SLOTS, THREAD_STORAGE_CAPACITY in *. change KERNEL_STACK_SLOT_SIZE with 24576 in *.
  change KERNEL_STACK_ARENA_BASE with 549739036672 in *. unfold VM_PAGE_SIZE in *. Z.to_euclidean_division_equations; lia.
Qed.

Lemma arena_page_ok va : arena_page va -> is_u64 va /\ page_ok va = true.
Proof.
  unfold arena_page, KERNEL_STACK_TOTAL_SLOTS, THREAD_STORAGE_CAPACITY. change KERNEL_STACK_SLOT_SIZE with 24576.
  change KERNEL_STACK_ARENA_BASE with 549739036672. intros [H1 H2]. assert (is_u64 va) as Hu by (unfold is_u64; lia). split; [done|].
  unfold page_ok, page_aligned, virtual_address_canonical. change (VM_PAGE_SIZE - 1) with (FRAME_SIZE - 1).
  rewrite page_offset, H2, !Z.shiftr_div_pow2, !Z.div_small by lia. done.
Qed.

(** A change of one page of a slot. *)
Lemma slot_change s s' base i x :
  kernel_open s -> kernel_stack_base_valid base = true -> 0 <= i < 4 -> maps_as (vm s) (vm s') K (base + i * 4096) x ->
  (forall j, -1 <= j <= 4 -> vmm_query_page (vm s') K (base + j * 4096) = if decide (j = i) then x else vmm_query_page (vm s) K (base + j * 4096)) /\
  same_except s s' base (base + 16384).
Proof.
  intros [W _ _] Hb Hi Hq. destruct (base_valid_spec base Hb) as [Ha Hp]. split.
  - intros j Hj. destruct (arena_page_ok _ (Hp j Hj)) as [Hu Hok]. rewrite (Hq K); [|by apply page_ok_page|by apply kernel_owns|by apply kernel_live].
    destruct (decide (j = i)) as [->|Hne]; [by rewrite decide_True|rewrite decide_False; [done|]]. intros [_ E]. apply Hne. lia.
  - intros m va Hpg Ho Hl Hno. rewrite (Hq m va Hpg Ho Hl), decide_False; [done|]. intros [-> ->]. apply Hno. split; [done|lia].
Qed.

(** * Mapping a slot *)

(** The first [n] pages of a stack are mapped, the others are absent. *)
Definition stack_at (s : Arena) (base first : Z) (n : nat) : Prop :=
  forall j, 0 <= j < 4 -> vmm_query_page (vm s) K (base + j * 4096) = if decide (j < Z.of_nat n) then Some (first + j, VM_WRITE) else None.

(** A step of a loop over the pages of one slot. *)
Definition slot_step (s s' : Arena) (base : Z) : Prop := kernel_step s s' /\ same_except s s' base (base + 16384).

Lemma slot_step_refl s base : spaces_wf (r_system s) -> slot_step s s base.
Proof. intros W. split; [by apply kernel_step_refl|done]. Qed.

Lemma slot_step_trans s1 s2 s3 base : slot_step s1 s2 base -> slot_step s2 s3 base -> slot_step s1 s3 base.
Proof.
  intros [A1 A2] [B1 B2]. split; [by eapply kernel_step_trans|]. eapply same_except_trans; [apply A1|done|done].
Qed.

Section Slot.
  Context (base first : Z) (Hb : kernel_stack_base_valid base = true) (Hf : 0 <= first < 2 ^ 52).

Lemma frame_sum i : 0 <= i < 4 -> u64 (first + i) = first + i /\ is_u64 (first + i).
Proof using Hf. intros Hi. assert (is_u64 (first + i)) as Hu by (unfold is_u64; lia). by rewrite u64_id. Qed.

Lemma slot_page i : 0 <= i < 4 -> is_u64 (base + i * 4096) /\ page_ok (base + i * 4096) = true /\ arena_page (base + i * 4096).
Proof using Hb. intros Hi. destruct (base_valid_spec base Hb) as [_ Hp]. destruct (arena_page_ok _ (Hp i ltac:(lia))). split_and!; try done. apply Hp. lia. Qed.

Lemma step_profile s s' : kernel_step s s' -> profile_supported (vm s') = profile_supported (vm s) /\ v_nx_enabled (vm s') = v_nx_enabled (vm s).
Proof. intros [T _ _ _]. by destruct (ts_modes _ _ T) as (H1 & _ & H2 & _). Qed.

Lemma undo_call n s :
  (n <= 4)%nat -> kernel_open s -> r_space s = g_kernel_space -> profile_supported (vm s) = true -> stack_at s base first n ->
  exists s', undo_loop first base n s = Some s' /\ slot_step s s' base /\ stack_at s' base first 0.
Proof using Hb Hf.
  revert s. induction n as [|n IH]; intros s Hn O Es Hp Hs; cbn [undo_loop].
  - exists s. split_and!; [done|apply slot_step_refl, O|done].
  - destruct (slot_page (Z.of_nat n) ltac:(lia)) as (U1 & U2 & _). unfold VM_PAGE_SIZE. rewrite Es.
    pose proof (kernel_unmap_step s (base + Z.of_nat n * 4096) O U1 U2 Hp) as H. destruct (on_vmm _ s) as [r s1]. destruct H as (T & -> & Hq).
    rewrite (Hs (Z.of_nat n)), decide_True in * by lia. cbn [fmap option_fmap option_map fst] in *.
    destruct (frame_sum (Z.of_nat n) ltac:(lia)) as [-> _]. rewrite Z.eqb_refl. cbn [negb].
    destruct (slot_change s s1 base (Z.of_nat n) None O Hb ltac:(lia) Hq) as [Hc Hse].
    destruct (IH s1) as (s2 & -> & Hst & H0); [lia|by eapply kernel_open_step|by rewrite (kt_space _ _ T)|by rewrite (proj1 (step_profile _ _ T))| |].
    + intros j Hj. rewrite Hc by lia. rewrite (Hs j Hj). destruct (decide (j = Z.of_nat n)); [by rewrite decide_False by lia|].
      destruct (decide (j < Z.of_nat (S n))), (decide (j < Z.of_nat n)); try done; lia.
    + exists s2. split_and!; [done|by eapply slot_step_trans|done].
Qed.

Lemma stack_loop_call rest mapped s :
  (mapped + rest = 4)%nat -> kernel_open s -> r_space s = g_kernel_space -> stack_at s base first mapped ->
  (mapped = 0%nat \/ profile_supported (vm s) = true) ->
  exists b s', map_loop first base mapped rest s = Some (b, s') /\ slot_step s s' base /\
    stack_at s' base first (if (b : bool) then 4 else 0) /\
    (v_nx_enabled (vm s) = true -> profile_supported (vm s) = true -> (forall i, 0 <= i < 4 -> valid_mapping_frame (first + i) = true) ->
     (forall i, 0 <= i < 4 -> has_tables (vm s) K (base + i * 4096)) -> b = true).
Proof using Hb Hf.
  revert mapped s. induction rest as [|rest IH]; intros mapped s Hm O Es Hs Hp; cbn [map_loop].
  - exists true, s. assert (mapped = 4%nat) as -> by lia. split_and!; [done|apply slot_step_refl, O|done|done].
  - set (i := Z.of_nat mapped) in *. destruct (slot_page i ltac:(lia)) as (U1 & U2 & _). destruct (frame_sum i ltac:(lia)) as [-> U3]. unfold VM_PAGE_SIZE. rewrite Es.
    pose proof (kernel_map_step s (base + i * 4096) (first + i) O U1 U3 U2) as H. destruct (on_vmm _ s) as [b s1]. destruct H as (T & Hq & Ht & Hsucc).
    destruct (slot_change s s1 base i _ O Hb ltac:(lia) Hq) as [Hc Hse]. pose proof (kernel_open_step s s1 O T) as O1.
    destruct (step_profile _ _ T) as [Ep En].
    assert (vmm_query_page (vm s) K (base + i * 4096) = None) as Hn by (rewrite (Hs i), decide_False by lia; done). destruct b.
    + destruct (Ht eq_refl) as (_ & _ & Hpr & _).
      destruct (IH (S mapped) s1) as (b & s2 & -> & Hst & Ha & Hok); [lia|done|by rewrite (kt_space _ _ T)| |right; congruence|].
      { intros j Hj. rewrite Hc by lia. rewrite (Hs j Hj). destruct (decide (j = i)) as [->|]; [by rewrite decide_True by lia|].
        destruct (decide (j < Z.of_nat mapped)), (decide (j < Z.of_nat (S mapped))); try done; lia. }
      exists b, s2. split_and!; [done|by eapply slot_step_trans|done|]. intros H1 H2 H3 H4. apply Hok; [congruence|congruence|done|].
      intros j Hj. destruct (H4 j Hj) as [f Hx]. exists f. by apply (kt_stay _ _ T).
    + assert (stack_at s1 base first mapped) as Hs1.
      { intros j Hj. rewrite Hc by lia. destruct (decide (j = i)) as [->|]; [|by apply Hs]. by rewrite Hn, decide_False by lia. }
      assert (profile_supported (vm s1) = true \/ mapped = 0%nat) as Hp1 by (destruct Hp as [->|Hp]; [by right|left; congruence]).
      destruct (decide (mapped = 0%nat)) as [Hz|Hz].
      * rewrite Hz in *. cbn [undo_loop mbind option_bind]. exists false, s1. split_and!; [done|done|done|]. intros H1 H2 H3 H4. apply Hsucc; try done; [apply H3; lia|apply H4; lia].
      * destruct (undo_call mapped s1) as (s2 & -> & Hst & H0); [lia|done|by rewrite (kt_space _ _ T)|by destruct Hp1|done|].
        cbn [mbind option_bind]. exists false, s2. split_and!; [done|by eapply slot_step_trans|done|]. intros H1 H2 H3 H4. apply Hsucc; try done; [apply H3; lia|apply H4; lia].
Qed.

End Slot.

(** * The checks of the module *)

Lemma stack_pages_all (P : Z -> bool) : forallb P stack_pages = true <-> forall j, 0 <= j < 4 -> P j = true.
Proof.
  change stack_pages with [0; 1; 2; 3]. cbn [forallb]. rewrite !andb_true_iff. split.
  - intros (H0 & H1 & H2 & H3 & _) j Hj. assert (j = 0 \/ j = 1 \/ j = 2 \/ j = 3) as [->|[->|[->| ->]]] by lia; done.
  - intros H. split_and!; try done; apply H; lia.
Qed.

Lemma slot_clear_spec s base :
  spaces_wf (r_system s) -> r_space s = g_kernel_space ->
  slot_clear s base = true <-> kernel_stack_base_valid base = true /\ forall j, -1 <= j <= 4 -> vmm_query_page (vm s) K (base + j * 4096) = None.
Proof.
  intros W Es. unfold slot_clear, VM_PAGE_SIZE. change THREAD_KERNEL_STACK_SIZE with (4 * 4096). rewrite Es. change (nz g_kernel_space) with true. cbn [negb orb].
  destruct (kernel_stack_base_valid base); cbn [negb]; [|by split; [|intros [? _]]]. replace (base - 4096) with (base + -1 * 4096) by lia.
  rewrite !absent_query by done.
  assert (forallb (fun i => kernel_page_absent s (base + i * 4096)) stack_pages = true <-> forall j, 0 <= j < 4 -> vmm_query_page (vm s) K (base + j * 4096) = None) as Hall.
  { rewrite stack_pages_all. split; intros H j Hj; specialize (H j Hj); [rewrite absent_query in H by done; by apply bool_decide_eq_true in H|].
    rewrite absent_query by done. by apply bool_decide_eq_true. }
  split.
  - intros H. split; [done|]. destruct (bool_decide_reflect (vmm_query_page (vm s) K (base + -1 * 4096) = None)) as [H1|]; [|done]. cbn [negb] in H.
    destruct (forallb _ _); [|done]. cbn [negb] in H. apply bool_decide_eq_true in H. intros j Hj.
    destruct (decide (j = -1)) as [->|]; [done|]. destruct (decide (j = 4)) as [->|]; [done|]. apply Hall; [done|lia].
  - intros [_ H]. rewrite !bool_decide_eq_true_2 by (apply H; lia). cbn [negb]. by rewrite (proj2 Hall) by (intros j Hj; apply H; lia).
Qed.

(** The pages of a valid stack. *)
Record valid_stack (s : Arena) (physical base : Z) : Prop := {
  vs_ready : r_ready s = true;
  vs_physical : physical <> 0 /\ physical mod 4096 = 0;
  vs_base : kernel_stack_base_valid base = true;
  vs_guards : vmm_query_page (vm s) K (base + -1 * 4096) = None /\ vmm_query_page (vm s) K (base + 4 * 4096) = None;
  vs_stack : forall j, 0 <= j < 4 -> exists flags, vmm_query_page (vm s) K (base + j * 4096) = Some (physical / 4096 + j, flags) /\
    Z.land flags (Z.lor VM_WRITE (Z.lor VM_USER VM_EXEC)) = VM_WRITE }.

Lemma phys_frame physical : is_u64 physical -> physical mod 4096 = 0 -> phys_to_frame physical = physical / 4096 /\ 0 <= physical / 4096 < 2 ^ 52 /\ phys_to_frame physical <> FRAME_INVALID.
Proof.
  unfold is_u64. intros Hp Ha. unfold phys_to_frame. rewrite page_offset, Ha. change (nz 0) with false. cbn match. change FRAME_SIZE with 4096.
  unfold FRAME_INVALID, U64_MAX. Z.to_euclidean_division_equations; lia.
Qed.

Lemma mapping_valid_spec s physical base :
  spaces_wf (r_system s) -> (r_ready s = true -> r_space s = g_kernel_space) -> is_u64 physical ->
  stack_mapping_valid s physical base = true <-> valid_stack s physical base.
Proof.
  intros W Hes Hp. unfold stack_mapping_valid, VM_PAGE_SIZE. change THREAD_KERNEL_STACK_SIZE with (4 * 4096). replace (base - 4096) with (base + -1 * 4096) by lia.
  rewrite page_offset. destruct (r_ready s) eqn:Er; cbn [negb orb]; [|split; [done|intros [? _ _ _ _]; congruence]]. rewrite (Hes eq_refl). change (nz g_kernel_space) with true. cbn [negb orb].
  destruct (Z.eqb_spec physical 0) as [Ez|Ez]; unfold nz at 1; [rewrite Ez; split; [done|intros [_ [? _] _ _ _]; congruence]|].
  rewrite (proj2 (Z.eqb_neq _ _) Ez). cbn [negb orb]. destruct (kernel_stack_base_valid base) eqn:Eb; cbn [negb]; [|split; [done|intros [_ _ ? _ _]; congruence]].
  destruct (Z.eqb_spec (physical mod 4096) 0) as [Ea|Ea]; unfold nz; [rewrite Ea|rewrite (proj2 (Z.eqb_neq _ _) Ea); split; [done|intros [_ [_ ?] _ _ _]; congruence]].
  cbn [negb Z.eqb]. destruct (phys_frame physical Hp Ea) as (E1 & E2 & E3). rewrite (proj2 (Z.eqb_neq _ _) E3), E1.
  rewrite !absent_query by (done || by apply Hes). pose proof (fun va => kernel_query s va W (Hes eq_refl)) as Hq. rewrite (Hes eq_refl) in Hq.
  assert (forallb (fun i => match address_space_query_page (r_system s) g_kernel_space (base + i * 4096) with Some x => stack_page_ok (physical / 4096) i x | None => false end) stack_pages = true <->
    forall j, 0 <= j < 4 -> exists flags, vmm_query_page (vm s) K (base + j * 4096) = Some (physical / 4096 + j, flags) /\
      Z.land flags (Z.lor VM_WRITE (Z.lor VM_USER VM_EXEC)) = VM_WRITE) as Hall.
  { rewrite stack_pages_all. split; intros H j Hj; specialize (H j Hj); destruct (frame_sum (physical / 4096) E2 j Hj) as [Es _].
    - rewrite Hq in H. destruct (vmm_query_page _ _ _) as [[f flags]|]; [|done]. unfold stack_page_ok in H. rewrite Es in H. bool_prop. subst. by exists flags.
    - rewrite Hq. destruct H as (flags & -> & Hf). unfold stack_page_ok. by rewrite Es, Hf, !Z.eqb_refl. }
  split.
  - intros H. destruct (bool_decide_reflect (vmm_query_page (vm s) K (base + -1 * 4096) = None)) as [H1|]; [|done].
    destruct (bool_decide_reflect (vmm_query_page (vm s) K (base + 4 * 4096) = None)) as [H2|]; [|done]. cbn [negb orb] in H. split; try done. by apply Hall.
  - intros [_ _ _ [G1 G2] G3]. rewrite !bool_decide_eq_true_2 by done. cbn [negb orb]. by apply Hall.
Qed.

Lemma slot_base_spec slot base :
  0 <= slot -> slot_stack_base slot = Some base ->
  1 <= slot <= 512 /\ base = KERNEL_STACK_ARENA_BASE + slot * KERNEL_STACK_SLOT_SIZE + 4096 /\ kernel_stack_base_valid base = true.
Proof.
  intros Hs H. unfold slot_stack_base in H. do 2 (if_case_in H; [done|]). injection H as <-. bool_prop.
  unfold KERNEL_STACK_TOTAL_SLOTS, THREAD_STORAGE_CAPACITY in *. split_and!; [lia|lia|done|]. unfold kernel_stack_base_valid, nz, KERNEL_STACK_TOTAL_SLOTS, THREAD_STORAGE_CAPACITY.
  change (VM_PAGE_SIZE - 1) with (FRAME_SIZE - 1). rewrite page_offset. change KERNEL_STACK_SLOT_SIZE with 24576 in *. change KERNEL_STACK_ARENA_BASE with 549739036672. unfold VM_PAGE_SIZE.
  replace (549739036672 + slot * 24576 + 4096 - 4096 - 549739036672) with (slot * 24576) by lia. rewrite Z.mod_mul, Z.div_mul by lia.
  replace ((549739036672 + slot * 24576 + 4096) mod 4096) with 0 by (Z.to_euclidean_division_equations; lia).
  destruct (Z.eqb_spec (549739036672 + slot * 24576 + 4096) 0); [lia|]. cbn [negb orb Z.eqb].
  destruct (Z.ltb_spec (549739036672 + slot * 24576 + 4096) (549739036672 + 4096)); [lia|].
  destruct (Z.ltb_spec (549739036672 + slot * 24576 + 4096 - 4096) 549739036672); [lia|].
  destruct (Z.ltb_spec 0 slot), (Z.ltb_spec slot (512 + 1)); try lia; done.
Qed.

Lemma active_open s : arena_wf s -> r_ready s = true -> kernel_map_active s = true -> kernel_open s.
Proof.
  intros A Hr Ha. unfold kernel_map_active in Ha. bool_prop. rewrite (aw_space _ A Hr) in *.
  destruct (cr3_active s g_kernel_space (aw_wf _ A) (aw_direct _ A)) as [Ho Hd]; [by apply kernel_live, A|done|done|]. split; [apply A|done|done].
Qed.

(** All pages of a slot are as before. *)
Lemma slot_same s s' base :
  kernel_stack_base_valid base = true -> same_except s s' base (base + 16384) ->
  (forall j, 0 <= j < 4 -> vmm_query_page (vm s') K (base + j * 4096) = vmm_query_page (vm s) K (base + j * 4096)) -> same_except s s' 0 0.
Proof.
  intros Hb Hs Hj m va Hp Ho Hl _. destruct (decide (m = K /\ base <= va < base + 16384)) as [[-> Hva]|Hno]; [|by apply Hs].
  destruct (base_valid_spec base Hb) as [Ha _]. destruct Hp as (_ & Hal & _). unfold page_aligned in Hal. apply Z.eqb_eq in Hal.
  change (VM_PAGE_SIZE - 1) with (FRAME_SIZE - 1) in Hal. rewrite page_offset in Hal.
  replace va with (base + (va - base) / 4096 * 4096) by (Z.to_euclidean_division_equations; lia). apply Hj. Z.to_euclidean_division_equations; lia.
Qed.

(** The guards of a slot are outside its pages. *)
Lemma guard_same s s' base j :
  spaces_wf (r_system s) -> kernel_stack_base_valid base = true -> same_except s s' base (base + 16384) -> j = -1 \/ j = 4 ->
  vmm_query_page (vm s') K (base + j * 4096) = vmm_query_page (vm s) K (base + j * 4096).
Proof.
  intros W Hb Hse Hj. destruct (base_valid_spec base Hb) as [_ Hap]. destruct (arena_page_ok _ (Hap j ltac:(lia))) as [Hu Hpo].
  apply (Hse K); [by apply page_ok_page|by apply kernel_owns|by apply kernel_live|]. intros [_ Hx]. lia.
Qed.

(** What [map_slot] needs to succeed. *)
Definition mappable_slot (s : Arena) (slot physical : Z) : Prop :=
  r_ready s = true /\ kernel_map_active s = true /\ physical <> 0 /\ physical mod 4096 = 0 /\
  (exists base, slot_stack_base slot = Some base /\ slot_clear s base = true) /\
  forall i, 0 <= i < 4 -> valid_mapping_frame (physical / 4096 + i) = true.

(** A check that refuses leaves the state and contradicts the requirements. *)
Local Ltac refused W :=
  eexists None, _; split_and!; [reflexivity|by apply kernel_step_refl, W|done|];
  intros (Q1 & Q2 & Q3 & Q4 & (bx & Q5 & Q6) & _); bool_prop; congruence.

Lemma map_slot_call slot physical s :
  arena_wf s -> 0 <= slot -> is_u64 physical ->
  exists r s', map_slot slot physical s = Some (r, s') /\ kernel_step s s' /\
    match r with
    | Some base => slot_stack_base slot = Some base /\ slot_clear s base = true /\ same_except s s' base (base + 16384) /\
        valid_stack s' physical base /\ stack_at s' base (physical / 4096) 4
    | None => same_except s s' 0 0
    end /\ (mappable_slot s slot physical -> r = slot_stack_base slot).
Proof.
  intros A Hslot Hp. pose proof (aw_wf _ A) as W. unfold map_slot.
  destruct (r_ready s) eqn:Er; cbn [negb orb]; [|refused W]. destruct (kernel_map_active s) eqn:Ea; cbn [negb orb]; [|refused W].
  destruct (nz physical) eqn:Ez; cbn [negb orb]; [|refused W]. rewrite page_offset. destruct (nz (physical mod 4096)) eqn:El; cbn [negb]; [refused W|].
  destruct (slot_stack_base slot) as [base|] eqn:Eb; [|refused W]. destruct (slot_clear s base) eqn:Ec; cbn [negb]; [|refused W]. bool_prop.
  destruct (phys_frame physical Hp El) as (E1 & E2 & E3). rewrite (proj2 (Z.eqb_neq _ _) E3), E1.
  destruct (slot_base_spec slot base Hslot Eb) as (_ & _ & Hbv). pose proof (aw_space _ A Er) as Es. pose proof (active_open s A Er Ea) as O.
  destruct (proj1 (slot_clear_spec s base W Es) Ec) as [_ Hcl].
  destruct (stack_loop_call base (physical / 4096) Hbv E2 4 0 s eq_refl O Es) as (b & s' & Hm & [Hst Hse] & Hat & Hok); [|by left|].
  { intros j Hj. rewrite decide_False by lia. apply Hcl. lia. }
  change (Z.to_nat THREAD_KERNEL_STACK_PAGES) with 4%nat. rewrite Hm. cbn [mbind option_bind]. destruct b; cbn [negb].
  - assert (valid_stack s' physical base) as Hv.
    { assert (forall j, j = -1 \/ j = 4 -> vmm_query_page (vm s') K (base + j * 4096) = None) as Hg.
      { intros j Hj. rewrite (guard_same s s' base j W Hbv Hse Hj). apply Hcl. lia. }
      split; [by rewrite (kt_ready _ _ Hst)|done|done|split; apply Hg; lia|]. intros j Hj. exists VM_WRITE. rewrite (Hat j Hj), decide_True by lia. by split. }
    rewrite (proj2 (mapping_valid_spec s' physical base (ts_wf _ _ (kt_tables _ _ Hst)) ltac:(intros _; by rewrite (kt_space _ _ Hst)) Hp) Hv).
    exists (Some base), s'. by split_and!.
  - exists None, s'. split_and!; [done|done| |].
    + apply (slot_same s s' base Hbv Hse). intros j Hj. rewrite (Hat j Hj), decide_False by lia. symmetry. apply Hcl. lia.
    + intros (_ & _ & _ & _ & _ & Hv). destruct (aw_modes _ A Er) as [N1 N2]. assert (false = true) as Hf; [|done]. apply Hok; try done.
      intros i Hi. destruct (slot_page base Hbv i Hi) as (_ & _ & Hap). by apply (aw_tables _ A Er).
Qed.

(** * Releasing a slot *)

Section Release.
  Context (base physical : Z) (Hb : kernel_stack_base_valid base = true) (Hp : is_u64 physical) (Hz : physical <> 0) (Ha : physical mod 4096 = 0).

Lemma unmap_loop_call (k n : nat) s :
  (n + k = 4)%nat -> kernel_open s -> r_space s = g_kernel_space -> profile_supported (vm s) = true ->
  (forall j, 0 <= j < Z.of_nat n -> vmm_query_page (vm s) K (base + j * 4096) = None) ->
  (forall j, Z.of_nat n <= j < 4 -> exists flags, vmm_query_page (vm s) K (base + j * 4096) = Some (physical / 4096 + j, flags)) ->
  exists s', unmap_loop physical base (seqZ (Z.of_nat n) (Z.of_nat k)) s = Some (kernel_stack_virtual_released s' base, s') /\ slot_step s s' base /\
    forall j, 0 <= j < 4 -> vmm_query_page (vm s') K (base + j * 4096) = None.
Proof using Hb Hp Ha.
  destruct (phys_frame physical Hp Ha) as (E1 & E2 & _). revert n s. induction k as [|k IH]; intros n s Hn O Es Hpr H0 H1.
  - exists s. split_and!; [done|apply slot_step_refl, O|]. intros j Hj. apply H0. lia.
  - rewrite seqZ_cons by lia. cbn [unmap_loop]. destruct (slot_page base Hb (Z.of_nat n) ltac:(lia)) as (U1 & U2 & _). unfold VM_PAGE_SIZE. rewrite Es.
    pose proof (kernel_unmap_step s (base + Z.of_nat n * 4096) O U1 U2 Hpr) as H. destruct (on_vmm _ s) as [r s1]. destruct H as (T & -> & Hq).
    destruct (H1 (Z.of_nat n) ltac:(lia)) as [flags Hx]. rewrite Hx in Hq |- *. cbn [fmap option_fmap option_map fst] in Hq |- *.
    destruct (frame_sum (physical / 4096) E2 (Z.of_nat n) ltac:(lia)) as [Ef _]. rewrite E1, Ef, Z.eqb_refl. cbn [negb].
    destruct (slot_change s s1 base (Z.of_nat n) None O Hb ltac:(lia) Hq) as [Hc Hse].
    replace (Z.succ (Z.of_nat n)) with (Z.of_nat (S n)) by lia. replace (Z.pred (Z.of_nat (S k))) with (Z.of_nat k) by lia.
    destruct (IH (S n) s1) as (s2 & -> & Hst & Hnone); [lia|by eapply kernel_open_step|by rewrite (kt_space _ _ T)|by rewrite (proj1 (step_profile _ _ T))| | |].
    + intros j Hj. rewrite Hc by lia. case_decide; [done|]. apply H0. lia.
    + intros j Hj. rewrite Hc, decide_False by lia. apply H1. lia.
    + exists s2. split_and!; [done|by eapply slot_step_trans|done].
Qed.

Lemma restore_loop_call (k n : nat) s :
  (n + k = 4)%nat -> kernel_open s -> arena_wf s -> r_ready s = true -> (forall j, 0 <= j < 4 -> valid_mapping_frame (physical / 4096 + j) = true) ->
  vmm_query_page (vm s) K (base + -1 * 4096) = None -> vmm_query_page (vm s) K (base + 4 * 4096) = None -> stack_at s base (physical / 4096) n ->
  exists s', restore_loop physical base (seqZ (Z.of_nat n) (Z.of_nat k)) s = (true, s') /\ slot_step s s' base /\
    stack_at s' base (physical / 4096) 4 /\ valid_stack s' physical base.
Proof using Hb Hp Hz Ha.
  destruct (phys_frame physical Hp Ha) as (E1 & E2 & _). revert n s. induction k as [|k IH]; intros n s Hn O A Hr Hv G1 G2 Hs.
  - assert (n = 4%nat) as -> by lia. pose proof (aw_space _ A Hr) as Es.
    assert (valid_stack s physical base) as V.
    { split; try done. intros j Hj. exists VM_WRITE. rewrite (Hs j Hj), decide_True by lia. done. }
    exists s. split_and!; [|apply slot_step_refl, O|done|done]. change (restore_loop physical base (seqZ (Z.of_nat 4) (Z.of_nat 0)) s) with (stack_mapping_valid s physical base, s).
    f_equal. by apply mapping_valid_spec; [apply A|..].
  - rewrite seqZ_cons by lia. cbn [restore_loop]. destruct (slot_page base Hb (Z.of_nat n) ltac:(lia)) as (U1 & U2 & U3). unfold VM_PAGE_SIZE.
    destruct (frame_sum (physical / 4096) E2 (Z.of_nat n) ltac:(lia)) as [Ef U4]. pose proof (aw_space _ A Hr) as Es.
    rewrite (kernel_query s _ (aw_wf _ A) Es), (Hs (Z.of_nat n)), decide_False, E1, Ef, Es by lia.
    pose proof (kernel_map_step s (base + Z.of_nat n * 4096) (physical / 4096 + Z.of_nat n) O U1 U4 U2) as H. destruct (on_vmm _ s) as [b s1].
    destruct H as (T & Hq & _ & Hok). destruct (aw_modes _ A Hr) as [N1 N2].
    assert (b = true) as ->.
    { apply Hok; [done|done|apply Hv; lia|by rewrite (Hs (Z.of_nat n)), decide_False by lia|by apply (aw_tables _ A Hr)]. }
    cbn [negb].
    destruct (slot_change s s1 base (Z.of_nat n) _ O Hb ltac:(lia) Hq) as [Hc Hse].
    replace (Z.succ (Z.of_nat n)) with (Z.of_nat (S n)) by lia. replace (Z.pred (Z.of_nat (S k))) with (Z.of_nat k) by lia.
    destruct (IH (S n) s1) as (s2 & -> & Hst & Hat & V); [lia|by eapply kernel_open_step|by eapply kernel_step_wf|by rewrite (kt_ready _ _ T)|done| | | |].
    + by rewrite Hc, decide_False by lia.
    + by rewrite Hc, decide_False by lia.
    + intros j Hj. rewrite Hc, (Hs j Hj) by lia. destruct (decide (j = Z.of_nat n)) as [->|]; [by rewrite decide_True by lia|].
      destruct (decide (j < Z.of_nat n)), (decide (j < Z.of_nat (S n))); try done; lia.
    + exists s2. split_and!; [done|by eapply slot_step_trans|done|done].
Qed.

End Release.

(** What no operation on stacks changes. *)
Record arena_keeps (s s' : Arena) : Prop := {
  ak_kernel : y_kernel (r_system s') = y_kernel (r_system s);
  ak_ready : r_ready s' = r_ready s;
  ak_space : r_space s' = r_space s;
  ak_maps : v_maps (vm s') = v_maps (vm s);
  ak_owned : forall f, frame_owned (v_pmm (vm s')) f <-> frame_owned (v_pmm (vm s)) f }.

Lemma arena_keeps_refl s : arena_keeps s s.
Proof. by split. Qed.

Lemma arena_keeps_trans s1 s2 s3 : arena_keeps s1 s2 -> arena_keeps s2 s3 -> arena_keeps s1 s3.
Proof. intros [A1 A2 A3 A4 A5] [B1 B2 B3 B4 B5]. split; try congruence. intros f. by rewrite B5. Qed.

Lemma kernel_step_keeps s s' : kernel_step s s' -> arena_keeps s s'.
Proof. intros [T H1 H2 _]. split; [apply T|done|done|apply T|apply (sf_owned _ _ (ts_frames _ _ T))]. Qed.

Lemma free_stack_step s first :
  arena_wf s -> 0 <= first < 2 ^ 52 -> (forall j, 0 <= j < 4 -> ~ pool (vm s) (first + j)) ->
  let '(b, s') := on_vmm (vmm_free_range first THREAD_KERNEL_STACK_PAGES) s in
  arena_wf s' /\ arena_keeps s s' /\
  (forall m va, vmm_query_page (vm s') m va = vmm_query_page (vm s) m va) /\ (kernel_open s -> kernel_open s') /\
  (forall f, pool (vm s') f <-> pool (vm s) f \/ (b = true /\ first <= f < first + 4)) /\
  ((forall j, 0 <= j < 4 -> held (v_pmm (vm s)) (first + j)) -> g_free_fault_armed (v_pmm (vm s)) = false -> b = true).
Proof.
  intros A Hf Hno. pose proof (aw_wf _ A) as W. unfold on_vmm, vmm_call, vmm_free_range.
  pose proof (free_range_held (v_pmm (vm s)) first 4 (vw_pmm _ (rn_wf _ (sp_running _ W))) ltac:(unfold is_u64; lia) ltac:(unfold is_u64; lia)) as H.
  change THREAD_KERNEL_STACK_PAGES with 4. destruct (frame_free_range first 4 (v_pmm (vm s))) as [b P]. destruct H as (HP & HF & Hset & Hb & Hok).
  assert (forall f, f ∈ free_set P <-> f ∈ free_set (v_pmm (vm s)) \/ (b = true /\ first <= f < first + 4)) as Hin.
  { intros f. rewrite Hset. destruct b; [rewrite elem_of_union, elem_of_span; intuition lia|]. intuition discriminate. }
  destruct (frames_step (r_system s) P W HP (sf_owned _ _ HF)) as [W' Hpool].
  { intros f. rewrite Hin. intros [?|[_ Hx]]; [by left|]. right. replace f with (first + (f - first)) by lia. apply Hno. lia. }
  split_and!; try done.
  - destruct A as [A1 A2 A3 A4 A5]. by split.
  - split; try done. apply (sf_owned _ _ HF).
  - intros [O1 O2 O3]. by split.
  - intros f. change (vm (s <| r_system := (r_system s) <| y_vmm := (vm s) <| v_pmm := P |> |> |>)) with ((vm s) <| v_pmm := P |>).
    rewrite Hpool, Hin. destruct (decide (f ∈ free_set (v_pmm (vm s)))) as [Hfr|Hfr]; [|tauto]. assert (pool (vm s) f) by (by left). tauto.
  - intros Hh Hfault. apply Hok; [lia| |done]. intros f Hx. replace f with (first + (f - first)) by lia. apply Hh. lia.
Qed.

(** A valid stack is unmapped as a whole. *)
Lemma unmap_mapping_call s physical base :
  arena_wf s -> kernel_map_active s = true -> is_u64 physical -> valid_stack s physical base ->
  exists s', unmap_mapping physical base s = Some (true, s') /\ slot_step s s' base /\ forall j, -1 <= j <= 4 -> vmm_query_page (vm s') K (base + j * 4096) = None.
Proof.
  intros A Hact Hp V. pose proof (aw_wf _ A) as W. pose proof V as [Hr [Hz Ha] Hb [G1 G2] Hst]. pose proof (aw_space _ A Hr) as Es.
  unfold unmap_mapping. rewrite (proj2 (mapping_valid_spec s physical base W ltac:(done) Hp) V). cbn [negb].
  destruct (unmap_loop_call base physical Hb Hp Ha 4 0 s) as (s' & Hu & Hs & Hn); [done|by apply active_open|done|by apply (aw_modes _ A Hr)|lia| |].
  { intros j Hj. destruct (Hst j Hj) as (flags & E & _). by exists flags. }
  assert (forall j, -1 <= j <= 4 -> vmm_query_page (vm s') K (base + j * 4096) = None) as Hall.
  { intros j Hj. destruct (decide (0 <= j < 4)); [by apply Hn|]. assert (j = -1 \/ j = 4) as Hg by lia.
    rewrite (guard_same s s' base j W Hb (proj2 Hs) Hg). by destruct Hg as [->| ->]. }
  exists s'. split_and!; [|done..]. change (seqZ (Z.of_nat 0) (Z.of_nat 4)) with stack_pages in Hu. rewrite Hu. do 2 f_equal.
  destruct Hs as [T _]. unfold kernel_stack_virtual_released. rewrite (kt_ready _ _ T), Hr. apply slot_clear_spec; [apply T|by rewrite (kt_space _ _ T)|by split].
Qed.

(** The frames of a stack can be mapped again. *)
Lemma valid_stack_frames s physical base j :
  is_u64 physical -> valid_stack s physical base -> 0 <= j < 4 -> valid_mapping_frame (physical / 4096 + j) = true.
Proof.
  intros Hp [_ [Hz Ha] _ _ Hst] Hj. destruct (Hst j Hj) as (flags & E & _). apply query_frame_bound in E. apply small_frame_valid.
  unfold is_u64 in Hp. Z.to_euclidean_division_equations; lia.
Qed.

(** What a release leaves: the stack gone and its frames free, or the stack as
    it was. *)
Definition release_outcome (s s' : Arena) (physical base : Z) (b : bool) : Prop :=
  same_except s s' base (base + 16384) /\
  if b then (forall j, -1 <= j <= 4 -> vmm_query_page (vm s') K (base + j * 4096) = None) /\
      forall f, pool (vm s') f <-> pool (vm s) f \/ physical / 4096 <= f < physical / 4096 + 4
  else (valid_stack s physical base <-> valid_stack s' physical base) /\ forall f, pool (vm s') f <-> pool (vm s) f.

(** What a release needs to succeed. *)
Definition releasable (s : Arena) (physical base : Z) : Prop :=
  kernel_map_active s = true /\ valid_stack s physical base /\ g_free_fault_armed (v_pmm (vm s)) = false /\
  forall j, 0 <= j < 4 -> frame_owned (v_pmm (vm s)) (physical / 4096 + j).

(** The release of a valid stack. *)
Lemma stack_release_valid s physical base :
  arena_wf s -> is_u64 physical -> kernel_map_active s = true -> valid_stack s physical base ->
  (forall j, 0 <= j < 4 -> ~ pool (vm s) (physical / 4096 + j)) ->
  exists b s', kernel_stack_release physical base s = Some (b, s') /\ arena_wf s' /\ arena_keeps s s' /\ release_outcome s s' physical base b /\
    (releasable s physical base -> b = true).
Proof.
  intros A Hp Hact V Hno. pose proof V as [Hr [Hz Ha] Hb _ _]. destruct (phys_frame physical Hp Ha) as (E1 & E2 & E3).
  unfold kernel_stack_release. rewrite Hr, Hact. cbn [negb orb].
  assert (nz physical = true) as -> by (unfold nz; by rewrite (proj2 (Z.eqb_neq _ _) Hz)).
  assert (nz base = true) as -> by (unfold kernel_stack_base_valid in Hb; by destruct (nz base)). cbn [negb orb].
  destruct (unmap_mapping_call s physical base A Hact Hp V) as (s1 & -> & [T Hse] & Hn). cbn [mbind option_bind negb].
  rewrite (proj2 (Z.eqb_neq _ _) E3), E1. pose proof (kernel_step_wf _ _ A T) as A1. pose proof (kt_tables _ _ T) as TT.
  assert (forall j, 0 <= j < 4 -> ~ pool (vm s1) (physical / 4096 + j)) as Hno1 by (intros j Hj; rewrite (ts_pool _ _ TT); by apply Hno).
  pose proof (free_stack_step s1 (physical / 4096) A1 E2 Hno1) as H. destruct (on_vmm _ s1) as [b s2].
  destruct H as (A2 & K2 & Hq & Ho & Hpool & Hok). pose proof (arena_keeps_trans _ _ _ (kernel_step_keeps _ _ T) K2) as K. destruct b.
  - exists true, s2. split; [done|]. split; [done|]. split; [done|]. split; [|done]. split; [|split; [intros j Hj; rewrite Hq; by apply Hn|]].
    + intros m va H1 H2 H3 H4. rewrite Hq. by apply Hse.
    + intros f. rewrite Hpool, (ts_pool _ _ TT). intuition.
  - unfold restore_mapping. rewrite (proj2 (Z.eqb_neq _ _) E3).
    destruct (restore_loop_call base physical Hb Hp Hz Ha 4 0 s2) as (s3 & Hl & [T3 Hse3] & _ & V3); [done| |done| | | | | |].
    + apply Ho. eapply kernel_open_step; [by apply (active_open s)|done].
    + by rewrite (ak_ready _ _ K).
    + intros j Hj. by eapply valid_stack_frames.
    + rewrite Hq. apply Hn. lia.
    + rewrite Hq. apply Hn. lia.
    + intros j Hj. rewrite Hq, decide_False by lia. apply Hn. lia.
    + change (seqZ (Z.of_nat 0) (Z.of_nat 4)) with stack_pages in Hl. rewrite Hl. exists false, s3. split; [done|]. split; [by eapply kernel_step_wf|]. split; [exact (arena_keeps_trans _ _ _ K (kernel_step_keeps _ _ T3))|]. split.
      * split; [|split; [by split|]].
        -- intros m va H1 H2 H3 H4. assert (v_maps (vm s2) = v_maps (vm s)) as Em by apply (ak_maps _ _ K).
           rewrite (Hse3 m va H1); [rewrite Hq; by apply Hse|by rewrite (aside_owns (vm s))|by apply (aside_live (vm s))|done].
        -- intros f. rewrite (ts_pool _ _ (kt_tables _ _ T3)), Hpool, (ts_pool _ _ TT). intuition discriminate.
      * intros (_ & _ & Hfa & Hown). apply Hok; [|by apply (sf_armed _ _ (ts_frames _ _ TT))].
        intros j Hj. split; [by apply (sf_owned _ _ (ts_frames _ _ TT)), Hown|]. intros Hin. apply (Hno1 j Hj). by left.
Qed.

(** A release that refuses changes nothing. *)
Lemma stack_release_call s physical base :
  arena_wf s -> is_u64 physical -> (forall j, 0 <= j < 4 -> ~ pool (vm s) (physical / 4096 + j)) ->
  exists b s', kernel_stack_release physical base s = Some (b, s') /\ arena_wf s' /\ arena_keeps s s' /\ release_outcome s s' physical base b /\
    (b = true -> kernel_map_active s = true /\ valid_stack s physical base) /\ (releasable s physical base -> b = true).
Proof.
  intros A Hp Hno. pose proof (arena_keeps_refl s) as K. destruct (kernel_map_active s) eqn:Hact; [destruct (stack_mapping_valid s physical base) eqn:V|].
  - apply (mapping_valid_spec _ _ _ (aw_wf _ A) (aw_space _ A) Hp) in V.
    destruct (stack_release_valid s physical base A Hp Hact V Hno) as (b & s' & ? & ? & ? & ? & ?). by exists b, s'.
  - exists false, s. unfold kernel_stack_release, unmap_mapping. rewrite V. split; [by if_case|]. split; [done|]. split; [done|]. split; [done|]. split; [done|].
    intros (_ & V' & _). by rewrite (proj2 (mapping_valid_spec _ _ _ (aw_wf _ A) (aw_space _ A) Hp) V') in V.
  - exists false, s. unfold kernel_stack_release. rewrite Hact, orb_true_r. split; [done|]. split; [done|]. split; [done|]. split; [done|]. split; [done|]. intros (Hx & _). congruence.
Qed.

(** * Preparing the arena *)

(** A page shares its tables with the first page of its span. *)
Lemma route_span va : arena_page va -> exists span, span ∈ arena_spans /\ route va = route span.
Proof.
  intros [Hv _]. unfold KERNEL_STACK_TOTAL_SLOTS, THREAD_STORAGE_CAPACITY in Hv. change KERNEL_STACK_SLOT_SIZE with 24576 in Hv.
  change KERNEL_STACK_ARENA_BASE with 549739036672 in Hv. set (i := (va - 549739036672) / 2097152).
  exists (549739036672 + i * 2097152). split.
  - unfold arena_spans. apply list_elem_of_fmap. exists i. split; [done|]. apply elem_of_seqZ.
    change ((_ + KERNEL_STACK_PT_SPAN - 1) / KERNEL_STACK_PT_SPAN) with 7. subst i. Z.to_euclidean_division_equations; lia.
  - assert (forall k, 21 <= k -> Z.shiftr va k = Z.shiftr (549739036672 + i * 2097152) k) as E.
    { intros k Hk. replace k with (21 + (k - 21)) by lia. rewrite <- !Z.shiftr_shiftr by lia. f_equal. rewrite !Z.shiftr_div_pow2 by lia.
      subst i. change (2 ^ 21) with 2097152. Z.to_euclidean_division_equations; lia. }
    unfold route, pml4_index, pdpt_index, pd_index. by rewrite !E by lia.
Qed.

Lemma spans_pages : Forall arena_page arena_spans.
Proof.
  apply Forall_forall. intros x (i & -> & Hi)%list_elem_of_In%list_elem_of_fmap. apply elem_of_seqZ in Hi.
  change ((_ + KERNEL_STACK_PT_SPAN - 1) / KERNEL_STACK_PT_SPAN) with 7 in Hi. unfold arena_page, KERNEL_STACK_TOTAL_SLOTS, THREAD_STORAGE_CAPACITY.
  change KERNEL_STACK_SLOT_SIZE with 24576. change KERNEL_STACK_ARENA_BASE with 549739036672. change KERNEL_STACK_PT_SPAN with 2097152.
  Z.to_euclidean_division_equations; lia.
Qed.

Lemma kernel_maps_at s s' va x :
  spaces_wf (r_system s) -> arena_page va -> maps_as (vm s) (vm s') K va x -> vmm_query_page (vm s') K va = x.
Proof.
  intros W Hva Hq. destruct (arena_page_ok va Hva) as [Hu Hok]. rewrite (Hq K va); [by rewrite decide_True|by apply page_ok_page|by apply kernel_owns|by apply kernel_live].
Qed.

(** A page mapped and unmapped is as it was. *)
Lemma probe_same s s1 s2 va x :
  kernel_step s s1 -> vmm_query_page (vm s) K va = None -> maps_as (vm s) (vm s1) K va x -> maps_as (vm s1) (vm s2) K va None -> same_except s s2 0 0.
Proof.
  intros T Hn Q1 Q2 m a Hp Ho Hl _. pose proof (ts_maps _ _ (kt_tables _ _ T)) as Em.
  rewrite (Q2 m a), (Q1 m a); try done; [|by rewrite (aside_owns (vm s))|by apply (aside_live (vm s))].
  case_decide as E; [by destruct E as [-> ->]|done].
Qed.

(** Each span is probed and left as it was, with its tables. *)
Lemma arena_loop_call probe spans s :
  is_u64 probe -> Forall arena_page spans -> kernel_open s -> r_space s = g_kernel_space ->
  exists b s', arena_loop g_kernel_space probe spans s = (b, if (b : bool) then s' <| r_ready := true |> else s') /\
    kernel_step s s' /\ same_except s s' 0 0 /\
    (b = true -> forall va, va ∈ spans -> v_nx_enabled (vm s') = true /\ profile_supported (vm s') = true /\ has_tables (vm s') K va).
Proof.
  intros Hp HF. revert s. induction HF as [|va spans Hva _ IH]; intros s O Es; pose proof (ko_wf _ O) as W; cbn [arena_loop].
  { exists true, s. split_and!; [done|by apply kernel_step_refl|done|]. intros _ va []%elem_of_nil. }
  rewrite absent_query by done. destruct (bool_decide_reflect (vmm_query_page (vm s) K va = None)) as [Hn|]; cbn [negb];
    [|exists false, s; split_and!; [done|by apply kernel_step_refl|done|done]].
  destruct (arena_page_ok va Hva) as [Hu Hok]. pose proof (kernel_map_step s va probe O Hu Hp Hok) as H.
  destruct (on_vmm _ s) as [b s1]. destruct H as (T1 & Q1 & Hb & _). destruct b; cbn [negb].
  - destruct (Hb eq_refl) as (_ & N1 & N2 & Ht). pose proof (kernel_open_step _ _ O T1) as O1.
    assert (profile_supported (vm s1) = true) as N2' by (by rewrite (proj1 (step_profile _ _ T1))).
    pose proof (kernel_unmap_step s1 va O1 Hu Hok N2') as H. destruct (on_vmm _ s1) as [r s2]. destruct H as (T2 & -> & Q2).
    rewrite (kernel_maps_at s s1 va _ W Hva Q1) in Q2 |- *. cbn [fmap option_fmap option_map fst] in Q2 |- *. rewrite Z.eqb_refl. cbn [negb].
    pose proof (kernel_step_trans _ _ _ T1 T2) as T. pose proof (kernel_open_step _ _ O1 T2) as O2.
    assert (r_space s2 = g_kernel_space) as Es2 by (by rewrite (kt_space _ _ T)).
    rewrite absent_query, (kernel_maps_at s1 s2 va _ (ko_wf _ O1) Hva Q2), bool_decide_eq_true_2 by (done || apply O2). cbn [negb].
    destruct (IH s2 O2 Es2) as (b & s3 & -> & T3 & Hse & Hall). exists b, s3. split_and!; [done|by eapply kernel_step_trans| |].
    + apply (same_except_trans s s2 s3); [apply T|exact (probe_same s s1 s2 va _ T1 Hn Q1 Q2)|done].
    + intros Hbt x [->|Hx]%elem_of_cons; [|by apply Hall]. destruct (step_profile _ _ (kernel_step_trans _ _ _ T T3)) as [E1 E2].
      rewrite E1, E2. split_and!; [done|done|]. destruct Ht as [f Hf]. exists f. apply (kt_stay _ _ T3). by apply (kt_stay _ _ T2).
  - exists false, s1. split_and!; [done|done| |done]. intros m x Hpx Ho Hl _. rewrite (Q1 m x Hpx Ho Hl). by case_decide as E; [destruct E as [-> ->]|].
Qed.

Lemma land_u64 x mask : is_u64 x -> is_u64 (Z.land x (u64 mask)).
Proof.
  unfold is_u64. intros Hx. pose proof (u64_range mask) as Hm. unfold is_u64 in Hm. split; [apply Z.land_nonneg; lia|].
  pose proof (land_le_l x (u64 mask) ltac:(lia) ltac:(lia)). lia.
Qed.

Lemma arena_init_call space probe s :
  arena_wf s -> is_u64 probe -> space = 0 \/ space ∈ spaces (r_system s) ->
  let '(b, s') := kernel_stack_arena_init space probe s in
  arena_wf s' /\ same_except s s' 0 0 /\ (forall f, pool (vm s') f <-> pool (vm s) f) /\ y_kernel (r_system s') = y_kernel (r_system s) /\
  (b = true -> r_ready s' = true /\ space = g_kernel_space).
Proof.
  intros A Hp Hsp. pose proof (aw_wf _ A) as W. unfold kernel_stack_arena_init. destruct (r_ready s) eqn:Er.
  { split_and!; [done|done|done|done|]. intros Heq. bool_prop. subst. split; [done|by apply (aw_space _ A)]. }
  if_case; [by split_and!|]. if_case; [by split_and!|]. if_case; [by split_and!|]. bool_prop. destruct Hsp as [->|Hsp]; [done|].
  assert (space = g_kernel_space) as ->. { pose proof (sp_kernel _ W space Hsp) as Hk. by case_bool_decide; [|congruence]. }
  destruct (cr3_active s g_kernel_space W (aw_direct _ A) Hsp) as [Ha Hd]; [done|done|]. set (s0 := s <| r_space := g_kernel_space |>).
  assert (kernel_open s0) as O by (by split).
  destruct (arena_loop_call (phys_to_frame (Z.land probe (u64 (Z.lnot (FRAME_SIZE - 1))))) arena_spans s0) as (b & s' & -> & T & Hse & Hall);
    [by apply phys_to_frame_u64, land_u64|apply spans_pages|done|done|].
  assert (arena_wf s0) as A0 by (destruct A as [A1 A2 A3 A4 A5]; by split; rewrite ?Er). pose proof (kernel_step_wf _ _ A0 T) as [B1 B2 B3 B4 B5].
  pose proof (ts_pool _ _ (kt_tables _ _ T)) as Hpool. pose proof (ts_kernel _ _ (kt_tables _ _ T)) as Hker.
  destruct b; [|by split_and!; [split|..]]. split_and!; [|done|done|done|done]. specialize (Hall eq_refl). split; try done.
  - intros _. exact (kt_space _ _ T).
  - intros _. destruct (Hall (549739036672)) as (? & ? & _); [by vm_compute; left|done].
  - intros _ va Hva. destruct (route_span va Hva) as (span & Hin & E). unfold has_tables. rewrite E. by apply Hall.
Qed.

(** Discarding a stack that no thread has yet never halts; once its pages are
    gone they are not mapped again, and its frames are freed only then. *)
Lemma discard_call s physical base :
  arena_wf s -> is_u64 physical -> (forall j, 0 <= j < 4 -> ~ pool (vm s) (physical / 4096 + j)) ->
  exists b s', kernel_stack_discard_unpublished physical base s = Some (b, s') /\ arena_wf s' /\ arena_keeps s s' /\
    same_except s s' base (base + 16384) /\
    (base <> 0 -> (b = false /\ s' = s) \/ forall j, -1 <= j <= 4 -> vmm_query_page (vm s') K (base + j * 4096) = None) /\
    forall f, pool (vm s') f <-> pool (vm s) f \/ (b = true /\ physical / 4096 <= f < physical / 4096 + 4).
Proof.
  intros A Hp Hno. pose proof (aw_wf _ A) as W. pose proof (arena_keeps_refl s) as K0. unfold kernel_stack_discard_unpublished. rewrite page_offset.
  assert (forall f, pool (vm s) f <-> pool (vm s) f \/ (false = true /\ physical / 4096 <= f < physical / 4096 + 4)) as P0 by (intros f; intuition discriminate).
  if_case; [exists false, s; split_and!; [done|done|done|done|by left|done]|]. bool_prop.
  destruct (phys_frame physical Hp ltac:(done)) as (E1 & E2 & E3).
  set (front := if negb (nz base) then _ else _).
  assert (exists d s1, front = Some (d, s1) /\ arena_wf s1 /\ arena_keeps s s1 /\ same_except s s1 base (base + 16384) /\ (forall f, pool (vm s1) f <-> pool (vm s) f) /\
    (base <> 0 -> (d = false /\ s1 = s) \/ forall j, -1 <= j <= 4 -> vmm_query_page (vm s1) K (base + j * 4096) = None)) as (d & s1 & -> & A1 & K1 & S1 & P1 & Q1).
  { subst front. if_case; [exists true, s; bool_prop; split_and!; done|]. if_case; [exists false, s; split_and!; try done; by left|]. bool_prop. if_case.
    - exists true, s. split_and!; [done..|]. intros _. right. unfold kernel_stack_virtual_released in *. bool_prop.
      by apply (slot_clear_spec s base W (aw_space _ A ltac:(done))).
    - destruct (stack_mapping_valid s physical base) eqn:V.
      + apply (mapping_valid_spec _ _ _ W (aw_space _ A) Hp) in V. destruct (unmap_mapping_call s physical base A ltac:(done) Hp V) as (s1 & -> & [T Hse] & Hn).
        exists true, s1. split_and!; [done|by eapply kernel_step_wf|by apply kernel_step_keeps|done|apply (ts_pool _ _ (kt_tables _ _ T))|by right].
      + exists false, s. unfold unmap_mapping. rewrite V. split_and!; try done. by left. }
  cbn [mbind option_bind]. destruct d; cbn [negb].
  2:{ exists false, s1. split_and!; [done|done|done|done| |intros f; rewrite P1; apply P0]. intros Hz. destruct (Q1 Hz) as [[_ ?]|?]; [by left|by right]. }
  unfold free_stack. rewrite (proj2 (Z.eqb_neq _ _) E3), E1.
  pose proof (free_stack_step s1 (physical / 4096) A1 E2 ltac:(intros j Hj; rewrite P1; by apply Hno)) as HF. destruct (on_vmm _ s1) as [b s2].
  destruct HF as (A2 & K2 & Hq & _ & Hpool & _). exists b, s2. split_and!; [done|done|by eapply arena_keeps_trans| | |].
  - intros m va H1 H2 H3 H4. rewrite Hq. by apply S1.
  - intros Hz. right. intros j Hj. rewrite Hq. destruct (Q1 Hz) as [[? _]|Hn]; [done|by apply Hn].
  - intros f. by rewrite Hpool, P1.
Qed.

(** * The claims *)

(** C22. Mapping a kernel stack never halts the kernel and keeps the state of
    the arena well formed. When it returns a base, the slot was clear, and the
    stack then is exactly the four consecutive frames, writable and kernel-only,
    between two absent guard pages; otherwise no translation of any map changes.
    No frame is lost either way, and a slot that is clear in a ready arena is
    always mapped, as no table has to be allocated. *)
Theorem kernel_stack_map_correct slot physical s :
  arena_wf s -> 0 <= slot -> is_u64 physical ->
  exists r s', kernel_stack_map slot physical s = Some (r, s') /\ arena_wf s' /\ (forall f, pool (vm s') f <-> pool (vm s) f) /\
    match r with
    | Some base => 1 <= slot < 512 /\ base = KERNEL_STACK_ARENA_BASE + slot * KERNEL_STACK_SLOT_SIZE + 4096 /\
        slot_clear s base = true /\ valid_stack s' physical base /\ same_except s s' base (base + 16384)
    | None => same_except s s' 0 0
    end /\ (slot < 512 -> mappable_slot s slot physical -> is_Some r).
Proof.
  intros A Hs Hp. unfold kernel_stack_map, THREAD_STORAGE_CAPACITY. if_case; bool_prop.
  { exists None, s. split_and!; [done|done|done|done|lia]. }
  destruct (map_slot_call slot physical s A Hs Hp) as (r & s' & -> & T & Hr & Hok). exists r, s'.
  split_and!; [done|by eapply kernel_step_wf|apply (ts_pool _ _ (kt_tables _ _ T))| |].
  - destruct r as [base|]; [|done]. destruct Hr as (Hb & H1 & H2 & H3 & _). destruct (slot_base_spec slot base Hs Hb) as (B1 & B2 & _). by split_and!; [lia|lia|..].
  - intros _ M. rewrite (Hok M). destruct M as (_ & _ & _ & _ & (base & -> & _) & _). by exists base.
Qed.

(** C24. Releasing a kernel stack is a transaction that never halts the kernel.
    It succeeds only on the active map for a stack that is exactly the four
    frames with their guards; then its pages are absent and its four frames are
    free. When it refuses, or when the frames are refused after the pages were
    unmapped, the stack is as valid as before and no frame changes hands. A
    valid stack of managed frames is always released unless a fault is
    injected. *)
Theorem kernel_stack_release_transaction s physical base :
  arena_wf s -> is_u64 physical -> (forall j, 0 <= j < 4 -> ~ pool (vm s) (physical / 4096 + j)) ->
  exists b s', kernel_stack_release physical base s = Some (b, s') /\ arena_wf s' /\ release_outcome s s' physical base b /\
    (b = true -> kernel_map_active s = true /\ valid_stack s physical base) /\ (releasable s physical base -> b = true).
Proof. intros A Hp Hno. destruct (stack_release_call s physical base A Hp Hno) as (b & s' & ? & ? & _ & ? & ?). by exists b, s'. Qed.

(** * A concrete machine *)

(** Memory for the tables of the arena and one stack, which is taken first. *)
Definition stack_boot : BootInfo :=
  mkBootInfo 0x1000 192 48 (fun a => if a =? 0x1000 then mkBootMemoryDescriptor 7 0x100000 24 else mkBootMemoryDescriptor 0 0 1).

Definition stack_pmm : Pmm := match pmm_init (Some stack_boot) pmm_zero with Some (_, s) => s | None => pmm_zero end.

Definition stack_taken : Z * Pmm := pmm_alloc_pages 4 stack_pmm.

Definition stack_empty : System := system_empty <| y_vmm := vmm_enable_phys_map_access (vmm_empty <| v_pmm := stack_taken.2 |>) |>.

Definition stack_kernel : bool * System := address_space_kernel_init stack_empty.

Definition stack_system : System :=
  (stack_kernel.2) <| y_vmm := arch_write_cr3 (frame_to_phys 261) (y_vmm stack_kernel.2) |>.

Definition stack_arena : bool * Arena := kernel_stack_arena_init g_kernel_space 0x101000 (mkArena stack_system 0 false).

Lemma stack_taken_wf : pmm_wf stack_taken.2.
Proof.
  assert (pmm_wf stack_pmm) as W.
  { destruct (pmm_init_spec stack_boot pmm_zero) as (ok & s' & E & H).
    - constructor; try done. intros a. unfold stack_boot, descriptor_at. repeat if_case; split; simpl; unfold is_u64; lia.
    - apply (bool_decide_unpack _). by vm_compute.
    - assert (pmm_init (Some stack_boot) pmm_zero = Some (true, stack_pmm)) as D by (by vm_compute). rewrite D in E. apply some_pair_inj in E as [<- <-]. by apply H. }
  destruct (pmm_alloc_pages_spec stack_pmm 4 W ltac:(lia)) as [(a & H)|[_ H]]; [apply H|]. unfold stack_taken. by rewrite H.
Qed.

Lemma stack_empty_dead m : ~ map_live (y_vmm stack_empty) m.
Proof. apply vmm_empty_dead. Qed.

Lemma stack_system_wf : spaces_wf stack_system /\ spaces stack_system = [g_kernel_space].
Proof.
  apply (kernel_init_wf stack_empty (frame_to_phys 261)); [apply dead_wf; [apply stack_taken_wf|done|apply stack_empty_dead]|apply stack_empty_dead|done|done|by vm_compute|by vm_compute].
Qed.

Lemma stack_arena_ok : arena_wf stack_arena.2 /\ forall f, pool (vm stack_arena.2) f <-> pool (y_vmm stack_system) f.
Proof.
  destruct stack_system_wf as [W Hs].
  assert (v_use_phys_map (y_vmm stack_system) = true) as Hd by (by vm_compute). unfold stack_arena.
  assert (arena_wf (mkArena stack_system 0 false)) as A by (by split).
  pose proof (arena_init_call g_kernel_space 0x101000 _ A ltac:(by split) ltac:(right; by apply kernel_live)) as H.
  destruct (kernel_stack_arena_init _ _ _) as [b s']. split; apply H.
Qed.

Lemma kernel_init_pool s cr3 f :
  vmm_wf (y_vmm s) -> (forall m, ~ map_live (y_vmm s) m) -> om_initialized (k_spc (y_kernel s)) = false ->
  pool (arch_write_cr3 cr3 (y_vmm (address_space_kernel_init s).2)) f <-> pool (y_vmm s) f.
Proof.
  intros W Hdead Hi. unfold address_space_kernel_init, vmm_call. rewrite Hi. set (s0 := s <| y_kernel := _ |>).
  pose proof (page_map_create_call K 0 VM_PML4_ENTRY_COUNT (y_vmm s) W (Hdead _) ltac:(lia)) as H. change (y_vmm s0) with (y_vmm s).
  change (vmm_page_map_create_owned_range K 0 VM_PML4_ENTRY_COUNT (y_vmm s)) with (vmm_page_map_create K (y_vmm s)) in H.
  destruct (vmm_page_map_create K (y_vmm s)) as [b v]. destruct H as (H & _). rewrite <- (lf_pool _ _ _ H). unfold arch_write_cr3. rewrite cpu_pool. by destruct b.
Qed.

(** The frames of the stack are in use. *)
Lemma stack_frames_taken j : 0 <= j < 4 -> ~ pool (y_vmm stack_system) (257 + j).
Proof.
  intros Hj. unfold stack_system, stack_kernel. change (~ pool (arch_write_cr3 (frame_to_phys 261) (y_vmm (address_space_kernel_init stack_empty).2)) (257 + j)).
  rewrite kernel_init_pool; [|apply dead_wf; [apply stack_taken_wf|done|apply stack_empty_dead]|apply stack_empty_dead|done].
  assert (257 + j ∉ free_set stack_taken.2) as Hno.
  { apply (bool_decide_unpack _). assert (j = 0 \/ j = 1 \/ j = 2 \/ j = 3) as [->|[->|[->| ->]]] by lia; by vm_compute. }
  intros [Hf|[(m & p & [Hl _])|[Hu _]]]; [exact (Hno Hf)|exact (stack_empty_dead m Hl)|by apply Hu].
Qed.

(** The stack of the thread in storage slot 3. *)
Definition stack_base : Z := KERNEL_STACK_ARENA_BASE + 3 * KERNEL_STACK_SLOT_SIZE + 4096.

Lemma kernel_stack_map_correct_witness :
  exists s', kernel_stack_map 3 0x101000 stack_arena.2 = Some (Some stack_base, s') /\ valid_stack s' 0x101000 stack_base.
Proof.
  assert (exists s', kernel_stack_map 3 0x101000 stack_arena.2 = Some (Some stack_base, s')) as [s' E].
  { assert (fst <$> kernel_stack_map 3 0x101000 stack_arena.2 = Some (Some stack_base)) as H by (by vm_compute).
    destruct (kernel_stack_map 3 0x101000 stack_arena.2) as [[r s']|]; [|done]. injection H as ->. by exists s'. }
  destruct stack_arena_ok as [A _]. set (a := stack_arena.2) in *. clearbody a.
  destruct (kernel_stack_map_correct 3 0x101000 a A ltac:(lia) ltac:(by split)) as (r & s2 & H & _ & _ & Hr & _). rewrite E in H. injection H as <- <-.
  exists s'. split; [exact E|]. apply Hr.
Defined.

(** The machine with the stack mapped. *)
Definition stack_mapped : Arena := match kernel_stack_map 3 0x101000 stack_arena.2 with Some (_, s) => s | None => stack_arena.2 end.

Lemma stack_mapped_ok : arena_wf stack_mapped /\ forall j, 0 <= j < 4 -> ~ pool (vm stack_mapped) (0x101000 / 4096 + j).
Proof.
  unfold stack_mapped. change (kernel_stack_map 3 0x101000 stack_arena.2) with (map_slot 3 0x101000 stack_arena.2).
  pose proof stack_frames_taken as Hno. destruct stack_arena_ok as [A Hp]. set (a := stack_arena.2) in *. clearbody a.
  destruct (map_slot_call 3 0x101000 a A ltac:(lia) ltac:(by split)) as (r & s & -> & T & _). split; [by eapply kernel_step_wf|].
  intros j Hj. rewrite (ts_pool _ _ (kt_tables _ _ T)), Hp. by apply Hno.
Qed.

(** The stack is released; with a fault injected into the release of its frames
    it is mapped again. *)
Lemma kernel_stack_release_transaction_witness :
  (exists s', kernel_stack_release 0x101000 stack_base stack_mapped = Some (true, s') /\ release_outcome stack_mapped s' 0x101000 stack_base true) /\
  fst <$> kernel_stack_release 0x101000 stack_base
    (stack_mapped <| r_system := (r_system stack_mapped) <| y_vmm := (vm stack_mapped) <| v_pmm := (pmm_test_fail_free_range_once 257 4 (v_pmm (vm stack_mapped))).2 |> |> |>) = Some false.
Proof.
  split; [|by vm_compute].
  assert (fst <$> kernel_stack_release 0x101000 stack_base stack_mapped = Some true) as E by (by vm_compute).
  destruct stack_mapped_ok as [A Hno]. set (a := stack_mapped) in *. clearbody a.
  destruct (kernel_stack_release_transaction a 0x101000 stack_base A ltac:(by split) Hno) as (b & s' & H & _ & Hr & _).
  rewrite H in E. injection E as ->. exists s'. split; [exact H|exact Hr].
Defined.
