(* ===== verification/ThreadLife.v ===== *)
(** The life of threads: boot, construction with its roll-back, user contexts and
    destruction, from [kernel/thread.c].

    The state is the arena of kernel stacks, with the system below it, and the
    statics of the module that construction uses. [None] is
    [cpu_halt_forever]. *)

From S2P Require Import Prelude Pmm ObjectStorage Kernel Objects Thread.
From S2P Require Import Scheduler ExitQueue Process Vmm Space UserMemory Stacks.

Open Scope jcos_scope.

(** * Data *)

Inductive ThreadCreateTestFault := THREAD_CREATE_TEST_ALLOCATE | THREAD_CREATE_TEST_ACCESS | THREAD_CREATE_TEST_ATTACH.

#[export] Instance ThreadCreateTestFault_eq_dec : EqDecision ThreadCreateTestFault.
Proof. solve_decision. Defined.

Record ThreadFault := mkThreadFault { tf_target : Z; tf_fault : ThreadCreateTestFault; tf_fail_rollback : bool; tf_armed : bool }.

Definition thread_fault_zero : ThreadFault := mkThreadFault 0 THREAD_CREATE_TEST_ALLOCATE false false.

Record Threads := mkThreads {
  j_arena : Arena;
  j_unpublished_stack : Z;
  j_unpublished_virtual : Z;
  j_create_fault : ThreadFault }.

#[export] Instance rebuild_Threads : Rebuild Threads := fun r =>
  mkThreads (j_arena r) (j_unpublished_stack r) (j_unpublished_virtual r) (j_create_fault r).

Definition kern (a : Arena) : Kernel := y_kernel (r_system a).

Definition set_kern (k : Kernel) (a : Arena) : Arena := a <| r_system := (r_system a) <| y_kernel := k |> |>.

(** A write to the kernel objects. *)
Definition kernel_write (f : Kernel -> Kernel) (s : Threads) : Threads := s <| j_arena := set_kern (f (kern (j_arena s))) (j_arena s) |>.

(** A call of a module of kernel objects. *)
Definition kernel_call {A} (op : Kernel -> A * Kernel) (s : Threads) : A * Threads :=
  let '(r, k) := op (kern (j_arena s)) in (r, s <| j_arena := set_kern k (j_arena s) |>).

(** A call of the stack module. *)
Definition stack_call {A} (op : Arena -> option (A * Arena)) (s : Threads) : option (A * Threads) :=
  '(r, a) ← op (j_arena s); Some (r, s <| j_arena := a |>).

Definition pages_pmm (s : Threads) : Pmm := v_pmm (y_vmm (r_system (j_arena s))).

(** A call of the frame allocator. *)
Definition pmm_call {A} (op : Pmm -> A * Pmm) (s : Threads) : A * Threads :=
  let '(r, a) := on_vmm (fun v => let '(r, p) := op (v_pmm v) in (r, v <| v_pmm := p |>)) (j_arena s) in (r, s <| j_arena := a |>).

(** * Diagnostics *)

Definition thread_reclaim_unpublished_stack (s : Threads) : option (bool * Threads) :=
  '(result, s) ← (if !nz (j_unpublished_stack s) then Some (true, s)
                  else stack_call (kernel_stack_discard_unpublished (j_unpublished_stack s) (j_unpublished_virtual s)) s);
  Some (result, if (result : bool) then s <| j_unpublished_stack := 0 |> <| j_unpublished_virtual := 0 |> else s).

Definition thread_creation_cleanup_pending (s : Threads) : bool := nz (j_unpublished_stack s) || nz (j_unpublished_virtual s).

Definition thread_test_fail_create_once (target : Z) (fault : ThreadCreateTestFault) (fail_rollback : bool) (s : Threads) : bool * Threads :=
  if !nz target || (bool_decide (fault = THREAD_CREATE_TEST_ALLOCATE) && fail_rollback) then (false, s) else
  if !tf_armed (j_create_fault s) && !thread_storage_live (kern (j_arena s)) target && !nz (j_unpublished_stack s)
     && !nz (j_unpublished_virtual s) && !pmm_test_free_failure_armed (pages_pmm s)
  then (true, s <| j_create_fault := mkThreadFault target fault fail_rollback true |>) else (false, s).

Definition thread_test_create_fault_armed (s : Threads) : bool := tf_armed (j_create_fault s).

Definition thread_test_clear_create_fault (s : Threads) : Threads := s <| j_create_fault := thread_fault_zero |>.

Definition thread_test_unpublished_stack (s : Threads) : Z :=
  if nz (j_unpublished_stack s) then phys_to_frame (j_unpublished_stack s) else FRAME_INVALID.

Definition thread_create_fault (target : Z) (fault : ThreadCreateTestFault) (physical : Z) (s : Threads) : bool * Threads :=
  let f := j_create_fault s in
  if !tf_armed f || (tf_target f != target) || !bool_decide (tf_fault f = fault) then (false, s) else
  let s := s <| j_create_fault := thread_fault_zero |> in
  (true, if tf_fail_rollback f
         then (pmm_call (pmm_test_fail_free_range_once (phys_to_frame physical) THREAD_KERNEL_STACK_PAGES) s).2 else s).

(** * Contexts of user threads *)

Definition GDT_USER_CODE_SELECTOR : Z := 0x23.

Definition GDT_USER_DATA_SELECTOR : Z := 0x1B.

Definition page_of (address : Z) : Z := Z.land address (u64 (Z.lnot (VM_PAGE_SIZE - 1))).

Definition thread_prepare_user (thread user_rip user_rsp : Z) (a : Arena) : bool * Arena :=
  let k := kern a in
  let t := thr k thread in
  if !tm_initialized (k_thr k) || !thread_storage_live k thread || (thread =? tm_current (k_thr k)) || !nz (t_id t) || !nz (t_process t)
     || !state_is k thread THREAD_STATE_READY || !t_owns_kernel_stack t then (false, a) else
  let space := process_address_space k (t_process t) in
  if !nz space || p_kernel (prc k (t_process t)) || a_kernel (spc k space) || !nz (address_space_cr3 k space) then (false, a) else
  if !nz (t_kernel_stack_base t) || !nz (t_kernel_stack_top t) || (t_kernel_stack_top t <=? t_kernel_stack_base t) then (false, a) else
  if nz (Z.land (t_kernel_stack_top t) 0xF) then (false, a) else
  if t_interrupt_context_ready t || nz (t_interrupt_rsp t) then (false, a) else
  if (user_rip <? ADDRESS_SPACE_USER_BASE) || (user_rip >=? ADDRESS_SPACE_USER_LIMIT) then (false, a) else
  if (user_rsp <=? ADDRESS_SPACE_USER_BASE) || (user_rsp >? ADDRESS_SPACE_USER_LIMIT) then (false, a) else
  match address_space_query_page (r_system a) space (page_of user_rip), address_space_query_page (r_system a) space (page_of (user_rsp - 1)) with
  | Some (_, code_flags), Some (_, stack_flags) =>
    if !has code_flags VM_USER || !has code_flags VM_EXEC || has code_flags VM_WRITE then (false, a) else
    if !has stack_flags VM_USER || !has stack_flags VM_WRITE || has stack_flags VM_EXEC then (false, a) else
    let k := set_thr thread (fun t => t <| t_entry := 0 |> <| t_argument := 0 |>) k in
    let '(built, k) := thread_build_interrupt_context thread user_rip GDT_USER_CODE_SELECTOR 0x202 user_rsp GDT_USER_DATA_SELECTOR k in
    (built, set_kern k a)
  | _, _ => (false, a)
  end.

(** * Boot *)

(** The address of the static [g_bootstrap_thread]. *)
Definition g_bootstrap_thread : Z := 0x30.

Definition thread_system_init (kernel_process stack_base stack_size stack_top : Z) (a : Arena) : bool * Arena :=
  let k := kern a in
  if tm_initialized (k_thr k) || !nz kernel_process || !p_initialized (prc k kernel_process) || !p_kernel (prc k kernel_process)
     || !nz stack_base || !nz stack_size || !nz stack_top then (false, a) else
  let kernel_space := process_address_space k kernel_process in
  if !nz kernel_space || !a_kernel (spc k kernel_space) || !nz (address_space_cr3 k kernel_space) then (false, a) else
  let '(ready, a) := kernel_stack_arena_init kernel_space stack_base a in
  if !ready then (false, a) else
  if stack_base >? u64 (U64_MAX - stack_size) then (false, a) else
  let stack_end := stack_base + stack_size in
  let stack_top := Z.land stack_top (u64 (Z.lnot 0xF)) in
  if (stack_top <=? stack_base) || (stack_top >? stack_end) then (false, a) else
  let k := set_thr g_bootstrap_thread (fun _ => thread_zero <| t_id := 1 |> <| t_process := kernel_process |> <| t_state := THREAD_STATE_RUNNING |>
             <| t_kernel_stack_physical := stack_base |> <| t_kernel_stack_base := stack_base |> <| t_kernel_stack_top := stack_top |>
             <| t_kernel_stack_size := stack_top - stack_base |> <| t_owns_kernel_stack := false |>) (kern a) in
  let '(attached, k) := process_thread_attach kernel_process g_bootstrap_thread k in
  if !attached then (false, set_kern (set_thr g_bootstrap_thread (fun _ => thread_zero) k) a) else
  (true, set_kern (set_tm (fun m => m <| tm_storage := storage_set 0 g_bootstrap_thread (tm_storage m) |> <| tm_current := g_bootstrap_thread |>
                                     <| tm_next_thread_id := 2 |> <| tm_initialized := true |>) k) a).

(** * Construction *)

(** The label [fail]; the result of the roll-back is not used. *)
Definition create_fail (thread : Z) (s : Threads) : option (bool * Threads) :=
  '(_, s) ← thread_reclaim_unpublished_stack s;
  Some (false, kernel_write (set_thr thread (fun _ => thread_zero)) s).

(** [k_memset(direct, 0, THREAD_KERNEL_STACK_SIZE)] *)
Definition zero_stack (physical : Z) (s : Threads) : Threads :=
  let a := j_arena s in
  let y := r_system a in
  let data := foldl (fun d i => <[phys_to_frame physical + i := replicate (Z.to_nat FRAME_SIZE) 0]> d) (y_data y) stack_pages in
  s <| j_arena := a <| r_system := y <| y_data := data |> |> |>.

(** The constructor after its stack is mapped. *)
Definition create_publish (thread process slot physical virtual_base : Z) (s : Threads) : option (bool * Threads) :=
  if virtual_base >? U64_MAX - THREAD_KERNEL_STACK_SIZE then create_fail thread s else
  let virtual_top := virtual_base + THREAD_KERNEL_STACK_SIZE in
  if nz (Z.land virtual_top 0xF) then create_fail thread s else
  let s := kernel_write (fun k => set_thr thread (fun t => t <| t_id := tm_next_thread_id (k_thr k) |> <| t_process := process |>
             <| t_state := THREAD_STATE_READY |> <| t_kernel_stack_physical := physical |> <| t_kernel_stack_base := virtual_base |>
             <| t_kernel_stack_top := virtual_top |> <| t_kernel_stack_size := THREAD_KERNEL_STACK_SIZE |> <| t_owns_kernel_stack := true |>) k) s in
  let '(fault, s) := thread_create_fault thread THREAD_CREATE_TEST_ATTACH physical s in
  if fault then create_fail thread s else
  let '(attached, s) := kernel_call (process_thread_attach process thread) s in
  if !attached then create_fail thread s else
  let s := kernel_write (set_tm (fun m => m <| tm_storage := storage_set slot thread (tm_storage m) |>
                                            <| tm_next_thread_id := u64 (tm_next_thread_id m + 1) |>)) s in
  Some (true, s <| j_unpublished_stack := 0 |> <| j_unpublished_virtual := 0 |>).

(** The constructor after its frames are allocated. *)
Definition create_stack (thread process slot physical : Z) (s : Threads) : option (bool * Threads) :=
  let '(fault, s) := thread_create_fault thread THREAD_CREATE_TEST_ACCESS physical s in
  if fault then create_fail thread s else
  if !nz (phys_to_virt physical) then create_fail thread s else
  let s := zero_stack physical s in
  '(mapped, s) ← stack_call (kernel_stack_map slot physical) s;
  match mapped with
  | None => create_fail thread s
  | Some virtual_base => create_publish thread process slot physical virtual_base (s <| j_unpublished_virtual := virtual_base |>)
  end.

(** The constructor after its guards. *)
Definition create_allocate (thread process slot : Z) (s : Threads) : option (bool * Threads) :=
  let '(fault, s) := thread_create_fault thread THREAD_CREATE_TEST_ALLOCATE 0 s in
  if fault then Some (false, s) else
  let '(physical, s) := pmm_call (pmm_alloc_pages THREAD_KERNEL_STACK_PAGES) s in
  if !nz physical then Some (false, s) else
  create_stack thread process slot physical (s <| j_unpublished_stack := physical |>).

Definition thread_create_locked (thread process : Z) (s : Threads) : option (bool * Threads) :=
  if !nz thread || thread_storage_live (kern (j_arena s)) thread then Some (false, s) else
  let s := kernel_write (set_thr thread (fun _ => thread_zero)) s in
  let k := kern (j_arena s) in
  if !tm_initialized (k_thr k) || !nz process || !nz (tm_next_thread_id (k_thr k)) || !kernel_stack_arena_ready (j_arena s)
     || nz (j_unpublished_stack s) || nz (j_unpublished_virtual s) then Some (false, s) else
  let slot := object_storage_empty (tm_storage (k_thr k)) THREAD_STORAGE_CAPACITY in
  if slot =? THREAD_STORAGE_CAPACITY then Some (false, s) else
  let space := process_address_space k process in
  if !nz space || !nz (address_space_cr3 k space) then Some (false, s) else
  if !pmm_phys_map_access_enabled (pages_pmm s) || !vmm_phys_map_access_enabled (y_vmm (r_system (j_arena s))) then Some (false, s) else
  create_allocate thread process slot s.

Definition thread_create (thread process : Z) (s : Threads) : option (bool * Threads) := thread_create_locked thread process s.

(** * Destruction *)

(** The thread after its destruction. *)
Definition destroyed (t : Thread) : Thread :=
  t <| t_process := 0 |> <| t_process_prev := 0 |> <| t_process_next := 0 |> <| t_entry := 0 |> <| t_argument := 0 |>
    <| t_kernel_stack_physical := 0 |> <| t_kernel_stack_base := 0 |> <| t_kernel_stack_top := 0 |> <| t_kernel_stack_size := 0 |>
    <| t_owns_kernel_stack := false |> <| t_run_next := 0 |> <| t_on_run_queue := false |> <| t_id := 0 |>
    <| t_state := THREAD_STATE_DEAD |> <| t_interrupt_rsp := 0 |> <| t_interrupt_context_ready := false |>
    <| t_wait_kind := THREAD_WAIT_NONE |> <| t_wait_result := THREAD_WAIT_RESULT_NONE |> <| t_wait_object := 0 |> <| t_wait_id := 0 |>.

Definition thread_destroyable (k : Kernel) (thread : Z) : bool :=
  let t := thr k thread in
  let storage_slot := object_storage_find (tm_storage (k_thr k)) THREAD_STORAGE_CAPACITY thread in
  if storage_slot =? THREAD_STORAGE_CAPACITY then false else
  if !tm_initialized (k_thr k) || !nz thread || (thread =? tm_current (k_thr k)) || !nz (t_id t) || !nz (t_process t)
     || state_is k thread THREAD_STATE_INVALID || state_is k thread THREAD_STATE_RUNNING || state_is k thread THREAD_STATE_BLOCKED
     || t_on_run_queue t || nz (t_run_next t) then false else
  if thread_wait_active k thread || nz (t_capability_refs t) then false else
  process_thread_can_detach k (t_process t) thread.

Definition thread_destroy_locked (thread : Z) (s : Threads) : option (bool * Threads) :=
  let k := kern (j_arena s) in
  let t := thr k thread in
  if !thread_destroyable k thread then Some (false, s) else
  '(released, s) ← (if t_owns_kernel_stack t then stack_call (kernel_stack_release (t_kernel_stack_physical t) (t_kernel_stack_base t)) s
                    else Some (true, s));
  if negb released then Some (false, s) else
  let '(detached, s) := kernel_call (process_thread_detach (t_process t) thread) s in
  if !detached then None else
  let storage_slot := object_storage_find (tm_storage (k_thr k)) THREAD_STORAGE_CAPACITY thread in
  let s := kernel_write (set_tm (fun m => m <| tm_storage := storage_set storage_slot 0 (tm_storage m) |>)) s in
  Some (true, kernel_write (set_thr thread destroyed) s).

Definition thread_destroy (thread : Z) (s : Threads) : option (bool * Threads) := thread_destroy_locked thread s.
