(* ===== verification/ThreadLifeTheorems.v ===== *)
(** Construction and destruction of threads conserve the frames of kernel stacks
    and never halt the kernel. *)

From S2P Require Import Prelude Pmm PmmProofs PmmRefine ObjectStorage Kernel.
From S2P Require Import Objects Frames Thread Scheduler ExitQueue Process.
From S2P Require Import ProcessThreads Vmm VmmWf VmmEdit VmmOps VmmMap.
From S2P Require Import VmmCalls VmmUnmap VmmLife VmmShare VmmMachine Space.
From S2P Require Import SpaceWf SpaceOps PmmInit UserMemory Stacks StackTheorems.
From S2P Require Import VmmTheorems SpaceTheorems ThreadLife.

Open Scope jcos_scope.

Local Notation K := (page_map g_kernel_space).
Local Notation vm a := (y_vmm (r_system a)).
Local Notation kn s := (kern (j_arena s)).
Local Notation storage s := (tm_storage (k_thr (kern (j_arena s)))).

(** * The kernel objects beside the tables *)

Lemma kern_wf a k : arena_wf a -> k_spc k = k_spc (kern a) -> k_spaces k = k_spaces (kern a) -> arena_wf (set_kern k a).
Proof.
  intros [[S1 S2 S3 S4 S5 S6 S7 S8 S9 S10] A2 A3 A4 A5] E1 E2. destruct a as [[k0 v c d] sp rd]. destruct k, k0. cbn in E1, E2. subst. by split; [split|..].
Qed.

Lemma arena_data_wf a d : arena_wf a -> arena_wf (a <| r_system := (r_system a) <| y_data := d |> |>).
Proof. intros [[S1 S2 S3 S4 S5 S6 S7 S8 S9 S10] A2 A3 A4 A5]. by split; [split|..]. Qed.

(** A stack depends on the translations of its pages only. *)
Lemma valid_stack_same a a' physical base :
  r_ready a' = r_ready a -> (forall j, -1 <= j <= 4 -> vmm_query_page (vm a') K (base + j * 4096) = vmm_query_page (vm a) K (base + j * 4096)) ->
  valid_stack a physical base -> valid_stack a' physical base.
Proof.
  intros Hr Hq [V1 V2 V3 [V4 V5] V6]. split; [congruence|done|done|by rewrite !Hq by lia|]. intros j Hj. rewrite Hq by lia. by apply V6.
Qed.

(** Pages of different slots are apart. *)
Lemma other_slot a a' base base' j :
  spaces_wf (r_system a) -> kernel_stack_base_valid base = true -> kernel_stack_base_valid base' = true -> base <> base' ->
  same_except a a' base (base + 16384) -> -1 <= j <= 4 -> vmm_query_page (vm a') K (base' + j * 4096) = vmm_query_page (vm a) K (base' + j * 4096).
Proof.
  intros W Hb Hb' Hne Hs Hj. destruct (base_valid_spec base' Hb') as [_ Hp]. destruct (arena_page_ok _ (Hp j Hj)) as [Hu Hok].
  apply (Hs K); [by apply page_ok_page|by apply kernel_owns|by apply kernel_live|]. intros [_ Hx]. revert Hb Hb'. unfold kernel_stack_base_valid.
  intros H1 H2. repeat if_case_in H1; try done. repeat if_case_in H2; try done. bool_prop.
  change KERNEL_STACK_SLOT_SIZE with 24576 in *. change KERNEL_STACK_ARENA_BASE with 549739036672 in *. unfold VM_PAGE_SIZE in *.
  Z.to_euclidean_division_equations; lia.
Qed.

Lemma slot_base_inj i i' base : 0 <= i -> 0 <= i' -> slot_stack_base i = Some base -> slot_stack_base i' = Some base -> i = i'.
Proof.
  intros Hi Hi' H1 H2. apply slot_base_spec in H1 as (_ & -> & _); [|done]. apply slot_base_spec in H2 as (_ & H2 & _); [|done].
  change KERNEL_STACK_SLOT_SIZE with 24576 in H2. lia.
Qed.

(** * The invariant *)

(** Lists of values that some elements have. *)
Lemma omap_same {A B} (f g : A -> option B) (l : list A) : (forall x, x ∈ l -> f x = g x) -> omap f l = omap g l.
Proof.
  induction l as [|x l IH]; intros H; [done|]. cbn. rewrite (H x) by set_solver. rewrite IH; [done|]. intros y Hy. apply H. set_solver.
Qed.

Lemma bind_perm {A B} (f : A -> list B) (l l' : list A) : l ≡ₚ l' -> (l ≫= f) ≡ₚ (l' ≫= f).
Proof. induction 1; cbn; [done|by f_equiv|by rewrite !app_assoc, (Permutation_app_comm (f y))|by etrans]. Qed.

(** The stack a thread owns. *)
Definition own_stack (k : Kernel) (t : Z) : option Z :=
  if t_owns_kernel_stack (thr k t) then Some (t_kernel_stack_physical (thr k t)) else None.

(** The stacks that exist: those of live threads and the one a constructor has
    not published or could not give back. *)
Definition stacks (s : Threads) : list Z :=
  (if nz (j_unpublished_stack s) then [j_unpublished_stack s] else []) ++ omap (own_stack (kn s)) (live (storage s)).

Definition frames_of (physical : Z) : list Z := seqZ (physical / 4096) 4.

Definition stack_frames (s : Threads) : list Z := stacks s ≫= frames_of.

Definition absent (a : Arena) (base : Z) : Prop := forall j, -1 <= j <= 4 -> vmm_query_page (vm a) K (base + j * 4096) = None.

(** The slot of the arena that belongs to an entry of the registry. *)
Definition slot_ok (s : Threads) (i : nat) (t : Z) : Prop :=
  match (if decide (t = 0) then None else own_stack (kn s) t) with
  | Some physical => slot_stack_base (Z.of_nat i) = Some (t_kernel_stack_base (thr (kn s) t)) /\ valid_stack (j_arena s) physical (t_kernel_stack_base (thr (kn s) t))
  | None => forall base, slot_stack_base (Z.of_nat i) = Some base ->
      absent (j_arena s) base \/ (base = j_unpublished_virtual s /\ valid_stack (j_arena s) (j_unpublished_stack s) base)
  end.

Record stacks_wf (s : Threads) : Prop := {
  sw_arena : arena_wf (j_arena s);
  sw_registry : registry THREAD_STORAGE_CAPACITY (storage s);
  sw_slots : forall (i : nat) t, storage s !! i = Some t -> slot_ok s i t;
  sw_virtual : j_unpublished_virtual s <> 0 -> j_unpublished_stack s <> 0 /\
    exists i : nat, storage s !! i = Some 0 /\ slot_stack_base (Z.of_nat i) = Some (j_unpublished_virtual s);
  sw_stacks : forall p, p ∈ stacks s -> is_u64 p /\ p mod 4096 = 0;
  sw_frames : forall f, f ∈ stack_frames s -> frame_owned (pages_pmm s) f /\ ~ pool (vm (j_arena s)) f;
  sw_apart : NoDup (stack_frames s) }.

(** No frame is lost and none appears. *)
Definition conserved (s s' : Threads) : Prop :=
  forall f, pool (vm (j_arena s')) f \/ f ∈ stack_frames s' <-> pool (vm (j_arena s)) f \/ f ∈ stack_frames s.

Definition good (s s' : Threads) : Prop := stacks_wf s' /\ conserved s s'.

Lemma good_refl s : stacks_wf s -> good s s.
Proof. done. Qed.

Lemma good_trans s1 s2 s3 : good s1 s2 -> good s2 s3 -> good s1 s3.
Proof. intros [_ H1] [H3 H2]. split; [done|]. intros f. by rewrite (H2 f). Qed.

(** A slot whose pages and whose thread stay. *)
Lemma slot_ok_same s s' i t :
  r_ready (j_arena s') = r_ready (j_arena s) ->
  (forall base j, slot_stack_base (Z.of_nat i) = Some base -> -1 <= j <= 4 ->
     vmm_query_page (vm (j_arena s')) K (base + j * 4096) = vmm_query_page (vm (j_arena s)) K (base + j * 4096)) ->
  (t <> 0 -> own_stack (kn s') t = own_stack (kn s) t /\ t_kernel_stack_base (thr (kn s') t) = t_kernel_stack_base (thr (kn s) t)) ->
  (slot_stack_base (Z.of_nat i) = Some (j_unpublished_virtual s) ->
     j_unpublished_virtual s' = j_unpublished_virtual s /\ j_unpublished_stack s' = j_unpublished_stack s) ->
  slot_ok s i t -> slot_ok s' i t.
Proof.
  intros Hr Hq Ht Hu. unfold slot_ok. assert ((if decide (t = 0) then None else own_stack (kn s') t) = if decide (t = 0) then None else own_stack (kn s) t) as ->.
  { case_decide as Hz; [done|]. by apply Ht. }
  destruct (if decide (t = 0) then None else own_stack (kn s) t) as [physical|] eqn:Eo.
  - destruct (decide (t = 0)) as [|Hz]; [done|]. destruct (Ht Hz) as [_ ->]. intros [H1 H2]. split; [done|].
    eapply valid_stack_same; [exact Hr|by intros j; apply Hq|done].
  - intros H base Hb. destruct (H base Hb) as [Ha|[-> Hv]].
    + left. intros j Hj. rewrite Hq by done. by apply Ha.
    + destruct (Hu Hb) as [-> ->]. right. split; [done|]. eapply valid_stack_same; [exact Hr|by intros j; apply Hq|done].
Qed.

(** A write to the kernel objects that leaves the live threads' stacks. *)
Lemma write_good s k :
  stacks_wf s -> k_spc k = k_spc (kn s) -> k_spaces k = k_spaces (kn s) -> tm_storage (k_thr k) = storage s ->
  (forall t, t ∈ live (storage s) -> own_stack k t = own_stack (kn s) t /\ t_kernel_stack_base (thr k t) = t_kernel_stack_base (thr (kn s) t)) ->
  good s (s <| j_arena := set_kern k (j_arena s) |>).
Proof.
  intros W E1 E2 E3 Ht. set (s' := s <| j_arena := _ |>). assert (storage s' = storage s) as Es by exact E3.
  assert (stacks s' = stacks s) as Est.
  { unfold stacks. rewrite Es. change (j_unpublished_stack s') with (j_unpublished_stack s). f_equal. apply omap_same. intros t H. by apply Ht. }
  assert (stack_frames s' = stack_frames s) as Ef by (unfold stack_frames; by rewrite Est).
  split; [|intros f; rewrite Ef; done]. destruct W as [W1 W2 W3 W4 W5 W6 W7]. split; rewrite ?Es, ?Est, ?Ef; try done.
  - by apply kern_wf.
  - intros i t Hi. apply (slot_ok_same s s'); [done|done| |done|by apply W3].
    intros Hz. apply Ht, elem_of_live. split; [done|by eapply list_elem_of_lookup_2].
Qed.

(** A page-table step in one slot leaves the other slots. *)
Lemma slots_apart s a (i0 i : nat) base0 base j :
  stacks_wf s -> slot_stack_base (Z.of_nat i0) = Some base0 -> same_except (j_arena s) a base0 (base0 + 16384) -> i <> i0 ->
  slot_stack_base (Z.of_nat i) = Some base -> -1 <= j <= 4 -> vmm_query_page (vm a) K (base + j * 4096) = vmm_query_page (vm (j_arena s)) K (base + j * 4096).
Proof.
  intros W Hb0 Hse Hne Hb Hj. destruct (slot_base_spec _ _ (Nat2Z.is_nonneg _) Hb0) as (_ & _ & V0). destruct (slot_base_spec _ _ (Nat2Z.is_nonneg _) Hb) as (_ & _ & V).
  apply (other_slot (j_arena s) a base0); try done; [apply W|]. intros ->. apply Hne, Nat2Z.inj. by apply (slot_base_inj _ _ base); [apply Nat2Z.is_nonneg..| |].
Qed.

Lemma slots_same s a last base j (i : nat) :
  stacks_wf s -> same_except (j_arena s) a 0 last -> last <= 16384 -> slot_stack_base (Z.of_nat i) = Some base -> -1 <= j <= 4 ->
  vmm_query_page (vm a) K (base + j * 4096) = vmm_query_page (vm (j_arena s)) K (base + j * 4096).
Proof.
  intros W Hse Hlast Hb Hj. destruct (slot_base_spec _ _ (Nat2Z.is_nonneg _) Hb) as (_ & _ & V). destruct (base_valid_spec base V) as [_ Hp].
  destruct (arena_page_ok _ (Hp j Hj)) as [Hu Hok]. pose proof (aw_wf _ (sw_arena _ W)) as Wy.
  apply (Hse K); [by apply page_ok_page|by apply kernel_owns|by apply kernel_live|].
  destruct (Hp j Hj) as [Hr _]. change KERNEL_STACK_ARENA_BASE with 549739036672 in Hr. intros [_ Hx]. lia.
Qed.

(** * Steps of the arena *)

(** A step of the arena that leaves the kernel objects and the slots. *)
Lemma arena_good s s' :
  stacks_wf s -> arena_wf (j_arena s') -> arena_keeps (j_arena s) (j_arena s') -> (forall f, pool (vm (j_arena s')) f <-> pool (vm (j_arena s)) f) ->
  j_unpublished_stack s' = j_unpublished_stack s ->
  (j_unpublished_virtual s' <> j_unpublished_virtual s -> j_unpublished_stack s <> 0 /\
     exists i : nat, storage s !! i = Some 0 /\ slot_stack_base (Z.of_nat i) = Some (j_unpublished_virtual s')) ->
  (forall (i : nat) t, storage s !! i = Some t -> slot_ok s' i t) -> good s s'.
Proof.
  intros W A Hk Hp Eu Ev Hs. assert (kn s' = kn s) as Ek by apply (ak_kernel _ _ Hk).
  assert (stacks s' = stacks s) as Est by (unfold stacks; by rewrite Ek, Eu).
  assert (stack_frames s' = stack_frames s) as Ef by (unfold stack_frames; by rewrite Est).
  split; [|intros f; rewrite Ef; by rewrite Hp]. destruct W as [W1 W2 W3 W4 W5 W6 W7].
  split; rewrite ?Est, ?Ef, ?Ek; try done.
  - rewrite Eu. destruct (decide (j_unpublished_virtual s' = j_unpublished_virtual s)) as [->|Hne]; [done|by intros _; apply Ev].
  - intros f Hf. destruct (W6 f Hf) as [H1 H2]. split; [by apply (ak_owned _ _ Hk)|by rewrite Hp].
Qed.

(** * Steps of the frame allocator *)

Definition set_pmm (P : Pmm) (s : Threads) : Threads :=
  s <| j_arena := (j_arena s) <| r_system := (r_system (j_arena s)) <| y_vmm := (vm (j_arena s)) <| v_pmm := P |> |> |> |>.

Lemma pmm_call_eq {A} (op : Pmm -> A * Pmm) s : pmm_call op s = ((op (pages_pmm s)).1, set_pmm (op (pages_pmm s)).2 s).
Proof. unfold pmm_call, on_vmm, vmm_call, set_pmm, pages_pmm. by destruct (op _). Qed.

Lemma pmm_arena s P :
  stacks_wf s -> pmm_wf P -> (forall f, frame_owned P f <-> frame_owned (pages_pmm s) f) -> free_set P ⊆ free_set (pages_pmm s) ->
  arena_wf (j_arena (set_pmm P s)) /\
  forall f, pool (vm (j_arena (set_pmm P s))) f <-> pool (vm (j_arena s)) f /\ (f ∈ free_set (pages_pmm s) -> f ∈ free_set P).
Proof.
  intros W HP Ho Hf. pose proof (sw_arena _ W) as [A1 A2 A3 A4 A5].
  destruct (frames_step (r_system (j_arena s)) P A1 HP Ho) as [Y Hpool]; [intros f H; left; by apply Hf|].
  split; [by split|]. intros f. change (vm (j_arena (set_pmm P s))) with ((vm (j_arena s)) <| v_pmm := P |>). rewrite Hpool. fold (pages_pmm s).
  destruct (decide (f ∈ free_set (pages_pmm s))) as [Hin|Hin].
  - assert (pool (vm (j_arena s)) f) by (by left). set_solver.
  - set_solver.
Qed.

(** The allocator changes beside its frames. *)
Lemma pmm_good s P :
  stacks_wf s -> pmm_wf P -> (forall f, frame_owned P f <-> frame_owned (pages_pmm s) f) -> free_set P = free_set (pages_pmm s) -> good s (set_pmm P s).
Proof.
  intros W HP Ho Hf. destruct (pmm_arena s P W HP Ho ltac:(by rewrite Hf)) as [A Hpool].
  apply (arena_good s (set_pmm P s) W A); [by split| |done|done|].
  - intros f. rewrite Hpool, Hf. tauto.
  - intros i t Hi. apply (slot_ok_same s); [done|done|done|done|by apply W].
Qed.

(** * The unpublished stack *)

Lemma elem_of_frames f p : f ∈ frames_of p <-> p / 4096 <= f < p / 4096 + 4.
Proof. unfold frames_of. rewrite elem_of_seqZ. lia. Qed.

(** The allocator hands out a stack. *)
Lemma alloc_good s :
  stacks_wf s -> j_unpublished_stack s = 0 -> j_unpublished_virtual s = 0 ->
  let '(physical, s1) := pmm_call (pmm_alloc_pages THREAD_KERNEL_STACK_PAGES) s in
  kn s1 = kn s /\ j_unpublished_virtual s1 = 0 /\ j_create_fault s1 = j_create_fault s /\
  (forall slot p, mappable_slot (j_arena s) slot p -> mappable_slot (j_arena s1) slot p) /\
  if nz physical
  then good s (s1 <| j_unpublished_stack := physical |>) /\ is_u64 physical /\ physical mod 4096 = 0 /\ span (physical / 4096) 4 ⊆ free_set (pages_pmm s)
  else good s s1 /\ forall first, ~ span first 4 ⊆ free_set (pages_pmm s).
Proof.
  intros W Hu Hv. rewrite pmm_call_eq. pose proof (rn_wf _ (sp_running _ (aw_wf _ (sw_arena _ W)))) as Wv. pose proof (vw_pmm _ Wv) as WP. fold (pages_pmm s) in WP.
  destruct (pmm_alloc_pages_correct (pages_pmm s) 4 WP ltac:(by split)) as [HP Ha].
  destruct (erase_geometry _ _ (erase_alloc_pages 4 (pages_pmm s))) as (_ & _ & _ & Ho). change THREAD_KERNEL_STACK_PAGES with 4.
  split; [done|]. split; [done|]. split; [done|]. split; [done|]. destruct Ha as [(first & _ & Hf & Hpos & Hsub & _ & Hset & _)|[E Hnone]].
  2:{ rewrite E in *. cbn [fst snd]. change (nz 0) with false. cbn match. split; [by apply pmm_good|]. by destruct Hnone. }
  set (P := (pmm_alloc_pages 4 (pages_pmm s)).2) in *. rewrite Hf. clearbody P. change FRAME_SIZE with 4096.
  assert (first ∈ free_set (pages_pmm s)) as Hin by (apply Hsub, elem_of_span; lia). pose proof (owned_range _ _ WP (free_owned _ _ WP Hin)) as Hb.
  unfold nz. rewrite (proj2 (Z.eqb_neq (first * 4096) 0)) by lia. cbn [negb].
  destruct (pmm_arena s P W HP Ho ltac:(set_solver)) as [A Hpool]. set (s' := (set_pmm P s) <| j_unpublished_stack := first * 4096 |>).
  assert (stacks s' = first * 4096 :: stacks s) as Est.
  { unfold stacks. rewrite Hu. change (j_unpublished_stack s') with (first * 4096). unfold nz. by rewrite (proj2 (Z.eqb_neq (first * 4096) 0)) by lia. }
  assert (forall f, f ∈ stack_frames s' <-> f ∈ span first 4 \/ f ∈ stack_frames s) as Hfr.
  { intros f. unfold stack_frames. rewrite Est. cbn. rewrite elem_of_app, elem_of_frames, Z.div_mul by lia. by rewrite elem_of_span. }
  assert (forall f, pool (vm (j_arena s')) f <-> pool (vm (j_arena s)) f /\ f ∉ span first 4) as Hp.
  { intros f. change (vm (j_arena s')) with (vm (j_arena (set_pmm P s))). rewrite Hpool, Hset. split; intros [H1 H2]; (split; [done|]).
    - intros Hs. specialize (H2 (Hsub _ Hs)). set_solver.
    - set_solver. }
  assert (forall f, f ∈ span first 4 -> pool (vm (j_arena s)) f) as Hsp by (intros f H; left; by apply Hsub).
  assert (is_u64 (first * 4096) /\ (first * 4096) mod 4096 = 0 /\ span (first * 4096 / 4096) 4 ⊆ free_set (pages_pmm s)) as Hal
    by (rewrite Z.mod_mul, Z.div_mul by lia; unfold is_u64; split_and!; [lia|lia|done|done]).
  split; [|done]. split.
  - pose proof W as [W1 W2 W3 W4 W5 W6 W7]. split; try done.
    + intros i t Hi. apply (slot_ok_same s); [done|done|done| |by apply W3]. rewrite Hv. intros H. apply slot_base_spec in H as (? & ? & ?); [done|lia].
    + rewrite Est. intros p [->|H]%elem_of_cons; [by destruct Hal as (? & ? & _)|by apply W5].
    + intros f [H|H]%Hfr; rewrite Hp; change (pages_pmm s') with P; rewrite Ho; [|destruct (W6 f H); tauto]. split; [by apply free_owned, Hsub|]. tauto.
    + unfold stack_frames. rewrite Est. cbn. apply list.NoDup_app. split_and!; [apply NoDup_seqZ| |done]. intros f Hf1 Hf2. apply elem_of_frames in Hf1.
      rewrite Z.div_mul in Hf1 by lia. destruct (W6 f Hf2) as [_ H]. by apply H, Hsp, elem_of_span.
  - intros f. rewrite Hfr, Hp. destruct (decide (f ∈ span first 4)) as [H|H]; [pose proof (Hsp f H)|]; tauto.
Qed.

(** What a step of the constructor leaves of the module's state. *)
Record same_statics (s s' : Threads) : Prop := {
  ss_kernel : kn s' = kn s;
  ss_stack : j_unpublished_stack s' = j_unpublished_stack s;
  ss_virtual : j_unpublished_virtual s' = j_unpublished_virtual s }.

(** The kernel map stays. *)
Definition same_pages (s s' : Threads) : Prop :=
  r_ready (j_arena s') = r_ready (j_arena s) /\ forall va, vmm_query_page (vm (j_arena s')) K va = vmm_query_page (vm (j_arena s)) K va.

Lemma same_pages_valid s s' physical base : same_pages s s' -> valid_stack (j_arena s) physical base -> valid_stack (j_arena s') physical base.
Proof. intros [H1 H2]. by apply valid_stack_same. Qed.

Lemma fault_good thread x physical s :
  stacks_wf s -> let s' := (thread_create_fault thread x physical s).2 in good s s' /\ same_statics s s' /\ same_pages s s'.
Proof.
  intros W. cbv zeta. unfold thread_create_fault. if_case; [done|]. set (s1 := s <| j_create_fault := thread_fault_zero |>).
  assert (good s s1) as G1 by (destruct W; by split). if_case; [|done]. cbn [snd]. rewrite pmm_call_eq. cbn [snd]. split; [|done].
  unfold pmm_test_fail_free_range_once. if_case.
  - eapply good_trans; [exact G1|]. pose proof (rn_wf _ (sp_running _ (aw_wf _ (sw_arena _ W)))) as Wv. pose proof (vw_pmm _ Wv) as [P1 P2 P3 P4 P5 P6 P7 P8 P9 P10 P11 P12].
    apply pmm_good; [apply G1|by split|done|done].
  - eapply good_trans; [exact G1|]. apply pmm_good; [apply G1| |done|done]. exact (vw_pmm _ (rn_wf _ (sp_running _ (aw_wf _ (sw_arena _ W))))).
Qed.

Lemma zero_good physical s :
  stacks_wf s -> good s (zero_stack physical s) /\ same_statics s (zero_stack physical s) /\ same_pages s (zero_stack physical s).
Proof.
  intros W. split; [|done]. pose proof W as [W1 W2 W3 W4 W5 W6 W7]. split; [|done]. split; try done.
  - by apply arena_data_wf.
  - intros i t Hi. apply (slot_ok_same s); [done|done|done|done|by apply W3].
Qed.

(** The slots other than the one of the unpublished stack. *)
Lemma other_slot_ok s s' (i : nat) t :
  stacks_wf s -> arena_keeps (j_arena s) (j_arena s') -> same_except (j_arena s) (j_arena s') (j_unpublished_virtual s) (j_unpublished_virtual s + 16384) ->
  storage s !! i = Some t -> slot_stack_base (Z.of_nat i) <> Some (j_unpublished_virtual s) -> slot_ok s' i t.
Proof.
  intros W Hk Hse Hi Hne. pose proof (ak_kernel _ _ Hk) as Ek. change (kn s' = kn s) in Ek. apply (slot_ok_same s); [apply Hk| |by rewrite Ek|done|by apply W].
  intros base j Hb Hj. destruct (decide (j_unpublished_virtual s = 0)) as [E|E].
  - rewrite E in Hse. by apply (slots_same s _ (0 + 16384) base j i).
  - destruct (sw_virtual _ W E) as (_ & i0 & _ & H0). apply (slots_apart s _ i0 i _ base j W H0 Hse); [|done|done]. intros ->. congruence.
Qed.

(** The slot of the unpublished stack after its pages are gone. *)
Lemma unpublished_slot_ok s s' (i : nat) t :
  stacks_wf s -> j_unpublished_virtual s <> 0 -> absent (j_arena s') (j_unpublished_virtual s) -> storage s !! i = Some t ->
  slot_stack_base (Z.of_nat i) = Some (j_unpublished_virtual s) -> slot_ok s' i t.
Proof.
  intros W Hv Ha Hi Hb. destruct (sw_virtual _ W Hv) as (_ & i0 & Hi0 & H0). assert (i = i0) as -> by (apply Nat2Z.inj; by apply (slot_base_inj _ _ (j_unpublished_virtual s)); [apply Nat2Z.is_nonneg..| |]).
  rewrite Hi0 in Hi. injection Hi as <-. intros base H. left. rewrite Hb in H. by injection H as <-.
Qed.

(** Giving back the unpublished stack. *)
Lemma give_back_good s a :
  stacks_wf s -> j_unpublished_stack s <> 0 -> arena_wf a -> arena_keeps (j_arena s) a ->
  (forall f, pool (vm a) f <-> pool (vm (j_arena s)) f \/ f ∈ frames_of (j_unpublished_stack s)) ->
  let s' := s <| j_arena := a |> <| j_unpublished_stack := 0 |> <| j_unpublished_virtual := 0 |> in
  (forall (i : nat) t, storage s !! i = Some t -> slot_ok s' i t) -> good s s'.
Proof.
  intros W Hz A Hk Hp s' Hs. assert (kn s' = kn s) as Ek by apply (ak_kernel _ _ Hk). assert (nz (j_unpublished_stack s) = true) as En by (unfold nz; by rewrite (proj2 (Z.eqb_neq _ _) Hz)).
  assert (stacks s = j_unpublished_stack s :: stacks s') as Est by (unfold stacks; rewrite Ek, En; done).
  assert (stack_frames s = frames_of (j_unpublished_stack s) ++ stack_frames s') as Ef by (unfold stack_frames; by rewrite Est).
  pose proof W as [W1 W2 W3 W4 W5 W6 W7]. rewrite Ef in W6, W7. apply list.NoDup_app in W7 as (_ & W7 & W8). split.
  - split; rewrite ?Ek; try done.
    + intros p H. apply W5. rewrite Est. set_solver.
    + intros f H. destruct (W6 f ltac:(set_solver)) as [H1 H2]. split; [by apply (ak_owned _ _ Hk)|]. intros [?|H3]%Hp; [done|by apply (W7 f)].
  - intros f. change (vm (j_arena s')) with (vm a). rewrite Hp, Ef, elem_of_app. tauto.
Qed.

Lemma reclaim_stack_call s :
  stacks_wf s ->
  exists b s', thread_reclaim_unpublished_stack s = Some (b, s') /\ good s s' /\ kn s' = kn s /\ r_ready (j_arena s') = r_ready (j_arena s) /\
    (b = true -> thread_creation_cleanup_pending s' = false) /\ (b = false -> j_unpublished_stack s' = j_unpublished_stack s).
Proof.
  intros W. unfold thread_reclaim_unpublished_stack. destruct (nz (j_unpublished_stack s)) eqn:En; cbn [negb]; bool_prop.
  2:{ exists true, s. cbn [mbind option_bind]. assert (j_unpublished_virtual s = 0) as Ev by (destruct (decide (j_unpublished_virtual s = 0)) as [|H]; [done|]; by destruct (sw_virtual _ W H)).
      split; [|split; [done|]; split; [done|]; split; [done|]; split; [|done]; intros _; unfold thread_creation_cleanup_pending; by rewrite Ev, En].
      do 2 f_equal. destruct s as [a us uv cf]. cbn in *. by subst. }
  assert (j_unpublished_stack s ∈ stacks s) as Hin by (unfold stacks; unfold nz; rewrite (proj2 (Z.eqb_neq _ _) En); left).
  destruct (sw_stacks _ W _ Hin) as [Hu _].
  assert (forall f, f ∈ frames_of (j_unpublished_stack s) -> ~ pool (vm (j_arena s)) f) as Hno.
  { intros f Hf. apply (sw_frames _ W). unfold stack_frames. apply list_elem_of_bind. by exists (j_unpublished_stack s). }
  destruct (discard_call (j_arena s) (j_unpublished_stack s) (j_unpublished_virtual s) (sw_arena _ W) Hu) as (b & a & E & A & Hk & Hse & Hq & Hp).
  { intros j Hj. apply Hno, elem_of_frames. lia. }
  unfold stack_call. rewrite E. cbn [mbind option_bind]. pose proof (ak_kernel _ _ Hk) as Ek. change (kern a = kn s) in Ek.
  assert (forall s' (i : nat) t, j_arena s' = a -> storage s !! i = Some t -> (b = false -> s' = s <| j_arena := a |>) -> slot_ok s' i t) as Hs.
  { intros s' i t Ha Hi Hb. destruct (decide (slot_stack_base (Z.of_nat i) = Some (j_unpublished_virtual s))) as [Hv|Hv].
    - assert (j_unpublished_virtual s <> 0) as Hz by (intros Hz; rewrite Hz in Hv; apply slot_base_spec in Hv as (? & ? & ?); [done|lia]).
      destruct (Hq Hz) as [[-> ->]|Hn]; [|by apply (unpublished_slot_ok s); [..|rewrite Ha; exact Hn|done|done]].
      rewrite (Hb eq_refl). by apply (slot_ok_same s); [..|apply W].
    - apply (other_slot_ok s); rewrite ?Ha; done. }
  destruct b.
  - eexists true, _. split; [reflexivity|]. split; [|split; [exact Ek|split; [apply Hk|done]]]. apply give_back_good; try done.
    + intros f. rewrite Hp, elem_of_frames. tauto.
    + intros i t Hi. by apply Hs.
  - eexists false, _. split; [reflexivity|]. split; [|split; [exact Ek|split; [apply Hk|done]]]. apply arena_good; try done.
    + intros f. rewrite Hp. intuition discriminate.
    + intros i t Hi. by apply Hs.
Qed.

Lemma set_thr_statics t f k : k_spc (set_thr t f k) = k_spc k /\ k_spaces (set_thr t f k) = k_spaces k /\ k_thr (set_thr t f k) = k_thr k.
Proof. done. Qed.

(** A write to a thread that is not registered. *)
Lemma write_thread_good s thread f : stacks_wf s -> thread ∉ live (storage s) -> good s (kernel_write (set_thr thread f) s).
Proof.
  intros W Hno. apply write_good; try done. intros t Ht. unfold own_stack. rewrite !thr_set. by rewrite decide_False by (intros ->; done).
Qed.

Lemma create_fail_call thread s :
  stacks_wf s -> thread ∉ live (storage s) ->
  exists s', create_fail thread s = Some (false, s') /\ good s s' /\ kn s' = set_thr thread (fun _ => thread_zero) (kn s).
Proof.
  intros W Hno. unfold create_fail. destruct (reclaim_stack_call s W) as (b & s1 & -> & G & Ek & _). cbn [mbind option_bind]. eexists. split; [reflexivity|]. split.
  - eapply good_trans; [exact G|]. apply write_thread_good; [apply G|by rewrite Ek].
  - unfold kernel_write. cbn. by rewrite <- Ek.
Qed.

(** The stack is mapped in the slot of the free entry. *)
Lemma map_good s (slot : nat) physical :
  stacks_wf s -> j_unpublished_stack s = physical -> physical <> 0 -> is_u64 physical -> j_unpublished_virtual s = 0 -> storage s !! slot = Some 0 ->
  exists r s1, stack_call (kernel_stack_map (Z.of_nat slot) physical) s = Some (r, s1) /\ same_statics s s1 /\ j_create_fault s1 = j_create_fault s /\
    match r with
    | Some base => good s (s1 <| j_unpublished_virtual := base |>) /\ slot_stack_base (Z.of_nat slot) = Some base /\ valid_stack (j_arena s1) physical base
    | None => good s s1
    end /\ (mappable_slot (j_arena s) (Z.of_nat slot) physical -> is_Some r).
Proof.
  intros W Hu Hz Hp Hv Hi. pose proof (lookup_lt_Some _ _ _ Hi) as Hlt. pose proof (reg_length _ _ (sw_registry _ W)) as Hlen. unfold kernel_stack_map.
  unfold stack_call. destruct (Z.of_nat slot >=? THREAD_STORAGE_CAPACITY) eqn:Hc; [bool_prop; lia|].
  destruct (map_slot_call (Z.of_nat slot) physical (j_arena s) (sw_arena _ W) ltac:(lia) Hp) as (r & a & -> & T & Hr & Hok). cbn [mbind option_bind].
  pose proof (kernel_step_keeps _ _ T) as Hk. pose proof (kernel_step_wf _ _ (sw_arena _ W) T) as A. pose proof (ts_pool _ _ (kt_tables _ _ T)) as Hpool.
  assert (kern a = kn s) as Ek by apply (ak_kernel _ _ Hk). assert (same_statics s (s <| j_arena := a |>)) as Hss by done.
  eexists r, _. split; [reflexivity|]. split; [exact Hss|]. split; [done|]. split.
  2:{ intros M. rewrite (Hok M). destruct M as (_ & _ & _ & _ & (base & -> & _) & _). by exists base. }
  destruct r as [base|].
  - destruct Hr as (Hb & _ & Hse & V & _). split; [|done]. apply (arena_good s); try done.
    + intros _. split; [congruence|]. by exists slot.
    + intros i t Ht. destruct (decide (i = slot)) as [->|Hne].
      * rewrite Hi in Ht. injection Ht as <-. intros base' Hb'. right. rewrite Hb in Hb'. injection Hb' as <-. split; [done|]. by rewrite <- Hu in V.
      * apply (slot_ok_same s); [apply Hk| |intros _; by rewrite <- Ek| |by apply W].
        -- intros b' j Hb' Hj. by apply (slots_apart s a slot i base b' j).
        -- rewrite Hv. intros H. apply slot_base_spec in H as (? & ? & ?); [done|lia].
  - apply (arena_good s); try done. intros i t Ht. apply (slot_ok_same s); [apply Hk| |intros _; by rewrite <- Ek|done|by apply W].
    intros b' j Hb' Hj. by apply (slots_same s a 0 b' j i).
Qed.

(** * Process lists *)

(** Linking threads changes the links only. *)
Record links_only (k k' : Kernel) : Prop := {
  lo_spc : k_spc k' = k_spc k;
  lo_spaces : k_spaces k' = k_spaces k;
  lo_mod : k_thr k' = k_thr k;
  lo_thr : forall t, thr k' t = (thr k t) <| t_process_prev := t_process_prev (thr k' t) |> <| t_process_next := t_process_next (thr k' t) |> }.

Lemma links_refl k : links_only k k.
Proof. split; try done. intros t. by destruct (thr k t). Qed.

Lemma links_trans k1 k2 k3 : links_only k1 k2 -> links_only k2 k3 -> links_only k1 k3.
Proof. intros [A1 A2 A3 A4] [B1 B2 B3 B4]. split; try congruence. intros t. rewrite (B4 t), (A4 t) at 1. by destruct (thr k1 t). Qed.

Lemma links_set_thr t f k :
  (forall x, f x = x <| t_process_prev := t_process_prev (f x) |> <| t_process_next := t_process_next (f x) |>) -> links_only k (set_thr t f k).
Proof. intros H. split; try done. intros u. rewrite thr_set. case_decide; [subst; apply H|by destruct (thr k u)]. Qed.

Lemma links_set_prc p f k : links_only k (set_prc p f k).
Proof. split; try done. intros t. change (thr (set_prc p f k) t) with (thr k t). by destruct (thr k t). Qed.

Lemma links_set_next t n k : links_only k (set_next t n k).
Proof. by apply links_set_thr; intros []. Qed.

Lemma links_set_prev t n k : links_only k (set_prev t n k).
Proof. by apply links_set_thr; intros []. Qed.

Lemma links_own k k' t : links_only k k' -> own_stack k' t = own_stack k t /\ t_kernel_stack_base (thr k' t) = t_kernel_stack_base (thr k t).
Proof. intros H. unfold own_stack. by rewrite (lo_thr _ _ H t). Qed.

Lemma attach_links p t k : links_only k (process_thread_attach p t k).2 /\ ((process_thread_attach p t k).1 = false -> (process_thread_attach p t k).2 = k).
Proof.
  unfold process_thread_attach. repeat (if_case; [by split; [apply links_refl|]|]). if_case; if_case; (split; [|done]); try apply links_refl.
  - apply links_set_prc.
  - eapply links_trans; [|apply links_set_prc]. eapply links_trans; [apply links_set_prev|apply links_set_next].
Qed.

Lemma detach_links p t k :
  links_only k (process_thread_detach p t k).2 /\ (process_thread_detach p t k).1 = process_thread_can_detach k p t.
Proof.
  unfold process_thread_detach. destruct (process_thread_can_detach k p t); cbn [negb]; [|split; [apply links_refl|done]]. split; [|done]. cbn [snd].
  set (k1 := if nz (t_process_prev (thr k t)) then _ else _). set (k2 := if nz (t_process_next (thr k t)) then _ else _).
  assert (links_only k k2) as H.
  { eapply links_trans with k1; [subst k1; if_case; [apply links_set_next|apply links_set_prc]|subst k2; if_case; [apply links_set_prev|apply links_set_prc]]. }
  eapply links_trans; [exact H|]. eapply links_trans; [apply (links_set_thr t (fun t => t <| t_process_prev := 0 |> <| t_process_next := 0 |>)); by intros []|].
  eapply links_trans; [apply (links_set_prc p (fun p => p <| p_thread_count := u64 (p_thread_count p - 1) |>))|].
  if_case; [apply links_set_prc|apply links_refl].
Qed.

(** The list of a process depends on its threads only. *)
Lemma list_same k k' p l : (forall t, t ∈ l -> thr k' t = thr k t) -> prc k' p = prc k p -> thread_list k p l -> thread_list k' p l.
Proof.
  intros Hu Ep [L1 L2 L3 L4 L5]. split; rewrite ?Ep; try done.
  - intros u Hl. unfold owned_node. rewrite Hu by done. by apply L4.
  - clear L1 L2 L3 L4. revert L5. generalize 0 at 1 3. induction l as [|u l IH]; intros q; [done|]. cbn. rewrite Hu by set_solver.
    intros (H1 & H2 & H3). split_and!; [done|done|]. apply IH; [|done]. intros v Hv. apply Hu. set_solver.
Qed.

Lemma list_other k p l t f : thread_list k p l -> t ∉ l -> thread_list (set_thr t f k) p l.
Proof. intros Hl Ht. apply (list_same k); [|done|done]. intros u Hu. rewrite thr_set. by rewrite decide_False by (intros ->; done). Qed.

(** * Construction *)

(** The registered state. *)
Definition registered (slot thread : Z) (s : Threads) : Threads :=
  (kernel_write (set_tm (fun m => m <| tm_storage := storage_set slot thread (tm_storage m) |>
                                    <| tm_next_thread_id := u64 (tm_next_thread_id m + 1) |>)) s)
    <| j_unpublished_stack := 0 |> <| j_unpublished_virtual := 0 |>.

Lemma publish_good s (slot : nat) thread base :
  stacks_wf s -> j_unpublished_stack s <> 0 -> j_unpublished_virtual s = base -> storage s !! slot = Some 0 ->
  slot_stack_base (Z.of_nat slot) = Some base -> valid_stack (j_arena s) (j_unpublished_stack s) base -> thread <> 0 -> thread ∉ live (storage s) ->
  own_stack (kn s) thread = Some (j_unpublished_stack s) -> t_kernel_stack_base (thr (kn s) thread) = base ->
  good s (registered (Z.of_nat slot) thread s) /\ live (storage (registered (Z.of_nat slot) thread s)) ≡ₚ thread :: live (storage s).
Proof.
  intros W Hz Hv Hi Hb V Ht Hno Ho Eb. set (s' := registered _ _ _). pose proof (live_insert_free _ _ _ Hi Ht) as Hl.
  assert (storage s' = <[slot := thread]> (storage s)) as Es by (unfold s', registered, kernel_write, storage_set; cbn; by rewrite Nat2Z.id).
  assert (forall t, thr (kn s') t = thr (kn s) t) as Ek by done. rewrite <- Es in Hl.
  assert (stacks s' ≡ₚ stacks s) as Est.
  { unfold stacks. change (nz (j_unpublished_stack s')) with false. unfold nz. rewrite (proj2 (Z.eqb_neq _ _) Hz). cbn [negb app].
    change (own_stack (kn s')) with (own_stack (kn s)). rewrite Hl. cbn [omap list_omap]. by rewrite Ho. }
  pose proof (bind_perm frames_of _ _ Est) as Ef. fold (stack_frames s') (stack_frames s) in Ef. split; [|done]. pose proof W as [W1 W2 W3 W4 W5 W6 W7]. split.
  - split; try done.
    + by apply kern_wf.
    + split; [rewrite Es, length_insert; apply W2|]. rewrite Hl. by apply list.NoDup_cons; split; [|apply W2].
    + intros i t. rewrite Es. destruct (decide (i = slot)) as [->|Hne].
      * rewrite list_lookup_insert_eq by (by eapply lookup_lt_Some). intros [= <-]. unfold slot_ok. rewrite decide_False by done. rewrite Ek.
        change (own_stack (kn s') thread) with (own_stack (kn s) thread). rewrite Ho, Eb. split; [done|]. by apply (valid_stack_same (j_arena s)).
      * rewrite list_lookup_insert_ne by done. intros Ht'. apply (slot_ok_same s); [done|done|done| |by apply W3].
        intros H. exfalso. apply Hne, Nat2Z.inj. rewrite Hv in H. by apply (slot_base_inj _ _ base); [apply Nat2Z.is_nonneg..| |].
    + intros p. rewrite Est. apply W5.
    + intros f. rewrite Ef. apply W6.
    + by rewrite Ef.
  - intros f. rewrite Ef. done.
Qed.

(** The stack of a slot ends at an aligned address. *)
Lemma slot_top (slot : nat) base :
  slot_stack_base (Z.of_nat slot) = Some base -> (base >? U64_MAX - THREAD_KERNEL_STACK_SIZE) = false /\ nz (Z.land (base + THREAD_KERNEL_STACK_SIZE) 0xF) = false.
Proof.
  intros (Hs & -> & _)%slot_base_spec; [|apply Nat2Z.is_nonneg]. change THREAD_KERNEL_STACK_SIZE with 16384. change KERNEL_STACK_ARENA_BASE with 549739036672.
  change KERNEL_STACK_SLOT_SIZE with 24576. unfold U64_MAX. split; [apply Z.ltb_ge; lia|].
  change 0xF with (Z.ones 4). rewrite Z.land_ones by lia. unfold nz. rewrite (proj2 (Z.eqb_eq _ 0)); [done|]. change (2 ^ 4) with 16. Z.to_euclidean_division_equations; lia.
Qed.

(** What a constructor fills in. *)
Definition filled (id process physical base : Z) (t : Thread) : Thread :=
  t <| t_id := id |> <| t_process := process |> <| t_state := THREAD_STATE_READY |> <| t_kernel_stack_physical := physical |>
    <| t_kernel_stack_base := base |> <| t_kernel_stack_top := base + THREAD_KERNEL_STACK_SIZE |> <| t_kernel_stack_size := THREAD_KERNEL_STACK_SIZE |>
    <| t_owns_kernel_stack := true |>.

Lemma set_thr_twice t f g k : set_thr t f (set_thr t g k) = set_thr t (fun x => f (g x)) k.
Proof.
  unfold set_thr, thr. upd_simpl. by rewrite lookup_insert, decide_True, insert_insert, decide_True.
Qed.

Definition fill (s : Threads) (thread process physical base : Z) : Kernel :=
  set_thr thread (fun _ => filled (tm_next_thread_id (k_thr (kn s))) process physical base thread_zero) (kn s).

(** What a successful constructor leaves. *)
Record created (s s' : Threads) (thread process : Z) : Prop := {
  cr_live : live (storage s') ≡ₚ thread :: live (storage s);
  cr_next : tm_next_thread_id (k_thr (kn s')) = u64 (tm_next_thread_id (k_thr (kn s)) + 1);
  cr_clean : thread_creation_cleanup_pending s' = false;
  cr_thread : exists physical base, valid_stack (j_arena s') physical base /\
    let '(ok, k) := process_thread_attach process thread (fill s thread process physical base) in ok = true /\ forall t, thr (kn s') t = thr k t;
  cr_list : forall l, thread_list (kn s) process l -> thread ∉ l -> p_thread_count (prc (kn s) process) < 2 ^ 64 -> thread_list (kn s') process (l ++ [thread]) }.

(** What a constructor that fails leaves of the kernel objects. *)
Definition erased (thread : Z) (k : Kernel) : Kernel := set_thr thread (fun _ => thread_zero) k.

Lemma fill_list s thread process physical base l k :
  thread_list (kn s) process l -> thread ∉ l -> p_thread_count (prc (kn s) process) < 2 ^ 64 ->
  process_thread_attach process thread (fill s thread process physical base) = (true, k) -> thread_list k process (l ++ [thread]).
Proof.
  intros Hl Hno Hc E. pose proof (attach_spec (fill s thread process physical base) process thread l (list_other _ _ _ _ _ Hl Hno) Hc) as H.
  destruct (attachable _ _ _ _); [destruct H as (k' & H & H1 & _); by rewrite E in H; injection H as <-|congruence].
Qed.

Lemma create_publish_call s (slot : nat) thread process physical base :
  stacks_wf s -> thread <> 0 -> thread ∉ live (storage s) -> thr (kn s) thread = thread_zero -> j_unpublished_stack s = physical -> physical <> 0 -> j_unpublished_virtual s = base ->
  storage s !! slot = Some 0 -> slot_stack_base (Z.of_nat slot) = Some base -> valid_stack (j_arena s) physical base ->
  exists b s', create_publish thread process (Z.of_nat slot) physical base s = Some (b, s') /\ good s s' /\
    (if b then created s s' thread process else kn s' = erased thread (kn s)) /\
    (tf_armed (j_create_fault s) = false -> (process_thread_attach process thread (fill s thread process physical base)).1 = true -> b = true).
Proof.
  intros W Ht Hno Hzero Hu Hz Hv Hi Hb V. destruct (slot_top slot base Hb) as [E1 E2]. unfold create_publish. rewrite E1, E2.
  set (s1 := kernel_write _ s). assert (kn s1 = fill s thread process physical base) as Ek by (change (kn s1) with (set_thr thread (filled (tm_next_thread_id (k_thr (kn s))) process physical base) (kn s)); unfold fill, set_thr; by rewrite Hzero).
  assert (good s s1) as G1 by (by apply (write_thread_good s)).
  pose proof (fault_good thread THREAD_CREATE_TEST_ATTACH physical s1 (proj1 G1)) as (G2 & S2 & Q2).
  destruct (thread_create_fault thread THREAD_CREATE_TEST_ATTACH physical s1) as [fault s2] eqn:Ef. cbn [snd] in G2, S2, Q2.
  assert (forall s3, good s2 s3 -> thread ∉ live (storage s3) -> kn s3 = kn s2 -> exists s', create_fail thread s3 = Some (false, s') /\ good s s' /\ kn s' = erased thread (kn s)) as Hfail.
  { intros s3 G3 Hn3 Ek3. destruct (create_fail_call thread s3 (proj1 G3) Hn3) as (s' & H1 & H2 & H3). exists s'. split; [done|]. split.
    - eapply good_trans; [exact G1|]. eapply good_trans; [exact G2|]. by eapply good_trans.
    - rewrite H3, Ek3, (ss_kernel _ _ S2), Ek. unfold fill, erased. by rewrite set_thr_twice. }
  assert (thread ∉ live (storage s2)) as Hno2 by (by rewrite (ss_kernel _ _ S2)).
  destruct fault.
  { destruct (Hfail s2 (good_refl _ (proj1 G2)) Hno2 eq_refl) as (s' & -> & H1 & H2). exists false, s'. split_and!; [done|done|done|].
    intros Ha. unfold thread_create_fault in Ef. change (j_create_fault s1) with (j_create_fault s) in Ef. by rewrite Ha in Ef. }
  unfold kernel_call. destruct (attach_links process thread (kn s2)) as [HL Hsame]. rewrite (ss_kernel _ _ S2), Ek in HL, Hsame |- *.
  destruct (process_thread_attach process thread (fill s thread process physical base)) as [ok k] eqn:Ea. cbn [fst snd] in HL, Hsame |- *.
  set (s3 := s2 <| j_arena := set_kern k (j_arena s2) |>).
  assert (good s2 s3) as G3.
  { pose proof (ss_kernel _ _ S2) as Ek2. rewrite Ek in Ek2. apply write_good; [apply G2|rewrite Ek2; apply HL..| |]; rewrite Ek2; [by rewrite (lo_mod _ _ HL)|].
    intros t _. by apply links_own. }
  destruct ok; cbn [negb].
  2:{ destruct (Hfail s3 G3) as (s' & -> & H1 & H2).
      - change (thread ∉ live (tm_storage (k_thr k))). by rewrite Hsame.
      - change (k = kn s2). by rewrite Hsame, (ss_kernel _ _ S2) by done.
      - exists false, s'. split_and!; done. }
  assert (storage s3 = storage s) as Es3 by (change (tm_storage (k_thr k) = storage s); by rewrite (lo_mod _ _ HL)).
  destruct (links_own _ _ thread HL) as [Ho Hbase].
  assert (own_stack (fill s thread process physical base) thread = Some physical /\ t_kernel_stack_base (thr (fill s thread process physical base) thread) = base) as [Fo Fb].
  { unfold own_stack, fill. rewrite !thr_set, !decide_True by done. done. }
  assert (j_unpublished_stack s3 = physical /\ j_unpublished_virtual s3 = base) as [Eu3 Ev3] by (split; [by rewrite <- Hu; apply S2|by rewrite <- Hv; apply S2]).
  assert (valid_stack (j_arena s3) physical base) as V3.
  { change (valid_stack (set_kern k (j_arena s2)) physical base). apply (valid_stack_same (j_arena s2)); [done|done|]. by apply (same_pages_valid s1), (valid_stack_same (j_arena s)). }
  destruct (publish_good s3 slot thread base) as [G4 Hl4]; [apply G3|by rewrite Eu3|done|by rewrite Es3|done|by rewrite Eu3|done|by rewrite Es3|by rewrite Eu3, <- Fo, <- Ho|by rewrite <- Fb, <- Hbase|].
  eexists true, _. split; [reflexivity|]. split; [by eapply good_trans; [exact G1|]; eapply good_trans; [exact G2|]; eapply good_trans|]. split; [|done].
  split.
  - by rewrite Hl4, Es3.
  - change (u64 (tm_next_thread_id (k_thr k) + 1) = u64 (tm_next_thread_id (k_thr (kn s)) + 1)). by rewrite (lo_mod _ _ HL).
  - done.
  - exists physical, base. rewrite Ea. split; [|done]. by apply (valid_stack_same (j_arena s3)).
  - intros l Hl Hnl Hc. by apply (list_same k), (fill_list s thread process physical base l k Hl Hnl Hc Ea).
Qed.

Lemma created_from s1 s2 s' thread process : kn s2 = kn s1 -> created s2 s' thread process -> created s1 s' thread process.
Proof. intros E [H1 H2 H3 H4 H5]. unfold fill in *. rewrite E in *. by split. Qed.

Lemma fill_erased s1 s2 thread process physical base : kn s2 = erased thread (kn s1) -> fill s2 thread process physical base = fill s1 thread process physical base.
Proof. intros E. unfold fill. rewrite E. unfold erased. by rewrite set_thr_twice. Qed.

Lemma created_erased s1 s2 s' thread process : kn s2 = erased thread (kn s1) -> created s2 s' thread process -> created s1 s' thread process.
Proof.
  intros E [H1 H2 H3 (physical & base & H4 & H4') H5]. pose proof (fill_erased s1 s2 thread process physical base E) as Ef. rewrite Ef in H4'.
  rewrite E in H1, H2, H5. split; try done; [by exists physical, base|]. intros l Hl Hno Hc. apply H5; [by apply list_other|done|done].
Qed.

(** The process takes the thread, wherever its stack is. *)
Definition takes (s : Threads) (thread process : Z) : Prop :=
  forall physical base, (process_thread_attach process thread (fill s thread process physical base)).1 = true.

Lemma create_stack_call s (slot : nat) thread process physical :
  stacks_wf s -> thread <> 0 -> thread ∉ live (storage s) -> thr (kn s) thread = thread_zero -> j_unpublished_stack s = physical -> physical <> 0 -> is_u64 physical ->
  j_unpublished_virtual s = 0 -> storage s !! slot = Some 0 ->
  exists b s', create_stack thread process (Z.of_nat slot) physical s = Some (b, s') /\ good s s' /\
    (if b then created s s' thread process else kn s' = erased thread (kn s)) /\
    (tf_armed (j_create_fault s) = false -> nz (phys_to_virt physical) = true -> mappable_slot (j_arena s) (Z.of_nat slot) physical -> takes s thread process -> b = true).
Proof.
  intros W Ht Hno Hzero Hu Hz Hp Hv Hi. unfold create_stack. pose proof (fault_good thread THREAD_CREATE_TEST_ACCESS physical s W) as (G1 & S1 & _).
  assert (tf_armed (j_create_fault s) = false -> thread_create_fault thread THREAD_CREATE_TEST_ACCESS physical s = (false, s)) as Hf by (intros Ha; unfold thread_create_fault; by rewrite Ha).
  destruct (thread_create_fault thread THREAD_CREATE_TEST_ACCESS physical s) as [fault s1]. cbn [snd] in G1, S1.
  assert (forall s3, good s s3 -> kn s3 = kn s -> exists s', create_fail thread s3 = Some (false, s') /\ good s s' /\ kn s' = erased thread (kn s)) as Hfail.
  { intros s3 G3 Ek3. destruct (create_fail_call thread s3 (proj1 G3) ltac:(by rewrite Ek3)) as (s' & H1 & H2 & H3). exists s'. rewrite Ek3 in H3.
    split; [done|]. split; [by eapply good_trans|done]. }
  destruct fault; [destruct (Hfail s1 G1 (ss_kernel _ _ S1)) as (s' & -> & ? & ?); exists false, s'; split_and!; try done; intros Ha; by specialize (Hf Ha)|].
  destruct (nz (phys_to_virt physical)) eqn:Hpv; cbn [negb].
  2:{ destruct (Hfail s1 G1 (ss_kernel _ _ S1)) as (s' & -> & ? & ?). by exists false, s'. }
  pose proof (zero_good physical s1 (proj1 G1)) as (G2 & S2 & _). set (s2 := zero_stack physical s1) in *. pose proof (good_trans _ _ _ G1 G2) as G02.
  assert (kn s2 = kn s) as Ek2 by (by rewrite (ss_kernel _ _ S2), (ss_kernel _ _ S1)).
  destruct (map_good s2 slot physical (proj1 G2)) as (r & s3 & -> & S3 & Ef3 & Hr & Hok); [by rewrite (ss_stack _ _ S2), (ss_stack _ _ S1)|done|done|by rewrite (ss_virtual _ _ S2), (ss_virtual _ _ S1)|by rewrite Ek2|].
  assert (kn s3 = kn s) as Ek3 by (by rewrite (ss_kernel _ _ S3)). cbn [mbind option_bind].
  assert (tf_armed (j_create_fault s) = false -> mappable_slot (j_arena s) (Z.of_nat slot) physical -> is_Some r) as Hmap.
  { intros Ha M. apply Hok. specialize (Hf Ha). injection Hf as Hs. revert M. unfold s2. by rewrite <- Hs. }
  destruct r as [base|].
  2:{ destruct (Hfail s3 (good_trans _ _ _ G02 Hr) Ek3) as (s' & -> & ? & ?). exists false, s'. split_and!; try done. intros Ha _ M _. by destruct (Hmap Ha M). }
  destruct Hr as (G3 & Hb & V). set (s4 := s3 <| j_unpublished_virtual := base |>) in *. assert (kn s4 = kn s) as Ek4 by exact Ek3.
  destruct (create_publish_call s4 slot thread process physical base (proj1 G3) Ht) as (b & s' & E & G4 & Hres & Hgo); try done; [by rewrite Ek4|by rewrite Ek4|..|by rewrite Ek4|].
  { change (j_unpublished_stack s3 = physical). by rewrite (ss_stack _ _ S3), (ss_stack _ _ S2), (ss_stack _ _ S1). }
  exists b, s'. split; [exact E|]. split; [by eapply good_trans; [exact G02|]; eapply good_trans|]. split.
  - destruct b; [by apply (created_from s s4)|by rewrite <- Ek4].
  - intros Ha _ M Htake. apply Hgo; [|unfold fill; rewrite Ek4; apply Htake]. specialize (Hf Ha). injection Hf as Hs.
    change (tf_armed (j_create_fault s3) = false). by rewrite Ef3, <- Ha, <- Hs.
Qed.

(** What a constructor needs to succeed. *)
Record creatable (s : Threads) (thread process : Z) (l : list Z) : Prop := {
  cc_thread : thread <> 0 /\ thread ∉ live (storage s);
  cc_module : tm_initialized (k_thr (kn s)) = true /\ tm_next_thread_id (k_thr (kn s)) <> 0 /\ r_ready (j_arena s) = true;
  cc_idle : thread_creation_cleanup_pending s = false /\ tf_armed (j_create_fault s) = false;
  cc_slot : object_storage_empty (storage s) THREAD_STORAGE_CAPACITY <> THREAD_STORAGE_CAPACITY /\ storage s !! O <> Some 0;
  cc_process : process <> 0 /\ process_usable (kn s) process = true /\ nz (p_id (prc (kn s) process)) = true /\ no_event (p_exit_info (prc (kn s) process)) = true;
  cc_list : thread_list (kn s) process l /\ thread ∉ l /\ p_thread_count (prc (kn s) process) < 2 ^ 64 - 1;
  cc_space : process_address_space (kn s) process <> 0 /\ address_space_cr3 (kn s) (process_address_space (kn s) process) <> 0;
  cc_access : pmm_phys_map_access_enabled (pages_pmm s) = true /\ kernel_map_active (j_arena s) = true;
  cc_memory : exists first, span first 4 ⊆ free_set (pages_pmm s);
  cc_direct : forall f, f ∈ free_set (pages_pmm s) -> f + 3 < 2 ^ 40 /\ nz (phys_to_virt (f * 4096)) = true }.

Lemma creatable_takes s thread process l : creatable s thread process l -> takes s thread process.
Proof.
  intros C physical base. destruct (cc_thread _ _ _ _ C) as [Hz _]. destruct (cc_module _ _ _ _ C) as (_ & Hid & _). destruct (cc_process _ _ _ _ C) as (_ & P1 & P2 & P3).
  destruct (cc_list _ _ _ _ C) as (L1 & L2 & L3). set (k := fill _ _ _ _ _).
  assert (thr k thread = filled (tm_next_thread_id (k_thr (kn s))) process physical base thread_zero) as Et.
  { unfold k, fill. by rewrite thr_set, decide_True. }
  assert (thread_list k process l) as Lk by (by apply list_other).
  pose proof (attach_spec k process thread l Lk ltac:(change (prc k process) with (prc (kn s) process); lia)) as H.
  assert (attachable k process thread l = true) as Ha; [|rewrite Ha in H; by destruct H as (k' & -> & _)].
  unfold attachable, owned_node. rewrite Et. change (process_usable k process) with (process_usable (kn s) process). change (prc k process) with (prc (kn s) process).
  rewrite P1, P2, P3, (bool_decide_eq_false_2 _ L2). cbn. unfold nz. rewrite (proj2 (Z.eqb_neq _ _) Hz), (proj2 (Z.eqb_neq _ _) Hid), Z.eqb_refl, (proj2 (Z.eqb_neq _ _)) by lia. done.
Qed.

(** The free slot is clear. *)
Lemma creatable_slot s thread process l (slot : nat) physical :
  stacks_wf s -> creatable s thread process l -> storage s !! slot = Some 0 -> physical <> 0 -> physical mod 4096 = 0 ->
  (forall j, 0 <= j < 4 -> 0 < physical / 4096 + j < 2 ^ 40) -> mappable_slot (j_arena s) (Z.of_nat slot) physical.
Proof.
  intros W C Hi Hz Hal Hb. destruct (cc_module _ _ _ _ C) as (_ & _ & Hr). destruct (cc_idle _ _ _ _ C) as [Hp _]. destruct (cc_slot _ _ _ _ C) as [_ H0].
  destruct (cc_access _ _ _ _ C) as (_ & Hact). unfold thread_creation_cleanup_pending in Hp. bool_prop. unfold mappable_slot.
  split_and!; [done|done|done|done| |intros j Hj; by apply small_frame_valid, Hb].
  pose proof (lookup_lt_Some _ _ _ Hi) as Hlt. pose proof (reg_length _ _ (sw_registry _ W)) as Hlen. unfold THREAD_STORAGE_CAPACITY in Hlen.
  assert (slot <> O) as Hs by (intros ->; done).
  assert (exists base, slot_stack_base (Z.of_nat slot) = Some base) as [base Eb].
  { unfold slot_stack_base. assert (!nz (Z.of_nat slot) || (Z.of_nat slot >=? KERNEL_STACK_TOTAL_SLOTS) = false) as ->.
    { apply orb_false_intro; [unfold nz; rewrite (proj2 (Z.eqb_neq _ _)) by lia; done|]. apply Z.leb_gt. unfold KERNEL_STACK_TOTAL_SLOTS, THREAD_STORAGE_CAPACITY. lia. }
    destruct (_ >? _) eqn:Hgt; [|by eexists]. apply Z.ltb_lt in Hgt. change KERNEL_STACK_SLOT_SIZE with 24576 in Hgt. change KERNEL_STACK_ARENA_SIZE with 16777216 in Hgt. lia. }
  exists base. split; [done|]. pose proof (slot_base_spec _ _ (Nat2Z.is_nonneg _) Eb) as (_ & _ & V).
  apply slot_clear_spec; [apply (sw_arena _ W)|by apply (aw_space _ (sw_arena _ W))|]. split; [done|].
  pose proof (sw_slots _ W slot 0 Hi) as Hok. unfold slot_ok in Hok. rewrite decide_True in Hok by done. destruct (Hok base Eb) as [Ha|[-> _]]; [exact Ha|].
  rewrite H1 in V. done.
Qed.

(** A refusal of the constructor before it takes a stack. *)
Local Ltac early :=
  eexists false, _; split; [reflexivity|]; split; [first [eassumption|done]|]; split; [first [eassumption|done|rewrite bool_decide_eq_false_2 by done; done]|];
  intros C; destruct C as [[C1 C1'] (C2 & C3 & C4) [C5 C6] [C7 C7'] (C8 & C8' & _) _ [C9 C10] (C11 & C12) _ _]; unfold thread_creation_cleanup_pending in *;
  repeat match goal with X : _ || _ = true |- _ => apply orb_true_iff in X as [X|X] end; bool_prop; congruence.

(** The constructor after its guards, on the erased thread. *)
Lemma create_allocate_call thread process l s (slot : nat) :
  stacks_wf s -> thread <> 0 -> thread ∉ live (storage s) -> j_unpublished_stack s = 0 -> j_unpublished_virtual s = 0 -> storage s !! slot = Some 0 ->
  exists b s', create_allocate thread process (Z.of_nat slot) (kernel_write (erased thread) s) = Some (b, s') /\ good s s' /\
    (if b then created s s' thread process else kn s' = erased thread (kn s)) /\ (creatable s thread process l -> b = true).
Proof.
  intros W Hn Hin Hus Huv Hslot. set (s0 := kernel_write _ s). assert (good s s0) as G0 by (by apply write_thread_good). unfold create_allocate.
  pose proof (fault_good thread THREAD_CREATE_TEST_ALLOCATE 0 s0 (proj1 G0)) as (G1 & S1 & _).
  assert (tf_armed (j_create_fault s) = false -> thread_create_fault thread THREAD_CREATE_TEST_ALLOCATE 0 s0 = (false, s0)) as Hf.
  { intros Ha. unfold thread_create_fault. change (j_create_fault s0) with (j_create_fault s). by rewrite Ha. }
  destruct (thread_create_fault thread THREAD_CREATE_TEST_ALLOCATE 0 s0) as [fault s1]. cbn [snd] in G1, S1. pose proof (good_trans _ _ _ G0 G1) as G01.
  destruct fault.
  { exists false, s1. split_and!; [done|done|by rewrite (ss_kernel _ _ S1)|]. intros C. by specialize (Hf (proj2 (cc_idle _ _ _ _ C))). }
  assert (kn s1 = erased thread (kn s)) as Ek1 by (by rewrite (ss_kernel _ _ S1)).
  pose proof (alloc_good s1 (proj1 G1) ltac:(by rewrite (ss_stack _ _ S1)) ltac:(by rewrite (ss_virtual _ _ S1))) as Halloc.
  destruct (pmm_call (pmm_alloc_pages THREAD_KERNEL_STACK_PAGES) s1) as [physical s2]. destruct Halloc as (Ek2 & Hv2 & Hf2 & Hm2 & Halloc).
  destruct (nz physical) eqn:Hnp; cbn [negb].
  2:{ destruct Halloc as [G2 Hnone]. exists false, s2. split; [done|]. split; [by eapply good_trans|]. split; [by rewrite Ek2|].
      intros C. destruct (cc_memory _ _ _ _ C) as [first Hfr]. exfalso. apply (Hnone first). pose proof (Hf (proj2 (cc_idle _ _ _ _ C))) as Hs. injection Hs as ->. exact Hfr. }
  destruct Halloc as (G2 & Hu & Hal & Hsub). bool_prop.
  destruct (create_stack_call (s2 <| j_unpublished_stack := physical |>) slot thread process physical (proj1 G2) Hn) as (b & s' & E' & G3 & Hres & Hgo); try done.
  - change (thread ∉ live (storage s2)). by rewrite Ek2, Ek1.
  - change (thr (kn s2) thread = thread_zero). rewrite Ek2, Ek1. unfold erased. by rewrite thr_set, decide_True.
  - change (storage s2 !! slot = Some 0). by rewrite Ek2, Ek1.
  - exists b, s'. split; [exact E'|]. split; [by eapply good_trans; [exact G01|]; eapply good_trans|].
    set (s3 := s2 <| j_unpublished_stack := physical |>) in *. assert (kn s3 = erased thread (kn s)) as Ek3 by (change (kn s2 = erased thread (kn s)); by rewrite Ek2).
    split.
    + destruct b; [by apply (created_erased s s3)|]. rewrite Hres, Ek3. unfold erased. by rewrite set_thr_twice.
    + intros C. pose proof (Hf (proj2 (cc_idle _ _ _ _ C))) as Hs. injection Hs as Hs. assert (physical / 4096 ∈ free_set (pages_pmm s)) as Hfree.
      { replace (pages_pmm s) with (pages_pmm s1) by (by rewrite Hs). apply Hsub, elem_of_span. lia. }
      destruct (cc_direct _ _ _ _ C _ Hfree) as [Hlim Hdir]. assert (physical / 4096 * 4096 = physical) as Edm by (Z.to_euclidean_division_equations; lia). rewrite Edm in Hdir.
      apply Hgo; [|done| |].
      * change (tf_armed (j_create_fault s2) = false). rewrite Hf2, Hs. apply (cc_idle _ _ _ _ C).
      * apply Hm2. rewrite Hs. apply (creatable_slot s thread process l slot physical W C); try done. intros j Hj. unfold is_u64 in Hu. Z.to_euclidean_division_equations; lia.
      * intros p base. rewrite (fill_erased s s3) by done. by apply (creatable_takes s thread process l).
Qed.

Lemma thread_create_call thread process l s :
  stacks_wf s ->
  exists b s', thread_create thread process s = Some (b, s') /\ good s s' /\
    (if b then created s s' thread process
     else kn s' = if nz thread && negb (bool_decide (thread ∈ live (storage s))) then erased thread (kn s) else kn s) /\
    (creatable s thread process l -> b = true).
Proof.
  intros W. unfold thread_create, thread_create_locked, thread_storage_live. rewrite (object_storage_find_live _ _ thread (sw_registry _ W)).
  destruct (nz thread) eqn:Hn; cbn [negb orb andb]; bool_prop; [|early]. case_bool_decide as Hin; cbn [negb]; [early|].
  set (s0 := kernel_write _ s). assert (good s s0) as G0 by (by apply write_thread_good).
  assert (kn s0 = erased thread (kn s)) as Ek0 by done. cbv zeta. set (k0 := kern (j_arena s0)).
  assert (k_thr k0 = k_thr (kn s)) as Em by done. assert (process_address_space k0 process = process_address_space (kn s) process) as Ea by done.
  assert (forall a, address_space_cr3 k0 a = address_space_cr3 (kn s) a) as Ec by done.
  assert (j_unpublished_stack s0 = j_unpublished_stack s /\ j_unpublished_virtual s0 = j_unpublished_virtual s) as [Eus Euv] by done.
  assert (r_ready (j_arena s0) = r_ready (j_arena s) /\ pages_pmm s0 = pages_pmm s) as [Er Ep] by done.
  assert (vmm_phys_map_access_enabled (vm (j_arena s0)) = true) as Ed by exact (aw_direct _ (sw_arena _ W)).
  unfold kernel_stack_arena_ready. rewrite Em, Ea, Ec, Eus, Euv, Er, Ep, Ed.
  if_case; [early|]. if_case; [early|]. if_case; [early|]. if_case; [early|].
  repeat match goal with X : _ || _ = false |- _ => apply orb_false_iff in X as [X ?] end. bool_prop.
  destruct (object_storage_empty_lookup _ _ (sw_registry _ W) ltac:(eassumption)) as (slot & -> & Hslot). by apply create_allocate_call.
Qed.

(** * Destruction *)

(** The state with an entry of the registry cleared and its thread erased. *)
Definition unregistered (slot thread : Z) (s : Threads) : Threads :=
  kernel_write (set_thr thread destroyed) (kernel_write (set_tm (fun m => m <| tm_storage := storage_set slot 0 (tm_storage m) |>)) s).

(** A thread leaves: its links changed, its stack, if it had one, was given back. *)
Lemma unregister_good s a k (slot : nat) thread :
  stacks_wf s -> storage s !! slot = Some thread -> thread <> 0 -> arena_wf a -> arena_keeps (j_arena s) a -> links_only (kn s) k ->
  (forall f, pool (vm a) f <-> pool (vm (j_arena s)) f \/ exists p, own_stack (kn s) thread = Some p /\ f ∈ frames_of p) ->
  (forall (i : nat) base j, i <> slot -> slot_stack_base (Z.of_nat i) = Some base -> -1 <= j <= 4 ->
     vmm_query_page (vm a) K (base + j * 4096) = vmm_query_page (vm (j_arena s)) K (base + j * 4096)) ->
  (if own_stack (kn s) thread then absent a (t_kernel_stack_base (thr (kn s) thread))
   else forall va, vmm_query_page (vm a) K va = vmm_query_page (vm (j_arena s)) K va) ->
  let s' := unregistered (Z.of_nat slot) thread (s <| j_arena := set_kern k a |>) in
  good s s' /\ live (storage s) ≡ₚ thread :: live (storage s').
Proof.
  intros W Hi Ht A Hk HL Hp Hother Hslot s'. pose proof (live_insert_null _ _ _ Hi Ht) as Hl.
  assert (storage s' = <[slot := 0]> (storage s)) as Es.
  { unfold s', unregistered, kernel_write, storage_set. cbn. by rewrite Nat2Z.id, (lo_mod _ _ HL). }
  rewrite <- Es in Hl. pose proof W as [W1 W2 W3 W4 W5 W6 W7]. pose proof (reg_nodup _ _ W2) as Hd. rewrite Hl in Hd. apply list.NoDup_cons in Hd as [Hno Hd].
  assert (forall t, t <> thread -> thr (kn s') t = thr k t) as Ek.
  { intros t Hne. unfold s', unregistered, kernel_write. cbn -[set_thr]. rewrite thr_set. by rewrite decide_False by congruence. }
  assert (forall t, t <> thread -> own_stack (kn s') t = own_stack (kn s) t /\ t_kernel_stack_base (thr (kn s') t) = t_kernel_stack_base (thr (kn s) t)) as Hown.
  { intros t Hne. destruct (links_own _ _ t HL) as [<- <-]. unfold own_stack. by rewrite (Ek t Hne). }
  assert (stacks s ≡ₚ option_list (own_stack (kn s) thread) ++ stacks s') as Est.
  { unfold stacks. change (j_unpublished_stack s') with (j_unpublished_stack s). rewrite Hl. 
    rewrite (omap_same (own_stack (kn s')) (own_stack (kn s))) by (intros t H; apply Hown; intros ->; done).
    cbn [omap list_omap]. destruct (own_stack (kn s) thread) as [p|]; cbn [option_list]; [|done]. by rewrite <- Permutation_middle. }
  pose proof (bind_perm frames_of _ _ Est) as Ef. fold (stack_frames s) in Ef. rewrite bind_app in Ef. fold (stack_frames s') in Ef.
  assert (forall f, f ∈ option_list (own_stack (kn s) thread) ≫= frames_of <-> exists p, own_stack (kn s) thread = Some p /\ f ∈ frames_of p) as Hgone.
  { intros f. destruct (own_stack (kn s) thread) as [p|]; cbn; [rewrite app_nil_r|]; [split; [by exists p|by intros (q & [= <-] & ?)]|].
    split; [by intros ?%not_elem_of_nil|by intros (q & ? & _)]. }
  split; [|done]. split; [split|].
  - assert (kern a = kn s) as Eka by apply (ak_kernel _ _ Hk). change (arena_wf (set_kern (kn s') a)).
    apply kern_wf; [done|rewrite Eka; exact (lo_spc _ _ HL)|rewrite Eka; exact (lo_spaces _ _ HL)].
  - split; [rewrite Es, length_insert; apply W2|done].
  - intros i t. rewrite Es. destruct (decide (i = slot)) as [->|Hne].
    + rewrite list_lookup_insert_eq by (by eapply lookup_lt_Some). intros [= <-] base Hb. specialize (W3 slot thread Hi). unfold slot_ok in W3. rewrite decide_False in W3 by done.
      destruct (own_stack (kn s) thread) as [p|]; [destruct W3 as [W3 _]; rewrite W3 in Hb; injection Hb as <-; by left|].
      destruct (W3 base Hb) as [Ha|[-> V]]; [left; intros j Hj; change (vmm_query_page (vm a) K (base + j * 4096) = None); rewrite Hslot; by apply Ha|right].
      split; [done|]. apply (valid_stack_same (j_arena s)); [apply Hk|intros j Hj; apply Hslot|done].
    + rewrite list_lookup_insert_ne by done. intros Hlt. apply (slot_ok_same s); [apply Hk|intros base j; by apply Hother| |done|by apply W3].
      intros Hz. apply Hown. intros ->. apply Hno, elem_of_live. split; [done|]. rewrite Es. apply (list_elem_of_lookup_2 _ i). by rewrite list_lookup_insert_ne.
  - intros Hv. destruct (W4 Hv) as (H1 & i & H2 & H3). split; [done|]. exists i. split; [|done]. rewrite Es. rewrite list_lookup_insert_ne by (intros ->; congruence). done.
  - intros p Hin. apply W5. rewrite Est. set_solver.
  - intros f Hf. destruct (W6 f) as [H1 H2]; [rewrite Ef; set_solver|]. split; [by apply (ak_owned _ _ Hk)|]. intros [H|H]%Hp; [done|].
    rewrite Ef in W7. apply list.NoDup_app in W7 as (_ & W7 & _). by apply (W7 f); [apply Hgone|].
  - rewrite Ef in W7. by apply list.NoDup_app in W7 as (_ & _ & W7).
  - intros f. change (vm (j_arena s')) with (vm a). rewrite Hp, Ef, elem_of_app, Hgone. tauto.
Qed.

(** What a destructor leaves. *)
Record removed (s s' : Threads) (thread : Z) : Prop := {
  rm_live : live (storage s) ≡ₚ thread :: live (storage s');
  rm_thread : thr (kn s') thread = destroyed (thr (kn s) thread);
  rm_frames : forall p f, own_stack (kn s) thread = Some p -> f ∈ frames_of p -> pool (vm (j_arena s')) f;
  rm_list : forall l1 l2, thread_list (kn s) (t_process (thr (kn s) thread)) (l1 ++ thread :: l2) ->
    p_thread_count (prc (kn s) (t_process (thr (kn s) thread))) < 2 ^ 64 -> thread_list (kn s') (t_process (thr (kn s) thread)) (l1 ++ l2) }.

Lemma thread_destroyable_spec s thread :
  stacks_wf s -> thread_destroyable (kn s) thread = true ->
  thread <> 0 /\ (exists slot : nat, object_storage_find (storage s) THREAD_STORAGE_CAPACITY thread = Z.of_nat slot /\ storage s !! slot = Some thread) /\
  process_thread_can_detach (kn s) (t_process (thr (kn s) thread)) thread = true.
Proof.
  intros W H. unfold thread_destroyable in H. destruct (decide (thread ∈ live (storage s))) as [Hin|Hin].
  2:{ by rewrite (object_storage_find_ge _ _ _ (sw_registry _ W) Hin), Z.eqb_refl in H. }
  split; [by apply elem_of_live in Hin as [? _]|]. split; [by apply object_storage_find_lookup; [apply W|]|]. by do 3 (if_case_in H; [done|]).
Qed.

(** The list of the process after its thread has left. *)
Lemma detached_list k k2 k' p thread l1 l2 :
  process_thread_can_detach k p thread = true -> process_thread_detach p thread k = (true, k2) -> (forall t, t <> thread -> thr k' t = thr k2 t) -> prc k' p = prc k2 p ->
  thread_list k p (l1 ++ thread :: l2) -> p_thread_count (prc k p) < 2 ^ 64 -> thread_list k' p (l1 ++ l2).
Proof.
  intros Hc Ed Ht Ep Hl Hb. assert (process_usable k p = true /\ nz (p_id (prc k p)) = true) as [Hu Hid].
  { unfold process_thread_can_detach in Hc. destruct (process_usable k p); [|done]. by destruct (nz (p_id (prc k p))). }
  destruct (detach_spec k p thread l1 l2 Hu Hid Hb Hl) as (k3 & E3 & L3 & _). rewrite Ed in E3. injection E3 as <-.
  pose proof (thread_list_nodup _ _ _ Hl) as Hd. apply (list_same k2); [|done|done]. intros t Hin. apply Ht. intros ->.
  rewrite <- Permutation_middle in Hd. by apply list.NoDup_cons in Hd as [Hd _].
Qed.

(** The destructor after its stack is gone, or when there was none. *)
Lemma thread_detach_call s a (slot : nat) thread :
  stacks_wf s -> storage s !! slot = Some thread -> thread <> 0 -> process_thread_can_detach (kn s) (t_process (thr (kn s) thread)) thread = true ->
  arena_wf a -> arena_keeps (j_arena s) a ->
  (forall f, pool (vm a) f <-> pool (vm (j_arena s)) f \/ exists p, own_stack (kn s) thread = Some p /\ f ∈ frames_of p) ->
  (forall (i : nat) base j, i <> slot -> slot_stack_base (Z.of_nat i) = Some base -> -1 <= j <= 4 ->
     vmm_query_page (vm a) K (base + j * 4096) = vmm_query_page (vm (j_arena s)) K (base + j * 4096)) ->
  (if own_stack (kn s) thread then absent a (t_kernel_stack_base (thr (kn s) thread))
   else forall va, vmm_query_page (vm a) K va = vmm_query_page (vm (j_arena s)) K va) ->
  exists s1, kernel_call (process_thread_detach (t_process (thr (kn s) thread)) thread) (s <| j_arena := a |>) = (true, s1) /\
    good s (unregistered (Z.of_nat slot) thread s1) /\ removed s (unregistered (Z.of_nat slot) thread s1) thread.
Proof.
  intros W Hi Ht Hc A Hk Hp Hother Hslot. unfold kernel_call. change (kn (s <| j_arena := a |>)) with (kern a). rewrite (ak_kernel _ _ Hk : kern a = kn s).
  destruct (detach_links (t_process (thr (kn s) thread)) thread (kn s)) as [HL Hd]. rewrite Hc in Hd.
  destruct (process_thread_detach _ _ _) as [ok k] eqn:Ed. cbn [fst snd] in HL, Hd. subst ok. eexists. split; [reflexivity|].
  destruct (unregister_good s a k slot thread) as [G Hl]; try done. split; [exact G|]. set (s' := unregistered _ _ _) in *. split; [done|..].
  - unfold s', unregistered, kernel_write. cbn -[set_thr]. rewrite thr_set, decide_True by done. change (destroyed (thr k thread) = destroyed (thr (kn s) thread)).
    rewrite (lo_thr _ _ HL thread). done.
  - intros p f Ho Hf. change (vm (j_arena s')) with (vm a). apply Hp. right. by exists p.
  - intros l1 l2 Hl1 Hb. apply (detached_list (kn s) k _ _ thread l1 l2 Hc Ed); try done. intros t Hne. unfold s', unregistered, kernel_write. cbn -[set_thr]. rewrite thr_set.
    by rewrite decide_False by congruence.
Qed.

(** The stack of a registered thread. *)
Lemma owned_stack s (slot : nat) thread p :
  stacks_wf s -> storage s !! slot = Some thread -> thread <> 0 -> own_stack (kn s) thread = Some p ->
  slot_stack_base (Z.of_nat slot) = Some (t_kernel_stack_base (thr (kn s) thread)) /\ valid_stack (j_arena s) p (t_kernel_stack_base (thr (kn s) thread)) /\
  is_u64 p /\ (forall j, 0 <= j < 4 -> frame_owned (pages_pmm s) (p / 4096 + j) /\ ~ pool (vm (j_arena s)) (p / 4096 + j)).
Proof.
  intros W Hi Ht Ho. pose proof (sw_slots _ W slot thread Hi) as H. unfold slot_ok in H. rewrite decide_False, Ho in H by done. destruct H as [H1 H2].
  assert (p ∈ stacks s) as Hin.
  { unfold stacks. apply elem_of_app. right. apply list_elem_of_omap. exists thread. split; [|done]. apply elem_of_live. split; [done|by eapply list_elem_of_lookup_2]. }
  split_and!; [done|done|by apply (sw_stacks _ W)|]. intros j Hj. apply (sw_frames _ W). unfold stack_frames. apply list_elem_of_bind. exists p. split; [|done].
  apply elem_of_frames. lia.
Qed.

Lemma thread_destroy_call thread s :
  stacks_wf s ->
  exists b s', thread_destroy thread s = Some (b, s') /\ good s s' /\ (if b then removed s s' thread else kn s' = kn s) /\
    (b = true -> thread_destroyable (kn s) thread = true) /\
    (thread_destroyable (kn s) thread = true -> kernel_map_active (j_arena s) = true -> g_free_fault_armed (pages_pmm s) = false -> b = true).
Proof.
  intros W. unfold thread_destroy, thread_destroy_locked. destruct (thread_destroyable (kn s) thread) eqn:Hd; cbn [negb].
  2:{ exists false, s. by split_and!. }
  destruct (thread_destroyable_spec s thread W Hd) as (Ht & (slot & -> & Hi) & Hc).
  destruct (t_owns_kernel_stack (thr (kn s) thread)) eqn:Hown.
  - assert (own_stack (kn s) thread = Some (t_kernel_stack_physical (thr (kn s) thread))) as Ho by (unfold own_stack; by rewrite Hown).
    destruct (owned_stack s slot thread _ W Hi Ht Ho) as (Hb & V & Hu & Hf). set (p := t_kernel_stack_physical _) in *. set (base := t_kernel_stack_base _) in *.
    destruct (stack_release_call (j_arena s) p base (sw_arena _ W) Hu) as (b & a & E & A & Hk & [Hse Hout] & _ & Hgo); [intros j Hj; by apply Hf|].
    unfold stack_call. rewrite E. cbn [mbind option_bind].
    assert (kernel_map_active (j_arena s) = true -> g_free_fault_armed (pages_pmm s) = false -> b = true) as Hok.
    { intros H1 H2. apply Hgo. unfold releasable. split_and!; try done. intros j Hj. by apply Hf. }
    assert (forall (i : nat) b j, i <> slot -> slot_stack_base (Z.of_nat i) = Some b -> -1 <= j <= 4 ->
      vmm_query_page (vm a) K (b + j * 4096) = vmm_query_page (vm (j_arena s)) K (b + j * 4096)) as Hother by (intros i b' j Hne Hb' Hj; by apply (slots_apart s a slot i base)).
    destruct b; cbn [negb].
    + destruct Hout as [Habs Hp]. destruct (thread_detach_call s a slot thread) as (s1 & -> & G & R); try done.
      * intros f. rewrite Hp. split; (intros [?|Hx]; [by left|right]); [exists p; by rewrite elem_of_frames|].
        destruct Hx as (q & Hq & Hx). rewrite Ho in Hq. injection Hq as <-. by apply elem_of_frames.
      * by rewrite Ho.
      * cbn [negb]. eexists true, _. split; [reflexivity|]. split; [exact G|]. by split.
    + destruct Hout as [Hv Hp]. eexists false, _. split; [reflexivity|]. split; [|split; [apply (ak_kernel _ _ Hk)|split; [done|by intros _]]].
      apply (arena_good s); try done. intros i t Hit. assert (kern a = kn s) as Ek by apply (ak_kernel _ _ Hk). destruct (decide (i = slot)) as [->|Hne].
      * rewrite Hi in Hit. injection Hit as <-. unfold slot_ok. change (kn (s <| j_arena := a |>)) with (kern a). rewrite Ek, decide_False, Ho by done. split; [done|]. by apply Hv.
      * apply (slot_ok_same s); [apply Hk|intros b' j; by apply Hother|intros _; by rewrite <- Ek|done|by apply W].
  - assert (own_stack (kn s) thread = None) as Ho by (unfold own_stack; by rewrite Hown). cbn [mbind option_bind negb].
    destruct (thread_detach_call s (j_arena s) slot thread) as (s1 & E & G & R); try done; [apply W| |by rewrite Ho|].
    { intros f. rewrite Ho. split; [by left|]. by intros [?|(q & ? & _)]. }
    replace (s <| j_arena := j_arena s |>) with s in E by (by destruct s). rewrite E. cbn [negb]. eexists true, _. split; [reflexivity|]. split; [exact G|]. by split.
Qed.

(** * Boot *)

(** The registry before boot. *)
Definition unused (slots : list Z) : Prop := Z.of_nat (length slots) = THREAD_STORAGE_CAPACITY /\ live slots = [] /\ slots !! O = Some 0.

Lemma replicate_unused n : n <> O -> Z.of_nat n = THREAD_STORAGE_CAPACITY -> unused (replicate n 0).
Proof.
  intros Hn Hc. split; [by rewrite length_replicate|]. split; [|apply lookup_replicate_2; lia].
  apply elem_of_nil_inv. intros x [Hx Hin]%elem_of_live. by apply elem_of_replicate in Hin as [-> _].
Qed.

(** The first thread, on the boot stack, takes entry 0, which has no slot. *)
Lemma bootstrap_wf a k t z :
  arena_wf a -> k_spc k = k_spc (kern a) -> k_spaces k = k_spaces (kern a) -> t <> 0 -> own_stack k t = None -> unused z -> tm_storage (k_thr k) = storage_set 0 t z ->
  (forall (i : nat) base, slot_stack_base (Z.of_nat i) = Some base -> absent a base) -> stacks_wf (mkThreads (set_kern k a) 0 0 thread_fault_zero).
Proof.
  intros A E1 E2 Ht Ho (Hlen & Ez & Hz) Es Hab. set (s := mkThreads _ _ _ _). pose proof (live_insert_free z O t Hz Ht) as Hl.
  rewrite Ez in Hl. assert (storage s = <[O := t]> z) as Est by exact Es. assert (stacks s = []) as Hst.
  { unfold stacks. rewrite Est. change (nz (j_unpublished_stack s)) with false. apply Permutation_nil. rewrite Hl. cbn. change (own_stack (kn s) t) with (own_stack k t). by rewrite Ho. }
  assert (stack_frames s = []) as Hsf by (unfold stack_frames; by rewrite Hst). split; rewrite ?Hst, ?Hsf; try done.
  - by apply kern_wf.
  - split; [by rewrite Est, length_insert|]. rewrite Est, Hl. apply NoDup_singleton.
  - intros i u Hi. assert ((if decide (u = 0) then None else own_stack (kn s) u) = None) as Eo.
    { case_decide as Hu; [done|]. assert (u ∈ live (storage s)) as Hin by (apply elem_of_live; split; [done|by eapply list_elem_of_lookup_2]).
      rewrite Est, Hl in Hin. apply list_elem_of_singleton in Hin as ->. exact Ho. }
    unfold slot_ok. rewrite Eo. intros base Hb. left. by apply (Hab i).
  - intros p Hp. by apply not_elem_of_nil in Hp.
  - intros f Hf. by apply not_elem_of_nil in Hf.
  - apply NoDup_nil_2.
Qed.

Lemma system_init_call kernel_process stack_base stack_size stack_top a :
  arena_wf a -> is_u64 stack_base -> (forall p, process_address_space (kern a) p = 0 \/ process_address_space (kern a) p ∈ spaces (r_system a)) ->
  unused (tm_storage (k_thr (kern a))) ->
  (forall (i : nat) base, slot_stack_base (Z.of_nat i) = Some base -> absent a base) ->
  let '(b, a') := thread_system_init kernel_process stack_base stack_size stack_top a in
  arena_wf a' /\ (b = true -> stacks_wf (mkThreads a' 0 0 thread_fault_zero) /\ r_ready a' = true).
Proof.
  intros A Hu Hsp Hz Hab. unfold thread_system_init. if_case; [done|]. if_case; [done|].
  pose proof (arena_init_call (process_address_space (kern a) kernel_process) stack_base a A Hu (Hsp kernel_process)) as H.
  destruct (kernel_stack_arena_init _ stack_base a) as [ready a1]. destruct H as (A1 & Hse & _ & Ek & Hr). destruct ready; cbn [negb]; [|done].
  if_case; [done|]. if_case; [done|]. set (k := set_thr _ _ _). assert (k_spc k = k_spc (kern a1) /\ k_spaces k = k_spaces (kern a1) /\ k_thr k = k_thr (kern a)) as (K1 & K2 & K3).
  { split; [done|]. split; [done|]. change (k_thr (kern a1) = k_thr (kern a)). by rewrite (Ek : kern a1 = kern a). }
  destruct (attach_links kernel_process g_bootstrap_thread k) as [HL _]. destruct (process_thread_attach _ _ k) as [ok k2]. cbn [snd] in HL.
  assert (k_spc k2 = k_spc (kern a1) /\ k_spaces k2 = k_spaces (kern a1)) as [L1 L2] by (rewrite <- K1, <- K2; split; apply HL).
  destruct ok; cbn [negb]; [|split; [by apply kern_wf|done]]. split; [by apply kern_wf|]. intros _. split; [|by apply Hr].
  apply (bootstrap_wf a1 _ g_bootstrap_thread (tm_storage (k_thr (kern a)))); try done.
  - destruct (links_own _ _ g_bootstrap_thread HL) as [Ho _]. transitivity (own_stack k2 g_bootstrap_thread); [done|]. rewrite Ho. unfold own_stack, k. by rewrite thr_set, decide_True.
  - change (storage_set 0 g_bootstrap_thread (tm_storage (k_thr k2)) = storage_set 0 g_bootstrap_thread (tm_storage (k_thr (kern a)))).
    by rewrite (lo_mod _ _ HL), K3.
  - intros i base Hb j Hj. destruct (slot_base_spec _ _ (Nat2Z.is_nonneg _) Hb) as (_ & _ & V). destruct (base_valid_spec base V) as [_ Hp].
    destruct (arena_page_ok _ (Hp j Hj)) as [Hx Hok]. pose proof (aw_wf _ A) as Wy. rewrite (Hse K); [by apply (Hab i)|by apply page_ok_page|by apply kernel_owns|by apply kernel_live|].
    intros [_ Hr0]. lia.
Qed.

(** * The claims *)

(** C12. Constructing a thread is a transaction that never halts the kernel and
    keeps the state well formed: every registered thread that owns a stack has
    its own four frames mapped between absent guard pages in the slot of its
    entry, and every other slot is clear. No frame is lost or appears, whatever
    step fails and even when the roll-back is refused. On success the thread is
    registered and appended to its process with a fresh identifier and a valid
    stack; on failure the kernel objects are as before but for the erased record
    of the thread, which is not touched when it is live. A constructor with a
    free entry, an open process, four free frames in a row and no fault armed
    succeeds. *)
Theorem thread_create_transaction thread process l s :
  stacks_wf s ->
  exists b s', thread_create thread process s = Some (b, s') /\ stacks_wf s' /\ conserved s s' /\
    (if b then created s s' thread process
     else kn s' = if nz thread && negb (bool_decide (thread ∈ live (storage s))) then erased thread (kn s) else kn s) /\
    (creatable s thread process l -> b = true).
Proof. intros W. destruct (thread_create_call thread process l s W) as (b & s' & ? & [? ?] & ? & ?). by exists b, s'. Qed.

(** The thread can go: it is a registered thread of a usable process, on the list
    of that process, not the current one, neither running nor blocked nor queued,
    waits for nothing, and no capability names it. *)
Record destroy_allowed (k : Kernel) (thread : Z) : Prop := {
  da_registered : tm_initialized (k_thr k) = true /\ thread ∈ live (tm_storage (k_thr k)) /\ thread <> tm_current (k_thr k);
  da_identity : t_id (thr k thread) <> 0 /\ t_process (thr k thread) <> 0;
  da_state : t_state (thr k thread) = THREAD_STATE_READY \/ t_state (thr k thread) = THREAD_STATE_DEAD;
  da_queue : t_on_run_queue (thr k thread) = false /\ t_run_next (thr k thread) = 0;
  da_wait : t_wait_kind (thr k thread) = THREAD_WAIT_NONE /\ t_wait_result (thr k thread) = THREAD_WAIT_RESULT_NONE /\
    t_wait_object (thr k thread) = 0 /\ t_wait_id (thr k thread) = 0;
  da_capabilities : t_capability_refs (thr k thread) = 0;
  da_process : process_usable k (t_process (thr k thread)) = true /\ p_id (prc k (t_process (thr k thread))) <> 0 /\
    exists l, thread_list k (t_process (thr k thread)) l /\ thread ∈ l }.

(** The guards of the destructor decide it. *)
Lemma destroyable_spec k thread :
  registry THREAD_STORAGE_CAPACITY (tm_storage (k_thr k)) -> thread_destroyable k thread = true <-> destroy_allowed k thread.
Proof.
  intros Hreg. unfold thread_destroyable, thread_wait_active, thread_known, thread_storage_live, state_is. rewrite (object_storage_find_live _ _ _ Hreg).
  destruct (decide (thread ∈ live (tm_storage (k_thr k)))) as [Hin|Hin].
  2: { rewrite (object_storage_find_ge _ _ _ Hreg Hin), Z.eqb_refl. split; [done|]. by intros [(_ & ? & _) _ _ _ _ _ _]. }
  pose proof (object_storage_find_live _ _ thread Hreg) as Hlt. rewrite (bool_decide_eq_true_2 _ Hin) in Hlt |- *. apply Z.ltb_lt in Hlt.
  rewrite (proj2 (Z.eqb_neq _ _)) by lia. split.
  - intros H. if_case_in H; [done|]. if_case_in H; [done|]. apply orb_false_iff in E0 as [Ew Er].
    pose proof H as Hd. unfold process_thread_can_detach in Hd. if_case_in Hd; [done|]. clear Hd.
    apply orb_false_iff in E0 as [E0 _]. apply orb_false_iff in E0 as [E0 _]. apply orb_false_iff in E0 as [Hu Hp]. apply negb_false_iff in Hu, Hp.
    apply can_detach_spec in H; [|done|done]. do 9 (apply orb_false_iff in E as [E ?]). apply negb_false_iff in E.
    match goal with Hi : negb (nz (t_id _)) = false |- _ => pose proof Hi as Hi'; apply negb_false_iff in Hi' end.
    rewrite E, Hi' in Ew. cbn in Ew. bool_prop. split; try done.
    + destruct (t_state (thr k thread)); auto; done.
    + split_and!; try done; by eapply bool_decide_eq_true.
  - intros [(D1 & D2 & D3) (D4 & D5) D6 (D7 & D8) (D9 & D10 & D11 & D12) D13 (D14 & D15 & D16)].
    assert (nz thread = true) as Hz by (apply elem_of_live in D2 as [? _]; by apply negb_true_iff, Z.eqb_neq).
    assert (nz (t_id (thr k thread)) = true) as Hi by (by apply negb_true_iff, Z.eqb_neq).
    rewrite D1, Hz, Hi, (proj2 (Z.eqb_neq _ _) D3), D7, D8, D9, D10, D11, D12, D13.
    assert (nz (t_process (thr k thread)) = true) as -> by (by apply negb_true_iff, Z.eqb_neq).
    assert (process_thread_can_detach k (t_process (thr k thread)) thread = true) as -> by (apply can_detach_spec; [done|by apply negb_true_iff, Z.eqb_neq|done]).
    by destruct D6 as [-> | ->].
Qed.

(** What destruction leaves: the thread has left the registry and the list of its
    process, the frames of its stack are free, and its record holds nothing. *)
Record destroyed_thread (s s' : Threads) (thread : Z) : Prop := {
  dd_live : live (storage s) ≡ₚ thread :: live (storage s');
  dd_record : thr (kn s') thread =
    mkThread 0 0 0 0 THREAD_STATE_DEAD 0 0 0 0 0 0 0 false false THREAD_WAIT_NONE THREAD_WAIT_RESULT_NONE 0 0 0 false 0;
  dd_frames : forall j, t_owns_kernel_stack (thr (kn s) thread) = true -> 0 <= j < 4 ->
    pool (vm (j_arena s')) (t_kernel_stack_physical (thr (kn s) thread) / 4096 + j);
  dd_list : p_thread_count (prc (kn s) (t_process (thr (kn s) thread))) < 2 ^ 64 ->
    exists l1 l2, thread_list (kn s) (t_process (thr (kn s) thread)) (l1 ++ thread :: l2) /\
      thread_list (kn s') (t_process (thr (kn s) thread)) (l1 ++ l2) }.

Lemma removed_destroyed s s' thread :
  removed s s' thread -> destroy_allowed (kn s) thread -> destroyed_thread s s' thread.
Proof.
  intros [R1 R2 R3 R4] D. split; [done| | |].
  - rewrite R2. unfold destroyed. pose proof (da_capabilities _ _ D) as Hc. destruct (thr (kn s) thread). cbn in *. by subst.
  - intros j Ho Hj. apply (R3 (t_kernel_stack_physical (thr (kn s) thread))); [unfold own_stack; by rewrite Ho|]. apply elem_of_frames. lia.
  - intros Hb. destruct (da_process _ _ D) as (_ & _ & l & Hl & Hin). apply list_elem_of_split in Hin as (l1 & l2 & ->).
    exists l1, l2. split; [done|]. by apply R4.
Qed.

(** C18. Destroying a thread never halts the kernel, keeps the state well formed
    and conserves the frames. It succeeds only for a registered thread that is on
    the list of its usable process, is not the current one, is READY or DEAD, is
    not queued, waits for nothing and is named by no capability; and for every such
    thread, on the kernel map and with no fault armed. After a success the thread
    has left the registry and the list of its process, its record is all zero with
    the state DEAD, and the four frames of its own stack are free; when it is
    refused the kernel objects are as before. *)
Theorem thread_destroy_transaction thread s :
  stacks_wf s ->
  exists b s', thread_destroy thread s = Some (b, s') /\ stacks_wf s' /\ conserved s s' /\
    (if b then destroyed_thread s s' thread else kn s' = kn s) /\
    (b = true -> destroy_allowed (kn s) thread) /\
    (destroy_allowed (kn s) thread -> kernel_map_active (j_arena s) = true -> g_free_fault_armed (pages_pmm s) = false -> b = true).
Proof.
  intros W. destruct (thread_destroy_call thread s W) as (b & s' & E & [G1 G2] & H1 & H2 & H3).
  rewrite (destroyable_spec _ _ (sw_registry _ W)) in H2, H3. exists b, s'. split_and!; try done.
  destruct b; [by apply removed_destroyed; [|apply H2]|done].
Qed.

(** * A concrete machine *)

(** The kernel process is initialised, threads are not. *)
Definition thread_kernel (k : Kernel) : Kernel :=
  k <| k_prc := mkObjectMod 2 true (storage_set 0 g_kernel_process (replicate 128 0)) |>
    <| k_processes := {[g_kernel_process := process_zero <| p_id := 1 |> <| p_address_space := g_kernel_space |> <| p_kernel := true |> <| p_initialized := true |>]} |>
    <| k_thr := mkThreadMod 0 0 1 false (replicate 512 0) 0 0 |> <| k_threads := ∅ |>.

Definition before_threads (y : System) : Arena := set_kern (thread_kernel (y_kernel y)) (mkArena y 0 false).

(** Threads are initialised on the stack taken before. *)
Definition boot_threads (y : System) : bool * Arena := thread_system_init g_kernel_process 0x101000 0x4000 0x105000 (before_threads y).

Definition threads_of (a : Arena) : Threads :=
  let s := mkThreads a 0 0 thread_fault_zero in set_pmm (pmm_enable_phys_map_access (pages_pmm s)).2 s.

Definition thread_demo : Threads := threads_of (boot_threads stack_system).2.

Lemma boot_threads_wf y :
  spaces_wf y -> v_use_phys_map (y_vmm y) = true -> (forall (i : nat) base, slot_stack_base (Z.of_nat i) = Some base -> absent (mkArena y 0 false) base) ->
  (boot_threads y).1 = true -> stacks_wf (mkThreads (boot_threads y).2 0 0 thread_fault_zero).
Proof.
  intros W Hd Hab Hb. assert (arena_wf (before_threads y)) as A by (apply kern_wf; [by split|done|done]).
  pose proof (system_init_call g_kernel_process 0x101000 0x4000 0x105000 (before_threads y) A ltac:(by split)) as H. fold (boot_threads y) in H.
  destruct (boot_threads y) as [b a]. cbn [fst snd] in *. subst b. apply H; [|exact (replicate_unused 512 ltac:(lia) eq_refl)|exact Hab|done].
  intros p. unfold process_address_space. if_case; [by left|]. unfold prc. change (k_processes (kern (before_threads y))) with (k_processes (thread_kernel (y_kernel y))).
  destruct (decide (p = g_kernel_process)) as [->|Hne]; [right; exact (proj1 (kernel_live _ (aw_wf _ A)))|left].
  assert (k_processes (thread_kernel (y_kernel y)) !! p = None) as -> by (apply lookup_singleton_ne; congruence). done.
Qed.

(** The allocator moves to the direct map. *)
Lemma threads_of_wf a : stacks_wf (mkThreads a 0 0 thread_fault_zero) -> stacks_wf (threads_of a).
Proof.
  intros W. unfold threads_of. cbv zeta. set (s := mkThreads a 0 0 thread_fault_zero) in *.
  pose proof (vw_pmm _ (rn_wf _ (sp_running _ (aw_wf _ (sw_arena _ W))))) as WP. fold (pages_pmm s) in WP. pose proof WP as [P1 P2 P3 P4 P5 P6 P7 P8 P9 P10 P11 P12].
  apply pmm_good; [done|..]; unfold pmm_enable_phys_map_access; (if_case; [done|]; if_case; [done|]; bool_prop; try done; by split).
Qed.

Lemma slots_absent (i : nat) base : slot_stack_base (Z.of_nat i) = Some base -> absent (mkArena stack_system 0 false) base.
Proof.
  assert (forallb (fun i => match slot_stack_base i with
    | Some b => forallb (fun j => match vmm_query_page (y_vmm stack_system) K (b + j * 4096) with None => true | _ => false end) [-1; 0; 1; 2; 3; 4]
    | None => true end) (seqZ 0 513) = true) as H by (by vm_compute).
  intros Hb j Hj. rewrite forallb_forall in H. specialize (H (Z.of_nat i)). rewrite Hb in H. destruct (slot_base_spec _ _ (Nat2Z.is_nonneg _) Hb) as (Hi & _).
  rewrite forallb_forall in H. specialize (H ltac:(apply list_elem_of_In, elem_of_seqZ; lia) j). cbn [r_system y_vmm]. destruct (vmm_query_page _ _ _); [|done].
  exfalso. enough (false = true) by done. apply H. cbn. lia.
Qed.

Lemma thread_demo_wf : stacks_wf thread_demo.
Proof.
  apply threads_of_wf. destruct stack_system_wf as [W _]. pose proof slots_absent as Hab.
  assert (v_use_phys_map (y_vmm stack_system) = true) as Hd by (by vm_compute). assert ((boot_threads stack_system).1 = true) as Hb by (by vm_compute).
  set (y := stack_system) in *. clearbody y. by apply boot_threads_wf.
Qed.

Lemma thread_demo_creatable : creatable thread_demo 0x40000 g_kernel_process [g_bootstrap_thread].
Proof.
  assert (set_Forall (fun f => f + 3 < 2 ^ 40 /\ nz (phys_to_virt (f * 4096)) = true) (free_set (pages_pmm thread_demo))) as Hd by (apply (bool_decide_unpack _); by vm_compute).
  assert (span 271 4 ⊆ free_set (pages_pmm thread_demo)) as Hm by (apply (bool_decide_unpack _); by vm_compute).
  assert (0x40000 ∉ live (storage thread_demo)) as Hl by (apply (bool_decide_unpack _); by vm_compute).
  split; try exact Hd; try (by exists 271).
  - split; [lia|exact Hl].
  - by vm_compute.
  - by vm_compute.
  - by vm_compute.
  - by vm_compute.
  - split; [|by vm_compute; split; [set_solver|]]. split; [by vm_compute..| |by vm_compute]. intros t Ht. apply list_elem_of_singleton in Ht as ->. by vm_compute.
  - by vm_compute.
  - by vm_compute.
Qed.

(** A thread is constructed for the kernel process; with faults injected into
    its last step and into the roll-back its stack stays pending. *)
Lemma thread_create_transaction_witness :
  (exists s', thread_create 0x40000 g_kernel_process thread_demo = Some (true, s') /\ stacks_wf s' /\ conserved thread_demo s' /\
     created thread_demo s' 0x40000 g_kernel_process) /\
  (fun '(b, s) => (b, thread_creation_cleanup_pending s)) <$>
    thread_create 0x40000 g_kernel_process (thread_test_fail_create_once 0x40000 THREAD_CREATE_TEST_ATTACH true thread_demo).2 = Some (false, true).
Proof.
  split; [|by vm_compute].
  pose proof thread_demo_wf as W. pose proof thread_demo_creatable as C. set (s := thread_demo) in *. clearbody s.
  destruct (thread_create_transaction 0x40000 g_kernel_process [g_bootstrap_thread] s W) as (b & s' & H & H1 & H2 & H3 & H4).
  rewrite (H4 C) in H, H3. exists s'. split; [exact H|]. split; [exact H1|]. split; [exact H2|exact H3].
Defined.

(** The machine with the thread. *)
Definition thread_made : Threads := match thread_create 0x40000 g_kernel_process thread_demo with Some (_, s) => s | None => thread_demo end.

Lemma thread_made_wf : stacks_wf thread_made.
Proof.
  unfold thread_made. pose proof thread_demo_wf as W. set (s := thread_demo) in *. clearbody s.
  destruct (thread_create_call 0x40000 g_kernel_process [] s W) as (b & s' & -> & G & _). apply G.
Qed.

(** The thread is destroyed; its stack is kept when the release of its frames
    fails. *)
Lemma thread_destroy_transaction_witness :
  (exists s', thread_destroy 0x40000 thread_made = Some (true, s') /\ stacks_wf s' /\ conserved thread_made s' /\ destroyed_thread thread_made s' 0x40000) /\
  fst <$> thread_destroy 0x40000 (set_pmm (pmm_test_fail_free_range_once 271 4 (pages_pmm thread_made)).2 thread_made) = Some false.
Proof.
  split; [|by vm_compute].
  assert (fst <$> thread_destroy 0x40000 thread_made = Some true) as E by (by vm_compute).
  pose proof thread_made_wf as W. set (s := thread_made) in *. clearbody s.
  destruct (thread_destroy_transaction 0x40000 s W) as (b & s' & H & H1 & H2 & H3 & _).
  rewrite H in E. injection E as ->. exists s'. split; [exact H|]. split; [exact H1|]. split; [exact H2|exact H3].
Defined.
